(* ===== verification/_CoqProject ===== *)
-Q . S2P
Prelude.v
Tables.v
Galois.v
RSTypes.v
Matrix.v
EncodingMatrix.v
InversionTree.v
Options.v
LeopardTypes.v
Coding.v
IO.v
Codec.v
LeopardFFT.v
Leopard8.v
Leopard8Codec.v
Stream.v
FileCodec.v
SplitJoin.v
GaloisField.v
MatrixField.v
EncodingMDS.v
CodecCorrect.v
Reconstruct.v
NewEncoder.v
StreamCorrect.v
StreamRecover.v
LeopardNetwork.v
LeopardPoly.v
Leopard8Field.v
Leopard8Walsh.v
Leopard8Kernels.v
Leopard8Space.v
Leopard8Buffers.v
Leopard8Correct.v
Leopard8Bits.v
Leopard8Recover.v
CodecTheorems.v
CoreTheorems.v
Leopard8Theorems.v
StreamTheorems.v
FileCodecCorrect.v
FileTheorems.v
Command.v
Datamap.v
DatamapTheorems.v
LoadBalance.v
LoadBalanceTheorems.v
Workers.v
Transfer.v
Password.v
Operations.v
TransferCorrect.v
RemovalCorrect.v
RoundTrip.v
PasswordTheorems.v
Session.v
Config.v
ConfigTheorems.v
OperationsTheorems.v
Ranges.v
RangesTheorems.v
Crypt.v
CryptStream.v
CryptSeek.v
CryptTheorems.v
GoStrings.v
NameEncoding.v
Version.v
CryptNames.v
CryptSegments.v
CryptNamesTheorems.v
GoPath.v
FsPath.v
FsPathParse.v
FsPathTheorems.v
Encoder.v
EncoderCorrect.v
EncoderTheorems.v
March.v
MarchTheorems.v
