(* ===== verification/Prelude.v ===== *)
(** * A verified model of the distributed storage commands of this repository

    The repository is rclone with commands that store a file on several remotes:
    [dis_upload] encrypts a file, cuts it into data shards, adds parity shards
    with a Reed-Solomon code and puts every shard on a remote; [dis_download]
    fetches the shards, reconstructs the lost ones and puts the file together;
    [dis_rm] deletes the shards; [dis_ls] lists the files.  A map of the files, in
    a JSON file, says where the shards are and which operation is under way, so
    that the next command can settle one that was interrupted.  This library
    models that code: package reedsolomon, package dis_operations and the commands
    of src/cmd that call it, with the command runner of rclone and the window that
    starts them.

    ** The parts and the files

    The code, src/reedsolomon:
    - arithmetic of GF(2^8) (galois.go, galois_noasm.go, gentables.go): Tables
      has the committed multiplication tables, Galois the scalar operations, the
      slice kernels and the generator of the tables;
    - matrices (matrix.go, unsafe.go): Matrix and RSTypes; the five encoding
      matrices ([buildMatrix*] of reedsolomon.go): EncodingMatrix;
    - the cache of inverted matrices (inversion_tree.go): InversionTree;
    - options (options.go): Options; the coding loops and their goroutines
      ([codeSomeShards], [codeSomeShardsP]): Coding;
    - the encoder ([New] and the interface [Encoder] of reedsolomon.go): Codec;
    - the Leopard encoders, which [New] returns on request or for more than 256
      shards: LeopardTypes has their types and constructors, LeopardFFT the
      transforms that leopard.go and leopard8.go share, over any kind of buffer,
      Leopard8 the tables, kernels and error bit field of leopard8.go, and
      Leopard8Codec its operations;
    - the streaming encoder (streaming.go): Stream, over the interfaces of package
      io in IO; the encoding and decoding of files ([DoEncode], [DoDecode] of
      streaming.go): FileCodec.
    The commands, src/cmd and src/fs:
    - the runner [RunWithSustainOS] and the exit statuses (cmd.go), the counters of
      errors (accounting/stats.go): Command;
    - the map of files (datamap.go, dis_metadata.go, hash.go, dis_ls.go): Datamap;
    - the load balancer (dis_loadbalance.go, dis_metadata.go): LoadBalance;
    - the pools of workers (the channel and the [WaitGroup] of dis_upload.go and
      dis_download.go): Workers;
    - uploads, downloads and removals of shards by goroutines (dis_upload.go,
      dis_download.go, dis_rm.go): Transfer;
    - the passwords and the encryption of the whole directory (dis_password.go):
      Password;
    - the commands and the recovery (dis_upload.go, dis_download.go, dis_rm.go,
      dis_status.go, src/cmd/dis_upload, dis_download, dis_rm, dis_ls): Operations.
    - the window and its password dialogs (src/gui/main.go): Session;
    - [Config_upload], which restores a saved directory of rclone
      (dis_config/config.go): Config.
    The parts of rclone that hold its own algorithms, of which these are modelled:
    - sets of byte ranges, by which the cache of files knows what it has
      (src/lib/ranges/ranges.go): Ranges;
    - the streams, seeks and sizes of the crypt backend
      (src/backend/crypt/cipher.go, over src/lib/readers/readfill.go): Crypt;
    - the names of the crypt backend (cipher.go, src/backend/crypt/pkcs7):
      CryptNames, over the text encodings of NameEncoding and the versions in names
      (src/lib/version/version.go) of Version;
    - the names of remotes and connection strings (src/fs/fspath/path.go, and
      [Simple.String] of src/fs/config/configmap/configmap.go): FsPath;
    - the encodings of file names that the remotes use
      (src/lib/encoder/encoder.go, standard.go, os_windows.go): Encoder;
    - the march through a source and a destination, by which synchronisation compares
      them directory by directory (src/fs/march/march.go, src/fs/direntries.go): March.
    Packages utf8, strings, strconv, path and regexp of the standard library, as far
    as these use them, are in GoStrings and GoPath.

    The parts call each other as in the code.  Operations calls FileCodec for the
    shards of a file, Transfer for their way to the remotes, Datamap for the map
    and Password for the password; Transfer calls Command for every command of
    rclone and LoadBalance for the remote of a shard; FileCodec calls Stream,
    Stream calls Codec, Codec calls Coding, Matrix, EncodingMatrix and
    InversionTree, and these call Galois.

    ** How the code is translated

    A Go function that can fail is a function to [outcome]: [Ret] for a normal
    return, [Err] for an error, [Panic] for a run-time panic, [Timeout] for a loop
    of the model without fuel or for a goroutine that waits for ever.  A function
    that returns results with its error ([DoDecode], the operations of a stream)
    returns both.  Shards are lists of bytes ([N]), an [int] is a [Z] or, where it
    indexes a slice, a [nat]; wrap-around is written out where it can happen
    ([wrap64]).  Maps are [gmap]s.  The commands are written in the monad [M] of
    Transfer, which passes the world (disk, map of files, load balancer, counters,
    remotes, flags) and returns a value or an error; [os.Exit] is its exception.

    Concurrency: the coding goroutines are lists of calls to the kernels,
    interleaved in any order (Coding); the goroutines of a stream finish in any
    order (Stream); the workers of a pool are a step relation (Workers); the
    goroutines of a transfer make steps in the order a schedule says, any list of
    indices (Transfer).  A schedule that gives each shard four turns (two for a
    download or a removal) is one in which no goroutine is left behind.

    Fuel: [shrink] gets one more than the number of data shards, which a round
    lowers by ten; the ranges of [codeSomeShardsP] and [updateParityShardsP] get
    one more than the length of a shard, and every range is longer than 0; a loop
    over the blocks of streams gets one more than the length of the longest
    stream, and every block reads at least a byte; the [for dist4 <= m] loops of
    the Leopard transforms get log2 m + 1 rounds, and a round takes two layers
    away; the loops over sets of ranges get 2n + 3 rounds for n ranges, and a round
    goes on to the next end of a range; [ReadFill] gets a round for every byte; the
    merge of two listings gets one more than the number of entries, and a round passes
    over at least one.  The theorems give results that are not [Timeout].

    ** What is proved

    - CoreTheorems: the tables are the field GF(2^8) modulo the generating
      polynomial, [Invert] inverts exactly the invertible matrices, any rows of
      the default and of the Cauchy matrix are invertible, the cache is a finite
      map, every interleaving of the coding goroutines gives the matrix product
      (through GaloisField, MatrixField and EncodingMDS, on the linear algebra of
      MathComp).
    - CodecTheorems: [Encode] makes codewords, [Verify] decides them,
      [Reconstruct] and [ReconstructSome] give lost shards back, and where they
      do not (NewEncoder, CodecCorrect, Reconstruct, SplitJoin).
    - Leopard8Theorems: the 8-bit Leopard encoder makes codewords, [Verify] decides
      them, [Reconstruct] gives lost shards back in every state of the cache of
      locators that calls with few enough losses lead to, and every reconstruction
      does without a cache; two calls of [ReconstructData] of which the second is given
      a wrong locator by the cache; the numbers of parity shards for which [Encode] panics.  The
      passes of two layers are the recursive transform [fft] (LeopardNetwork), which
      evaluates polynomials in the basis of subspace polynomials (LeopardPoly); the
      tables are logarithms, skew factors and Walsh coefficients of the field
      (Leopard8Field, Leopard8Walsh); the kernels multiply and add bytes
      (Leopard8Kernels); a block is a vector over the field for every byte
      (Leopard8Space, Leopard8Buffers); then the encoder (Leopard8Correct), the error
      bit field (Leopard8Bits) and the decoder (Leopard8Recover).
    - StreamTheorems: the streaming encoder does the same on streams of any
      length, for every block size, size of reads and order of goroutines
      (StreamCorrect, StreamRecover).
    - FileTheorems: a file encoded by [DoEncode] is given back by [DoDecode] after
      the loss of as many shards as there is parity; the numbers of shards stay
      in their bounds; what happens to damaged shards (FileCodecCorrect).
    - Command: which errors a command swallows.
    - DatamapTheorems: the map stays well typed and its operations refine a map
      from files to their progress.
    - LoadBalanceTheorems: what each strategy chooses; the counter's overflow.
    - Workers: every run of a pool ends, with the main goroutine returned and every
      job done when all jobs reach [wg.Done()]; an upload without remotes hangs.
    - OperationsTheorems: an uploaded file is downloaded byte for byte in every
      schedule although the remotes have lost shards (TransferCorrect,
      RoundTrip); a removal deletes the shards and nothing else (RemovalCorrect); one
      recovery settles an interrupted operation; shards whose copies fail are recorded
      all the same, or the process ends, as the error says.
    - PasswordTheorems: locking and unlocking the directory; Session: what is left
      when the window is closed and what the next one gives back.
    - ConfigTheorems: what a restoration copies, and that a restoration of the
      directory from itself empties its files.
    - RangesTheorems: [Insert] adds exactly the bytes of a range and keeps the list
      sorted, apart and without empty ranges; what is found, missing and cut out.
    - CryptTheorems: an encrypter is a stream of the encrypted file and a decrypter over
      it a stream of the data, in every sequence of reads and over any readers, and the nonce of a block is the first one plus its number
      (CryptStream); reads and seeks are reads and seeks in the decrypted file
      (CryptSeek); damaged and shortened files; sizes; negative seeks.
    - CryptNamesTheorems: an encrypted name is decrypted to itself, in every mode and
      every encoding that keeps its law (base32 and base64 do: CryptSegments), and the
      names with versions that are not.
    - FsPathTheorems: the parameters of a remote that are written after its name are
      parsed again (FsPathParse); every byte of a path is in its parent or its leaf,
      and parsing never panics; a path is joined to the one of the
      remote, part by part, and stays below it; the expression for names is a rule on characters, and which names are
      made legal.
    - EncoderTheorems: [Decode] undoes [Encode] for every mask and exactly the names
      that are not of two ambiguous kinds, what encoded names do not contain, paths
      converted to a remote and back, masks as text (EncoderCorrect has the middle of a
      name, piece by piece, and its ends).
    - MarchTheorems: the merge of two sorted listings ([merge]) finds what a search for
      names and types finds and reports every entry once; a march makes the same calls
      and meets the same errors in every order of its goroutines, and always ends.

    ** Parameters

    The processor's features (package cpuid); the cipher (package filecrypt), of
    which is used that decryption undoes encryption and a cipher text is not
    empty; the digests sha256, of which is used that the names of the shards of
    one file do not collide; [float64], of which is used that the order of finite
    numbers is total; the order in which Go visits a map; the time a transfer
    takes; random numbers; the answers of the user; the walk of a directory; the
    buffers that the work pool of a Leopard encoder holds, of which is used that
    they have the size of a block; the box of package secretbox, of which is used
    that it opens what it sealed and adds 16 bytes; the readers and handles under
    an encrypted file, which give their bytes in pieces of any size and then their
    error again; the keys that scrypt derives, and AES under EME, of which is used
    that decryption undoes encryption and keeps the number of blocks; base32768, of
    which is used that it decodes what it encoded; the Unicode tables beyond ASCII,
    of which is used that U+FFFD is no letter; in a march the listings of the two sides,
    the callbacks, the name transformations and the order in which objects are found,
    which give the same answer each time; the remotes ([RemoteStore], with the laws
    [GoodStore] of remotes that do what they are asked).  Each law has an instance that satisfies it.

    ** Not modelled

    - The operations of the 16-bit Leopard encoder (leopard.go) beyond its
      constructor and the transforms, and the assembly kernels: the build without
      them is modelled.
    - The rest of rclone: the remotes talk to services, and the commands use them
      through [RemoteStore]; that an object is found is an answer yes or no, so that the
      end of the process when a remote cannot be opened is left out.  Paths of Windows; the priorities and the JSON form of
      the parameters of a remote; in a march the cancelling of the context and the
      one listing of the whole tree that --fast-list makes.  A command of rclone is one step of a schedule: that
      two commands running at once share the counters of errors is not modelled.
    - Failures of the disk other than a missing file; names that are not clean
      paths; text printed, logs and time stamps.
    - The copies of the configuration on the remotes (the [Sync] functions of
      package dis_config, whose calls in the commands are commented out), the
      questions to the user (dis_interaction.go); in the window (src/gui) what is
      drawn, the list of the files and the reading of the progress; what is done between
      its dialogs may change the disk in any way, and that the password was written is a
      hypothesis on it. *)
From Stdlib Require Import List Arith NArith ZArith Lia Bool.
Import ListNotations.

Set Implicit Arguments.

(** ** Outcomes of a Go computation

    [Ret a] is a normal return, [Err e] an [error] result that is not nil,
    [Panic] a run-time panic (index out of range, explicit [panic], division
    by zero) and [Timeout] says that the fuel of a loop of the model ran out;
    a theorem that gives a function's result shows that neither of the last
    two happens. *)
Inductive outcome (E A : Type) : Type :=
| Ret (a : A)
| Err (e : E)
| Panic
| Timeout.
Arguments Ret {E A} a.
Arguments Err {E A} e.
Arguments Panic {E A}.
Arguments Timeout {E A}.

Definition bind {E A B} (c : outcome E A) (k : A -> outcome E B) : outcome E B :=
  match c with
  | Ret a => k a
  | Err e => Err e
  | Panic => Panic
  | Timeout => Timeout
  end.

Declare Scope go_scope.
Delimit Scope go_scope with go.
Notation "x <- c ;; k" := (bind c (fun x => k))
  (at level 60, c at next level, right associativity) : go_scope.
Notation "' p <- c ;; k" := (bind c (fun x => let p := x in k))
  (at level 60, p pattern, c at next level, right associativity) : go_scope.
Open Scope go_scope.

(** [oc_spec o P Q]: the computation neither panics nor diverges, a normal
    return satisfies [P] and an error satisfies [Q]. *)
Definition oc_spec {E A} (o : outcome E A) (P : A -> Prop) (Q : E -> Prop) : Prop :=
  match o with
  | Ret a => P a
  | Err e => Q e
  | Panic => False
  | Timeout => False
  end.

Lemma oc_bind {E A B} (c : outcome E A) (k : A -> outcome E B) P Q R :
  oc_spec c P Q ->
  (forall a, P a -> oc_spec (k a) R Q) ->
  oc_spec (bind c k) R Q.
Proof. destruct c; simpl; intuition auto. Qed.

Lemma oc_weaken {E A} (o : outcome E A) (P P' : A -> Prop) (Q Q' : E -> Prop) :
  oc_spec o P Q -> (forall a, P a -> P' a) -> (forall e, Q e -> Q' e) ->
  oc_spec o P' Q'.
Proof. destruct o; simpl; auto. Qed.

Lemma oc_ret {E A} (o : outcome E A) P :
  oc_spec o P (fun _ => False) -> exists a, o = Ret a /\ P a.
Proof. destruct o; simpl; try tauto. eauto. Qed.

Lemma bind_ret_inv {E A B} (c : outcome E A) (k : A -> outcome E B) b :
  bind c k = Ret b -> exists a, c = Ret a /\ k a = Ret b.
Proof. destruct c; simpl; try discriminate. eauto. Qed.

(** ** Slices by index *)
Section Slices.
Context {E A : Type}.

(** [s[i]] *)
Definition idx (l : list A) (i : nat) : outcome E A :=
  match nth_error l i with
  | Some x => Ret x
  | None => Panic
  end.

Fixpoint set_nth (l : list A) (i : nat) (x : A) : list A :=
  match l, i with
  | [], _ => []
  | _ :: t, O => x :: t
  | h :: t, S i => h :: set_nth t i x
  end.

(** [s[i] = x] *)
Definition upd (l : list A) (i : nat) (x : A) : outcome E (list A) :=
  if i <? length l then Ret (set_nth l i x) else Panic.

Lemma idx_nth (d : A) l i : i < length l -> idx l i = Ret (nth i l d).
Proof. intros H. unfold idx. now rewrite (nth_error_nth' l d H). Qed.

Lemma length_set_nth l i x : length (set_nth l i x) = length l.
Proof. revert i; induction l as [|h t IH]; intros [|i]; simpl; auto. Qed.

Lemma nth_set_nth (d : A) l i j x :
  nth j (set_nth l i x) d = if (j =? i) && (i <? length l) then x else nth j l d.
Proof.
  revert i j; induction l as [|h t IH]; intros [|i] [|j]; simpl;
    rewrite ?andb_false_r; auto.
Qed.

Lemma nth_set_nth_eq (d : A) l i x : i < length l -> nth i (set_nth l i x) d = x.
Proof. intros H. rewrite nth_set_nth, Nat.eqb_refl. now apply Nat.ltb_lt in H as ->. Qed.

Lemma nth_set_nth_ne (d : A) l i j x : j <> i -> nth j (set_nth l i x) d = nth j l d.
Proof. intros H. rewrite nth_set_nth. now apply Nat.eqb_neq in H as ->. Qed.

Lemma upd_ret l i x : i < length l -> upd l i x = Ret (set_nth l i x).
Proof. intros H. unfold upd. now apply Nat.ltb_lt in H as ->. Qed.

(** Two lists of one length that agree at every index are equal. *)
Lemma list_ext (d : A) l1 l2 :
  length l1 = length l2 -> (forall i, i < length l1 -> nth i l1 d = nth i l2 d) -> l1 = l2.
Proof. intros Hl Hi. now apply (nth_ext _ _ d d). Qed.
End Slices.

(** ** Loops *)
Section Loops.
Context {E St : Type}.

(** [for i := lo; i < lo + n; i++ { st = body(i, st) }] *)
Fixpoint for_n (n lo : nat) (body : nat -> St -> outcome E St) (st : St) : outcome E St :=
  match n with
  | O => Ret st
  | S n => bind (body lo st) (for_n n (S lo) body)
  end.

(** [for i := lo; i < hi; i++ { st = body(i, st) }] *)
Definition for_loop (lo hi : nat) (body : nat -> St -> outcome E St) (st : St) : outcome E St :=
  for_n (hi - lo) lo body st.

(** The loop rule: an invariant on the index and the state. *)
Lemma for_n_rule (I : nat -> St -> Prop) (Q : E -> Prop) n : forall lo body st,
  I lo st ->
  (forall i s, lo <= i < lo + n -> I i s -> oc_spec (body i s) (I (S i)) Q) ->
  oc_spec (for_n n lo body st) (I (lo + n)) Q.
Proof.
  induction n as [|n IH]; intros lo body st H0 Hb; simpl.
  - now rewrite Nat.add_0_r.
  - apply oc_bind with (P := I (S lo)).
    + apply Hb; [lia | auto].
    + intros a Ha. replace (lo + S n) with (S lo + n) by lia.
      apply IH; [auto |]. intros i s Hi. apply Hb; lia.
Qed.

Lemma for_loop_rule (I : nat -> St -> Prop) (Q : E -> Prop) lo hi body st :
  lo <= hi -> I lo st ->
  (forall i s, lo <= i < hi -> I i s -> oc_spec (body i s) (I (S i)) Q) ->
  oc_spec (for_loop lo hi body st) (I hi) Q.
Proof.
  intros Hle H0 Hb. unfold for_loop.
  replace hi with (lo + (hi - lo)) at 2 by lia.
  apply for_n_rule; [auto |]. intros i s Hi. apply Hb; lia.
Qed.

Lemma for_loop_empty lo hi body st : hi <= lo -> for_loop lo hi body st = Ret st.
Proof. intros H. unfold for_loop. now replace (hi - lo) with 0 by lia. Qed.

(** [for cond(st) { st = body(st) }], with fuel *)
Fixpoint while_loop (fuel : nat) (cond : St -> bool) (body : St -> outcome E St)
    (st : St) : outcome E St :=
  match fuel with
  | O => Timeout
  | S fuel => if cond st then bind (body st) (while_loop fuel cond body) else Ret st
  end.

(** A variant that decreases bounds the fuel the loop needs. *)
Lemma while_rule (I : St -> Prop) (Q : E -> Prop) (m : St -> nat) fuel : forall cond body st,
  I st -> m st < fuel ->
  (forall s, I s -> cond s = true -> oc_spec (body s) (fun s' => I s' /\ m s' < m s) Q) ->
  oc_spec (while_loop fuel cond body st) (fun s => I s /\ cond s = false) Q.
Proof.
  induction fuel as [|fuel IH]; intros cond body st HI Hm Hb; [lia |].
  simpl. destruct (cond st) eqn:Hc; [| now split].
  eapply oc_bind; [now apply Hb |]. intros s [Hs Hlt]. apply IH; auto; lia.
Qed.
End Loops.

(** [for _, x := range l { ys = append(ys, f(x)) }] *)
Fixpoint mapM {E A B} (f : A -> outcome E B) (l : list A) : outcome E (list B) :=
  match l with
  | [] => Ret []
  | x :: l => y <- f x ;; ys <- mapM f l ;; Ret (y :: ys)
  end.

Lemma mapM_ret {E A B} (f : A -> outcome E B) (g : A -> B) l :
  (forall x, In x l -> f x = Ret (g x)) -> mapM f l = Ret (map g l).
Proof.
  induction l as [|x l IH]; intros H; simpl; [auto |].
  rewrite H by now left. simpl. rewrite IH; [auto |]. intros y Hy. apply H. now right.
Qed.

(** The updates of a slice at the indices of a loop, one each: the result is a
    map of the updates over the range, and everything else is unchanged. *)
Lemma for_update {E A} (f : nat -> A -> outcome E A) (g : nat -> A -> A) (d : A) lo hi l :
  lo <= hi <= length l ->
  (forall i, lo <= i < hi -> f i (nth i l d) = Ret (g i (nth i l d))) ->
  exists l', for_loop lo hi (fun i st => x <- idx st i ;; y <- f i x ;; upd st i y) l = Ret l'
    /\ length l' = length l
    /\ forall i, nth i l' d = if (lo <=? i) && (i <? hi) then g i (nth i l d) else nth i l d.
Proof.
  intros Hlen Hf. apply oc_ret.
  eapply oc_weaken with (P := fun s => length s = length l /\
      forall i, nth i s d = if (lo <=? i) && (i <? hi) then g i (nth i l d) else nth i l d)
      (Q := fun _ => False); auto.
  apply for_loop_rule with (I := fun k s => length s = length l /\
      forall i, nth i s d = if (lo <=? i) && (i <? k) then g i (nth i l d) else nth i l d).
  - lia.
  - split; auto. intros i. destruct (Nat.leb_spec lo i), (Nat.ltb_spec i lo); simpl; auto; lia.
  - intros k s Hk [Hl Hs].
    rewrite (idx_nth d) by lia. simpl.
    rewrite Hs, Nat.ltb_irrefl, andb_false_r.
    rewrite Hf by lia. simpl. rewrite upd_ret by lia. simpl.
    rewrite length_set_nth. split; [auto |]. intros i. rewrite nth_set_nth, Hs, Hl.
    destruct (Nat.eqb_spec i k) as [->|Hne].
    + destruct (Nat.ltb_spec k (length l)), (Nat.leb_spec lo k), (Nat.ltb_spec k (S k)); simpl; auto; lia.
    + destruct (Nat.leb_spec lo i), (Nat.ltb_spec i k), (Nat.ltb_spec i (S k)); simpl; auto; lia.
Qed.

(** ** Integers of 64 bits *)

(** A Go [int] or [int64] *)
Definition wrap64 (n : Z) : Z := ((n + 2 ^ 63) mod 2 ^ 64 - 2 ^ 63)%Z.

Lemma wrap64_small n : (- 2 ^ 63 <= n < 2 ^ 63)%Z -> wrap64 n = n.
Proof. intros Hn. unfold wrap64. rewrite Z.mod_small by lia. lia. Qed.

(** ** Lists *)
Section Lists.
Context {A B : Type}.

Lemma nth_map_in (f : A -> B) l (d : A) (d' : B) i :
  i < length l -> nth i (map f l) d' = f (nth i l d).
Proof.
  intros H. rewrite (nth_indep _ d' (f d)) by now rewrite length_map. apply map_nth.
Qed.

Lemma nth_repeat_in (x d : A) n i : i < n -> nth i (repeat x n) d = x.
Proof. intros H. rewrite (nth_indep _ d x) by now rewrite repeat_length. apply nth_repeat. Qed.

Lemma nth_firstn_in (l : list A) d n i : i < n -> nth i (firstn n l) d = nth i l d.
Proof.
  revert l i; induction n as [|n IH]; intros [|x l] [|i] H; simpl; auto; try lia.
  apply IH. lia.
Qed.

Lemma filter_true (l : list A) : filter (fun _ => true) l = l.
Proof. induction l as [|x l IH]; cbn; now f_equal. Qed.

Lemma firstn_add a b (l : list A) : firstn (a + b) l = firstn a l ++ firstn b (skipn a l).
Proof.
  revert l; induction a as [|a IH]; intros [|x l]; cbn; auto; [now rewrite firstn_nil | now f_equal].
Qed.

Lemma skipn_repeat (x : A) a b : skipn a (repeat x b) = repeat x (b - a).
Proof. revert a; induction b as [|b IH]; intros [|a]; cbn; auto. Qed.

Lemma firstn_repeat_le (x : A) a b : a <= b -> firstn a (repeat x b) = repeat x a.
Proof. revert a; induction b as [|b IH]; intros [|a] H; cbn; auto; [lia |]. f_equal. apply IH. lia. Qed.

Lemma firstn_S_nth (d : A) l k : k < length l -> firstn (S k) l = firstn k l ++ [nth k l d].
Proof.
  revert k; induction l as [|x l IH]; intros [|k] H; cbn in *; auto; try lia. f_equal. apply IH. lia.
Qed.

Lemma nth_skipn_add (l : list A) d n i : nth i (skipn n l) d = nth (n + i) l d.
Proof. revert l; induction n as [|n IH]; intros [|x l]; simpl; auto. now destruct i. Qed.
(** Induction over the blocks of a list *)
Lemma blocks_ind (k : nat) (P : list A -> Prop) : 0 < k -> P [] -> (forall l, l <> [] -> P (skipn k l) -> P l) -> forall l, P l.
Proof.
  intros Hk H1 H2 l. remember (length l) as n eqn:E. assert (Hn : length l <= n) by lia. clear E. revert l Hn.
  induction n as [|n IH]; intros l Hn; [destruct l; [auto | cbn in Hn; lia] |].
  destruct l as [|x l]; [auto |]. apply H2; [congruence |]. apply IH. rewrite length_skipn. cbn [length] in *. lia.
Qed.

End Lists.
Arguments blocks_ind {A} k P _ _ _ _.

Lemma nth_seq_map {B} (f : nat -> B) (d : B) n i : i < n -> nth i (map f (seq 0 n)) d = f i.
Proof.
  intros H. rewrite (nth_map_in f (seq 0 n) 0) by now rewrite length_seq.
  now rewrite seq_nth.
Qed.

(** Element-wise combination; the result has the length of the shorter list. *)
Fixpoint map2 {A B C} (f : A -> B -> C) (l1 : list A) (l2 : list B) : list C :=
  match l1, l2 with
  | x :: l1, y :: l2 => f x y :: map2 f l1 l2
  | _, _ => []
  end.

Lemma length_map2 {A B C} (f : A -> B -> C) l1 l2 :
  length (map2 f l1 l2) = Nat.min (length l1) (length l2).
Proof. revert l2; induction l1 as [|x l1 IH]; intros [|y l2]; simpl; auto. Qed.

Lemma nth_map2 {A B C} (f : A -> B -> C) l1 l2 i d1 d2 d :
  i < length l1 -> i < length l2 -> nth i (map2 f l1 l2) d = f (nth i l1 d1) (nth i l2 d2).
Proof.
  revert l2 i; induction l1 as [|x l1 IH]; intros [|y l2] [|i]; simpl; auto; try lia.
  intros. apply IH; lia.
Qed.

Lemma map2_app {A B C} (f : A -> B -> C) l1 l2 l1' l2' :
  length l1 = length l2 -> map2 f (l1 ++ l1') (l2 ++ l2') = map2 f l1 l2 ++ map2 f l1' l2'.
Proof.
  revert l2; induction l1 as [|x l1 IH]; intros [|y l2]; simpl; auto; try lia.
  intros H. f_equal. apply IH. lia.
Qed.

(** ** Tactics and hints *)
Create HintDb go discriminated.
#[export] Hint Resolve oc_bind oc_weaken : go.
#[export] Hint Rewrite @length_set_nth @length_map @length_seq @repeat_length
  @length_firstn @length_skipn @length_app @length_map2 : lens.

(** Case on the boolean test of the goal's first [if] and record it. *)
Ltac if_case := match goal with
  | |- context [if ?b then _ else _] => let H := fresh "Hif" in destruct b eqn:H
  end.

(** Split the visible conjunctions of the goal, without unfolding. *)
Ltac splits := repeat match goal with |- _ /\ _ => split end.

(** Split a hypothesis that a monadic computation returned. *)
Ltac inv_ret := repeat match goal with
  | H : bind _ _ = Ret _ |- _ =>
      let a := fresh "v" in let H1 := fresh "Hc" in
      apply bind_ret_inv in H; destruct H as (a & H1 & H)
  | H : Ret _ = Ret _ |- _ => injection H as H; subst
  end.

(** Equations between exclusive ors of the same terms. *)
Ltac nxor :=
  apply N.bits_inj; let i := fresh "i" in intro i; rewrite ?N.lxor_spec, ?N.bits_0;
  repeat match goal with |- context [N.testbit ?x i] => destruct (N.testbit x i) end;
  reflexivity.

Ltac lens := autorewrite with lens in *; try lia.
