(* ===== verification/Galois.v ===== *)
(** * 8-bit Galois field arithmetic (src/reedsolomon/galois.go, galois_noasm.go,
    gentables.go)

    A byte is an [N] below 256.  The tables are the committed ones (the
    multiplication tables are in Tables.v); they are shown to be what the
    generator of gentables.go prints and the products of the field. *)
From Stdlib Require Import List Arith NArith ZArith Lia Bool.
From S2P Require Import Prelude Tables.
Import ListNotations.
Local Open Scope N_scope.

Definition fieldSize : N := 256.

Definition generatingPolynomial : N := 29.

Definition logTable : list N :=
  [ 0; 0; 1; 25; 2; 50; 26; 198; 3; 223; 51; 238; 27; 104; 199; 75;
    4; 100; 224; 14; 52; 141; 239; 129; 28; 193; 105; 248; 200; 8; 76; 113;
    5; 138; 101; 47; 225; 36; 15; 33; 53; 147; 142; 218; 240; 18; 130; 69;
    29; 181; 194; 125; 106; 39; 249; 185; 201; 154; 9; 120; 77; 228; 114; 166;
    6; 191; 139; 98; 102; 221; 48; 253; 226; 152; 37; 179; 16; 145; 34; 136;
    54; 208; 148; 206; 143; 150; 219; 189; 241; 210; 19; 92; 131; 56; 70; 64;
    30; 66; 182; 163; 195; 72; 126; 110; 107; 58; 40; 84; 250; 133; 186; 61;
    202; 94; 155; 159; 10; 21; 121; 43; 78; 212; 229; 172; 115; 243; 167; 87;
    7; 112; 192; 247; 140; 128; 99; 13; 103; 74; 222; 237; 49; 197; 254; 24;
    227; 165; 153; 119; 38; 184; 180; 124; 17; 68; 146; 217; 35; 32; 137; 46;
    55; 63; 209; 91; 149; 188; 207; 205; 144; 135; 151; 178; 220; 252; 190; 97;
    242; 86; 211; 171; 20; 42; 93; 158; 132; 60; 57; 83; 71; 109; 65; 162;
    31; 45; 67; 216; 183; 123; 164; 118; 196; 23; 73; 236; 127; 12; 111; 246;
    108; 161; 59; 82; 41; 157; 85; 170; 251; 96; 134; 177; 187; 204; 62; 90;
    203; 89; 95; 176; 156; 169; 160; 81; 11; 245; 22; 235; 122; 117; 44; 215;
    79; 174; 213; 233; 230; 231; 173; 232; 116; 214; 244; 234; 168; 80; 88; 175 ].

Definition expTable : list N :=
  [ 1; 2; 4; 8; 16; 32; 64; 128; 29; 58; 116; 232; 205; 135; 19; 38;
    76; 152; 45; 90; 180; 117; 234; 201; 143; 3; 6; 12; 24; 48; 96; 192;
    157; 39; 78; 156; 37; 74; 148; 53; 106; 212; 181; 119; 238; 193; 159; 35;
    70; 140; 5; 10; 20; 40; 80; 160; 93; 186; 105; 210; 185; 111; 222; 161;
    95; 190; 97; 194; 153; 47; 94; 188; 101; 202; 137; 15; 30; 60; 120; 240;
    253; 231; 211; 187; 107; 214; 177; 127; 254; 225; 223; 163; 91; 182; 113; 226;
    217; 175; 67; 134; 17; 34; 68; 136; 13; 26; 52; 104; 208; 189; 103; 206;
    129; 31; 62; 124; 248; 237; 199; 147; 59; 118; 236; 197; 151; 51; 102; 204;
    133; 23; 46; 92; 184; 109; 218; 169; 79; 158; 33; 66; 132; 21; 42; 84;
    168; 77; 154; 41; 82; 164; 85; 170; 73; 146; 57; 114; 228; 213; 183; 115;
    230; 209; 191; 99; 198; 145; 63; 126; 252; 229; 215; 179; 123; 246; 241; 255;
    227; 219; 171; 75; 150; 49; 98; 196; 149; 55; 110; 220; 165; 87; 174; 65;
    130; 25; 50; 100; 200; 141; 7; 14; 28; 56; 112; 224; 221; 167; 83; 166;
    81; 162; 89; 178; 121; 242; 249; 239; 195; 155; 43; 86; 172; 69; 138; 9;
    18; 36; 72; 144; 61; 122; 244; 245; 247; 243; 251; 235; 203; 139; 11; 22;
    44; 88; 176; 125; 250; 233; 207; 131; 27; 54; 108; 216; 173; 71; 142; 1 ].

Definition invTable : list N :=
  [ 0; 1; 142; 244; 71; 167; 122; 186; 173; 157; 221; 152; 61; 170; 93; 150;
    216; 114; 192; 88; 224; 62; 76; 102; 144; 222; 85; 128; 160; 131; 75; 42;
    108; 237; 57; 81; 96; 86; 44; 138; 112; 208; 31; 74; 38; 139; 51; 110;
    72; 137; 111; 46; 164; 195; 64; 94; 80; 34; 207; 169; 171; 12; 21; 225;
    54; 95; 248; 213; 146; 78; 166; 4; 48; 136; 43; 30; 22; 103; 69; 147;
    56; 35; 104; 140; 129; 26; 37; 97; 19; 193; 203; 99; 151; 14; 55; 65;
    36; 87; 202; 91; 185; 196; 23; 77; 82; 141; 239; 179; 32; 236; 47; 50;
    40; 209; 17; 217; 233; 251; 218; 121; 219; 119; 6; 187; 132; 205; 254; 252;
    27; 84; 161; 29; 124; 204; 228; 176; 73; 49; 39; 45; 83; 105; 2; 245;
    24; 223; 68; 79; 155; 188; 15; 92; 11; 220; 189; 148; 172; 9; 199; 162;
    28; 130; 159; 198; 52; 194; 70; 5; 206; 59; 13; 60; 156; 8; 190; 183;
    135; 229; 238; 107; 235; 242; 191; 175; 197; 100; 7; 123; 149; 154; 174; 182;
    18; 89; 165; 53; 101; 184; 163; 158; 210; 247; 98; 90; 133; 125; 168; 58;
    41; 113; 200; 246; 249; 67; 215; 214; 16; 115; 118; 120; 153; 10; 25; 145;
    20; 63; 230; 240; 134; 177; 226; 241; 250; 116; 243; 180; 109; 33; 178; 106;
    227; 231; 181; 234; 3; 143; 211; 201; 66; 212; 232; 117; 127; 255; 126; 253 ].

(** An array of 256 elements indexed by a byte: the index is always in range. *)
Definition at_byte (t : list N) (b : N) : N := nth (N.to_nat b) t 0.

(** ** The table generator, gentables.go *)

Definition generateExpTable : list N :=
  fold_left
    (fun result i =>
       let log := N.to_nat (nth i logTable 0) in
       set_nth (set_nth result log (N.of_nat i)) (log + N.to_nat fieldSize - 1) (N.of_nat i))
    (seq 1 255) (repeat 0 (N.to_nat fieldSize * 2 - 2)%nat).

Definition bytes256 : list N := map N.of_nat (seq 0 256).

Definition generateMulTableSplit (expTable : list N) : list (list N) :=
  map (fun a => map (fun b =>
    if (a =? 0) || (b =? 0) then 0
    else let logA := at_byte logTable a in
         let logB := at_byte logTable b in
         nth (N.to_nat (logA + logB)) expTable 0) bytes256) bytes256.

(** One entry of the split tables: the product of [a] with a low or high nibble. *)
Definition halfEntry (expTable : list N) (a b : N) : N :=
  if negb ((a =? 0) || (b =? 0)) then
    nth (N.to_nat (at_byte logTable a + at_byte logTable b)) expTable 0
  else 0.

Definition generateMulTableHalf (expTable : list N) : list (list N) * list (list N) :=
  (map (fun a => map (halfEntry expTable a) (filter (fun b => N.land b 0xf =? b) bytes256)) bytes256,
   map (fun a => map (halfEntry expTable a) (filter (fun b => N.land b 0xf0 =? b) bytes256)) bytes256).

(** ** Field operations, galois.go *)

Definition galAdd (a b : N) : N := N.lxor a b.

Definition galMultiply (a b : N) : N := at_byte (nth (N.to_nat a) mulTable []) b.

Definition galDivide {E} (a b : N) : outcome E N :=
  if a =? 0 then Ret 0
  else if b =? 0 then Panic
  else
    let logA := Z.of_N (at_byte logTable a) in
    let logB := Z.of_N (at_byte logTable b) in
    let logResult := (logA - logB)%Z in
    let logResult := (if logResult <? 0 then logResult + 255 else logResult)%Z in
    Ret (at_byte expTable (Z.to_N (logResult mod 256))).

Definition galOneOver {E} (a : N) : outcome E N :=
  if a =? 0 then Panic
  else
    let logResult := N.lxor (at_byte logTable a) 255 in
    Ret (at_byte expTable logResult).

(** [galExp a n]; the loop subtracts 255 until the exponent is below 255. *)
Definition galExp {E} (a : N) (n : Z) : outcome E N :=
  if (n =? 0)%Z then Ret 1
  else if a =? 0 then Ret 0
  else
    let logA := Z.of_N (at_byte logTable a) in
    let logResult := (logA * n)%Z in
    logResult <- while_loop (S (Z.to_nat logResult))
      (fun r => 255 <=? r)%Z (fun r => Ret (r - 255)%Z) logResult ;;
    Ret (at_byte expTable (Z.to_N (logResult mod 256))).

(** ** Slices *)

(** [binary.LittleEndian.Uint64] and [PutUint64] on a slice of eight bytes *)
Fixpoint le_uint (l : list N) : N :=
  match l with
  | [] => 0
  | b :: t => N.lor b (N.shiftl (le_uint t) 8)
  end.

Fixpoint le_put (n : nat) (v : N) : list N :=
  match n with
  | O => []
  | S n => N.land v 255 :: le_put n (N.shiftr v 8)
  end.

Definition sub_list {A} (l : list A) (lo hi : nat) : list A := firstn (hi - lo) (skipn lo l).

(** [v := Uint64(out[lo:lo+8]) ^ Uint64(in[lo:lo+8])] *)
Definition xor_word (inS out : list N) (lo : nat) : list N :=
  le_put 8 (N.lxor (le_uint (sub_list out lo (lo + 8))) (le_uint (sub_list inS lo (lo + 8)))).

(** xor slices writing to out: whole 32-byte blocks as four 64-bit words, then
    the rest byte by byte. The state is (in, out, what is already written). *)
Definition sliceXorGo {E} (inn out : list N) : outcome E (list N) :=
  '(inn, out, done) <- while_loop (S (length out))
     (fun '(_, out, _) => (32 <=? length out)%nat)
     (fun '(inn, out, done) =>
        if (length inn <? 32)%nat then Panic
        else
          let inS := firstn 32 inn in
          let v0 := xor_word inS out 0 in
          let v1 := xor_word inS out 8 in
          let v2 := xor_word inS out 16 in
          let v3 := xor_word inS out 24 in
          Ret (skipn 32 inn, skipn 32 out, done ++ v0 ++ v1 ++ v2 ++ v3))
     (inn, out, []) ;;
  if (length out <? length inn)%nat then Panic
  else Ret (done ++ map2 (fun input o => N.lxor o input) inn out ++ skipn (length inn) out).

(** [out = out\[:len(in)\]; out[n] = mt\[in\[n\]\]]. *)
Definition galMulSlice {E} (c : N) (inn out : list N) : outcome E (list N) :=
  if (length out <? length inn)%nat then Panic
  else if c =? 1 then Ret (inn ++ skipn (length inn) out)
  else
    let mt := nth (N.to_nat c) mulTable [] in
    Ret (map (at_byte mt) inn ++ skipn (length inn) out).

Definition galMulSliceXor {E} (c : N) (inn out : list N) : outcome E (list N) :=
  if (length out <? length inn)%nat then Panic
  else if c =? 1 then
    o <- sliceXorGo inn (firstn (length inn) out) ;; Ret (o ++ skipn (length inn) out)
  else
    let mt := nth (N.to_nat c) mulTable [] in
    Ret (map2 (fun input o => N.lxor o (at_byte mt input)) inn out ++ skipn (length inn) out).

(** ** Specification: polynomials over GF(2) modulo x^8 + x^4 + x^3 + x^2 + 1 *)

(** Multiplication by x. *)
Definition xtime (a : N) : N :=
  let s := N.shiftl a 1 in
  if N.testbit s 8 then N.lxor s (256 + generatingPolynomial) else s.

(** Horner's rule over the [n] low bits of [b]. *)
Fixpoint pmul_bits (n : nat) (a b : N) : N :=
  match n with
  | O => 0
  | S n => N.lxor (if N.testbit b 0 then a else 0) (xtime (pmul_bits n a (N.shiftr b 1)))
  end.

Definition pmul (a b : N) : N := pmul_bits 8 a b.

(** The powers of the generator x. *)
Definition xpow (n : nat) : N := Nat.iter n xtime 1.

(** *** Checks over all bytes *)

Definition all_bytes (p : N -> bool) : bool := forallb p bytes256.

Lemma in_bytes256 a : In a bytes256 <-> a < 256.
Proof.
  unfold bytes256. rewrite in_map_iff. split.
  - intros (n & <- & Hn%in_seq). lia.
  - intros H. exists (N.to_nat a). rewrite in_seq. lia.
Qed.

Lemma all_bytes_spec p : all_bytes p = true <-> forall a, a < 256 -> p a = true.
Proof.
  unfold all_bytes. rewrite forallb_forall.
  split; intros H a Ha; apply H; now apply in_bytes256.
Qed.

Lemma nth_bytes256 {B} (f : N -> B) d a : a < 256 -> nth (N.to_nat a) (map f bytes256) d = f a.
Proof.
  intros H. unfold bytes256. rewrite map_map, nth_seq_map by lia. f_equal. lia.
Qed.

(** A boolean statement about every byte, decided by evaluation. *)
Ltac check_bytes a :=
  let H := fresh in
  intros H; revert a H; rewrite <- all_bytes_spec; vm_compute; reflexivity.

Lemma exp_log a : a < 256 -> (a =? 0) || (nth (N.to_nat (at_byte logTable a)) expTable 0 =? a) = true.
Proof. check_bytes a. Qed.

Lemma log_lt a : a < 256 -> (at_byte logTable a <? 255) = true.
Proof. check_bytes a. Qed.

Lemma exp_table_powers : expTable = map xpow (seq 0 256).
Proof. vm_compute. reflexivity. Qed.

Lemma xpow_255 : xpow 255 = 1.
Proof. vm_compute. reflexivity. Qed.

Lemma log_xpow : forallb (fun n => at_byte logTable (xpow n) =? N.of_nat n) (seq 0 255) = true.
Proof. vm_compute. reflexivity. Qed.

Lemma gen_exp_table_powers : generateExpTable = map xpow (seq 0 510).
Proof. vm_compute. reflexivity. Qed.

Lemma pmul_1_check b : b < 256 -> (pmul 1 b =? b) = true.
Proof. check_bytes b. Qed.

(** *** The algebra of the specification *)

Lemma byte_lxor a b : a < 256 -> b < 256 -> N.lxor a b < 256.
Proof.
  intros Ha Hb. destruct (N.eq_dec (N.lxor a b) 0) as [->|Hne]; [lia |].
  change 256 with (2 ^ 8). apply N.log2_lt_pow2; [lia |].
  eapply N.le_lt_trans; [apply N.log2_lxor |].
  destruct (N.eq_dec a 0) as [->|Ha0]; destruct (N.eq_dec b 0) as [->|Hb0];
    rewrite ?N.lxor_0_l, ?N.lxor_0_r in *; try lia;
    apply N.max_lub_lt; try (apply N.log2_lt_pow2; lia); simpl; lia.
Qed.

Lemma xtime_lxor a b : xtime (N.lxor a b) = N.lxor (xtime a) (xtime b).
Proof.
  unfold xtime. rewrite N.shiftl_lxor, N.lxor_spec.
  set (x := N.shiftl a 1). set (y := N.shiftl b 1).
  destruct (N.testbit x 8), (N.testbit y 8); simpl xorb; cbv iota; nxor.
Qed.

Lemma xtime_0 : xtime 0 = 0.
Proof. reflexivity. Qed.

Lemma xtime_byte a : a < 256 -> xtime a < 256.
Proof. intros H. apply N.ltb_lt. revert a H. rewrite <- all_bytes_spec. vm_compute. reflexivity. Qed.

Lemma xtime_if_lxor (c : bool) (a b : N) :
  (if c then N.lxor a b else 0) = N.lxor (if c then a else 0) (if c then b else 0).
Proof. now destruct c. Qed.

Lemma pmul_bits_lxor_l n a1 a2 b :
  pmul_bits n (N.lxor a1 a2) b = N.lxor (pmul_bits n a1 b) (pmul_bits n a2 b).
Proof.
  revert b; induction n as [|n IH]; intros b; simpl; [reflexivity |].
  rewrite IH, xtime_lxor, xtime_if_lxor. nxor.
Qed.

Lemma pmul_bits_lxor_r n a b1 b2 :
  pmul_bits n a (N.lxor b1 b2) = N.lxor (pmul_bits n a b1) (pmul_bits n a b2).
Proof.
  revert b1 b2; induction n as [|n IH]; intros b1 b2; cbn [pmul_bits]; [reflexivity |].
  rewrite N.shiftr_lxor, IH, xtime_lxor, N.lxor_spec.
  destruct (N.testbit b1 0), (N.testbit b2 0); simpl xorb; cbv iota; nxor.
Qed.

Lemma pmul_bits_xtime n a b : pmul_bits n (xtime a) b = xtime (pmul_bits n a b).
Proof.
  revert b; induction n as [|n IH]; intros b; simpl; [reflexivity |].
  rewrite IH, xtime_lxor. now destruct (N.testbit b 0).
Qed.

Lemma pmul_bits_byte n a b : a < 256 -> pmul_bits n a b < 256.
Proof.
  intros Ha. revert b; induction n as [|n IH]; intros b; simpl; [lia |].
  apply byte_lxor; [destruct (N.testbit b 0); lia | apply xtime_byte, IH].
Qed.

Lemma pmul_0_l b : pmul 0 b = 0.
Proof.
  unfold pmul. generalize 8%nat as n. intros n; revert b.
  induction n as [|n IH]; intros b; simpl; [reflexivity |]. rewrite IH. now destruct (N.testbit b 0).
Qed.

Lemma pmul_0_r a : pmul a 0 = 0.
Proof.
  unfold pmul. generalize 8%nat as n. induction n as [|n IH]; simpl; [reflexivity |].
  now rewrite IH.
Qed.

Lemma pmul_1_l b : b < 256 -> pmul 1 b = b.
Proof. intros H. now apply N.eqb_eq, pmul_1_check. Qed.

Lemma xpow_add m n : xpow (m + n) = pmul (xpow m) (xpow n).
Proof.
  unfold xpow. induction m as [|m IH]; simpl.
  - symmetry. apply pmul_1_l. induction n as [|n IH]; simpl; [lia | now apply xtime_byte].
  - rewrite IH. unfold pmul. symmetry. apply pmul_bits_xtime.
Qed.

Lemma xpow_byte n : xpow n < 256.
Proof. unfold xpow. induction n as [|n IH]; simpl; [lia | now apply xtime_byte]. Qed.

Lemma xpow_add_255 n : xpow (255 + n) = xpow n.
Proof. rewrite xpow_add, xpow_255. apply pmul_1_l, xpow_byte. Qed.

Lemma xpow_mod n : xpow n = xpow (n mod 255).
Proof.
  rewrite (Nat.div_mod_eq n 255) at 1. generalize (n / 255)%nat as q. intros q.
  induction q as [|q IH]; [f_equal; lia |].
  replace (255 * S q + n mod 255)%nat with (255 + (255 * q + n mod 255))%nat by lia.
  now rewrite xpow_add_255.
Qed.

Lemma xpow_neq_0 n : xpow n <> 0.
Proof.
  intros H. assert (Hz : xpow (n + (255 - n mod 255)) = 0) by now rewrite xpow_add, H, pmul_0_l.
  pose proof (Nat.mod_upper_bound n 255) as Hb. pose proof (Nat.div_mod_eq n 255) as Hd.
  replace (n + (255 - n mod 255))%nat with ((n / 255 + 1) * 255)%nat in Hz by lia.
  rewrite xpow_mod, Nat.Div0.mod_mul in Hz. discriminate Hz.
Qed.

(** The discrete logarithm of a byte that is not zero. *)
Lemma log_spec a : a < 256 -> a <> 0 ->
  a = xpow (N.to_nat (at_byte logTable a)) /\ (N.to_nat (at_byte logTable a) < 255)%nat.
Proof.
  intros Ha Hne. pose proof (exp_log a Ha) as H. pose proof (log_lt a Ha) as Hl.
  apply N.ltb_lt in Hl. apply N.eqb_neq in Hne. rewrite Hne in H. apply N.eqb_eq in H.
  rewrite exp_table_powers, nth_seq_map in H by lia. split; [auto | lia].
Qed.

Lemma log_of_xpow n : (n < 255)%nat -> at_byte logTable (xpow n) = N.of_nat n.
Proof.
  intros H. pose proof log_xpow as Hc. rewrite forallb_forall in Hc.
  apply N.eqb_eq, Hc, in_seq. lia.
Qed.

Lemma exp_xpow n : (n < 256)%nat -> at_byte expTable (N.of_nat n) = xpow n.
Proof. intros H. unfold at_byte. rewrite exp_table_powers, Nat2N.id. now apply nth_seq_map. Qed.

Definition byte_ok (b : N) : Prop := b < 256.
Definition bytes_ok (l : list N) : Prop := Forall byte_ok l.

(** ** The operations compute in the field *)

(** *** What the generator of the tables computes *)

Definition genMultiply (a b : N) : N :=
  if (a =? 0) || (b =? 0) then 0
  else nth (N.to_nat (at_byte logTable a + at_byte logTable b)) generateExpTable 0.

Lemma genMultiply_pmul a b : a < 256 -> b < 256 -> genMultiply a b = pmul a b.
Proof.
  intros Ha Hb. unfold genMultiply.
  destruct (N.eqb_spec a 0) as [->|Hna]; [symmetry; apply pmul_0_l |].
  destruct (N.eqb_spec b 0) as [->|Hnb]; [symmetry; apply pmul_0_r |].
  simpl orb. cbv iota.
  destruct (log_spec a Ha Hna) as [Ea La], (log_spec b Hb Hnb) as [Eb Lb].
  rewrite gen_exp_table_powers, N2Nat.inj_add, nth_seq_map by lia.
  now rewrite xpow_add, <- Ea, <- Eb.
Qed.

Lemma pmul_comm a b : a < 256 -> b < 256 -> pmul a b = pmul b a.
Proof.
  intros Ha Hb. rewrite <- !genMultiply_pmul by auto. unfold genMultiply.
  now rewrite N.add_comm, orb_comm.
Qed.

(** *** The committed table

    Each row is the shifted row of half its index, plus the identity for an odd
    index: Horner's rule on the bits of the index. *)
Definition table_row (a : N) : list N := nth (N.to_nat a) mulTable [].

Definition list_eqb (l1 l2 : list N) : bool :=
  (length l1 =? length l2)%nat && forallb (fun b => b) (map2 N.eqb l1 l2).

Lemma list_eqb_eq l1 l2 : list_eqb l1 l2 = true -> l1 = l2.
Proof.
  unfold list_eqb. intros [Hl Hf]%andb_prop. apply Nat.eqb_eq in Hl.
  rewrite forallb_forall in Hf. apply (list_ext 0); [auto |]. intros i Hi. apply N.eqb_eq.
  rewrite <- (nth_map2 N.eqb l1 l2 0 0 true) by lia. apply Hf, nth_In. rewrite length_map2. lia.
Qed.

Definition table_row_ok (a : N) : bool :=
  let half := map xtime (table_row (N.shiftr a 1)) in
  list_eqb (table_row a) (if N.testbit a 0 then map2 N.lxor half bytes256 else half) &&
  list_eqb (nth (N.to_nat a) mulTableLow []) (firstn 16 (table_row a)) &&
  list_eqb (nth (N.to_nat a) mulTableHigh []) (map (fun i => at_byte (table_row a) (16 * N.of_nat i)) (seq 0 16)).

Lemma table_check :
  all_bytes table_row_ok && list_eqb (table_row 0) (repeat 0 256) &&
  forallb (fun t : list (list N) => (length t =? 256)%nat) [mulTable; mulTableLow; mulTableHigh] = true.
Proof. vm_compute. reflexivity. Qed.

Lemma table_rows a : a < 256 ->
  let half := map xtime (table_row (N.shiftr a 1)) in
  table_row a = (if N.testbit a 0 then map2 N.lxor half bytes256 else half) /\
  nth (N.to_nat a) mulTableLow [] = firstn 16 (table_row a) /\
  nth (N.to_nat a) mulTableHigh [] = map (fun i => at_byte (table_row a) (16 * N.of_nat i)) (seq 0 16).
Proof.
  intros Ha. destruct (andb_prop _ _ table_check) as [[H _]%andb_prop _].
  assert (H1 := proj1 (all_bytes_spec _) H a Ha). unfold table_row_ok in H1.
  apply andb_prop in H1 as [[E1 E2]%andb_prop E3].
  intros half. splits; now apply list_eqb_eq.
Qed.

Lemma table_row_entry n b : b < 256 -> forall a, a < 2 ^ N.of_nat n -> a < 256 ->
  length (table_row a) = 256%nat /\ at_byte (table_row a) b = pmul_bits n b a.
Proof.
  intros Hb. induction n as [|n IH]; intros a Hn Ha.
  - assert (a = 0) as -> by (cbn in Hn; lia).
    destruct (andb_prop _ _ table_check) as [[_ H]%andb_prop _]. apply list_eqb_eq in H. rewrite H.
    split; [apply repeat_length |]. unfold at_byte. rewrite nth_repeat_in by lia. reflexivity.
  - assert (Hs : N.shiftr a 1 < 2 ^ N.of_nat n /\ N.shiftr a 1 < 256).
    { rewrite Nat2N.inj_succ, N.pow_succ_r' in Hn. rewrite N.shiftr_div_pow2. change (2 ^ 1) with 2.
      split; apply N.Div0.div_lt_upper_bound; lia. }
    destruct (IH _ (proj1 Hs) (proj2 Hs)) as [Hl He]. destruct (table_rows a Ha) as [-> _].
    cbn [pmul_bits]. rewrite <- He.
    assert (Hx : nth (N.to_nat b) (map xtime (table_row (N.shiftr a 1))) 0 = xtime (at_byte (table_row (N.shiftr a 1)) b))
      by (apply nth_map_in; lia).
    assert (Hbl : length bytes256 = 256%nat) by reflexivity.
    unfold at_byte at 1. destruct (N.testbit a 0).
    + split; [rewrite length_map2, length_map; lia |].
      rewrite (nth_map2 _ _ _ 0 0) by (rewrite ?length_map; lia). rewrite Hx.
      rewrite <- (map_id bytes256), nth_bytes256 by auto. apply N.lxor_comm.
    + split; [rewrite length_map; lia |]. rewrite Hx. now rewrite N.lxor_0_l.
Qed.

Lemma galMultiply_pmul a b : a < 256 -> b < 256 -> galMultiply a b = pmul a b.
Proof.
  intros Ha Hb. rewrite pmul_comm by auto.
  assert (H8 : a < 2 ^ N.of_nat 8) by (change (2 ^ N.of_nat 8) with 256; auto).
  apply (table_row_entry 8 b Hb a H8 Ha).
Qed.

Lemma galMultiply_xpow m n : galMultiply (xpow m) (xpow n) = xpow (m + n).
Proof. rewrite galMultiply_pmul by apply xpow_byte. symmetry. apply xpow_add. Qed.

Lemma galMultiply_byte a b : a < 256 -> b < 256 -> galMultiply a b < 256.
Proof. intros Ha Hb. rewrite galMultiply_pmul by auto. now apply pmul_bits_byte. Qed.

Lemma galMultiply_0_l b : b < 256 -> galMultiply 0 b = 0.
Proof. intros. rewrite galMultiply_pmul by (auto; lia). apply pmul_0_l. Qed.

Lemma galMultiply_0_r a : a < 256 -> galMultiply a 0 = 0.
Proof. intros. rewrite galMultiply_pmul by (auto; lia). apply pmul_0_r. Qed.

Lemma galMultiply_1_l b : b < 256 -> galMultiply 1 b = b.
Proof. intros. rewrite galMultiply_pmul by (auto; lia). now apply pmul_1_l. Qed.

(** Every byte is 0 or a power of the generator. *)
Lemma byte_cases a : a < 256 -> a = 0 \/ exists n, (n < 255)%nat /\ a = xpow n.
Proof.
  intros Ha. destruct (N.eq_dec a 0) as [|Hne]; [auto |]. right.
  destruct (log_spec a Ha Hne) as [E L]. eauto.
Qed.

Lemma galMultiply_comm a b : a < 256 -> b < 256 -> galMultiply a b = galMultiply b a.
Proof.
  intros Ha Hb.
  destruct (byte_cases a Ha) as [->|(m & _ & ->)]; [now rewrite galMultiply_0_l, galMultiply_0_r |].
  destruct (byte_cases b Hb) as [->|(n & _ & ->)].
  - now rewrite galMultiply_0_l, galMultiply_0_r by apply xpow_byte.
  - rewrite !galMultiply_xpow. f_equal. lia.
Qed.

Lemma galMultiply_assoc a b c : a < 256 -> b < 256 -> c < 256 ->
  galMultiply a (galMultiply b c) = galMultiply (galMultiply a b) c.
Proof.
  intros Ha Hb Hc.
  destruct (byte_cases a Ha) as [->|(m & _ & ->)].
  { rewrite !galMultiply_0_l; auto using galMultiply_byte. }
  destruct (byte_cases b Hb) as [->|(n & _ & ->)].
  { rewrite galMultiply_0_l, !galMultiply_0_r, galMultiply_0_l; auto using xpow_byte. }
  destruct (byte_cases c Hc) as [->|(p & _ & ->)].
  { rewrite !galMultiply_0_r; auto using xpow_byte, galMultiply_byte. }
  rewrite !galMultiply_xpow. f_equal. lia.
Qed.

Lemma galMultiply_lxor_l a b c : a < 256 -> b < 256 -> c < 256 ->
  galMultiply (N.lxor a b) c = N.lxor (galMultiply a c) (galMultiply b c).
Proof. intros. rewrite !galMultiply_pmul by auto using byte_lxor. apply pmul_bits_lxor_l. Qed.

Lemma galMultiply_lxor_r a b c : a < 256 -> b < 256 -> c < 256 ->
  galMultiply a (N.lxor b c) = N.lxor (galMultiply a b) (galMultiply a c).
Proof. intros. rewrite !galMultiply_pmul by auto using byte_lxor. apply pmul_bits_lxor_r. Qed.

Lemma galMultiply_neq_0 a b : a < 256 -> b < 256 -> a <> 0 -> b <> 0 -> galMultiply a b <> 0.
Proof.
  intros Ha Hb Hna Hnb.
  destruct (byte_cases a Ha) as [->|(m & _ & ->)]; [congruence |].
  destruct (byte_cases b Hb) as [->|(n & _ & ->)]; [congruence |].
  rewrite galMultiply_xpow. apply xpow_neq_0.
Qed.

(** [galOneOver] on a power of the generator. *)
Lemma galOneOver_xpow {E} n : (n < 255)%nat -> @galOneOver E (xpow n) = Ret (xpow (255 - n)).
Proof.
  intros Hn. unfold galOneOver. pose proof (xpow_neq_0 n) as H. apply N.eqb_neq in H. rewrite H.
  f_equal. rewrite log_of_xpow by auto.
  replace (N.lxor (N.of_nat n) 255) with (N.of_nat (255 - n)); [apply exp_xpow; lia |].
  assert (Hb : N.of_nat n < 256) by lia. revert Hb. rewrite Nat2N.inj_sub.
  generalize (N.of_nat n) as x. intros x Hx.
  apply N.eqb_eq. revert x Hx. rewrite <- all_bytes_spec. vm_compute. reflexivity.
Qed.

Lemma galOneOver_inv {E} a : a < 256 -> a <> 0 ->
  exists b, @galOneOver E a = Ret b /\ b < 256 /\ b <> 0 /\ galMultiply a b = 1.
Proof.
  intros Ha Hne. destruct (byte_cases a Ha) as [->|(n & Hn & ->)]; [congruence |].
  exists (xpow (255 - n)). rewrite galOneOver_xpow by auto.
  repeat split; auto using xpow_byte, xpow_neq_0.
  rewrite galMultiply_xpow. replace (n + (255 - n))%nat with 255%nat by lia. apply xpow_255.
Qed.

Lemma galDivide_mul {E} a b : a < 256 -> b < 256 -> b <> 0 ->
  exists q, @galDivide E a b = Ret q /\ q < 256 /\ galMultiply q b = a.
Proof.
  intros Ha Hb Hnb. unfold galDivide.
  destruct (byte_cases a Ha) as [->|(m & Hm & ->)].
  { exists 0. split; [reflexivity |]. split; [lia | now apply galMultiply_0_l]. }
  destruct (byte_cases b Hb) as [->|(n & Hn & ->)]; [congruence |].
  pose proof (xpow_neq_0 m) as H0. apply N.eqb_neq in H0. rewrite H0.
  apply N.eqb_neq in Hnb. rewrite Hnb, !log_of_xpow by auto.
  set (r := (if (Z.of_N (N.of_nat m) - Z.of_N (N.of_nat n) <? 0)%Z then _ else _)).
  assert (Hr : exists k, r = Z.of_nat k /\ (k < 255)%nat /\ ((k + n) mod 255 = m)%nat).
  { subst r. destruct (Z.ltb_spec (Z.of_N (N.of_nat m) - Z.of_N (N.of_nat n)) 0).
    - exists (255 + m - n)%nat. repeat split; try lia.
      replace (255 + m - n + n)%nat with (m + 1 * 255)%nat by lia.
      rewrite Nat.Div0.mod_add. now apply Nat.mod_small.
    - exists (m - n)%nat. repeat split; try lia.
      replace (m - n + n)%nat with m by lia. now apply Nat.mod_small. }
  destruct Hr as (k & -> & Hk & Hmod). exists (xpow k).
  rewrite Z.mod_small by lia. replace (Z.to_N (Z.of_nat k)) with (N.of_nat k) by lia.
  rewrite exp_xpow by lia. repeat split; auto using xpow_byte.
  rewrite galMultiply_xpow, xpow_mod, Hmod. reflexivity.
Qed.

(** The power of a byte by repeated multiplication. *)
Definition gpow (a : N) (n : nat) : N := Nat.iter n (galMultiply a) 1.

Lemma gpow_xpow m n : gpow (xpow m) n = xpow (m * n).
Proof.
  induction n as [|n IH]; simpl.
  - now rewrite Nat.mul_0_r.
  - rewrite IH, galMultiply_xpow. f_equal. lia.
Qed.

Lemma gpow_byte a n : a < 256 -> gpow a n < 256.
Proof. intros Ha. induction n; simpl; [lia | now apply galMultiply_byte]. Qed.

(** The loop of [galExp] computes the exponent modulo 255. *)
Lemma reduce_255 {E} fuel m : (0 <= m)%Z -> (Z.to_nat m < fuel)%nat ->
  @while_loop E Z fuel (fun r => 255 <=? r)%Z (fun r => Ret (r - 255)%Z) m = Ret (m mod 255)%Z.
Proof.
  revert m; induction fuel as [|fuel IH]; intros m Hm Hf; [lia |]. simpl.
  destruct (Z.leb_spec 255 m).
  - simpl. rewrite IH by lia. f_equal.
    rewrite <- (Z_mod_plus_full (m - 255) 1 255). f_equal. lia.
  - now rewrite Z.mod_small by lia.
Qed.

Lemma galExp_gpow {E} a n : a < 256 -> @galExp E a (Z.of_nat n) = Ret (gpow a n).
Proof.
  intros Ha. unfold galExp.
  destruct n as [|n]; [reflexivity |].
  destruct (Z.eqb_spec (Z.of_nat (S n)) 0); [lia |].
  destruct (byte_cases a Ha) as [->|(m & Hm & ->)].
  { simpl. now rewrite galMultiply_0_l by (apply gpow_byte; lia). }
  pose proof (xpow_neq_0 m) as H. apply N.eqb_neq in H. rewrite H.
  assert (He : (Z.of_N (at_byte logTable (xpow m)) * Z.of_nat (S n))%Z = Z.of_nat (m * S n)).
  { rewrite log_of_xpow by auto. now rewrite nat_N_Z, <- Nat2Z.inj_mul. }
  rewrite He, reduce_255 by lia. cbn [bind].
  f_equal. rewrite gpow_xpow, xpow_mod, <- (Nat2Z.inj_mod _ 255).
  pose proof (Nat.mod_upper_bound (m * S n) 255).
  rewrite Z.mod_small by lia.
  replace (Z.to_N (Z.of_nat ((m * S n) mod 255))) with (N.of_nat ((m * S n) mod 255)) by lia.
  apply exp_xpow. lia.
Qed.

(** *** The split tables *)

Lemma low_indices : filter (fun b => N.land b 0xf =? b) bytes256 = map N.of_nat (seq 0 16).
Proof. vm_compute. reflexivity. Qed.

Lemma high_indices :
  filter (fun b => N.land b 0xf0 =? b) bytes256 = map (fun i => 16 * N.of_nat i) (seq 0 16).
Proof. vm_compute. reflexivity. Qed.

Lemma nibbles b : b < 256 ->
  (N.lxor (N.land b 15) (16 * N.shiftr b 4) =? b) && (N.land b 15 <? 16) && (N.shiftr b 4 <? 16) = true.
Proof. check_bytes b. Qed.

Lemma halfEntry_mul a b : a < 256 -> b < 256 -> halfEntry generateExpTable a b = galMultiply a b.
Proof.
  intros Ha Hb. rewrite galMultiply_pmul, <- genMultiply_pmul by auto. unfold halfEntry, genMultiply.
  now destruct ((a =? 0) || (b =? 0)).
Qed.

Lemma low_entry a i : a < 256 -> (i < 16)%nat ->
  nth i (nth (N.to_nat a) mulTableLow []) 0 = galMultiply a (N.of_nat i).
Proof.
  intros Ha Hi. destruct (table_rows a Ha) as (_ & -> & _). rewrite nth_firstn_in by auto.
  unfold galMultiply, at_byte. now rewrite Nat2N.id.
Qed.

Lemma high_entry a i : a < 256 -> (i < 16)%nat ->
  nth i (nth (N.to_nat a) mulTableHigh []) 0 = galMultiply a (16 * N.of_nat i).
Proof. intros Ha Hi. destruct (table_rows a Ha) as (_ & _ & ->). now rewrite nth_seq_map. Qed.

Lemma split_tables_mul a b : a < 256 -> b < 256 ->
  N.lxor (at_byte (nth (N.to_nat a) mulTableLow []) (N.land b 15))
         (at_byte (nth (N.to_nat a) mulTableHigh []) (N.shiftr b 4)) = galMultiply a b.
Proof.
  intros Ha Hb. pose proof (nibbles b Hb) as H.
  apply andb_prop in H as [[He Hl]%andb_prop Hh].
  apply N.eqb_eq in He. apply N.ltb_lt in Hl, Hh.
  unfold at_byte. rewrite low_entry, high_entry, !N2Nat.id by (auto; lia).
  rewrite <- galMultiply_lxor_r by (auto; lia). now rewrite He.
Qed.

(** The committed tables are what the generator prints. *)
Lemma tables_generated :
  mulTable = generateMulTableSplit generateExpTable /\
  (mulTableLow, mulTableHigh) = generateMulTableHalf generateExpTable.
Proof.
  destruct (andb_prop _ _ table_check) as [_ H]. cbn [forallb] in H.
  apply andb_prop in H as [L1 [L2 [L3 _]%andb_prop]%andb_prop]. apply Nat.eqb_eq in L1, L2, L3.
  assert (Hbl : forall (f : N -> list N) , length (map f bytes256) = 256%nat) by (intros; now rewrite length_map).
  assert (Hn : forall i, (i < 256)%nat -> i = N.to_nat (N.of_nat i)) by (intros; lia).
  split; [| unfold generateMulTableHalf; apply pair_equal_spec; split].
  - apply (list_ext []); [now rewrite L1; symmetry; apply Hbl |]. intros i Hi. rewrite L1 in Hi.
    rewrite (Hn i Hi). set (a := N.of_nat i). assert (Ha : a < 256) by (unfold a; lia).
    unfold generateMulTableSplit. rewrite nth_bytes256 by auto. change (nth (N.to_nat a) mulTable []) with (table_row a).
    assert (H8 : a < 2 ^ N.of_nat 8) by (change (2 ^ N.of_nat 8) with 256; auto).
    assert (H0 : 0 < 256) by lia.
    apply (list_ext 0); [rewrite (proj1 (table_row_entry 8 0 H0 a H8 Ha)); now rewrite length_map |].
    intros j Hj. rewrite (proj1 (table_row_entry 8 0 H0 a H8 Ha)) in Hj. rewrite (Hn j Hj).
    assert (Hjb : N.of_nat j < 256) by lia. rewrite nth_bytes256 by auto.
    change (galMultiply a (N.of_nat j) = genMultiply a (N.of_nat j)).
    now rewrite galMultiply_pmul, genMultiply_pmul by auto.
  - apply (list_ext []); [now rewrite L2; symmetry; apply Hbl |]. intros i Hi. rewrite L2 in Hi.
    rewrite (Hn i Hi). set (a := N.of_nat i). assert (Ha : a < 256) by (unfold a; lia).
    rewrite nth_bytes256, low_indices, map_map by auto. destruct (table_rows a Ha) as (_ & El & _).
    assert (Hll : length (nth (N.to_nat a) mulTableLow []) = 16%nat).
    { rewrite El, length_firstn. rewrite (proj1 (table_row_entry 8 0 ltac:(lia) a ltac:(change (2 ^ N.of_nat 8) with 256; auto) Ha)). reflexivity. }
    apply (list_ext 0); [now rewrite Hll, length_map, length_seq |]. intros j Hj. rewrite Hll in Hj.
    rewrite low_entry, nth_seq_map, halfEntry_mul by (auto; lia). reflexivity.
  - apply (list_ext []); [now rewrite L3; symmetry; apply Hbl |]. intros i Hi. rewrite L3 in Hi.
    rewrite (Hn i Hi). set (a := N.of_nat i). assert (Ha : a < 256) by (unfold a; lia).
    rewrite nth_bytes256, high_indices, map_map by auto. destruct (table_rows a Ha) as (_ & _ & Eh).
    assert (Hlh : length (nth (N.to_nat a) mulTableHigh []) = 16%nat) by (rewrite Eh; now rewrite length_map, length_seq).
    apply (list_ext 0); [now rewrite Hlh, length_map, length_seq |]. intros j Hj. rewrite Hlh in Hj.
    rewrite high_entry, nth_seq_map, halfEntry_mul by (auto; lia). reflexivity.
Qed.

(** *** Slices *)

Lemma byte_bits x i : x < 256 -> 8 <= i -> N.testbit x i = false.
Proof.
  intros Hx Hi. destruct (N.eq_dec x 0) as [->|Hne]; [apply N.bits_0 |].
  apply N.bits_above_log2. apply N.lt_le_trans with 8; [| auto].
  apply N.log2_lt_pow2; [lia | exact Hx].
Qed.

Lemma le_low x v : x < 256 -> N.land (N.lor x (N.shiftl v 8)) 255 = x.
Proof.
  intros Hx. change 255 with (N.ones 8). apply N.bits_inj; intro i.
  rewrite N.land_spec, N.lor_spec. destruct (N.lt_ge_cases i 8) as [Hi|Hi].
  - rewrite N.shiftl_spec_low, N.ones_spec_low by auto. now rewrite orb_false_r, andb_true_r.
  - rewrite N.ones_spec_high by auto. rewrite andb_false_r. symmetry. now apply byte_bits.
Qed.

Lemma le_high x v : x < 256 -> N.shiftr (N.lor x (N.shiftl v 8)) 8 = v.
Proof.
  intros Hx. apply N.bits_inj; intro i.
  rewrite N.shiftr_spec', N.lor_spec, N.shiftl_spec_high' by lia.
  rewrite (byte_bits x) by lia. simpl. f_equal. lia.
Qed.

Lemma le_put_lxor a b : bytes_ok a -> bytes_ok b -> length a = length b ->
  le_put (length a) (N.lxor (le_uint a) (le_uint b)) = map2 N.lxor a b.
Proof.
  intros Ha; revert b; induction Ha as [|x a Hx Ha IH]; intros b Hb Hl;
    destruct Hb as [|y b Hy Hb]; try discriminate; [reflexivity |].
  injection Hl as Hl. cbn [length le_put le_uint map2]. f_equal.
  - rewrite <- (le_low x (le_uint a) Hx) at 2. rewrite <- (le_low y (le_uint b) Hy) at 2.
    apply N.bits_inj; intro i. rewrite N.land_spec, !N.lxor_spec, !N.land_spec.
    now destruct (N.testbit 255 i); rewrite ?andb_true_r, ?andb_false_r.
  - rewrite N.shiftr_lxor, !le_high by auto. auto.
Qed.

Lemma bytes_ok_firstn n l : bytes_ok l -> bytes_ok (firstn n l).
Proof. intros H. revert n. induction H; intros [|n]; simpl; constructor; auto. apply IHForall. Qed.

Lemma bytes_ok_skipn n l : bytes_ok l -> bytes_ok (skipn n l).
Proof. intros H. revert n. induction H; intros [|n]; simpl; auto; constructor; auto. Qed.

Lemma bytes_ok_app l1 l2 : bytes_ok (l1 ++ l2) <-> bytes_ok l1 /\ bytes_ok l2.
Proof. apply Forall_app. Qed.

Lemma bytes_ok_nth l i : bytes_ok l -> nth i l 0 < 256.
Proof.
  intros H. revert i. induction H as [|x l Hx H IH]; intros [|i]; simpl; auto; lia.
Qed.

Lemma bytes_ok_repeat b n : b < 256 -> bytes_ok (repeat b n).
Proof. intros H. induction n; simpl; constructor; auto. Qed.

#[export] Hint Resolve bytes_ok_firstn bytes_ok_skipn bytes_ok_nth galMultiply_byte byte_lxor
  bytes_ok_repeat : go.

(** The reference: exclusive or byte by byte. *)
Definition xorBytes (inn out : list N) : list N := map2 (fun i o => N.lxor o i) inn out.

Lemma xorBytes_swap inn out : xorBytes inn out = map2 N.lxor out inn.
Proof.
  unfold xorBytes. revert out.
  induction inn as [|x inn IH]; intros [|y out]; simpl; auto. f_equal. apply IH.
Qed.

Lemma xor_word_spec inS out lo : bytes_ok inS -> bytes_ok out ->
  (lo + 8 <= length inS)%nat -> (lo + 8 <= length out)%nat ->
  xor_word inS out lo = xorBytes (sub_list inS lo (lo + 8)) (sub_list out lo (lo + 8)).
Proof.
  intros Hi Ho Hl1 Hl2. unfold xor_word. rewrite xorBytes_swap.
  assert (Hs : forall l : list N, (lo + 8 <= length l)%nat ->
            length (sub_list l lo (lo + 8)) = 8%nat) by (intros l H; unfold sub_list; lens).
  rewrite <- (Hs out Hl2) at 1.
  apply le_put_lxor; rewrite ?Hs; unfold sub_list; auto with go.
Qed.

(** A list of at least [k + n] elements, cut at [k] and [k + n]. *)
Lemma sub_list_app {A} (l : list A) k n :
  (k + n <= length l)%nat -> firstn (k + n) l = firstn k l ++ sub_list l k (k + n).
Proof.
  intros H. unfold sub_list. rewrite <- (firstn_skipn k (firstn (k + n) l)), firstn_firstn.
  f_equal; [f_equal; lia |]. rewrite skipn_firstn_comm. f_equal.
Qed.

Lemma xor_block_spec inS out : bytes_ok inS -> bytes_ok out ->
  length inS = 32%nat -> (32 <= length out)%nat ->
  xor_word inS out 0 ++ xor_word inS out 8 ++ xor_word inS out 16 ++ xor_word inS out 24
  = xorBytes inS (firstn 32 out).
Proof.
  intros Hi Ho Hl1 Hl2. rewrite !xor_word_spec by (auto; lia). simpl Nat.add.
  assert (Hcut : forall l : list N, (32 <= length l)%nat -> firstn 32 l =
    ((sub_list l 0 8 ++ sub_list l 8 16) ++ sub_list l 16 24) ++ sub_list l 24 32).
  { intros l H. change 32%nat with (24 + 8)%nat at 1. rewrite sub_list_app by lia. f_equal.
    change 24%nat with (16 + 8)%nat at 1. rewrite sub_list_app by lia. f_equal.
    change 16%nat with (8 + 8)%nat at 1. rewrite sub_list_app by lia. reflexivity. }
  rewrite <- (firstn_all inS) at 5. rewrite Hl1, !Hcut by lia.
  unfold xorBytes. rewrite !map2_app; [now rewrite !app_assoc | unfold sub_list; lens ..].
Qed.

Lemma sliceXorGo_spec {E} inn out :
  bytes_ok inn -> bytes_ok out -> length inn = length out ->
  @sliceXorGo E inn out = Ret (xorBytes inn out).
Proof.
  intros Hi Ho Hl. unfold sliceXorGo.
  set (I := fun st : list N * list N * list N => let '(i, o, d) := st in
     bytes_ok i /\ bytes_ok o /\ length i = length o /\ d ++ xorBytes i o = xorBytes inn out).
  match goal with |- context [while_loop ?f ?c ?b ?s] =>
    assert (HW : oc_spec (while_loop f c b s) (fun st => I st /\ c st = false) (fun _ : E => False)) end.
  - apply while_rule with (I := I) (m := fun st => length (snd (fst st))).
    + repeat split; auto.
    + simpl. lia.
    + intros [[i o] d] (Hbi & Hbo & Hlen & Hd) Hc. apply Nat.leb_le in Hc. cbv beta iota.
      destruct (Nat.ltb_spec (length i) 32); [lia |]. cbn [oc_spec].
      split; [| cbn [fst snd]; lens].
      unfold I. repeat split; auto with go; [lens |].
      rewrite xor_block_spec by (auto with go; lens).
      unfold xorBytes in *. rewrite <- app_assoc, <- map2_app by lens.
      now rewrite !firstn_skipn.
  - apply oc_ret in HW as ([[i o] d] & -> & (Hbi & Hbo & Hlen & Hd) & _).
    cbn [bind].
    destruct (Nat.ltb_spec (length o) (length i)); [lia |].
    rewrite Hlen, skipn_all, app_nil_r. f_equal. exact Hd.
Qed.

Lemma galMulSlice_spec {E} c inn out : c < 256 -> bytes_ok inn -> length inn = length out ->
  @galMulSlice E c inn out = Ret (map (galMultiply c) inn).
Proof.
  intros Hc Hi Hl. unfold galMulSlice.
  destruct (Nat.ltb_spec (length out) (length inn)); [lia |].
  rewrite Hl, skipn_all, !app_nil_r. destruct (N.eqb_spec c 1) as [->|]; [| reflexivity].
  f_equal. rewrite <- (map_id inn) at 1. apply map_ext_in. intros a Ha. symmetry.
  apply galMultiply_1_l. unfold bytes_ok in Hi. rewrite Forall_forall in Hi. now apply Hi.
Qed.

Lemma map2_map_l {A B C D} (f : B -> C -> D) (g : A -> B) l1 l2 :
  map2 f (map g l1) l2 = map2 (fun x => f (g x)) l1 l2.
Proof. revert l2; induction l1 as [|x l1 IH]; intros [|y l2]; simpl; auto. f_equal. apply IH. Qed.

Lemma galMulSliceXor_spec {E} c inn out : c < 256 -> bytes_ok inn -> bytes_ok out ->
  length inn = length out ->
  @galMulSliceXor E c inn out = Ret (xorBytes (map (galMultiply c) inn) out).
Proof.
  intros Hc Hi Ho Hl. unfold galMulSliceXor.
  destruct (Nat.ltb_spec (length out) (length inn)); [lia |].
  destruct (N.eqb_spec c 1) as [->|].
  - rewrite Hl, firstn_all, skipn_all, sliceXorGo_spec by auto. simpl. rewrite app_nil_r.
    f_equal. f_equal. rewrite <- (map_id inn) at 1. apply map_ext_in. intros a Ha. symmetry.
    apply galMultiply_1_l. unfold bytes_ok in Hi. rewrite Forall_forall in Hi. now apply Hi.
  - rewrite Hl, skipn_all, app_nil_r. unfold xorBytes. now rewrite map2_map_l.
Qed.

(** ** The table of inverses *)
Definition inv_entry_ok (a : N) : bool :=
  (at_byte invTable a <? 256) && ((a =? 0) || (galMultiply a (at_byte invTable a) =? 1)).

Lemma invTable_check : all_bytes inv_entry_ok = true.
Proof. vm_compute. reflexivity. Qed.

Lemma invTable_byte a : a < 256 -> at_byte invTable a < 256.
Proof.
  intros H. generalize (proj1 (all_bytes_spec _) invTable_check a H). unfold inv_entry_ok.
  intros [H1 _]%andb_prop. now apply N.ltb_lt.
Qed.

Lemma invTable_inv a : a < 256 -> a <> 0 -> galMultiply a (at_byte invTable a) = 1.
Proof.
  intros H H0. generalize (proj1 (all_bytes_spec _) invTable_check a H). unfold inv_entry_ok.
  intros [_ [H1|H1]%orb_prop]%andb_prop; [now apply N.eqb_eq in H1 | now apply N.eqb_eq].
Qed.
