(* ===== verification/RSTypes.v ===== *)
(** * Errors and slices shared by the files that model src/reedsolomon

    The errors of the package, slices with their bounds checked, and [AllocAligned]. *)
From Stdlib Require Import List Arith NArith ZArith Lia Bool.
From S2P Require Import Prelude Galois.
Import ListNotations.

(** The error values of the package, by their Go names; [errIO n] is an error
    of an [io.Reader] or [io.Writer] outside the package. *)
Inductive rsError : Type :=
| errInvalidRowSize | errInvalidColSize | errColSizeMismatch | errMatrixSize
| errMultiply (left right : nat)
| errSingular | errNotSquare | errAlreadySet
| ErrInvShardNum | ErrMaxShardNum | ErrNotSupported | ErrTooFewShards
| ErrInvalidInput | ErrShardNoData | ErrShardSize | ErrInvalidShardSize
| ErrShortData | ErrReconstructRequired | ErrReconstructMismatch
| errInternal | errCustomRows | errCustomCols | errInvalidWrite
| EOF | ErrUnexpectedEOF | ErrShortWrite | errIO (n : nat)
| StreamReadError (e : rsError) (stream : nat)
| StreamWriteError (e : rsError) (stream : nat).

Definition rsError_eq_dec (e1 e2 : rsError) : {e1 = e2} + {e1 <> e2}.
Proof. decide equality; apply Nat.eq_dec. Defined.

(** A Go byte slice: [nil], or the bytes up to its length with the bytes that
    follow up to its capacity. *)
Inductive slice : Type :=
| Nil
| Sl (data spare : list N).

Definition bytes_of (s : slice) : list N := match s with Nil => [] | Sl d _ => d end.
Definition spare_of (s : slice) : list N := match s with Nil => [] | Sl _ sp => sp end.
Definition len (s : slice) : nat := length (bytes_of s).
Definition cap (s : slice) : nat := length (bytes_of s) + length (spare_of s).
Definition is_nil (s : slice) : bool := match s with Nil => true | Sl _ _ => false end.

(** [s[0:n]] for [n] up to the capacity: shorter or longer than [s]. *)
Definition reslice {E} (s : slice) (n : nat) : outcome E slice :=
  if cap s <? n then Panic
  else match s with
       | Nil => Ret Nil
       | Sl d sp => Ret (Sl (firstn n (d ++ sp)) (skipn n (d ++ sp)))
       end.

(** Overwrite the bytes of a slice (an in-place write of its whole length). *)
Definition write (s : slice) (d : list N) : slice :=
  match s with Nil => Nil | Sl _ sp => Sl d sp end.

(** unsafe.go: each slice is zeroed and its capacity is rounded up to 64. *)
Definition AllocAligned (shards each : nat) : list slice :=
  let alignEach := 64 in
  let eachAligned := (each + alignEach - 1) / alignEach * alignEach in
  repeat (Sl (repeat 0%N each) (repeat 0%N (eachAligned - each))) shards.

Lemma reslice_len {E} s n : n <= cap s -> exists s', @reslice E s n = Ret s' /\ (is_nil s = false -> len s' = n).
Proof.
  intros H. unfold reslice. destruct (Nat.ltb_spec (cap s) n); [lia |].
  destruct s as [|d sp]; eexists; (split; [reflexivity |]); [discriminate |].
  intros _. unfold len, cap in *. simpl in *. lens.
Qed.

(** [s[lo:hi]] read as bytes; the bound is the capacity. *)
Definition slice_range {E} (s : slice) (lo hi : nat) : outcome E (list N) :=
  if (cap s <? hi) || (hi <? lo) then Panic
  else Ret (sub_list (bytes_of s ++ spare_of s) lo hi).

(** Write the bytes [d] at offset [lo] of a slice (through [s[lo:hi]]). *)
Definition write_range (s : slice) (lo : nat) (d : list N) : slice :=
  match s with
  | Nil => Nil
  | Sl data spare =>
      let all := data ++ spare in
      let all := firstn lo all ++ d ++ skipn (lo + length d) all in
      Sl (firstn (length data) all) (skipn (length data) all)
  end.

(** Memory of at least [c] bytes. *)
Definition buffer (c : nat) (s : slice) : Prop :=
  c <= cap s /\ bytes_ok (bytes_of s ++ spare_of s).

(** A slice of [n] bytes. *)
Definition shard_ok (n : nat) (s : slice) : Prop :=
  is_nil s = false /\ len s = n /\ bytes_ok (bytes_of s).

(** Byte [k] of a slice, and of slice [i] of a list *)
Definition byte_at (s : slice) (k : nat) : N := nth k (bytes_of s) 0%N.
Definition bytes_at (l : list slice) (i k : nat) : N := byte_at (nth i l Nil) k.

Lemma slice_range_data {E} n s lo hi : shard_ok n s -> lo <= hi <= n ->
  @slice_range E s lo hi = Ret (sub_list (bytes_of s) lo hi).
Proof.
  intros (_ & Hl & _) H. unfold slice_range, cap, len in *.
  destruct (Nat.ltb_spec (length (bytes_of s) + length (spare_of s)) hi); [lia |].
  destruct (Nat.ltb_spec hi lo); [lia |]. cbn [orb]. f_equal.
  unfold sub_list. rewrite skipn_app, firstn_app. lens.
  replace (hi - lo - (length (bytes_of s) - lo)) with 0 by lia. now rewrite app_nil_r.
Qed.

Lemma length_sub_list {A} (l : list A) lo hi : lo <= hi <= length l -> length (sub_list l lo hi) = hi - lo.
Proof. intros H. unfold sub_list. lens. Qed.

Lemma nth_sub_list {A} (l : list A) d lo hi k : k < hi - lo -> nth k (sub_list l lo hi) d = nth (lo + k) l d.
Proof. intros H. unfold sub_list. now rewrite nth_firstn_in, nth_skipn_add. Qed.

Lemma bytes_ok_sub l lo hi : bytes_ok l -> bytes_ok (sub_list l lo hi).
Proof. intros H. unfold sub_list. auto with go. Qed.

(** Writing inside the length keeps the spare bytes. *)
Lemma write_range_spec n s lo d : shard_ok n s -> lo + length d <= n -> bytes_ok d ->
  shard_ok n (write_range s lo d) /\ spare_of (write_range s lo d) = spare_of s /\
  forall k, byte_at (write_range s lo d) k =
    if (lo <=? k) && (k <? lo + length d) then nth (k - lo) d 0%N else byte_at s k.
Proof.
  intros (Hn & Hl & Hb) Hd Hok. destruct s as [|data sp]; [discriminate |].
  unfold len, byte_at in *. cbn [write_range bytes_of spare_of] in *.
  set (new := firstn lo data ++ d ++ skipn (lo + length d) data).
  assert (Hlen : length new = length data) by (unfold new; lens).
  assert (E : firstn lo (data ++ sp) ++ d ++ skipn (lo + length d) (data ++ sp) = new ++ sp).
  { unfold new. rewrite firstn_app, skipn_app.
    replace (lo - length data) with 0 by lia. replace (lo + length d - length data) with 0 by lia.
    cbn [firstn skipn]. now rewrite app_nil_r, <- !app_assoc. }
  rewrite E, <- Hlen, firstn_app, skipn_app, firstn_all, skipn_all, Nat.sub_diag. cbn [firstn skipn app].
  rewrite app_nil_r. split; [| split; [reflexivity |]].
  - split; [reflexivity |]. split; [unfold len; cbn; lia |]. cbn. unfold new.
    apply bytes_ok_app. split; [auto with go |]. apply bytes_ok_app. auto with go.
  - intros k. unfold new. destruct (Nat.leb_spec lo k); cbn [andb].
    + rewrite app_nth2 by lens. replace (length (firstn lo data)) with lo by lens.
      destruct (Nat.ltb_spec k (lo + length d)).
      * now rewrite app_nth1 by lia.
      * rewrite app_nth2, nth_skipn_add by lia. f_equal. lia.
    + rewrite app_nth1 by lens. now apply nth_firstn_in.
Qed.

Lemma shard_ok_nth n l i : Forall (shard_ok n) l -> i < length l -> shard_ok n (nth i l Nil).
Proof. intros H Hi. rewrite Forall_forall in H. now apply H, nth_In. Qed.

Lemma bytes_at_byte n l i k : Forall (shard_ok n) l -> (bytes_at l i k < 256)%N.
Proof.
  intros H. unfold bytes_at, byte_at. apply bytes_ok_nth. destruct (Nat.lt_ge_cases i (length l)).
  - now apply (shard_ok_nth n).
  - rewrite nth_overflow by auto. constructor.
Qed.

(** Lists of shards with the same bytes and spare bytes are equal. *)
Lemma shards_ext n l l' : Forall (shard_ok n) l -> Forall (shard_ok n) l' -> length l = length l' ->
  (forall i, i < length l -> spare_of (nth i l Nil) = spare_of (nth i l' Nil)) ->
  (forall i k, i < length l -> k < n -> bytes_at l i k = bytes_at l' i k) -> l = l'.
Proof.
  intros H H' Hl Hsp Hb. apply (list_ext Nil); [auto |]. intros i Hi.
  destruct (shard_ok_nth n l i H Hi) as (Hn & Hlen & _), (shard_ok_nth n l' i H') as (Hn' & Hlen' & _); [lia |].
  specialize (Hsp i Hi). specialize (Hb i).
  unfold bytes_at, byte_at, len in *.
  destruct (nth i l Nil) as [|d sp], (nth i l' Nil) as [|d' sp']; try discriminate. cbn in *.
  subst sp'. f_equal. apply (list_ext 0%N); [lia |]. intros k Hk. apply Hb; lia.
Qed.

(** Memory is kept by slicing and by writing the whole length. *)
Lemma reslice_buffer {E} c s n s' : @reslice E s n = Ret s' -> buffer c s -> buffer c s'.
Proof.
  unfold reslice, buffer, cap. destruct (_ <? n); [discriminate |].
  destruct s as [|d sp]; injection 1 as <-; [auto |]. cbn [bytes_of spare_of].
  rewrite <- !length_app, firstn_skipn. auto.
Qed.

Lemma shard_buffer n c s s' : shard_ok n s -> shard_ok n s' -> spare_of s' = spare_of s ->
  buffer c s -> buffer c s'.
Proof.
  intros (_ & H1 & _) (_ & H2 & Hb) Hs [Hc Hok]. unfold buffer, cap, len in *. rewrite Hs, H2, <- H1.
  split; [auto |]. apply bytes_ok_app in Hok as [_ Hok]. apply bytes_ok_app. auto.
Qed.

Lemma AllocAligned_buffer each n : Forall (buffer each) (AllocAligned n each).
Proof.
  apply Forall_forall. intros s ->%repeat_spec. unfold buffer, cap. cbn [bytes_of spare_of].
  split; [lens |]. apply bytes_ok_app. split; apply bytes_ok_repeat; lia.
Qed.
