(* ===== verification/Matrix.v ===== *)
(** * Matrices over GF(2^8) (src/reedsolomon/matrix.go)

    A matrix is a list of rows.  Every read and write goes through the bounds
    checked accessors, so that a definition panics where the code would. *)
From Stdlib Require Import List Arith NArith ZArith Lia Bool.
From S2P Require Import Prelude Galois RSTypes.
Import ListNotations.

Definition matrix := list (list N).

Abbreviation result := (outcome rsError).

(** ** Operations *)

(** [m[r][c]] and [m[r][c] = v] *)
Definition get {E} (m : matrix) (r c : nat) : outcome E N := row <- idx m r ;; idx row c.

Definition put {E} (m : matrix) (r c : nat) (v : N) : outcome E matrix :=
  row <- idx m r ;; row <- upd row c v ;; upd m r row.

Definition newMatrix (rows cols : Z) : result matrix :=
  if (rows <=? 0)%Z then Err errInvalidRowSize
  else if (cols <=? 0)%Z then Err errInvalidColSize
  else Ret (repeat (repeat 0%N (Z.to_nat cols)) (Z.to_nat rows)).

Definition Check_ (m : matrix) : result unit :=
  match m with
  | [] => Err errInvalidRowSize
  | row0 :: _ =>
      let cols := length row0 in
      if cols =? 0 then Err errInvalidColSize
      else if forallb (fun col => length col =? cols) m then Ret tt
      else Err errColSizeMismatch
  end.

Definition newMatrixData (data : matrix) : result matrix :=
  _ <- Check_ data ;; Ret data.

Definition identityMatrix (size : Z) : result matrix :=
  m <- newMatrix size size ;;
  for_loop 0 (length m) (fun i m => put m i i 1%N) m.

(** [result, _ := newMatrix(..)]: the error is dropped and the result is nil. *)
Definition drop_error (c : result matrix) : result matrix :=
  match c with Err _ => Ret [] | c => c end.

Definition Multiply (m right : matrix) : result matrix :=
  m0 <- idx m 0 ;;
  if negb (length m0 =? length right) then Err (errMultiply (length m0) (length right))
  else
    right0 <- idx right 0 ;;
    res <- drop_error (newMatrix (Z.of_nat (length m)) (Z.of_nat (length right0))) ;;
    mapM (fun r =>
      row <- idx res r ;;
      mapM (fun c =>
        for_loop 0 (length m0) (fun i value =>
          a <- get m r i ;; b <- get right i c ;;
          Ret (N.lxor value (galMultiply a b))) 0%N)
        (seq 0 (length row)))
      (seq 0 (length res)).

Definition Augment (m right : matrix) : result matrix :=
  if negb (length m =? length right) then Err errMatrixSize
  else
    m0 <- idx m 0 ;;
    right0 <- idx right 0 ;;
    res <- drop_error (newMatrix (Z.of_nat (length m)) (Z.of_nat (length m0 + length right0))) ;;
    for_loop 0 (length m) (fun r res =>
      row <- idx m r ;;
      res <- for_loop 0 (length row) (fun c res =>
        v <- get m r c ;; put res r c v) res ;;
      let cols := length m0 in
      for_loop 0 (length right0) (fun c res =>
        v <- get right r c ;; put res r (cols + c) v) res) res.

Fixpoint same_rows (m n : matrix) : result unit :=
  match m, n with
  | [], _ => Ret tt
  | row :: m, row' :: n =>
      if length row =? length row' then same_rows m n else Err errMatrixSize
  | _ :: _, [] => Panic
  end.

Definition SameSize (m n : matrix) : result unit :=
  if negb (length m =? length n) then Err errMatrixSize else same_rows m n.

Definition SubMatrix (m : matrix) (rmin cmin rmax cmax : nat) : result matrix :=
  res <- newMatrix (Z.of_nat rmax - Z.of_nat rmin) (Z.of_nat cmax - Z.of_nat cmin) ;;
  for_loop rmin rmax (fun r res =>
    for_loop cmin cmax (fun c res =>
      v <- get m r c ;; put res (r - rmin) (c - cmin) v) res) res.

Definition SwapRows (m : matrix) (r1 r2 : Z) : result matrix :=
  if ((r1 <? 0) || (Z.of_nat (length m) <=? r1) || (r2 <? 0) || (Z.of_nat (length m) <=? r2))%Z
  then Err errInvalidRowSize
  else
    let r1 := Z.to_nat r1 in let r2 := Z.to_nat r2 in
    a <- idx m r1 ;; b <- idx m r2 ;;
    m <- upd m r2 a ;; upd m r1 b.

Definition IsSquare (m : matrix) : result bool :=
  m0 <- idx m 0 ;; Ret (length m =? length m0).

(** The first row below [r] with a non-zero element in column [r]: swap it up. *)
Fixpoint swap_pivot (n : nat) (m : matrix) (r rowBelow : nat) : result matrix :=
  match n with
  | O => Ret m
  | S n =>
      v <- get m rowBelow r ;;
      if negb (v =? 0)%N then SwapRows m (Z.of_nat r) (Z.of_nat rowBelow)
      else swap_pivot n m r (S rowBelow)
  end.

(** [for c := 0; c < columns; c++ { m[r][c] = galMultiply(m[r][c], scale) }] *)
Definition scale_row (columns r : nat) (scale : N) (m : matrix) : result matrix :=
  for_loop 0 columns (fun c m => v <- get m r c ;; put m r c (galMultiply v scale)) m.

(** [for c := ... { m[row][c] ^= galMultiply(scale, m[r][c]) }] *)
Definition add_row (columns row r : nat) (scale : N) (m : matrix) : result matrix :=
  for_loop 0 columns (fun c m =>
    v <- get m row c ;; w <- get m r c ;; put m row c (N.lxor v (galMultiply scale w))) m.

(** Clear the element of column [d] of [row] with row [d], when it is not zero. *)
Definition clear_entry (columns d row : nat) (m : matrix) : result matrix :=
  v <- get m row d ;;
  if negb (v =? 0)%N then scale <- get m row d ;; add_row columns row d scale m
  else Ret m.

Definition gaussianElimination (m : matrix) : result matrix :=
  let rows := length m in
  m0 <- idx m 0 ;;
  let columns := length m0 in
  m <- for_loop 0 rows (fun r m =>
    d <- get m r r ;;
    m <- (if (d =? 0)%N then swap_pivot (rows - S r) m r (S r) else Ret m) ;;
    d <- get m r r ;;
    if (d =? 0)%N then Err errSingular
    else
      m <- (if negb (d =? 1)%N then
              scale <- galOneOver d ;; scale_row columns r scale m
            else Ret m) ;;
      for_loop (S r) rows (fun rowBelow m => clear_entry columns r rowBelow m) m) m ;;
  for_loop 0 rows (fun d m =>
    for_loop 0 d (fun rowAbove m => clear_entry columns d rowAbove m) m) m.

Definition Invert (m : matrix) : result matrix :=
  square <- IsSquare m ;;
  if negb square then Err errNotSquare
  else
    let size := length m in
    work <- drop_error (identityMatrix (Z.of_nat size)) ;;
    work <- drop_error (Augment m work) ;;
    work <- gaussianElimination work ;;
    SubMatrix work 0 size size (size * 2).

Definition vandermonde (rows cols : Z) : result matrix :=
  res <- newMatrix rows cols ;;
  mapM (fun r =>
    row <- idx res r ;;
    mapM (fun c => galExp (N.of_nat r mod 256) (Z.of_nat c)) (seq 0 (length row)))
    (seq 0 (length res)).

(** ** Well-formed matrices *)

Definition row_ok (l : nat) (row : list N) : Prop := length row = l /\ bytes_ok row.

(** [k] rows of [l] bytes each *)
Definition wf (k l : nat) (m : matrix) : Prop := length m = k /\ Forall (row_ok l) m.

Definition entry (m : matrix) (i j : nat) : N := nth j (nth i m []) 0%N.

Section WellFormed.
Context {k l : nat} (m : matrix) (Hm : wf k l m).

Lemma wf_length : length m = k.
Proof. apply Hm. Qed.

Lemma wf_row i : i < k -> row_ok l (nth i m []).
Proof.
  destruct Hm as [Hl Hf]. intros Hi. rewrite Forall_forall in Hf. apply Hf, nth_In. lia.
Qed.

Lemma entry_byte i j : (entry m i j < 256)%N.
Proof.
  unfold entry. destruct (Nat.lt_ge_cases i k) as [Hi|Hi].
  - apply bytes_ok_nth. now apply wf_row.
  - rewrite (nth_overflow m) by (rewrite wf_length; lia). destruct j; simpl; lia.
Qed.

Lemma idx_row {E} i : i < k -> @idx E _ m i = Ret (nth i m []).
Proof. intros Hi. apply idx_nth. now rewrite wf_length. Qed.

Lemma get_entry {E} i j : i < k -> j < l -> @get E m i j = Ret (entry m i j).
Proof.
  intros Hi Hj. unfold get. rewrite idx_row by auto. simpl.
  apply idx_nth. now rewrite (proj1 (wf_row i Hi)).
Qed.

Lemma put_entry {E} i j v : i < k -> j < l -> (v < 256)%N ->
  exists m', @put E m i j v = Ret m' /\ wf k l m' /\
    forall a b, entry m' a b = if (a =? i) && (b =? j) then v else entry m a b.
Proof.
  intros Hi Hj Hv. destruct (wf_row i Hi) as [Hr Hb].
  unfold put. rewrite idx_row by auto. simpl.
  rewrite upd_ret by lia. simpl. rewrite upd_ret by (rewrite wf_length; lia).
  eexists; split; [reflexivity |]. split.
  - split; [now rewrite length_set_nth, wf_length |].
    apply Forall_forall. intros row (n & Hn & <-)%(In_nth _ _ []).
    rewrite length_set_nth, wf_length in Hn. rewrite nth_set_nth.
    destruct ((n =? i) && (i <? length m)); [| now apply wf_row].
    split; [now rewrite length_set_nth |].
    apply Forall_forall. intros x (c & Hc & <-)%(In_nth _ _ 0%N).
    rewrite nth_set_nth. destruct ((c =? j) && _); [auto | now apply bytes_ok_nth].
  - intros a b. unfold entry. rewrite nth_set_nth, wf_length.
    destruct (Nat.eqb_spec a i) as [->|]; [| reflexivity].
    destruct (Nat.ltb_spec i k); [| lia]. simpl. rewrite nth_set_nth, Hr.
    destruct (Nat.eqb_spec b j) as [->|]; [| reflexivity].
    destruct (Nat.ltb_spec j l); [reflexivity | lia].
Qed.
End WellFormed.

#[export] Hint Resolve wf_length entry_byte : go.

Lemma wf_ext k l m m' : wf k l m -> wf k l m' ->
  (forall i j, i < k -> j < l -> entry m i j = entry m' i j) -> m = m'.
Proof.
  intros Hm Hm' He. apply (list_ext []); [now rewrite (wf_length m Hm), (wf_length m' Hm') |].
  intros i Hi. rewrite (wf_length m Hm) in Hi.
  destruct (wf_row m Hm i Hi) as [Hl _], (wf_row m' Hm' i Hi) as [Hl' _].
  apply (list_ext 0%N); [congruence |]. intros j Hj. apply He; lia.
Qed.

(** A matrix built row by row. *)
Lemma wf_build k l (f : nat -> nat -> N) : (forall i j, i < k -> j < l -> (f i j < 256)%N) ->
  let m := map (fun i => map (f i) (seq 0 l)) (seq 0 k) in
  wf k l m /\ forall i j, i < k -> j < l -> entry m i j = f i j.
Proof.
  intros Hf m. split.
  - split; [unfold m; lens |]. apply Forall_forall. intros row (i & <- & Hi%in_seq)%in_map_iff.
    split; [lens |]. apply Forall_forall. intros x (j & <- & Hj%in_seq)%in_map_iff. apply Hf; lia.
  - intros i j Hi Hj. unfold entry, m. now rewrite !nth_seq_map by auto.
Qed.

(** One loop that assigns column [off], [off + 1], ... of row [r]. *)
Lemma row_loop {E} k l m r off n lo (body : nat -> matrix -> outcome E matrix) (h : nat -> N) :
  wf k l m -> r < k -> off + n <= l ->
  (forall c, c < n -> (h c < 256)%N) ->
  (forall c m', c < n -> wf k l m' ->
     (forall a b, a <> r \/ off + c <= b -> entry m' a b = entry m a b) ->
     body (lo + c) m' = put m' r (off + c) (h c)) ->
  exists m', for_n n lo body m = Ret m' /\ wf k l m' /\
    forall a b, entry m' a b =
      if (a =? r) && ((off <=? b) && (b <? off + n)) then h (b - off) else entry m a b.
Proof.
  intros Hm Hr Hn Hh Hb. apply oc_ret.
  set (I := fun i m' => wf k l m' /\ forall a b, entry m' a b =
      if (a =? r) && ((off <=? b) && (b <? off + (i - lo))) then h (b - off) else entry m a b).
  assert (HI : oc_spec (for_n n lo body m) (I (lo + n)) (fun _ => False)).
  2: { eapply oc_weaken; [apply HI | | auto]. unfold I. intros m' H.
       now replace (lo + n - lo) with n in H by lia. }
  apply for_n_rule.
  - split; [auto |]. intros a b.
    destruct (Nat.leb_spec off b), (Nat.ltb_spec b (off + (lo - lo)));
      simpl; rewrite ?andb_false_r; auto; lia.
  - intros i s Hi [Hs He]. replace i with (lo + (i - lo)) at 1 by lia.
    rewrite Hb; [| lia | auto |].
    2: { intros a b Hab. rewrite He.
         destruct (Nat.eqb_spec a r), (Nat.leb_spec off b), (Nat.ltb_spec b (off + (i - lo)));
           simpl; auto; lia. }
    destruct (put_entry s Hs (E := E) r (off + (i - lo)) (h (i - lo))) as (m' & -> & Hm' & He');
      [lia | lia | apply Hh; lia |].
    split; [auto |]. intros a b. rewrite He', He.
    destruct (Nat.eqb_spec a r), (Nat.eqb_spec b (off + (i - lo))), (Nat.leb_spec off b),
      (Nat.ltb_spec b (off + (i - lo))), (Nat.ltb_spec b (off + (S i - lo)));
      simpl; auto; try lia. f_equal. lia.
Qed.

(** ** What each operation computes *)

(** The sum (exclusive or) of [f 0 .. f (n-1)]. *)
Fixpoint xsum (n : nat) (f : nat -> N) : N :=
  match n with
  | O => 0%N
  | S n => N.lxor (xsum n f) (f n)
  end.

Lemma xsum_ext n f g : (forall i, i < n -> f i = g i) -> xsum n f = xsum n g.
Proof. induction n as [|n IH]; intros H; simpl; auto. rewrite H by lia. f_equal. auto. Qed.

Lemma xsum_byte n f : (forall i, i < n -> (f i < 256)%N) -> (xsum n f < 256)%N.
Proof. induction n as [|n IH]; intros H; simpl; [lia |]. apply byte_lxor; auto. Qed.

Lemma xsum_zero n f : (forall i, i < n -> f i = 0%N) -> xsum n f = 0%N.
Proof. induction n as [|n IH]; intros H; simpl; auto. rewrite IH, H by auto. reflexivity. Qed.

Lemma xsum_single n i v : i < n -> xsum n (fun j => if j =? i then v else 0%N) = v.
Proof.
  induction n as [|n IH]; intros Hi; [lia |]. simpl. destruct (Nat.eqb_spec n i) as [->|].
  - rewrite xsum_zero; [now rewrite N.lxor_0_l |]. intros j Hj. destruct (Nat.eqb_spec j i); [lia | auto].
  - rewrite IH by lia. now rewrite N.lxor_0_r.
Qed.

Lemma for_xsum {E} n (body : nat -> N -> outcome E N) g :
  (forall i v, i < n -> body i v = Ret (N.lxor v (g i))) ->
  for_loop 0 n body 0%N = Ret (xsum n g).
Proof.
  intros Hf.
  assert (H : oc_spec (for_loop 0 n body 0%N) (fun v => v = xsum n g) (fun _ => False)).
  { apply for_loop_rule with (I := fun i v => v = xsum i g); [lia | reflexivity |].
    intros i s Hi ->. rewrite Hf by lia. reflexivity. }
  apply oc_ret in H as (v & -> & ->). reflexivity.
Qed.

(** [newMatrix] on natural sizes *)
Lemma newMatrix_wf k l : 0 < k -> 0 < l ->
  exists m, newMatrix (Z.of_nat k) (Z.of_nat l) = Ret m /\ wf k l m /\ forall i j, entry m i j = 0%N.
Proof.
  intros Hk Hl. unfold newMatrix.
  destruct (Z.leb_spec (Z.of_nat k) 0), (Z.leb_spec (Z.of_nat l) 0); try lia.
  rewrite !Nat2Z.id. eexists; split; [reflexivity |]. split.
  - split; [lens |]. apply Forall_forall. intros row ->%repeat_spec.
    split; [lens | apply bytes_ok_repeat; lia].
  - intros i j. unfold entry. destruct (Nat.lt_ge_cases i k).
    + rewrite nth_repeat_in by auto. destruct (Nat.lt_ge_cases j l).
      * now rewrite nth_repeat_in.
      * apply nth_overflow. lens.
    + rewrite (nth_overflow (repeat _ k)) by lens. now destruct j.
Qed.

Lemma newMatrix_error rows cols : (rows <= 0 \/ cols <= 0)%Z ->
  newMatrix rows cols = Err errInvalidRowSize \/ newMatrix rows cols = Err errInvalidColSize.
Proof.
  unfold newMatrix. intros H. destruct (Z.leb_spec rows 0); auto.
  destruct (Z.leb_spec cols 0); auto. lia.
Qed.

Lemma identityMatrix_spec n : 0 < n ->
  exists m, identityMatrix (Z.of_nat n) = Ret m /\ wf n n m /\
    forall i j, i < n -> j < n -> entry m i j = if i =? j then 1%N else 0%N.
Proof.
  intros Hn. unfold identityMatrix.
  destruct (newMatrix_wf n n Hn Hn) as (m & -> & Hm & H0). simpl. rewrite (wf_length m Hm).
  apply oc_ret. eapply oc_weaken with (Q := fun _ => False); auto.
  - apply for_loop_rule with (I := fun k m => wf n n m /\
      forall i j, entry m i j = if (i =? j) && (i <? k) then 1%N else 0%N); [lia | |].
    + split; [auto |]. intros i j. rewrite H0. now rewrite andb_false_r.
    + intros i s Hi [Hs He]. destruct (put_entry (E := rsError) s Hs i i 1%N) as (s' & -> & Hs' & He');
        [lia | lia | lia |]. split; [auto |].
      intros a b. rewrite He', He.
      destruct (Nat.eqb_spec a i), (Nat.eqb_spec b i), (Nat.eqb_spec a b), (Nat.ltb_spec a i),
        (Nat.ltb_spec a (S i)); simpl; auto; lia.
  - intros s [Hs He]. split; [auto |]. intros i j Hi Hj. rewrite He.
    destruct (Nat.ltb_spec i n); [| lia]. now rewrite andb_true_r.
Qed.

(** The product of two matrices, entry by entry. *)
Definition prod_entry (n : nat) (a b : matrix) (i j : nat) : N :=
  xsum n (fun x => galMultiply (entry a i x) (entry b x j)).

Lemma mapM_seq {E B} n (f : nat -> outcome E B) g :
  (forall i, i < n -> f i = Ret (g i)) -> mapM f (seq 0 n) = Ret (map g (seq 0 n)).
Proof. intros H. apply mapM_ret. intros i Hi%in_seq. apply H. lia. Qed.

Lemma Multiply_spec k n l a b : 0 < k -> 0 < n -> 0 < l -> wf k n a -> wf n l b ->
  exists c, Multiply a b = Ret c /\ wf k l c /\
    forall i j, i < k -> j < l -> entry c i j = prod_entry n a b i j.
Proof.
  intros Hk Hn Hl Ha Hb. unfold Multiply.
  rewrite (idx_row a Ha) by auto. cbn [bind].
  destruct (wf_row a Ha 0 Hk) as [-> _]. rewrite (wf_length b Hb), Nat.eqb_refl. cbn [negb].
  rewrite (idx_row b Hb) by auto. cbn [bind].
  destruct (wf_row b Hb 0 Hn) as [-> _]. rewrite (wf_length a Ha).
  destruct (newMatrix_wf k l Hk Hl) as (r & -> & Hr & _). cbn [bind drop_error].
  rewrite (wf_length r Hr).
  rewrite mapM_seq with (g := fun i => map (prod_entry n a b i) (seq 0 l)).
  - eexists; split; [reflexivity |]. apply wf_build. intros i j _ _.
    apply xsum_byte. intros x _. apply galMultiply_byte; eapply entry_byte; eauto.
  - intros i Hi. rewrite (idx_row r Hr) by auto. cbn [bind].
    destruct (wf_row r Hr i Hi) as [-> _].
    apply mapM_seq. intros j Hj. apply for_xsum. intros x v Hx.
    now rewrite (get_entry a Ha), (get_entry b Hb) by auto.
Qed.

Lemma Multiply_mismatch k n n' l a b : 0 < k -> wf k n a -> wf n' l b -> n <> n' ->
  Multiply a b = Err (errMultiply n n').
Proof.
  intros Hk Ha Hb Hne. unfold Multiply. rewrite (idx_row a Ha) by auto. cbn [bind].
  destruct (wf_row a Ha 0 Hk) as [-> _]. rewrite (wf_length b Hb).
  apply Nat.eqb_neq in Hne. now rewrite Hne.
Qed.

(** A loop over the rows, each row one [row_loop]. *)
Lemma rows_loop {E} k l m lo n (body : nat -> matrix -> outcome E matrix) (h : nat -> nat -> N) :
  wf k l m -> n <= k ->
  (forall r m', r < n -> wf k l m' -> (forall a b, r <= a -> entry m' a b = entry m a b) ->
     exists m'', body (lo + r) m' = Ret m'' /\ wf k l m'' /\
       forall a b, entry m'' a b = if a =? r then h a b else entry m' a b) ->
  exists m', for_n n lo body m = Ret m' /\ wf k l m' /\
    forall a b, entry m' a b = if a <? n then h a b else entry m a b.
Proof.
  intros Hm Hn Hb. apply oc_ret.
  set (I := fun i m' => wf k l m' /\ forall a b,
     entry m' a b = if a <? i - lo then h a b else entry m a b).
  assert (HI : oc_spec (for_n n lo body m) (I (lo + n)) (fun _ => False)).
  2: { eapply oc_weaken; [apply HI | | auto]. unfold I. intros m' H.
       now replace (lo + n - lo) with n in H by lia. }
  apply for_n_rule.
  - split; [auto |]. intros a b. destruct (Nat.ltb_spec a (lo - lo)); [lia | auto].
  - intros i s Hi [Hs He]. replace i with (lo + (i - lo)) at 1 by lia.
    destruct (Hb (i - lo) s) as (m' & -> & Hm' & He'); [lia | auto | |].
    { intros a b Ha. rewrite He. destruct (Nat.ltb_spec a (i - lo)); [lia | auto]. }
    split; [auto |]. intros a b. rewrite He', He.
    destruct (Nat.eqb_spec a (i - lo)), (Nat.ltb_spec a (i - lo)), (Nat.ltb_spec a (S i - lo));
      auto; lia.
Qed.

Lemma for_n_for_loop {E St} n (body : nat -> St -> outcome E St) st :
  for_loop 0 n body st = for_n n 0 body st.
Proof. unfold for_loop. now rewrite Nat.sub_0_r. Qed.

Lemma Augment_spec k n l a b : 0 < k -> 0 < n -> 0 < l -> wf k n a -> wf k l b ->
  exists c, Augment a b = Ret c /\ wf k (n + l) c /\
    forall i j, i < k -> j < n + l ->
      entry c i j = if j <? n then entry a i j else entry b i (j - n).
Proof.
  intros Hk Hn Hl Ha Hb. unfold Augment.
  rewrite (wf_length a Ha), (wf_length b Hb), Nat.eqb_refl. cbn [negb].
  rewrite (idx_row a Ha), (idx_row b Hb) by auto. cbn [bind].
  destruct (wf_row a Ha 0 Hk) as [-> _], (wf_row b Hb 0 Hk) as [-> _].
  destruct (newMatrix_wf k (n + l)) as (r & -> & Hr & H0); [lia | lia |]. cbn [bind drop_error].
  rewrite for_n_for_loop.
  destruct (rows_loop (E := rsError) k (n + l) r 0 k (fun r0 res =>
      row <- idx a r0 ;;
      res <- for_loop 0 (length row) (fun c res => v <- get a r0 c ;; put res r0 c v) res ;;
      for_loop 0 l (fun c res => v <- get b r0 c ;; put res r0 (n + c) v) res)
    (fun i j => if j <? n then entry a i j else if j <? n + l then entry b i (j - n) else 0%N))
    as (c & -> & Hc & He); [auto | lia | | ].
  - intros i m Hi Hmm Hm0. simpl Nat.add. rewrite (idx_row a Ha) by auto. cbn [bind].
    destruct (wf_row a Ha i Hi) as [-> _]. rewrite !for_n_for_loop.
    destruct (row_loop (E := rsError) k (n + l) m i 0 n 0 (fun c res => v <- get a i c ;; put res i c v) (entry a i))
      as (m1 & -> & Hm1 & He1); [auto | auto | lia | intros; eapply entry_byte; eauto | |].
    { intros c m' Hc _ _. simpl. now rewrite (get_entry a Ha) by auto. }
    cbn [bind]. rewrite for_n_for_loop.
    destruct (row_loop (E := rsError) k (n + l) m1 i n l 0 (fun c res => v <- get b i c ;; put res i (n + c) v) (entry b i))
      as (m2 & -> & Hm2 & He2); [auto | auto | lia | intros; eapply entry_byte; eauto | |].
    { intros c m' Hc _ _. simpl. now rewrite (get_entry b Hb) by auto. }
    exists m2. split; [auto |]. split; [auto |]. intros x y. rewrite He2, He1.
    destruct (Nat.eqb_spec x i) as [->|]; [| auto]. simpl andb.
    destruct (Nat.leb_spec n y), (Nat.ltb_spec y (n + l)), (Nat.ltb_spec y n), (Nat.leb_spec 0 y),
      (Nat.ltb_spec y (0 + n)); simpl; auto; try lia.
    + rewrite Hm0, H0 by lia. reflexivity.
    + now rewrite Nat.sub_0_r.
  - exists c. split; [auto |]. split; [auto |]. intros i j Hi Hj. rewrite He.
    destruct (Nat.ltb_spec i k), (Nat.ltb_spec j (n + l)); auto; lia.
Qed.

Lemma SubMatrix_spec k l m rmin cmin rmax cmax : wf k l m ->
  rmin < rmax <= k -> cmin < cmax <= l ->
  exists s, SubMatrix m rmin cmin rmax cmax = Ret s /\ wf (rmax - rmin) (cmax - cmin) s /\
    forall i j, i < rmax - rmin -> j < cmax - cmin -> entry s i j = entry m (rmin + i) (cmin + j).
Proof.
  intros Hm Hr Hc. unfold SubMatrix.
  replace (Z.of_nat rmax - Z.of_nat rmin)%Z with (Z.of_nat (rmax - rmin)) by lia.
  replace (Z.of_nat cmax - Z.of_nat cmin)%Z with (Z.of_nat (cmax - cmin)) by lia.
  destruct (newMatrix_wf (rmax - rmin) (cmax - cmin)) as (z & -> & Hz & H0); [lia | lia |].
  cbn [bind]. unfold for_loop at 1.
  destruct (rows_loop (E := rsError) (rmax - rmin) (cmax - cmin) z rmin (rmax - rmin) (fun r res =>
      for_loop cmin cmax (fun c res => v <- get m r c ;; put res (r - rmin) (c - cmin) v) res)
    (fun i j => if j <? cmax - cmin then entry m (rmin + i) (cmin + j) else 0%N))
    as (s & -> & Hs & He); [apply Hz | lia | |].
  - intros i m' Hi Hm' Hm0. unfold for_loop.
    destruct (row_loop (E := rsError) (rmax - rmin) (cmax - cmin) m' i 0 (cmax - cmin) cmin
      (fun c res => v <- get m (rmin + i) c ;; put res (rmin + i - rmin) (c - cmin) v)
      (fun j => entry m (rmin + i) (cmin + j))) as (m1 & -> & Hm1 & He1);
      [auto | auto | lia | intros; eapply entry_byte; eauto | |].
    { intros c m1 Hc1 _ _. rewrite (get_entry m Hm) by lia. simpl. f_equal; lia. }
    exists m1. split; [auto |]. split; [auto |]. intros a b. rewrite He1.
    destruct (Nat.eqb_spec a i) as [->|]; [| auto]. simpl.
    destruct (Nat.ltb_spec b (cmax - cmin)); [now rewrite Nat.sub_0_r |].
    now rewrite Hm0, H0 by lia.
  - exists s. split; [auto |]. split; [auto |]. intros i j Hi Hj. rewrite He.
    destruct (Nat.ltb_spec i (rmax - rmin)), (Nat.ltb_spec j (cmax - cmin)); auto; lia.
Qed.

(** ** Row operations keep the solutions of the homogeneous system *)

Definition vec_ok (x : nat -> N) : Prop := forall j, (x j < 256)%N.

(** Row [i] of the matrix applied to the vector [x]. *)
Definition dot (l : nat) (m : matrix) (i : nat) (x : nat -> N) : N :=
  xsum l (fun j => galMultiply (entry m i j) (x j)).

Definition ker (k l : nat) (m : matrix) (x : nat -> N) : Prop :=
  forall i, i < k -> dot l m i x = 0%N.

(** Two matrices with the same solutions. *)
Definition row_equiv (k l : nat) (m m' : matrix) : Prop :=
  forall x, vec_ok x -> (ker k l m x <-> ker k l m' x).

#[export] Instance row_equiv_equivalence k l : RelationClasses.Equivalence (row_equiv k l).
Proof.
  split; unfold row_equiv.
  - intros m x _. reflexivity.
  - intros m m' H x Hx. symmetry. auto.
  - intros m1 m2 m3 H1 H2 x Hx. rewrite H1 by auto. auto.
Qed.

Lemma xsum_lxor n f g : xsum n (fun j => N.lxor (f j) (g j)) = N.lxor (xsum n f) (xsum n g).
Proof. induction n as [|n IH]; simpl; [reflexivity |]. rewrite IH. nxor. Qed.

Lemma xsum_scale n s f : (s < 256)%N -> (forall j, (f j < 256)%N) ->
  xsum n (fun j => galMultiply s (f j)) = galMultiply s (xsum n f).
Proof.
  intros Hs Hf. induction n as [|n IH]; simpl; [now rewrite galMultiply_0_r |].
  rewrite IH, galMultiply_lxor_r; auto. apply xsum_byte. auto.
Qed.

Lemma dot_byte k l m i x : wf k l m -> vec_ok x -> (dot l m i x < 256)%N.
Proof.
  intros Hm Hx. apply xsum_byte. intros j _. apply galMultiply_byte; [eapply entry_byte; eauto | auto].
Qed.

Section RowOperations.
Context {k l : nat} (m : matrix) (Hm : wf k l m).

Lemma SwapRows_spec r1 r2 : r1 < k -> r2 < k ->
  exists m', SwapRows m (Z.of_nat r1) (Z.of_nat r2) = Ret m' /\ wf k l m' /\
    (forall a b, entry m' a b = if a =? r1 then entry m r2 b
                                else if a =? r2 then entry m r1 b else entry m a b).
Proof.
  intros H1 H2. unfold SwapRows. rewrite (wf_length m Hm).
  destruct (Z.ltb_spec (Z.of_nat r1) 0), (Z.leb_spec (Z.of_nat k) (Z.of_nat r1)),
    (Z.ltb_spec (Z.of_nat r2) 0), (Z.leb_spec (Z.of_nat k) (Z.of_nat r2)); try lia.
  cbn [orb]. rewrite !Nat2Z.id, !(idx_row m Hm) by auto. cbn [bind].
  rewrite upd_ret by (rewrite (wf_length m Hm); auto). cbn [bind].
  rewrite upd_ret by (rewrite length_set_nth, (wf_length m Hm); auto).
  eexists; split; [reflexivity |]. split.
  - split; [now rewrite !length_set_nth, (wf_length m Hm) |].
    apply Forall_forall. intros row (n & Hn & <-)%(In_nth _ _ []).
    rewrite !length_set_nth, (wf_length m Hm) in Hn.
    rewrite !nth_set_nth. repeat if_case; now apply (wf_row m Hm).
  - intros a b. unfold entry. rewrite !nth_set_nth, length_set_nth, (wf_length m Hm).
    destruct (Nat.ltb_spec r1 k), (Nat.ltb_spec r2 k); try lia. rewrite !andb_true_r.
    destruct (a =? r1), (a =? r2); reflexivity.
Qed.

Lemma SwapRows_range r1 r2 :
  (r1 < 0 \/ Z.of_nat k <= r1 \/ r2 < 0 \/ Z.of_nat k <= r2)%Z ->
  SwapRows m r1 r2 = Err errInvalidRowSize.
Proof.
  intros H. unfold SwapRows. rewrite (wf_length m Hm).
  destruct (Z.ltb_spec r1 0), (Z.leb_spec (Z.of_nat k) r1), (Z.ltb_spec r2 0),
    (Z.leb_spec (Z.of_nat k) r2); try reflexivity; lia.
Qed.

Lemma swap_equiv m' r1 r2 : r1 < k -> r2 < k ->
  (forall a b, entry m' a b = if a =? r1 then entry m r2 b
                              else if a =? r2 then entry m r1 b else entry m a b) ->
  row_equiv k l m m'.
Proof.
  intros H1 H2 He x Hx.
  assert (Hd : forall i, dot l m' i x = dot l m (if i =? r1 then r2 else if i =? r2 then r1 else i) x).
  { intros i. apply xsum_ext. intros j _. rewrite He.
    destruct (i =? r1); [reflexivity |]. now destruct (i =? r2). }
  split; intros Hk i Hi.
  - rewrite Hd. apply Hk. destruct (i =? r1); [lia |]. destruct (i =? r2); lia.
  - specialize (Hd (if i =? r1 then r2 else if i =? r2 then r1 else i)).
    replace (dot l m i x) with (dot l m' (if i =? r1 then r2 else if i =? r2 then r1 else i) x).
    + apply Hk. destruct (i =? r1); [lia |]. destruct (i =? r2); lia.
    + rewrite Hd. f_equal.
      destruct (Nat.eqb_spec i r1), (Nat.eqb_spec i r2);
        repeat match goal with |- context [?a =? ?b] => destruct (Nat.eqb_spec a b) end; lia.
Qed.

Lemma scale_row_spec r s : r < k -> (s < 256)%N ->
  exists m', scale_row l r s m = Ret m' /\ wf k l m' /\
    forall a b, b < l -> entry m' a b = if a =? r then galMultiply (entry m r b) s else entry m a b.
Proof.
  intros Hr Hs. unfold scale_row. rewrite for_n_for_loop.
  destruct (row_loop (E := rsError) k l m r 0 l 0
    (fun c m => v <- get m r c ;; put m r c (galMultiply v s))
    (fun c => galMultiply (entry m r c) s)) as (m' & -> & Hm' & He'); auto.
  - intros c _. apply galMultiply_byte; [eapply entry_byte; eauto | auto].
  - intros c m' Hc Hm' Hsame. simpl. rewrite (get_entry m' Hm') by auto. simpl.
    now rewrite Hsame by lia.
  - exists m'. split; [auto |]. split; [auto |]. intros a b Hb. rewrite He'.
    destruct (Nat.eqb_spec a r), (Nat.ltb_spec b (0 + l)); try lia; simpl; [| auto].
    now rewrite Nat.sub_0_r.
Qed.

Lemma scale_equiv m' r s : r < k -> (s < 256)%N -> s <> 0%N ->
  (forall a b, b < l -> entry m' a b = if a =? r then galMultiply (entry m r b) s else entry m a b) ->
  row_equiv k l m m'.
Proof.
  intros Hr Hs Hne He x Hx.
  assert (Hd : forall i, dot l m' i x = if i =? r then galMultiply s (dot l m r x) else dot l m i x).
  { intros i. unfold dot. destruct (Nat.eqb_spec i r) as [->|Hn].
    - rewrite <- xsum_scale; [| auto | intros j; apply galMultiply_byte; [eapply entry_byte; eauto | auto]].
      apply xsum_ext. intros j Hj. rewrite He, Nat.eqb_refl by auto.
      assert (Hb := entry_byte m Hm r j).
      rewrite (galMultiply_comm (entry m r j)), galMultiply_assoc by auto. reflexivity.
    - apply xsum_ext. intros j Hj. rewrite He by auto. apply Nat.eqb_neq in Hn. now rewrite Hn. }
  split; intros Hk i Hi.
  - rewrite Hd. destruct (i =? r); [| auto]. rewrite Hk by auto. now apply galMultiply_0_r.
  - specialize (Hk i Hi). rewrite Hd in Hk. revert Hk.
    destruct (Nat.eqb_spec i r) as [Heq|_]; [rewrite Heq | auto]. intros Hk.
    destruct (N.eq_dec (dot l m r x) 0); [auto |].
    exfalso. revert Hk. apply galMultiply_neq_0; auto. eapply dot_byte; eauto.
Qed.

Lemma add_row_spec row r s : row < k -> r < k -> row <> r -> (s < 256)%N ->
  exists m', add_row l row r s m = Ret m' /\ wf k l m' /\
    forall a b, b < l -> entry m' a b =
      if a =? row then N.lxor (entry m row b) (galMultiply s (entry m r b)) else entry m a b.
Proof.
  intros Hrow Hr Hne Hs. unfold add_row. rewrite for_n_for_loop.
  destruct (row_loop (E := rsError) k l m row 0 l 0
    (fun c m => v <- get m row c ;; w <- get m r c ;; put m row c (N.lxor v (galMultiply s w)))
    (fun c => N.lxor (entry m row c) (galMultiply s (entry m r c)))) as (m' & -> & Hm' & He'); auto.
  - intros c _. apply byte_lxor; [| apply galMultiply_byte]; auto; eapply entry_byte; eauto.
  - intros c m' Hc Hm' Hsame. simpl. rewrite !(get_entry m' Hm') by auto. simpl.
    now rewrite !Hsame by lia.
  - exists m'. split; [auto |]. split; [auto |]. intros a b Hb. rewrite He'.
    destruct (Nat.eqb_spec a row), (Nat.ltb_spec b (0 + l)); try lia; simpl; [| auto].
    now rewrite Nat.sub_0_r.
Qed.

Lemma add_equiv m' row r s : row < k -> r < k -> row <> r -> (s < 256)%N ->
  (forall a b, b < l -> entry m' a b =
    if a =? row then N.lxor (entry m row b) (galMultiply s (entry m r b)) else entry m a b) ->
  row_equiv k l m m'.
Proof.
  intros Hrow Hr Hne Hs He x Hx.
  assert (Hd : forall i, dot l m' i x =
     if i =? row then N.lxor (dot l m row x) (galMultiply s (dot l m r x)) else dot l m i x).
  { intros i. unfold dot. destruct (Nat.eqb_spec i row) as [->|Hn].
    - rewrite <- xsum_scale, <- xsum_lxor;
        [| auto | intros j; apply galMultiply_byte; [eapply entry_byte; eauto | auto]].
      apply xsum_ext. intros j Hj. rewrite He, Nat.eqb_refl by auto.
      assert (Hb := entry_byte m Hm row j). assert (Hb' := entry_byte m Hm r j).
      rewrite galMultiply_lxor_l, galMultiply_assoc by auto using galMultiply_byte. reflexivity.
    - apply xsum_ext. intros j Hj. rewrite He by auto. apply Nat.eqb_neq in Hn. now rewrite Hn. }
  split; intros Hk i Hi.
  - rewrite Hd. destruct (i =? row); [| auto]. rewrite !Hk by auto. now rewrite galMultiply_0_r.
  - destruct (Nat.eqb_spec i row) as [->|Hn].
    + assert (H := Hk row Hrow). rewrite Hd, Nat.eqb_refl in H.
      assert (H' := Hk r Hr). rewrite Hd in H'.
      replace (r =? row) with false in H' by (symmetry; apply Nat.eqb_neq; auto).
      now rewrite H', galMultiply_0_r, N.lxor_0_r in H.
    + assert (H := Hk i Hi). rewrite Hd in H. apply Nat.eqb_neq in Hn. now rewrite Hn in H.
Qed.

Lemma clear_entry_spec d row : d < k -> d < l -> row < k -> row <> d ->
  exists m', clear_entry l d row m = Ret m' /\ wf k l m' /\ row_equiv k l m m' /\
    forall a b, b < l -> entry m' a b =
      if a =? row then N.lxor (entry m row b) (galMultiply (entry m row d) (entry m d b))
      else entry m a b.
Proof.
  intros Hd Hdl Hrow Hne. unfold clear_entry.
  rewrite (get_entry m Hm) by auto. cbn [bind].
  assert (Hb : (entry m row d < 256)%N) by (eapply entry_byte; eauto).
  destruct (N.eqb_spec (entry m row d) 0) as [H0|H0]; cbn [negb].
  - exists m. split; [auto |]. split; [auto |]. split; [reflexivity |]. intros a b _.
    rewrite H0, galMultiply_0_l by (eapply entry_byte; eauto).
    destruct (Nat.eqb_spec a row) as [->|]; [now rewrite N.lxor_0_r | reflexivity].
  - cbn [bind]. destruct (add_row_spec row d (entry m row d)) as (m' & -> & Hm' & He); auto.
    exists m'. split; [auto |]. split; [auto |]. split; [| auto].
    eapply add_equiv with (row := row) (r := d); eauto.
Qed.

Lemma swap_pivot_spec n r rb : rb + n = k -> r < rb -> r < l ->
  exists m', swap_pivot n m r rb = Ret m' /\ wf k l m' /\
    ((exists p, rb <= p < k /\ entry m p r <> 0%N /\
        (forall a b, entry m' a b = if a =? r then entry m p b
                                    else if a =? p then entry m r b else entry m a b)) \/
     (m' = m /\ forall p, rb <= p < k -> entry m p r = 0%N)).
Proof.
  revert rb; induction n as [|n IH]; intros rb Hk Hr Hl; simpl.
  - exists m. split; [auto |]. split; [auto |]. right. split; [auto |]. intros p Hp. lia.
  - rewrite (get_entry m Hm) by lia. cbn [bind].
    destruct (N.eqb_spec (entry m rb r) 0) as [H0|H0]; cbn [negb].
    + destruct (IH (S rb)) as (m' & -> & Hm' & [(p & Hp & Hn & He)|[-> Hz]]); [lia | lia | auto | |].
      * exists m'. split; [auto |]. split; [auto |]. left. exists p. repeat split; auto; lia.
      * exists m. split; [auto |]. split; [auto |]. right. split; [auto |]. intros p Hp.
        destruct (Nat.eq_dec p rb) as [->|]; [auto | apply Hz; lia].
    + destruct (SwapRows_spec r rb) as (m' & -> & Hm' & He); [lia | lia |].
      exists m'. split; [auto |]. split; [auto |]. left. exists rb. repeat split; auto; lia.
Qed.
End RowOperations.

(** ** Gaussian elimination *)

(** The state after [r] rounds of the first loop: the first [r] columns are
    unit upper triangular. *)
Definition unit_upper (k r : nat) (m : matrix) : Prop :=
  forall j, j < r -> entry m j j = 1%N /\ forall i, j < i < k -> entry m i j = 0%N.

(** What a failing elimination leaves: an equivalent matrix whose rows from [r]
    on are zero up to column [r]. *)
Definition singular_at (k r : nat) (m : matrix) : Prop :=
  forall i j, r <= i < k -> j <= r -> entry m i j = 0%N.

Section Elimination.
Context {k l : nat} (Hkl : k <= l).

Lemma pivot_step m r : wf k l m -> r < k -> unit_upper k r m ->
  exists m', (d <- get m r r ;;
              if (d =? 0)%N then swap_pivot (k - S r) m r (S r) else Ret m) = Ret m' /\
    wf k l m' /\ row_equiv k l m m' /\ unit_upper k r m' /\
    (entry m' r r = 0%N -> forall i, r <= i < k -> entry m' i r = 0%N).
Proof.
  intros Hm Hr Hu. rewrite (get_entry m Hm) by lia. cbn [bind].
  destruct (N.eqb_spec (entry m r r) 0) as [H0|H0].
  2: { exists m. splits; auto; [reflexivity | congruence]. }
  destruct (swap_pivot_spec m Hm (k - S r) r (S r)) as (m' & -> & Hm' & [(p & Hp & Hn & He)|[-> Hz]]);
    try lia.
  - exists m'. split; [auto |]. split; [auto |]. split.
    { eapply (swap_equiv m); [| | apply He]; lia. }
    split.
    + intros j Hj. destruct (Hu j Hj) as [H1 H2]. rewrite He.
      replace (j =? r) with false by (symmetry; apply Nat.eqb_neq; lia).
      replace (j =? p) with false by (symmetry; apply Nat.eqb_neq; lia).
      split; [auto |]. intros i Hi. rewrite He.
      destruct (i =? r); [apply H2; lia |]. destruct (i =? p); apply H2; lia.
    + intros Hc. rewrite He, Nat.eqb_refl in Hc. contradiction.
  - exists m. splits; auto; [reflexivity |].
    intros _ i Hi. destruct (Nat.eq_dec i r) as [->|]; [auto | apply Hz; lia].
Qed.

Lemma scale_step m r : wf k l m -> r < k -> unit_upper k r m -> entry m r r <> 0%N ->
  exists m', (if negb (entry m r r =? 1)%N then
                scale <- galOneOver (entry m r r) ;; scale_row l r scale m
              else Ret m) = Ret m' /\
    wf k l m' /\ row_equiv k l m m' /\ unit_upper k r m' /\ entry m' r r = 1%N.
Proof.
  intros Hm Hr Hu H0. destruct (N.eqb_spec (entry m r r) 1) as [H1|H1]; cbn [negb].
  { exists m. splits; auto; reflexivity. }
  assert (Hb : (entry m r r < 256)%N) by (eapply entry_byte; eauto).
  destruct (@galOneOver_inv rsError (entry m r r) Hb H0) as (s & -> & Hs & Hs0 & Hinv).
  cbn [bind]. destruct (scale_row_spec m Hm r s Hr Hs) as (m' & -> & Hm' & He).
  exists m'. split; [auto |]. split; [auto |]. split; [eapply (scale_equiv m Hm); eauto |].
  split.
  - intros j Hj. destruct (Hu j Hj) as [Hd Hz]. split.
    + rewrite He by lia. destruct (Nat.eqb_spec j r); [lia | auto].
    + intros i Hi. rewrite He by lia. destruct (Nat.eqb_spec i r) as [->|]; [| now apply Hz].
      rewrite Hz by lia. now apply galMultiply_0_l.
  - rewrite He, Nat.eqb_refl by lia. exact Hinv.
Qed.

(** Clearing column [r] below the diagonal keeps the columns before it. *)
Lemma below_step m r : wf k l m -> r < k -> unit_upper k r m -> entry m r r = 1%N ->
  exists m', for_loop (S r) k (fun rowBelow m => clear_entry l r rowBelow m) m = Ret m' /\
    wf k l m' /\ row_equiv k l m m' /\ unit_upper k (S r) m'.
Proof.
  intros Hm Hr Hu H1. apply oc_ret.
  eapply oc_weaken with (Q := fun _ => False); auto.
  - apply for_loop_rule with (I := fun rb m' => wf k l m' /\ row_equiv k l m m' /\
      unit_upper k r m' /\ entry m' r r = 1%N /\ forall i, r < i < rb -> entry m' i r = 0%N);
      [lia | |].
    + split; [auto |]. split; [reflexivity |]. split; [auto |]. split; [auto |]. intros i Hi. lia.
    + intros rb s Hrb (Hs & Heq & Hus & Hs1 & Hz).
      destruct (clear_entry_spec s Hs r rb) as (s' & -> & Hs' & Heq' & He); try lia.
      split; [auto |]. split; [now rewrite Heq |].
      split; [| split].
      * intros j Hj. destruct (Hus j Hj) as [Hd Hl]. split.
        -- rewrite He by lia. destruct (Nat.eqb_spec j rb); [lia | auto].
        -- intros i Hi. rewrite He by lia. destruct (Nat.eqb_spec i rb) as [->|]; [| now apply Hl].
           rewrite (Hl rb), (Hl r) by lia. rewrite galMultiply_0_r; [reflexivity |].
           eapply entry_byte; eauto.
      * rewrite He by lia. destruct (Nat.eqb_spec r rb); [lia | auto].
      * intros i Hi. rewrite He by lia. destruct (Nat.eqb_spec i rb) as [->|]; [| apply Hz; lia].
        rewrite Hs1, galMultiply_comm, galMultiply_1_l by (try lia; eapply entry_byte; eauto).
        apply N.lxor_nilpotent.
  - intros s (Hs & Heq & Hus & Hs1 & Hz). split; [auto |]. split; [auto |].
    intros j Hj. destruct (Nat.eq_dec j r) as [->|]; [| apply Hus; lia].
    split; [auto |]. intros i Hi. apply Hz. lia.
Qed.

(** Clearing column [d] above the diagonal. *)
Lemma above_step m d : wf k l m -> d < k -> unit_upper k k m ->
  (forall i j, i < j -> j < d -> entry m i j = 0%N) ->
  exists m', for_loop 0 d (fun rowAbove m => clear_entry l d rowAbove m) m = Ret m' /\
    wf k l m' /\ row_equiv k l m m' /\ unit_upper k k m' /\
    (forall i j, i < j -> j < S d -> entry m' i j = 0%N).
Proof.
  intros Hm Hd Hu Ha. apply oc_ret.
  eapply oc_weaken with (Q := fun _ => False); auto.
  - apply for_loop_rule with (I := fun ra m' => wf k l m' /\ row_equiv k l m m' /\
      unit_upper k k m' /\ (forall i j, i < j -> j < d -> entry m' i j = 0%N) /\
      forall i, i < ra -> entry m' i d = 0%N); [lia | |].
    + split; [auto |]. split; [reflexivity |]. split; [auto |]. split; [auto |]. intros i Hi. lia.
    + intros ra s Hra (Hs & Heq & Hus & Has & Hz).
      destruct (clear_entry_spec s Hs d ra) as (s' & -> & Hs' & Heq' & He); try lia.
      split; [auto |]. split; [now rewrite Heq |].
      assert (Hrow : forall j, j < d -> entry s d j = 0%N) by (intros j Hj; apply (Hus j); lia).
      assert (Hz0 : galMultiply (entry s ra d) 0 = 0%N)
        by (apply galMultiply_0_r; eapply entry_byte; eauto).
      split; [| split].
      * intros j Hj. destruct (Hus j Hj) as [Hdj Hl]. split.
        -- rewrite He by lia. destruct (Nat.eqb_spec j ra) as [->|]; [| auto].
           now rewrite (Hrow ra), Hz0, N.lxor_0_r by lia.
        -- intros i Hi. rewrite He by lia. destruct (Nat.eqb_spec i ra) as [->|]; [| now apply Hl].
           now rewrite (Hrow j), Hz0, N.lxor_0_r by lia; apply Hl.
      * intros i j Hij Hj. rewrite He by lia. destruct (Nat.eqb_spec i ra) as [->|]; [| now apply Has].
        rewrite (Hrow j), Hz0, N.lxor_0_r by lia. now apply Has.
      * intros i Hi. rewrite He by lia. destruct (Nat.eqb_spec i ra) as [->|]; [| apply Hz; lia].
        destruct (Hus d Hd) as [-> _].
        rewrite galMultiply_comm, galMultiply_1_l by (try lia; eapply entry_byte; eauto).
        apply N.lxor_nilpotent.
  - intros s (Hs & Heq & Hus & Has & Hz). split; [auto |]. split; [auto |]. split; [auto |].
    intros i j Hij Hj. destruct (Nat.eq_dec j d) as [->|]; [now apply Hz | apply Has; lia].
Qed.

(** The elimination never panics.  It succeeds with an equivalent matrix whose
    left block is the identity, or it stops at a singular equivalent matrix. *)
Lemma gaussianElimination_spec m : 0 < k -> wf k l m ->
  oc_spec (gaussianElimination m)
    (fun m' => wf k l m' /\ row_equiv k l m m' /\
       forall i j, i < k -> j < k -> entry m' i j = if i =? j then 1%N else 0%N)
    (fun e => e = errSingular /\
       exists m' r, r < k /\ wf k l m' /\ row_equiv k l m m' /\ singular_at k r m').
Proof.
  intros Hk Hm. unfold gaussianElimination.
  rewrite (idx_row m Hm) by auto. cbn [bind].
  rewrite (wf_length m Hm). destruct (wf_row m Hm 0 Hk) as [-> _].
  eapply oc_bind.
  - apply for_loop_rule with (I := fun r m' => wf k l m' /\ row_equiv k l m m' /\ unit_upper k r m');
      [lia | |].
    + split; [auto |]. split; [reflexivity |]. intros j Hj. lia.
    + intros r s Hr (Hs & Heq & Hu).
      destruct (pivot_step s r Hs) as (s1 & Hp & Hs1 & Heq1 & Hu1 & Hsing); [lia | auto |].
      rewrite (get_entry s Hs) in Hp by lia. cbn [bind] in Hp.
      rewrite (get_entry s Hs) by lia. cbn [bind]. rewrite Hp. cbn [bind].
      rewrite (get_entry s1 Hs1) by lia. cbn [bind].
      destruct (N.eqb_spec (entry s1 r r) 0) as [H0|H0].
      * split; [auto |]. exists s1, r. split; [lia |]. split; [auto |]. split; [now rewrite Heq |].
        intros i j Hi Hj. destruct (Nat.eq_dec j r) as [->|]; [now apply Hsing |].
        apply (Hu1 j); lia.
      * destruct (scale_step s1 r Hs1) as (s2 & -> & Hs2 & Heq2 & Hu2 & H1); [lia | auto | auto |].
        cbn [bind].
        destruct (below_step s2 r Hs2) as (s3 & -> & Hs3 & Heq3 & Hu3); [lia | auto | auto |].
        split; [auto |]. split; [| auto]. now rewrite Heq, Heq1, Heq2.
  - intros m1 (Hm1 & Heq1 & Hu1). eapply oc_weaken.
    + apply for_loop_rule with (I := fun d m' => wf k l m' /\ row_equiv k l m m' /\ unit_upper k k m' /\
        forall i j, i < j -> j < d -> entry m' i j = 0%N); [lia | |].
      * split; [auto |]. split; [auto |]. split; [auto |]. intros i j Hij Hj. lia.
      * intros d s Hd (Hs & Heq & Hu & Ha).
        destruct (above_step s d Hs) as (s' & -> & Hs' & Heq' & Hu' & Ha'); [lia | auto | auto |].
        split; [auto |]. split; [now rewrite Heq | auto].
    + intros s (Hs & Heq & Hu & Ha). split; [auto |]. split; [auto |]. intros i j Hi Hj.
      destruct (Nat.eqb_spec i j) as [->|]; [now apply Hu |].
      destruct (Nat.lt_ge_cases i j); [now apply Ha | apply (Hu j); lia].
    + intros e He. exact He.
Qed.
End Elimination.

Lemma vandermonde_spec rows cols : 0 < rows <= 256 -> 0 < cols ->
  exists m, vandermonde (Z.of_nat rows) (Z.of_nat cols) = Ret m /\ wf rows cols m /\
    forall i j, i < rows -> j < cols -> entry m i j = gpow (N.of_nat i) j.
Proof.
  intros Hr Hc. unfold vandermonde.
  destruct (newMatrix_wf rows cols) as (z & -> & Hz & _); [lia | lia |]. cbn [bind].
  rewrite (wf_length z Hz).
  rewrite mapM_seq with (g := fun i => map (gpow (N.of_nat i)) (seq 0 cols)).
  - eexists; split; [reflexivity |]. apply wf_build. intros i j Hi _. apply gpow_byte. lia.
  - intros i Hi. rewrite (idx_row z Hz) by auto. cbn [bind].
    destruct (wf_row z Hz i Hi) as [-> _]. apply mapM_seq. intros j Hj.
    rewrite N.mod_small by lia. apply galExp_gpow. lia.
Qed.
