(* ===== verification/EncodingMatrix.v ===== *)
(** * The encoding matrices (src/reedsolomon/reedsolomon.go, [buildMatrix*])

    Each builder returns a matrix with one row per shard; the first
    [dataShards] rows are the identity. *)
From Stdlib Require Import List Arith NArith ZArith Lia Bool.
From S2P Require Import Prelude Galois RSTypes Matrix.
Import ListNotations.

Definition buildMatrix (dataShards totalShards : nat) : result matrix :=
  vm <- vandermonde (Z.of_nat totalShards) (Z.of_nat dataShards) ;;
  top <- SubMatrix vm 0 0 dataShards dataShards ;;
  topInv <- Invert top ;;
  Multiply vm topInv.

(** ** The Jerasure matrix *)

(** [for ; r < totalShards && vm[r][i] == 0; r++ {}] *)
Fixpoint find_row (n : nat) (vm : matrix) (totalShards r i : nat) : result nat :=
  match n with
  | O => Timeout
  | S n =>
      if r <? totalShards then
        v <- get vm r i ;;
        if (v =? 0)%N then find_row n vm totalShards (S r) i else Ret r
      else Ret r
  end.

(** [vm[j][i] = galMultiply(vm[j][i], tmp)] for the rows [lo .. hi - 1] *)
Definition scale_column (lo hi i : nat) (tmp : N) (vm : matrix) : result matrix :=
  for_loop lo hi (fun j vm => v <- get vm j i ;; put vm j i (galMultiply v tmp)) vm.

(** One round of the main loop: make row [i] the [i]-th unit vector. *)
Definition jerasure_round (dataShards totalShards i : nat) (vm : matrix) : result matrix :=
  r <- find_row (S totalShards) vm totalShards i i ;;
  vm <- (if negb (r =? i) then
           t <- idx vm r ;; vi <- idx vm i ;;
           vm <- upd vm r vi ;; upd vm i t
         else Ret vm) ;;
  d <- get vm i i ;;
  vm <- (if negb (d =? 1)%N then
           tmp <- galOneOver d ;; scale_column 0 totalShards i tmp vm
         else Ret vm) ;;
  for_loop 0 dataShards (fun j vm =>
    tmp <- get vm i j ;;
    if negb (j =? i) && negb (tmp =? 0)%N then
      for_loop 0 totalShards (fun r vm =>
        a <- get vm r j ;; b <- get vm r i ;;
        put vm r j (galAdd a (galMultiply tmp b))) vm
    else Ret vm) vm.

Definition buildMatrixJerasure (dataShards totalShards : nat) : result matrix :=
  vm <- vandermonde (Z.of_nat totalShards) (Z.of_nat dataShards) ;;
  vm <- put vm 0 0 1%N ;;
  vm <- for_loop 1 dataShards (fun i vm => put vm 0 i 0%N) vm ;;
  vm <- for_loop 0 (dataShards - 1) (fun i vm => put vm (totalShards - 1) i 0%N) vm ;;
  vm <- put vm (totalShards - 1) (dataShards - 1) 1%N ;;
  vm <- for_loop 0 dataShards (jerasure_round dataShards totalShards) vm ;;
  vm <- for_loop 0 dataShards (fun j vm =>
    tmp <- get vm dataShards j ;;
    if negb (tmp =? 1)%N then
      tmp <- galOneOver tmp ;; scale_column dataShards totalShards j tmp vm
    else Ret vm) vm ;;
  for_loop (dataShards + 1) totalShards (fun i vm =>
    tmp <- get vm i 0 ;;
    if negb (tmp =? 1)%N then
      tmp <- galOneOver tmp ;; scale_row dataShards i tmp vm
    else Ret vm) vm.

(** ** PARv1, Cauchy and exclusive or *)

(** [for r, row := range result]: the identity above, [f r c] below. *)
Definition fill_below (dataShards : nat) (f : nat -> nat -> result N) (res : matrix) : result matrix :=
  for_loop 0 (length res) (fun r res =>
    if r <? dataShards then put res r r 1%N
    else
      row <- idx res r ;;
      for_loop 0 (length row) (fun c res => v <- f r c ;; put res r c v) res) res.

Definition buildMatrixPAR1 (dataShards totalShards : nat) : result matrix :=
  res <- newMatrix (Z.of_nat totalShards) (Z.of_nat dataShards) ;;
  fill_below dataShards (fun r c =>
    galExp (N.of_nat (c + 1) mod 256) (Z.of_nat r - Z.of_nat dataShards)) res.

Definition buildMatrixCauchy (dataShards totalShards : nat) : result matrix :=
  res <- newMatrix (Z.of_nat totalShards) (Z.of_nat dataShards) ;;
  fill_below dataShards (fun r c =>
    Ret (at_byte invTable (N.lxor (N.of_nat r) (N.of_nat c) mod 256))) res.

Definition buildXorMatrix (dataShards totalShards : nat) : result matrix :=
  if negb (dataShards + 1 =? totalShards) then Err errInternal
  else
    res <- newMatrix (Z.of_nat totalShards) (Z.of_nat dataShards) ;;
    fill_below dataShards (fun _ _ => Ret 1%N) res.

(** ** What an encoding matrix must satisfy *)

(** The first [d] rows are the identity. *)
Definition systematic (d : nat) (m : matrix) : Prop :=
  forall i j, i < d -> j < d -> entry m i j = if i =? j then 1%N else 0%N.

(** The rows of the given indices. *)
Definition select (m : matrix) (rows : list nat) : matrix := map (fun i => nth i m []) rows.

(** Any [d] of the [t] rows determine the data. *)
Definition any_rows_invertible (d t : nat) (m : matrix) : Prop :=
  forall rows, length rows = d -> NoDup rows -> Forall (fun i => i < t) rows ->
    exists b, Invert (select m rows) = Ret b.

Lemma select_wf d t m rows : wf t d m -> Forall (fun i => i < t) rows ->
  wf (length rows) d (select m rows).
Proof.
  intros Hm Hr. split; [unfold select; lens |]. apply Forall_forall.
  intros row (i & <- & Hi)%in_map_iff. rewrite Forall_forall in Hr. apply (wf_row m Hm). auto.
Qed.

Lemma select_entry m rows i j : i < length rows -> entry (select m rows) i j = entry m (nth i rows 0) j.
Proof. intros Hi. unfold entry, select. now rewrite (nth_map_in (fun i => nth i m []) rows 0). Qed.

Lemma fill_below_spec d t f res (h : nat -> nat -> N) : wf t d res -> d <= t ->
  (forall i j, entry res i j = 0%N) ->
  (forall r c, d <= r < t -> c < d -> f r c = Ret (h r c) /\ (h r c < 256)%N) ->
  exists m, fill_below d f res = Ret m /\ wf t d m /\
    forall i j, i < t -> j < d ->
      entry m i j = if i <? d then (if i =? j then 1%N else 0%N) else h i j.
Proof.
  intros Hres Hdt H0 Hf. unfold fill_below. rewrite (wf_length res Hres), for_n_for_loop.
  destruct (rows_loop (E := rsError) t d res 0 t (fun r res =>
      if r <? d then put res r r 1%N
      else
        row <- idx res r ;;
        for_loop 0 (length row) (fun c res => v <- f r c ;; put res r c v) res)
    (fun i j => if j <? d then (if i <? d then (if i =? j then 1%N else 0%N) else h i j) else 0%N))
    as (m & Hm & Hw & He); [auto | auto | |].
  - intros r m' Hr Hm' Hrest. simpl Nat.add. destruct (Nat.ltb_spec r d).
    + destruct (put_entry (E := rsError) m' Hm' r r 1%N) as (m'' & -> & Hw & He); [lia | lia | lia |].
      exists m''. split; [auto |]. split; [auto |]. intros a b. rewrite He.
      destruct (Nat.eqb_spec a r) as [->|]; [| auto]. rewrite Hrest, H0 by lia. simpl.
      destruct (Nat.ltb_spec r d), (Nat.eqb_spec b r), (Nat.ltb_spec b d), (Nat.eqb_spec r b); auto; lia.
    + rewrite (idx_row m' Hm') by auto. cbn [bind].
      destruct (wf_row m' Hm' r Hr) as [-> _]. rewrite for_n_for_loop.
      destruct (row_loop (E := rsError) t d m' r 0 d 0 (fun c res => v <- f r c ;; put res r c v) (h r))
        as (m'' & -> & Hw & He); [auto | auto | lia | intros; apply Hf; lia | |].
      { intros c m'' Hc _ _. simpl. destruct (Hf r c) as [-> _]; [lia | lia |]. reflexivity. }
      exists m''. split; [auto |]. split; [auto |]. intros a b. rewrite He.
      destruct (Nat.eqb_spec a r) as [->|]; [| auto]. simpl.
      destruct (Nat.ltb_spec r d), (Nat.ltb_spec b d); try lia; [now rewrite Nat.sub_0_r |].
      now rewrite Hrest, H0 by lia.
  - exists m. split; [exact Hm |]. split; [auto |]. intros i j Hi Hj. rewrite He.
    destruct (Nat.ltb_spec i t), (Nat.ltb_spec j d); auto; lia.
Qed.

Section Builders.
Context (d t : nat) (Hd : 0 < d) (Hdt : d <= t) (Ht : t <= 256).

Lemma buildMatrixPAR1_spec : exists m, buildMatrixPAR1 d t = Ret m /\ wf t d m /\ systematic d m /\
  forall i j, d <= i < t -> j < d -> entry m i j = gpow (N.of_nat (j + 1) mod 256) (i - d).
Proof.
  unfold buildMatrixPAR1. destruct (newMatrix_wf t d) as (z & -> & Hz & H0); [lia | lia |]. cbn [bind].
  edestruct (fill_below_spec d t) with (h := fun r c => gpow (N.of_nat (c + 1) mod 256) (r - d))
    as (m & Hm & Hw & He); [apply Hz | auto | auto | |].
  2: { exists m. split; [exact Hm |]. split; [auto |]. split.
       - intros i j Hi Hj. rewrite He by lia. now apply Nat.ltb_lt in Hi as ->.
       - intros i j Hi Hj. rewrite He by lia. destruct (Nat.ltb_spec i d); [lia | auto]. }
  intros r c Hr Hc.
  assert (Hb : (N.of_nat (c + 1) mod 256 < 256)%N) by (apply N.mod_lt; lia).
  split; [| now apply gpow_byte].
  replace (Z.of_nat r - Z.of_nat d)%Z with (Z.of_nat (r - d)) by lia. now apply galExp_gpow.
Qed.

Lemma buildMatrixCauchy_spec : exists m, buildMatrixCauchy d t = Ret m /\ wf t d m /\ systematic d m /\
  forall i j, d <= i < t -> j < d -> entry m i j = at_byte invTable (N.lxor (N.of_nat i) (N.of_nat j)).
Proof.
  unfold buildMatrixCauchy. destruct (newMatrix_wf t d) as (z & -> & Hz & H0); [lia | lia |]. cbn [bind].
  assert (Hb : forall r c, r < t -> c < d -> (N.lxor (N.of_nat r) (N.of_nat c) < 256)%N)
    by (intros; apply byte_lxor; lia).
  edestruct (fill_below_spec d t)
    with (h := fun r c => at_byte invTable (N.lxor (N.of_nat r) (N.of_nat c)))
    as (m & Hm & Hw & He); [apply Hz | auto | auto | |].
  2: { exists m. split; [exact Hm |]. split; [auto |]. split.
       - intros i j Hi Hj. rewrite He by lia. now apply Nat.ltb_lt in Hi as ->.
       - intros i j Hi Hj. rewrite He by lia. destruct (Nat.ltb_spec i d); [lia | auto]. }
  intros r c Hr Hc. cbn beta. rewrite N.mod_small by (apply Hb; lia). split; [reflexivity |].
  apply invTable_byte, Hb; lia.
Qed.

Lemma buildXorMatrix_spec : t = d + 1 -> exists m, buildXorMatrix d t = Ret m /\ wf t d m /\
  systematic d m /\ forall j, j < d -> entry m d j = 1%N.
Proof.
  intros E. unfold buildXorMatrix. rewrite E, Nat.eqb_refl. cbn [negb].
  destruct (newMatrix_wf (d + 1) d) as (z & -> & Hz & H0); [lia | lia |]. cbn [bind].
  edestruct (fill_below_spec d (d + 1)) with (h := fun _ _ : nat => 1%N)
    as (m & Hm & Hw & He); [apply Hz | lia | auto | intros; split; [reflexivity | lia] |].
  exists m. split; [exact Hm |]. split; [auto |]. split.
  - intros i j Hi Hj. rewrite He by lia. now apply Nat.ltb_lt in Hi as ->.
  - intros j Hj. rewrite He by lia. now rewrite Nat.ltb_irrefl.
Qed.
End Builders.
