(* ===== verification/InversionTree.v ===== *)
(** * The cache of inverted matrices (src/reedsolomon/inversion_tree.go)

    A tree keyed by the increasing list of the indices of the invalid rows.  A
    nil pointer to a child is [None], a nil matrix is the empty list.  No node is
    shared, so the writes through pointers are functional updates. *)
From Stdlib Require Import List Arith NArith ZArith Lia Bool.
From S2P Require Import Prelude Galois RSTypes Matrix.
Import ListNotations.

Inductive inversionNode : Type :=
| Node (m : matrix) (children : list (option inversionNode)).

Definition node_matrix (n : inversionNode) : matrix := let 'Node m _ := n in m.
Definition node_children (n : inversionNode) : list (option inversionNode) := let 'Node _ c := n in c.

(** [*inversionTree]: nil when the cache is disabled *)
Definition inversionTree := option inversionNode.

Definition newInversionTree (dataShards parityShards : nat) : result inversionNode :=
  identity <- drop_error (identityMatrix (Z.of_nat dataShards)) ;;
  Ret (Node identity (repeat None (dataShards + parityShards))).

(** [n.children[firstIndex-parent]] *)
Definition child (n : inversionNode) (firstIndex parent : nat) : result (option inversionNode) :=
  if firstIndex <? parent then Panic else idx (node_children n) (firstIndex - parent).

Fixpoint getInvertedMatrix (n : inversionNode) (invalidIndices : list nat) (parent : nat) : result matrix :=
  match invalidIndices with
  | [] => Panic
  | firstIndex :: rest =>
      node <- child n firstIndex parent ;;
      match node with
      | None => Ret []
      | Some node =>
          match rest with
          | [] => Ret (node_matrix node)
          | _ => getInvertedMatrix node rest (firstIndex + 1)
          end
      end
  end.

Fixpoint insertInvertedMatrix (n : inversionNode) (invalidIndices : list nat) (m : matrix)
    (shards parent : nat) : result inversionNode :=
  match invalidIndices with
  | [] => Panic
  | firstIndex :: rest =>
      node <- child n firstIndex parent ;;
      node <- (match node with
               | Some node => Ret node
               | None => if shards <? firstIndex then Panic
                         else Ret (Node [] (repeat None (shards - firstIndex)))
               end) ;;
      node <- (match rest with
               | [] => Ret (Node m (node_children node))
               | _ => insertInvertedMatrix node rest m shards (firstIndex + 1)
               end) ;;
      children <- upd (node_children n) (firstIndex - parent) (Some node) ;;
      Ret (Node (node_matrix n) children)
  end.

Definition GetInvertedMatrix (t : inversionTree) (invalidIndices : list nat) : result matrix :=
  match t with
  | None => Ret []
  | Some root =>
      match invalidIndices with
      | [] => Ret (node_matrix root)
      | _ => getInvertedMatrix root invalidIndices 0
      end
  end.

Definition InsertInvertedMatrix (t : inversionTree) (invalidIndices : list nat) (m : matrix)
    (shards : nat) : result inversionTree :=
  match t with
  | None => Ret None
  | Some root =>
      match invalidIndices with
      | [] => Err errAlreadySet
      | _ =>
          square <- IsSquare m ;;
          if negb square then Err errNotSquare
          else root <- insertInvertedMatrix root invalidIndices m shards 0 ;; Ret (Some root)
      end
  end.

(** ** Well-formed trees *)

(** A node whose keys start at [parent] has a child for every index below
    [shards]. *)
Inductive node_ok (shards : nat) : nat -> inversionNode -> Prop :=
| node_ok_intro parent m children :
    shards - parent <= length children ->
    (forall i c, nth_error children i = Some (Some c) -> node_ok shards (S (parent + i)) c) ->
    node_ok shards parent (Node m children).

(** The keys: increasing indices from [parent], below [shards]. *)
Fixpoint key_ok (shards parent : nat) (key : list nat) : Prop :=
  match key with
  | [] => True
  | i :: key => parent <= i < shards /\ key_ok shards (S i) key
  end.

(** The abstract content: the matrix a key is bound to, [] for none. *)
Fixpoint node_lookup (n : inversionNode) (parent : nat) (key : list nat) : matrix :=
  match key with
  | [] => node_matrix n
  | i :: key =>
      match nth (i - parent) (node_children n) None with
      | None => []
      | Some c => node_lookup c (S i) key
      end
  end.

Lemma nth_error_None_nth {A} (l : list (option A)) i c :
  nth i l None = Some c -> nth_error l i = Some (Some c).
Proof.
  intros H. destruct (Nat.lt_ge_cases i (length l)) as [Hi|Hi].
  - now rewrite (nth_error_nth' l None Hi), H.
  - now rewrite nth_overflow in H.
Qed.

Lemma node_ok_child shards parent n i c : node_ok shards parent n -> parent <= i ->
  nth (i - parent) (node_children n) None = Some c -> node_ok shards (S i) c.
Proof.
  intros [p m ch Hl Hc] Hi Hn. replace i with (p + (i - p)) by lia.
  apply Hc. now apply nth_error_None_nth.
Qed.

Lemma child_ret shards parent n i : node_ok shards parent n -> parent <= i < shards ->
  child n i parent = Ret (nth (i - parent) (node_children n) None).
Proof.
  intros [p m ch Hl Hc] Hi. unfold child. destruct (Nat.ltb_spec i p); [lia |].
  apply idx_nth. simpl. lia.
Qed.

Lemma node_ok_new shards parent m q : shards - parent <= q ->
  node_ok shards parent (Node m (repeat None q)).
Proof.
  intros H. constructor; [lens |]. intros i c Hi. apply nth_error_In, repeat_spec in Hi. discriminate.
Qed.

Lemma node_ok_set shards parent n i c : node_ok shards parent n -> parent <= i ->
  node_ok shards (S i) c ->
  node_ok shards parent (Node (node_matrix n) (set_nth (node_children n) (i - parent) (Some c))).
Proof.
  intros [p m ch Hl Hc] Hi Hok. constructor; [rewrite length_set_nth; auto |].
  intros j c' Hj. cbn [node_children] in Hj.
  assert (Hlt : j < length ch).
  { rewrite <- (length_set_nth ch (i - p) (Some c)). apply nth_error_Some. congruence. }
  assert (Hn := nth_error_nth _ _ None Hj). rewrite nth_set_nth in Hn.
  destruct (Nat.eqb_spec j (i - p)) as [->|].
  - destruct (Nat.ltb_spec (i - p) (length ch)); [| lia]. injection Hn as <-.
    now replace (S (p + (i - p))) with (S i) by lia.
  - apply Hc. now apply nth_error_None_nth.
Qed.

(** Reading is the abstract lookup. *)
Lemma get_lookup key : forall shards n parent, node_ok shards parent n -> key_ok shards parent key ->
  key <> [] -> getInvertedMatrix n key parent = Ret (node_lookup n parent key).
Proof.
  induction key as [|i key IH]; intros shards n parent Hn Hk Hne; [congruence |].
  destruct Hk as [Hi Hk]. cbn [getInvertedMatrix]. rewrite (child_ret shards parent n i Hn Hi).
  cbn [bind node_lookup]. destruct (nth _ _ None) as [c|] eqn:Hc; [| auto].
  destruct key as [|j key]; [auto |]. rewrite Nat.add_1_r. apply (IH shards); auto; [| discriminate].
  eapply node_ok_child; eauto. lia.
Qed.

(** Writing binds the key and keeps every other binding. *)
Lemma insert_lookup key : forall shards n parent m, node_ok shards parent n ->
  key_ok shards parent key -> key <> [] ->
  exists n', insertInvertedMatrix n key m shards parent = Ret n' /\ node_ok shards parent n' /\
    forall key', key_ok shards parent key' ->
      node_lookup n' parent key' =
        if list_eq_dec Nat.eq_dec key' key then m else node_lookup n parent key'.
Proof.
  induction key as [|i key IH]; intros shards n parent m Hn Hk Hne; [congruence |].
  destruct Hk as [Hi Hk]. cbn [insertInvertedMatrix]. rewrite (child_ret shards parent n i Hn Hi).
  cbn [bind]. destruct (Nat.ltb_spec shards i) as [|_]; [lia |].
  set (old := nth (i - parent) (node_children n) None).
  set (c0 := match old with Some c => c | None => Node [] (repeat None (shards - i)) end).
  assert (Hc0 : node_ok shards (S i) c0).
  { unfold c0. destruct old as [c|] eqn:Ho; [| apply node_ok_new; lia].
    eapply node_ok_child; eauto. lia. }
  assert (Hl0 : forall key', node_lookup c0 (S i) key' = match old with Some c => node_lookup c (S i) key' | None => [] end).
  { intros key'. unfold c0. destruct old; [auto |]. destruct key' as [|j key']; [auto |].
    cbn [node_lookup node_children].
    destruct (Nat.lt_ge_cases (j - S i) (shards - i)).
    - now rewrite nth_repeat_in.
    - rewrite nth_overflow; [auto | lens]. }
  assert (Hc1 : exists c1, (match key with
               | [] => Ret (Node m (node_children c0))
               | _ => insertInvertedMatrix c0 key m shards (i + 1)
               end) = Ret c1 /\ node_ok shards (S i) c1 /\ forall key', key_ok shards (S i) key' ->
      node_lookup c1 (S i) key' = if list_eq_dec Nat.eq_dec key' key then m else node_lookup c0 (S i) key').
  { destruct key as [|j key].
    - eexists; split; [reflexivity |]. split.
      + inversion Hc0; subst. now constructor.
      + intros [|x key'] _; [reflexivity |]. destruct c0; reflexivity.
    - rewrite Nat.add_1_r. apply IH; auto. discriminate. }
  destruct Hc1 as (c1 & Hc1 & Hok1 & Hl1).
  replace (match old with
           | Some node => Ret node
           | None => Ret (Node [] (repeat None (shards - i)))
           end) with (@Ret rsError _ c0) by (unfold c0; now destruct old).
  cbn [bind]. rewrite Hc1. cbn [bind].
  assert (Hlen : i - parent < length (node_children n)) by (inversion Hn; subst; simpl in *; lia).
  rewrite upd_ret by auto. cbn [bind]. eexists; split; [reflexivity |]. split.
  - apply node_ok_set; auto. lia.
  - intros [|x key'] Hk'; [now destruct n |]. destruct Hk' as [Hx Hk'].
    cbn [node_lookup node_children]. rewrite nth_set_nth.
    destruct (Nat.ltb_spec (i - parent) (length (node_children n))); [| lia].
    destruct (Nat.eqb_spec (x - parent) (i - parent)) as [E|E]; cbn [andb].
    + assert (x = i) as -> by lia. rewrite Hl1 by auto. rewrite Hl0. fold old.
      destruct (list_eq_dec Nat.eq_dec key' key), (list_eq_dec Nat.eq_dec (i :: key') (i :: key)); congruence.
    + destruct (list_eq_dec Nat.eq_dec (x :: key') (i :: key)) as [[= -> _]|_]; [congruence | auto].
Qed.

(** ** The tree as a finite map *)

(** The content of a tree: the root holds the identity. *)
Definition lookup (t : inversionTree) (key : list nat) : matrix :=
  match t with None => [] | Some root => node_lookup root 0 key end.

Definition tree_ok (shards : nat) (t : inversionTree) : Prop :=
  match t with None => True | Some root => node_ok shards 0 root end.

Lemma GetInvertedMatrix_lookup shards t key : tree_ok shards t -> key_ok shards 0 key ->
  GetInvertedMatrix t key = Ret (lookup t key).
Proof.
  destruct t as [root|]; [| auto]. intros Ht Hk. destruct key as [|i key]; [auto |].
  apply (get_lookup (i :: key) shards); auto. discriminate.
Qed.

Lemma InsertInvertedMatrix_lookup shards root key m k : 0 < k -> wf k k m ->
  tree_ok shards (Some root) -> key_ok shards 0 key -> key <> [] ->
  exists t', InsertInvertedMatrix (Some root) key m shards = Ret t' /\ tree_ok shards t' /\
    forall key', key_ok shards 0 key' ->
      lookup t' key' = if list_eq_dec Nat.eq_dec key' key then m else lookup (Some root) key'.
Proof.
  intros Hk Hm Ht Hkey Hne.
  destruct (insert_lookup key shards root 0 m Ht Hkey Hne) as (n' & Hn' & Hok & Hl).
  exists (Some n'). destruct key as [|i key]; [congruence |]. cbn [InsertInvertedMatrix].
  unfold IsSquare. rewrite (idx_row m Hm) by auto. cbn [bind].
  destruct (wf_row m Hm 0 Hk) as [-> _]. rewrite (wf_length m Hm), Nat.eqb_refl. cbn [negb].
  rewrite Hn'. auto.
Qed.

Lemma newInversionTree_spec d p : 0 < d -> exists root identity,
  newInversionTree d p = Ret root /\ identityMatrix (Z.of_nat d) = Ret identity /\
  tree_ok (d + p) (Some root) /\
  forall key, lookup (Some root) key = match key with [] => identity | _ => [] end.
Proof.
  intros Hd. destruct (identityMatrix_spec d Hd) as (m & Hm & _).
  exists (Node m (repeat None (d + p))), m. unfold newInversionTree. rewrite Hm.
  split; [reflexivity |]. split; [reflexivity |]. split; [apply node_ok_new; lia |].
  intros [|i key]; [reflexivity |]. cbn [lookup node_lookup node_children].
  destruct (Nat.lt_ge_cases (i - 0) (d + p)).
  - now rewrite nth_repeat_in.
  - rewrite nth_overflow; [auto | lens].
Qed.
