(* ===== verification/Options.v ===== *)
(** * Processing parameters (src/reedsolomon/options.go)

    The record of options, one update for every [With*] function, and the
    defaults, which depend on the machine. *)
From Stdlib Require Import String List ZArith Bool Lia.
From coqutil Require Import Datatypes.RecordSetters.
From S2P Require Import Prelude Galois RSTypes Matrix.
Import ListNotations.
Export RecordSetters.OCamlLikeNotations.
Local Open Scope Z_scope.

(** What the code asks of the machine it runs on: package [cpuid] and
    [runtime.GOMAXPROCS(0)]. *)
Record machine : Type := {
  supports_SSSE3 : bool; supports_SSE2 : bool; supports_AVX2 : bool; supports_AVX512 : bool;
  supports_AVX512_GFNI : bool; supports_AVX_GFNI : bool; supports_ASIMD : bool; supports_SVE : bool;
  cache_L1D : Z; cache_L2 : Z; ThreadsPerCore : Z; PhysicalCores : Z;
  GOMAXPROCS : Z
}.

Inductive leopardMode : Type := leopardAsNeeded | leopardGF16 | leopardAlways.

Record options : Type := {
  maxGoroutines : Z;
  minSplitSize : Z;
  shardSize : Z;
  perRound : Z;
  useAvxGNFI : bool; useAvx512GFNI : bool; useAVX512 : bool; useAVX2 : bool;
  useSSSE3 : bool; useSSE2 : bool; useNEON : bool; useSVE : bool;
  vectorLength : Z;
  useJerasureMatrix : bool;
  usePAR1Matrix : bool;
  useCauchy : bool;
  fastOneParity : bool;
  inversionCache : bool;
  forcedInversionCache : bool;
  customMatrix : option matrix;
  withLeopard : leopardMode;
  concReads : bool;
  concWrites : bool;
  streamBS : Z
}.

(** The initial value and the two [init] functions that adjust it. *)
Definition defaultOptions (cpu : machine) : options := {|
  maxGoroutines := if GOMAXPROCS cpu <=? 1 then 1 else 384;
  minSplitSize := -1; shardSize := 0; perRound := 0;
  useAvxGNFI := supports_AVX_GFNI cpu; useAvx512GFNI := supports_AVX512_GFNI cpu;
  useAVX512 := false; useAVX2 := supports_AVX2 cpu; useSSSE3 := supports_SSSE3 cpu;
  useSSE2 := supports_SSE2 cpu; useNEON := supports_ASIMD cpu; useSVE := supports_SVE cpu;
  vectorLength := 32;
  useJerasureMatrix := false; usePAR1Matrix := false; useCauchy := false;
  fastOneParity := false; inversionCache := true; forcedInversionCache := false;
  customMatrix := None; withLeopard := leopardAsNeeded;
  concReads := false; concWrites := false; streamBS := 0
|}.

Definition Option := options -> options.

Definition WithMaxGoroutines (n : Z) : Option :=
  fun o => if n >? 0 then { o with maxGoroutines := n } else o.
Definition WithAutoGoroutines (n : Z) : Option := fun o => { o with shardSize := n }.
Definition WithMinSplitSize (n : Z) : Option :=
  fun o => if n >? 0 then { o with minSplitSize := n } else o.
Definition WithConcurrentStreams (enabled : bool) : Option :=
  fun o => { o with concReads := enabled; concWrites := enabled }.
Definition WithConcurrentStreamReads (enabled : bool) : Option := fun o => { o with concReads := enabled }.
Definition WithConcurrentStreamWrites (enabled : bool) : Option := fun o => { o with concWrites := enabled }.
Definition WithInversionCache (enabled : bool) : Option :=
  fun o => { o with inversionCache := enabled; forcedInversionCache := true }.
Definition WithStreamBlockSize (n : Z) : Option := fun o => { o with streamBS := n }.
Definition WithSSSE3 (enabled : bool) : Option := fun o => { o with useSSSE3 := enabled }.
Definition WithAVX2 (enabled : bool) : Option :=
  fun o =>
    let o := { o with useAVX2 := enabled } in
    if useAvxGNFI o then { o with useAvxGNFI := enabled } else o.
Definition WithSSE2 (enabled : bool) : Option := fun o => { o with useSSE2 := enabled }.
Definition WithAVX512 (enabled : bool) : Option :=
  fun o => { o with useAVX512 := enabled; useAvx512GFNI := enabled }.
Definition WithGFNI (enabled : bool) : Option := fun o => { o with useAvx512GFNI := enabled }.
Definition WithAVXGFNI (enabled : bool) : Option := fun o => { o with useAvxGNFI := enabled }.
Definition WithJerasureMatrix : Option :=
  fun o => { o with useJerasureMatrix := true; usePAR1Matrix := false; useCauchy := false }.
Definition WithPAR1Matrix : Option :=
  fun o => { o with useJerasureMatrix := false; usePAR1Matrix := true; useCauchy := false }.
Definition WithCauchyMatrix : Option :=
  fun o => { o with useJerasureMatrix := false; usePAR1Matrix := false; useCauchy := true }.
Definition WithFastOneParityMatrix : Option := fun o => { o with fastOneParity := true }.
Definition WithCustomMatrix (m : option matrix) : Option := fun o => { o with customMatrix := m }.
Definition WithLeopardGF16 (enabled : bool) : Option :=
  fun o => { o with withLeopard := if enabled then leopardGF16 else leopardAsNeeded }.
Definition WithLeopardGF (enabled : bool) : Option :=
  fun o => { o with withLeopard := if enabled then leopardAlways else leopardAsNeeded }.

Definition cpuOptions (o : options) : string :=
  let res :=
    (if useSSE2 o then ["SSE2"%string] else []) ++ (if useAVX2 o then ["AVX2"%string] else []) ++
    (if useSSSE3 o then ["SSSE3"%string] else []) ++ (if useAVX512 o then ["AVX512"%string] else []) ++
    (if useAvx512GFNI o then ["AVX512+GFNI"%string] else []) ++
    (if useAvxGNFI o then ["AVX+GFNI"%string] else []) ++
    (if useSVE o then ["ARM+SVE"%string] else if useNEON o then ["ARM+NEON"%string] else []) in
  match res with [] => "pure Go"%string | _ => String.concat ","%string res end.

(** [o := defaultOptions; for _, opt := range opts { opt(&o) }] *)
Definition apply_options (cpu : machine) (opts : list Option) : options :=
  fold_left (fun o opt => opt o) opts (defaultOptions cpu).

(** What the exported [With..] functions produce. *)
Inductive is_option : Option -> Prop :=
| opt_MaxGoroutines n : is_option (WithMaxGoroutines n)
| opt_AutoGoroutines n : is_option (WithAutoGoroutines n)
| opt_MinSplitSize n : is_option (WithMinSplitSize n)
| opt_ConcurrentStreams b : is_option (WithConcurrentStreams b)
| opt_ConcurrentStreamReads b : is_option (WithConcurrentStreamReads b)
| opt_ConcurrentStreamWrites b : is_option (WithConcurrentStreamWrites b)
| opt_InversionCache b : is_option (WithInversionCache b)
| opt_StreamBlockSize n : is_option (WithStreamBlockSize n)
| opt_SSSE3 b : is_option (WithSSSE3 b)
| opt_AVX2 b : is_option (WithAVX2 b)
| opt_SSE2 b : is_option (WithSSE2 b)
| opt_AVX512 b : is_option (WithAVX512 b)
| opt_GFNI b : is_option (WithGFNI b)
| opt_AVXGFNI b : is_option (WithAVXGFNI b)
| opt_Jerasure : is_option WithJerasureMatrix
| opt_PAR1 : is_option WithPAR1Matrix
| opt_Cauchy : is_option WithCauchyMatrix
| opt_FastOneParity : is_option WithFastOneParityMatrix
| opt_Custom m : is_option (WithCustomMatrix m)
| opt_LeopardGF16 b : is_option (WithLeopardGF16 b)
| opt_LeopardGF b : is_option (WithLeopardGF b).

(** A field that no option of a list changes keeps a property of its default. *)
Lemma apply_options_inv cpu opts (P : options -> Prop) :
  P (defaultOptions cpu) -> (forall opt o, In opt opts -> P o -> P (opt o)) ->
  P (apply_options cpu opts).
Proof.
  unfold apply_options. generalize (defaultOptions cpu).
  induction opts as [|opt opts IH]; intros o H0 H; simpl; [auto |].
  apply IH; [apply H; [now left | auto] |]. intros opt' o' Hin. apply H. now right.
Qed.

(** The number of goroutines an option leaves is positive. *)
Lemma option_maxGoroutines opt o : is_option opt -> 1 <= maxGoroutines o -> 1 <= maxGoroutines (opt o).
Proof.
  intros Hopt Ho. destruct Hopt; try exact Ho.
  - unfold WithMaxGoroutines. destruct (Z.gtb_spec n 0); [cbn; unfold constant; lia | exact Ho].
  - unfold WithMinSplitSize. if_case; exact Ho.
  - unfold WithAVX2. if_case; exact Ho.
Qed.

Lemma option_matrix_kind opt o : is_option opt ->
  Nat.leb (length (filter (fun b => b) [useJerasureMatrix o; usePAR1Matrix o; useCauchy o])) 1 = true ->
  Nat.leb (length (filter (fun b => b)
    [useJerasureMatrix (opt o); usePAR1Matrix (opt o); useCauchy (opt o)])) 1 = true.
Proof.
  intros Hopt Ho. destruct Hopt; try exact Ho; try reflexivity.
  - unfold WithMaxGoroutines. destruct (n >? 0); exact Ho.
  - unfold WithMinSplitSize. if_case; exact Ho.
  - unfold WithAVX2. if_case; exact Ho.
Qed.
