(* ===== verification/LeopardTypes.v ===== *)
(** * The Leopard encoders: state and construction (src/reedsolomon/leopard.go, leopard8.go)

    [New] returns one of these two for more than 256 shards or on request. *)
From Stdlib Require Import List Arith NArith ZArith Lia Bool.
From S2P Require Import Prelude Galois RSTypes Matrix Options.
Import ListNotations.
Local Open Scope Z_scope.

(** Seven levels of four words of 64 bits: a bit of the first level stands for one
    shard. *)
Definition errorBitfield8 : Type := list (list N).

Record leopardGF8cache : Type := { errorLocs : list N; cache_bits : option errorBitfield8 }.

(** [ff8_inversion] is the map from the identifiers of [cacheID], the newest entry
    first; [None] is the nil map. *)
Record leopardFF8 : Type := {
  ff8_dataShards : nat;
  ff8_parityShards : nat;
  ff8_totalShards : nat;
  ff8_inversion : option (list (list N * leopardGF8cache));
  ff8_o : options
}.

Record leopardFF16 : Type := {
  ff16_dataShards : nat;
  ff16_parityShards : nat;
  ff16_totalShards : nat;
  ff16_o : options
}.

Definition newFF8 (dataShards parityShards : Z) (opt : options) : result leopardFF8 :=
  if (dataShards <=? 0) || (parityShards <=? 0) then Err ErrInvShardNum
  else if dataShards + parityShards >? 65536 then Err ErrMaxShardNum
  else
    let totalShards := dataShards + parityShards in
    Ret {| ff8_dataShards := Z.to_nat dataShards; ff8_parityShards := Z.to_nat parityShards; ff8_totalShards := Z.to_nat totalShards;
           ff8_inversion := if inversionCache opt && ((totalShards <=? 64) || forcedInversionCache opt) then Some [] else None;
           ff8_o := opt |}.

Definition newFF16 (dataShards parityShards : Z) (opt : options) : result leopardFF16 :=
  if (dataShards <=? 0) || (parityShards <=? 0) then Err ErrInvShardNum
  else if dataShards + parityShards >? 65536 then Err ErrMaxShardNum
  else
    Ret {| ff16_dataShards := Z.to_nat dataShards; ff16_parityShards := Z.to_nat parityShards;
           ff16_totalShards := Z.to_nat (dataShards + parityShards); ff16_o := opt |}.
