(* ===== verification/Coding.v ===== *)
(** * The coding loops (src/reedsolomon/reedsolomon.go, [codeSomeShards*])

    A loop is the list of the calls it makes to the two slice kernels; a
    goroutine is such a list, and several goroutines interleave their calls in
    any order.  Outputs do not alias each other nor the inputs. *)
From Stdlib Require Import List Arith NArith ZArith Lia Bool.
From S2P Require Import Prelude Galois RSTypes Matrix.
Import ListNotations.

(** One call [galMulSlice(matrixRows[c_row][c_col], inputs[c_col][c_lo:c_hi],
    outputs[c_row][c_lo:c_hi])], or [galMulSliceXor] when [c_col] is not 0. *)
Record call : Type := Call { c_col : nat; c_row : nat; c_lo : nat; c_hi : nat }.

Definition exec_call (matrixRows : list (list N)) (inputs : list slice) (k : call)
    (outputs : list slice) : result (list slice) :=
  input <- idx inputs (c_col k) ;;
  inn <- slice_range input (c_lo k) (c_hi k) ;;
  row <- idx matrixRows (c_row k) ;;
  coef <- idx row (c_col k) ;;
  output <- idx outputs (c_row k) ;;
  out <- slice_range output (c_lo k) (c_hi k) ;;
  res <- (if c_col k =? 0 then galMulSlice coef inn out else galMulSliceXor coef inn out) ;;
  upd outputs (c_row k) (write_range output (c_lo k) res).

Fixpoint run_calls (matrixRows : list (list N)) (inputs : list slice) (calls : list call)
    (outputs : list slice) : result (list slice) :=
  match calls with
  | [] => Ret outputs
  | k :: calls =>
      outputs <- exec_call matrixRows inputs k outputs ;;
      run_calls matrixRows inputs calls outputs
  end.

(** [for lstart < stop { ...; lstart = lstop; lstop += perRound; if lstop > stop {..} }] *)
Fixpoint blocks (fuel perRound stop lstart lstop : nat) : result (list (nat * nat)) :=
  match fuel with
  | O => Timeout
  | S fuel =>
      if lstart <? stop then
        rest <- blocks fuel perRound stop lstop (Nat.min (lstop + perRound) stop) ;;
        Ret ((lstart, lstop) :: rest)
      else Ret []
  end.

Definition block_calls (inputs outputs : nat) (b : nat * nat) : list call :=
  flat_map (fun c => map (fun iRow => Call c iRow (fst b) (snd b)) (seq 0 outputs)) (seq 0 inputs).

(** The calls of one goroutine on the bytes [start, stop). *)
Definition exec (perRound inputs outputs start stop : nat) : result (list call) :=
  bs <- blocks (S stop) perRound stop start (Nat.min (start + perRound) stop) ;;
  Ret (flat_map (block_calls inputs outputs) bs).

(** The goroutines started on [byteCount] bytes: [for start < byteCount {..}] *)
Fixpoint jobs (fuel perRound inputs outputs byteCount step start : nat) : result (list (list call)) :=
  match fuel with
  | O => Timeout
  | S fuel =>
      if start <? byteCount then
        let step := if byteCount <? start + step then byteCount - start else step in
        j <- exec perRound inputs outputs start (start + step) ;;
        rest <- jobs fuel perRound inputs outputs byteCount step (start + step) ;;
        Ret (j :: rest)
      else Ret []
  end.

(** Sizes divisible by 64: [(do + 63) & (^63)] *)
Definition round64 (n : nat) : nat := Z.to_nat (Z.land (Z.of_nat n + 63) (Z.lnot 63)).

(** The goroutines of [codeSomeShardsP]; with one goroutine the caller itself
    runs the whole range. *)
Definition parallel_jobs (maxGoroutines minSplitSize perRound : Z) (inputs outputs byteCount : nat) :
    result (list (list call)) :=
  let gor := maxGoroutines in
  if (gor =? 0)%Z then Panic
  else
    let do_ := Z.quot (Z.of_nat byteCount) gor in
    let do_ := if (do_ <? minSplitSize)%Z then minSplitSize else do_ in
    if (gor <=? 1)%Z then
      j <- exec (Z.to_nat perRound) inputs outputs 0 byteCount ;; Ret [j]
    else
      jobs (S byteCount) (Z.to_nat perRound) inputs outputs byteCount (round64 (Z.to_nat do_)) 0.

Definition codeSomeShardsP (maxGoroutines minSplitSize perRound : Z) (matrixRows : list (list N))
    (inputs outputs : list slice) (byteCount : nat) : result (list slice) :=
  js <- parallel_jobs maxGoroutines minSplitSize perRound (length inputs) (length outputs) byteCount ;;
  run_calls matrixRows inputs (concat js) outputs.

Definition codeSomeShards (maxGoroutines minSplitSize perRound : Z) (matrixRows : list (list N))
    (inputs outputs : list slice) (byteCount : nat) : result (list slice) :=
  if length outputs =? 0 then Ret outputs
  else if (minSplitSize <? Z.of_nat byteCount)%Z then
    codeSomeShardsP maxGoroutines minSplitSize perRound matrixRows inputs outputs byteCount
  else
    input0 <- idx inputs 0 ;;
    calls <- exec (Z.to_nat perRound) (length inputs) (length outputs) 0 (len input0) ;;
    run_calls matrixRows inputs calls outputs.

(** [wg.Wait()] returns after every goroutine has made its calls; each order
    that respects the order of every goroutine is possible. *)
Inductive interleave : list (list call) -> list call -> Prop :=
| interleave_done js : Forall (fun j => j = []) js -> interleave js []
| interleave_step js i k j l : nth_error js i = Some (k :: j) ->
    interleave (set_nth js i j) l -> interleave js (k :: l).

(** ** One byte at a time *)

(** What a call does to byte [k] of output [i], which holds [v]. *)
Definition call_byte (matrixRows : list (list N)) (inputs : list slice) (c : call) (i k : nat) (v : N) : N :=
  if (c_row c =? i) && ((c_lo c <=? k) && (k <? c_hi c)) then
    let p := galMultiply (entry matrixRows i (c_col c)) (bytes_at inputs (c_col c) k) in
    if c_col c =? 0 then p else N.lxor v p
  else v.

Definition calls_byte (matrixRows : list (list N)) (inputs : list slice) (cs : list call) (i k : nat) (v : N) : N :=
  fold_left (fun v c => call_byte matrixRows inputs c i k v) cs v.

Lemma calls_byte_cons M inputs c cs i k v :
  calls_byte M inputs (c :: cs) i k v = calls_byte M inputs cs i k (call_byte M inputs c i k v).
Proof. reflexivity. Qed.

Definition call_ok (n inputs outputs : nat) (c : call) : Prop :=
  c_col c < inputs /\ c_row c < outputs /\ c_lo c <= c_hi c <= n.

Section Calls.
Context (n : nat) (M : matrix) (inputs : list slice) (nout : nat).
Context (HM : wf nout (length inputs) M) (Hin : Forall (shard_ok n) inputs).

(** Outputs of [n] bytes; the spare bytes never change. *)
Definition same_shape (outs outs' : list slice) : Prop :=
  length outs' = length outs /\ Forall (shard_ok n) outs' /\
  forall i, i < length outs -> spare_of (nth i outs' Nil) = spare_of (nth i outs Nil).

Lemma same_shape_trans o1 o2 o3 : same_shape o1 o2 -> same_shape o2 o3 -> same_shape o1 o3.
Proof.
  intros (H1 & _ & S1) (H2 & F2 & S2). split; [congruence |]. split; [auto |].
  intros i Hi. rewrite S2 by lia. auto.
Qed.

Lemma exec_call_spec c outs : length outs = nout -> Forall (shard_ok n) outs ->
  call_ok n (length inputs) nout c ->
  exists outs', exec_call M inputs c outs = Ret outs' /\ same_shape outs outs' /\
    forall i k, i < nout -> k < n -> bytes_at outs' i k = call_byte M inputs c i k (bytes_at outs i k).
Proof.
  intros Hl Hf (Hc & Hr & Hlo). destruct c as [col row lo hi]. cbn [c_col c_row c_lo c_hi] in *.
  assert (Hi := shard_ok_nth n inputs col Hin Hc).
  assert (Ho : shard_ok n (nth row outs Nil)) by (apply shard_ok_nth; [auto | lia]).
  unfold exec_call. cbn [c_col c_row c_lo c_hi].
  rewrite (idx_nth Nil) by auto. cbn [bind]. rewrite (slice_range_data n) by auto. cbn [bind].
  rewrite (idx_row M HM) by auto. cbn [bind].
  destruct (wf_row M HM row Hr) as [Hrl Hrb]. rewrite (idx_nth 0%N) by lia. cbn [bind].
  rewrite (idx_nth Nil) by lia. cbn [bind]. rewrite (slice_range_data n) by auto. cbn [bind].
  change (nth col (nth row M []) 0%N) with (entry M row col).
  set (inn := sub_list (bytes_of (nth col inputs Nil)) lo hi).
  set (out := sub_list (bytes_of (nth row outs Nil)) lo hi).
  assert (Hcf : (entry M row col < 256)%N) by (eapply entry_byte; eauto).
  destruct Hi as (_ & Hil & Hib). destruct Ho as (Hon & Hol & Hob). unfold len in Hil, Hol.
  assert (Hlen : length inn = hi - lo /\ length out = hi - lo)
    by (split; apply length_sub_list; lia). destruct Hlen as [Hli Hlo'].
  assert (Hbi : bytes_ok inn) by now apply bytes_ok_sub.
  assert (Hbo : bytes_ok out) by now apply bytes_ok_sub.
  set (res := if col =? 0 then map (galMultiply (entry M row col)) inn
              else xorBytes (map (galMultiply (entry M row col)) inn) out).
  replace (if col =? 0 then galMulSlice (entry M row col) inn out
           else galMulSliceXor (entry M row col) inn out) with (@Ret rsError _ res).
  2: { unfold res. destruct (col =? 0); symmetry;
       [apply galMulSlice_spec | apply galMulSliceXor_spec]; auto; congruence. }
  cbn [bind].
  assert (Hmapb : bytes_ok (map (galMultiply (entry M row col)) inn)).
  { apply Forall_forall. intros x (b & <- & Hb)%in_map_iff. apply galMultiply_byte; [auto |].
    unfold bytes_ok in Hbi. rewrite Forall_forall in Hbi. now apply Hbi. }
  assert (Hrl' : length res = hi - lo) by (unfold res, xorBytes; destruct (col =? 0); lens).
  assert (Hres : forall k, k < hi - lo -> nth k res 0%N =
      call_byte M inputs (Call col row lo hi) row (lo + k) (bytes_at outs row (lo + k))).
  { intros k Hk. unfold call_byte. cbn [c_col c_row c_lo c_hi]. rewrite Nat.eqb_refl.
    destruct (Nat.leb_spec lo (lo + k)), (Nat.ltb_spec (lo + k) hi); try lia. cbn [andb].
    unfold res. destruct (col =? 0).
    - rewrite (nth_map_in _ _ 0%N) by lia. unfold inn. rewrite nth_sub_list by lia. reflexivity.
    - unfold xorBytes. rewrite (nth_map2 _ _ _ 0%N 0%N) by lens.
      rewrite (nth_map_in _ _ 0%N) by lia. unfold inn, out. rewrite !nth_sub_list by lia. reflexivity. }
  assert (Hresb : bytes_ok res).
  { unfold res. destruct (col =? 0); [auto |]. apply Forall_forall.
    intros x (k & Hk & <-)%(In_nth _ _ 0%N). unfold xorBytes in Hk. rewrite length_map2, length_map in Hk.
    unfold xorBytes. rewrite (nth_map2 _ _ _ 0%N 0%N) by lens.
    apply byte_lxor; auto with go. }
  destruct (write_range_spec n (nth row outs Nil) lo res) as (Hw & Hsp & Hb);
    [now split | lia | auto |].
  rewrite upd_ret by lia. eexists; split; [reflexivity |]. split.
  - split; [now rewrite length_set_nth |]. split.
    + apply Forall_forall. intros s (j & Hj & <-)%(In_nth _ _ Nil). rewrite length_set_nth in Hj.
      rewrite nth_set_nth. destruct ((j =? row) && _); [auto | now apply shard_ok_nth].
    + intros i Hi. rewrite nth_set_nth. destruct (Nat.eqb_spec i row) as [->|]; [| auto].
      cbn [andb]. destruct (row <? length outs); auto.
  - intros i k Hi Hk. unfold bytes_at. rewrite nth_set_nth.
    destruct (Nat.ltb_spec row (length outs)); [| lia]. rewrite andb_true_r.
    destruct (Nat.eqb_spec i row) as [->|Hne].
    + rewrite Hb, Hrl'. replace (lo + (hi - lo)) with hi by lia.
      unfold call_byte at 1. cbn [c_col c_row c_lo c_hi]. rewrite Nat.eqb_refl. cbn [andb].
      destruct (Nat.leb_spec lo k), (Nat.ltb_spec k hi); cbn [andb]; auto.
      rewrite Hres by lia. replace (lo + (k - lo)) with k by lia.
      unfold call_byte. cbn [c_col c_row c_lo c_hi]. rewrite Nat.eqb_refl.
      destruct (Nat.leb_spec lo k), (Nat.ltb_spec k hi); try lia. reflexivity.
    + unfold call_byte. cbn [c_row]. destruct (Nat.eqb_spec row i); [lia | reflexivity].
Qed.

(** A list of calls acts on each byte by itself. *)
Lemma run_calls_spec cs : forall outs, length outs = nout -> Forall (shard_ok n) outs ->
  Forall (call_ok n (length inputs) nout) cs ->
  exists outs', run_calls M inputs cs outs = Ret outs' /\ same_shape outs outs' /\
    forall i k, i < nout -> k < n -> bytes_at outs' i k = calls_byte M inputs cs i k (bytes_at outs i k).
Proof.
  induction cs as [|c cs IH]; intros outs Hl Hf Hok.
  - exists outs. repeat split; auto.
  - inversion_clear Hok as [|? ? Hc Hcs]. cbn [run_calls].
    destruct (exec_call_spec c outs Hl Hf Hc) as (o1 & -> & Hs1 & Hb1). cbn [bind].
    assert (Hs1' := Hs1). destruct Hs1' as (Hl1 & Hf1 & _).
    destruct (IH o1) as (o2 & -> & Hs2 & Hb2); [congruence | auto | auto |].
    exists o2. split; [reflexivity |]. split; [eapply same_shape_trans; eauto |].
    intros i k Hi Hk. rewrite Hb2, Hb1 by auto. reflexivity.
Qed.
End Calls.

(** ** The reference: the matrix applied to every column of bytes *)

(** Byte [k] of output [i]: row [i] of the matrix times column [k] of the
    inputs. *)
Definition coded (M : matrix) (inputs : list slice) (i k : nat) : N :=
  dot (length inputs) M i (fun c => bytes_at inputs c k).

Section Bytes.
Context (M : matrix) (inputs : list slice) (nout : nat).
Local Abbreviation calls_byte := (calls_byte M inputs).

Lemma calls_byte_app cs1 cs2 i k v : calls_byte (cs1 ++ cs2) i k v = calls_byte cs2 i k (calls_byte cs1 i k v).
Proof. apply fold_left_app. Qed.

Definition covers (c : call) (k : nat) : bool := (c_lo c <=? k) && (k <? c_hi c).

Lemma calls_byte_uncovered cs i k v : (forall c, In c cs -> covers c k = false) -> calls_byte cs i k v = v.
Proof.
  revert v; induction cs as [|c cs IH]; intros v H; [reflexivity |].
  rewrite calls_byte_cons. unfold call_byte. fold (covers c k). rewrite (H c) by now left. rewrite andb_false_r.
  apply IH. intros c' Hc'. apply H. now right.
Qed.

(** The inner loop touches output [i] once. *)
Lemma row_calls_byte c lo hi i k v s m : lo <= k < hi ->
  calls_byte (map (fun iRow => Call c iRow lo hi) (seq s m)) i k v =
    if (s <=? i) && (i <? s + m) then call_byte M inputs (Call c i lo hi) i k v else v.
Proof.
  intros Hk. revert s v; induction m as [|m IH]; intros s v.
  - cbn [seq map]. destruct (Nat.leb_spec s i), (Nat.ltb_spec i (s + 0)); cbn; auto; lia.
  - cbn [seq map]. rewrite calls_byte_cons, IH. destruct (Nat.leb_spec (S s) i), (Nat.ltb_spec i (S s + m)),
      (Nat.leb_spec s i), (Nat.ltb_spec i (s + S m)); cbn [andb]; try lia;
    unfold call_byte; cbn [c_row c_lo c_hi c_col];
    destruct (Nat.eqb_spec s i); cbn [andb]; auto; try lia.
    subst s. now rewrite Nat.eqb_refl.
Qed.

Lemma block_calls_byte lo hi i k v nin : lo <= k < hi -> i < nout -> 0 < nin ->
  calls_byte (block_calls nin nout (lo, hi)) i k v =
    xsum nin (fun c => galMultiply (entry M i c) (bytes_at inputs c k)).
Proof.
  intros Hk Hi. unfold block_calls. cbn [fst snd].
  induction nin as [|nin IH]; intros Hn; [lia |].
  rewrite seq_S, flat_map_app, calls_byte_app. cbn [flat_map Nat.add app]. rewrite app_nil_r.
  rewrite row_calls_byte by auto.
  destruct (Nat.leb_spec 0 i), (Nat.ltb_spec i (0 + nout)); try lia. cbn [andb].
  unfold call_byte. cbn [c_row c_lo c_hi c_col]. rewrite Nat.eqb_refl.
  destruct (Nat.leb_spec lo k), (Nat.ltb_spec k hi); try lia. cbn [andb].
  destruct (Nat.eqb_spec nin 0) as [->|]; [cbn [xsum]; now rewrite N.lxor_0_l |].
  rewrite IH by lia. reflexivity.
Qed.
End Bytes.

(** ** The blocks of one goroutine *)
Section Exec.
Context (perRound : nat) (Hround : 0 < perRound).

(** Byte [k] is in exactly one block. *)
Definition once (k : nat) (bs : list (nat * nat)) : Prop :=
  exists bs1 lo hi bs2, bs = bs1 ++ (lo, hi) :: bs2 /\ lo <= k < hi /\
    forall b, In b (bs1 ++ bs2) -> ~ (fst b <= k < snd b).

Lemma blocks_spec stop fuel : forall lstart, lstart <= stop -> stop - lstart < fuel ->
  exists bs, blocks fuel perRound stop lstart (Nat.min (lstart + perRound) stop) = Ret bs /\
    Forall (fun b => lstart <= fst b /\ fst b <= snd b <= stop) bs /\
    forall k, lstart <= k < stop -> once k bs.
Proof.
  induction fuel as [|fuel IH]; intros lstart Hle Hf; [lia |]. cbn [blocks].
  destruct (Nat.ltb_spec lstart stop).
  2: { exists []. split; [auto |]. split; [constructor |]. intros k Hk. lia. }
  set (lstop := Nat.min (lstart + perRound) stop).
  assert (Hls : lstart < lstop <= stop) by (unfold lstop; lia). clearbody lstop.
  destruct (IH lstop) as (bs & Hbs & Hf' & Hk'); [lia | lia |].
  rewrite Hbs. cbn [bind]. eexists; split; [reflexivity |]. split.
  - constructor; [cbn; lia |]. eapply Forall_impl; [| exact Hf']. intros b Hb; cbv beta in *; lia.
  - intros k Hk. rewrite Forall_forall in Hf'. destruct (Nat.lt_ge_cases k lstop).
    + exists [], lstart, lstop, bs. split; [auto |]. split; [lia |].
      intros b Hb. specialize (Hf' b Hb). lia.
    + destruct (Hk' k) as (bs1 & lo & hi & bs2 & -> & Hin & Hno); [lia |].
      exists ((lstart, lstop) :: bs1), lo, hi, bs2. split; [auto |]. split; [auto |].
      intros b [<-|Hb]; [cbn; lia | auto].
Qed.

Lemma in_block_calls nin nout b c : In c (block_calls nin nout b) ->
  c_col c < nin /\ c_row c < nout /\ c_lo c = fst b /\ c_hi c = snd b.
Proof.
  unfold block_calls. intros (x & Hx%in_seq & (y & <- & Hy%in_seq)%in_map_iff)%in_flat_map.
  cbn. repeat split; lia.
Qed.

Lemma exec_spec nin nout start stop : 0 < nin -> start <= stop ->
  exists cs, exec perRound nin nout start stop = Ret cs /\
    Forall (fun c => c_col c < nin /\ c_row c < nout /\ start <= c_lo c /\ c_lo c <= c_hi c <= stop) cs /\
    forall M inputs i k v, length inputs = nin -> i < nout -> start <= k < stop ->
      calls_byte M inputs cs i k v = coded M inputs i k.
Proof.
  intros Hn Hle. unfold exec.
  destruct (blocks_spec stop (S stop) start) as (bs & -> & Hf & Hk); [lia | lia |]. cbn [bind].
  eexists; split; [reflexivity |]. split.
  - apply Forall_forall. intros c (b & Hb & Hc)%in_flat_map. rewrite Forall_forall in Hf.
    specialize (Hf b Hb). apply in_block_calls in Hc as (H1 & H2 & -> & ->). lia.
  - intros M inputs i k v Hl Hi Hin.
    destruct (Hk k Hin) as (bs1 & lo & hi & bs2 & -> & Hkb & Hno).
    rewrite flat_map_app, calls_byte_app. cbn [flat_map]. rewrite calls_byte_app.
    assert (Hun : forall bs v, (forall b, In b bs -> In b (bs1 ++ bs2)) ->
        calls_byte M inputs (flat_map (block_calls nin nout) bs) i k v = v).
    { intros bs v' Hsub. apply calls_byte_uncovered. intros c (b & Hb & Hc)%in_flat_map.
      apply in_block_calls in Hc as (_ & _ & H3 & H4). specialize (Hno b (Hsub b Hb)).
      unfold covers. rewrite H3, H4.
      destruct (Nat.leb_spec (fst b) k), (Nat.ltb_spec k (snd b)); auto; lia. }
    rewrite (Hun bs2) by (intros; apply in_or_app; auto).
    rewrite block_calls_byte by auto. unfold coded, dot. now rewrite Hl.
Qed.
End Exec.

(** ** Goroutines *)

(** Job [p] alone works on byte [k]. *)
Definition owner (p k : nat) (js : list (list call)) : Prop :=
  forall q c, q <> p -> In c (nth q js []) -> covers c k = false.

Lemma interleave_byte M inputs js l : interleave js l -> forall p k i v, owner p k js ->
  calls_byte M inputs l i k v = calls_byte M inputs (nth p js []) i k v.
Proof.
  induction 1 as [js Hd|js x c j l Hx Hl IH]; intros p k i v Ho.
  - rewrite Forall_forall in Hd. destruct (Nat.lt_ge_cases p (length js)).
    + rewrite (Hd (nth p js [])); [reflexivity | now apply nth_In].
    + now rewrite nth_overflow.
  - assert (Hlt : x < length js) by (apply nth_error_Some; congruence).
    assert (Hnx : nth x js [] = c :: j) by now apply nth_error_nth.
    assert (Ho' : owner p k (set_nth js x j)).
    { intros q c' Hq Hin. rewrite nth_set_nth in Hin. destruct (Nat.eqb_spec q x) as [->|].
      - destruct (x <? length js); cbn [andb] in Hin.
        + apply (Ho x); [auto |]. rewrite Hnx. now right.
        + now apply (Ho x).
      - now apply (Ho q). }
    rewrite calls_byte_cons, (IH p k i _ Ho'), nth_set_nth.
    destruct (Nat.eqb_spec p x) as [->|Hne]; cbn [andb].
    + apply Nat.ltb_lt in Hlt as ->. now rewrite Hnx.
    + unfold call_byte. fold (covers c k).
      rewrite (Ho x c); [now rewrite andb_false_r | auto |]. rewrite Hnx. now left.
Qed.

Lemma interleave_Forall (P : call -> Prop) js l : interleave js l -> Forall (Forall P) js -> Forall P l.
Proof.
  induction 1 as [js Hd|js x c j l Hx Hl IH]; intros Hf; [constructor |].
  assert (Hcj : Forall P (c :: j)).
  { rewrite Forall_forall in Hf. apply Hf. eapply nth_error_In; eauto. }
  inversion_clear Hcj as [|? ? Hc Hj]. constructor; [auto |]. apply IH.
  apply Forall_forall. intros y (n & Hn & <-)%(In_nth _ _ []). rewrite length_set_nth in Hn.
  rewrite nth_set_nth. destruct ((n =? x) && _); [auto |]. rewrite Forall_forall in Hf. now apply Hf, nth_In.
Qed.

(** Running the goroutines one after the other is one of the interleavings. *)
Lemma interleave_concat js : interleave js (concat js).
Proof.
  assert (H : forall done js, Forall (fun j => j = []) done -> interleave (done ++ js) (concat js)).
  { intros done js'. revert done. induction js' as [|j js' IH]; intros done Hd.
    - constructor. now rewrite app_nil_r.
    - cbn [concat]. induction j as [|c j IHj].
      + cbn [app]. specialize (IH (done ++ [[]])). rewrite <- app_assoc in IH. apply IH.
        apply Forall_app. auto.
      + cbn [app]. apply interleave_step with (i := length done) (j := j).
        * now rewrite nth_error_app2, Nat.sub_diag by lia.
        * replace (set_nth (done ++ (c :: j) :: js') (length done) j) with (done ++ j :: js'); [auto |].
          clear. induction done as [|d done IHd]; cbn; [auto | now f_equal]. }
  apply (H []). constructor.
Qed.

(** A partition of the bytes [start, stop) among the jobs: each byte has one
    owner, which computes the reference value whatever the byte was. *)
Definition jobs_ok (nin nout start stop : nat) (js : list (list call)) : Prop :=
  Forall (Forall (fun c => c_col c < nin /\ c_row c < nout /\ start <= c_lo c /\ c_lo c <= c_hi c <= stop)) js /\
  forall k, start <= k < stop -> exists p, owner p k js /\
    forall M inputs i v, length inputs = nin -> i < nout ->
      calls_byte M inputs (nth p js []) i k v = coded M inputs i k.

Lemma owner_single k j : owner 0 k [j].
Proof. intros [|q] c Hq Hc; [congruence |]. destruct q; destruct Hc. Qed.

Lemma jobs_spec perRound nin nout byteCount fuel : 0 < perRound -> 0 < nin ->
  forall step start, 0 < step -> start <= byteCount -> byteCount - start < fuel ->
  exists js, jobs fuel perRound nin nout byteCount step start = Ret js /\
    jobs_ok nin nout start byteCount js.
Proof.
  intros Hr Hn. induction fuel as [|fuel IH]; intros step start Hs Hle Hf; [lia |]. cbn [jobs].
  destruct (Nat.ltb_spec start byteCount).
  2: { exists []. split; [auto |]. split; [constructor |]. intros k Hk. lia. }
  set (step' := if byteCount <? start + step then byteCount - start else step).
  assert (Hs' : 0 < step' /\ start + step' <= byteCount)
    by (unfold step'; destruct (Nat.ltb_spec byteCount (start + step)); lia).
  clearbody step'. destruct Hs' as [Hs1 Hs2].
  destruct (exec_spec perRound Hr nin nout start (start + step') Hn) as (j & -> & Hj & Hjb); [lia |]. cbn [bind].
  destruct (IH step' (start + step')) as (js & -> & Hjs & Hk); [lia | lia | lia |]. cbn [bind].
  eexists; split; [reflexivity |]. split.
  - constructor; [eapply Forall_impl; [| exact Hj]; intros c Hc; cbv beta in *; lia |].
    eapply Forall_impl; [| exact Hjs]. intros j' Hj'. eapply Forall_impl; [| exact Hj'].
    intros c Hc. cbv beta in *. lia.
  - intros k Hkb. destruct (Nat.lt_ge_cases k (start + step')).
    + exists 0. split; [| intros; apply Hjb; auto; lia].
      intros [|q] c Hq Hc; [congruence |]. cbn [nth] in Hc.
      destruct (Nat.lt_ge_cases q (length js)); [| rewrite nth_overflow in Hc by auto; destruct Hc].
      rewrite Forall_forall in Hjs. specialize (Hjs (nth q js []) (nth_In _ _ H1)).
      rewrite Forall_forall in Hjs. specialize (Hjs c Hc).
      unfold covers. destruct (Nat.leb_spec (c_lo c) k); [lia | reflexivity].
    + destruct (Hk k) as (p & Ho & Hb); [lia |]. exists (S p). split; [| intros; apply Hb; auto].
      intros [|q] c Hq Hc.
      * cbn [nth] in Hc. rewrite Forall_forall in Hj. specialize (Hj c Hc). unfold covers.
        destruct (Nat.leb_spec (c_lo c) k), (Nat.ltb_spec k (c_hi c)); auto; lia.
      * apply (Ho q); [lia | auto].
Qed.

Lemma round64_pos n : 0 < n -> 0 < round64 n.
Proof.
  intros H. unfold round64. rewrite <- Z.ldiff_land. change 63%Z with (Z.ones 6).
  rewrite Z.ldiff_ones_r, Z.shiftl_mul_pow2, Z.shiftr_div_pow2 by lia.
  change (Z.ones 6) with 63%Z. change (2 ^ 6)%Z with 64%Z.
  assert (1 <= (Z.of_nat n + 63) / 64)%Z by (apply Z.div_le_lower_bound; lia). lia.
Qed.

Section Goroutines.
Context (maxGoroutines minSplitSize perRound : Z).
Context (Hgor : (1 <= maxGoroutines)%Z) (Hmin : (1 <= minSplitSize)%Z) (Hround : (1 <= perRound)%Z).

Lemma parallel_jobs_spec nin nout byteCount : 0 < nin ->
  exists js, parallel_jobs maxGoroutines minSplitSize perRound nin nout byteCount = Ret js /\
    jobs_ok nin nout 0 byteCount js.
Proof.
  intros Hn. unfold parallel_jobs. destruct (Z.eqb_spec maxGoroutines 0); [lia |].
  destruct (Z.leb_spec maxGoroutines 1).
  - destruct (exec_spec (Z.to_nat perRound)) with (nin := nin) (nout := nout) (start := 0) (stop := byteCount)
      as (j & -> & Hj & Hjb); [lia | lia | lia |]. cbn [bind].
    eexists; split; [reflexivity |]. split; [constructor; auto |].
    intros k Hk. exists 0. split; [apply owner_single |]. intros. now apply Hjb.
  - apply jobs_spec; try lia. apply round64_pos.
    destruct (Z.ltb_spec (Z.quot (Z.of_nat byteCount) maxGoroutines) minSplitSize); lia.
Qed.

Context (n : nat) (M : matrix) (inputs outs : list slice).
Context (HM : wf (length outs) (length inputs) M) (Hne : inputs <> [])
  (Hin : Forall (shard_ok n) inputs) (Houts : Forall (shard_ok n) outs).

Lemma inputs_pos : 0 < length inputs.
Proof. destruct inputs; [congruence | simpl; lia]. Qed.

(** What coding promises: every byte of every output is the reference value. *)
Definition coding_done (outs' : list slice) : Prop :=
  same_shape n outs outs' /\
  forall i k, i < length outs -> k < n -> bytes_at outs' i k = coded M inputs i k.

(** Every interleaving of the goroutines finishes with the reference values. *)
Lemma interleaving_coded js l : jobs_ok (length inputs) (length outs) 0 n js -> interleave js l ->
  exists outs', run_calls M inputs l outs = Ret outs' /\ coding_done outs'.
Proof.
  intros [Hok Hown] Hl.
  destruct (run_calls_spec n M inputs (length outs) HM Hin l outs) as (outs' & Hr & Hs & Hb);
    [auto | auto | |].
  - eapply interleave_Forall; [exact Hl |]. eapply Forall_impl; [| exact Hok]. intros j Hj.
    eapply Forall_impl; [| exact Hj]. unfold call_ok. intros c Hc. cbv beta in *. lia.
  - exists outs'. split; [auto |]. split; [auto |]. intros i k Hi Hk.
    destruct (Hown k) as (p & Hp & Hv); [lia |].
    rewrite Hb by auto. rewrite (interleave_byte M inputs js l Hl p k i _ Hp). now apply Hv.
Qed.

Lemma codeSomeShardsP_spec : exists outs',
  codeSomeShardsP maxGoroutines minSplitSize perRound M inputs outs n = Ret outs' /\ coding_done outs'.
Proof.
  unfold codeSomeShardsP.
  destruct (parallel_jobs_spec (length inputs) (length outs) n inputs_pos) as (js & -> & Hjs). cbn [bind].
  apply (interleaving_coded js); [auto | apply interleave_concat].
Qed.

Lemma codeSomeShards_spec : exists outs',
  codeSomeShards maxGoroutines minSplitSize perRound M inputs outs n = Ret outs' /\ coding_done outs'.
Proof.
  unfold codeSomeShards. destruct (Nat.eqb_spec (length outs) 0) as [H0|H0].
  - exists outs. split; [auto |]. split; [repeat split; auto |]. intros i k Hi. lia.
  - destruct (minSplitSize <? Z.of_nat n)%Z; [apply codeSomeShardsP_spec |].
    assert (Hp := inputs_pos). rewrite (idx_nth Nil) by auto. cbn [bind].
    destruct (shard_ok_nth n inputs 0 Hin Hp) as (_ & -> & _).
    destruct (exec_spec (Z.to_nat perRound)) with (nin := length inputs) (nout := length outs) (start := 0) (stop := n)
      as (j & -> & Hj & Hjb); [lia | lia | lia |]. cbn [bind].
    apply (interleaving_coded [j]).
    + split; [constructor; auto |].
      intros k Hk. exists 0. split; [apply owner_single |]. intros. now apply Hjb.
    + rewrite <- (app_nil_r j) at 2. apply (interleave_concat [j]).
Qed.
End Goroutines.
