(* ===== verification/IO.v ===== *)
(** * The interfaces of package [io] the library calls

    A destination or source is any type with the operation of [io.Writer] or
    [io.Reader]; the laws are what their documentation promises.  In-memory
    instances (a buffer) satisfy them. *)
From Stdlib Require Import List Arith NArith ZArith Lia Bool.
From S2P Require Import Prelude Galois RSTypes.
Import ListNotations.

(** [Write(p)] returns the new state, the number of bytes taken and an error. *)
Class Writer (W : Type) : Type := write_to : W -> list N -> W * nat * option rsError.

(** A writer on which no write fails; [written w] is all it took so far. *)
Class GoodWriter (W : Type) `{Writer W} : Type := {
  written : W -> list N;
  write_to_spec : forall w p, exists w', write_to w p = (w', length p, None) /\ written w' = written w ++ p
}.

(** [*bytes.Buffer] as a destination *)
#[export] Instance buffer_writer : Writer (list N) := fun w p => (w ++ p, length p, None).

#[export] Instance buffer_good : GoodWriter (list N).
Proof. exists (fun w => w). intros w p. eexists; split; reflexivity. Defined.

(** ** Readers *)

(** [Read(p)] with [len(p) = n] returns the new state, the bytes it stored in
    [p] and an error. *)
Class Reader (R : Type) : Type := read_from : R -> nat -> R * list N * option rsError.

(** A reader that never fails: [rest r] is what it still has to give. It may
    give any part of it at a time, and the end with or after the last bytes. *)
Class GoodReader (R : Type) `{Reader R} : Type := {
  rest : R -> list N;
  read_spec : forall r n, 0 < n -> exists r' k e,
    read_from r n = (r', firstn k (rest r), e) /\ k <= n /\ rest r' = skipn k (rest r) /\
    ((e = None /\ 0 < k <= length (rest r)) \/ (e = Some EOF /\ k = length (rest r)))
}.

Definition is_EOF (e : rsError) : bool := match e with EOF => true | _ => false end.

(** [io.ReadAtLeast(r, buf, min)] with [len(buf) = min] *)
Fixpoint ReadAtLeast {R} `{Reader R} (fuel : nat) (r : R) (acc : list N) (min : nat) :
    outcome Empty_set (R * list N * option rsError) :=
  match fuel with
  | O => Timeout
  | S fuel =>
      if length acc <? min then
        let '(r, p, err) := read_from r (min - length acc) in
        let acc := acc ++ p in
        match err with
        | None => ReadAtLeast fuel r acc min
        | Some e =>
            Ret (r, acc, if min <=? length acc then None
                         else if (0 <? length acc) && is_EOF e then Some ErrUnexpectedEOF else Some e)
        end
      else Ret (r, acc, None)
  end.

(** [io.ReadFull(r, buf)] with [len(buf) = n]; every call of [Read] that gives
    no error gives a byte. *)
Definition ReadFull {R} `{Reader R} (r : R) (n : nat) : outcome Empty_set (R * list N * option rsError) :=
  ReadAtLeast (S n) r [] n.

(** [io.Copy] through a buffer of [size] bytes; it returns the source, the
    destination, the number of bytes written and an error. *)
Fixpoint Copy {R W} `{Reader R} `{Writer W} (fuel size : nat) (dst : W) (src : R) (written : nat) :
    outcome Empty_set (R * W * nat * option rsError) :=
  match fuel with
  | O => Timeout
  | S fuel =>
      let '(src, p, er) := read_from src size in
      let nr := length p in
      let '(dst, nw, ew) :=
        if 0 <? nr then
          let '(dst, nw, ew) := write_to dst p in
          if nr <? nw then (dst, 0, Some (match ew with Some e => e | None => errInvalidWrite end))
          else (dst, nw, match ew with Some e => Some e | None => if nr =? nw then None else Some ErrShortWrite end)
        else (dst, 0, None) in
      let written := written + nw in
      match ew, er with
      | Some e, _ => Ret (src, dst, written, Some e)
      | None, Some e => Ret (src, dst, written, if is_EOF e then None else Some e)
      | None, None => Copy fuel size dst src written
      end
  end.

(** [io.LimitedReader] *)
Record LimitedReader (R : Type) : Type := LimitReader { lim_R : R; lim_N : Z }.
Arguments LimitReader {R} lim_R lim_N.
Arguments lim_R {R} l.
Arguments lim_N {R} l.

#[export] Instance limited_reader {R} `{Reader R} : Reader (LimitedReader R) := fun l n =>
  if (lim_N l <=? 0)%Z then (l, [], Some EOF)
  else
    let n := if (Z.of_nat n >? lim_N l)%Z then Z.to_nat (lim_N l) else n in
    let '(r, p, err) := read_from (lim_R l) n in
    (LimitReader r (lim_N l - Z.of_nat (length p)), p, err).

(** [io.CopyN(dst, src, n)] with the buffer of [io.Copy]: 32 kB, less for a
    shorter limit. *)
Definition CopyN {R W} `{Reader R} `{Writer W} (dst : W) (src : R) (n : Z) :
    outcome Empty_set (R * W * nat * option rsError) :=
  let size := if (n <? 1)%Z then 1 else if (n <? 32 * 1024)%Z then Z.to_nat n else Z.to_nat (32 * 1024) in
  '(l, dst, written, err) <- Copy (S (S (Z.to_nat n))) size dst (LimitReader src n) 0 ;;
  let src := lim_R l in
  if (Z.of_nat written =? n)%Z then Ret (src, dst, written, None)
  else Ret (src, dst, written,
         match err with Some e => Some e | None => if (Z.of_nat written <? n)%Z then Some EOF else None end).

(** [io.MultiReader]: the readers that ended and those to come. *)
Record multiReader (R : Type) : Type := Multi { mr_done : list R; mr_readers : list R }.
Arguments Multi {R} mr_done mr_readers.
Arguments mr_done {R} m.
Arguments mr_readers {R} m.

Definition MultiReader {R} (readers : list R) : multiReader R := Multi [] readers.

Fixpoint multi_read {R} `{Reader R} (done readers : list R) (n : nat) : multiReader R * list N * option rsError :=
  match readers with
  | [] => (Multi done [], [], Some EOF)
  | r :: readers' =>
      let '(r, p, err) := read_from r n in
      let eof := match err with Some e => is_EOF e | None => false end in
      let m := if eof then Multi (done ++ [r]) readers' else Multi done (r :: readers') in
      if (0 <? length p) || negb eof
      then (m, p, if eof && (0 <? length (mr_readers m)) then None else err)
      else multi_read (done ++ [r]) readers' n
  end.

#[export] Instance multi_reader {R} `{Reader R} : Reader (multiReader R) :=
  fun m n => multi_read (mr_done m) (mr_readers m) n.

(** Readers of two kinds side by side *)
#[export] Instance sum_reader {A B} `{Reader A} `{Reader B} : Reader (A + B) := fun r n =>
  match r with
  | inl a => let '(a, p, err) := read_from a n in (inl a, p, err)
  | inr b => let '(b, p, err) := read_from b n in (inr b, p, err)
  end.

(** A file open for reading: the bytes after the offset. *)
#[export] Instance file_reader : Reader (list N) := fun l n =>
  if length l =? 0 then (l, [], Some EOF) else (skipn n l, firstn n l, None).

(** A source that gives at most [k] bytes at a time and the end with the last. *)
Record chunked : Type := Chunked { ch_size : nat; ch_bytes : list N }.

#[export] Instance chunked_reader : Reader chunked := fun c n =>
  let k := Nat.min n (S (ch_size c)) in
  (Chunked (ch_size c) (skipn k (ch_bytes c)), firstn k (ch_bytes c),
   if length (ch_bytes c) <=? k then Some EOF else None).

(** ** The laws *)

(** The conclusion of [read_spec] for a call that gave [k] bytes *)
Local Ltac done_reading := splits; auto; try lia; first [left; split; auto; lia | right; split; auto; lia | idtac].

#[export] Instance file_good : GoodReader (list N).
Proof.
  exists (fun l => l). intros l n Hn. unfold read_from, file_reader.
  destruct (Nat.eqb_spec (length l) 0) as [E|E].
  - exists l, 0, (Some EOF). done_reading.
  - exists (skipn n l), (Nat.min n (length l)), None. destruct (Nat.le_ge_cases n (length l)).
    + rewrite Nat.min_l by auto. done_reading.
    + rewrite Nat.min_r by auto. rewrite !firstn_all2, !skipn_all2 by lia. done_reading.
Defined.

#[export] Instance chunked_good : GoodReader chunked.
Proof.
  exists ch_bytes. intros [c l] n Hn. unfold read_from, chunked_reader. cbn [ch_bytes ch_size].
  set (k := Nat.min n (S c)). assert (Hk : 0 < k <= n) by (unfold k; lia). destruct (Nat.leb_spec (length l) k).
  - exists (Chunked c (skipn k l)), (length l), (Some EOF). cbn [ch_bytes].
    rewrite !firstn_all2, !skipn_all2 by lia. done_reading.
  - exists (Chunked c (skipn k l)), k, None. done_reading.
Defined.

#[export] Instance sum_good {A B} `{GoodReader A} `{GoodReader B} : GoodReader (A + B).
Proof.
  exists (fun r => match r with inl a => rest a | inr b => rest b end).
  intros [a|b] n Hn; unfold read_from, sum_reader.
  - destruct (read_spec a n Hn) as (a' & k & e & -> & H3). exists (inl a'), k, e. auto.
  - destruct (read_spec b n Hn) as (b' & k & e & -> & H3). exists (inr b'), k, e. auto.
Defined.

#[export] Instance limited_good {R} `{GoodReader R} : GoodReader (LimitedReader R).
Proof.
  exists (fun l => firstn (Z.to_nat (lim_N l)) (rest (lim_R l))).
  intros [r N] n Hn. unfold read_from at 1, limited_reader. cbn [lim_R lim_N].
  destruct (Z.leb_spec N 0).
  - exists (LimitReader r N), 0, (Some EOF). cbn [lim_R lim_N]. replace (Z.to_nat N) with 0 by lia.
    cbn. done_reading.
  - set (m := if (Z.of_nat n >? N)%Z then Z.to_nat N else n).
    assert (Hm : 0 < m <= n /\ m <= Z.to_nat N) by (unfold m; destruct (Z.gtb_spec (Z.of_nat n) N); lia).
    destruct (read_spec r m) as (r' & k & e & -> & Hk & Hrest & He); [lia |].
    assert (Hkl : k <= length (rest r)) by lia. assert (Hl : length (firstn k (rest r)) = k) by lens.
    exists (LimitReader r' (N - Z.of_nat k)), k, e. cbn [lim_R lim_N]. rewrite Hl.
    splits; [| lia | |].
    + f_equal. f_equal. rewrite firstn_firstn. f_equal. lia.
    + rewrite Hrest. replace (Z.to_nat (N - Z.of_nat k)) with (Z.to_nat N - k) by lia.
      now rewrite skipn_firstn_comm.
    + rewrite length_firstn. destruct He as [[-> He]|[-> He]]; [left | right]; split; auto; lia.
Defined.

Lemma multi_read_spec {R} `{GoodReader R} n : 0 < n -> forall readers done, exists m' k e,
  multi_read done readers n = (m', firstn k (concat (map rest readers)), e) /\ k <= n /\
  concat (map rest (mr_readers m')) = skipn k (concat (map rest readers)) /\
  ((e = None /\ 0 < k <= length (concat (map rest readers))) \/
   (e = Some EOF /\ k = length (concat (map rest readers)))).
Proof.
  intros Hn. induction readers as [|r readers IH]; intros done; cbn [multi_read map concat].
  - exists (Multi done []), 0, (Some EOF). cbn. done_reading.
  - destruct (read_spec r n Hn) as (r' & k & e & -> & Hk & Hrest & He).
    set (all := concat (map rest readers)).
    assert (Hl : length (firstn k (rest r)) = k) by (rewrite length_firstn; lia). rewrite Hl.
    destruct He as [[-> He]|[-> He]]; cbn [is_EOF andb negb].
    + rewrite orb_true_r. exists (Multi done (r' :: readers)), k, None. cbn [mr_readers map concat].
      rewrite Hrest, firstn_app, skipn_app, length_app. replace (k - length (rest r)) with 0 by lia.
      cbn [firstn skipn]. rewrite app_nil_r. done_reading.
    + rewrite orb_false_r. rewrite He, firstn_all in *. destruct (Nat.ltb_spec 0 (length (rest r))) as [Hp|Hp].
      * destruct readers as [|r2 readers].
        -- exists (Multi (done ++ [r']) []), (length (rest r)), (Some EOF). cbn [mr_readers map concat length Nat.ltb Nat.leb].
           subst all. cbn [map concat]. rewrite app_nil_r, firstn_all, skipn_all. splits; auto.
        -- exists (Multi (done ++ [r']) (r2 :: readers)), (length (rest r)), None.
           cbn [mr_readers length Nat.ltb Nat.leb]. fold all.
           rewrite firstn_app, skipn_app, firstn_all, skipn_all, Nat.sub_diag. cbn [firstn skipn].
           rewrite app_nil_r, length_app. done_reading.
      * destruct (rest r) as [|x l]; [| cbn in Hp; lia]. cbn [app]. apply IH.
Qed.

#[export] Instance multi_good {R} `{GoodReader R} : GoodReader (multiReader R).
Proof.
  exists (fun m => concat (map rest (mr_readers m))). intros m n Hn.
  exact (multi_read_spec n Hn (mr_readers m) (mr_done m)).
Defined.

(** ** Reading and copying *)

Section Read.
Context {R : Type} `{GoodReader R}.

Lemma ReadAtLeast_spec m : forall fuel (r : R) acc, length acc <= m -> m - length acc < fuel ->
  exists r' q err, ReadAtLeast fuel r acc m = Ret (r', acc ++ q, err) /\
    q = firstn (m - length acc) (rest r) /\ rest r' = skipn (m - length acc) (rest r) /\
    err = if m <=? length (acc ++ q) then None
          else if 0 <? length (acc ++ q) then Some ErrUnexpectedEOF else Some EOF.
Proof.
  induction fuel as [|fuel IH]; intros r acc Hacc Hf; [lia |]. cbn [ReadAtLeast].
  destruct (Nat.ltb_spec (length acc) m).
  - set (n := m - length acc) in *. destruct (read_spec r n) as (r1 & k & e & -> & Hk & Hr1 & He); [lia |].
    set (l := rest r) in *. assert (Hlk : length (firstn k l) = k) by (rewrite length_firstn; lia).
    destruct He as [[-> He]|[-> He]].
    + destruct (IH r1 (acc ++ firstn k l)) as (r' & q & err & -> & -> & Hr' & Herr);
        [rewrite length_app; lia | rewrite length_app; lia |].
      assert (En : m - length (acc ++ firstn k l) = n - k) by (rewrite length_app; lia).
      rewrite En, Hr1 in *.
      exists r', (firstn n l), err. rewrite <- app_assoc in *.
      assert (E : firstn k l ++ firstn (n - k) (skipn k l) = firstn n l)
        by (rewrite <- firstn_add; f_equal; lia).
      rewrite E in *. splits; auto. rewrite Hr', skipn_skipn. f_equal. lia.
    + exists r1, (firstn k l). eexists. split; [reflexivity |]. rewrite andb_true_r.
      rewrite (firstn_all2 (n := k)), (firstn_all2 (n := n)), Hr1, !skipn_all2 by lia. splits; auto.
  - exists r, []. eexists. split; [rewrite app_nil_r; reflexivity |].
    replace (m - length acc) with 0 by lia. rewrite app_nil_r. cbn [firstn skipn]. splits; auto.
    destruct (Nat.leb_spec m (length acc)); [auto | lia].
Qed.

(** A buffer is filled, or takes all there is with one of the two ends. *)
Lemma ReadFull_spec r n : exists r', ReadFull r n = Ret (r', firstn n (rest r),
    if n <=? length (rest r) then None else if 0 <? length (rest r) then Some ErrUnexpectedEOF else Some EOF) /\
  rest r' = skipn n (rest r).
Proof.
  destruct (ReadAtLeast_spec n (S n) r []) as (r' & q & err & H1 & -> & H2 & ->); cbn [length]; try lia.
  cbn [app length] in *. rewrite Nat.sub_0_r in *. exists r'. split; [| exact H2]. unfold ReadFull. rewrite H1.
  do 2 f_equal. rewrite length_firstn.
  destruct (Nat.leb_spec n (length (rest r))), (Nat.leb_spec n (Nat.min n (length (rest r)))); try lia; auto.
  destruct (Nat.ltb_spec 0 (length (rest r))), (Nat.ltb_spec 0 (Nat.min n (length (rest r)))); try lia; auto.
Qed.

End Read.

Section Copy.
Context {W : Type} `{GoodWriter W}.

(** [P] is any property of the source that reading keeps. *)
Lemma Copy_spec {R} `{GoodReader R} (P : R -> Prop) : (forall r n, 0 < n -> P r -> P (fst (fst (read_from r n)))) ->
  forall size, 0 < size -> forall fuel src dst n, P src -> length (rest src) < fuel ->
  exists src' dst', Copy fuel size dst src n = Ret (src', dst', n + length (rest src), None) /\
    P src' /\ rest src' = [] /\ written dst' = written dst ++ rest src.
Proof.
  intros HP size Hs. induction fuel as [|fuel IH]; intros src dst n Hsrc Hf; [lia |]. cbn [Copy].
  assert (HP1 := HP src size Hs Hsrc).
  destruct (read_spec src size Hs) as (s1 & k & e & Hrd & Hk & Hr1 & He). rewrite Hrd in *. cbn [fst] in HP1.
  set (l := rest src) in *. assert (Hlk : length (firstn k l) = k) by (rewrite length_firstn; lia). rewrite Hlk.
  destruct (write_to_spec dst (firstn k l)) as (d1 & Hw & Hwr). rewrite Hw, Hlk, Nat.ltb_irrefl, Nat.eqb_refl.
  destruct He as [[-> He]|[-> He]].
  - destruct (Nat.ltb_spec 0 k); [| lia]. destruct (IH s1 d1 (n + k)) as (s' & d' & -> & HP' & Hr' & Hw'); auto.
    { rewrite Hr1, length_skipn. lia. }
    exists s', d'. rewrite Hr1, length_skipn in *. splits; auto.
    + do 3 f_equal. lia.
    + now rewrite Hw', Hwr, <- app_assoc, firstn_skipn.
  - assert (El : firstn k l = l) by (rewrite He; apply firstn_all).
    assert (Hr0 : rest s1 = []) by (rewrite Hr1, He; apply skipn_all).
    destruct (Nat.ltb_spec 0 k); cbn [is_EOF].
    + exists s1, d1. rewrite <- He. splits; auto. now rewrite Hwr, El.
    + exists s1, dst. rewrite <- He. replace k with 0 in * by lia. cbn [firstn] in El. rewrite <- El, app_nil_r.
      splits; auto.
Qed.

(** [CopyN] takes the next [n] bytes; if there are fewer it takes them and
    returns [EOF]. *)
Lemma CopyN_spec {R} `{GoodReader R} (P : R -> Prop) dst src n : (forall r n, 0 < n -> P r -> P (fst (fst (read_from r n)))) ->
  P src -> (0 <= n)%Z ->
  exists src' dst', CopyN dst src n = Ret (src', dst', Nat.min (Z.to_nat n) (length (rest src)),
      if Z.to_nat n <=? length (rest src) then None else Some EOF) /\
    P src' /\ (Z.to_nat n <= length (rest src) -> rest src' = skipn (Z.to_nat n) (rest src)) /\
    written dst' = written dst ++ firstn (Z.to_nat n) (rest src).
Proof.
  intros HP Hsrc Hn. unfold CopyN.
  set (size := if (n <? 1)%Z then 1 else if (n <? 32 * 1024)%Z then Z.to_nat n else Z.to_nat (32 * 1024)).
  assert (Hsize : 0 < size).
  { unfold size. destruct (Z.ltb_spec n 1); [lia |]. destruct (Z.ltb_spec n (32 * 1024)); lia. }
  set (l := rest src).
  set (inv := fun m : LimitedReader R => P (lim_R m) /\ (0 <= lim_N m)%Z /\
    exists j, j + Z.to_nat (lim_N m) = Z.to_nat n /\ j <= length l /\ rest (lim_R m) = skipn j l).
  assert (Hinv0 : inv (LimitReader src n)).
  { split; [auto |]. split; [auto |]. exists 0. cbn. splits; auto; lia. }
  assert (Hstep : forall (m : LimitedReader R) k, 0 < k -> inv m -> inv (fst (fst (read_from m k)))).
  { intros [r N] k Hk (HPr & HNr & j & Hj & Hjl & Hrj). unfold read_from at 1, limited_reader. cbn [lim_R lim_N] in *.
    destruct (Z.leb_spec N 0); [split; [auto |]; split; [auto |]; exists j; auto |].
    set (k' := if (Z.of_nat k >? N)%Z then Z.to_nat N else k).
    assert (Hk' : 0 < k' <= Z.to_nat N) by (unfold k'; destruct (Z.gtb_spec (Z.of_nat k) N); lia).
    assert (HP1 := HP r k' (proj1 Hk') HPr).
    destruct (read_spec r k' (proj1 Hk')) as (r' & x & e & Hrd & Hx & Hr' & He). rewrite Hrd in *. cbn [fst] in *.
    assert (Hxl : x <= length (rest r)) by lia. rewrite length_firstn, Nat.min_l by auto.
    split; [exact HP1 |]. cbn [lim_N lim_R]. split; [lia |]. exists (j + x). rewrite Hrj in *.
    rewrite length_skipn in Hxl. splits; [lia | lia |]. rewrite Hr', skipn_skipn. f_equal. lia. }
  assert (Hsz : size <> 0) by lia.
  destruct (Copy_spec (R := LimitedReader R) inv Hstep size Hsize (S (S (Z.to_nat n))) (LimitReader src n) dst 0 Hinv0)
    as (l' & dst' & -> & (HPl & HNl & j & Hj & Hjl & Hrj) & Hr' & Hw').
  { cbn. rewrite length_firstn. lia. }
  cbn [rest limited_good lim_R lim_N bind Nat.add] in *. fold l in Hw' |- *. rewrite length_firstn in *. rewrite Hrj in Hr'.
  exists (lim_R l'), dst'.
  assert (Hend : Z.to_nat n <= length l -> j = Z.to_nat n).
  { intros Hle. assert (E := f_equal (@length _) Hr'). rewrite length_firstn, length_skipn in E. cbn in E. lia. }
  splits; auto.
  - destruct (Nat.leb_spec (Z.to_nat n) (length l)).
    + rewrite Nat.min_l by auto. destruct (Z.eqb_spec (Z.of_nat (Z.to_nat n)) n); [auto | lia].
    + rewrite Nat.min_r by lia. destruct (Z.eqb_spec (Z.of_nat (length l)) n); [lia |].
      destruct (Z.ltb_spec (Z.of_nat (length l)) n); [auto | lia].
  - intros Hle. now rewrite Hrj, (Hend Hle).
Qed.
End Copy.
