(* ===== verification/Codec.v ===== *)
(** * The encoder (src/reedsolomon/reedsolomon.go)

    The build without generated code (galois_gen_none.go): [hasCodeGen] and
    [canGFNI] answer no. *)
From Stdlib Require Import List Arith NArith ZArith Lia Bool.
From coqutil Require Import Datatypes.RecordSetters.
From S2P Require Import Prelude Galois RSTypes Matrix EncodingMatrix InversionTree Options LeopardTypes IO Coding.
Import ListNotations.

Record reedSolomon : Type := {
  dataShards : nat;
  parityShards : nat;
  totalShards : nat;
  rs_m : matrix;
  rs_tree : inversionTree;
  rs_parity : list (list N);
  rs_o : options
}.

(** What [New] returns: this encoder, or one of the two of leopard*.go *)
Inductive Encoder : Type :=
| RS (r : reedSolomon)
| FF16 (r : leopardFF16)
| FF8 (r : leopardFF8).

(** ** Construction *)

(** The matrix given by [WithCustomMatrix]. *)
Definition custom_matrix (d p : nat) (cm : matrix) : result matrix :=
  if length cm <? p then Err errCustomRows
  else
    m <- for_loop 0 d (fun i m =>
      row <- upd (repeat 0%N d) i 1%N ;; upd m i row) (repeat [] (d + p)) ;;
    for_loop 0 (length cm) (fun k m =>
      row <- idx cm k ;;
      if length row <? d then Err errCustomCols else upd m (d + k) (firstn d row)) m.

Definition coding_matrix (o : options) (d p : nat) : result matrix :=
  match customMatrix o with
  | Some cm => custom_matrix d p cm
  | None =>
      if fastOneParity o && (p =? 1) then buildXorMatrix d (d + p)
      else if useCauchy o then buildMatrixCauchy d (d + p)
      else if usePAR1Matrix o then buildMatrixPAR1 d (d + p)
      else if useJerasureMatrix o then buildMatrixJerasure d (d + p)
      else buildMatrix d (d + p)
  end.

(** The processing parameters [New] derives from the caches and processors. *)
Definition tune_perRound (cpu : machine) (p : Z) (o : options) : options :=
  let o := { o with perRound := cache_L2 cpu } in
  let o := if (perRound o <? 128 * 1024)%Z then { o with perRound := (128 * 1024)%Z } else o in
  let divide := (p + 1)%Z in
  let o := if ((ThreadsPerCore cpu >? 1) && (maxGoroutines o >? PhysicalCores cpu))%Z
           then { o with perRound := Z.quot (perRound o) (ThreadsPerCore cpu) } else o in
  let o := { o with perRound := Z.quot (perRound o) divide } in
  let o := { o with perRound := (Z.quot (perRound o + 63) 64 * 64)%Z } in
  if (perRound o <? 1024)%Z then { o with perRound := 1024%Z } else o.

Definition tune_minSplitSize (cpu : machine) (p : Z) (o : options) : options :=
  if (minSplitSize o <=? 0)%Z then
    let cacheSize := cache_L1D cpu in
    let cacheSize := if (cacheSize <=? 0)%Z then (32 * 1024)%Z else cacheSize in
    let o := { o with minSplitSize := Z.quot cacheSize (p + 1) } in
    if (minSplitSize o <? 1024)%Z then { o with minSplitSize := 1024%Z } else o
  else o.

Definition tune_goroutines (cpu : machine) (o : options) : options :=
  if (shardSize o >? 0)%Z then
    let p := GOMAXPROCS cpu in
    if ((p =? 1) || (shardSize o <=? minSplitSize o * 2))%Z then { o with maxGoroutines := 1%Z }
    else
      let g := Z.quot (shardSize o) (perRound o) in
      let '(g, o) := if ((g <? p * 2) && (perRound o >? minSplitSize o * 2))%Z
                     then ((p * 2)%Z, { o with perRound := Z.quot (perRound o) 2 }) else (g, o) in
      let g := (g + (p - 1))%Z in
      let g := (g - Z.rem g p)%Z in
      { o with maxGoroutines := g }
  else o.

Definition New (cpu : machine) (dataShards parityShards : Z) (opts : list Option) : result Encoder :=
  let o := apply_options cpu opts in
  let totShards := (dataShards + parityShards)%Z in
  if (match withLeopard o with leopardGF16 => true | _ => false end && (parityShards >? 0)%Z)
     || (totShards >? 256)%Z
  then r <- newFF16 dataShards parityShards o ;; Ret (FF16 r)
  else if match withLeopard o with leopardAlways => true | _ => false end && (parityShards >? 0)%Z
  then r <- newFF8 dataShards parityShards o ;; Ret (FF8 r)
  else if (totShards >? 256)%Z then Err ErrMaxShardNum
  else if ((dataShards <=? 0) || (parityShards <? 0))%Z then Err ErrInvShardNum
  else
    let d := Z.to_nat dataShards in
    let p := Z.to_nat parityShards in
    if (parityShards =? 0)%Z then
      Ret (RS {| dataShards := d; parityShards := p; totalShards := d + p;
                 rs_m := []; rs_tree := None; rs_parity := []; rs_o := o |})
    else
      m <- coding_matrix o d p ;;
      let o := tune_goroutines cpu (tune_minSplitSize cpu parityShards (tune_perRound cpu parityShards o)) in
      tree <- (if inversionCache o then t <- newInversionTree d p ;; Ret (Some t) else Ret None) ;;
      parity <- mapM (fun i => idx m (d + i)) (seq 0 p) ;;
      Ret (RS {| dataShards := d; parityShards := p; totalShards := d + p;
                 rs_m := m; rs_tree := tree; rs_parity := parity; rs_o := o |}).

(** ** Checks *)

(** The first non-zero size, 0 if all shards are empty. *)
Fixpoint shardSize_ (shards : list slice) : nat :=
  match shards with
  | [] => 0
  | shard :: shards => if negb (len shard =? 0) then len shard else shardSize_ shards
  end.

Definition checkShards (shards : list slice) (nilok : bool) : result unit :=
  let size := shardSize_ shards in
  if size =? 0 then Err ErrShardNoData
  else if existsb (fun shard => negb (len shard =? size) && (negb (len shard =? 0) || negb nilok)) shards
  then Err ErrShardSize
  else Ret tt.

Section Operations.
Context (r : reedSolomon).

Definition code (matrixRows : list (list N)) (inputs outputs : list slice) (byteCount : nat) : result (list slice) :=
  codeSomeShards (maxGoroutines (rs_o r)) (minSplitSize (rs_o r)) (perRound (rs_o r))
    matrixRows inputs outputs byteCount.

(** ** Encode and Verify *)

Definition Encode (shards : list slice) : result (list slice) :=
  if negb (length shards =? totalShards r) then Err ErrTooFewShards
  else
    _ <- checkShards shards false ;;
    let output := skipn (dataShards r) shards in
    shard0 <- idx shards 0 ;;
    out <- code (rs_parity r) (firstn (dataShards r) shards) (firstn (parityShards r) output) (len shard0) ;;
    Ret (firstn (dataShards r) shards ++ out ++ skipn (parityShards r) output).

(** [bytes.Equal] of every computed shard and the given one *)
Fixpoint all_equal (outputs toCheck : list slice) : result bool :=
  match outputs, toCheck with
  | [], _ => Ret true
  | calc :: outputs, check :: toCheck =>
      if list_eq_dec N.eq_dec (bytes_of calc) (bytes_of check) then all_equal outputs toCheck else Ret false
  | _ :: _, [] => Panic
  end.

Definition checkSomeShards (matrixRows : list (list N)) (inputs toCheck : list slice) (byteCount : nat) : result bool :=
  if length toCheck =? 0 then Ret true
  else
    let outputs := AllocAligned (length toCheck) byteCount in
    outputs <- code matrixRows inputs outputs byteCount ;;
    all_equal outputs toCheck.

Definition Verify (shards : list slice) : result bool :=
  if negb (length shards =? totalShards r) then Err ErrTooFewShards
  else
    _ <- checkShards shards false ;;
    let toCheck := skipn (dataShards r) shards in
    shard0 <- idx shards 0 ;;
    checkSomeShards (rs_parity r) (firstn (dataShards r) shards) (firstn (parityShards r) toCheck) (len shard0).

(** ** EncodeIdx and Update *)

(** [for iRow := 0; iRow < rows; iRow++ { galMulSliceXor(matrixRows[iRow][c], in,
    outputs[iRow][lo:lo+len(in)]) }] *)
Definition xor_rows (matrixRows : list (list N)) (c rows : nat) (inn : list N) (lo : nat)
    (outputs : list slice) : result (list slice) :=
  for_loop 0 rows (fun iRow outputs =>
    row <- idx matrixRows iRow ;;
    coef <- idx row c ;;
    output <- idx outputs iRow ;;
    out <- slice_range output lo (lo + length inn) ;;
    res <- galMulSliceXor coef inn out ;;
    upd outputs iRow (write_range output lo res)) outputs.

Definition EncodeIdx (dataShard : slice) (idx_ : Z) (parity : list slice) : result (list slice) :=
  if negb (length parity =? parityShards r) then Err ErrTooFewShards
  else if length parity =? 0 then Ret parity
  else if ((idx_ <? 0) || (idx_ >=? Z.of_nat (dataShards r)))%Z then Err ErrInvShardNum
  else
    _ <- checkShards parity false ;;
    parity0 <- idx parity 0 ;;
    if negb (len parity0 =? len dataShard) then Err ErrShardSize
    else
      let per := Z.to_nat (perRound (rs_o r)) in
      bs <- blocks (S (len dataShard)) per (len dataShard) 0 (Nat.min per (len dataShard)) ;;
      fold_left (fun parity '(start, stop) =>
        parity <- parity ;;
        inn <- slice_range dataShard start stop ;;
        xor_rows (rs_parity r) (Z.to_nat idx_) (parityShards r) inn start parity) bs (Ret parity).

(** One data shard of [updateParityShards] on the bytes from [lo] on, all of
    them ([None]) or up to [hi]. *)
Definition update_shard (matrixRows : list (list N)) (newinputs : list slice) (outputCount c lo : nat)
    (hi : option nat) (st : list slice * list slice) : result (list slice * list slice) :=
  let '(oldinputs, outputs) := st in
  inn <- idx newinputs c ;;
  if is_nil inn then Ret st
  else
    oldin <- idx oldinputs c ;;
    let hi_of s := match hi with None => len s | Some hi => hi end in
    i <- slice_range inn lo (hi_of inn) ;;
    o <- slice_range oldin lo (hi_of oldin) ;;
    x <- sliceXorGo i o ;;
    let oldin := write_range oldin lo x in
    oldinputs <- upd oldinputs c oldin ;;
    o <- slice_range oldin lo (hi_of oldin) ;;
    outputs <- xor_rows matrixRows c outputCount o lo outputs ;;
    Ret (oldinputs, outputs).

(** The byte ranges of the goroutines of [updateParityShardsP]. *)
Fixpoint update_ranges (fuel byteCount do_ start : nat) : result (list (nat * nat)) :=
  match fuel with
  | O => Timeout
  | S fuel =>
      if start <? byteCount then
        let do_ := if byteCount <? start + do_ then byteCount - start else do_ in
        rest <- update_ranges fuel byteCount do_ (start + do_) ;;
        Ret ((start, start + do_) :: rest)
      else Ret []
  end.

(** The goroutines work on disjoint bytes; they run one after the other here. *)
Definition updateParityShardsP (matrixRows : list (list N)) (oldinputs newinputs outputs : list slice)
    (outputCount byteCount : nat) : result (list slice * list slice) :=
  let gor := maxGoroutines (rs_o r) in
  if (gor =? 0)%Z then Panic
  else
    let do_ := Z.quot (Z.of_nat byteCount) gor in
    let do_ := if (do_ <? minSplitSize (rs_o r))%Z then minSplitSize (rs_o r) else do_ in
    ranges <- update_ranges (S byteCount) byteCount (Z.to_nat do_) 0 ;;
    fold_left (fun st '(start, stop) =>
      st <- st ;;
      for_loop 0 (dataShards r) (fun c st =>
        update_shard matrixRows newinputs outputCount c start (Some stop) st) st) ranges (Ret (oldinputs, outputs)).

Definition updateParityShards (matrixRows : list (list N)) (oldinputs newinputs outputs : list slice)
    (outputCount byteCount : nat) : result (list slice * list slice) :=
  if length outputs =? 0 then Ret (oldinputs, outputs)
  else if ((maxGoroutines (rs_o r) >? 1) && (Z.of_nat byteCount >? minSplitSize (rs_o r)))%Z
  then updateParityShardsP matrixRows oldinputs newinputs outputs outputCount byteCount
  else
    for_loop 0 (dataShards r) (fun c st =>
      update_shard matrixRows newinputs outputCount c 0 None st) (oldinputs, outputs).

Definition Update (shards newDatashards : list slice) : result (list slice) :=
  if negb (length shards =? totalShards r) then Err ErrTooFewShards
  else if negb (length newDatashards =? dataShards r) then Err ErrTooFewShards
  else
    _ <- checkShards shards true ;;
    _ <- checkShards newDatashards true ;;
    _ <- for_loop 0 (length newDatashards) (fun i _ =>
      new <- idx newDatashards i ;;
      if is_nil new then Ret tt
      else old <- idx shards i ;; if is_nil old then Err ErrInvalidInput else Ret tt) tt ;;
    if existsb is_nil (skipn (dataShards r) shards) then Err ErrInvalidInput
    else
      let size := shardSize_ shards in
      let output := skipn (dataShards r) shards in
      '(old, output) <- updateParityShards (rs_parity r) (firstn (dataShards r) shards)
         (firstn (dataShards r) newDatashards) output (parityShards r) size ;;
      Ret (old ++ output).

(** ** Reconstruction *)

Definition present (shard : slice) : bool := negb (len shard =? 0).

(** [required != nil && required\[i\]] *)
Definition is_required (required : option (list bool)) (i : nat) : result bool :=
  match required with None => Ret false | Some q => idx q i end.

(** [required == nil || required\[i\]] *)
Definition is_wanted (required : option (list bool)) (i : nat) : result bool :=
  match required with None => Ret true | Some q => idx q i end.

(** The shards present, the data shards present, the required ones missing. *)
Definition count_present (shards : list slice) (required : option (list bool)) : result (nat * nat * nat) :=
  for_loop 0 (totalShards r) (fun i '(numberPresent, dataPresent, missingRequired) =>
    shard <- idx shards i ;;
    if present shard then
      Ret (S numberPresent, if i <? dataShards r then S dataPresent else dataPresent, missingRequired)
    else
      req <- is_required required i ;;
      Ret (numberPresent, dataPresent, if req : bool then S missingRequired else missingRequired)) (0, 0, 0).

(** The first [want] shards present with their indices, and the indices of the
    missing ones before the last of them. *)
Fixpoint pick (shards : list slice) (matrixRow want : nat) : list slice * list nat * list nat :=
  match shards, want with
  | shard :: shards, S want' =>
      if present shard then
        let '(sub, valid, invalid) := pick shards (S matrixRow) want' in
        (shard :: sub, matrixRow :: valid, invalid)
      else
        let '(sub, valid, invalid) := pick shards (S matrixRow) want in
        (sub, valid, matrixRow :: invalid)
  | _, _ => ([], [], [])
  end.

(** The rows of the encoding matrix for the valid indices. *)
Definition sub_matrix (validIndices : list nat) : result matrix :=
  sub <- drop_error (newMatrix (Z.of_nat (dataShards r)) (Z.of_nat (dataShards r))) ;;
  for_loop 0 (length validIndices) (fun row sub =>
    valid <- idx validIndices row ;;
    for_loop 0 (dataShards r) (fun c sub => v <- get (rs_m r) valid c ;; put sub row c v) sub) sub.

(** The inverted matrix, from the cache or computed and then cached. *)
Definition decode_matrix (validIndices invalidIndices : list nat) : result (matrix * inversionTree) :=
  cached <- GetInvertedMatrix (rs_tree r) invalidIndices ;;
  match cached with
  | [] =>
      sub <- sub_matrix validIndices ;;
      inverted <- Invert sub ;;
      tree <- InsertInvertedMatrix (rs_tree r) invalidIndices inverted (totalShards r) ;;
      Ret (inverted, tree)
  | _ => Ret (cached, rs_tree r)
  end.

(** Give memory to the wanted missing shards of [lo, hi): their indices (the
    outputs) and their matrix rows. *)
Definition prepare (lo hi size : nat) (required : option (list bool)) (row_of : nat -> result (list N))
    (shards : list slice) : result (list slice * list nat * list (list N)) :=
  for_loop lo hi (fun iShard '(shards, outputs, matrixRows) =>
    shard <- idx shards iShard ;;
    want <- (if len shard =? 0 then is_wanted required iShard else Ret false) ;;
    if want : bool then
      shard <- (if size <=? cap shard then reslice shard size else idx (AllocAligned 1 size) 0) ;;
      shards <- upd shards iShard shard ;;
      if length outputs <? parityShards r then
        row <- row_of iShard ;; Ret (shards, outputs ++ [iShard], matrixRows ++ [row])
      else Panic
    else Ret (shards, outputs, matrixRows)) (shards, [], []).

(** [codeSomeShards] with outputs that are elements of [shards]. *)
Definition code_into (matrixRows : list (list N)) (inputs shards : list slice) (outputs : list nat)
    (byteCount : nat) : result (list slice) :=
  outs <- mapM (idx shards) outputs ;;
  outs <- code matrixRows inputs outs byteCount ;;
  fold_left (fun shards '(i, s) => shards <- shards ;; upd shards i s) (combine outputs outs) (Ret shards).

Definition with_tree (tree : inversionTree) : reedSolomon :=
  {| dataShards := dataShards r; parityShards := parityShards r; totalShards := totalShards r;
     rs_m := rs_m r; rs_tree := tree; rs_parity := rs_parity r; rs_o := rs_o r |}.

(** The encoder is returned with its cache. *)
Definition reconstruct (shards : list slice) (dataOnly : bool) (required : option (list bool)) :
    result (reedSolomon * list slice) :=
  if negb (length shards =? totalShards r)
     || match required with Some q => length q <? dataShards r | None => false end
  then Err ErrTooFewShards
  else
    _ <- checkShards shards true ;;
    let size := shardSize_ shards in
    '(numberPresent, dataPresent, missingRequired) <- count_present shards required ;;
    if (numberPresent =? totalShards r) || (dataOnly && (dataPresent =? dataShards r))
       || (match required with Some _ => true | None => false end && (missingRequired =? 0))
    then Ret (r, shards)
    else if numberPresent <? dataShards r then Err ErrTooFewShards
    else
      let '(subShards, validIndices, invalidIndices) := pick shards 0 (dataShards r) in
      '(dataDecodeMatrix, tree) <- decode_matrix validIndices invalidIndices ;;
      '(shards, outputs, matrixRows) <- prepare 0 (dataShards r) size required (idx dataDecodeMatrix) shards ;;
      shards <- code_into matrixRows subShards shards outputs size ;;
      if dataOnly then Ret (with_tree tree, shards)
      else
        '(shards, outputs, matrixRows) <- prepare (dataShards r) (totalShards r) size required
           (fun iShard => idx (rs_parity r) (iShard - dataShards r)) shards ;;
        shards <- code_into matrixRows (firstn (dataShards r) shards) shards outputs size ;;
        Ret (with_tree tree, shards).

Definition Reconstruct (shards : list slice) := reconstruct shards false None.
Definition ReconstructData (shards : list slice) := reconstruct shards true None.
Definition ReconstructSome (shards : list slice) (required : list bool) :=
  if length required =? totalShards r then reconstruct shards false (Some required)
  else reconstruct shards true (Some required).

(** ** Split and Join *)

(** [copyFrom = copyFrom\[copy(padding\[i\], copyFrom):\]] over the padding *)
Fixpoint copy_into (padding : list slice) (copyFrom : list N) : list slice :=
  match padding with
  | [] => []
  | p :: padding' =>
      if length copyFrom =? 0 then padding
      else
        let n := Nat.min (len p) (length copyFrom) in
        write_range p 0 (firstn n copyFrom) :: copy_into padding' (skipn n copyFrom)
  end.

(** The full shards cut from [data], at most [n]. *)
Fixpoint cut (n perShard : nat) (data : list N) : list slice :=
  match n with
  | O => []
  | S n => if perShard <=? length data then Sl (firstn perShard data) [] :: cut n perShard (skipn perShard data)
           else []
  end.

(** [dst\[i+j\] = padding\[0\]; padding = padding\[1:\]] for the rest of [dst] *)
Definition take_padding (n : nat) (padding : list slice) : result (list slice) :=
  if length padding <? n then Panic else Ret (firstn n padding).

Definition Split (data : slice) : result (list slice) :=
  if len data =? 0 then Err ErrShortData
  else if totalShards r =? 1 then Ret [data]
  else if dataShards r =? 0 then Panic
  else
    let dataLen := len data in
    let perShard := (dataLen + dataShards r - 1) / dataShards r in
    let needTotal := totalShards r * perShard in
    data <- (if dataLen <? cap data then
               data <- reslice data (if needTotal <? cap data then needTotal else cap data) ;;
               Ret (write_range data dataLen (repeat 0%N (len data - dataLen)))
             else Ret data) ;;
    let padding :=
      if len data <? needTotal then
        let fullShards := len data / perShard in
        let padding := AllocAligned (totalShards r - fullShards) perShard in
        if perShard * fullShards <? dataLen then
          copy_into padding (sub_list (bytes_of data) (perShard * fullShards) dataLen)
        else padding
      else [] in
    let dst := cut (totalShards r) perShard (bytes_of data) in
    rest <- take_padding (totalShards r - length dst) padding ;;
    Ret (dst ++ rest).

(** [for _, shard := range shards { ... if size >= outSize { break } }] *)
Fixpoint enough (shards : list slice) (size outSize : Z) : result Z :=
  match shards with
  | [] => Ret size
  | shard :: shards =>
      if is_nil shard then Err ErrReconstructRequired
      else
        let size := (size + Z.of_nat (len shard))%Z in
        if (size >=? outSize)%Z then Ret size else enough shards size outSize
  end.

(** Copy data to [dst]; the destination is returned with the error. *)
Fixpoint copy_shards {W} `{Writer W} (dst : W) (shards : list slice) (write : Z) : outcome Empty_set (W * option rsError) :=
  match shards with
  | [] => Ret (dst, None)
  | shard :: shards =>
      if (write <? Z.of_nat (len shard))%Z then
        if (write <? 0)%Z then Panic
        else let '(dst, _, err) := write_to dst (firstn (Z.to_nat write) (bytes_of shard)) in Ret (dst, err)
      else
        let '(dst, n, err) := write_to dst (bytes_of shard) in
        match err with
        | Some e => Ret (dst, Some e)
        | None => copy_shards dst shards (write - Z.of_nat n)
        end
  end.

Definition Join {W} `{Writer W} (dst : W) (shards : list slice) (outSize : Z) : outcome Empty_set (W * option rsError) :=
  if length shards <? dataShards r then Ret (dst, Some ErrTooFewShards)
  else
    let shards := firstn (dataShards r) shards in
    match enough shards 0 outSize with
    | Ret size =>
        if (size <? outSize)%Z then Ret (dst, Some ErrShortData) else copy_shards dst shards outSize
    | Err e => Ret (dst, Some e)
    | Panic => Panic
    | Timeout => Timeout
    end.
End Operations.
