(* ===== verification/LeopardFFT.v ===== *)
(** * The transforms of the Leopard encoders (src/reedsolomon/leopard.go, leopard8.go)

    The two files have the same transforms for elements of 16 and of 8 bits.  Here
    a buffer of the work area is of any type [T]; [sliceXor] and [refMulAdd] are the
    two kernels on buffers, and [modulus] is the logarithm that stands for 0.
    [fft] is the transform as a recursive function on vectors. *)
From Stdlib Require Import List Arith NArith ZArith Lia Bool.
From S2P Require Import Prelude Galois RSTypes Matrix.
Import ListNotations.

(** [for r := 0; r < hi; r += step { st = body(r, st) }] *)
Definition for_step {E St} (hi step : nat) (body : nat -> St -> outcome E St) (st : St) : outcome E St :=
  for_loop 0 ((hi + step - 1) / step) (fun k => body (k * step)) st.

(** [ceilPow2] of a number above 0 *)
Definition ceilPow2 (n : nat) : nat := 2 ^ N.size_nat (N.of_nat (n - 1)).

Section Transforms.
Context {T : Type} (sliceXor : T -> T -> result T) (refMulAdd : T -> T -> N -> result T) (modulus : N).

(** *** Butterflies *)

(** [sliceXor(work[i], work[j])], which changes [work[j]] *)
Definition xor_at (i j : nat) (work : list T) : result (list T) :=
  x <- idx work i ;; y <- idx work j ;; y <- sliceXor x y ;; upd work j y.

(** [x ^= y * log_m; y ^= x] *)
Definition fftDIT2 (x y : T) (log_m : N) : result (T * T) :=
  x <- refMulAdd x y log_m ;; y <- sliceXor x y ;; Ret (x, y).

(** [y ^= x; x ^= y * log_m] *)
Definition ifftDIT2 (x y : T) (log_m : N) : result (T * T) :=
  y <- sliceXor x y ;; x <- refMulAdd x y log_m ;; Ret (x, y).

Definition at2 (f : T -> T -> N -> result (T * T)) (i j : nat) (log_m : N) (work : list T) : result (list T) :=
  x <- idx work i ;; y <- idx work j ;; '(x, y) <- f x y log_m ;; work <- upd work i x ;; upd work j y.

(** A multiplication by 0 is left out. *)
Definition butterfly (f : T -> T -> N -> result (T * T)) (i j : nat) (log_m : N) (work : list T) : result (list T) :=
  if (log_m =? modulus)%N then xor_at i j work else at2 f i j log_m work.

Definition fftDIT4Ref (i dist : nat) (log_m01 log_m23 log_m02 : N) (work : list T) : result (list T) :=
  work <- butterfly fftDIT2 i (i + dist * 2) log_m02 work ;;
  work <- butterfly fftDIT2 (i + dist) (i + dist * 3) log_m02 work ;;
  work <- butterfly fftDIT2 i (i + dist) log_m01 work ;;
  butterfly fftDIT2 (i + dist * 2) (i + dist * 3) log_m23 work.

Definition ifftDIT4Ref (i dist : nat) (log_m01 log_m23 log_m02 : N) (work : list T) : result (list T) :=
  work <- butterfly ifftDIT2 i (i + dist) log_m01 work ;;
  work <- butterfly ifftDIT2 (i + dist * 2) (i + dist * 3) log_m23 work ;;
  work <- butterfly ifftDIT2 i (i + dist * 2) log_m02 work ;;
  butterfly ifftDIT2 (i + dist) (i + dist * 3) log_m02 work.

(** [slicesXor(work[a:a+n], work[b:b+n])], which changes the first range *)
Definition slicesXor (a b n : nat) (work : list T) : result (list T) :=
  for_loop 0 n (fun i => xor_at (b + i) (a + i)) work.

(** *** The inverse transform *)

(** One pass over all blocks of four times [dist]; [off] is where the table is
    read: the encoder's [skewLUT[iend]] is one further than the decoder's
    [skewLUT[iend-1]]. *)
Definition ifft_pass (off : nat) (skewLUT : list N) (mtrunc dist : nat) (work : list T) : result (list T) :=
  for_step mtrunc (dist * 4) (fun r work =>
    let iend := r + dist in
    log_m01 <- idx skewLUT (iend + off - 1) ;;
    log_m02 <- idx skewLUT (iend + dist + off - 1) ;;
    log_m23 <- idx skewLUT (iend + dist * 2 + off - 1) ;;
    for_loop r iend (fun i => ifftDIT4Ref i dist log_m01 log_m23 log_m02) work) work.

(** The passes, and the layer that is left over *)
Definition ifft_layers (off mtrunc m : nat) (skewLUT : list N) (work : list T) : result (list T) :=
  '(dist, work) <- while_loop (S (Nat.log2 m)) (fun '(dist, _) => dist * 4 <=? m)
    (fun '(dist, work) => work <- ifft_pass off skewLUT mtrunc dist work ;; Ret (dist * 4, work)) (1, work) ;;
  if dist <? m then
    if negb (dist * 2 =? m) then Panic
    else
      log_m <- idx skewLUT (dist + off - 1) ;;
      if (log_m =? modulus)%N then slicesXor dist 0 dist work
      else for_loop 0 dist (fun i => at2 ifftDIT2 i (i + dist) log_m) work
  else Ret work.

Definition ifftDITDecoder (mtrunc : nat) (work : list T) (m : nat) (skewLUT : list N) : result (list T) :=
  ifft_layers 0 mtrunc m skewLUT work.

(** *** The transform *)

(** [needed] is asked at every block with the logarithm of its size; [fftDIT]
    itself asks nothing. *)
Definition fft_layers (needed : nat -> nat -> result bool) (work : list T) (mtrunc m : nat) (skewLUT : list N) : result (list T) :=
  '(dist4, work) <- while_loop (S (Nat.log2 m)) (fun '(dist4, _) => negb (dist4 / 4 =? 0))
    (fun '(dist4, work) =>
       let dist := dist4 / 4 in
       work <- for_step mtrunc dist4 (fun r work =>
         need <- needed (Nat.log2 dist4) r ;;
         if negb need then Ret work
         else
           let iend := r + dist in
           log_m01 <- idx skewLUT (iend - 1) ;;
           log_m02 <- idx skewLUT (iend + dist - 1) ;;
           log_m23 <- idx skewLUT (iend + dist * 2 - 1) ;;
           for_loop r iend (fun i => fftDIT4Ref i dist log_m01 log_m23 log_m02) work) work ;;
       Ret (dist, work)) (m, work) ;;
  if dist4 =? 2 then
    for_step mtrunc 2 (fun r work =>
      need <- needed 1 r ;;
      if negb need then Ret work
      else
        log_m <- idx skewLUT (r + 1 - 1) ;;
        butterfly fftDIT2 r (r + 1) log_m work) work
  else Ret work.

Definition fftDIT (work : list T) (mtrunc m : nat) (skewLUT : list N) : result (list T) :=
  fft_layers (fun _ _ => Ret true) work mtrunc m skewLUT.

(** *** The formal derivative of the decoder *)
Definition formal_derivative (n : nat) (work : list T) : result (list T) :=
  for_loop 1 n (fun i =>
    let width := Nat.shiftr (Nat.lxor i (i - 1) + 1) 1 in
    slicesXor (i - width) i width) work.

(** *** The inverse transform of the encoder *)

(** [data] is copied to the buffers from [w] on, where the passes work; with
    [xorRes] the result is added to the first [m] buffers. *)
Definition ifftDITEncoder (copy : T -> T -> T) (memclr : T -> T) (data : list T) (mtrunc w : nat) (xorRes : bool) (m : nat)
    (skewLUT : list N) (work : list T) : result (list T) :=
  work <- for_loop 0 mtrunc (fun i work => x <- idx data i ;; y <- idx work (w + i) ;; upd work (w + i) (copy y x)) work ;;
  work <- for_loop mtrunc m (fun i work => x <- idx work (w + i) ;; upd work (w + i) (memclr x)) work ;;
  part <- ifft_layers 1 mtrunc m skewLUT (skipn w work) ;;
  let work := firstn w work ++ part in
  if xorRes then slicesXor 0 w m work else Ret work.
End Transforms.
