(* ===== verification/Leopard8.v ===== *)
(** * The 8-bit Leopard encoder (src/reedsolomon/leopard8.go)

    The build without assembly (galois_noasm.go).  The buffers of the work area
    come from a pool and hold anything. *)
From Stdlib Require Import List Arith NArith ZArith Lia Bool.
From S2P Require Import Prelude Galois RSTypes Matrix Options IO LeopardTypes LeopardFFT Coding Codec.
Import ListNotations.
Local Open Scope N_scope.

Definition bitwidth8 : nat := 8.
Definition order8 : nat := 256.
Definition modulus8 : N := 255.
Definition polynomial8 : N := 0x11D.
Definition workSize8 : nat := 32 * 1024.

(** ** Arithmetic of logarithms *)

(** [ffe8(sum + sum>>8)] *)
Definition addMod8 (a b : N) : N := let sum := a + b in (sum + N.shiftr sum 8) mod 256.

(** The difference wraps around in 64 bits. *)
Definition subMod8 (a b : N) : N := let dif := (a + 2 ^ 64 - b) mod 2 ^ 64 in (dif + N.shiftr dif 8) mod 256.

(** [{a, b} = {a + b, a - b}] *)
Definition fwht2alt8 (a b : N) : N * N := (addMod8 a b, subMod8 a b).

Definition mulLog8_with (logLUT8 expLUT8 : list N) (a log_b : N) : N :=
  if a =? 0 then 0 else at_byte expLUT8 (addMod8 (at_byte logLUT8 a) log_b).

(** *** The Walsh-Hadamard transform *)

(** Four entries at distance [dist] *)
Definition fwht48 (off dist : nat) (data : list N) : result (list N) :=
  t0 <- idx data off ;; t1 <- idx data (off + dist) ;; t2 <- idx data (off + dist * 2) ;; t3 <- idx data (off + dist * 3) ;;
  let '(t0, t1) := fwht2alt8 t0 t1 in
  let '(t2, t3) := fwht2alt8 t2 t3 in
  let '(t0, t2) := fwht2alt8 t0 t2 in
  let '(t1, t3) := fwht2alt8 t1 t3 in
  data <- upd data off t0 ;; data <- upd data (off + dist) t1 ;;
  data <- upd data (off + dist * 2) t2 ;; upd data (off + dist * 3) t3.

Definition fwht8 (data : list N) (mtrunc : nat) : result (list N) :=
  '(_, data) <- while_loop (S bitwidth8) (fun '(dist, _) => (dist * 4 <=? order8)%nat)
    (fun '(dist, data) =>
       data <- for_step mtrunc (dist * 4) (fun r data => for_loop r (r + dist) (fun off => fwht48 off dist) data) data ;;
       Ret ((dist * 4)%nat, data)) (1%nat, data) ;;
  Ret data.

(** ** Tables *)

Definition cantorBasis : list N := [1; 214; 152; 146; 86; 200; 88; 230].

(** [logLUT8] and [expLUT8] *)
Definition initLUTs8 : result (list N * list N) :=
  let expLUT8 := repeat 0 order8 in
  let logLUT8 := repeat 0 order8 in
  '(state, expLUT8) <- for_loop 0 255 (fun i '(state, expLUT8) =>
    expLUT8 <- upd expLUT8 (N.to_nat state) (N.of_nat i) ;;
    let state := N.shiftl state 1 in
    let state := if 256 <=? state then N.lxor state polynomial8 else state in
    Ret (state, expLUT8)) (1, expLUT8) ;;
  expLUT8 <- upd expLUT8 0 modulus8 ;;
  logLUT8 <- upd logLUT8 0 0 ;;
  logLUT8 <- for_loop 0 bitwidth8 (fun i logLUT8 =>
    basis <- idx cantorBasis i ;;
    let width := Nat.shiftl 1 i in
    for_loop 0 width (fun j logLUT8 => x <- idx logLUT8 j ;; upd logLUT8 (j + width) (N.lxor x basis)) logLUT8) logLUT8 ;;
  logLUT8 <- for_loop 0 order8 (fun i logLUT8 =>
    x <- idx logLUT8 i ;; y <- idx expLUT8 (N.to_nat x) ;; upd logLUT8 i y) logLUT8 ;;
  expLUT8 <- for_loop 0 order8 (fun i expLUT8 => x <- idx logLUT8 i ;; upd expLUT8 (N.to_nat x) (N.of_nat i)) expLUT8 ;;
  e0 <- idx expLUT8 0 ;;
  expLUT8 <- upd expLUT8 255 e0 ;;
  Ret (logLUT8, expLUT8).

Definition value {A} (o : result A) (d : A) : A := match o with Ret a => a | _ => d end.

Definition logLUT8 : list N := Eval vm_compute in fst (value initLUTs8 ([], [])).
Definition expLUT8 : list N := Eval vm_compute in snd (value initLUTs8 ([], [])).

(** [a * Log(b)] *)
Definition mulLog8 (a log_b : N) : N := mulLog8_with logLUT8 expLUT8 a log_b.

(** [for j := lo; j < hi; j += step] *)
Definition for_from {E St} (lo hi step : nat) (body : nat -> St -> outcome E St) (st : St) : outcome E St :=
  for_step (hi - lo) step (fun j => body (lo + j)%nat) st.

(** [fftSkew8] and [logWalsh8] *)
Definition initFFTSkew8 : result (list N * list N) :=
  temp <- for_loop 1 bitwidth8 (fun i temp => upd temp (i - 1) (N.shiftl 1 (N.of_nat i))) (repeat 0 (bitwidth8 - 1)) ;;
  '(temp, fftSkew8) <- for_loop 0 (bitwidth8 - 1) (fun m '(temp, fftSkew8) =>
    let step := Nat.shiftl 1 (m + 1) in
    fftSkew8 <- upd fftSkew8 (Nat.shiftl 1 m - 1) 0 ;;
    fftSkew8 <- for_loop m (bitwidth8 - 1) (fun i fftSkew8 =>
      let s := Nat.shiftl 1 (i + 1) in
      for_from (Nat.shiftl 1 m - 1) s step (fun j fftSkew8 =>
        x <- idx fftSkew8 j ;; t <- idx temp i ;; upd fftSkew8 (j + s) (N.lxor x t)) fftSkew8) fftSkew8 ;;
    t <- idx temp m ;;
    temp <- upd temp m (modulus8 - at_byte logLUT8 (mulLog8 t (at_byte logLUT8 (N.lxor t 1)))) ;;
    temp <- for_loop (m + 1) (bitwidth8 - 1) (fun i temp =>
      ti <- idx temp i ;; tm <- idx temp m ;;
      let sum := addMod8 (at_byte logLUT8 (N.lxor ti 1)) tm in
      upd temp i (mulLog8 ti sum)) temp ;;
    Ret (temp, fftSkew8)) (temp, repeat 0 255) ;;
  fftSkew8 <- for_loop 0 255 (fun i fftSkew8 => x <- idx fftSkew8 i ;; upd fftSkew8 i (at_byte logLUT8 x)) fftSkew8 ;;
  logWalsh8 <- for_loop 0 order8 (fun i logWalsh8 => upd logWalsh8 i (at_byte logLUT8 (N.of_nat i))) (repeat 0 order8) ;;
  logWalsh8 <- upd logWalsh8 0 0 ;;
  logWalsh8 <- fwht8 logWalsh8 order8 ;;
  Ret (fftSkew8, logWalsh8).

Definition fftSkew8 : list N := Eval vm_compute in fst (value initFFTSkew8 ([], [])).
Definition logWalsh8 : list N := Eval vm_compute in snd (value initFFTSkew8 ([], [])).

(** [mul8LUTs\[log_m\].Value], of [initMul8LUT] *)
Definition mul8LUT (log_m : N) : list N :=
  let tmp := map (fun k => mulLog8 (N.shiftl (N.of_nat (k mod 16)) (N.of_nat (4 * (k / 16))) mod 256) log_m) (seq 0 64) in
  map (fun i => N.lxor (at_byte tmp (N.land i 15)) (at_byte tmp (N.shiftr i 4 + 16))) bytes256.

(** ** Kernels *)

(** [x\[\] ^= y\[\] * log_m], in blocks of 64 bytes *)
Definition refMulAdd8 (x y : list N) (log_m : N) : result (list N) :=
  let lut := mul8LUT log_m in
  '(x, _, done) <- while_loop (S (length x)) (fun '(x, _, _) => (64 <=? length x)%nat)
    (fun '(x, y, done) =>
       if (length y <? 64)%nat then Panic
       else Ret (skipn 64 x, skipn 64 y, done ++ map2 (fun d y1 => N.lxor d (at_byte lut y1)) (firstn 64 x) (firstn 64 y)))
    (x, y, []) ;;
  Ret (done ++ x).

(** [x\[\] = y\[\] * log_m] *)
Definition refMul8 (x y : list N) (log_m : N) : result (list N) :=
  let lut := mul8LUT log_m in
  for_step (length x) 64 (fun off x =>
    if (length y <? off + 64)%nat || (length x <? off + 64)%nat then Panic
    else Ret (firstn off x ++ map (at_byte lut) (sub_list y off (off + 64)) ++ skipn (off + 64) x)) x.

Definition memclr (s : list N) : list N := map (fun _ => 0) s.

(** The builtin [copy(dst, src)] *)
Definition copy (dst src : list N) : list N :=
  let n := Nat.min (length dst) (length src) in firstn n src ++ skipn n dst.

Definition mulgf8 := refMul8.
Definition fftDIT28 := fftDIT2 sliceXorGo refMulAdd8.
Definition ifftDIT28 := ifftDIT2 sliceXorGo refMulAdd8.
Definition fftDIT4Ref8 := fftDIT4Ref sliceXorGo refMulAdd8 modulus8.
Definition ifftDIT4Ref8 := ifftDIT4Ref sliceXorGo refMulAdd8 modulus8.
Definition ifftDITDecoder8 := ifftDITDecoder sliceXorGo refMulAdd8 modulus8.
Definition fftDIT8 := fftDIT sliceXorGo refMulAdd8 modulus8.
Definition ifftDITEncoder8 := ifftDITEncoder sliceXorGo refMulAdd8 modulus8 copy memclr.

(** ** The bit field of errors *)

Definition kHiMasks : list N := [0xAAAAAAAAAAAAAAAA; 0xCCCCCCCCCCCCCCCC; 0xF0F0F0F0F0F0F0F0; 0xFF00FF00FF00FF00; 0xFFFF0000FFFF0000].
Definition kWords8 : nat := 4.
Definition no_errors : errorBitfield8 := repeat (repeat 0 kWords8) 7.

(** [e.Words\[level\]\[i\]] *)
Definition word (e : errorBitfield8) (level i : nat) : result N := w <- idx e level ;; idx w i.
Definition set_word (e : errorBitfield8) (level i : nat) (v : N) : result errorBitfield8 :=
  w <- idx e level ;; w <- upd w i v ;; upd e level w.

Definition set (e : errorBitfield8) (i : nat) : result errorBitfield8 :=
  let k := Nat.land (i / 64) 3 in
  w <- word e 0 k ;; set_word e 0 k (N.lor w (N.shiftl 1 (N.of_nat (Nat.land i 63)))).

Definition cacheID (e : errorBitfield8) : result (list N) :=
  w <- idx e 0 ;; w0 <- idx w 0 ;; w1 <- idx w 1 ;; w2 <- idx w 2 ;; w3 <- idx w 3 ;;
  Ret (le_put 8 w0 ++ le_put 8 w1 ++ le_put 8 w2 ++ le_put 8 w3).

Definition isNeeded (e : errorBitfield8) (mipLevel bit : nat) : result bool :=
  if (8 <=? mipLevel)%nat || (mipLevel <=? 0)%nat then Ret true
  else w <- word e (mipLevel - 1) (bit / 64) ;; Ret (negb (N.land w (N.shiftl 1 (N.of_nat (Nat.land bit 63))) =? 0)).

(** Every bit that is set spreads to the other half of its block of twice [bits]. *)
Definition spread (mask : N) (bits : N) (w : N) : N :=
  let hi2lo := N.lor w (N.shiftr (N.land w mask) bits) in
  let lo2hi := N.shiftl (N.land w (N.shiftr mask bits)) bits mod 2 ^ 64 in
  N.lor hi2lo lo2hi.

Definition prepare (e : errorBitfield8) : result errorBitfield8 :=
  e <- for_loop 0 kWords8 (fun i e =>
    w_i <- word e 0 i ;;
    mask <- idx kHiMasks 0 ;;
    let w_i := spread mask 1 w_i in
    e <- set_word e 0 i w_i ;;
    '(e, _, _) <- for_loop 1 5 (fun j '(e, w_i, bits) =>
      mask <- idx kHiMasks j ;;
      let w_i := spread mask bits w_i in
      e <- set_word e j i w_i ;;
      Ret (e, w_i, N.shiftl bits 1)) (e, w_i, 2) ;;
    Ret e) e ;;
  e <- for_loop 0 kWords8 (fun i e =>
    w <- word e 4 i ;;
    let w := N.lor w (N.shiftr w 32) in
    let w := N.lor w (N.shiftl w 32 mod 2 ^ 64) in
    set_word e 5 i w) e ;;
  for_from 0 kWords8 2 (fun i e =>
    a <- word e 5 i ;; b <- word e 5 (i + 1) ;;
    let t := N.lor a b in
    e <- set_word e 6 i t ;; set_word e 6 (i + 1) t) e.

(** [e.fftDIT8] *)
Definition errorBits_fftDIT8 (e : errorBitfield8) (work : list (list N)) (mtrunc m : nat) (skewLUT : list N) : result (list (list N)) :=
  fft_layers sliceXorGo refMulAdd8 modulus8 (isNeeded e) work mtrunc m skewLUT.
