(* ===== verification/Leopard8Codec.v ===== *)
(** * The operations of the 8-bit Leopard encoder (src/reedsolomon/leopard8.go) *)
From Stdlib Require Import List Arith NArith ZArith Lia Bool.
From coqutil Require Import Datatypes.RecordSetters.
From S2P Require Import Prelude Galois RSTypes Matrix Options IO LeopardTypes LeopardFFT Coding Codec Leopard8.
Import ListNotations.

(** [s\[n:\]] *)
Definition slice_from {A} (l : list A) (n : nat) : result (list A) := if length l <? n then Panic else Ret (skipn n l).

(** [s\[:n\]] of a buffer *)
Definition slice_to {A} (l : list A) (n : nat) : result (list A) := if length l <? n then Panic else Ret (firstn n l).

Section Operations.
Context (r : leopardFF8).
(** What the buffers of the pool hold *)
Context (pool : nat -> list N).

Local Abbreviation dataShards := (ff8_dataShards r).
Local Abbreviation parityShards := (ff8_parityShards r).
Local Abbreviation totalShards := (ff8_totalShards r).

(** ** Encode and Verify *)

(** The transforms of one piece: the data is in [sh], the parity is left in the
    first buffers of [work]. *)
Definition encode_work (m : nat) (sh work : list (list N)) : result (list (list N)) :=
  let mtrunc := Nat.min dataShards m in
  skewLUT <- slice_from fftSkew8 (m - 1) ;;
  work <- ifftDITEncoder8 (firstn dataShards sh) mtrunc 0 false m skewLUT work ;;
  let lastCount := dataShards mod m in
  work <- (if dataShards <=? m then Ret work
           else
             work <- for_loop 1 (dataShards / m) (fun c work =>
               sh <- slice_from sh (c * m) ;;
               skewLUT2 <- slice_from skewLUT (c * m) ;;
               ifftDITEncoder8 sh m m true m skewLUT2 work) work ;;
             if negb (lastCount =? 0) then
               sh <- slice_from sh (dataShards / m * m) ;;
               skewLUT2 <- slice_from skewLUT (dataShards / m * m) ;;
               ifftDITEncoder8 sh lastCount m true m skewLUT2 work
             else Ret work) ;;
  fftDIT8 work parityShards m fftSkew8.

(** The bytes from [off] on of every shard, at most [workSize8]; the first buffers
    are the parity shards themselves. *)
Definition encode_piece (m size off : nat) (st : list (list N) * list slice) : result (list (list N) * list slice) :=
  let '(wMod, shards) := st in
  let last := size <? off + workSize8 in
  let stop := if last then size else off + workSize8 in
  wMod <- (if last then mapM (fun w => slice_to w (size - off)) wMod else Ret wMod) ;;
  sh <- mapM (fun s => slice_range s off stop) shards ;;
  work <- for_loop 0 parityShards (fun i work => x <- idx sh (dataShards + i) ;; upd work i x) wMod ;;
  work <- encode_work m sh work ;;
  shards <- for_loop 0 parityShards (fun i shards =>
    s <- idx shards (dataShards + i) ;; w <- idx work i ;; upd shards (dataShards + i) (write_range s off w)) shards ;;
  Ret (work, shards).

Definition encode (shards : list slice) : result (list slice) :=
  let size := shardSize_ shards in
  if negb (size mod 64 =? 0) then Err ErrInvalidShardSize
  else
    let m := ceilPow2 parityShards in
    '(_, shards) <- for_step size workSize8 (encode_piece m size) (map pool (seq 0 (m * 2)), shards) ;;
    Ret shards.

Definition Encode (shards : list slice) : result (list slice) :=
  if negb (length shards =? totalShards) then Err ErrTooFewShards
  else
    _ <- checkShards shards false ;;
    encode shards.

Definition Verify (shards : list slice) : result bool :=
  if negb (length shards =? totalShards) then Err ErrTooFewShards
  else
    _ <- checkShards shards false ;;
    shard0 <- idx shards 0 ;;
    let outputs := firstn dataShards shards ++ repeat (Sl (repeat 0%N (len shard0)) []) (totalShards - dataShards) in
    outputs <- Encode outputs ;;
    all_equal (skipn dataShards outputs) (skipn dataShards shards).

Definition EncodeIdx (dataShard : slice) (idx_ : Z) (parity : list slice) : result (list slice) := Err ErrNotSupported.
Definition Update (shards newDatashards : list slice) : result (list slice) := Err ErrNotSupported.

(** ** Reconstruction *)

(** The shards that are there, and those of the data *)
Definition count_present (shards : list slice) : result (nat * nat) :=
  for_loop 0 totalShards (fun i '(numberPresent, dataPresent) =>
    shard <- idx shards i ;;
    if present shard then Ret (S numberPresent, if i <? dataShards then S dataPresent else dataPresent)
    else Ret (numberPresent, dataPresent)) (0, 0).

(** The places of the missing shards, and of the parity shards there are not:
    [1] in [errLocs], and a bit for those that are wanted. *)
Definition mark (wanted : bool) (i : nat) (st : list N * errorBitfield8) : result (list N * errorBitfield8) :=
  let '(errLocs, errorBits) := st in
  errLocs <- upd errLocs i 1%N ;;
  errorBits <- (if wanted then set errorBits i else Ret errorBits) ;;
  Ret (errLocs, errorBits).

Definition error_locations (m : nat) (recoverAll : bool) (shards : list slice) : result (list N * errorBitfield8) :=
  st <- for_loop 0 parityShards (fun i st =>
    s <- idx shards (i + dataShards) ;; if len s =? 0 then mark recoverAll i st else Ret st) (repeat 0%N order8, no_errors) ;;
  st <- for_loop parityShards m (fun i st => mark recoverAll i st) st ;;
  for_loop 0 dataShards (fun i st =>
    s <- idx shards i ;; if len s =? 0 then mark true (i + m) st else Ret st) st.

(** The logarithms of the error locator *)
Definition locator (errLocs : list N) (mtrunc : nat) : result (list N) :=
  errLocs <- fwht8 errLocs mtrunc ;;
  errLocs <- for_loop 0 order8 (fun i errLocs =>
    e <- idx errLocs i ;; w <- idx logWalsh8 i ;; upd errLocs i ((e * w) mod modulus8)%N) errLocs ;;
  fwht8 errLocs order8.

Fixpoint inversion_lookup (id : list N) (l : list (list N * leopardGF8cache)) : option leopardGF8cache :=
  match l with
  | [] => None
  | (k, c) :: l => if list_eq_dec N.eq_dec id k then Some c else inversion_lookup id l
  end.

Definition with_inversion (inv : option (list (list N * leopardGF8cache))) : leopardFF8 :=
  {| ff8_dataShards := dataShards; ff8_parityShards := parityShards; ff8_totalShards := totalShards;
     ff8_inversion := inv; ff8_o := ff8_o r |}.

(** The locator, from the cache or computed and then cached: it is stored under the
    identifier that the bits have then. *)
Definition cached_locator (errLocs : list N) (errorBits : errorBitfield8) (useBits : bool) (mtrunc : nat) :
    result (list N * errorBitfield8 * bool * leopardFF8) :=
  found <- (match ff8_inversion r with
            | Some l => id <- cacheID errorBits ;; Ret (inversion_lookup id l)
            | None => Ret None
            end) ;;
  match found with
  | Some inv =>
      match cache_bits inv, useBits with
      | Some b, true => Ret (errorLocs inv, b, true, r)
      | _, _ => Ret (errorLocs inv, errorBits, false, r)
      end
  | None =>
      errorBits <- (if useBits then prepare errorBits else Ret errorBits) ;;
      errLocs <- locator errLocs mtrunc ;;
      match ff8_inversion r with
      | Some l =>
          id <- cacheID errorBits ;;
          let c := {| errorLocs := errLocs; cache_bits := if useBits then Some errorBits else None |} in
          Ret (errLocs, errorBits, useBits, with_inversion (Some ((id, c) :: l)))
      | None => Ret (errLocs, errorBits, useBits, r)
      end
  end.

(** [mulgf8(work\[i\], sh\[j\], errLocs\[i\])], or zeros for a shard that is missing *)
Definition load (errLocs : list N) (sh : list (list N)) (i j : nat) (work : list (list N)) : result (list (list N)) :=
  x <- idx work i ;;
  s <- idx sh j ;;
  x <- (if negb (length s =? 0) then e <- idx errLocs i ;; mulgf8 x s e else Ret (memclr x)) ;;
  upd work i x.

Definition clear (i : nat) (work : list (list N)) : result (list (list N)) := x <- idx work i ;; upd work i (memclr x).

(** One piece: [sh] has the bytes of the shards there are, and nothing for the others. *)
Definition decode_work (m n : nat) (errLocs : list N) (errorBits : errorBitfield8) (useBits : bool) (sh work : list (list N)) :
    result (list (list N)) :=
  work <- for_loop 0 parityShards (fun i work => load errLocs sh i (i + dataShards) work) work ;;
  work <- for_loop parityShards m clear work ;;
  work <- for_loop 0 dataShards (fun i work => load errLocs sh (m + i) i work) work ;;
  work <- for_loop (m + dataShards) n clear work ;;
  work <- ifftDITDecoder8 (m + dataShards) work n fftSkew8 ;;
  work <- formal_derivative sliceXorGo n work ;;
  let outputCount := m + dataShards in
  if useBits then errorBits_fftDIT8 errorBits work outputCount n fftSkew8
  else fftDIT8 work outputCount n fftSkew8.

(** [there i]: shard [i] was not empty at the start. *)
Definition decode_piece (m n size stop_at : nat) (errLocs : list N) (errorBits : errorBitfield8) (useBits : bool) (there : list bool) (off : nat)
    (st : list (list N) * list slice) : result (list (list N) * list slice) :=
  let '(work, shards) := st in
  let last := size <? off + workSize8 in
  let stop := if last then size else off + workSize8 in
  work <- (if last then mapM (fun w => slice_to w (size - off)) work else Ret work) ;;
  sh <- mapM (fun '(s, b) => if b : bool then slice_range s off stop else Ret []) (combine shards there) ;;
  work <- decode_work m n errLocs errorBits useBits sh work ;;
  shards <- for_loop 0 stop_at (fun i shards =>
    b <- idx there i ;;
    if b : bool then Ret shards
    else
      s <- idx shards i ;;
      old <- slice_range s off stop ;;
      let k := if dataShards <=? i then i - dataShards else i + m in
      w <- idx work k ;;
      e <- idx errLocs k ;;
      x <- mulgf8 old w (modulus8 - e) ;;
      upd shards i (write_range s off x)) shards ;;
  Ret (work, shards).

(** Memory for the shards that will be restored *)
Definition add_output (recoverAll : bool) (size : nat) (shards : list slice) : result (list slice) :=
  for_loop 0 (length shards) (fun i shards =>
    sh <- idx shards i ;;
    if negb recoverAll && (dataShards <=? i) then Ret shards
    else if len sh =? 0 then
      sh <- (if size <=? cap sh then reslice sh size else Ret (Sl (repeat 0%N size) [])) ;;
      upd shards i sh
    else Ret shards) shards.

(** The encoder is returned with its cache. *)
Definition reconstruct (shards : list slice) (recoverAll : bool) : result (leopardFF8 * list slice) :=
  if negb (length shards =? totalShards) then Err ErrTooFewShards
  else
    _ <- checkShards shards true ;;
    '(numberPresent, dataPresent) <- count_present shards ;;
    if (numberPresent =? totalShards) || (negb recoverAll && (dataPresent =? dataShards)) then Ret (r, shards)
    else if numberPresent <? dataShards then Err ErrTooFewShards
    else
      let size := shardSize_ shards in
      if negb (size mod 64 =? 0) then Err ErrInvalidShardSize
      else
        let useBits := (totalShards - numberPresent <=? parityShards / 4) && (64 * 1024 <=? size * totalShards) in
        let m := ceilPow2 parityShards in
        let n := ceilPow2 (m + dataShards) in
        '(errLocs, errorBits) <- error_locations m recoverAll shards ;;
        '(errLocs, errorBits, useBits, r') <- cached_locator errLocs errorBits useBits (m + dataShards) ;;
        let there := map present shards in
        shards <- add_output recoverAll size shards ;;
        let stop_at := if recoverAll then totalShards else dataShards in
        '(_, shards) <- for_step size workSize8 (decode_piece m n size stop_at errLocs errorBits useBits there)
          (map pool (seq 0 n), shards) ;;
        Ret (r', shards).

Definition Reconstruct (shards : list slice) := reconstruct shards true.
Definition ReconstructData (shards : list slice) := reconstruct shards false.
Definition ReconstructSome (shards : list slice) (required : list bool) :=
  if length required =? totalShards then reconstruct shards true else reconstruct shards false.

(** ** Split and Join *)

Definition Split (data : slice) : result (list slice) :=
  if len data =? 0 then Err ErrShortData
  else if (totalShards =? 1) && (Nat.land (len data) 63 =? 0) then Ret [data]
  else
    let dataLen := len data in
    let perShard := (len data + dataShards - 1) / dataShards in
    let perShard := (perShard + 63) / 64 * 64 in
    let needTotal := totalShards * perShard in
    data <- (if dataLen <? cap data then
               data <- reslice data (if needTotal <? cap data then needTotal else cap data) ;;
               Ret (write_range data dataLen (repeat 0%N (len data - dataLen)))
             else Ret data) ;;
    let padding :=
      if len data <? needTotal then
        let fullShards := len data / perShard in
        let padding := AllocAligned (totalShards - fullShards) perShard in
        if perShard * fullShards <? dataLen then
          copy_into padding (sub_list (bytes_of data) (perShard * fullShards) dataLen)
        else padding
      else [] in
    let dst := cut totalShards perShard (bytes_of data) in
    rest <- take_padding (totalShards - length dst) padding ;;
    Ret (dst ++ rest).

Definition Join {W} `{Writer W} (dst : W) (shards : list slice) (outSize : Z) : outcome Empty_set (W * option rsError) :=
  if length shards <? dataShards then Ret (dst, Some ErrTooFewShards)
  else
    let shards := firstn dataShards shards in
    match enough shards 0 outSize with
    | Ret size =>
        if (size <? outSize)%Z then Ret (dst, Some ErrShortData) else copy_shards dst shards outSize
    | Err e => Ret (dst, Some e)
    | Panic => Panic
    | Timeout => Timeout
    end.
End Operations.
