(* ===== verification/Stream.v ===== *)
(** * The streaming encoder (src/reedsolomon/streaming.go)

    A [nil] reader or writer is [None].  The pool of buffers is what it hands
    out: an earlier buffer set with any bytes in it, or a new one.  The
    goroutines of the concurrent reads and writes finish in any order: the order
    of each block is a parameter. *)
From Stdlib Require Import List Arith NArith ZArith Lia Bool.
From coqutil Require Import Datatypes.RecordSetters.
From S2P Require Import Prelude Galois RSTypes Matrix Options IO Coding Codec.
Import ListNotations.

(** A computation whose [error] is a value. *)
Definition effect := outcome Empty_set.

Definition try {E A} (c : outcome E A) : effect (A + E) :=
  match c with
  | Ret a => Ret (inl a)
  | Err e => Ret (inr e)
  | Panic => Panic
  | Timeout => Timeout
  end.

Record rsStream : Type := {
  st_r : reedSolomon;
  st_o : options
}.

Definition NewStream (cpu : machine) (dataShards parityShards : Z) (opts : list Option) : result rsStream :=
  if (dataShards + parityShards >? 256)%Z then Err ErrMaxShardNum
  else
    let o := apply_options cpu opts in
    let o := if ((streamBS o =? 0) && (shardSize o >? 0))%Z then { o with streamBS := shardSize o } else o in
    let o := if (streamBS o <=? 0)%Z then { o with streamBS := Z.shiftl 4 20 } else o in
    let opts :=
      if ((shardSize o =? 0) && (maxGoroutines o =? maxGoroutines (defaultOptions cpu)))%Z
      then opts ++ [WithAutoGoroutines (streamBS o)] else opts in
    enc <- New cpu dataShards parityShards opts ;;
    match enc with
    | RS r => Ret {| st_r := r; st_o := o |}
    | FF16 _ | FF8 _ => Panic
    end.

Definition NewStreamC (cpu : machine) (dataShards parityShards : Z) (conReads conWrites : bool)
    (opts : list Option) : result rsStream :=
  NewStream cpu dataShards parityShards
    (opts ++ [WithConcurrentStreamReads conReads; WithConcurrentStreamWrites conWrites]).

(** [blockPool.Get()], then every buffer at its full length *)
Definition createSlice (r : rsStream) (pooled : option (list slice)) : effect (list slice) :=
  let bs := Z.to_nat (streamBS (st_o r)) in
  let out := match pooled with Some l => l | None => AllocAligned (totalShards (st_r r)) bs end in
  mapM (fun s => reslice s bs) out.

(** Trim the shards so they are all the same size *)
Definition trimShards (inn : list slice) (size : nat) : effect (list slice) :=
  mapM (fun s =>
    s <- (if negb (len s =? 0) then reslice s size else Ret s) ;;
    if len s <? size then reslice s 0 else Ret s) inn.

(** ** Reading a block *)
Section Reads.
Context {R : Type} `{Reader R}.

Fixpoint read_loop (i : nat) (size : option nat) (dst : list slice) (inn : list (option R)) :
    effect (list slice * list (option R) * option rsError) :=
  match inn, dst with
  | None :: inn, d :: dst =>
      d <- reslice d 0 ;;
      '(dst, inn, err) <- read_loop (S i) size dst inn ;;
      Ret (d :: dst, None :: inn, err)
  | Some r :: inn, d :: dst =>
      '(r, p, err) <- ReadFull r (len d) ;;
      let d := write_range d 0 p in
      let n := length p in
      match err with
      | Some ErrUnexpectedEOF | Some EOF =>
          match size with
          | Some m =>
              if n =? m then
                d <- reslice d n ;;
                '(dst, inn, err) <- read_loop (S i) size dst inn ;;
                Ret (d :: dst, Some r :: inn, err)
              else Ret (d :: dst, Some r :: inn, Some ErrShardSize)
          | None =>
              d <- reslice d n ;;
              '(dst, inn, err) <- read_loop (S i) (Some n) dst inn ;;
              Ret (d :: dst, Some r :: inn, err)
          end
      | None =>
          '(dst, inn, err) <- read_loop (S i) size dst inn ;;
          Ret (d :: dst, Some r :: inn, err)
      | Some e => Ret (d :: dst, Some r :: inn, Some (StreamReadError e i))
      end
  | _, _ => Ret (dst, inn, match size with Some 0 => Some EOF | _ => None end)
  end.

Definition readShards (dst : list slice) (inn : list (option R)) :
    effect (list slice * list (option R) * option rsError) :=
  if negb (length inn =? length dst) then Panic else read_loop 0 None dst inn.

(** What a goroutine of [cReadShards] sends: [n], [size] and [err]. *)
Record readResult : Type := { rr_n : nat; rr_size : nat; rr_err : option rsError }.

(** The goroutines: each fills its own buffer. *)
Fixpoint read_all (i : nat) (dst : list slice) (inn : list (option R)) :
    effect (list slice * list (option R) * list readResult) :=
  match inn, dst with
  | None :: inn, d :: dst =>
      d <- reslice d 0 ;;
      '(dst, inn, res) <- read_all (S i) dst inn ;;
      Ret (d :: dst, None :: inn, res)
  | Some r :: inn, d :: dst =>
      '(r, p, err) <- ReadFull r (len d) ;;
      '(dst, inn, res) <- read_all (S i) dst inn ;;
      Ret (write_range d 0 p :: dst, Some r :: inn, {| rr_n := i; rr_size := length p; rr_err := err |} :: res)
  | _, _ => Ret (dst, inn, [])
  end.

(** [for r := range res { .. }] *)
Fixpoint collect (size : option nat) (dst : list slice) (res : list readResult) : effect (list slice * option rsError) :=
  match res with
  | [] => Ret (dst, match size with Some 0 => Some EOF | _ => None end)
  | r :: res =>
      match rr_err r with
      | Some ErrUnexpectedEOF | Some EOF =>
          let trim size :=
            d <- idx dst (rr_n r) ;; d <- reslice d (rr_size r) ;; dst <- upd dst (rr_n r) d ;; collect size dst res in
          match size with
          | Some m => if rr_size r =? m then trim size else Ret (dst, Some ErrShardSize)
          | None => trim (Some (rr_size r))
          end
      | None => collect size dst res
      | Some e => Ret (dst, Some (StreamReadError e (rr_n r)))
      end
  end.

(** [order]: the results in the order in which they arrive. *)
Definition cReadShards (order : list readResult -> list readResult) (dst : list slice) (inn : list (option R)) :
    effect (list slice * list (option R) * option rsError) :=
  if negb (length inn =? length dst) then Panic
  else
    '(dst, inn, res) <- read_all 0 dst inn ;;
    '(dst, err) <- collect None dst (order res) ;;
    Ret (dst, inn, err).
End Reads.

(** ** Writing a block *)
Section Writes.
Context {W : Type} `{Writer W}.

(** One [Write]: a short count without an error is an error too. *)
Definition write_shard (i : nat) (w : W) (s : slice) : W * option rsError :=
  let '(w, n, err) := write_to w (bytes_of s) in
  (w, match err with
      | Some e => Some (StreamWriteError e i)
      | None => if negb (n =? len s) then Some (StreamWriteError ErrShortWrite i) else None
      end).

Fixpoint write_loop (i : nat) (out : list (option W)) (inn : list slice) : list (option W) * option rsError :=
  match inn, out with
  | _ :: inn, None :: out => let '(out, err) := write_loop (S i) out inn in (None :: out, err)
  | s :: inn, Some w :: out =>
      let '(w, err) := write_shard i w s in
      match err with
      | Some e => (Some w :: out, Some e)
      | None => let '(out, err) := write_loop (S i) out inn in (Some w :: out, err)
      end
  | _, _ => (out, None)
  end.

Definition writeShards (out : list (option W)) (inn : list slice) : effect (list (option W) * option rsError) :=
  if negb (length out =? length inn) then Panic else Ret (write_loop 0 out inn).

(** The goroutines of [cWriteShards]: every shard is written; the errors sent *)
Fixpoint write_all (i : nat) (out : list (option W)) (inn : list slice) : list (option W) * list rsError :=
  match inn, out with
  | _ :: inn, None :: out => let '(out, errs) := write_all (S i) out inn in (None :: out, errs)
  | s :: inn, Some w :: out =>
      let '(w, err) := write_shard i w s in
      let '(out, errs) := write_all (S i) out inn in
      (Some w :: out, match err with Some e => e :: errs | None => errs end)
  | _, _ => (out, [])
  end.

Definition cWriteShards (order : list rsError -> list rsError) (out : list (option W)) (inn : list slice) :
    effect (list (option W) * option rsError) :=
  if negb (length out =? length inn) then Panic
  else
    let '(out, errs) := write_all 0 out inn in
    Ret (out, hd_error (order errs)).
End Writes.

(** The order in which the goroutines of each block finish *)
Record schedule : Type := {
  read_order : nat -> list readResult -> list readResult;
  write_order : nat -> list rsError -> list rsError
}.

Section Operations.
Context {R W : Type} `{Reader R} `{Writer W}.
Context (s : rsStream) (sched : schedule).

Definition st_readShards (block : nat) (dst : list slice) (inn : list (option R)) :=
  if concReads (st_o s) then cReadShards (read_order sched block) dst inn else readShards dst inn.

Definition st_writeShards (block : nat) (out : list (option W)) (inn : list slice) :=
  if concWrites (st_o s) then cWriteShards (write_order sched block) out inn else writeShards out inn.

(** ** Encode *)

(** The readers, the writers and the buffers are returned with the error. *)
Fixpoint encode_loop (fuel block read : nat) (all : list slice) (data : list (option R)) (parity : list (option W)) :
    effect (list (option R) * list (option W) * list slice * option rsError) :=
  match fuel with
  | O => Timeout
  | S fuel =>
      let out := skipn (dataShards (st_r s)) all in
      '(inn, data, err) <- st_readShards block (firstn (dataShards (st_r s)) all) data ;;
      match err with
      | Some EOF => Ret (data, parity, inn ++ out, if read =? 0 then Some ErrShardNoData else None)
      | Some e => Ret (data, parity, inn ++ out, Some e)
      | None =>
          out <- trimShards out (shardSize_ inn) ;;
          let read := read + shardSize_ inn in
          res <- try (Codec.Encode (st_r s) (inn ++ out)) ;;
          match res with
          | inr e => Ret (data, parity, inn ++ out, Some e)
          | inl all =>
              '(parity, err) <- st_writeShards block parity (skipn (dataShards (st_r s)) all) ;;
              match err with
              | Some e => Ret (data, parity, all, Some e)
              | None => encode_loop fuel (S block) read all data parity
              end
          end
      end
  end.

Definition Encode (fuel : nat) (pooled : option (list slice)) (data : list (option R)) (parity : list (option W)) :
    effect (list (option R) * list (option W) * list slice * option rsError) :=
  if negb (length data =? dataShards (st_r s)) then Ret (data, parity, [], Some ErrTooFewShards)
  else if negb (length parity =? parityShards (st_r s)) then Ret (data, parity, [], Some ErrTooFewShards)
  else all <- createSlice s pooled ;; encode_loop fuel 0 0 all data parity.

(** ** Verify *)

Fixpoint verify_loop (fuel block read : nat) (all : list slice) (shards : list (option R)) :
    effect (list (option R) * list slice * bool * option rsError) :=
  match fuel with
  | O => Timeout
  | S fuel =>
      '(all, shards, err) <- st_readShards block all shards ;;
      match err with
      | Some EOF => if read =? 0 then Ret (shards, all, false, Some ErrShardNoData) else Ret (shards, all, true, None)
      | Some e => Ret (shards, all, false, Some e)
      | None =>
          let read := read + shardSize_ all in
          res <- try (Codec.Verify (st_r s) all) ;;
          match res with
          | inr e => Ret (shards, all, false, Some e)
          | inl false => Ret (shards, all, false, None)
          | inl true => verify_loop fuel (S block) read all shards
          end
      end
  end.

Definition Verify (fuel : nat) (pooled : option (list slice)) (shards : list (option R)) :
    effect (list (option R) * list slice * bool * option rsError) :=
  if negb (length shards =? totalShards (st_r s)) then Ret (shards, [], false, Some ErrTooFewShards)
  else all <- createSlice s pooled ;; verify_loop fuel 0 0 all shards.

(** ** Reconstruct *)

(** The checks before the loop: [reconDataOnly], or the mismatch. *)
Fixpoint recon_checks (i : nat) (valid : list (option R)) (fill : list (option W)) : option bool :=
  match valid, fill with
  | v :: valid, f :: fill =>
      match v, f with
      | Some _, Some _ => None
      | _, Some _ => option_map (andb (i <? dataShards (st_r s))) (recon_checks (S i) valid fill)
      | _, None => recon_checks (S i) valid fill
      end
  | _, _ => Some true
  end.

(** [r] is the encoder, with the cache it has at this block. *)
Fixpoint reconstruct_loop (fuel block read : nat) (reconDataOnly : bool) (r : reedSolomon) (all : list slice)
    (valid : list (option R)) (fill : list (option W)) :
    effect (reedSolomon * list (option R) * list (option W) * list slice * option rsError) :=
  match fuel with
  | O => Timeout
  | S fuel =>
      '(all, valid, err) <- st_readShards block all valid ;;
      match err with
      | Some EOF => Ret (r, valid, fill, all, if read =? 0 then Some ErrShardNoData else None)
      | Some e => Ret (r, valid, fill, all, Some e)
      | None =>
          let read := read + shardSize_ all in
          all <- trimShards all (shardSize_ all) ;;
          res <- try (if reconDataOnly then ReconstructData r all else Codec.Reconstruct r all) ;;
          match res with
          | inr e => Ret (r, valid, fill, all, Some e)
          | inl (r, all) =>
              '(fill, err) <- st_writeShards block fill all ;;
              match err with
              | Some e => Ret (r, valid, fill, all, Some e)
              | None => reconstruct_loop fuel (S block) read reconDataOnly r all valid fill
              end
          end
      end
  end.

Definition Reconstruct (fuel : nat) (pooled : option (list slice)) (valid : list (option R)) (fill : list (option W)) :
    effect (reedSolomon * list (option R) * list (option W) * list slice * option rsError) :=
  if negb (length valid =? totalShards (st_r s)) then Ret (st_r s, valid, fill, [], Some ErrTooFewShards)
  else if negb (length fill =? totalShards (st_r s)) then Ret (st_r s, valid, fill, [], Some ErrTooFewShards)
  else
    all <- createSlice s pooled ;;
    match recon_checks 0 valid fill with
    | None => Ret (st_r s, valid, fill, all, Some ErrReconstructMismatch)
    | Some reconDataOnly => reconstruct_loop fuel 0 0 reconDataOnly (st_r s) all valid fill
    end.

(** ** Join and Split *)

(** The readers, all there, or the index of the first that is not. *)
Fixpoint all_there {A} (i : nat) (l : list (option A)) : list A + nat :=
  match l with
  | [] => inl []
  | None :: _ => inr i
  | Some a :: l => match all_there (S i) l with inl l => inl (a :: l) | inr j => inr j end
  end.

Definition Join (dst : W) (shards : list (option R)) (outSize : Z) : effect (W * option rsError) :=
  if length shards <? dataShards (st_r s) then Ret (dst, Some ErrTooFewShards)
  else
    match all_there 0 (firstn (dataShards (st_r s)) shards) with
    | inr i => Ret (dst, Some (StreamReadError ErrShardNoData i))
    | inl shards =>
        '(_, dst, n, err) <- CopyN dst (MultiReader shards) outSize ;;
        match err with
        | Some EOF => Ret (dst, Some ErrShortData)
        | Some e => Ret (dst, Some e)
        | None => if negb (Z.of_nat n =? outSize)%Z then Ret (dst, Some ErrShortData) else Ret (dst, None)
        end
    end.
End Operations.

(** [zeroPaddingReader]: zeros without end, counted. *)
Record zeroPaddingReader : Type := { totalBytes : nat }.

#[export] Instance zeroPadding_reader : Reader zeroPaddingReader := fun t n =>
  ({| totalBytes := totalBytes t + n |}, repeat 0%N n, None).

Section Split.
Context {R W : Type} `{Reader R} `{Writer W}.

(** The data, then the padding *)
Definition padded : Type := multiReader (R + LimitedReader zeroPaddingReader).

(** [paddingReader.totalBytes], read through the reader that holds it. *)
Definition padding_read (data : padded) : nat :=
  list_sum (map (fun r => match r with inl _ => 0 | inr l => totalBytes (lim_R l) end)
    (mr_done data ++ mr_readers data)).

Fixpoint split_loop (dst : list W) (data : padded) (perShard : Z) : effect (list W * padded * option rsError) :=
  match dst with
  | [] => Ret ([], data, None)
  | w :: dst =>
      '(data, w, n, err) <- CopyN w data perShard ;;
      match err with
      | Some EOF | None =>
          if negb (Z.of_nat n =? perShard)%Z then Ret (w :: dst, data, Some ErrShortData)
          else '(dst, data, err) <- split_loop dst data perShard ;; Ret (w :: dst, data, err)
      | Some e => Ret (w :: dst, data, Some e)
      end
  end.

(** The writers are returned with the padding and the error. *)
Definition Split (s : rsStream) (data : R) (dst : list (option W)) (size : Z) :
    effect (list (option W) * Z * option rsError) :=
  let d := Z.of_nat (dataShards (st_r s)) in
  if (size =? 0)%Z then Ret (dst, 0%Z, Some ErrShortData)
  else if negb (length dst =? dataShards (st_r s)) then Ret (dst, 0%Z, Some ErrInvShardNum)
  else
    match all_there 0 dst with
    | inr i => Ret (dst, 0%Z, Some (StreamWriteError ErrShardNoData i))
    | inl writers =>
        if (d =? 0)%Z then Panic
        else
          let perShard := Z.quot (size + d - 1) d in
          let paddingSize := (Z.of_nat (totalShards (st_r s)) * perShard - size)%Z in
          let data := MultiReader [inl data; inr (LimitReader {| totalBytes := 0 |} paddingSize)] in
          '(writers, data, err) <- split_loop writers data perShard ;;
          Ret (map Some writers, Z.of_nat (padding_read data), err)
    end.
End Split.
