(* ===== verification/FileCodec.v ===== *)
(** * Encoding and decoding files (src/reedsolomon/streaming.go, [DoEncode] and
    [DoDecode])

    The disk is a map from paths to contents; a path is a directory and a base
    name.  Only a missing file makes an operation of package [os] fail.  The
    encryption (package filecrypt), the digest and the machine are parameters.
    Files are read and written through the instances of [IO]. *)
From stdpp Require Import base gmap strings list pretty.
From S2P Require Import Prelude Galois RSTypes Options IO Codec Stream.
Import ListNotations.
Local Open Scope go_scope.

Definition path : Type := string * string.

Record disk : Type := Disk { files : gmap path (list N); dirs : gset string }.

Definition open (dk : disk) (p : path) : option (list N) := files dk !! p.
Definition put_file (dk : disk) (p : path) (content : list N) : disk := Disk (<[p := content]> (files dk)) (dirs dk).
Definition remove (dk : disk) (p : path) : disk := Disk (delete p (files dk)) (dirs dk).
Definition mkdir (dk : disk) (d : string) : disk := Disk (files dk) ({[d]} ∪ dirs dk).
Definition put_files (dk : disk) (l : list (path * list N)) : disk :=
  fold_left (fun dk '(p, c) => put_file dk p c) l dk.

(** [os.Exit(n)] *)
Inductive exit : Type := Exit (status : nat).

(** The errors [DoDecode] returns *)
Inductive decodeError : Type :=
| FromEncoder (e : rsError)
| DecryptFailed
| NotFound (p : path).

Definition run {E A} (c : effect A) : outcome E A :=
  match c with Ret a => Ret a | Err e => match e with end | Panic => Panic | Timeout => Timeout end.

Definition checkErr (err : option rsError) : outcome exit unit :=
  match err with Some _ => Err (Exit 2) | None => Ret tt end.

Definition checked {E A} (c : outcome E A) : outcome exit A :=
  match c with Ret a => Ret a | Err _ => Err (Exit 2) | Panic => Panic | Timeout => Timeout end.

Definition must {A} (o : option A) : outcome exit A :=
  match o with Some a => Ret a | None => Err (Exit 2) end.

Definition fileCryptExtension : string := ".fcef".

(** [fmt.Sprintf("%s.%d", file, i)] *)
Definition shard_name (file : string) (i : nat) : string := file +:+ "." +:+ pretty i.

(** [fmt.Sprint("%s.%d", fname, i)]: the operands one after the other; a space
    is put between two operands only when neither is a string. *)
Definition sprint_name (fname : string) (i : nat) : string := "%s.%d" +:+ fname +:+ pretty i.

(** ** The number of shards *)

(** [for fileSize/int64( *dataShards) < minSize && *dataShards > 10 {..}] *)
Fixpoint shrink (fuel : nat) (fileSize minSize dataShards : Z) : outcome exit Z :=
  match fuel with
  | O => Timeout
  | S fuel =>
      if (dataShards =? 0)%Z then Panic
      else if ((Z.quot fileSize dataShards <? minSize) && (dataShards >? 10))%Z
      then shrink fuel fileSize minSize (dataShards - 10)
      else Ret dataShards
  end.

(** The flags [*dataShards] and [*parShards] before and after *)
Definition calculateShardsNum (flags : Z * Z) (fileSize : Z) : outcome exit (Z * Z) :=
  let minSize := (10 * 1024 * 1024)%Z in
  let '(dataShards, parShards) := flags in
  if (fileSize <? minSize)%Z then Ret (5, 3)%Z
  else
    dataShards <- shrink (S (Z.to_nat dataShards)) fileSize minSize dataShards ;;
    Ret (dataShards, Z.quot dataShards 2).

Section FileCodec.
Context (cpu : machine) (sched : schedule).
(** The directory of rclone's configuration *)
Context (configDir : string).
(** [hex(sha256(..))] *)
Context (sha256 : list N -> string).
(** [app.Encrypt] and [app.Decrypt] on contents; [rnd] is the randomness. *)
Context (encrypt : nat -> string -> list N -> list N) (decrypt : string -> list N -> option (list N)).
(** Does the pool hand an earlier buffer set out again? *)
Context (reuse : nat -> bool).

Definition GetShardDir : string := configDir +:+ "/shard".

Definition DeleteShardWithFileNames (dk : disk) (fileNames : list string) : disk :=
  fold_left (fun dk fileName => remove dk (GetShardDir, fileName)) fileNames dk.

Definition calculateChecksum (dk : disk) (p : path) : option string := option_map sha256 (open dk p).

(** ** Encode *)

Record encoded : Type := {
  e_paths : list path;
  e_checksums : list string;
  e_sizePerShard : Z;
  e_padding : Z;
  e_dataShards : Z;
  e_parShards : Z
}.

Definition contents (l : list (option (list N))) : list (list N) := omap id l.

Definition DoEncode (flags : Z * Z) (dk : disk) (rnd : nat) (fname : path) (password : string) :
    outcome exit (disk * (Z * Z) * encoded) :=
  let dk := if decide (GetShardDir ∈ dirs dk) then dk else mkdir dk GetShardDir in
  (* calculateShardsNum, app.Encrypt *)
  plain <- must (open dk fname) ;;
  flags <- calculateShardsNum flags (Z.of_nat (length plain)) ;;
  let '(dataShards, parShards) := flags in
  let encFile : path := (fst fname, snd fname +:+ fileCryptExtension) in
  let dk := put_file dk encFile (encrypt rnd password plain) in
  if (dataShards + parShards >? 256)%Z then Err (Exit 1)
  else
    enc <- checked (NewStream cpu dataShards parShards []) ;;
    f <- must (open dk encFile) ;;
    let d := Z.to_nat dataShards in
    let p := Z.to_nat parShards in
    let paths : list path := map (fun i => (GetShardDir, shard_name (snd encFile) i)) (seq 0 (d + p)) in
    let dk := put_files dk (map (fun out => (out, [])) paths) in
    '(data, padding, err) <- run (Split enc f (repeat (Some []) d) (Z.of_nat (length f))) ;;
    let dk := put_files dk (combine (firstn d paths) (contents data)) in
    _ <- checkErr err ;;
    input <- mapM (fun out => must (open dk out)) (firstn d paths) ;;
    checksums <- mapM (fun out => must (calculateChecksum dk out)) (firstn d paths) ;;
    path1 <- idx paths 1 ;;
    fileShard <- must (open dk path1) ;;
    let sizePerShard := Z.of_nat (length fileShard) in
    '(_, parity, _, err) <- run (Stream.Encode enc sched (S (length f)) None (map Some input) (repeat (Some []) p)) ;;
    let dk := put_files dk (combine (skipn d paths) (contents parity)) in
    _ <- checkErr err ;;
    checksums' <- mapM (fun out => must (calculateChecksum dk out)) (skipn d paths) ;;
    let dk := remove dk encFile in
    Ret (dk, flags, {| e_paths := paths; e_checksums := checksums ++ checksums'; e_sizePerShard := sizePerShard;
                       e_padding := padding; e_dataShards := dataShards; e_parShards := parShards |}).

(** ** Decode *)

(** The zero bytes before the first other byte *)
Fixpoint null_bytes (buf : list N) : nat :=
  match buf with 0%N :: buf => S (null_bytes buf) | _ => 0 end.

(** The content of the file after [trimPadding(f, trimSize)], [trimSize > 0] *)
Definition trimPadding (content : list N) (trimSize : nat) : list N :=
  if trimSize <? length content then
    let buf := skipn (length content - trimSize) content in
    if null_bytes buf =? trimSize then firstn (length content - trimSize) content
    else firstn trimSize content
  else content.

(** The shards that are there and not empty; the size is that of the last. *)
Definition openInput (dk : disk) (dataShards parShards : nat) (fname : string) : list (option (list N)) * nat :=
  let shards := map (fun i =>
    match open dk (GetShardDir, shard_name fname i) with
    | Some [] | None => None
    | Some f => Some f
    end) (seq 0 (dataShards + parShards)) in
  (shards, fold_left (fun size shard => match shard with Some f => length f | None => size end) shards 0).

Definition get (m : gmap string string) (k : string) : string := default EmptyString (m !! k).

(** [for i := 0; i < numShards; i++ {..}]; it stops when [os.Remove] fails. *)
Fixpoint compare_loop (n i : nat) (dk : disk) (serverChecksum confChecksum : gmap string string) (fname : string) : disk :=
  match n with
  | O => dk
  | S n =>
      let fileName := sprint_name fname i in
      if decide (get serverChecksum fileName = get confChecksum fileName)
      then compare_loop n (S i) dk serverChecksum confChecksum fname
      else
        let fileToDelete := (GetShardDir, shard_name fname i) in
        match open dk fileToDelete with
        | None => dk
        | Some _ => compare_loop n (S i) (remove dk fileToDelete) serverChecksum confChecksum fname
        end
  end.

Definition compareandDeleteChecksum (dk : disk) (serverChecksum confChecksum : gmap string string) (fname : string) : disk :=
  compare_loop (size confChecksum) 0 dk serverChecksum confChecksum fname.

(** The digests of the downloaded shards; empty for a file that is not there *)
Definition shard_checksums (dk : disk) (n : nat) (fname : string) : gmap string string :=
  list_to_map (map (fun i =>
    (shard_name fname i, default EmptyString (calculateChecksum dk (GetShardDir, shard_name fname i)))) (seq 0 n)).

Definition fuel_for (shards : list (option (list N))) : nat :=
  S (list_max (map (fun s => match s with Some f => length f | None => 0 end) shards)).

Definition pooled (k : nat) (all : list slice) : option (list slice) := if reuse k then Some all else None.

(** Reconstruct the shards that are not there and verify again; a result on the
    left means that [DoDecode] goes on, on the right that it returns. *)
Definition repair (enc : rsStream) (all : list slice) (dk : disk) (d p : nat) (fname : string) :
    outcome exit (disk + disk * option decodeError) :=
  let '(shards, _) := openInput dk d p fname in
  let names : list path := map (fun i => (GetShardDir, shard_name fname i)) (seq 0 (d + p)) in
  let out := map (fun s : option (list N) => match s with None => Some [] | Some _ => None end) shards in
  let write dk (out : list (option (list N))) :=
    put_files dk (omap (fun '(name, o) => option_map (pair name) o) (combine names out)) in
  let dk := write dk out in
  '(r, _, out, all, err) <- run (Stream.Reconstruct enc sched (fuel_for shards) (pooled 0 all) shards out) ;;
  let dk := write dk out in
  match err with
  | Some e => Ret (inr (dk, Some (FromEncoder e)))
  | None =>
      let '(shards, _) := openInput dk d p fname in
      '(_, _, ok, err) <- run (Stream.Verify {| st_r := r; st_o := st_o enc |} sched (fuel_for shards) (pooled 1 all) shards) ;;
      if ok : bool then
        match err with
        | Some e => Ret (inr (dk, Some (FromEncoder e)))
        | None => Ret (inl dk)
        end
      else Ret (inr (dk, option_map FromEncoder err))
  end.

(** Join the data shards, cut the padding, decrypt. *)
Definition write_output (enc : rsStream) (dk : disk) (d p : nat) (fname base outdir : string) (padding : Z)
    (password : string) : outcome exit (disk * option decodeError) :=
  let outfn : path := (outdir, fname) in
  let dk := put_file dk outfn [] in
  let '(shards, size) := openInput dk d p fname in
  '(f, err) <- run (Join enc [] shards (Z.of_nat d * Z.of_nat size)) ;;
  match err with
  | Some e => Ret (put_file dk outfn f, Some (FromEncoder e))
  | None =>
      let f := if (padding >? 0)%Z then trimPadding f (Z.to_nat padding) else f in
      let dk := put_file dk outfn f in
      match decrypt password f with
      | None => Ret (dk, Some DecryptFailed)
      | Some plain => Ret (remove (put_file dk (outdir, base) plain) outfn, None)
      end
  end.

(** The disk is returned with the error. *)
Definition DoDecode (dk : disk) (base outdir : string) (padding : Z) (confChecksums : gmap string string)
    (downloadshard downloadparity : Z) (password : string) : outcome exit (disk * option decodeError) :=
  let fname := base +:+ fileCryptExtension in
  if decide (outdir ∈ dirs dk) then
    let shardChecksums := shard_checksums dk (size confChecksums) fname in
    let dk := compareandDeleteChecksum dk shardChecksums confChecksums fname in
    match NewStream cpu downloadshard downloadparity [] with
    | Err e => Ret (dk, Some (FromEncoder e))
    | Panic => Panic
    | Timeout => Timeout
    | Ret enc =>
        let d := Z.to_nat downloadshard in
        let p := Z.to_nat downloadparity in
        let '(shards, _) := openInput dk d p fname in
        '(_, all, ok, _) <- run (Stream.Verify enc sched (fuel_for shards) None shards) ;;
        next <- (if ok : bool then Ret (inl dk) else repair enc all dk d p fname) ;;
        match next with
        | inr res => Ret res
        | inl dk => write_output enc dk d p fname base outdir padding password
        end
    end
  else Ret (mkdir dk outdir, None).
End FileCodec.
