(* ===== verification/SplitJoin.v ===== *)
(** * [Split] cuts the data into shards and [Join] puts them back

    The two operations of the in-memory encoder and their composition. *)
From Stdlib Require Import List Arith NArith ZArith Lia Bool.
From S2P Require Import Prelude Galois RSTypes Matrix EncodingMatrix InversionTree Options IO Coding Codec.
Import ListNotations.

(** The bytes of the shards one after the other. *)
Definition flat (shards : list slice) : list N := concat (map bytes_of shards).

Definition zeros (n : nat) : list N := repeat 0%N n.

(** Shards of [per] bytes that are slices. *)
Definition even (per : nat) (shards : list slice) : Prop :=
  Forall (fun s => is_nil s = false /\ len s = per) shards.

Lemma flat_app l1 l2 : flat (l1 ++ l2) = flat l1 ++ flat l2.
Proof. unfold flat. now rewrite map_app, concat_app. Qed.

Lemma length_flat per l : even per l -> length (flat l) = length l * per.
Proof.
  induction 1 as [|s l [_ Hs] Hl IH]; [reflexivity |]. unfold flat in *. cbn. rewrite length_app, IH.
  unfold len in Hs. lia.
Qed.

Lemma zeros_app m n : zeros (m + n) = zeros m ++ zeros n.
Proof. apply repeat_app. Qed.


(** The full shards: as many as fit, at most [n]. *)
Lemma cut_full per : 0 < per -> forall n data,
  let f := Nat.min n (length data / per) in
  length (cut n per data) = f /\ even per (cut n per data) /\ flat (cut n per data) = firstn (f * per) data.
Proof.
  intros Hp. induction n as [|n IH]; intros data; cbn [cut].
  - cbn. repeat split; constructor.
  - destruct (Nat.leb_spec per (length data)) as [H|H].
    + assert (Hd : length data / per = S (length (skipn per data) / per)).
      { rewrite length_skipn. replace (length data) with ((length data - per) + 1 * per) at 1 by lia.
        rewrite Nat.div_add by lia. lia. }
      destruct (IH (skipn per data)) as (H1 & H2 & H3). rewrite Hd.
      replace (Nat.min (S n) (S (length (skipn per data) / per)))
        with (S (Nat.min n (length (skipn per data) / per))) by lia.
      split; [cbn; lia |]. split.
      * constructor; [| auto]. split; [auto |]. unfold len. cbn. lens.
      * unfold flat in *. cbn [map concat bytes_of]. rewrite H3.
        cbn [Nat.mul]. now rewrite firstn_add.
    + rewrite Nat.div_small by auto. rewrite Nat.min_0_r. repeat split; constructor.
Qed.

Lemma length_cut per n data : 0 < per -> length (cut n per data) = Nat.min n (length data / per).
Proof. intros Hp. apply cut_full. auto. Qed.

Lemma even_alloc m per : even per (AllocAligned m per).
Proof. apply Forall_forall. intros s ->%repeat_spec. split; [auto |]. unfold len. cbn. lens. Qed.

Lemma flat_alloc m per : flat (AllocAligned m per) = zeros (m * per).
Proof.
  unfold flat, AllocAligned. induction m as [|m IH]; [reflexivity |]. cbn [repeat map concat].
  rewrite IH. cbn. now rewrite zeros_app.
Qed.

Lemma write_prefix d sp c : length c <= length d ->
  write_range (Sl d sp) 0 c = Sl (c ++ skipn (length c) d) sp.
Proof.
  intros H. cbn. rewrite skipn_app. replace (length c - length d) with 0 by lia. cbn [skipn].
  rewrite app_assoc. rewrite firstn_app, skipn_app. lens.
  replace (length d - (length c + (length d - length c))) with 0 by lia.
  cbn [firstn skipn]. rewrite app_nil_r.
  rewrite (firstn_all2 (n := length d)), (skipn_all2 (n := length d)) by lens. reflexivity.
Qed.

(** Copying into zeroed padding *)
Lemma copy_into_spec per m : forall c, length c <= m * per ->
  let padding := copy_into (AllocAligned m per) c in
  length padding = m /\ even per padding /\ flat padding = c ++ zeros (m * per - length c).
Proof.
  induction m as [|m IH]; intros c Hc.
  - destruct c; [| cbn in Hc; lia]. cbn. repeat split; constructor.
  - cbn [AllocAligned repeat copy_into]. fold (AllocAligned m per).
    change (repeat (Sl (repeat 0%N per) (repeat 0%N ((per + 64 - 1) / 64 * 64 - per))) m)
      with (AllocAligned m per).
    set (p0 := Sl (repeat 0%N per) _).
    destruct (Nat.eqb_spec (length c) 0) as [H0|H0].
    + destruct c; [| discriminate]. change (p0 :: AllocAligned m per) with (AllocAligned (S m) per).
      split; [unfold AllocAligned; lens |]. split; [apply even_alloc |].
      rewrite flat_alloc, Nat.sub_0_r. reflexivity.
    + replace (len p0) with per by (unfold len, p0; cbn; lens).
      set (n := Nat.min per (length c)).
      destruct (IH (skipn n c)) as (H1 & H2 & H3); [unfold n; lens |].
      unfold p0 at 1 2 3. rewrite write_prefix by (unfold n; lens).
      rewrite length_firstn. replace (Nat.min n (length c)) with n by (unfold n; lia).
      cbn zeta. split; [cbn; lia |]. split.
      * constructor; [| auto]. split; [auto |]. unfold len. cbn. unfold n. lens.
      * unfold flat in *. cbn [map concat bytes_of]. rewrite H3, skipn_repeat, <- app_assoc, (app_assoc _ _ (zeros _)).
        assert (Hz : (repeat 0%N (per - n) = [] \/ skipn n c = [])).
        { destruct (Nat.le_ge_cases per (length c)); [left | right].
          - replace (per - n) with 0 by (unfold n; lia). reflexivity.
          - apply skipn_all2. unfold n. lia. }
        rewrite length_skipn.
        destruct Hz as [Hz|Hz]; rewrite Hz; cbn [app].
        -- apply (f_equal (@length N)) in Hz. cbn in Hz. rewrite repeat_length in Hz.
           rewrite app_assoc, firstn_skipn. do 2 f_equal. unfold n in *. lia.
        -- apply (f_equal (@length N)) in Hz. rewrite length_skipn in Hz. cbn in Hz.
           rewrite firstn_all2 by lia. f_equal. rewrite app_nil_r. fold (zeros (per - n)). rewrite <- zeros_app.
           f_equal. unfold n in *. lia.
Qed.

(** ** Split *)
Section Split.
Context (r : reedSolomon) (Hd : 0 < dataShards r) (Ht : totalShards r = dataShards r + parityShards r).

Definition per_shard (n : nat) : nat := (n + dataShards r - 1) / dataShards r.

Lemma per_shard_spec n : 0 < n -> 0 < per_shard n /\ n <= dataShards r * per_shard n.
Proof.
  intros Hn. unfold per_shard.
  assert (H := Nat.div_mod_eq (n + dataShards r - 1) (dataShards r)).
  assert (H2 := Nat.mod_upper_bound (n + dataShards r - 1) (dataShards r)). nia.
Qed.

(** [Split] succeeds on any data, and the shards hold the data followed by zeros. *)
Lemma Split_spec data : 0 < len data -> 1 < totalShards r -> is_nil data = false ->
  exists shards, Split r data = Ret shards /\ length shards = totalShards r /\
    even (per_shard (len data)) shards /\
    flat shards = bytes_of data ++ zeros (totalShards r * per_shard (len data) - len data).
Proof.
  intros Hlen Htot Hnil. destruct (per_shard_spec (len data) Hlen) as [Hper Hcov].
  unfold Split. destruct (Nat.eqb_spec (len data) 0), (Nat.eqb_spec (totalShards r) 1),
    (Nat.eqb_spec (dataShards r) 0); try lia.
  fold (per_shard (len data)). set (per := per_shard (len data)) in *.
  set (need := totalShards r * per). cbv zeta.
  assert (Hneed : len data <= need) by (unfold need; nia).
  assert (Hext : exists data', (if len data <? cap data then
      data0 <- reslice data (if need <? cap data then need else cap data) ;;
      Ret (write_range data0 (len data) (repeat 0%N (len data0 - len data)))
    else Ret data) = @Ret rsError _ data' /\ exists z, len data + z <= need /\
      bytes_of data' = bytes_of data ++ zeros z).
  { destruct data as [|b sp]; [discriminate |]. unfold cap, len in *. cbn [bytes_of spare_of] in *.
    destruct (Nat.ltb_spec (length b) (length b + length sp)).
    2: { exists (Sl b sp). split; [auto |]. exists 0. split; [lia |]. cbn. now rewrite app_nil_r. }
    set (m := if need <? length b + length sp then need else length b + length sp).
    assert (Hm : length b <= m <= length b + length sp /\ m <= need)
      by (unfold m; destruct (Nat.ltb_spec need (length b + length sp)); lia).
    clearbody m. unfold reslice, cap. cbn [bytes_of spare_of].
    destruct (Nat.ltb_spec (length b + length sp) m); [lia |]. cbn [bind].
    eexists; split; [reflexivity |]. exists (m - length b). split; [lia |].
    unfold len. cbn [bytes_of]. rewrite length_firstn, length_app.
    replace (Nat.min m (length b + length sp)) with m by lia.
    cbn [write_range bytes_of]. rewrite repeat_length, length_firstn, length_app.
    replace (Nat.min m (length b + length sp)) with m by lia. rewrite firstn_skipn.
    replace (length b + (m - length b)) with m by lia.
    replace (firstn (length b) (b ++ sp)) with b
      by (rewrite firstn_app, firstn_all, Nat.sub_diag; cbn; now rewrite app_nil_r).
    rewrite app_assoc, firstn_app, firstn_all2 by lens. unfold zeros.
    replace (m - length (b ++ repeat 0%N (m - length b))) with 0 by lens. now rewrite app_nil_r. }
  destruct Hext as (data' & -> & z & Hz & Hb). cbn [bind].
  assert (Hl' : len data' = len data + z) by (unfold len at 1; rewrite Hb; unfold zeros, len; lens).
  assert (Hfull : length (bytes_of data') / per <= totalShards r).
  { change (length (bytes_of data')) with (len data'). rewrite Hl'. apply Nat.div_le_upper_bound; [lia |].
    unfold need in Hz. lia. }
  destruct (cut_full per Hper (totalShards r) (bytes_of data')) as (Hc1 & Hc2 & Hc3).
  rewrite Nat.min_r in Hc1, Hc3 by auto. change (length (bytes_of data')) with (len data') in *.
  set (f := len data' / per) in *.
  assert (Hf : f * per <= len data') by (rewrite Nat.mul_comm; apply Nat.Div0.mul_div_le).
  assert (Hf2 : len data' < (f + 1) * per).
  { unfold f. assert (H := Nat.div_mod_eq (len data') per). assert (H2 := Nat.mod_upper_bound (len data') per). nia. }
  destruct (Nat.ltb_spec (len data') need) as [Hlt|Hge].
  - set (pad0 := AllocAligned (totalShards r - f) per).
    assert (Hpad : exists padding, (if per * f <? len data then
        copy_into pad0 (sub_list (bytes_of data') (per * f) (len data)) else pad0) = padding /\
        length padding = totalShards r - f /\ even per padding /\
        firstn (f * per) (bytes_of data') ++ flat padding = bytes_of data ++ zeros (need - len data)).
    { eexists; split; [reflexivity |].
      assert (Htf : totalShards r * per = f * per + (totalShards r - f) * per) by nia.
      destruct (Nat.ltb_spec (per * f) (len data)) as [Hpf|Hpf].
      - assert (Hsub : sub_list (bytes_of data') (per * f) (len data) = skipn (per * f) (bytes_of data)).
        { unfold sub_list. rewrite Hb, skipn_app. unfold len in *.
          replace (per * f - length (bytes_of data)) with 0 by lia. cbn [skipn].
          rewrite firstn_app, firstn_all2 by lens. lens.
          replace (length (bytes_of data) - per * f - (length (bytes_of data) - per * f)) with 0 by lia.
          apply app_nil_r. }
        rewrite Hsub.
        destruct (copy_into_spec per (totalShards r - f) (skipn (per * f) (bytes_of data))) as (H1 & H2 & H3).
        { rewrite length_skipn. unfold len in *. unfold need in *. nia. }
        split; [auto |]. split; [auto |]. unfold pad0. rewrite H3, Hb.
        rewrite firstn_app. replace (f * per - length (bytes_of data)) with 0 by (unfold len in *; lia).
        cbn [firstn]. rewrite app_nil_r, (Nat.mul_comm per f), app_assoc, firstn_skipn. do 2 f_equal.
        rewrite length_skipn. unfold len, need in *. lia.
      - split; [unfold pad0, AllocAligned; lens |]. split; [apply even_alloc |].
        unfold pad0. rewrite flat_alloc, Hb, firstn_app, firstn_all2 by (unfold len in *; lia).
        rewrite <- app_assoc. f_equal. unfold zeros. rewrite firstn_repeat_le by (unfold len in *; lia).
        rewrite <- repeat_app. f_equal. unfold len, need in *. lia. }
    destruct Hpad as (padding & -> & Hp1 & Hp2 & Hp3). unfold take_padding. rewrite Hc1, Hp1, Nat.ltb_irrefl.
    cbn [bind]. rewrite firstn_all2 by lia.
    exists (cut (totalShards r) per (bytes_of data') ++ padding). split; [auto |].
    split; [rewrite length_app; lia |]. split; [now apply Forall_app |]. now rewrite flat_app, Hc3.
  - assert (Hfe : f = totalShards r).
    { apply Nat.le_antisymm; [auto |]. apply Nat.div_le_lower_bound; [lia |]. unfold need in Hge. lia. }
    unfold take_padding. rewrite Hc1, Hfe, Nat.sub_diag. cbn [length Nat.ltb Nat.leb bind firstn].
    exists (cut (totalShards r) per (bytes_of data')). rewrite app_nil_r. split; [auto |]. split; [lia |]. split; [auto |].
    assert (Hall : length (bytes_of data') <= f * per).
    { change (length (bytes_of data')) with (len data'). rewrite Hfe. fold need. lia. }
    rewrite Hc3, firstn_all2, Hb by auto. do 2 f_equal. lia.
Qed.
End Split.

(** ** Join *)
Section Join.
Context {W : Type} `{GoodWriter W}.

Lemma copy_shards_spec shards : forall (dst : W) w, (0 <= w <= Z.of_nat (length (flat shards)))%Z ->
  exists dst', copy_shards dst shards w = Ret (dst', None) /\
    written dst' = written dst ++ firstn (Z.to_nat w) (flat shards).
Proof.
  induction shards as [|s shards IH]; intros dst w Hw.
  - exists dst. cbn. split; [auto |]. rewrite firstn_nil. now rewrite app_nil_r.
  - cbn [copy_shards]. unfold flat in *. cbn [map concat] in *. rewrite length_app in Hw.
    change (length (bytes_of s)) with (len s) in Hw. rewrite firstn_app.
    destruct (Z.ltb_spec w (Z.of_nat (len s))).
    + destruct (Z.ltb_spec w 0); [lia |].
      destruct (write_to_spec dst (firstn (Z.to_nat w) (bytes_of s))) as (dst' & -> & Hd).
      exists dst'. split; [auto |]. rewrite Hd. f_equal.
      replace (Z.to_nat w - length (bytes_of s)) with 0 by (unfold len in *; lia). now rewrite app_nil_r.
    + destruct (write_to_spec dst (bytes_of s)) as (dst1 & -> & Hd1).
      destruct (IH dst1 (w - Z.of_nat (length (bytes_of s)))%Z) as (dst' & -> & Hd); [unfold len in *; lia |].
      exists dst'. split; [auto |]. rewrite Hd, Hd1, <- app_assoc. f_equal.
      rewrite (firstn_all2 (bytes_of s)) by (unfold len in *; lia). do 2 f_equal. unfold len in *. lia.
Qed.

Lemma enough_spec shards outSize : Forall (fun s => is_nil s = false) shards -> forall size,
  exists n, enough shards size outSize = Ret n /\
    ((n >=? outSize)%Z = true \/ n = (size + Z.of_nat (length (flat shards)))%Z).
Proof.
  induction 1 as [|s l Hs Hl IH]; intros size.
  - exists size. split; [auto |]. right. cbn. lia.
  - cbn [enough]. rewrite Hs. rewrite Z.geb_leb.
    destruct (Z.leb_spec outSize (size + Z.of_nat (len s))).
    + eexists; split; [reflexivity |]. left. rewrite Z.geb_leb. now apply Z.leb_le.
    + destruct (IH (size + Z.of_nat (len s))%Z) as (n & -> & Hn). exists n. split; [auto |].
      destruct Hn as [Hn|Hn]; [now left | right]. rewrite Hn. unfold flat, len in *. cbn. rewrite length_app. lia.
Qed.

(** [Join] writes the first [outSize] bytes of the data shards. *)
Lemma Join_spec r (dst : W) shards outSize : dataShards r <= length shards ->
  Forall (fun s => is_nil s = false) (firstn (dataShards r) shards) ->
  (0 <= outSize <= Z.of_nat (length (flat (firstn (dataShards r) shards))))%Z ->
  exists dst', Join r dst shards outSize = Ret (dst', None) /\
    written dst' = written dst ++ firstn (Z.to_nat outSize) (flat (firstn (dataShards r) shards)).
Proof.
  intros Hl Hn Hs. unfold Join. destruct (Nat.ltb_spec (length shards) (dataShards r)); [lia |].
  cbv zeta. destruct (enough_spec _ outSize Hn 0) as (n & -> & Hsz).
  destruct (Z.ltb_spec n outSize); [| now apply copy_shards_spec].
  destruct Hsz as [Hsz|Hsz]; [rewrite Z.geb_leb in Hsz; apply Z.leb_le in Hsz; lia | lia].
Qed.
End Join.

(** Joining what [Split] made gives the data back. *)
Lemma Join_Split {W} `{GoodWriter W} r (dst : W) data : 0 < dataShards r ->
  totalShards r = dataShards r + parityShards r -> 1 < totalShards r ->
  0 < len data -> is_nil data = false ->
  exists shards dst', Split r data = Ret shards /\
    Join r dst shards (Z.of_nat (len data)) = Ret (dst', None) /\
    written dst' = written dst ++ bytes_of data.
Proof.
  intros Hd Ht Htot Hlen Hnil.
  destruct (Split_spec r Hd Ht data Hlen Htot Hnil) as (shards & -> & Hl & He & Hf).
  destruct (per_shard_spec r Hd Ht (len data) Hlen) as [Hp Hc].
  set (per := per_shard r (len data)) in *. exists shards.
  assert (He1 : even per (firstn (dataShards r) shards)).
  { unfold even in *. rewrite <- (firstn_skipn (dataShards r) shards), Forall_app in He. apply He. }
  assert (Hfl : length (flat (firstn (dataShards r) shards)) = dataShards r * per).
  { rewrite (length_flat per) by auto. rewrite length_firstn. f_equal. lia. }
  destruct (Join_spec r dst shards (Z.of_nat (len data))) as (dst' & -> & Hw).
  - lia.
  - eapply Forall_impl; [| exact He1]. intros s [H1 _]. exact H1.
  - lia.
  - exists dst'. split; [auto |]. split; [auto |]. rewrite Hw. f_equal. rewrite Nat2Z.id.
    assert (E : firstn (len data) (flat shards) = bytes_of data).
    { rewrite Hf, firstn_app. unfold len. rewrite firstn_all, Nat.sub_diag. cbn. apply app_nil_r. }
    rewrite <- E. rewrite <- (firstn_skipn (dataShards r) shards) at 2. rewrite flat_app, firstn_app.
    replace (len data - _) with 0 by lia. cbn [firstn]. now rewrite app_nil_r.
Qed.
