(* ===== verification/GaloisField.v ===== *)
(** * The bytes with the tables' operations are a field

    The operations of galois.go on bytes are transported to a finite type of
    MathComp, so that the linear algebra of its library (determinants, inverses,
    Vandermonde) applies to the matrices of matrix.go. *)
From HB Require Import structures.
From mathcomp Require Import boot.
From mathcomp Require Import ssralg matrix.
From Stdlib Require Import NArith Lia.
From S2P Require Galois Matrix.
From S2P Require Import Prelude.

Set Implicit Arguments.
Unset Strict Implicit.
Unset Printing Implicit Defensive.

Import GRing.Theory.
Local Open Scope ring_scope.

Abbreviation byte_ok := Galois.byte_ok.
Abbreviation gmul := Galois.galMultiply.

Definition gf := 'I_256.

Definition toGF (a : N) : gf := inord (N.to_nat a).
Definition ofGF (x : gf) : N := N.of_nat x.

Lemma ofGF_byte x : byte_ok (ofGF x).
Proof. rewrite /byte_ok /Galois.byte_ok /ofGF. move: (ltn_ord x) => /ltP. lia. Qed.

Lemma toGFK a : byte_ok a -> ofGF (toGF a) = a.
Proof.
  rewrite /Galois.byte_ok /ofGF /toGF => H. rewrite inordK; first by apply/ltP; lia.
  by rewrite N2Nat.id.
Qed.

Lemma ofGFK x : toGF (ofGF x) = x.
Proof. by rewrite /toGF /ofGF Nat2N.id inord_val. Qed.

Lemma ofGF_inj : injective ofGF.
Proof. exact: can_inj ofGFK. Qed.

Lemma toGF_inj a b : byte_ok a -> byte_ok b -> toGF a = toGF b -> a = b.
Proof. by move=> /toGFK {2}<- /toGFK {2}<- ->. Qed.

Definition gf_add (x y : gf) : gf := toGF (Galois.galAdd (ofGF x) (ofGF y)).
Definition gf_mul (x y : gf) : gf := toGF (gmul (ofGF x) (ofGF y)).
Definition gf_inv (x : gf) : gf :=
  match @Galois.galOneOver unit (ofGF x) with Ret v => toGF v | _ => toGF 0 end.

Lemma lxor_ok a b : byte_ok a -> byte_ok b -> byte_ok (N.lxor a b).
Proof. exact: Galois.byte_lxor. Qed.

Lemma gmul_ok a b : byte_ok a -> byte_ok b -> byte_ok (gmul a b).
Proof. exact: Galois.galMultiply_byte. Qed.

Lemma byte0 : byte_ok 0. Proof. by []. Qed.
Lemma byte1 : byte_ok 1. Proof. by []. Qed.

#[local] Hint Resolve ofGF_byte lxor_ok gmul_ok byte0 byte1 : core.

Lemma of_add x y : ofGF (gf_add x y) = N.lxor (ofGF x) (ofGF y).
Proof. by rewrite toGFK //; apply: lxor_ok. Qed.

Lemma of_mul x y : ofGF (gf_mul x y) = gmul (ofGF x) (ofGF y).
Proof. by rewrite toGFK //; apply: gmul_ok. Qed.

Fact addA : associative gf_add.
Proof. by move=> x y z; apply: ofGF_inj; rewrite !of_add N.lxor_assoc. Qed.
Fact addC : commutative gf_add.
Proof. by move=> x y; apply: ofGF_inj; rewrite !of_add N.lxor_comm. Qed.
Fact add0 : left_id (toGF 0) gf_add.
Proof. by move=> x; apply: ofGF_inj; rewrite of_add toGFK // N.lxor_0_l. Qed.
Fact addN : left_inverse (toGF 0) id gf_add.
Proof. by move=> x; apply: ofGF_inj; rewrite of_add toGFK // N.lxor_nilpotent. Qed.

HB.instance Definition _ := Choice.on gf.
HB.instance Definition _ := GRing.isZmodule.Build gf addA addC add0 addN.

Fact mulA : associative gf_mul.
Proof. by move=> x y z; apply: ofGF_inj; rewrite !of_mul Galois.galMultiply_assoc //; apply: ofGF_byte. Qed.
Fact mulC : commutative gf_mul.
Proof. by move=> x y; apply: ofGF_inj; rewrite !of_mul Galois.galMultiply_comm //; apply: ofGF_byte. Qed.
Fact mul1 : left_id (toGF 1) gf_mul.
Proof. by move=> x; apply: ofGF_inj; rewrite of_mul toGFK // Galois.galMultiply_1_l //; apply: ofGF_byte. Qed.
Fact mulD : left_distributive gf_mul gf_add.
Proof.
  move=> x y z; apply: ofGF_inj. rewrite of_mul !of_add !of_mul.
  by rewrite Galois.galMultiply_lxor_l //; apply: ofGF_byte.
Qed.
Fact one_neq0 : toGF 1 != toGF 0.
Proof. by apply/eqP => /toGF_inj; move/(_ byte1 byte0). Qed.

HB.instance Definition _ := GRing.Zmodule_isComNzRing.Build gf mulA mulC mul1 mulD one_neq0.

Fact mulV x : x != 0 -> gf_inv x * x = 1.
Proof.
  move=> /eqP Hx. rewrite /gf_inv.
  have H0 : ofGF x <> 0%N by move=> H; apply: Hx; rewrite -(ofGFK x) H.
  have [v [-> [Hv [_ Hm]]]] := @Galois.galOneOver_inv unit _ (ofGF_byte x) H0.
  apply: ofGF_inj. rewrite of_mul !toGFK // Galois.galMultiply_comm //. exact: ofGF_byte.
Qed.
Fact inv0 : gf_inv 0 = 0.
Proof. by rewrite /gf_inv (_ : ofGF 0 = 0%N) // toGFK. Qed.

HB.instance Definition _ := GRing.ComNzRing_isField.Build gf mulV inv0.

(** ** The bridge *)

Lemma toGF0 : toGF 0 = 0. Proof. by []. Qed.
Lemma toGF1 : toGF 1 = 1. Proof. by []. Qed.

Lemma toGF_lxor a b : byte_ok a -> byte_ok b -> toGF (N.lxor a b) = toGF a + toGF b.
Proof. by move=> Ha Hb; apply: ofGF_inj; rewrite of_add !toGFK //; apply: lxor_ok. Qed.

Lemma toGF_mul a b : byte_ok a -> byte_ok b -> toGF (gmul a b) = toGF a * toGF b.
Proof. by move=> Ha Hb; apply: ofGF_inj; rewrite of_mul !toGFK //; apply: gmul_ok. Qed.

Lemma toGF_inv {E} a : byte_ok a -> a <> 0%N ->
  exists v, @Galois.galOneOver E a = Ret v /\ byte_ok v /\ toGF v = (toGF a)^-1.
Proof.
  move=> Ha H0. have [v [-> [Hv [_ Hm]]]] := @Galois.galOneOver_inv E _ Ha H0.
  exists v. split=> //. split=> //. apply: (@mulfI _ (toGF a)).
  - by apply/eqP => /toGF_inj H; apply: H0; apply: H.
  - rewrite divff; first by apply/eqP => /toGF_inj H; apply: H0; apply: H.
    by rewrite -toGF_mul // Hm.
Qed.

Lemma toGF_pow a n : byte_ok a -> toGF (Galois.gpow a n) = toGF a ^+ n.
Proof.
  move=> Ha. elim: n => [|n IH]; first by [].
  rewrite exprS -IH /Galois.gpow /=. apply: toGF_mul => //. exact: Galois.gpow_byte.
Qed.

Lemma toGF_xsum n f : (forall i, (i < n)%coq_nat -> byte_ok (f i)) ->
  toGF (Matrix.xsum n f) = \sum_(i < n) toGF (f i).
Proof.
  elim: n => [|n IH] H; first by rewrite big_ord0.
  rewrite big_ord_recr /= toGF_lxor.
  - apply: Matrix.xsum_byte => i Hi. apply: H. lia.
  - apply: H. lia.
  - rewrite IH // => i Hi. apply: H. lia.
Qed.

Lemma gf_opp (x : gf) : - x = x. Proof. by []. Qed.
Lemma gf_sub (x y : gf) : x - y = x + y. Proof. by []. Qed.
