(* ===== verification/MatrixField.v ===== *)
(** * Matrices over the byte field as matrices of MathComp

    The operations of matrix.go compute the matrix product and the inverse: the
    elimination of [Invert] succeeds exactly on the non-singular matrices. *)
From HB Require Import structures.
From mathcomp Require Import boot.
From mathcomp Require Import ssralg matrix mxalgebra.
From Stdlib Require Import NArith ZArith Lia.
From S2P Require Galois RSTypes Matrix.
From S2P Require Import Prelude GaloisField.

Set Implicit Arguments.
Unset Strict Implicit.
Unset Printing Implicit Defensive.

Import GRing.Theory.
Local Open Scope ring_scope.

Abbreviation entry := Matrix.entry.
Abbreviation wf := Matrix.wf.

(** The matrix a list of rows represents. *)
Definition mx (k l : nat) (m : Matrix.matrix) : 'M[gf]_(k, l) := \matrix_(i, j) toGF (entry m i j).

Definition vec (l : nat) (x : nat -> N) : 'cV[gf]_l := \col_j toGF (x j).

Lemma ltP' {n} (i : 'I_n) : (i < n)%coq_nat.
Proof. exact/ltP. Qed.
#[local] Hint Resolve ltP' : core.

Section Bridge.
Context {k l : nat} (m : Matrix.matrix) (Hm : wf k l m).

Lemma mx_inj m' : wf k l m' -> mx k l m = mx k l m' -> m = m'.
Proof.
  move=> Hm' /matrixP H. apply: (Matrix.wf_ext _ _ _ _ Hm Hm') => i j /ltP Hi /ltP Hj.
  move: (H (Ordinal Hi) (Ordinal Hj)). rewrite !mxE /=.
  by move/toGF_inj; apply; apply: Matrix.entry_byte; eassumption.
Qed.

Lemma dot_mx x i : Matrix.vec_ok x -> toGF (Matrix.dot l m i x) = \sum_(j < l) toGF (entry m i j) * toGF (x j).
Proof.
  move=> Hx. rewrite /Matrix.dot toGF_xsum.
  - by move=> j Hj; apply: gmul_ok; [apply: Matrix.entry_byte; eassumption | apply: Hx].
  - apply: eq_bigr => j _. apply: toGF_mul; [apply: Matrix.entry_byte; eassumption | exact: Hx].
Qed.

Lemma dot_mx_byte x i : Matrix.vec_ok x -> byte_ok (Matrix.dot l m i x).
Proof.
  move=> Hx. apply: Matrix.xsum_byte => j Hj.
  by apply: gmul_ok; [apply: Matrix.entry_byte; eassumption | apply: Hx].
Qed.

Lemma ker_mx x : Matrix.vec_ok x -> (Matrix.ker k l m x <-> mx k l m *m vec l x = 0).
Proof.
  move=> Hx. split.
  - move=> Hk. apply/colP => i. rewrite !mxE.
    under eq_bigr do rewrite !mxE. by rewrite -dot_mx // Hk.
  - move=> /colP H i /ltP Hi. move: (H (Ordinal Hi)). rewrite !mxE.
    under eq_bigr do rewrite !mxE. rewrite -dot_mx // => H0.
    by apply: toGF_inj => //; apply: dot_mx_byte.
Qed.
End Bridge.

(** Every vector of the field is represented. *)
Definition unvec (l : nat) (v : 'cV[gf]_l) (j : nat) : N :=
  match (insub j : option 'I_l) with Some i => ofGF (v i ord0) | None => 0%N end.

Lemma unvec_ok l (v : 'cV[gf]_l) : Matrix.vec_ok (unvec v).
Proof. rewrite /unvec => j. case: insubP => [u _ _|_] //. exact: ofGF_byte. Qed.

Lemma unvecK l (v : 'cV[gf]_l) : vec l (unvec v) = v.
Proof.
  apply/colP => i. rewrite !mxE /unvec insubT //= => Hi.
  by rewrite ofGFK; congr (v _ _); apply: val_inj.
Qed.

Lemma row_equiv_mx k l m m' (v : 'cV[gf]_l) : wf k l m -> wf k l m' -> Matrix.row_equiv k l m m' ->
  mx k l m *m v = 0 <-> mx k l m' *m v = 0.
Proof.
  move=> Hm Hm' He. rewrite -(unvecK v) -(ker_mx Hm (@unvec_ok _ v)) -(ker_mx Hm' (@unvec_ok _ v)).
  apply: He. exact: unvec_ok.
Qed.

Lemma toGF_delta (a b : nat) : toGF (if Nat.eqb a b then 1%N else 0%N) = (a == b)%:R.
Proof. by rewrite -[Nat.eqb a b]/(eqn a b) eqnE; case: (a == b). Qed.

(** ** The product *)
Lemma Multiply_mx k n l a b : (0 < k)%coq_nat -> (0 < n)%coq_nat -> (0 < l)%coq_nat -> wf k n a -> wf n l b ->
  exists c, Matrix.Multiply a b = Ret c /\ wf k l c /\ mx k l c = mx k n a *m mx n l b.
Proof.
  move=> Hk Hn Hl Ha Hb.
  have [c [-> [Hc He]]] := Matrix.Multiply_spec _ _ _ _ _ Hk Hn Hl Ha Hb.
  exists c. split=> //. split=> //. apply/matrixP => i j. rewrite !mxE He //.
  rewrite /Matrix.prod_entry toGF_xsum.
  - by move=> x Hx; apply: gmul_ok; apply: Matrix.entry_byte; eassumption.
  - apply: eq_bigr => x _. rewrite !mxE. apply: toGF_mul; apply: Matrix.entry_byte; eassumption.
Qed.

(** ** A dependent left block *)
Lemma wide_ker (F : fieldType) r n (A : 'M[F]_(r, n)) : (r < n)%nat -> exists2 u : 'cV[F]_n, u != 0 & A *m u = 0.
Proof.
  move=> Hr. have: kermx A^T != 0.
  { rewrite kermx_eq0 /row_free mxrank_tr. apply/eqP => H.
    move: (rank_leq_row A). by rewrite H leqNgt Hr. }
  case/rowV0Pn => v Hv Hv0. exists v^T; first by rewrite trmx_eq0.
  apply: trmx_inj. rewrite trmx_mul trmxK trmx0. by apply/sub_kermxP.
Qed.

Lemma mx_row k p q m : mx k (p + q) m = row_mx (mx k p m) (\matrix_(i, j) toGF (entry m i (p + j))).
Proof.
  apply/matrixP => i j. rewrite !mxE. by case: splitP => j' Hj; rewrite !mxE Hj.
Qed.

Lemma singular_mx r q w : Matrix.singular_at (r.+1 + q) r w ->
  exists2 u : 'cV[gf]_(r.+1 + q), u != 0 & mx (r.+1 + q) (r.+1 + q) w *m u = 0.
Proof.
  move=> Hs. have [u Hu HA] := wide_ker (mx r r.+1 w) (ltnSn r).
  exists (col_mx u 0).
  - apply: contra Hu => /eqP H. by rewrite -[u](col_mxKu u (0 : 'cV_q)) H linear0.
  - rewrite mx_row mul_row_col mulmx0 addr0. apply/colP => i. rewrite !mxE.
    case: (ltnP i r) => Hi.
    + move/colP: HA => /(_ (Ordinal Hi)). rewrite !mxE => HA. rewrite -[RHS]HA.
      by apply: eq_bigr => j _; rewrite !mxE.
    + apply: big1 => j _. rewrite !mxE Hs ?toGF0 ?mul0r //.
      * by split=> //; apply/leP.
      * by apply/leP; rewrite -ltnS.
Qed.

(** ** The inverse *)

(** Blocks with the solutions of [M | 1] on the left and [1 | B] on the right. *)
Lemma inverse_of_solutions k (M B : 'M[gf]_k) :
  (forall v : 'cV_(k + k), row_mx M 1%:M *m v = 0 <-> row_mx 1%:M B *m v = 0) -> M *m B = 1%:M.
Proof.
  move=> H. apply: trmx_inj. apply/row_matrixP => j. rewrite -!tr_col. congr trmx.
  rewrite !colE -mulmxA.
  have /H: row_mx 1%:M B *m col_mx (- (B *m delta_mx j 0)) (delta_mx j (0 : 'I_1)) = 0.
  { by rewrite mul_row_col mul1mx addNr. }
  by rewrite mul_row_col !mul1mx mulmxN => /eqP; rewrite addrC subr_eq0 => /eqP <-.
Qed.

Lemma singular_of_solutions k (M L R : 'M[gf]_k) u :
  (forall v : 'cV_(k + k), row_mx M 1%:M *m v = 0 <-> row_mx L R *m v = 0) ->
  u != (0 : 'cV_k) -> L *m u = 0 -> M \notin unitmx.
Proof.
  move=> H Hu HL. have /H: row_mx L R *m col_mx u 0 = 0 by rewrite mul_row_col HL mulmx0 addr0.
  rewrite mul_row_col mulmx0 addr0 => HM. apply: contra Hu => HU.
  by rewrite -[u](mulKmx HU) HM mulmx0.
Qed.

Definition right_block k (w : Matrix.matrix) : 'M[gf]_k := \matrix_(i, j) toGF (entry w i (k + j)).

Lemma mx_ext k l m m' : (forall i j, i < k -> j < l -> entry m i j = entry m' i j)%coq_nat ->
  mx k l m = mx k l m'.
Proof. by move=> H; apply/matrixP => i j; rewrite !mxE H. Qed.

Lemma mx_one k m : (forall i j, i < k -> j < k -> entry m i j = if Nat.eqb i j then 1%N else 0%N)%coq_nat ->
  mx k k m = 1%:M.
Proof. by move=> H; apply/matrixP => i j; rewrite !mxE H // toGF_delta. Qed.

(** [Augment] with the identity, as [Invert] does. *)
Lemma augmented k m : (0 < k)%coq_nat -> wf k k m -> exists w,
  (work <- Matrix.drop_error (Matrix.identityMatrix (Z.of_nat k)) ;;
   Matrix.drop_error (Matrix.Augment m work)) = Ret w /\
  wf k (k + k) w /\ mx k (k + k) w = row_mx (mx k k m) 1%:M.
Proof.
  move=> Hk Hm. have [i [-> [Hi Hie]]] := Matrix.identityMatrix_spec k Hk.
  have [w [Hw [Hww Hwe]]] := Matrix.Augment_spec k k k m i Hk Hk Hk Hm Hi.
  rewrite /= Hw. exists w. split=> //. split=> //. rewrite mx_row. congr row_mx.
  - apply: mx_ext => x y Hx Hy. rewrite Hwe ?(proj2 (PeanoNat.Nat.ltb_lt y k)) //. lia.
  - apply/matrixP => x y. rewrite !mxE Hwe //; first by rewrite -plusE; move: (ltP' y); lia.
    rewrite (proj2 (PeanoNat.Nat.ltb_ge _ _)); first by rewrite -plusE; lia.
    rewrite (_ : (_ - k)%coq_nat = y); first by rewrite -plusE; lia.
    by rewrite Hie // toGF_delta.
Qed.

(** [Invert] never panics; it returns the inverse of a non-singular matrix and
    [errSingular] on a singular one. *)
Lemma Invert_mx k m : (0 < k)%coq_nat -> wf k k m ->
  oc_spec (Matrix.Invert m)
    (fun b => wf k k b /\ mx k k m *m mx k k b = 1%:M)
    (fun e => e = RSTypes.errSingular /\ mx k k m \notin unitmx).
Proof.
  move=> Hk Hm. rewrite /Matrix.Invert /Matrix.IsSquare (Matrix.idx_row m Hm _ Hk) /=.
  have [-> _] := Matrix.wf_row m Hm _ Hk. rewrite (Matrix.wf_length m Hm) PeanoNat.Nat.eqb_refl /=.
  have [w [Hw [Hww Hwm]]] := augmented Hk Hm. move: Hw.
  case: (Matrix.drop_error (Matrix.identityMatrix _)) => //= i ->. rewrite /=.
  have Hkk : (k <= k + k)%coq_nat by rewrite -plusE; lia.
  apply: oc_bind.
  - apply: oc_weaken; [exact: (Matrix.gaussianElimination_spec Hkk w Hk Hww) | by move=> x; apply |].
    move=> e [-> [w' [r [Hr [Hw' [He Hs]]]]]]. split=> //.
    have Ek : (k = r.+1 + (k - r.+1))%nat by rewrite subnKC //; apply/ltP.
    have [u Hu HL] : exists2 u : 'cV_k, u != 0 & mx k k w' *m u = 0.
    { move: Hs. rewrite Ek. exact: singular_mx. }
    apply: (singular_of_solutions _ Hu HL) => v.
    rewrite -Hwm (row_equiv_mx v Hww Hw' He) mx_row. reflexivity.
  - move=> w' [Hw' [He Hid]].
    have [b [Hb [Hbw Hbe]]] := Matrix.SubMatrix_spec _ _ w' 0 k k (k + k) Hw' (conj Hk (le_n k)) ltac:(rewrite -plusE; lia).
    rewrite (_ : Nat.mul k 2 = (k + k)%nat); first by rewrite -plusE; lia.
    rewrite Hb /=. move: Hbw. rewrite PeanoNat.Nat.sub_0_r (_ : (k + k - k)%coq_nat = k); first by rewrite -plusE; lia.
    move=> Hbw. split=> //. apply: inverse_of_solutions => v.
    rewrite -Hwm (row_equiv_mx v Hww Hw' He) mx_row (mx_one Hid).
    rewrite (_ : \matrix_(i, j) _ = mx k k b) //.
    apply/matrixP => i' j'. rewrite !mxE Hbe ?PeanoNat.Nat.sub_0_r //.
    rewrite -plusE. move: (ltP' j'). lia.
Qed.

(** ** In terms of bytes *)

Definition is_identity (k : nat) (f : nat -> nat -> N) : Prop :=
  forall i j, (i < k)%coq_nat -> (j < k)%coq_nat -> f i j = if Nat.eqb i j then 1%N else 0%N.

Lemma prod_mx k a b : wf k k a -> wf k k b ->
  (is_identity k (Matrix.prod_entry k a b) <-> mx k k a *m mx k k b = 1%:M).
Proof.
  move=> Ha Hb.
  have Hbyte i j x : byte_ok (gmul (entry a i x) (entry b x j))
    by apply: gmul_ok; apply: Matrix.entry_byte; eassumption.
  have He i j : toGF (Matrix.prod_entry k a b i j) = \sum_(x < k) toGF (entry a i x) * toGF (entry b x j).
  { rewrite /Matrix.prod_entry toGF_xsum; first by move=> x Hx; apply: Hbyte.
    apply: eq_bigr => x _. apply: toGF_mul; apply: Matrix.entry_byte; eassumption. }
  split.
  - move=> H. apply/matrixP => i j. rewrite !mxE -toGF_delta -(H i j (ltP' i) (ltP' j)) He.
    by apply: eq_bigr => x _; rewrite !mxE.
  - move=> /matrixP H i j /ltP Hi /ltP Hj. apply: toGF_inj.
    + by apply: Matrix.xsum_byte => x Hx; apply: Hbyte.
    + by case: Nat.eqb.
    + rewrite toGF_delta He. move: (H (Ordinal Hi) (Ordinal Hj)). rewrite !mxE => <-.
      by apply: eq_bigr => x _; rewrite !mxE.
Qed.

Lemma Invert_spec k m : (0 < k)%coq_nat -> wf k k m ->
  oc_spec (Matrix.Invert m)
    (fun b => wf k k b /\ is_identity k (Matrix.prod_entry k m b) /\ is_identity k (Matrix.prod_entry k b m))
    (fun e => e = RSTypes.errSingular /\ forall b, wf k k b -> is_identity k (Matrix.prod_entry k m b) -> False).
Proof.
  move=> Hk Hm. move: (Invert_mx Hk Hm). case: (Matrix.Invert m) => //= [b [Hb HI] | e [-> HU]].
  - split=> //. split; first by apply/(prod_mx Hm Hb). apply/(prod_mx Hb Hm). exact: mulmx1C.
  - split=> // b Hb /(prod_mx Hm Hb) /mulmx1_unit [HU' _]. by rewrite HU' in HU.
Qed.
