(* ===== verification/EncodingMDS.v ===== *)
(** * Any [dataShards] rows of the encoding matrices determine the data

    [buildMatrix] (a Vandermonde matrix times the inverse of its top square) and
    [buildMatrixCauchy] give matrices whose every square choice of rows is
    invertible; an inverse undoes the coding. *)
From HB Require Import structures.
From mathcomp Require Import boot.
From mathcomp Require Import ssralg matrix mxalgebra poly.
From Stdlib Require Import NArith ZArith Lia List.
From S2P Require Galois RSTypes Matrix EncodingMatrix.
From S2P Require Import Prelude GaloisField MatrixField.

Set Implicit Arguments.
Unset Strict Implicit.
Unset Printing Implicit Defensive.

Import GRing.Theory.
Local Open Scope ring_scope.
Import EncodingMatrix.
#[local] Hint Resolve ltP' : core.

Lemma Invert_unit k m : (0 < k)%coq_nat -> wf k k m -> mx k k m \in unitmx ->
  exists b, Matrix.Invert m = Ret b /\ wf k k b /\ mx k k m *m mx k k b = 1%:M.
Proof.
  move=> Hk Hm HU. move: (Invert_mx Hk Hm). case: (Matrix.Invert m) => //= [b H | e [_]]; last by rewrite HU.
  by exists b.
Qed.

(** The identity is its own inverse. *)
Lemma Invert_identity k i : (0 < k)%coq_nat -> Matrix.identityMatrix (Z.of_nat k) = Ret i ->
  Matrix.Invert i = Ret i.
Proof.
  move=> Hk Hi. have [i' [Hi' [Hw He]]] := Matrix.identityMatrix_spec k Hk.
  move: Hi'. rewrite Hi => -[E]. subst i'.
  have H1 : mx k k i = 1%:M by apply: mx_one.
  have [b [-> [Hb HM]]] := Invert_unit Hk Hw ltac:(by rewrite H1 unitmx1).
  congr Ret. apply: (mx_inj Hb Hw). move: HM. by rewrite H1 mul1mx.
Qed.

(** The inverse undoes the product with a vector. *)
Lemma Invert_solves k m b x i : (0 < k)%coq_nat -> wf k k m -> Matrix.Invert m = Ret b ->
  Matrix.vec_ok x -> (i < k)%coq_nat ->
  Matrix.dot k b i (fun r => Matrix.dot k m r x) = x i.
Proof.
  move=> Hk Hm Hb Hx /ltP Hi. move: (Invert_mx Hk Hm). rewrite Hb /= => -[Hw /mulmx1C HI].
  have Hd : Matrix.vec_ok (fun r => Matrix.dot k m r x) by move=> r; exact: (dot_mx_byte Hm).
  apply: toGF_inj; [exact: (dot_mx_byte Hw) | exact: Hx |].
  transitivity ((mx k k b *m (mx k k m *m vec k x)) (Ordinal Hi) 0).
  - rewrite (dot_mx Hw) // mxE. apply: eq_bigr => r _. rewrite !mxE (dot_mx Hm) //.
    by congr (_ * _); apply: eq_bigr => c _; rewrite !mxE.
  - by rewrite mulmxA HI mul1mx mxE.
Qed.

Section Rows.
Context (d t : nat) (m : Matrix.matrix) (Hm : wf t d m).
Context (rows : list nat) (Hlen : length rows = d) (Hnd : List.NoDup rows)
  (Hrows : List.Forall (fun i => (i < t)%coq_nat) rows).

Definition row_at (i : 'I_d) : nat := List.nth i rows 0%nat.

Lemma row_at_lt i : (row_at i < t)%coq_nat.
Proof. apply: (proj1 (List.Forall_forall _ _) Hrows). rewrite /row_at. apply List.nth_In. rewrite Hlen. exact: ltP'. Qed.

Lemma row_at_inj : injective row_at.
Proof.
  move=> i j H. apply: val_inj.
  have := proj1 (List.NoDup_nth rows 0%nat) Hnd i j. rewrite Hlen => H1.
  exact: (H1 (ltP' i) (ltP' j) H).
Qed.

Lemma select_mxE i j : mx d d (select m rows) i j = toGF (entry m (row_at i) j).
Proof. by rewrite mxE select_entry // Hlen. Qed.

Lemma select_square : wf d d (select m rows).
Proof. rewrite -{1}Hlen. exact: (select_wf _ t). Qed.
End Rows.

Lemma mds_of_unit d t m : (0 < d)%coq_nat -> wf t d m ->
  (forall rows, length rows = d -> List.NoDup rows -> List.Forall (fun i => (i < t)%coq_nat) rows ->
     mx d d (select m rows) \in unitmx) -> any_rows_invertible d t m.
Proof.
  move=> Hd Hm H rows Hl Hn Hf.
  have [b [Hb _]] := Invert_unit Hd (select_square Hm Hl Hf) (H rows Hl Hn Hf). by exists b.
Qed.

(** ** Vandermonde *)
Section Vandermonde.
Context (d t : nat) (Hd : (0 < d)%coq_nat) (Ht : (t <= 256)%coq_nat).
Context (vm : Matrix.matrix) (Hvm : wf t d vm)
  (Hent : forall i j, (i < t)%coq_nat -> (j < d)%coq_nat -> entry vm i j = Galois.gpow (N.of_nat i) j).

Lemma of_nat_byte i : (i < t)%coq_nat -> byte_ok (N.of_nat i).
Proof. rewrite /byte_ok /Galois.byte_ok. lia. Qed.

Lemma vandermonde_unit rows : length rows = d -> List.NoDup rows ->
  List.Forall (fun i => (i < t)%coq_nat) rows -> mx d d (select vm rows) \in unitmx.
Proof.
  move=> Hl Hn Hf. pose a : 'rV[gf]_d := \row_i toGF (N.of_nat (row_at rows i)).
  have ->: mx d d (select vm rows) = (Vandermonde d a)^T.
  { apply/matrixP => i j. rewrite select_mxE // !mxE Hent //; first exact: row_at_lt.
    apply: toGF_pow. apply: of_nat_byte. exact: row_at_lt. }
  rewrite unitmx_tr unitmxE det_Vandermonde unitfE.
  apply/prodf_neq0 => i _. apply/prodf_neq0 => j Hij. rewrite !mxE subr_eq0. apply/eqP => /toGF_inj H.
  have E : row_at rows j = row_at rows i.
  { apply: Nnat.Nat2N.inj. by apply: H; apply: of_nat_byte; exact: row_at_lt. }
  move: (row_at_inj Hl Hn E) Hij => ->. by rewrite ltnn.
Qed.
End Vandermonde.

(** ** The default matrix *)
Lemma buildMatrix_spec d t : (0 < d)%coq_nat -> (d <= t)%coq_nat -> (t <= 256)%coq_nat ->
  exists m, buildMatrix d t = Ret m /\ wf t d m /\ systematic d m /\ any_rows_invertible d t m.
Proof.
  move=> Hd Hdt Ht. have Ht0 : (0 < t)%coq_nat by lia.
  have [vm [Hv [Hvw Hve]]] := Matrix.vandermonde_spec t d (conj Ht0 Ht) Hd.
  have [top [Htop [Htw Hte]]] := Matrix.SubMatrix_spec _ _ vm 0 0 d d Hvw (conj Hd Hdt) (conj Hd (le_n d)).
  rewrite /buildMatrix Hv /= Htop /=. move: Htw Hte. rewrite !PeanoNat.Nat.sub_0_r => Htw Hte.
  have Hseq : List.Forall (fun i => (i < t)%coq_nat) (List.seq 0 d).
  { apply/List.Forall_forall => i /List.in_seq [_ Hi]. lia. }
  have Etop : mx d d top = mx d d (select vm (List.seq 0 d)).
  { apply/matrixP => i j. rewrite (select_mxE _ (List.length_seq _ _)) mxE Hte //.
    by rewrite /row_at List.seq_nth. }
  have HU := vandermonde_unit Hd Ht Hve.
  have HUtop : mx d d top \in unitmx.
  { rewrite Etop. apply: HU => //; [exact: List.length_seq | exact: List.seq_NoDup]. }
  have [b [-> [Hb HI]]] := Invert_unit Hd Htw HUtop. rewrite /=.
  have [m [Hm [Hmw Hmm]]] := Multiply_mx Ht0 Hd Hd Hvw Hb. exists m. split=> //. split=> //.
  have Hsel rows : length rows = d -> List.Forall (fun i => (i < t)%coq_nat) rows ->
      mx d d (select m rows) = mx d d (select vm rows) *m mx d d b.
  { move=> Hl Hf. apply/matrixP => i j. rewrite (select_mxE _ Hl) mxE.
    have /ltP Hr := row_at_lt Hl Hf i.
    move/matrixP: Hmm => /(_ (Ordinal Hr) j). rewrite !mxE /= => ->.
    by apply: eq_bigr => c _; rewrite (select_mxE _ Hl) mxE. }
  split.
  - move=> i j Hi Hj. have := Hsel _ (List.length_seq _ _) Hseq. rewrite -Etop HI => /matrixP.
    move/ltP: (Hi) => Hi'. move/ltP: (Hj) => Hj' /(_ (Ordinal Hi') (Ordinal Hj')).
    rewrite (select_mxE _ (List.length_seq _ _)) mxE /row_at List.seq_nth //= => H.
    apply: toGF_inj; [apply: Matrix.entry_byte; eassumption | by case: Nat.eqb |].
    by rewrite H toGF_delta.
  - apply: mds_of_unit => // rows Hl Hn Hf. rewrite Hsel // unitmx_mul HU //=.
    by have [] := mulmx1_unit HI.
Qed.

(** ** The Cauchy matrix *)
Lemma unit_of_ker (F : fieldType) n (A : 'M[F]_n) :
  (forall u : 'cV_n, A *m u = 0 -> u = 0) -> A \in unitmx.
Proof.
  move=> H. rewrite -unitmx_tr -row_free_unit -kermx_eq0. apply/rowV0P => v /sub_kermxP Hv.
  apply: trmx_inj. rewrite trmx0. apply: H. apply: trmx_inj. by rewrite trmx_mul trmxK trmx0.
Qed.

Section Interpolation.
Context (F : fieldType) (n : nat) (y : 'I_n -> F) (u : 'cV[F]_n) (Hy : injective y).
Local Open Scope nat_scope.

(** The Lagrange basis of the points [y], not normalised. *)
Definition basis (j : 'I_n) : {poly F} := (\prod_(k < n | k != j) ('X - (y k)%:P))%R.
Definition interp : {poly F} := (\sum_(j < n) u j ord0 *: basis j)%R.

Lemma size_basis j : size (basis j) <= n.
Proof.
  rewrite /basis -big_filter size_prod_XsubC size_filter.
  have := count_predC (fun k => k != j) (index_enum 'I_n).
  rewrite [size _](_ : _ = n); first by rewrite -[index_enum _]enumT size_enum_ord.
  have: has (predC (fun k => k != j)) (index_enum 'I_n).
  { by apply/hasP; exists j; [exact: mem_index_enum | rewrite /= eqxx]. }
  rewrite has_count. set a := count _ _. set b := count _ _. move=> Hb Hab.
  by rewrite -Hab -addn1 leq_add2l.
Qed.

Lemma size_interp : size interp <= n.
Proof.
  apply: leq_trans (size_sum _ _ _) _. apply/bigmax_leqP => j _.
  exact: leq_trans (size_scale_leq _ _) (size_basis j).
Qed.

Lemma horner_interp x : (interp.[x] = \sum_(j < n) u j ord0 * \prod_(k < n | k != j) (x - y k))%R.
Proof.
  rewrite /interp horner_sum. apply: eq_bigr => j _. rewrite hornerZ horner_prod.
  by congr (_ * _)%R; apply: eq_bigr => k _; rewrite hornerXsubC.
Qed.

Lemma interp_at j : (interp.[y j] = u j ord0 * \prod_(k < n | k != j) (y j - y k))%R.
Proof.
  rewrite horner_interp (bigD1 j) //= [X in (_ + X)%R]big1 ?addr0 // => i Hi.
  by rewrite (bigD1 j) ?[j == i]eq_sym //= subrr mul0r mulr0.
Qed.

Lemma interp_zero : interp = 0%R -> u = 0%R.
Proof.
  move=> H. apply/colP => j. rewrite mxE. have := interp_at j. rewrite H horner0 => /esym/eqP.
  rewrite mulf_eq0 => /orP [/eqP //|/eqP H0]. exfalso. move/eqP: H0. apply/negP.
  apply/prodf_neq0 => k Hk. rewrite subr_eq0. apply: contra Hk => /eqP /Hy ->. exact: eqxx.
Qed.

(** Outside of the points: a root when the Cauchy sum vanishes. *)
Lemma interp_cauchy x : (forall k, x != y k) ->
  (\sum_(j < n) u j ord0 / (x - y j) = 0 -> interp.[x] = 0)%R.
Proof.
  move=> Hx H0. rewrite horner_interp.
  rewrite (eq_bigr (fun j => (\prod_(k < n) (x - y k)) * (u j ord0 / (x - y j)))%R).
  - move=> j _. rewrite [in RHS](bigD1 j) //=. set p := (\prod_(_ < _ | _) _)%R.
    have Hj : (x - y j)%R != 0%R by rewrite subr_eq0.
    by rewrite [((x - y j) * p)%R]mulrC mulrACA divff // mulr1 mulrC.
  - by rewrite -big_distrr /= H0 mulr0.
Qed.
End Interpolation.

Lemma toGF_invTable a : byte_ok a -> a <> 0%N -> toGF (Galois.at_byte Galois.invTable a) = (toGF a)^-1.
Proof.
  move=> Ha H0. have Hv := Galois.invTable_byte _ Ha.
  have Hn : toGF a != 0 by apply/eqP => /toGF_inj H; apply: H0; apply: H.
  apply: (mulfI Hn). by rewrite divff // -toGF_mul // Galois.invTable_inv.
Qed.

Lemma of_nat_inj a b : (a < 256)%coq_nat -> (b < 256)%coq_nat ->
  toGF (N.of_nat a) = toGF (N.of_nat b) -> a = b.
Proof. move=> Ha Hb /toGF_inj H. apply: Nnat.Nat2N.inj. by apply: H; rewrite /Galois.byte_ok; lia. Qed.

Lemma cauchy_rows_invertible d t : (0 < d)%coq_nat -> (d <= t)%coq_nat -> (t <= 256)%coq_nat ->
  exists m, buildMatrixCauchy d t = Ret m /\ wf t d m /\ systematic d m /\ any_rows_invertible d t m.
Proof.
  move=> Hd Hdt Ht. have [m [Hm [Hw [Hsys He]]]] := buildMatrixCauchy_spec d t Hd Hdt Ht.
  exists m. split=> //. split=> //. split=> //. apply: mds_of_unit => // rows Hl Hn Hf.
  apply: unit_of_ker => u Hu.
  pose y (j : 'I_d) : gf := toGF (N.of_nat j).
  have Hj (j : 'I_d) : (j < 256)%coq_nat by move: (ltP' j); lia.
  have Hy : injective y by move=> i j /of_nat_inj H; apply: val_inj; apply: H.
  apply: (@interp_zero _ _ y) => //. apply/eqP.
  pose rs := [seq toGF (N.of_nat (row_at rows i)) | i : 'I_d].
  have Hr (i : 'I_d) : (row_at rows i < 256)%coq_nat by move: (row_at_lt Hl Hf i); lia.
  have Hroots : all (root (interp y u)) rs.
  { apply/allP => x /mapP [i _ ->]. apply/rootP. move/colP: Hu => /(_ i). rewrite !mxE => Hu.
    case: (PeanoNat.Nat.lt_ge_cases (row_at rows i) d) => Hid.
    - have Hid' := Hid. move/ltP in Hid'. rewrite -[row_at rows i]/(nat_of_ord (Ordinal Hid')).
      rewrite -/(y _) interp_at. rewrite (_ : u _ _ = 0) ?mul0r //. rewrite -[RHS]Hu.
      rewrite (bigD1 (Ordinal Hid')) //= select_mxE // Hsys // PeanoNat.Nat.eqb_refl toGF1 mul1r.
      rewrite big1 ?addr0 // => c Hc. rewrite select_mxE // Hsys // toGF_delta.
      by rewrite (_ : (row_at rows i == c) = false) ?mul0r //; apply: negbTE; rewrite eq_sym.
    - have Hne (k : 'I_d) : toGF (N.of_nat (row_at rows i)) != y k.
      { apply/eqP => /of_nat_inj H. move: (H (Hr i) (Hj k)) (ltP' k). lia. }
      apply: interp_cauchy => //. rewrite -[RHS]Hu. apply: eq_bigr => c _.
      rewrite select_mxE // He; first by split; [| exact: row_at_lt].
      + exact: ltP'.
      + have Hb k : (k < 256)%coq_nat -> byte_ok (N.of_nat k) by rewrite /Galois.byte_ok; lia.
        rewrite toGF_invTable; first by apply: lxor_ok; apply: Hb.
        * move=> /N.lxor_eq /Nnat.Nat2N.inj E. move: (ltP' c). lia.
        * rewrite toGF_lxor; [exact: Hb | exact: Hb |]. by rewrite gf_sub mulrC. }
  have Hu' : uniq rs.
  { rewrite map_inj_uniq; last exact: enum_uniq.
    move=> i j /of_nat_inj H. apply: (row_at_inj Hl Hn). exact: H. }
  apply: contraT => Hp. have := max_poly_roots Hp Hroots Hu'.
  by rewrite size_map -cardE card_ord ltnNge size_interp.
Qed.
