(* ===== verification/CodecCorrect.v ===== *)
(** * The encoder is correct

    Encoding, verification and reconstruction against one specification: a
    [codeword] is a list of shards whose bytes are, column by column, the encoding
    matrix applied to the data shards. *)
From Stdlib Require Import List Arith NArith ZArith Lia Bool.
From S2P Require Import Prelude Galois RSTypes Matrix EncodingMatrix InversionTree Options Coding Codec.
From S2P Require EncodingMDS.
Import ListNotations.

(** ** Sizes of shards *)

(** The shards of a set are empty (missing) or have [n] bytes. *)
Definition sized (n : nat) (shards : list slice) : Prop :=
  Forall (fun s => len s = 0 \/ shard_ok n s) shards.

Lemma shardSize_sized n shards : sized n shards -> existsb present shards = true -> shardSize_ shards = n.
Proof.
  induction shards as [|s shards IH]; intros Hf He; [discriminate |].
  inversion_clear Hf as [|? ? Hs Hf']. cbn [shardSize_ existsb] in *. unfold present at 1 in He.
  destruct (Nat.eqb_spec (len s) 0); cbn [negb orb] in *; [auto |].
  destruct Hs as [|(_ & Hl & _)]; lia.
Qed.

Lemma shardSize_empty shards : Forall (fun s => len s = 0) shards -> shardSize_ shards = 0.
Proof. induction 1 as [|s l Hs Hl IH]; cbn; [auto |]. now rewrite Hs. Qed.

Lemma checkShards_sized n shards : 0 < n -> sized n shards -> existsb present shards = true ->
  checkShards shards true = Ret tt.
Proof.
  intros Hn Hf He. unfold checkShards. rewrite (shardSize_sized n shards Hf He).
  destruct (Nat.eqb_spec n 0); [lia |].
  replace (existsb _ shards) with false; [auto |]. symmetry. apply not_true_iff_false.
  intros (s & Hs & Hb)%existsb_exists. rewrite orb_false_r in Hb.
  apply andb_prop in Hb as [H1 H2]. apply negb_true_iff, Nat.eqb_neq in H1, H2.
  unfold sized in Hf. rewrite Forall_forall in Hf. destruct (Hf s Hs) as [|(_ & Hl & _)]; lia.
Qed.

Lemma checkShards_full n shards : 0 < n -> shards <> [] -> Forall (shard_ok n) shards ->
  checkShards shards false = Ret tt /\ shardSize_ shards = n.
Proof.
  intros Hn Hne Hf.
  assert (Hs : shardSize_ shards = n).
  { apply shardSize_sized; [eapply Forall_impl; [| exact Hf]; auto |].
    destruct shards as [|s l]; [congruence |]. inversion_clear Hf as [|? ? (_ & Hl & _) _].
    cbn. unfold present. rewrite Hl. destruct (Nat.eqb_spec n 0); [lia | auto]. }
  split; [| auto]. unfold checkShards. rewrite Hs. destruct (Nat.eqb_spec n 0); [lia |].
  replace (existsb _ shards) with false; [auto |]. symmetry. apply not_true_iff_false.
  intros (s & Hs' & Hb)%existsb_exists. apply andb_prop in Hb as [H1 _].
  apply negb_true_iff, Nat.eqb_neq in H1.
  rewrite Forall_forall in Hf. destruct (Hf s Hs') as (_ & Hl & _). lia.
Qed.

(** Two different sizes are refused. *)
Lemma checkShards_mismatch nilok shards s1 s2 : In s1 shards -> In s2 shards ->
  len s1 <> len s2 -> len s1 <> 0 -> len s2 <> 0 -> checkShards shards nilok = Err ErrShardSize.
Proof.
  intros H1 H2 Hne Hz1 Hz2. unfold checkShards.
  assert (Hs : shardSize_ shards <> 0).
  { clear H2. induction shards as [|s l IH]; [destruct H1 |]. cbn.
    destruct (Nat.eqb_spec (len s) 0); cbn; [| lia]. destruct H1 as [->|H1]; [lia | auto]. }
  apply Nat.eqb_neq in Hs. rewrite Hs.
  assert (Hex : exists s, In s shards /\ len s <> 0 /\ len s <> shardSize_ shards).
  { destruct (Nat.eq_dec (len s1) (shardSize_ shards)); [exists s2 | exists s1]; repeat split; auto; lia. }
  destruct Hex as (s & Hin & Hn0 & Hns).
  replace (existsb _ shards) with true; [auto |]. symmetry. apply existsb_exists. exists s. split; [auto |].
  apply Nat.eqb_neq in Hn0, Hns. now rewrite Hn0, Hns.
Qed.

(** ** Encoders *)

(** The valid rows of a key of the cache: the first [d] indices not in it. *)
Definition valid_rows (d t : nat) (key : list nat) : list nat :=
  firstn d (filter (fun i => negb (existsb (Nat.eqb i) key)) (seq 0 t)).

(** A cached matrix is the inverse of the valid rows of its key. *)
Definition cache_ok (d t : nat) (m : matrix) (tree : inversionTree) : Prop :=
  tree_ok t tree /\
  (lookup tree [] = [] -> tree = None) /\
  forall key, key_ok t 0 key -> length key + d <= t ->
    lookup tree key = [] \/ Invert (select m (valid_rows d t key)) = Ret (lookup tree key).

(** What [New] guarantees of an encoder with parity shards. *)
Record rs_ok (r : reedSolomon) : Prop := {
  ok_data : 0 < dataShards r;
  ok_parity : 0 < parityShards r;
  ok_total : totalShards r = dataShards r + parityShards r;
  ok_matrix : wf (totalShards r) (dataShards r) (rs_m r);
  ok_systematic : systematic (dataShards r) (rs_m r);
  ok_mds : any_rows_invertible (dataShards r) (totalShards r) (rs_m r);
  ok_rows : rs_parity r = map (fun i => nth (dataShards r + i) (rs_m r) []) (seq 0 (parityShards r));
  ok_goroutines : (1 <= maxGoroutines (rs_o r))%Z;
  ok_split : (1 <= minSplitSize (rs_o r))%Z;
  ok_round : (1 <= perRound (rs_o r))%Z;
  ok_cache : cache_ok (dataShards r) (totalShards r) (rs_m r) (rs_tree r)
}.

(** The bytes of [shards] are the encoding matrix applied to the data. *)
Definition codeword (r : reedSolomon) (n : nat) (shards : list slice) : Prop :=
  length shards = totalShards r /\ Forall (shard_ok n) shards /\
  forall i k, i < totalShards r -> k < n ->
    bytes_at shards i k = dot (dataShards r) (rs_m r) i (fun c => bytes_at shards c k).

Lemma all_equal_spec n outs toCheck : Forall (shard_ok n) outs -> Forall (shard_ok n) toCheck ->
  length outs = length toCheck ->
  exists b, all_equal outs toCheck = Ret b /\
    (b = true <-> forall i k, i < length outs -> k < n -> bytes_at outs i k = bytes_at toCheck i k).
Proof.
  revert toCheck; induction outs as [|o outs IH]; intros [|c toCheck] Ho Hc Hl; try discriminate.
  - exists true. split; [auto |]. split; [intros _ i k Hi; cbn in Hi; lia | auto].
  - inversion_clear Ho as [|? ? (_ & Hol & _) Ho']. inversion_clear Hc as [|? ? (_ & Hcl & _) Hc'].
    cbn [all_equal length] in *. injection Hl as Hl. unfold len in *.
    destruct (list_eq_dec N.eq_dec (bytes_of o) (bytes_of c)) as [E|E].
    + destruct (IH toCheck Ho' Hc' Hl) as (b & -> & Hb). exists b. split; [auto |]. rewrite Hb. split.
      * intros H [|i] k Hi Hk; [unfold bytes_at, byte_at; cbn; now rewrite E |]. apply H; lia.
      * intros H i k Hi Hk. apply (H (S i)); lia.
    + exists false. split; [auto |]. split; [discriminate |]. intros H. exfalso. apply E.
      apply (list_ext 0%N); [lia |]. intros k Hk. apply (H 0); lia.
Qed.

Section Encoder.
Context (r : reedSolomon) (Hr : rs_ok r).
Local Abbreviation d := (dataShards r).
Local Abbreviation p := (parityShards r).
Local Abbreviation t := (totalShards r).

Lemma parity_wf : wf p d (rs_parity r).
Proof.
  destruct Hr. rewrite ok_rows0. split; [lens |]. apply Forall_forall.
  intros row (i & <- & Hi%in_seq)%in_map_iff. apply (wf_row (rs_m r) ok_matrix0). lia.
Qed.

Lemma parity_entry i j : i < p -> entry (rs_parity r) i j = entry (rs_m r) (d + i) j.
Proof. intros Hi. unfold entry. rewrite (ok_rows r Hr), nth_seq_map by auto. reflexivity. Qed.

(** Column [k] of the data is a vector of bytes. *)
Lemma column_ok n shards k : Forall (shard_ok n) shards -> vec_ok (fun c => bytes_at shards c k).
Proof. intros H c. eapply bytes_at_byte; eauto. Qed.

(** A data row of the matrix selects its own byte. *)
Lemma data_dot x i : vec_ok x -> i < d -> dot d (rs_m r) i x = x i.
Proof.
  intros Hx Hi. unfold dot.
  rewrite (xsum_ext d _ (fun j => if j =? i then x i else 0%N)).
  - apply xsum_single. auto.
  - intros j Hj. rewrite (ok_systematic r Hr) by auto. rewrite (Nat.eqb_sym i j).
    destruct (Nat.eqb_spec j i) as [->|]; [apply galMultiply_1_l | apply galMultiply_0_l]; apply Hx.
Qed.

Lemma code_spec n M inputs outs : wf (length outs) (length inputs) M -> inputs <> [] ->
  Forall (shard_ok n) inputs -> Forall (shard_ok n) outs ->
  exists outs', code r M inputs outs n = Ret outs' /\ coding_done n M inputs outs outs'.
Proof.
  intros HM Hne Hin Hout. destruct Hr. now apply codeSomeShards_spec.
Qed.

(** Data followed by what coding the parity rows gives is a codeword. *)
Lemma codeword_app n data out : length data = d -> length out = p ->
  Forall (shard_ok n) data -> Forall (shard_ok n) out ->
  (codeword r n (data ++ out) <->
   forall i k, i < p -> k < n -> bytes_at out i k = coded (rs_parity r) data i k).
Proof.
  intros Hd Hp Hfd Hfo.
  assert (Hcol : forall c k, c < d -> bytes_at (data ++ out) c k = bytes_at data c k)
    by (intros; unfold bytes_at; rewrite app_nth1 by lia; auto).
  assert (Hpar : forall i k, bytes_at (data ++ out) (d + i) k = bytes_at out i k).
  { intros. unfold bytes_at. rewrite app_nth2 by lia. do 2 f_equal. lia. }
  assert (Hdot : forall i k, i < p -> coded (rs_parity r) data i k =
      dot d (rs_m r) (d + i) (fun c => bytes_at (data ++ out) c k)).
  { intros i k Hi. unfold coded, dot. rewrite Hd. apply xsum_ext. intros c Hc.
    now rewrite parity_entry, Hcol by auto. }
  split.
  - intros (_ & _ & H) i k Hi Hk. rewrite Hdot, <- Hpar by auto. apply H; [| auto].
    rewrite (ok_total r Hr). lia.
  - intros H. split; [rewrite length_app, (ok_total r Hr); lia |]. split; [now apply Forall_app |].
    intros i k Hi Hk. rewrite (ok_total r Hr) in Hi. destruct (Nat.lt_ge_cases i d) as [Hlt|Hge].
    + rewrite data_dot; [auto | | auto]. apply (column_ok n). now apply Forall_app.
    + replace i with (d + (i - d)) by lia. rewrite Hpar, <- Hdot by lia. apply H; lia.
Qed.

Lemma firstn_Forall {A} (P : A -> Prop) m l : Forall P l -> Forall P (firstn m l).
Proof. intros H. rewrite <- (firstn_skipn m l), Forall_app in H. apply H. Qed.

Lemma skipn_Forall {A} (P : A -> Prop) m l : Forall P l -> Forall P (skipn m l).
Proof. intros H. rewrite <- (firstn_skipn m l), Forall_app in H. apply H. Qed.

Section Full.
Context (n : nat) (shards : list slice) (Hn : 0 < n) (Hlen : length shards = t)
  (Hfull : Forall (shard_ok n) shards).

Let data := firstn d shards.
Let rest := skipn d shards.

Lemma data_len : length data = d.
Proof. unfold data. rewrite length_firstn, Hlen, (ok_total r Hr). lia. Qed.

Lemma rest_len : length rest = p.
Proof. unfold rest. rewrite length_skipn, Hlen, (ok_total r Hr). lia. Qed.

Lemma data_ok : Forall (shard_ok n) data.
Proof. now apply firstn_Forall. Qed.

Lemma rest_ok : Forall (shard_ok n) rest.
Proof. now apply skipn_Forall. Qed.

Lemma shards_ne : shards <> [].
Proof. intros E. assert (H := ok_data r Hr). rewrite E, (ok_total r Hr) in Hlen. cbn in Hlen. lia. Qed.

Lemma data_ne : data <> [].
Proof. intros E. assert (H := data_len). rewrite E in H. assert (Hd := ok_data r Hr). cbn in H. lia. Qed.

Lemma shard0 : exists s, @idx rsError _ shards 0 = Ret s /\ len s = n.
Proof.
  assert (H := ok_data r Hr). assert (H0 : 0 < length shards) by (rewrite Hlen, (ok_total r Hr); lia).
  exists (nth 0 shards Nil). split; [now apply idx_nth |].
  now destruct (shard_ok_nth n shards 0 Hfull H0) as (_ & -> & _).
Qed.

Lemma code_parity outs : length outs = p -> Forall (shard_ok n) outs ->
  exists out, code r (rs_parity r) data outs n = Ret out /\
    coding_done n (rs_parity r) data outs out.
Proof.
  intros Hl Ho. apply code_spec; auto.
  - rewrite data_len, Hl. apply parity_wf.
  - apply data_ne.
  - apply data_ok.
Qed.

(** [Encode] keeps the data shards and leaves a codeword; the memory of the
    parity shards is reused. *)
Lemma Encode_spec : exists out, Encode r shards = Ret out /\ codeword r n out /\
  firstn d out = firstn d shards /\
  forall i, i < t -> spare_of (nth i out Nil) = spare_of (nth i shards Nil).
Proof.
  unfold Encode. rewrite Hlen, Nat.eqb_refl. cbn [negb].
  destruct (checkShards_full n shards Hn shards_ne Hfull) as [-> _]. cbn [bind].
  destruct shard0 as (s0 & -> & Hs0). cbn [bind]. rewrite Hs0. fold data rest.
  rewrite firstn_all2 with (l := rest) by (rewrite rest_len; lia).
  rewrite skipn_all2 by (rewrite rest_len; lia).
  destruct (code_parity rest rest_len rest_ok) as (out & -> & (Hl & Ho & Hsp) & Hb). cbn [bind].
  rewrite app_nil_r. exists (data ++ out). split; [reflexivity |].
  assert (Hd := data_len). assert (Hrl := rest_len).
  split; [| split].
  - apply codeword_app; auto; [congruence | apply data_ok |].
    intros i k Hi Hk. apply Hb; [lia | auto].
  - now rewrite firstn_app, firstn_all2, Hd, Nat.sub_diag, app_nil_r by lia.
  - intros i Hi. rewrite (ok_total r Hr) in Hi.
    rewrite <- (firstn_skipn d shards). fold data rest.
    destruct (Nat.lt_ge_cases i d).
    + rewrite !app_nth1 by lia. reflexivity.
    + rewrite !app_nth2 by lia. apply Hsp. lia.
Qed.

Lemma AllocAligned_ok m : Forall (shard_ok n) (AllocAligned m n).
Proof.
  apply Forall_forall. intros s ->%repeat_spec. split; [auto |]. split; [unfold len; cbn; lens |].
  apply bytes_ok_repeat. lia.
Qed.

(** [Verify] answers whether the shards are a codeword. *)
Lemma Verify_spec : exists b, Verify r shards = Ret b /\ (b = true <-> codeword r n shards).
Proof.
  unfold Verify. rewrite Hlen, Nat.eqb_refl. cbn [negb].
  destruct (checkShards_full n shards Hn shards_ne Hfull) as [-> _]. cbn [bind].
  destruct shard0 as (s0 & -> & Hs0). cbn [bind]. rewrite Hs0. fold data rest.
  assert (Hd := data_len). assert (Hrl := rest_len). assert (Hp := ok_parity r Hr).
  rewrite firstn_all2 with (l := rest) by lia.
  unfold checkSomeShards. destruct (Nat.eqb_spec (length rest) 0); [lia |].
  assert (Hal : length (AllocAligned (length rest) n) = p) by (unfold AllocAligned; lens).
  destruct (code_parity _ Hal (AllocAligned_ok _)) as (out & -> & (Hl & Ho & _) & Hb). cbn [bind].
  destruct (all_equal_spec n out rest Ho rest_ok) as (b & -> & Hbb); [congruence |].
  exists b. split; [auto |]. rewrite Hbb.
  rewrite <- (firstn_skipn d shards). fold data rest.
  rewrite codeword_app by (auto using data_ok, rest_ok).
  rewrite Hl, Hal in *. split.
  - intros H i k Hi Hk. rewrite <- H, Hb; auto.
  - intros H i k Hi Hk. rewrite H, Hb; auto.
Qed.
End Full.
End Encoder.
