(* ===== verification/Reconstruct.v ===== *)
(** * Reconstruction recovers the missing shards

    Any [dataShards] shards of a codeword give all the others back, whatever the
    cache of inverted matrices holds. *)
From Stdlib Require Import List Arith NArith ZArith Lia Bool.
From S2P Require Import Prelude Galois RSTypes Matrix EncodingMatrix InversionTree Options Coding Codec CodecCorrect.
From S2P Require MatrixField EncodingMDS.
Import ListNotations.

(** ** Choosing the shards to decode from *)

Definition in_key (key : list nat) (i : nat) : bool := existsb (Nat.eqb i) key.

Lemma in_key_spec key i : in_key key i = true <-> In i key.
Proof.
  unfold in_key. rewrite existsb_exists. split.
  - intros (x & Hx & E%Nat.eqb_eq). now subst.
  - intros H. exists i. split; [auto | apply Nat.eqb_refl].
Qed.

Lemma key_ok_weaken t lo lo' key : lo' <= lo -> key_ok t lo key -> key_ok t lo' key.
Proof. destruct key as [|i key]; [auto |]. cbn. intros Hle [H1 H2]. split; [lia | auto]. Qed.

Lemma key_ok_bound t lo key i : key_ok t lo key -> In i key -> lo <= i < t.
Proof.
  revert lo; induction key as [|j key IH]; intros lo Hk Hin; [destruct Hin |].
  destruct Hk as [H1 H2]. destruct Hin as [->|Hin]; [auto |]. specialize (IH _ H2 Hin). lia.
Qed.

Lemma filter_seq_ext (f g : nat -> bool) lo m : (forall i, lo <= i -> f i = g i) ->
  filter f (seq lo m) = filter g (seq lo m).
Proof. intros H. apply filter_ext_in. intros i Hi%in_seq. apply H. lia. Qed.

(** What [pick] returns: the first [want] present shards, with the key of the
    cache that determines them. *)
Record picked (shards : list slice) (base want : nat) (sub : list slice) (valid invalid : list nat) : Prop := {
  pk_len : length valid = want;
  pk_sub : sub = map (fun i => nth (i - base) shards Nil) valid;
  pk_present : forall s, In s sub -> present s = true;
  pk_nodup : NoDup valid;
  pk_range : Forall (fun i => base <= i < base + length shards) valid;
  pk_key : key_ok (base + length shards) base invalid;
  pk_room : length invalid + want <= length shards;
  pk_valid : valid = firstn want (filter (fun i => negb (in_key invalid i)) (seq base (length shards)))
}.

Lemma pick_spec shards : forall base want sub valid invalid,
  want <= length (filter present shards) -> pick shards base want = (sub, valid, invalid) ->
  picked shards base want sub valid invalid.
Proof.
  induction shards as [|s shards IH]; intros base [|want] sub valid invalid Hw Hp;
    try (cbn in Hw; lia); try (injection Hp as <- <- <-; split; cbn; auto; try constructor; try tauto; lia).
  cbn [pick filter] in *. destruct (present s) eqn:Hs.
  - destruct (pick shards (S base) want) as [[sub' valid'] invalid'] eqn:E.
    injection Hp as <- <- <-. cbn [length] in Hw.
    destruct (IH (S base) want sub' valid' invalid') as [H1 H2 H3 H4 H5 H6 H7 H8]; [lia | auto |].
    assert (Hr := proj1 (Forall_forall _ _) H5). cbv beta in Hr. split.
    + cbn. lia.
    + cbn [map]. rewrite Nat.sub_diag. cbn [nth]. f_equal. rewrite H2. apply map_ext_in.
      intros i Hi. specialize (Hr i Hi). replace (i - base) with (S (i - S base)) by lia. reflexivity.
    + intros x [<-|Hx]; auto.
    + constructor; [| auto]. intros Hin. specialize (Hr base Hin). lia.
    + constructor; [cbn; lia |]. eapply Forall_impl; [| exact H5]. intros i Hi. cbv beta in *. cbn [length]. lia.
    + cbn [length]. rewrite Nat.add_succ_r. eapply key_ok_weaken; [| exact H6]. lia.
    + cbn [length]. lia.
    + cbn [length seq filter]. replace (in_key invalid' base) with false; [cbn; now f_equal |].
      symmetry. apply not_true_iff_false. intros Hin%in_key_spec. apply (key_ok_bound _ _ _ _ H6) in Hin. lia.
  - destruct (pick shards (S base) (S want)) as [[sub' valid'] invalid'] eqn:E.
    injection Hp as <- <- <-.
    destruct (IH (S base) (S want) sub' valid' invalid') as [H1 H2 H3 H4 H5 H6 H7 H8]; [lia | auto |].
    assert (Hr := proj1 (Forall_forall _ _) H5). cbv beta in Hr. split; auto.
    + rewrite H2. apply map_ext_in. intros i Hi. specialize (Hr i Hi).
      replace (i - base) with (S (i - S base)) by lia. reflexivity.
    + eapply Forall_impl; [| exact H5]. intros i Hi. cbv beta in *. cbn [length]. lia.
    + cbn [length key_ok]. rewrite Nat.add_succ_r. split; [lia | exact H6].
    + cbn [length]. lia.
    + cbn [length seq filter in_key existsb]. rewrite Nat.eqb_refl. cbn [orb negb].
      rewrite H8 at 1. f_equal. apply filter_seq_ext. intros i Hi.
      destruct (Nat.eqb_spec i base); [lia | reflexivity].
Qed.

(** ** Counting *)
Definition count (shards : list slice) : nat := length (filter present shards).

Lemma count_snoc shards k : k < length shards ->
  count (firstn (S k) shards) = (if present (nth k shards Nil) then 1 else 0) + count (firstn k shards).
Proof.
  intros Hk. unfold count. rewrite (firstn_S_nth Nil), filter_app, length_app by auto. cbn [filter].
  destruct (present (nth k shards Nil)); cbn; lia.
Qed.

Section Reconstruct.
Context (r : reedSolomon) (Hr : rs_ok r).
Local Abbreviation d := (dataShards r).
Local Abbreviation p := (parityShards r).
Local Abbreviation t := (totalShards r).

(** ** The decoding matrix *)

Lemma sub_matrix_spec valid : length valid = d -> Forall (fun i => i < t) valid ->
  sub_matrix r valid = Ret (select (rs_m r) valid).
Proof.
  intros Hl Hv. assert (Hd := ok_data r Hr). assert (Hm := ok_matrix r Hr). unfold sub_matrix.
  destruct (newMatrix_wf d d Hd Hd) as (z & -> & Hz & H0). cbn [bind drop_error].
  rewrite for_n_for_loop.
  assert (Hvi : forall i, i < d -> nth i valid 0 < t).
  { intros i Hi. rewrite Forall_forall in Hv. apply Hv, nth_In. lia. }
  assert (Hs : wf d d (select (rs_m r) valid)) by (rewrite <- Hl at 1; now apply (select_wf d t)).
  destruct (rows_loop (E := rsError) d d z 0 (length valid) (fun row sub =>
      valid <- idx valid row ;;
      for_loop 0 d (fun c sub => v <- get (rs_m r) valid c ;; put sub row c v) sub)
    (fun i j => if j <? d then entry (rs_m r) (nth i valid 0) j else 0%N))
    as (m & -> & Hw & He); [auto | lia | |].
  - intros i m' Hi Hm' Hrest. rewrite (idx_nth 0) by auto. cbn [Nat.add bind]. rewrite for_n_for_loop.
    destruct (row_loop (E := rsError) d d m' i 0 d 0
      (fun c sub => v <- get (rs_m r) (nth i valid 0) c ;; put sub i c v) (entry (rs_m r) (nth i valid 0)))
      as (m'' & -> & Hw & He); [auto | lia | lia | intros; eapply entry_byte; eauto | |].
    { intros c m'' Hc _ _. rewrite (get_entry (rs_m r) Hm) by (auto; apply Hvi; lia). reflexivity. }
    exists m''. split; [auto |]. split; [auto |]. intros a b. rewrite He.
    destruct (Nat.eqb_spec a i) as [->|]; [| auto]. cbn [andb Nat.leb].
    destruct (Nat.ltb_spec b d), (Nat.ltb_spec b (0 + d)); try lia; cbn [andb].
    + now rewrite Nat.sub_0_r.
    + now rewrite Hrest, H0 by lia.
  - f_equal. apply (wf_ext d d); auto. intros i j Hi Hj. rewrite He, Hl, select_entry by lia.
    destruct (Nat.ltb_spec i d), (Nat.ltb_spec j d); auto; lia.
Qed.

(** The matrix used to decode is the inverse of the valid rows, and the cache
    stays correct. *)
Lemma decode_matrix_spec valid invalid :
  length valid = d -> NoDup valid -> Forall (fun i => i < t) valid ->
  key_ok t 0 invalid -> length invalid + d <= t -> valid = valid_rows d t invalid ->
  exists m tree, decode_matrix r valid invalid = Ret (m, tree) /\
    Invert (select (rs_m r) valid) = Ret m /\ wf d d m /\ cache_ok d t (rs_m r) tree.
Proof.
  intros Hl Hn Hv Hk Hroom Hval. assert (Hd := ok_data r Hr).
  assert (Hs : wf d d (select (rs_m r) valid))
    by (rewrite <- Hl at 1; apply (select_wf d t); [apply (ok_matrix r Hr) | auto]).
  destruct (ok_mds r Hr valid Hl Hn Hv) as (b & Hb).
  assert (Hbw : wf d d b).
  { assert (H := MatrixField.Invert_mx Hd Hs). rewrite Hb in H. apply H. }
  destruct (ok_cache r Hr) as (Htree & Hroot & Hcache).
  unfold decode_matrix. rewrite (GetInvertedMatrix_lookup t) by auto. cbn [bind].
  destruct (lookup (rs_tree r) invalid) as [|row rest] eqn:Hlk.
  - rewrite (sub_matrix_spec valid Hl Hv). cbn [bind]. rewrite Hb. cbn [bind].
    destruct (rs_tree r) as [root|] eqn:Ht.
    + assert (Hne : invalid <> []) by (intros ->; specialize (Hroot Hlk); congruence).
      destruct (InsertInvertedMatrix_lookup t root invalid b d Hd Hbw Htree Hk Hne) as (t' & -> & Ht' & Hl').
      cbn [bind]. exists b, t'. split; [auto |]. split; [auto |]. split; [auto |].
      split; [auto |]. split.
      * intros H0. rewrite Hl' in H0 by (cbn; auto).
        destruct (list_eq_dec Nat.eq_dec [] invalid); [congruence |]. specialize (Hroot H0). discriminate.
      * intros key Hkey Hlen. rewrite Hl' by auto. destruct (list_eq_dec Nat.eq_dec key invalid) as [->|]; [| auto].
        right. now rewrite <- Hval.
    + cbn [InsertInvertedMatrix bind]. exists b, None. split; [auto |]. split; [auto |]. split; [auto |].
      split; [auto | split; auto].
  - exists (row :: rest), (rs_tree r).
    destruct (Hcache invalid Hk Hroom) as [E|E]; [congruence |]. rewrite Hlk, <- Hval, Hb in E.
    injection E as E. rewrite <- E. split; [auto |]. split; [auto |]. split; [auto |]. split; auto.
Qed.

(** ** Which shards are wanted *)

Definition required_at (required : option (list bool)) (i : nat) : bool :=
  match required with None => false | Some q => nth i q false end.

Definition wanted_at (required : option (list bool)) (i : nat) : bool :=
  match required with None => true | Some q => nth i q false end.

(** The flags cover every shard. *)
Definition required_ok (required : option (list bool)) : Prop :=
  match required with None => True | Some q => length q = t end.

Lemma is_required_ret required i : required_ok required -> i < t ->
  is_required required i = Ret (required_at required i).
Proof. destruct required as [q|]; [| auto]. cbn. intros Hq Hi. apply idx_nth. lia. Qed.

Lemma is_wanted_ret required i : required_ok required -> i < t ->
  is_wanted required i = Ret (wanted_at required i).
Proof. destruct required as [q|]; [| auto]. cbn. intros Hq Hi. apply idx_nth. lia. Qed.

(** A missing shard that is wanted. *)
Definition to_do (shards : list slice) (required : option (list bool)) (i : nat) : bool :=
  negb (present (nth i shards Nil)) && wanted_at required i.

Lemma count_present_spec shards required : length shards = t -> required_ok required ->
  exists missing, count_present r shards required = Ret (count shards, count (firstn d shards), missing) /\
    (missing = 0 <-> forall i, i < t -> present (nth i shards Nil) = false -> required_at required i = false).
Proof.
  intros Hl Hreq. unfold count_present.
  match goal with |- context [for_loop 0 t ?bd ?st] =>
    assert (H : oc_spec (for_loop 0 t bd st) (fun '(a, b, c) =>
      a = count (firstn t shards) /\ b = count (firstn (Nat.min t d) shards) /\
      (c = 0 <-> forall i, i < t -> present (nth i shards Nil) = false -> required_at required i = false))
      (fun _ => False)) end.
  { apply for_loop_rule with (I := fun k '(a, b, c) =>
      a = count (firstn k shards) /\ b = count (firstn (Nat.min k d) shards) /\
      (c = 0 <-> forall i, i < k -> present (nth i shards Nil) = false -> required_at required i = false));
      [lia | cbn; repeat split; auto; lia |].
    intros i [[a b] c] Hi (-> & -> & Hc). rewrite (idx_nth Nil) by lia. cbn [bind].
    assert (HS : count (firstn (S i) shards) =
      (if present (nth i shards Nil) then 1 else 0) + count (firstn i shards)) by (apply count_snoc; lia).
    assert (Hmin : count (firstn (Nat.min (S i) d) shards) =
      if present (nth i shards Nil) && (i <? d) then S (count (firstn (Nat.min i d) shards))
      else count (firstn (Nat.min i d) shards)).
    { destruct (Nat.ltb_spec i d).
      - replace (Nat.min (S i) d) with (S i) by lia. replace (Nat.min i d) with i by lia.
        rewrite HS, andb_true_r. now destruct (present _).
      - rewrite andb_false_r. do 2 f_equal. lia. }
    rewrite HS, Hmin.
    assert (Hext : forall Q : nat -> Prop, (forall j, j < S i -> Q j) <-> (forall j, j < i -> Q j) /\ Q i).
    { intros Q. split; [auto |]. intros [H1 H2] j Hj. destruct (Nat.eq_dec j i) as [->|]; [auto | apply H1; lia]. }
    assert (Hmiss : (forall j, j < S i -> present (nth j shards Nil) = false -> required_at required j = false) <->
        c = 0 /\ (present (nth i shards Nil) = false -> required_at required i = false))
      by (rewrite Hc; apply Hext).
    destruct (present (nth i shards Nil)) eqn:Hp; cbn [bind oc_spec andb].
    - split; [auto |]. split; [destruct (i <? d); auto |]. rewrite Hmiss. intuition congruence.
    - rewrite (is_required_ret required i Hreq (proj2 Hi)). cbn [bind oc_spec].
      split; [auto |]. split; [auto |]. rewrite Hmiss.
      destruct (required_at required i); intuition congruence. }
  apply oc_ret in H as ([[a b] c] & -> & -> & -> & Hc).
  rewrite firstn_all2 by lia. replace (Nat.min t d) with d by (rewrite (ok_total r Hr); lia).
  exists c. split; auto.
Qed.

(** ** Memory for the missing shards *)

(** Filtering one more index *)
Lemma filter_seq_S (f : nat -> bool) lo k : lo <= k ->
  filter f (seq lo (S k - lo)) = filter f (seq lo (k - lo)) ++ (if f k then [k] else []).
Proof.
  intros H. replace (S k - lo) with (S (k - lo)) by lia. rewrite seq_S, filter_app.
  replace (lo + (k - lo)) with k by lia. reflexivity.
Qed.

(** The memory of an empty shard, whatever it holds, becomes [n] bytes. *)
Lemma fresh_shard n s : Forall byte_ok (spare_of s) -> len s = 0 ->
  exists s', (if n <=? cap s then reslice s n else idx (AllocAligned 1 n) 0) = @Ret rsError _ s' /\
    (0 < n -> shard_ok n s') /\ forall c, buffer c s -> buffer c s'.
Proof.
  intros Hb Hl. destruct (Nat.leb_spec n (cap s)).
  - destruct (reslice_len (E := rsError) s n) as (s' & Hs' & Hls'); [auto |]. exists s'. split; [auto |].
    split; [| intros c; exact (reslice_buffer c s n s' Hs')].
    intros Hn. destruct s as [|data sp]; unfold reslice, len, cap in *; cbn [bytes_of spare_of length Nat.add] in *.
    + lia.
    + destruct data; [| discriminate]. cbn [length Nat.add app] in *.
      destruct (Nat.ltb_spec (length sp) n); [lia |]. injection Hs' as <-.
      split; [auto |]. split; [unfold len; cbn [bytes_of]; lens | now apply bytes_ok_firstn].
  - eexists; split; [reflexivity |]. split.
    + intros Hn. split; [auto |]. unfold len. cbn. split; [lens | apply bytes_ok_repeat; lia].
    + intros c [Hc _]. match goal with |- buffer _ ?s' => assert (H1 : buffer n s') end.
      { apply (proj1 (Forall_forall _ _) (AllocAligned_buffer n 1)). now left. }
      destruct H1 as [H2 H3]. split; [lia | exact H3].
Qed.

(** The memory of the shards is still there. *)
Definition keeps (shards shards' : list slice) : Prop :=
  forall i c, buffer c (nth i shards Nil) -> buffer c (nth i shards' Nil).

Lemma keeps_trans s1 s2 s3 : keeps s1 s2 -> keeps s2 s3 -> keeps s1 s3.
Proof. unfold keeps. auto. Qed.

Lemma prepare_spec lo hi n required row_of (row : nat -> list N) shards : 0 < n ->
  lo <= hi <= t -> length shards = t -> required_ok required ->
  (forall i, lo <= i < hi -> len (nth i shards Nil) = 0 -> Forall byte_ok (spare_of (nth i shards Nil))) ->
  length (filter (to_do shards required) (seq lo (hi - lo))) <= p ->
  (forall i, lo <= i < hi -> row_of i = Ret (row i)) ->
  exists shards', let outputs := filter (to_do shards required) (seq lo (hi - lo)) in
    prepare r lo hi n required row_of shards = Ret (shards', outputs, map row outputs) /\
    length shards' = t /\
    keeps shards shards' /\
    forall i, i < t -> if in_key outputs i then shard_ok n (nth i shards' Nil)
              else nth i shards' Nil = nth i shards Nil.
Proof.
  intros Hn Hhi Hl Hreq Hsp Hcnt Hrow. cbv zeta. unfold prepare.
  set (W := to_do shards required) in *.
  match goal with |- context [for_loop lo hi ?bd ?st] =>
    assert (H : oc_spec (for_loop lo hi bd st) (fun '(sh, outs, rows) =>
      let o := filter W (seq lo (hi - lo)) in outs = o /\ rows = map row o /\ length sh = t /\ keeps shards sh /\
      forall i, i < t -> if in_key o i then shard_ok n (nth i sh Nil) else nth i sh Nil = nth i shards Nil)
      (fun _ => False)) end.
  { apply for_loop_rule with (I := fun k '(sh, outs, rows) =>
      let o := filter W (seq lo (k - lo)) in outs = o /\ rows = map row o /\ length sh = t /\ keeps shards sh /\
      forall i, i < t -> if in_key o i then shard_ok n (nth i sh Nil) else nth i sh Nil = nth i shards Nil);
      [lia | rewrite Nat.sub_diag; cbn; unfold keeps; auto |].
    intros k [[sh outs] rows] Hk (-> & -> & Hlsh & Hkeep & Hsh). cbn [bind].
    assert (Hkn : in_key (filter W (seq lo (k - lo))) k = false).
    { apply not_true_iff_false. intros [H%in_seq _]%in_key_spec%filter_In. lia. }
    rewrite (idx_nth Nil) by lia. cbn [bind].
    assert (Hkt : k < t) by lia. assert (Hsame := Hsh k Hkt). rewrite Hkn in Hsame. rewrite Hsame.
    rewrite filter_seq_S by lia.
    assert (HW : W k = negb (negb (len (nth k shards Nil) =? 0)) && wanted_at required k) by reflexivity.
    rewrite HW.
    destruct (Nat.eqb_spec (len (nth k shards Nil)) 0) as [H0|H0]; cbn [negb andb bind].
    2: { cbn [oc_spec]. rewrite app_nil_r. auto. }
    rewrite (is_wanted_ret required k Hreq Hkt). cbn [bind].
    destruct (wanted_at required k) eqn:Hwant.
    2: { cbn [oc_spec]. rewrite app_nil_r. auto. }
    destruct (fresh_shard n _ (Hsp k Hk H0) H0) as (s' & -> & Hs' & Hbuf). cbn [bind].
    rewrite upd_ret by lia. cbn [bind].
    assert (HWk : W k = true) by exact HW.
    assert (Hlen : length (filter W (seq lo (k - lo))) < p).
    { eapply Nat.lt_le_trans; [| exact Hcnt].
      replace (hi - lo) with ((k - lo) + S (hi - S k)) by lia. rewrite seq_app, filter_app, length_app.
      replace (lo + (k - lo)) with k by lia. cbn [seq filter]. rewrite HWk. cbn. lia. }
    destruct (Nat.ltb_spec (length (filter W (seq lo (k - lo)))) p); [| lia].
    rewrite Hrow by lia. cbn [bind oc_spec]. rewrite map_app, length_set_nth.
    split; [auto |]. split; [auto |]. split; [auto |]. split.
    { intros i c Hc. rewrite nth_set_nth. destruct (Nat.eqb_spec i k) as [->|]; cbn [andb]; [| now apply Hkeep].
      destruct (Nat.ltb_spec k (length sh)); auto. }
    intros i Hi. unfold in_key. rewrite existsb_app. cbn [existsb]. rewrite orb_false_r, nth_set_nth.
    destruct (Nat.eqb_spec i k) as [->|].
    - rewrite orb_true_r. destruct (Nat.ltb_spec k (length sh)); [| lia]. cbn [andb]. auto.
    - rewrite orb_false_r. cbn [andb]. now apply Hsh. }
  apply oc_ret in H as ([[sh outs] rows] & -> & -> & -> & Hlsh & Hkeep & Hsh).
  exists sh. split; auto.
Qed.

(** ** Coding into the shards *)

Lemma update_all (outs : list nat) : forall (news : list slice) (shards : list slice),
  NoDup outs -> length outs = length news -> Forall (fun i => i < length shards) outs ->
  exists shards', fold_left (fun sh '(i, s) => sh <- sh ;; upd sh i s) (combine outs news) (Ret shards)
      = @Ret rsError _ shards' /\
    length shards' = length shards /\
    (forall i, ~ In i outs -> nth i shards' Nil = nth i shards Nil) /\
    (forall j, j < length outs -> nth (nth j outs 0) shards' Nil = nth j news Nil).
Proof.
  induction outs as [|o outs IH]; intros [|s news] shards Hnd Hl Hb; try discriminate.
  - exists shards. repeat split; auto. intros j Hj. cbn in Hj. lia.
  - inversion_clear Hnd as [|? ? Ho Hnd']. inversion_clear Hb as [|? ? Hb1 Hb2].
    cbn [combine fold_left bind]. rewrite upd_ret by auto.
    destruct (IH news (set_nth shards o s)) as (sh & -> & Hlen & Hout & Hin); auto.
    { rewrite length_set_nth. auto. }
    rewrite length_set_nth in Hlen. exists sh. split; [auto |]. split; [auto |]. split.
    + intros i Hi. rewrite Hout by (cbn in Hi; tauto). apply nth_set_nth_ne. cbn in Hi. intuition congruence.
    + intros [|j] Hj; cbn [nth].
      * rewrite Hout by auto. now apply nth_set_nth_eq.
      * apply Hin. cbn in Hj. lia.
Qed.

Lemma code_into_spec n M inputs shards outs : 0 < n -> NoDup outs ->
  Forall (fun i => i < length shards) outs ->
  Forall (fun i => shard_ok n (nth i shards Nil)) outs ->
  (outs = [] \/ wf (length outs) (length inputs) M /\ inputs <> [] /\ Forall (shard_ok n) inputs) ->
  exists shards', code_into r M inputs shards outs n = Ret shards' /\
    length shards' = length shards /\
    keeps shards shards' /\
    (forall i, ~ In i outs -> nth i shards' Nil = nth i shards Nil) /\
    (forall j, j < length outs -> shard_ok n (nth (nth j outs 0) shards' Nil) /\
       forall k, k < n -> bytes_at shards' (nth j outs 0) k = coded M inputs j k).
Proof.
  intros Hn Hnd Hb Hok Hcase. unfold code_into.
  rewrite mapM_ret with (g := fun i => nth i shards Nil).
  2: { intros i Hi. apply idx_nth. rewrite Forall_forall in Hb. auto. }
  cbn [bind]. destruct Hcase as [->|(HM & Hne & Hin)].
  - exists shards. split; [auto |]. split; [auto |]. split; [unfold keeps; auto |].
    split; [auto |]. intros j Hj. cbn in Hj. lia.
  - destruct (code_spec r Hr n M inputs (map (fun i => nth i shards Nil) outs)) as (news & -> & (Hln & Hf & Hspare) & Hc).
    { now rewrite length_map. } { auto. } { auto. } { now apply Forall_map. }
    cbn [bind]. rewrite length_map in Hln, Hc.
    destruct (update_all outs news shards Hnd) as (sh & -> & Hlen & Hout & Hnew); [lia | auto |].
    assert (Hnews : forall j, j < length outs -> shard_ok n (nth j news Nil)) by (intros; apply shard_ok_nth; [auto | lia]).
    exists sh. split; [auto |]. split; [auto |]. split; [| split; [auto |]].
    { intros i c Hbf. destruct (in_dec Nat.eq_dec i outs) as [Hin0|Hni]; [| now rewrite Hout].
      apply (In_nth _ _ 0) in Hin0 as (j & Hj & <-). rewrite Hnew by auto.
      apply (shard_buffer n c (nth (nth j outs 0) shards Nil)); auto.
      - rewrite Forall_forall in Hok. now apply Hok, nth_In.
      - rewrite Hspare by now rewrite length_map. now rewrite (nth_map_in _ _ 0) by auto. }
    intros j Hj. unfold bytes_at. rewrite Hnew by auto.
    split; [apply shard_ok_nth; [auto | lia] |]. intros k Hk. now apply Hc.
Qed.

(** ** The theorem *)

(** [shards] are the shards of [full], some of them missing (empty, with any
    bytes behind). *)
Definition damaged (n : nat) (full shards : list slice) : Prop :=
  length shards = t /\
  forall i, i < t ->
    (len (nth i shards Nil) = 0 /\ Forall byte_ok (spare_of (nth i shards Nil))) \/
    (shard_ok n (nth i shards Nil) /\ forall k, k < n -> bytes_at shards i k = bytes_at full i k).

(** Shard [i] of [shards] is the one of [full]. *)
Definition recovered (n : nat) (full shards : list slice) (i : nat) : Prop :=
  shard_ok n (nth i shards Nil) /\ forall k, k < n -> bytes_at shards i k = bytes_at full i k.

Lemma damaged_sized n full shards : damaged n full shards -> sized n shards.
Proof.
  intros [Hl H]. apply Forall_forall. intros s (i & Hi & <-)%(In_nth _ _ Nil).
  destruct (H i) as [[H0 _]|[H0 _]]; [lia | auto | auto].
Qed.

Lemma damaged_present n full shards i : damaged n full shards -> i < t ->
  present (nth i shards Nil) = true -> recovered n full shards i.
Proof.
  intros [Hl H] Hi Hp. destruct (H i Hi) as [[H0 _]|H1]; [| exact H1].
  unfold present in Hp. now rewrite H0 in Hp.
Qed.

Lemma damaged_missing n full shards i : damaged n full shards -> 0 < n -> i < t ->
  present (nth i shards Nil) = false ->
  len (nth i shards Nil) = 0 /\ Forall byte_ok (spare_of (nth i shards Nil)).
Proof.
  intros [Hl H] Hn Hi Hp. destruct (H i Hi) as [H1|[(_ & H1 & _) _]]; [exact H1 |].
  unfold present in Hp. rewrite H1 in Hp. destruct (Nat.eqb_spec n 0); [lia | discriminate].
Qed.

Lemma count_all shards : count shards = length shards ->
  forall i, i < length shards -> present (nth i shards Nil) = true.
Proof.
  unfold count. intros H i Hi. destruct (present (nth i shards Nil)) eqn:E; [auto |]. exfalso.
  assert (Hf := filter_length present shards).
  assert (Hin : In (nth i shards Nil) (filter (fun x => negb (present x)) shards)).
  { apply filter_In. split; [now apply nth_In | now rewrite E]. }
  destruct (filter (fun x => negb (present x)) shards); [destruct Hin | cbn in Hf; lia].
Qed.

Lemma count_seq shards : length (filter (fun i => present (nth i shards Nil)) (seq 0 (length shards))) = count shards.
Proof.
  unfold count. transitivity (length (filter present (map (fun i => nth i shards Nil) (seq 0 (length shards))))).
  - rewrite filter_map_swap, length_map. reflexivity.
  - do 2 f_equal. apply (list_ext Nil); [lens |]. intros i Hi. rewrite length_map, length_seq in Hi. now rewrite nth_seq_map.
Qed.

Lemma to_do_count shards required lo hi : length shards = t -> lo <= hi <= t -> d <= count shards ->
  length (filter (to_do shards required) (seq lo (hi - lo))) <= p.
Proof.
  intros Hl Hhi Hc.
  apply Nat.le_trans with (length (filter (fun i => negb (present (nth i shards Nil))) (seq 0 t))).
  - apply NoDup_incl_length; [apply NoDup_filter, seq_NoDup |].
    intros i [Hi%in_seq Ht]%filter_In. apply filter_In. split; [apply in_seq; lia |].
    unfold to_do in Ht. now apply andb_prop in Ht.
  - assert (H := filter_length (fun i => present (nth i shards Nil)) (seq 0 t)).
    rewrite <- Hl, count_seq, length_seq in H. rewrite Hl, (ok_total r Hr) in H.
    rewrite (ok_total r Hr). lia.
Qed.

Lemma with_tree_ok tree : cache_ok d t (rs_m r) tree -> rs_ok (with_tree r tree).
Proof. intros Hc. destruct Hr. split; auto. Qed.

Section Decoding.
Context (n : nat) (Hn : 0 < n) (full : list slice) (Hfull : codeword r n full).

(** Row [i] of the decoding matrix applied to the chosen shards is data
    shard [i]. *)
Lemma decode_row sub valid dec i k : length valid = d -> Forall (fun i => i < t) valid ->
  Invert (select (rs_m r) valid) = Ret dec -> i < d -> k < n ->
  length sub = d -> (forall c, c < d -> bytes_at sub c k = bytes_at full (nth c valid 0) k) ->
  dot d dec i (fun c => bytes_at sub c k) = bytes_at full i k.
Proof.
  intros Hl Hv Hinv Hi Hk Hls Hsub. destruct Hfull as (_ & Hf & Hcode). assert (Hd := ok_data r Hr).
  assert (Hs : wf d d (select (rs_m r) valid))
    by (rewrite <- Hl at 1; apply (select_wf d t); [apply (ok_matrix r Hr) | auto]).
  assert (Hx : vec_ok (fun c => bytes_at full c k)) by (intros c; eapply bytes_at_byte; eauto).
  rewrite <- (EncodingMDS.Invert_solves Hd Hs Hinv Hx Hi).
  apply xsum_ext. intros c Hc. f_equal. rewrite Hsub by auto.
  rewrite Forall_forall in Hv. rewrite Hcode; [| apply Hv, nth_In; lia | auto].
  apply xsum_ext. intros j Hj. now rewrite select_entry by lia.
Qed.

(** The data shards that were missing and wanted are decoded. *)
Lemma data_step shards required valid sub invalid dec : damaged n full shards ->
  required_ok required -> d <= count shards -> picked shards 0 d sub valid invalid ->
  Invert (select (rs_m r) valid) = Ret dec -> wf d d dec ->
  exists shards1 outs rows shards2,
    prepare r 0 d n required (idx dec) shards = Ret (shards1, outs, rows) /\
    code_into r rows sub shards1 outs n = Ret shards2 /\ length shards2 = t /\ keeps shards shards2 /\
    forall i, i < t -> if (i <? d) && to_do shards required i then recovered n full shards2 i
              else nth i shards2 Nil = nth i shards Nil.
Proof.
  intros Hdam Hreq Hc [H1 H2 H3 H4 H5 H6 H7 H8] Hinv Hdec. assert (Hd := ok_data r Hr).
  assert (Hl := proj1 Hdam). assert (Hdt : d <= t) by (rewrite (ok_total r Hr); lia).
  rewrite Hl in H5. cbn [Nat.add] in H5.
  assert (Hvt : Forall (fun i => i < t) valid) by (eapply Forall_impl; [| exact H5]; intros; cbv beta in *; lia).
  set (outs := filter (to_do shards required) (seq 0 (d - 0))).
  assert (Hout : forall i, In i outs <-> i < d /\ to_do shards required i = true).
  { intros i. unfold outs. rewrite filter_In, in_seq. intuition lia. }
  assert (Hls : length sub = d) by (rewrite H2; lens).
  destruct (prepare_spec 0 d n required (idx dec) (fun i => nth i dec []) shards) as (sh1 & Hp1 & Hl1 & Hk1 & Hs1);
    auto; [lia | | now apply to_do_count; auto; lia | |].
  { intros i Hi H0. eapply damaged_missing; eauto; [lia |]. unfold present. now rewrite H0. }
  { intros i Hi. apply (idx_row dec Hdec). lia. }
  fold outs in Hp1, Hs1.
  assert (Hon : Forall (fun i => shard_ok n (nth i sh1 Nil)) outs).
  { apply Forall_forall. intros i Hi. specialize (Hs1 i). apply Hout in Hi as Hi'.
    rewrite (proj2 (in_key_spec outs i) Hi) in Hs1. apply Hs1. lia. }
  destruct (code_into_spec n (map (fun i => nth i dec []) outs) sub sh1 outs) as (sh2 & Hc2 & Hl2 & Hk2 & Hno & Hyes); auto.
  { apply NoDup_filter, seq_NoDup. }
  { apply Forall_forall. intros i Hi%Hout. lia. }
  { right. rewrite Hls. split; [| split].
    - apply (select_wf d d dec outs Hdec).
      apply Forall_forall. intros i Hi%Hout. lia.
    - intros E. rewrite E in Hls. cbn in Hls. lia.
    - apply Forall_forall. intros s Hs. rewrite H2 in Hs. apply in_map_iff in Hs as (i & <- & Hi).
      rewrite Nat.sub_0_r. rewrite Forall_forall in Hvt. apply (damaged_present n full shards i Hdam); [auto |].
      apply H3. rewrite H2. apply in_map_iff. exists i. rewrite Nat.sub_0_r. auto. }
  exists sh1, outs, (map (fun i => nth i dec []) outs), sh2. split; [auto |]. split; [auto |]. split; [lia |].
  split; [exact (keeps_trans _ _ _ Hk1 Hk2) |]. intros i Hi. destruct (in_key outs i) eqn:Hk.
  - apply in_key_spec in Hk as Hin. apply Hout in Hin as Hin'. destruct Hin' as [Hid Htd].
    apply Nat.ltb_lt in Hid as ->. rewrite Htd. cbn [andb].
    apply (In_nth _ _ 0) in Hin as (j & Hj & <-). destruct (Hyes j Hj) as [Hok Hcd]. split; [auto |].
    intros k Hk'. rewrite Hcd by auto. unfold coded. rewrite Hls.
    rewrite <- (decode_row sub valid dec (nth j outs 0) k); auto.
    + unfold dot. apply xsum_ext. intros c Hc'. f_equal. apply (select_entry dec outs j c Hj).
    + apply Hout, nth_In. auto.
    + intros c Hc'. unfold bytes_at at 1. rewrite H2, (nth_map_in _ _ 0) by lia. rewrite Nat.sub_0_r.
      rewrite Forall_forall in Hvt. apply (damaged_present n full shards _ Hdam); [apply Hvt, nth_In; lia | | auto].
      apply H3. rewrite H2. apply in_map_iff. exists (nth c valid 0). rewrite Nat.sub_0_r. split; [auto | apply nth_In; lia].
  - assert (Hnin : ~ In i outs) by (rewrite <- in_key_spec, Hk; discriminate).
    rewrite Hno by auto. specialize (Hs1 i Hi). rewrite Hk in Hs1.
    destruct (Nat.ltb_spec i d); cbn [andb]; [| auto].
    destruct (to_do shards required i) eqn:E; [| auto]. exfalso. apply Hnin, Hout. auto.
Qed.

(** The parity shards that were missing and wanted are encoded again, when
    the data shards are all there. *)
Lemma parity_step shards required : length shards = t -> required_ok required ->
  (forall i, d <= i < t -> len (nth i shards Nil) = 0 -> Forall byte_ok (spare_of (nth i shards Nil))) ->
  (forall i, d <= i < t -> to_do shards required i = false) \/ (forall i, i < d -> recovered n full shards i) ->
  exists shards1 outs rows shards2,
    prepare r d t n required (fun i => idx (rs_parity r) (i - d)) shards = Ret (shards1, outs, rows) /\
    code_into r rows (firstn d shards1) shards1 outs n = Ret shards2 /\ length shards2 = t /\ keeps shards shards2 /\
    forall i, i < t -> if (d <=? i) && to_do shards required i then recovered n full shards2 i
              else nth i shards2 Nil = nth i shards Nil.
Proof.
  intros Hl Hreq Hsp Hcase. assert (Hd := ok_data r Hr). assert (Hdt := ok_total r Hr).
  set (outs := filter (to_do shards required) (seq d (t - d))).
  assert (Hout : forall i, In i outs <-> d <= i < t /\ to_do shards required i = true).
  { intros i. unfold outs. rewrite filter_In, in_seq. intuition lia. }
  destruct (prepare_spec d t n required (fun i => idx (rs_parity r) (i - d))
    (fun i => nth (i - d) (rs_parity r) []) shards) as (sh1 & Hp1 & Hl1 & Hk1 & Hs1); auto; [lia | | |].
  { etransitivity; [apply filter_length_le |]. rewrite length_seq. lia. }
  { intros i Hi. apply (idx_row (rs_parity r) (parity_wf r Hr)). lia. }
  fold outs in Hp1, Hs1.
  assert (Hsame : forall i, i < d -> nth i sh1 Nil = nth i shards Nil).
  { intros i Hi. assert (Hit : i < t) by lia. specialize (Hs1 i Hit).
    destruct (in_key outs i) eqn:E; [| auto]. apply in_key_spec, Hout in E. lia. }
  assert (Hon : Forall (fun i => shard_ok n (nth i sh1 Nil)) outs).
  { apply Forall_forall. intros i Hi. specialize (Hs1 i). apply Hout in Hi as Hi'.
    rewrite (proj2 (in_key_spec outs i) Hi) in Hs1. apply Hs1. lia. }
  assert (Hfl : length (firstn d sh1) = d) by (rewrite length_firstn; lia).
  assert (Hrec : outs <> [] -> forall i, i < d -> recovered n full shards i).
  { intros Hne. destruct Hcase as [H0|H]; [| exact H]. exfalso. destruct outs as [|o os]; [congruence |].
    destruct (Hout o) as [Ho _]. destruct (Ho (or_introl eq_refl)) as [Ho1 Ho2]. rewrite H0 in Ho2; [discriminate | auto]. }
  destruct (code_into_spec n (map (fun i => nth (i - d) (rs_parity r) []) outs) (firstn d sh1) sh1 outs)
    as (sh2 & Hc2 & Hl2 & Hk2 & Hno & Hyes); auto.
  { apply NoDup_filter, seq_NoDup. }
  { apply Forall_forall. intros i Hi%Hout. lia. }
  { destruct outs as [|o os] eqn:E; [now left |]. right. rewrite <- E in *. rewrite Hfl.
    assert (Hne : outs <> []) by (rewrite E; discriminate). split; [| split].
    - rewrite <- (length_map (fun i => i - d) outs), <- (map_map (fun i => i - d) (fun i => nth i (rs_parity r) [])).
      apply (select_wf d p _ _ (parity_wf r Hr)).
      apply Forall_forall. intros x (i & <- & Hi%Hout)%in_map_iff. lia.
    - intros E0. rewrite E0 in Hfl. cbn in Hfl. lia.
    - apply Forall_forall. intros s (i & Hi & <-)%(In_nth _ _ Nil). rewrite Hfl in Hi.
      rewrite nth_firstn_in, Hsame by auto. apply Hrec; auto. }
  exists sh1, outs, (map (fun i => nth (i - d) (rs_parity r) []) outs), sh2.
  split; [auto |]. split; [auto |]. split; [lia |].
  split; [exact (keeps_trans _ _ _ Hk1 Hk2) |]. intros i Hi. destruct (in_key outs i) eqn:Hk.
  - apply in_key_spec in Hk as Hin. apply Hout in Hin as Hin'. destruct Hin' as [Hid Htd].
    destruct (Nat.leb_spec d i); [| lia]. rewrite Htd. cbn [andb].
    assert (Hne : outs <> []) by (intros E; rewrite E in Hin; destruct Hin).
    apply (In_nth _ _ 0) in Hin as (j & Hj & <-). destruct (Hyes j Hj) as [Hok Hcd]. split; [auto |].
    intros k Hk'. rewrite Hcd by auto. unfold coded. rewrite Hfl.
    destruct Hfull as (_ & _ & Hcode). rewrite Hcode by auto. apply xsum_ext. intros c Hc. f_equal.
    + transitivity (entry (rs_parity r) (nth j outs 0 - d) c).
      * unfold entry. now rewrite (nth_map_in _ _ 0) by auto.
      * rewrite (parity_entry r Hr) by lia. f_equal. lia.
    + unfold bytes_at at 1. rewrite nth_firstn_in, Hsame by auto. apply Hrec; auto.
  - assert (Hnin : ~ In i outs) by (rewrite <- in_key_spec, Hk; discriminate).
    rewrite Hno by auto. specialize (Hs1 i Hi). rewrite Hk in Hs1.
    destruct (Nat.leb_spec d i); cbn [andb]; [| auto].
    destruct (to_do shards required i) eqn:E; [| auto]. exfalso. apply Hnin, Hout. auto.
Qed.
End Decoding.

(** Only the cache of the encoder may change. *)
Definition same_code (r r' : reedSolomon) : Prop := exists tree, r' = with_tree r tree.

(** With [dataShards] shards left, reconstruction gives back every wanted
    shard and leaves the others alone. *)
Lemma reconstruct_spec n full shards dataOnly required : 0 < n -> codeword r n full ->
  damaged n full shards -> required_ok required -> d <= count shards ->
  (dataOnly = true \/ (forall i, d <= i < t -> to_do shards required i = false) \/
   (forall i, i < d -> present (nth i shards Nil) = false -> wanted_at required i = true)) ->
  exists r' shards', reconstruct r shards dataOnly required = Ret (r', shards') /\
    rs_ok r' /\ same_code r r' /\ length shards' = t /\ keeps shards shards' /\
    forall i, i < t ->
      if wanted_at required i && ((i <? d) || negb dataOnly) then recovered n full shards' i
      else nth i shards' Nil = nth i shards Nil.
Proof.
  intros Hn Hfull Hdam Hreq Hc Hcase. assert (Hd := ok_data r Hr). assert (Hdt := ok_total r Hr).
  assert (Hl := proj1 Hdam). unfold reconstruct. rewrite Hl, Nat.eqb_refl. cbn [negb orb].
  replace (match required with Some q => length q <? d | None => false end) with false.
  2: { destruct required as [q|]; [| auto]. cbn in Hreq. symmetry. apply Nat.ltb_ge. lia. }
  assert (Hex : existsb present shards = true).
  { destruct (existsb present shards) eqn:E; [auto |]. exfalso. unfold count in Hc.
    destruct (filter present shards) as [|s l] eqn:Ef; [cbn in Hc; lia |].
    assert (Hs : In s (filter present shards)) by (rewrite Ef; now left). apply filter_In in Hs as [Hs1 Hs2].
    assert (existsb present shards = true) by (apply existsb_exists; eauto). congruence. }
  assert (Hsz := damaged_sized n full shards Hdam).
  rewrite (checkShards_sized n shards Hn Hsz Hex), (shardSize_sized n shards Hsz Hex). cbn [bind].
  destruct (count_present_spec shards required Hl Hreq) as (missing & -> & Hmiss). cbn [bind].
  assert (Hpres : forall i, i < t -> present (nth i shards Nil) = true -> recovered n full shards i)
    by (intros; eapply damaged_present; eauto).
  destruct ((count shards =? t) || (dataOnly && (count (firstn d shards) =? d)) ||
            (match required with Some _ => true | None => false end && (missing =? 0))) eqn:Hquick.
  - exists r, shards. split; [auto |]. split; [auto |]. split; [exists (rs_tree r); now destruct r |]. split; [auto |].
    split; [unfold keeps; auto |].
    intros i Hi. destruct (wanted_at required i) eqn:Hw; [cbn [andb] | reflexivity].
    destruct ((i <? d) || negb dataOnly) eqn:Hsel; [| reflexivity]. apply Hpres; [auto |].
    apply orb_prop in Hquick as [[Hq|Hq]%orb_prop|Hq].
    + apply Nat.eqb_eq in Hq. apply count_all; lia.
    + apply andb_prop in Hq as [-> Hq%Nat.eqb_eq]. rewrite orb_false_r in Hsel. apply Nat.ltb_lt in Hsel.
      rewrite <- (nth_firstn_in shards Nil Hsel). apply count_all; rewrite length_firstn; lia.
    + apply andb_prop in Hq as [Hs Hq%Nat.eqb_eq]. destruct (present (nth i shards Nil)) eqn:E; [auto |].
      destruct required as [q|]; [| discriminate]. cbn in Hw. rewrite <- Hw. symmetry. now apply Hmiss.
  - destruct (Nat.ltb_spec (count shards) d); [lia |].
    destruct (pick shards 0 d) as [[sub valid] invalid] eqn:Hpick.
    assert (Hpk := pick_spec shards 0 d sub valid invalid Hc Hpick). assert (Hpk' := Hpk).
    destruct Hpk' as [H1 H2 H3 H4 H5 H6 H7 H8]. rewrite Hl in H5, H6, H7, H8. cbn [Nat.add] in H5, H6.
    destruct (decode_matrix_spec valid invalid) as (dec & tree & -> & Hinv & Hdec & Hcache); auto.
    { eapply Forall_impl; [| exact H5]. intros i Hi. cbv beta in *. lia. }
    cbn [bind].
    destruct (data_step n Hn full Hfull shards required valid sub invalid dec)
      as (sh1 & outs & rows & sh2 & -> & Hc2 & Hl2 & Hk2 & Hs2); auto.
    cbn [bind]. rewrite Hc2. cbn [bind].
    assert (Hrok := with_tree_ok tree Hcache).
    assert (Hdata : forall i, i < d -> wanted_at required i = true -> recovered n full sh2 i).
    { intros i Hi Hw. assert (Hit : i < t) by lia. specialize (Hs2 i Hit).
      apply Nat.ltb_lt in Hi as E. rewrite E in Hs2. unfold to_do in Hs2. rewrite Hw, andb_true_r in Hs2. cbn [andb] in Hs2.
      destruct (present (nth i shards Nil)) eqn:Ep; cbn [negb] in Hs2; [| exact Hs2].
      unfold recovered, bytes_at. rewrite Hs2. now apply Hpres. }
    destruct dataOnly.
    + exists (with_tree r tree), sh2. split; [auto |]. split; [auto |]. split; [now exists tree |]. split; [auto |].
      split; [exact Hk2 |].
      intros i Hi. rewrite orb_false_r. specialize (Hs2 i Hi).
      destruct (Nat.ltb_spec i d); cbn [andb] in *; [| now rewrite andb_false_r].
      rewrite andb_true_r. destruct (wanted_at required i) eqn:Hw; [now apply Hdata |].
      unfold to_do in Hs2. now rewrite Hw, andb_false_r in Hs2.
    + assert (Hpar : forall i, d <= i < t -> nth i sh2 Nil = nth i shards Nil).
      { intros i Hi. assert (Hit : i < t) by lia. specialize (Hs2 i Hit).
        destruct (Nat.ltb_spec i d); [lia | exact Hs2]. }
      assert (Htd : forall i, d <= i < t -> to_do sh2 required i = to_do shards required i)
        by (intros i Hi; unfold to_do; now rewrite Hpar).
      destruct (parity_step n Hn full Hfull sh2 required) as (sh3 & outs' & rows' & sh4 & -> & Hc4 & Hl4 & Hk4 & Hs4); auto.
      { intros i Hi H0. rewrite Hpar in H0 |- * by auto. eapply damaged_missing; eauto; [lia |].
        unfold present. now rewrite H0. }
      { destruct Hcase as [E|[H0|H0]]; [discriminate | left | right].
        - intros i Hi. rewrite Htd by auto. now apply H0.
        - intros i Hi. assert (Hit : i < t) by lia. destruct (present (nth i shards Nil)) eqn:E.
          + specialize (Hs2 i Hit). unfold to_do in Hs2. rewrite E, andb_false_r in Hs2.
            unfold recovered, bytes_at. rewrite Hs2. now apply Hpres.
          + apply Hdata; auto. }
      cbn [bind]. rewrite Hc4. cbn [bind].
      exists (with_tree r tree), sh4. split; [auto |]. split; [auto |]. split; [now exists tree |]. split; [auto |].
      split; [exact (keeps_trans _ _ _ Hk2 Hk4) |].
      intros i Hi. rewrite orb_true_r, andb_true_r. specialize (Hs4 i Hi).
      destruct (Nat.leb_spec d i) as [Hge|Hlt]; cbn [andb] in Hs4.
      * rewrite Htd in Hs4 by lia. unfold to_do in Hs4. destruct (wanted_at required i) eqn:Hw.
        -- rewrite andb_true_r in Hs4. destruct (present (nth i shards Nil)) eqn:E; cbn [negb] in Hs4; [| exact Hs4].
           unfold recovered, bytes_at. rewrite Hs4, Hpar by lia. now apply Hpres.
        -- rewrite andb_false_r in Hs4. rewrite Hs4. apply Hpar. lia.
      * destruct (wanted_at required i) eqn:Hw.
        -- unfold recovered, bytes_at. rewrite Hs4. now apply Hdata.
        -- rewrite Hs4. specialize (Hs2 i Hi). unfold to_do in Hs2. rewrite Hw, !andb_false_r in Hs2. exact Hs2.
Qed.

(** Every shard recovered: the bytes are the same. *)
Lemma recovered_all n full shards : length full = t -> Forall (shard_ok n) full -> length shards = t ->
  (forall i, i < t -> recovered n full shards i) -> map bytes_of shards = map bytes_of full.
Proof.
  intros Hl Hf Hl' H. apply (list_ext []); [lens |]. intros i Hi. rewrite length_map in Hi.
  rewrite !(nth_map_in _ _ Nil) by lia. destruct (H i) as [(_ & H1 & _) H2]; [lia |].
  destruct (shard_ok_nth n full i Hf) as (_ & H3 & _); [lia |]. unfold len in *.
  apply (list_ext 0%N); [lia |]. intros k Hk. apply H2. lia.
Qed.

(** Every shard there: nothing to do. *)
Lemma reconstruct_complete n shards dataOnly : 0 < n -> length shards = t -> Forall (shard_ok n) shards ->
  reconstruct r shards dataOnly None = Ret (r, shards).
Proof.
  intros Hn Hl Hf. assert (Hd := ok_data r Hr). assert (Hdt := ok_total r Hr).
  assert (Hp : forall s, In s shards -> present s = true).
  { intros s Hs. rewrite Forall_forall in Hf. destruct (Hf s Hs) as (_ & Hls & _). unfold present. rewrite Hls.
    destruct (Nat.eqb_spec n 0); [lia | auto]. }
  assert (Hc : count shards = t).
  { unfold count. rewrite <- Hl. f_equal. clear - Hp. induction shards as [|s shards IH]; cbn; [auto |].
    rewrite Hp by now left. f_equal. apply IH. intros x Hx. apply Hp. now right. }
  unfold reconstruct. rewrite Hl, Nat.eqb_refl. cbn [negb orb]. rewrite (checkShards_sized n).
  2: auto. 2: { eapply Forall_impl; [| exact Hf]. auto. }
  2: { destruct shards as [|s l]; [cbn in Hl; lia |]. cbn. now rewrite Hp by now left. }
  cbn [bind]. destruct (count_present_spec shards None Hl I) as (missing & -> & _). cbn [bind].
  now rewrite Hc, Nat.eqb_refl.
Qed.

(** Fewer than [dataShards] shards: nothing can be done. *)
Lemma reconstruct_too_few n shards dataOnly : 0 < n -> length shards = t -> sized n shards ->
  existsb present shards = true -> count shards < d -> reconstruct r shards dataOnly None = Err ErrTooFewShards.
Proof.
  intros Hn Hl Hs He Hc. unfold reconstruct. rewrite Hl, Nat.eqb_refl. cbn [negb orb].
  rewrite (checkShards_sized n shards Hn Hs He). cbn [bind].
  destruct (count_present_spec shards None Hl I) as (missing & -> & _). cbn [bind andb].
  assert (Hle : count (firstn d shards) <= count shards).
  { unfold count. rewrite <- (firstn_skipn d shards) at 2. rewrite filter_app, length_app. lia. }
  assert (Hdt := ok_total r Hr).
  destruct (Nat.eqb_spec (count shards) t), (Nat.eqb_spec (count (firstn d shards)) d); try lia.
  rewrite andb_false_r. cbn [orb]. destruct (Nat.ltb_spec (count shards) d); [reflexivity | lia].
Qed.
End Reconstruct.
