(* ===== verification/NewEncoder.v ===== *)
(** * What [New] returns (src/reedsolomon/reedsolomon.go, [New])

    Whatever the options and the machine, the parameters are in the range the
    coding loops need; with the default or the Cauchy matrix the encoder is one
    the theorems of CodecCorrect.v and Reconstruct.v are about. *)
From Stdlib Require Import List Arith NArith ZArith Lia Bool.
From S2P Require Import Prelude Galois RSTypes Matrix EncodingMatrix InversionTree Options Coding Codec CodecCorrect.
From S2P Require MatrixField EncodingMDS.
From coqutil Require Import Datatypes.RecordSetters.
Import ListNotations.

(** [runtime.GOMAXPROCS(0)] is at least 1; the counts of package cpuid are not
    negative. *)
Record machine_ok (cpu : machine) : Prop := {
  procs_pos : (1 <= GOMAXPROCS cpu)%Z;
  threads_pos : (0 <= ThreadsPerCore cpu)%Z
}.

Section Tune.
Context (cpu : machine) (Hcpu : machine_ok cpu) (p : Z).
Local Open Scope Z_scope.

Lemma tune_perRound_spec o : 1024 <= perRound (tune_perRound cpu p o) /\
  maxGoroutines (tune_perRound cpu p o) = maxGoroutines o /\
  minSplitSize (tune_perRound cpu p o) = minSplitSize o /\
  shardSize (tune_perRound cpu p o) = shardSize o.
Proof.
  unfold tune_perRound. cbv zeta.
  set (o4 := apply_update (mk_update perRound (constant (Z.quot _ 64 * 64))) _).
  assert (E : maxGoroutines o4 = maxGoroutines o /\ minSplitSize o4 = minSplitSize o /\ shardSize o4 = shardSize o).
  { unfold o4. do 2 if_case; splits; reflexivity. }
  destruct (Z.ltb_spec (perRound o4) 1024).
  - split; [cbn; unfold constant; lia | exact E].
  - split; [exact H | exact E].
Qed.

Lemma tune_minSplitSize_spec o : 1 <= minSplitSize (tune_minSplitSize cpu p o) /\
  maxGoroutines (tune_minSplitSize cpu p o) = maxGoroutines o /\
  perRound (tune_minSplitSize cpu p o) = perRound o /\
  shardSize (tune_minSplitSize cpu p o) = shardSize o.
Proof.
  unfold tune_minSplitSize. cbv zeta. destruct (Z.leb_spec (minSplitSize o) 0).
  - match goal with |- context [minSplitSize ?o' <? 1024] => set (o1 := o') end.
    destruct (Z.ltb_spec (minSplitSize o1) 1024).
    + splits; try reflexivity. cbn. unfold constant. lia.
    + splits; try reflexivity. lia.
  - splits; try reflexivity. lia.
Qed.

(** The automatic number of goroutines is a positive multiple of the number of
    processors, and the rounds stay positive. *)
Lemma tune_goroutines_spec o : 1 <= maxGoroutines o -> 1 <= minSplitSize o -> 1024 <= perRound o ->
  1 <= maxGoroutines (tune_goroutines cpu o) /\ 512 <= perRound (tune_goroutines cpu o) /\
  minSplitSize (tune_goroutines cpu o) = minSplitSize o.
Proof.
  intros Hg Hm Hr. unfold tune_goroutines. destruct Hcpu as [Hprocs _].
  destruct (shardSize o >? 0); [| splits; auto; lia].
  destruct (Z.eqb_spec (GOMAXPROCS cpu) 1); cbn [orb]; [splits; [cbn; unfold constant; lia | apply (Z.le_trans _ 1024); [lia | exact Hr] | reflexivity] |].
  destruct (Z.leb_spec (shardSize o) (minSplitSize o * 2)); [splits; [cbn; unfold constant; lia | apply (Z.le_trans _ 1024); [lia | exact Hr] | reflexivity] |].
  set (P := GOMAXPROCS cpu) in *. set (g0 := Z.quot (shardSize o) (perRound o)).
  assert (Hround : forall g, 1 <= g -> 1 <= g + (P - 1) - Z.rem (g + (P - 1)) P).
  { intros g H1. assert (H2 := Z.rem_bound_pos (g + (P - 1)) P). lia. }
  destruct (Z.ltb_spec g0 (P * 2)); cbn [andb].
  - rewrite Z.gtb_ltb. destruct (Z.ltb_spec (minSplitSize o * 2) (perRound o)).
    + splits; [| | reflexivity].
      * cbn. unfold constant. apply Hround. lia.
      * change (512 <= Z.quot (perRound o) 2). apply Z.quot_le_lower_bound; lia.
    + splits; [| apply (Z.le_trans _ 1024); [lia | exact Hr] | reflexivity].
      cbn. unfold constant. apply Hround. unfold g0. apply Z.quot_le_lower_bound; lia.
  - splits; [| apply (Z.le_trans _ 1024); [lia | exact Hr] | reflexivity].
    cbn. unfold constant. apply Hround. lia.
Qed.

Lemma tune_spec o : 1 <= maxGoroutines o ->
  let o' := tune_goroutines cpu (tune_minSplitSize cpu p (tune_perRound cpu p o)) in
  1 <= maxGoroutines o' /\ 512 <= perRound o' /\ 1 <= minSplitSize o'.
Proof.
  intros Hg o'. destruct (tune_perRound_spec o) as (H1 & H2 & H3 & H4).
  destruct (tune_minSplitSize_spec (tune_perRound cpu p o)) as (H5 & H6 & H7 & H8).
  destruct (tune_goroutines_spec (tune_minSplitSize cpu p (tune_perRound cpu p o))) as (H9 & H10 & H11); [lia .. |].
  unfold o'. splits; lia.
Qed.
End Tune.

(** The initial cache is correct. *)
Lemma new_cache d p m : 0 < d -> wf (d + p) d m -> systematic d m ->
  exists root, newInversionTree d p = Ret root /\ cache_ok d (d + p) m (Some root).
Proof.
  intros Hd Hm Hsys. destruct (newInversionTree_spec d p Hd) as (root & i & Hroot & Hid & Htree & Hlk).
  exists root. split; [auto |]. split; [auto |].
  destruct (identityMatrix_spec d Hd) as (i' & Hid' & Hiw & Hie). rewrite Hid in Hid'. injection Hid' as <-.
  split.
  - rewrite Hlk. intros ->. destruct Hiw as [Hl _]. cbn in Hl. lia.
  - intros key Hk Hroom. rewrite Hlk. destruct key as [|x key]; [right | now left].
    assert (E : select m (valid_rows d (d + p) []) = i).
    { assert (Hv : valid_rows d (d + p) [] = seq 0 d).
      { unfold valid_rows. cbn [existsb negb]. rewrite filter_true.
        rewrite seq_app, firstn_app, firstn_all2, length_seq, Nat.sub_diag by (rewrite length_seq; lia).
        apply app_nil_r. }
      rewrite Hv. apply (wf_ext d d); [| auto |].
      - rewrite <- (length_seq d 0) at 1. apply (select_wf d (d + p)); [auto |].
        apply Forall_forall. intros y Hy%in_seq. lia.
      - intros a b Ha Hb. rewrite select_entry by lens. rewrite seq_nth by auto. cbn [Nat.add].
        rewrite Hsys, Hie by auto. reflexivity. }
    rewrite E. exact (EncodingMDS.Invert_identity Hd Hid).
Qed.

(** A coding matrix with the two properties makes a correct encoder. *)
Lemma New_of_matrix cpu d p opts m : machine_ok cpu -> Forall is_option opts -> 0 < d -> 0 < p -> d + p <= 256 ->
  withLeopard (apply_options cpu opts) = leopardAsNeeded ->
  coding_matrix (apply_options cpu opts) d p = Ret m -> wf (d + p) d m -> systematic d m ->
  any_rows_invertible d (d + p) m ->
  exists r, New cpu (Z.of_nat d) (Z.of_nat p) opts = Ret (RS r) /\ rs_ok r /\
    dataShards r = d /\ parityShards r = p /\ totalShards r = d + p /\ rs_m r = m.
Proof.
  intros Hcpu Hopts Hd Hp Hdp Hleo Hmat Hm Hsys Hmds. unfold New. rewrite Hleo. cbn [andb orb].
  rewrite Z.gtb_ltb. destruct (Z.ltb_spec 256 (Z.of_nat d + Z.of_nat p)); [lia |].
  destruct (Z.leb_spec (Z.of_nat d) 0); [lia |]. destruct (Z.ltb_spec (Z.of_nat p) 0); [lia |].
  destruct (Z.eqb_spec (Z.of_nat p) 0); [lia |].
  cbn [orb]. rewrite !Nat2Z.id, Hmat. cbn [bind].
  assert (Hg : (1 <= maxGoroutines (apply_options cpu opts))%Z).
  { apply apply_options_inv with (P := fun o => (1 <= maxGoroutines o)%Z).
    - unfold defaultOptions. cbn [maxGoroutines]. if_case; lia.
    - intros opt o Hin. apply option_maxGoroutines. rewrite Forall_forall in Hopts. auto. }
  destruct (tune_spec cpu Hcpu (Z.of_nat p) _ Hg) as (Ht1 & Ht2 & Ht3).
  set (o := tune_goroutines _ _) in *.
  assert (Hpar : mapM (fun i => idx m (d + i)) (seq 0 p) =
      @Ret rsError _ (map (fun i => nth (d + i) m []) (seq 0 p))).
  { apply mapM_seq. intros i Hi. apply (idx_row m Hm). lia. }
  destruct (new_cache d p m Hd Hm Hsys) as (root & Hroot & Hcache).
  assert (Hcase : exists tree, (if inversionCache o then t <- newInversionTree d p ;; Ret (Some t) else Ret None) =
      Ret tree /\ cache_ok d (d + p) m tree).
  { destruct (inversionCache o).
    - rewrite Hroot. cbn [bind]. eauto.
    - exists None. split; [auto |]. split; [exact I |]. split; auto. }
  destruct Hcase as (tree & -> & Hc). cbn [bind]. rewrite Hpar. cbn [bind].
  eexists; split; [reflexivity |]. split; [| auto].
  constructor; cbn; auto; lia.
Qed.

(** The options for which the coding matrix is the default or the Cauchy one. *)
Record supported (cpu : machine) (d p : nat) (opts : list Option) : Prop := {
  sup_machine : machine_ok cpu;
  sup_options : Forall is_option opts;
  sup_data : 0 < d;
  sup_parity : 0 < p;
  sup_total : d + p <= 256;
  sup_leopard : withLeopard (apply_options cpu opts) = leopardAsNeeded;
  sup_custom : customMatrix (apply_options cpu opts) = None;
  sup_one : fastOneParity (apply_options cpu opts) = false;
  sup_par1 : usePAR1Matrix (apply_options cpu opts) = false;
  sup_jerasure : useJerasureMatrix (apply_options cpu opts) = false
}.

Lemma New_supported cpu d p opts : supported cpu d p opts ->
  exists r, New cpu (Z.of_nat d) (Z.of_nat p) opts = Ret (RS r) /\ rs_ok r /\
    dataShards r = d /\ parityShards r = p /\ totalShards r = d + p.
Proof.
  intros [Hcpu Hopts Hd Hp Hdp Hleo Hcust Hone Hpar Hjer].
  assert (Hm : exists m, coding_matrix (apply_options cpu opts) d p = Ret m /\ wf (d + p) d m /\
      systematic d m /\ any_rows_invertible d (d + p) m).
  { unfold coding_matrix. rewrite Hcust, Hone, Hpar, Hjer. cbn [andb].
    assert (Hdt : d <= d + p) by lia. destruct (useCauchy (apply_options cpu opts)).
    - exact (EncodingMDS.cauchy_rows_invertible Hd Hdt Hdp).
    - exact (EncodingMDS.buildMatrix_spec Hd Hdt Hdp). }
  destruct Hm as (m & Hm & Hw & Hs & Hmds).
  destruct (New_of_matrix cpu d p opts m) as (r & H1 & H2 & H3 & H4 & H5 & _); auto.
  exists r. auto.
Qed.

(** An encoder that [New] returned for a supported configuration. *)
Lemma New_ok cpu d p opts r : supported cpu d p opts ->
  New cpu (Z.of_nat d) (Z.of_nat p) opts = Ret (RS r) ->
  rs_ok r /\ dataShards r = d /\ parityShards r = p /\ totalShards r = d + p.
Proof.
  intros Hs Hn. destruct (New_supported cpu d p opts Hs) as (r' & H1 & H2 & H3 & H4 & H5).
  rewrite Hn in H1. injection H1 as <-. auto.
Qed.
