(* ===== verification/StreamCorrect.v ===== *)
(** * The streaming encoder is correct

    What [readShards] and [writeShards] do with readers that never fail and have
    the same number of bytes left, and that their concurrent versions do the same
    whatever the order of the goroutines.  Every operation, block by block, does what
    the operation of the in-memory encoder does on the whole shards; the sizes of
    the reads, the block size and the order of the goroutines make no difference. *)
From Stdlib Require Import List Arith NArith ZArith Lia Bool Permutation.
From S2P Require Import Prelude Galois RSTypes Matrix EncodingMatrix InversionTree Options Coding IO Codec Stream CodecCorrect.
From S2P Require Import Reconstruct.
Import ListNotations.

(** ** Reading and writing blocks of shards *)

(** [s[:n]] for [n] up to the capacity *)
Definition trimmed (n : nat) (s : slice) : slice :=
  match s with Nil => Nil | Sl d sp => Sl (firstn n (d ++ sp)) (skipn n (d ++ sp)) end.

Lemma reslice_trimmed {E} s n : n <= cap s -> @reslice E s n = Ret (trimmed n s).
Proof. intros H. unfold reslice. destruct (Nat.ltb_spec (cap s) n); [lia |]. now destruct s. Qed.

Lemma trimmed_len s : trimmed (len s) s = s.
Proof.
  destruct s as [|d sp]; cbn; [auto |]. unfold len. cbn. now rewrite firstn_app, skipn_app, firstn_all, skipn_all,
    Nat.sub_diag, app_nil_r.
Qed.

Lemma trimmed_0 s : len s = 0 -> trimmed 0 s = s.
Proof. intros H. rewrite <- H at 1. apply trimmed_len. Qed.

Lemma len_trimmed n s : n <= cap s -> len (trimmed n s) = n.
Proof. unfold len, cap. destruct s; cbn; intros H; [lia |]. lens. Qed.

Lemma trimmed_shard n m s : shard_ok n s -> m <= n -> shard_ok m (trimmed m s) /\
  bytes_of (trimmed m s) = firstn m (bytes_of s).
Proof.
  intros (Hn & Hl & Hb) Hm. destruct s as [|d sp]; [discriminate |]. unfold shard_ok, len in *. cbn in *.
  rewrite firstn_app. replace (m - length d) with 0 by lia. cbn [firstn]. rewrite app_nil_r.
  splits; auto; [lens | auto with go].
Qed.

Lemma trimmed_buffer c n s : buffer c s -> buffer c (trimmed n s).
Proof.
  destruct s as [|d sp]; cbn; [auto |]. unfold buffer, cap. cbn [bytes_of spare_of].
  rewrite <- !length_app, firstn_skipn. auto.
Qed.

Lemma write_range_buffer n c s lo d : shard_ok n s -> lo + length d <= n -> bytes_ok d ->
  buffer c s -> buffer c (write_range s lo d).
Proof.
  intros Hs Hlo Hd. destruct (write_range_spec n s lo d Hs Hlo Hd) as (H1 & H2 & _). now apply (shard_buffer n).
Qed.

(** Writing a prefix and keeping only it *)
Lemma write_trimmed n s d : shard_ok n s -> length d <= n -> bytes_ok d ->
  shard_ok (length d) (trimmed (length d) (write_range s 0 d)) /\
  bytes_of (trimmed (length d) (write_range s 0 d)) = d.
Proof.
  intros Hs Hd Hb. destruct (write_range_spec n s 0 d Hs Hd Hb) as (H1 & _ & H2).
  destruct (trimmed_shard n (length d) _ H1 Hd) as [H3 H4]. split; [exact H3 |]. rewrite H4.
  destruct H1 as (_ & Hl & _). unfold len in Hl. apply (list_ext 0%N); [lens |].
  intros i Hi. rewrite length_firstn in Hi. rewrite nth_firstn_in by lia. specialize (H2 i). unfold byte_at in H2.
  rewrite H2, Nat.sub_0_r. cbn [Nat.leb Nat.add andb]. destruct (Nat.ltb_spec i (length d)); [auto | lia].
Qed.

Lemma nth_map2_same {A B C} (f : A -> B -> C) l1 l2 i d1 d2 :
  length l1 = length l2 -> nth i (map2 f l1 l2) (f d1 d2) = f (nth i l1 d1) (nth i l2 d2).
Proof.
  intros H. destruct (Nat.lt_ge_cases i (length l1)).
  - now apply nth_map2; [| rewrite <- H].
  - rewrite !nth_overflow; auto; [lia |]. rewrite length_map2. lia.
Qed.

Section Blocks.
Context {R : Type} `{GoodReader R}.

(** The reader after [ReadFull] *)
Definition after (r : R) (n : nat) : R := match ReadFull r n with Ret (r, _, _) => r | _ => r end.

Lemma ReadFull_after (r : R) n : ReadFull r n = Ret (after r n, firstn n (rest r),
    if n <=? length (rest r) then None else if 0 <? length (rest r) then Some ErrUnexpectedEOF else Some EOF) /\
  rest (after r n) = skipn n (rest r).
Proof. destruct (ReadFull_spec r n) as (r' & E & Hr). unfold after. rewrite E. auto. Qed.

(** A buffer after a reader filled it as far as it could *)
Definition filled (o : option R) (d : slice) : slice :=
  match o with
  | None => trimmed 0 d
  | Some r => let p := firstn (len d) (rest r) in trimmed (length p) (write_range d 0 p)
  end.

Definition advanced (o : option R) (d : slice) : option R := option_map (fun r => after r (len d)) o.

(** [l] bytes left in every reader, buffers of [m] *)
Definition ready (m l : nat) (o : option R) (d : slice) : Prop :=
  match o with None => True | Some r => length (rest r) = l /\ bytes_ok (rest r) /\ shard_ok m d end.

Definition is_some {A} (o : option A) : bool := match o with Some _ => true | None => false end.

Section Block.
Context (m l : nat) (Hm : 0 < m).

Lemma filled_ready r d : ready m l (Some r) d ->
  shard_ok (Nat.min m l) (filled (Some r) d) /\ bytes_of (filled (Some r) d) = firstn m (rest r) /\
  forall c, buffer c d -> buffer c (filled (Some r) d).
Proof.
  intros (Hl & Hb & Hd). cbn [filled]. destruct Hd as (H1 & H2 & H3). rewrite H2.
  assert (Hp : length (firstn m (rest r)) = Nat.min m l) by (rewrite length_firstn; lia).
  rewrite <- Hp at 1. destruct (write_trimmed m d (firstn m (rest r))) as [H4 H5]; [easy | lia | auto with go |].
  split; [exact H4 |]. split; [exact H5 |].
  intros c Hc. apply trimmed_buffer. apply (write_range_buffer m); auto; [easy | lia | auto with go].
Qed.

(** The error [ReadFull] returns *)
Definition end_of_block : option rsError :=
  if m <=? l then None else if 0 <? l then Some ErrUnexpectedEOF else Some EOF.

Lemma read_one r d : ready m l (Some r) d ->
  ReadFull r (len d) = Ret (after r (len d), firstn m (rest r), end_of_block) /\ length (firstn m (rest r)) = Nat.min m l /\
  cap (write_range d 0 (firstn m (rest r))) >= m /\
  (m <= l -> filled (Some r) d = write_range d 0 (firstn m (rest r))).
Proof.
  intros (Hl & Hb & Hd). assert (Hd' := Hd). destruct Hd as (H1 & H2 & H3).
  assert (Hp : length (firstn m (rest r)) = Nat.min m l) by (rewrite length_firstn; lia).
  destruct (ReadFull_after r (len d)) as [-> _]. rewrite H2, Hl. split; [reflexivity |]. split; [auto |].
  destruct (write_range_spec m d 0 (firstn m (rest r)) Hd') as ((_ & H5 & _) & _); [lia | auto with go |].
  split; [unfold cap, len in *; lia |].
  intros Hml. unfold filled. rewrite H2, Hp, Nat.min_l by auto. rewrite <- H5 at 1. apply trimmed_len.
Qed.

(** The last value of [readShards]: [size == 0] is the end. *)
Definition at_end (size : option nat) (inn : list (option R)) : option rsError :=
  if (l =? 0) && (is_some size || existsb is_some inn) then Some EOF else None.

Lemma read_loop_spec inn : forall dst i size, Forall2 (ready m l) inn dst ->
  size = None \/ (size = Some l /\ l < m) ->
  read_loop i size dst inn = Ret (map2 filled inn dst, map2 advanced inn dst, at_end size inn).
Proof.
  induction inn as [|[r|] inn IH]; intros dst i size Hf Hs; inversion_clear Hf as [|? d ? dst' Hd Hf'];
    cbn [read_loop map2].
  - unfold at_end. cbn [existsb]. rewrite orb_false_r. destruct Hs as [->|[-> Hs]]; cbn [is_some].
    + now rewrite andb_false_r.
    + rewrite andb_true_r. destruct l; reflexivity.
  - destruct (read_one r d Hd) as (-> & Hp & Hcap & Hfull). cbn [bind].
    destruct (filled_ready r d Hd) as (_ & _ & _). cbn [advanced option_map]. destruct Hd as (Hl & Hb & Hd1 & Hd2 & Hd3).
    unfold end_of_block. destruct (Nat.leb_spec m l).
    + rewrite IH by auto. cbn [bind]. rewrite Hfull by auto. do 2 f_equal.
      unfold at_end. cbn [existsb is_some]. destruct (Nat.eqb_spec l 0); [lia | auto].
    + assert (Hfl : filled (Some r) d = trimmed l (write_range d 0 (firstn m (rest r))))
        by (unfold filled; rewrite Hd2, Hp; f_equal; lia).
      assert (Hpl : length (firstn m (rest r)) = l) by lia.
      assert (Hres : forall E, @reslice E (write_range d 0 (firstn m (rest r))) l = Ret (filled (Some r) d))
        by (intros E; rewrite Hfl; apply reslice_trimmed; lia).
      assert (Hend : forall sz, at_end (Some sz) inn = at_end size (Some r :: inn))
        by (intros; unfold at_end; cbn; now rewrite orb_true_r).
      destruct (0 <? l); rewrite Hpl; destruct Hs as [->|[-> _]]; rewrite ?Nat.eqb_refl, Hres; cbn [bind];
        rewrite IH by auto; cbn [bind]; now rewrite Hend.
  - rewrite reslice_trimmed by lia. cbn [bind]. rewrite IH by auto. reflexivity.
Qed.

(** ** Concurrent reads *)

Definition result_of (i : nat) (r : R) : readResult :=
  {| rr_n := i; rr_size := Nat.min m l; rr_err := end_of_block |}.

Fixpoint results (i : nat) (inn : list (option R)) : list readResult :=
  match inn with
  | [] => []
  | None :: inn => results (S i) inn
  | Some r :: inn => result_of i r :: results (S i) inn
  end.

(** The buffers before they are trimmed *)
Definition read_raw (o : option R) (d : slice) : slice :=
  match o with None => trimmed 0 d | Some r => write_range d 0 (firstn (len d) (rest r)) end.

Lemma read_all_spec inn : forall dst i, Forall2 (ready m l) inn dst ->
  read_all i dst inn = Ret (map2 read_raw inn dst, map2 advanced inn dst, results i inn).
Proof.
  induction inn as [|[r|] inn IH]; intros dst i Hf; inversion_clear Hf as [|? d ? dst' Hd Hf'];
    cbn [read_all map2 results].
  - reflexivity.
  - destruct (read_one r d Hd) as (-> & Hp & _). cbn [bind]. rewrite IH by auto. cbn [bind].
    destruct Hd as (_ & _ & _ & Hd2 & _). unfold result_of, read_raw, advanced at 2. cbn [option_map]. now rewrite Hp, Hd2.
  - rewrite reslice_trimmed by lia. cbn [bind]. now rewrite IH by auto.
Qed.

Lemma results_in inn : forall i res, In res (results i inn) ->
  exists j r, rr_n res = i + j /\ nth j inn None = Some r /\ j < length inn /\ res = result_of (i + j) r.
Proof.
  induction inn as [|[r|] inn IH]; intros i res; cbn [results In]; [tauto | |].
  - intros [<-|Hr]; [exists 0, r; cbn; rewrite Nat.add_0_r; splits; auto; lia |].
    destruct (IH _ _ Hr) as (j & r' & H1 & H2 & H3 & ->). exists (S j), r'.
      rewrite <- Nat.add_succ_comm. cbn [nth length]. splits; auto; lia.
  - intros Hr. destruct (IH _ _ Hr) as (j & r' & H1 & H2 & H3 & ->). exists (S j), r'.
      rewrite <- Nat.add_succ_comm. cbn [nth length]. splits; auto; lia.
Qed.

Lemma results_cover inn : forall i j r, nth j inn None = Some r -> In (i + j) (map rr_n (results i inn)).
Proof.
  induction inn as [|o inn IH]; intros i [|j] r Hj; cbn in Hj; try discriminate.
  - subst o. left. cbn. lia.
  - rewrite Nat.add_succ_r. destruct o; cbn; [right |]; now apply (IH (S i) j r).
Qed.

Lemma results_nil inn i : (match results i inn with [] => false | _ => true end) = existsb is_some inn.
Proof. revert i. induction inn as [|[r|] inn IH]; intros i; cbn; auto. Qed.

(** Trimming the buffers in the order of the results *)
Lemma collect_spec res : forall size dst, l < m -> size = None \/ size = Some l ->
  Forall (fun x => rr_size x = l /\ rr_err x = end_of_block /\ rr_n x < length dst /\ l <= cap (nth (rr_n x) dst Nil)) res ->
  exists dst', collect size dst res = Ret (dst', if (l =? 0) && (is_some size || match res with [] => false | _ => true end)
                                                 then Some EOF else None) /\
    length dst' = length dst /\
    forall i, nth i dst' Nil = if existsb (Nat.eqb i) (map rr_n res) then trimmed l (nth i dst Nil) else nth i dst Nil.
Proof.
  induction res as [|x res IH]; intros size dst Hl Hs Hf; cbn [collect].
  - exists dst. split; [| auto]. rewrite orb_false_r. destruct Hs as [->| ->]; cbn [is_some].
    + now rewrite andb_false_r.
    + rewrite andb_true_r. destruct l; reflexivity.
  - apply Forall_cons_iff in Hf as [(H1 & H2 & H3 & H4) Hf'].
    set (dst1 := set_nth dst (rr_n x) (trimmed l (nth (rr_n x) dst Nil))).
    assert (Hl1 : length dst1 = length dst) by apply length_set_nth.
    assert (Htrim : forall sz, (d <- idx dst (rr_n x) ;; d <- reslice d (rr_size x) ;; dst <- upd dst (rr_n x) d ;;
        collect sz dst res) = collect sz dst1 res).
    { intros sz. rewrite (idx_nth Nil) by auto. cbn [bind]. rewrite H1, reslice_trimmed by auto. cbn [bind].
      now rewrite upd_ret by auto. }
    destruct (IH (Some l) dst1) as (dst' & Hc & Hlen & Hn); auto.
    { eapply Forall_impl; [| exact Hf']. intros y (Hy1 & Hy2 & Hy3 & Hy4). splits; auto; [lia |].
      unfold dst1. rewrite nth_set_nth. destruct ((rr_n y =? rr_n x) && _) eqn:E; [| auto].
      apply andb_prop in E as [E%Nat.eqb_eq _]. rewrite <- E. destruct (nth (rr_n y) dst Nil) as [|dd sp]; [auto |].
      unfold cap in *. cbn [trimmed bytes_of spare_of] in *. rewrite <- length_app, firstn_skipn, length_app. auto. }
    exists dst'. split.
    + rewrite orb_true_r. cbn [is_some orb] in Hc. rewrite H2. unfold end_of_block.
      destruct (Nat.leb_spec m l); [lia |].
      destruct (0 <? l); destruct Hs as [->| ->]; rewrite ?H1, ?Nat.eqb_refl; rewrite H1 in Htrim; rewrite Htrim; exact Hc.
    + split; [lia |]. intros i. rewrite Hn. cbn [map existsb]. unfold dst1. rewrite nth_set_nth.
      destruct (Nat.eqb_spec i (rr_n x)) as [->|]; cbn [andb orb]; [| auto].
      destruct (Nat.ltb_spec (rr_n x) (length dst)); [| lia].
      destruct (existsb _ _); [| auto].
      destruct (nth (rr_n x) dst Nil) as [|dd sp]; cbn; [auto |]. rewrite !firstn_skipn. reflexivity.
Qed.

Lemma collect_full res dst : m <= l -> Forall (fun x => rr_err x = end_of_block) res -> collect None dst res = Ret (dst, None).
Proof.
  intros Hl. assert (E : end_of_block = None) by (unfold end_of_block; destruct (Nat.leb_spec m l); [auto | lia]).
  induction 1 as [|x res Hx Hf IH]; cbn [collect]; [auto |]. now rewrite Hx, E.
Qed.
End Block.

Lemma Forall2_nth m l inn dst i : Forall2 (ready m l) inn dst -> i < length inn -> ready m l (nth i inn None) (nth i dst Nil).
Proof.
  intros Hf. revert i. induction Hf; intros [|i] Hi; cbn in *; auto; try lia; apply IHHf; lia.
Qed.

(** The concurrent and the sequential version do the same, in any order. *)
Lemma readShards_spec m l inn dst order : 0 < m -> Forall2 (ready m l) inn dst ->
  (forall res, Permutation (order res) res) ->
  readShards dst inn = Ret (map2 filled inn dst, map2 advanced inn dst, at_end l None inn) /\
  cReadShards order dst inn = readShards dst inn.
Proof.
  intros Hm Hf Hord. assert (Hlen := Forall2_length Hf).
  assert (E1 : readShards dst inn = Ret (map2 filled inn dst, map2 advanced inn dst, at_end l None inn)).
  { unfold readShards. rewrite Hlen, Nat.eqb_refl. now apply read_loop_spec with (m := m); auto. }
  split; [exact E1 |]. rewrite E1. unfold cReadShards. rewrite Hlen, Nat.eqb_refl. cbn [negb].
  rewrite (read_all_spec m l Hm) by auto. cbn [bind]. set (res := results m l 0 inn).
  assert (Hres : forall x, In x (order res) -> exists j r, rr_n x = j /\ nth j inn None = Some r /\ j < length inn /\
    x = result_of m l j r).
  { intros x Hx. apply (results_in m l Hm inn 0 x). now apply (Permutation_in _ (Hord res)). }
  destruct (Nat.le_gt_cases m l) as [Hle|Hlt].
  - rewrite (collect_full m l Hm) by (auto; apply Forall_forall; intros x Hx; destruct (Hres x Hx) as (j & r & _ & _ & _ & ->); auto).
    cbn [bind]. do 2 f_equal.
    + f_equal. apply (list_ext Nil); rewrite !length_map2; [auto |]. intros i Hi.
      rewrite !(nth_map2 _ _ _ None Nil) by lia. assert (Hi' : i < length inn) by lia.
      assert (Hr := Forall2_nth m l inn dst i Hf Hi'). destruct (nth i inn None) as [r|]; [| auto].
      destruct (read_one m l Hm r _ Hr) as (_ & _ & _ & ->); [| auto]. destruct Hr as (_ & _ & _ & Hd & _).
      cbn. now rewrite Hd.
    + unfold at_end. destruct (Nat.eqb_spec l 0); [lia | auto].
  - destruct (collect_spec m l Hm (order res) None (map2 read_raw inn dst)) as (dst' & -> & Hl' & Hn); auto.
    { apply Forall_forall. intros x Hx. destruct (Hres x Hx) as (j & r & <- & Hj & Hjl & Ex).
      assert (Hr := Forall2_nth m l inn dst _ Hf Hjl). rewrite Hj in Hr.
      rewrite Ex at 1 2. cbn. splits; auto; [lia | rewrite length_map2; lia |].
      rewrite (nth_map2 _ _ _ None Nil) by lia. rewrite Hj. cbn.
      destruct (read_one m l Hm r _ Hr) as (_ & _ & Hc & _). destruct Hr as (_ & _ & _ & Hd & _). rewrite Hd. lia. }
    cbn [bind is_some orb]. do 2 f_equal.
    + f_equal. apply (list_ext Nil); [rewrite Hl', !length_map2; auto |]. intros i Hi. rewrite Hn.
      rewrite Hl', length_map2 in Hi. rewrite !(nth_map2 _ _ _ None Nil) by lia.
      assert (Hi' : i < length inn) by lia. assert (Hr := Forall2_nth m l inn dst i Hf Hi').
      destruct (nth i inn None) as [r|] eqn:Ei.
      * replace (existsb _ _) with true.
        -- destruct Hr as (Hr & _ & _ & Hd & _). cbn. rewrite Hd. f_equal. rewrite length_firstn. lia.
        -- symmetry. apply existsb_exists. exists i. split; [| apply Nat.eqb_refl].
           apply (Permutation_in _ (Permutation_map rr_n (Permutation_sym (Hord res)))).
           now apply (results_cover m l Hm inn 0 i r).
      * replace (existsb _ _) with false; [auto |]. symmetry. apply not_true_iff_false.
        intros (k & Hk & <-%Nat.eqb_eq)%existsb_exists. apply in_map_iff in Hk as (x & Hx & Hin).
        destruct (Hres x Hin) as (j & r & H1 & H2 & _). congruence.
    + unfold at_end. cbn [is_some orb]. rewrite <- (results_nil m l inn 0). fold res.
      assert (Hp := Permutation_length (Hord res)). destruct (order res), res; cbn in Hp; auto; discriminate.
Qed.
End Blocks.

(** ** Writes *)
Section Writes.
Context {W : Type} `{GoodWriter W}.

Definition wrote (w : W) (s : slice) : W := fst (fst (write_to w (bytes_of s))).

Lemma write_shard_spec i w s : write_shard i w s = (wrote w s, None) /\ written (wrote w s) = written w ++ bytes_of s.
Proof.
  unfold write_shard, wrote. destruct (write_to_spec w (bytes_of s)) as (w' & -> & Hw). cbn [fst].
  unfold len. rewrite Nat.eqb_refl. auto.
Qed.

Definition write_into (o : option W) (s : slice) : option W := option_map (fun w => wrote w s) o.

Lemma write_loop_spec inn : forall out i, length out = length inn -> write_loop i out inn = (map2 write_into out inn, None).
Proof.
  induction inn as [|s inn IH]; intros [|[w|] out] i Hl; try discriminate; cbn [write_loop map2]; auto; injection Hl as Hl.
  - destruct (write_shard_spec i w s) as [-> _]. now rewrite IH.
  - now rewrite IH.
Qed.

Lemma write_all_spec inn : forall out i, length out = length inn -> write_all i out inn = (map2 write_into out inn, []).
Proof.
  induction inn as [|s inn IH]; intros [|[w|] out] i Hl; try discriminate; cbn [write_all map2]; auto; injection Hl as Hl.
  - destruct (write_shard_spec i w s) as [-> _]. now rewrite IH.
  - now rewrite IH.
Qed.

Lemma writeShards_spec out inn order : length out = length inn -> (forall errs, Permutation (order errs) errs) ->
  writeShards out inn = Ret (map2 write_into out inn, None) /\ cWriteShards order out inn = writeShards out inn.
Proof.
  intros Hl Hord. unfold writeShards, cWriteShards. rewrite Hl, Nat.eqb_refl. cbn [negb].
  rewrite write_loop_spec, write_all_spec by auto. split; [auto |].
  assert (Hp := Hord []). apply Permutation_sym, Permutation_nil in Hp. now rewrite Hp.
Qed.
End Writes.

(** ** The operations *)

(** ** Codewords as bytes *)

Section Bytes.
Context (r : reedSolomon).

Definition column (bs : list (list N)) (k : nat) (c : nat) : N := nth k (nth c bs []) 0%N.

(** [bs] are the bytes of a codeword of [n] bytes a shard. *)
Definition is_code (n : nat) (bs : list (list N)) : Prop :=
  length bs = totalShards r /\ Forall (fun b => length b = n /\ bytes_ok b) bs /\
  forall i k, i < totalShards r -> k < n ->
    column bs k i = dot (dataShards r) (rs_m r) i (column bs k).

Lemma bytes_at_column shards i k : bytes_at shards i k = column (map bytes_of shards) k i.
Proof.
  unfold bytes_at, byte_at, column. change (@nil N) with (bytes_of Nil). now rewrite map_nth.
Qed.

Lemma codeword_code n shards : Forall (fun s => is_nil s = false) shards ->
  (codeword r n shards <-> is_code n (map bytes_of shards)).
Proof.
  intros Hnil. unfold codeword, is_code. rewrite length_map.
  assert (HF : Forall (shard_ok n) shards <-> Forall (fun b => length b = n /\ bytes_ok b) (map bytes_of shards)).
  { rewrite Forall_map, !Forall_forall. rewrite Forall_forall in Hnil. unfold shard_ok, len.
    split; intros H s Hs; specialize (H s Hs); [tauto |]. split; [now apply Hnil | tauto]. }
  rewrite HF. split; intros (H1 & H2 & H3); splits; auto; intros i k Hi Hk; specialize (H3 i k Hi Hk).
  - rewrite !bytes_at_column in H3. rewrite H3. apply xsum_ext. intros c _. f_equal. apply bytes_at_column.
  - rewrite bytes_at_column, H3. apply xsum_ext. intros c _. f_equal. symmetry. apply bytes_at_column.
Qed.

(** The shards of given bytes *)
Definition shards_of (bs : list (list N)) : list slice := map (fun b => Sl b []) bs.

Lemma bytes_shards_of bs : map bytes_of (shards_of bs) = bs.
Proof. unfold shards_of. rewrite map_map. cbn. apply map_id. Qed.

Lemma code_codeword n bs : is_code n bs <-> codeword r n (shards_of bs).
Proof.
  rewrite codeword_code, bytes_shards_of; [tauto |]. apply Forall_map, Forall_forall. auto.
Qed.

(** Codewords are put together and cut block by block. *)
Lemma is_code_split a b bs : length bs = totalShards r -> Forall (fun x => length x = a + b /\ bytes_ok x) bs ->
  (is_code (a + b) bs <-> is_code a (map (firstn a) bs) /\ is_code b (map (skipn a) bs)).
Proof.
  intros Hl Hf.
  assert (H1 : forall i k, k < a -> column (map (firstn a) bs) k i = column bs k i).
  { intros i k Hk. unfold column. replace (@nil N) with (firstn a (@nil N)) at 1 by apply firstn_nil.
    rewrite map_nth. now apply nth_firstn_in. }
  assert (H2 : forall i k, column (map (skipn a) bs) k i = column bs (a + k) i).
  { intros i k. unfold column. replace (@nil N) with (skipn a (@nil N)) at 1 by apply skipn_nil.
    rewrite map_nth. apply nth_skipn_add. }
  assert (F1 : Forall (fun x => length x = a /\ bytes_ok x) (map (firstn a) bs)).
  { apply Forall_map. eapply Forall_impl; [| exact Hf]. intros x [Hx Hb]. split; [lens | auto with go]. }
  assert (F2 : Forall (fun x => length x = b /\ bytes_ok x) (map (skipn a) bs)).
  { apply Forall_map. eapply Forall_impl; [| exact Hf]. intros x [Hx Hb]. split; [lens | auto with go]. }
  unfold is_code. rewrite !length_map. split.
  - intros (_ & _ & H). split; splits; auto; intros i k Hi Hk.
    + rewrite H1 by auto. rewrite H by lia. apply xsum_ext. intros c _. now rewrite H1.
    + rewrite H2, H by lia. apply xsum_ext. intros c _. now rewrite H2.
  - intros ((_ & _ & Ha) & (_ & _ & Hb)). splits; auto. intros i k Hi Hk. destruct (Nat.lt_ge_cases k a).
    + rewrite <- H1, Ha by auto. apply xsum_ext. intros c _. now rewrite H1.
    + replace k with (a + (k - a)) by lia. rewrite <- H2, Hb by lia. apply xsum_ext. intros c _. now rewrite H2.
Qed.
End Bytes.

Lemma is_code_same r r' n bs : same_code r r' -> is_code r n bs -> is_code r' n bs.
Proof. intros [tree ->] H. exact H. Qed.

(** ** Streams *)

(** The goroutines of each block deliver all results, in any order. *)
Record schedule_ok (sched : schedule) : Prop := {
  reads_permuted : forall k l, Permutation (read_order sched k l) l;
  writes_permuted : forall k l, Permutation (write_order sched k l) l
}.

Section Streams.
Context {R W : Type} `{GoodReader R} `{GoodWriter W}.
Context (s : rsStream) (sched : schedule) (Hs : rs_ok (st_r s)) (Hsched : schedule_ok sched).
Local Abbreviation d := (dataShards (st_r s)).
Local Abbreviation p := (parityShards (st_r s)).
Local Abbreviation t := (totalShards (st_r s)).
Local Abbreviation bs := (Z.to_nat (streamBS (st_o s))).

Lemma st_read m l inn dst block : 0 < m -> Forall2 (ready m l) inn dst ->
  st_readShards s sched block dst inn = Ret (map2 filled inn dst, map2 advanced inn dst, at_end l None inn).
Proof.
  intros Hm Hf. unfold st_readShards. destruct (readShards_spec m l inn dst _ Hm Hf (reads_permuted sched Hsched block)) as [E1 E2].
  destruct (concReads (st_o s)); congruence.
Qed.

Lemma st_write (out : list (option W)) inn block : length out = length inn ->
  st_writeShards s sched block out inn = Ret (map2 write_into out inn, None).
Proof.
  intros Hl. unfold st_writeShards. destruct (writeShards_spec out inn _ Hl (writes_permuted sched Hsched block)) as [E1 E2].
  destruct (concWrites (st_o s)); congruence.
Qed.

(** What the pool may hold: a set of buffers large enough. *)
Definition pooled_ok (pooled : option (list slice)) : Prop :=
  match pooled with
  | None => True
  | Some l => length l = t /\ Forall (fun b => buffer bs b /\ is_nil b = false) l
  end.

Lemma createSlice_spec pooled : pooled_ok pooled -> exists all, createSlice s pooled = Ret all /\ length all = t /\
  Forall (shard_ok bs) all /\ Forall (buffer bs) all.
Proof.
  intros Hp. unfold createSlice. set (l := match pooled with Some l => l | None => _ end).
  assert (Hl : length l = t /\ Forall (fun b => buffer bs b /\ is_nil b = false) l).
  { destruct pooled; [exact Hp |]. subst l. split; [unfold AllocAligned; lens |].
    assert (Hb := AllocAligned_buffer bs t). rewrite Forall_forall in *. intros b Hin. split; [now apply Hb |].
    now apply repeat_spec in Hin as ->. }
  destruct Hl as [Hl Hf]. exists (map (trimmed bs) l). rewrite Forall_forall in Hf. splits.
  - apply mapM_ret. intros x Hx. apply reslice_trimmed, (Hf x Hx).
  - lens.
  - apply Forall_map, Forall_forall. intros x Hx. destruct (Hf x Hx) as [[Hc Hb] Hn].
    split; [now destruct x |]. split; [now apply len_trimmed |].
    destruct x as [|y sp]; [discriminate |]. cbn in *. auto with go.
  - apply Forall_map, Forall_forall. intros x Hx. now apply trimmed_buffer, (Hf x Hx).
Qed.

(** Readers that have the bytes [bytes] left, all [l] of them *)
Definition have (l : nat) (readers : list (option R)) (bytes : list (list N)) : Prop :=
  Forall2 (fun o b => match o with None => True | Some r => rest r = b end) readers bytes /\
  Forall (fun b => length b = l /\ bytes_ok b) bytes.

Lemma have_nth l readers bytes i r : have l readers bytes -> nth i readers None = Some r ->
  rest r = nth i bytes [] /\ length (rest r) = l /\ bytes_ok (rest r).
Proof.
  intros [Hf Hb]. revert i. induction Hf as [|o b os bs' Ho Hf IH]; intros [|i] Hi; cbn in *; try discriminate.
  - subst o. inversion_clear Hb. rewrite Ho. auto.
  - inversion_clear Hb. auto.
Qed.

Lemma have_ready m l readers bytes dst : have l readers bytes -> length dst = length readers ->
  (forall i r, nth i readers None = Some r -> shard_ok m (nth i dst Nil)) -> Forall2 (ready m l) readers dst.
Proof.
  intros Hh Hl Hd. revert dst Hl Hd. destruct Hh as [Hf Hb]. revert Hb.
  induction Hf as [|o b os bs' Ho Hf IH]; intros Hb [|x dst] Hl Hd; try discriminate; constructor.
  - inversion_clear Hb as [|? ? [H3 H4] _]. destruct o as [r|]; [| exact I]. cbn. subst b. splits; auto. apply (Hd 0 r eq_refl).
  - inversion_clear Hb. apply IH; auto. intros i r Hi. apply (Hd (S i) r Hi).
Qed.

Lemma have_advanced m l readers bytes dst : have l readers bytes -> Forall2 (ready m l) readers dst ->
  have (l - m) (map2 advanced readers dst) (map (skipn m) bytes).
Proof.
  intros [Hf Hb] Hr. split.
  - clear Hb. revert dst Hr. induction Hf as [|o b os bs' Ho Hf IH]; intros dst Hr; inversion_clear Hr as [|? x ? dst' Hx Hr'].
    + constructor.
    + cbn. constructor; [| now apply IH]. destruct o as [r|]; [| exact I]. cbn. destruct Hx as (_ & _ & _ & Hx & _).
      rewrite Hx. destruct (ReadFull_after r m) as [_ ->]. now rewrite Ho.
  - apply Forall_map. eapply Forall_impl; [| exact Hb]. intros b [H3 H4]. split; [lens | auto with go].
Qed.

Lemma filled_nth m l inn dst i : 0 < m -> Forall2 (ready m l) inn dst -> i < length inn ->
  match nth i inn None with
  | Some r => shard_ok (Nat.min m l) (nth i (map2 filled inn dst) Nil) /\
              bytes_of (nth i (map2 filled inn dst) Nil) = firstn m (rest r)
  | None => len (nth i (map2 filled inn dst) Nil) = 0
  end /\ forall c, buffer c (nth i dst Nil) -> buffer c (nth i (map2 filled inn dst) Nil).
Proof.
  intros Hm Hf Hi. assert (Hl := Forall2_length Hf). assert (Hr := Forall2_nth m l inn dst i Hf Hi).
  rewrite (nth_map2 _ _ _ None Nil) by lia. destruct (nth i inn None) as [r|].
  - destruct (filled_ready m l Hm r _ Hr) as (H3 & H4 & H5). auto.
  - cbn. split; [apply len_trimmed; lia | intros c; apply trimmed_buffer].
Qed.

(** The readers are all there. *)
Lemma filled_all m l data bytes dst : 0 < m -> have l (map Some data) bytes -> length dst = length data ->
  Forall (shard_ok m) dst -> Forall (buffer bs) dst -> data <> [] ->
  let n := Nat.min m l in
  exists inn data', map2 filled (map Some data) dst = inn /\ map2 advanced (map Some data) dst = map Some data' /\
    length inn = length data /\ length data' = length data /\
    Forall (shard_ok n) inn /\ Forall (buffer bs) inn /\ map bytes_of inn = map (firstn m) bytes /\
    have (l - m) (map Some data') (map (skipn m) bytes) /\
    forall block, st_readShards s sched block dst (map Some data) =
      Ret (inn, map Some data', if l =? 0 then Some EOF else None).
Proof.
  intros Hm Hh Hl Hd Hb Hne n.
  assert (Hsome : forall i r, nth i (map Some data) None = Some r -> i < length data).
  { intros i r Hi. destruct (Nat.lt_ge_cases i (length data)); [auto |]. rewrite nth_overflow in Hi; [discriminate | lens]. }
  assert (Hr : Forall2 (ready m l) (map Some data) dst).
  { apply (have_ready m l _ bytes); auto; [lens |]. intros i r Hi. apply shard_ok_nth; auto. rewrite Hl. eauto. }
  set (inn := map2 filled (map Some data) dst). set (data' := map2 (fun r x => after r (len x)) data dst).
  assert (Hadv : map2 advanced (map Some data) dst = map Some data').
  { subst data'. clear - Hl. revert dst Hl. induction data as [|r data IH]; intros [|x dst] Hl; try discriminate; cbn; auto.
    f_equal. apply IH. auto. }
  assert (Hli : length inn = length data) by (subst inn; lens).
  assert (Hall : forall i, i < length data -> exists r, nth i (map Some data) None = Some r).
  { intros i Hi. destruct (nth_in_or_default i (map Some data) None) as [Hin|E].
    - apply in_map_iff in Hin as (r & Hr' & _). eauto.
    - exfalso. destruct data as [|r0 data0]; [cbn in Hi; lia |]. rewrite (nth_map_in _ _ r0) in E by auto. discriminate. }
  assert (Hnth : forall i, i < length data -> shard_ok n (nth i inn Nil) /\ bytes_of (nth i inn Nil) = firstn m (nth i bytes []) /\
      buffer bs (nth i inn Nil)).
  { intros i Hi. destruct (Hall i Hi) as [r Hir]. destruct (filled_nth m l _ dst i Hm Hr) as [H3 H4]; [lens |].
    rewrite Hir in H3. destruct H3 as [H3 H5]. destruct (have_nth l _ bytes i r Hh Hir) as (E & _). rewrite E in H5.
    splits; auto. apply H4. rewrite Forall_forall in Hb. apply Hb, nth_In. lia. }
  exists inn, data'. splits; auto.
  - subst data'. rewrite length_map2. lia.
  - apply Forall_forall. intros x (i & Hi & <-)%(In_nth _ _ Nil). apply Hnth. lia.
  - apply Forall_forall. intros x (i & Hi & <-)%(In_nth _ _ Nil). apply Hnth. lia.
  - assert (Hlb : length bytes = length data) by (destruct Hh as [Hf _]; apply Forall2_length in Hf; rewrite length_map in Hf; lia).
    apply (list_ext []); [lens |]. intros i Hi. rewrite length_map in Hi.
    rewrite (nth_map_in _ _ Nil), (nth_map_in _ _ []) by lia. apply Hnth. lia.
  - rewrite <- Hadv. now apply have_advanced.
  - intros block. rewrite (st_read m l) by auto. fold inn. rewrite Hadv. do 2 f_equal.
    unfold at_end. cbn [is_some orb]. destruct data; [congruence |]. cbn [map existsb is_some orb]. now rewrite andb_true_r.
Qed.

(** ** Encode *)

Lemma trim_full m n out : 0 < m -> n <= m -> Forall (shard_ok m) out -> trimShards out n = Ret (map (trimmed n) out).
Proof.
  intros Hm Hn Hf. apply mapM_ret. intros x Hx. rewrite Forall_forall in Hf. destruct (Hf x Hx) as (_ & Hl & _).
  assert (Hc : n <= cap x) by (unfold cap, len in *; lia).
  rewrite Hl. destruct (Nat.eqb_spec m 0); [lia |]. cbn [negb]. rewrite reslice_trimmed by auto. cbn [bind].
  rewrite len_trimmed, Nat.ltb_irrefl by auto. reflexivity.
Qed.

Lemma map2_app_assoc (l1 l2 l3 : list (list N)) : map2 (@app N) (map2 (@app N) l1 l2) l3 = map2 (@app N) l1 (map2 (@app N) l2 l3).
Proof. revert l2 l3; induction l1 as [|x l1 IH]; intros [|y l2] [|z l3]; cbn; auto. now rewrite app_assoc, IH. Qed.

Lemma map2_firstn n (l1 l2 : list (list N)) : length l1 = length l2 -> Forall (fun b => length b = n) l1 ->
  map (firstn n) (map2 (@app N) l1 l2) = l1 /\ map (skipn n) (map2 (@app N) l1 l2) = l2.
Proof.
  revert l2; induction l1 as [|x l1 IH]; intros [|y l2] Hl Hf; try discriminate; cbn; auto.
  inversion_clear Hf as [|? ? Hx Hf']. destruct (IH l2) as [-> ->]; auto.
  rewrite firstn_app, skipn_app, <- Hx, firstn_all, skipn_all, Nat.sub_diag. cbn. now rewrite app_nil_r.
Qed.

Lemma write_some (ws : list W) : forall ss, length ws = length ss ->
  exists ws', map2 write_into (map Some ws) ss = map Some ws' /\ length ws' = length ws /\
    map written ws' = map2 (@app N) (map written ws) (map bytes_of ss).
Proof.
  induction ws as [|w ws IH]; intros [|x ss] Hl; try discriminate; [exists []; auto |].
  destruct (IH ss) as (ws' & E1 & E2 & E3); [now injection Hl |]. exists (wrote w x :: ws'). cbn. rewrite E1, E3.
  splits; auto. f_equal. now destruct (write_shard_spec 0 w x).
Qed.

(** The buffers as they go back to the pool *)
Definition back (all : list slice) : Prop := length all = t /\ Forall (fun b => buffer bs b /\ is_nil b = false) all.

Lemma back_ok m all : length all = t -> Forall (shard_ok m) all -> Forall (buffer bs) all -> back all.
Proof.
  intros Hl Hf Hb. split; [auto |]. rewrite Forall_forall in *. intros x Hx. split; [now apply Hb |]. apply (Hf x Hx).
Qed.

Lemma code_empty (datas pars : list (list N)) : length datas = d -> length pars = p ->
  Forall (fun b => length b = 0 /\ bytes_ok b) (datas ++ pars) -> is_code (st_r s) 0 (datas ++ pars).
Proof.
  intros H3 H4 H5. split; [rewrite length_app, (ok_total _ Hs); lia |]. split; [auto |]. intros i k _ Hk. lia.
Qed.

(** Cutting lists of [l] at [m] and at the minimum is the same. *)
Lemma cut_min m l (bytes : list (list N)) : Forall (fun b => length b = l /\ bytes_ok b) bytes ->
  map (firstn (Nat.min m l)) bytes = map (firstn m) bytes /\ map (skipn (Nat.min m l)) bytes = map (skipn m) bytes.
Proof.
  intros Hb. rewrite Forall_forall in Hb.
  split; apply map_ext_in; intros b Hin; destruct (Hb b Hin) as [Hl _]; destruct (Nat.le_ge_cases m l);
    rewrite ?(Nat.min_l m l), ?(Nat.min_r m l) by auto; rewrite ?firstn_all2, ?skipn_all2 by lia; auto.
Qed.

(** A block of parity and the parity of what follows *)
Lemma code_append m l n (datas pars1 pars2 : list (list N)) : n = Nat.min m l ->
  Forall (fun b => length b = l /\ bytes_ok b) datas -> length pars1 = length pars2 ->
  is_code (st_r s) n (map (firstn m) datas ++ pars1) ->
  is_code (st_r s) (l - m) (map (skipn m) datas ++ pars2) ->
  is_code (st_r s) l (datas ++ map2 (@app N) pars1 pars2).
Proof.
  intros -> Hh Hlp HA HB. destruct (cut_min m l datas Hh) as [E1 E2]. rewrite <- E1 in HA. rewrite <- E2 in HB.
  set (n := Nat.min m l) in *.
  assert (F1 := proj1 (proj2 HA)). assert (F2 := proj1 (proj2 HB)).
  apply Forall_app in F1 as [_ F1]. apply Forall_app in F2 as [_ F2].
  destruct (map2_firstn n pars1 pars2) as [E3 E4]; [auto | eapply Forall_impl; [| exact F1]; intros x Hx; apply Hx |].
  replace l with (n + (l - m)) at 1 by lia. apply is_code_split.
  - assert (Ht := proj1 HA). rewrite length_app, length_map in Ht. rewrite length_app, length_map2. lia.
  - apply Forall_app. split.
    + eapply Forall_impl; [| exact Hh]. intros b [B1 B2]. split; [lia | auto].
    + apply Forall_forall. intros b (i & Hi & <-)%(In_nth _ _ []). rewrite length_map2 in Hi.
      rewrite (nth_map2 _ _ _ [] []) by lia. rewrite !Forall_forall in *.
      destruct (F1 (nth i pars1 [])) as [B1 B2]; [apply nth_In; lia |].
      destruct (F2 (nth i pars2 [])) as [B3 B4]; [apply nth_In; lia |].
      split; [rewrite length_app; lia | apply bytes_ok_app; auto].
  - rewrite !map_app, E3, E4. auto.
Qed.

Lemma encode_loop_spec : forall fuel l m block read all (data : list R) datas (parity : list W),
  l < fuel -> 0 < m -> length all = t -> Forall (shard_ok m) all -> Forall (buffer bs) all ->
  length data = d -> have l (map Some data) datas -> length parity = p -> (read = 0 -> 0 < l) ->
  exists data' parity' all' pars,
    encode_loop s sched fuel block read all (map Some data) (map Some parity) = Ret (map Some data', map Some parity', all', None) /\
    length pars = p /\ is_code (st_r s) l (datas ++ pars) /\
    map written parity' = map2 (@app N) (map written parity) pars /\ back all'.
Proof.
  assert (Hd := ok_data _ Hs). assert (Hdt := ok_total _ Hs).
  induction fuel as [|fuel IH]; intros l m block read all data datas parity Hf Hm Hla Hall Hbuf Hld Hh Hlp Hread; [lia |].
  cbn [encode_loop].
  assert (Hld' : length datas = d) by (destruct Hh as [Hh _]; apply Forall2_length in Hh; rewrite length_map in Hh; lia).
  destruct (filled_all m l data datas (firstn d all) Hm Hh) as (inn & data' & _ & _ & Hli & Hld1 & Hinn & Hbi & Hbytes & Hh' & Hrd);
    [lens | now apply firstn_Forall | now apply firstn_Forall | intros ->; cbn in Hld; lia |].
  rewrite Hrd. cbn [bind]. destruct (Nat.eqb_spec l 0) as [->|Hl0].
  - destruct (Nat.eqb_spec read 0); [lia |]. exists data', parity, (inn ++ skipn d all), (repeat [] p).
    splits; auto; [now rewrite repeat_length | | |].
    + apply code_empty; [auto | now rewrite repeat_length |]. apply Forall_app. split; [exact (proj2 Hh) |].
      apply Forall_forall. intros x ->%repeat_spec. split; [auto | constructor].
    + rewrite <- Hlp, <- (length_map written). generalize (map written parity). clear.
      induction l as [|x l IH]; cbn; [auto |]. rewrite app_nil_r. now f_equal.
    + split; [rewrite length_app, length_skipn; lia |]. apply Forall_app. rewrite !Forall_forall in *. split.
      * intros x Hx. split; [now apply Hbi | apply (Hinn x Hx)].
      * intros x Hx. assert (Hx' : In x all) by (rewrite <- (firstn_skipn d all); apply in_or_app; auto).
        split; [now apply Hbuf | apply (Hall x Hx')].
  - set (n := Nat.min m l) in *. assert (Hn : 0 < n) by lia.
    assert (Hsz : shardSize_ inn = n).
    { apply (checkShards_full n inn Hn); auto. intros E. rewrite E in Hli. cbn in Hli. lia. }
    rewrite Hsz, (trim_full m n) by (solve [lia | now apply skipn_Forall]). cbn [bind].
    set (out := map (trimmed n) (skipn d all)).
    assert (Hlo : length out = p) by (subst out; lens).
    assert (Hout : Forall (shard_ok n) out).
    { apply Forall_map. eapply Forall_impl; [| apply (skipn_Forall _ d _ Hall)]. intros x Hx. apply (trimmed_shard m); [auto | lia]. }
    assert (Hbo : Forall (buffer bs) out).
    { apply Forall_map. eapply Forall_impl; [| apply (skipn_Forall _ d _ Hbuf)]. intros x Hx. now apply trimmed_buffer. }
    assert (Hfull : Forall (shard_ok n) (inn ++ out)) by (apply Forall_app; auto).
    assert (Hlt : length (inn ++ out) = t) by (rewrite length_app; lia).
    destruct (Encode_spec (st_r s) Hs n (inn ++ out) Hn Hlt Hfull) as (all1 & -> & Hcode & Hfirst & Hspare).
    cbn [try bind].
    assert (Hc1 := Hcode). destruct Hc1 as (Hl1 & Hf1 & _).
    assert (Hb1 : Forall (buffer bs) all1).
    { apply Forall_forall. intros x (i & Hi & <-)%(In_nth _ _ Nil).
      apply (shard_buffer n bs (nth i (inn ++ out) Nil)); [apply shard_ok_nth; auto; lia | apply shard_ok_nth; auto | apply Hspare; lia |].
      assert (Hb2 : Forall (buffer bs) (inn ++ out)) by (apply Forall_app; auto).
      rewrite Forall_forall in Hb2. apply Hb2, nth_In. lia. }
    assert (Hls : length (skipn d all1) = p) by lens.
    rewrite st_write by (rewrite length_map; lia). cbn [bind].
    destruct (write_some parity (skipn d all1)) as (parity1 & -> & Hlp1 & Hw1); [lia |].
    destruct (IH (l - m) n (S block) (read + n) all1 data' (map (skipn m) datas) parity1)
      as (data2 & parity2 & all2 & pars2 & -> & Hlp2 & Hcode2 & Hw2 & Hback); auto; try lia.
    set (pars1 := map bytes_of (skipn d all1)) in *.
    assert (Hlp3 : length pars1 = p) by (subst pars1; lens).
    assert (Hall1 : map bytes_of all1 = map (firstn m) datas ++ pars1).
    { rewrite <- Hbytes. rewrite <- (firstn_skipn d all1) at 1. rewrite map_app. f_equal. rewrite Hfirst.
      now rewrite firstn_app, <- Hld, <- Hli, firstn_all, Nat.sub_diag, app_nil_r. }
    exists data2, parity2, all2, (map2 (@app N) pars1 pars2). splits; auto.
    + lens.
    + apply (code_append m l n); auto; try lia; [exact (proj2 Hh) |]. rewrite <- Hall1. apply codeword_code; auto.
      eapply Forall_impl; [| exact Hf1]. intros x Hx. apply Hx.
    + now rewrite Hw2, Hw1, map2_app_assoc.
Qed.
End Streams.
