(* ===== verification/StreamRecover.v ===== *)
(** * Verifying, reconstructing, splitting and joining streams

    [Verify] with streams that are missing and the loop of [Reconstruct]; what [Split] and
    [Join] of the streaming encoder write. *)
From Stdlib Require Import List Arith NArith ZArith Lia Bool Permutation.
From Stdlib Require Import List Arith NArith ZArith Lia Bool.
From S2P Require Import Prelude Galois RSTypes Matrix EncodingMatrix InversionTree Options Coding IO Codec Stream StreamCorrect.
From S2P Require Import CodecCorrect Reconstruct.
Import ListNotations.

(** ** Verifying and reconstructing *)

Section Streams.
Context {R W : Type} `{GoodReader R} `{GoodWriter W}.
Context (s : rsStream) (sched : schedule) (Hs : rs_ok (st_r s)) (Hsched : schedule_ok sched).
Local Abbreviation d := (dataShards (st_r s)).
Local Abbreviation p := (parityShards (st_r s)).
Local Abbreviation t := (totalShards (st_r s)).
Local Abbreviation bs := (Z.to_nat (streamBS (st_o s))).

(** [Encode] writes the parity of the whole streams and reads them to the end. *)
Lemma Encode_stream fuel pooled (data : list R) datas (parity : list W) l :
  0 < bs -> pooled_ok s pooled -> length data = d -> length parity = p ->
  have l (map Some data) datas -> 0 < l < fuel ->
  exists data' parity' all' pars,
    Stream.Encode s sched fuel pooled (map Some data) (map Some parity) = Ret (map Some data', map Some parity', all', None) /\
    length pars = p /\ is_code (st_r s) l (datas ++ pars) /\
    map written parity' = map2 (@app N) (map written parity) pars /\ back s all'.
Proof.
  intros Hbs Hp Hd Hpar Hh Hl. unfold Stream.Encode. rewrite !length_map, Hd, Hpar, !Nat.eqb_refl. cbn [negb].
  destruct (createSlice_spec s pooled Hp) as (all & -> & H3 & H4 & H5). cbn [bind].
  apply (encode_loop_spec s sched Hs Hsched fuel l bs); auto; lia.
Qed.

(** ** Verify *)

Lemma verify_loop_spec : forall fuel l m block read all (shards : list R) bytes,
  l < fuel -> 0 < m -> length all = t -> Forall (shard_ok m) all -> Forall (buffer bs) all ->
  length shards = t -> have l (map Some shards) bytes -> (read = 0 -> 0 < l) ->
  exists shards' all' b, verify_loop s sched fuel block read all (map Some shards) = Ret (map Some shards', all', b, None) /\
    (b = true <-> is_code (st_r s) l bytes) /\ back s all'.
Proof.
  assert (Hd := ok_data _ Hs). assert (Hdt := ok_total _ Hs).
  induction fuel as [|fuel IH]; intros l m block read all shards bytes Hf Hm Hla Hall Hbuf Hls Hh Hread; [lia |].
  cbn [verify_loop].
  assert (Hlb : length bytes = t) by (destruct Hh as [Hh _]; apply Forall2_length in Hh; rewrite length_map in Hh; lia).
  destruct (filled_all s sched Hsched m l shards bytes all Hm Hh) as (inn & data' & _ & _ & Hli & Hld1 & Hinn & Hbi & Hbytes & Hh' & Hrd);
    [lia | auto | auto | intros ->; cbn in Hls; lia |].
  rewrite Hrd. cbn [bind]. destruct (Nat.eqb_spec l 0) as [->|Hl0].
  - destruct (Nat.eqb_spec read 0); [lia |]. exists data', inn, true. splits; auto.
    + split; [intros _ | auto]. split; [auto |]. split; [exact (proj2 Hh) |]. intros i k _ Hk. lia.
    + apply (back_ok s (Nat.min m 0)); auto. lia.
  - set (n := Nat.min m l) in *. assert (Hn : 0 < n) by lia. assert (Hlt : length inn = t) by lia.
    destruct (Verify_spec (st_r s) Hs n inn Hn Hlt Hinn) as (b & -> & Hb). cbn [try bind].
    assert (Hcode : codeword (st_r s) n inn <-> is_code (st_r s) n (map (firstn n) bytes)).
    { destruct (cut_min m l bytes (proj2 Hh)) as [E _]. fold n in E. rewrite E, <- Hbytes. apply codeword_code.
      eapply Forall_impl; [| exact Hinn]. intros x Hx. apply Hx. }
    assert (Hsplit : is_code (st_r s) l bytes <->
        is_code (st_r s) n (map (firstn n) bytes) /\ is_code (st_r s) (l - m) (map (skipn n) bytes)).
    { replace l with (n + (l - m)) at 1 by lia. apply is_code_split; [auto |].
      eapply Forall_impl; [| exact (proj2 Hh)]. intros x [Hx1 Hx2]. split; [lia | auto]. }
    rewrite Hcode in Hb. destruct b.
    + destruct (IH (l - m) n (S block) (read + shardSize_ inn) inn data' (map (skipn m) bytes)) as (sh & all' & b & -> & Hb' & Hback); auto; try lia.
      { destruct (checkShards_full n inn Hn) as [_ ->]; auto; [intros E; rewrite E in Hlt; cbn in Hlt; lia | lia]. }
      exists sh, all', b. splits; auto. rewrite Hb', Hsplit.
      destruct (cut_min m l bytes (proj2 Hh)) as [_ E]. fold n in E. rewrite E. tauto.
    + exists data', inn, false. splits; auto; [| now apply (back_ok s n)].
      split; [discriminate |]. intros Hc. apply Hb. now apply Hsplit.
Qed.

Lemma Verify_stream fuel pooled (shards : list R) bytes l :
  0 < bs -> pooled_ok s pooled -> length shards = t -> have l (map Some shards) bytes -> 0 < l < fuel ->
  exists shards' all' b, Stream.Verify s sched fuel pooled (map Some shards) = Ret (map Some shards', all', b, None) /\
    (b = true <-> is_code (st_r s) l bytes) /\ back s all'.
Proof.
  intros Hbs Hp Hd Hh Hl. unfold Stream.Verify. rewrite !length_map, Hd, !Nat.eqb_refl. cbn [negb].
  destruct (createSlice_spec s pooled Hp) as (all & -> & H3 & H4 & H5). cbn [bind].
  apply (verify_loop_spec fuel l bs); auto; lia.
Qed.

(** ** Reconstruct *)

Lemma trim_sized n all : 0 < n -> Forall (fun x => len x = 0 \/ len x = n) all -> trimShards all n = Ret all.
Proof.
  intros Hn Hf. rewrite <- (map_id all) at 2. apply mapM_ret. intros x Hx. rewrite Forall_forall in Hf.
  destruct (Hf x Hx) as [E|E]; rewrite E.
  - cbn [Nat.eqb negb bind]. rewrite E. destruct (Nat.ltb_spec 0 n); [| lia].
    rewrite reslice_trimmed by lia. now rewrite trimmed_0.
  - destruct (Nat.eqb_spec n 0); [lia |]. cbn [negb]. rewrite reslice_trimmed by (unfold cap, len in *; lia). cbn [bind].
    rewrite <- E, trimmed_len, E, Nat.ltb_irrefl. reflexivity.
Qed.

(** One block of the in-memory encoder, with the cache it has now *)
Lemma reconstruct_block r n full all rdo : rs_ok r -> same_code (st_r s) r -> 0 < n -> codeword (st_r s) n full ->
  damaged (st_r s) n full all -> d <= count all ->
  exists r' all', (if rdo : bool then ReconstructData r all else Codec.Reconstruct r all) = Ret (r', all') /\
    rs_ok r' /\ same_code (st_r s) r' /\ length all' = t /\ keeps all all' /\
    forall i, i < t -> if (i <? d) || negb rdo then recovered n full all' i else nth i all' Nil = nth i all Nil.
Proof.
  intros Hr [tree ->] Hn Hc Hdam Hcnt.
  destruct (reconstruct_spec _ Hr n full all rdo None Hn Hc Hdam I Hcnt (or_intror (or_intror (fun _ _ _ => eq_refl))))
    as (r' & all' & E & H4 & [tree' ->] & H6 & H7 & H8).
  exists (with_tree (st_r s) tree'), all'. splits; auto.
  - destruct rdo; exact E.
  - now exists tree'.
Qed.

(** The readers give a part of the shards of [full]. *)
Definition part_of (l : nat) (valid : list (option R)) (full : list (list N)) : Prop :=
  have l valid full /\ length valid = t /\ d <= length (filter is_some valid).

(** The buffers at the start of a block *)
Definition buffers (m : nat) (valid : list (option R)) (all : list slice) : Prop :=
  length all = t /\ Forall (buffer bs) all /\
  forall i r, nth i valid None = Some r -> shard_ok m (nth i all Nil).

Lemma filled_damaged l m valid full all : 0 < m -> 0 < l -> part_of l valid full -> buffers m valid all ->
  let n := Nat.min m l in let all1 := map2 filled valid all in
  damaged (st_r s) n (shards_of (map (firstn m) full)) all1 /\ count all1 = length (filter is_some valid) /\
  length all1 = t /\ Forall (buffer bs) all1 /\
  forall i r, nth i valid None = Some r -> shard_ok n (nth i all1 Nil).
Proof.
  intros Hm Hl (Hh & Hlv & Hcnt) (Hla & Hbuf & Hok) n all1.
  assert (Hlf : length full = t) by (destruct Hh as [Hf _]; apply Forall2_length in Hf; lia).
  assert (Hready := have_ready m l valid full all Hh ltac:(lia) Hok).
  assert (Hl1 : length all1 = t) by (subst all1; rewrite length_map2; lia).
  assert (Hb1 : forall i, i < t -> buffer bs (nth i all1 Nil)).
  { intros i Hi. apply (filled_nth m l valid all i Hm Hready); [lia |]. rewrite Forall_forall in Hbuf. apply Hbuf, nth_In. lia. }
  assert (Hn : forall i r, i < t -> nth i valid None = Some r ->
    shard_ok n (nth i all1 Nil) /\ bytes_of (nth i all1 Nil) = firstn m (nth i full [])).
  { intros i r Hi Hir. destruct (filled_nth m l valid all i Hm Hready) as [H3 _]; [lia |]. rewrite Hir in H3.
    destruct H3 as [H3 H4]. split; [exact H3 |]. destruct (have_nth l valid full i r Hh Hir) as [<- _]. exact H4. }
  assert (Hmiss : forall i, i < t -> nth i valid None = None -> len (nth i all1 Nil) = 0).
  { intros i Hi Hir. destruct (filled_nth m l valid all i Hm Hready) as [H3 _]; [lia |]. now rewrite Hir in H3. }
  splits; auto.
  - split; [auto |]. intros i Hi. destruct (nth i valid None) as [r|] eqn:E.
    + right. destruct (Hn i r Hi E) as [H3 H4]. split; [auto |]. intros k Hk. rewrite !bytes_at_column, bytes_shards_of.
      unfold column. change (@nil N) with (bytes_of Nil) at 1. rewrite map_nth, H4.
      now rewrite (nth_map_in _ _ []) by lia.
    + left. split; [now apply Hmiss |]. destruct (Hb1 i Hi) as [_ Hb]. now apply bytes_ok_app in Hb.
  - unfold count. transitivity (length (filter (fun b : bool => b) (map present all1))).
    { clear. induction all1 as [|x l IH]; cbn; [auto |]. destruct (present x); cbn; auto. }
    transitivity (length (filter (fun b : bool => b) (map is_some valid))).
    2: { clear. induction valid as [|x l IH]; cbn; [auto |]. destruct x; cbn; auto. }
    do 2 f_equal. apply (list_ext false); [lens |]. intros i Hi. rewrite length_map in Hi.
    rewrite (nth_map_in _ _ Nil), (nth_map_in _ _ None) by lia. unfold present.
    destruct (nth i valid None) as [r|] eqn:E; cbn [is_some].
    + destruct (Hn i r ltac:(lia) E) as [(_ & -> & _) _]. destruct (Nat.eqb_spec n 0); [lia | auto].
    + now rewrite Hmiss by (auto; lia).
  - apply Forall_forall. intros x (i & Hi & <-)%(In_nth _ _ Nil). apply Hb1. lia.
  - intros i r Hir. apply (Hn i r); [| exact Hir]. destruct (Nat.lt_ge_cases i t); [auto |].
    rewrite nth_overflow in Hir; [discriminate | lia].
Qed.

(** A recovered shard has the bytes of its block. *)
Lemma recovered_bytes m l full all i : Forall (fun b => length b = l /\ bytes_ok b) full -> i < length full ->
  recovered (Nat.min m l) (shards_of (map (firstn m) full)) all i -> bytes_of (nth i all Nil) = firstn m (nth i full []).
Proof.
  intros Hf Hi [(_ & Hlb & _) Hbytes].
  assert (Hfi : length (nth i full []) = l) by (rewrite Forall_forall in Hf; apply Hf, nth_In; lia).
  unfold len in Hlb. apply (list_ext 0%N); [rewrite length_firstn; lia |]. intros k Hk. rewrite Hlb in Hk.
  specialize (Hbytes k Hk). rewrite !bytes_at_column, bytes_shards_of in Hbytes. unfold column in Hbytes.
  change (@nil N) with (bytes_of Nil) in Hbytes at 1. rewrite map_nth in Hbytes. rewrite Hbytes.
  now rewrite (nth_map_in _ _ []) by lia.
Qed.

Lemma buffers_back all : 0 < bs -> length all = t -> Forall (buffer bs) all -> back s all.
Proof.
  intros Hbs Hl Hf. split; [auto |]. eapply Forall_impl; [| exact Hf]. intros x Hx. split; [auto |].
  destruct x; [| auto]. destruct Hx as [Hx _]. cbn in Hx. lia.
Qed.

(** The writers ask for missing shards; only data shards with [rdo]. *)
Definition fill_ok (rdo : bool) (valid : list (option R)) (fill : list (option W)) : Prop :=
  length fill = t /\
  forall i w, nth i fill None = Some w -> nth i valid None = None /\ (rdo = true -> i < d).

(** Each writer took the shard of its index. *)
Definition filled_in (fill fill' : list (option W)) (full : list (list N)) : Prop :=
  length fill' = length fill /\
  forall i, match nth i fill None, nth i fill' None with
            | None, None => True
            | Some w, Some w' => written w' = written w ++ nth i full []
            | _, _ => False
            end.

Lemma advanced_some (valid : list (option R)) all i : length valid = length all ->
  nth i (map2 advanced valid all) None = advanced (nth i valid None) (nth i all Nil).
Proof.
  intros Hl. change None with (advanced (R := R) None Nil) at 1. now apply nth_map2_same.
Qed.

Lemma advanced_count (valid : list (option R)) all : length valid = length all ->
  length (filter is_some (map2 advanced valid all)) = length (filter is_some valid).
Proof.
  revert all; induction valid as [|[r|] valid IH]; intros [|x all] Hl; try discriminate; cbn; auto.
Qed.

Lemma reconstruct_loop_spec rdo : forall fuel l m block read r all valid fill full,
  l < fuel -> 0 < m -> rs_ok r -> same_code (st_r s) r -> part_of l valid full -> buffers m valid all ->
  fill_ok rdo valid fill -> is_code (st_r s) l full -> (read = 0 -> 0 < l) ->
  exists r' valid' fill' all',
    reconstruct_loop s sched fuel block read rdo r all valid fill = Ret (r', valid', fill', all', None) /\
    rs_ok r' /\ same_code (st_r s) r' /\ filled_in fill fill' full /\ Forall (buffer bs) all' /\ length all' = t.
Proof.
  assert (Hd := ok_data _ Hs). assert (Hdt := ok_total _ Hs).
  induction fuel as [|fuel IH]; intros l m block read r all valid fill full Hf Hm Hr Hsame Hpart Hbufs Hfill Hcode Hread; [lia |].
  cbn [reconstruct_loop]. assert (Hp := Hpart). destruct Hp as (Hh & Hlv & Hcnt). assert (Hb := Hbufs). destruct Hb as (Hla & Hbuf & Hok).
  assert (Hready := have_ready m l valid full all Hh ltac:(lia) Hok).
  rewrite (st_read s sched Hsched m l) by auto. cbn [bind]. set (all1 := map2 filled valid all).
  assert (Hex : existsb is_some valid = true).
  { destruct (filter is_some valid) as [|o os] eqn:E; [cbn in Hcnt; lia |].
    assert (Ho : In o (filter is_some valid)) by (rewrite E; now left). apply filter_In in Ho. apply existsb_exists. eauto. }
  unfold at_end. rewrite Hex, orb_true_r, andb_true_r. destruct (Nat.eqb_spec l 0) as [->|Hl0].
  - destruct (Nat.eqb_spec read 0); [lia |]. exists r, (map2 advanced valid all), fill, all1.
    assert (Hl1 : length all1 = t) by (subst all1; rewrite length_map2; lia).
    splits; auto.
    + split; [auto |]. intros i. destruct (nth i fill None) as [w|]; [| auto].
      assert (E : nth i full [] = []).
      { destruct Hh as [_ Hh]. rewrite Forall_forall in Hh. destruct (nth_in_or_default i full []) as [Hin|E]; [| auto].
        destruct (Hh _ Hin) as [E _]. now destruct (nth i full []). }
      now rewrite E, app_nil_r.
    + apply Forall_forall. intros x (i & Hi & <-)%(In_nth _ _ Nil).
      apply (filled_nth m 0 valid all i Hm Hready); [lia |]. rewrite Forall_forall in Hbuf. apply Hbuf, nth_In. lia.
  - set (n := Nat.min m l). assert (Hn : 0 < n) by lia.
    destruct (filled_damaged l m valid full all Hm ltac:(lia) Hpart Hbufs) as (Hdam & Hc1 & Hl1 & Hb1 & Hok1). fold n all1 in Hdam, Hc1, Hl1, Hb1, Hok1.
    assert (Hsized := damaged_sized (st_r s) n _ _ Hdam).
    assert (Hsz : shardSize_ all1 = n).
    { apply shardSize_sized; [auto |]. unfold count in Hc1. destruct (filter present all1) as [|x xs] eqn:E; [cbn in Hc1; lia |].
      assert (Hx : In x (filter present all1)) by (rewrite E; now left). apply filter_In in Hx. apply existsb_exists. eauto. }
    assert (Hlens : Forall (fun x => len x = 0 \/ len x = n) all1)
      by (eapply Forall_impl; [| exact Hsized]; intros x [Hx|(_ & Hx & _)]; auto).
    rewrite Hsz, trim_sized by auto. cbn [bind].
    destruct (cut_min m l full (proj2 Hh)) as [Ec1 Ec2]. fold n in Ec1, Ec2.
    assert (Hsplit : is_code (st_r s) n (map (firstn m) full) /\ is_code (st_r s) (l - m) (map (skipn m) full)).
    { rewrite <- Ec1, <- Ec2. apply is_code_split; [apply Hcode | | replace (n + (l - m)) with l by lia; exact Hcode].
      eapply Forall_impl; [| exact (proj2 Hh)]. intros x [Hx1 Hx2]. split; [lia | auto]. }
    destruct Hsplit as [Hcode1 Hcode2]. apply code_codeword in Hcode1.
    destruct (reconstruct_block r n _ all1 rdo Hr Hsame Hn Hcode1 Hdam) as (r1 & all2 & -> & Hr1 & Hsame1 & Hl2 & Hkeep & Hrec); [lia |].
    cbn [try bind]. destruct Hfill as [Hlf Hfill].
    rewrite (st_write s sched Hsched) by lia. cbn [bind]. set (fill1 := map2 write_into fill all2).
    assert (Hlen : length (map2 advanced valid all) = t) by (rewrite length_map2; lia).
    destruct (IH (l - m) n (S block) (read + n) r1 all2 (map2 advanced valid all) fill1 (map (skipn m) full))
      as (r' & valid' & fill' & all' & -> & Hr' & Hsame' & Hin & Hback); auto; try lia.
    { split; [| split]; [now apply have_advanced | auto | rewrite advanced_count by lia; auto]. }
    { split; [auto |]. split.
      - apply Forall_forall. intros x (i & Hi & <-)%(In_nth _ _ Nil). apply Hkeep. rewrite Forall_forall in Hb1. apply Hb1, nth_In. lia.
      - intros i r0 Hi. rewrite advanced_some in Hi by lia. destruct (nth i valid None) as [r2|] eqn:E; [| discriminate].
        assert (Hit : i < t) by (destruct (Nat.lt_ge_cases i t); [auto |]; rewrite nth_overflow in E; [discriminate | lia]).
        specialize (Hrec i Hit). destruct ((i <? d) || negb rdo); [apply Hrec |]. rewrite Hrec. eauto. }
    { split; [unfold fill1; rewrite length_map2; lia |]. intros i w Hi. unfold fill1 in Hi.
      change None with (write_into (W := W) None Nil) in Hi. rewrite nth_map2_same in Hi by lia.
      destruct (nth i fill None) as [w0|] eqn:E; [| discriminate]. destruct (Hfill i w0 E) as [E1 E2].
      rewrite advanced_some, E1 by lia. auto. }
    exists r', valid', fill', all'. splits; auto; try apply Hback.
    destruct Hin as [Hlin Hin]. split; [rewrite Hlin; unfold fill1; rewrite length_map2; lia |].
    intros i. specialize (Hin i). unfold fill1 in Hin. change None with (write_into (W := W) None Nil) in Hin at 1.
    rewrite nth_map2_same in Hin by lia. destruct (nth i fill None) as [w|] eqn:E; cbn [write_into option_map] in Hin; [| exact Hin].
    destruct (nth i fill' None) as [w'|]; [| exact Hin]. rewrite Hin.
    destruct (write_shard_spec i w (nth i all2 Nil)) as [_ ->]. rewrite <- app_assoc. f_equal.
    destruct (Hfill i w E) as [E1 E2].
    assert (Hit : i < t) by (destruct (Nat.lt_ge_cases i t); [auto |]; rewrite nth_overflow in E; [discriminate | lia]).
    specialize (Hrec i Hit). replace ((i <? d) || negb rdo) with true in Hrec.
    2: { destruct rdo; [| now rewrite orb_true_r]. symmetry. apply orb_true_iff. left. now apply Nat.ltb_lt, E2. }
    assert (Hlfull : length full = t) by apply Hcode. rewrite (nth_map_in _ _ []) by lia.
    rewrite (recovered_bytes m l full all2 i) by solve [exact (proj2 Hh) | lia | exact Hrec]. now rewrite firstn_skipn.
Qed.

Lemma recon_checks_spec fill : forall (valid : list (option R)) i,
  (forall j (w : W), nth j fill None = Some w -> nth j valid None = None) -> length valid = length fill ->
  exists rdo, recon_checks s i valid fill = Some rdo /\
    (rdo = true -> forall j w, nth j fill None = Some w -> i + j < d).
Proof.
  induction fill as [|f fill IH]; intros [|v valid] i Hno Hl; try discriminate; cbn [recon_checks].
  - exists true. split; [auto |]. intros _ [|j] w; discriminate.
  - destruct (IH valid (S i)) as (rdo & E & Hr); [intros j w; apply (Hno (S j) w) | now injection Hl |]. rewrite E.
    destruct f as [w|].
    + assert (E0 := Hno 0 w eq_refl). cbn in E0. subst v. cbn [option_map]. eexists. split; [reflexivity |].
      intros [Hi%Nat.ltb_lt Hrdo]%andb_prop [|j] w' Hj; [lia |]. specialize (Hr Hrdo j w' Hj). lia.
    + exists rdo. split; [now destruct v |]. intros Hrdo [|j] w Hj; [discriminate |]. specialize (Hr Hrdo j w Hj). lia.
Qed.

(** With [d] readers left the missing shards that are asked for are written. *)
Lemma Reconstruct_stream fuel pooled valid (fill : list (option W)) full l :
  0 < bs -> pooled_ok s pooled -> part_of l valid full -> length fill = t ->
  (forall i w, nth i fill None = Some w -> nth i valid None = None) ->
  is_code (st_r s) l full -> 0 < l < fuel ->
  exists r' valid' fill' all',
    Stream.Reconstruct s sched fuel pooled valid fill = Ret (r', valid', fill', all', None) /\
    rs_ok r' /\ same_code (st_r s) r' /\ filled_in fill fill' full /\ back s all'.
Proof.
  intros Hbs Hp Hpart Hlf Hno Hcode Hl. unfold Stream.Reconstruct. assert (Hlv := proj1 (proj2 Hpart)).
  rewrite Hlv, Hlf, !Nat.eqb_refl. cbn [negb].
  destruct (createSlice_spec s pooled Hp) as (all & -> & H3 & H4 & H5). cbn [bind].
  destruct (recon_checks_spec fill valid 0 Hno) as (rdo & -> & Hrdo); [lia |].
  destruct (reconstruct_loop_spec rdo fuel l bs 0 0 (st_r s) all valid fill full)
    as (r' & valid' & fill' & all' & E & Hr' & Hsame & Hin & Hb & Hla); auto; try lia.
  - now exists (rs_tree (st_r s)); destruct (st_r s).
  - split; [auto |]. split; [auto |]. intros i r Hi. apply shard_ok_nth; [auto |]. rewrite H3, <- Hlv.
    destruct (Nat.lt_ge_cases i (length valid)); [auto |]. rewrite nth_overflow in Hi; [discriminate | auto].
  - split; [auto |]. intros i w Hi. split; [eauto |]. intros Hr. apply (Hrdo Hr i w Hi).
  - exists r', valid', fill', all'. splits; auto. now apply buffers_back.
Qed.

(** A reader that is not there makes [Verify] fail. *)
Lemma Verify_missing fuel pooled valid bytes l :
  0 < bs -> pooled_ok s pooled -> have l valid bytes -> length valid = t ->
  existsb is_some valid = true -> forallb is_some valid = false -> 0 < l < fuel ->
  exists valid' all', Stream.Verify s sched fuel pooled valid = Ret (valid', all', false, Some ErrShardSize) /\ back s all'.
Proof.
  intros Hbs Hp Hh Hlv Hex Hall Hl. unfold Stream.Verify. rewrite Hlv, Nat.eqb_refl. cbn [negb].
  destruct (createSlice_spec s pooled Hp) as (all & -> & H3 & H4 & H5). cbn [bind].
  destruct fuel as [|fuel]; [lia |]. cbn [verify_loop].
  assert (Hready : Forall2 (ready bs l) valid all).
  { apply (have_ready bs l valid bytes); auto; [lia |]. intros i r Hi. apply shard_ok_nth; [auto |]. rewrite H3, <- Hlv.
    destruct (Nat.lt_ge_cases i (length valid)); [auto |]. rewrite nth_overflow in Hi; [discriminate | auto]. }
  rewrite (st_read s sched Hsched bs l) by auto. cbn [bind]. unfold at_end. rewrite Hex, orb_true_r.
  destruct (Nat.eqb_spec l 0); [lia |]. cbn [andb]. set (all1 := map2 filled valid all).
  assert (Hl1 : length all1 = t) by (unfold all1; rewrite length_map2; lia).
  apply existsb_exists in Hex as (o & Ho & Hos). apply (In_nth _ _ None) in Ho as (i & Hi & <-).
  assert (Hmiss : exists j, j < length valid /\ nth j valid None = None).
  { clear - Hall. induction valid as [|[r|] valid IH]; cbn in *; [discriminate | |].
    - destruct (IH Hall) as (j & Hj & E). exists (S j). split; [lia | exact E].
    - exists 0. split; [lia | auto]. }
  destruct Hmiss as (j & Hj & Ej). unfold Codec.Verify. rewrite Hl1, Nat.eqb_refl. cbn [negb].
  assert (Hi1 := filled_nth bs l valid all i Hbs Hready Hi). assert (Hj1 := filled_nth bs l valid all j Hbs Hready Hj).
  rewrite Ej in Hj1. destruct (nth i valid None) as [r|]; [| discriminate].
  destruct Hi1 as [[(_ & Hli & _) _] _]. destruct Hj1 as [Hlj _]. fold all1 in Hli, Hlj.
  assert (Hsz : shardSize_ all1 = Nat.min bs l).
  { apply shardSize_sized.
    - apply Forall_forall. intros x (k & Hk & <-)%(In_nth _ _ Nil). destruct (filled_nth bs l valid all k Hbs Hready) as [Hx _]; [lia |].
      fold all1 in Hx. destruct (nth k valid None); [right; apply Hx | now left].
    - apply existsb_exists. exists (nth i all1 Nil). split; [apply nth_In; lia |]. unfold present. rewrite Hli.
      destruct (Nat.eqb_spec (Nat.min bs l) 0); [lia | auto]. }
  assert (Hcheck : checkShards all1 false = Err ErrShardSize).
  { unfold checkShards. rewrite Hsz. destruct (Nat.eqb_spec (Nat.min bs l) 0); [lia |].
    replace (existsb _ all1) with true; [auto |]. symmetry. apply existsb_exists. exists (nth j all1 Nil).
    split; [apply nth_In; lia |]. rewrite Hlj. destruct (Nat.eqb_spec 0 (Nat.min bs l)); [lia | auto]. }
  rewrite Hcheck. cbn [bind try]. exists (map2 advanced valid all), all1. split; [auto |]. apply buffers_back; auto.
  apply Forall_forall. intros x (k & Hk & <-)%(In_nth _ _ Nil).
  apply (filled_nth bs l valid all k Hbs Hready); [lia |]. rewrite Forall_forall in H5. apply H5, nth_In. lia.
Qed.

(** ** Nothing missing *)

Lemma reconstruct_loop_complete : forall fuel l m block read all (valid : list R) bytes (fill : list (option W)),
  l < fuel -> 0 < m -> length all = t -> Forall (shard_ok m) all -> Forall (buffer bs) all ->
  length valid = t -> have l (map Some valid) bytes -> fill = repeat None t -> (read = 0 -> 0 < l) ->
  exists valid' all', reconstruct_loop s sched fuel block read true (st_r s) all (map Some valid) fill =
      Ret (st_r s, map Some valid', fill, all', None) /\ back s all'.
Proof.
  assert (Hd := ok_data _ Hs). assert (Hdt := ok_total _ Hs).
  induction fuel as [|fuel IH]; intros l m block read all valid bytes fill Hf Hm Hla Hall Hbuf Hlv Hh -> Hread; [lia |].
  cbn [reconstruct_loop].
  destruct (filled_all s sched Hsched m l valid bytes all Hm Hh) as (inn & data' & _ & _ & Hli & Hld1 & Hinn & Hbi & _ & Hh' & Hrd);
    [lia | auto | auto | intros ->; cbn in Hlv; lia |].
  rewrite Hrd. cbn [bind]. destruct (Nat.eqb_spec l 0) as [->|Hl0].
  - destruct (Nat.eqb_spec read 0); [lia |]. exists data', inn. split; [auto |].
    apply (back_ok s (Nat.min m 0)); auto. lia.
  - set (n := Nat.min m l) in *. assert (Hn : 0 < n) by lia.
    destruct (checkShards_full n inn Hn) as [_ Hsz]; [intros E; rewrite E in Hli; cbn in Hli; lia | auto |].
    assert (Hlens : Forall (fun x => len x = 0 \/ len x = n) inn) by (eapply Forall_impl; [| exact Hinn]; intros x (_ & Hx & _); auto).
    rewrite Hsz, trim_sized by auto. cbn [bind].
    unfold ReconstructData. rewrite (reconstruct_complete (st_r s) Hs n) by (auto; lia). cbn [try bind].
    rewrite (st_write s sched Hsched) by (rewrite repeat_length; lia). cbn [bind].
    assert (Ew : map2 write_into (repeat None t) inn = repeat (@None W) t).
    { replace t with (length inn) by lia. clear. induction inn; cbn; [auto | now f_equal]. }
    rewrite Ew. apply (IH (l - m) n _ _ inn data' (map (skipn m) bytes)); auto; lia.
Qed.

Lemma Reconstruct_complete fuel pooled (valid : list R) bytes l :
  0 < bs -> pooled_ok s pooled -> length valid = t -> have l (map Some valid) bytes -> 0 < l < fuel ->
  exists valid' all', Stream.Reconstruct s sched fuel pooled (map Some valid) (repeat (@None W) t) =
      Ret (st_r s, map Some valid', repeat None t, all', None) /\ back s all'.
Proof.
  intros Hbs Hp Hlv Hh Hl. unfold Stream.Reconstruct. rewrite length_map, repeat_length, Hlv, Nat.eqb_refl. cbn [negb].
  destruct (createSlice_spec s pooled Hp) as (all & -> & H3 & H4 & H5). cbn [bind].
  assert (Ec : recon_checks s 0 (map Some valid) (repeat (@None W) t) = Some true).
  { rewrite <- Hlv. generalize 0. clear. induction valid; intros i; cbn; auto. }
  rewrite Ec. apply (reconstruct_loop_complete fuel l bs 0 0 all valid bytes); auto; lia.
Qed.
End Streams.

(** ** Splitting and joining *)

Lemma all_there_spec {A} (l : list A) i : all_there i (map Some l) = inl l.
Proof. revert i; induction l as [|x l IH]; intros i; cbn; [auto |]. now rewrite IH. Qed.

Lemma all_there_missing {A} (l : list A) others i : all_there i (map Some l ++ None :: others) = inr (i + length l).
Proof.
  revert i; induction l as [|x l IH]; intros i; cbn; [now rewrite Nat.add_0_r |]. rewrite IH. f_equal. lia.
Qed.

Section Join.
Context {R W : Type} `{GoodReader R} `{GoodWriter W} (s : rsStream).
Local Abbreviation d := (dataShards (st_r s)).

(** [Join] writes the first [outSize] bytes of the data, or reports that
    there are fewer. *)
Lemma Join_stream (dst : W) (data : list R) others outSize : length data = d ->
  exists dst', Join s dst (map Some data ++ others) outSize =
      Ret (dst', if ((0 <=? outSize) && (outSize <=? Z.of_nat (length (concat (map rest data)))))%Z
                 then None else Some ErrShortData) /\
    ((0 <= outSize)%Z -> written dst' = written dst ++ firstn (Z.to_nat outSize) (concat (map rest data))).
Proof.
  intros Hd. unfold Join. rewrite length_app, length_map, Hd.
  destruct (Nat.ltb_spec (d + length others) d); [lia |].
  rewrite firstn_app, length_map, Hd, Nat.sub_diag, firstn_all2, app_nil_r by (rewrite length_map; lia).
  rewrite all_there_spec. set (all := concat (map rest data)).
  destruct (Z.leb_spec 0 outSize) as [H0'|H0'].
  - destruct (CopyN_spec (R := multiReader R) (fun _ => True) dst (MultiReader data) outSize (fun _ _ _ _ => I) I H0')
      as (src & dst' & -> & _ & _ & Hw). cbn [bind]. exists dst'. split; [| intros _; exact Hw].
    change (rest (MultiReader data)) with all. cbn [andb].
    destruct (Nat.leb_spec (Z.to_nat outSize) (length all)), (Z.leb_spec outSize (Z.of_nat (length all))); try lia; [| auto].
    rewrite Nat.min_l by auto. destruct (Z.eqb_spec (Z.of_nat (Z.to_nat outSize)) outSize); [auto | lia].
  - cbn [andb]. unfold CopyN. destruct (Z.ltb_spec outSize 1); [| lia].
    cbn [Copy]. unfold read_from at 1, limited_reader. cbn [lim_N lim_R].
    destruct (Z.leb_spec outSize 0); [| lia]. cbn [length Nat.ltb Nat.leb bind is_EOF Nat.add].
    destruct (Z.eqb_spec (Z.of_nat 0) outSize); [lia |]. destruct (Z.ltb_spec (Z.of_nat 0) outSize); [lia |].
    cbn [lim_R bind]. destruct (Z.eqb_spec (Z.of_nat 0) outSize); [lia |]. cbn [negb].
    exists dst. split; [auto | lia].
Qed.

Lemma Join_missing (dst : W) (data : list R) others outSize : length data < d ->
  length (map Some data ++ None :: others) >= d ->
  Join s dst (map Some data ++ None :: others) outSize = Ret (dst, Some (StreamReadError ErrShardNoData (length data))).
Proof.
  intros Hd Hl. unfold Join. destruct (Nat.ltb_spec (length (map Some data ++ None :: others)) d); [lia |].
  rewrite firstn_app, length_map, firstn_all2 by (rewrite length_map; lia).
  replace (d - length data) with (S (d - length data - 1)) by lia. cbn [firstn].
  now rewrite all_there_missing.
Qed.
End Join.

(** ** The padding *)

#[export] Instance padding_good : GoodReader (LimitedReader zeroPaddingReader).
Proof.
  exists (fun l => repeat 0%N (Z.to_nat (lim_N l))). intros [r N] n Hn. unfold read_from at 1, limited_reader.
  cbn [lim_R lim_N]. destruct (Z.leb_spec N 0).
  - eexists _, 0, _. replace (Z.to_nat N) with 0 by lia. split; [reflexivity |]. cbn [lim_N].
    replace (Z.to_nat N) with 0 by lia. splits; auto; lia.
  - set (m := if (Z.of_nat n >? N)%Z then Z.to_nat N else n).
    assert (Hm : 0 < m <= n /\ m <= Z.to_nat N) by (unfold m; destruct (Z.gtb_spec (Z.of_nat n) N); lia).
    unfold read_from, zeroPadding_reader. rewrite repeat_length.
    exists (LimitReader {| totalBytes := totalBytes r + m |} (N - Z.of_nat m)), m, None. cbn [lim_N].
    rewrite firstn_repeat_le, skipn_repeat by lia. splits; auto; [lia | f_equal; lia |].
    left. rewrite repeat_length. split; [auto | lia].
Defined.

Section Split.
Context {R W : Type} `{GoodReader R} `{GoodWriter W}.

(** The padding reader counts what was taken of [pad] zeros; the data comes
    first. *)
Definition padding_inv (pad : nat) (m : padded (R := R)) : Prop :=
  exists (r : R) (l : LimitedReader zeroPaddingReader),
    (0 <= lim_N l)%Z /\ totalBytes (lim_R l) + Z.to_nat (lim_N l) = pad /\
    ((mr_done m = [] /\ mr_readers m = [inl r; inr l] /\ totalBytes (lim_R l) = 0) \/
     (mr_done m = [inl r] /\ mr_readers m = [inr l]) \/
     (mr_done m = [inl r; inr l] /\ mr_readers m = [] /\ lim_N l = 0%Z)).

Lemma padding_inv_read pad m n : 0 < n -> padding_inv pad m -> padding_inv pad (fst (fst (read_from m n))).
Proof.
  assert (Hpad : forall (r : R) (l : LimitedReader zeroPaddingReader) done, done = [inl r] -> 0 < n ->
    (0 <= lim_N l)%Z -> totalBytes (lim_R l) + Z.to_nat (lim_N l) = pad ->
    padding_inv pad (fst (fst (multi_read done [inr l] n)))).
  { intros r [z N] done -> Hn HN Hp. cbn [multi_read]. unfold read_from, sum_reader, read_from at 1, limited_reader. cbn [lim_R lim_N] in *.
    destruct (Z.leb_spec N 0); cbn [fst is_EOF negb orb length Nat.ltb Nat.leb app mr_readers].
    - exists r, (LimitReader z N). cbn [lim_R lim_N mr_done mr_readers]. splits; auto. right. right. splits; auto. lia.
    - unfold read_from, zeroPadding_reader. set (k := if (Z.of_nat n >? N)%Z then Z.to_nat N else n).
      assert (Hk : 0 < k <= Z.to_nat N) by (unfold k; destruct (Z.gtb_spec (Z.of_nat n) N); lia).
      cbn [negb]. rewrite orb_true_r, repeat_length. cbn [fst].
      eexists r, _. cbn [lim_R lim_N totalBytes mr_done mr_readers]. split; [| split; [| right; left; split; reflexivity]];
        cbn [lim_R lim_N totalBytes]; lia. }
  intros Hn (r & l & HN & Hp & [(E1 & E2 & E3)|[(E1 & E2)|(E1 & E2 & E3)]]); destruct m as [done readers]; cbn [mr_done mr_readers] in *;
    subst done readers; unfold read_from, multi_reader; cbn [mr_done mr_readers].
  - cbn [multi_read]. unfold read_from at 1, sum_reader.
    destruct (read_spec r n Hn) as (r' & k & e & -> & Hk & Hr' & He).
    destruct He as [[-> He]|[-> He]]; cbn [is_EOF negb orb].
    + rewrite orb_true_r. cbn [fst]. exists r', l. cbn [mr_done mr_readers]. splits; auto.
    + rewrite orb_false_r. destruct (0 <? _).
      * cbn [fst]. exists r', l. cbn [app mr_done mr_readers]. splits; auto.
      * apply (Hpad r'); auto.
  - apply (Hpad r); auto.
  - cbn [multi_read fst]. exists r, l. cbn [mr_done mr_readers]. splits; auto 6.
Qed.

Lemma padding_inv_count pad m : padding_inv pad m -> padding_read m = pad - length (rest m).
Proof.
  intros (r & l & HN & Hp & Hc). unfold padding_read. destruct m as [done readers]. cbn [rest multi_good mr_done mr_readers] in *.
  destruct Hc as [(-> & -> & E)|[(-> & ->)|(-> & -> & E)]]; cbn [app map list_sum fold_right concat rest sum_good padding_good];
    rewrite ?app_nil_r, ?length_app, ?repeat_length; cbn [length]; lia.
Qed.

(** Each writer takes the next [per] bytes. *)
Fixpoint pieces (n per : nat) (all : list N) : list (list N) :=
  match n with O => [] | S n => firstn per all :: pieces n per (skipn per all) end.

Lemma split_loop_spec pad (dst : list W) : forall (data : padded (R := R)) perShard, (0 <= perShard)%Z -> padding_inv pad data ->
  length dst * Z.to_nat perShard <= length (rest data) ->
  exists dst' data', split_loop dst data perShard = Ret (dst', data', None) /\ padding_inv pad data' /\
    length (rest data') = length (rest data) - length dst * Z.to_nat perShard /\
    map written dst' = map2 (@app N) (map written dst) (pieces (length dst) (Z.to_nat perShard) (rest data)).
Proof.
  induction dst as [|w dst IH]; intros data perShard Hper Hinv Hl; cbn [split_loop length] in *.
  - exists [], data. splits; auto. lia.
  - destruct (CopyN_spec (padding_inv pad) w data perShard (padding_inv_read pad) Hinv Hper) as (data1 & w' & -> & Hinv1 & Hr1 & Hw).
    cbn [bind]. rewrite Nat.min_l by lia. destruct (Nat.leb_spec (Z.to_nat perShard) (length (rest data))); [| lia].
    rewrite Z2Nat.id, Z.eqb_refl by auto. cbn [negb]. specialize (Hr1 ltac:(lia)).
    destruct (IH data1 perShard Hper Hinv1) as (dst' & data' & -> & Hinv' & Hr' & Hw'); [rewrite Hr1, length_skipn; lia |].
    cbn [bind]. exists (w' :: dst'), data'. splits; auto.
    + rewrite Hr', Hr1, length_skipn. lia.
    + cbn [map pieces map2]. now rewrite Hw', Hr1, Hw.
Qed.

(** The data followed by zeros is cut into [dataShards] pieces. The data may be
    shorter than [size] by as much as the parity shards are long. *)
Lemma Split_stream (s : rsStream) (src : R) (dst : list W) size :
  let d := dataShards (st_r s) in let perShard := Z.to_nat (Z.quot (size + Z.of_nat d - 1) (Z.of_nat d)) in
  let padding := totalShards (st_r s) * perShard - Z.to_nat size in
  0 < d -> d <= totalShards (st_r s) -> length dst = d -> (0 < size)%Z ->
  d * perShard <= length (rest src) + padding ->
  exists dst', Split s src (map Some dst) size =
      Ret (map Some dst', Z.of_nat (d * perShard - length (rest src)), None) /\
    map written dst' = map2 (@app N) (map written dst) (pieces d perShard (rest src ++ repeat 0%N padding)).
Proof.
  intros d perShard padding Hd Hdt Hdst Hsize Hle. unfold Split. fold d.
  destruct (Z.eqb_spec size 0); [lia |]. rewrite length_map, Hdst, Nat.eqb_refl. cbn [negb].
  rewrite all_there_spec. destruct (Z.eqb_spec (Z.of_nat d) 0); [lia |].
  set (per := Z.quot (size + Z.of_nat d - 1) (Z.of_nat d)) in *.
  assert (Hper : (0 < per)%Z) by (apply Z.quot_str_pos; lia).
  assert (Hcov : (size <= Z.of_nat d * per)%Z).
  { assert (Hq := Z.quot_rem' (size + Z.of_nat d - 1) (Z.of_nat d)). fold per in Hq.
    assert (Hr := Z.rem_bound_pos (size + Z.of_nat d - 1) (Z.of_nat d)). lia. }
  set (pad := (Z.of_nat (totalShards (st_r s)) * per - size)%Z).
  assert (Hpad : (0 <= pad)%Z) by (unfold pad; nia).
  assert (Epad : Z.to_nat pad = padding) by (unfold pad, padding, perShard; nia).
  set (data := MultiReader [inl src; inr (LimitReader {| totalBytes := 0 |} pad)]).
  assert (Hrest : rest (R := padded (R := R)) data = rest src ++ repeat 0%N padding).
  { unfold data. cbn. now rewrite Epad, app_nil_r. }
  assert (Hinv : padding_inv padding data).
  { exists src, (LimitReader {| totalBytes := 0 |} pad). cbn [lim_N lim_R totalBytes]. splits; auto. }
  destruct (split_loop_spec padding dst data per) as (dst' & data' & -> & Hinv' & Hr' & Hw'); [lia | auto | |].
  { rewrite Hdst, Hrest, length_app, repeat_length. exact Hle. }
  cbn [bind]. exists dst'. rewrite Hdst in *. split; [| now rewrite Hw', Hrest].
  do 3 f_equal. rewrite (padding_inv_count padding data' Hinv'), Hr', Hrest, length_app, repeat_length.
  f_equal. unfold padding, perShard in *. nia.
Qed.
End Split.
