(* ===== verification/LeopardNetwork.v ===== *)
(** * The transforms of the Leopard encoders compute [fft]

    [fft] is the transform of a vector as a recursive function.  One byte of every
    buffer of the work area is a vector; the passes over blocks, with their
    truncation and the blocks that are skipped, compute [fft] and its inverse. *)
From Stdlib Require Import List Arith NArith ZArith Lia Bool.
From S2P Require Import Prelude Galois RSTypes Matrix LeopardFFT.
Import ListNotations.

(** A sum without carries *)
Lemma add_lxor_blocks l q i : i < 2 ^ l -> q * 2 ^ l + i = Nat.lxor (q * 2 ^ l) i.
Proof.
  intros Hi. apply Nat.add_nocarry_lxor. apply Nat.bits_inj. intros j. rewrite Nat.land_spec, Nat.bits_0.
  destruct (Nat.lt_ge_cases j l) as [Hj|Hj]; [now rewrite Nat.mul_pow2_bits_low |].
  rewrite (Nat.testbit_eqb i), (Nat.div_small i); [apply andb_false_r |]. eapply Nat.lt_le_trans; [exact Hi | now apply Nat.pow_le_mono_r].
Qed.

Lemma add_lxor l j : j < 2 ^ l -> 2 ^ l + j = Nat.lxor (2 ^ l) j.
Proof. intros Hj. rewrite <- (Nat.mul_1_l (2 ^ l)). now apply add_lxor_blocks. Qed.

(** ** The transform of a vector *)
Section Vectors.
Context {F : Type} (zero : F) (add mul : F -> F -> F) (skew : nat -> nat -> F).
Local Infix "⊕" := add (at level 50, left associativity).
Local Infix "⊗" := mul (at level 40, left associativity).

(** A layer of butterflies over [2 * d] entries, and its inverse *)
Definition lay (d : nat) (w : F) (v : nat -> F) (i : nat) : F :=
  if i <? d then v i ⊕ w ⊗ v (d + i) else v i ⊕ (v (i - d) ⊕ w ⊗ v i).
Definition ilay (d : nat) (w : F) (v : nat -> F) (i : nat) : F :=
  if i <? d then v i ⊕ w ⊗ (v (d + i) ⊕ v i) else v i ⊕ v (i - d).

(** The transform of [2^l] coefficients, at the points from [b] on *)
Fixpoint fft (l b : nat) (v : nat -> F) (i : nat) : F :=
  match l with
  | O => v i
  | S l =>
      let u := lay (2 ^ l) (skew l b) v in
      if i <? 2 ^ l then fft l b u i else fft l (b + 2 ^ l) (fun o => u (2 ^ l + o)) (i - 2 ^ l)
  end.

(** Two layers at once *)
Definition lay4 (d : nat) (w01 w23 w02 : F) (v : nat -> F) (i : nat) : F :=
  let u := lay (d * 2) w02 v in
  if i <? d * 2 then lay d w01 u i else lay d w23 (fun o => u (d * 2 + o)) (i - d * 2).
Definition ilay4 (d : nat) (w01 w23 w02 : F) (v : nat -> F) (i : nat) : F :=
  ilay (d * 2) w02 (fun i => if i <? d * 2 then ilay d w01 v i else ilay d w23 (fun o => v (d * 2 + o)) (i - d * 2)) i.

Lemma lay_ext d w v v' i : (forall j, j < d * 2 -> v j = v' j) -> i < d * 2 -> lay d w v i = lay d w v' i.
Proof. intros H Hi. unfold lay. destruct (Nat.ltb_spec i d); rewrite ?(H i), ?(H (d + i)), ?(H (i - d)) by lia; auto. Qed.

Lemma fft_ext l : forall b v v' i, (forall j, j < 2 ^ l -> v j = v' j) -> i < 2 ^ l -> fft l b v i = fft l b v' i.
Proof.
  induction l as [|l IH]; intros b v v' i H Hi; cbn [fft]; [auto |]. rewrite Nat.pow_succ_r' in H, Hi.
  assert (Hl : forall j, j < 2 ^ l * 2 -> lay (2 ^ l) (skew l b) v j = lay (2 ^ l) (skew l b) v' j).
  { intros j Hj. apply lay_ext; [intros j' Hj'; apply H; lia | auto]. }
  destruct (Nat.ltb_spec i (2 ^ l)); apply IH; try lia; intros j Hj; apply Hl; lia.
Qed.

(** Four parts of the transform *)
Lemma fft_4 l b v i : i < 2 ^ l * 4 ->
  fft (S (S l)) b v i =
    fft l (b + i / 2 ^ l * 2 ^ l) (fun o => lay4 (2 ^ l) (skew l b) (skew l (b + 2 ^ l * 2)) (skew (S l) b) v (i / 2 ^ l * 2 ^ l + o)) (i mod 2 ^ l).
Proof.
  intros Hi. set (d := 2 ^ l) in *. assert (Hd : 0 < d) by (apply Nat.neq_0_lt_0, Nat.pow_nonzero; lia).
  assert (He := Nat.div_mod_eq i d). assert (Hm := Nat.mod_upper_bound i d ltac:(lia)).
  assert (Hq : i / d < 4) by (apply Nat.Div0.div_lt_upper_bound; lia).
  set (u := lay (d * 2) (skew (S l) b) v).
  assert (HS : fft (S (S l)) b v i = if i <? d * 2 then fft (S l) b u i else fft (S l) (b + d * 2) (fun o => u (d * 2 + o)) (i - d * 2)).
  { cbn [fft]. replace (2 ^ S l) with (d * 2) by (unfold d; rewrite Nat.pow_succ_r'; lia). reflexivity. }
  rewrite HS. unfold lay4. fold u. remember (i / d) as e eqn:Ee. clear Ee HS. assert (Hie : i = e * d + i mod d) by lia. clear He. revert Hie Hm.
  generalize (i mod d) as p. intros p -> Hp.
  destruct (Nat.ltb_spec (e * d + p) (d * 2)) as [H2|H2].
  - assert (He : e = 0 \/ e = 1) by nia. cbn [fft]. fold d. destruct He as [-> | ->].
    + cbn [Nat.mul Nat.add]. destruct (Nat.ltb_spec p d); [| lia]. rewrite Nat.add_0_r. apply fft_ext; [| auto].
      intros j Hj. destruct (Nat.ltb_spec j (d * 2)); [auto | fold d in Hj; lia].
    + rewrite Nat.mul_1_l. destruct (Nat.ltb_spec (d + p) d); [lia |]. replace (d + p - d) with p by lia. apply fft_ext; [| auto].
      intros j Hj. fold d in Hj. destruct (Nat.ltb_spec (d + j) (d * 2)); [auto | lia].
  - assert (He : e = 2 \/ e = 3) by nia. cbn [fft]. fold d. destruct He as [-> | ->].
    + destruct (Nat.ltb_spec (2 * d + p - d * 2) d); [| lia]. replace (2 * d + p - d * 2) with p by lia.
      replace (b + d * 2) with (b + 2 * d) by lia. apply fft_ext; [| auto].
      intros j Hj. fold d in Hj. destruct (Nat.ltb_spec (2 * d + j) (d * 2)); [lia |]. now replace (2 * d + j - d * 2) with j by lia.
    + destruct (Nat.ltb_spec (3 * d + p - d * 2) d); [lia |]. replace (3 * d + p - d * 2 - d) with p by lia.
      replace (b + d * 2 + d) with (b + 3 * d) by lia. apply fft_ext; [| auto].
      intros j Hj. fold d in Hj. destruct (Nat.ltb_spec (3 * d + j) (d * 2)); [lia |]. replace (3 * d + j - d * 2) with (d + j) by lia.
      now replace (b + 2 * d) with (b + d * 2) by lia.
Qed.
End Vectors.

(** ** The inverse and sums *)
Section Linear.
Context {F : Type} (zero : F) (add mul : F -> F -> F) (skew : nat -> nat -> F).
Local Infix "⊕" := add (at level 50, left associativity).
Local Infix "⊗" := mul (at level 40, left associativity).
Context (addA : forall x y z, x ⊕ (y ⊕ z) = x ⊕ y ⊕ z) (addC : forall x y, x ⊕ y = y ⊕ x) (add0 : forall x, x ⊕ zero = x).
Context (addx : forall x, x ⊕ x = zero) (mul0 : forall x, x ⊗ zero = zero) (mulD : forall w x y, w ⊗ (x ⊕ y) = w ⊗ x ⊕ w ⊗ y).

Lemma addK x y : x ⊕ y ⊕ y = x.
Proof. now rewrite <- addA, addx, add0. Qed.

Lemma addKC x y : x ⊕ (x ⊕ y) = y.
Proof. rewrite addA, addx, addC. apply add0. Qed.

Lemma lay_ilay d w v i : i < d * 2 -> lay add mul d w (ilay add mul d w v) i = v i.
Proof.
  intros Hi. unfold lay, ilay. destruct (Nat.ltb_spec i d).
  - destruct (Nat.ltb_spec (d + i) d); [lia |]. replace (d + i - d) with i by lia. apply addK.
  - destruct (Nat.ltb_spec (i - d) d); [| lia]. replace (d + (i - d)) with i by lia. rewrite addK, <- addA, addx. apply add0.
Qed.

Lemma lay4_ilay4 d w01 w23 w02 v i : i < d * 4 -> lay4 add mul d w01 w23 w02 (ilay4 add mul d w01 w23 w02 v) i = v i.
Proof.
  intros Hi. unfold lay4, ilay4. cbv zeta. set (u := fun j => if j <? d * 2 then _ else _).
  assert (Hu : forall j, j < d * 4 -> lay add mul (d * 2) w02 (ilay add mul (d * 2) w02 u) j = u j) by (intros j Hj; apply lay_ilay; lia).
  destruct (Nat.ltb_spec i (d * 2)).
  - rewrite (lay_ext add mul d w01 _ (ilay add mul d w01 v)); [apply lay_ilay; auto | | auto].
    intros j Hj. rewrite Hu by lia. unfold u. destruct (Nat.ltb_spec j (d * 2)); [auto | lia].
  - rewrite (lay_ext add mul d w23 _ (ilay add mul d w23 (fun o => v (d * 2 + o)))); [| | lia].
    + rewrite lay_ilay by lia. f_equal. lia.
    + intros j Hj. rewrite Hu by lia. unfold u. destruct (Nat.ltb_spec (d * 2 + j) (d * 2)); [lia |]. now replace (d * 2 + j - d * 2) with j by lia.
Qed.

Lemma lay_zero d w v i : (forall j, j < d * 2 -> v j = zero) -> i < d * 2 -> lay add mul d w v i = zero.
Proof.
  intros H Hi. unfold lay. destruct (Nat.ltb_spec i d); rewrite ?(H i), ?(H (d + i)), ?(H (i - d)), mul0, ?add0 by lia; auto.
Qed.

Lemma fft_zero l : forall b v i, (forall j, j < 2 ^ l -> v j = zero) -> i < 2 ^ l -> fft add mul skew l b v i = zero.
Proof.
  induction l as [|l IH]; intros b v i H Hi; cbn [fft]; [auto |]. rewrite Nat.pow_succ_r' in H, Hi.
  assert (Hl : forall j, j < 2 ^ l * 2 -> lay add mul (2 ^ l) (skew l b) v j = zero).
  { intros j Hj. apply lay_zero; [intros j' Hj'; apply H; lia | auto]. }
  destruct (Nat.ltb_spec i (2 ^ l)); apply IH; try lia; intros j Hj; apply Hl; lia.
Qed.

(** The transform determines the coefficients. *)
Lemma lay_inj d w v v' : (forall i, i < d * 2 -> lay add mul d w v i = lay add mul d w v' i) -> forall i, i < d * 2 -> v i = v' i.
Proof.
  intros H. assert (Hhi : forall j, j < d -> v (d + j) = v' (d + j)).
  { intros j Hj. assert (E1 := H j ltac:(lia)). assert (E2 := H (d + j) ltac:(lia)). unfold lay in E1, E2.
    destruct (Nat.ltb_spec j d); [| lia]. destruct (Nat.ltb_spec (d + j) d); [lia |]. replace (d + j - d) with j in E2 by lia.
    rewrite E1 in E2. now rewrite <- (addK (v (d + j)) (v' j ⊕ w ⊗ v' (d + j))), E2, addK. }
  intros i Hi. destruct (Nat.lt_ge_cases i d) as [Hd|Hd].
  - assert (E := H i Hi). unfold lay in E. destruct (Nat.ltb_spec i d); [| lia]. rewrite Hhi in E by auto.
    now rewrite <- (addK (v i) (w ⊗ v' (d + i))), E, addK.
  - replace i with (d + (i - d)) by lia. apply Hhi. lia.
Qed.

Lemma fft_inj l : forall b v v', (forall i, i < 2 ^ l -> fft add mul skew l b v i = fft add mul skew l b v' i) -> forall i, i < 2 ^ l -> v i = v' i.
Proof.
  induction l as [|l IH]; intros b v v' H; cbn [fft] in H; [auto |]. set (d := 2 ^ l) in *.
  assert (Hd : 2 ^ S l = d * 2) by (unfold d; rewrite Nat.pow_succ_r'; lia). rewrite Hd in *.
  apply (lay_inj d (skew l b)). intros i Hi. destruct (Nat.lt_ge_cases i d) as [Hid|Hid].
  - apply (IH b); [| exact Hid]. intros j Hj. fold d in Hj. assert (E := H j ltac:(lia)). destruct (Nat.ltb_spec j d); [exact E | lia].
  - replace i with (d + (i - d)) by lia.
    apply (IH (b + d) (fun o => lay add mul d (skew l b) v (d + o)) (fun o => lay add mul d (skew l b) v' (d + o))); [| fold d; lia].
    intros j Hj. fold d in Hj. assert (E := H (d + j) ltac:(lia)). destruct (Nat.ltb_spec (d + j) d); [lia |].
    now replace (d + j - d) with j in E by lia.
Qed.

(** Every vector has coefficients. *)
Fixpoint ifft (l b : nat) (v : nat -> F) (i : nat) : F :=
  match l with
  | O => v i
  | S l => ilay add mul (2 ^ l) (skew l b) (fun i => if i <? 2 ^ l then ifft l b v i else ifft l (b + 2 ^ l) (fun o => v (2 ^ l + o)) (i - 2 ^ l)) i
  end.

Lemma fft_ifft l : forall b v i, i < 2 ^ l -> fft add mul skew l b (ifft l b v) i = v i.
Proof.
  induction l as [|l IH]; intros b v i Hi; [auto |]. set (d := 2 ^ l) in *.
  assert (Hd : 2 ^ S l = d * 2) by (unfold d; rewrite Nat.pow_succ_r'; lia). rewrite Hd in Hi. cbn [fft ifft]. fold d.
  set (u := fun i => if i <? d then _ else _).
  assert (Hu : forall j, j < d * 2 -> lay add mul d (skew l b) (ilay add mul d (skew l b) u) j = u j) by (intros j Hj; now apply lay_ilay).
  destruct (Nat.ltb_spec i d).
  - rewrite (fft_ext add mul skew l b _ (ifft l b v)); [now apply IH | | auto].
    intros j Hj. fold d in Hj. rewrite Hu by lia. unfold u. destruct (Nat.ltb_spec j d); [auto | lia].
  - rewrite (fft_ext add mul skew l (b + d) _ (ifft l (b + d) (fun o => v (d + o)))); [rewrite IH by (fold d; lia); f_equal; lia | | fold d; lia].
    intros j Hj. fold d in Hj. rewrite Hu by lia. unfold u. destruct (Nat.ltb_spec (d + j) d); [lia |]. now replace (d + j - d) with j by lia.
Qed.

(** *** The last block of coefficients *)
Fixpoint vsum (n : nat) (f : nat -> F) : F := match n with O => zero | S n => vsum n f ⊕ f n end.

Lemma vsum_ext n f f' : (forall j, j < n -> f j = f' j) -> vsum n f = vsum n f'.
Proof. induction n as [|n IH]; intros H; cbn; [auto |]. rewrite IH by (intros; apply H; lia). now rewrite H by lia. Qed.

Lemma vsum_add n k f : vsum (n + k) f = vsum n f ⊕ vsum k (fun j => f (n + j)).
Proof.
  induction k as [|k IH]; [now rewrite Nat.add_0_r, add0 |].
  rewrite Nat.add_succ_r. cbn [vsum]. now rewrite IH, addA.
Qed.

(** With [c] the coefficients of a vector and [f j] those of its block [j] of
    [2^l] entries alone, the last block of [c] is the sum of the [f j]. *)
Lemma fft_last l s : forall b c v f,
  (forall i, i < 2 ^ (s + l) -> fft add mul skew (s + l) b c i = v i) ->
  (forall j i, j < 2 ^ s -> i < 2 ^ l -> fft add mul skew l (b + j * 2 ^ l) (f j) i = v (j * 2 ^ l + i)) ->
  forall i, i < 2 ^ l -> c ((2 ^ s - 1) * 2 ^ l + i) = vsum (2 ^ s) (fun j => f j i).
Proof.
  induction s as [|s IH]; intros b c v f Hc Hf i Hi.
  - cbn [Nat.pow vsum]. rewrite addC, add0. cbn [Nat.sub Nat.mul Nat.add]. revert i Hi. apply (fft_inj l b). intros i Hi.
    rewrite <- (Nat.add_0_r b) at 2. rewrite (Hf 0) by (cbn; lia). apply Hc. exact Hi.
  - set (m := 2 ^ l) in *. set (t := 2 ^ s). assert (Ht : 2 ^ S s = t + t) by (unfold t; rewrite Nat.pow_succ_r'; lia).
    assert (Ht0 : 0 < t) by (apply Nat.neq_0_lt_0, Nat.pow_nonzero; lia).
    assert (Hh : 2 ^ (s + l) = t * m) by apply Nat.pow_add_r. cbn [Nat.add fft] in Hc. rewrite Hh in Hc.
    assert (Hn : 2 ^ S (s + l) = t * m + t * m) by (rewrite Nat.pow_succ_r', Hh; lia). rewrite Hn in Hc.
    set (u := lay add mul (t * m) (skew (s + l) b) c) in Hc.
    assert (Hi' : (t - 1) * m + i < t * m) by nia.
    assert (Elo : u ((t - 1) * m + i) = vsum t (fun j => f j i)).
    { apply (IH b u v f); [| | exact Hi].
      - intros i' H'. rewrite Hh in H'. specialize (Hc i' ltac:(lia)). destruct (Nat.ltb_spec i' (t * m)); [exact Hc | lia].
      - intros j i' Hj H'. apply Hf; [rewrite Ht; fold t in Hj; lia | exact H']. }
    assert (Ehi : u (t * m + ((t - 1) * m + i)) = vsum t (fun j => f (t + j) i)).
    { apply (IH (b + t * m) (fun o => u (t * m + o)) (fun o => v (t * m + o)) (fun j => f (t + j))); [| | exact Hi].
      - intros i' H'. rewrite Hh in H'. specialize (Hc (t * m + i') ltac:(lia)). destruct (Nat.ltb_spec (t * m + i') (t * m)); [lia |].
        replace (t * m + i' - t * m) with i' in Hc by lia. exact Hc.
      - intros j i' Hj H'. fold t in Hj. replace (b + t * m + j * m) with (b + (t + j) * m) by lia.
        rewrite Hf by (auto; lia). f_equal. lia. }
    rewrite Ht, vsum_add, <- Elo, <- Ehi. unfold u, lay.
    destruct (Nat.ltb_spec ((t - 1) * m + i) (t * m)); [| lia]. destruct (Nat.ltb_spec (t * m + ((t - 1) * m + i)) (t * m)); [lia |].
    replace (t * m + ((t - 1) * m + i) - t * m) with ((t - 1) * m + i) by lia.
    replace ((t + t - 1) * m + i) with (t * m + ((t - 1) * m + i)) by nia. set (x := c ((t - 1) * m + i)).
    set (y := c (t * m + ((t - 1) * m + i))). set (w := _ ⊗ y). rewrite (addC y), addKC. reflexivity.
Qed.
End Linear.

(** ** Buffers *)
Section Buffers.
Context {T : Type} (sliceXor : T -> T -> result T) (refMulAdd : T -> T -> N -> result T) (modulus : N) (dflt : T).
Context {F : Type} (zero : F) (add mul : F -> F -> F) (skew : nat -> nat -> F).
Local Infix "⊕" := add (at level 50, left associativity).
Local Infix "⊗" := mul (at level 40, left associativity).
Context (add0 : forall x, x ⊕ zero = x) (zmul : forall x, zero ⊗ x = zero).
(** What a buffer holds at each place, the buffers that are fit for the kernels,
    the logarithms the tables have and what they stand for *)
Context {K : Type} (col : K -> T -> F) (ok : T -> Prop) (log_ok : N -> Prop) (weight : N -> F).
Context (Hxor : forall x y, ok x -> ok y -> exists z, sliceXor x y = Ret z /\ ok z /\ forall k, col k z = col k y ⊕ col k x).
Context (Hmul : forall x y l, ok x -> ok y -> log_ok l -> l <> modulus ->
  exists z, refMulAdd x y l = Ret z /\ ok z /\ forall k, col k z = col k x ⊕ weight l ⊗ col k y).
Context (Hmodulus : weight modulus = zero).

Definition val (work : list T) (k : K) (i : nat) : F := col k (nth i work dflt).

(** [work'] is [work] but for the entries [f] gives. *)
Definition wok (n : nat) (work : list T) : Prop := length work = n /\ Forall ok work.

Lemma wok_nth n work i : wok n work -> i < n -> ok (nth i work dflt).
Proof. intros [Hl H] Hi. rewrite Forall_forall in H. apply H, nth_In. lia. Qed.

Lemma Forall_set_nth (P : T -> Prop) work i x : Forall P work -> P x -> Forall P (set_nth work i x).
Proof. intros H Hx. revert i. induction H as [|y l Hy Hl IH]; intros [|i]; cbn; constructor; auto. Qed.

Lemma wok_set n work i x : wok n work -> ok x -> wok n (set_nth work i x).
Proof. intros [Hl H] Hx. split; [now rewrite length_set_nth | now apply Forall_set_nth]. Qed.

Lemma val_set n work i x k j : wok n work -> i < n -> val (set_nth work i x) k j = if j =? i then col k x else val work k j.
Proof.
  intros [Hl _] Hi. unfold val. rewrite nth_set_nth. destruct (Nat.eqb_spec j i); cbn [andb]; [| auto].
  destruct (Nat.ltb_spec i (length work)); [auto | lia].
Qed.

Lemma xor_at_ok n work i j : wok n work -> i < n -> j < n -> i <> j ->
  exists work', xor_at sliceXor i j work = Ret work' /\ wok n work' /\
    forall k x, val work' k x = if x =? j then val work k j ⊕ val work k i else val work k x.
Proof.
  intros Hw Hi Hj Hne. assert (Hl := proj1 Hw). unfold xor_at. rewrite (idx_nth dflt) by lia. cbn [bind]. rewrite (idx_nth dflt) by lia. cbn [bind].
  destruct (Hxor (nth i work dflt) (nth j work dflt)) as (z & -> & Hz & Hc); [now apply (wok_nth n) | now apply (wok_nth n) |].
  cbn [bind]. rewrite upd_ret by lia. eexists. split; [reflexivity |]. split; [now apply wok_set |].
  intros k x. rewrite (val_set n) by auto. destruct (x =? j); [apply Hc | auto].
Qed.

(** Both butterflies *)
Lemma butterfly_fwd n work i j l : wok n work -> i < n -> j < n -> i <> j -> log_ok l ->
  exists work', butterfly sliceXor modulus (fftDIT2 sliceXor refMulAdd) i j l work = Ret work' /\ wok n work' /\
    forall k x, val work' k x =
      if x =? i then val work k i ⊕ weight l ⊗ val work k j
      else if x =? j then val work k j ⊕ (val work k i ⊕ weight l ⊗ val work k j) else val work k x.
Proof.
  intros Hw Hi Hj Hne Hlog. assert (Hl := proj1 Hw). unfold butterfly. destruct (N.eqb_spec l modulus) as [->|Hm].
  - destruct (xor_at_ok n work i j Hw Hi Hj Hne) as (work' & -> & Hw' & Hv). exists work'. split; [auto |]. split; [auto |].
    intros k x. rewrite Hv, Hmodulus, zmul, add0. destruct (Nat.eqb_spec x j) as [->|]; [| now destruct (Nat.eqb_spec x i) as [->|]].
    destruct (Nat.eqb_spec j i); [lia | auto].
  - unfold at2, fftDIT2. rewrite (idx_nth dflt) by lia. cbn [bind]. rewrite (idx_nth dflt) by lia. cbn [bind].
    assert (Oi := wok_nth n work i Hw Hi). assert (Oj := wok_nth n work j Hw Hj).
    destruct (Hmul (nth i work dflt) (nth j work dflt) l Oi Oj Hlog Hm) as (x' & -> & Ox & Hx). cbn [bind].
    destruct (Hxor x' (nth j work dflt) Ox Oj) as (y' & -> & Oy & Hy). cbn [bind].
    rewrite upd_ret by lia. cbn [bind]. rewrite upd_ret by (rewrite length_set_nth; lia).
    eexists. split; [reflexivity |]. split; [now repeat apply wok_set |]. intros k x.
    rewrite (val_set n) by (auto using wok_set). rewrite (val_set n) by auto.
    destruct (Nat.eqb_spec x j) as [->|]; [| destruct (x =? i); [apply Hx | auto]]. destruct (Nat.eqb_spec j i); [lia |]. now rewrite Hy, Hx.
Qed.

Lemma butterfly_inv n work i j l : wok n work -> i < n -> j < n -> i <> j -> log_ok l ->
  exists work', butterfly sliceXor modulus (ifftDIT2 sliceXor refMulAdd) i j l work = Ret work' /\ wok n work' /\
    forall k x, val work' k x =
      if x =? i then val work k i ⊕ weight l ⊗ (val work k j ⊕ val work k i)
      else if x =? j then val work k j ⊕ val work k i else val work k x.
Proof.
  intros Hw Hi Hj Hne Hlog. assert (Hl := proj1 Hw). unfold butterfly. destruct (N.eqb_spec l modulus) as [->|Hm].
  - destruct (xor_at_ok n work i j Hw Hi Hj Hne) as (work' & -> & Hw' & Hv). exists work'. split; [auto |]. split; [auto |].
    intros k x. rewrite Hv, Hmodulus, zmul, add0. destruct (Nat.eqb_spec x j) as [->|]; [| now destruct (Nat.eqb_spec x i) as [->|]].
    destruct (Nat.eqb_spec j i); [lia | auto].
  - unfold at2, ifftDIT2. rewrite (idx_nth dflt) by lia. cbn [bind]. rewrite (idx_nth dflt) by lia. cbn [bind].
    assert (Oi := wok_nth n work i Hw Hi). assert (Oj := wok_nth n work j Hw Hj).
    destruct (Hxor (nth i work dflt) (nth j work dflt) Oi Oj) as (y' & -> & Oy & Hy). cbn [bind].
    destruct (Hmul (nth i work dflt) y' l Oi Oy Hlog Hm) as (x' & -> & Ox & Hx). cbn [bind].
    rewrite upd_ret by lia. cbn [bind]. rewrite upd_ret by (rewrite length_set_nth; lia).
    eexists. split; [reflexivity |]. split; [now repeat apply wok_set |]. intros k x.
    rewrite (val_set n) by (auto using wok_set). rewrite (val_set n) by auto.
    destruct (Nat.eqb_spec x j) as [->|]; [| destruct (x =? i); [now rewrite Hx, Hy | auto]]. destruct (Nat.eqb_spec j i); [lia | apply Hy].
Qed.

(** [g] of the block of [b] entries at [r], the entries outside as they were *)
Definition on_block (r b : nat) (g : (nat -> F) -> nat -> F) (v : nat -> F) (x : nat) : F :=
  if (r <=? x) && (x <? r + b) then g (fun o => v (r + o)) (x - r) else v x.

(** Comparisons that arithmetic decides *)
Ltac decide_places :=
  repeat match goal with
    | |- context [?a =? ?b] => first [rewrite (proj2 (Nat.eqb_eq a b)) by lia | rewrite (proj2 (Nat.eqb_neq a b)) by lia]
    | |- context [?a <? ?b] => first [rewrite (proj2 (Nat.ltb_lt a b)) by lia | rewrite (proj2 (Nat.ltb_ge a b)) by lia]
    end; cbn [orb].

(** *** Four buffers at a time *)

(** Entry [p] of the four parts of a block *)
Lemma four_parts d o : 0 < d -> o < d * 4 -> exists e p, e < 4 /\ p < d /\ o = e * d + p.
Proof.
  intros Hd Ho. exists (o / d), (o mod d). split; [apply Nat.Div0.div_lt_upper_bound; lia |].
  split; [apply Nat.mod_upper_bound; lia |]. rewrite (Nat.div_mod_eq o d) at 1. lia.
Qed.

Lemma part_mod d e p : p < d -> (e * d + p) mod d = p.
Proof. intros Hp. rewrite Nat.add_comm, Nat.Div0.mod_add. now apply Nat.mod_small. Qed.

Section Four.
Context (n r d : nat) (l01 l23 l02 : N) (Hd : 0 < d) (Hn : r + d * 4 <= n).
Context (H01 : log_ok l01) (H23 : log_ok l23) (H02 : log_ok l02).

(** The four buffers at [p] of the block become those of [g]. *)
Definition four_step (g : (nat -> F) -> nat -> F) (p : nat) (v : nat -> F) (x : nat) : F :=
  if (x =? r + p) || (x =? r + p + d) || (x =? r + p + d * 2) || (x =? r + p + d * 3)
  then g (fun o => v (r + o)) (x - r) else v x.

Lemma fftDIT4Ref_ok work p : wok n work -> p < d ->
  exists work', fftDIT4Ref sliceXor refMulAdd modulus (r + p) d l01 l23 l02 work = Ret work' /\ wok n work' /\
    forall k x, val work' k x = four_step (lay4 add mul d (weight l01) (weight l23) (weight l02)) p (val work k) x.
Proof.
  intros Hw Hp. unfold fftDIT4Ref.
  destruct (butterfly_fwd n work (r + p) (r + p + d * 2) l02) as (w1 & -> & Hw1 & V1); auto; try lia. cbn [bind].
  destruct (butterfly_fwd n w1 (r + p + d) (r + p + d * 3) l02) as (w2 & -> & Hw2 & V2); auto; try lia. cbn [bind].
  destruct (butterfly_fwd n w2 (r + p) (r + p + d) l01) as (w3 & -> & Hw3 & V3); auto; try lia. cbn [bind].
  destruct (butterfly_fwd n w3 (r + p + d * 2) (r + p + d * 3) l23) as (w4 & -> & Hw4 & V4); auto; try lia.
  exists w4. split; [auto |]. split; [auto |]. intros k x. unfold four_step.
  destruct (Nat.eqb_spec x (r + p)) as [->|N0]; cbn [orb];
    [| destruct (Nat.eqb_spec x (r + p + d)) as [->|N1]; cbn [orb];
      [| destruct (Nat.eqb_spec x (r + p + d * 2)) as [->|N2]; cbn [orb]; [| destruct (Nat.eqb_spec x (r + p + d * 3)) as [->|N3]]]].
  1-4: unfold lay4, lay; rewrite V4; decide_places; rewrite ?V3; decide_places; rewrite ?V2; decide_places; rewrite ?V1; decide_places.
  1-4: repeat (reflexivity || (f_equal; try lia)).
  rewrite V4; decide_places; rewrite V3; decide_places; rewrite V2; decide_places; rewrite V1; now decide_places.
Qed.

Lemma ifftDIT4Ref_ok work p : wok n work -> p < d ->
  exists work', ifftDIT4Ref sliceXor refMulAdd modulus (r + p) d l01 l23 l02 work = Ret work' /\ wok n work' /\
    forall k x, val work' k x = four_step (ilay4 add mul d (weight l01) (weight l23) (weight l02)) p (val work k) x.
Proof.
  intros Hw Hp. unfold ifftDIT4Ref.
  destruct (butterfly_inv n work (r + p) (r + p + d) l01) as (w1 & -> & Hw1 & V1); auto; try lia. cbn [bind].
  destruct (butterfly_inv n w1 (r + p + d * 2) (r + p + d * 3) l23) as (w2 & -> & Hw2 & V2); auto; try lia. cbn [bind].
  destruct (butterfly_inv n w2 (r + p) (r + p + d * 2) l02) as (w3 & -> & Hw3 & V3); auto; try lia. cbn [bind].
  destruct (butterfly_inv n w3 (r + p + d) (r + p + d * 3) l02) as (w4 & -> & Hw4 & V4); auto; try lia.
  exists w4. split; [auto |]. split; [auto |]. intros k x. unfold four_step.
  destruct (Nat.eqb_spec x (r + p)) as [->|N0]; cbn [orb];
    [| destruct (Nat.eqb_spec x (r + p + d)) as [->|N1]; cbn [orb];
      [| destruct (Nat.eqb_spec x (r + p + d * 2)) as [->|N2]; cbn [orb]; [| destruct (Nat.eqb_spec x (r + p + d * 3)) as [->|N3]]]].
  1-4: unfold ilay4, ilay; rewrite V4; decide_places; rewrite ?V3; decide_places; rewrite ?V2; decide_places; rewrite ?V1; decide_places.
  1-4: repeat (reflexivity || (f_equal; try lia)).
  rewrite V4; decide_places; rewrite V3; decide_places; rewrite V2; decide_places; rewrite V1; now decide_places.
Qed.

Ltac four_cases e := destruct e as [|[|[|[|e]]]]; [| | | | lia]; cbn [Nat.mul Nat.add].

(** A function of a block that works on the fours *)
Definition on_fours (g : (nat -> F) -> nat -> F) : Prop := forall v v' e p, e < 4 -> p < d ->
  (forall e, e < 4 -> v (e * d + p) = v' (e * d + p)) -> g v (e * d + p) = g v' (e * d + p).

Ltac fours H e := unfold on_fours; intros v v' e p He Hp H;
  assert (E0 := H 0 ltac:(lia)); assert (E1 := H 1 ltac:(lia)); assert (E2 := H 2 ltac:(lia)); assert (E3 := H 3 ltac:(lia));
  cbn [Nat.mul Nat.add] in *; four_cases e.

Ltac same_entry p E0 E1 E2 E3 := match goal with |- ?v ?a = ?v' ?a =>
  first [replace a with p by lia; exact E0 | replace a with (d + 0 + p) by lia; exact E1
        | replace a with (d + (d + 0) + p) by lia; exact E2 | replace a with (d + (d + (d + 0)) + p) by lia; exact E3] end.

Lemma lay4_fours w01 w23 w02 : on_fours (lay4 add mul d w01 w23 w02).
Proof. fours H e; unfold lay4, lay; decide_places; repeat (f_equal; try same_entry p E0 E1 E2 E3). Qed.

Lemma ilay4_fours w01 w23 w02 : on_fours (ilay4 add mul d w01 w23 w02).
Proof. fours H e; unfold ilay4, ilay; decide_places; repeat (f_equal; try same_entry p E0 E1 E2 E3). Qed.

(** All the fours of a block: the steps at different places do not meet. *)
Lemma block_ok (g : (nat -> F) -> nat -> F) step work : on_fours g ->
  (forall work p, wok n work -> p < d -> exists work', step (r + p) work = Ret work' /\ wok n work' /\
    forall k x, val work' k x = four_step g p (val work k) x) ->
  wok n work -> exists work', @for_loop rsError _ r (r + d) step work = Ret work' /\ wok n work' /\
    forall k x, val work' k x = on_block r (d * 4) g (val work k) x.
Proof.
  intros Hg Hstep Hw. apply oc_ret.
  eapply oc_weaken with (Q := fun _ => False); [apply for_loop_rule with (I := fun i st => wok n st /\
      forall k x, val st k x = if (r <=? x) && (x <? r + d * 4) && ((x - r) mod d <? i - r) then g (fun o => val work k (r + o)) (x - r) else val work k x) | | auto].
  - lia.
  - split; [auto |]. intros k x. rewrite Nat.sub_diag. now rewrite andb_false_r.
  - intros i st Hi [Hst Hv]. destruct (Hstep st (i - r) Hst ltac:(lia)) as (st' & E & Hst' & Hv').
    replace (r + (i - r)) with i in E by lia. rewrite E. cbn [oc_spec]. split; [auto |]. intros k x. rewrite Hv'. unfold four_step.
    set (p := i - r) in *. replace (S i - r) with (S p) by lia.
    destruct ((r <=? x) && (x <? r + d * 4)) eqn:Hx; cbn [andb].
    + apply andb_true_iff in Hx as [H1%Nat.leb_le H2%Nat.ltb_lt]. destruct (four_parts d (x - r) Hd ltac:(lia)) as (e & q & He & Hq & Eo).
      rewrite Hv. rewrite Eo, part_mod by auto. assert (Ex : x = r + (e * d + q)) by lia.
      destruct (Nat.eq_dec q p) as [->|Hne].
      * assert (Hpl : ((x =? r + p) || (x =? r + p + d) || (x =? r + p + d * 2) || (x =? r + p + d * 3)) = true).
        { rewrite Ex. clear Eo Ex. four_cases e; decide_places; reflexivity. }
        rewrite Hpl. rewrite (proj2 (Nat.ltb_lt p (S p))) by lia. apply Hg; auto. intros e' He'. rewrite Hv.
        replace (r + (e' * d + p) - r) with (e' * d + p) by lia. rewrite part_mod, Nat.ltb_irrefl, andb_false_r by auto. auto.
      * assert (Hpl : ((x =? r + p) || (x =? r + p + d) || (x =? r + p + d * 2) || (x =? r + p + d * 3)) = false).
        { rewrite Ex. clear Eo Ex. four_cases e; decide_places; reflexivity. }
        rewrite Hpl. rewrite (proj2 (Nat.leb_le r x)), (proj2 (Nat.ltb_lt x _)) by lia. cbn [andb].
        destruct (Nat.ltb_spec q p), (Nat.ltb_spec q (S p)); auto; lia.
    + rewrite Hv, Hx. cbn [andb]. assert (Hout : x < r \/ r + d * 4 <= x) by (apply andb_false_iff in Hx as [H%Nat.leb_gt|H%Nat.ltb_ge]; lia).
      decide_places. reflexivity.
  - intros st [Hst Hv]. split; [auto |]. intros k x. rewrite Hv. unfold on_block. replace (r + d - r) with d by lia.
    rewrite (proj2 (Nat.ltb_lt _ d)) by (apply Nat.mod_upper_bound; lia). now rewrite andb_true_r.
Qed.
End Four.

(** *** A pass over the blocks *)
Section Pass.
Context (n m b q mtrunc : nat) (Hb : 0 < b) (Hm : m = q * b) (Hmn : m <= n) (Hmt : mtrunc <= m).
Context (proc : nat -> bool) (g : nat -> (nat -> F) -> nat -> F) (step : nat -> list T -> result (list T)).
Context (Hg : forall j v v' o, o < b -> (forall o, o < b -> v o = v' o) -> g j v o = g j v' o).
Context (Hstep : forall j work, j < q -> wok n work -> exists work', step (j * b) work = Ret work' /\ wok n work' /\
  forall k x, val work' k x = if proc j then on_block (j * b) b (g j) (val work k) x else val work k x).

Lemma blocks_below j : j < (mtrunc + b - 1) / b <-> j * b < mtrunc.
Proof.
  split; intros H.
  - assert (S j <= (mtrunc + b - 1) / b) by lia. assert (b * S j <= mtrunc + b - 1).
    { transitivity (b * ((mtrunc + b - 1) / b)); [now apply Nat.mul_le_mono_l | apply Nat.Div0.mul_div_le]. } lia.
  - apply Nat.div_le_lower_bound; lia.
Qed.

(** What a pass does to block [j] *)
Lemma pass_ok work : wok n work -> exists work', for_step mtrunc b step work = Ret work' /\ wok n work' /\
  (forall k j o, j < q -> o < b -> val work' k (j * b + o) =
    if (j * b <? mtrunc) && proc j then g j (fun o => val work k (j * b + o)) o else val work k (j * b + o)) /\
  (forall k x, m <= x -> val work' k x = val work k x).
Proof.
  intros Hw. apply oc_ret. set (cnt := (mtrunc + b - 1) / b).
  assert (Hcnt : forall j, j < cnt -> j < q) by (intros j Hj%blocks_below; nia).
  eapply oc_weaken with (Q := fun _ => False); [apply for_loop_rule with (I := fun i st => wok n st /\
      (forall k j o, j < q -> o < b -> val st k (j * b + o) =
        if (j <? i) && proc j then g j (fun o => val work k (j * b + o)) o else val work k (j * b + o)) /\
      (forall k x, m <= x -> val st k x = val work k x)) | | auto].
  - lia.
  - split; [auto |]. split; auto.
  - intros i st [_ Hi] (Hst & Hv & Hout). fold cnt in Hi. specialize (Hcnt i Hi).
    destruct (Hstep i st Hcnt Hst) as (st' & -> & Hst' & Hv'). cbn [oc_spec]. split; [auto |]. split.
    + intros k j o Hj Ho. rewrite Hv'. unfold on_block. destruct (Nat.eq_dec j i) as [->|Hne].
      * rewrite (proj2 (Nat.leb_le _ _)), (proj2 (Nat.ltb_lt (i * b + o) _)), (proj2 (Nat.ltb_lt i (S i))) by lia. cbn [andb].
        destruct (proc i); [| rewrite Hv, Nat.ltb_irrefl by auto; reflexivity].
        replace (i * b + o - i * b) with o by lia. apply Hg; [auto |]. intros o' Ho'. now rewrite Hv, Nat.ltb_irrefl.
      * replace ((i * b <=? j * b + o) && (j * b + o <? i * b + b)) with false.
        2:{ symmetry. apply andb_false_iff. destruct (Nat.lt_ge_cases j i); [left; apply Nat.leb_gt | right; apply Nat.ltb_ge]; nia. }
        rewrite Hv by auto. replace (j <? S i) with (j <? i); [now destruct (proc i) |].
        destruct (Nat.ltb_spec j i), (Nat.ltb_spec j (S i)); auto; lia.
    + intros k x Hx. rewrite Hv'. unfold on_block. rewrite (proj2 (Nat.ltb_ge x (i * b + b))) by nia. rewrite andb_false_r.
      destruct (proc i); auto.
  - intros st (Hst & Hv & Hout). split; [auto |]. split; [| auto]. intros k j o Hj Ho. rewrite Hv by auto.
    replace (j * b <? mtrunc) with (j <? cnt); [auto |].
    destruct (Nat.ltb_spec j cnt) as [H|H], (Nat.ltb_spec (j * b) mtrunc) as [H'|H']; auto; apply blocks_below in H || apply blocks_below in H'; fold cnt in H, H'; lia.
Qed.
End Pass.

Lemma lay4_block d w01 w23 w02 v v' o : o < d * 4 -> (forall o, o < d * 4 -> v o = v' o) ->
  lay4 add mul d w01 w23 w02 v o = lay4 add mul d w01 w23 w02 v' o.
Proof.
  intros Ho H. unfold lay4. cbv zeta.
  assert (Hu : forall j, j < d * 4 -> lay add mul (d * 2) w02 v j = lay add mul (d * 2) w02 v' j) by (intros j Hj; apply lay_ext; [intros; apply H; lia | lia]).
  destruct (Nat.ltb_spec o (d * 2)); apply lay_ext; try lia; intros j Hj; apply Hu; lia.
Qed.

Lemma ilay_block d w v v' o : o < d * 2 -> (forall o, o < d * 2 -> v o = v' o) -> ilay add mul d w v o = ilay add mul d w v' o.
Proof. intros Hi H. unfold ilay. destruct (Nat.ltb_spec o d); rewrite ?(H o), ?(H (d + o)), ?(H (o - d)) by lia; auto. Qed.

Lemma ilay4_block d w01 w23 w02 v v' o : o < d * 4 -> (forall o, o < d * 4 -> v o = v' o) ->
  ilay4 add mul d w01 w23 w02 v o = ilay4 add mul d w01 w23 w02 v' o.
Proof.
  intros Ho H. unfold ilay4. cbv zeta. apply ilay_block; [lia |].
  intros j Hj. destruct (Nat.ltb_spec j (d * 2)); apply ilay_block; try lia; intros j' Hj'; apply H; lia.
Qed.

Lemma pow_4 l : 2 ^ S (S l) = 2 ^ l * 4.
Proof. rewrite !Nat.pow_succ_r'. lia. Qed.

Lemma pow_pos l : 0 < 2 ^ l.
Proof. apply Nat.neq_0_lt_0, Nat.pow_nonzero. lia. Qed.

Lemma idx_some {A} (l : list A) i x : nth_error l i = Some x -> @idx rsError A l i = Ret x.
Proof. unfold idx. now intros ->. Qed.

(** ** The transform *)
Section Forward.
Context (skewLUT : list N) (needed : nat -> nat -> result bool) (need : nat -> nat -> bool).
Context (n m K0 mtrunc : nat) (Hm : m = 2 ^ K0) (Hmn : m <= n) (Hmt : mtrunc <= m) (Hneed : forall l r, r < m -> needed l r = Ret (need l r)).
Context (Htab : forall l j, S j * 2 ^ S l <= m -> exists lg, nth_error skewLUT (j * 2 ^ S l + 2 ^ l - 1) = Some lg /\ log_ok lg /\ weight lg = skew l (j * 2 ^ S l)).

(** An entry whose blocks are all asked for *)
Definition tracked (i : nat) : Prop := i < mtrunc /\ forall l, 0 < l <= K0 -> need l (i / 2 ^ l * 2 ^ l) = true.

Lemma fft_pass_ok l work : S (S l) <= K0 -> wok n work ->
  exists work', for_step mtrunc (2 ^ S (S l)) (fun r work =>
     need <- needed (Nat.log2 (2 ^ S (S l))) r ;;
     if negb need then Ret work
     else
       let iend := r + 2 ^ l in
       log_m01 <- idx skewLUT (iend - 1) ;;
       log_m02 <- idx skewLUT (iend + 2 ^ l - 1) ;;
       log_m23 <- idx skewLUT (iend + 2 ^ l * 2 - 1) ;;
       for_loop r iend (fun i => fftDIT4Ref sliceXor refMulAdd modulus i (2 ^ l) log_m01 log_m23 log_m02) work) work = Ret work' /\
    wok n work' /\
    (forall k j o, j < 2 ^ (K0 - S (S l)) -> o < 2 ^ S (S l) -> val work' k (j * 2 ^ S (S l) + o) =
      if (j * 2 ^ S (S l) <? mtrunc) && need (S (S l)) (j * 2 ^ S (S l))
      then lay4 add mul (2 ^ l) (skew l (j * 2 ^ S (S l))) (skew l (j * 2 ^ S (S l) + 2 ^ l * 2)) (skew (S l) (j * 2 ^ S (S l)))
             (fun o => val work k (j * 2 ^ S (S l) + o)) o
      else val work k (j * 2 ^ S (S l) + o)) /\
    (forall k x, m <= x -> val work' k x = val work k x).
Proof.
  intros Hl Hw. set (d := 2 ^ l). assert (Hd : 0 < d) by apply pow_pos. assert (Hb : 2 ^ S (S l) = d * 4) by apply pow_4.
  assert (Hq : m = 2 ^ (K0 - S (S l)) * 2 ^ S (S l)) by (rewrite Hm, <- Nat.pow_add_r; f_equal; lia).
  apply (pass_ok n m (2 ^ S (S l)) (2 ^ (K0 - S (S l))) mtrunc) with (proc := fun j => need (S (S l)) (j * 2 ^ S (S l)))
    (g := fun j => lay4 add mul d (skew l (j * 2 ^ S (S l))) (skew l (j * 2 ^ S (S l) + d * 2)) (skew (S l) (j * 2 ^ S (S l)))); auto.
  - apply pow_pos.
  - intros j v v' o Ho H. apply lay4_block; rewrite <- Hb; auto.
  - intros j w Hj Hww. rewrite Nat.log2_pow2 by lia. assert (Hle : S j * 2 ^ S (S l) <= m) by (rewrite Hq; apply Nat.mul_le_mono_r; lia).
    rewrite Hneed by lia. cbn [bind]. destruct (need _ _); cbn [negb]; [| now exists w].
    set (r := j * 2 ^ S (S l)) in *. assert (Hr : r + d * 4 <= m) by (unfold r in *; lia).
    assert (Hr2 : r = (j * 2) * 2 ^ S l) by (unfold r; rewrite (Nat.pow_succ_r' 2 (S l)); lia).
    assert (H2 : 2 ^ S l = d * 2) by (unfold d; rewrite Nat.pow_succ_r'; lia).
    destruct (Htab l (j * 2)) as (l01 & I01 & O01 & W01); [rewrite H2 in *; lia |].
    destruct (Htab l (j * 2 + 1)) as (l23 & I23 & O23 & W23); [rewrite H2 in *; lia |].
    destruct (Htab (S l) j) as (l02 & I02 & O02 & W02); [auto |]. fold r in I02, W02. rewrite <- Hr2 in I01, W01. fold d in I01, I23. rewrite H2 in I02, I23, W23.
    cbv zeta. rewrite (idx_some _ _ _ I01). cbn [bind].
    replace (r + d + d - 1) with (r + d * 2 - 1) by lia. rewrite (idx_some _ _ _ I02). cbn [bind].
    replace (r + d + d * 2 - 1) with ((j * 2 + 1) * (d * 2) + d - 1) by (rewrite Hr2, H2; lia). rewrite (idx_some _ _ _ I23). cbn [bind].
    rewrite <- W01, <- W02. replace (r + d * 2) with ((j * 2 + 1) * (d * 2)) by (rewrite Hr2, H2; lia). rewrite <- W23, Hb.
    apply (block_ok n r d Hd); auto; [lia | apply (lay4_fours n r); auto; lia |]. intros w' p Hw' Hp. apply fftDIT4Ref_ok; auto. lia.
Qed.
(** The transform of the block of [2^l] entries around every tracked entry is what
    the whole transform has there. *)
Definition fft_left (work : list T) (l : nat) (st : list T) : Prop := wok n st /\
  (forall k j o, o < 2 ^ l -> j * 2 ^ l + o < m -> tracked (j * 2 ^ l + o) ->
    fft add mul skew l (j * 2 ^ l) (fun o => val st k (j * 2 ^ l + o)) o = fft add mul skew K0 0 (val work k) (j * 2 ^ l + o)) /\
  (forall k x, m <= x -> val st k x = val work k x).

(** A block of [2^l] entries below [m] *)
Lemma block_lt l j o : l <= K0 -> j * 2 ^ l + o < m -> j < 2 ^ (K0 - l).
Proof.
  intros Hl H. apply Nat.nle_gt. intros Hj. apply (Nat.mul_le_mono_r _ _ (2 ^ l)) in Hj. rewrite <- Nat.pow_add_r in Hj.
  replace (K0 - l + l) with K0 in Hj by lia. lia.
Qed.

Lemma tracked_block l j o : 0 < l <= K0 -> o < 2 ^ l -> tracked (j * 2 ^ l + o) -> j * 2 ^ l < mtrunc /\ need l (j * 2 ^ l) = true.
Proof.
  intros Hl Ho [Hlt Hn]. split; [lia |]. specialize (Hn l Hl). now rewrite Nat.div_add_l, Nat.div_small, Nat.add_0_r in Hn by (pose proof (pow_pos l); lia).
Qed.

Lemma fft_left_step work l st : S (S l) <= K0 -> fft_left work (S (S l)) st -> forall st',
  wok n st' ->
  (forall k j o, j < 2 ^ (K0 - S (S l)) -> o < 2 ^ S (S l) -> val st' k (j * 2 ^ S (S l) + o) =
    if (j * 2 ^ S (S l) <? mtrunc) && need (S (S l)) (j * 2 ^ S (S l))
    then lay4 add mul (2 ^ l) (skew l (j * 2 ^ S (S l))) (skew l (j * 2 ^ S (S l) + 2 ^ l * 2)) (skew (S l) (j * 2 ^ S (S l)))
           (fun o => val st k (j * 2 ^ S (S l) + o)) o
    else val st k (j * 2 ^ S (S l) + o)) ->
  (forall k x, m <= x -> val st' k x = val st k x) -> fft_left work l st'.
Proof.
  intros Hl (Hst & Hleft & Hout) st' Hst' Hv Hout'. split; [auto |]. split; [| intros k x Hx; rewrite Hout' by auto; auto].
  intros k j' o' Ho' Hx Ht. assert (Hd := pow_pos l). assert (Hb := pow_4 l). set (d := 2 ^ l) in *.
  assert (Hj' := Nat.div_mod_eq j' 4). set (j := j' / 4) in *. set (e := j' mod 4) in *. assert (He : e < 4) by (apply Nat.mod_upper_bound; lia).
  assert (Ho : e * d + o' < 2 ^ S (S l)) by (rewrite Hb; nia).
  assert (Ei : j' * d + o' = j * 2 ^ S (S l) + (e * d + o')) by (rewrite Hb; nia). rewrite Ei in Hx, Ht |- *.
  destruct (tracked_block (S (S l)) j (e * d + o')) as [Hlt Hnd]; [lia | auto | auto |].
  rewrite <- Hleft by auto. rewrite fft_4 by (fold d; lia). fold d.
  replace ((e * d + o') / d) with e by (rewrite Nat.div_add_l, Nat.div_small by lia; lia).
  replace ((e * d + o') mod d) with o' by (now rewrite part_mod by auto).
  replace (j * 2 ^ S (S l) + e * d) with (j' * d) by (rewrite Hb; nia). apply fft_ext; [| auto]. fold d. intros i Hi.
  replace (j' * d + i) with (j * 2 ^ S (S l) + (e * d + i)) by (rewrite Hb; nia).
  assert (Hoi : e * d + i < 2 ^ S (S l)) by (rewrite Hb; nia). assert (Hjq := block_lt (S (S l)) j (e * d + o') Hl Hx).
  rewrite Hv by auto. rewrite (proj2 (Nat.ltb_lt _ mtrunc)), Hnd by auto. reflexivity.
Qed.

Lemma fft_layers_ok work : wok n work -> exists work',
  fft_layers sliceXor refMulAdd modulus needed work mtrunc m skewLUT = Ret work' /\ wok n work' /\
  (forall k i, tracked i -> val work' k i = fft add mul skew K0 0 (val work k) i) /\ (forall k x, m <= x -> val work' k x = val work k x).
Proof.
  intros Hw. unfold fft_layers.
  apply oc_ret. eapply oc_bind; [apply while_rule with
    (I := fun '(dist4, st) => exists l, l <= K0 /\ dist4 = 2 ^ l /\ fft_left work l st) (m := fun '(dist4, _) => Nat.log2 dist4) |].
  - exists K0. split; [auto |]. split; [auto |]. split; [auto |]. split; [| auto]. intros k j o Ho Hx Ht. rewrite <- Hm in Ho.
    assert (j = 0) as -> by (destruct j as [|j]; [auto | rewrite <- Hm in Hx; nia]). reflexivity.
  - rewrite Hm, Nat.log2_pow2; lia.
  - intros [dist4 st] (l & Hl & -> & Hinv) Hc. destruct l as [|[|l]]; [discriminate Hc | discriminate Hc |]. clear Hc.
    assert (E4 : 2 ^ S (S l) / 4 = 2 ^ l) by (rewrite pow_4, Nat.div_mul; lia). cbv zeta. rewrite E4.
    destruct (fft_pass_ok l st Hl (proj1 Hinv)) as (st' & E & Hst' & Hv & Hout'). cbv zeta in E. rewrite E. cbn [bind oc_spec].
    split; [exists l; split; [lia |]; split; [auto |]; now apply (fft_left_step work l st) |].
    rewrite !Nat.log2_pow2; lia.
  - intros [dist4 st] [(l & Hl & -> & Hinv) Hc]. apply negb_false_iff, Nat.eqb_eq in Hc.
    assert (Hl1 : l = 0 \/ l = 1).
    { destruct l as [|[|l]]; auto. rewrite pow_4, Nat.div_mul in Hc by lia. pose proof (pow_pos l). lia. }
    destruct Hl1 as [->| ->].
    + cbn [Nat.pow Nat.eqb oc_spec]. destruct Hinv as (Hst & Hleft & Hout). split; [auto |]. split; [| auto].
      intros k i Hi. assert (E := Hleft k i 0 ltac:(cbn; lia)). cbn [Nat.pow fft] in E. rewrite Nat.mul_1_r, Nat.add_0_r in E. apply E; [destruct Hi; lia | auto].
    + cbn [Nat.pow Nat.mul Nat.add Nat.eqb]. destruct Hinv as (Hst & Hleft & Hout). assert (Hq : m = 2 ^ (K0 - 1) * 2) by (rewrite Hm, <- (Nat.pow_add_r 2 _ 1); f_equal; lia).
      match goal with |- context [for_step _ _ ?b _] => destruct (pass_ok n m 2 (2 ^ (K0 - 1)) mtrunc ltac:(lia) Hq Hmn Hmt (fun j => need 1 (j * 2))
        (fun j => lay add mul 1 (skew 0 (j * 2))) b) with (work := st) as (st' & E & Hst' & Hv & Hout') end; auto.
      * intros j v v' o Ho H. apply lay_ext; auto.
      * intros j w Hj Hww. rewrite Hneed by lia. cbn [bind]. destruct (need 1 (j * 2)); cbn [negb]; [| now exists w].
        destruct (Htab 0 j) as (lg & I & O & W); [change (2 ^ 1) with 2; lia |]. change (2 ^ 1) with 2 in I, W. change (2 ^ 0) with 1 in I. rewrite (idx_some _ _ _ I). cbn [bind].
        destruct (butterfly_fwd n w (j * 2) (j * 2 + 1) lg) as (w' & E & Hw' & V); auto; try lia. exists w'. split; [auto |]. split; [auto |].
        intros k x. rewrite V, W. unfold on_block, lay.
        destruct (Nat.eqb_spec x (j * 2)) as [->|N0].
        { rewrite Nat.leb_refl, (proj2 (Nat.ltb_lt _ _)) by lia. cbn [andb]. rewrite Nat.sub_diag. cbn [Nat.ltb Nat.leb]. now rewrite !Nat.add_0_r. }
        destruct (Nat.eqb_spec x (j * 2 + 1)) as [->|N1].
        { rewrite (proj2 (Nat.leb_le _ _)), (proj2 (Nat.ltb_lt _ _)) by lia. cbn [andb]. replace (j * 2 + 1 - j * 2) with 1 by lia. cbn [Nat.ltb Nat.leb Nat.sub]. now rewrite !Nat.add_0_r. }
        replace ((j * 2 <=? x) && (x <? j * 2 + 2)) with false; [auto |].
        symmetry. apply andb_false_iff. destruct (Nat.lt_ge_cases x (j * 2)); [left; apply Nat.leb_gt | right; apply Nat.ltb_ge]; lia.
      * rewrite E. cbn [oc_spec]. split; [auto |]. split; [| intros k x Hx; rewrite Hout'; auto].
        intros k i Ht. assert (Hi := Nat.div_mod_eq i 2). assert (Hi2 := Nat.mod_upper_bound i 2 ltac:(lia)).
        set (j := i / 2) in *. set (o := i mod 2) in *. assert (Ei : i = j * 2 + o) by lia. clearbody j o. rewrite Ei in Ht |- *.
        assert (Hx : j * 2 + o < m) by (destruct Ht; lia).
        destruct (tracked_block 1 j o) as [Hlt Hnd]; [lia | cbn; lia | exact Ht |]. cbn [Nat.pow Nat.mul Nat.add] in Hlt, Hnd.
        rewrite Hv by (auto; apply (block_lt 1 j o); auto). rewrite (proj2 (Nat.ltb_lt _ mtrunc)), Hnd by auto. cbn [andb].
        assert (EL := Hleft k j o ltac:(cbn; lia) Hx Ht). cbn [Nat.pow Nat.mul Nat.add] in EL. rewrite <- EL. cbn [fft Nat.pow].
        destruct (Nat.ltb_spec o 1); [auto |]. replace (1 + (o - 1)) with o by lia. reflexivity.
Qed.
End Forward.

(** ** The inverse transform *)
Section Inverse.
Context (addA : forall x y z, x ⊕ (y ⊕ z) = x ⊕ y ⊕ z) (addC : forall x y, x ⊕ y = y ⊕ x) (addx : forall x, x ⊕ x = zero) (mul0 : forall x, x ⊗ zero = zero).
Context (skewLUT : list N) (off base n m K0 mtrunc : nat) (Hm : m = 2 ^ K0) (Hmn : m <= n) (Hmt : mtrunc <= m).
Context (Htab : forall l j, S j * 2 ^ S l <= m -> exists lg, nth_error skewLUT (j * 2 ^ S l + 2 ^ l + off - 1) = Some lg /\ log_ok lg /\
  weight lg = skew l (base + j * 2 ^ S l)).

Lemma ifft_pass_ok l work : S (S l) <= K0 -> wok n work ->
  exists work', ifft_pass sliceXor refMulAdd modulus off skewLUT mtrunc (2 ^ l) work = Ret work' /\ wok n work' /\
    (forall k j o, j < 2 ^ (K0 - S (S l)) -> o < 2 ^ S (S l) -> val work' k (j * 2 ^ S (S l) + o) =
      if j * 2 ^ S (S l) <? mtrunc
      then ilay4 add mul (2 ^ l) (skew l (base + j * 2 ^ S (S l))) (skew l (base + j * 2 ^ S (S l) + 2 ^ l * 2)) (skew (S l) (base + j * 2 ^ S (S l)))
             (fun o => val work k (j * 2 ^ S (S l) + o)) o
      else val work k (j * 2 ^ S (S l) + o)) /\
    (forall k x, m <= x -> val work' k x = val work k x).
Proof.
  intros Hl Hw. unfold ifft_pass. set (d := 2 ^ l). assert (Hd : 0 < d) by apply pow_pos. assert (Hb : 2 ^ S (S l) = d * 4) by apply pow_4.
  assert (Hq : m = 2 ^ (K0 - S (S l)) * (d * 4)) by (rewrite Hm, <- Hb, <- Nat.pow_add_r; f_equal; lia). rewrite Hb.
  match goal with |- context [for_step _ _ ?b _] => destruct (pass_ok n m (d * 4) (2 ^ (K0 - S (S l))) mtrunc ltac:(lia) Hq Hmn Hmt (fun _ => true)
    (fun j => ilay4 add mul d (skew l (base + j * (d * 4))) (skew l (base + j * (d * 4) + d * 2)) (skew (S l) (base + j * (d * 4)))) b)
    with (work := work) as (work' & E & Hw' & Hv & Hout) end; auto.
  - intros j v v' o Ho H. apply ilay4_block; auto.
  - intros j w Hj Hww. assert (Hle : S j * (d * 4) <= m) by (rewrite Hq; apply Nat.mul_le_mono_r; lia).
    set (r := j * (d * 4)) in *. assert (Hr : r + d * 4 <= m) by (unfold r in *; lia).
    assert (H2 : 2 ^ S l = d * 2) by (unfold d; rewrite Nat.pow_succ_r'; lia).
    destruct (Htab l (j * 2)) as (l01 & I01 & O01 & W01); [rewrite H2; lia |].
    destruct (Htab l (j * 2 + 1)) as (l23 & I23 & O23 & W23); [rewrite H2; lia |].
    destruct (Htab (S l) j) as (l02 & I02 & O02 & W02); [rewrite Hb; lia |]. fold d in I01, I23. rewrite Hb in I02, W02. rewrite H2 in *. fold r in I02, W02.
    cbv zeta. replace (r + d + off - 1) with (j * 2 * (d * 2) + d + off - 1) by (unfold r; lia). rewrite (idx_some _ _ _ I01). cbn [bind].
    replace (r + d + d + off - 1) with (r + d * 2 + off - 1) by lia. rewrite (idx_some _ _ _ I02). cbn [bind].
    replace (r + d + d * 2 + off - 1) with ((j * 2 + 1) * (d * 2) + d + off - 1) by (unfold r; lia). rewrite (idx_some _ _ _ I23). cbn [bind].
    rewrite <- W02. replace (base + r + d * 2) with (base + (j * 2 + 1) * (d * 2)) by (unfold r; lia). rewrite <- W23.
    replace (base + r) with (base + j * 2 * (d * 2)) by (unfold r; lia). rewrite <- W01.
    apply (block_ok n r d Hd); auto; [lia | apply (ilay4_fours n r); auto; lia |]. intros w' p Hw' Hp. apply ifftDIT4Ref_ok; auto. lia.
  - exists work'. split; [exact E |]. split; [auto |]. split; [| auto]. intros k j o Hj Ho. rewrite Hv by auto. now rewrite andb_true_r.
Qed.

(** The transform of every block of [2^l] entries is what was there; where nothing
    but zeros was there are zeros. *)
Definition ifft_done (work : list T) (l : nat) (st : list T) : Prop := wok n st /\
  (forall k j o, j < 2 ^ (K0 - l) -> o < 2 ^ l ->
    fft add mul skew l (base + j * 2 ^ l) (fun o => val st k (j * 2 ^ l + o)) o = val work k (j * 2 ^ l + o)) /\
  (forall k j o, j < 2 ^ (K0 - l) -> o < 2 ^ l -> mtrunc <= j * 2 ^ l -> val st k (j * 2 ^ l + o) = zero) /\
  (forall k x, m <= x -> val st k x = val work k x).

(** Block [j'] of [2^l] entries is a quarter of a block of [2^(l+2)]. *)
Lemma quarter l j e o : S (S l) <= K0 -> e < 4 -> j < 2 ^ (K0 - S (S l)) -> o < 2 ^ l ->
  j * 4 + e < 2 ^ (K0 - l) /\ e * 2 ^ l + o < 2 ^ S (S l) /\ j * 2 ^ S (S l) + (e * 2 ^ l + o) = (j * 4 + e) * 2 ^ l + o.
Proof.
  intros Hl He Hj Ho. replace (K0 - l) with (S (S (K0 - S (S l)))) by lia. rewrite !pow_4. nia.
Qed.

Lemma ifft_done_step work l st st' : (forall k i, mtrunc <= i < m -> val work k i = zero) -> S (S l) <= K0 -> ifft_done work l st -> wok n st' ->
  (forall k j o, j < 2 ^ (K0 - S (S l)) -> o < 2 ^ S (S l) -> val st' k (j * 2 ^ S (S l) + o) =
    if j * 2 ^ S (S l) <? mtrunc
    then ilay4 add mul (2 ^ l) (skew l (base + j * 2 ^ S (S l))) (skew l (base + j * 2 ^ S (S l) + 2 ^ l * 2)) (skew (S l) (base + j * 2 ^ S (S l)))
           (fun o => val st k (j * 2 ^ S (S l) + o)) o
    else val st k (j * 2 ^ S (S l) + o)) ->
  (forall k x, m <= x -> val st' k x = val st k x) -> ifft_done work (S (S l)) st'.
Proof.
  intros Hz Hl (Hst & Hdone & Hzero & Hout) Hst' Hv Hout'. assert (Hd := pow_pos l). assert (Hb := pow_4 l). set (d := 2 ^ l) in *.
  assert (Hskip : forall k j o, j < 2 ^ (K0 - S (S l)) -> o < 2 ^ S (S l) -> mtrunc <= j * 2 ^ S (S l) -> val st' k (j * 2 ^ S (S l) + o) = zero).
  { intros k j o Hj Ho Hge. rewrite Hv, (proj2 (Nat.ltb_ge _ mtrunc)) by auto.
    rewrite Hb in Ho. destruct (four_parts d o Hd Ho) as (e & p & He & Hp & ->).
    destruct (quarter l j e p Hl He Hj Hp) as (H1 & H2 & E). fold d in E. rewrite E. apply Hzero; auto. fold d in H2. nia. }
  split; [auto |]. split; [| split; [exact Hskip | intros k x Hx; rewrite Hout'; auto]].
  intros k j o Hj Ho. destruct (Nat.lt_ge_cases (j * 2 ^ S (S l)) mtrunc) as [Hlt|Hge].
  - rewrite fft_4 by (fold d; lia). fold d. rewrite Hb in Ho. destruct (four_parts d o Hd Ho) as (e & p & He & Hp & ->).
    rewrite part_mod by auto. replace ((e * d + p) / d) with e by (rewrite Nat.div_add_l, Nat.div_small by lia; lia).
    destruct (quarter l j e p Hl He Hj Hp) as (H1 & H2 & E). fold d in E, H2. rewrite E, <- Hdone by auto.
    replace (base + j * 2 ^ S (S l) + e * d) with (base + (j * 4 + e) * d) by (rewrite Hb; lia). apply fft_ext; [| auto]. fold d. intros i Hi.
    assert (Hei : e * d + i < d * 4) by nia.
    rewrite (lay4_block d _ _ _ _ (ilay4 add mul d (skew l (base + j * 2 ^ S (S l))) (skew l (base + j * 2 ^ S (S l) + d * 2)) (skew (S l) (base + j * 2 ^ S (S l)))
      (fun o => val st k (j * 2 ^ S (S l) + o)))) by (auto; intros o' Ho'; rewrite Hv by (auto; lia); now rewrite (proj2 (Nat.ltb_lt _ mtrunc))).
    rewrite (lay4_ilay4 zero) by auto. f_equal. rewrite Hb. lia.
  - rewrite (fft_zero zero add mul skew add0 mul0) by (intros; auto). symmetry. apply Hz. split; [lia |].
    assert (m = 2 ^ (K0 - S (S l)) * 2 ^ S (S l)) by (rewrite Hm, <- Nat.pow_add_r; f_equal; lia). nia.
Qed.

(** A layer over the first [d * 2] entries *)
Lemma ilay_ok d w step work : d * 2 <= n ->
  (forall work i, i < d -> wok n work -> exists work', step i work = Ret work' /\ wok n work' /\
    forall k x, val work' k x = if x =? i then val work k i ⊕ w ⊗ (val work k (d + i) ⊕ val work k i)
      else if x =? d + i then val work k (d + i) ⊕ val work k i else val work k x) ->
  wok n work -> exists work', @for_loop rsError _ 0 d step work = Ret work' /\ wok n work' /\
    (forall k x, x < d * 2 -> val work' k x = ilay add mul d w (val work k) x) /\ (forall k x, d * 2 <= x -> val work' k x = val work k x).
Proof.
  intros Hdn Hstep Hw. apply oc_ret.
  eapply oc_weaken with (Q := fun _ => False); [apply for_loop_rule with (I := fun i st => wok n st /\
      (forall k p, p < d -> val st k p = (if p <? i then ilay add mul d w (val work k) p else val work k p) /\
        val st k (d + p) = if p <? i then ilay add mul d w (val work k) (d + p) else val work k (d + p)) /\
      (forall k x, d * 2 <= x -> val st k x = val work k x)) | | auto].
  - lia.
  - split; [auto |]. split; [intros k p _; split; reflexivity | auto].
  - intros i st [_ Hi] (Hst & Hv & Hout). destruct (Hstep st i Hi Hst) as (st' & -> & Hst' & Hv'). cbn [oc_spec]. split; [auto |]. split.
    + intros k p Hp. rewrite !Hv'. destruct (Hv k p Hp) as [Vp Vdp]. destruct (Hv k i Hi) as [Vi Vdi]. rewrite Nat.ltb_irrefl in Vi, Vdi.
      destruct (Nat.eqb_spec p i) as [->|Hne].
      * decide_places. rewrite Vi, Vdi. unfold ilay. decide_places. replace (d + i - d) with i by lia. auto.
      * rewrite (proj2 (Nat.eqb_neq p (d + i))), (proj2 (Nat.eqb_neq (d + p) i)), (proj2 (Nat.eqb_neq (d + p) (d + i))), Vp, Vdp by lia.
        replace (p <? S i) with (p <? i); [auto |]. destruct (Nat.ltb_spec p i), (Nat.ltb_spec p (S i)); auto; lia.
    + intros k x Hx. rewrite Hv'. decide_places. auto.
  - intros st (Hst & Hv & Hout). split; [auto |]. split; [| auto]. intros k x Hx. destruct (Nat.lt_ge_cases x d) as [Hd|Hd].
    + destruct (Hv k x Hd) as [E _]. rewrite E. now decide_places.
    + destruct (Hv k (x - d) ltac:(lia)) as [_ E]. replace (d + (x - d)) with x in E by lia. rewrite E. now decide_places.
Qed.

Lemma ifft_layers_ok work : wok n work -> (forall k i, mtrunc <= i < m -> val work k i = zero) -> exists work',
  ifft_layers sliceXor refMulAdd modulus off mtrunc m skewLUT work = Ret work' /\ wok n work' /\
  (forall k i, i < m -> fft add mul skew K0 base (val work' k) i = val work k i) /\ (forall k x, m <= x -> val work' k x = val work k x).
Proof.
  intros Hw Hz. unfold ifft_layers. assert (Hlog : Nat.log2 m = K0) by (rewrite Hm; apply Nat.log2_pow2; lia).
  apply oc_ret. eapply oc_bind; [apply while_rule with
    (I := fun '(dist, st) => exists l, l <= K0 /\ dist = 2 ^ l /\ ifft_done work l st) (m := fun '(dist, _) => K0 - Nat.log2 dist) |].
  - exists 0. split; [lia |]. split; [auto |]. split; [auto |]. split; [auto |]. split; [| auto]. intros k j o Hj Ho Hge.
    apply Hz. split; [lia |]. rewrite Nat.sub_0_r, <- Hm in Hj. cbn in *. lia.
  - rewrite Hlog. cbn. lia.
  - intros [dist st] (l & Hl & -> & Hinv) Hc%Nat.leb_le. rewrite <- pow_4 in Hc |- *.
    assert (Hl' : S (S l) <= K0) by (apply (Nat.pow_le_mono_r_iff 2); lia).
    destruct (ifft_pass_ok l st Hl' (proj1 Hinv)) as (st' & E & Hst' & Hv & Hout'). rewrite E. cbn [bind oc_spec].
    split; [exists (S (S l)); split; [auto |]; split; [auto |]; now apply (ifft_done_step work l st) |]. rewrite !Nat.log2_pow2; lia.
  - intros [dist st] [(l & Hl & -> & Hinv) Hc%Nat.leb_gt]. rewrite <- pow_4, Hm in Hc. apply Nat.pow_lt_mono_r_iff in Hc; [| lia].
    destruct Hinv as (Hst & Hdone & _ & Hout). rewrite Hm. destruct (Nat.eq_dec l K0) as [->|Hne].
    + rewrite Nat.ltb_irrefl. cbn [oc_spec]. split; [auto |]. split; [| now rewrite <- Hm]. intros k i Hi.
      assert (E := Hdone k 0 i ltac:(rewrite Nat.sub_diag; cbn; lia) Hi). cbn [Nat.mul Nat.add] in E. now rewrite Nat.add_0_r in E.
    + assert (HK : K0 = S l) by lia. assert (H2 : 2 ^ K0 = 2 ^ l * 2) by (rewrite HK, Nat.pow_succ_r'; lia). assert (Hd := pow_pos l).
      rewrite H2. set (d := 2 ^ l) in *. rewrite (proj2 (Nat.ltb_lt d (d * 2))), Nat.eqb_refl by lia. cbn [negb].
      destruct (Htab l 0) as (lg & I & O & W). { rewrite Hm, HK. lia. }
      fold d in I. cbn [Nat.mul Nat.add] in I, W. rewrite Nat.add_0_r in W. rewrite (idx_some _ _ _ I). cbn [bind].
      assert (Hstep : forall work i, i < d -> wok n work -> exists work', butterfly sliceXor modulus (ifftDIT2 sliceXor refMulAdd) i (d + i) lg work = Ret work' /\ wok n work' /\
        forall k x, val work' k x = if x =? i then val work k i ⊕ skew l base ⊗ (val work k (d + i) ⊕ val work k i)
          else if x =? d + i then val work k (d + i) ⊕ val work k i else val work k x).
      { intros w i Hi Hww. rewrite <- W. apply butterfly_inv; auto; try lia. }
      assert (Hres : forall st', wok n st' -> (forall k x, x < d * 2 -> val st' k x = ilay add mul d (skew l base) (val st k) x) ->
        (forall k x, d * 2 <= x -> val st' k x = val st k x) -> wok n st' /\
        (forall k i, i < d * 2 -> fft add mul skew K0 base (val st' k) i = val work k i) /\ (forall k x, d * 2 <= x -> val st' k x = val work k x)).
      { intros st' Hst' Hv Hout'. split; [auto |]. split; [| intros k x Hx; rewrite Hout' by auto; apply Hout; lia].
        intros k i Hi. rewrite HK. cbn [fft]. fold d.
        assert (Hu : forall j, j < d * 2 -> lay add mul d (skew l base) (val st' k) j = val st k j).
        { intros j Hj. rewrite (lay_ext add mul d _ _ (ilay add mul d (skew l base) (val st k))) by auto. now apply (lay_ilay zero). }
        assert (Hq : 2 ^ (K0 - l) = 2) by (replace (K0 - l) with 1 by lia; reflexivity).
        destruct (Nat.ltb_spec i d).
        - rewrite (fft_ext add mul skew l base _ (val st k)) by (auto; intros j Hj; apply Hu; fold d in Hj; lia).
          assert (E := Hdone k 0 i ltac:(lia) ltac:(auto)). cbn [Nat.mul Nat.add] in E. now rewrite Nat.add_0_r in E.
        - rewrite (fft_ext add mul skew l (base + d) _ (fun o => val st k (d + o))) by (auto; try (intros j Hj; apply Hu; fold d in Hj); fold d; lia).
          assert (E := Hdone k 1 (i - d) ltac:(lia) ltac:(lia)). rewrite Nat.mul_1_l in E. rewrite E. f_equal. lia. }
      destruct (N.eqb_spec lg modulus) as [El|El].
      * unfold slicesXor. edestruct (ilay_ok d (skew l base)) as (st' & E & Hst' & Hv & Hout'); [lia | | exact Hst | rewrite E; cbn [oc_spec]; now apply Hres].
        intros w i Hi Hww. destruct (Hstep w i Hi Hww) as (w' & Ew & R). unfold butterfly in Ew. rewrite El, N.eqb_refl in Ew. now exists w'.
      * edestruct (ilay_ok d (skew l base)) as (st' & E & Hst' & Hv & Hout'); [lia | | exact Hst | rewrite E; cbn [oc_spec]; now apply Hres].
        intros w i Hi Hww. destruct (Hstep w i Hi Hww) as (w' & Ew & R). unfold butterfly in Ew. rewrite (proj2 (N.eqb_neq _ _) El) in Ew.
        exists w'. split; [| auto]. rewrite (Nat.add_comm i d). exact Ew.
Qed.
End Inverse.

(** ** Sums of ranges *)

Lemma slicesXor_ok n a b m work : wok n work -> a + m <= n -> b + m <= n -> a + m <= b \/ b + m <= a ->
  exists work', slicesXor sliceXor a b m work = Ret work' /\ wok n work' /\
    forall k x, val work' k x = if (a <=? x) && (x <? a + m) then val work k x ⊕ val work k (b + (x - a)) else val work k x.
Proof.
  intros Hw Ha Hb Hab. unfold slicesXor. apply oc_ret.
  eapply oc_weaken with (Q := fun _ => False); [apply for_loop_rule with (I := fun i st => wok n st /\
      forall k x, val st k x = if (a <=? x) && (x <? a + i) then val work k x ⊕ val work k (b + (x - a)) else val work k x) | | auto].
  - lia.
  - split; [auto |]. intros k x. rewrite Nat.add_0_r. destruct (Nat.leb_spec a x), (Nat.ltb_spec x a); auto; lia.
  - intros i st [_ Hi] [Hst Hv]. destruct (xor_at_ok n st (b + i) (a + i)) as (st' & -> & Hst' & Hv'); auto; try lia.
    cbn [oc_spec]. split; [auto |]. intros k x. rewrite Hv', !Hv. destruct (Nat.eqb_spec x (a + i)) as [->|Hne].
    + rewrite (proj2 (Nat.leb_le a (a + i))) by lia. decide_places. cbn [andb].
      replace ((a <=? b + i) && (b + i <? a + i)) with false; [now replace (b + (a + i - a)) with (b + i) by lia |].
      symmetry. apply andb_false_iff. destruct Hab; [right; apply Nat.ltb_ge; lia | left; apply Nat.leb_gt; lia].
    + replace (x <? a + S i) with (x <? a + i); [auto |]. destruct (Nat.ltb_spec x (a + i)), (Nat.ltb_spec x (a + S i)); auto; lia.
  - intros st [Hst Hv]. auto.
Qed.

(** *** The formal derivative *)

Lemma lxor_double a b : Nat.lxor (2 * a) (2 * b + 1) = 2 * Nat.lxor a b + 1.
Proof.
  apply Nat.bits_inj. intros [|i]; rewrite Nat.lxor_spec.
  - now rewrite Nat.testbit_even_0, !Nat.testbit_odd_0.
  - now rewrite Nat.testbit_even_succ, !Nat.testbit_odd_succ, Nat.lxor_spec by lia.
Qed.

Lemma width_spec l : forall j, Nat.shiftr (Nat.lxor ((2 * j + 1) * 2 ^ l) ((2 * j + 1) * 2 ^ l - 1) + 1) 1 = 2 ^ l.
Proof.
  intros j. assert (E : Nat.lxor ((2 * j + 1) * 2 ^ l) ((2 * j + 1) * 2 ^ l - 1) + 1 = 2 * 2 ^ l).
  { induction l as [|l IH].
    - rewrite Nat.pow_0_r, Nat.mul_1_r. replace (2 * j + 1 - 1) with (2 * j) by lia. rewrite Nat.lxor_comm, lxor_double, Nat.lxor_nilpotent. lia.
    - set (a := (2 * j + 1) * 2 ^ l) in *. assert (Ha : 0 < a) by (unfold a; pose proof (pow_pos l); nia).
      replace ((2 * j + 1) * 2 ^ S l) with (2 * a) by (unfold a; rewrite Nat.pow_succ_r'; lia).
      replace (2 * a - 1) with (2 * (a - 1) + 1) by lia. rewrite lxor_double, Nat.pow_succ_r'. lia. }
  rewrite E, Nat.shiftr_div_pow2. change (2 ^ 1) with 2. rewrite Nat.mul_comm. apply Nat.div_mul. lia.
Qed.

(** The coefficients of a polynomial and its derivative, added *)
Fixpoint dplus (l : nat) (c : nat -> F) (t : nat) : F :=
  match l with
  | O => c t
  | S l => if t <? 2 ^ l then dplus l c t ⊕ c (2 ^ l + t) else dplus l (fun o => c (2 ^ l + o)) (t - 2 ^ l)
  end.

Lemma dplus_ext l : forall c c' t, (forall j, j < 2 ^ l -> c j = c' j) -> t < 2 ^ l -> dplus l c t = dplus l c' t.
Proof.
  induction l as [|l IH]; intros c c' t H Ht; cbn [dplus]; [auto |]. rewrite Nat.pow_succ_r' in H, Ht.
  destruct (Nat.ltb_spec t (2 ^ l)); [f_equal; [apply IH; [intros; apply H; lia | auto] | apply H; lia] | apply IH; [intros; apply H; lia | lia]].
Qed.

Lemma for_n_add {E St} a b lo (body : nat -> St -> outcome E St) st :
  for_n (a + b) lo body st = (st <- for_n a lo body st ;; for_n b (lo + a) body st).
Proof.
  revert lo st. induction a as [|a IH]; intros lo st; cbn [Nat.add for_n bind]; [now rewrite Nat.add_0_r |].
  destruct (body lo st); cbn [bind]; auto. rewrite IH. now rewrite Nat.add_succ_r.
Qed.

Lemma derivative_block n l : forall j work, S j * 2 ^ l <= n -> wok n work -> exists work',
  for_n (2 ^ l - 1) (j * 2 ^ l + 1) (fun i => slicesXor sliceXor (i - Nat.shiftr (Nat.lxor i (i - 1) + 1) 1) i (Nat.shiftr (Nat.lxor i (i - 1) + 1) 1)) work = Ret work' /\
  wok n work' /\ forall k x, val work' k x = on_block (j * 2 ^ l) (2 ^ l) (dplus l) (val work k) x.
Proof.
  induction l as [|l IH]; intros j work Hj Hw.
  - exists work. split; [reflexivity |]. split; [auto |]. intros k x. unfold on_block. cbn [dplus]. change (2 ^ 0) with 1.
    destruct ((j * 1 <=? x) && (x <? j * 1 + 1)) eqn:E; [| auto]. apply andb_true_iff in E as [H1%Nat.leb_le H2%Nat.ltb_lt]. f_equal. lia.
  - assert (Hd := pow_pos l). rewrite Nat.pow_succ_r' in Hj |- *. set (d := 2 ^ l) in *.
    replace (2 * d - 1) with ((d - 1) + (1 + (d - 1))) by lia. replace (j * (2 * d)) with ((2 * j) * d) by lia. rewrite for_n_add.
    destruct (IH (2 * j) work ltac:(lia) Hw) as (w1 & E1 & Hw1 & V1). rewrite E1. cbn [bind for_n Nat.add].
    replace (2 * j * d + 1 + (d - 1)) with ((2 * j + 1) * d) by lia. assert (Wd := width_spec l j). fold d in Wd. rewrite Wd.
    destruct (slicesXor_ok n ((2 * j + 1) * d - d) ((2 * j + 1) * d) d w1) as (w2 & E2 & Hw2 & V2); auto; try lia.
    rewrite E2. cbn [bind]. replace (S ((2 * j + 1) * d)) with ((2 * j + 1) * d + 1) by lia.
    destruct (IH (2 * j + 1) w2 ltac:(lia) Hw2) as (w3 & E3 & Hw3 & V3). rewrite E3. exists w3. split; [auto |]. split; [auto |].
    intros k x. rewrite V3. replace ((2 * j + 1) * d - d) with (2 * j * d) in V2 by lia. unfold on_block in *. fold d. set (r := 2 * j * d) in *.
    replace ((2 * j + 1) * d) with (r + d) in * by (unfold r; lia).
    destruct (Nat.lt_ge_cases x r) as [H1|H1].
    { rewrite (proj2 (Nat.leb_gt (r + d) x)), (proj2 (Nat.leb_gt r x)) by lia. cbn [andb]. rewrite V2, (proj2 (Nat.leb_gt r x)) by lia. cbn [andb].
      rewrite V1, (proj2 (Nat.leb_gt r x)) by lia. reflexivity. }
    rewrite (proj2 (Nat.leb_le r x)) by lia. cbn [andb dplus]. fold d.
    destruct (Nat.lt_ge_cases x (r + d)) as [H2|H2].
    { rewrite (proj2 (Nat.leb_gt (r + d) x)) by lia. cbn [andb]. rewrite V2, (proj2 (Nat.leb_le r x)) by lia. decide_places. cbn [andb].
      rewrite !V1, (proj2 (Nat.leb_le r x)) by lia. decide_places. cbn [andb]. rewrite (proj2 (Nat.leb_le r (r + d + (x - r)))) by lia. cbn [andb].
      f_equal. f_equal. lia. }
    rewrite (proj2 (Nat.leb_le (r + d) x)) by lia. cbn [andb]. replace (r + 2 * d) with (r + d + d) by lia.
    assert (Hkeep : forall y, r + d <= y -> val w2 k y = val work k y).
    { intros y Hy. rewrite V2. decide_places. rewrite andb_false_r, V1. decide_places. now rewrite andb_false_r. }
    destruct (Nat.ltb_spec x (r + d + d)); [| apply Hkeep; lia]. decide_places. replace (x - r - d) with (x - (r + d)) by lia.
    apply dplus_ext; [intros i Hi; rewrite Hkeep by lia; f_equal; lia | fold d; lia].
Qed.

Lemma formal_derivative_ok n l work : 2 ^ l <= n -> wok n work -> exists work',
  formal_derivative sliceXor (2 ^ l) work = Ret work' /\ wok n work' /\ forall k x, x < 2 ^ l -> val work' k x = dplus l (val work k) x.
Proof.
  intros Hl Hw. destruct (derivative_block n l 0 work ltac:(lia) Hw) as (work' & E & Hw' & V). exists work'. split; [exact E |]. split; [auto |].
  intros k x Hx. rewrite V. unfold on_block. cbn [Nat.mul Nat.add]. rewrite (proj2 (Nat.ltb_lt _ _)) by auto. cbn. now rewrite Nat.sub_0_r.
Qed.

(** ** The encoder's inverse transform *)
Section Encoder.
Context (addA : forall x y z, x ⊕ (y ⊕ z) = x ⊕ y ⊕ z) (addC : forall x y, x ⊕ y = y ⊕ x) (addx : forall x, x ⊕ x = zero) (mul0 : forall x, x ⊗ zero = zero).
Context (copy : T -> T -> T) (memclr : T -> T).
Context (Hcopy : forall x y, ok x -> ok y -> ok (copy y x) /\ forall k, col k (copy y x) = col k x).
Context (Hclr : forall x, ok x -> ok (memclr x) /\ forall k, col k (memclr x) = zero).

Lemma bind_assoc {E A B C} (c : outcome E A) (f : A -> outcome E B) (g : B -> outcome E C) :
  bind (bind c f) g = bind c (fun x => bind (f x) g).
Proof. now destruct c. Qed.

Lemma for_loop_ext {E St} lo hi (f g : nat -> St -> outcome E St) st : (forall i st, f i st = g i st) -> for_loop lo hi f st = for_loop lo hi g st.
Proof.
  intros H. unfold for_loop. generalize (hi - lo) as c. intros c. revert lo st. induction c as [|c IH]; intros i s; cbn [for_n]; [auto |].
  rewrite H. destruct (g i s); cbn [bind]; auto.
Qed.

(** A loop that sets the buffers from [w + lo] on *)
Lemma set_loop n w lo hi (f : nat -> list T -> outcome rsError T) (g : K -> nat -> F) work : wok n work -> lo <= hi -> w + hi <= n ->
  (forall i st, lo <= i < hi -> wok n st -> exists x, f i st = Ret x /\ ok x /\ forall k, col k x = g k i) ->
  exists work', for_loop lo hi (fun i st => x <- f i st ;; upd st (w + i) x) work = Ret work' /\ wok n work' /\
    forall k x, val work' k x = if (w + lo <=? x) && (x <? w + hi) then g k (x - w) else val work k x.
Proof.
  intros Hw Hlo Hhi Hf. apply oc_ret.
  eapply oc_weaken with (Q := fun _ => False); [apply for_loop_rule with (I := fun i st => wok n st /\
      forall k x, val st k x = if (w + lo <=? x) && (x <? w + i) then g k (x - w) else val work k x) | | auto].
  - exact Hlo.
  - split; [auto |]. intros k x. destruct (Nat.leb_spec (w + lo) x), (Nat.ltb_spec x (w + lo)); auto; lia.
  - intros i st Hi [Hst Hv]. destruct (Hf i st Hi Hst) as (y & -> & Oy & Cy). cbn [bind]. rewrite upd_ret by (destruct Hst; lia). cbn [oc_spec].
    split; [now apply wok_set |]. intros k x. rewrite (val_set n) by (auto; lia). destruct (Nat.eqb_spec x (w + i)) as [->|Hne].
    + rewrite (proj2 (Nat.leb_le _ _)), (proj2 (Nat.ltb_lt _ _)) by lia. cbn [andb]. rewrite Cy. f_equal. lia.
    + rewrite Hv. replace (x <? w + S i) with (x <? w + i); [auto |]. destruct (Nat.ltb_spec x (w + i)), (Nat.ltb_spec x (w + S i)); auto; lia.
  - intros st H. exact H.
Qed.

Lemma val_skipn w work k i : val (skipn w work) k i = val work k (w + i).
Proof. unfold val. now rewrite nth_skipn_add. Qed.

Context (skewLUT : list N) (base n m K0 mtrunc : nat) (Hm : m = 2 ^ K0) (Hmt : mtrunc <= m).
Context (Htab : forall l j, S j * 2 ^ S l <= m -> exists lg, nth_error skewLUT (j * 2 ^ S l + 2 ^ l + 1 - 1) = Some lg /\ log_ok lg /\
  weight lg = skew l (base + j * 2 ^ S l)).

Lemma ifftDITEncoder_ok data w (xorRes : bool) work : wok n work -> w + m <= n -> (forall i, i < mtrunc -> exists x, nth_error data i = Some x /\ ok x) ->
  (if xorRes then m <= w else w = 0) ->
  exists work' f, ifftDITEncoder sliceXor refMulAdd modulus copy memclr data mtrunc w xorRes m skewLUT work = Ret work' /\ wok n work' /\
    (forall k i, i < m -> fft add mul skew K0 base (f k) i = if i <? mtrunc then col k (nth i data dflt) else zero) /\
    (forall k i, i < m -> val work' k i = if xorRes then val work k i ⊕ f k i else f k i).
Proof.
  intros Hw Hwn Hdata Hxr. unfold ifftDITEncoder.
  destruct (set_loop n w 0 mtrunc (fun i st => x <- idx data i ;; y <- idx st (w + i) ;; Ret (E := rsError) (copy y x)) (fun k i => col k (nth i data dflt)) work)
    as (w1 & E1 & Hw1 & V1); auto; try lia.
  { intros i st [_ Hi] Hst. destruct (Hdata i Hi) as (x & Ex & Ox). unfold idx at 1. rewrite Ex. cbn [bind].
    rewrite (idx_nth dflt) by (destruct Hst; lia). cbn [bind]. destruct (Hcopy x (nth (w + i) st dflt) Ox) as [Oc Cc]; [apply (wok_nth n); auto; lia |].
    eexists. split; [reflexivity |]. split; [auto |]. intros k. rewrite Cc. now rewrite (nth_error_nth _ _ _ Ex). }
  assert (E1' : @for_loop rsError _ 0 mtrunc (fun i work => x <- idx data i ;; y <- idx work (w + i) ;; upd work (w + i) (copy y x)) work = Ret w1).
  { rewrite <- E1. apply for_loop_ext. intros i st. rewrite bind_assoc. destruct (@idx rsError T data i); cbn [bind]; auto. now rewrite bind_assoc. }
  rewrite E1'. cbn [bind].
  destruct (set_loop n w mtrunc m (fun i st => x <- idx st (w + i) ;; Ret (E := rsError) (memclr x)) (fun _ _ => zero) w1) as (w2 & E2 & Hw2 & V2); auto.
  { intros i st Hi Hst. rewrite (idx_nth dflt) by (destruct Hst; lia). cbn [bind]. eexists. split; [reflexivity |].
    apply Hclr, (wok_nth n); auto; lia. }
  assert (E2' : @for_loop rsError _ mtrunc m (fun i work => x <- idx work (w + i) ;; upd work (w + i) (memclr x)) w1 = Ret w2).
  { rewrite <- E2. apply for_loop_ext. intros i st. now rewrite !bind_assoc. }
  rewrite E2'. cbn [bind].
  assert (Hcut : Forall ok (firstn w w2) /\ Forall ok (skipn w w2)) by (apply Forall_app; rewrite firstn_skipn; apply Hw2).
  assert (Hsk : wok (n - w) (skipn w w2)) by (split; [rewrite length_skipn; destruct Hw2; lia | apply Hcut]).
  destruct (ifft_layers_ok addA addx mul0 skewLUT 1 base (n - w) m K0 mtrunc Hm ltac:(lia) Hmt Htab (skipn w w2) Hsk) as (part & E3 & Hp & V3 & _).
  { intros k i Hi. rewrite val_skipn, V2. rewrite (proj2 (Nat.leb_le _ _)), (proj2 (Nat.ltb_lt _ _)) by lia. reflexivity. }
  rewrite E3. cbn [bind]. cbv zeta.
  set (w3 := firstn w w2 ++ part).
  assert (Hfl : length (firstn w w2) = w) by (rewrite length_firstn; destruct Hw2; lia).
  assert (Hw3 : wok n w3).
  { destruct Hw2 as [L Hok], Hp as [Lp Hop]. split; [unfold w3; rewrite length_app; lia |]. apply Forall_app. split; [apply Hcut | auto]. }
  assert (V4 : forall k x, val w3 k x = if x <? w then val w2 k x else val part k (x - w)).
  { intros k x. unfold val, w3. destruct (Nat.ltb_spec x w).
    - rewrite app_nth1 by lia. now rewrite nth_firstn_in.
    - rewrite app_nth2 by lia. now rewrite Hfl. }
  exists (if xorRes then match slicesXor sliceXor 0 w m w3 with Ret x => x | _ => w3 end else w3), (val part).
  assert (Hf : forall k i, i < m -> fft add mul skew K0 base (val part k) i = if i <? mtrunc then col k (nth i data dflt) else zero).
  { intros k i Hi. rewrite V3, val_skipn, V2, V1 by auto. destruct (Nat.ltb_spec i mtrunc).
    - rewrite (proj2 (Nat.leb_gt (w + mtrunc) _)) by lia. cbn [andb]. rewrite (proj2 (Nat.leb_le _ _)), (proj2 (Nat.ltb_lt _ _)) by lia. cbn [andb]. do 2 f_equal. lia.
    - rewrite (proj2 (Nat.leb_le _ _)), (proj2 (Nat.ltb_lt _ _)) by lia. reflexivity. }
  destruct xorRes.
  - destruct (slicesXor_ok n 0 w m w3) as (w4 & E5 & Hw4 & V5); auto; try lia. rewrite E5. split; [auto |]. split; [auto |]. split; [auto |].
    intros k i Hi. rewrite V5, (proj2 (Nat.leb_le 0 i)), (proj2 (Nat.ltb_lt i _)) by lia. cbn [andb]. rewrite !V4.
    rewrite (proj2 (Nat.ltb_lt i w)), (proj2 (Nat.ltb_ge (w + (i - 0)) w)) by lia. replace (w + (i - 0) - w) with i by lia.
    rewrite V2, V1. rewrite (proj2 (Nat.leb_gt (w + mtrunc) i)), (proj2 (Nat.leb_gt (w + 0) i)) by lia. reflexivity.
  - subst w. split; [auto |]. split; [auto |]. split; [auto |]. intros k i Hi. rewrite V4. cbn. now rewrite Nat.sub_0_r.
Qed.
End Encoder.
End Buffers.
