(* ===== verification/LeopardPoly.v ===== *)
(** * The polynomials behind the transforms of Leopard

    [fft] evaluates a polynomial that is given in the basis of the products of
    [s l], and [dplus] adds its derivative.  A polynomial that vanishes where the
    losses are gives the lost values by its derivative. *)
From mathcomp Require Import boot.
From mathcomp Require Import ssralg poly polydiv.
From Stdlib Require Import PeanoNat Lia.
From S2P Require Import LeopardNetwork.

Set Implicit Arguments.
Unset Strict Implicit.
Unset Printing Implicit Defensive.

Import GRing.Theory.
Local Open Scope ring_scope.

Section Polynomials.
Context (F : fieldType) (addx : forall x : F, x + x = 0).
(** The points: sums of the elements of a basis *)
Context (K : nat) (w : nat -> F) (w0 : w 0 = 0).

Local Abbreviation pow l := (Nat.pow 2 l).
Local Infix "∔" := Nat.add (at level 50, left associativity).
Local Infix "∸" := Nat.sub (at level 50, left associativity).
Local Infix "∗" := Nat.mul (at level 40, left associativity).

Context (w_lxor : forall a b, w (Nat.lxor a b) = w a + w b).
Context (w_inj : forall a b, (a < pow K)%coq_nat -> (b < pow K)%coq_nat -> w a = w b -> a = b).

Lemma poly_addx (p : {poly F}) : p + p = 0.
Proof. by apply/polyP => i; rewrite coefD coef0 addx. Qed.

Lemma opp_same (x : F) : - x = x.
Proof. by apply/eqP; rewrite eq_sym -subr_eq0 opprK addx. Qed.

Fixpoint spoly (l : nat) : {poly F} := if l is l.+1 then spoly l ^+ 2 + spoly l else 'X.

Lemma spoly_add l x y : (spoly l).[x + y] = (spoly l).[x] + (spoly l).[y].
Proof.
  elim: l => [|l IH] /=; first by rewrite !hornerX.
  rewrite !hornerD !horner_exp IH. set a := _.[x]; set b := _.[y].
  rewrite sqrrD mulr2n addx addr0 -!addrA. congr (_ + _). by rewrite !addrA (addrC (b ^+ 2)).
Qed.

Lemma spoly_0 l : (spoly l).[0] = 0.
Proof. by elim: l => [|l IH] /=; rewrite ?hornerX // hornerD horner_exp IH expr0n addr0. Qed.

Lemma spoly_deriv l : (spoly l)^`() = 1.
Proof.
  elim: l => [|l IH] /=; first by rewrite derivX.
  by rewrite derivD expr2 derivM mulrC poly_addx add0r.
Qed.

Lemma size_spoly l : (size (spoly l) <= (pow l).+1)%N.
Proof.
  elim: l => [|l IH]; first by rewrite size_polyX.
  rewrite [spoly _]/= Nat.pow_succ_r' expr2. apply: (leq_trans (size_polyD _ _)). rewrite geq_max. apply/andP; split.
  - apply: (leq_trans (size_polyMleq _ _)). move/leP: IH => IH. apply/leP. rewrite -?plusE. lia.
  - move/leP: IH => IH. apply/leP. rewrite -?plusE. lia.
Qed.

(** Every polynomial is 1 at its own element. *)
Context (w_basis : forall l, (l < K)%coq_nat -> (spoly l).[w (pow l)] = 1).

Lemma spoly_vanish l i : (l <= K)%coq_nat -> (i < pow l)%coq_nat -> (spoly l).[w i] = 0.
Proof.
  elim: l i => [|l IH] i Hl Hi /=; first by rewrite hornerX; move: Hi => /=; case: i => [|i] //= Hi; lia.
  rewrite hornerD horner_exp. rewrite Nat.pow_succ_r' in Hi. case: (Nat.lt_ge_cases i (pow l)) => H.
  - by rewrite IH ?expr0n ?addr0 //; lia.
  - have -> : i = Nat.lxor (pow l) (i ∸ pow l) by rewrite -add_lxor; lia.
    by rewrite w_lxor spoly_add w_basis // IH ?addr0 ?expr1n ?addx //; lia.
Qed.

Lemma spoly_block l q i : (l <= K)%coq_nat -> (i < pow l)%coq_nat -> (spoly l).[w (q ∗ pow l ∔ i)] = (spoly l).[w (q ∗ pow l)].
Proof. by move=> Hl Hi; rewrite add_lxor_blocks // w_lxor spoly_add (spoly_vanish (i := i)) // addr0. Qed.

(** ** The basis of the transform *)

Fixpoint novel (l : nat) (c : nat -> F) : {poly F} :=
  if l is l.+1 then novel l c + spoly l * novel l (fun o => c (pow l ∔ o)) else (c 0)%:P.

Lemma novel_ext l c c' : (forall i, (i < pow l)%coq_nat -> c i = c' i) -> novel l c = novel l c'.
Proof.
  elim: l c c' => [|l IH] c c' H /=; first by rewrite H //=; lia.
  have E := Nat.pow_succ_r' 2 l. by congr (_ + _ * _); apply: IH => i Hi; apply: H; lia.
Qed.

Lemma novel_linear l k c c' : novel l (fun i => c i + k * c' i) = novel l c + k *: novel l c'.
Proof.
  elim: l c c' => [|l IH] c c' /=; first by rewrite polyCD polyCM mul_polyC.
  by rewrite !IH scalerDr mulrDr -scalerAr !addrA; congr (_ + _); rewrite -!addrA; congr (_ + _); rewrite addrC.
Qed.

Lemma novel_sum l c c' : novel l (fun i => c i + c' i) = novel l c + novel l c'.
Proof. rewrite -[novel l c']scale1r -novel_linear. by apply: novel_ext => i _; rewrite mul1r. Qed.

Lemma size_novel l c N : (N <= pow l)%coq_nat -> (forall i, (N <= i)%coq_nat -> (i < pow l)%coq_nat -> c i = 0) -> (size (novel l c) <= N)%N.
Proof.
  elim: l c N => [|l IH] c N HN H /=.
  - case: (posnP N) => HN0; last by apply: (leq_trans (size_polyC_leq1 _)).
    by rewrite H ?size_poly0 //=; lia.
  - rewrite Nat.pow_succ_r' in HN H. case: (Nat.le_gt_cases N (pow l)) => HNl.
    + have -> : novel l (fun o => c (pow l ∔ o)) = 0.
      { apply/eqP. rewrite -size_poly_leq0. apply: IH => [|i Hi Hi2]; [lia | apply: H; lia]. }
      by rewrite mulr0 addr0; apply: IH => // i Hi Hi2; apply: H; lia.
    + have H1 : (size (novel l c) <= pow l)%N by apply: IH => [|i Hi Hi2]; lia.
      have H2 : (size (novel l (fun o => c (pow l ∔ o))) <= N - pow l)%N.
      { by rewrite -minusE; apply: IH => [|i Hi Hi2]; [|apply: H]; lia. }
      move/leP: H1 => H1; move/leP: H2; rewrite -minusE => H2. have /leP H3 := size_spoly l.
      apply: (leq_trans (size_polyD _ _)). rewrite geq_max. apply/andP; split; first by apply/leP; lia.
      apply: (leq_trans (size_polyMleq _ _)). apply/leP. rewrite -plusE. lia.
Qed.

(** [fft] evaluates the polynomial. *)
Definition factor_at (l b : nat) : F := (spoly l).[w b].

Lemma fft_horner l q c i : (l <= K)%coq_nat -> (i < pow l)%coq_nat ->
  fft +%R *%R factor_at l (q ∗ pow l) c i = (novel l c).[w (q ∗ pow l ∔ i)].
Proof.
  elim: l q c i => [|l IH] q c i Hl Hi /=; first by rewrite hornerC; have -> : i = 0%N by move: Hi; change (pow 0) with 1%N; lia.
  have E := Nat.pow_succ_r' 2 l. set d := pow l in E *. have E2 : (q ∗ (d ∔ (d ∔ 0))) = ((q ∗ 2) ∗ d) by lia.
  rewrite E2 hornerD hornerM. set k := factor_at l _. case: (Nat.ltb_spec i d) => Hid.
  - rewrite IH //; first lia. rewrite (@novel_ext l _ (fun i => c i + k * c (d ∔ i))).
    + by move=> j /Nat.ltb_lt Hj; rewrite /lay Hj.
    + rewrite novel_linear hornerD hornerZ. by rewrite spoly_block //; lia.
  - have -> : ((q ∗ 2) ∗ d ∔ d) = ((q ∗ 2 ∔ 1) ∗ d) by lia.
    rewrite IH ?Hl //; try lia. rewrite (@novel_ext l _ (fun i => c i + (k + 1) * c (d ∔ i))).
    + move=> j Hj. have /Nat.ltb_ge E1 : (d <= d ∔ j)%coq_nat by lia. rewrite /lay E1.
      have -> : (d ∔ j ∸ d = j) by lia. by rewrite mulrDl mul1r addrC -addrA.
    + have -> : ((q ∗ 2 ∔ 1) ∗ d ∔ (i ∸ d)) = (q ∗ 2 ∗ d ∔ i) by lia.
      rewrite novel_linear hornerD hornerZ. congr (_ + _ * _).
      have -> : (q ∗ 2 ∗ d ∔ i) = ((q ∗ 2 ∔ 1) ∗ d ∔ (i ∸ d)) by lia.
      rewrite spoly_block; [lia | lia |]. have -> : ((q ∗ 2 ∔ 1) ∗ d) = Nat.lxor (q ∗ pow l.+1) d by rewrite -add_lxor_blocks; lia.
      have -> : q ∗ pow l.+1 = q ∗ 2 ∗ d by lia. by rewrite w_lxor spoly_add w_basis //; lia.
Qed.

(** [dplus] adds the derivative. *)
Lemma novel_dplus l c : novel l (dplus +%R l c) = novel l c + (novel l c)^`().
Proof.
  elim: l c => [|l IH] c /=; first by rewrite derivC addr0.
  have E := Nat.pow_succ_r' 2 l. set ch := fun o => c (pow l ∔ o).
  rewrite (@novel_ext l _ (fun i => dplus +%R l c i + ch i)); first by move=> i /Nat.ltb_lt ->.
  rewrite (@novel_ext l (fun o => if _ then _ else _) (dplus +%R l ch)).
  - move=> i Hi. have /Nat.ltb_ge -> : (pow l <= pow l ∔ i)%coq_nat by lia. by have -> : (pow l ∔ i ∸ pow l = i) by lia.
  - rewrite novel_sum !IH derivD derivM spoly_deriv mul1r mulrDr -!addrA. congr (_ + _).
    by rewrite [RHS]addrCA; congr (_ + _); rewrite addrCA.
Qed.

(** ** Codewords with losses *)
Section Losses.
Context (s l : nat) (Hsl : (s ∔ l <= K)%coq_nat) (c : nat -> F).
Local Abbreviation n := (pow (s ∔ l)).
(** The last block of coefficients is zero. *)
Context (Hlast : forall i, (i < pow l)%coq_nat -> c ((pow s ∸ 1) ∗ pow l ∔ i) = 0).
Context (err : nat -> bool).
Definition lost : seq nat := [seq i <- iota 0 n | err i].
Context (Hlost : (size lost <= pow l)%N).

Definition eraser : {poly F} := \prod_(j <- lost) ('X - (w j)%:P).
(** The product of the differences to the other losses *)
Definition locator_at (i : nat) : F := \prod_(j <- lost | j != i) (w i + w j).

Lemma mem_lost i : (i \in lost) = err i && (i < n)%N.
Proof. by rewrite mem_filter mem_iota. Qed.

Lemma eraser_lost i : i \in lost -> eraser = ('X - (w i)%:P) * \prod_(j <- lost | j != i) ('X - (w j)%:P).
Proof. by move=> Hi; rewrite /eraser (bigD1_seq i) //= filter_uniq ?iota_uniq. Qed.

Lemma locator_horner i : (\prod_(j <- lost | j != i) ('X - (w j)%:P)).[w i] = locator_at i.
Proof. by rewrite horner_prod; apply: eq_bigr => j _; rewrite hornerXsubC opp_same. Qed.

Lemma eraser_other i : ~~ err i -> eraser.[w i] = locator_at i.
Proof.
  move=> Hi. rewrite -locator_horner; congr (_.[_]). rewrite /eraser big_seq [RHS]big_seq_cond. apply: eq_bigl => j.
  case Ej: (j \in lost) => //=. symmetry. apply: contraNneq Hi => <-. by move: Ej; rewrite mem_lost => /andP [].
Qed.

Lemma locator_neq0 i : (i < n)%coq_nat -> locator_at i != 0.
Proof.
  move=> Hi. rewrite /locator_at prodf_seq_neq0. apply/allP => j Hj. apply/implyP => Hji. apply: contra Hji => /eqP E. apply/eqP.
  move: Hj; rewrite mem_lost => /andP [_ /ltP Hj]. have Hn := Nat.pow_le_mono_r 2 _ _ (ltac:(done) : 2%N <> 0%N) Hsl.
  apply: w_inj; [lia | lia |]. by move/eqP: E; rewrite addr_eq0 opp_same => /eqP ->.
Qed.

Lemma size_codeword : (size (novel (s ∔ l) c) <= n ∸ pow l)%N.
Proof.
  have Hn : n = pow s ∗ pow l by apply: Nat.pow_add_r. have Hs := Nat.pow_nonzero 2 s (ltac:(done)).
  apply: size_novel; first lia. move=> i Hi1 Hi2. have -> : i = (pow s ∸ 1) ∗ pow l ∔ (i ∸ (pow s ∸ 1) ∗ pow l) by nia.
  apply: Hlast. nia.
Qed.

(** The coefficients of the codeword's product with the eraser *)
Lemma erased_codeword q :
  (forall i, (i < n)%coq_nat -> fft +%R *%R factor_at (s ∔ l) 0 q i = if err i then 0 else locator_at i * fft +%R *%R factor_at (s ∔ l) 0 c i) ->
  novel (s ∔ l) q = eraser * novel (s ∔ l) c.
Proof.
  move=> Hq. apply/eqP. rewrite -subr_eq0. apply/eqP. set D := _ - _. have Hn := Nat.pow_le_mono_r 2 _ _ (ltac:(done) : 2%N <> 0%N) Hsl.
  apply: (@roots_geq_poly_eq0 _ D [seq w i | i <- iota 0 n]).
  - apply/allP => x /mapP [i]. rewrite mem_iota add0n => /andP [_ /ltP Hi] ->. rewrite /root /D hornerD hornerN hornerM.
    have H := Hq i Hi. rewrite -(Nat.mul_0_l (pow (s ∔ l))) !fft_horner // in H. rewrite Nat.mul_0_l Nat.add_0_l in H. rewrite H.
    case Ei: (err i); last by rewrite eraser_other ?Ei // subrr.
    rewrite (@eraser_lost i); first by rewrite mem_lost Ei; apply/ltP. by rewrite hornerM hornerXsubC subrr !mul0r subrr.
  - rewrite map_inj_in_uniq ?iota_uniq // => i j. rewrite !mem_iota !add0n => /andP [_ /ltP Hi] /andP [_ /ltP Hj]. apply: w_inj; lia.
  - rewrite size_map size_iota. apply: (leq_trans (size_polyD _ _)). rewrite geq_max size_polyN. apply/andP; split.
    + by apply: size_novel => //; move=> i; lia.
    + apply: (leq_trans (size_polyMleq _ _)). rewrite size_prod_XsubC addSn /=. apply: (leq_trans (leq_add Hlost size_codeword)).
      apply/leP. rewrite -plusE. have H3 : (pow l <= n)%coq_nat by apply: Nat.pow_le_mono_r; lia. lia.
Qed.

(** The lost values *)
Theorem lost_values q :
  (forall i, (i < n)%coq_nat -> fft +%R *%R factor_at (s ∔ l) 0 q i = if err i then 0 else locator_at i * fft +%R *%R factor_at (s ∔ l) 0 c i) ->
  forall i, (i < n)%coq_nat -> err i ->
  fft +%R *%R factor_at (s ∔ l) 0 (dplus +%R (s ∔ l) q) i = locator_at i * fft +%R *%R factor_at (s ∔ l) 0 c i.
Proof.
  move=> Hq i Hi Ei. rewrite -(Nat.mul_0_l (pow (s ∔ l))) !fft_horner // Nat.mul_0_l Nat.add_0_l novel_dplus (erased_codeword Hq).
  rewrite (@eraser_lost i); first by rewrite mem_lost Ei; apply/ltP.
  rewrite hornerD -mulrA !hornerM derivM derivXsubC mul1r hornerXsubC subrr mul0r add0r hornerD !hornerM hornerXsubC subrr mul0r addr0.
  by rewrite locator_horner.
Qed.
End Losses.
End Polynomials.
