(* ===== verification/Leopard8Field.v ===== *)
(** * The tables of the 8-bit Leopard encoder

    Its bytes are the field of the tables of galois.go in another basis: [phi] is
    the change of basis.  The tables of logarithms, the products and the factors of
    the transform are what this field gives. *)
From Stdlib Require Import List Arith NArith ZArith Lia Bool.
From S2P Require Import Prelude Galois RSTypes Matrix LeopardFFT Leopard8.
Import ListNotations.
Local Open Scope N_scope.

(** The sum of the elements of a basis for the bits of a byte *)
Definition combination (l : list (N * N)) (a : N) : N :=
  fold_right (fun '(i, basis) x => N.lxor (if N.testbit a i then basis else 0) x) 0 l.

Definition phi (a : N) : N := combination (combine [0; 1; 2; 3; 4; 5; 6; 7] cantorBasis) a.

Lemma combination_lxor l a b : combination l (N.lxor a b) = N.lxor (combination l a) (combination l b).
Proof.
  induction l as [|[i basis] l IH]; [reflexivity |]. cbn [combination fold_right]. fold (combination l (N.lxor a b)). fold (combination l a). fold (combination l b).
  rewrite IH, N.lxor_spec. destruct (N.testbit a i), (N.testbit b i); cbn [xorb]; apply N.bits_inj; intros j; rewrite !N.lxor_spec, ?N.bits_0;
    repeat match goal with |- context [N.testbit ?c j] => destruct (N.testbit c j) end; reflexivity.
Qed.

Lemma phi_lxor a b : phi (N.lxor a b) = N.lxor (phi a) (phi b).
Proof. apply combination_lxor. Qed.

Lemma phi_0 : phi 0 = 0. Proof. reflexivity. Qed.

(** ** Logarithms and powers *)

Lemma phi_table a : a < 256 -> (phi a <? 256) && ((a =? 0) || (phi a =? xpow (N.to_nat (at_byte logLUT8 a))) && (at_byte logLUT8 a <? 255)) &&
  (at_byte expLUT8 a <? 256) && (phi (at_byte expLUT8 a) =? xpow (N.to_nat a)) = true.
Proof. check_bytes a. Qed.

Lemma phi_byte a : a < 256 -> phi a < 256.
Proof. intros H. apply phi_table in H. now repeat (apply andb_true_iff in H as [H ?]); apply N.ltb_lt. Qed.

Lemma phi_log a : a < 256 -> a <> 0 -> phi a = xpow (N.to_nat (at_byte logLUT8 a)) /\ at_byte logLUT8 a < 255.
Proof.
  intros H H0. apply phi_table in H. repeat (apply andb_true_iff in H as [H ?]). rewrite (proj2 (N.eqb_neq a 0) H0) in *.
  cbn [orb] in *. match goal with E : (_ =? _) && (_ <? _) = true |- _ => apply andb_true_iff in E as [E1%N.eqb_eq E2%N.ltb_lt] end. auto.
Qed.

Lemma phi_exp l : l < 256 -> phi (at_byte expLUT8 l) = xpow (N.to_nat l) /\ at_byte expLUT8 l < 256.
Proof.
  intros H. apply phi_table in H. repeat (apply andb_true_iff in H as [H ?]). split; [now apply N.eqb_eq | now apply N.ltb_lt].
Qed.

Lemma phi_inj a b : a < 256 -> b < 256 -> phi a = phi b -> a = b.
Proof.
  intros Ha Hb E. apply N.lxor_eq. destruct (N.eq_dec (N.lxor a b) 0) as [|Hne]; [auto |].
  destruct (phi_log (N.lxor a b) (byte_lxor a b Ha Hb) Hne) as [Ep _]. rewrite phi_lxor, E, N.lxor_nilpotent in Ep. now apply eq_sym, xpow_neq_0 in Ep.
Qed.

(** The sum of logarithms, up to 255 *)
Lemma addMod8_spec a b : a < 256 -> b < 256 -> addMod8 a b < 256 /\ xpow (N.to_nat (addMod8 a b)) = xpow (N.to_nat a + N.to_nat b).
Proof.
  intros Ha Hb. unfold addMod8. cbv zeta. rewrite N.shiftr_div_pow2. change (2 ^ 8) with 256.
  split; [apply N.mod_lt; lia |]. destruct (N.lt_ge_cases (a + b) 256) as [H|H].
  - rewrite N.div_small, N.add_0_r, N.mod_small, N2Nat.inj_add by lia. reflexivity.
  - replace ((a + b) / 256) with 1 by (apply (N.div_unique _ _ _ (a + b - 256)); lia).
    replace ((a + b + 1) mod 256) with (a + b - 255) by (apply (N.mod_unique _ _ 1); lia).
    rewrite <- (xpow_add_255 (N.to_nat (a + b - 255))). f_equal. lia.
Qed.

Lemma mulLog8_spec a l : a < 256 -> l < 256 -> mulLog8 a l < 256 /\ phi (mulLog8 a l) = galMultiply (phi a) (xpow (N.to_nat l)).
Proof.
  intros Ha Hl. unfold mulLog8, mulLog8_with. destruct (N.eqb_spec a 0) as [->|H0].
  - split; [lia |]. rewrite phi_0, galMultiply_0_l; [auto | apply xpow_byte].
  - destruct (phi_log a Ha H0) as [E Hlog]. destruct (addMod8_spec (at_byte logLUT8 a) l ltac:(lia) Hl) as [Hs Es].
    destruct (phi_exp _ Hs) as [Ep Hp]. split; [auto |]. now rewrite Ep, Es, E, galMultiply_xpow.
Qed.

(** ** The products *)

Lemma nth_seq0 {B} (f : nat -> B) d n i : (i < n)%nat -> nth i (map f (seq 0 n)) d = f i.
Proof. apply nth_seq_map. Qed.

Lemma nibble_parts b : b < 256 -> ((b mod 16 <? 256) && (N.shiftl (b / 16) 4 <? 256) && (b =? N.lxor (b mod 16) (N.shiftl (b / 16) 4))) = true.
Proof. check_bytes b. Qed.

Lemma mul8LUT_spec l b : l < 256 -> b < 256 -> at_byte (mul8LUT l) b < 256 /\ phi (at_byte (mul8LUT l) b) = galMultiply (phi b) (xpow (N.to_nat l)).
Proof.
  intros Hl Hb. unfold at_byte at 1 2. unfold mul8LUT. rewrite nth_bytes256 by auto.
  assert (Hlow : b mod 16 < 16) by (apply N.mod_lt; lia). assert (Hhigh : b / 16 < 16) by (apply N.Div0.div_lt_upper_bound; lia).
  change 15 with (N.ones 4). rewrite N.land_ones, N.shiftr_div_pow2. change (2 ^ 4) with 16.
  unfold at_byte. rewrite !nth_seq0 by lia.
  replace (N.to_nat (b mod 16) mod 16)%nat with (N.to_nat (b mod 16)) by (symmetry; apply Nat.mod_small; lia).
  replace (N.to_nat (b mod 16) / 16)%nat with 0%nat by (symmetry; apply Nat.div_small; lia).
  replace (N.to_nat (b / 16 + 16) mod 16)%nat with (N.to_nat (b / 16)).
  2:{ apply (Nat.mod_unique _ _ 1); lia. }
  replace (N.to_nat (b / 16 + 16) / 16)%nat with 1%nat by (apply (Nat.div_unique _ _ _ (N.to_nat (b / 16))); lia).
  cbn [Nat.mul Nat.add]. rewrite !N2Nat.id. change (N.of_nat 0) with 0. change (N.of_nat 4) with 4. rewrite N.shiftl_0_r.
  assert (Hp := nibble_parts b Hb). apply andb_true_iff in Hp as [Hp E%N.eqb_eq]. apply andb_true_iff in Hp as [H1%N.ltb_lt H2%N.ltb_lt].
  rewrite !N.mod_small with (b := 256) by auto.
  destruct (mulLog8_spec (b mod 16) l H1 Hl) as [B1 E1], (mulLog8_spec (N.shiftl (b / 16) 4) l H2 Hl) as [B2 E2].
  split; [now apply byte_lxor |]. rewrite phi_lxor, E1, E2, <- galMultiply_lxor_l; [| now apply phi_byte | now apply phi_byte | apply xpow_byte].
  rewrite <- phi_lxor, <- E. reflexivity.
Qed.

(** ** The factors of the transform *)

(** The polynomial of level [l] of the transform, at a byte *)
Fixpoint level (l : nat) (x : N) : N :=
  match l with O => x | S l => galMultiply (level l x) (N.lxor (level l x) 1) end.

(** What a logarithm of the table of factors stands for *)
Definition factor (lg : N) : N := if lg =? modulus8 then 0 else xpow (N.to_nat lg).

Definition skew_check (l j : nat) : bool :=
  match nth_error fftSkew8 (j * 2 ^ S l + 2 ^ l - 1) with
  | Some lg => (lg <? 256) && (factor lg =? level l (phi (N.of_nat (j * 2 ^ S l))))
  | None => false
  end.

Lemma skew_table : forallb (fun l => forallb (skew_check l) (seq 0 (2 ^ (7 - l)))) (seq 0 8) = true.
Proof. vm_compute. reflexivity. Qed.

Lemma skew_ok l j : (l < 8)%nat -> (S j * 2 ^ S l <= 256)%nat ->
  exists lg, nth_error fftSkew8 (j * 2 ^ S l + 2 ^ l - 1) = Some lg /\ lg < 256 /\ factor lg = level l (phi (N.of_nat (j * 2 ^ S l))).
Proof.
  intros Hl Hj. assert (H := skew_table). rewrite forallb_forall in H. specialize (H l ltac:(apply in_seq; lia)).
  rewrite forallb_forall in H. specialize (H j). unfold skew_check in H. assert (Hin : In j (seq 0 (2 ^ (7 - l)))).
  { apply in_seq. split; [lia |]. cbn [Nat.add].
    assert (E : (2 ^ (7 - l) * 2 ^ S l = 256)%nat) by (rewrite <- Nat.pow_add_r; replace (7 - l + S l)%nat with 8%nat by lia; reflexivity).
    apply Nat.nle_gt. intros Hge. apply (Nat.mul_le_mono_r _ _ (2 ^ S l)) in Hge. pose proof (Nat.pow_nonzero 2 (S l)). nia. }
  apply H in Hin. destruct (nth_error _ _) as [lg|]; [| discriminate].
  apply andb_true_iff in Hin as [H1%N.ltb_lt H2%N.eqb_eq]. now exists lg.
Qed.

(** The basis is one of Cantor: every level is 1 at its own element. *)
Lemma level_basis l : (l < 8)%nat -> level l (phi (2 ^ N.of_nat l)) = 1.
Proof. intros H. do 8 (destruct l as [|l]; [vm_compute; reflexivity |]). lia. Qed.

Lemma testbit_of_nat a n : N.testbit (N.of_nat a) (N.of_nat n) = Nat.testbit a n.
Proof.
  rewrite N.testbit_eqb, Nat.testbit_eqb. change 2 with (N.of_nat 2). rewrite <- Nat2N.inj_pow, <- Nat2N.inj_div, <- Nat2N.inj_mod.
  destruct (Nat.eqb_spec ((a / 2 ^ n) mod 2) 1) as [->|H]; [reflexivity |]. apply N.eqb_neq. lia.
Qed.

Lemma lxor_of_nat a b : N.of_nat (Nat.lxor a b) = N.lxor (N.of_nat a) (N.of_nat b).
Proof.
  apply N.bits_inj. intros i. rewrite <- (N2Nat.id i), N.lxor_spec, !testbit_of_nat. apply Nat.lxor_spec.
Qed.
