(* ===== verification/Leopard8Walsh.v ===== *)
(** * The error locator of the 8-bit Leopard encoder

    [fwht8] is the Walsh-Hadamard transform modulo 255.  The transform of a product
    of transforms is a convolution over exclusive or, so that [locator] gives the
    sums of logarithms that make the products of the differences of the places. *)
From Stdlib Require Import List Arith NArith ZArith Lia Bool.
From S2P Require Import Prelude Galois RSTypes Matrix LeopardFFT LeopardNetwork Leopard8 Leopard8Field Leopard8Codec.
Import ListNotations.

(** ** The transform on integers *)

Definition had (d : nat) (v : nat -> Z) (i : nat) : Z := (if (i <? d)%nat then v i + v (d + i)%nat else v (i - d)%nat - v i)%Z.

Lemma had_lo d v i : i < d -> had d v i = (v i + v (d + i)%nat)%Z.
Proof. intros H. unfold had. now rewrite (proj2 (Nat.ltb_lt i d)). Qed.

Lemma had_hi d v i : d <= i -> had d v i = (v (i - d)%nat - v i)%Z.
Proof. intros H. unfold had. now rewrite (proj2 (Nat.ltb_ge i d)). Qed.

Fixpoint wht (l : nat) (v : nat -> Z) (i : nat) : Z :=
  match l with
  | O => v i
  | S l => had (2 ^ l) (fun i => if i <? 2 ^ l then wht l v i else wht l (fun o => v (2 ^ l + o)) (i - 2 ^ l)) i
  end.

Lemma wht_S l v i : wht (S l) v i = had (2 ^ l) (fun i => if i <? 2 ^ l then wht l v i else wht l (fun o => v (2 ^ l + o)) (i - 2 ^ l)) i.
Proof. reflexivity. Qed.

Fixpoint zsum (n : nat) (f : nat -> Z) : Z := match n with O => 0 | S n => zsum n f + f n end.

Lemma zsum_ext n f g : (forall j, j < n -> f j = g j) -> zsum n f = zsum n g.
Proof. induction n as [|n IH]; intros H; cbn; [auto |]. rewrite IH by (intros; apply H; lia). now rewrite H by lia. Qed.

Lemma zsum_add n k f : zsum (n + k) f = (zsum n f + zsum k (fun j => f (n + j)%nat))%Z.
Proof. induction k as [|k IH]; [rewrite Nat.add_0_r; cbn; lia |]. rewrite Nat.add_succ_r. cbn [zsum]. rewrite IH. lia. Qed.

Lemma wht_ext l : forall v w i, (forall j, j < 2 ^ l -> v j = w j) -> i < 2 ^ l -> wht l v i = wht l w i.
Proof.
  induction l as [|l IH]; intros v w i H Hi; cbn [wht]; [auto |]. rewrite Nat.pow_succ_r' in H, Hi. unfold had.
  destruct (Nat.ltb_spec i (2 ^ l)).
  - destruct (Nat.ltb_spec (2 ^ l + i) (2 ^ l)); [lia |]. f_equal; apply IH; try lia; intros j Hj; apply H; lia.
  - destruct (Nat.ltb_spec (i - 2 ^ l) (2 ^ l)); [| lia]. f_equal; apply IH; try lia; intros j Hj; apply H; lia.
Qed.

Ltac halves := unfold had; repeat match goal with |- context [?a <? ?b] => destruct (Nat.ltb_spec a b); try lia end.

Lemma wht_linear l : forall a b v w i, wht l (fun j => a * v j + b * w j)%Z i = (a * wht l v i + b * wht l w i)%Z.
Proof.
  induction l as [|l IH]; intros a b v w i; cbn [wht]; [auto |]. unfold had.
  repeat match goal with |- context [?x <? ?y] => destruct (Nat.ltb_spec x y) end; rewrite ?IH; ring.
Qed.

(** The transform of the transform *)
Lemma wht_wht l : forall v i, i < 2 ^ l -> wht l (wht l v) i = (Z.of_nat (2 ^ l) * v i)%Z.
Proof.
  induction l as [|l IH]; intros v i Hi; [cbn [wht Nat.pow]; ring |]. set (h := 2 ^ l) in *.
  assert (Hh : 2 ^ S l = h + h) by (unfold h; rewrite Nat.pow_succ_r'; lia). rewrite Hh in *.
  set (W := wht (S l) v). set (lo := wht l v). set (hi := wht l (fun o => v (h + o))).
  assert (Elo : forall i, i < h -> wht l W i = (Z.of_nat h * v i + Z.of_nat h * v (h + i)%nat)%Z).
  { intros j Hj. rewrite (wht_ext l W (fun j => 1 * lo j + 1 * hi j)%Z) by (auto; intros k Hk; fold h in Hk; unfold W, lo, hi; rewrite wht_S; fold h; halves; replace (h + k - h) with k by lia; ring).
    rewrite wht_linear. unfold lo, hi. rewrite !IH by auto. fold h. ring. }
  assert (Ehi : forall i, i < h -> wht l (fun o => W (h + o)) i = (Z.of_nat h * v i - Z.of_nat h * v (h + i)%nat)%Z).
  { intros j Hj. rewrite (wht_ext l _ (fun j => 1 * lo j + (-1) * hi j)%Z).
    2:{ intros k Hk. fold h in Hk. unfold W, lo, hi. rewrite wht_S. fold h. halves. replace (h + k - h) with k by lia. ring. } 2: auto.
    rewrite wht_linear. unfold lo, hi. rewrite !IH by auto. fold h. ring. }
  rewrite wht_S. fold h. unfold had at 1. destruct (Nat.ltb_spec i h) as [H|H].
  - rewrite (proj2 (Nat.ltb_ge (h + i) h)) by lia. replace (h + i - h) with i by lia. rewrite Elo, Ehi by auto. rewrite Nat2Z.inj_add. ring.
  - rewrite (proj2 (Nat.ltb_lt (i - h) h)) by lia. rewrite Elo, Ehi by lia. replace (h + (i - h)) with i by lia. rewrite Nat2Z.inj_add. ring.
Qed.

(** ** Convolution over exclusive or *)

Fixpoint conv (l : nat) (a b : nat -> Z) (i : nat) : Z :=
  match l with
  | O => (a 0%nat * b i)%Z
  | S l =>
      let h := 2 ^ l in
      let ahi := fun o => a (h + o)%nat in let bhi := fun o => b (h + o)%nat in
      if i <? h then (conv l a b i + conv l ahi bhi i)%Z else (conv l a bhi (i - h)%nat + conv l ahi b (i - h)%nat)%Z
  end.

Lemma conv_S l a b i : conv (S l) a b i =
  if i <? 2 ^ l then (conv l a b i + conv l (fun o => a (2 ^ l + o)%nat) (fun o => b (2 ^ l + o)%nat) i)%Z
  else (conv l a (fun o => b (2 ^ l + o)%nat) (i - 2 ^ l)%nat + conv l (fun o => a (2 ^ l + o)%nat) b (i - 2 ^ l)%nat)%Z.
Proof. reflexivity. Qed.

Lemma wht_conv l : forall a b i, i < 2 ^ l -> wht l (conv l a b) i = (wht l a i * wht l b i)%Z.
Proof.
  induction l as [|l IH]; intros a b i Hi; [cbn in *; now replace i with 0 by lia |]. set (h := 2 ^ l) in *.
  assert (Hh : 2 ^ S l = h + h) by (unfold h; rewrite Nat.pow_succ_r'; lia). rewrite Hh in *.
  set (ahi := fun o => a (h + o)%nat). set (bhi := fun o => b (h + o)%nat).
  assert (Elo : forall i, i < h -> wht l (conv (S l) a b) i = (wht l a i * wht l b i + wht l ahi i * wht l bhi i)%Z).
  { intros j Hj. rewrite (wht_ext l _ (fun j => 1 * conv l a b j + 1 * conv l ahi bhi j)%Z).
    2:{ intros k Hk. rewrite conv_S. fold h in Hk |- *. halves. unfold ahi, bhi. ring. } 2: auto. rewrite wht_linear, !IH by auto. ring. }
  assert (Ehi : forall i, i < h -> wht l (fun o => conv (S l) a b (h + o)) i = (wht l a i * wht l bhi i + wht l ahi i * wht l b i)%Z).
  { intros j Hj. rewrite (wht_ext l _ (fun j => 1 * conv l a bhi j + 1 * conv l ahi b j)%Z).
    2:{ intros k Hk. rewrite conv_S. fold h in Hk |- *. halves. unfold ahi, bhi. replace (h + k - h) with k by lia. ring. } 2: auto. rewrite wht_linear, !IH by auto. ring. }
  rewrite !wht_S. fold h. unfold had. destruct (Nat.ltb_spec i h) as [H|H].
  - rewrite (proj2 (Nat.ltb_ge (h + i) h)) by lia. replace (h + i - h) with i by lia. rewrite Elo, Ehi by auto. fold ahi bhi. ring.
  - rewrite (proj2 (Nat.ltb_lt (i - h) h)) by lia. rewrite Elo, Ehi by lia. replace (h + (i - h)) with i by lia. fold ahi bhi. ring.
Qed.

Lemma lxor_lt l i j : i < 2 ^ l -> j < 2 ^ l -> Nat.lxor i j < 2 ^ l.
Proof.
  intros Hi Hj. destruct (Nat.eq_dec (Nat.lxor i j) 0) as [->|Hne]; [pose proof (pow_pos l); lia |].
  apply Nat.log2_lt_pow2; [lia |]. assert (Hl := Nat.log2_lxor i j).
  destruct l as [|l]; [cbn in *; replace i with 0 in Hne by lia; replace j with 0 in Hne by lia; now cbn in Hne |].
  assert (Nat.log2 i < S l) by (destruct (Nat.eq_dec i 0) as [->|]; [cbn; lia | apply Nat.log2_lt_pow2; lia]).
  assert (Nat.log2 j < S l) by (destruct (Nat.eq_dec j 0) as [->|]; [cbn; lia | apply Nat.log2_lt_pow2; lia]). lia.
Qed.

Lemma lxor_high l i j : i < 2 ^ l -> j < 2 ^ l -> Nat.lxor i (2 ^ l + j) = 2 ^ l + Nat.lxor i j.
Proof.
  intros Hi Hj. rewrite !add_lxor by (auto using lxor_lt). rewrite <- Nat.lxor_assoc, (Nat.lxor_comm i), Nat.lxor_assoc. reflexivity.
Qed.

Lemma lxor_both l i j : i < 2 ^ l -> j < 2 ^ l -> Nat.lxor (2 ^ l + i) (2 ^ l + j) = Nat.lxor i j.
Proof.
  intros Hi Hj. rewrite !add_lxor by auto. rewrite (Nat.lxor_comm (2 ^ l) i), Nat.lxor_assoc, <- (Nat.lxor_assoc (2 ^ l) (2 ^ l)), Nat.lxor_nilpotent, Nat.lxor_0_l.
  reflexivity.
Qed.

Lemma conv_sum l : forall a b i, i < 2 ^ l -> conv l a b i = zsum (2 ^ l) (fun j => (a j * b (Nat.lxor i j))%Z).
Proof.
  induction l as [|l IH]; intros a b i Hi.
  - cbn [Nat.pow zsum conv] in *. replace i with 0 by lia. change (Nat.lxor 0 0) with 0. ring.
  - set (h := 2 ^ l) in *. assert (Hh : 2 ^ S l = h + h) by (unfold h; rewrite Nat.pow_succ_r'; lia). rewrite Hh in *. rewrite zsum_add, conv_S. fold h.
    destruct (Nat.ltb_spec i h) as [H|H].
    + rewrite !IH by auto. f_equal. apply zsum_ext. intros j Hj. fold h in Hj. f_equal. f_equal. symmetry. now apply lxor_high.
    + rewrite !IH by (fold h; lia). fold h. replace i with (h + (i - h)) by lia. generalize (i - h) (ltac:(lia) : i - h < h). intros p Hp.
      replace (h + p - h) with p by lia.
      f_equal; apply zsum_ext; intros j Hj; do 2 f_equal; symmetry; [rewrite Nat.lxor_comm, (Nat.lxor_comm p); now apply lxor_high | now apply lxor_both].
Qed.

(** ** The transform of the code *)
Section Walsh.
Local Abbreviation is_byte := (fun x => (x < 256)%N).
Local Abbreviation res := (fun (_ : unit) (x : N) => (Z.of_N x mod 255)%Z).
Local Abbreviation value_at := (val 0%N res).
Local Abbreviation bytes n := (wok is_byte n).

Lemma addMod8_res a b : (a < 256)%N -> (b < 256)%N -> (addMod8 a b < 256)%N /\ (Z.of_N (addMod8 a b) mod 255 = (Z.of_N a mod 255 + Z.of_N b mod 255) mod 255)%Z.
Proof.
  intros Ha Hb. unfold addMod8. cbv zeta. rewrite N.shiftr_div_pow2. change (2 ^ 8)%N with 256%N. split; [apply N.mod_lt; lia |].
  rewrite <- Z.add_mod by lia. rewrite N2Z.inj_mod, N2Z.inj_add, N2Z.inj_div, N2Z.inj_add. Z.div_mod_to_equations. lia.
Qed.

Lemma subMod8_res a b : (a < 256)%N -> (b < 256)%N -> (subMod8 a b < 256)%N /\ (Z.of_N (subMod8 a b) mod 255 = (Z.of_N a mod 255 - Z.of_N b mod 255) mod 255)%Z.
Proof.
  intros Ha Hb. unfold subMod8. cbv zeta. rewrite N.shiftr_div_pow2. change (2 ^ 8)%N with 256%N. split; [apply N.mod_lt; lia |].
  rewrite <- Zminus_mod. rewrite N2Z.inj_mod, N2Z.inj_add, N2Z.inj_div, N2Z.inj_mod, N2Z.inj_sub, N2Z.inj_add by lia.
  change (Z.of_N (2 ^ 64)) with 18446744073709551616%Z. change (Z.of_N 256) with 256%Z. set (x := Z.of_N a). set (y := Z.of_N b).
  assert (0 <= x < 256)%Z by lia. assert (0 <= y < 256)%Z by lia. Z.div_mod_to_equations. lia.
Qed.

(** Two layers, modulo 255 *)
Definition had2 (d : nat) (v : nat -> Z) (i : nat) : Z :=
  had (d * 2) (fun i => if (i <? d * 2)%nat then had d v i else had d (fun o => v (d * 2 + o)%nat) (i - d * 2)) i.
Definition had4 (d : nat) (v : nat -> Z) (i : nat) : Z := (had2 d v i mod 255)%Z.

Lemma idx_byte n work i : bytes n work -> i < n -> exists x, @idx rsError N work i = Ret x /\ (x < 256)%N /\ value_at work tt i = (Z.of_N x mod 255)%Z.
Proof.
  intros Hw Hi. exists (nth i work 0%N). split; [apply idx_nth; destruct Hw; lia |]. split; [| reflexivity].
  apply (wok_nth 0%N is_byte n); auto.
Qed.

Ltac decide_places :=
  repeat match goal with
    | |- context [?a =? ?b] => first [rewrite (proj2 (Nat.eqb_eq a b)) by lia | rewrite (proj2 (Nat.eqb_neq a b)) by lia]
    | |- context [?a <? ?b] => first [rewrite (proj2 (Nat.ltb_lt a b)) by lia | rewrite (proj2 (Nat.ltb_ge a b)) by lia]
    end; cbn [orb].

Ltac same_entries r p d := repeat match goal with |- context [val 0%N ?f ?w tt ?a] =>
  first [constr_eq a (r + p); fail 1 | constr_eq a (r + p + d); fail 1 | constr_eq a (r + p + d * 2); fail 1 | constr_eq a (r + p + d * 3); fail 1
        | replace a with (r + p) by lia | replace a with (r + p + d) by lia | replace a with (r + p + d * 2) by lia | replace a with (r + p + d * 3) by lia] end.

Lemma fwht48_ok n r d p work : 0 < d -> r + d * 4 <= n -> p < d -> bytes n work ->
  exists work', fwht48 (r + p) d work = Ret work' /\ bytes n work' /\
    forall k x, value_at work' k x = four_step r d (had4 d) p (value_at work k) x.
Proof.
  intros Hd Hn Hp Hw. unfold fwht48.
  destruct (idx_byte n work (r + p) Hw) as (x0 & -> & B0 & V0); [lia |]. cbn [bind].
  destruct (idx_byte n work (r + p + d) Hw) as (x1 & -> & B1 & V1); [lia |]. cbn [bind].
  destruct (idx_byte n work (r + p + d * 2) Hw) as (x2 & -> & B2 & V2); [lia |]. cbn [bind].
  destruct (idx_byte n work (r + p + d * 3) Hw) as (x3 & -> & B3 & V3); [lia |]. cbn [bind]. unfold fwht2alt8.
  destruct (addMod8_res x0 x1 B0 B1) as [Ba01 Ea01], (subMod8_res x0 x1 B0 B1) as [Bs01 Es01].
  destruct (addMod8_res x2 x3 B2 B3) as [Ba23 Ea23], (subMod8_res x2 x3 B2 B3) as [Bs23 Es23].
  set (a01 := addMod8 x0 x1) in *. set (s01 := subMod8 x0 x1) in *. set (a23 := addMod8 x2 x3) in *. set (s23 := subMod8 x2 x3) in *.
  destruct (addMod8_res a01 a23 Ba01 Ba23) as [Bt0 Et0], (subMod8_res a01 a23 Ba01 Ba23) as [Bt2 Et2].
  destruct (addMod8_res s01 s23 Bs01 Bs23) as [Bt1 Et1], (subMod8_res s01 s23 Bs01 Bs23) as [Bt3 Et3].
  set (t0 := addMod8 a01 a23) in *. set (t2 := subMod8 a01 a23) in *. set (t1 := addMod8 s01 s23) in *. set (t3 := subMod8 s01 s23) in *.
  assert (L := proj1 Hw). rewrite upd_ret by lia. cbn [bind]. rewrite upd_ret by (rewrite length_set_nth; lia). cbn [bind].
  rewrite upd_ret by (rewrite !length_set_nth; lia). cbn [bind]. rewrite upd_ret by (rewrite !length_set_nth; lia).
  eexists. split; [reflexivity |]. split; [repeat apply wok_set; auto |]. intros [] x.
  rewrite (val_set _ _ is_byte n) by (repeat apply wok_set; auto; lia). rewrite (val_set _ _ is_byte n) by (repeat apply wok_set; auto; lia).
  rewrite (val_set _ _ is_byte n) by (repeat apply wok_set; auto; lia). rewrite (val_set _ _ is_byte n) by (auto; lia).
  unfold four_step. assert (Hplace : forall e, value_at work tt (r + (r + p + e - r)) = value_at work tt (r + p + e)) by (intros e; f_equal; lia).
  destruct (Nat.eqb_spec x (r + p)) as [->|N0]; cbn [orb];
    [| destruct (Nat.eqb_spec x (r + p + d)) as [->|N1]; cbn [orb];
      [| destruct (Nat.eqb_spec x (r + p + d * 2)) as [->|N2]; cbn [orb]; [| destruct (Nat.eqb_spec x (r + p + d * 3)) as [->|N3]; [| reflexivity]]]].
  all: unfold had4, had2, had; decide_places.
  1-4: same_entries r p d.
  all: rewrite ?V0, ?V1, ?V2, ?V3, ?Et0, ?Et1, ?Et2, ?Et3, ?Ea01, ?Ea23, ?Es01, ?Es23.
  all: generalize (Z.of_N x0 mod 255)%Z (Z.of_N x1 mod 255)%Z (Z.of_N x2 mod 255)%Z (Z.of_N x3 mod 255)%Z; intros; rewrite ?Zplus_mod_idemp_l, ?Zplus_mod_idemp_r, ?Zminus_mod_idemp_l, ?Zminus_mod_idemp_r; f_equal; ring.
Qed.

Ltac quarter_cases e := destruct e as [|[|[|[|e]]]]; [| | | | lia]; cbn [Nat.mul Nat.add].

Ltac congruent := rewrite ?Zplus_mod_idemp_l, ?Zplus_mod_idemp_r, ?Zminus_mod_idemp_l, ?Zminus_mod_idemp_r.

Lemma mod_congr a b : (a mod 255 = b mod 255)%Z -> exists k, a = (b + k * 255)%Z.
Proof. intros H. exists (a / 255 - b / 255)%Z. rewrite (Z.div_mod a 255), (Z.div_mod b 255), H at 1 by lia. lia. Qed.

Lemma congr_mod a b : (exists k, a = (b + k * 255)%Z) -> (a mod 255 = b mod 255)%Z.
Proof. intros [k ->]. apply Z.mod_add. lia. Qed.

(** Entries that are congruent give what is congruent. *)
Lemma had2_mod d v w e p : 0 < d -> e < 4 -> p < d -> (forall e, e < 4 -> (v (e * d + p)%nat mod 255 = w (e * d + p)%nat mod 255)%Z) ->
  (had2 d v (e * d + p) mod 255 = had2 d w (e * d + p) mod 255)%Z.
Proof.
  intros Hd He Hp H. assert (E0 := H 0 ltac:(lia)). assert (E1 := H 1 ltac:(lia)). assert (E2 := H 2 ltac:(lia)). assert (E3 := H 3 ltac:(lia)).
  cbn [Nat.mul Nat.add] in *. quarter_cases e; unfold had2, had; decide_places;
    repeat match goal with |- context [?f ?a] => match f with v => idtac | w => idtac end;
      first [constr_eq a p; fail 1 | constr_eq a (d + 0 + p); fail 1 | constr_eq a (d + (d + 0) + p); fail 1 | constr_eq a (d + (d + (d + 0)) + p); fail 1
            | replace a with p by lia | replace a with (d + 0 + p) by lia | replace a with (d + (d + 0) + p) by lia | replace a with (d + (d + (d + 0)) + p) by lia] end.
  all: apply mod_congr in E0 as [k0 ->], E1 as [k1 ->], E2 as [k2 ->], E3 as [k3 ->]; apply congr_mod.
  - exists (k0 + k1 + (k2 + k3))%Z. ring.
  - exists (k0 - k1 + (k2 - k3))%Z. ring.
  - exists (k0 + k1 - (k2 + k3))%Z. ring.
  - exists (k0 - k1 - (k2 - k3))%Z. ring.
Qed.

Lemma had4_fours d : 0 < d -> on_fours d (had4 d).
Proof. intros Hd v w e p He Hp H. apply had2_mod; auto. intros e' He'. now rewrite H. Qed.

(** Two levels of the transform from the transforms of the quarters *)
Lemma wht_4 l v e p : e < 4 -> p < 2 ^ l ->
  wht (S (S l)) v (e * 2 ^ l + p) = had2 (2 ^ l) (fun i => wht l (fun o => v (i / 2 ^ l * 2 ^ l + o)%nat) (i mod 2 ^ l)) (e * 2 ^ l + p).
Proof.
  intros He Hp. set (d := 2 ^ l) in *. assert (Hd : 0 < d) by lia. set (q := fun i => wht l (fun o => v (i / d * d + o)%nat) (i mod d)).
  assert (Hq : forall e p, p < d -> q (e * d + p) = wht l (fun o => v (e * d + o)%nat) p).
  { intros e' p' Hp'. unfold q. rewrite part_mod by auto. replace ((e' * d + p') / d) with e' by (rewrite Nat.div_add_l, Nat.div_small by lia; lia). reflexivity. }
  assert (H2 : 2 ^ S l = d * 2) by (unfold d; rewrite Nat.pow_succ_r'; lia). rewrite !wht_S. rewrite H2. unfold had2.
  assert (Hin : forall u k i, i < d * 2 -> (forall e p, p < d -> e < 2 -> wht l (fun o => u (e * d + o)%nat) p = q ((k + e) * d + p)) ->
    wht (S l) u i = had d (fun o => q (k * d + o)) i).
  { intros u k i Hi Hu. rewrite wht_S. fold d. assert (H0 : forall p, p < d -> wht l u p = q (k * d + p)).
    { intros p' Hp'. specialize (Hu 0 p' Hp' ltac:(lia)). rewrite Nat.add_0_r in Hu. exact Hu. }
    assert (H1 : forall p, p < d -> wht l (fun o => u (d + o)) p = q (k * d + (d + p))).
    { intros p' Hp'. specialize (Hu 1 p' Hp' ltac:(lia)). rewrite Nat.mul_1_l in Hu. rewrite Hu. f_equal. lia. }
    unfold had. destruct (Nat.ltb_spec i d).
    - decide_places. replace (d + i - d) with i by lia. now rewrite H0, H1 by lia.
    - decide_places. rewrite H0, H1 by lia. now replace (d + (i - d)) with i by lia. }
  set (x := e * d + p). assert (Hx : x < d * 4) by (unfold x; nia).
  assert (Hlo : forall i, i < d * 2 -> wht (S l) v i = had d q i).
  { intros i Hi. rewrite (Hin v 0); [reflexivity | auto |]. intros e' p' Hp' He'. now rewrite Hq. }
  assert (Hhi : forall i, i < d * 2 -> wht (S l) (fun o => v (d * 2 + o)) i = had d (fun o => q (d * 2 + o)) i).
  { intros i Hi. rewrite (Hin _ 2); [unfold had; destruct (i <? d); do 2 f_equal; lia | auto |]. intros e' p' Hp' He'. rewrite Hq by auto.
    apply wht_ext; [intros; f_equal; lia | auto]. }
  destruct (Nat.lt_ge_cases x (d * 2)) as [Hxd|Hxd]; [rewrite !(had_lo (d * 2)) by auto | rewrite !(had_hi (d * 2)) by auto]; decide_places.
  - replace (d * 2 + x - d * 2) with x by lia. now rewrite Hlo, Hhi by lia.
  - now rewrite Hlo, Hhi by lia.
Qed.

Lemma wht_zero l : forall v i, (forall j, j < 2 ^ l -> v j = 0%Z) -> i < 2 ^ l -> wht l v i = 0%Z.
Proof.
  intros v i H Hi. rewrite (wht_ext l v (fun j => 0 * v j + 0 * v j)%Z) by (auto; intros j Hj; rewrite H by auto; ring). rewrite wht_linear. ring.
Qed.

(** Blocks of [2^l] entries hold their transforms. *)
Definition walsh_done (z : nat -> Z) (l : nat) (st : list N) : Prop := bytes 256 st /\
  forall k j o, j < 2 ^ (8 - l) -> o < 2 ^ l -> value_at st k (j * 2 ^ l + o) = (wht l (fun o => z (j * 2 ^ l + o)%nat) o mod 255)%Z.

Lemma fwht_pass_ok z l mtrunc st : S (S l) <= 8 -> mtrunc <= 256 -> (forall i, mtrunc <= i < 256 -> z i = 0%Z) -> walsh_done z l st ->
  exists st', for_step mtrunc (2 ^ l * 4) (fun r data => for_loop r (r + 2 ^ l) (fun off => fwht48 off (2 ^ l)) data) st = Ret st' /\
    walsh_done z (S (S l)) st'.
Proof.
  intros Hl Hmt Hz [Hst Hv]. set (d := 2 ^ l). assert (Hd : 0 < d) by apply pow_pos. assert (Hb := pow_4 l). fold d in Hb.
  assert (Hq : 256 = 2 ^ (8 - S (S l)) * (d * 4)) by (rewrite <- Hb, <- Nat.pow_add_r; replace (8 - S (S l) + S (S l)) with 8 by lia; reflexivity).
  destruct (pass_ok 0%N res is_byte 256 256 (d * 4) (2 ^ (8 - S (S l))) mtrunc ltac:(lia) Hq (le_n _) Hmt (fun _ => true) (fun _ => had4 d)
    (fun r data => for_loop r (r + d) (fun off => fwht48 off d) data)) with (work := st) as (st' & E & Hst' & Hv' & _); auto.
  - intros _ v w o Ho H. destruct (four_parts d o Hd Ho) as (e & p & He & Hp & ->). apply had4_fours; auto. intros e' He'. apply H. nia.
  - intros j w Hj Hw. apply (block_ok 0%N res is_byte 256 (j * (d * 4)) d); auto; [nia | now apply had4_fours |].
    intros w' p Hw' Hp. apply fwht48_ok; auto. nia.
  - exists st'. split; [exact E |]. split; [auto |]. intros k j o Hj Ho. rewrite Hb in Ho |- *. destruct (four_parts d o Hd Ho) as (e & p & He & Hp & ->).
    assert (Hj' : j * 4 + e < 2 ^ (8 - l)) by (replace (8 - l) with (S (S (8 - S (S l)))) by lia; rewrite pow_4; lia).
    rewrite Hv' by auto. destruct (Nat.ltb_spec (j * (d * 4)) mtrunc) as [Hlt|Hge]; cbn [andb].
    + rewrite wht_4 by auto. fold d. apply had2_mod; auto. intros e' He'.
      assert (Hje : j * 4 + e' < 2 ^ (8 - l)) by (replace (8 - l) with (S (S (8 - S (S l)))) by lia; rewrite pow_4; lia).
      replace (j * (d * 4) + (e' * d + p)) with ((j * 4 + e') * d + p) by lia. unfold d. rewrite Hv by auto. fold d. rewrite Z.mod_mod by lia.
      rewrite part_mod by auto. replace ((e' * d + p) / d) with e' by (rewrite Nat.div_add_l, Nat.div_small by lia; lia).
      f_equal. apply wht_ext; [intros i Hi; f_equal; lia | auto].
    + replace (j * (d * 4) + (e * d + p)) with ((j * 4 + e) * d + p) by lia. unfold d. rewrite Hv by auto. fold d.
      rewrite !wht_zero; auto; try (rewrite Hb; lia); intros i Hi; apply Hz; rewrite ?Hb in Hi; fold d in Hi; nia.
Qed.

Lemma fwht8_ok data mtrunc : bytes 256 data -> mtrunc <= 256 -> (forall i, mtrunc <= i < 256 -> nth i data 0%N = 0%N) ->
  exists data', fwht8 data mtrunc = Ret data' /\ bytes 256 data' /\
    forall i, i < 256 -> (Z.of_N (nth i data' 0%N) mod 255 = wht 8 (fun i => Z.of_N (nth i data 0%N)) i mod 255)%Z.
Proof.
  intros Hw Hmt Hz. unfold fwht8. set (z := fun i => Z.of_N (nth i data 0%N)). apply oc_ret.
  eapply oc_bind; [apply while_rule with (I := fun '(dist, st) => exists l, l <= 8 /\ Nat.Even l /\ dist = 2 ^ l /\ walsh_done z l st) (m := fun '(dist, _) => 8 - Nat.log2 dist) |].
  - exists 0. split; [lia |]. split; [now exists 0 |]. split; [auto |]. split; [auto |]. intros k j o Hj Ho. cbn [wht]. unfold val, z. reflexivity.
  - unfold bitwidth8. cbn. lia.
  - intros [dist st] (l & Hl & He & -> & Hinv) Hc%Nat.leb_le. change order8 with (2 ^ 8) in Hc. rewrite <- pow_4 in Hc. apply Nat.pow_le_mono_r_iff in Hc; [| lia].
    destruct (fwht_pass_ok z l mtrunc st Hc Hmt) as (st' & E & Hinv'); auto; [intros i Hi; unfold z; now rewrite Hz |].
    rewrite E. cbn [bind oc_spec]. rewrite <- pow_4. split; [exists (S (S l)); split; [auto |]; split; [now apply Nat.Even_succ_succ | auto] |]. rewrite !Nat.log2_pow2; lia.
  - intros [dist st] [(l & Hl & He & -> & Hinv) Hc%Nat.leb_gt]. change order8 with (2 ^ 8) in Hc. rewrite <- pow_4 in Hc. apply Nat.pow_lt_mono_r_iff in Hc; [| lia].
    assert (l = 8) as -> by (destruct He as [h Hh]; lia). destruct Hinv as [Hst Hv]. cbn [oc_spec]. split; [auto |]. intros i Hi.
    assert (E := Hv tt 0 i ltac:(cbn; lia) Hi). exact E.
Qed.
End Walsh.

(** ** The locator *)

(** The logarithm of a byte, 0 for 0 *)
Definition log0 (a : N) : N := if (a =? 0)%N then 0%N else at_byte logLUT8 a.

Lemma logWalsh8_is : fwht8 (map log0 bytes256) 256 = Ret logWalsh8.
Proof. vm_compute. reflexivity. Qed.

Lemma log0_byte a : (a < 256)%N -> (log0 a < 256)%N.
Proof.
  intros Ha. unfold log0. destruct (N.eqb_spec a 0); [lia |]. destruct (phi_log a Ha ltac:(auto)). lia.
Qed.

Lemma log0_table : wok (fun x => (x < 256)%N) 256 (map log0 bytes256).
Proof.
  split; [reflexivity |]. apply Forall_forall. intros x (a & <- & Ha)%in_map_iff. apply log0_byte. now apply in_bytes256.
Qed.

Lemma nth_log0 i : i < 256 -> nth i (map log0 bytes256) 0%N = log0 (N.of_nat i).
Proof. intros Hi. rewrite <- (Nat2N.id i) at 1. apply nth_bytes256. lia. Qed.

(** The transform modulo 255 *)
Lemma wht_mod l : forall v w i, i < 2 ^ l -> (forall j, j < 2 ^ l -> (v j mod 255 = w j mod 255)%Z) -> (wht l v i mod 255 = wht l w i mod 255)%Z.
Proof.
  induction l as [|l IH]; intros v w i Hi H; [apply H; auto |]. rewrite !wht_S. unfold had. rewrite Nat.pow_succ_r' in Hi, H.
  assert (Hlo : forall p, p < 2 ^ l -> (wht l v p mod 255 = wht l w p mod 255)%Z) by (intros p Hp; apply IH; auto; intros j Hj; apply H; lia).
  assert (Hhi : forall p, p < 2 ^ l -> (wht l (fun o => v (2 ^ l + o)%nat) p mod 255 = wht l (fun o => w (2 ^ l + o)%nat) p mod 255)%Z)
    by (intros p Hp; apply IH; auto; intros j Hj; apply H; lia).
  halves; first [rewrite Z.add_mod, (Z.add_mod (wht l w _)) by lia | rewrite Zminus_mod, (Zminus_mod (wht l w _))]; now rewrite Hlo, Hhi by lia.
Qed.

(** The middle of [locator]: the product of the transforms *)
Lemma locator_product errLocs : wok (fun x => (x < 256)%N) 256 errLocs ->
  exists errLocs', @for_loop rsError _ 0 order8 (fun i errLocs => e <- idx errLocs i ;; w <- idx logWalsh8 i ;; upd errLocs i ((e * w) mod modulus8)%N) errLocs = Ret errLocs' /\
    wok (fun x => (x < 256)%N) 256 errLocs' /\ forall i, i < 256 -> nth i errLocs' 0%N = ((nth i errLocs 0 * nth i logWalsh8 0) mod 255)%N.
Proof.
  intros [Hl Hw].
  destruct (@for_update rsError N (fun i e => w <- idx logWalsh8 i ;; Ret ((e * w) mod modulus8)%N) (fun i e => ((e * nth i logWalsh8 0) mod 255)%N) 0%N 0 256 errLocs)
    as (e2 & E2 & L2 & V2).
  { lia. } { intros i Hi. rewrite (idx_nth 0%N) by (change (length logWalsh8) with 256; lia). reflexivity. }
  assert (V2' : forall i, i < 256 -> nth i e2 0%N = ((nth i errLocs 0 * nth i logWalsh8 0) mod 255)%N).
  { intros i Hi. rewrite V2, (proj2 (Nat.ltb_lt i 256)) by auto. reflexivity. }
  exists e2. split; [| split; [split; [lia |] | auto]].
  - rewrite <- E2. apply for_loop_ext. intros i st. destruct (@idx rsError N st i); cbn [bind]; auto. destruct (@idx rsError N logWalsh8 i); reflexivity.
  - apply Forall_nth. intros i d Hi. rewrite (nth_indep _ _ 0%N), V2' by lia. assert (H1 := N.mod_lt (nth i errLocs 0 * nth i logWalsh8 0)%N 255%N). lia.
Qed.

(** [locator] sums the logarithms of the differences to the places that are marked. *)
Lemma locator_ok errLocs mtrunc : wok (fun x => (x < 256)%N) 256 errLocs -> mtrunc <= 256 -> (forall i, mtrunc <= i < 256 -> nth i errLocs 0%N = 0%N) ->
  exists locs, locator errLocs mtrunc = Ret locs /\ wok (fun x => (x < 256)%N) 256 locs /\
    forall i, i < 256 -> (Z.of_N (nth i locs 0%N) mod 255 =
      zsum 256 (fun j => Z.of_N (nth j errLocs 0%N) * Z.of_N (log0 (N.of_nat (Nat.lxor i j)))) mod 255)%Z.
Proof.
  intros Hw Hmt Hz. unfold locator. destruct (fwht8_ok errLocs mtrunc Hw Hmt Hz) as (e1 & -> & Hw1 & V1). cbn [bind].
  destruct (fwht8_ok (map log0 bytes256) 256 log0_table (le_n _) ltac:(lia)) as (lw & El & Hlw & Vl). rewrite logWalsh8_is in El. injection El as <-.
  destruct (locator_product e1 Hw1) as (e2 & -> & Hw2 & V2). cbn [bind].
  destruct (fwht8_ok e2 order8 Hw2 (le_n _) ltac:(unfold order8; lia)) as (e3 & -> & Hw3 & V3). exists e3. split; [auto |]. split; [auto |].
  intros i Hi. rewrite V3 by auto. set (a := fun i => Z.of_N (nth i errLocs 0%N)). set (b := fun i => Z.of_N (log0 (N.of_nat i))).
  transitivity (conv 8 a b i mod 255)%Z; [| now rewrite (conv_sum 8 a b i) by (cbn; lia)].
  rewrite (wht_mod 8 _ (wht 8 (conv 8 a b))).
  - rewrite wht_wht by auto. change (Z.of_nat (2 ^ 8)) with (1 + 1 * 255)%Z.
    rewrite Z.mul_add_distr_r, Z.mul_1_l, Z.mul_1_l, (Z.mul_comm 255). apply Z.mod_add. lia.
  - auto.
  - intros j Hj. change (2 ^ 8) with 256 in Hj. rewrite V2 by auto. rewrite wht_conv by auto.
    rewrite N2Z.inj_mod, N2Z.inj_mul. change (Z.of_N 255) with 255%Z. rewrite Z.mod_mod, Z.mul_mod, V1, Vl by (auto; lia).
    rewrite (wht_ext 8 (fun i => Z.of_N (nth i (map log0 bytes256) 0%N)) b) by (auto; intros k Hk; unfold b; now rewrite nth_log0).
    now rewrite <- Z.mul_mod by lia.
Qed.
