(* ===== verification/Leopard8Kernels.v ===== *)
(** * The kernels of the 8-bit Leopard encoder

    On shards of a multiple of 64 bytes the kernels work on every byte. *)
From Stdlib Require Import List Arith NArith ZArith Lia Bool.
From S2P Require Import Prelude Galois RSTypes Matrix LeopardFFT Leopard8 Leopard8Field.
Import ListNotations.

(** A buffer of [sz] bytes, a multiple of 64 *)
Definition buffer8 (sz : nat) (x : list N) : Prop := length x = sz /\ bytes_ok x.

Lemma refMulAdd8_spec x y l : length x = length y -> length x mod 64 = 0 ->
  refMulAdd8 x y l = Ret (map2 (fun d y1 => N.lxor d (at_byte (mul8LUT l) y1)) x y).
Proof.
  intros Hl Hm. unfold refMulAdd8. set (f := fun d y1 => N.lxor d (at_byte (mul8LUT l) y1)).
  match goal with |- context [while_loop ?fuel ?c ?b ?st0] => assert (H : oc_spec (while_loop fuel c b st0)
    (fun '(x', y', done) => (length x' = length y' /\ length x' mod 64 = 0 /\ done ++ map2 f x' y' = map2 f x y) /\ (64 <=? length x') = false)
    (fun _ : rsError => False)) end.
  - eapply oc_weaken with (Q := fun _ => False); [apply while_rule with (I := fun '(x', y', done) => length x' = length y' /\ length x' mod 64 = 0 /\ done ++ map2 f x' y' = map2 f x y)
      (m := fun '(x', _, _) => length x') | intros [[x' y'] done] H; exact H | intros e []].
    + auto.
    + cbn. lia.
    + intros [[x' y'] done] (H1 & H2 & H3) Hc%Nat.leb_le. destruct (Nat.ltb_spec (length y') 64); [lia |]. cbn [oc_spec].
      rewrite !length_skipn. split; [| lia]. split; [lia |]. split.
      * apply Nat.Div0.mod_divides in H2 as [c Hc']. replace (length x' - 64) with ((c - 1) * 64) by lia. apply Nat.Div0.mod_mul.
      * rewrite <- app_assoc, <- map2_app by (rewrite !length_firstn; lia). now rewrite !firstn_skipn.
  - destruct (while_loop _ _ _ _) as [[[x' y'] done]| | |]; cbn [oc_spec] in H; try tauto. destruct H as [(H1 & H2 & H3) Hc%Nat.leb_gt]. cbn [bind].
    rewrite Nat.mod_small in H2 by lia. destruct x'; [| discriminate]. now rewrite <- H3.
Qed.

Lemma refMul8_spec x y l : length x = length y -> length x mod 64 = 0 -> refMul8 x y l = Ret (map (at_byte (mul8LUT l)) y).
Proof.
  intros Hl Hm. unfold refMul8, for_step. set (f := at_byte (mul8LUT l)).
  apply Nat.Div0.mod_divides in Hm as [c Hc]. replace ((length x + 64 - 1) / 64) with c by (apply (Nat.div_unique _ _ _ 63); lia).
  match goal with |- context [for_loop 0 c ?b x] => assert (H : oc_spec (for_loop 0 c b x)
    (fun st => st = map f (firstn (c * 64) y) ++ skipn (c * 64) x) (fun _ : rsError => False)) end.
  - apply for_loop_rule with (I := fun i st => st = map f (firstn (i * 64) y) ++ skipn (i * 64) x); [lia | reflexivity |].
    intros i s [_ Hi] ->. assert (Hlen : length (map f (firstn (i * 64) y)) = i * 64) by (rewrite length_map, length_firstn; lia).
    assert (Hlen2 : length (map f (firstn (i * 64) y) ++ skipn (i * 64) x) = length x) by (rewrite length_app, length_skipn; lia).
    destruct (Nat.ltb_spec (length y) (i * 64 + 64)); [lia |]. rewrite Hlen2. destruct (Nat.ltb_spec (length x) (i * 64 + 64)); [lia |]. cbn [orb oc_spec].
    rewrite firstn_app, Hlen, Nat.sub_diag, firstn_O, app_nil_r, firstn_all2 by lia.
    rewrite skipn_app, Hlen, skipn_all2, skipn_skipn by lia. cbn [app]. rewrite app_assoc, <- map_app. f_equal.
    + f_equal. unfold sub_list. replace (S i * 64) with (i * 64 + 64) by lia. rewrite firstn_add. do 2 f_equal. lia.
    + f_equal. lia.
  - destruct (for_loop _ _ _ _); cbn [oc_spec] in H; try tauto. rewrite H, firstn_all2, skipn_all2, app_nil_r by lia. reflexivity.
Qed.

Section Buffers.
Context (sz : nat) (Hsz : sz mod 64 = 0).
Local Abbreviation buffer8 := (buffer8 sz).

Lemma buffer_xor x y : buffer8 x -> buffer8 y -> @sliceXorGo rsError x y = Ret (xorBytes x y) /\ buffer8 (xorBytes x y).
Proof.
  intros [Lx Bx] [Ly By]. split; [apply sliceXorGo_spec; auto; lia |]. split; [unfold xorBytes; rewrite length_map2; lia |].
  apply Forall_nth. intros i d Hi. unfold xorBytes in Hi |- *. rewrite length_map2 in Hi. rewrite nth_map2 with (d1 := 0%N) (d2 := 0%N) by lia.
  apply byte_lxor; now apply bytes_ok_nth.
Qed.

Lemma buffer_muladd x y l : buffer8 x -> buffer8 y -> (l < 256)%N -> exists z, refMulAdd8 x y l = Ret z /\ buffer8 z /\
  forall k, k < sz -> nth k z 0%N = N.lxor (nth k x 0%N) (at_byte (mul8LUT l) (nth k y 0%N)).
Proof.
  intros [Lx Bx] [Ly By] Hl. rewrite refMulAdd8_spec by congruence. eexists. split; [reflexivity |].
  assert (Hn : forall k, k < sz -> nth k (map2 (fun d y1 => N.lxor d (at_byte (mul8LUT l) y1)) x y) 0%N = N.lxor (nth k x 0%N) (at_byte (mul8LUT l) (nth k y 0%N))).
  { intros k Hk. now rewrite nth_map2 with (d1 := 0%N) (d2 := 0%N) by lia. }
  split; [| exact Hn]. split; [rewrite length_map2; lia |]. apply Forall_nth. intros i d Hi. rewrite length_map2 in Hi.
  rewrite (nth_indep _ _ 0%N) by (rewrite length_map2; lia). rewrite Hn by lia.
  apply byte_lxor; [now apply bytes_ok_nth |]. apply Leopard8Field.mul8LUT_spec; [auto | now apply bytes_ok_nth].
Qed.

Lemma buffer_mul x y l : buffer8 x -> buffer8 y -> (l < 256)%N -> exists z, mulgf8 x y l = Ret z /\ buffer8 z /\
  forall k, k < sz -> nth k z 0%N = at_byte (mul8LUT l) (nth k y 0%N).
Proof.
  intros [Lx Bx] [Ly By] Hl. unfold mulgf8. rewrite refMul8_spec by congruence. eexists. split; [reflexivity |]. split; [split; [rewrite length_map; lia |] |].
  - apply Forall_forall. intros b (a & <- & Ha)%in_map_iff. apply Leopard8Field.mul8LUT_spec; [auto |]. unfold bytes_ok in By. rewrite Forall_forall in By. now apply By.
  - intros k Hk. now rewrite (nth_map_in _ _ 0%N) by lia.
Qed.

Lemma buffer_clear x : length x = sz -> memclr x = repeat 0%N sz /\ buffer8 (repeat 0%N sz).
Proof. intros <-. clear Hsz. split; [induction x; cbn; f_equal; auto |]. split; [apply repeat_length | now apply bytes_ok_repeat]. Qed.

Lemma buffer_copy x y : buffer8 x -> buffer8 y -> copy y x = x.
Proof. intros [Lx _] [Ly _]. unfold copy. rewrite firstn_all2, skipn_all2 by lia. apply app_nil_r. Qed.
End Buffers.
