(* ===== verification/Leopard8Space.v ===== *)
(** * The bytes of the 8-bit Leopard encoder as elements of GF(2^8)

    The transforms of the encoder on one byte of every buffer8 are the transforms of
    LeopardNetwork over this field, with the points that the changed basis gives.
    The statements use the field's operations as functions, without MathComp's
    notations. *)
From HB Require Import structures.
From mathcomp Require Import boot.
From mathcomp Require Import ssralg poly.
From Stdlib Require Import NArith ZArith Lia.
From S2P Require Import Prelude GaloisField LeopardFFT LeopardNetwork LeopardPoly Leopard8 Leopard8Field Leopard8Kernels Leopard8Walsh.
From S2P Require Galois.

Set Implicit Arguments.
Unset Strict Implicit.
Unset Printing Implicit Defensive.

Import GRing.Theory.
Local Open Scope ring_scope.

(** ** Elements *)

Definition elem (a : N) : gf := toGF (phi a).
Definition elem_at (k : nat) (x : list N) : gf := elem (List.nth k x 0%N).
(** The place [a] of the work area *)
Definition point (a : nat) : gf := elem (N.of_nat a).
Definition weight (lg : N) : gf := toGF (factor lg).
Definition gf0 : gf := toGF 0.
Definition skew8 (l b : nat) : gf := toGF (level l (phi (N.of_nat b))).

Local Abbreviation pow l := (Nat.pow 2 l).

Lemma phi_small a : byte_ok (phi a).
Proof.
  rewrite /phi /combination /=. repeat (apply: Galois.byte_lxor; [by case: (N.testbit _ _) |]). by [].
Qed.

Lemma elem_lxor a b : elem (N.lxor a b) = gf_add (elem a) (elem b).
Proof. by rewrite /elem phi_lxor toGF_lxor //; apply: phi_small. Qed.

Lemma elem0 : elem 0 = gf0. Proof. by []. Qed.

Lemma elem_inj a b : byte_ok a -> byte_ok b -> elem a = elem b -> a = b.
Proof. move=> Ha Hb /toGF_inj H. apply: phi_inj => //. apply: H; apply: phi_small. Qed.

Lemma point_lxor a b : point (Nat.lxor a b) = gf_add (point a) (point b).
Proof. by rewrite /point -elem_lxor lxor_of_nat. Qed.

Lemma addxx (x : gf) : gf_add x x = gf0. Proof. exact: addN. Qed.

Lemma level_byte l x : byte_ok x -> byte_ok (level l x).
Proof.
  elim: l => [|l IH] Hx //=. apply: Galois.galMultiply_byte; first exact: IH. by apply: Galois.byte_lxor; first exact: IH.
Qed.

Lemma level_horner l x : byte_ok x -> toGF (level l x) = (spoly gf l).[toGF x].
Proof.
  move=> Hx. elim: l => [|l IH] /=; first by rewrite hornerX.
  rewrite hornerD horner_exp -IH toGF_mul; [exact: level_byte | by apply: Galois.byte_lxor; first exact: level_byte |].
  by rewrite toGF_lxor //; [exact: level_byte | rewrite mulrDr mulr1 expr2].
Qed.

Lemma skew8_horner l b : skew8 l b = factor_at point l b.
Proof. by rewrite /skew8 level_horner //; apply: phi_small. Qed.

Lemma point_basis l : (l < 8)%coq_nat -> (spoly gf l).[point (pow l)] = 1.
Proof.
  move=> Hl. rewrite -level_horner; first exact: phi_small.
  have -> : N.of_nat (pow l) = N.pow 2 (N.of_nat l) by rewrite Nat2N.inj_pow. by rewrite level_basis.
Qed.

Lemma point_inj a b : (a < pow 8)%coq_nat -> (b < pow 8)%coq_nat -> point a = point b -> a = b.
Proof.
  change (pow 8) with 256%nat. move=> Ha Hb H. apply: Nat2N.inj. apply: elem_inj => //; rewrite /byte_ok /Galois.byte_ok; lia.
Qed.

Lemma fft_gf l b v i : fft +%R *%R (factor_at point) l b v i = fft gf_add gf_mul skew8 l b v i.
Proof.
  elim: l b v i => [|l IH] b v i //=. rewrite skew8_horner. by case: (Nat.ltb _ _); rewrite IH.
Qed.

(** The product of the differences between place [i] and the other places marked,
    among the first [n] *)
Fixpoint differences (err : nat -> bool) (i n : nat) : gf :=
  if n is n.+1 then (if err n && ~~ Nat.eqb n i then gf_mul (differences err i n) (gf_add (point i) (point n)) else differences err i n) else toGF 1.

Lemma differences_prod s l err i : differences err i (pow (Nat.add s l)) = locator_at point s l err i.
Proof.
  rewrite /locator_at /lost. elim: (pow _) => [|n IH]; first by rewrite big_nil.
  rewrite -addn1 iotaD filter_cat big_cat /= addn1 /= IH add0n. case: (err n); last by rewrite big_nil mulr1.
  rewrite big_cons big_nil /= (_ : Nat.eqb n i = (n == i)); first by apply/Nat.eqb_spec/eqP. by case: (n == i); rewrite /= ?mulr1.
Qed.

Lemma differences_neq0 s l err i : (Nat.add s l <= 8)%coq_nat -> (i < pow (Nat.add s l))%coq_nat -> differences err i (pow (Nat.add s l)) <> gf0.
Proof.
  move=> Hsl Hi. rewrite differences_prod. apply/eqP. exact: (locator_neq0 addxx point_inj Hsl).
Qed.

Lemma count_lost err n : length (List.filter err (List.seq 0 n)) = size (filter err (iota 0 n)).
Proof. by elim: n 0%nat => [|n IH] m //=; case: (err m) => /=; rewrite IH. Qed.

(** A codeword with at most [2^l] losses: the transform of what is left, times the
    differences, leads to the lost values times the differences. *)
Lemma lost_values8 s l c err q : (Nat.add s l <= 8)%coq_nat ->
  (forall i, (i < pow l)%coq_nat -> c (Nat.add (Nat.mul (Nat.sub (pow s) 1) (pow l)) i) = gf0) ->
  (length (List.filter err (List.seq 0 (pow (Nat.add s l)))) <= pow l)%coq_nat ->
  (forall i, (i < pow (Nat.add s l))%coq_nat -> fft gf_add gf_mul skew8 (Nat.add s l) 0 q i =
    if err i then gf0 else gf_mul (differences err i (pow (Nat.add s l))) (fft gf_add gf_mul skew8 (Nat.add s l) 0 c i)) ->
  forall i, (i < pow (Nat.add s l))%coq_nat -> err i = true ->
  fft gf_add gf_mul skew8 (Nat.add s l) 0 (dplus gf_add (Nat.add s l) q) i =
    gf_mul (differences err i (pow (Nat.add s l))) (fft gf_add gf_mul skew8 (Nat.add s l) 0 c i).
Proof.
  move=> Hsl Hc Hlost Hq i Hi Ei. have Hsize : (size (lost s l err) <= pow l)%nat by apply/leP; rewrite /lost -count_lost.
  have H := @lost_values gf addxx 8 point elem0 point_lxor point_inj point_basis s l Hsl c Hc err Hsize q _ i Hi Ei.
  rewrite -!fft_gf differences_prod. apply: H => j Hj. rewrite !fft_gf -differences_prod. exact: Hq.
Qed.

(** ** The laws of the field, without notations *)

Lemma gadd0 x : gf_add x gf0 = x.
Proof. exact: (addr0 x). Qed.
Lemma gmul0 x : gf_mul gf0 x = gf0.
Proof. exact: (mul0r x). Qed.
Lemma gmulz x : gf_mul x gf0 = gf0.
Proof. exact: (mulr0 x). Qed.
Lemma gaddA x y z : gf_add x (gf_add y z) = gf_add (gf_add x y) z.
Proof. exact: (addrA x y z). Qed.
Lemma gaddC x y : gf_add x y = gf_add y x.
Proof. exact: (addrC x y). Qed.
Lemma gmulD w x y : gf_mul w (gf_add x y) = gf_add (gf_mul w x) (gf_mul w y).
Proof. exact: (mulrDr w x y). Qed.
Lemma gmulA x y z : gf_mul x (gf_mul y z) = gf_mul (gf_mul x y) z.
Proof. exact: (mulrA x y z). Qed.
Lemma gmulC x y : gf_mul x y = gf_mul y x.
Proof. exact: (mulrC x y). Qed.
Lemma gmul1 x : gf_mul (toGF 1) x = x.
Proof. exact: (mul1r x). Qed.

Lemma gf_mul_bytes a b : byte_ok a -> byte_ok b -> toGF (Galois.galMultiply a b) = gf_mul (toGF a) (toGF b).
Proof. exact: toGF_mul. Qed.

(** A power of the generator *)
Definition power (e : nat) : gf := toGF (Galois.xpow e).

Lemma power_add a b : power (Nat.add a b) = gf_mul (power a) (power b).
Proof. by rewrite /power -Galois.galMultiply_xpow toGF_mul //; apply: Galois.xpow_byte. Qed.

Lemma power_mod a : power a = power (Nat.modulo a 255).
Proof. by rewrite /power Galois.xpow_mod. Qed.

Lemma power_mul a c l : phi c = Galois.galMultiply (phi a) (Galois.xpow l) -> elem c = gf_mul (elem a) (power l).
Proof. by move=> E; rewrite /elem E gf_mul_bytes //; [exact: phi_small | exact: Galois.xpow_byte]. Qed.

Lemma gf_add_eq x y : gf_add x y = gf0 -> x = y.
Proof. by move=> H; rewrite -[x]gadd0 -(addxx y) gaddA H gaddC gadd0. Qed.
