(* ===== verification/Leopard8Buffers.v ===== *)
(** * The buffers of the 8-bit Leopard encoder

    The kernels and the transforms of Leopard8 on buffers of a multiple of 64
    bytes, byte by byte over GF(2^8). *)
From Stdlib Require Import List Arith NArith ZArith Lia Bool.
From S2P Require Import Prelude Galois RSTypes Matrix GaloisField LeopardFFT LeopardNetwork Leopard8 Leopard8Codec Leopard8Field Leopard8Kernels Leopard8Walsh Leopard8Space.
Import ListNotations.

Local Abbreviation log_ok := (fun l => (l < 256)%N).

(** ** Kernels *)
Section Buffers.
Context (sz : nat) (Hsz : sz mod 64 = 0).
Local Abbreviation ok := (buffer8 sz).

Lemma byte_at_beyond k x : ok x -> sz <= k -> elem_at k x = gf0.
Proof. intros [L _] Hk. unfold elem_at. rewrite nth_overflow by lia. reflexivity. Qed.

Lemma xor_ok x y : ok x -> ok y -> exists z, @sliceXorGo rsError x y = Ret z /\ ok z /\ forall k, elem_at k z = gf_add (elem_at k y) (elem_at k x).
Proof.
  intros Hx Hy. destruct (buffer_xor sz Hsz x y Hx Hy) as [E Hz]. eexists. split; [exact E |]. split; [exact Hz |].
  intros k. destruct (Nat.lt_ge_cases k sz) as [Hk|Hk]; [| rewrite !byte_at_beyond by auto; symmetry; apply gadd0].
  destruct Hx, Hy. unfold elem_at, xorBytes. rewrite nth_map2 with (d1 := 0%N) (d2 := 0%N) by lia. apply elem_lxor.
Qed.

Lemma weight_power l : l <> modulus8 -> weight l = power (N.to_nat l).
Proof. intros H. unfold weight, factor. now destruct (N.eqb_spec l modulus8). Qed.

Lemma weight_modulus : weight modulus8 = gf0.
Proof. reflexivity. Qed.

Lemma mul8LUT_elem l a : (l < 256)%N -> (a < 256)%N -> elem (at_byte (mul8LUT l) a) = gf_mul (elem a) (power (N.to_nat l)).
Proof. intros Hl Ha. apply power_mul. now apply mul8LUT_spec. Qed.

Lemma muladd_ok x y l : ok x -> ok y -> (l < 256)%N -> l <> modulus8 ->
  exists z, refMulAdd8 x y l = Ret z /\ ok z /\ forall k, elem_at k z = gf_add (elem_at k x) (gf_mul (weight l) (elem_at k y)).
Proof.
  intros Hx Hy Hl Hne. destruct (buffer_muladd sz Hsz x y l Hx Hy Hl) as (z & E & Hz & V). exists z. split; [auto |]. split; [auto |].
  intros k. destruct (Nat.lt_ge_cases k sz) as [Hk|Hk]; [| rewrite !byte_at_beyond, gmulz by auto; symmetry; apply gadd0].
  unfold elem_at. rewrite V, elem_lxor, mul8LUT_elem, weight_power by (auto; apply bytes_ok_nth; now destruct Hy). f_equal. apply gmulC.
Qed.

Lemma mul_ok x y l : ok x -> ok y -> (l < 256)%N -> exists z, mulgf8 x y l = Ret z /\ ok z /\ forall k, elem_at k z = gf_mul (power (N.to_nat l)) (elem_at k y).
Proof.
  intros Hx Hy Hl. destruct (buffer_mul sz Hsz x y l Hx Hy Hl) as (z & E & Hz & V). exists z. split; [auto |]. split; [auto |].
  intros k. destruct (Nat.lt_ge_cases k sz) as [Hk|Hk]; [| rewrite !byte_at_beyond, gmulz by auto; reflexivity].
  unfold elem_at. rewrite V, mul8LUT_elem by (auto; apply bytes_ok_nth; now destruct Hy). apply gmulC.
Qed.

Lemma clear_ok x : ok x -> ok (memclr x) /\ forall k, elem_at k (memclr x) = gf0.
Proof.
  intros [Lx _]. destruct (buffer_clear sz Hsz x Lx) as [-> H]. split; [auto |]. intros k. unfold elem_at.
  destruct (nth_in_or_default k (repeat 0%N sz) 0%N) as [Hin| ->]; [apply repeat_spec in Hin; rewrite Hin |]; reflexivity.
Qed.

Lemma copy_ok x y : ok x -> ok y -> ok (copy y x) /\ forall k, elem_at k (copy y x) = elem_at k x.
Proof. intros Hx Hy. rewrite (buffer_copy sz Hsz x y Hx Hy). auto. Qed.
End Buffers.

(** ** The tables of factors *)

Lemma level_small l j m : S j * 2 ^ S l <= m -> m <= 256 -> l < 8.
Proof.
  intros H Hm. apply Nat.nle_gt. intros Hl. assert (2 ^ 8 <= 2 ^ l) by (apply Nat.pow_le_mono_r; lia). change (2 ^ 8) with 256 in *.
  rewrite Nat.pow_succ_r' in H. nia.
Qed.

Lemma decoder_table m l j : m <= 256 -> S j * 2 ^ S l <= m ->
  exists lg, nth_error fftSkew8 (j * 2 ^ S l + 2 ^ l - 1) = Some lg /\ log_ok lg /\ weight lg = skew8 l (j * 2 ^ S l).
Proof.
  intros Hm H. destruct (skew_ok l j) as (lg & E & B & F); [now apply (level_small l j m) | lia |].
  exists lg. split; [auto |]. split; [auto |]. unfold weight. now rewrite F.
Qed.

(** The encoder's table starts at block [q]. *)
Lemma encoder_table K0 q l j : 0 < q -> S q * 2 ^ K0 <= 256 -> S j * 2 ^ S l <= 2 ^ K0 ->
  exists lg, nth_error (skipn (q * 2 ^ K0 - 1) fftSkew8) (j * 2 ^ S l + 2 ^ l + 1 - 1) = Some lg /\ log_ok lg /\
    weight lg = skew8 l (q * 2 ^ K0 + j * 2 ^ S l).
Proof.
  intros Hq Hm H. assert (Hk : S l <= K0) by (apply (Nat.pow_le_mono_r_iff 2); nia).
  assert (E2 : 2 ^ K0 = 2 ^ (K0 - S l) * 2 ^ S l) by (rewrite <- Nat.pow_add_r; f_equal; lia).
  assert (Hp := pow_pos K0). assert (Hp2 := pow_pos l).
  destruct (decoder_table 256 l (q * 2 ^ (K0 - S l) + j) (le_n _)) as (lg & E & B & F); [nia |].
  exists lg. rewrite nth_error_skipn. split; [rewrite <- E; f_equal; nia |]. split; [auto |]. rewrite F. f_equal. nia.
Qed.

(** ** The transforms *)
Section Transforms.
Context (sz : nat) (Hsz : sz mod 64 = 0).
Local Abbreviation wok8 n := (wok (buffer8 sz) n).
Local Abbreviation val8 := (val [] elem_at).
Local Abbreviation fft8 := (fft gf_add gf_mul skew8).

Lemma fft_layers8_ok needed need n K0 mtrunc work : 2 ^ K0 <= n -> 2 ^ K0 <= 256 -> mtrunc <= 2 ^ K0 ->
  (forall l b, b < 2 ^ K0 -> needed l b = Ret (need l b)) -> wok8 n work ->
  exists work', fft_layers sliceXorGo refMulAdd8 modulus8 needed work mtrunc (2 ^ K0) fftSkew8 = Ret work' /\ wok8 n work' /\
    forall k i, tracked need K0 mtrunc i -> val8 work' k i = fft8 K0 0 (val8 work k) i.
Proof.
  intros Hn Hm Ht Hneed Hw.
  destruct (fft_layers_ok sliceXorGo refMulAdd8 modulus8 [] gf0 gf_add gf_mul skew8 gadd0 gmul0 elem_at (buffer8 sz) log_ok weight (xor_ok sz Hsz) (muladd_ok sz Hsz)
    weight_modulus fftSkew8 needed need n (2 ^ K0) K0 mtrunc eq_refl Hn Ht Hneed (fun l j => decoder_table (2 ^ K0) l j Hm) work Hw) as (work' & E & Hw' & V & _).
  exists work'. auto.
Qed.

Lemma fftDIT8_ok n K0 mtrunc work : 2 ^ K0 <= n -> 2 ^ K0 <= 256 -> mtrunc <= 2 ^ K0 -> wok8 n work ->
  exists work', fftDIT8 work mtrunc (2 ^ K0) fftSkew8 = Ret work' /\ wok8 n work' /\ forall k i, i < mtrunc -> val8 work' k i = fft8 K0 0 (val8 work k) i.
Proof.
  intros Hn Hm Ht Hw. destruct (fft_layers8_ok (fun _ _ => Ret true) (fun _ _ => true) n K0 mtrunc work) as (work' & E & Hw' & V); auto.
  exists work'. split; [exact E |]. split; [auto |]. intros k i Hi. apply V. split; auto.
Qed.

Lemma ifftDITDecoder8_ok n K0 mtrunc work : 2 ^ K0 <= n -> 2 ^ K0 <= 256 -> mtrunc <= 2 ^ K0 -> wok8 n work ->
  (forall k i, mtrunc <= i < 2 ^ K0 -> val8 work k i = gf0) ->
  exists work', ifftDITDecoder8 mtrunc work (2 ^ K0) fftSkew8 = Ret work' /\ wok8 n work' /\
    forall k i, i < 2 ^ K0 -> fft8 K0 0 (val8 work' k) i = val8 work k i.
Proof.
  intros Hn Hm Ht Hw Hz.
  destruct (ifft_layers_ok sliceXorGo refMulAdd8 modulus8 [] gf0 gf_add gf_mul skew8 gadd0 gmul0 elem_at (buffer8 sz) log_ok weight (xor_ok sz Hsz) (muladd_ok sz Hsz)
    weight_modulus gaddA addxx gmulz fftSkew8 0 0 n (2 ^ K0) K0 mtrunc eq_refl Hn Ht) with (work := work) as (work' & E & Hw' & V & _); auto.
  - intros l j Hj. rewrite Nat.add_0_r. now apply (decoder_table (2 ^ K0)).
  - exists work'. auto.
Qed.

Lemma formal_derivative8_ok n l work : 2 ^ l <= n -> wok8 n work ->
  exists work', formal_derivative sliceXorGo (2 ^ l) work = Ret work' /\ wok8 n work' /\ forall k x, x < 2 ^ l -> val8 work' k x = dplus gf_add l (val8 work k) x.
Proof. intros Hn Hw. apply (formal_derivative_ok sliceXorGo [] gf_add elem_at (buffer8 sz) (xor_ok sz Hsz)); auto. Qed.

(** The coefficients of a block of the data *)
Definition block_coefficients (K0 q : nat) (v : nat -> gf) : nat -> gf := ifft gf_add gf_mul skew8 K0 (q * 2 ^ K0) v.

Lemma ifftDITEncoder8_ok K0 q mtrunc data w (xorRes : bool) n work : 0 < q -> S q * 2 ^ K0 <= 256 -> mtrunc <= 2 ^ K0 -> wok8 n work -> w + 2 ^ K0 <= n ->
  (forall i, i < mtrunc -> exists x, nth_error data i = Some x /\ buffer8 sz x) -> (if xorRes then 2 ^ K0 <= w else w = 0) ->
  exists work', ifftDITEncoder8 data mtrunc w xorRes (2 ^ K0) (skipn (q * 2 ^ K0 - 1) fftSkew8) work = Ret work' /\ wok8 n work' /\
    forall k i, i < 2 ^ K0 ->
      let f := block_coefficients K0 q (fun i => if i <? mtrunc then elem_at k (nth i data []) else gf0) i in
      val8 work' k i = if xorRes then gf_add (val8 work k i) f else f.
Proof.
  intros Hq Hm Ht Hw Hn Hdata Hx.
  destruct (ifftDITEncoder_ok sliceXorGo refMulAdd8 modulus8 [] gf0 gf_add gf_mul skew8 gadd0 gmul0 elem_at (buffer8 sz) log_ok weight (xor_ok sz Hsz) (muladd_ok sz Hsz)
    weight_modulus gaddA addxx gmulz copy memclr (copy_ok sz Hsz) (clear_ok sz Hsz) (skipn (q * 2 ^ K0 - 1) fftSkew8) (q * 2 ^ K0) n (2 ^ K0) K0 mtrunc eq_refl Ht
    (fun l j => encoder_table K0 q l j Hq Hm) data w xorRes work Hw Hn Hdata Hx) as (work' & f & E & Hw' & Hf & V).
  exists work'. split; [exact E |]. split; [auto |]. intros k i Hi. cbv zeta. rewrite V by auto.
  assert (Ef : f k i = block_coefficients K0 q (fun i => if i <? mtrunc then elem_at k (nth i data []) else gf0) i).
  { revert i Hi. apply (fft_inj gf0 gf_add gf_mul skew8 gaddA gadd0 addxx K0 (q * 2 ^ K0)). intros i Hi. rewrite Hf by auto. symmetry.
    unfold block_coefficients. now rewrite (fft_ifft gf0) by (auto using gaddA, gadd0, addxx). }
  now rewrite Ef.
Qed.
End Transforms.
