(* ===== verification/Leopard8Correct.v ===== *)
(** * Encode and Verify of the 8-bit Leopard encoder

    The parity shards and the data shards, padded with zeros, are the values of a
    polynomial whose last block of coefficients is zero.  [Encode] replaces the parity
    shards by those that complete such a codeword at every byte; the data decides them,
    so that [Verify] decides codewords. *)
From Stdlib Require Import List Arith NArith ZArith Lia Bool.
From S2P Require Import Prelude Galois RSTypes Matrix Options LeopardTypes Coding Codec LeopardFFT Leopard8 Leopard8Codec.
From S2P Require Import GaloisField CodecCorrect LeopardNetwork Leopard8Field Leopard8Walsh Leopard8Kernels Leopard8Space.
From S2P Require Import Leopard8Buffers.
Import ListNotations.

(** ** Codewords *)

Local Abbreviation fft8 := (fft gf_add gf_mul skew8).
Local Abbreviation val8 := (val [] elem_at).
Local Abbreviation vsum8 := (vsum gf0 gf_add).

(** [2^s] blocks of [2^l] places: [p] of parity and, from the second block on, [d]
    of data.  The other places of the first block may hold anything. *)
Definition leopard_codeword (s l d p : nat) (v : nat -> gf) : Prop :=
  exists c, (forall i, i < 2 ^ l -> c ((2 ^ s - 1) * 2 ^ l + i) = gf0) /\
    forall i, i < 2 ^ (s + l) -> i < p \/ 2 ^ l <= i -> fft8 (s + l) 0 c i = if i <? 2 ^ l + d then v i else gf0.

Section Sums.
Lemma vsum_zero n f : (forall i, i < n -> f i = gf0) -> vsum8 n f = gf0.
Proof. induction n as [|n IH]; intros H; cbn [vsum]; [reflexivity |]. rewrite IH, H by (auto; lia). apply gadd0. Qed.

Lemma vsum_first n x g : 0 < n -> g 0 = gf0 -> vsum8 n (fun j => if j =? 0 then x else g j) = gf_add x (vsum8 n g).
Proof.
  intros Hn H0. induction n as [|n IH]; [lia |]. destruct n as [|n].
  - cbn [vsum Nat.eqb]. rewrite H0, !gadd0. now rewrite gaddC, gadd0.
  - cbn [vsum] in IH |- *. rewrite IH by lia. cbn [Nat.eqb]. now rewrite !gaddA.
Qed.

(** A sum that its first term closes *)
Lemma vsum_closed n g : 0 < n -> g 0 = gf0 -> vsum8 n (fun j => if j =? 0 then vsum8 n g else g j) = gf0.
Proof. intros Hn H0. rewrite vsum_first by auto. apply addxx. Qed.

Lemma vsum_more a b g : a <= b -> (forall j, a <= j < b -> g j = gf0) -> vsum8 b g = vsum8 a g.
Proof.
  intros Hab Hz. replace b with (a + (b - a)) by lia. rewrite (vsum_add gf0 gf_add) by (auto using gaddA, gadd0).
  rewrite (vsum_zero (b - a)) by (intros i Hi; apply Hz; lia). apply gadd0.
Qed.
End Sums.

Section Blocks.
Context (s l d : nat) (v : nat -> gf).
Local Abbreviation m := (2 ^ l).

(** The coefficients of the block [j] of the data, from 1 on *)
Definition data_block (j : nat) : nat -> gf :=
  block_coefficients l j (fun i => if (j - 1) * m + i <? d then v ((j - 1) * m + i) else gf0).

Definition block_term (i j : nat) : gf := if j =? 0 then gf0 else data_block j i.

Lemma block_term_beyond i j : i < m -> 0 < j -> d <= (j - 1) * m -> block_term i j = gf0.
Proof.
  intros Hi Hj Hd. unfold block_term. rewrite (proj2 (Nat.eqb_neq j 0)) by lia. unfold data_block. revert i Hi.
  apply (fft_inj gf0 gf_add gf_mul skew8 gaddA gadd0 addxx l (j * m) _ (fun _ => gf0)). intros i Hi. unfold block_coefficients.
  rewrite (fft_ifft gf0) by (auto using gaddA, gadd0, addxx). rewrite (proj2 (Nat.ltb_ge _ _)) by lia.
  symmetry. apply (fft_zero gf0); auto using gadd0, gmulz.
Qed.

(** The sum of the blocks' coefficients gives the parity. *)
Lemma blocks_codeword p w : 0 < d -> p <= m -> m + d <= 2 ^ (s + l) ->
  (forall i, i < m -> w i = vsum8 (2 ^ s) (block_term i)) ->
  leopard_codeword s l d p (fun i => if i <? m then fft8 l 0 w i else v (i - m)).
Proof.
  intros Hd Hp Hn Hw. assert (Hm := pow_pos l). assert (Hs := pow_pos s).
  assert (E2 : 2 ^ (s + l) = 2 ^ s * m) by apply Nat.pow_add_r.
  set (V := fun i => if i <? m then fft8 l 0 w i else if i <? m + d then v (i - m) else gf0).
  exists (ifft gf_add gf_mul skew8 (s + l) 0 V). split.
  - intros i Hi. rewrite (fft_last gf0 gf_add gf_mul skew8 gaddA gaddC gadd0 addxx l s 0 _ V (fun j => if j =? 0 then w else data_block j)).
    + rewrite (vsum_ext gf0 gf_add _ _ (fun j => if j =? 0 then vsum8 (2 ^ s) (block_term i) else block_term i j)).
      * apply vsum_closed; [lia | reflexivity].
      * intros j Hj. unfold block_term at 2. destruct (Nat.eqb_spec j 0); [now apply Hw | reflexivity].
    + intros k Hk. now rewrite (fft_ifft gf0) by (auto using gaddA, gadd0, addxx).
    + intros j k Hj Hk. unfold V. destruct (Nat.eqb_spec j 0) as [->|Hj0].
      * cbn [Nat.mul Nat.add]. now rewrite (proj2 (Nat.ltb_lt k m)).
      * rewrite (proj2 (Nat.ltb_ge (j * m + k) m)) by nia. unfold data_block, block_coefficients.
        rewrite (fft_ifft gf0) by (auto using gaddA, gadd0, addxx). replace (j * m + k - m) with ((j - 1) * m + k) by nia.
        destruct (Nat.ltb_spec ((j - 1) * m + k) d), (Nat.ltb_spec (j * m + k) (m + d)); auto; nia.
    + exact Hi.
  - intros i Hi Hcase. rewrite (fft_ifft gf0) by (auto using gaddA, gadd0, addxx). unfold V.
    destruct (Nat.ltb_spec i m), (Nat.ltb_spec i (m + d)); auto; lia.
Qed.
End Blocks.

Lemma block_ext l q v v' i : (forall i, i < 2 ^ l -> v i = v' i) -> i < 2 ^ l -> block_coefficients l q v i = block_coefficients l q v' i.
Proof.
  intros H. revert i. apply (fft_inj gf0 gf_add gf_mul skew8 gaddA gadd0 addxx l (q * 2 ^ l)). intros i Hi. unfold block_coefficients.
  now rewrite !(fft_ifft gf0) by (auto using gaddA, gadd0, addxx); apply H.
Qed.

Lemma slice_from_ret {A} (x : list A) n : n <= length x -> slice_from x n = Ret (skipn n x).
Proof. intros H. unfold slice_from. now rewrite (proj2 (Nat.ltb_ge _ _)). Qed.

(** ** [encode], on the bytes of one piece *)
Section Piece.
Context (r : leopardFF8) (sz s l : nat) (Hsz : sz mod 64 = 0).
Local Abbreviation d := (ff8_dataShards r).
Local Abbreviation p := (ff8_parityShards r).
Local Abbreviation m := (2 ^ l).
Local Abbreviation wok8 n := (wok (buffer8 sz) n).
Context (Hd : 0 < d) (Hp : 0 < p <= m) (Hn : m + d <= 2 ^ (s + l)) (H256 : 2 ^ (s + l) <= 256).
Context (sh : list (list N)) (Hsh : d <= length sh) (Hok : forall i, i < d -> buffer8 sz (nth i sh [])).

Definition data_at (k i : nat) : gf := elem_at k (nth i sh []).
(** The sum of the first blocks *)
Definition blocks (c k i : nat) : gf := vsum8 (S c) (block_term l d (data_at k) i).

Lemma piece_bounds : 0 < m /\ 2 ^ (s + l) = 2 ^ s * m /\ S d / m * m <= S d.
Proof. split; [apply pow_pos |]. split; [apply Nat.pow_add_r |]. rewrite Nat.mul_comm. apply Nat.Div0.mul_div_le. Qed.

(** One call of [ifftDITEncoder8] for block [q] *)
Lemma encode_block q cnt from (xorRes : bool) w work : 0 < q -> q < 2 ^ s -> from = (q - 1) * m -> cnt = Nat.min m (d - from) -> from < d ->
  (if xorRes then w = m else w = 0) -> wok8 (m * 2) work -> (forall k i, i < m -> xorRes = true -> val8 work k i = blocks (q - 1) k i) -> (xorRes = false -> q = 1) ->
  forall data, (forall i, i < cnt -> exists x, nth_error data i = Some x /\ x = nth (from + i) sh []) ->
  exists work', ifftDITEncoder8 data cnt w xorRes m (skipn (q * m - 1) fftSkew8) work = Ret work' /\ wok8 (m * 2) work' /\
    forall k i, i < m -> val8 work' k i = blocks q k i.
Proof.
  intros Hq Hqs -> Hcnt Hfrom Hw Hwork Hval Hx data Hdata. destruct piece_bounds as (Hm & En & _).
  destruct (ifftDITEncoder8_ok sz Hsz l q cnt data w xorRes (m * 2) work) as (work' & E & Hw' & V); auto; try (destruct xorRes; lia).
  - rewrite En in H256. nia.
  - intros i Hi. destruct (Hdata i Hi) as (x & E & ->). eexists. split; [exact E |]. apply Hok. lia.
  - exists work'. split; [exact E |]. split; [auto |]. intros k i Hi. rewrite V by auto.
    assert (Ef : block_coefficients l q (fun i => if i <? cnt then elem_at k (nth i data []) else gf0) i = block_term l d (data_at k) i q).
    { unfold block_term. rewrite (proj2 (Nat.eqb_neq q 0)) by lia. unfold data_block. apply block_ext; [| auto]. intros j Hj.
      destruct (Nat.ltb_spec j cnt) as [Hj1|Hj1], (Nat.ltb_spec ((q - 1) * m + j) d) as [Hj2|Hj2]; try lia; [| auto].
      destruct (Hdata j Hj1) as (x & Ex & ->). apply (nth_error_nth _ _ []) in Ex. now rewrite Ex. }
    rewrite Ef. destruct xorRes.
    + rewrite Hval by auto. unfold blocks. now replace (S (q - 1)) with q by lia.
    + rewrite (Hx eq_refl). unfold blocks. cbn [vsum]. unfold block_term at 2. cbn [Nat.eqb]. now rewrite (gaddC _ (block_term _ _ _ _ 1)), !gadd0.
Qed.

Lemma blocks_done c k i : i < m -> d <= c * m -> c < 2 ^ s -> blocks c k i = blocks (2 ^ s - 1) k i.
Proof.
  intros Hi Hc Hs. unfold blocks. symmetry. apply vsum_more; [lia |]. intros j Hj. apply block_term_beyond; auto; [lia |]. nia.
Qed.

Lemma blocks_fit : d <= (2 ^ s - 1) * m.
Proof. destruct piece_bounds as (Hm & En & _). rewrite En in Hn. nia. Qed.

Lemma nth_error_data n i : n + i < d -> exists x, nth_error (skipn n sh) i = Some x /\ x = nth (n + i) sh [].
Proof. intros H. rewrite nth_error_skipn. exists (nth (n + i) sh []). split; [apply nth_error_nth'; lia | reflexivity]. Qed.

(** The first block *)
Lemma encode_first work : wok8 (m * 2) work ->
  exists work', ifftDITEncoder8 (firstn d sh) (Nat.min d m) 0 false m (skipn (m - 1) fftSkew8) work = Ret work' /\ wok8 (m * 2) work' /\
    forall k i, i < m -> val8 work' k i = blocks 1 k i.
Proof.
  intros Hw. assert (Hfit := blocks_fit). destruct piece_bounds as (Hm & En & _). replace (m - 1) with (1 * m - 1) by lia.
  apply (encode_block 1 (Nat.min d m) 0); auto; try lia; try discriminate.
  intros i Hi. cbn [Nat.add]. exists (nth i sh []). split; [| reflexivity].
  rewrite nth_error_firstn. rewrite (proj2 (Nat.ltb_lt i d)) by lia. apply nth_error_nth'. lia.
Qed.

(** Another block, from the table as the loop sees it *)
Lemma encode_next c cnt work : 0 < c -> c * m < d -> cnt = Nat.min m (d - c * m) -> wok8 (m * 2) work ->
  (forall k i, i < m -> val8 work k i = blocks c k i) ->
  exists work', (sh <- slice_from sh (c * m) ;; skewLUT2 <- slice_from (skipn (m - 1) fftSkew8) (c * m) ;;
      ifftDITEncoder8 sh cnt m true m skewLUT2 work) = Ret work' /\ wok8 (m * 2) work' /\
    forall k i, i < m -> val8 work' k i = blocks (S c) k i.
Proof.
  intros Hc Hcd Hcnt Hw Hval. assert (Hfit := blocks_fit). destruct piece_bounds as (Hm & En & _). assert (Hcs : S c < 2 ^ s) by nia.
  rewrite slice_from_ret by lia. cbn [bind]. rewrite slice_from_ret.
  2:{ rewrite length_skipn. change (length fftSkew8) with 255. rewrite En in H256. nia. }
  cbn [bind]. rewrite skipn_skipn. replace (c * m + (m - 1)) with (S c * m - 1) by lia.
  apply (encode_block (S c) cnt (c * m)); auto; try lia.
  - intros k i Hi _. replace (S c - 1) with c by lia. auto.
  - intros i Hi. apply nth_error_data. lia.
Qed.

Lemma encode_work_ok work : wok8 (m * 2) work ->
  exists work', encode_work r m sh work = Ret work' /\ wok8 (m * 2) work' /\
    forall k i, i < p -> val8 work' k i = fft8 l 0 (blocks (2 ^ s - 1) k) i.
Proof.
  intros Hw. assert (Hfit := blocks_fit). destruct piece_bounds as (Hm & En & _). unfold encode_work.
  rewrite slice_from_ret by (change (length fftSkew8) with 255; rewrite En in *; nia). cbn [bind].
  destruct (encode_first work Hw) as (w1 & -> & Hw1 & V1). cbn [bind].
  assert (Hall : exists w2, (if d <=? m then Ret w1
      else
        work <- for_loop 1 (d / m) (fun c work => sh <- slice_from sh (c * m) ;; skewLUT2 <- slice_from (skipn (m - 1) fftSkew8) (c * m) ;;
          ifftDITEncoder8 sh m m true m skewLUT2 work) w1 ;;
        if negb (d mod m =? 0) then
          sh <- slice_from sh (d / m * m) ;; skewLUT2 <- slice_from (skipn (m - 1) fftSkew8) (d / m * m) ;;
          ifftDITEncoder8 sh (d mod m) m true m skewLUT2 work
        else Ret work) = Ret w2 /\ wok8 (m * 2) w2 /\ forall k i, i < m -> val8 w2 k i = blocks (2 ^ s - 1) k i).
  { destruct (Nat.leb_spec d m) as [Hdm|Hdm].
    - exists w1. split; [auto |]. split; [auto |]. intros k i Hi. rewrite V1 by auto. apply blocks_done; auto; nia.
    - assert (Hq := Nat.div_mod_eq d m). assert (Hr := Nat.mod_upper_bound d m ltac:(lia)). set (q := d / m) in *.
      assert (Hq1 : 1 <= q) by nia. apply oc_ret. eapply oc_bind with (P := fun st => wok8 (m * 2) st /\ forall k i, i < m -> val8 st k i = blocks q k i).
      + apply for_loop_rule with (I := fun c st => wok8 (m * 2) st /\ forall k i, i < m -> val8 st k i = blocks c k i); auto.
        intros c st Hc [Hst Hv]. destruct (encode_next c m st) as (st' & E & Hst' & V'); auto; [lia | nia | nia |]. rewrite E. now split.
      + intros w2 [Hw2 V2]. destruct (Nat.eqb_spec (d mod m) 0) as [H0|H0]; cbn [negb oc_spec].
        * split; [auto |]. intros k i Hi. rewrite V2 by auto. apply blocks_done; auto; nia.
        * destruct (encode_next q (d mod m) w2) as (w3 & E & Hw3 & V3); auto; [nia | nia |]. rewrite E. cbn [oc_spec]. split; [auto |].
          intros k i Hi. rewrite V3 by auto. apply blocks_done; auto; nia. }
  destruct Hall as (w2 & -> & Hw2 & V2). cbn [bind].
  destruct (fftDIT8_ok sz Hsz (m * 2) l p w2) as (w3 & -> & Hw3 & V3); auto; try lia.
  exists w3. split; [auto |]. split; [auto |]. intros k i Hi. rewrite V3 by auto. apply (fft_ext gf_add gf_mul skew8); [| lia].
  intros j Hj. now apply V2.
Qed.

(** The parity that [encode] leaves completes a codeword. *)
Lemma encode_work_codeword work : wok8 (m * 2) work ->
  exists work', encode_work r m sh work = Ret work' /\ wok8 (m * 2) work' /\
    forall k, leopard_codeword s l d p (fun i => if i <? m then val8 work' k i else data_at k (i - m)).
Proof.
  intros Hw. destruct (encode_work_ok work Hw) as (w' & E & Hw' & V). exists w'. split; [auto |]. split; [auto |]. intros k.
  destruct (blocks_codeword s l d (data_at k) p (blocks (2 ^ s - 1) k)) as (c & Hc & Hv); auto; try lia.
  - intros i Hi. unfold blocks. assert (H := pow_pos s). now replace (S (2 ^ s - 1)) with (2 ^ s) by lia.
  - exists c. split; [auto |]. intros i Hi Hcase. rewrite Hv by auto. destruct (Nat.ltb_spec i (m + d)); [| auto].
    destruct (Nat.ltb_spec i m); [rewrite V by lia |]; auto.
Qed.
End Piece.

(** ** Encode and Verify *)


(** The numbers of shards that the tables of 8 bits are made for: the parity fills a
    block of [2^l] places and, with the data, [2^(s+l)] places of at most 256. *)
Definition fits (r : leopardFF8) (s l : nat) : Prop :=
  0 < ff8_dataShards r /\ 0 < ff8_parityShards r /\ ff8_totalShards r = ff8_dataShards r + ff8_parityShards r /\
  ceilPow2 (ff8_parityShards r) = 2 ^ l /\ ceilPow2 (2 ^ l + ff8_dataShards r) = 2 ^ (s + l) /\ 2 ^ (s + l) <= 256.

(** Byte [k] of the shards at the places of the transforms: the parity first *)
Definition place (r : leopardFF8) (l : nat) (shards : list slice) (k i : nat) : gf :=
  if i <? 2 ^ l then elem (bytes_at shards (ff8_dataShards r + i) k) else elem (bytes_at shards (i - 2 ^ l) k).

(** Every byte of the shards is a codeword. *)
Definition leopard_code (r : leopardFF8) (s l size : nat) (shards : list slice) : Prop :=
  forall k, k < size -> leopard_codeword s l (ff8_dataShards r) (ff8_parityShards r) (place r l shards k).

Lemma size_nat_pos q : Pos.to_nat q < 2 ^ Pos.size_nat q.
Proof.
  induction q as [q IH|q IH|]; cbn [Pos.size_nat]; [| | cbn; lia]; rewrite Nat.pow_succ_r'; lia.
Qed.

Lemma ceilPow2_le n : 0 < n -> n <= ceilPow2 n.
Proof.
  intros H. unfold ceilPow2. destruct (N.of_nat (n - 1)) as [|q] eqn:E; cbn [N.size_nat]; [cbn; lia |].
  assert (Hq := size_nat_pos q). lia.
Qed.

Lemma size_nat_least q k : Pos.to_nat q < 2 ^ k -> Pos.size_nat q <= k.
Proof.
  revert k. induction q as [q IH|q IH|]; intros [|k] H; cbn [Pos.size_nat] in *; try (cbn [Nat.pow] in H; lia); try lia;
    rewrite Nat.pow_succ_r' in H; apply le_n_S, IH; lia.
Qed.

(** [ceilPow2 n] is the least power of two that is not below [n]. *)
Lemma ceilPow2_least n k : 0 < n -> n <= 2 ^ k -> ceilPow2 n <= 2 ^ k.
Proof.
  intros Hn H. unfold ceilPow2. apply Nat.pow_le_mono_r; [lia |]. destruct (N.of_nat (n - 1)) as [|q] eqn:E; cbn [N.size_nat]; [lia |].
  apply size_nat_least. lia.
Qed.

Lemma fits_bounds r s l : fits r s l ->
  0 < ff8_dataShards r /\ 0 < ff8_parityShards r <= 2 ^ l /\ 2 ^ l + ff8_dataShards r <= 2 ^ (s + l) /\ 2 ^ (s + l) <= 256.
Proof.
  intros (Hd & Hp & _ & El & En & H256). assert (H1 := ceilPow2_le (ff8_parityShards r) Hp). rewrite El in H1.
  assert (H2 := ceilPow2_le (2 ^ l + ff8_dataShards r) ltac:(lia)). rewrite En in H2. lia.
Qed.

Lemma fits_exponent r s l : fits r s l -> s + l <= 8.
Proof.
  intros H. destruct (fits_bounds r s l H) as (_ & _ & _ & H256). change 256 with (2 ^ 8) in H256. apply Nat.pow_le_mono_r_iff in H256; [exact H256 | lia].
Qed.

(** ** The data decides the parity *)

Lemma codeword_parity s l d p v : 0 < d -> p <= 2 ^ l -> 2 ^ l + d <= 2 ^ (s + l) -> leopard_codeword s l d p v ->
  forall i, i < p -> v i = fft8 l 0 (fun i => vsum gf0 gf_add (2 ^ s) (block_term l d (fun i => v (2 ^ l + i)) i)) i.
Proof.
  intros Hd Hp Hn (c & Hc & Hv) i Hi. set (m := 2 ^ l) in *. assert (Hm : 0 < m) by apply pow_pos. assert (Hs := pow_pos s).
  assert (E2 : 2 ^ (s + l) = 2 ^ s * m) by apply Nat.pow_add_r.
  set (w := ifft gf_add gf_mul skew8 l 0 (fft8 (s + l) 0 c)).
  assert (Hw : forall j, j < m -> fft8 l 0 w j = fft8 (s + l) 0 c j) by (intros j Hj; apply (fft_ifft gf0); auto using gaddA, gadd0, addxx).
  assert (Hsum : forall j, j < m -> w j = vsum gf0 gf_add (2 ^ s) (block_term l d (fun i => v (m + i)) j)).
  { intros j Hj. assert (H0 := fft_last gf0 gf_add gf_mul skew8 gaddA gaddC gadd0 addxx l s 0 c (fft8 (s + l) 0 c)
      (fun q => if q =? 0 then w else data_block l d (fun i => v (m + i)) q) ltac:(reflexivity)).
    fold m in H0. assert (Hterms : forall q i, q < 2 ^ s -> i < m ->
      fft8 l (0 + q * m) (if q =? 0 then w else data_block l d (fun i => v (m + i)) q) i = fft8 (s + l) 0 c (q * m + i)).
    { intros q k Hq Hk. destruct (Nat.eqb_spec q 0) as [->|Hq0]; [cbn [Nat.mul Nat.add]; now apply Hw |].
      unfold data_block, block_coefficients. fold m. cbn [Nat.add]. unfold m at 1. rewrite (fft_ifft gf0) by (auto using gaddA, gadd0, addxx). fold m.
      assert (Hqm : m <= q * m) by nia. assert (Hqs : q * m + k < 2 ^ s * m) by nia.
      replace ((q - 1) * m) with (q * m - m) by (rewrite Nat.mul_sub_distr_r; lia). rewrite Hv by (fold m; lia). fold m.
      destruct (Nat.ltb_spec (q * m - m + k) d), (Nat.ltb_spec (q * m + k) (m + d)); try lia; [f_equal; lia | reflexivity]. }
    specialize (H0 Hterms j Hj). rewrite Hc in H0 by auto. rewrite (vsum_ext gf0 gf_add _ _ (fun q => if q =? 0 then w j else block_term l d (fun i => v (m + i)) j q)) in H0
      by (intros q Hq; unfold block_term; now destruct (q =? 0)).
    rewrite (vsum_first (2 ^ s) (w j) _ Hs) in H0 by reflexivity. apply gf_add_eq. now symmetry. }
  specialize (Hv i ltac:(nia) (or_introl Hi)). rewrite (proj2 (Nat.ltb_lt _ _)) in Hv by lia. rewrite <- Hv, <- Hw by lia.
  apply (fft_ext gf_add gf_mul skew8); [| fold m; lia]. intros j Hj. now apply Hsum.
Qed.

Lemma parity_unique s l d p v v' : 0 < d -> p <= 2 ^ l -> 2 ^ l + d <= 2 ^ (s + l) -> leopard_codeword s l d p v -> leopard_codeword s l d p v' ->
  (forall i, i < d -> v (2 ^ l + i) = v' (2 ^ l + i)) -> forall i, i < p -> v i = v' i.
Proof.
  intros Hd Hp Hn Hv Hv' Hdata i Hi. rewrite (codeword_parity s l d p v), (codeword_parity s l d p v') by auto.
  apply (fft_ext gf_add gf_mul skew8); [| lia]. intros j Hj. apply vsum_ext. intros q Hq. unfold block_term. destruct (q =? 0); [reflexivity |].
  apply block_ext; [| auto]. intros x Hx. destruct (Nat.ltb_spec ((q - 1) * 2 ^ l + x) d); [now apply Hdata | reflexivity].
Qed.

(** ** Shards and their pieces *)

(** [new] is [old] with other bytes: every shard keeps its length and its memory. *)
Definition same_memory (size : nat) (old new : list slice) : Prop :=
  length new = length old /\ Forall (shard_ok size) new /\ forall i, i < length old -> spare_of (nth i new Nil) = spare_of (nth i old Nil).

Lemma same_memory_refl size l : Forall (shard_ok size) l -> same_memory size l l.
Proof. now split. Qed.

Lemma same_memory_trans size a b c : same_memory size a b -> same_memory size b c -> same_memory size a c.
Proof. intros (L1 & _ & S1) (L2 & O2 & S2). split; [lia |]. split; [auto |]. intros i Hi. rewrite S2, S1; auto; lia. Qed.

(** The bytes from [off] on of one shard are written. *)
Lemma write_one size off sz l i x : Forall (shard_ok size) l -> i < length l -> off + sz <= size -> buffer8 sz x ->
  same_memory size l (set_nth l i (write_range (nth i l Nil) off x)) /\
  forall j k, bytes_at (set_nth l i (write_range (nth i l Nil) off x)) j k =
    if (j =? i) && ((off <=? k) && (k <? off + sz)) then nth (k - off) x 0%N else bytes_at l j k.
Proof.
  intros Hl Hi Hoff [Lx Bx]. destruct (write_range_spec size (nth i l Nil) off x) as (Hok & Hsp & Hb); [now apply shard_ok_nth | lia | auto |].
  split; [split; [apply length_set_nth |]; split; [now apply Forall_set_nth |] |].
  - intros j Hj. rewrite nth_set_nth. destruct (Nat.eqb_spec j i) as [->|]; cbn [andb]; [| auto]. rewrite (proj2 (Nat.ltb_lt i (length l))) by auto. exact Hsp.
  - intros j k. unfold bytes_at. rewrite nth_set_nth. destruct (Nat.eqb_spec j i) as [->|]; cbn [andb]; [| auto].
    rewrite (proj2 (Nat.ltb_lt i (length l))) by auto. rewrite Hb, Lx. reflexivity.
Qed.

Lemma slice_to_all n sz work : sz <= n -> wok (buffer8 n) (length work) work ->
  mapM (fun w => slice_to w sz) work = Ret (map (firstn sz) work) /\ wok (buffer8 sz) (length work) (map (firstn sz) work).
Proof.
  intros Hsz [_ Hw]. rewrite Forall_forall in Hw. split.
  - apply mapM_ret. intros x Hx. destruct (Hw x Hx) as [Lx _]. unfold slice_to. now rewrite (proj2 (Nat.ltb_ge _ _)) by lia.
  - split; [now rewrite length_map |]. apply Forall_forall. intros y (x & <- & Hx)%in_map_iff. destruct (Hw x Hx) as [Lx Bx].
    split; [rewrite length_firstn; lia | now apply bytes_ok_firstn].
Qed.

(** The bytes of every shard from [off] up to [stop] *)
Definition pieces (off stop : nat) (shards : list slice) : list (list N) := map (fun s => sub_list (bytes_of s) off stop) shards.

Lemma slice_pieces size off stop shards : Forall (shard_ok size) shards -> off <= stop <= size ->
  mapM (fun s => slice_range s off stop) shards = (Ret (pieces off stop shards) : result _) /\
  wok (buffer8 (stop - off)) (length shards) (pieces off stop shards) /\
  forall i k, k < stop - off -> nth k (nth i (pieces off stop shards) []) 0%N = bytes_at shards i (off + k).
Proof.
  intros H Ho. split; [| split].
  - apply mapM_ret. intros x Hx. rewrite Forall_forall in H. now apply (slice_range_data size); [apply H |].
  - split; [apply length_map |]. apply Forall_forall. intros y (x & <- & Hx)%in_map_iff. rewrite Forall_forall in H. destruct (H x Hx) as (_ & L & B).
    unfold len in L. split; [apply length_sub_list; lia | now apply bytes_ok_sub].
  - intros i k Hk. unfold bytes_at, byte_at, pieces. destruct (Nat.lt_ge_cases i (length shards)) as [Hi|Hi].
    + rewrite (nth_map_in _ _ Nil) by auto. now apply nth_sub_list.
    + rewrite (nth_overflow (map _ _)), (nth_overflow shards) by (rewrite ?length_map; lia). cbn [bytes_of]. now rewrite !nth_overflow by (cbn; lia).
Qed.

Lemma elem_pieces size off stop shards i k : Forall (shard_ok size) shards -> off <= stop <= size -> k < stop - off ->
  elem_at k (nth i (pieces off stop shards) []) = elem (bytes_at shards i (off + k)).
Proof. intros H Ho Hk. unfold elem_at. f_equal. now apply (slice_pieces size). Qed.

(** ** [encode] *)
Section Encode.
Context (r : leopardFF8) (pool : nat -> list N) (s l : nat) (Hfits : fits r s l) (Hpool : forall i, buffer8 workSize8 (pool i)).
Context (size : nat) (Hsize : size mod 64 = 0).
Local Abbreviation d := (ff8_dataShards r).
Local Abbreviation p := (ff8_parityShards r).
Local Abbreviation m := (2 ^ l).

(** The data shards stay, and up to [done] bytes the shards are codewords. *)
Definition encoded (done : nat) (old new : list slice) : Prop :=
  same_memory size old new /\ (forall i k, i < d -> bytes_at new i k = bytes_at old i k) /\ leopard_code r s l (Nat.min done size) new.

(** The results are written to the parity shards. *)
Lemma write_parity off sz work shards : length shards = d + p -> Forall (shard_ok size) shards -> off + sz <= size -> wok (buffer8 sz) (m * 2) work ->
  exists shards', for_loop 0 p (fun i shards => s <- idx shards (d + i) ;; w <- idx work i ;; upd shards (d + i) (write_range s off w)) shards
      = (Ret shards' : result _) /\ same_memory size shards shards' /\
    forall i k, bytes_at shards' i k = if (d <=? i) && (i <? d + p) && ((off <=? k) && (k <? off + sz)) then nth (k - off) (nth (i - d) work []) 0%N else bytes_at shards i k.
Proof.
  intros Hl Hok Hoff [Lw Hw]. destruct (fits_bounds r s l Hfits) as (_ & Hp & _). apply oc_ret.
  eapply oc_weaken with (Q := fun _ => False); [apply for_loop_rule with (I := fun c st => same_memory size shards st /\
    forall i k, bytes_at st i k = if (d <=? i) && (i <? d + c) && ((off <=? k) && (k <? off + sz)) then nth (k - off) (nth (i - d) work []) 0%N else bytes_at shards i k) | auto | auto].
  - lia.
  - split; [now apply same_memory_refl |]. intros i k. destruct (Nat.leb_spec d i), (Nat.ltb_spec i (d + 0)); try lia; reflexivity.
  - intros c st Hc [Hst Hv]. assert (Lst := proj1 Hst). rewrite (idx_nth Nil) by lia. cbn [bind]. rewrite (idx_nth []) by lia. cbn [bind].
    rewrite upd_ret by lia. cbn [oc_spec]. destruct (write_one size off sz st (d + c) (nth c work [])) as [H1 H2]; [apply Hst | lia | lia | |].
    { rewrite Forall_forall in Hw. apply Hw, nth_In. lia. }
    split; [now apply (same_memory_trans size _ st) |]. intros i k. rewrite H2, Hv.
    destruct (Nat.eqb_spec i (d + c)) as [->|Hne]; cbn [andb].
    + rewrite (proj2 (Nat.leb_le d _)), (proj2 (Nat.ltb_lt _ (d + S c))), (proj2 (Nat.ltb_ge _ (d + c))) by lia. cbn [andb].
      replace (d + c - d) with c by lia. reflexivity.
    + replace (i <? d + S c) with (i <? d + c); [reflexivity |]. destruct (Nat.ltb_spec i (d + c)), (Nat.ltb_spec i (d + S c)); auto; lia.
Qed.

Lemma codeword_ext v v' : (forall i, i < p \/ m <= i < m + d -> v i = v' i) -> leopard_codeword s l d p v -> leopard_codeword s l d p v'.
Proof.
  intros H (c & Hc & Hv). exists c. split; [auto |]. intros i Hi Hcase. rewrite Hv by auto. destruct (Nat.ltb_spec i (m + d)); [apply H; lia | auto].
Qed.

(** The parity shards take the place of the first buffers. *)
Lemma place_parity sz sh wMod : wok (buffer8 sz) (d + p) sh -> wok (buffer8 sz) (m * 2) wMod ->
  exists work, for_loop 0 p (fun i work => x <- idx sh (d + i) ;; upd work i x) wMod = (Ret work : result _) /\ wok (buffer8 sz) (m * 2) work.
Proof.
  intros Hsh Hw. destruct (fits_bounds r s l Hfits) as (_ & Hp & _).
  destruct (set_loop [] elem_at (buffer8 sz) (m * 2) 0 0 p (fun i _ => idx sh (d + i)) (fun k i => elem_at k (nth (d + i) sh [])) wMod) as (work & E & H & _); auto; try lia.
  - intros i st Hi Hst. exists (nth (d + i) sh []). split; [apply idx_nth; destruct Hsh; lia |]. split; [apply (wok_nth [] (buffer8 sz) (d + p)); auto; lia | auto].
  - exists work. split; [exact E | auto].
Qed.

Lemma multiple_sub a b : a mod 64 = 0 -> b mod 64 = 0 -> (a - b) mod 64 = 0.
Proof.
  intros Ha Hb. apply Nat.Div0.mod_divides in Ha as [x ->], Hb as [y ->]. rewrite <- Nat.mul_sub_distr_l, Nat.mul_comm. apply Nat.Div0.mod_mul.
Qed.

Lemma piece_buffers cnt off (wMod : list (list N)) : off < size -> wok (buffer8 workSize8) cnt wMod ->
  exists wMod', (if size <? off + workSize8 then mapM (fun w => slice_to w (size - off)) wMod else Ret wMod) = Ret wMod' /\
    wok (buffer8 ((if size <? off + workSize8 then size else off + workSize8) - off)) cnt wMod'.
Proof.
  intros Hoff Hw. destruct (Nat.ltb_spec size (off + workSize8)).
  - destruct Hw as [Lw Hw]. rewrite <- Lw in *. destruct (slice_to_all workSize8 (size - off) wMod) as [E H']; [lia | now split |]. eexists. split; [exact E | exact H'].
  - exists wMod. split; [auto |]. now replace (off + workSize8 - off) with workSize8 by lia.
Qed.

Lemma encode_piece_ok off old wMod shards : off < size -> off mod 64 = 0 -> length old = d + p -> wok (buffer8 workSize8) (m * 2) wMod -> encoded off old shards ->
  exists wMod' shards', encode_piece r m size off (wMod, shards) = Ret (wMod', shards') /\ encoded (off + workSize8) old shards' /\
    (off + workSize8 <= size -> wok (buffer8 workSize8) (m * 2) wMod').
Proof.
  intros Hoff Hoff64 Hold Hw (Hmem & Hdata & Hcode). destruct (fits_bounds r s l Hfits) as (Hd & Hp & Hn & H256). unfold encode_piece.
  set (stop := if size <? off + workSize8 then size else off + workSize8).
  assert (Hstop : off <= stop <= size /\ stop = Nat.min (off + workSize8) size) by (unfold stop; destruct (Nat.ltb_spec size (off + workSize8)); lia).
  assert (Hsz : (stop - off) mod 64 = 0).
  { unfold stop. destruct (_ <? _); [now apply multiple_sub |]. now replace (off + workSize8 - off) with workSize8 by lia. }
  destruct (piece_buffers (m * 2) off wMod Hoff Hw) as (w1 & -> & Hw1). fold stop in Hw1. cbn [bind].
  destruct Hmem as (Hlen & Hok & Hsp). destruct (slice_pieces size off stop shards Hok) as (-> & Hsh & Hel); [lia |]. cbn [bind]. set (sh := pieces off stop shards) in *.
  rewrite Hlen, Hold in Hsh. destruct (place_parity (stop - off) sh w1 Hsh Hw1) as (w2 & -> & Hw2). cbn [bind].
  destruct (encode_work_codeword r (stop - off) s l Hsz Hd Hp Hn H256 sh) with (work := w2) as (w3 & -> & Hw3 & V3); auto;
    [destruct Hsh; lia | intros i Hi; apply (wok_nth [] (buffer8 (stop - off)) (d + p)); auto; lia |]. cbn [bind].
  destruct (write_parity off (stop - off) w3 shards) as (sh' & -> & Hmem' & Hv'); [lia | auto | lia | auto |]. cbn [bind].
  exists w3, sh'. split; [reflexivity |]. split; [split; [| split] |].
  - apply (same_memory_trans size _ shards); [now split | exact Hmem'].
  - intros i k Hi. rewrite Hv', (proj2 (Nat.leb_gt d i)) by auto. cbn [andb]. now apply Hdata.
  - intros k Hk. assert (Hk' : k < stop) by lia. clear Hk. destruct (Nat.lt_ge_cases k off) as [Hlo|Hhi].
    + apply (codeword_ext (place r l shards k)); [| apply Hcode; lia]. intros i _. unfold place.
      destruct (i <? m); rewrite Hv', (proj2 (Nat.leb_gt off k)), !andb_false_r by auto; reflexivity.
    + apply (codeword_ext (fun i => if i <? m then val8 w3 (k - off) i else data_at sh (k - off) (i - m))); [| apply V3].
      intros i Hcase. unfold place. destruct (Nat.ltb_spec i m).
      * rewrite Hv', (proj2 (Nat.leb_le d _)), (proj2 (Nat.ltb_lt _ (d + p))), (proj2 (Nat.leb_le off k)), (proj2 (Nat.ltb_lt k _)) by lia. cbn [andb].
        replace (d + i - d) with i by lia. reflexivity.
      * rewrite Hv', (proj2 (Nat.leb_gt d (i - m))) by lia. cbn [andb]. unfold data_at, elem_at. rewrite Hel by lia. now replace (off + (k - off)) with k by lia.
  - intros Hle. replace workSize8 with (stop - off); [exact Hw3 |]. lia.
Qed.

Lemma work_pool n : wok (buffer8 workSize8) n (map pool (seq 0 n)).
Proof. split; [now rewrite length_map, length_seq |]. apply Forall_forall. intros x (i & <- & _)%in_map_iff. apply Hpool. Qed.

(** A loop over the pieces of the shards *)
Lemma pieces_loop {St} (I : nat -> St -> Prop) body st : 0 < size -> I 0 st ->
  (forall off st, off < size -> off mod 64 = 0 -> I off st -> oc_spec (body off st) (I (off + workSize8)) (fun _ : rsError => False)) ->
  exists st' off, for_step size workSize8 body st = Ret st' /\ size <= off /\ I off st'.
Proof.
  intros Hs H0 Hb. unfold for_step. set (cnt := (size + workSize8 - 1) / workSize8).
  assert (HW : 0 < workSize8) by (change (0 < 32 * 1024); lia).
  assert (Hcnt : cnt * workSize8 < size + workSize8 /\ size <= cnt * workSize8).
  { assert (H := Nat.div_mod_eq (size + workSize8 - 1) workSize8). assert (H2 := Nat.mod_upper_bound (size + workSize8 - 1) workSize8 ltac:(lia)). fold cnt in H. lia. }
  assert (H64 : forall t, (t * workSize8) mod 64 = 0).
  { intros t. replace workSize8 with (512 * 64) by reflexivity. rewrite Nat.mul_assoc. apply Nat.Div0.mod_mul. }
  destruct (oc_ret (for_loop 0 cnt (fun k => body (k * workSize8)) st) (fun st' => I (cnt * workSize8) st')) as (st' & E & H').
  - apply for_loop_rule with (I := fun t st => I (t * workSize8) st); [lia | exact H0 |]. intros t st1 Ht H1.
    replace (S t * workSize8) with (t * workSize8 + workSize8) by lia. apply Hb; auto. nia.
  - exists st', (cnt * workSize8). split; [exact E |]. split; [lia | exact H'].
Qed.

Lemma same_data shards full : length shards = d + p -> same_memory size shards full -> Forall (shard_ok size) shards ->
  (forall i k, i < d -> bytes_at full i k = bytes_at shards i k) -> firstn d full = firstn d shards.
Proof.
  intros Hl (L & Hok & Hsp) Hs Hd. assert (HL : length (firstn d full) = d /\ length (firstn d shards) = d) by (rewrite !length_firstn; lia).
  apply (shards_ext size); [now apply firstn_Forall | now apply firstn_Forall | lia | |].
  - intros i Hi. rewrite !nth_firstn_in by lia. apply Hsp. lia.
  - intros i k Hi Hk. unfold bytes_at. rewrite !nth_firstn_in by lia. apply Hd. lia.
Qed.

Lemma encode_ok shards : 0 < size -> length shards = d + p -> Forall (shard_ok size) shards ->
  exists full, Encode r pool shards = Ret full /\ same_memory size shards full /\ firstn d full = firstn d shards /\ leopard_code r s l size full.
Proof.
  intros Hs Hl Hok. destruct Hfits as (Hd & _ & Ht & El & _). unfold Encode. rewrite Ht, Hl, Nat.eqb_refl. cbn [negb].
  destruct (checkShards_full size shards) as [-> Esz]; auto; [intros ->; cbn in Hl; lia |]. cbn [bind]. unfold encode. rewrite Esz, Hsize, El. cbn [Nat.eqb negb].
  destruct (pieces_loop (fun off '(wMod, st) => (off < size -> wok (buffer8 workSize8) (m * 2) wMod) /\ encoded off shards st) (encode_piece r m size)
    (map pool (seq 0 (m * 2)), shards)) as ([wMod full] & off & -> & Hoff & _ & Hmem & Hdata & Hcode); auto.
  - split; [intros _; apply work_pool |]. split; [now apply same_memory_refl |]. split; [auto |]. intros k Hk. lia.
  - intros off [wMod st] Hoff H64 [Hw Henc]. destruct (encode_piece_ok off shards wMod st Hoff H64 Hl (Hw Hoff) Henc) as (w' & st' & -> & Henc' & Hw').
    cbn [oc_spec]. split; [intros H; apply Hw'; lia | auto].
  - cbn [bind]. exists full. split; [reflexivity |]. split; [auto |]. split; [now apply same_data |]. now rewrite Nat.min_r in Hcode by lia.
Qed.

(** ** [Verify] *)

Lemma same_code shards shards' : (forall i k, i < d + p -> k < size -> bytes_at shards i k = bytes_at shards' i k) ->
  leopard_code r s l size shards -> leopard_code r s l size shards'.
Proof.
  intros H Hc k Hk. apply (codeword_ext (place r l shards k)); [| now apply Hc]. intros i Hi. destruct (fits_bounds r s l Hfits) as (_ & Hp & _). unfold place.
  destruct (Nat.ltb_spec i m); rewrite H by lia; reflexivity.
Qed.

(** Codewords with the same data are the same. *)
Lemma code_unique shards shards' : length shards = d + p -> length shards' = d + p -> Forall (shard_ok size) shards -> Forall (shard_ok size) shards' ->
  leopard_code r s l size shards -> leopard_code r s l size shards' -> (forall i k, i < d -> k < size -> bytes_at shards i k = bytes_at shards' i k) ->
  forall i k, i < d + p -> k < size -> bytes_at shards i k = bytes_at shards' i k.
Proof.
  intros Hl Hl' Hok Hok' Hc Hc' Hdata i k Hi Hk. destruct (Nat.lt_ge_cases i d) as [Hid|Hid]; [auto |]. destruct (fits_bounds r s l Hfits) as (Hd & Hp & Hn & _).
  apply elem_inj; [now apply (bytes_at_byte size) | now apply (bytes_at_byte size) |].
  assert (E := parity_unique s l d p (place r l shards k) (place r l shards' k) Hd ltac:(lia) Hn (Hc k Hk) (Hc' k Hk)).
  unfold place in E. specialize (E ltac:(intros j Hj; rewrite (proj2 (Nat.ltb_ge (m + j) m)) by lia; replace (m + j - m) with j by lia; now rewrite Hdata) (i - d) ltac:(lia)).
  rewrite (proj2 (Nat.ltb_lt (i - d) m)) in E by lia. now replace (d + (i - d)) with i in E by lia.
Qed.

Lemma verify_ok shards : 0 < size -> length shards = d + p -> Forall (shard_ok size) shards ->
  exists b, Verify r pool shards = Ret b /\ (b = true <-> leopard_code r s l size shards).
Proof.
  intros Hs Hl Hok. destruct (fits_bounds r s l Hfits) as (Hd & Hp & _). assert (Ht : ff8_totalShards r = d + p) by apply Hfits. unfold Verify. rewrite Ht, Hl, Nat.eqb_refl. cbn [negb].
  destruct (checkShards_full size shards) as [-> Esz]; auto; [intros ->; cbn in Hl; lia |]. cbn [bind].
  rewrite (idx_nth Nil) by lia. cbn [bind]. destruct (shard_ok_nth size shards 0 Hok ltac:(lia)) as (_ & -> & _). replace (d + p - d) with p by lia.
  set (outputs := firstn d shards ++ repeat (Sl (repeat 0%N size) []) p).
  assert (Lf : length (firstn d shards) = d) by (rewrite length_firstn; lia).
  assert (Hlo : length outputs = d + p) by (unfold outputs; rewrite length_app, Lf, repeat_length; reflexivity).
  assert (Hoo : Forall (shard_ok size) outputs).
  { apply Forall_app. split; [now apply firstn_Forall |]. apply Forall_forall. intros x ->%repeat_spec.
    split; [reflexivity |]. split; [apply repeat_length | now apply bytes_ok_repeat]. }
  destruct (encode_ok outputs Hs Hlo Hoo) as (full & -> & (Lfull & Hfull & _) & Hdata & Hcode). cbn [bind].
  assert (Hsame : forall i k, i < d -> bytes_at full i k = bytes_at shards i k).
  { intros i k Hi. unfold bytes_at. assert (E : nth i full Nil = nth i (firstn d full) Nil) by (symmetry; now apply nth_firstn_in). rewrite E, Hdata. unfold outputs.
    rewrite firstn_app, Lf, Nat.sub_diag, firstn_O, app_nil_r, firstn_firstn, Nat.min_id, nth_firstn_in by auto. reflexivity. }
  destruct (all_equal_spec size (skipn d full) (skipn d shards)) as (b & -> & Hb); [now apply skipn_Forall | now apply skipn_Forall | rewrite !length_skipn; lia |].
  exists b. split; [reflexivity |]. rewrite Hb. rewrite length_skipn. split.
  - intros Heq. apply (same_code full); [| exact Hcode]. intros i k Hi Hk. destruct (Nat.lt_ge_cases i d) as [Hid|Hid]; [auto |].
    specialize (Heq (i - d) k ltac:(lia) Hk). unfold bytes_at in Heq |- *. rewrite !nth_skipn_add in Heq. now replace (d + (i - d)) with i in Heq by lia.
  - intros Hc i k Hi Hk. unfold bytes_at. rewrite !nth_skipn_add. apply (code_unique full shards); auto; [lia | lia].
Qed.
End Encode.
