(* ===== verification/Leopard8Bits.v ===== *)
(** * The bit field of errors of the 8-bit Leopard encoder

    After [prepare], [isNeeded] holds for every block that has a place marked.  The
    places and the marks of a reconstruction are what [error_locations] collects. *)
From Stdlib Require Import List Arith NArith ZArith Lia Bool.
From S2P Require Import Prelude Galois RSTypes Matrix Options LeopardTypes LeopardFFT LeopardNetwork Coding Codec Leopard8 Leopard8Codec.
Import ListNotations.

(** A field with bits at the first level only *)
Definition raw (ws : list N) : errorBitfield8 := ws :: repeat (repeat 0%N kWords8) 6.
Definition raw_bit (ws : list N) (i : nat) : bool := N.testbit (nth (i / 64) ws 0%N) (N.of_nat (i mod 64)).

(** ** [prepare] *)

Definition spread1 (w : N) : N := spread 0xAAAAAAAAAAAAAAAA 1 w.
Definition spread2 (w : N) : N := spread 0xCCCCCCCCCCCCCCCC 2 (spread1 w).
Definition spread4 (w : N) : N := spread 0xF0F0F0F0F0F0F0F0 4 (spread2 w).
Definition spread8 (w : N) : N := spread 0xFF00FF00FF00FF00 8 (spread4 w).
Definition spread16 (w : N) : N := spread 0xFFFF0000FFFF0000 16 (spread8 w).
Definition spread32 (w : N) : N := let w := N.lor (spread16 w) (N.shiftr (spread16 w) 32) in N.lor w (N.shiftl w 32 mod 2 ^ 64).

Lemma prepare_words a b c d : prepare (raw [a; b; c; d]) = Ret
  [map spread1 [a; b; c; d]; map spread2 [a; b; c; d]; map spread4 [a; b; c; d]; map spread8 [a; b; c; d]; map spread16 [a; b; c; d]; map spread32 [a; b; c; d];
   [N.lor (spread32 a) (spread32 b); N.lor (spread32 a) (spread32 b); N.lor (spread32 c) (spread32 d); N.lor (spread32 c) (spread32 d)]].
Proof.
  cbv -[spread N.lor N.shiftr N.shiftl N.modulo N.pow]. reflexivity.
Qed.

Lemma spread_keeps mask bits w i : N.testbit w i = true -> N.testbit (spread mask bits w) i = true.
Proof. intros H. unfold spread. now rewrite !N.lor_spec, H. Qed.

Lemma spread_down mask bits w i : N.testbit w (i + bits) = true -> N.testbit mask (i + bits) = true -> N.testbit (spread mask bits w) i = true.
Proof. intros H1 H2. unfold spread. now rewrite !N.lor_spec, N.shiftr_spec', N.land_spec, H1, H2, orb_true_r. Qed.

(** Where the bit [j] of a word is found after a spreading by [bits] *)
Definition down (mask bits i i' : N) : bool := (i' =? i)%N || ((i' + bits =? i)%N && N.testbit mask i).

Lemma spread_to mask bits w i i' : down mask bits i i' = true -> N.testbit w i = true -> N.testbit (spread mask bits w) i' = true.
Proof.
  unfold down. intros [H%N.eqb_eq|[H%N.eqb_eq Hm]%andb_true_iff]%orb_true_iff Hw.
  - subst. now apply spread_keeps.
  - subst. now apply spread_down.
Qed.

(** The first bit of the block of [2^l] bits *)
Definition base (l j : nat) : N := N.of_nat (j / 2 ^ l * 2 ^ l).

Definition words_check (j : nat) : bool :=
  down 0xAAAAAAAAAAAAAAAA 1 (N.of_nat j) (base 1 j) && down 0xCCCCCCCCCCCCCCCC 2 (base 1 j) (base 2 j) && down 0xF0F0F0F0F0F0F0F0 4 (base 2 j) (base 3 j) &&
  down 0xFF00FF00FF00FF00 8 (base 3 j) (base 4 j) && down 0xFFFF0000FFFF0000 16 (base 4 j) (base 5 j) && ((base 5 j =? 0) || (base 5 j =? 32))%N.

Lemma words_table : forallb words_check (seq 0 64) = true.
Proof. vm_compute. reflexivity. Qed.

Lemma spread_bits w j : j < 64 -> N.testbit w (N.of_nat j) = true ->
  N.testbit (spread1 w) (base 1 j) = true /\ N.testbit (spread2 w) (base 2 j) = true /\ N.testbit (spread4 w) (base 3 j) = true /\
  N.testbit (spread8 w) (base 4 j) = true /\ N.testbit (spread16 w) (base 5 j) = true /\ N.testbit (spread32 w) 0 = true.
Proof.
  intros Hj Hw. assert (H := words_table). rewrite forallb_forall in H. specialize (H j ltac:(apply in_seq; lia)). unfold words_check in H.
  apply andb_true_iff in H as [H E5]. apply andb_true_iff in H as [H D5]. apply andb_true_iff in H as [H D4]. apply andb_true_iff in H as [H D3].
  apply andb_true_iff in H as [D1 D2].
  assert (B1 := spread_to _ _ w _ _ D1 Hw). assert (B2 := spread_to _ _ _ _ _ D2 B1). assert (B3 := spread_to _ _ _ _ _ D3 B2).
  assert (B4 := spread_to _ _ _ _ _ D4 B3). assert (B5 := spread_to _ _ _ _ _ D5 B4). do 5 (split; [assumption |]).
  unfold spread32. fold (spread1 w) in B5. fold (spread2 w) in B5. fold (spread4 w) in B5. fold (spread8 w) in B5. fold (spread16 w) in B5.
  rewrite !N.lor_spec, N.shiftr_spec'. apply orb_true_iff in E5 as [E%N.eqb_eq|E%N.eqb_eq]; rewrite E in B5; cbn [N.add]; rewrite B5; rewrite ?orb_true_r; reflexivity.
Qed.

(** ** [isNeeded] *)

Lemma land_bit w k : negb (N.land w (N.shiftl 1 k) =? 0)%N = N.testbit w k.
Proof.
  rewrite N.shiftl_1_l. destruct (N.testbit w k) eqn:E.
  - apply negb_true_iff, N.eqb_neq. intros H. apply (f_equal (fun x => N.testbit x k)) in H.
    rewrite N.land_spec, E, N.pow2_bits_true, N.bits_0 in H. discriminate.
  - apply negb_false_iff, N.eqb_eq, N.bits_inj. intros j. rewrite N.land_spec, N.bits_0, N.pow2_bits_eqb.
    destruct (N.eqb_spec k j) as [->|]; [now rewrite E | apply andb_false_r].
Qed.

(** The word and the bit of a block *)
Definition block_check (i : nat) : bool :=
  forallb (fun l => let b := i / 2 ^ l * 2 ^ l in (b / 64 =? i / 64) && (N.of_nat (Nat.land b 63) =? base l (i mod 64))%N) (seq 1 6) &&
  (let b := i / 128 * 128 in (b / 64 =? i / 128 * 2) && (Nat.land b 63 =? 0)) && (base 6 (i mod 64) =? 0)%N.

Lemma block_table : forallb block_check (seq 0 256) = true.
Proof. vm_compute. reflexivity. Qed.

Lemma block_place i l : i < 256 -> 1 <= l <= 6 ->
  (i / 2 ^ l * 2 ^ l) / 64 = i / 64 /\ N.of_nat (Nat.land (i / 2 ^ l * 2 ^ l) 63) = base l (i mod 64).
Proof.
  intros Hi Hl. assert (H := block_table). rewrite forallb_forall in H. specialize (H i ltac:(apply in_seq; lia)). unfold block_check in H.
  apply andb_true_iff in H as [[H _]%andb_true_iff _]. rewrite forallb_forall in H. specialize (H l ltac:(apply in_seq; lia)).
  cbv zeta in H. apply andb_true_iff in H as [H1%Nat.eqb_eq H2%N.eqb_eq]. auto.
Qed.

Lemma block_place7 i : i < 256 -> (i / 2 ^ 7 * 2 ^ 7) / 64 = i / 128 * 2 /\ Nat.land (i / 2 ^ 7 * 2 ^ 7) 63 = 0 /\ base 6 (i mod 64) = 0%N.
Proof.
  intros Hi. assert (H := block_table). rewrite forallb_forall in H. specialize (H i ltac:(apply in_seq; lia)). unfold block_check in H.
  apply andb_true_iff in H as [[_ H]%andb_true_iff H3%N.eqb_eq]. cbv zeta in H. apply andb_true_iff in H as [H1%Nat.eqb_eq H2%Nat.eqb_eq]. auto.
Qed.

Lemma isNeeded_word e l b w : 1 <= l <= 7 -> word e (l - 1) (b / 64) = Ret w -> isNeeded e l b = Ret (N.testbit w (N.of_nat (Nat.land b 63))).
Proof.
  intros Hl Hw. unfold isNeeded. destruct (Nat.leb_spec 8 l); [lia |]. destruct (Nat.leb_spec l 0); [lia |]. cbn [orb]. rewrite Hw. cbn [bind]. now rewrite land_bit.
Qed.

(** What a prepared field answers *)
Definition covers (e : errorBitfield8) (marked : nat -> bool) : Prop :=
  (forall l b, b < 256 -> exists v, isNeeded e l b = Ret v) /\
  forall i l, i < 256 -> marked i = true -> isNeeded e l (i / 2 ^ l * 2 ^ l) = Ret true.

Lemma nth_word {A} (f : N -> A) ws q d : q < length ws -> @idx rsError A (map f ws) q = Ret (f (nth q ws d)).
Proof. intros H. rewrite (idx_nth (f d)) by (now rewrite length_map). now rewrite map_nth. Qed.

Lemma prepare_covers ws : length ws = 4 -> exists e, prepare (raw ws) = Ret e /\ covers e (raw_bit ws).
Proof.
  intros Hl. destruct ws as [|a [|b [|c [|d [|]]]]]; try discriminate. rewrite prepare_words. eexists. split; [reflexivity |]. split.
  - intros l x Hx. unfold isNeeded. destruct (_ || _) eqn:E; [eauto |]. apply orb_false_iff in E as [E1%Nat.leb_gt E2%Nat.leb_gt].
    assert (Hq : x / 64 < 4) by (apply Nat.Div0.div_lt_upper_bound; lia). set (q := x / 64) in *. clearbody q.
    do 8 (destruct l as [|l]; [first [lia | do 4 (destruct q as [|q]; [cbn; eauto |]); lia] |]). lia.
  - intros i l Hi Hm. unfold raw_bit in Hm.
    assert (Hq : i / 64 < 4) by (apply Nat.Div0.div_lt_upper_bound; lia). assert (Hj : i mod 64 < 64) by (apply Nat.mod_upper_bound; lia).
    destruct (spread_bits _ _ Hj Hm) as (S1 & S2 & S4 & S8 & S16 & S32).
    destruct (Nat.lt_ge_cases l 1) as [H0|H1]; [unfold isNeeded; rewrite (proj2 (Nat.leb_le l 0)), orb_true_r by lia; reflexivity |].
    destruct (Nat.lt_ge_cases 7 l) as [H7|H7]; [unfold isNeeded; rewrite (proj2 (Nat.leb_le 8 l)) by lia; reflexivity |].
    destruct (Nat.eq_dec l 7) as [->|H7'].
    + destruct (block_place7 i Hi) as (P1 & P2 & _). set (w := N.lor (spread32 (nth (i / 128 * 2) [a; b; c; d] 0%N)) (spread32 (nth (i / 128 * 2 + 1) [a; b; c; d] 0%N))).
      assert (Hh : i / 128 < 2) by (apply Nat.Div0.div_lt_upper_bound; lia).
      rewrite (isNeeded_word _ 7 _ w); [| lia | rewrite P1; unfold w; clear - Hh; destruct (i / 128) as [|[|h]]; [reflexivity | reflexivity | lia]].
      rewrite P2. f_equal. unfold w. rewrite N.lor_spec.
      assert (Hcase : i / 64 = i / 128 * 2 \/ i / 64 = i / 128 * 2 + 1).
      { assert (Ed : i / 128 = i / 64 / 2) by now rewrite Nat.Div0.div_div. rewrite Ed. assert (H := Nat.div_mod_eq (i / 64) 2). assert (H2 := Nat.mod_upper_bound (i / 64) 2). lia. }
      destruct Hcase as [E|E]; rewrite <- E; cbn [N.of_nat]; rewrite S32, ?orb_true_r; reflexivity.
    + destruct (block_place i l Hi ltac:(lia)) as (P1 & P2). destruct (block_place7 i Hi) as (_ & _ & P6).
      assert (Hw : exists w, word [map spread1 [a; b; c; d]; map spread2 [a; b; c; d]; map spread4 [a; b; c; d]; map spread8 [a; b; c; d]; map spread16 [a; b; c; d]; map spread32 [a; b; c; d];
        [N.lor (spread32 a) (spread32 b); N.lor (spread32 a) (spread32 b); N.lor (spread32 c) (spread32 d); N.lor (spread32 c) (spread32 d)]] (l - 1) (i / 64) = Ret w /\ N.testbit w (base l (i mod 64)) = true).
      { unfold word. assert (l = 1 \/ l = 2 \/ l = 3 \/ l = 4 \/ l = 5 \/ l = 6) as [-> | [-> | [-> | [-> | [-> | ->]]]]] by lia;
          cbn [Nat.sub]; unfold idx at 1; cbn [nth_error bind];
          rewrite (nth_word _ [a; b; c; d] (i / 64) 0%N Hq); eexists; (split; [reflexivity |]); rewrite ?P6; assumption. }
      destruct Hw as (w & Ew & Hb). rewrite (isNeeded_word _ l _ w); [now rewrite P2, Hb | lia | now rewrite P1].
Qed.

(** ** [error_locations] *)

(** [errLocs] has a 1 at the places in [M], and the field the bits of [W]. *)
Definition marks (M W : nat -> bool) (st : list N * errorBitfield8) : Prop :=
  length (fst st) = 256 /\ (forall i, i < 256 -> nth i (fst st) 0%N = if M i then 1%N else 0%N) /\
  exists ws, snd st = raw ws /\ length ws = 4 /\ forall i, i < 256 -> raw_bit ws i = W i.

Lemma set_raw ws i : length ws = 4 -> i < 256 -> exists ws', set (raw ws) i = Ret (raw ws') /\ length ws' = 4 /\
  forall j, j < 256 -> raw_bit ws' j = raw_bit ws j || (j =? i).
Proof.
  intros Hl Hi. unfold set. assert (Hq : i / 64 < 4) by (apply Nat.Div0.div_lt_upper_bound; lia).
  assert (E3 : Nat.land (i / 64) 3 = i / 64) by (transitivity ((i / 64) mod 4); [exact (Nat.land_ones (i / 64) 2) | apply Nat.mod_small; lia]).
  assert (E63 : Nat.land i 63 = i mod 64) by exact (Nat.land_ones i 6). rewrite E3, E63.
  unfold word at 1, set_word, raw, idx at 1. cbn [nth_error bind]. rewrite (idx_nth 0%N) by lia. cbn [bind]. unfold idx at 1. cbn [nth_error bind].
  rewrite upd_ret by lia. cbn [bind]. rewrite upd_ret by (cbn; lia). cbn [set_nth]. eexists. split; [reflexivity |]. split; [now rewrite length_set_nth |].
  intros j Hj. unfold raw_bit. rewrite nth_set_nth. assert (Hm : i mod 64 < 64 /\ j mod 64 < 64) by (split; apply Nat.mod_upper_bound; lia).
  destruct (Nat.eqb_spec (j / 64) (i / 64)) as [E|E]; cbn [andb].
  - rewrite (proj2 (Nat.ltb_lt _ _)) by lia. rewrite N.lor_spec, E. f_equal. rewrite N.shiftl_1_l, N.pow2_bits_eqb.
    assert (Hji := Nat.div_mod_eq j 64). assert (Hii := Nat.div_mod_eq i 64).
    destruct (N.eqb_spec (N.of_nat (i mod 64)) (N.of_nat (j mod 64))), (Nat.eqb_spec j i); auto; lia.
  - destruct (Nat.eqb_spec j i) as [->|]; [lia | now rewrite orb_false_r].
Qed.

Lemma mark_ok M W wanted i st : marks M W st -> i < 256 ->
  exists st', mark wanted i st = Ret st' /\ marks (fun j => M j || (j =? i)) (fun j => W j || (wanted && (j =? i))) st'.
Proof.
  destruct st as [errLocs bits]. intros (Hl & Hv & ws & Eb & Hws & Hb) Hi. cbn [fst snd] in *. subst bits. unfold mark.
  rewrite upd_ret by lia. cbn [bind].
  assert (Hloc : length (set_nth errLocs i 1%N) = 256 /\ forall j, j < 256 -> nth j (set_nth errLocs i 1%N) 0%N = if M j || (j =? i) then 1%N else 0%N).
  { split; [now rewrite length_set_nth |]. intros j Hj. rewrite nth_set_nth, Hl, (proj2 (Nat.ltb_lt i 256)) by auto.
    destruct (Nat.eqb_spec j i); cbn [andb]; [now rewrite orb_true_r |]. rewrite orb_false_r. now apply Hv. }
  destruct wanted.
  - destruct (set_raw ws i Hws Hi) as (ws' & -> & Hws' & Hb'). cbn [bind]. eexists. split; [reflexivity |]. split; [apply Hloc |]. split; [apply Hloc |].
    exists ws'. split; [auto |]. split; [auto |]. intros j Hj. cbn [andb]. now rewrite Hb', Hb.
  - cbn [bind]. eexists. split; [reflexivity |]. split; [apply Hloc |]. split; [apply Hloc |]. exists ws. split; [auto |]. split; [auto |].
    intros j Hj. cbn [andb]. now rewrite orb_false_r, Hb.
Qed.

Lemma marks_ext M W M' W' st : (forall i, M i = M' i) -> (forall i, W i = W' i) -> marks M W st -> marks M' W' st.
Proof.
  intros HM HW (Hl & Hv & ws & Eb & Hws & Hb). split; [auto |]. split; [intros i Hi; rewrite <- HM; auto |].
  exists ws. split; [auto |]. split; [auto |]. intros i Hi. rewrite <- HW. auto.
Qed.

(** A loop that marks the places [i + o] of some of its indices *)
Lemma mark_loop M W wanted o lo hi (b : nat -> bool) body st : marks M W st -> lo <= hi -> hi + o <= 256 ->
  (forall i st, lo <= i < hi -> body i st = if b i then mark wanted (i + o) st else Ret st) ->
  let here := fun x => (lo + o <=? x) && (x <? hi + o) && b (x - o) in
  exists st', for_loop lo hi body st = Ret st' /\ marks (fun x => M x || here x) (fun x => W x || (wanted && here x)) st'.
Proof.
  intros Hst Hle Hhi Hbody. apply oc_ret.
  set (part := fun c x => (lo + o <=? x) && (x <? c + o) && b (x - o)).
  eapply oc_weaken with (Q := fun _ => False); [apply for_loop_rule with (I := fun c st => marks (fun x => M x || part c x) (fun x => W x || (wanted && part c x)) st); auto | auto | auto].
  - eapply marks_ext; [| | exact Hst]; intros x; unfold part; (replace ((lo + o <=? x) && (x <? lo + o)) with false;
      [| destruct (Nat.leb_spec (lo + o) x), (Nat.ltb_spec x (lo + o)); auto; lia]); cbn [andb]; now rewrite ?andb_false_r, orb_false_r.
  - intros c st1 Hc H1. rewrite Hbody by auto.
    assert (Hpart : forall x, part (S c) x = part c x || (b c && (x =? c + o))).
    { intros x. unfold part. destruct (Nat.eqb_spec x (c + o)) as [->|Hne].
      - replace (c + o - o) with c by lia. rewrite (proj2 (Nat.leb_le _ _)), (proj2 (Nat.ltb_lt _ (S c + o))), (proj2 (Nat.ltb_ge _ (c + o))) by lia. cbn [andb].
        now rewrite andb_true_r.
      - rewrite andb_false_r, orb_false_r. do 2 f_equal. destruct (Nat.ltb_spec x (S c + o)), (Nat.ltb_spec x (c + o)); auto; lia. }
    destruct (b c) eqn:Eb.
    + destruct (mark_ok _ _ wanted (c + o) st1 H1) as (st2 & -> & H2); [lia |]. cbn [oc_spec]. eapply marks_ext; [| | exact H2];
        intros x; cbn beta; rewrite Hpart; cbn [andb]; now rewrite ?andb_orb_distrib_r, orb_assoc.
    + cbn [oc_spec]. eapply marks_ext; [| | exact H1]; intros x; cbn beta; rewrite Hpart; cbn [andb]; now rewrite orb_false_r.
Qed.

Section Locations.
Context (r : leopardFF8) (m : nat) (recoverAll : bool) (shards : list slice).
Local Abbreviation d := (ff8_dataShards r).
Local Abbreviation p := (ff8_parityShards r).

Definition missing (i : nat) : bool := len (nth i shards Nil) =? 0.

(** The places that are lost: those of the missing shards, and the rest of the first
    block *)
Definition lost_place (x : nat) : bool :=
  if x <? p then missing (x + d) else if x <? m then true else (x <? m + d) && missing (x - m).
Definition wanted_place (x : nat) : bool := if x <? m then recoverAll && lost_place x else lost_place x.

Lemma error_locations_ok : length shards = d + p -> p <= m -> m + d <= 256 ->
  exists st, error_locations r m recoverAll shards = Ret st /\ marks lost_place wanted_place st.
Proof.
  intros Hl Hp Hm. unfold error_locations.
  assert (H0 : marks (fun _ => false) (fun _ => false) (repeat 0%N order8, no_errors)).
  { split; [reflexivity |]. split; [intros i Hi; cbn [fst]; apply nth_repeat_in; exact Hi |]. exists (repeat 0%N 4). split; [reflexivity |]. split; [reflexivity |].
    intros i Hi. unfold raw_bit. rewrite nth_repeat_in by (apply Nat.Div0.div_lt_upper_bound; lia). apply N.bits_0. }
  destruct (mark_loop _ _ recoverAll 0 0 p (fun i => missing (i + d)) (fun i st => s <- idx shards (i + d) ;; if len s =? 0 then mark recoverAll i st else Ret st) _ H0)
    as (s1 & -> & H1); [lia | lia | |].
  { intros i st Hi. rewrite (idx_nth Nil) by lia. cbn [bind]. rewrite Nat.add_0_r. reflexivity. }
  cbn [bind].
  destruct (mark_loop _ _ recoverAll 0 p m (fun _ => true) (fun i st => mark recoverAll i st) _ H1) as (s2 & -> & H2); [lia | lia | intros i st Hi; now rewrite Nat.add_0_r |].
  cbn [bind].
  destruct (mark_loop _ _ true m 0 d missing (fun i st => s <- idx shards i ;; if len s =? 0 then mark true (i + m) st else Ret st) _ H2) as (s3 & -> & H3); [lia | lia | |].
  { intros i st Hi. rewrite (idx_nth Nil) by lia. reflexivity. }
  exists s3. split; [reflexivity |]. eapply marks_ext; [| | exact H3]; intros x; cbn beta; unfold wanted_place, lost_place; cbn [Nat.add]; rewrite !Nat.add_0_r, !Nat.sub_0_r; cbn [Nat.leb andb orb];
    destruct (Nat.ltb_spec x p), (Nat.ltb_spec x m), (Nat.leb_spec p x), (Nat.leb_spec m x), (Nat.ltb_spec x (m + d)), (Nat.ltb_spec x (d + m)); try lia;
    cbn [andb orb]; rewrite ?andb_true_r, ?andb_false_r, ?orb_false_r, ?orb_true_r; try reflexivity.
Qed.
End Locations.

(** ** [cacheID] *)

Lemma le_put_bits n : forall v v' i, le_put n v = le_put n v' -> (i < 8 * N.of_nat n)%N -> N.testbit v i = N.testbit v' i.
Proof.
  induction n as [|n IH]; intros v v' i E Hi; [lia |]. cbn [le_put] in E.
  assert (E1 := f_equal (hd 0%N) E). assert (E2 := f_equal (@tl N) E). cbn [hd tl] in E1, E2. clear E. destruct (N.lt_ge_cases i 8) as [Hlt|Hge].
  - apply (f_equal (fun x => N.testbit x i)) in E1. change 255%N with (N.ones 8) in E1. rewrite !N.land_spec, !N.ones_spec_low, !andb_true_r in E1 by lia. exact E1.
  - specialize (IH _ _ (i - 8)%N E2 ltac:(lia)). rewrite !N.shiftr_spec' in IH. now replace (i - 8 + 8)%N with i in IH by lia.
Qed.

Lemma app_same_length {A} (a b c d : list A) : a ++ b = c ++ d -> length a = length c -> a = c /\ b = d.
Proof.
  revert c. induction a as [|x a IH]; intros [|y c] E Hl; try discriminate; [auto |]. cbn in E. injection E as -> E.
  destruct (IH c E) as [-> ->]; auto.
Qed.

Lemma le_put_length n v : length (le_put n v) = n.
Proof. revert v. induction n as [|n IH]; intros v; cbn; auto. Qed.

Lemma ret_inj {A} (a b : A) : (Ret a : result A) = Ret b -> a = b.
Proof. intros H. injection H. auto. Qed.

Lemma cacheID_words a b c e l : cacheID ([a; b; c; e] :: l) = Ret (le_put 8 a ++ le_put 8 b ++ le_put 8 c ++ le_put 8 e).
Proof. reflexivity. Qed.

(** The identifier of a field that is not prepared says which bits are set. *)
Lemma cacheID_raw ws ws' id : length ws = 4 -> length ws' = 4 -> cacheID (raw ws) = Ret id -> cacheID (raw ws') = Ret id ->
  forall i, i < 256 -> raw_bit ws i = raw_bit ws' i.
Proof.
  intros Hl Hl' E E' i Hi. destruct ws as [|a [|b [|c [|e [|]]]]]; try discriminate. destruct ws' as [|a' [|b' [|c' [|e' [|]]]]]; try discriminate.
  unfold raw in E, E'. rewrite cacheID_words in E, E'. apply ret_inj in E, E'. rewrite <- E' in E. clear E'.
  assert (Hj : (N.of_nat (i mod 64) < 8 * N.of_nat 8)%N) by (assert (H := Nat.mod_upper_bound i 64); lia).
  apply app_same_length in E as [Ea E]; [| now rewrite !le_put_length]. apply app_same_length in E as [Eb E]; [| now rewrite !le_put_length].
  apply app_same_length in E as [Ec Ee]; [| now rewrite !le_put_length]. unfold raw_bit.
  assert (Hq : i / 64 < 4) by (apply Nat.Div0.div_lt_upper_bound; lia).
  destruct (i / 64) as [|[|[|[|q]]]]; [| | | | lia]; cbn [nth].
  - now apply (le_put_bits 8).
  - now apply (le_put_bits 8).
  - now apply (le_put_bits 8).
  - now apply (le_put_bits 8).
Qed.

Lemma cacheID_ret ws l : length ws = 4 -> exists id, cacheID (ws :: l) = Ret id.
Proof. intros Hl. destruct ws as [|a [|b [|c [|e [|]]]]]; try discriminate. rewrite cacheID_words. eauto. Qed.
