(* ===== verification/Leopard8Recover.v ===== *)
(** * [Reconstruct] of the 8-bit Leopard encoder gives lost shards back

    At every byte the shards that are left are the codeword's values but for the
    losses; the transforms give the lost values times the locator.  Then the passes
    over the shards. *)
From Stdlib Require Import List Arith NArith ZArith Lia Bool.
From S2P Require Import Prelude Galois RSTypes Matrix Options LeopardTypes Coding Codec LeopardFFT Leopard8 Leopard8Codec.
From S2P Require Import GaloisField CodecCorrect Reconstruct LeopardNetwork Leopard8Field Leopard8Walsh Leopard8Kernels.
From S2P Require Import Leopard8Space Leopard8Buffers Leopard8Correct Leopard8Bits.
Import ListNotations.

(** ** At every byte *)

Local Abbreviation fft8 := (fft gf_add gf_mul skew8).
Local Abbreviation val8 := (val [] elem_at).

(** ** The locator *)

Lemma power_zsum (err : nat -> bool) i f n : n <= 256 -> i < 256 -> (forall j, j < n -> f j = (Z.of_N (if err j then 1%N else 0%N) * Z.of_N (log0 (N.of_nat (Nat.lxor i j))))%Z) ->
  (0 <= zsum n f)%Z /\ power (Z.to_nat (zsum n f)) = differences err i n.
Proof.
  intros Hn Hi. induction n as [|n IH]; intros Hf; [split; [reflexivity | reflexivity] |]. destruct IH as [IH0 IH1]; [lia | intros; apply Hf; lia |].
  cbn [zsum]. rewrite Hf by lia. split; [lia |]. cbn [differences]. destruct (err n) eqn:En; cbn [andb].
  - rewrite Z.mul_1_l. rewrite Z2Nat.inj_add, power_add, IH1 by lia. destruct (Nat.eqb_spec n i) as [->|Hne]; cbn [negb].
    + rewrite Nat.lxor_nilpotent. unfold log0. cbn [N.of_nat N.eqb Z.of_N Z.to_nat]. rewrite gmulC. apply gmul1.
    + f_equal. rewrite <- point_lxor. unfold point, elem, power.
      assert (Hx : Nat.lxor i n < 256) by (change 256 with (2 ^ 8); apply lxor_lt; change (2 ^ 8) with 256; lia).
      assert (H0 : Nat.lxor i n <> 0) by (intros H; apply Nat.lxor_eq in H; lia).
      destruct (phi_log (N.of_nat (Nat.lxor i n))) as [-> _]; [lia | lia |]. unfold log0. destruct (N.eqb_spec (N.of_nat (Nat.lxor i n)) 0); [lia |].
      do 2 f_equal. lia.
  - rewrite Z.mul_0_l, Z.add_0_r. exact IH1.
Qed.

Lemma differences_beyond err i n k : (forall j, n <= j -> err j = false) -> n <= k -> differences err i k = differences err i n.
Proof.
  intros H Hk. induction k as [|k IH]; [now replace n with 0 by lia |]. destruct (Nat.eq_dec n (S k)) as [->|]; [reflexivity |].
  cbn [differences]. rewrite H by lia. cbn [andb]. apply IH. lia.
Qed.

Lemma power_congr a b : (Z.of_N a mod 255 = b mod 255)%Z -> (0 <= b)%Z -> power (N.to_nat a) = power (Z.to_nat b).
Proof.
  intros H Hb. rewrite power_mod, (power_mod (Z.to_nat b)). f_equal. apply Nat2Z.inj. rewrite !Nat2Z.inj_mod, N_nat_Z, Z2Nat.id by auto. exact H.
Qed.

(** [locator] gives the logarithms of the differences. *)
Lemma locator_differences errLocs (M : nat -> bool) mtrunc : length errLocs = 256 -> (forall i, i < 256 -> nth i errLocs 0%N = if M i then 1%N else 0%N) -> mtrunc <= 256 ->
  (forall i, mtrunc <= i -> M i = false) ->
  exists locs, locator errLocs mtrunc = Ret locs /\ wok (fun x => (x < 256)%N) 256 locs /\
    forall i n, i < 256 -> mtrunc <= n <= 256 -> power (N.to_nat (nth i locs 0%N)) = differences M i n.
Proof.
  intros Hl Hv Hm Hz. destruct (locator_ok errLocs mtrunc) as (locs & E & Hw & V); auto.
  - split; [auto |]. apply Forall_nth. intros i x Hi. rewrite (nth_indep _ _ 0%N), Hv by lia. destruct (M i); lia.
  - intros i Hi. rewrite Hv, Hz by lia. reflexivity.
  - exists locs. split; [auto |]. split; [auto |]. intros i n Hi Hn. rewrite <- (differences_beyond M i n 256) by (auto; try lia; intros; apply Hz; lia).
    destruct (power_zsum M i (fun j => Z.of_N (nth j errLocs 0%N) * Z.of_N (log0 (N.of_nat (Nat.lxor i j))))%Z 256 (le_n _) Hi) as [P1 P2];
      [intros j Hj; now rewrite Hv |]. rewrite <- P2. now apply power_congr; [apply V |].
Qed.

(** ** [decode_work] *)
Section Piece.
Context (r : leopardFF8) (s l : nat) (Hfits : fits r s l) (sz : nat) (Hsz : sz mod 64 = 0) (Hpos : 0 < sz).
Local Abbreviation d := (ff8_dataShards r).
Local Abbreviation p := (ff8_parityShards r).
Local Abbreviation m := (2 ^ l).
Local Abbreviation n := (2 ^ (s + l)).
Local Abbreviation wok8 := (wok (buffer8 sz) n).
(** The pieces of the shards, empty for those that are missing *)
Context (sh : list (list N)) (Hsh : length sh = d + p) (there : nat -> bool).
Context (Hthere : forall i, i < d + p -> if there i then buffer8 sz (nth i sh []) else nth i sh [] = []).
Context (locs : list N) (Hlocs : wok (fun x => (x < 256)%N) 256 locs).

(** What a shard becomes at place [x] *)
Definition loaded (k x j : nat) : gf := if there j then gf_mul (power (N.to_nat (nth x locs 0%N))) (elem_at k (nth j sh [])) else gf0.

(** The loops that load shards [o], [o + 1], ... to the places from [w] on *)
Lemma load_loop w o cnt work : o + cnt <= d + p -> w + cnt <= n -> wok8 work ->
  exists work', for_loop 0 cnt (fun i work => load locs sh (w + i) (i + o) work) work = Ret work' /\ wok8 work' /\
    forall k x, val8 work' k x = if (w <=? x) && (x <? w + cnt) then loaded k x (x - w + o) else val8 work k x.
Proof.
  intros Ho Hw Hwork. assert (H256 : n <= 256) by apply Hfits.
  destruct (set_loop [] elem_at (buffer8 sz) n w 0 cnt (fun i st => x <- idx st (w + i) ;; s <- idx sh (i + o) ;;
      if negb (length s =? 0) then e <- idx locs (w + i) ;; mulgf8 x s e else Ret (memclr x)) (fun k i => loaded k (w + i) (i + o)) work) as (work' & E & Hw' & V); auto; try lia.
  - intros i st Hi Hst. rewrite (idx_nth []) by (destruct Hst; lia). cbn [bind]. rewrite (idx_nth []) by lia. cbn [bind].
    assert (Hx : buffer8 sz (nth (w + i) st [])) by (apply (wok_nth [] (buffer8 sz) n); auto; lia).
    specialize (Hthere (i + o) ltac:(lia)). unfold loaded. destruct (there (i + o)).
    + destruct Hthere as [L B]. rewrite L, (proj2 (Nat.eqb_neq sz 0)) by lia. cbn [negb]. rewrite (idx_nth 0%N) by (destruct Hlocs; lia). cbn [bind].
      destruct (mul_ok sz Hsz (nth (w + i) st []) (nth (i + o) sh []) (nth (w + i) locs 0%N)) as (z & Ez & Hz & Vz); [auto | now split | | ].
      * apply (wok_nth 0%N (fun x => (x < 256)%N) 256); auto. lia.
      * exists z. auto.
    + rewrite Hthere. cbn [length Nat.eqb negb]. destruct (clear_ok sz Hsz _ Hx) as [C1 C2]. eexists. split; [reflexivity |]. auto.
  - exists work'. split; [| split; [auto |]].
    + rewrite <- E. apply for_loop_ext. intros i st. unfold load. destruct (@idx rsError _ st (w + i)); cbn [bind]; auto.
      destruct (@idx rsError _ sh (i + o)); cbn [bind]; auto.
    + intros k x. rewrite V, Nat.add_0_r. destruct (Nat.leb_spec w x), (Nat.ltb_spec x (w + cnt)); cbn [andb]; auto. f_equal; lia.
Qed.

Lemma clear_loop lo hi work : lo <= hi -> hi <= n -> wok8 work ->
  exists work', for_loop lo hi clear work = Ret work' /\ wok8 work' /\ forall k x, val8 work' k x = if (lo <=? x) && (x <? hi) then gf0 else val8 work k x.
Proof.
  intros Hlo Hhi Hwork.
  destruct (set_loop [] elem_at (buffer8 sz) n 0 lo hi (fun i st => x <- idx st i ;; Ret (memclr x)) (fun _ _ => gf0) work) as (work' & E & Hw' & V); auto.
  - intros i st Hi Hst. rewrite (idx_nth []) by (destruct Hst; lia). cbn [bind].
    destruct (clear_ok sz Hsz (nth i st [])) as [C1 C2]; [apply (wok_nth [] (buffer8 sz) n); auto; lia |]. eexists. split; [reflexivity |]. auto.
  - exists work'. split; [| auto]. rewrite <- E. apply for_loop_ext. intros i st. unfold clear. destruct (@idx rsError _ st i); reflexivity.
Qed.

(** The work area before the transforms *)
Lemma load_all work : wok8 work ->
  exists work', (forall F : list (list N) -> result (list (list N)),
      (work <- for_loop 0 p (fun i work => load locs sh i (i + d) work) work ;; work <- for_loop p m clear work ;;
       work <- for_loop 0 d (fun i work => load locs sh (m + i) i work) work ;; work <- for_loop (m + d) n clear work ;; F work) = F work') /\ wok8 work' /\
    forall k x, x < n -> val8 work' k x = if x <? p then loaded k x (x + d) else if (m <=? x) && (x <? m + d) then loaded k x (x - m) else gf0.
Proof.
  intros Hw. destruct (fits_bounds r s l Hfits) as (Hd & Hp & Hn & _).
  destruct (load_loop 0 d p work) as (w1 & E1 & Hw1 & V1); auto; try lia. cbn [Nat.add] in E1.
  destruct (clear_loop p m w1) as (w2 & E2 & Hw2 & V2); auto; try lia.
  destruct (load_loop m 0 d w2) as (w3 & E3 & Hw3 & V3); auto; try lia.
  assert (E3' : for_loop 0 d (fun i work => load locs sh (m + i) i work) w2 = Ret w3) by (rewrite <- E3; apply for_loop_ext; intros; now rewrite Nat.add_0_r).
  destruct (clear_loop (m + d) n w3) as (w4 & E4 & Hw4 & V4); auto; try lia.
  exists w4. split; [intros F; rewrite E1; cbn [bind]; rewrite E2; cbn [bind]; rewrite E3'; cbn [bind]; now rewrite E4 |]. split; [auto |].
  intros k x Hx. rewrite V4, V3, V2, V1. rewrite Nat.add_0_r, Nat.sub_0_r. cbn [Nat.leb Nat.add].
  destruct (Nat.leb_spec (m + d) x), (Nat.ltb_spec x n), (Nat.leb_spec m x), (Nat.ltb_spec x (m + d)), (Nat.leb_spec p x), (Nat.ltb_spec x m), (Nat.ltb_spec x p); try lia; cbn [andb]; reflexivity.
Qed.

(** The codeword of every byte, and the losses *)
Context (v : nat -> nat -> gf) (Hv : forall k, k < sz -> leopard_codeword s l d p (v k)).
Context (err : nat -> bool) (Hcount : length (filter err (seq 0 n)) <= m) (Hbeyond : forall x, m + d <= x -> err x = false).
Context (Hparity : forall x, x < p -> err x = negb (there (x + d))) (Hblock : forall x, p <= x < m -> err x = true).
Context (Hdata : forall x, m <= x < m + d -> err x = negb (there (x - m))).
Context (Hpv : forall k x, k < sz -> x < p -> there (x + d) = true -> v k x = elem_at k (nth (x + d) sh [])).
Context (Hdv : forall k x, k < sz -> m <= x < m + d -> there (x - m) = true -> v k x = elem_at k (nth (x - m) sh [])).
Context (Hdiff : forall x, x < n -> power (N.to_nat (nth x locs 0%N)) = differences err x n).

Lemma decode_work_ok errorBits (useBits : bool) wanted work : wok8 work -> (useBits = true -> covers errorBits wanted) ->
  exists work', decode_work r m n locs errorBits useBits sh work = Ret work' /\ wok8 work' /\
    forall k x, k < sz -> x < m + d -> err x = true -> (x < p \/ m <= x) -> (useBits = true -> wanted x = true) ->
      val8 work' k x = gf_mul (differences err x n) (v k x).
Proof.
  intros Hw Hbits. destruct (fits_bounds r s l Hfits) as (Hd & Hp & Hn & H256). unfold decode_work.
  destruct (load_all work Hw) as (w1 & E1 & Hw1 & V1). rewrite E1. clear E1.
  destruct (ifftDITDecoder8_ok sz Hsz n (s + l) (m + d) w1) as (w2 & -> & Hw2 & V2); auto.
  { intros k x Hx. rewrite V1 by lia. rewrite (proj2 (Nat.ltb_ge x p)), (proj2 (Nat.ltb_ge x (m + d))) by lia. now rewrite andb_false_r. }
  cbn [bind]. destruct (formal_derivative8_ok sz Hsz n (s + l) w2) as (w3 & -> & Hw3 & V3); auto. cbn [bind]. cbv zeta.
  assert (Hlast : exists w4, (if useBits then errorBits_fftDIT8 errorBits w3 (m + d) n fftSkew8 else fftDIT8 w3 (m + d) n fftSkew8) = Ret w4 /\ wok8 w4 /\
    forall k x, x < m + d -> (useBits = true -> wanted x = true) -> val8 w4 k x = fft8 (s + l) 0 (val8 w3 k) x).
  { destruct useBits.
    - destruct (Hbits eq_refl) as [Hret Hneed]. set (need := fun l b => match isNeeded errorBits l b with Ret v => v | _ => false end).
      destruct (fft_layers8_ok sz Hsz (isNeeded errorBits) need n (s + l) (m + d) w3) as (w4 & E & Hw4 & V4); auto.
      { intros l0 b Hb. unfold need. destruct (Hret l0 b) as [x ->]; [lia | reflexivity]. }
      exists w4. split; [exact E |]. split; [auto |]. intros k x Hx Hwx. apply V4. split; [auto |]. intros l0 Hl0. unfold need. rewrite Hneed; auto; lia.
    - destruct (fftDIT8_ok sz Hsz n (s + l) (m + d) w3) as (w4 & E & Hw4 & V4); auto. exists w4. auto. }
  destruct Hlast as (w4 & -> & Hw4 & V4). exists w4. split; [reflexivity |]. split; [auto |].
  intros k x Hk Hx Ex Hcase Hwx. rewrite V4 by auto. destruct (Hv k Hk) as (c & Hc & Hcv).
  assert (Hvx : fft8 (s + l) 0 c x = v k x) by (rewrite Hcv by (auto; lia); now rewrite (proj2 (Nat.ltb_lt x (m + d)))).
  rewrite <- Hvx. rewrite (fft_ext gf_add gf_mul skew8 (s + l) 0 _ (dplus gf_add (s + l) (val8 w2 k))) by (auto; lia).
  apply (@lost_values8 s l c err (val8 w2 k)); auto; [apply (fits_exponent r s l Hfits) | | lia].
  intros y Hy. rewrite V2, V1 by auto.
  destruct (Nat.ltb_spec y p) as [Hyp|Hyp].
  - rewrite (Hparity y Hyp). unfold loaded. destruct (there (y + d)) eqn:Et; cbn [negb]; [| reflexivity].
    rewrite Hdiff, Hcv, (proj2 (Nat.ltb_lt y (m + d))) by lia. now rewrite Hpv.
  - destruct (Nat.leb_spec m y) as [Hym|Hym]; cbn [andb]; [| now rewrite Hblock by lia].
    destruct (Nat.ltb_spec y (m + d)) as [Hyd|Hyd].
    + rewrite (Hdata y ltac:(lia)). unfold loaded. destruct (there (y - m)) eqn:Et; cbn [negb]; [| reflexivity].
      rewrite Hdiff, Hcv, (proj2 (Nat.ltb_lt y (m + d))) by lia. now rewrite Hdv.
    + rewrite Hbeyond, Hcv, (proj2 (Nat.ltb_ge y (m + d))) by lia. symmetry. apply gmulz.
Qed.
End Piece.

(** ** Over the shards *)


Section Recover.
Context (r : leopardFF8) (pool : nat -> list N) (s l : nat) (Hfits : fits r s l) (Hpool : forall i, buffer8 workSize8 (pool i)).
Context (size : nat) (Hsize : size mod 64 = 0) (Hpos : 0 < size).
Local Abbreviation d := (ff8_dataShards r).
Local Abbreviation p := (ff8_parityShards r).
Local Abbreviation m := (2 ^ l).
Local Abbreviation n := (2 ^ (s + l)).

(** [shards] are those of [full], some of them missing. *)
Definition damaged8 (full shards : list slice) : Prop :=
  length shards = d + p /\
  forall i, i < d + p ->
    (len (nth i shards Nil) = 0 /\ Forall byte_ok (spare_of (nth i shards Nil))) \/
    (shard_ok size (nth i shards Nil) /\ forall k, k < size -> bytes_at shards i k = bytes_at full i k).

Context (full : list slice) (Hfl : length full = d + p) (Hfull : Forall (shard_ok size) full) (Hcode : leopard_code r s l size full).
Context (shards : list slice) (Hdam : damaged8 full shards) (Henough : d <= count shards).

Definition there (i : nat) : bool := present (nth i shards Nil).

Lemma there_missing i : there i = negb (missing shards i).
Proof. reflexivity. Qed.

Lemma there_ok i : i < d + p -> there i = true -> shard_ok size (nth i shards Nil) /\ forall k, k < size -> bytes_at shards i k = bytes_at full i k.
Proof.
  intros Hi Ht. destruct (proj2 Hdam i Hi) as [[H0 _]|H]; [| exact H]. unfold there, present in Ht. now rewrite H0 in Ht.
Qed.

(** The places of the losses number at most a block. *)
Lemma lost_count : length (filter (lost_place r m shards) (seq 0 n)) <= m.
Proof.
  destruct (fits_bounds r s l Hfits) as (Hd & Hp & Hn & _). assert (Hl := proj1 Hdam).
  set (gone := filter (missing shards) (seq 0 (d + p))).
  assert (Hgone : length gone <= p).
  { assert (H := filter_length (fun i => present (nth i shards Nil)) (seq 0 (d + p))). rewrite <- Hl, count_seq, length_seq in H.
    rewrite (filter_ext _ (missing shards)) in H by (intros i; unfold missing, present; now rewrite negb_involutive). rewrite Hl in H. fold gone in H. lia. }
  set (places := map (fun i => if i <? d then m + i else i - d) gone ++ seq p (m - p)).
  apply Nat.le_trans with (length places); [| unfold places; rewrite length_app, length_map, length_seq; lia].
  apply NoDup_incl_length; [apply NoDup_filter, seq_NoDup |]. intros x [Hx%in_seq Hlost]%filter_In. unfold lost_place in Hlost. apply in_or_app.
  destruct (Nat.ltb_spec x p) as [Hxp|Hxp].
  - left. apply in_map_iff. exists (x + d). rewrite (proj2 (Nat.ltb_ge (x + d) d)) by lia. split; [lia |]. apply filter_In. split; [apply in_seq; lia | exact Hlost].
  - destruct (Nat.ltb_spec x m) as [Hxm|Hxm]; [right; apply in_seq; lia |]. apply andb_true_iff in Hlost as [Hxd%Nat.ltb_lt Hm].
    left. apply in_map_iff. exists (x - m). rewrite (proj2 (Nat.ltb_lt (x - m) d)) by lia. split; [lia |]. apply filter_In. split; [apply in_seq; lia | exact Hm].
Qed.

(** Up to [done] bytes the shards below [stop_at] that were missing are there again. *)
Definition restored (stop_at done : nat) (st : list slice) : Prop :=
  length st = d + p /\ forall i, i < d + p ->
    if there i then nth i st Nil = nth i shards Nil
    else if i <? stop_at then shard_ok size (nth i st Nil) /\ forall k, k < Nat.min done size -> bytes_at st i k = bytes_at full i k
    else nth i st Nil = nth i shards Nil.

(** The pieces of the shards that were there *)
Definition there_pieces (off stop : nat) (st : list slice) : list (list N) :=
  map (fun '(s, b) => if b : bool then sub_list (bytes_of s) off stop else []) (combine st (map present shards)).

Lemma nth_there i : i < d + p -> nth i (map present shards) false = there i.
Proof. intros Hi. rewrite (nth_map_in _ _ Nil) by (rewrite (proj1 Hdam); lia). reflexivity. Qed.

Lemma slice_there stop_at done off stop st : restored stop_at done st -> off <= stop <= size ->
  mapM (fun '(s, b) => if b : bool then slice_range s off stop else Ret []) (combine st (map present shards)) = (Ret (there_pieces off stop st) : result _) /\
  length (there_pieces off stop st) = d + p /\
  forall i, i < d + p -> nth i (there_pieces off stop st) [] = if there i then sub_list (bytes_of (nth i shards Nil)) off stop else [].
Proof.
  intros [Lst Hst] Ho. assert (Ls := proj1 Hdam).
  assert (Hlen : length (combine st (map present shards)) = d + p) by (rewrite length_combine, length_map; lia).
  assert (Hnth : forall i, i < d + p -> nth i (combine st (map present shards)) (Nil, false) = (nth i st Nil, there i))
    by (intros i Hi; rewrite combine_nth, nth_there by (rewrite ?length_map; lia); reflexivity).
  split; [| split].
  - apply mapM_ret. intros x (i & Hi & <-)%(In_nth _ _ (Nil, false)). rewrite Hlen in Hi. rewrite Hnth by auto. destruct (there i) eqn:Et; [| reflexivity].
    specialize (Hst i Hi). rewrite Et in Hst. rewrite Hst. apply (slice_range_data size); [now apply there_ok | auto].
  - unfold there_pieces. now rewrite length_map.
  - intros i Hi. unfold there_pieces. rewrite (nth_map_in _ _ (Nil, false)), Hnth by lia. specialize (Hst i Hi). destruct (there i); [now rewrite Hst | reflexivity].
Qed.

(** The place of shard [i] in the transforms *)
Definition place_of (i : nat) : nat := if d <=? i then i - d else i + m.

Lemma place_of_lost i : i < d + p -> there i = false -> place_of i < m + d /\ (place_of i < p \/ m <= place_of i) /\ lost_place r m shards (place_of i) = true.
Proof.
  intros Hi Ht. destruct (fits_bounds r s l Hfits) as (Hd & Hp & _). rewrite there_missing in Ht. apply negb_false_iff in Ht. unfold place_of.
  destruct (Nat.leb_spec d i); (split; [lia |]; split; [lia |]); unfold lost_place.
  - rewrite (proj2 (Nat.ltb_lt (i - d) p)) by lia. now replace (i - d + d) with i by lia.
  - rewrite (proj2 (Nat.ltb_ge (i + m) p)), (proj2 (Nat.ltb_ge (i + m) m)), (proj2 (Nat.ltb_lt (i + m) (m + d))) by lia. cbn [andb]. now replace (i + m - m) with i by lia.
Qed.

Lemma place_place_of k i : i < d + p -> place r l full k (place_of i) = elem (bytes_at full i k).
Proof.
  intros Hi. destruct (fits_bounds r s l Hfits) as (Hd & Hp & _). unfold place, place_of. destruct (Nat.leb_spec d i).
  - rewrite (proj2 (Nat.ltb_lt (i - d) m)) by lia. now replace (d + (i - d)) with i by lia.
  - rewrite (proj2 (Nat.ltb_ge (i + m) m)) by lia. now replace (i + m - m) with i by lia.
Qed.

Section Pieces.
Context (recoverAll useBits : bool) (errorBits : errorBitfield8) (locs : list N).
Local Abbreviation stop_at := (if recoverAll then d + p else d).
Context (Hlocs : wok (fun x => (x < 256)%N) 256 locs).
Context (Hdiff : forall x, x < n -> power (N.to_nat (nth x locs 0%N)) = differences (lost_place r m shards) x n).
Context (Hbits : useBits = true -> covers errorBits (wanted_place r m recoverAll shards)).

Lemma place_of_wanted i : i < stop_at -> there i = false -> wanted_place r m recoverAll shards (place_of i) = true.
Proof.
  intros Hi Ht. destruct (place_of_lost i) as (H1 & H2 & H3); [destruct recoverAll; lia | auto |]. unfold wanted_place. rewrite H3. unfold place_of.
  destruct recoverAll; [now destruct (_ <? m) |]. destruct (Nat.leb_spec d i); [lia |]. now rewrite (proj2 (Nat.ltb_ge (i + m) m)) by lia.
Qed.

(** The product that undoes the locator *)
Lemma undo_locator sz old w x c : sz mod 64 = 0 -> buffer8 sz old -> buffer8 sz w -> x < n ->
  (forall k, k < sz -> elem_at k w = gf_mul (differences (lost_place r m shards) x n) (elem (c k))) -> (forall k, (c k < 256)%N) ->
  exists z, mulgf8 old w (modulus8 - nth x locs 0%N) = Ret z /\ buffer8 sz z /\ forall k, k < sz -> nth k z 0%N = c k.
Proof.
  intros Hsz Hold Hw Hx Hc Hbyte. assert (He : (nth x locs 0 < 256)%N) by (apply (wok_nth 0%N (fun x => (x < 256)%N) 256); auto; destruct (fits_bounds r s l Hfits); lia).
  destruct (mul_ok sz Hsz old w (modulus8 - nth x locs 0%N) Hold Hw) as (z & E & Hz & V); [unfold modulus8; lia |].
  exists z. split; [auto |]. split; [auto |]. intros k Hk. apply elem_inj; [apply bytes_ok_nth; apply Hz | apply Hbyte |].
  change (elem (nth k z 0%N)) with (elem_at k z). rewrite V, Hc, <- Hdiff, gmulA, <- power_add by auto.
  replace (Nat.add (N.to_nat (modulus8 - nth x locs 0%N)) (N.to_nat (nth x locs 0%N))) with 255 by (unfold modulus8; lia).
  change (power 255) with (toGF 1) at 1. apply gmul1.
Qed.

(** The transforms give the lost bytes times the locator. *)
Lemma decode_work_lost off stop st work : off < stop <= size -> (stop - off) mod 64 = 0 -> restored stop_at off st -> wok (buffer8 (stop - off)) n work ->
  exists work', decode_work r m n locs errorBits useBits (there_pieces off stop st) work = Ret work' /\ wok (buffer8 (stop - off)) n work' /\
    forall i k, i < stop_at -> there i = false -> k < stop - off ->
      elem_at k (nth (place_of i) work' []) = gf_mul (differences (lost_place r m shards) (place_of i) n) (elem (bytes_at full i (off + k))).
Proof.
  intros Ho Hsz Hst Hw. destruct (fits_bounds r s l Hfits) as (Hd & Hp & Hn & _).
  destruct (slice_there _ _ off stop st Hst) as (_ & Hlen & Hnth); [lia |]. set (sh := there_pieces off stop st) in *.
  assert (Hel : forall k j, k < stop - off -> j < d + p -> there j = true -> elem (bytes_at full j (off + k)) = elem_at k (nth j sh [])).
  { intros k j Hk Hj Ht. destruct (there_ok j Hj Ht) as [_ Hb]. rewrite <- Hb by lia. rewrite Hnth, Ht by auto. unfold elem_at. f_equal. rewrite nth_sub_list by lia. reflexivity. }
  destruct (decode_work_ok r s l Hfits (stop - off) Hsz ltac:(lia) sh Hlen there) with (locs := locs) (v := fun k => place r l full (off + k)) (err := lost_place r m shards)
    (errorBits := errorBits) (useBits := useBits) (wanted := wanted_place r m recoverAll shards) (work := work) as (w' & E & Hw' & V); auto.
  - intros j Hj. rewrite Hnth by auto. destruct (there j) eqn:Et; [| reflexivity]. destruct (there_ok j Hj Et) as [(_ & L & B) _]. unfold len in L.
    split; [apply length_sub_list; lia | now apply bytes_ok_sub].
  - intros k Hk. apply Hcode. lia.
  - apply lost_count.
  - intros x Hx. unfold lost_place. now rewrite (proj2 (Nat.ltb_ge x p)), (proj2 (Nat.ltb_ge x m)), (proj2 (Nat.ltb_ge x (m + d))) by lia.
  - intros x Hx. unfold lost_place. rewrite (proj2 (Nat.ltb_lt x p)) by lia. rewrite there_missing. now rewrite negb_involutive.
  - intros x Hx. unfold lost_place. now rewrite (proj2 (Nat.ltb_ge x p)), (proj2 (Nat.ltb_lt x m)) by lia.
  - intros x Hx. unfold lost_place. rewrite (proj2 (Nat.ltb_ge x p)), (proj2 (Nat.ltb_ge x m)), (proj2 (Nat.ltb_lt x (m + d))) by lia. rewrite there_missing. now rewrite negb_involutive.
  - intros k x Hk Hx Ht. unfold place. rewrite (proj2 (Nat.ltb_lt x m)) by lia. rewrite (Nat.add_comm x d) in *. apply Hel; auto. lia.
  - intros k x Hk Hx Ht. unfold place. rewrite (proj2 (Nat.ltb_ge x m)) by lia. apply Hel; auto. lia.
  - exists w'. split; [exact E |]. split; [auto |]. intros i k Hi Ht Hk. assert (Hi' : i < d + p) by (destruct recoverAll; lia).
    destruct (place_of_lost i Hi' Ht) as (P1 & P2 & P3). change (elem_at k (nth (place_of i) w' [])) with (val8 w' k (place_of i)).
    rewrite V by (auto; intros _; now apply place_of_wanted). now rewrite place_place_of.
Qed.

(** One shard is written. *)
Lemma restore_one off stop st i z : off <= stop <= size -> restored stop_at off st -> i < stop_at -> there i = false -> buffer8 (stop - off) z ->
  (forall k, k < stop - off -> nth k z 0%N = bytes_at full i (off + k)) ->
  let st' := set_nth st i (write_range (nth i st Nil) off z) in
  restored stop_at off st' /\ (forall k, k < stop -> bytes_at st' i k = bytes_at full i k) /\ (forall j, j <> i -> nth j st' Nil = nth j st Nil).
Proof.
  intros Ho [Lst Hst] Hi Ht Hz Hzb st'. assert (Hi' : i < d + p) by (destruct recoverAll; lia). assert (Hsti := Hst i Hi'). rewrite Ht, (proj2 (Nat.ltb_lt i _)) in Hsti by auto.
  destruct Hsti as [Hok Hlow]. assert (Hother : forall j, j <> i -> nth j st' Nil = nth j st Nil) by (intros j Hj; unfold st'; now rewrite nth_set_nth_ne).
  destruct Hz as [Lz Bz]. destruct (write_range_spec size (nth i st Nil) off z Hok) as (Hok' & _ & Hb); [lia | auto |].
  assert (Hnew : nth i st' Nil = write_range (nth i st Nil) off z) by (unfold st'; rewrite nth_set_nth_eq; auto; lia).
  assert (Hall : forall k, k < stop -> bytes_at st' i k = bytes_at full i k).
  { intros k Hk. unfold bytes_at at 1. rewrite Hnew, Hb, Lz. destruct (Nat.leb_spec off k); cbn [andb].
    - rewrite (proj2 (Nat.ltb_lt k _)) by lia. rewrite Hzb by lia. f_equal. lia.
    - apply Hlow. lia. }
  split; [| auto]. split; [unfold st'; now rewrite length_set_nth |]. intros j Hj. destruct (Nat.eq_dec j i) as [->|Hne].
  - rewrite Ht, (proj2 (Nat.ltb_lt i _)) by auto. rewrite Hnew. split; [exact Hok' |]. intros k Hk. apply Hall. lia.
  - specialize (Hst j Hj). rewrite Hother by auto. unfold bytes_at. now rewrite Hother by auto.
Qed.

Lemma restore_loop off stop st work : off < stop <= size -> (stop - off) mod 64 = 0 -> restored stop_at off st -> wok (buffer8 (stop - off)) n work ->
  (forall i k, i < stop_at -> there i = false -> k < stop - off ->
    elem_at k (nth (place_of i) work []) = gf_mul (differences (lost_place r m shards) (place_of i) n) (elem (bytes_at full i (off + k)))) ->
  exists st', for_loop 0 stop_at (fun i st =>
    b <- idx (map present shards) i ;;
    if b : bool then Ret st
    else
      s <- idx st i ;; old <- slice_range s off stop ;;
      let k := if d <=? i then i - d else i + m in
      w <- idx work k ;; e <- idx locs k ;; x <- mulgf8 old w (modulus8 - e) ;;
      upd st i (write_range s off x)) st = Ret st' /\ restored stop_at stop st'.
Proof.
  intros Ho Hsz Hst Hw Hv. destruct (fits_bounds r s l Hfits) as (Hd & Hp & Hn & H256). apply oc_ret.
  assert (Hstop : stop_at <= d + p) by (destruct recoverAll; lia).
  eapply oc_weaken with (Q := fun _ => False); [apply for_loop_rule with (I := fun c st => restored stop_at off st /\
    forall i k, i < c -> there i = false -> k < stop -> bytes_at st i k = bytes_at full i k) | | auto].
  - lia.
  - split; [auto |]. intros i k Hi. lia.
  - intros c st1 Hc [Hst1 Hdone]. rewrite (idx_nth false) by (rewrite length_map, (proj1 Hdam); lia). cbn [bind]. rewrite nth_there by lia.
    destruct (there c) eqn:Et; cbn [oc_spec].
    + split; [auto |]. intros i k Hi Ht Hk. apply Hdone; auto. assert (i <> c) by congruence. lia.
    + assert (Hc' : c < d + p) by lia. assert (Hstc := proj2 Hst1 c Hc'). rewrite Et, (proj2 (Nat.ltb_lt c _)) in Hstc by lia. destruct Hstc as [Hok _].
      rewrite (idx_nth Nil) by (destruct Hst1; lia). cbn [bind]. rewrite (slice_range_data size) by (auto; lia). cbn [bind]. cbv zeta. fold (place_of c).
      destruct (place_of_lost c Hc' Et) as (P1 & P2 & P3).
      rewrite (idx_nth []) by (destruct Hw; lia). cbn [bind]. rewrite (idx_nth 0%N) by (destruct Hlocs; lia). cbn [bind].
      destruct Hok as (Hnil & Hlen & Hbytes). unfold len in Hlen.
      destruct (undo_locator (stop - off) (sub_list (bytes_of (nth c st1 Nil)) off stop) (nth (place_of c) work []) (place_of c) (fun k => bytes_at full c (off + k))) as (z & -> & Hz & Vz); auto.
      * split; [apply length_sub_list; lia | now apply bytes_ok_sub].
      * apply (wok_nth [] (buffer8 (stop - off)) n); auto. lia.
      * lia.
      * intros k Hk. apply Hv; auto; lia.
      * intros k. apply (bytes_at_byte size). auto.
      * cbn [bind]. rewrite upd_ret by (destruct Hst1; lia). cbn [oc_spec].
        destruct (restore_one off stop st1 c z) as (R1 & R2 & R3); auto; [lia | lia |]. split; [exact R1 |].
        intros i k Hi Ht Hk. destruct (Nat.eq_dec i c) as [->|Hne]; [now apply R2 |]. unfold bytes_at. rewrite R3 by auto. apply Hdone; auto. lia.
  - intros st1 [[L1 H1] Hdone]. split; [auto |]. intros i Hi. specialize (H1 i Hi). destruct (there i) eqn:Et; [auto |].
    destruct (Nat.ltb_spec i stop_at); [| auto]. split; [apply H1 |]. intros k Hk. apply Hdone; auto. lia.
Qed.

(** One piece *)
Lemma decode_piece_ok off st work : off < size -> off mod 64 = 0 -> restored stop_at off st -> wok (buffer8 workSize8) n work ->
  exists work' st', decode_piece r m n size stop_at locs errorBits useBits (map present shards) off (work, st) = Ret (work', st') /\
    restored stop_at (off + workSize8) st' /\ (off + workSize8 <= size -> wok (buffer8 workSize8) n work').
Proof.
  intros Hoff Hoff64 Hst Hw. unfold decode_piece. set (stop := if size <? off + workSize8 then size else off + workSize8).
  assert (HW : 0 < workSize8) by (change (0 < 32 * 1024); lia).
  assert (Hstop : off < stop <= size /\ stop = Nat.min (off + workSize8) size) by (unfold stop; destruct (Nat.ltb_spec size (off + workSize8)); lia).
  assert (Hsz : (stop - off) mod 64 = 0).
  { unfold stop. destruct (_ <? _); [now apply multiple_sub |]. now replace (off + workSize8 - off) with workSize8 by lia. }
  destruct (piece_buffers size Hsize n off work Hoff Hw) as (w1 & -> & Hw1). fold stop in Hw1. cbn [bind].
  destruct (slice_there _ _ off stop st Hst) as (E & _); [lia |]. rewrite E. cbn [bind].
  destruct (decode_work_lost off stop st w1) as (w2 & -> & Hw2 & V2); auto; [lia |]. cbn [bind].
  destruct (restore_loop off stop st w2) as (st' & E2 & Hst'); auto; [lia |]. cbv zeta in E2 |- *. rewrite E2. cbn [bind]. exists w2, st'. split; [reflexivity |]. split.
  - destruct Hst' as [L H']. split; [auto |]. intros i Hi. specialize (H' i Hi). destruct (there i); [auto |]. destruct (i <? stop_at); [| auto].
    split; [apply H' |]. intros k Hk. apply H'. lia.
  - intros Hle. replace workSize8 with (stop - off); [exact Hw2 | lia].
Qed.

(** All pieces *)
Lemma decode_all st : restored stop_at 0 st ->
  exists work st', for_step size workSize8 (decode_piece r m n size stop_at locs errorBits useBits (map present shards)) (map pool (seq 0 n), st) = Ret (work, st') /\
    restored stop_at size st'.
Proof.
  intros Hst.
  destruct (pieces_loop size Hsize (fun off '(work, st) => (off < size -> wok (buffer8 workSize8) n work) /\ restored stop_at off st)
    (decode_piece r m n size stop_at locs errorBits useBits (map present shards)) (map pool (seq 0 n), st)) as ([work st'] & off & E & Hoff & _ & L & H'); auto.
  - split; [intros _; now apply work_pool | auto].
  - intros off [work st1] Hoff H64 [Hw H1]. destruct (decode_piece_ok off st1 work Hoff H64 H1 (Hw Hoff)) as (w' & st' & -> & H' & Hw'). cbn [oc_spec]. split; [| auto].
    intros H. apply Hw'. lia.
  - exists work, st'. split; [exact E |]. split; [auto |]. intros i Hi. specialize (H' i Hi). destruct (there i); [auto |]. destruct (i <? stop_at); [| auto].
    split; [apply H' |]. intros k Hk. apply H'. lia.
Qed.
End Pieces.

(** ** What precedes the pieces *)

Lemma output_shard x : len x = 0 -> Forall byte_ok (spare_of x) ->
  exists y, (if size <=? cap x then reslice x size else Ret (Sl (repeat 0%N size) [])) = (Ret y : result _) /\ shard_ok size y.
Proof.
  intros Hx Hsp. destruct (Nat.leb_spec size (cap x)) as [Hc|Hc].
  - unfold reslice. rewrite (proj2 (Nat.ltb_ge _ _)) by auto. destruct x as [|dt sp]; [unfold cap in Hc; cbn in Hc; lia |]. unfold len, cap in *. cbn [bytes_of spare_of] in *.
    destruct dt; [| discriminate]. eexists. split; [reflexivity |]. split; [reflexivity |]. cbn [app length] in *. split; [unfold len; cbn; lens | now apply firstn_Forall].
  - eexists. split; [reflexivity |]. split; [reflexivity |]. split; [apply repeat_length | now apply bytes_ok_repeat].
Qed.

Lemma add_output_ok recoverAll : exists st, add_output r recoverAll size shards = Ret st /\ restored (if recoverAll then d + p else d) 0 st.
Proof.
  set (stop_at := if recoverAll then d + p else d). assert (Hl := proj1 Hdam). apply oc_ret. unfold add_output.
  eapply oc_weaken with (Q := fun _ => False); [apply for_loop_rule with (I := fun c st => length st = d + p /\ forall i, i < d + p ->
    if there i || negb ((i <? c) && (i <? stop_at)) then nth i st Nil = nth i shards Nil else shard_ok size (nth i st Nil)) | | auto].
  - lia.
  - split; [auto |]. intros i Hi. cbn [Nat.ltb Nat.leb andb negb]. now rewrite orb_true_r.
  - intros c st Hc [Lst Hst]. assert (Hcc : c < d + p) by lia. rewrite (idx_nth Nil) by lia. cbn [bind]. assert (Hstc := Hst c Hcc). rewrite Nat.ltb_irrefl in Hstc. cbn [andb negb] in Hstc. rewrite orb_true_r in Hstc.
    assert (Hsame : there c || negb (c <? stop_at) = true -> forall i, i < d + p -> if there i || negb ((i <? S c) && (i <? stop_at)) then nth i st Nil = nth i shards Nil else shard_ok size (nth i st Nil)).
    { intros Hcase i Hi. destruct (Nat.eq_dec i c) as [->|Hne].
      - rewrite (proj2 (Nat.ltb_lt c (S c))) by lia. cbn [andb]. now rewrite Hcase.
      - specialize (Hst i Hi). replace (i <? S c) with (i <? c) by (destruct (Nat.ltb_spec i c), (Nat.ltb_spec i (S c)); auto; lia). exact Hst. }
    replace (negb recoverAll && (d <=? c)) with (negb (c <? stop_at)).
    2:{ unfold stop_at. destruct recoverAll; cbn [negb andb]; [rewrite (proj2 (Nat.ltb_lt c _)) by auto; reflexivity | symmetry; apply Nat.leb_antisym]. }
    destruct (Nat.ltb_spec c stop_at) as [Hcs|Hcs]; cbn [negb] in Hsame |- *; [| cbn [oc_spec]; split; [auto |]; apply Hsame; now rewrite orb_true_r].
    rewrite Hstc. destruct (Nat.eqb_spec (len (nth c shards Nil)) 0) as [H0|H0].
    + destruct (proj2 Hdam c Hcc) as [[_ Hsp]|[(_ & HL & _) _]]; [| lia]. destruct (output_shard _ H0 Hsp) as (y & -> & Hy). cbn [bind]. rewrite upd_ret by lia. cbn [oc_spec].
      split; [now rewrite length_set_nth |]. intros i Hi. destruct (Nat.eq_dec i c) as [->|Hne].
      * rewrite nth_set_nth_eq by lia. unfold there, present. rewrite H0, (proj2 (Nat.ltb_lt c (S c))), (proj2 (Nat.ltb_lt c stop_at)) by lia. exact Hy.
      * rewrite nth_set_nth_ne by auto. specialize (Hst i Hi). replace (i <? S c) with (i <? c) by (destruct (Nat.ltb_spec i c), (Nat.ltb_spec i (S c)); auto; lia). exact Hst.
    + cbn [oc_spec]. split; [auto |]. apply Hsame. unfold there, present. rewrite (proj2 (Nat.eqb_neq _ 0)) by auto. reflexivity.
  - intros st [Lst Hst]. split; [auto |]. intros i Hi. specialize (Hst i Hi). rewrite Hl, (proj2 (Nat.ltb_lt i (d + p))) in Hst by auto. cbn [andb] in Hst.
    destruct (there i); [exact Hst |]. cbn [orb] in Hst. destruct (i <? stop_at); [| exact Hst]. split; [exact Hst |]. intros k Hk. lia.
Qed.

Lemma count_present_ok : count_present r shards = Ret (count shards, count (firstn d shards)).
Proof.
  assert (Hl := proj1 Hdam). assert (Ht : ff8_totalShards r = d + p) by apply Hfits. unfold count_present. rewrite Ht.
  match goal with |- ?c = _ => assert (H : oc_spec c (fun st => st = (count (firstn (d + p) shards), count (firstn (Nat.min (d + p) d) shards))) (fun _ => False)) end.
  - apply for_loop_rule with (I := fun c st => st = (count (firstn c shards), count (firstn (Nat.min c d) shards))); [lia | reflexivity |].
    intros i st Hi ->. rewrite (idx_nth Nil) by lia. cbn [bind]. rewrite count_snoc by lia.
    destruct (Nat.ltb_spec i d).
    + rewrite !Nat.min_l by lia. rewrite count_snoc by lia. now destruct (present (nth i shards Nil)).
    + rewrite !Nat.min_r by lia. now destruct (present (nth i shards Nil)).
  - apply oc_ret in H as (st & -> & ->). rewrite Nat.min_r by lia. rewrite <- Hl, firstn_all. reflexivity.
Qed.

(** What a call gives back *)
Definition recovered8 (recoverAll : bool) (new : list slice) : Prop :=
  length new = d + p /\ forall i, i < d + p ->
    if there i || (i <? (if recoverAll then d + p else d)) then shard_ok size (nth i new Nil) /\ forall k, k < size -> bytes_at new i k = bytes_at full i k
    else nth i new Nil = nth i shards Nil.

Lemma recovered_restored (recoverAll : bool) st : restored (if recoverAll then d + p else d) size st -> recovered8 recoverAll st.
Proof.
  intros [L H]. split; [auto |]. intros i Hi. specialize (H i Hi). destruct (there i) eqn:Et; cbn [orb].
  - unfold bytes_at. rewrite H. now apply there_ok.
  - destruct (i <? _); [rewrite Nat.min_id in H |]; exact H.
Qed.

Lemma recovered8_all (recoverAll : bool) : (forall i, i < (if recoverAll then d + p else d) -> there i = true) -> recovered8 recoverAll shards.
Proof.
  intros H. split; [apply Hdam |]. intros i Hi. destruct (there i) eqn:Et; cbn [orb]; [now apply there_ok |].
  destruct (Nat.ltb_spec i (if recoverAll then d + p else d)); [| reflexivity]. rewrite H in Et by auto. discriminate.
Qed.

(** Every entry of the cache is the locator of the set of losses it is stored for. *)
Definition entry_valid (id : list N) (e : leopardGF8cache) : Prop :=
  cache_bits e = None /\ wok (fun x => (x < 256)%N) 256 (errorLocs e) /\
  forall ws, length ws = 4 -> cacheID (raw ws) = Ret id -> forall x, x < n -> power (N.to_nat (nth x (errorLocs e) 0%N)) = differences (raw_bit ws) x n.
Definition cache_valid (r : leopardFF8) : Prop :=
  match ff8_inversion r with Some c => forall id e, inversion_lookup id c = Some e -> entry_valid id e | None => True end.

(** The field of bits is used for a few losses among many bytes. *)
Definition uses_bits : bool := (d + p - count shards <=? p / 4) && (64 * 1024 <=? size * (d + p)).

(** A cache whose answers are right: it is off or empty, or it is valid and neither
    [ReconstructData] nor the field of bits comes into play. *)
Definition cache_fine (recoverAll : bool) : Prop :=
  ff8_inversion r = None \/ ff8_inversion r = Some [] \/ (cache_valid r /\ recoverAll = true /\ uses_bits = false).

Lemma differences_ext err err' i k : (forall j, j < k -> err j = err' j) -> differences err i k = differences err' i k.
Proof. induction k as [|k IH]; intros H; [reflexivity |]. cbn [differences]. rewrite H, IH by (auto; intros; apply H; lia). reflexivity. Qed.

Lemma wanted_all x : wanted_place r m true shards x = lost_place r m shards x.
Proof. unfold wanted_place. now destruct (x <? m). Qed.

Lemma same_encoder : exists inv, r = with_inversion r inv.
Proof. exists (ff8_inversion r). now destruct r. Qed.

Lemma cached_locator_ok recoverAll st : cache_fine recoverAll -> marks (lost_place r m shards) (wanted_place r m recoverAll shards) st ->
  exists locs errorBits ub r', cached_locator r (fst st) (snd st) uses_bits (m + d) = Ret (locs, errorBits, ub, r') /\
    wok (fun x => (x < 256)%N) 256 locs /\ (forall x, x < n -> power (N.to_nat (nth x locs 0%N)) = differences (lost_place r m shards) x n) /\
    (ub = true -> covers errorBits (wanted_place r m recoverAll shards)) /\ (cache_valid r -> recoverAll = true -> uses_bits = false -> cache_valid r') /\ exists inv, r' = with_inversion r inv.
Proof.
  intros Hcache (Hlen & Hv & ws & Ebits & Hws & Hraw). destruct (fits_bounds r s l Hfits) as (Hd & Hp & Hn & H256).
  destruct (locator_differences (fst st) (lost_place r m shards) (m + d) Hlen Hv) as (locs & El & Hlocs & Hdiff); [lia | |].
  { intros i Hi. unfold lost_place. now rewrite (proj2 (Nat.ltb_ge i p)), (proj2 (Nat.ltb_ge i m)), (proj2 (Nat.ltb_ge i (m + d))) by lia. }
  assert (Hd' : forall x, x < n -> power (N.to_nat (nth x locs 0%N)) = differences (lost_place r m shards) x n) by (intros x Hx; apply Hdiff; lia).
  rewrite Ebits. destruct (cacheID_ret ws (repeat (repeat 0%N kWords8) 6) Hws) as (id & Eid). fold (raw ws) in Eid. unfold cached_locator.
  (* the entry that is there *)
  assert (Hfound : forall c e, ff8_inversion r = Some c -> inversion_lookup id c = Some e -> cache_fine recoverAll ->
    cache_bits e = None /\ wok (fun x => (x < 256)%N) 256 (errorLocs e) /\ forall x, x < n -> power (N.to_nat (nth x (errorLocs e) 0%N)) = differences (lost_place r m shards) x n).
  { intros c e Hc He [H|[H|(Hval & Hall & _)]]; [congruence | rewrite H in Hc; injection Hc as <-; discriminate |]. unfold cache_valid in Hval. rewrite Hc in Hval.
    destruct (Hval id e He) as (H1 & H2 & H3). split; [auto |]. split; [auto |]. intros x Hx. rewrite (H3 ws Hws Eid x Hx). apply differences_ext.
    intros j Hj. rewrite Hraw by lia. rewrite Hall. apply wanted_all. }
  (* a locator that is computed *)
  assert (Hnew : exists bits, (if uses_bits then prepare (raw ws) else Ret (raw ws)) = Ret bits /\ (uses_bits = true -> covers bits (wanted_place r m recoverAll shards)) /\
    (exists id', cacheID bits = Ret id' /\ (uses_bits = false -> id' = id))).
  { destruct uses_bits; [| exists (raw ws); split; [auto |]; split; [discriminate |]; exists id; auto].
    destruct (prepare_covers ws Hws) as (bits & Ep & Hret & Hneed). exists bits. split; [auto |]. split.
    - intros _. split; [auto |]. intros i k Hi Hw. apply Hneed; auto. now rewrite Hraw.
    - destruct ws as [|a [|b [|c [|e [|]]]]]; try discriminate. rewrite prepare_words in Ep. apply ret_inj in Ep. subst bits.
      cbn [map]. rewrite cacheID_words. eexists. split; [reflexivity | discriminate]. }
  destruct Hnew as (bits & Ep & Hcov & id' & Eid' & Hid').
  destruct (ff8_inversion r) as [c|] eqn:Ec.
  - rewrite Eid. cbn [bind]. destruct (inversion_lookup id c) as [e|] eqn:Ee.
    + destruct (Hfound c e eq_refl Ee Hcache) as (Hb & Hw & Hdf). rewrite Hb. exists (errorLocs e), (raw ws), false, r. split; [reflexivity |]. split; [auto |].
      split; [auto |]. split; [discriminate |]. split; [auto | apply same_encoder].
    + rewrite Ep. cbn [bind]. rewrite El. cbn [bind]. rewrite Eid'. cbn [bind]. do 4 eexists. split; [reflexivity |]. split; [auto |]. split; [auto |]. split; [auto |]. split; [| eexists; reflexivity].
      intros Hval Hall Hub. unfold cache_valid in Hval |- *. rewrite Ec in Hval. cbn [with_inversion ff8_inversion]. intros id0 e0. cbn [inversion_lookup].
      destruct (list_eq_dec N.eq_dec id0 id') as [->|]; [| apply Hval]. intros E0. injection E0 as <-. rewrite Hub. split; [reflexivity |]. split; [auto |].
      cbn [errorLocs]. intros ws' Hws' Eid0 x Hx. rewrite Hd' by auto. rewrite (Hid' Hub) in Eid0. apply differences_ext. intros j Hj.
      rewrite <- (cacheID_raw ws ws' id Hws Hws' Eid Eid0 j) by lia. rewrite Hraw by lia. rewrite Hall. symmetry. apply wanted_all.
  - cbn [bind]. rewrite Ep. cbn [bind]. rewrite El. cbn [bind]. exists locs, bits, uses_bits, r. split; [reflexivity |]. split; [auto |]. split; [auto |]. split; [auto |].
    split; [auto | apply same_encoder].
Qed.

(** [reconstruct] gives the shards back. *)
Lemma reconstruct_ok recoverAll : cache_fine recoverAll -> exists r' new, reconstruct r pool shards recoverAll = Ret (r', new) /\ recovered8 recoverAll new /\
  (cache_valid r -> recoverAll = true -> uses_bits = false -> cache_valid r') /\ exists inv, r' = with_inversion r inv.
Proof.
  intros Hcache. destruct (fits_bounds r s l Hfits) as (Hd & Hp & Hn & H256). assert (Hl := proj1 Hdam). assert (Ht : ff8_totalShards r = d + p) by apply Hfits.
  unfold reconstruct. rewrite Ht, Hl, Nat.eqb_refl. cbn [negb].
  assert (Hsized : sized size shards).
  { apply Forall_forall. intros x (i & Hi & <-)%(In_nth _ _ Nil). destruct (proj2 Hdam i) as [[H0 _]|[H0 _]]; [lia | auto | auto]. }
  assert (Hex : existsb present shards = true).
  { apply existsb_exists. unfold count in Henough. destruct (filter present shards) as [|x t] eqn:Ef; [cbn in Henough; lia |].
    assert (Hin : In x (filter present shards)) by (rewrite Ef; now left). apply filter_In in Hin. eauto. }
  rewrite (checkShards_sized size) by auto. cbn [bind]. rewrite count_present_ok. cbn [bind].
  destruct ((count shards =? d + p) || (negb recoverAll && (count (firstn d shards) =? d))) eqn:Equit.
  { exists r, shards. split; [reflexivity |]. split; [| split; [auto | apply same_encoder]]. apply recovered8_all. intros i Hi. unfold there.
    apply orb_true_iff in Equit as [E%Nat.eqb_eq|[Er E%Nat.eqb_eq]%andb_true_iff].
    - apply count_all; [lia | destruct recoverAll; lia].
    - destruct recoverAll; [discriminate |]. assert (Lf : length (firstn d shards) = d) by (rewrite length_firstn; lia).
      rewrite <- (nth_firstn_in shards Nil Hi). apply count_all; lia. }
  rewrite (proj2 (Nat.ltb_ge _ _)) by auto. rewrite (shardSize_sized size) by auto. rewrite Hsize. cbn [Nat.eqb negb]. cbv zeta.
  fold uses_bits. rewrite (proj1 (proj2 (proj2 (proj2 Hfits)))), (proj1 (proj2 (proj2 (proj2 (proj2 Hfits))))).
  destruct (error_locations_ok r m recoverAll shards) as (st & -> & Hmarks); [auto | lia | lia |]. cbn [bind]. destruct st as [errLocs bits0].
  destruct (cached_locator_ok recoverAll (errLocs, bits0) Hcache Hmarks) as (locs & bits & ub & r' & E & Hlocs & Hdiff & Hbits & Hval & Hsame). cbn [fst snd] in E. rewrite E. cbn [bind].
  destruct (add_output_ok recoverAll) as (st0 & -> & Hst0). cbn [bind].
  destruct (decode_all recoverAll ub bits locs Hlocs Hdiff Hbits st0 Hst0) as (work & new & E2 & Hnew). rewrite E2. cbn [bind].
  exists r', new. split; [reflexivity |]. split; [now apply recovered_restored | auto].
Qed.
End Recover.
