(* ===== verification/CodecTheorems.v ===== *)
(** * The properties of the encoder

    Statements about an encoder [New] returned; the sets of shards of the
    witnesses are small enough to be computed. *)
From Stdlib Require Import List Arith NArith ZArith Lia Bool.
From S2P Require Import Prelude Galois RSTypes Matrix EncodingMatrix InversionTree Options IO Coding Codec.
From S2P Require Import SplitJoin CodecCorrect Reconstruct NewEncoder.
Import ListNotations.

(** ** Concrete inputs *)

Definition cpu0 : machine := {|
  supports_SSSE3 := true; supports_SSE2 := true; supports_AVX2 := true; supports_AVX512 := false;
  supports_AVX512_GFNI := false; supports_AVX_GFNI := false; supports_ASIMD := false; supports_SVE := false;
  cache_L1D := 32768%Z; cache_L2 := 1048576%Z; ThreadsPerCore := 2%Z; PhysicalCores := 4%Z;
  GOMAXPROCS := 8%Z |}.

Lemma supported0 : supported cpu0 2 2 [].
Proof. split; try reflexivity; try lia; constructor; cbn; lia. Qed.

Definition enc0 : reedSolomon :=
  Eval vm_compute in
  match New cpu0 2 2 [] with
  | Ret (RS r) => r
  | _ => {| dataShards := 0; parityShards := 0; totalShards := 0; rs_m := []; rs_tree := None;
            rs_parity := []; rs_o := defaultOptions cpu0 |}
  end.

Definition shard (l : list N) : slice := Sl l [].

(** Two data shards of three bytes and room for the parity. *)
Definition data0 : list slice := [shard [1; 2; 3]; shard [250; 251; 252]; shard [0; 0; 0]; shard [9; 9; 9]]%N.

Definition full0 : list slice :=
  Eval vm_compute in match Encode enc0 data0 with Ret l => l | _ => [] end.

Ltac shards_ok := repeat (constructor; [split; [reflexivity | split; [reflexivity | repeat constructor]] |]); constructor.

Lemma data0_ok : Forall (shard_ok 3) data0.
Proof. shards_ok. Qed.

Section Properties.
Context (cpu : machine) (d p : nat) (opts : list Option) (r : reedSolomon) (n : nat).
Context (Hsup : supported cpu d p opts)
  (Hnew : New cpu (Z.of_nat d) (Z.of_nat p) opts = Ret (RS r)) (Hn : 0 < n).

(** C3: encode a set of shards, lose any of them but [d]: [Reconstruct] gives
    every byte of every shard back. *)
Theorem Reconstruct_recovers shards full damaged_shards :
  length shards = d + p -> Forall (shard_ok n) shards -> Encode r shards = Ret full ->
  damaged r n full damaged_shards -> d <= count damaged_shards ->
  exists r' shards', Reconstruct r damaged_shards = Ret (r', shards') /\
    map bytes_of shards' = map bytes_of full.
Proof.
  destruct (New_ok cpu d p opts r Hsup Hnew) as (Hok & Hd & Hp & Ht).
  intros Hl Hf He Hdam Hc.
  destruct (Encode_spec r Hok n shards Hn ltac:(lia) Hf) as (out & Ho & Hcw & _).
  rewrite He in Ho. injection Ho as <-.
  destruct (reconstruct_spec r Hok n full damaged_shards false None) as (r' & sh & H1 & _ & _ & Hlen & _ & H2);
    auto; [exact I | lia |].
  exists r', sh. split; [exact H1 |].
  apply (recovered_all r n); auto; [apply Hcw | apply Hcw |].
  intros i Hi. specialize (H2 i Hi). cbn in H2. now rewrite orb_true_r in H2.
Qed.

(** C6: [Encode] leaves the data shards alone and makes the parity shards the
    encoding matrix applied to every column of bytes, in their own memory. *)
Theorem Encode_codeword shards : length shards = d + p -> Forall (shard_ok n) shards ->
  exists full, Encode r shards = Ret full /\ codeword r n full /\
    firstn d full = firstn d shards /\
    forall i, i < d + p -> spare_of (nth i full Nil) = spare_of (nth i shards Nil).
Proof.
  destruct (New_ok cpu d p opts r Hsup Hnew) as (Hok & Hd & Hp & Ht). intros Hl Hf.
  destruct (Encode_spec r Hok n shards Hn ltac:(lia) Hf) as (out & Ho & Hcw & Hdata & Hsp).
  exists out. rewrite Hd in Hdata. rewrite Ht in Hsp. auto.
Qed.

(** C7: [Verify] answers true exactly on the codewords. *)
Theorem Verify_codeword shards : length shards = d + p -> Forall (shard_ok n) shards ->
  exists b, Verify r shards = Ret b /\ (b = true <-> codeword r n shards).
Proof.
  destruct (New_ok cpu d p opts r Hsup Hnew) as (Hok & Hd & Hp & Ht). intros Hl Hf.
  apply (Verify_spec r Hok n shards Hn); [lia | auto].
Qed.

(** [ReconstructSome] with a flag for every shard gives the flagged shards
    back and leaves the others alone, provided every missing data shard is
    flagged. *)
Theorem ReconstructSome_recovers full damaged_shards required :
  codeword r n full -> damaged r n full damaged_shards -> d <= count damaged_shards ->
  length required = d + p ->
  (forall i, i < d -> present (nth i damaged_shards Nil) = false -> nth i required false = true) ->
  exists r' shards', ReconstructSome r damaged_shards required = Ret (r', shards') /\ rs_ok r' /\
    forall i, i < d + p -> if nth i required false then recovered n full shards' i
                           else nth i shards' Nil = nth i damaged_shards Nil.
Proof.
  destruct (New_ok cpu d p opts r Hsup Hnew) as (Hok & Hd & Hp & Ht). intros Hcw Hdam Hc Hq Hall.
  assert (Hql : length required = totalShards r) by lia.
  destruct (reconstruct_spec r Hok n full damaged_shards false (Some required)) as (r' & sh & H1 & H2 & _ & _ & _ & H3);
    auto; [lia | right; right; rewrite Hd; exact Hall |].
  exists r', sh. unfold ReconstructSome. rewrite Hql, Nat.eqb_refl. split; [exact H1 |]. split; [exact H2 |].
  intros i Hi. specialize (H3 i ltac:(lia)). cbn in H3. now rewrite orb_true_r, andb_true_r in H3.
Qed.

(** With fewer than [d] shards left nothing is reconstructed. *)
Theorem Reconstruct_too_few shards dataOnly : length shards = d + p -> sized n shards ->
  existsb present shards = true -> count shards < d ->
  reconstruct r shards dataOnly None = Err ErrTooFewShards.
Proof.
  destruct (New_ok cpu d p opts r Hsup Hnew) as (Hok & Hd & Hp & Ht). intros Hl Hs He Hc.
  apply (reconstruct_too_few r Hok n); auto; lia.
Qed.
End Properties.


Lemma Reconstruct_recovers_witness :
  let lost := [Nil; shard [250; 251; 252]%N; Nil; nth 3 full0 Nil] in
  exists r' shards', Reconstruct enc0 lost = Ret (r', shards') /\
    map bytes_of shards' = map bytes_of full0.
Proof.
  apply (Reconstruct_recovers cpu0 2 2 [] enc0 3 supported0 ltac:(vm_compute; reflexivity) ltac:(lia)
    data0 full0).
  - reflexivity.
  - exact data0_ok.
  - vm_compute. reflexivity.
  - split; [reflexivity |]. intros i Hi. do 4 (destruct i as [|i]; [
      first [left; split; [reflexivity | constructor] |
             right; split; [split; [reflexivity | split; [reflexivity | repeat constructor]] |
                            intros k Hk; do 3 (destruct k as [|k]; [reflexivity |]); lia]] |]).
    cbn in Hi. lia.
  - vm_compute. lia.
Defined.

Lemma Encode_codeword_witness :
  exists full, Encode enc0 data0 = Ret full /\ codeword enc0 3 full /\ firstn 2 full = firstn 2 data0 /\
    forall i, i < 2 + 2 -> spare_of (nth i full Nil) = spare_of (nth i data0 Nil).
Proof.
  apply (Encode_codeword cpu0 2 2 [] enc0 3 supported0 ltac:(vm_compute; reflexivity) ltac:(lia) data0).
  - reflexivity.
  - exact data0_ok.
Defined.

Lemma Verify_codeword_witness :
  Verify enc0 data0 = Ret false /\
  exists b, Verify enc0 data0 = Ret b /\ (b = true <-> codeword enc0 3 data0).
Proof.
  split; [vm_compute; reflexivity |].
  apply (Verify_codeword cpu0 2 2 [] enc0 3 supported0 ltac:(vm_compute; reflexivity) ltac:(lia) data0).
  - reflexivity.
  - exact data0_ok.
Defined.

Lemma full0_codeword : codeword enc0 3 full0.
Proof.
  split; [reflexivity |]. split; [shards_ok |]. intros i k Hi Hk.
  do 4 (destruct i as [|i]; [do 3 (destruct k as [|k]; [vm_compute; reflexivity |]); lia |]). cbn in Hi. lia.
Qed.

(** Data shard 0 and a parity shard are lost. *)
Definition lost0 : list slice := [Nil; shard [250; 251; 252]%N; nth 2 full0 Nil; Nil].

Lemma lost0_damaged : damaged enc0 3 full0 lost0.
Proof.
  split; [reflexivity |]. intros i Hi. do 4 (destruct i as [|i]; [
    first [left; split; [reflexivity | constructor] |
           right; split; [split; [reflexivity | split; [reflexivity | repeat constructor]] |
                          intros k Hk; do 3 (destruct k as [|k]; [reflexivity |]); lia]] |]).
  cbn in Hi. lia.
Qed.

Lemma ReconstructSome_recovers_witness :
  exists r' shards', ReconstructSome enc0 lost0 [true; false; false; false] = Ret (r', shards') /\ rs_ok r' /\
    forall i, i < 2 + 2 -> if nth i [true; false; false; false] false then recovered 3 full0 shards' i
                           else nth i shards' Nil = nth i lost0 Nil.
Proof.
  apply (ReconstructSome_recovers cpu0 2 2 [] enc0 3 supported0 ltac:(vm_compute; reflexivity) ltac:(lia) full0).
  - exact full0_codeword.
  - exact lost0_damaged.
  - vm_compute. lia.
  - reflexivity.
  - intros [|[|i]] Hi Hp; [reflexivity | discriminate | lia].
Defined.

Lemma Reconstruct_too_few_witness :
  reconstruct enc0 [Nil; shard [250; 251; 252]%N; Nil; Nil] false None = Err ErrTooFewShards.
Proof.
  apply (Reconstruct_too_few cpu0 2 2 [] enc0 3 supported0 ltac:(vm_compute; reflexivity) ltac:(lia)).
  - reflexivity.
  - repeat (constructor; [first [left; reflexivity | right; split; [reflexivity | split; [reflexivity | repeat constructor]]] |]).
    constructor.
  - reflexivity.
  - vm_compute. lia.
Defined.

(** Without the condition on the flags the result is wrong: a parity shard
    is flagged, the first data shard is missing and not flagged, and
    [ReconstructSome] returns the parity shard as zeros, without an error. *)
Theorem ReconstructSome_wrong_parity :
  exists r' shards', ReconstructSome enc0 lost0 [false; false; false; true] = Ret (r', shards') /\
    bytes_of (nth 3 shards' Nil) = [0; 0; 0]%N /\ bytes_of (nth 3 full0 Nil) = [17; 20; 31]%N.
Proof. eexists; eexists; split; [vm_compute; reflexivity | split; reflexivity]. Qed.

(** Flags for the data shards only, as the documentation allows, make
    [ReconstructSome] panic as soon as a parity shard is missing. *)
Theorem ReconstructSome_data_flags_panic :
  ReconstructSome enc0 lost0 [true; true] = Panic.
Proof. vm_compute. reflexivity. Qed.
