(* ===== verification/CoreTheorems.v ===== *)
(** * The properties of the arithmetic, the matrices, the cache and the coding loops

    Stated on the definitions of Galois, Tables, Matrix, EncodingMatrix,
    InversionTree and Coding, each with an instance. *)
From Stdlib Require Import List Arith NArith ZArith Lia Bool.
From S2P Require Import Prelude Tables Galois RSTypes Matrix EncodingMatrix InversionTree Coding.
From S2P Require MatrixField EncodingMDS.
Import ListNotations.

(** ** The field *)

(** On bytes [galMultiply] is the product of polynomials over GF(2) modulo
    x^8 + x^4 + x^3 + x^2 + 1: the tables are the ones of that field. *)
Theorem galMultiply_polynomial a b : (a < 256)%N -> (b < 256)%N -> galMultiply a b = pmul a b.
Proof. apply galMultiply_pmul. Qed.

Lemma galMultiply_polynomial_witness : galMultiply 87 200 = pmul 87 200 /\ pmul 87 200 = 46%N.
Proof. split; [apply (galMultiply_polynomial 87 200); lia | vm_compute; reflexivity]. Defined.

(** The bytes with [galAdd] and [galMultiply] are a commutative ring in which
    every element but 0 has the inverse [galOneOver] computes; dividing is
    multiplying by it, and dividing by 0 panics. *)
Theorem galois_field a b c : (a < 256)%N -> (b < 256)%N -> (c < 256)%N ->
  (galMultiply a b < 256)%N /\ galMultiply a b = galMultiply b a /\
  galMultiply a (galMultiply b c) = galMultiply (galMultiply a b) c /\
  galMultiply a (galAdd b c) = galAdd (galMultiply a b) (galMultiply a c) /\
  galMultiply 1 a = a /\ galAdd a a = 0%N /\
  (a <> 0%N -> exists v, @galOneOver rsError a = Ret v /\ (v < 256)%N /\ galMultiply a v = 1%N) /\
  (b <> 0%N -> exists q, @galDivide rsError a b = Ret q /\ (q < 256)%N /\ galMultiply q b = a) /\
  @galDivide rsError 1%N 0%N = Panic.
Proof.
  intros Ha Hb Hc. splits; auto using galMultiply_byte, galMultiply_comm, galMultiply_lxor_r, galMultiply_1_l.
  - now apply galMultiply_assoc.
  - apply N.lxor_nilpotent.
  - intros H0. destruct (galOneOver_inv (E := rsError) a Ha H0) as (v & -> & H1 & _ & H2). eauto.
  - intros H0. exact (galDivide_mul a b Ha Hb H0).
Qed.

Lemma galois_field_witness :
  (galMultiply 87 200 < 256)%N /\ galMultiply 87 200 = galMultiply 200 87 /\
  galMultiply 87 (galMultiply 200 9) = galMultiply (galMultiply 87 200) 9 /\
  galMultiply 87 (galAdd 200 9) = galAdd (galMultiply 87 200) (galMultiply 87 9) /\
  galMultiply 1 87 = 87%N /\ galAdd 87 87 = 0%N /\
  (87%N <> 0%N -> exists v, @galOneOver rsError 87%N = Ret v /\ (v < 256)%N /\ galMultiply 87 v = 1%N) /\
  (200%N <> 0%N -> exists q, @galDivide rsError 87%N 200%N = Ret q /\ (q < 256)%N /\ galMultiply q 200 = 87%N) /\
  @galDivide rsError 1%N 0%N = Panic.
Proof. apply (galois_field 87 200 9); lia. Defined.

(** [galExp] is the power, for every byte and every exponent: the loop that
    reduces the logarithm ends and the table lookup is the right one. *)
Theorem galExp_power a n : (a < 256)%N ->
  @galExp rsError a (Z.of_nat n) = Ret (Nat.iter n (galMultiply a) 1%N).
Proof. apply galExp_gpow. Qed.

Lemma galExp_power_witness :
  @galExp rsError 3 (Z.of_nat 1000) = Ret (Nat.iter 1000 (galMultiply 3) 1%N).
Proof. apply (galExp_power 3 1000). lia. Defined.

(** The committed multiplication tables, all 65536 + 8192 entries, are what
    the generator of gentables.go prints. *)
Theorem tables_are_generated :
  mulTable = generateMulTableSplit generateExpTable /\
  (mulTableLow, mulTableHigh) = generateMulTableHalf generateExpTable.
Proof. exact tables_generated. Qed.

(** The two nibble tables of the vector kernels add up to the product. *)
Theorem nibble_tables a b : (a < 256)%N -> (b < 256)%N ->
  N.lxor (at_byte (nth (N.to_nat a) mulTableLow []) (N.land b 15))
         (at_byte (nth (N.to_nat a) mulTableHigh []) (N.shiftr b 4)) = galMultiply a b.
Proof. apply split_tables_mul. Qed.

Lemma nibble_tables_witness :
  N.lxor (at_byte (nth (N.to_nat 87) mulTableLow []) (N.land 200 15))
         (at_byte (nth (N.to_nat 87) mulTableHigh []) (N.shiftr 200 4)) = galMultiply 87 200.
Proof. apply (nibble_tables 87 200); lia. Defined.

(** The multiply-and-add kernel works byte by byte, whatever the length:
    the word-wise exclusive or used for the coefficient 1 is the same function. *)
Theorem kernel_bytewise c inn out : (c < 256)%N -> bytes_ok inn -> bytes_ok out -> length inn = length out ->
  exists res, @galMulSliceXor rsError c inn out = Ret res /\ length res = length out /\
    forall k, k < length out ->
      nth k res 0%N = galAdd (nth k out 0%N) (galMultiply c (nth k inn 0%N)).
Proof.
  intros Hc Hi Ho Hl. rewrite galMulSliceXor_spec by auto. eexists; split; [reflexivity |].
  unfold xorBytes. split; [lens |]. intros k Hk.
  rewrite (nth_map2 _ _ _ 0%N 0%N) by lens. now rewrite (nth_map_in _ _ 0%N) by lia.
Qed.

Lemma kernel_bytewise_witness :
  exists res, @galMulSliceXor rsError 1 (map N.of_nat (seq 0 70)) (repeat 3%N 70) = Ret res /\ length res = 70 /\
    forall k, k < 70 -> nth k res 0%N = galAdd (nth k (repeat 3%N 70) 0%N) (galMultiply 1 (nth k (map N.of_nat (seq 0 70)) 0%N)).
Proof.
  apply (kernel_bytewise 1 (map N.of_nat (seq 0 70)) (repeat 3%N 70)).
  - lia.
  - unfold bytes_ok, byte_ok. rewrite Forall_forall. intros x (i & <- & Hi%in_seq)%in_map_iff. lia.
  - apply bytes_ok_repeat. lia.
  - reflexivity.
Defined.

(** ** Matrices *)

(** C38: [Invert] never panics on a square matrix; it returns the two-sided
    inverse when there is one, and [errSingular] only when there is none. *)
Theorem Invert_correct k m : 0 < k -> wf k k m ->
  (exists b, Invert m = Ret b /\ wf k k b /\
     (forall i j, i < k -> j < k -> prod_entry k m b i j = if i =? j then 1%N else 0%N) /\
     (forall i j, i < k -> j < k -> prod_entry k b m i j = if i =? j then 1%N else 0%N)) \/
  (Invert m = Err errSingular /\
     ~ exists b, wf k k b /\ forall i j, i < k -> j < k -> prod_entry k m b i j = if i =? j then 1%N else 0%N).
Proof.
  intros Hk Hm. assert (H := MatrixField.Invert_spec Hk Hm). destruct (Invert m) as [b|e| |]; try destruct H.
  - left. exists b. tauto.
  - right. subst. split; [auto |]. intros (b & Hb & HI). eauto.
Qed.

(** [Multiply] is the matrix product over the field; sizes that do not fit
    are refused. *)
Theorem Multiply_product k n n' l a b : 0 < k -> 0 < n -> 0 < n' -> 0 < l -> wf k n a -> wf n' l b ->
  if n =? n' then
    exists c, Multiply a b = Ret c /\ wf k l c /\
      forall i j, i < k -> j < l -> entry c i j = xsum n (fun x => galMultiply (entry a i x) (entry b x j))
  else Multiply a b = Err (errMultiply n n').
Proof.
  intros Hk Hn Hn' Hl Ha Hb. destruct (Nat.eqb_spec n n') as [<-|Hne].
  - now apply Multiply_spec.
  - now apply (Multiply_mismatch k n n' l).
Qed.

(** ** The encoding matrices *)

(** C9: the default matrix: its first [d] rows are the identity and any [d] of
    its rows form an invertible matrix. *)
Theorem buildMatrix_mds d t : 0 < d -> d <= t -> t <= 256 ->
  exists m, buildMatrix d t = Ret m /\ wf t d m /\ systematic d m /\ any_rows_invertible d t m.
Proof. intros Hd Hdt Ht. exact (EncodingMDS.buildMatrix_spec Hd Hdt Ht). Qed.

(** The Cauchy matrix has the same properties. *)
Theorem buildMatrixCauchy_mds d t : 0 < d -> d <= t -> t <= 256 ->
  exists m, buildMatrixCauchy d t = Ret m /\ wf t d m /\ systematic d m /\ any_rows_invertible d t m.
Proof. intros Hd Hdt Ht. exact (EncodingMDS.cauchy_rows_invertible Hd Hdt Ht). Qed.

(** The PARv1 matrix does not, as its comment warns: with three data and
    four parity shards, three of the rows are dependent. *)
Theorem buildMatrixPAR1_not_mds : exists m, buildMatrixPAR1 3 7 = Ret m /\ wf 7 3 m /\ systematic 3 m /\
  ~ any_rows_invertible 3 7 m.
Proof.
  destruct (buildMatrixPAR1_spec 3 7) as (m & Hm & Hw & Hs & _); [lia .. |].
  exists m. splits; auto. intros H.
  destruct (H [3; 4; 6]) as (b & Hb); [reflexivity | repeat constructor; cbn; intuition lia | repeat constructor; lia |].
  assert (E : buildMatrixPAR1 3 7 = Ret [[1; 0; 0]; [0; 1; 0]; [0; 0; 1]; [1; 1; 1]; [1; 2; 3]; [1; 4; 5]; [1; 8; 15]]%N)
    by (vm_compute; reflexivity).
  rewrite Hm in E. injection E as ->.
  assert (Es : Invert (select [[1; 0; 0]; [0; 1; 0]; [0; 0; 1]; [1; 1; 1]; [1; 2; 3]; [1; 4; 5]; [1; 8; 15]]%N [3; 4; 6])
    = Err errSingular) by (vm_compute; reflexivity).
  rewrite Hb in Es. discriminate.
Qed.

(** ** The cache *)

(** The tree is a finite map from increasing lists of indices to matrices:
    what was inserted is found, under its key only. *)
Theorem inversion_tree_map shards root k m key key' : 0 < k -> wf k k m -> tree_ok shards (Some root) ->
  key_ok shards 0 key -> key <> [] -> key_ok shards 0 key' ->
  exists t', InsertInvertedMatrix (Some root) key m shards = Ret t' /\ tree_ok shards t' /\
    GetInvertedMatrix t' key' =
      if list_eq_dec Nat.eq_dec key' key then Ret m else GetInvertedMatrix (Some root) key'.
Proof.
  intros Hk Hm Ht Hkey Hne Hkey'.
  destruct (InsertInvertedMatrix_lookup shards root key m k Hk Hm Ht Hkey Hne) as (t' & H1 & H2 & H3).
  exists t'. split; [auto |]. split; [auto |]. rewrite (GetInvertedMatrix_lookup shards t'), H3 by auto.
  rewrite (GetInvertedMatrix_lookup shards (Some root)) by auto. now destruct (list_eq_dec _ _ _).
Qed.

(** ** Goroutines *)

(** C8: every interleaving of the goroutines of [codeSomeShardsP] ends with the
    same outputs: the matrix applied to every column of bytes. *)
Theorem coding_schedule_independent maxGoroutines minSplitSize perRound n M inputs outs :
  (1 <= maxGoroutines)%Z -> (1 <= minSplitSize)%Z -> (1 <= perRound)%Z ->
  wf (length outs) (length inputs) M -> inputs <> [] ->
  Forall (shard_ok n) inputs -> Forall (shard_ok n) outs ->
  exists js outs', parallel_jobs maxGoroutines minSplitSize perRound (length inputs) (length outs) n = Ret js /\
    (forall i k, i < length outs -> k < n ->
       bytes_at outs' i k = dot (length inputs) M i (fun c => bytes_at inputs c k)) /\
    forall l, interleave js l -> run_calls M inputs l outs = Ret outs'.
Proof.
  intros Hg Hm Hr HM Hne Hin Hout.
  destruct (parallel_jobs_spec maxGoroutines minSplitSize perRound Hg Hm Hr (length inputs) (length outs) n)
    as (js & Hjs & Hok); [destruct inputs; [congruence | cbn; lia] |].
  destruct (interleaving_coded n M inputs outs HM Hin Hout js (concat js) Hok (interleave_concat js))
    as (outs' & _ & Hs & Hb).
  exists js, outs'. split; [auto |]. split; [exact Hb |]. intros l Hl.
  destruct (interleaving_coded n M inputs outs HM Hin Hout js l Hok Hl) as (outs2 & -> & Hs2 & Hb2).
  f_equal. destruct Hs as (L1 & F1 & S1), Hs2 as (L2 & F2 & S2). apply (shards_ext n); auto; [lia | |].
  - intros i Hi. rewrite S1, S2 by lia. reflexivity.
  - intros i k Hi Hk. rewrite Hb, Hb2 by lia. reflexivity.
Qed.

(** ** The theorems at concrete inputs *)

Definition m0 : matrix := [[56; 23; 98]; [3; 100; 200]; [45; 201; 123]]%N.

Lemma m0_wf : wf 3 3 m0.
Proof. split; [reflexivity |]. repeat (constructor; [split; [reflexivity | repeat constructor] |]). constructor. Qed.

Lemma Invert_correct_witness :
  (exists b, Invert m0 = Ret b /\ wf 3 3 b /\
     (forall i j, i < 3 -> j < 3 -> prod_entry 3 m0 b i j = if i =? j then 1%N else 0%N) /\
     (forall i j, i < 3 -> j < 3 -> prod_entry 3 b m0 i j = if i =? j then 1%N else 0%N)) \/
  (Invert m0 = Err errSingular /\
     ~ exists b, wf 3 3 b /\ forall i j, i < 3 -> j < 3 -> prod_entry 3 m0 b i j = if i =? j then 1%N else 0%N).
Proof. apply (Invert_correct 3 m0); [lia | exact m0_wf]. Defined.

Lemma Multiply_product_witness :
  exists c, Multiply m0 m0 = Ret c /\ wf 3 3 c /\
    forall i j, i < 3 -> j < 3 -> entry c i j = xsum 3 (fun x => galMultiply (entry m0 i x) (entry m0 x j)).
Proof. apply (Multiply_product 3 3 3 3 m0 m0); (exact m0_wf || lia). Defined.

Lemma buildMatrix_mds_witness :
  exists m, buildMatrix 4 6 = Ret m /\ wf 6 4 m /\ systematic 4 m /\ any_rows_invertible 4 6 m.
Proof. apply (buildMatrix_mds 4 6); lia. Defined.

Lemma buildMatrixCauchy_mds_witness :
  exists m, buildMatrixCauchy 4 6 = Ret m /\ wf 6 4 m /\ systematic 4 m /\ any_rows_invertible 4 6 m.
Proof. apply (buildMatrixCauchy_mds 4 6); lia. Defined.

Definition root0 : inversionNode := Node [] (repeat None 5).

Lemma inversion_tree_map_witness :
  exists t', InsertInvertedMatrix (Some root0) [0; 3] m0 5 = Ret t' /\ tree_ok 5 t' /\
    GetInvertedMatrix t' [0; 3] =
      if list_eq_dec Nat.eq_dec [0; 3] [0; 3] then Ret m0 else GetInvertedMatrix (Some root0) [0; 3].
Proof.
  apply (inversion_tree_map 5 root0 3 m0 [0; 3] [0; 3]); (exact m0_wf || (cbn; lia) || discriminate || idtac).
  apply node_ok_new. lia.
Defined.

Definition in0 : list slice := [Sl [1; 2; 3] []; Sl [4; 5; 6] []; Sl [7; 8; 9] []]%N.

Lemma in0_ok : Forall (shard_ok 3) in0.
Proof. repeat (constructor; [split; [reflexivity | split; [reflexivity | repeat constructor]] |]). constructor. Qed.

Lemma coding_schedule_independent_witness :
  exists js outs', parallel_jobs 4 1 1 3 3 3 = Ret js /\
    (forall i k, i < 3 -> k < 3 -> bytes_at outs' i k = dot 3 m0 i (fun c => bytes_at in0 c k)) /\
    forall l, interleave js l -> run_calls m0 in0 l in0 = Ret outs'.
Proof.
  apply (coding_schedule_independent 4 1 1 3 m0 in0 in0); (exact m0_wf || exact in0_ok || lia || discriminate).
Defined.
