(* ===== verification/Leopard8Theorems.v ===== *)
(** * The properties of the 8-bit Leopard encoder

    Statements about an encoder [New] returned for [WithLeopardGF], and about the
    states its cache comes to.  [is_code] says that every byte of the shards is a
    codeword. *)
From Stdlib Require Import List Arith NArith ZArith Lia Bool.
From S2P Require Import Prelude Galois RSTypes Matrix Options LeopardTypes LeopardFFT LeopardNetwork Coding Codec CodecCorrect Reconstruct.
From S2P Require Import Leopard8 Leopard8Codec Leopard8Kernels Leopard8Space Leopard8Correct Leopard8Bits Leopard8Recover.
From S2P Require CodecTheorems.
Import ListNotations.

(** ** Sizes *)

(** The parity is in the first block, of [2 ^ parity_log r] places; there are
    [2 ^ blocks_log r] blocks. *)
Definition parity_log (r : leopardFF8) : nat := Nat.log2 (ceilPow2 (ff8_parityShards r)).
Definition blocks_log (r : leopardFF8) : nat := Nat.log2 (ceilPow2 (ceilPow2 (ff8_parityShards r) + ff8_dataShards r)) - parity_log r.

Definition is_code (r : leopardFF8) (n : nat) (shards : list slice) : Prop := leopard_code r (blocks_log r) (parity_log r) n shards.

Lemma ceilPow2_log n : ceilPow2 n = 2 ^ Nat.log2 (ceilPow2 n).
Proof. unfold ceilPow2. now rewrite Nat.log2_pow2 by lia. Qed.

Lemma fits_sizes r : 0 < ff8_dataShards r -> 0 < ff8_parityShards r -> ff8_totalShards r = ff8_dataShards r + ff8_parityShards r ->
  ceilPow2 (ff8_parityShards r) + ff8_dataShards r <= 256 -> fits r (blocks_log r) (parity_log r).
Proof.
  intros Hd Hp Ht H. unfold blocks_log, parity_log. assert (El := ceilPow2_log (ff8_parityShards r)). set (l := Nat.log2 (ceilPow2 (ff8_parityShards r))) in *.
  assert (En := ceilPow2_log (ceilPow2 (ff8_parityShards r) + ff8_dataShards r)). set (k := Nat.log2 (ceilPow2 (ceilPow2 _ + _))) in *.
  assert (Hle := ceilPow2_le (ceilPow2 (ff8_parityShards r) + ff8_dataShards r) ltac:(lia)). rewrite En, El in Hle.
  assert (Hk : l <= k) by (apply (Nat.pow_le_mono_r_iff 2); lia). unfold fits. replace (k - l + l) with k by lia.
  repeat split; auto; [now rewrite <- El |]. rewrite <- En. apply (ceilPow2_least _ 8); [lia | exact H].
Qed.

(** What [New] returns on request *)
Lemma New_leopard cpu d p opts r : New cpu (Z.of_nat d) (Z.of_nat p) opts = Ret (FF8 r) ->
  0 < d /\ 0 < p /\ ff8_dataShards r = d /\ ff8_parityShards r = p /\ ff8_totalShards r = d + p /\ (ff8_inversion r = None \/ ff8_inversion r = Some []).
Proof.
  intros H. unfold New in H. set (o := apply_options cpu opts) in H. destruct (_ || _) eqn:E16 in H.
  { unfold newFF16 in H. destruct (_ || _) in H; [discriminate |]. destruct (_ >? 65536)%Z in H; discriminate. }
  destruct (_ && _) eqn:E8 in H.
  - unfold newFF8 in H. destruct (_ || _) eqn:E0 in H; [discriminate |]. apply orb_false_iff in E0 as [E1%Z.leb_gt E2%Z.leb_gt].
    destruct (_ >? 65536)%Z in H; [discriminate |]. cbn [bind] in H. injection H as <-. cbn [ff8_dataShards ff8_parityShards ff8_totalShards ff8_inversion].
    rewrite <- Nat2Z.inj_add, !Nat2Z.id. repeat split; try lia. match goal with |- context [if ?b then _ else _] => destruct b; auto end.
  - destruct (_ >? 256)%Z in H; [discriminate |]. destruct (_ || _) in H; [discriminate |]. destruct (_ =? 0)%Z in H; [discriminate |].
    destruct (coding_matrix _ _ _) in H; cbn [bind] in H; try discriminate.
    match type of H with bind ?c _ = _ => destruct c; cbn [bind] in H; try discriminate end.
    match type of H with bind ?c _ = _ => destruct c; cbn [bind] in H; discriminate end.
Qed.

(** All shards are back. *)
Lemma recovered_bytes8 r n full shards new : length full = ff8_dataShards r + ff8_parityShards r -> Forall (shard_ok n) full ->
  recovered8 r n full shards true new -> map bytes_of new = map bytes_of full.
Proof.
  intros Hl Hok [Ln H]. apply (list_ext []); [rewrite !length_map; lia |]. intros i Hi. rewrite length_map in Hi.
  rewrite !(nth_map_in _ _ Nil) by lia. specialize (H i ltac:(lia)). rewrite (proj2 (Nat.ltb_lt i _)), orb_true_r in H by lia. destruct H as [(_ & L & _) Hb].
  destruct (shard_ok_nth n full i Hok ltac:(lia)) as (_ & L' & _). unfold len in L, L'. apply (list_ext 0%N); [lia |]. intros k Hk. apply Hb. lia.
Qed.

(** ** The states of an encoder *)

(** The states that calls of [Reconstruct] for sets of shards without [uses_bits]
    lead to, from the encoder [New] returned *)
Inductive reached (pool : nat -> list N) (r0 : leopardFF8) : leopardFF8 -> Prop :=
| reached_new : reached pool r0 r0
| reached_call r r' n full shards new : reached pool r0 r -> 0 < n -> n mod 64 = 0 ->
    length full = ff8_totalShards r0 -> Forall (shard_ok n) full -> is_code r0 n full -> damaged8 r0 n full shards -> ff8_dataShards r0 <= count shards ->
    uses_bits r0 n shards = false -> Reconstruct r pool shards = Ret (r', new) -> reached pool r0 r'.

(** A cache without an entry is valid. *)
Lemma cache_valid_empty s l r : ff8_inversion r = None \/ ff8_inversion r = Some [] -> cache_valid s l r.
Proof. unfold cache_valid. intros [-> | ->]; [exact I | discriminate]. Qed.

Section Properties.
Context (cpu : machine) (d p : nat) (opts : list Option) (r0 : leopardFF8) (pool : nat -> list N).
Context (Hnew : New cpu (Z.of_nat d) (Z.of_nat p) opts = Ret (FF8 r0)) (Hroom : ceilPow2 p + d <= 256).
Context (Hpool : forall i, buffer8 workSize8 (pool i)).

Lemma new_fits : fits r0 (blocks_log r0) (parity_log r0) /\ ff8_dataShards r0 = d /\ ff8_parityShards r0 = p /\ ff8_totalShards r0 = d + p.
Proof.
  destruct (New_leopard cpu d p opts r0 Hnew) as (Hd & Hp & Ed & Ep & Et & _). split; [| auto]. apply fits_sizes; rewrite ?Ed, ?Ep; auto.
Qed.

Lemma reached_valid r : reached pool r0 r -> (exists inv, r = with_inversion r0 inv) /\ cache_valid (blocks_log r0) (parity_log r0) r.
Proof.
  destruct new_fits as (Hfits & Ed & Ep & Et). induction 1 as [|r r' n full shards new Hr [[inv ->] Hval] Hn H64 Hfl Hfull Hcode Hdam Hc Hbits Hcall].
  - split; [exists (ff8_inversion r0); now destruct r0 |]. apply cache_valid_empty. now apply (New_leopard cpu d p opts).
  - rewrite Ed in Hc. rewrite Et in Hfl.
    destruct (reconstruct_ok (with_inversion r0 inv) pool (blocks_log r0) (parity_log r0) Hfits Hpool n H64 Hn full) with (shards := shards) (recoverAll := true)
      as (r1 & new1 & E & _ & Hval' & inv' & ->); auto; [cbn; lia | cbn; lia | right; right; auto |].
    unfold Reconstruct in Hcall. rewrite E in Hcall. injection Hcall as <- <-. split; [now exists inv' |]. now apply Hval'.
Qed.

Section Sized.
Context (n : nat) (Hn : 0 < n) (H64 : n mod 64 = 0).

(** C12: [Encode] of the 8-bit Leopard encoder leaves the data shards alone and
    makes the parity shards, in their own memory, those that complete a codeword
    at every byte: the values of a polynomial without its highest coefficients. *)
Theorem Leopard_Encode_codeword shards : length shards = d + p -> Forall (shard_ok n) shards ->
  exists full, Leopard8Codec.Encode r0 pool shards = Ret full /\ is_code r0 n full /\ firstn d full = firstn d shards /\ same_memory n shards full.
Proof.
  destruct new_fits as (Hfits & Ed & Ep & Et). intros Hl Hok.
  destruct (encode_ok r0 pool _ _ Hfits Hpool n H64 shards Hn) as (full & E & Hmem & Hdata & Hcode); [lia | auto |].
  exists full. rewrite Ed in Hdata. auto.
Qed.

(** [Verify] answers true exactly on the codewords. *)
Theorem Leopard_Verify_codeword shards : length shards = d + p -> Forall (shard_ok n) shards ->
  exists b, Leopard8Codec.Verify r0 pool shards = Ret b /\ (b = true <-> is_code r0 n shards).
Proof.
  destruct new_fits as (Hfits & Ed & Ep & Et). intros Hl Hok. apply verify_ok; auto. lia.
Qed.

(** C11: in every state of the cache that calls of [Reconstruct] lead to,
    [Reconstruct] gives all shards of a codeword back from any [d] of them, and the
    next state is one of these again. *)
Theorem Leopard_Reconstruct_recovers r full shards : reached pool r0 r -> length full = d + p -> Forall (shard_ok n) full -> is_code r0 n full ->
  damaged8 r0 n full shards -> d <= count shards -> uses_bits r0 n shards = false ->
  exists r' new, Leopard8Codec.Reconstruct r pool shards = Ret (r', new) /\ map bytes_of new = map bytes_of full /\ reached pool r0 r'.
Proof.
  intros Hr Hfl Hfull Hcode Hdam Hc Hbits. destruct new_fits as (Hfits & Ed & Ep & Et). destruct (reached_valid r Hr) as [[inv ->] Hval].
  destruct (reconstruct_ok (with_inversion r0 inv) pool _ _ Hfits Hpool n H64 Hn full) with (shards := shards) (recoverAll := true)
    as (r' & new & E & Hrec & _ & _); auto; [cbn; lia | cbn; lia | right; right; auto |].
  exists r', new. split; [exact E |]. split; [apply (recovered_bytes8 r0 n full shards); auto; lia |].
  apply (reached_call pool r0 (with_inversion r0 inv) r' n full shards new); auto; lia.
Qed.

(** Without the cache, or with an empty one, [Reconstruct] and [ReconstructData]
    give back all shards or the data shards from any [d], the field of bits used or
    not, and leave the other shards as they are. *)
Theorem Leopard_uncached recoverAll full shards : ff8_inversion r0 = None \/ ff8_inversion r0 = Some [] -> length full = d + p -> Forall (shard_ok n) full -> is_code r0 n full ->
  damaged8 r0 n full shards -> d <= count shards ->
  exists r' new, reconstruct r0 pool shards recoverAll = Ret (r', new) /\ recovered8 r0 n full shards recoverAll new.
Proof.
  intros Hinv Hfl Hfull Hcode Hdam Hc. destruct new_fits as (Hfits & Ed & Ep & Et).
  destruct (reconstruct_ok r0 pool _ _ Hfits Hpool n H64 Hn full) with (shards := shards) (recoverAll := recoverAll) as (r' & new & E & Hrec & _); auto; [lia | lia | |].
  - destruct Hinv; [left | right; left]; auto.
  - exists r', new. auto.
Qed.
End Sized.
End Properties.

(** ** Concrete shards *)

Definition encoder0 : leopardFF8 :=
  Eval vm_compute in
  match New CodecTheorems.cpu0 2 2 [WithLeopardGF true] with
  | Ret (FF8 r) => r
  | _ => {| ff8_dataShards := 0; ff8_parityShards := 0; ff8_totalShards := 0; ff8_inversion := None; ff8_o := defaultOptions CodecTheorems.cpu0 |}
  end.
Definition pool0 (i : nat) : list N := repeat 0%N workSize8.

Lemma new0 : New CodecTheorems.cpu0 (Z.of_nat 2) (Z.of_nat 2) [WithLeopardGF true] = Ret (FF8 encoder0).
Proof. reflexivity. Qed.

Lemma room0 : ceilPow2 2 + 2 <= 256.
Proof. cbn. lia. Qed.

Lemma pool0_ok i : buffer8 workSize8 (pool0 i).
Proof. split; [apply repeat_length | now apply bytes_ok_repeat]. Qed.

(** Shards of 64 bytes, of which the first are given *)
Definition shard64 (l : list N) : slice := Sl (l ++ repeat 0%N (64 - length l)) [].
Definition shards0 : list slice := [shard64 [7; 8; 9]; shard64 [1; 2; 3]; shard64 []; shard64 []]%N.
Definition full0 : list slice := [shard64 [7; 8; 9]; shard64 [1; 2; 3]; shard64 [14; 6; 7]; shard64 [8; 12; 13]]%N.

(** [l] without the shards of [ms] *)
Definition without (ms : list nat) (l : list slice) : list slice :=
  map (fun i => if existsb (Nat.eqb i) ms then Nil else nth i l Nil) (seq 0 (length l)).

Lemma shard64_ok l : length l <= 64 -> bytes_ok l -> shard_ok 64 (shard64 l).
Proof.
  intros Hl Hb. split; [reflexivity |]. unfold len. cbn [shard64 bytes_of]. split; [rewrite length_app, repeat_length; lia |].
  apply bytes_ok_app. split; [auto | now apply bytes_ok_repeat].
Qed.

Ltac shards64_ok := repeat (constructor; [apply shard64_ok; [cbn; lia | repeat constructor] |]); constructor.

Lemma shards0_ok : Forall (shard_ok 64) shards0.
Proof. shards64_ok. Qed.

Lemma full0_ok : Forall (shard_ok 64) full0.
Proof. shards64_ok. Qed.

Lemma encode0 : Leopard8Codec.Encode encoder0 pool0 shards0 = Ret full0.
Proof. vm_compute. reflexivity. Qed.

Lemma full0_code : is_code encoder0 64 full0.
Proof.
  destruct (new_fits _ _ _ _ _ new0 room0) as (Hfits & Ed & Ep & Et).
  destruct (encode_ok encoder0 pool0 _ _ Hfits pool0_ok 64 eq_refl shards0) as (full & E & _ & _ & Hcode); [lia | reflexivity | apply shards0_ok |].
  rewrite encode0 in E. injection E as <-. exact Hcode.
Qed.

Lemma damaged0 ms : damaged8 encoder0 64 full0 (without ms full0).
Proof.
  split; [reflexivity |]. intros i Hi. unfold without. rewrite nth_seq_map by exact Hi. destruct (existsb _ ms) eqn:Em.
  - left. split; [reflexivity | constructor].
  - right. split; [now apply shard_ok_nth; [apply full0_ok |] |]. intros k Hk. unfold bytes_at. now rewrite nth_seq_map, Em by exact Hi.
Qed.

Lemma Leopard_Encode_codeword_witness :
  exists full, Leopard8Codec.Encode encoder0 pool0 shards0 = Ret full /\ is_code encoder0 64 full /\ firstn 2 full = firstn 2 shards0 /\ same_memory 64 shards0 full.
Proof. apply (Leopard_Encode_codeword _ 2 2 _ encoder0 pool0 new0 room0 pool0_ok 64 ltac:(lia) eq_refl shards0 eq_refl shards0_ok). Defined.

Lemma Leopard_Verify_codeword_witness : exists b, Leopard8Codec.Verify encoder0 pool0 full0 = Ret b /\ (b = true <-> is_code encoder0 64 full0).
Proof. apply (Leopard_Verify_codeword _ 2 2 _ encoder0 pool0 new0 room0 pool0_ok 64 ltac:(lia) eq_refl full0 eq_refl full0_ok). Defined.

(** A data shard and a parity shard are lost. *)
Lemma Leopard_Reconstruct_recovers_witness :
  exists r' new, Leopard8Codec.Reconstruct encoder0 pool0 (without [0; 3] full0) = Ret (r', new) /\ map bytes_of new = map bytes_of full0 /\ reached pool0 encoder0 r'.
Proof.
  apply (Leopard_Reconstruct_recovers _ 2 2 _ encoder0 pool0 new0 room0 pool0_ok 64 ltac:(lia) eq_refl encoder0 full0 (without [0; 3] full0)
    (reached_new _ _) eq_refl full0_ok full0_code (damaged0 _) (le_n 2) eq_refl).
Defined.

Lemma Leopard_uncached_witness :
  exists r' new, reconstruct encoder0 pool0 (without [0; 2] full0) false = Ret (r', new) /\ recovered8 encoder0 64 full0 (without [0; 2] full0) false new.
Proof.
  apply (Leopard_uncached _ 2 2 _ encoder0 pool0 new0 room0 pool0_ok 64 ltac:(lia) eq_refl false full0 (without [0; 2] full0) (or_intror eq_refl) eq_refl full0_ok full0_code (damaged0 _) (le_n 2)).
Defined.

(** ** The cache and [ReconstructData] *)

(** The encoder with the entry that the loss of the first shard leaves *)
Definition encoder1 : leopardFF8 :=
  Eval vm_compute in match ReconstructData encoder0 pool0 (without [0] full0) with Ret (r, _) => r | _ => encoder0 end.

Definition wrong0 : list slice := [shard64 [9; 14; 14]; shard64 [1; 2; 3]; Nil; shard64 [8; 12; 13]]%N.

(** The shards [full0] are a codeword. With the default options, [ReconstructData] for a
    lost data shard leaves a cache with which [ReconstructData] for the same shard and a
    parity shard returns other data, without an error; with an empty cache it returns the
    lost data ([Leopard_uncached]). *)
Example Leopard_ReconstructData_wrong :
  is_code encoder0 64 full0 /\
  ReconstructData encoder0 pool0 (without [0] full0) = Ret (encoder1, full0) /\
  ReconstructData encoder1 pool0 (without [0; 2] full0) = Ret (encoder1, wrong0) /\
  bytes_at full0 0 0 = 7%N /\ bytes_at wrong0 0 0 = 9%N.
Proof. splits; [exact full0_code | vm_compute; reflexivity | vm_compute; reflexivity | reflexivity | reflexivity]. Qed.

(** ** The cache and the field of bits *)

(** Eight parity shards of which at most two data shards are lost *)
Definition encoder8 : leopardFF8 := {| ff8_dataShards := 8; ff8_parityShards := 8; ff8_totalShards := 16; ff8_inversion := Some []; ff8_o := ff8_o encoder0 |}.
Definition lost8 (ms : list nat) : list slice := without ms (repeat (Sl [0%N] []) 16).

(** The logarithms that a call for the losses [ms] works with, and the encoder after *)
Definition locs8 (r : leopardFF8) (ms : list nat) : result (list N * leopardFF8) :=
  st <- error_locations r 8 true (lost8 ms) ;;
  '(locs, _, _, r') <- cached_locator r (fst st) (snd st) true 16 ;;
  Ret (locs, r').

Definition encoder9 : leopardFF8 := Eval vm_compute in match locs8 encoder8 [0] with Ret (_, r) => r | _ => encoder8 end.

(** The first logarithms of a call *)
Definition first_locs (c : result (list N * leopardFF8)) : option (list N) := match c with Ret (locs, _) => Some (firstn 4 locs) | _ => None end.

(** After a call for the loss of one data shard with the field of bits, a call for the
    loss of that shard and the next works with the locator of the first call. *)
Lemma Leopard_cache_poisoned :
  (exists locs, locs8 encoder8 [0] = Ret (locs, encoder9) /\ locs8 encoder9 [0; 1] = Ret (locs, encoder9)) /\
  first_locs (locs8 encoder9 [0; 1]) = Some [153; 119; 102; 221]%N /\ first_locs (locs8 encoder8 [0; 1]) = Some [17; 17; 68; 68]%N.
Proof. split; [eexists; split; vm_compute; reflexivity |]. split; vm_compute; reflexivity. Qed.

(** ** More than 128 parity shards *)

(** The table has no entry from place 255 on. *)
Lemma ifft_layers_empty mtrunc m work : 0 < mtrunc -> 4 <= m -> ifft_layers sliceXorGo refMulAdd8 modulus8 1 mtrunc m [] work = Panic.
Proof.
  intros Hm H4. unfold ifft_layers. cbn [while_loop]. rewrite (proj2 (Nat.leb_le (1 * 4) m)) by lia. unfold ifft_pass, for_step.
  assert (Hc : exists c, (mtrunc + 1 * 4 - 1) / (1 * 4) = S c).
  { exists ((mtrunc + 1 * 4 - 1) / (1 * 4) - 1). assert (1 <= (mtrunc + 1 * 4 - 1) / (1 * 4)) by (apply Nat.div_le_lower_bound; lia). lia. }
  destruct Hc as [c ->]. reflexivity.
Qed.

Lemma ceilPow2_256 p : 128 < p <= 256 -> ceilPow2 p = 256.
Proof.
  intros H. assert (H1 := ceilPow2_le p ltac:(lia)). assert (H2 := ceilPow2_least p 8 ltac:(lia)). change (2 ^ 8) with 256 in H2. specialize (H2 ltac:(lia)).
  unfold ceilPow2 in *. set (k := N.size_nat _) in *. assert (k = 8) as ->; [| reflexivity].
  assert (k <= 8) by (apply (Nat.pow_le_mono_r_iff 2); [lia | change (2 ^ 8) with 256; lia]).
  assert (7 < k) by (apply (Nat.pow_lt_mono_r_iff 2); [lia | change (2 ^ 7) with 128; lia]). lia.
Qed.

Lemma encode_work_panics r sh work : 0 < ff8_dataShards r <= length sh -> length work = 512 -> encode_work r 256 sh work = Panic.
Proof.
  intros Hd Hw. unfold encode_work. change (slice_from fftSkew8 (256 - 1)) with (Ret [] : result (list N)). cbn [bind]. set (mtrunc := Nat.min (ff8_dataShards r) 256).
  unfold ifftDITEncoder8, ifftDITEncoder.
  match goal with |- bind (bind ?c _) _ = _ => assert (H1 : oc_spec c (fun st => length st = 512) (fun _ => False)) end.
  { apply for_loop_rule with (I := fun _ st => length st = 512); [lia | auto |]. intros i st Hi Hst.
    rewrite (idx_nth []) by (rewrite length_firstn; lia). cbn [bind]. rewrite (idx_nth []) by lia. cbn [bind]. rewrite upd_ret by lia. cbn [oc_spec]. now rewrite length_set_nth. }
  apply oc_ret in H1 as (w1 & -> & H1). cbn [bind].
  match goal with |- bind (bind ?c _) _ = _ => assert (H2 : oc_spec c (fun st => length st = 512) (fun _ => False)) end.
  { apply for_loop_rule with (I := fun _ st => length st = 512); [lia | auto |]. intros i st Hi Hst.
    rewrite (idx_nth []) by lia. cbn [bind]. rewrite upd_ret by lia. cbn [oc_spec]. now rewrite length_set_nth. }
  apply oc_ret in H2 as (w2 & -> & H2). cbn [bind]. rewrite ifft_layers_empty by lia. reflexivity.
Qed.

Lemma encode_panics r pool n shards : 0 < ff8_dataShards r -> 128 < ff8_parityShards r <= 256 -> ff8_totalShards r = ff8_dataShards r + ff8_parityShards r ->
  (forall i, buffer8 workSize8 (pool i)) -> 0 < n -> n mod 64 = 0 -> length shards = ff8_totalShards r -> Forall (shard_ok n) shards ->
  Leopard8Codec.Encode r pool shards = Panic.
Proof.
  intros Hd Hp Ht Hpool Hn H64 Hl Hok. unfold Leopard8Codec.Encode. rewrite Hl, Nat.eqb_refl. cbn [negb].
  destruct (checkShards_full n shards) as [-> En]; auto; [intros ->; cbn in Hl; lia |]. cbn [bind]. unfold encode. rewrite En, H64. cbn [Nat.eqb negb]. rewrite ceilPow2_256 by auto.
  unfold for_step. assert (Hc : exists c, (n + workSize8 - 1) / workSize8 = S c).
  { assert (HW : 0 < workSize8) by (change (0 < 32 * 1024); lia). exists ((n + workSize8 - 1) / workSize8 - 1).
    assert (1 <= (n + workSize8 - 1) / workSize8) by (apply Nat.div_le_lower_bound; lia). lia. }
  destruct Hc as [c ->]. unfold for_loop. rewrite Nat.sub_0_r. cbn [for_n]. rewrite Nat.mul_0_l.
  assert (Hpiece : encode_piece r 256 n 0 (map pool (seq 0 (256 * 2)), shards) = Panic); [| now rewrite Hpiece].
  unfold encode_piece. destruct (piece_buffers n H64 512 0 (map pool (seq 0 512)) Hn (work_pool pool Hpool 512)) as (w1 & E1 & Hw1).
  change (256 * 2) with 512. rewrite E1. cbn [bind]. set (stop := if n <? 0 + workSize8 then n else 0 + workSize8) in *.
  assert (Hstop : 0 <= stop <= n) by (unfold stop; destruct (Nat.ltb_spec n (0 + workSize8)); lia).
  destruct (slice_pieces n 0 stop shards Hok Hstop) as (-> & Hsh & _). cbn [bind].
  match goal with |- bind ?c _ = _ => assert (H2 : oc_spec c (fun st => length st = 512) (fun _ => False)) end.
  { apply for_loop_rule with (I := fun _ st => length st = 512); [lia | now destruct Hw1 |]. intros i st Hi Hst.
    rewrite (idx_nth []) by (destruct Hsh; lia). cbn [bind]. rewrite upd_ret by lia. cbn [oc_spec]. now rewrite length_set_nth. }
  apply oc_ret in H2 as (w2 & -> & H2). cbn [bind]. rewrite encode_work_panics; auto. destruct Hsh. lia.
Qed.

(** [Encode] panics for any shards when there are more than 128 parity shards,
    which [New] accepts up to 256 shards in all. *)
Theorem Leopard_Encode_panics cpu d p opts r pool n shards : New cpu (Z.of_nat d) (Z.of_nat p) opts = Ret (FF8 r) -> 128 < p <= 256 ->
  (forall i, buffer8 workSize8 (pool i)) -> 0 < n -> n mod 64 = 0 -> length shards = d + p -> Forall (shard_ok n) shards ->
  Leopard8Codec.Encode r pool shards = Panic.
Proof.
  intros Hnew Hp Hpool Hn H64 Hl Hok. destruct (New_leopard cpu d p opts r Hnew) as (Hd & _ & Ed & Ep & Et & _).
  apply (encode_panics r pool n shards); auto; rewrite ?Ed, ?Ep; auto. congruence.
Qed.

Definition encoder129 : leopardFF8 :=
  Eval vm_compute in match New CodecTheorems.cpu0 1 129 [WithLeopardGF true] with Ret (FF8 r) => r | _ => encoder0 end.

Lemma Leopard_Encode_panics_witness : Leopard8Codec.Encode encoder129 pool0 (repeat (shard64 []) 130) = Panic.
Proof.
  apply (Leopard_Encode_panics CodecTheorems.cpu0 1 129 [WithLeopardGF true] encoder129 pool0 64); [reflexivity | lia | apply pool0_ok | lia | reflexivity | reflexivity |].
  apply Forall_forall. intros s ->%repeat_spec. apply shard64_ok; [cbn; lia | constructor].
Defined.
