(* ===== verification/StreamTheorems.v ===== *)
(** * The properties of the streaming encoder

    Statements about a streaming encoder [NewStream] returned, on streams that
    are lists of bytes. *)
From Stdlib Require Import List Arith NArith ZArith Lia Bool Permutation.
From coqutil Require Import Datatypes.RecordSetters.
From S2P Require Import Prelude Galois RSTypes Matrix EncodingMatrix InversionTree Options IO Coding Codec.
From S2P Require Import CodecCorrect Reconstruct NewEncoder CodecTheorems Stream StreamCorrect StreamRecover.
Import ListNotations.

(** ** Encoders [NewStream] returns *)

Lemma supported_goroutines cpu d p opts n : supported cpu d p opts -> supported cpu d p (opts ++ [WithAutoGoroutines n]).
Proof.
  intros [H1 H2 H3 H4 H5 H6 H7 H8 H9 H10]. unfold apply_options in *.
  split; unfold apply_options; rewrite ?fold_left_app; auto.
  apply Forall_app. split; [auto |]. repeat constructor.
Qed.

Lemma NewStream_ok cpu d p opts : supported cpu d p opts ->
  exists s, NewStream cpu (Z.of_nat d) (Z.of_nat p) opts = Ret s /\ rs_ok (st_r s) /\
    dataShards (st_r s) = d /\ parityShards (st_r s) = p /\ totalShards (st_r s) = d + p /\
    0 < Z.to_nat (streamBS (st_o s)).
Proof.
  intros Hsup. unfold NewStream. assert (Ht := sup_total _ _ _ _ Hsup).
  rewrite Z.gtb_ltb. destruct (Z.ltb_spec 256 (Z.of_nat d + Z.of_nat p)); [lia |].
  match goal with |- context [if (streamBS ?o <=? 0)%Z then ?a else _] =>
    set (o2 := if (streamBS o <=? 0)%Z then a else o);
    assert (Hbs : 0 < Z.to_nat (streamBS o2))
      by (unfold o2; destruct (Z.leb_spec (streamBS o) 0); [cbn; unfold constant; lia | lia])
  end.
  match goal with |- context [New cpu _ _ ?os] => assert (Hs : supported cpu d p os) end.
  { if_case; [now apply supported_goroutines | auto]. }
  destruct (New_supported cpu d p _ Hs) as (r & -> & H1 & H2 & H3 & H4). cbn [bind].
  eexists. split; [reflexivity |]. cbn [st_r st_o]. auto.
Qed.

(** ** Concrete inputs *)

Definition stream0 : rsStream := {| st_r := enc0; st_o := { defaultOptions cpu0 with streamBS := 2%Z; concReads := true } |}.

(** Goroutines that finish in the opposite order *)
Definition sched0 : schedule := {| read_order := fun _ l => rev l; write_order := fun _ l => rev l |}.

Lemma sched0_ok : schedule_ok sched0.
Proof. split; intros; apply Permutation_sym, Permutation_rev. Qed.

Definition opts0 : list Option := [WithStreamBlockSize 2; WithConcurrentStreamReads true].

Lemma supported1 : supported cpu0 2 2 opts0.
Proof. split; try reflexivity; try lia; repeat constructor; cbn; lia. Qed.

Definition dstream0 : rsStream :=
  Eval vm_compute in match NewStream cpu0 2 2 opts0 with Ret s => s | _ => stream0 end.

Section Properties.
Context {R W : Type} `{GoodReader R} `{GoodWriter W}.
Context (cpu : machine) (d p : nat) (opts : list Option) (s : rsStream) (sched : schedule).
Context (Hsup : supported cpu d p opts) (Hnew : NewStream cpu (Z.of_nat d) (Z.of_nat p) opts = Ret s)
  (Hsched : schedule_ok sched).

Lemma stream_ok : rs_ok (st_r s) /\ dataShards (st_r s) = d /\ parityShards (st_r s) = p /\
  totalShards (st_r s) = d + p /\ 0 < Z.to_nat (streamBS (st_o s)).
Proof.
  destruct (NewStream_ok cpu d p opts Hsup) as (s' & E & H3). rewrite Hnew in E. injection E as <-. exact H3.
Qed.

(** On streams of [l] bytes [Encode] writes the parity of the whole
    streams, whatever the sizes of the reads, the size of the blocks, the bytes
    in the pooled buffers and the order of the goroutines. *)
Theorem Stream_Encode_codeword fuel pooled (data : list R) datas (parity : list W) l :
  pooled_ok s pooled -> length data = d -> length parity = p ->
  have l (map Some data) datas -> 0 < l < fuel ->
  exists data' parity' all' pars,
    Stream.Encode s sched fuel pooled (map Some data) (map Some parity) = Ret (map Some data', map Some parity', all', None) /\
    length pars = p /\ is_code (st_r s) l (datas ++ pars) /\
    map written parity' = map2 (@app N) (map written parity) pars /\ back s all'.
Proof.
  destruct stream_ok as (Hok & Hd & Hp & Ht & Hbs). intros Hpool Hld Hlp Hh Hl. rewrite <- Hp.
  apply (Encode_stream s sched Hok Hsched); auto; congruence.
Qed.

(** [Verify] of [d + p] streams answers whether they are a codeword. *)
Theorem Stream_Verify_codeword fuel pooled (shards : list R) bytes l :
  pooled_ok s pooled -> length shards = d + p -> have l (map Some shards) bytes -> 0 < l < fuel ->
  exists shards' all' b, Stream.Verify s sched fuel pooled (map Some shards) = Ret (map Some shards', all', b, None) /\
    (b = true <-> is_code (st_r s) l bytes) /\ back s all'.
Proof.
  destruct stream_ok as (Hok & Hd & Hp & Ht & Hbs). intros Hpool Hls Hh Hl.
  apply (Verify_stream s sched Hok Hsched); auto; congruence.
Qed.

(** With [d] of the streams left, [Reconstruct] writes every missing stream
    it has a writer for. *)
Theorem Stream_Reconstruct_recovers fuel pooled valid (fill : list (option W)) full l :
  pooled_ok s pooled -> have l valid full -> length valid = d + p -> d <= length (filter is_some valid) ->
  length fill = d + p -> (forall i w, nth i fill None = Some w -> nth i valid None = None) ->
  is_code (st_r s) l full -> 0 < l < fuel ->
  exists r' valid' fill' all',
    Stream.Reconstruct s sched fuel pooled valid fill = Ret (r', valid', fill', all', None) /\
    rs_ok r' /\ filled_in fill fill' full.
Proof.
  destruct stream_ok as (Hok & Hd & Hp & Ht & Hbs). intros Hpool Hh Hlv Hc Hlf Hno Hcode Hl.
  destruct (Reconstruct_stream s sched Hok Hsched fuel pooled valid fill full l) as (r' & v' & f' & a' & H3 & H4 & _ & H5 & _); auto.
  - split; [auto |]. split; [congruence |]. now rewrite Hd.
  - congruence.
  - exists r', v', f', a'. auto.
Qed.

End Properties.

(** ** Files *)

Section Files.
Context (cpu : machine) (d p : nat) (opts : list Option) (s : rsStream) (sched : schedule).
Context (Hsup : supported cpu d p opts) (Hnew : NewStream cpu (Z.of_nat d) (Z.of_nat p) opts = Ret s)
  (Hsched : schedule_ok sched).

(** Files read from their beginning have their bytes left. *)
Lemma have_files l bytes : Forall (fun b => length b = l /\ bytes_ok b) bytes -> have l (map Some bytes) bytes.
Proof.
  intros Hf. split; [| auto]. clear Hf. induction bytes; cbn; constructor; auto; reflexivity.
Qed.

Lemma length_pieces n per all : length (pieces n per all) = n.
Proof. revert all; induction n; intros all; cbn; auto. Qed.

Lemma pieces_bytes n per : forall all, bytes_ok all -> n * per <= length all ->
  Forall (fun b => length b = per /\ bytes_ok b) (pieces n per all) /\ concat (pieces n per all) = firstn (n * per) all.
Proof.
  induction n as [|n IH]; intros all Hb Hl; cbn [pieces concat].
  - split; [constructor | auto].
  - destruct (IH (skipn per all)) as [H1 H2]; [auto with go | rewrite length_skipn; lia |]. split.
    + constructor; [split; [rewrite length_firstn; lia | auto with go] | auto].
    + rewrite H2. cbn [Nat.mul]. now rewrite firstn_add.
Qed.

Lemma map2_app_nil (bs : list (list N)) : map2 (@app N) (repeat [] (length bs)) bs = bs.
Proof. induction bs as [|b bs IH]; cbn; [auto |]. now rewrite IH. Qed.

Lemma map_written (l : list (list N)) : map written l = l.
Proof. apply map_id. Qed.

(** The shards kept, and the writers for the others *)
Definition kept_readers (kept : list bool) (all : list (list N)) : list (option (list N)) :=
  map2 (fun (k : bool) b => if k then Some b else None) kept all.
Definition fill_writers (kept : list bool) : list (option (list N)) :=
  map (fun k : bool => if k then None else Some []) kept.
(** The files that were missing, as they should be *)
Definition missing_files (kept : list bool) (all : list (list N)) : list (option (list N)) :=
  map2 (fun (k : bool) b => if k then None else Some b) kept all.

Lemma kept_count kept all : length kept = length all ->
  length (filter is_some (kept_readers kept all)) = length (filter (fun b => b) kept).
Proof.
  unfold kept_readers. revert all; induction kept as [|[|] kept IH]; intros [|b all] Hl; try discriminate; cbn; auto.
Qed.

Lemma kept_have l kept all : length kept = length all -> Forall (fun b => length b = l /\ bytes_ok b) all ->
  have l (kept_readers kept all) all.
Proof.
  intros Hl Hf. split; [| auto]. clear Hf. unfold kept_readers. revert kept Hl.
  induction all as [|b all IH]; intros [|[|] kept] Hl; try discriminate; cbn; constructor; auto; reflexivity.
Qed.

Lemma fill_missing kept i w : nth i (fill_writers kept) None = Some w -> w = [] /\ nth i kept true = false.
Proof.
  unfold fill_writers. revert i; induction kept as [|[|] kept IH]; intros [|i]; cbn; try discriminate; auto; now injection 1 as <-.
Qed.

Lemma filled_missing kept fill' all : length kept = length all ->
  filled_in (fill_writers kept) fill' all -> fill' = missing_files kept all.
Proof.
  unfold fill_writers, missing_files. intros Hl [Hlf H]. rewrite length_map in Hlf. apply (list_ext None).
  - rewrite length_map2. lia.
  - intros i Hi. specialize (H i). rewrite (nth_map_in _ _ true) in H by lia.
    rewrite (nth_map2 _ _ _ true []) by lia. destruct (nth i kept true), (nth i fill' None); try tauto.
    cbn in H. now rewrite H.
Qed.

(** The files that are lost are written again. *)
Lemma reconstruct_files fuel pool kept l all : pooled_ok s pool -> length kept = d + p ->
  d <= length (filter (fun b => b) kept) -> is_code (st_r s) l all -> 0 < l < fuel ->
  exists r' valid' bufs',
    Stream.Reconstruct s sched fuel pool (kept_readers kept all) (fill_writers kept) =
      Ret (r', valid', missing_files kept all, bufs', None) /\
    rs_ok r' /\ same_code (st_r s) r' /\ back s bufs'.
Proof.
  destruct (stream_ok cpu d p opts s Hsup Hnew) as (Hok & Hd & Hp & Ht & Hbs).
  intros Hpool Hkl Hkc Hcode Hl. assert (Hall := proj1 (proj2 Hcode)). assert (Hla : length all = d + p) by (rewrite (proj1 Hcode); lia).
  destruct (Reconstruct_stream (R := list N) (W := list N) s sched Hok Hsched fuel pool
    (kept_readers kept all) (fill_writers kept) all l)
    as (r' & valid' & fill' & bufs' & E3 & Hr' & Hsame & Hfill & Hback); auto; try lia.
  { split; [apply kept_have; [lia | auto] |]. split; [unfold kept_readers; rewrite length_map2; lia |].
    rewrite kept_count, Hd by lia. auto. }
  { unfold fill_writers. rewrite length_map. lia. }
  { intros i w [_ Hi]%fill_missing. destruct (Nat.lt_ge_cases i (d + p)).
    - unfold kept_readers. rewrite (nth_map2 _ _ _ true []) by lia. now rewrite Hi.
    - rewrite nth_overflow in Hi by lia. discriminate. }
  apply filled_missing in Hfill; [| lia]. subst fill'. exists r', valid', bufs'. auto.
Qed.

(** A file split into shards, and the parity of the shards *)
Lemma split_then_encode fuel pool (data : list N) :
  pooled_ok s pool -> bytes_ok data -> 0 < length data < fuel ->
  exists l shards parity data' bufs,
    let padding := d * l - length data in
    Split s data (repeat (Some []) d) (Z.of_nat (length data)) = Ret (map Some shards, Z.of_nat padding, None) /\
    Stream.Encode s sched fuel pool (map Some shards) (repeat (Some []) p) = Ret (data', map Some parity, bufs, None) /\
    length shards = d /\ length parity = p /\ 0 < l < fuel /\ length data <= d * l /\
    is_code (st_r s) l (shards ++ parity) /\ concat shards = data ++ repeat 0%N padding.
Proof.
  destruct (stream_ok cpu d p opts s Hsup Hnew) as (Hok & Hd & Hp & Ht & Hbs).
  intros Hpool Hb Hl. assert (Hdpos := ok_data _ Hok).
  set (per := Z.to_nat (Z.quot (Z.of_nat (length data) + Z.of_nat d - 1) (Z.of_nat d))).
  assert (Hper : length data <= d * per /\ 0 < per /\ per <= length data).
  { unfold per. assert (Hq := Z.quot_rem' (Z.of_nat (length data) + Z.of_nat d - 1) (Z.of_nat d)).
    assert (Hr := Z.rem_bound_pos (Z.of_nat (length data) + Z.of_nat d - 1) (Z.of_nat d)).
    assert (0 < Z.quot (Z.of_nat (length data) + Z.of_nat d - 1) (Z.of_nat d))%Z by (apply Z.quot_str_pos; lia). nia. }
  assert (Etn : Z.to_nat (Z.of_nat (length data)) = length data) by lia.
  destruct (Split_stream (R := list N) (W := list N) s data (repeat [] d) (Z.of_nat (length data))) as (shards & E1 & Ew1);
    rewrite ?Hd, ?repeat_length; try lia.
  { fold per. change (rest data) with data. rewrite Etn, Ht. nia. }
  rewrite Hd in E1. rewrite Hd, Etn in Ew1. fold per in E1, Ew1. change (rest data) with data in *.
  rewrite !map_written in Ew1. set (k := totalShards (st_r s) * per - length data) in Ew1. set (zeros := repeat 0%N k) in Ew1.
  assert (Emap : map2 (@app N) (repeat [] d) (pieces d per (data ++ zeros)) = pieces d per (data ++ zeros))
    by (rewrite <- (length_pieces d per (data ++ zeros)) at 1; apply map2_app_nil).
  rewrite Emap in Ew1. clear Emap.
  assert (Hk : d * per <= length data + k) by (unfold k; rewrite Ht; nia).
  destruct (pieces_bytes d per (data ++ zeros)) as [Hpf Hpc];
    [apply bytes_ok_app; split; [auto | apply bytes_ok_repeat; lia] | unfold zeros; rewrite length_app, repeat_length; lia |].
  rewrite <- Ew1 in Hpf, Hpc. assert (Hls : length shards = d) by (rewrite Ew1; apply length_pieces).
  destruct (Encode_stream (R := list N) (W := list N) s sched Hok Hsched fuel pool shards shards (repeat [] p) per)
    as (data' & parity & bufs & pars & E2 & Hlp & Hcode & Ew2 & _); auto; [congruence | rewrite repeat_length; congruence | now apply have_files | lia |].
  rewrite Hp in Hlp.
  rewrite !map_written, <- Hlp, map2_app_nil in Ew2. subst pars.
  exists per, shards, parity, (map Some data'), bufs. rewrite map_repeat in E1, E2. cbv zeta. splits; auto; try lia.
  rewrite Hpc, firstn_app, firstn_all2 by lia. f_equal. apply firstn_repeat_le. lia.
Qed.

(** C10: split a file into shards, encode them, lose all the shards but [d],
    reconstruct the lost ones, join: every shard is back and so is the file. *)
Theorem Stream_round_trip fuel pool1 pool2 (data : list N) kept :
  pooled_ok s pool1 -> pooled_ok s pool2 -> bytes_ok data -> 0 < length data < fuel ->
  length kept = d + p -> d <= length (filter (fun b => b) kept) ->
  exists shards parity padding data' bufs r' valid' bufs',
    Split s data (repeat (Some []) d) (Z.of_nat (length data)) = Ret (map Some shards, padding, None) /\
    (Z.of_nat (length data) + padding)%Z = Z.of_nat (length (concat shards)) /\
    Stream.Encode s sched fuel pool1 (map Some shards) (repeat (Some []) p) =
      Ret (data', map Some parity, bufs, None) /\
    Stream.Reconstruct s sched fuel pool2 (kept_readers kept (shards ++ parity)) (fill_writers kept) =
      Ret (r', valid', missing_files kept (shards ++ parity), bufs', None) /\
    Join s [] (map Some shards) (Z.of_nat (length data)) = Ret (data, None).
Proof.
  destruct (stream_ok cpu d p opts s Hsup Hnew) as (Hok & Hd & Hp & Ht & Hbs).
  intros Hp1 Hp2 Hb Hl Hkl Hkc.
  destruct (split_then_encode fuel pool1 data Hp1 Hb Hl)
    as (l & shards & parity & data' & bufs & E1 & E2 & Hls & Hlp & Hl' & Hcov & Hcode & Hpc).
  destruct (reconstruct_files fuel pool2 kept l (shards ++ parity)) as (r' & valid' & bufs' & E3 & _); auto.
  destruct (Join_stream (R := list N) (W := list N) s [] shards [] (Z.of_nat (length data))) as (out & E4 & Ew4); [lia |].
  assert (Er : map rest shards = shards) by apply map_id.
  rewrite app_nil_r in E4. rewrite Er, Hpc, length_app, repeat_length in *.
  rewrite Nat2Z.id, firstn_app, Nat.sub_diag, firstn_all in Ew4. cbn [firstn] in Ew4.
  rewrite app_nil_r in Ew4. specialize (Ew4 ltac:(lia)). change (written out) with out in Ew4. cbn in Ew4. subst out.
  exists shards, parity, (Z.of_nat (d * l - length data)), data', bufs, r', valid', bufs'. splits; auto; [rewrite Hpc, length_app, repeat_length; lia |].
  rewrite E4. destruct (Z.leb_spec 0 (Z.of_nat (length data))), (Z.leb_spec (Z.of_nat (length data)) (Z.of_nat (length data + (d * l - length data)))); auto; lia.
Qed.

(** A source shorter than the size given is not always noticed: as long as
    no more bytes are missing than the parity shards have, [Split] fills up with
    zeros and reports no error, and counts them as padding. *)
Theorem Split_short_data (data : list N) size :
  let perShard := Z.to_nat (Z.quot (size + Z.of_nat d - 1) (Z.of_nat d)) in
  (0 < size)%Z -> (Z.of_nat (length data) < size)%Z -> (size - Z.of_nat (length data) <= Z.of_nat (p * perShard))%Z ->
  exists shards, Split s data (repeat (Some []) d) size =
      Ret (map Some shards, Z.of_nat (d * perShard - length data), None) /\
    shards = pieces d perShard (data ++ repeat 0%N ((d + p) * perShard - Z.to_nat size)).
Proof.
  destruct (stream_ok cpu d p opts s Hsup Hnew) as (Hok & Hd & Hp & Ht & Hbs).
  intros perShard Hsize Hshort Hpar. assert (Hdpos := ok_data _ Hok).
  destruct (Split_stream (R := list N) (W := list N) s data (repeat [] d) size) as (shards & E1 & Ew1);
    rewrite ?Hd, ?repeat_length; try lia.
  { fold perShard. change (rest data) with data. rewrite Ht. nia. }
  rewrite Hd, ?Ht in E1, Ew1. fold perShard in E1, Ew1. rewrite map_repeat in E1.
  exists shards. split; [exact E1 |]. rewrite !map_written in Ew1. rewrite Ew1, Ht.
  change (rest data) with data. set (z := data ++ _). rewrite <- (length_pieces d perShard z) at 1. apply map2_app_nil.
Qed.
End Files.

(** ** Witnesses *)

Lemma new_dstream0 : NewStream cpu0 (Z.of_nat 2) (Z.of_nat 2) opts0 = Ret dstream0.
Proof. vm_compute. reflexivity. Qed.

(** Sources that give two bytes at a time, and one *)
Definition sources0 : list chunked := [Chunked 1 [1; 2; 3]; Chunked 0 [250; 251; 252]]%N.
Definition bytes0 : list (list N) := [[1; 2; 3]; [250; 251; 252]]%N.

(** The parity of [bytes0] *)
Definition parity0 : list (list N) :=
  Eval vm_compute in
  match Stream.Encode dstream0 sched0 4 None (map Some sources0) [Some []; Some []] with
  | Ret (_, out, _, _) => map (fun o => match o with Some b => b | None => [] end) out
  | _ => []
  end.

Ltac bytes_known := repeat (constructor; [split; [reflexivity | repeat constructor] |]); constructor.

Lemma have_sources0 : have 3 (map Some sources0) bytes0.
Proof. split; [repeat constructor | bytes_known]. Qed.

Lemma code0 : is_code (st_r dstream0) 3 (bytes0 ++ parity0).
Proof.
  split; [reflexivity |]. split; [bytes_known |]. intros i k Hi Hk. cbn in Hi.
  destruct k as [|[|[|k]]]; [| | | lia]; destruct i as [|[|[|[|i]]]]; try lia; vm_compute; reflexivity.
Qed.

Lemma Stream_Encode_codeword_witness : exists data' parity' all' pars,
  Stream.Encode dstream0 sched0 4 None (map Some sources0) (map Some [[7%N]; []]) =
    Ret (map Some data', map Some parity', all', None) /\
  length pars = 2 /\ is_code (st_r dstream0) 3 (bytes0 ++ pars) /\
  map written parity' = map2 (@app N) (map written [[7%N]; []]) pars /\ back dstream0 all'.
Proof.
  apply (Stream_Encode_codeword cpu0 2 2 opts0 dstream0 sched0 supported1 new_dstream0 sched0_ok 4 None);
    [exact I | reflexivity | reflexivity | exact have_sources0 | lia].
Defined.

Lemma Stream_Verify_codeword_witness : exists shards' all' b,
  Stream.Verify dstream0 sched0 4 None (map Some (bytes0 ++ parity0)) = Ret (map Some shards', all', b, None) /\
  (b = true <-> is_code (st_r dstream0) 3 (bytes0 ++ parity0)) /\ back dstream0 all'.
Proof.
  apply (Stream_Verify_codeword cpu0 2 2 opts0 dstream0 sched0 supported1 new_dstream0 sched0_ok 4 None);
    [exact I | reflexivity | split; [repeat constructor | bytes_known] | lia].
Defined.

Lemma Stream_Reconstruct_recovers_witness : exists r' valid' fill' all',
  Stream.Reconstruct dstream0 sched0 4 None [None; Some [250; 251; 252]; None; Some (nth 1 parity0 [])]%N [Some []; None; Some []; None] =
    Ret (r', valid', fill', all', None) /\
  rs_ok r' /\ filled_in [Some []; None; Some []; None] fill' (bytes0 ++ parity0).
Proof.
  apply (Stream_Reconstruct_recovers cpu0 2 2 opts0 dstream0 sched0 supported1 new_dstream0 sched0_ok 4 None _ _ _ 3);
    [exact I | split; [repeat constructor | bytes_known] | reflexivity | cbn; lia | reflexivity | | exact code0 | lia].
  intros [|[|[|[|i]]]] w; cbn; try discriminate; auto. destruct i; discriminate.
Defined.


Lemma Stream_round_trip_witness : exists shards parity padding data' bufs r' valid' bufs',
  Split dstream0 [1; 2; 3; 4; 5]%N (repeat (Some []) 2) (Z.of_nat 5) = Ret (map Some shards, padding, None) /\
  (Z.of_nat 5 + padding)%Z = Z.of_nat (length (concat shards)) /\
  Stream.Encode dstream0 sched0 6 None (map Some shards) (repeat (Some []) 2) = Ret (data', map Some parity, bufs, None) /\
  Stream.Reconstruct dstream0 sched0 6 None (kept_readers [false; true; true; false] (shards ++ parity))
      (fill_writers [false; true; true; false]) =
    Ret (r', valid', missing_files [false; true; true; false] (shards ++ parity), bufs', None) /\
  Join dstream0 [] (map Some shards) (Z.of_nat 5) = Ret ([1; 2; 3; 4; 5]%N, None).
Proof.
  apply (Stream_round_trip cpu0 2 2 opts0 dstream0 sched0 supported1 new_dstream0 sched0_ok 6 None None [1; 2; 3; 4; 5]%N);
    [exact I | exact I | repeat constructor | cbn; lia | reflexivity | cbn; lia].
Defined.

Lemma Split_short_data_witness : exists shards,
  Split dstream0 [1; 2; 3]%N (repeat (Some []) 2) 6 = Ret (map Some shards, 3%Z, None) /\
  shards = [[1; 2; 3]; [0; 0; 0]]%N.
Proof.
  apply (Split_short_data cpu0 2 2 opts0 dstream0 supported1 new_dstream0 [1; 2; 3]%N 6); cbn; lia.
Defined.
