(* ===== verification/FileCodecCorrect.v ===== *)
(** * Encoding and decoding files is correct

    What [DoEncode] leaves on the disk, [encoding], and that [DoDecode] undoes it
    from any choice of enough shards. *)
From stdpp Require Import base gmap strings list pretty.
From S2P Require Import Prelude Galois RSTypes Options IO Codec CodecCorrect Reconstruct NewEncoder.
From S2P Require Import Stream StreamCorrect StreamRecover StreamTheorems FileCodec.
Import ListNotations.
Local Open Scope go_scope.

(** A path for the default of [nth] *)
Definition no_path : path := (EmptyString, EmptyString).

(** ** The number of shards *)

(** The values the flags can take: they start at 170 and 85. *)
Definition flags_ok (flags : Z * Z) : Prop := (Z.rem (fst flags) 5 = 0 /\ 5 <= fst flags <= 170)%Z.

Lemma shrink_spec fileSize minSize : forall fuel d, (0 <= fileSize)%Z -> flags_ok (d, 0%Z) -> (Z.to_nat d < fuel)%nat ->
  exists d', shrink fuel fileSize minSize d = Ret d' /\ flags_ok (d', 0%Z) /\ (d' <= d)%Z /\
    ((minSize <= Z.quot fileSize d')%Z \/ (d' <= 10)%Z).
Proof.
  induction fuel as [|fuel IH]; intros d Hs [Hr Hd] Hf; cbn [fst] in *; [lia |]. cbn [shrink].
  destruct (Z.eqb_spec d 0); [lia |].
  destruct (Z.ltb_spec (Z.quot fileSize d) minSize); destruct (Z.gtb_spec d 10); cbn [andb];
    try (exists d; unfold flags_ok; cbn [fst]; splits; auto; lia).
  destruct (IH (d - 10)%Z) as (d' & E & Hok & Hle & Hend); auto.
  - unfold flags_ok. cbn [fst]. assert (Hq := Z.quot_rem' d 5). rewrite Hr in Hq.
    replace (d - 10)%Z with ((Z.quot d 5 - 2) * 5)%Z by lia. split; [apply Z.rem_mul; lia | lia].
  - lia.
  - exists d'. splits; auto. lia.
Qed.

Lemma calculateShardsNum_spec flags fileSize : (0 <= fileSize)%Z -> flags_ok flags ->
  exists d p, calculateShardsNum flags fileSize = Ret (d, p) /\ flags_ok (d, p) /\ (1 <= p)%Z /\ (d + p <= 255)%Z /\
    ((10 * 1024 * 1024 <= fileSize)%Z -> (10 * 1024 * 1024 <= Z.quot fileSize d)%Z \/ (d <= 10)%Z).
Proof.
  intros Hs Hok. destruct flags as [d0 p0]. unfold calculateShardsNum. destruct (Z.ltb_spec fileSize (10 * 1024 * 1024)).
  - exists 5%Z, 3%Z. unfold flags_ok. cbn [fst]. splits; auto; lia.
  - destruct (shrink_spec fileSize (10 * 1024 * 1024) (S (Z.to_nat d0)) d0) as (d & -> & [Hr Hd] & Hle & Hend); auto.
    cbn [bind fst] in *. exists d, (Z.quot d 2). unfold flags_ok. cbn [fst].
    assert (Hq := Z.quot_rem' d 2). assert (Hrm := Z.rem_bound_pos d 2). splits; auto; lia.
Qed.

(** ** Names *)

#[export] Instance shard_name_inj file : Inj (=) (=) (shard_name file).
Proof.
  intros i j H. unfold shard_name in H. apply (inj (String.append file)) in H. apply (inj (String.append ".")) in H.
  now apply (inj pretty) in H.
Qed.

Lemma length_pretty_small (i : nat) : i < 256 -> String.length (pretty i) <= 3.
Proof.
  intros Hi. assert (H : forallb (fun i : nat => Nat.leb (String.length (pretty i)) 3) (seq 0 256) = true) by (vm_compute; reflexivity).
  rewrite forallb_forall in H. apply Nat.leb_le, (H i), in_seq. lia.
Qed.

Lemma length_append (s1 s2 : string) : String.length (s1 +:+ s2) = String.length s1 + String.length s2.
Proof. induction s1 as [|c s1 IH]; cbn; [auto |]. now rewrite <- IH. Qed.

Lemma sprint_not_shard fname i j : j < 256 -> sprint_name fname i <> shard_name fname j.
Proof.
  intros Hj H. apply (f_equal String.length) in H. unfold sprint_name, shard_name in H.
  rewrite !length_append in H. cbn in H. assert (H1 := length_pretty_small j Hj). lia.
Qed.

(** ** The padding *)

Lemma null_bytes_repeat k : null_bytes (repeat 0%N k) = k.
Proof. induction k; cbn; auto. Qed.

(** Zeros at the end are cut off. *)
Lemma trimPadding_spec content k : content <> [] -> trimPadding (content ++ repeat 0%N k) k = content.
Proof.
  intros Hne. assert (0 < length content) by (destruct content; [congruence | cbn; lia]).
  unfold trimPadding. rewrite length_app, repeat_length. destruct (Nat.ltb_spec k (length content + k)); [| lia].
  replace (length content + k - k) with (length content) by lia.
  rewrite skipn_app, skipn_all, Nat.sub_diag, drop_0. cbn [app]. rewrite null_bytes_repeat, Nat.eqb_refl.
  rewrite firstn_app, firstn_all, Nat.sub_diag, take_0. apply app_nil_r.
Qed.

(** Anything else at the end: only the first [k] bytes of the file stay. *)
Lemma trimPadding_other content k : k < length content -> null_bytes (skipn (length content - k) content) <> k ->
  trimPadding content k = firstn k content.
Proof.
  intros Hk Hz. unfold trimPadding. destruct (Nat.ltb_spec k (length content)); [| lia].
  destruct (Nat.eqb_spec (null_bytes (skipn (length content - k) content)) k); [congruence | auto].
Qed.

(** ** Files on the disk *)

Lemma open_put dk p q c : open (put_file dk p c) q = if decide (p = q) then Some c else open dk q.
Proof. unfold open, put_file. cbn. destruct (decide (p = q)) as [->|]; now simplify_map_eq. Qed.

Lemma open_remove dk p q : open (remove dk p) q = if decide (p = q) then None else open dk q.
Proof. unfold open, remove. cbn. destruct (decide (p = q)) as [->|]; now simplify_map_eq. Qed.

Lemma open_delete configDir names : forall dk q, open (DeleteShardWithFileNames configDir dk names) q =
  if decide (fst q = GetShardDir configDir /\ snd q ∈ names) then None else open dk q.
Proof.
  unfold DeleteShardWithFileNames. induction names as [|n names IH]; intros dk [qd qn]; cbn [fold_left fst snd].
  - rewrite decide_False by (intros [_ []%elem_of_nil]). auto.
  - rewrite IH, open_remove. cbn [fst snd]. repeat case_decide; simplify_eq; auto; set_solver.
Qed.

Lemma put_files_cons dk p c l : put_files dk ((p, c) :: l) = put_files (put_file dk p c) l.
Proof. reflexivity. Qed.

Lemma open_put_files_out l : forall dk q, ~ In q (map fst l) -> open (put_files dk l) q = open dk q.
Proof.
  induction l as [|[p c] l IH]; intros dk q Hq; [auto |]. cbn in Hq. rewrite put_files_cons, IH by tauto.
  rewrite open_put. destruct (decide (p = q)); [tauto | auto].
Qed.

Lemma open_put_files_in l : forall dk q c, NoDup (map fst l) -> In (q, c) l -> open (put_files dk l) q = Some c.
Proof.
  induction l as [|[p c0] l IH]; intros dk q c Hnd Hin; [destruct Hin |]. cbn [map fst] in Hnd. apply NoDup_cons in Hnd as [Hp Hnd].
  rewrite put_files_cons. destruct Hin as [[= -> ->]|Hin].
  - rewrite open_put_files_out by now rewrite <- list_elem_of_In. rewrite open_put. now rewrite decide_True.
  - now apply IH.
Qed.

Lemma put_files_dirs l : forall dk, dirs (put_files dk l) = dirs dk.
Proof. induction l as [|[p c] l IH]; intros dk; [auto |]. now rewrite put_files_cons, IH. Qed.

Section FileCodec.
Context (cpu : machine) (sched : schedule) (configDir : string) (sha256 : list N -> string).
Context (encrypt : nat -> string -> list N -> list N) (decrypt : string -> list N -> option (list N)).
Context (reuse : nat -> bool).
Context (Hcpu : machine_ok cpu) (Hsched : schedule_ok sched).
(** The cipher text is not empty and decrypts to the plain text. *)
Context (Hcipher : forall rnd pw x, bytes_ok x -> bytes_ok (encrypt rnd pw x) /\ encrypt rnd pw x <> [])
  (Hdecrypt : forall rnd pw x, decrypt pw (encrypt rnd pw x) = Some x).
Local Abbreviation shardDir := (GetShardDir configDir).
Local Abbreviation openInput := (openInput configDir).

(** ** Checksums *)

(** The names in the configuration are names of shards. *)
Definition conf_names (conf : gmap string string) (fname : string) : Prop :=
  forall k, is_Some (conf !! k) -> exists i, i < 256 /\ k = shard_name fname i.

Lemma get_sprint conf fname i : conf_names conf fname -> get conf (sprint_name fname i) = EmptyString.
Proof.
  intros Hc. unfold get. destruct (conf !! sprint_name fname i) eqn:E; [| auto].
  destruct (Hc (sprint_name fname i)) as (j & Hj & Hn); [now rewrite E |]. now apply sprint_not_shard in Hn.
Qed.

Lemma conf_names_list fname (f : nat -> string) n : n <= 256 ->
  conf_names (list_to_map (map (fun i => (shard_name fname i, f i)) (seq 0 n))) fname.
Proof.
  intros Hn k [v Hv]. apply elem_of_list_to_map_2, list_elem_of_In, in_map_iff in Hv as (i & [= <- <-] & Hi%in_seq).
  exists i. split; [lia | auto].
Qed.

Lemma compare_loop_noop n : forall i dk server conf fname, conf_names server fname -> conf_names conf fname ->
  compare_loop configDir n i dk server conf fname = dk.
Proof.
  induction n as [|n IH]; intros i dk server conf fname Hs Hc; cbn [compare_loop]; [auto |].
  rewrite !get_sprint by auto. rewrite decide_True by auto. now apply IH.
Qed.

(** ** Shards on the disk *)

(** The shard files of [fname], those that are there *)
Definition stored (dk : disk) (fname : string) (l : list (option (list N))) : Prop :=
  forall i, i < length l -> open dk (shardDir, shard_name fname i) = nth i l None.

Lemma openInput_stored dk d p fname l : stored dk fname l -> length l = d + p ->
  (forall c, In (Some c) l -> c <> []) -> fst (openInput dk d p fname) = l.
Proof.
  intros Hst Hl Hne. unfold FileCodec.openInput. cbn [fst]. apply (list_ext None); [now rewrite length_map, length_seq |].
  intros i Hi. rewrite length_map, length_seq in Hi. rewrite (nth_seq_map _ None) by auto.
  rewrite Hst by lia. destruct (nth i l None) as [c|] eqn:E; [| auto].
  destruct c; [| auto]. exfalso. apply (Hne []); [| auto]. rewrite <- E. apply nth_In. lia.
Qed.

Lemma openInput_size dk d p fname all l : stored dk fname (map Some all) -> length all = d + p -> 0 < l ->
  Forall (fun b => length b = l) all -> 0 < d + p -> openInput dk d p fname = (map Some all, l).
Proof.
  intros Hst Hla Hl Hf Hdp. rewrite Forall_forall in Hf.
  assert (E : fst (openInput dk d p fname) = map Some all).
  { apply openInput_stored; [auto | now rewrite length_map |].
    intros c (x & [= ->] & Hx)%in_map_iff. apply list_elem_of_In, Hf in Hx. intros ->. cbn in Hx. lia. }
  rewrite (surjective_pairing (openInput dk d p fname)). rewrite E. f_equal.
  unfold FileCodec.openInput in *. cbn [fst snd] in *. rewrite E. clear E.
  assert (H : forall (xs : list (list N)) (n0 : nat), (forall x, In x xs -> length x = l) -> (xs <> [] \/ n0 = l) ->
    fold_left (fun size shard => match shard with Some f => length f | None => size end) (map Some xs) n0 = l).
  { induction xs as [|x xs IH]; intros n0 Hx Hn; cbn; [destruct Hn; congruence |].
    apply IH; [intros y Hy; apply Hx; now right |]. right. apply Hx. now left. }
  apply H; [intros x Hx; apply Hf, list_elem_of_In, Hx |]. left. intros ->. cbn in Hla. lia.
Qed.

Lemma kept_readers_all kept all : length kept = length all -> forallb id kept = true -> kept_readers kept all = map Some all.
Proof.
  unfold kept_readers. revert kept. induction all as [|b all IH]; intros [|[|] kept] Hl Hk; try discriminate; cbn in *; auto.
  now rewrite IH by auto.
Qed.

Lemma forallb_kept kept all : length kept = length all -> forallb is_some (kept_readers kept all) = forallb id kept.
Proof.
  unfold kept_readers. revert kept. induction all as [|b all IH]; intros [|[|] kept] Hl; try discriminate; cbn in *; auto.
Qed.

Lemma nth_kept kept all i : length kept = length all -> i < length all ->
  nth i (kept_readers kept all) None = if nth i kept true then Some (nth i all []) else None.
Proof. intros Hl Hi. unfold kept_readers. rewrite (nth_map2 _ _ _ true []) by lia. auto. Qed.

(** Writing the files that were missing *)
Definition shard_paths (fname : string) (n : nat) : list path := map (fun i => (shardDir, shard_name fname i)) (seq 0 n).

Lemma shard_paths_NoDup fname n : NoDup (shard_paths fname n).
Proof.
  assert (Inj (=) (=) (fun i => (shardDir, shard_name fname i))) by (intros i j [= H]; now apply shard_name_inj in H).
  apply (NoDup_fmap_2 _). apply NoDup_seq.
Qed.

Lemma nth_shard_paths fname n i : i < n -> nth i (shard_paths fname n) no_path = (shardDir, shard_name fname i).
Proof. intros Hi. unfold shard_paths. now rewrite nth_seq_map. Qed.

Lemma length_shard_paths fname n : length (shard_paths fname n) = n.
Proof. unfold shard_paths. now rewrite length_map, length_seq. Qed.

Lemma in_shard_paths fname n q : In q (shard_paths fname n) <-> exists i, i < n /\ q = (shardDir, shard_name fname i).
Proof.
  unfold shard_paths. rewrite in_map_iff. setoid_rewrite in_seq. split.
  - intros (i & <- & Hi). exists i. split; [lia | auto].
  - intros (i & Hi & ->). exists i. split; [auto | lia].
Qed.

(** A file name is shorter than the names of its shards. *)
Lemma shard_name_longer fname i : shard_name fname i <> fname.
Proof. intros H. apply (f_equal String.length) in H. unfold shard_name in H. rewrite !length_append in H. cbn in H. lia. Qed.

Lemma map_fst_combine {A B} (l : list A) (k : list B) : length l = length k -> map fst (combine l k) = l.
Proof. revert k; induction l as [|x l IH]; intros [|y k] Hl; cbn in *; auto; [lia |]. f_equal. apply IH. lia. Qed.

Lemma NoDup_cut {A} n (l : list A) : NoDup l -> NoDup (firstn n l) /\ NoDup (skipn n l).
Proof. intros H. rewrite <- (take_drop n l) in H. apply NoDup_app in H as (H1 & _ & H2). auto. Qed.

Lemma In_cut {A} n (l : list A) x : In x (firstn n l) \/ In x (skipn n l) -> In x l.
Proof. intros H. rewrite <- (take_drop n l). apply in_or_app. exact H. Qed.

(** Contents written to names that differ *)
Lemma open_put_combine dk (names : list path) cs i : NoDup names -> length cs = length names -> i < length cs ->
  open (put_files dk (combine names cs)) (nth i names no_path) = Some (nth i cs []).
Proof.
  intros Hnd Hl Hi. apply open_put_files_in; [now rewrite map_fst_combine by lia |].
  rewrite <- combine_nth by lia. apply nth_In. rewrite length_combine. lia.
Qed.

Lemma open_put_combine_out dk (names : list path) cs q : length cs = length names -> ~ In q names ->
  open (put_files dk (combine names cs)) q = open dk q.
Proof. intros Hl Hq. apply open_put_files_out. now rewrite map_fst_combine by lia. Qed.

Lemma contents_some (l : list (list N)) : contents (map Some l) = l.
Proof. unfold contents. induction l as [|x l IH]; cbn; [auto |]. f_equal. exact IH. Qed.

(** Reading files that are there *)
Lemma mapM_must {A} (f : path -> option A) (names : list path) (vals : list A) :
  (forall i, i < length names -> f (nth i names no_path) = nth_error vals i) -> length vals = length names ->
  mapM (fun q => must (f q)) names = Ret vals.
Proof.
  revert vals; induction names as [|q names IH]; intros [|v vals] Hv Hl; try discriminate; cbn [mapM]; [auto |].
  assert (H0 := Hv 0 ltac:(cbn; lia)). cbn in H0. rewrite H0. cbn [must bind]. rewrite (IH vals); [auto | | now injection Hl].
  intros i Hi. apply (Hv (S i)). cbn. lia.
Qed.

Lemma supported_default d p : 0 < d -> 0 < p -> d + p <= 256 -> supported cpu d p [].
Proof. intros Hd Hp Hdp. split; auto. Qed.

(** ** [DoEncode] *)

(** What [DoEncode] leaves: the shards and the parity of the cipher text *)
Record encoding (y : list N) (d p l : nat) (all : list (list N)) : Prop := {
  enc_stream : exists s, NewStream cpu (Z.of_nat d) (Z.of_nat p) [] = Ret s /\ is_code (st_r s) l all;
  enc_data : 0 < d;
  enc_parity : 0 < p;
  enc_total : d + p <= 256;
  enc_size : 0 < l;
  enc_cover : length y <= d * l;
  enc_concat : concat (firstn d all) = y ++ repeat 0%N (d * l - length y)
}.

Lemma encoding_all y d p l all : encoding y d p l all -> length all = d + p /\ Forall (fun b => length b = l /\ bytes_ok b) all.
Proof.
  intros [(s & Hs & Hcode) Hd Hp Ht _ _ _]. destruct (NewStream_ok cpu d p [] (supported_default d p Hd Hp Ht)) as (s' & E & _ & _ & _ & H & _).
  rewrite Hs in E. injection E as <-. split; [rewrite <- H |]; apply Hcode.
Qed.

Lemma DoEncode_spec flags dk rnd fname password x :
  open dk fname = Some x -> bytes_ok x -> flags_ok flags ->
  exists dk' flags' d p l all,
    let y := encrypt rnd password x in
    let enc_name := snd fname +:+ fileCryptExtension in
    DoEncode cpu sched configDir sha256 encrypt flags dk rnd fname password =
      Ret (dk', flags', {| e_paths := shard_paths enc_name (d + p); e_checksums := map sha256 all;
        e_sizePerShard := Z.of_nat l; e_padding := Z.of_nat (d * l - length y);
        e_dataShards := Z.of_nat d; e_parShards := Z.of_nat p |}) /\
    flags' = (Z.of_nat d, Z.of_nat p) /\ flags_ok flags' /\ encoding y d p l all /\
    stored dk' enc_name (map Some all) /\ dirs dk' = {[shardDir]} ∪ dirs dk /\
    forall q, ~ In q (shard_paths enc_name (d + p)) -> q <> (fst fname, enc_name) -> open dk' q = open dk q.
Proof.
  intros Hx Hbx Hflags. cbv zeta. set (y := encrypt rnd password x). set (nm := snd fname +:+ fileCryptExtension).
  destruct (Hcipher rnd password x Hbx) as [Hby Hyne]. fold y in Hby, Hyne.
  destruct (calculateShardsNum_spec flags (Z.of_nat (length x))) as (dz & pz & Ec & Hf' & Hpz & Hsum & _); [lia | auto |].
  assert (Hdz : (5 <= dz <= 170)%Z) by (destruct Hf'; cbn in *; lia).
  assert (exists d, dz = Z.of_nat d) as [d ->] by (exists (Z.to_nat dz); lia).
  assert (exists p, pz = Z.of_nat p) as [p ->] by (exists (Z.to_nat pz); lia).
  destruct (NewStream_ok cpu d p []) as (s & Hnew & Hok & Hsd & Hsp & Hst & Hbs); [apply supported_default; lia |].
  assert (Hly : 0 < length y < S (length y)) by (destruct y; [congruence | cbn; lia]).
  destruct (split_then_encode cpu d p [] s sched ltac:(apply supported_default; lia) Hnew Hsched (S (length y)) None y I Hby Hly)
    as (l & shards & parity & data' & bufs & E1 & E2 & Hls & Hlp & Hl & Hcov & Hcode & Hconcat).
  unfold DoEncode. set (dk1 := if decide _ then dk else _).
  assert (Hdk1 : (forall q, open dk1 q = open dk q) /\ dirs dk1 = {[shardDir]} ∪ dirs dk).
  { unfold dk1. destruct (decide (shardDir ∈ dirs dk)); split; auto. set_solver. }
  destruct Hdk1 as [Ho1 Hd1]. clearbody dk1. rewrite Ho1, Hx. cbn [must bind]. rewrite Ec. cbn [bind].
  destruct (Z.gtb_spec (Z.of_nat d + Z.of_nat p) 256); [lia |]. rewrite Hnew. cbn [checked bind]. fold nm y.
  rewrite open_put, decide_True by auto. cbn [must bind]. rewrite !Nat2Z.id.
  change (snd (fst fname, nm)) with nm. fold (shard_paths nm (d + p)).
  set (encFile := (fst fname, nm)). set (paths := shard_paths nm (d + p)). set (dk3 := put_files _ _).
  rewrite E1. cbn [run bind checkErr]. rewrite contents_some.
  assert (Hnd : NoDup paths) by apply shard_paths_NoDup. assert (Hlpaths : length paths = d + p) by apply length_shard_paths.
  assert (Hlf : length (firstn d paths) = d) by (rewrite length_firstn; lia).
  assert (Hlk : length (skipn d paths) = p) by (rewrite length_skipn; lia).
  set (dk4 := put_files dk3 _).
  assert (H4 : forall i, i < d -> open dk4 (nth i paths no_path) = Some (nth i shards [])).
  { intros i Hi. rewrite <- (nth_firstn_in paths _ Hi). apply open_put_combine; [apply NoDup_cut, Hnd | lia | lia]. }
  rewrite (mapM_must (open dk4) (firstn d paths) shards);
    [| rewrite Hlf; intros i Hi; rewrite nth_firstn_in, H4 by lia; symmetry; apply nth_error_nth'; lia | lia].
  cbn [bind]. rewrite (mapM_must (calculateChecksum sha256 dk4) (firstn d paths) (map sha256 shards));
    [| rewrite Hlf; intros i Hi; unfold calculateChecksum; rewrite nth_firstn_in, H4, nth_error_map by lia; cbn;
       rewrite (nth_error_nth' shards []) by lia; auto | rewrite length_map; lia].
  cbn [bind]. rewrite (idx_nth no_path) by lia. cbn [bind]. rewrite H4 by lia. cbn [must bind].
  rewrite E2. cbn [run bind checkErr]. rewrite contents_some. set (dk5 := put_files dk4 _).
  assert (H5 : forall i, i < p -> open dk5 (nth (d + i) paths no_path) = Some (nth i parity [])).
  { intros i Hi. rewrite <- nth_skipn_add. apply open_put_combine; [apply NoDup_cut, Hnd | lia | lia]. }
  rewrite (mapM_must (calculateChecksum sha256 dk5) (skipn d paths) (map sha256 parity));
    [| rewrite Hlk; intros i Hi; unfold calculateChecksum; rewrite nth_skipn_add, H5, nth_error_map by lia; cbn;
       rewrite (nth_error_nth' parity []) by lia; auto | rewrite length_map; lia].
  cbn [bind].
  assert (Hall := proj1 (proj2 Hcode)). apply Forall_app in Hall as [Hall _]. rewrite Forall_forall in Hall.
  assert (Hl1 : length (nth 1 shards []) = l) by (apply Hall, list_elem_of_In, nth_In; lia).
  rewrite Hl1. exists (remove dk5 encFile), (Z.of_nat d, Z.of_nat p), d, p, l, (shards ++ parity).
  rewrite map_app. assert (Henc : ~ In encFile paths).
  { intros (i & _ & [= _ Heq])%in_shard_paths. symmetry in Heq. now apply shard_name_longer in Heq. }
  splits; auto.
  - constructor; auto; try lia; [eauto |]. now rewrite take_app_length' by lia.
  - intros i Hi. rewrite length_map, length_app in Hi. rewrite open_remove.
    assert (Hp : (shardDir, shard_name nm i) = nth i paths no_path) by (symmetry; apply nth_shard_paths; lia).
    rewrite Hp, decide_False by (intros E; apply Henc; rewrite E; apply nth_In; lia).
    rewrite (nth_map_in Some (shards ++ parity) []) by (rewrite length_app; lia). destruct (Nat.lt_ge_cases i d).
    + rewrite app_nth1 by lia. unfold dk5. rewrite open_put_combine_out; [now apply H4 | lia |].
      intros (j & Hj & E)%(In_nth _ _ no_path). rewrite nth_skipn_add in E. rewrite Hlk in Hj.
      apply (proj1 (List.NoDup_nth paths no_path) (proj1 (NoDup_ListNoDup _) Hnd)) in E; lia.
    + rewrite app_nth2 by lia. replace i with (d + (i - d)) at 1 by lia. rewrite H5 by lia. do 2 f_equal. lia.
  - unfold dk5, dk4, dk3. cbn [remove dirs]. now rewrite !put_files_dirs.
  - intros q Hq Hqe. rewrite open_remove, decide_False by auto.
    unfold dk5, dk4, dk3. rewrite open_put_combine_out; [| lia | intros Hin; apply Hq; apply (In_cut d); auto].
    rewrite open_put_combine_out; [| lia | intros Hin; apply Hq; apply (In_cut d); auto].
    rewrite open_put_files_out by (rewrite map_map; cbn; now rewrite map_id).
    rewrite open_put, decide_False by auto. apply Ho1.
Qed.

(** ** [DoDecode] *)

Lemma fuel_ok shards c : In (Some c) shards -> length c < fuel_for shards.
Proof.
  intros Hin. unfold fuel_for. apply Nat.lt_succ_r.
  set (f := fun s : option (list N) => match s with Some f => length f | None => 0 end).
  assert (H : Forall (fun k => k <= list_max (map f shards)) (map f shards)) by (apply list_max_le; auto).
  rewrite Forall_forall in H. apply H, list_elem_of_In, in_map_iff. now exists (Some c).
Qed.

(** Files written where there is something to write *)
Lemma open_write dk names (out : list (option (list N))) : NoDup names -> length out = length names ->
  (forall i, i < length names ->
    open (put_files dk (omap (fun '(name, o) => option_map (pair name) o) (combine names out))) (nth i names no_path) =
    match nth i out None with Some c => Some c | None => open dk (nth i names no_path) end) /\
  (forall q, ~ In q names ->
    open (put_files dk (omap (fun '(name, o) => option_map (pair name) o) (combine names out))) q = open dk q).
Proof.
  revert dk out; induction names as [|n names IH]; intros dk [|o out] Hnd Hl; try discriminate.
  - split; [intros i Hi; cbn in Hi; lia | auto].
  - apply NoDup_cons in Hnd as [Hn Hnd]. injection Hl as Hl.
    assert (E : forall dk', put_files dk (omap (fun '(name, o) => option_map (pair name) o) (combine (n :: names) (o :: out))) = dk' ->
      dk' = put_files (match o with Some c => put_file dk n c | None => dk end)
              (omap (fun '(name, o) => option_map (pair name) o) (combine names out))) by (intros dk' <-; destruct o; reflexivity).
    rewrite (E _ eq_refl). clear E. destruct (IH (match o with Some c => put_file dk n c | None => dk end) out Hnd Hl) as [H1 H2]. split.
    + intros [|i] Hi; cbn [nth].
      * rewrite H2 by now rewrite <- list_elem_of_In. destruct o; [now rewrite open_put, decide_True | auto].
      * rewrite H1 by (cbn in Hi; lia). destruct (nth i out None); [auto |].
        destruct o; [| auto]. rewrite open_put, decide_False; [auto |]. intros ->. apply Hn, list_elem_of_In, nth_In. cbn in Hi. lia.
    + intros q Hq. cbn in Hq. rewrite H2 by tauto. destruct o; [| auto]. rewrite open_put, decide_False; [auto | tauto].
Qed.

Section Decode.
Context (y : list N) (d p l : nat) (all : list (list N)) (enc : rsStream) (fname : string).
Context (Henc : encoding y d p l all) (Hnew : NewStream cpu (Z.of_nat d) (Z.of_nat p) [] = Ret enc).

Local Lemma enc_ok : rs_ok (st_r enc) /\ dataShards (st_r enc) = d /\ parityShards (st_r enc) = p /\
  totalShards (st_r enc) = d + p /\ 0 < Z.to_nat (streamBS (st_o enc)) /\ is_code (st_r enc) l all.
Proof.
  destruct Henc as [(s & Hs & Hcode) Hd Hp Ht _ _ _].
  destruct (stream_ok cpu d p [] enc (supported_default d p Hd Hp Ht) Hnew) as (H1 & H2 & H3 & H4 & H5).
  rewrite Hnew in Hs. injection Hs as ->. auto 6.
Qed.

Local Lemma all_files : length all = d + p /\ Forall (fun b => length b = l /\ bytes_ok b) all /\ 0 < l.
Proof. destruct (encoding_all _ _ _ _ _ Henc). split; [auto |]. split; [auto |]. apply (enc_size _ _ _ _ _ Henc). Qed.

Lemma kept_in kept : length kept = length all -> 0 < length (List.filter id kept) ->
  exists c, In (Some c) (kept_readers kept all) /\ length c = l.
Proof.
  destruct all_files as (Hla & Hf & Hl). intros Hk Hc. rewrite Forall_forall in Hf.
  destruct (List.filter id kept) as [|b bs] eqn:E; [cbn in Hc; lia |].
  assert (Hin : In true kept) by (apply (filter_In id); rewrite E; left; assert (Hb : In b (List.filter id kept)) by (rewrite E; now left);
    apply filter_In in Hb as [_ Hb]; now destruct b).
  apply (In_nth _ _ true) in Hin as (i & Hi & E1). exists (nth i all []). split.
  - replace (Some (nth i all [])) with (nth i (kept_readers kept all) None) by (rewrite nth_kept, E1 by lia; auto).
    apply nth_In. unfold kept_readers. rewrite length_map2. lia.
  - apply Hf, list_elem_of_In, nth_In. lia.
Qed.

Lemma kept_full kept c : In (Some c) (kept_readers kept all) -> c <> [].
Proof.
  destruct all_files as (Hla & Hf & Hl). intros Hin ->. rewrite Forall_forall in Hf.
  assert (H : forall bs kept, (forall b, In b bs -> length b = l) -> ~ In (Some []) (kept_readers kept bs)).
  { clear - Hl. unfold kept_readers. intros bs. induction bs as [|b bs IH]; intros [|k kept] Hb Hin; cbn in Hin; try tauto.
    destruct Hin as [Hin|Hin].
    - destruct k; [| discriminate]. injection Hin as ->. specialize (Hb [] (or_introl eq_refl)). cbn in Hb. lia.
    - apply (IH kept); [intros x Hx; apply Hb; now right | auto]. }
  apply (H all kept); [| auto]. intros b Hb. now apply Hf, list_elem_of_In.
Qed.

Lemma out_fill kept : length kept = length all ->
  map (fun s : option (list N) => match s with None => Some [] | Some _ => None end) (kept_readers kept all) = fill_writers kept.
Proof.
  unfold kept_readers, fill_writers. generalize all. clear. intros all. revert kept.
  induction all as [|b bs IH]; intros [|k kept] Hl; try discriminate; cbn; [auto |].
  rewrite IH by now injection Hl. now destruct k.
Qed.

(** With all files there the shards verify. *)
Lemma verify_all s' fuel pool : rs_ok (st_r s') -> same_code (st_r enc) (st_r s') -> st_o s' = st_o enc ->
  pooled_ok s' pool -> l < fuel ->
  exists rs bufs, Stream.Verify s' sched fuel pool (map Some all) = Ret (rs, bufs, true, None) /\ back s' bufs.
Proof.
  destruct enc_ok as (Hok & Hd & Hp & Ht & Hbs & Hcode). destruct all_files as (Hla & Hf & Hl).
  intros Hok' Hsame Ho Hpool Hfuel. assert (Hcode' := is_code_same _ _ _ _ Hsame Hcode).
  destruct (Verify_stream (R := list N) s' sched Hok' Hsched fuel pool all all l) as (rs & bufs & b & E & Hb & Hback); auto.
  - now rewrite Ho.
  - symmetry. symmetry. apply Hcode'.
  - now apply have_files.
  - exists (map Some rs), bufs. rewrite E. destruct b; [auto |]. exfalso. assert (false = true) by now apply Hb. discriminate.
Qed.

Lemma repair_spec dk kept bufs : length kept = d + p -> d <= length (List.filter id kept) ->
  stored dk fname (kept_readers kept all) -> back enc bufs ->
  exists dk', repair sched configDir reuse enc bufs dk d p fname = Ret (inl dk') /\ dirs dk' = dirs dk /\
    stored dk' fname (map Some all) /\ forall q, ~ In q (shard_paths fname (d + p)) -> open dk' q = open dk q.
Proof.
  destruct enc_ok as (Hok & Hd & Hp & Ht & Hbs & Hcode). destruct all_files as (Hla & Hf & Hl).
  intros Hlk Hc Hst Hback. assert (Hd0 := enc_data _ _ _ _ _ Henc).
  assert (Hlr : length (kept_readers kept all) = d + p) by (unfold kept_readers; rewrite length_map2; lia).
  unfold repair. rewrite (surjective_pairing (openInput dk d p fname)).
  rewrite (openInput_stored dk d p fname (kept_readers kept all)) by (auto; apply kept_full).
  rewrite out_fill by lia. fold (shard_paths fname (d + p)). set (names := shard_paths fname (d + p)).
  assert (Hnd : NoDup names) by apply shard_paths_NoDup. assert (Hln : length names = d + p) by apply length_shard_paths.
  destruct (kept_in kept ltac:(lia) ltac:(lia)) as (c & Hin & Hlc).
  assert (Hfuel := fuel_ok _ _ Hin). rewrite Hlc in Hfuel.
  assert (Hpool : pooled_ok enc (pooled reuse 0 bufs)) by (unfold pooled; destruct (reuse 0); [exact Hback | exact I]).
  destruct (reconstruct_files cpu d p [] enc sched (supported_default d p Hd0 (enc_parity _ _ _ _ _ Henc) (enc_total _ _ _ _ _ Henc)) Hnew Hsched
    _ _ kept l all Hpool Hlk Hc Hcode (conj Hl Hfuel)) as (r' & valid' & bufs' & -> & Hr' & Hsame & Hback').
  cbn [run bind]. set (dk1 := put_files dk _). set (dk2 := put_files dk1 _).
  assert (Hlf : length (fill_writers kept) = length names) by (unfold fill_writers; rewrite length_map; lia).
  assert (Hlm : length (missing_files kept all) = length names) by (unfold missing_files; rewrite length_map2; lia).
  destruct (open_write dk names (fill_writers kept) Hnd Hlf) as [HA HB]. fold dk1 in HA, HB.
  destruct (open_write dk1 names (missing_files kept all) Hnd Hlm) as [HC HD]. fold dk2 in HC, HD.
  assert (Hst2 : stored dk2 fname (map Some all)).
  { intros i Hi. rewrite length_map in Hi. rewrite <- (nth_shard_paths fname (d + p) i) by lia. fold names.
    rewrite HC, (nth_map_in Some all []) by lia. unfold missing_files. rewrite (nth_map2 _ _ _ true []) by lia.
    destruct (nth i kept true) eqn:E; [| auto]. rewrite HA by lia. unfold fill_writers. rewrite (nth_map_in _ _ true), E by lia.
    unfold names. rewrite nth_shard_paths, Hst, nth_kept, E by lia. auto. }
  rewrite (openInput_size dk2 d p fname all l) by (solve [auto | lia | eapply Forall_impl; [exact Hf |]; intros ? [? _]; auto]).
  assert (Hin' : In (Some (nth 0 all [])) (map Some all)) by (apply in_map, nth_In; lia).
  assert (Hfuel' := fuel_ok _ _ Hin'). rewrite Forall_forall in Hf.
  assert (Hl0 : length (nth 0 all []) = l) by (apply Hf, list_elem_of_In, nth_In; lia). rewrite Hl0 in Hfuel'.
  destruct (verify_all {| st_r := r'; st_o := st_o enc |} (fuel_for (map Some all)) (pooled reuse 1 bufs')) as (rs & bf & -> & _); auto.
  { unfold pooled. destruct (reuse 1); [| exact I]. destruct Hsame as [tree ->]. exact Hback'. }
  cbn [run bind]. exists dk2. splits; auto.
  - unfold dk2, dk1. now rewrite !put_files_dirs.
  - intros q Hq. now rewrite HD, HB.
Qed.

Lemma write_output_spec dk base outdir password x : stored dk fname (map Some all) -> fname <> base ->
  decrypt password y = Some x -> y <> [] -> ~ In (outdir, base) (shard_paths fname (d + p)) ->
  exists dk', write_output configDir decrypt enc dk d p fname base outdir (Z.of_nat (d * l - length y)) password = Ret (dk', None) /\
    open dk' (outdir, base) = Some x /\ stored dk' fname (map Some all).
Proof.
  destruct enc_ok as (Hok & Hd & Hp & Ht & Hbs & Hcode). destruct all_files as (Hla & Hf & Hl).
  intros Hst Hne Hdec Hy Hout. assert (Hd0 := enc_data _ _ _ _ _ Henc). unfold write_output.
  assert (Hkeep : forall dk q c, q.2 = fname \/ q = (outdir, base) -> stored dk fname (map Some all) -> stored (put_file dk q c) fname (map Some all)).
  { intros dk0 q c Hq H0 i Hi. rewrite open_put, decide_False; [now apply H0 |]. rewrite length_map in Hi. intros ->.
    destruct Hq as [Hq|Hq]; [now apply shard_name_longer in Hq |]. apply Hout. rewrite <- Hq. apply in_shard_paths. exists i. split; [lia | auto]. }
  rewrite (openInput_size (put_file dk (outdir, fname) []) d p fname all l)
    by (solve [auto | lia | eapply Forall_impl; [exact Hf |]; intros ? [? _]; auto]).
  destruct (Join_stream (R := list N) (W := list N) enc [] (firstn d all) (map Some (skipn d all)) (Z.of_nat d * Z.of_nat l)) as (f & E & Hw).
  { rewrite length_firstn. lia. }
  rewrite <- map_app, take_drop in E. rewrite E. assert (Er : map rest (firstn d all) = firstn d all) by apply map_id.
  rewrite Er in *. rewrite (enc_concat _ _ _ _ _ Henc), length_app, repeat_length in *.
  assert (Hcov := enc_cover _ _ _ _ _ Henc).
  destruct (Z.leb_spec 0 (Z.of_nat d * Z.of_nat l)); [| lia].
  destruct (Z.leb_spec (Z.of_nat d * Z.of_nat l) (Z.of_nat (length y + (d * l - length y)))); [| lia].
  cbn [andb run bind]. specialize (Hw ltac:(lia)). change (written f) with f in Hw. change (written []) with (@nil N) in Hw.
  rewrite firstn_all2 in Hw by (rewrite length_app, repeat_length; lia). cbn [app] in Hw. subst f. rewrite Nat2Z.id.
  assert (Htrim : (if (Z.of_nat (d * l - length y) >? 0)%Z
      then trimPadding (y ++ repeat 0%N (d * l - length y)) (d * l - length y) else y ++ repeat 0%N (d * l - length y)) = y).
  { destruct (Z.gtb_spec (Z.of_nat (d * l - length y)) 0); [now apply trimPadding_spec |].
    replace (d * l - length y) with 0 by lia. apply app_nil_r. }
  rewrite Htrim, Hdec. eexists. split; [reflexivity |]. split.
  - rewrite open_remove, decide_False by congruence. now rewrite open_put, decide_True.
  - assert (H3 : stored (put_file (put_file (put_file dk (outdir, fname) []) (outdir, fname) y) (outdir, base) x) fname (map Some all))
      by (apply Hkeep; auto; apply Hkeep; auto).
    intros i Hi. rewrite open_remove, decide_False; [now apply H3 |].
    intros [= _ Heq]. symmetry in Heq. now apply shard_name_longer in Heq.
Qed.
End Decode.

(** Any [d] of the shards on the disk and the directory of the output there:
    [DoDecode] writes the file. *)
Lemma DoDecode_spec dk base outdir conf y d p l all kept password x :
  outdir ∈ dirs dk -> conf_names conf (base +:+ fileCryptExtension) -> size conf <= 256 ->
  encoding y d p l all -> y <> [] -> decrypt password y = Some x ->
  length kept = d + p -> d <= length (List.filter id kept) ->
  stored dk (base +:+ fileCryptExtension) (kept_readers kept all) ->
  exists dk', DoDecode cpu sched configDir sha256 decrypt reuse dk base outdir (Z.of_nat (d * l - length y)) conf
      (Z.of_nat d) (Z.of_nat p) password = Ret (dk', None) /\
    open dk' (outdir, base) = Some x /\ stored dk' (base +:+ fileCryptExtension) (map Some all).
Proof.
  intros Hout Hconf Hsize Henc Hy Hdec Hlk Hc Hst. unfold DoDecode. rewrite decide_True by auto.
  set (fname := base +:+ fileCryptExtension) in *.
  unfold compareandDeleteChecksum. rewrite compare_loop_noop; [| apply conf_names_list; lia | auto].
  destruct (NewStream_ok cpu d p []) as (enc & Hnew & _); [apply supported_default; apply Henc |]. rewrite Hnew, !Nat2Z.id.
  destruct (enc_ok y d p l all enc Henc Hnew) as (Hok & Hd & Hp & Ht & Hbs & Hcode).
  destruct (all_files y d p l all Henc) as (Hla & Hf & Hl). assert (Hd0 := enc_data _ _ _ _ _ Henc).
  assert (Hlr : length (kept_readers kept all) = d + p) by (unfold kept_readers; rewrite length_map2; lia).
  rewrite (surjective_pairing (openInput dk d p fname)).
  rewrite (openInput_stored dk d p fname (kept_readers kept all)) by (auto; apply (kept_full y d p l all Henc)).
  destruct (kept_in y d p l all Henc kept ltac:(lia) ltac:(lia)) as (c & Hin & Hlc).
  assert (Hfuel := fuel_ok _ _ Hin). rewrite Hlc in Hfuel.
  assert (Hbase : fname <> base).
  { intros E. apply (f_equal String.length) in E. unfold fname, fileCryptExtension in E. rewrite length_append in E. cbn in E. lia. }
  assert (Hnot : ~ In (outdir, base) (shard_paths fname (d + p))).
  { intros (i & _ & [= _ E])%in_shard_paths. apply (f_equal String.length) in E.
    unfold shard_name, fname, fileCryptExtension in E. rewrite !length_append in E. cbn in E. lia. }
  destruct (forallb id kept) eqn:Hall.
  - rewrite (kept_readers_all kept all) in * by (lia || auto).
    destruct (verify_all y d p l all enc Henc Hnew enc (fuel_for (map Some all)) None) as (rs & bufs & -> & _); auto.
    { now exists (rs_tree (st_r enc)); destruct (st_r enc). } { exact I. }
    cbn [run bind]. apply (write_output_spec y d p l all enc fname Henc Hnew dk base outdir password x); auto.
  - destruct (Verify_missing (R := list N) enc sched Hsched (fuel_for (kept_readers kept all)) None (kept_readers kept all) all l)
      as (valid' & bufs & -> & Hback); auto; try lia.
    { exact I. } { apply kept_have; [lia | auto]. }
    { apply existsb_exists. exists (Some c). auto. }
    { rewrite forallb_kept by lia. exact Hall. }
    cbn [run bind].
    destruct (repair_spec y d p l all enc fname Henc Hnew dk kept bufs Hlk Hc Hst Hback) as (dk1 & -> & _ & Hst1 & _).
    cbn [bind]. apply (write_output_spec y d p l all enc fname Henc Hnew dk1 base outdir password x); auto.
Qed.
End FileCodec.
