(* ===== verification/FileTheorems.v ===== *)
(** * The properties of [DoEncode] and [DoDecode]

    The round trip, the numbers of shards, the padding, and what is done with
    shards that are not those that were stored. *)
From stdpp Require Import base gmap strings list pretty.
From S2P Require Import Prelude Galois RSTypes Options IO Codec CodecCorrect Reconstruct NewEncoder CodecTheorems.
From S2P Require Import Stream StreamCorrect StreamRecover StreamTheorems FileCodec FileCodecCorrect.
Import ListNotations.
Local Open Scope go_scope.

Section Properties.
Context (cpu : machine) (sched : schedule) (configDir : string) (sha256 : list N -> string).
Context (encrypt : nat -> string -> list N -> list N) (decrypt : string -> list N -> option (list N)).
Context (reuse : nat -> bool).
Context (Hcpu : machine_ok cpu) (Hsched : schedule_ok sched).
Local Abbreviation shardDir := (GetShardDir configDir).

(** ** Losing shards *)

(** The names of the shards that are lost, among those of [paths] *)
Definition lost (paths : list path) (kept : list bool) : list string :=
  omap (fun '(q, k) => if k : bool then None else Some (snd q)) (combine paths kept).

(** The checksums as the configuration keeps them *)
Definition checksum_map (e : encoded) : gmap string string :=
  list_to_map (combine (map snd (e_paths e)) (e_checksums e)).

Lemma in_lost fname n kept i : length kept = n -> i < n ->
  shard_name fname i ∈ lost (shard_paths configDir fname n) kept <-> nth i kept true = false.
Proof.
  intros Hk Hi. unfold lost. rewrite list_elem_of_omap. split.
  - intros ([q k] & Hin & Hq). destruct k; [discriminate |]. injection Hq as Hq.
    apply list_elem_of_In, (In_nth _ _ (no_path, true)) in Hin as (j & Hj & E). rewrite length_combine, length_shard_paths in Hj.
    rewrite combine_nth, nth_shard_paths in E by (rewrite ?length_shard_paths; lia). injection E as <- E. cbn in Hq.
    apply (inj (shard_name fname)) in Hq. now subst j.
  - intros Hf. exists ((shardDir, shard_name fname i), false). split; [| auto]. apply list_elem_of_In.
    rewrite <- (nth_shard_paths configDir fname n i Hi), <- Hf, <- combine_nth by (rewrite length_shard_paths; lia).
    apply nth_In. rewrite length_combine, length_shard_paths. lia.
Qed.

Lemma stored_lost dk fname all kept : stored configDir dk fname (map Some all) -> length kept = length all ->
  stored configDir (DeleteShardWithFileNames configDir dk (lost (shard_paths configDir fname (length all)) kept)) fname
    (kept_readers kept all).
Proof.
  intros Hst Hk i Hi. unfold kept_readers in Hi. rewrite length_map2 in Hi. rewrite nth_kept by lia. rewrite open_delete. cbn [fst snd].
  assert (Hlost := in_lost fname (length all) kept i Hk ltac:(lia)). destruct (nth i kept true).
  - rewrite decide_False; [| intros [_ Hin]; now apply Hlost in Hin]. rewrite Hst by (rewrite length_map; lia).
    rewrite (nth_map_in _ _ []) by lia. auto.
  - rewrite decide_True; [auto |]. split; [auto | now apply Hlost].
Qed.

Lemma checksum_names fname n cs l pad d p : length cs = n -> n <= 256 ->
  let e := {| e_paths := shard_paths configDir fname n; e_checksums := cs; e_sizePerShard := l; e_padding := pad;
              e_dataShards := d; e_parShards := p |} in
  conf_names (checksum_map e) fname /\ size (checksum_map e) <= 256.
Proof.
  intros Hl Hn e. assert (E : checksum_map e = list_to_map (map (fun i => (shard_name fname i, nth i cs EmptyString)) (seq 0 n))).
  { unfold checksum_map, e. cbn [e_paths e_checksums]. f_equal. apply (list_ext (EmptyString, EmptyString)).
    - rewrite length_combine, !length_map, length_shard_paths, length_seq. lia.
    - intros i Hi. rewrite length_combine, length_map, length_shard_paths in Hi.
      rewrite combine_nth by (rewrite length_map, length_shard_paths; lia).
      rewrite (nth_map_in _ _ no_path), nth_shard_paths, nth_seq_map by (rewrite ?length_shard_paths; lia). auto. }
  rewrite E. split; [now apply conf_names_list |]. rewrite map_size_list_to_map.
  - rewrite length_map, length_seq. lia.
  - rewrite <- list_fmap_compose. apply (NoDup_fmap_2 (shard_name fname)), NoDup_seq.
Qed.
(** ** Round trip *)

(** C2: a file that [DoEncode] accepts is given back by [DoDecode], byte for
    byte, after any parity-many of its shards have been lost, and then every
    lost shard is on the disk again. *)
Theorem DoEncode_DoDecode flags dk rnd dir base password x :
  (forall rnd pw x, bytes_ok x -> bytes_ok (encrypt rnd pw x) /\ encrypt rnd pw x <> []) ->
  (forall rnd pw x, decrypt pw (encrypt rnd pw x) = Some x) ->
  open dk (dir, base) = Some x -> bytes_ok x -> flags_ok flags ->
  exists dk' flags' e all,
    DoEncode cpu sched configDir sha256 encrypt flags dk rnd (dir, base) password = Ret (dk', flags', e) /\ flags_ok flags' /\
    stored configDir dk' (base +:+ fileCryptExtension) (map Some all) /\
    forall kept outdir, length kept = length all -> (e_dataShards e <= Z.of_nat (length (List.filter id kept)))%Z ->
      exists dk3,
        DoDecode cpu sched configDir sha256 decrypt reuse
          (mkdir (DeleteShardWithFileNames configDir dk' (lost (e_paths e) kept)) outdir) base outdir (e_padding e)
          (checksum_map e) (e_dataShards e) (e_parShards e) password = Ret (dk3, None) /\
        open dk3 (outdir, base) = Some x /\ stored configDir dk3 (base +:+ fileCryptExtension) (map Some all).
Proof.
  intros Hcipher Hdecrypt Hx Hb Hf.
  destruct (DoEncode_spec cpu sched configDir sha256 encrypt decrypt reuse Hcpu Hsched Hcipher Hdecrypt flags dk rnd (dir, base) password x Hx Hb Hf)
    as (dk' & flags' & d & p & l & all & E & _ & Hf' & Henc & Hst & _). cbn [fst snd] in *.
  destruct (encoding_all cpu Hcpu _ _ _ _ _ Henc) as [Hla _].
  eexists dk', flags', _, all. split; [exact E |]. split; [auto |]. split; [auto |].
  cbn [e_paths e_padding e_dataShards e_parShards]. intros kept outdir Hk Hc.
  destruct (checksum_names (base +:+ fileCryptExtension) (d + p) (map sha256 all) (Z.of_nat l)
    (Z.of_nat (d * l - length (encrypt rnd password x))) (Z.of_nat d) (Z.of_nat p)) as [Hn Hs];
    [now rewrite length_map | apply Henc |].
  eapply (DoDecode_spec cpu sched configDir sha256 decrypt reuse Hcpu Hsched) with (kept := kept); eauto; try lia.
  - cbn. set_solver.
  - now apply (Hcipher rnd password x).
  - rewrite <- Hla. exact (stored_lost dk' _ all kept Hst Hk).
Qed.

(** ** Shards that are not what was stored *)

Lemma put_nothing dk (names : list path) n :
  put_files dk (omap (fun '(name, o) => option_map (pair name) o) (combine names (repeat (@None (list N)) n))) = dk.
Proof.
  replace (omap _ _) with (@nil (path * list N)); [auto |]. symmetry.
  revert n; induction names as [|q names IH]; intros [|n]; auto. exact (IH n).
Qed.

(** The comparison of checksums looks shards up under a name no shard has
    (the format string of [fmt.Sprint] is a plain operand), so it finds no
    mismatch and deletes nothing, whatever the digests are. *)
Theorem checksums_never_compared dk server conf fname :
  conf_names server fname -> conf_names conf fname -> compareandDeleteChecksum configDir dk server conf fname = dk.
Proof. intros Hs Hc. now apply compare_loop_noop. Qed.

(** When all the shards are there but do not form a codeword, [DoDecode]
    reconstructs nothing, writes no file and still returns no error. *)
Theorem DoDecode_corrupted dk base outdir padding conf d p l all enc password :
  NewStream cpu (Z.of_nat d) (Z.of_nat p) [] = Ret enc -> 0 < d -> 0 < p -> d + p <= 256 ->
  outdir ∈ dirs dk -> conf_names conf (base +:+ fileCryptExtension) -> size conf <= 256 -> 0 < l ->
  length all = d + p -> Forall (fun b => length b = l /\ bytes_ok b) all -> ~ is_code (st_r enc) l all ->
  stored configDir dk (base +:+ fileCryptExtension) (map Some all) ->
  DoDecode cpu sched configDir sha256 decrypt reuse dk base outdir padding conf (Z.of_nat d) (Z.of_nat p) password =
    Ret (dk, None).
Proof.
  intros Hnew Hd0 Hp0 Hdp Hout Hconf Hsize Hl Hla Hf Hbad Hst. set (fname := base +:+ fileCryptExtension) in *.
  destruct (stream_ok cpu d p [] enc (supported_default cpu Hcpu d p Hd0 Hp0 Hdp) Hnew) as (Hok & Hd & Hp & Ht & Hbs).
  assert (Hopen : openInput configDir dk d p fname = (map Some all, l)).
  { apply openInput_size; auto; [| lia]. eapply Forall_impl; [exact Hf |]. now intros b [? _]. }
  assert (Hin : In (Some (nth 0 all [])) (map Some all)) by (apply in_map, nth_In; lia).
  assert (Hfuel := fuel_ok _ _ Hin). assert (Hl0 : length (nth 0 all []) = l).
  { rewrite Forall_forall in Hf. apply Hf, list_elem_of_In, nth_In. lia. }
  rewrite Hl0 in Hfuel. assert (Hhave := have_files l all Hf).
  unfold DoDecode. rewrite decide_True by auto. fold fname. unfold compareandDeleteChecksum.
  rewrite compare_loop_noop by (auto; apply conf_names_list; lia). rewrite Hnew, !Nat2Z.id, Hopen.
  destruct (Verify_stream (R := list N) enc sched Hok Hsched (fuel_for (map Some all)) None all all l)
    as (rs & bufs & b & -> & Hb & Hback); auto; [exact I | lia |].
  destruct b; [now destruct Hbad; apply Hb |]. cbn [run bind]. unfold repair. rewrite Hopen.
  rewrite map_map, map_const, Hla, <- Ht.
  rewrite put_nothing.
  destruct (Reconstruct_complete (R := list N) (W := list N) enc sched Hok Hsched (fuel_for (map Some all)) (pooled reuse 0 bufs) all all l)
    as (valid' & bufs' & -> & Hback'); auto; [unfold pooled; destruct (reuse 0); [exact Hback | exact I] | lia |].
  cbn [run bind]. rewrite put_nothing, Hopen.
  destruct enc as [r o]. cbn [st_r st_o] in *.
  destruct (Verify_stream (R := list N) {| st_r := r; st_o := o |} sched Hok Hsched (fuel_for (map Some all)) (pooled reuse 1 bufs') all all l)
    as (rs' & bf & b & -> & Hb' & _); auto; [unfold pooled; destruct (reuse 1); [exact Hback' | exact I] | cbn; lia |].
  destruct b; [now destruct Hbad; apply Hb' |]. reflexivity.
Qed.

(** ** Arguments of [DoDecode] *)

(** When the output directory is not there [DoDecode] makes it and returns
    without an error, before any shard is read. *)
Theorem DoDecode_missing_dir dk base outdir padding conf d p password : outdir ∉ dirs dk ->
  DoDecode cpu sched configDir sha256 decrypt reuse dk base outdir padding conf d p password = Ret (mkdir dk outdir, None).
Proof. intros H. unfold DoDecode. now rewrite decide_False by auto. Qed.
End Properties.

(** ** The number of shards *)

(** The loop that shrinks the number of data shards ends, and the numbers it
    leaves fit the encoder: at least five data shards and one parity shard, at
    most 255 together; a shard of a large file keeps ten megabytes unless there
    are ten data shards at most. *)
Theorem calculateShardsNum_bounds flags fileSize : (0 <= fileSize)%Z -> flags_ok flags ->
  exists d p, calculateShardsNum flags fileSize = Ret (d, p) /\ flags_ok (d, p) /\ (5 <= d)%Z /\ (1 <= p)%Z /\ (d + p <= 255)%Z /\
    ((10 * 1024 * 1024 <= fileSize)%Z -> (10 * 1024 * 1024 <= Z.quot fileSize d)%Z \/ (d <= 10)%Z).
Proof.
  intros Hs Hf. destruct (calculateShardsNum_spec flags fileSize Hs Hf) as (d & p & E & Hf' & Hrest).
  exists d, p. split; [auto |]. split; [auto |]. split; [| auto]. destruct Hf'. cbn in *. lia.
Qed.

(** The flags keep the numbers of the last file: once a small file has been
    encoded every later file is split into five data shards, where the initial
    flags give 170 for a file of 1700 megabytes or more. *)
Theorem calculateShardsNum_history fileSize : (0 <= fileSize)%Z ->
  (fileSize < 10 * 1024 * 1024 -> forall flags, calculateShardsNum flags fileSize = Ret (5, 3))%Z /\
  (10 * 1024 * 1024 <= fileSize -> calculateShardsNum (5, 3) fileSize = Ret (5, 2) /\ calculateShardsNum (5, 2) fileSize = Ret (5, 2))%Z /\
  (170 * (10 * 1024 * 1024) <= fileSize -> calculateShardsNum (170, 85) fileSize = Ret (170, 85))%Z.
Proof.
  intros Hs. unfold calculateShardsNum. split; [| split].
  - intros Hlt [d p]. destruct (Z.ltb_spec fileSize (10 * 1024 * 1024)); [auto | lia].
  - intros Hge. destruct (Z.ltb_spec fileSize (10 * 1024 * 1024)); [lia |].
    cbn [shrink]. rewrite !andb_false_r. auto.
  - intros Hge. destruct (Z.ltb_spec fileSize (10 * 1024 * 1024)); [lia |].
    assert (10 * 1024 * 1024 <= Z.quot fileSize 170)%Z by (apply Z.quot_le_lower_bound; lia).
    cbn [shrink]. destruct (Z.ltb_spec (Z.quot fileSize 170) (10 * 1024 * 1024)); [lia | auto].
Qed.

(** [trimPadding] cuts the padding when the last bytes are zero, and keeps
    only [trimSize] bytes of the file, not all but [trimSize], when one is not. *)
Theorem trimPadding_cuts content tail : content <> [] ->
  trimPadding (content ++ repeat 0%N (length tail)) (length tail) = content /\
  (null_bytes tail <> length tail -> trimPadding (content ++ tail) (length tail) = firstn (length tail) (content ++ tail)).
Proof.
  intros Hc. split; [now apply trimPadding_spec |]. intros Hn. apply trimPadding_other.
  - rewrite length_app. destruct content; cbn; [congruence | lia].
  - rewrite length_app, Nat.add_sub, skipn_app, skipn_all, Nat.sub_diag. exact Hn.
Qed.

(** ** Witnesses *)

Definition encrypt0 (rnd : nat) (pw : string) (x : list N) : list N := 1%N :: x.
Definition decrypt0 (pw : string) (y : list N) : option (list N) := Some (tail y).
Definition sha0 (x : list N) : string := "digest".
Definition disk0 : disk := Disk {[ ("in", "a") := [1; 2; 3; 4; 5]%N ]} ∅.
Definition cwd : string := "conf".

Definition dstream1 : rsStream :=
  Eval vm_compute in match NewStream cpu0 2 2 [] with Ret s => s | _ => stream0 end.

Lemma new_dstream1 : NewStream cpu0 (Z.of_nat 2) (Z.of_nat 2) [] = Ret dstream1.
Proof. vm_compute. reflexivity. Qed.

Lemma cpu0_ok : machine_ok cpu0.
Proof. split; cbn; lia. Qed.

(** Four shards that are no codeword *)
Definition broken : list (list N) := [[1]; [2]; [3]; [4]]%N.

Definition disk1 : disk :=
  put_files (Disk ∅ {[ "out"%string ]}) (combine (shard_paths cwd "a.fcef" 4) broken).

Definition reuse0 (k : nat) : bool := true.

Lemma DoEncode_DoDecode_witness : exists dk' flags' e all,
  DoEncode cpu0 sched0 cwd sha0 encrypt0 (170, 85)%Z disk0 7 ("in", "a") "pw" = Ret (dk', flags', e) /\ flags_ok flags' /\
  stored cwd dk' ("a" +:+ fileCryptExtension) (map Some all) /\
  forall kept outdir, length kept = length all -> (e_dataShards e <= Z.of_nat (length (List.filter id kept)))%Z ->
    exists dk3,
      DoDecode cpu0 sched0 cwd sha0 decrypt0 reuse0
        (mkdir (DeleteShardWithFileNames cwd dk' (lost (e_paths e) kept)) outdir) "a" outdir (e_padding e)
        (checksum_map e) (e_dataShards e) (e_parShards e) "pw" = Ret (dk3, None) /\
      open dk3 (outdir, "a"%string) = Some [1; 2; 3; 4; 5]%N /\ stored cwd dk3 ("a" +:+ fileCryptExtension) (map Some all).
Proof.
  apply (DoEncode_DoDecode cpu0 sched0 cwd sha0 encrypt0 decrypt0 reuse0 cpu0_ok sched0_ok (170, 85)%Z disk0 7 "in" "a" "pw").
  - intros rnd pw x Hx. split; [constructor; [reflexivity | exact Hx] | discriminate].
  - reflexivity.
  - reflexivity.
  - repeat constructor.
  - split; [reflexivity | cbn; lia].
Defined.

Lemma checksums_never_compared_witness :
  compareandDeleteChecksum cwd disk1 {[ "a.fcef.0"%string := "right"%string ]} {[ "a.fcef.0"%string := "wrong"%string ]} "a.fcef" = disk1.
Proof.
  apply checksums_never_compared; intros k [v [<- _]%lookup_singleton_Some]; exists 0; (split; [lia | reflexivity]).
Defined.

Lemma DoDecode_corrupted_witness :
  DoDecode cpu0 sched0 cwd sha0 decrypt0 reuse0 disk1 "a" "out" 1 ∅ (Z.of_nat 2) (Z.of_nat 2) "pw" = Ret (disk1, None).
Proof.
  apply (DoDecode_corrupted cpu0 sched0 cwd sha0 decrypt0 reuse0 cpu0_ok sched0_ok disk1 "a" "out" 1 ∅ 2 2 1 broken dstream1 "pw");
    try (lia || reflexivity || exact new_dstream1).
  - intros k [v Hv]. rewrite lookup_empty in Hv. discriminate.
  - rewrite map_size_empty. lia.
  - repeat (constructor; [split; [reflexivity | repeat constructor] |]). constructor.
  - intros (_ & _ & H). specialize (H 2 0 ltac:(cbn; lia) ltac:(lia)). vm_compute in H. discriminate.
  - intros i Hi. change ("a" +:+ fileCryptExtension) with "a.fcef". unfold disk1. rewrite <- (nth_shard_paths cwd "a.fcef" 4 i) by exact Hi.
    rewrite open_put_combine by (solve [apply shard_paths_NoDup | reflexivity | exact Hi]).
    cbn in Hi. destruct i as [|[|[|[|i]]]]; solve [reflexivity | lia].
Defined.

Lemma DoDecode_missing_dir_witness :
  DoDecode cpu0 sched0 cwd sha0 decrypt0 reuse0 disk1 "a" "other" 1 ∅ 2 2 "pw" = Ret (mkdir disk1 "other", None).
Proof. apply DoDecode_missing_dir. unfold disk1. rewrite put_files_dirs. cbn [dirs]. set_solver. Defined.

Lemma calculateShardsNum_bounds_witness : exists d p, calculateShardsNum (170, 85)%Z 500000000 = Ret (d, p) /\ flags_ok (d, p) /\
  (5 <= d)%Z /\ (1 <= p)%Z /\ (d + p <= 255)%Z /\
  ((10 * 1024 * 1024 <= 500000000)%Z -> (10 * 1024 * 1024 <= Z.quot 500000000 d)%Z \/ (d <= 10)%Z).
Proof. apply calculateShardsNum_bounds; [lia | split; [reflexivity | cbn; lia]]. Defined.

Lemma calculateShardsNum_history_witness : calculateShardsNum (170, 85)%Z 1000 = Ret (5, 3)%Z /\
  calculateShardsNum (5, 3)%Z 2000000000 = Ret (5, 2)%Z /\ calculateShardsNum (170, 85)%Z 2000000000 = Ret (170, 85)%Z.
Proof.
  split; [| split].
  - apply (calculateShardsNum_history 1000); lia.
  - apply (calculateShardsNum_history 2000000000); lia.
  - apply (calculateShardsNum_history 2000000000); lia.
Defined.

Lemma trimPadding_cuts_witness : trimPadding [7; 8; 9; 0; 0]%N 2 = [7; 8; 9]%N /\ trimPadding [7; 8; 9; 0; 5]%N 2 = [7; 8]%N.
Proof.
  split; [apply (trimPadding_cuts [7; 8; 9]%N [0; 0]%N); discriminate |].
  apply (trimPadding_cuts [7; 8; 9]%N [0; 5]%N); discriminate.
Defined.
