(* ===== verification/Command.v ===== *)
(** * Running a command (src/cmd/cmd.go and src/fs/accounting/stats.go)

    [RunWithSustainOS] with the global counters of errors.  An error is what
    package [fserrors] says of it; the sleeping, the logging and the clearing of
    caches are left out.  [Err (Exit n)] is [os.Exit(n)]. *)
From Stdlib Require Import List Arith ZArith Lia Bool.
From S2P Require Import Prelude RSTypes Codec FileCodec.
Import ListNotations.
Local Open Scope Z_scope.
Local Open Scope go_scope.

(** ** Errors and counters *)

Record goError : Type := {
  is_DirNotFound : bool;
  is_ObjectNotFound : bool;
  is_MaxTransferLimitReached : bool;
  is_MaxDurationReached : bool;
  is_Usage : bool;
  ShouldRetry : bool;
  IsNoRetryError : bool;
  IsNoLowLevelRetryError : bool;
  IsFatalError : bool;
  (** [None] when [RetryAfterErrorTime] is zero *)
  RetryAfterErrorTime : option Z;
  IsCounted : bool
}.

(** [err = fserrors.FsError(err); fserrors.Count(err)] *)
Definition counted (e : goError) : goError := {|
  is_DirNotFound := is_DirNotFound e; is_ObjectNotFound := is_ObjectNotFound e;
  is_MaxTransferLimitReached := is_MaxTransferLimitReached e; is_MaxDurationReached := is_MaxDurationReached e;
  is_Usage := is_Usage e; ShouldRetry := ShouldRetry e; IsNoRetryError := IsNoRetryError e;
  IsNoLowLevelRetryError := IsNoLowLevelRetryError e; IsFatalError := IsFatalError e;
  RetryAfterErrorTime := RetryAfterErrorTime e; IsCounted := true |}.

Record StatsInfo : Type := {
  errors : Z;
  lastError : option goError;
  fatalError : bool;
  retryError : bool;
  retryAfter : option Z;
  transfers : Z
}.

Definition GetErrors (s : StatsInfo) : Z := errors s.
Definition GetLastError (s : StatsInfo) : option goError := lastError s.
Definition HadFatalError (s : StatsInfo) : bool := fatalError s.
Definition HadRetryError (s : StatsInfo) : bool := retryError s.
Definition Errored (s : StatsInfo) : bool := negb (errors s =? 0).
Definition GetTransfers (s : StatsInfo) : Z := transfers s.

Definition ResetErrors (s : StatsInfo) : StatsInfo :=
  {| errors := 0; lastError := None; fatalError := false; retryError := false; retryAfter := None; transfers := transfers s |}.

Definition Error (s : StatsInfo) (err : option goError) : StatsInfo * option goError :=
  match err with
  | None => (s, None)
  | Some e =>
      if IsCounted e then (s, Some e)
      else
        let e' := counted e in
        let s' := {| errors := errors s + 1; lastError := Some e; fatalError := fatalError s;
                     retryError := retryError s; retryAfter := retryAfter s; transfers := transfers s |} in
        (if IsFatalError e' then
           {| errors := errors s'; lastError := lastError s'; fatalError := true; retryError := retryError s';
              retryAfter := retryAfter s'; transfers := transfers s' |}
         else match RetryAfterErrorTime e' with
         | Some after =>
             {| errors := errors s'; lastError := lastError s'; fatalError := fatalError s'; retryError := true;
                retryAfter := match retryAfter s' with
                              | None => Some after
                              | Some t => if 0 <? after - t then Some after else Some t
                              end;
                transfers := transfers s' |}
         | None =>
             if negb (IsNoRetryError e') then
               {| errors := errors s'; lastError := lastError s'; fatalError := fatalError s'; retryError := true;
                  retryAfter := retryAfter s'; transfers := transfers s' |}
             else s'
         end, Some e')
  end.

(** ** Commands *)

(** The part of the configuration that is used here *)
Record ConfigInfo : Type := { Retries : Z; ErrorOnNoTransfer : bool }.

Definition resolveExitCode (ci : ConfigInfo) (s : StatsInfo) (err : option goError) (sustainIfNilError : bool) :
    outcome exit unit :=
  match err with
  | None =>
      if negb sustainIfNilError then
        if ErrorOnNoTransfer ci && (GetTransfers s =? 0) then Err (Exit 9) else Err (Exit 0)
      else Ret tt
  | Some e =>
      if is_DirNotFound e then Err (Exit 3)
      else if is_ObjectNotFound e then Err (Exit 4)
      else if is_MaxTransferLimitReached e then Err (Exit 8)
      else if is_MaxDurationReached e then Err (Exit 10)
      else if ShouldRetry e then Err (Exit 5)
      else if IsNoRetryError e || IsNoLowLevelRetryError e then Err (Exit 6)
      else if IsFatalError e then Err (Exit 7)
      else if is_Usage e then Err (Exit 2)
      else Ret tt
  end.

Section Run.
Context {W : Type} (ci : ConfigInfo) (Retry : bool).
(** [f] may count errors of its own and changes the world. *)
Context (f : StatsInfo -> W -> outcome exit (StatsInfo * W * option goError)).

Definition or_last (s : StatsInfo) (err : option goError) : option goError :=
  match err with None => GetLastError s | Some e => Some e end.

(** [for try := 1; try <= ci.Retries; try++]: [tries] are left. *)
Fixpoint retry_loop (tries : nat) (s : StatsInfo) (w : W) (cmdErr : option goError) :
    outcome exit (StatsInfo * W * option goError) :=
  match tries with
  | O => Ret (s, w, cmdErr)
  | S rest =>
      '(s, w, err) <- f s w ;;
      let '(s, cmdErr) := Error s err in
      let cmdErr := or_last s cmdErr in
      if negb Retry || negb (Errored s) then Ret (s, w, cmdErr)
      else if HadFatalError s then Ret (s, w, cmdErr)
      else if Errored s && negb (HadRetryError s) then Ret (s, w, cmdErr)
      else retry_loop rest (match rest with O => s | S _ => ResetErrors s end) w cmdErr
  end.

Definition RunWithSustainOS (sustainOS : bool) (s : StatsInfo) (w : W) : outcome exit (StatsInfo * W) :=
  '(s, w, cmdErr) <- retry_loop (Z.to_nat (Retries ci)) s w None ;;
  let cmdErr := or_last s cmdErr in
  _ <- resolveExitCode ci s cmdErr sustainOS ;;
  Ret (s, w).

Definition Run (s : StatsInfo) (w : W) : outcome exit (StatsInfo * W) := RunWithSustainOS false s w.
End Run.

(** [CheckArgs] exits when the number of arguments does not fit. *)
Definition CheckArgs (MinArgs MaxArgs : nat) (args : nat) : outcome exit unit :=
  if (args <? MinArgs)%nat || (MaxArgs <? args)%nat then Err (Exit 2) else Ret tt.

(** ** What the commands report *)

(** None of the kinds of errors that have an exit status of their own *)
Definition uncategorized (e : goError) : bool :=
  negb (is_DirNotFound e || is_ObjectNotFound e || is_MaxTransferLimitReached e || is_MaxDurationReached e || is_Usage e ||
        ShouldRetry e || IsNoRetryError e || IsNoLowLevelRetryError e || IsFatalError e).

Definition clean (s : StatsInfo) : Prop :=
  errors s = 0 /\ lastError s = None /\ fatalError s = false /\ retryError s = false.

Lemma clean_reset s : clean (ResetErrors s).
Proof. repeat split. Qed.

Lemma resolve_uncategorized ci s e sustain : uncategorized e = true -> resolveExitCode ci s (Some e) sustain = Ret tt.
Proof.
  unfold uncategorized, resolveExitCode. rewrite negb_true_iff, !orb_false_iff.
  intros ((((((((-> & ->) & ->) & ->) & ->) & ->) & ->) & ->) & ->). reflexivity.
Qed.

(** An uncategorized error is counted as one that may be retried. *)
Lemma Error_uncategorized s e : clean s -> uncategorized e = true -> IsCounted e = false ->
  let '(s', err) := Error s (Some e) in
  errors s' = 1 /\ lastError s' = Some e /\ fatalError s' = false /\ retryError s' = true /\ err = Some (counted e).
Proof.
  intros (E1 & E2 & E3 & E4) Hu Hc. unfold uncategorized in Hu. rewrite negb_true_iff, !orb_false_iff in Hu.
  destruct Hu as ((((((((? & ?) & ?) & ?) & ?) & ?) & Hn) & ?) & Hf). unfold Error. rewrite Hc. cbn [IsFatalError counted].
  rewrite Hf. cbn [RetryAfterErrorTime IsNoRetryError counted]. rewrite Hn.
  destruct (RetryAfterErrorTime e); cbn; rewrite ?E1, ?E3; auto.
Qed.

Section Failing.
Context {W : Type} (ci : ConfigInfo) (f : StatsInfo -> W -> outcome exit (StatsInfo * W * option goError)).

(** The operation fails at every try with such an error. *)
Definition fails (w : W) (e : goError) : Prop := forall s, f s w = Ret (s, w, Some e).

Lemma retry_fails e w : fails w e -> uncategorized e = true -> IsCounted e = false -> forall n s cmdErr, clean s ->
  exists s', retry_loop true f (S n) s w cmdErr = Ret (s', w, Some (counted e)) /\
    errors s' = 1 /\ lastError s' = Some e /\ fatalError s' = false /\ retryError s' = true.
Proof.
  intros Hf Hu Hc n. induction n as [|n IH]; intros s cmdErr Hs; cbn [retry_loop]; rewrite Hf; cbn [bind];
    assert (H := Error_uncategorized s e Hs Hu Hc); destruct (Error s (Some e)) as [s1 err];
    destruct H as (E1 & E2 & E3 & E4 & ->); cbn [or_last]; unfold Errored, HadFatalError, HadRetryError; rewrite E1, E3, E4; cbn.
  - exists s1. auto.
  - destruct (IH (ResetErrors s1) (Some (counted e)) (clean_reset s1)) as (s' & E & Hrest). exists s'. split; [exact E | exact Hrest].
Qed.

Lemma run_fails e w s sustain : fails w e -> uncategorized e = true -> IsCounted e = false -> clean s -> 1 <= Retries ci ->
  exists s', RunWithSustainOS ci true f sustain s w = Ret (s', w) /\
    errors s' = 1 /\ lastError s' = Some e /\ fatalError s' = false /\ retryError s' = true.
Proof.
  intros Hf Hu Hc Hs Hr. unfold RunWithSustainOS. destruct (Z.to_nat (Retries ci)) as [|n] eqn:En; [lia |].
  destruct (retry_fails e w Hf Hu Hc n s None Hs) as (s' & E & Hrest). rewrite E. cbn [bind or_last].
  rewrite resolve_uncategorized by exact Hu. cbn [bind]. exists s'. auto.
Qed.

(** The operation succeeds. *)
Definition succeeds (w w' : W) : Prop := forall s, f s w = Ret (s, w', None).

Lemma run_succeeds w w' s : succeeds w w' -> clean s -> 1 <= Retries ci -> RunWithSustainOS ci true f true s w = Ret (s, w').
Proof.
  intros Hf (E1 & E2 & E3 & E4) Hr. unfold RunWithSustainOS. destruct (Z.to_nat (Retries ci)) as [|n] eqn:En; [lia |].
  cbn [retry_loop]. rewrite Hf. cbn [bind Error]. unfold Errored. rewrite E1. cbn. unfold or_last, GetLastError. rewrite E2. reflexivity.
Qed.

(** After an error the operation is run twice, and the counters are reset in between. *)
Lemma run_succeeds_dirty w w' w'' s e : succeeds w w' -> succeeds w' w'' -> 2 <= Retries ci ->
  errors s = 1 -> lastError s = Some e -> fatalError s = false -> retryError s = true ->
  RunWithSustainOS ci true f true s w = Ret (ResetErrors s, w'').
Proof.
  intros Hf Hf' Hr E1 E2 E3 E4. unfold RunWithSustainOS. destruct (Z.to_nat (Retries ci)) as [|[|n]] eqn:En; [lia | lia |].
  cbn [retry_loop]. rewrite Hf. cbn [bind Error]. unfold Errored, HadFatalError, HadRetryError. rewrite E1, E3, E4. cbn.
  rewrite Hf'. reflexivity.
Qed.
End Failing.

(** ** Operations that fail in any way *)

(** No error, or one of those that have no exit status of their own *)
Definition mild (err : option goError) : Prop := match err with Some e => uncategorized e = true | None => True end.
Definition calm (s : StatsInfo) : Prop := mild (lastError s).

(** An error that ends the process *)
Definition ends_with (e : goError) (x : exit) : Prop := forall ci s sustain, resolveExitCode ci s (Some e) sustain = Err x.

Lemma ends_counted e x : ends_with e x -> ends_with (counted e) x.
Proof. intros H ci s sustain. exact (H ci s sustain). Qed.

(** Every error either ends the process or has no status. *)
Lemma mild_or_ends e : uncategorized e = true \/ exists x, ends_with e x.
Proof.
  unfold uncategorized, ends_with, resolveExitCode. destruct (is_DirNotFound e); [right; eauto |]. destruct (is_ObjectNotFound e); [right; eauto |].
  destruct (is_MaxTransferLimitReached e); [right; eauto |]. destruct (is_MaxDurationReached e); [right; eauto |]. destruct (ShouldRetry e); [right; eauto |].
  destruct (IsNoRetryError e); [right; eauto |]. destruct (IsNoLowLevelRetryError e); [right; eauto |]. destruct (IsFatalError e); [right; eauto |]. destruct (is_Usage e); [right; eauto | now left].
Qed.

Lemma Error_spec s e : exists s' e', Error s (Some e) = (s', Some e') /\ (e' = e \/ e' = counted e) /\ (calm s -> uncategorized e = true -> calm s').
Proof.
  unfold Error. destruct (IsCounted e); [exists s, e; auto |]. do 2 eexists. split; [reflexivity |]. split; [now right |]. intros _ Hu.
  unfold calm. destruct (IsFatalError _); [exact Hu |]. destruct (RetryAfterErrorTime _); [exact Hu |]. destruct (negb _); exact Hu.
Qed.

Section Any.
Context {W : Type} (ci : ConfigInfo) (Retry : bool) (f : StatsInfo -> W -> outcome exit (StatsInfo * W * option goError)).
Context (P : W -> Prop) (Q : option goError -> Prop) (Hf : forall s w, P w -> exists w' err, f s w = Ret (s, w', err) /\ P w' /\ Q err).

Lemma retry_any n : forall s w cmdErr, P w -> exists s' w' cmdErr', retry_loop Retry f n s w cmdErr = Ret (s', w', cmdErr') /\ P w' /\
  ((forall err, Q err -> mild err) -> calm s -> mild cmdErr -> calm s' /\ mild cmdErr').
Proof.
  induction n as [|n IH]; intros s w cmdErr Hw; cbn [retry_loop]; [exists s, w, cmdErr; auto |].
  destruct (Hf s w Hw) as (w1 & err & -> & Hw1 & Hq). cbn [bind].
  assert (He : exists s1 err1, Error s err = (s1, err1) /\ ((forall err, Q err -> mild err) -> calm s -> calm s1 /\ mild (or_last s1 err1))).
  { destruct err as [e|]; [| exists s, None; split; [reflexivity |]; intros _ Hs; split; exact Hs].
    destruct (Error_spec s e) as (s1 & e1 & -> & He1 & Hs1). exists s1, (Some e1). split; [reflexivity |]. intros Hm Hs. assert (Hu := Hm _ Hq). split; [auto |].
    cbn [or_last mild]. now destruct He1 as [-> | ->]. }
  destruct He as (s1 & err1 & -> & Hcalm).
  assert (Hstop : exists s' w' cmdErr', Ret (s1, w1, or_last s1 err1) = (Ret (s', w', cmdErr') : outcome exit _) /\ P w' /\
    ((forall err, Q err -> mild err) -> calm s -> mild cmdErr -> calm s' /\ mild cmdErr')) by (exists s1, w1, (or_last s1 err1); auto).
  destruct (negb Retry || negb (Errored s1)); [exact Hstop |]. destruct (HadFatalError s1); [exact Hstop |]. destruct (Errored s1 && negb (HadRetryError s1)); [exact Hstop |].
  destruct (IH (match n with O => s1 | Datatypes.S _ => ResetErrors s1 end) w1 (or_last s1 err1) Hw1) as (s' & w' & cmdErr' & E & Hw' & H'). exists s', w', cmdErr'.
  split; [exact E |]. split; [exact Hw' |]. intros Hm Hs _. destruct (Hcalm Hm Hs) as [Hs1 Herr1]. apply H'; auto. now destruct n.
Qed.

(** A command ends the process or returns with what its operation keeps. *)
Lemma run_any s w : P w -> (exists x, RunWithSustainOS ci Retry f true s w = Err x) \/
  exists s' w', RunWithSustainOS ci Retry f true s w = Ret (s', w') /\ P w'.
Proof.
  intros Hw. unfold RunWithSustainOS. destruct (retry_any (Z.to_nat (Retries ci)) s w None Hw) as (s' & w' & cmdErr & -> & Hw' & _). cbn [bind].
  destruct (or_last s' cmdErr) as [e|]; cbn [resolveExitCode negb bind]; [| right; eauto].
  destruct (mild_or_ends e) as [Hu|[x Hx]]; [right | left].
  - exists s', w'. assert (E := resolve_uncategorized ci s' e true Hu). unfold resolveExitCode in E. now rewrite E.
  - exists x. assert (E := Hx ci s' true). unfold resolveExitCode in E. now rewrite E.
Qed.

(** With errors that have no status it returns. *)
Lemma run_mild s w : (forall err, Q err -> mild err) -> calm s -> P w -> exists s' w', RunWithSustainOS ci Retry f true s w = Ret (s', w') /\ P w' /\ calm s'.
Proof.
  intros Hm Hs Hw. unfold RunWithSustainOS. destruct (retry_any (Z.to_nat (Retries ci)) s w None Hw) as (s' & w' & cmdErr & -> & Hw' & H'). cbn [bind].
  destruct (H' Hm Hs I) as [Hs' Herr]. exists s', w'. split; [| auto]. destruct cmdErr as [e|]; cbn [or_last].
  - now rewrite resolve_uncategorized.
  - unfold GetLastError. destruct (lastError s') as [e|] eqn:El; [| reflexivity]. unfold calm in Hs'. rewrite El in Hs'. now rewrite resolve_uncategorized.
Qed.
End Any.

(** With an error at every try that has a status it exits with it. *)
Lemma run_ends {W} ci Retry (f : StatsInfo -> W -> outcome exit (StatsInfo * W * option goError)) e x s w :
  (forall s w, exists w', f s w = Ret (s, w', Some e)) -> ends_with e x -> 1 <= Retries ci -> RunWithSustainOS ci Retry f true s w = Err x.
Proof.
  intros Hf Hx Hr. unfold RunWithSustainOS. destruct (Z.to_nat (Retries ci)) as [|n] eqn:En; [lia |]. clear En.
  assert (H : forall n s w cmdErr, exists s' w' e', retry_loop Retry f (S n) s w cmdErr = Ret (s', w', Some e') /\ ends_with e' x).
  { clear n s w. induction n as [|n IH]; intros s w cmdErr; cbn [retry_loop]; destruct (Hf s w) as (w1 & ->); cbn [bind];
      destruct (Error_spec s e) as (s1 & e1 & -> & He1 & _); cbn [or_last];
      assert (Hstop : exists s' w' e', Ret (s1, w1, Some e1) = (Ret (s', w', Some e') : outcome exit _) /\ ends_with e' x)
        by (exists s1, w1, e1; split; [reflexivity |]; destruct He1 as [-> | ->]; auto using ends_counted).
    - destruct (_ || _); [exact Hstop |]. destruct (HadFatalError s1); [exact Hstop |]. destruct (_ && _); exact Hstop.
    - destruct (_ || _); [exact Hstop |]. destruct (HadFatalError s1); [exact Hstop |]. destruct (_ && _); [exact Hstop |]. exact (IH _ w1 None). }
  destruct (H n s w None) as (s' & w' & e' & -> & He'). cbn [bind or_last]. now rewrite He'.
Qed.

(** ** Properties *)

(** An operation that fails at every try with an error that has no exit
    status of its own makes its command return as if nothing had happened, with
    and without [sustainOS]: the process does not end with a failure status, and
    only the global counters keep the error. *)
Theorem command_swallows_error {W} ci (f : StatsInfo -> W -> outcome exit (StatsInfo * W * option goError)) e w s sustain :
  fails f w e -> uncategorized e = true -> IsCounted e = false -> clean s -> 1 <= Retries ci ->
  exists s', RunWithSustainOS ci true f sustain s w = Ret (s', w) /\ Errored s' = true /\ GetLastError s' = Some e.
Proof.
  intros Hf Hu Hc Hs Hr. destruct (run_fails ci f e w s sustain Hf Hu Hc Hs Hr) as (s' & E & E1 & E2 & _).
  exists s'. unfold Errored. now rewrite E1.
Qed.

(** The next command that succeeds clears the counters, so that nothing is
    left of the error of the command before; its operation is run twice. *)
Theorem command_forgets_error {W} ci (f g : StatsInfo -> W -> outcome exit (StatsInfo * W * option goError)) e w w' w'' s :
  fails f w e -> uncategorized e = true -> IsCounted e = false -> succeeds g w w' -> succeeds g w' w'' ->
  clean s -> 2 <= Retries ci ->
  exists s1 s2, RunWithSustainOS ci true f true s w = Ret (s1, w) /\ RunWithSustainOS ci true g true s1 w = Ret (s2, w'') /\
    Errored s1 = true /\ clean s2.
Proof.
  intros Hf Hu Hc Hg Hg' Hs Hr. destruct (run_fails ci f e w s true Hf Hu Hc Hs ltac:(lia)) as (s1 & E & E1 & E2 & E3 & E4).
  exists s1, (ResetErrors s1). unfold Errored. rewrite E1.
  split; [exact E |]. split; [eapply run_succeeds_dirty; eauto | split; [reflexivity | apply clean_reset]].
Qed.

(** ** Witnesses *)

(** A remote that answers "permission denied" *)
Definition denied : goError := {|
  is_DirNotFound := false; is_ObjectNotFound := false; is_MaxTransferLimitReached := false; is_MaxDurationReached := false;
  is_Usage := false; ShouldRetry := false; IsNoRetryError := false; IsNoLowLevelRetryError := false; IsFatalError := false;
  RetryAfterErrorTime := None; IsCounted := false |}.

Definition ci0 : ConfigInfo := {| Retries := 3; ErrorOnNoTransfer := false |}.
Definition stats0 : StatsInfo :=
  {| errors := 0; lastError := None; fatalError := false; retryError := false; retryAfter := None; transfers := 0 |}.

Definition fail_op (s : StatsInfo) (w : nat) : outcome exit (StatsInfo * nat * option goError) := Ret (s, w, Some denied).
Definition count_op (s : StatsInfo) (w : nat) : outcome exit (StatsInfo * nat * option goError) := Ret (s, S w, None).

Lemma command_swallows_error_witness : exists s',
  RunWithSustainOS ci0 true fail_op false stats0 4%nat = Ret (s', 4%nat) /\ Errored s' = true /\ GetLastError s' = Some denied.
Proof. apply command_swallows_error; (reflexivity || (now intros s) || (cbn; lia) || exact (clean_reset stats0)). Defined.

Lemma command_forgets_error_witness : exists s1 s2,
  RunWithSustainOS ci0 true fail_op true stats0 4%nat = Ret (s1, 4%nat) /\
  RunWithSustainOS ci0 true count_op true s1 4%nat = Ret (s2, 6%nat) /\ Errored s1 = true /\ clean s2.
Proof.
  apply (command_forgets_error ci0 fail_op count_op denied 4%nat 5%nat 6%nat stats0);
    (reflexivity || (now intros s) || (cbn; lia) || exact (clean_reset stats0)).
Defined.
