(* ===== verification/Datamap.v ===== *)
(** * The map of distributed files (src/fs/dis_operations/datamap.go, hash.go,
    dis_metadata.go, dis_ls.go)

    The file [datamap.json] holds a map from file names to [FileInfo], written
    and read as a whole: package [encoding/json] gives back what was written.
    Every operation reads the file, changes the map and writes it, so that an
    error leaves the file as it was.  [range] is the order in which Go visits a
    map: any order, another one at every visit. *)
From stdpp Require Import base gmap strings list.
From S2P Require Import Prelude RSTypes Codec FileCodec.
Import ListNotations.
Local Open Scope go_scope.

(** ** Data (dis_metadata.go) *)

Record Remote : Type := MkRemote { Name : string; Type_ : string }.

#[export] Instance Remote_eq_dec : EqDecision Remote.
Proof. solve_decision. Defined.

Definition Remote_String (r : Remote) : string := Name r +:+ "|" +:+ Type_ r.

(** [Remote{}] *)
Definition no_remote : Remote := MkRemote EmptyString EmptyString.

Record DistributedFile : Type := MkDistributed {
  dis_name : string;
  dis_remote : Remote;
  dis_checksum : string;
  dis_check : bool
}.

Record FileInfo : Type := MkFileInfo {
  FileName : string;
  FileSize : Z;
  DisFileSize : Z;
  Shard : Z;
  Parity : Z;
  Flag : bool;
  State : string;
  Checksum : string;
  Padding : Z;
  DistributedFileInfos : gmap string DistributedFile
}.

Definition set_check (b : bool) (d : DistributedFile) : DistributedFile :=
  MkDistributed (dis_name d) (dis_remote d) (dis_checksum d) b.
Definition set_remote (r : Remote) (d : DistributedFile) : DistributedFile :=
  MkDistributed (dis_name d) r (dis_checksum d) (dis_check d).
Definition set_flag (b : bool) (state : string) (f : FileInfo) : FileInfo :=
  MkFileInfo (FileName f) (FileSize f) (DisFileSize f) (Shard f) (Parity f) b state (Checksum f) (Padding f)
    (DistributedFileInfos f).
Definition set_infos (m : gmap string DistributedFile) (f : FileInfo) : FileInfo :=
  MkFileInfo (FileName f) (FileSize f) (DisFileSize f) (Shard f) (Parity f) (Flag f) (State f) (Checksum f) (Padding f) m.

(** ** Errors *)

Inductive disError : Type :=
| EmptyName
| OpenJSON
| DecodeJSON
| WriteJSON
| NotFound (fileName : string)
| ShardNotFound (fileName shard : string)
| StatFailed
| RenameFailed (old new : string)
| NoRemotes
| AllRemotesFailed
| BadNumber
| BadBalancer
| Transfers (errs : list disError)
| DecodeFailed (e : decodeError)
| PasswordExists
| WrongPassword.

(** ** JSON files *)

Inductive jsonFile (A : Type) : Type :=
| NoFile
| EmptyFile
| NotJSON
| JSON (data : A).
Arguments NoFile {A}.
Arguments EmptyFile {A}.
Arguments NotJSON {A}.
Arguments JSON {A}.

(** A file and whether it can be written *)
Record stored_json (A : Type) : Type := Stored { content : jsonFile A; writable : bool }.
Arguments Stored {A}.
Arguments content {A}.
Arguments writable {A}.

Abbreviation fileMap := (gmap string FileInfo).
Definition datamap : Type := stored_json fileMap.

Definition readJsonFile (dm : datamap) : outcome disError fileMap :=
  match content dm with
  | NoFile | EmptyFile => Ret ∅
  | NotJSON => Err DecodeJSON
  | JSON m => Ret m
  end.

Definition writeJsonFile (dm : datamap) (m : fileMap) : outcome disError datamap :=
  if writable dm then Ret (Stored (JSON m) true) else Err WriteJSON.

(** ** Making entries *)

Definition GetDistributedInfo (fileName : string) (remote : Remote) (checksum : string) : outcome disError DistributedFile :=
  if decide (fileName = EmptyString) then Err EmptyName else Ret (MkDistributed fileName remote checksum false).

(** [calculateChecksum] of dis_operations; the path is a directory and a name. *)
Definition calculateChecksum (sha256 : list N -> string) (dk : disk) (p : path) : outcome disError string :=
  match open dk p with Some c => Ret (sha256 c) | None => Err OpenJSON end.

Definition dFileMap (distributedFiles : list DistributedFile) : gmap string DistributedFile :=
  fold_left (fun m d => <[dis_name d := d]> m) distributedFiles ∅.

Definition MakeDataMap (sha256 : list N -> string) (dk : disk) (dm : datamap) (originalFilePath : path)
    (distributedFiles : list DistributedFile) (disFileSize paddingAmount shard parity : Z) : outcome disError datamap :=
  if decide (originalFilePath = (EmptyString, EmptyString)) then Err EmptyName
  else
    let originalFileName := snd originalFilePath in
    match open dk originalFilePath with
    | None => Err StatFailed
    | Some originalFile =>
        checksum <- calculateChecksum sha256 dk originalFilePath ;;
        let newFileInfo := {|
          FileName := originalFileName;
          FileSize := Z.of_nat (length originalFile);
          DisFileSize := disFileSize;
          Shard := shard;
          Parity := parity;
          Flag := true;
          State := "upload";
          Checksum := checksum;
          Padding := paddingAmount;
          DistributedFileInfos := dFileMap distributedFiles |} in
        FilesMap <- readJsonFile dm ;;
        writeJsonFile dm (<[originalFileName := newFileInfo]> FilesMap)
    end.

Definition RemoveFileFromMetadata (dm : datamap) (fileName : string) : outcome disError datamap :=
  filesMap <- readJsonFile dm ;;
  writeJsonFile dm (delete fileName filesMap).

(** ** Reading entries *)

Definition find_file (dm : datamap) (fileName : string) : outcome disError (fileMap * FileInfo) :=
  filesMap <- readJsonFile dm ;;
  match filesMap !! fileName with
  | Some fileInfo => Ret (filesMap, fileInfo)
  | None => Err (NotFound fileName)
  end.

Definition GetFileInfoStruct (dm : datamap) (fileName : string) : outcome disError FileInfo :=
  '(_, fileInfo) <- find_file dm fileName ;; Ret fileInfo.

Definition DoesFileStructExist (dm : datamap) (fileName : string) : outcome disError bool :=
  filesMap <- readJsonFile dm ;;
  Ret (bool_decide (is_Some (filesMap !! fileName))).

(** The order of a visit of a map *)
Class MapRange : Type := map_range : forall {A}, nat -> gmap string A -> list (string * A).
Class MapRangeOk `{MapRange} : Prop :=
  map_range_perm : forall A k (m : gmap string A), map_range k m ≡ₚ map_to_list m.

Section Reading.
Context `{MapRange}.

Definition GetDistributedFileStruct (k : nat) (dm : datamap) (fileName : string) : outcome disError (list DistributedFile) :=
  '(_, fileInfo) <- find_file dm fileName ;;
  Ret (map snd (map_range k (DistributedFileInfos fileInfo))).

Definition GetChecksum (dm : datamap) (fileName : string) : string :=
  match GetFileInfoStruct dm fileName with Ret fileInfo => Checksum fileInfo | _ => EmptyString end.

Definition GetChecksumList (k : nat) (dm : datamap) (name : string) : list string :=
  match GetDistributedFileStruct k dm name with Ret disFiles => map dis_checksum disFiles | _ => [] end.

(** The first file of the visit that is flagged *)
Fixpoint first_flagged (l : list (string * FileInfo)) : bool * string * string :=
  match l with
  | [] => (false, EmptyString, EmptyString)
  | (_, info) :: l => if Flag info then (Flag info, State info, FileName info) else first_flagged l
  end.

Definition CheckFlagAndState (k : nat) (dm : datamap) : bool * string * string :=
  match readJsonFile dm with
  | Ret filesMap => first_flagged (map_range k filesMap)
  | _ => (false, EmptyString, EmptyString)
  end.

Definition GetUncompletedFileInfo (k : nat) (dm : datamap) (originalFileName : string) :
    outcome disError (list DistributedFile) :=
  '(_, fileInfo) <- find_file dm originalFileName ;;
  Ret (List.filter (fun d => negb (dis_check d) && bool_decide (Remote_String (dis_remote d) <> "|"))
         (map snd (map_range k (DistributedFileInfos fileInfo)))).

(** [Dis_ls] does not accept a missing or empty file. *)
Definition Dis_ls (k : nat) (dm : datamap) : outcome disError (list string) :=
  match content dm with
  | NoFile => Err OpenJSON
  | EmptyFile | NotJSON => Err DecodeJSON
  | JSON data => Ret (map fst (map_range k data))
  end.
End Reading.

Definition removeFileByName (files : list FileInfo) (fileName : string) : list FileInfo :=
  List.filter (fun file => bool_decide (FileName file <> fileName)) files.

(** ** Updating entries *)

Definition UpdateFileFlag (dm : datamap) (originalFileName state : string) : outcome disError datamap :=
  '(filesMap, fileInfo) <- find_file dm originalFileName ;;
  writeJsonFile dm (<[originalFileName := set_flag true state fileInfo]> filesMap).

Definition updateDistributedFile (dm : datamap) (originalFileName distributedFileName : string)
    (updateFunc : DistributedFile -> outcome disError DistributedFile) : outcome disError datamap :=
  '(filesMap, fileInfo) <- find_file dm originalFileName ;;
  match DistributedFileInfos fileInfo !! distributedFileName with
  | None => Err (ShardNotFound originalFileName distributedFileName)
  | Some dFile =>
      dFile <- updateFunc dFile ;;
      let infos := <[distributedFileName := dFile]> (DistributedFileInfos fileInfo) in
      writeJsonFile dm (<[originalFileName := set_infos infos fileInfo]> filesMap)
  end.

Definition UpdateDistributedFile_CheckFlag (dm : datamap) (originalFileName distributedFileName : string) (newCheck : bool) :
    outcome disError datamap :=
  updateDistributedFile dm originalFileName distributedFileName (fun dFile => Ret (set_check newCheck dFile)).

Definition UpdateDistributedFile_CheckFlagAndRemote (dm : datamap) (originalFileName distributedFileName : string)
    (newCheck : bool) (remote : Remote) : outcome disError datamap :=
  updateDistributedFile dm originalFileName distributedFileName
    (fun dFile => Ret (set_remote remote (set_check newCheck dFile))).

Definition ResetCheckFlag (dm : datamap) (originalFileName : string) : outcome disError datamap :=
  '(filesMap, fileInfo) <- find_file dm originalFileName ;;
  let fileInfo := set_flag false (State fileInfo) fileInfo in
  let fileInfo := set_infos (set_check false <$> DistributedFileInfos fileInfo) fileInfo in
  writeJsonFile dm (<[originalFileName := fileInfo]> filesMap).

(** ** Names of shards on the remotes (hash.go) *)

Section Hash.
(** [hex(sha256(name))] *)
Context (hash : string -> string) (configDir : string).

(** [hash.Write] never fails. *)
Definition CalculateHash (name : string) : outcome disError string := Ret (hash name).

Definition GetShardPath : string := GetShardDir configDir.

(** [os.Rename] *)
Definition rename (dk : disk) (p q : path) : option disk :=
  match open dk p with
  | Some c => Some (put_file (remove dk p) q c)
  | None => None
  end.

Definition ConvertFileNameForUP (dk : disk) (name : string) : outcome disError (disk * string) :=
  hashFileName <- CalculateHash name ;;
  match rename dk (GetShardPath, name) (GetShardPath, hashFileName) with
  | Some dk => Ret (dk, hashFileName)
  | None => Err (RenameFailed name hashFileName)
  end.

Definition ConvertFileNameForDo (dk : disk) (hashedName originalName : string) : outcome disError disk :=
  match rename dk (GetShardPath, hashedName) (GetShardPath, originalName) with
  | Some dk => Ret dk
  | None => Err (RenameFailed hashedName originalName)
  end.

(** The shards by the hash of their name *)
Fixpoint hash_index (l : list (string * DistributedFile)) (m : gmap string string) : outcome disError (gmap string string) :=
  match l with
  | [] => Ret m
  | (_, dFile) :: l => calhash <- CalculateHash (dis_name dFile) ;; hash_index l (<[calhash := dis_name dFile]> m)
  end.

Definition GetOriginalFileNameList `{MapRange} (k : nat) (dm : datamap) (originalFileName : string)
    (hashedFileNameList : list string) : outcome disError (list string) :=
  '(_, fileInfo) <- find_file dm originalFileName ;;
  hashToDistributed <- hash_index (map_range k (DistributedFileInfos fileInfo)) ∅ ;;
  Ret (omap (fun hashVal => hashToDistributed !! hashVal) hashedFileNameList).
End Hash.
