(* ===== verification/DatamapTheorems.v ===== *)
(** * The map of distributed files keeps its invariant and refines its
    specification

    The operations as a type [dm_op] with their effect on the map, [change]; the
    invariant [well_typed]; the abstract map of the progress of each file. *)
From stdpp Require Import base gmap strings list.
From S2P Require Import Prelude RSTypes Codec FileCodec Datamap.
Import ListNotations.
Local Open Scope go_scope.

(** ** Operations on the map *)

Inductive dm_op : Type :=
| Make (p : path) (ds : list DistributedFile) (disFileSize padding shard parity : Z)
| Flagged (name state : string)
| CheckShard (name shard : string) (b : bool)
| PlaceShard (name shard : string) (b : bool) (r : Remote)
| Reset (name : string)
| Forget (name : string).

Section Operations.
Context (sha256 : list N -> string) (dk : disk).

Definition run_op (dm : datamap) (op : dm_op) : outcome disError datamap :=
  match op with
  | Make p ds size padding shard parity => MakeDataMap sha256 dk dm p ds size padding shard parity
  | Flagged name state => UpdateFileFlag dm name state
  | CheckShard name shard b => UpdateDistributedFile_CheckFlag dm name shard b
  | PlaceShard name shard b r => UpdateDistributedFile_CheckFlagAndRemote dm name shard b r
  | Reset name => ResetCheckFlag dm name
  | Forget name => RemoveFileFromMetadata dm name
  end.

(** An operation that fails leaves the file as it was. *)
Definition step_op (dm : datamap) (op : dm_op) : datamap :=
  match run_op dm op with Ret dm' => dm' | _ => dm end.

Definition run_ops (dm : datamap) (ops : list dm_op) : datamap := fold_left step_op ops dm.

(** ** The entry an operation writes *)

Lemma read_write dm m dm' : writeJsonFile dm m = Ret dm' -> readJsonFile dm' = Ret m /\ writable dm' = true.
Proof. unfold writeJsonFile. destruct (writable dm); [| discriminate]. now intros [= <-]. Qed.

(** The change of the map, or the error *)
Definition change (m : fileMap) (op : dm_op) : outcome disError fileMap :=
  match op with
  | Make p ds size padding shard parity =>
      if decide (p = (EmptyString, EmptyString)) then Err EmptyName
      else match open dk p with
           | None => Err StatFailed
           | Some c => Ret (<[snd p := MkFileInfo (snd p) (Z.of_nat (length c)) size shard parity true "upload" (sha256 c) padding
                                         (dFileMap ds)]> m)
           end
  | Flagged name state =>
      match m !! name with None => Err (NotFound name) | Some f => Ret (<[name := set_flag true state f]> m) end
  | CheckShard name shard b =>
      match m !! name with
      | None => Err (NotFound name)
      | Some f => match DistributedFileInfos f !! shard with
                  | None => Err (ShardNotFound name shard)
                  | Some d => Ret (<[name := set_infos (<[shard := set_check b d]> (DistributedFileInfos f)) f]> m)
                  end
      end
  | PlaceShard name shard b r =>
      match m !! name with
      | None => Err (NotFound name)
      | Some f => match DistributedFileInfos f !! shard with
                  | None => Err (ShardNotFound name shard)
                  | Some d => Ret (<[name := set_infos (<[shard := set_remote r (set_check b d)]> (DistributedFileInfos f)) f]> m)
                  end
      end
  | Reset name =>
      match m !! name with
      | None => Err (NotFound name)
      | Some f => Ret (<[name := set_infos (set_check false <$> DistributedFileInfos f) (set_flag false (State f) f)]> m)
      end
  | Forget name => Ret (delete name m)
  end.

Lemma run_op_change dm op m : readJsonFile dm = Ret m ->
  run_op dm op = (m' <- change m op ;; writeJsonFile dm m').
Proof.
  intros Hr. destruct op; cbn [run_op change];
    unfold MakeDataMap, UpdateFileFlag, UpdateDistributedFile_CheckFlag, UpdateDistributedFile_CheckFlagAndRemote,
      updateDistributedFile, ResetCheckFlag, RemoveFileFromMetadata, find_file, calculateChecksum; rewrite ?Hr; cbn [bind].
  - destruct (decide _); [auto |]. now destruct (open dk p).
  - now destruct (m !! name).
  - destruct (m !! name) as [f|]; [| auto]. cbn [bind]. now destruct (DistributedFileInfos f !! shard).
  - destruct (m !! name) as [f|]; [| auto]. cbn [bind]. now destruct (DistributedFileInfos f !! shard).
  - now destruct (m !! name).
  - auto.
Qed.

Lemma step_op_change dm op m : readJsonFile dm = Ret m ->
  step_op dm op = dm \/ exists m', change m op = Ret m' /\ readJsonFile (step_op dm op) = Ret m'.
Proof.
  intros Hr. unfold step_op. rewrite (run_op_change dm op m Hr). destruct (change m op) as [m'| | |]; cbn [bind]; auto.
  destruct (writeJsonFile dm m') as [dm'| | |] eqn:E; auto. right. exists m'. split; [auto |]. now apply read_write in E.
Qed.

(** ** The type of the map *)

(** Every entry is stored under its own name, and so is every shard. *)
Definition well_typed (m : fileMap) : Prop :=
  map_Forall (fun k f => FileName f = k /\ map_Forall (fun n d => dis_name d = n) (DistributedFileInfos f)) m.

Definition datamap_ok (dm : datamap) : Prop := exists m, readJsonFile dm = Ret m /\ well_typed m.

Lemma dFileMap_names ds : map_Forall (fun n d => dis_name d = n) (dFileMap ds).
Proof.
  unfold dFileMap. assert (H : map_Forall (fun n (d : DistributedFile) => dis_name d = n) ∅) by apply map_Forall_empty.
  revert H. generalize (∅ : gmap string DistributedFile). induction ds as [|d ds IH]; intros m Hm; cbn [fold_left]; [auto |].
  apply IH. apply map_Forall_insert_2; auto.
Qed.

Lemma change_typed m op m' : well_typed m -> change m op = Ret m' -> well_typed m'.
Proof.
  unfold well_typed. intros Hm E.
  destruct op; cbn [change] in E; repeat case_match; simplify_eq;
    try (apply map_Forall_insert_2; [| exact Hm]; try (match goal with H : m !! _ = Some _ |- _ => destruct (Hm _ _ H) as [? Hd] end);
         (split; [done |]); cbn).
  - apply dFileMap_names.
  - exact Hd.
  - apply map_Forall_insert_2; [cbn; naive_solver | exact Hd].
  - apply map_Forall_insert_2; [cbn; naive_solver | exact Hd].
  - apply map_Forall_fmap. intros n d Hn. exact (Hd n d Hn).
  - now apply map_Forall_delete.
Qed.

Lemma step_op_ok dm op : datamap_ok dm -> datamap_ok (step_op dm op).
Proof.
  intros (m & Hr & Hm). destruct (step_op_change dm op m Hr) as [->|(m' & E & Hr')]; [now exists m |].
  exists m'. split; [auto |]. eapply change_typed; eauto.
Qed.

(** C26: whatever operations are done on the map, and whether they fail or not,
    every entry and every shard stays under its own name. *)
Theorem datamap_typed ops dm : datamap_ok dm -> datamap_ok (run_ops dm ops).
Proof. revert dm. induction ops as [|op ops IH]; intros dm H; cbn; [auto |]. apply IH, step_op_ok, H. Qed.

(** ** The specification: which operation is under way, and what is left of it *)

Record progress : Type := Progress { busy : option string; shards : gset string; done : gset string }.

Definition checked_shards (m : gmap string DistributedFile) : gset string := dom (filter (fun nd => dis_check (snd nd) = true) m).

Definition abstract_file (f : FileInfo) : progress :=
  Progress (if Flag f then Some (State f) else None) (dom (DistributedFileInfos f)) (checked_shards (DistributedFileInfos f)).

Definition abstract (m : fileMap) : gmap string progress := abstract_file <$> m.

Definition mark (b : bool) (shard : string) (p : progress) : option progress :=
  if decide (shard ∈ shards p)
  then Some (Progress (busy p) (shards p) (if b then {[shard]} ∪ done p else done p ∖ {[shard]}))
  else None.

Definition spec_op (a : gmap string progress) (op : dm_op) : option (gmap string progress) :=
  match op with
  | Make p ds _ _ _ _ =>
      if decide (p = (EmptyString, EmptyString)) then None
      else _ ← open dk p; Some (<[snd p := Progress (Some "upload") (dom (dFileMap ds)) (checked_shards (dFileMap ds))]> a)
  | Flagged name state => p ← a !! name; Some (<[name := Progress (Some state) (shards p) (done p)]> a)
  | CheckShard name shard b | PlaceShard name shard b _ => p ← a !! name; q ← mark b shard p; Some (<[name := q]> a)
  | Reset name => p ← a !! name; Some (<[name := Progress None (shards p) ∅]> a)
  | Forget name => Some (delete name a)
  end.

Lemma checked_insert n d m : checked_shards (<[n := d]> m) =
  if dis_check d then {[n]} ∪ checked_shards m else checked_shards m ∖ {[n]}.
Proof.
  unfold checked_shards. apply set_eq. intros x. rewrite elem_of_dom. unfold is_Some.
  setoid_rewrite map_lookup_filter_Some. setoid_rewrite lookup_insert_Some.
  destruct (dis_check d) eqn:E; rewrite ?elem_of_union, ?elem_of_difference, elem_of_singleton, elem_of_dom; unfold is_Some;
    setoid_rewrite map_lookup_filter_Some; cbn [snd]; split.
  - intros (y & [(-> & ->)|(Hne & Hy)] & Hc); [now left | right; eauto].
  - intros [->|(y & Hy & Hc)]; [exists d; auto |]. destruct (decide (n = x)) as [->|]; [exists d; auto | exists y; auto].
  - intros (y & [(-> & ->)|(Hne & Hy)] & Hc); [congruence | split; eauto].
  - intros [(y & Hy & Hc) Hne]. exists y. auto.
Qed.

Lemma checked_reset m : checked_shards (set_check false <$> m) = ∅.
Proof.
  unfold checked_shards. apply set_eq. intros x. rewrite elem_of_dom. unfold is_Some. setoid_rewrite map_lookup_filter_Some.
  setoid_rewrite lookup_fmap_Some. split; [| set_solver]. intros (y & ((d & <- & _) & Hc)). discriminate.
Qed.

Lemma abstract_lookup m name : abstract m !! name = abstract_file <$> m !! name.
Proof. apply lookup_fmap. Qed.

Lemma abstract_insert m name f : abstract (<[name := f]> m) = <[name := abstract_file f]> (abstract m).
Proof. apply fmap_insert. Qed.

Lemma change_refines m op :
  match change m op with Ret m' => spec_op (abstract m) op = Some (abstract m') | Err _ => spec_op (abstract m) op = None | _ => False end.
Proof.
  destruct op; cbn [change spec_op].
  - destruct (decide _); [auto |]. destruct (open dk p); [| auto]. now rewrite abstract_insert.
  - rewrite abstract_lookup. destruct (m !! name) as [f|]; [| auto]. now rewrite abstract_insert.
  - rewrite abstract_lookup. destruct (m !! name) as [f|]; [| auto]. cbn. unfold mark. cbn [shards abstract_file].
    destruct (DistributedFileInfos f !! shard) as [d|] eqn:E.
    + rewrite decide_True by (apply elem_of_dom; eauto). cbn. rewrite abstract_insert. do 2 f_equal. unfold abstract_file. cbn.
      rewrite checked_insert, dom_insert_lookup_L by eauto. reflexivity.
    + rewrite decide_False by (now apply not_elem_of_dom). auto.
  - rewrite abstract_lookup. destruct (m !! name) as [f|]; [| auto]. cbn. unfold mark. cbn [shards abstract_file].
    destruct (DistributedFileInfos f !! shard) as [d|] eqn:E.
    + rewrite decide_True by (apply elem_of_dom; eauto). cbn. rewrite abstract_insert. do 2 f_equal. unfold abstract_file. cbn.
      rewrite checked_insert, dom_insert_lookup_L by eauto. reflexivity.
    + rewrite decide_False by (now apply not_elem_of_dom). auto.
  - rewrite abstract_lookup. destruct (m !! name) as [f|]; [| auto]. rewrite abstract_insert. unfold abstract_file. cbn.
    now rewrite dom_fmap_L, checked_reset.
  - unfold abstract. f_equal. symmetry. apply fmap_delete.
Qed.

(** C24: on a file that can be written, every operation does on the map what the
    specification says, and fails exactly where the specification has no
    transition: the specification keeps, for every file, the operation under
    way, the shards and those that are done. *)
Theorem datamap_refines dm op m : readJsonFile dm = Ret m -> writable dm = true ->
  match run_op dm op with
  | Ret dm' => exists m', readJsonFile dm' = Ret m' /\ spec_op (abstract m) op = Some (abstract m')
  | Err _ => spec_op (abstract m) op = None
  | _ => False
  end.
Proof.
  intros Hr Hw. rewrite (run_op_change dm op m Hr). assert (H := change_refines m op).
  destruct (change m op) as [m'| | |]; cbn [bind]; auto. unfold writeJsonFile. rewrite Hw. exists m'. auto.
Qed.
End Operations.

(** ** Finding interrupted operations *)

Section Interrupted.
Context `{MapRangeOk}.

Lemma first_flagged_spec l :
  match first_flagged l with
  | (true, state, name) => exists k f, In (k, f) l /\ Flag f = true /\ State f = state /\ FileName f = name
  | (false, _, _) => forall k f, In (k, f) l -> Flag f = false
  end.
Proof.
  induction l as [|[k f] l IH]; cbn [first_flagged]; [intros k f [] |]. destruct (Flag f) eqn:E.
  - exists k, f. split; [now left | auto].
  - destruct (first_flagged l) as [[[] st] nm].
    + destruct IH as (k' & f' & Hin & Hrest). exists k', f'. split; [now right | auto].
    + intros k' f' [[= <- <-]|Hin]; [auto | now apply (IH k')].
Qed.

Lemma in_range {A} k (m : gmap string A) n a : In (n, a) (map_range k m) <-> m !! n = Some a.
Proof. rewrite <- list_elem_of_In, (map_range_perm A k m). apply elem_of_map_to_list. Qed.

Lemma check_flag_spec k dm m : readJsonFile dm = Ret m -> well_typed m ->
  match CheckFlagAndState k dm with
  | (true, state, name) => exists f, m !! name = Some f /\ Flag f = true /\ State f = state
  | (false, _, _) => forall name f, m !! name = Some f -> Flag f = false
  end.
Proof.
  intros Hr Hm. unfold CheckFlagAndState. rewrite Hr. assert (Hs := first_flagged_spec (map_range k m)).
  destruct (first_flagged (map_range k m)) as [[[] st] nm].
  - destruct Hs as (n & f & Hin%in_range & Hf & Hst & Hn). destruct (Hm n f Hin) as [E _]. exists f. rewrite <- Hn, E. auto.
  - intros n f Hn. apply (Hs n). now apply in_range.
Qed.

Lemma uncompleted_spec k dm m name f : readJsonFile dm = Ret m -> m !! name = Some f ->
  exists l, GetUncompletedFileInfo k dm name = Ret l /\ (forall d, In d l <->
    exists n, DistributedFileInfos f !! n = Some d /\ dis_check d = false /\ Remote_String (dis_remote d) <> "|").
Proof.
  intros Hr Hn. unfold GetUncompletedFileInfo, find_file. rewrite Hr. cbn [bind]. rewrite Hn. cbn [bind].
  eexists. split; [reflexivity |]. intros d. rewrite filter_In, in_map_iff. split.
  - intros [([n d'] & Hd & Hin%in_range) [Hc Hs]%andb_prop]. cbn in Hd. subst d'. exists n. split; [auto |].
    apply bool_decide_eq_true in Hs. now apply negb_true_iff in Hc.
  - intros (n & Hin & Hc & Hs). split; [exists (n, d); split; [auto | now apply in_range] |].
    rewrite Hc. cbn. now apply bool_decide_eq_true.
Qed.

Lemma distributed_spec k dm m name f : readJsonFile dm = Ret m -> m !! name = Some f ->
  exists l, GetDistributedFileStruct k dm name = Ret l /\ l ≡ₚ map snd (map_to_list (DistributedFileInfos f)).
Proof.
  intros Hr Hn. unfold GetDistributedFileStruct, find_file. rewrite Hr. cbn [bind]. rewrite Hn. cbn [bind].
  eexists. split; [reflexivity |]. now rewrite (map_range_perm _ k).
Qed.

(** An interrupted operation is found exactly when some file has its flag
    set, in every order of the visit, and the file that is named is flagged with
    the state that is given; what is left to be done of it are the shards that
    are on a remote and are not checked. *)
Theorem interrupted_found k k' dm m : readJsonFile dm = Ret m -> well_typed m ->
  match CheckFlagAndState k dm with
  | (true, state, name) =>
      exists f l, m !! name = Some f /\ Flag f = true /\ State f = state /\ GetUncompletedFileInfo k' dm name = Ret l /\
        forall d, In d l <->
          exists n, DistributedFileInfos f !! n = Some d /\ dis_check d = false /\ Remote_String (dis_remote d) <> "|"
  | (false, _, _) => forall name f, m !! name = Some f -> Flag f = false
  end.
Proof.
  intros Hr Hm. assert (Hc := check_flag_spec k dm m Hr Hm). destruct (CheckFlagAndState k dm) as [[[] st] nm]; [| exact Hc].
  destruct Hc as (f & Hn & Hf & Hst). destruct (uncompleted_spec k' dm m nm f Hr Hn) as (l & E & Hl). exists f, l. auto.
Qed.
End Interrupted.

(** ** Witnesses *)

#[export] Instance range0 : MapRange := fun A k m => if Nat.even k then map_to_list m else reverse (map_to_list m).

#[export] Instance range0_ok : MapRangeOk.
Proof. intros A k m. unfold map_range, range0. destruct (Nat.even k); [auto | apply reverse_Permutation]. Qed.

Definition shard0 : DistributedFile := MkDistributed "a.fcef.0" (MkRemote "drive" "box") "c0" false.
Definition shard1 : DistributedFile := MkDistributed "a.fcef.1" no_remote "c1" false.
Definition file0 : FileInfo := MkFileInfo "a" 5 3 1 1 true "rm" "c" 1 {[ "a.fcef.0" := shard0; "a.fcef.1" := shard1 ]}.
Definition map0 : fileMap := {[ "a" := file0 ]}.
Definition dm0 : datamap := Stored (JSON map0) true.

Lemma map0_typed : well_typed map0.
Proof.
  apply map_Forall_singleton. split; [reflexivity |]. cbn.
  apply map_Forall_insert_2; [reflexivity | apply map_Forall_singleton; reflexivity].
Qed.

Lemma datamap_typed_witness :
  datamap_ok (run_ops (fun _ => EmptyString) (Disk ∅ ∅) dm0 [CheckShard "a" "a.fcef.1" true; Flagged "b" "download"; Reset "a"]).
Proof. apply datamap_typed. exists map0. split; [reflexivity | exact map0_typed]. Defined.

Lemma datamap_refines_witness :
  match run_op (fun _ => EmptyString) (Disk ∅ ∅) dm0 (CheckShard "a" "a.fcef.1" true) with
  | Ret dm' => exists m', readJsonFile dm' = Ret m' /\ spec_op (Disk ∅ ∅) (abstract map0) (CheckShard "a" "a.fcef.1" true) = Some (abstract m')
  | Err _ => spec_op (Disk ∅ ∅) (abstract map0) (CheckShard "a" "a.fcef.1" true) = None
  | _ => False
  end.
Proof. apply (datamap_refines (fun _ => EmptyString) (Disk ∅ ∅) dm0 (CheckShard "a" "a.fcef.1" true) map0); reflexivity. Defined.

Lemma interrupted_found_witness :
  match CheckFlagAndState 0 dm0 with
  | (true, state, name) =>
      exists f l, map0 !! name = Some f /\ Flag f = true /\ State f = state /\ GetUncompletedFileInfo 1 dm0 name = Ret l /\
        forall d, In d l <->
          exists n, DistributedFileInfos f !! n = Some d /\ dis_check d = false /\ Remote_String (dis_remote d) <> "|"
  | (false, _, _) => forall name f, map0 !! name = Some f -> Flag f = false
  end.
Proof. apply (interrupted_found 0 1 dm0 map0); [reflexivity | exact map0_typed]. Defined.
