(* ===== verification/LoadBalance.v ===== *)
(** * Load balancing (src/fs/dis_operations/dis_loadbalance.go and the
    throughputs of dis_metadata.go)

    The file [loadbalancer.json] holds the counter of the round robin and, for
    every remote, the last speeds.  A speed is a [float64]: the class [Float64]
    says what is used of it.  [Remotes] are those of rclone's configuration. *)
From Stdlib Require Import Ascii.
From stdpp Require Import base gmap strings list.
From S2P Require Import Prelude RSTypes Codec FileCodec Datamap.
Import ListNotations.
Local Open Scope go_scope.

(** ** Numbers *)

Class Float64 (F : Type) : Type := {
  zero : F;
  gtb : F -> F -> bool;
  eqb_zero : F -> bool;
  (** [encoding/json] writes only finite numbers. *)
  finite : F -> bool
}.

(** What holds of the speeds that are measured: numbers, none of them NaN *)
Class GoodFloat64 (F : Type) `{Float64 F} : Prop := {
  gtb_irrefl : forall x, gtb x x = false;
  gtb_trans : forall x y z, gtb x y = true -> gtb y z = true -> gtb x z = true;
  gtb_total : forall x y z, gtb x y = true -> gtb x z = true \/ gtb z y = true
}.

(** ** Data (dis_metadata.go) *)

Definition maxEntries : nat := 10.

Inductive ThroughputType : Type := Upload | Download.

Inductive LoadBalancerType : Type := RoundRobin | DownloadOptima | UploadOptima | ResourceBased | NoBalancer.

Definition IsValid (lb : LoadBalancerType) : bool :=
  match lb with
  | RoundRobin | DownloadOptima | UploadOptima | ResourceBased => true
  | NoBalancer => false
  end.

Section Speeds.
Context {F : Type} `{Float64 F}.

Record RemoteInfo : Type := MkRemoteInfo {
  UpThroughputHistory : list F;
  AvgUpThroughput : F;
  DownThroughputHistory : list F;
  AvgDownThroughput : F
}.

Record LoadBalancerInfo : Type := MkLB {
  RoundRobinCounter : Z;
  RemoteInfos : gmap string RemoteInfo
}.

Definition maxSpeed (history : list F) : F :=
  match history with
  | [] => zero
  | s :: _ => fold_left (fun max speed => if gtb speed max then speed else max) history s
  end.

(** Keep the last [maxEntries] speeds. *)
Definition push_speed (history : list F) (newSpeed : F) : list F :=
  let history := history ++ [newSpeed] in
  if maxEntries <? length history then skipn (length history - maxEntries) history else history.

Definition UpdateThroughput (b : RemoteInfo) (newSpeed : F) (tType : ThroughputType) : RemoteInfo :=
  match tType with
  | Upload =>
      let history := push_speed (UpThroughputHistory b) newSpeed in
      MkRemoteInfo history (maxSpeed history) (DownThroughputHistory b) (AvgDownThroughput b)
  | Download =>
      let history := push_speed (DownThroughputHistory b) newSpeed in
      MkRemoteInfo (UpThroughputHistory b) (AvgUpThroughput b) history (maxSpeed history)
  end.

(** ** The file *)

Definition lbfile : Type := stored_json LoadBalancerInfo.

(** The file is made when it is not there. *)
Definition getLoadBalancerJsonFilePath (f : lbfile) : lbfile :=
  match content f with
  | NoFile => if writable f then Stored (JSON (MkLB 0 ∅)) true else f
  | _ => f
  end.

Definition readJSON (f : lbfile) : outcome disError LoadBalancerInfo :=
  match content f with
  | NoFile => Err OpenJSON
  | EmptyFile | NotJSON => Err DecodeJSON
  | JSON l => Ret l
  end.

Definition finite_info (i : RemoteInfo) : bool :=
  forallb finite (UpThroughputHistory i) && finite (AvgUpThroughput i) &&
  forallb finite (DownThroughputHistory i) && finite (AvgDownThroughput i).

Definition writeJSON (f : lbfile) (l : LoadBalancerInfo) : outcome disError lbfile :=
  if negb (forallb (fun ki => finite_info (snd ki)) (map_to_list (RemoteInfos l))) then Err BadNumber
  else if writable f then Ret (Stored (JSON l) true) else Err WriteJSON.

Definition getLoadBalancerInfo (f : lbfile) : outcome disError LoadBalancerInfo := readJSON f.

(** The info of the remote and the map that has it *)
Definition getRemoteInfo (remote : Remote) (l : LoadBalancerInfo) : RemoteInfo * LoadBalancerInfo :=
  let remoteKey := Remote_String remote in
  let remoteInfo := match RemoteInfos l !! remoteKey with
                    | Some i => i
                    | None => MkRemoteInfo [] zero [] zero
                    end in
  (remoteInfo, MkLB (RoundRobinCounter l) (<[remoteKey := remoteInfo]> (RemoteInfos l))).

Definition UpdateRemoteInfo (f : lbfile) (remote : Remote) (updateFunc : RemoteInfo -> RemoteInfo) : outcome disError lbfile :=
  let f := getLoadBalancerJsonFilePath f in
  lbInfo <- getLoadBalancerInfo f ;;
  let '(remoteInfo, lbInfo) := getRemoteInfo remote lbInfo in
  writeJSON f (MkLB (RoundRobinCounter lbInfo) (<[Remote_String remote := updateFunc remoteInfo]> (RemoteInfos lbInfo))).

Definition IncrementRoundRobinCounter (f : lbfile) : outcome disError lbfile :=
  let f := getLoadBalancerJsonFilePath f in
  l <- readJSON f ;;
  writeJSON f (MkLB (wrap64 (RoundRobinCounter l + 1)) (RemoteInfos l)).

(** ** The balancers *)

(** [strings.Split(s, "|")] *)
Fixpoint split_bar (s : string) : list string :=
  match s with
  | EmptyString => [EmptyString]
  | String c s =>
      match split_bar s with
      | [] => [EmptyString]
      | part :: parts => if Ascii.eqb c "|"%char then EmptyString :: part :: parts else String c part :: parts
      end
  end.

Section Balancers.
Context (remotes : list Remote).
Context `{MapRange}.
(** [RemoteCallAbout]: the free storage, or an error *)
Context (about : Remote -> option Z).

(** The file is returned with the remote; its counter may not have been written. *)
Definition LoadBalancer_RoundRobin (f : lbfile) : outcome disError (lbfile * Remote) :=
  let f := getLoadBalancerJsonFilePath f in
  existingLBInfo <- readJSON f ;;
  if length remotes =? 0 then Err NoRemotes
  else
    let i := Z.rem (RoundRobinCounter existingLBInfo) (Z.of_nat (length remotes)) in
    if (i <? 0)%Z then Panic
    else
      selectedRemote <- idx remotes (Z.to_nat i) ;;
      match IncrementRoundRobinCounter f with
      | Ret f => Ret (f, selectedRemote)
      | Err _ => Ret (f, selectedRemote)
      | Panic => Panic
      | Timeout => Timeout
      end.

(** The key with the highest value that is not zero, in the order of the visit *)
Definition highest (selector : RemoteInfo -> F) (infos : list (string * RemoteInfo)) : option (string * F) :=
  fold_left (fun best '(key, value) =>
    let currentVal := selector value in
    if eqb_zero currentVal then best
    else match best with
         | None => Some (key, currentVal)
         | Some (maxKey, maxValue) => if gtb currentVal maxValue then Some (key, currentVal) else best
         end) infos None.

Definition getRemoteOfHighestThroughput (k : nat) (selector : RemoteInfo -> F) (f : lbfile) :
    outcome disError (lbfile * Remote) :=
  let f := getLoadBalancerJsonFilePath f in
  match readJSON f with
  | Ret existingLBInfo =>
      match highest selector (map_range k (RemoteInfos existingLBInfo)) with
      | None => LoadBalancer_RoundRobin f
      | Some (maxKey, _) =>
          if decide (maxKey = EmptyString) then LoadBalancer_RoundRobin f
          else match split_bar maxKey with
               | [name; type] => Ret (f, MkRemote name type)
               | _ => LoadBalancer_RoundRobin f
               end
      end
  | _ => LoadBalancer_RoundRobin f
  end.

Definition LoadBalancer_DownloadOptima (k : nat) (f : lbfile) : outcome disError (lbfile * Remote) :=
  getRemoteOfHighestThroughput k AvgDownThroughput f.

Definition LoadBalancer_UploadOptima (k : nat) (f : lbfile) : outcome disError (lbfile * Remote) :=
  getRemoteOfHighestThroughput k AvgUpThroughput f.

(** The goroutines, in the order [answers] in which they get the lock: the
    errors, the highest free storage and its remote *)
Definition most_free (answers : list Remote) : nat * Z * Remote :=
  fold_left (fun '(errs, maxFreeStorage, bestRemote) remote =>
    match about remote with
    | None => (S errs, maxFreeStorage, bestRemote)
    | Some val => if (val >? maxFreeStorage)%Z then (errs, val, remote) else (errs, maxFreeStorage, bestRemote)
    end) answers (0, 0%Z, no_remote).

(** [bestRemote_save] is returned with the remote. *)
Definition LoadBalancer_ResourceBased (order : list Remote -> list Remote) (bestRemote_save : Remote) :
    outcome disError (Remote * Remote) :=
  if negb (bool_decide (Name bestRemote_save = EmptyString)) && negb (bool_decide (Type_ bestRemote_save = EmptyString))
  then Ret (bestRemote_save, bestRemote_save)
  else
    let '(errs, _, bestRemote) := most_free (order remotes) in
    if errs =? length remotes then Err AllRemotesFailed
    else Ret (bestRemote, bestRemote).

(** The state of the balancers: the file and [bestRemote_save] *)
Record balancer : Type := Balancer { lb_file : lbfile; bestRemote_save : Remote }.

(** The remote is stored in the distributed file. *)
Definition AllocateRemote (k : nat) (order : list Remote -> list Remote) (b : balancer) (loadbalancer : LoadBalancerType)
    (distributionFile : DistributedFile) : outcome disError (balancer * DistributedFile) :=
  let from_file c := '(f, remote) <- c ;; Ret (Balancer f (bestRemote_save b), remote) in
  '(b, remote) <-
    match loadbalancer with
    | RoundRobin => from_file (LoadBalancer_RoundRobin (lb_file b))
    | DownloadOptima => from_file (LoadBalancer_DownloadOptima k (lb_file b))
    | UploadOptima => from_file (LoadBalancer_UploadOptima k (lb_file b))
    | ResourceBased =>
        '(saved, remote) <- LoadBalancer_ResourceBased order (bestRemote_save b) ;; Ret (Balancer (lb_file b) saved, remote)
    | NoBalancer => from_file (LoadBalancer_RoundRobin (lb_file b))
    end ;;
  Ret (b, set_remote remote distributionFile).
End Balancers.
End Speeds.
Arguments RemoteInfo : clear implicits.
Arguments LoadBalancerInfo : clear implicits.
Arguments lbfile : clear implicits.
Arguments balancer : clear implicits.
