(* ===== verification/LoadBalanceTheorems.v ===== *)
(** * The balancers choose what they promise

    The window of speeds, the fairness and the overflow of the round robin, and
    the maxima that the other strategies look for. *)
From Stdlib Require Import Ascii.
From stdpp Require Import base gmap strings list.
From S2P Require Import Prelude RSTypes Codec FileCodec Datamap DatamapTheorems LoadBalance.
Import ListNotations.
Local Open Scope go_scope.

(** ** Speeds *)

Section Speeds.
Context {F : Type} `{GoodFloat64 F}.

(** The last [n] of a list *)
Definition last_n {A} (n : nat) (l : list A) : list A := skipn (length l - n) l.

Lemma last_n_snoc {A} n (l : list A) x : last_n (S n) (l ++ [x]) = last_n n l ++ [x].
Proof.
  unfold last_n. rewrite length_app. cbn [length]. rewrite skipn_app.
  replace (length l + 1 - S n) with (length l - n) by lia.
  replace (length l - n - length l) with 0 by lia. reflexivity.
Qed.

Lemma last_n_last_n {A} n k (l : list A) : n <= k -> last_n n (last_n k l) = last_n n l.
Proof. intros Hn. unfold last_n. rewrite skipn_skipn, length_skipn. f_equal. lia. Qed.

Lemma length_last_n {A} n (l : list A) : length (last_n n l) = Nat.min n (length l).
Proof. unfold last_n. rewrite length_skipn. lia. Qed.

Lemma push_speed_last h (s : F) : push_speed h s = last_n maxEntries (h ++ [s]).
Proof.
  unfold push_speed, last_n. destruct (Nat.ltb_spec maxEntries (length (h ++ [s]))); [auto |].
  replace (length (h ++ [s]) - maxEntries) with 0 by lia. reflexivity.
Qed.

(** The result of the loop is the first value or one of the list, and none is greater. *)
Lemma max_loop l : forall m : F, let r := fold_left (fun max speed => if gtb speed max then speed else max) l m in
  In r (m :: l) /\ forall x, In x (m :: l) -> gtb x r = false.
Proof.
  induction l as [|s l IH]; intros m; cbn [fold_left].
  - split; [now left |]. intros x [->|[]]. apply gtb_irrefl.
  - destruct (gtb s m) eqn:E.
    + destruct (IH s) as [Hin Hmax]. split; [destruct Hin as [<-|Hin]; [right; left | right; right]; auto |].
      intros x [<-|Hx]; [| now apply Hmax]. set (r := fold_left _ l s) in *.
      destruct (gtb m r) eqn:Er; [| auto]. assert (X := gtb_trans s m r E Er). now rewrite (Hmax s (or_introl eq_refl)) in X.
    + destruct (IH m) as [Hin Hmax]. split; [destruct Hin as [<-|Hin]; [left | right; right]; auto |].
      intros x [<-|[<-|Hx]]; [apply Hmax; now left | | apply Hmax; now right]. set (r := fold_left _ l m) in *.
      destruct (gtb s r) eqn:Er; [| auto]. destruct (gtb_total s r m Er) as [Hc|Hc]; [congruence |].
      now rewrite (Hmax m (or_introl eq_refl)) in Hc.
Qed.

Lemma maxSpeed_spec h : h <> [] -> In (maxSpeed h) h /\ forall x, In x h -> gtb x (maxSpeed h) = false.
Proof.
  intros Hne. destruct h as [|s h]; [congruence |]. unfold maxSpeed. destruct (max_loop (s :: h) s) as [Hin Hmax].
  split; [destruct Hin as [<-|Hin]; [now left | auto] |]. intros x Hx. apply Hmax. now right.
Qed.

(** The info of a remote after the uploads and downloads at the given speeds *)
Definition updates (speeds : list (F * ThroughputType)) (b : RemoteInfo F) : RemoteInfo F :=
  fold_left (fun b '(s, t) => UpdateThroughput b s t) speeds b.

Definition is_upload (t : ThroughputType) : bool := match t with Upload => true | Download => false end.
Definition uploads (speeds : list (F * ThroughputType)) : list F := map fst (List.filter (fun st => is_upload (snd st)) speeds).
Definition downloads (speeds : list (F * ThroughputType)) : list F :=
  map fst (List.filter (fun st => negb (is_upload (snd st))) speeds).

Definition fresh : RemoteInfo F := MkRemoteInfo [] zero [] zero.

Lemma updates_spec speeds :
  UpThroughputHistory (updates speeds fresh) = last_n maxEntries (uploads speeds) /\
  AvgUpThroughput (updates speeds fresh) = maxSpeed (last_n maxEntries (uploads speeds)) /\
  DownThroughputHistory (updates speeds fresh) = last_n maxEntries (downloads speeds) /\
  AvgDownThroughput (updates speeds fresh) = maxSpeed (last_n maxEntries (downloads speeds)).
Proof.
  induction speeds as [|[s t] speeds (E1 & E2 & E3 & E4)] using rev_ind; [auto |].
  unfold updates, uploads, downloads in *. rewrite fold_left_app, !List.filter_app, !map_app. cbn [fold_left].
  destruct t; cbn [UpdateThroughput is_upload snd fst List.filter negb map UpThroughputHistory AvgUpThroughput DownThroughputHistory AvgDownThroughput];
    rewrite ?app_nil_r, !push_speed_last, ?E1, ?E2, ?E3, ?E4;
    unfold maxEntries; rewrite !last_n_snoc, last_n_last_n by lia; auto.
Qed.

(** The history of a remote is the window of the last ten speeds of each
    direction, and the value called the average is the greatest speed of the
    window: it is in the window and no speed of it is greater. *)
Theorem throughput_window speeds :
  let b := updates speeds fresh in
  UpThroughputHistory b = last_n maxEntries (uploads speeds) /\ DownThroughputHistory b = last_n maxEntries (downloads speeds) /\
  length (UpThroughputHistory b) <= maxEntries /\ length (DownThroughputHistory b) <= maxEntries /\
  (UpThroughputHistory b <> [] -> In (AvgUpThroughput b) (UpThroughputHistory b)) /\
  (DownThroughputHistory b <> [] -> In (AvgDownThroughput b) (DownThroughputHistory b)) /\
  (forall x, In x (UpThroughputHistory b) -> gtb x (AvgUpThroughput b) = false) /\
  (forall x, In x (DownThroughputHistory b) -> gtb x (AvgDownThroughput b) = false).
Proof.
  intros b. subst b. destruct (updates_spec speeds) as (-> & -> & -> & ->). rewrite !length_last_n.
  splits; auto; try lia; intros Hx; try (now apply maxSpeed_spec); intros Hin; apply maxSpeed_spec; auto; intros E; now rewrite E in Hin.
Qed.
End Speeds.

(** ** Round robin *)

(** How often [k] occurs among the remainders of [c .. c + n - 1] *)
Definition hits (k c n j : nat) : nat := length (List.filter (fun i => (c + i) mod k =? j) (seq 0 n)).

Lemma hits_S k c n j : hits k c (S n) j = hits k c n j + if (c + n) mod k =? j then 1 else 0.
Proof.
  unfold hits. rewrite seq_S, List.filter_app, length_app. cbn [List.filter plus].
  destruct ((c + n) mod k =? j); reflexivity.
Qed.

Lemma hits_closed k c n j : 0 < k -> j < k ->
  hits k c n j + (c / k + if j <? c mod k then 1 else 0) = (c + n) / k + if j <? (c + n) mod k then 1 else 0.
Proof.
  intros Hk Hj. induction n as [|n IH].
  - rewrite Nat.add_0_r. reflexivity.
  - rewrite hits_S. assert (Hd := Nat.div_mod_eq (c + n) k). assert (Hm := Nat.mod_upper_bound (c + n) k).
    replace (c + S n) with (S (c + n)) by lia. set (q := (c + n) / k) in *. set (r := (c + n) mod k) in *.
    destruct (Nat.eq_dec (S r) k) as [E|E].
    + assert (Eq : S (c + n) / k = S q) by (symmetry; apply Nat.div_unique with 0; lia).
      assert (Er : S (c + n) mod k = 0) by (symmetry; apply Nat.mod_unique with (S q); lia). rewrite Eq, Er.
      destruct (Nat.ltb_spec j r), (Nat.ltb_spec j 0), (Nat.eqb_spec r j); lia.
    + assert (Eq : S (c + n) / k = q) by (symmetry; apply Nat.div_unique with (S r); lia).
      assert (Er : S (c + n) mod k = S r) by (symmetry; apply Nat.mod_unique with q; lia). rewrite Eq, Er.
      destruct (Nat.ltb_spec j r), (Nat.ltb_spec j (S r)), (Nat.eqb_spec r j); lia.
Qed.

Lemma hits_fair k c n i j : 0 < k -> i < k -> j < k -> hits k c n i <= hits k c n j + 1.
Proof.
  intros Hk Hi Hj. assert (Ei := hits_closed k c n i Hk Hi). assert (Ej := hits_closed k c n j Hk Hj).
  destruct (Nat.ltb_spec i (c mod k)), (Nat.ltb_spec i ((c + n) mod k)), (Nat.ltb_spec j (c mod k)), (Nat.ltb_spec j ((c + n) mod k)); lia.
Qed.

Section Balancers.
Context {F : Type} `{GoodFloat64 F} `{MapRangeOk}.
Context (remotes : list Remote) (about : Remote -> option Z).

(** A file that can be read and written, with the counter at [c] *)
Record lb_ready (f : lbfile F) (c : Z) : Prop := {
  lb_info : exists infos, content f = JSON (MkLB c infos) /\ forallb (fun ki => finite_info (snd ki)) (map_to_list infos) = true;
  lb_writable : writable f = true
}.

Lemma round_robin_step f c : lb_ready f c -> (0 <= c)%Z -> (c + 1 < 2 ^ 63)%Z -> remotes <> [] ->
  exists f', LoadBalancer_RoundRobin remotes f = Ret (f', nth (Z.to_nat c mod length remotes) remotes no_remote) /\
    lb_ready f' (c + 1).
Proof.
  intros [(infos & Ef & Hfin) Hw] Hc Hmax Hne. unfold LoadBalancer_RoundRobin, IncrementRoundRobinCounter.
  assert (Ep : getLoadBalancerJsonFilePath f = f) by (unfold getLoadBalancerJsonFilePath; now rewrite Ef).
  rewrite !Ep. unfold readJSON. rewrite Ef. cbn [bind RoundRobinCounter RemoteInfos].
  destruct (Nat.eqb_spec (length remotes) 0) as [E|E]; [destruct remotes; [congruence | discriminate] |].
  assert (Hr := Z.rem_bound_pos c (Z.of_nat (length remotes)) ltac:(lia) ltac:(lia)).
  destruct (Z.ltb_spec (Z.rem c (Z.of_nat (length remotes))) 0); [lia |].
  assert (Ei : Z.to_nat (Z.rem c (Z.of_nat (length remotes))) = Z.to_nat c mod length remotes).
  { rewrite Z.rem_mod_nonneg by lia. rewrite Z2Nat.inj_mod by lia. now rewrite Nat2Z.id. }
  rewrite Ei. unfold idx. rewrite (nth_error_nth' remotes no_remote) by (apply Nat.mod_upper_bound; lia). cbn [bind].
  unfold writeJSON. cbn [RemoteInfos]. rewrite Hfin, Hw. cbn [negb]. eexists. split; [reflexivity |].
  rewrite wrap64_small by lia. split; [| reflexivity]. exists infos. auto.
Qed.

(** The shards of a file get their remotes one after the other. *)
Fixpoint allocate_all (lb : LoadBalancerType) (k : nat) (order : list Remote -> list Remote) (b : balancer F)
    (ds : list DistributedFile) : outcome disError (balancer F * list DistributedFile) :=
  match ds with
  | [] => Ret (b, [])
  | d :: ds =>
      '(b, d) <- AllocateRemote remotes about k order b lb d ;;
      '(b, ds) <- allocate_all lb (S k) order b ds ;;
      Ret (b, d :: ds)
  end.

Lemma allocate_round_robin order ds : forall k b c, lb_ready (lb_file b) c -> (0 <= c)%Z ->
  (c + Z.of_nat (length ds) < 2 ^ 63)%Z -> remotes <> [] ->
  exists b' ds', allocate_all RoundRobin k order b ds = Ret (b', ds') /\ lb_ready (lb_file b') (c + Z.of_nat (length ds)) /\
    map dis_remote ds' = map (fun i => nth ((Z.to_nat c + i) mod length remotes) remotes no_remote) (seq 0 (length ds)) /\
    map dis_name ds' = map dis_name ds.
Proof.
  induction ds as [|d ds IH]; intros k b c Hb Hc Hmax Hne; cbn [allocate_all].
  - exists b, []. rewrite Z.add_0_r. auto.
  - unfold AllocateRemote. destruct (round_robin_step (lb_file b) c Hb Hc) as (f' & E & Hf'); [cbn in Hmax; lia | auto |].
    rewrite E. cbn [bind]. destruct (IH (S k) (Balancer f' (bestRemote_save b)) (c + 1)%Z Hf') as (b' & ds' & E' & Hb' & Hr & Hn);
      [lia | cbn in Hmax; lia | auto |].
    rewrite E'. cbn [bind]. exists b', (set_remote (nth (Z.to_nat c mod length remotes) remotes no_remote) d :: ds').
    split; [reflexivity |]. cbn [length seq map]. split; [replace (c + Z.of_nat (S (length ds)))%Z with (c + 1 + Z.of_nat (length ds))%Z by lia; exact Hb' |].
    split; [| cbn; now f_equal]. cbn [dis_remote set_remote]. f_equal; [now rewrite Nat.add_0_r |].
    rewrite Hr, <- seq_shift, map_map. apply map_ext. intros i. do 2 f_equal. lia.
Qed.

(** C32: round robin gives the shards of a file to the remotes in turn, starting
    where the last allocation stopped, as long as the counter is below [2^63]:
    no remote gets two shards more than another. *)
Theorem round_robin_fair k order b c ds : lb_ready (lb_file b) c -> (0 <= c)%Z ->
  (c + Z.of_nat (length ds) < 2 ^ 63)%Z -> remotes <> [] ->
  exists b' ds', allocate_all RoundRobin k order b ds = Ret (b', ds') /\
    lb_ready (lb_file b') (c + Z.of_nat (length ds)) /\ map dis_name ds' = map dis_name ds /\
    map dis_remote ds' = map (fun i => nth ((Z.to_nat c + i) mod length remotes) remotes no_remote) (seq 0 (length ds)) /\
    forall i j, i < length remotes -> j < length remotes ->
      hits (length remotes) (Z.to_nat c) (length ds) i <= hits (length remotes) (Z.to_nat c) (length ds) j + 1.
Proof.
  intros Hb Hc Hmax Hne. destruct (allocate_round_robin order ds k b c Hb Hc Hmax Hne) as (b' & ds' & E & Hb' & Hr & Hn).
  exists b', ds'. splits; auto. intros i j Hi Hj. apply hits_fair; lia.
Qed.

(** The counter is a 64-bit [int]: the allocation at [2^63 - 1] makes it
    negative, and the next one indexes the list of remotes with a negative
    number, unless the number of remotes divides [2^63]. *)
Theorem round_robin_overflow f : lb_ready f (2 ^ 63 - 1) -> remotes <> [] -> Z.rem (2 ^ 63) (Z.of_nat (length remotes)) <> 0%Z ->
  exists f' r, LoadBalancer_RoundRobin remotes f = Ret (f', r) /\ lb_ready f' (- 2 ^ 63) /\
    LoadBalancer_RoundRobin remotes f' = Panic.
Proof.
  intros Hf Hne Hrem. assert (Hf0 := Hf). destruct Hf as [(infos & Ef & Hfin) Hw].
  assert (Hlen : 0 < length remotes) by (destruct remotes; [congruence | cbn; lia]).
  set (f' := Stored (JSON (MkLB (- 2 ^ 63)%Z infos)) true : lbfile F).
  set (i := Z.rem (2 ^ 63 - 1) (Z.of_nat (length remotes))).
  assert (Hi : (0 <= i < Z.of_nat (length remotes))%Z) by (apply Z.rem_bound_pos; lia).
  exists f', (nth (Z.to_nat i) remotes no_remote). split; [| split].
  - unfold LoadBalancer_RoundRobin, IncrementRoundRobinCounter.
    assert (Ep : getLoadBalancerJsonFilePath f = f) by (unfold getLoadBalancerJsonFilePath; now rewrite Ef).
    rewrite !Ep. unfold readJSON. rewrite Ef. cbn [bind RoundRobinCounter RemoteInfos]. fold i.
    destruct (Nat.eqb_spec (length remotes) 0); [lia |]. destruct (Z.ltb_spec i 0); [lia |].
    rewrite (idx_nth no_remote) by lia. cbn [bind].
    unfold writeJSON. cbn [RemoteInfos]. rewrite Hfin, Hw. cbn [negb]. reflexivity.
  - split; [| reflexivity]. exists infos. auto.
  - unfold LoadBalancer_RoundRobin, f'. cbn [getLoadBalancerJsonFilePath content readJSON bind RoundRobinCounter].
    destruct (Nat.eqb_spec (length remotes) 0); [lia |]. rewrite Z.rem_opp_l by lia.
    assert (Hp := Z.rem_bound_pos (2 ^ 63) (Z.of_nat (length remotes)) ltac:(lia) ltac:(lia)).
    destruct (Z.ltb_spec (- Z.rem (2 ^ 63) (Z.of_nat (length remotes))) 0); [reflexivity | lia].
Qed.

(** ** Highest throughput *)

(** [best] is the entry of [infos] with the highest value that is not zero. *)
Definition is_highest (selector : RemoteInfo F -> F) (infos : list (string * RemoteInfo F)) (best : option (string * F)) : Prop :=
  match best with
  | None => forall k i, In (k, i) infos -> eqb_zero (selector i) = true
  | Some (k, v) =>
      (exists i, In (k, i) infos /\ selector i = v /\ eqb_zero v = false) /\
      forall k' i', In (k', i') infos -> eqb_zero (selector i') = false -> gtb (selector i') v = false
  end.

Lemma highest_spec selector infos : is_highest selector infos (highest selector infos).
Proof.
  induction infos as [|[k i] infos IH] using rev_ind; [intros k i [] |].
  unfold highest in *. rewrite fold_left_app. cbn [fold_left]. set (best := fold_left _ infos None) in *.
  destruct (eqb_zero (selector i)) eqn:Ez; [| destruct best as [[k0 v0]|]; [destruct (gtb (selector i) v0) eqn:Eg |]].
  - destruct best as [[k0 v0]|]; cbn in *.
    + destruct IH as [(i0 & Hin & Hrest) Hmax]. split; [exists i0; rewrite in_app_iff; auto |].
      intros k' i' [Hin'|[[= <- <-]|[]]]%in_app_iff Hz; [now apply (Hmax k') | congruence].
    + intros k' i' [Hin'|[[= <- <-]|[]]]%in_app_iff; [now apply (IH k') | auto].
  - destruct IH as [(i0 & Hin & Hv & Hz0) Hmax]. split; [exists i; rewrite in_app_iff; cbn; auto |].
    intros k' i' [Hin'|[[= <- <-]|[]]]%in_app_iff Hz; [| apply gtb_irrefl].
    destruct (gtb (selector i') (selector i)) eqn:E; [| auto]. rewrite <- (Hmax k' i' Hin' Hz). symmetry. exact (gtb_trans _ _ _ E Eg).
  - destruct IH as [(i0 & Hin & Hrest) Hmax]. split; [exists i0; rewrite in_app_iff; auto |].
    intros k' i' [Hin'|[[= <- <-]|[]]]%in_app_iff Hz; [now apply (Hmax k') | auto].
  - split; [exists i; rewrite in_app_iff; cbn; auto |].
    intros k' i' [Hin'|[[= <- <-]|[]]]%in_app_iff Hz; [rewrite (IH k' i' Hin') in Hz; discriminate | apply gtb_irrefl].
Qed.

Lemma split_bar_cons s : exists p ps, split_bar s = p :: ps.
Proof.
  induction s as [|c s (p & ps & E)]; cbn; [eauto |]. rewrite E. destruct (Ascii.eqb c "|"%char); eauto.
Qed.

Lemma split_bar_one s n : split_bar s = [n] -> s = n.
Proof.
  revert n; induction s as [|c s IH]; intros n E; cbn in E; [now injection E |].
  destruct (split_bar_cons s) as (p & ps & Es). rewrite Es in E.
  destruct (Ascii.eqb c "|"%char); [discriminate |]. injection E as <- ->. f_equal. now apply IH.
Qed.

Lemma split_bar_join s n t : split_bar s = [n; t] -> s = n +:+ "|" +:+ t.
Proof.
  revert n t; induction s as [|c s IH]; intros n t E; cbn in E; [discriminate |].
  destruct (split_bar_cons s) as (p & ps & Es). rewrite Es in E. destruct (Ascii.eqb_spec c "|"%char) as [->|].
  - injection E as <- <- ->. rewrite (split_bar_one s p Es). reflexivity.
  - injection E as <- ->. rewrite (IH p t Es). reflexivity.
Qed.

(** The balancers for speed give the remote whose value is the highest of
    those that are not zero, whatever the order of the visit; with no such
    value, and when the name of the remote has a bar in it, they fall back to
    the round robin. *)
Theorem optima_highest k selector f l : content f = JSON l ->
  match getRemoteOfHighestThroughput remotes k selector f with
  | Ret (f', r) =>
      LoadBalancer_RoundRobin remotes f = Ret (f', r) \/
      (f' = f /\ (exists i, RemoteInfos l !! Remote_String r = Some i /\ eqb_zero (selector i) = false /\
        forall key i', RemoteInfos l !! key = Some i' -> eqb_zero (selector i') = false -> gtb (selector i') (selector i) = false))
  | res => LoadBalancer_RoundRobin remotes f = res
  end /\
  ((forall key i, RemoteInfos l !! key = Some i -> eqb_zero (selector i) = true) ->
    getRemoteOfHighestThroughput remotes k selector f = LoadBalancer_RoundRobin remotes f).
Proof.
  intros Hf. unfold getRemoteOfHighestThroughput.
  assert (Ep : getLoadBalancerJsonFilePath f = f) by (unfold getLoadBalancerJsonFilePath; now rewrite Hf).
  rewrite Ep. unfold readJSON. rewrite Hf. assert (Hh := highest_spec selector (map_range k (RemoteInfos l))).
  destruct (highest selector _) as [[key v]|] eqn:Eh.
  - destruct Hh as [(i & Hin%in_range & Hv & Hz) Hmax]. split; [| intros Hall; now rewrite <- Hv, (Hall key i Hin) in Hz].
    destruct (decide (key = EmptyString)); [destruct (LoadBalancer_RoundRobin remotes f) as [[]| | |]; auto |].
    destruct (split_bar key) as [|nm [|ty [|]]] eqn:Es; try (destruct (LoadBalancer_RoundRobin remotes f) as [[]| | |]; now auto).
    right. split; [auto |]. apply split_bar_join in Es. exists i. unfold Remote_String. cbn [Name Type_]. rewrite <- Es, Hv. splits; auto.
    intros k' i' Hi'. now apply (Hmax k'), in_range.
  - split; [destruct (LoadBalancer_RoundRobin remotes f) as [[]| | |]; auto | auto].
Qed.

(** ** Free storage *)

Lemma most_free_spec answers :
  let '(errs, val, r) := most_free about answers in
  errs = length (List.filter (fun r => negb (bool_decide (is_Some (about r)))) answers) /\ (0 <= val)%Z /\
  (forall r' v, In r' answers -> about r' = Some v -> (v <= val)%Z) /\
  ((val = 0%Z /\ r = no_remote) \/ (In r answers /\ about r = Some val /\ (0 < val)%Z)).
Proof.
  induction answers as [|a answers IH] using rev_ind; [cbn; splits; auto; [lia | intros r' v []] |].
  unfold most_free in *. rewrite fold_left_app. cbn [fold_left].
  destruct (fold_left _ answers _) as [[errs val] r]. destruct IH as (Ee & Hv & Hmax & Hr).
  rewrite List.filter_app, length_app. cbn [List.filter].
  destruct (about a) as [v|] eqn:Ea.
  - rewrite bool_decide_true by eauto. cbn [negb length]. rewrite Nat.add_0_r. destruct (Z.gtb_spec v val).
    + splits; auto; [lia | | right; rewrite in_app_iff; cbn; splits; auto; lia].
      intros r' v' [Hin|[<-|[]]]%in_app_iff Hr'; [specialize (Hmax r' v' Hin Hr'); lia | assert (v' = v) by congruence; lia].
    + splits; auto; [| destruct Hr as [|(Hin & ?)]; [now left | right; rewrite in_app_iff; auto]].
      intros r' v' [Hin|[<-|[]]]%in_app_iff Hr'; [now apply (Hmax r') | assert (v' = v) by congruence; lia].
  - rewrite bool_decide_false by (intros [? ?]; congruence). cbn [negb length]. splits; auto; [lia | |].
    + intros r' v' [Hin|[<-|[]]]%in_app_iff Hr'; [now apply (Hmax r') | congruence].
    + destruct Hr as [|(Hin & ?)]; [now left | right; rewrite in_app_iff; auto].
Qed.

(** With no remote saved, the balancer for free storage gives, in whatever
    order the answers come, a remote with the greatest positive free storage
    among those that answer; when none has any it gives the remote without a
    name, and no error; it fails only when no remote answers.  What it gives is
    saved, and a saved remote is given again whatever has changed since. *)
Theorem resource_based_max order saved : Permutation (order remotes) remotes ->
  (Name saved <> EmptyString -> Type_ saved <> EmptyString ->
    LoadBalancer_ResourceBased remotes about order saved = Ret (saved, saved)) /\
  match LoadBalancer_ResourceBased remotes about order no_remote with
  | Ret (s, r) => s = r /\ (exists r', In r' remotes /\ is_Some (about r')) /\
      ((r = no_remote /\ forall r' v, In r' remotes -> about r' = Some v -> (v <= 0)%Z) \/
       (exists v, In r remotes /\ about r = Some v /\ (0 < v)%Z /\ forall r' v', In r' remotes -> about r' = Some v' -> (v' <= v)%Z))
  | Err e => e = AllRemotesFailed /\ forall r, In r remotes -> about r = None
  | _ => False
  end.
Proof.
  intros Hp. split.
  - intros Hn Ht. unfold LoadBalancer_ResourceBased. now rewrite !bool_decide_false by auto.
  - unfold LoadBalancer_ResourceBased. cbn [Name Type_ no_remote]. rewrite bool_decide_true by auto. cbn [negb andb].
    assert (Hs := most_free_spec (order remotes)). destruct (most_free about (order remotes)) as [[errs val] r].
    destruct Hs as (Ee & Hv & Hmax & Hr).
    assert (Hlen : length (order remotes) = length remotes) by now apply Permutation_length.
    assert (Hall := filter_length (fun r => bool_decide (is_Some (about r))) (order remotes)).
    cbv beta in Hall. rewrite <- Ee, Hlen in Hall. assert (Hin : forall x, In x (order remotes) <-> In x remotes).
    { intros x. split; apply Permutation_in; [auto | now symmetry]. }
    destruct (Nat.eqb_spec errs (length remotes)) as [E|E].
    + split; [auto |]. intros x Hx%Hin. destruct (about x) eqn:Ex; [| auto].
      assert (Hf : In x (List.filter (fun r => bool_decide (is_Some (about r))) (order remotes)))
        by (apply filter_In; split; [auto | apply bool_decide_eq_true; eauto]).
      assert (E0 : List.filter (fun r => bool_decide (is_Some (about r))) (order remotes) = []) by (apply length_zero_iff_nil; lia).
      rewrite E0 in Hf. destruct Hf.
    + split; [auto |]. split.
      * destruct (List.filter (fun r => bool_decide (is_Some (about r))) (order remotes)) as [|x xs] eqn:Ef; [cbn in Hall; lia |].
        exists x. assert (Hx : In x (List.filter (fun r => bool_decide (is_Some (about r))) (order remotes))) by (rewrite Ef; now left).
        apply filter_In in Hx as [Hx%Hin Ha%bool_decide_eq_true]. auto.
      * destruct Hr as [[-> ->]|(Hr%Hin & Ha & Hpos)]; [left; split; [auto |] | right; exists val; splits; auto];
          intros r' v' Hr'%Hin; now apply Hmax.
Qed.
End Balancers.

(** ** Witnesses *)

(** Whole speeds *)
#[export] Instance whole_speeds : Float64 Z := {| zero := 0%Z; gtb := Z.gtb; eqb_zero := Z.eqb 0; finite := fun _ => true |}.

#[export] Instance whole_speeds_good : GoodFloat64 Z.
Proof. split; cbn; intros; rewrite ?Z.gtb_lt in *; lia. Qed.

Definition remotes0 : list Remote := [MkRemote "drive" "box"; MkRemote "ftp" "ftp"; MkRemote "nas" "sftp"].
Definition info0 : LoadBalancerInfo Z :=
  MkLB 7%Z {[ "drive|box" := MkRemoteInfo [3; 5]%Z 5%Z [] 0%Z; "ftp|ftp" := MkRemoteInfo [9]%Z 9%Z [] 0%Z ]}.
Definition lbfile0 : lbfile Z := Stored (JSON info0) true.
Definition free0 (r : Remote) : option Z := if decide (Name r = "nas") then None else Some (Z.of_nat (String.length (Name r))).

Lemma lbfile0_ready : lb_ready lbfile0 7.
Proof. split; [| reflexivity]. eexists. split; reflexivity. Qed.

Definition shards0 : list DistributedFile := [shard0; shard1; shard0; shard1].

Lemma throughput_window_witness : let b := updates [(5, Upload); (2, Download); (9, Upload)]%Z fresh in
  AvgUpThroughput b = 9%Z /\ forall x, In x (UpThroughputHistory b) -> gtb x (AvgUpThroughput b) = false.
Proof. split; [reflexivity |]. apply (throughput_window [(5, Upload); (2, Download); (9, Upload)]%Z). Defined.

Lemma round_robin_fair_witness : exists b' ds',
  allocate_all remotes0 free0 RoundRobin 0 id (Balancer lbfile0 no_remote) shards0 = Ret (b', ds') /\
  lb_ready (lb_file b') 11 /\ map dis_name ds' = map dis_name shards0 /\
  map dis_remote ds' = [MkRemote "ftp" "ftp"; MkRemote "nas" "sftp"; MkRemote "drive" "box"; MkRemote "ftp" "ftp"] /\
  forall i j, i < 3 -> j < 3 -> hits 3 7 4 i <= hits 3 7 4 j + 1.
Proof.
  apply (round_robin_fair remotes0 free0 0 id (Balancer lbfile0 no_remote) 7 shards0);
    [exact lbfile0_ready | lia | cbn; lia | discriminate].
Defined.

Lemma round_robin_overflow_witness : exists f' r,
  LoadBalancer_RoundRobin remotes0 (Stored (JSON (MkLB (2 ^ 63 - 1) ∅)) true : lbfile Z) = Ret (f', r) /\ lb_ready f' (- 2 ^ 63) /\
  LoadBalancer_RoundRobin remotes0 f' = Panic.
Proof.
  apply round_robin_overflow; [split; [exists ∅; split; reflexivity | reflexivity] | discriminate | discriminate].
Defined.

Lemma optima_highest_witness : match getRemoteOfHighestThroughput remotes0 1 AvgUpThroughput lbfile0 with
  | Ret (f', r) =>
      LoadBalancer_RoundRobin remotes0 lbfile0 = Ret (f', r) \/
      (f' = lbfile0 /\ (exists i, RemoteInfos info0 !! Remote_String r = Some i /\ eqb_zero (AvgUpThroughput i) = false /\
        forall key i', RemoteInfos info0 !! key = Some i' -> eqb_zero (AvgUpThroughput i') = false ->
          gtb (AvgUpThroughput i') (AvgUpThroughput i) = false))
  | res => LoadBalancer_RoundRobin remotes0 lbfile0 = res
  end.
Proof. apply (optima_highest remotes0 1 AvgUpThroughput lbfile0 info0). reflexivity. Defined.

Lemma resource_based_max_witness : LoadBalancer_ResourceBased remotes0 free0 (@reverse _) (MkRemote "ftp" "ftp") =
    Ret (MkRemote "ftp" "ftp", MkRemote "ftp" "ftp") /\
  LoadBalancer_ResourceBased remotes0 free0 (@reverse _) no_remote = Ret (MkRemote "drive" "box", MkRemote "drive" "box").
Proof.
  split; [| reflexivity]. apply (resource_based_max remotes0 free0 (@reverse _) (MkRemote "ftp" "ftp")); [| discriminate | discriminate].
  apply reverse_Permutation.
Defined.
