(* ===== verification/Workers.v ===== *)
(** * Pools of workers (startUploadFileGoroutine_Worker of dis_upload.go and
    startDownloadFileGoroutine_Worker of dis_download.go)

    The goroutines as a step relation: the main goroutine starts the workers,
    sends the jobs, closes the channel and waits for the [WaitGroup]; a worker
    takes a job, does it, and says so with [wg.Done()].  The channel has room for
    every job, so a send does not block.  [skips j] holds when the body of the
    loop reaches [continue] for [j], without [wg.Done()]. *)
From stdpp Require Import base gmap list relations.
From S2P Require Import Prelude RSTypes Codec FileCodec Datamap DatamapTheorems LoadBalance LoadBalanceTheorems.
Import ListNotations.

Section Pool.
Context {J : Type} (all_jobs : list J) (workerCount : nat) (skips : J -> bool).

Inductive mainState : Type :=
| Spawning (left : nat)
| Sending (left : list J)
| Waiting
| Returned.

Inductive workerState : Type :=
| Ranging
| Busy (j : J)
| Leaving
| Exited.

Record pool : Type := Pool {
  main : mainState;
  jobs : list J;
  closed : bool;
  workers : list workerState;
  wg : nat;
  (** The jobs whose body has ended, the last one first *)
  ended : list J
}.

Definition start : pool := Pool (Spawning workerCount) [] false [] 0 [].

Inductive step : pool -> pool -> Prop :=
| spawn n q c ws k e : step (Pool (Spawning (S n)) q c ws k e) (Pool (Spawning n) q c (ws ++ [Ranging]) (S k) e)
| spawned q c ws k e : step (Pool (Spawning 0) q c ws k e) (Pool (Sending all_jobs) q c ws k e)
| send j js q c ws k e : step (Pool (Sending (j :: js)) q c ws k e) (Pool (Sending js) (q ++ [j]) c ws (S k) e)
| close q c ws k e : step (Pool (Sending []) q c ws k e) (Pool Waiting q true ws k e)
| wait q c ws e : step (Pool Waiting q c ws 0 e) (Pool Returned q c ws 0 e)
| take m i j q c ws k e : ws !! i = Some Ranging ->
    step (Pool m (j :: q) c ws k e) (Pool m q c (<[i := Busy j]> ws) k e)
| finish m i j q c ws k e : ws !! i = Some (Busy j) -> skips j = false ->
    step (Pool m q c ws (S k) e) (Pool m q c (<[i := Ranging]> ws) k (j :: e))
| skip m i j q c ws k e : ws !! i = Some (Busy j) -> skips j = true ->
    step (Pool m q c ws k e) (Pool m q c (<[i := Ranging]> ws) k (j :: e))
| leave m i ws k e : ws !! i = Some Ranging -> step (Pool m [] true ws k e) (Pool m [] true (<[i := Leaving]> ws) k e)
| exit_ m i q c ws k e : ws !! i = Some Leaving ->
    step (Pool m q c ws (S k) e) (Pool m q c (<[i := Exited]> ws) k e).

Definition reachable (p : pool) : Prop := rtc step start p.
Definition stuck (p : pool) : Prop := forall p', ~ step p p'.

(** ** Every run ends *)

Definition worker_weight (w : workerState) : nat :=
  match w with Ranging => 2 | Busy _ => 3 | Leaving => 1 | Exited => 0 end.

Definition weight (p : pool) : nat :=
  match main p with
  | Spawning n => 3 + 3 * n + 4 * length all_jobs
  | Sending l => 2 + 4 * length l
  | Waiting => 1
  | Returned => 0
  end + 3 * length (jobs p) + sum_list_with worker_weight (workers p).

Lemma sum_insert {A} (f : A -> nat) (l : list A) i x y : l !! i = Some x ->
  sum_list_with f (<[i := y]> l) + f x = sum_list_with f l + f y.
Proof.
  revert i; induction l as [|z l IH]; intros [|i] Hi; simplify_eq/=; [lia |].
  specialize (IH i Hi). lia.
Qed.

Lemma step_weight p p' : step p p' -> weight p' < weight p.
Proof.
  destruct 1; unfold weight; cbn [main jobs workers length]; rewrite ?sum_list_with_app, ?length_app; cbn [sum_list_with worker_weight length];
    try lia;
    match goal with Hw : ?ws !! ?i = Some ?x |- context [<[_ := ?y]> _] => assert (Hs := sum_insert worker_weight ws i x y Hw); cbn [worker_weight] in Hs end; lia.
Qed.

(** C27: every run of a pool ends: there is no infinite sequence of steps, for
    any interleaving of the goroutines. *)
Theorem pool_terminates p : sn step p.
Proof.
  apply (wf_projected lt weight); [| apply lt_wf]. intros x y Hxy. now apply step_weight.
Qed.

(** ** What the counter counts *)

Definition alive (w : workerState) : nat := match w with Exited => 0 | _ => 1 end.
Definition busy (w : workerState) : nat := match w with Busy _ => 1 | _ => 0 end.
Definition skipped (l : list J) : nat := length (List.filter skips l).

(** The jobs in the hands of the workers *)
Definition holding (w : workerState) : list J := match w with Busy j => [j] | _ => [] end.

Record pool_ok (p : pool) : Prop := {
  ok_wg : wg p = length (jobs p) + sum_list_with alive (workers p) + sum_list_with busy (workers p) + skipped (ended p);
  ok_main : match main p with
    | Spawning n => length (workers p) + n = workerCount /\ jobs p = [] /\ (workers p ≫= holding) = [] /\ ended p = [] /\ closed p = false
    | Sending l => length (workers p) = workerCount /\ closed p = false /\
        l ++ jobs p ++ (workers p ≫= holding) ++ ended p ≡ₚ all_jobs
    | Waiting => length (workers p) = workerCount /\ closed p = true /\
        jobs p ++ (workers p ≫= holding) ++ ended p ≡ₚ all_jobs
    | Returned => length (workers p) = workerCount /\ closed p = true /\ jobs p = [] /\ wg p = 0 /\ ended p ≡ₚ all_jobs
    end
}.
Lemma bind_insert (ws : list workerState) i x y : ws !! i = Some x ->
  (<[i := y]> ws ≫= holding) ++ holding x ≡ₚ (ws ≫= holding) ++ holding y.
Proof.
  revert i; induction ws as [|w ws IH]; intros [|i] Hi; simplify_eq/=.
  - solve_Permutation.
  - specialize (IH i Hi). rewrite <- !app_assoc, IH. solve_Permutation.
Qed.

Lemma start_ok : pool_ok start.
Proof. split; [reflexivity |]. cbn. auto. Qed.

(** A worker changes its state, with the job it takes or gives back. *)
Lemma worker_step ws i x y : ws !! i = Some x ->
  length (<[i := y]> ws) = length ws /\
  sum_list_with alive (<[i := y]> ws) + alive x = sum_list_with alive ws + alive y /\
  sum_list_with busy (<[i := y]> ws) + busy x = sum_list_with busy ws + busy y /\
  (<[i := y]> ws ≫= holding) ++ holding x ≡ₚ (ws ≫= holding) ++ holding y.
Proof.
  intros Hi. split; [apply length_insert |]. split; [now apply sum_insert |]. split; [now apply sum_insert | now apply bind_insert].
Qed.

Lemma busy_holding ws i j : ws !! i = Some (Busy j) -> (ws ≫= holding) <> [].
Proof.
  intros Hi E. assert (H := bind_insert ws i (Busy j) Ranging Hi). rewrite E in H. cbn in H.
  apply Permutation_length in H. rewrite length_app in H. cbn in H. lia.
Qed.

Ltac fields := cbn [main jobs closed workers wg ended] in *.

Ltac worker_moves :=
  match goal with
  | Hw : ?ws !! ?i = Some ?x |- context [<[?i := ?y]> ?ws] =>
      destruct (worker_step ws i x y Hw) as (Hlen & Ha & Hb & Hp); cbn [alive busy holding] in Ha, Hb, Hp;
      rewrite ?app_nil_r in Hp
  end.

Lemma step_ok p p' : pool_ok p -> step p p' -> pool_ok p'.
Proof.
  intros [Hwg Hmain] Hs. destruct Hs; fields; try worker_moves.
  - destruct Hmain as (Hl & -> & Hh & -> & ->). split; fields.
    + rewrite !sum_list_with_app. cbn [sum_list_with alive busy length skipped List.filter] in *. lia.
    + rewrite length_app, bind_app, Hh. cbn. splits; auto; lia.
  - destruct Hmain as (Hl & -> & Hh & -> & ->). split; [exact Hwg |]. fields. rewrite Hh.
    splits; auto; [lia |]. now rewrite !app_nil_r.
  - destruct Hmain as (Hl & -> & Hp). split; fields; [rewrite length_app; cbn; lia |].
    splits; auto. rewrite <- Hp. solve_Permutation.
  - destruct Hmain as (Hl & -> & Hp). split; fields; auto.
  - destruct Hmain as (Hl & -> & Hp). split; fields; [auto |]. splits; auto; [destruct q; [auto | cbn in Hwg; lia] |].
    rewrite <- Hp. destruct q; [| cbn in Hwg; lia]. cbn [app].
    replace (ws ≫= holding) with (@nil J); [auto |]. symmetry. clear - Hwg.
    induction ws as [|[| | |] ws IH]; cbn in *; auto; lia.
  - split; fields; [cbn [length] in *; lia |].
    destruct m as [n|l| |]; cbn [app] in *; [destruct Hmain as (? & ? & _); discriminate | | | destruct Hmain as (? & ? & ? & _); discriminate];
      destruct Hmain as (? & ? & Hm); splits; auto; [lia | | lia |]; rewrite Hp, <- Hm; solve_Permutation.
  - split; fields; [unfold skipped in *; cbn [List.filter] in *; rewrite H0; lia |].
    destruct m as [n|l| |]; [destruct Hmain as (_ & _ & E & _); now apply busy_holding in H | | | destruct Hmain as (_ & _ & _ & E & _); discriminate];
      destruct Hmain as (? & ? & Hm); splits; auto; [lia | | lia |]; rewrite <- Hm, <- Hp; solve_Permutation.
  - split; fields; [unfold skipped in *; cbn [List.filter]; rewrite H0; cbn [length]; lia |].
    destruct m as [n|l| |]; [destruct Hmain as (_ & _ & E & _); now apply busy_holding in H | | | ];
      [destruct Hmain as (? & ? & Hm); splits; auto; [lia |]; rewrite <- Hm, <- Hp; solve_Permutation .. |].
    destruct Hmain as (? & ? & ? & Hk & ?). subst k. exfalso.
    assert (Hb1 : 0 < sum_list_with busy ws) by lia. lia.
  - split; fields; [lia |].
    destruct m as [n|l| |]; [destruct Hmain as (_ & _ & _ & _ & E); discriminate | destruct Hmain as (_ & E & _); discriminate | |];
      destruct Hmain as (? & ? & Hm); splits; auto; [lia | now rewrite Hp | lia | tauto ..].
  - split; fields; [lia |].
    destruct m as [n|l| |]; [destruct Hmain as (? & ? & E & ? & ?); splits; auto; [lia |] | | |].
    + rewrite E in Hp. now apply Permutation_nil_r in Hp.
    + destruct Hmain as (? & ? & Hm); splits; auto; [lia |]. now rewrite Hp.
    + destruct Hmain as (? & ? & Hm); splits; auto; [lia |]. now rewrite Hp.
    + destruct Hmain as (? & ? & ? & ? & ?). discriminate.
Qed.
Lemma reachable_ok p : reachable p -> pool_ok p.
Proof. revert p. apply (rtc_ind_r pool_ok start start_ok). intros p1 p2 _ Hs H. eapply step_ok; eauto. Qed.

(** A worker leaves its loop only when no job can come any more. *)
Definition no_more_jobs (p : pool) : Prop :=
  forall i w, workers p !! i = Some w -> w = Leaving \/ w = Exited -> jobs p = [] /\ closed p = true.

Lemma no_more_step p p' : pool_ok p -> no_more_jobs p -> step p p' -> no_more_jobs p'.
Proof.
  intros [Hwg Hmain] Hno Hs i' w Hw Hl. destruct Hs; unfold no_more_jobs in Hno; fields; try (now apply (Hno i' w));
    try (rewrite list_lookup_insert_Some in Hw; destruct Hw as [(<- & <- & _)|(_ & Hw)];
         [destruct Hl; discriminate | now apply (Hno i' w)]).
  - apply lookup_app_Some in Hw as [Hw|[_ Hw]]; [now apply (Hno i' w) |].
    apply list_lookup_singleton_Some in Hw as [_ <-]. destruct Hl; discriminate.
  - destruct (Hno i' w Hw Hl) as [_ E]. destruct Hmain as (_ & E' & _). congruence.
  - destruct (Hno i' w Hw Hl) as [-> _]. auto.
  - rewrite list_lookup_insert_Some in Hw. destruct Hw as [(<- & <- & _)|(_ & Hw)]; [destruct Hl; discriminate |].
    destruct (Hno i' w Hw Hl) as [E _]. discriminate.
  - auto.
  - rewrite list_lookup_insert_Some in Hw. destruct Hw as [(<- & <- & _)|(_ & Hw)]; [| now apply (Hno i' w)].
    apply (Hno i Leaving); auto.
Qed.

Lemma reachable_no_more p : reachable p -> no_more_jobs p.
Proof.
  revert p. apply (rtc_ind_r no_more_jobs start); [intros i w Hi; cbn in Hi; discriminate |].
  intros p1 p2 Hr Hs H. eapply no_more_step; eauto. now apply reachable_ok.
Qed.

Lemma sum_zero {A} (f : A -> nat) (l : list A) : (forall i x, l !! i = Some x -> f x = 0) -> sum_list_with f l = 0.
Proof.
  induction l as [|x l IH]; intros Hf; cbn; [auto |]. rewrite (Hf 0 x eq_refl), IH; [auto |]. intros i y Hi. exact (Hf (S i) y Hi).
Qed.

Lemma skipped_none : (forall j, skips j = false) -> forall l, skipped l = 0.
Proof. intros Hs l. unfold skipped. induction l as [|j l IH]; cbn; [auto |]. now rewrite Hs. Qed.

Lemma waiting_moves q c ws k e : reachable (Pool Waiting q c ws k e) -> 0 < workerCount ->
  (forall j, skips j = false) -> exists p', step (Pool Waiting q c ws k e) p'.
Proof.
  intros Hr Hn Hskip. assert (Hno := reachable_no_more _ Hr). destruct (reachable_ok _ Hr) as [Hwg Hm].
  unfold no_more_jobs in Hno. fields. destruct Hm as (Hl & -> & Hp).
  assert (Hsk := skipped_none Hskip e).
  destruct k as [|k]; [eexists; apply wait |].
  destruct (decide (Exists (fun w => alive w <> 0) ws)) as [He|He].
  - apply Exists_exists in He as (w & Hin & Hne). apply list_elem_of_lookup in Hin as (i & Hi).
    destruct w as [|j| |]; [| | | now destruct Hne].
    + destruct q as [|j q]; eexists; [now apply leave with (i := i) | now apply take with (i := i)].
    + eexists. now apply finish with (i := i) (j := j).
    + eexists. now apply exit_ with (i := i).
  - exfalso. assert (Hex : forall i w, ws !! i = Some w -> w = Exited).
    { intros i w Hi. destruct w; auto; destruct He; apply Exists_exists; eexists; (split; [eapply list_elem_of_lookup_2; exact Hi | cbn; lia]). }
    destruct ws as [|w ws']; [cbn in Hl; lia |]. assert (Hw := Hex 0 w eq_refl). subst w.
    destruct (Hno 0 Exited eq_refl) as [-> _]; [auto |].
    rewrite (sum_zero alive), (sum_zero busy) in Hwg by (intros i x Hi; now rewrite (Hex i x Hi)). cbn in Hwg. lia.
Qed.

Lemma pool_progress p : reachable p -> 0 < workerCount -> (forall j, skips j = false) ->
  main p = Returned \/ exists p', step p p'.
Proof.
  intros Hr Hn Hskip. destruct p as [[[|n]|[|j js]| |] q c ws k e]; [right .. | left; reflexivity];
    try (eexists; constructor; fail). now apply waiting_moves.
Qed.

(** C25: when no body skips [wg.Done()] the main goroutine comes back: from every
    state the pool can reach, some run goes on to the return, no run stops
    before it, and then every job has been done once. *)
Theorem pool_returns p : reachable p -> 0 < workerCount -> (forall j, skips j = false) ->
  (exists p', rtc step p p' /\ main p' = Returned /\ ended p' ≡ₚ all_jobs) /\
  (stuck p -> main p = Returned /\ ended p ≡ₚ all_jobs).
Proof.
  intros Hr Hn Hskip.
  assert (Hend : forall p, reachable p -> main p = Returned -> ended p ≡ₚ all_jobs).
  { intros p1 Hr1 Hm. destruct (reachable_ok p1 Hr1) as [_ H]. rewrite Hm in H. apply H. }
  split.
  - revert Hr. induction (pool_terminates p) as [p _ IH]. intros Hr.
    destruct (pool_progress p Hr Hn Hskip) as [Hm|(p' & Hs)]; [exists p; split; [reflexivity | auto] |].
    destruct (IH p' Hs) as (p2 & Hr2 & Hrest); [eapply rtc_r; eauto |]. exists p2. split; [eapply rtc_l; eauto | auto].
  - intros Hst. destruct (pool_progress p Hr Hn Hskip) as [Hm|(p' & Hs)]; [auto | now apply Hst in Hs].
Qed.

(** When the body skips [wg.Done()] for one job, the main goroutine never comes back. *)
Lemma pool_hangs p j : reachable p -> In j all_jobs -> skips j = true -> main p <> Returned.
Proof.
  intros Hr Hin Hj Hm. destruct (reachable_ok p Hr) as [Hwg H]. rewrite Hm in H. destruct H as (_ & _ & _ & Hk & Hp).
  assert (Hf : In j (List.filter skips (ended p))) by (apply filter_In; split; [now apply (Permutation_in j (symmetry Hp)) | auto]).
  unfold skipped in Hwg. destruct (List.filter skips (ended p)); [destruct Hf | cbn in Hwg; lia].
Qed.
End Pool.

(** ** The pool of an upload *)

(** The body of the loop of the uploader goes on with [continue] when no remote
    can be allocated. *)
Definition upload_skips {F} `{Float64 F} `{MapRange} (remotes : list Remote) (about : Remote -> option Z) (k : nat)
    (order : list Remote -> list Remote) (b : balancer F) (loadbalancer : LoadBalancerType) (shardInfo : DistributedFile) : bool :=
  match AllocateRemote remotes about k order b loadbalancer shardInfo with Err _ => true | _ => false end.

Lemma no_remotes_skips {F} `{Float64 F} `{MapRange} about k order (b : balancer F) d :
  upload_skips [] about k order b RoundRobin d = true.
Proof.
  unfold upload_skips, AllocateRemote, LoadBalancer_RoundRobin. destruct (readJSON _) eqn:E; try reflexivity; exfalso;
    unfold readJSON in E; destruct (content _); discriminate.
Qed.

(** With no remote configured, the upload of a file with the round robin
    never comes back: the allocation fails for the first shard already, the
    worker does not call [wg.Done()], and the main goroutine waits for ever, in
    every interleaving. *)
Theorem upload_hangs_without_remotes {F} `{Float64 F} `{MapRange} about k order (b : balancer F) shards workerCount p :
  shards <> [] ->
  reachable shards workerCount (upload_skips [] about k order b RoundRobin) p -> main p <> Returned.
Proof.
  intros Hne Hr. destruct shards as [|d shards]; [congruence |].
  apply (pool_hangs (d :: shards) workerCount _ p d Hr); [now left | apply no_remotes_skips].
Qed.

(** ** Witnesses *)

Lemma pool_returns_witness : let p := start (J := nat) 2 in
  (exists p', rtc (step [7; 8; 9] (fun _ => false)) p p' /\ main p' = Returned /\ ended p' ≡ₚ [7; 8; 9]) /\
  (stuck [7; 8; 9] (fun _ => false) p -> main p = Returned /\ ended p ≡ₚ [7; 8; 9]).
Proof. apply (pool_returns [7; 8; 9] 2 (fun _ => false)); [apply rtc_refl | lia | reflexivity]. Defined.

Lemma upload_hangs_without_remotes_witness :
  main (Pool (Spawning 31) [] false [Ranging] 1 [] : pool) <> (Returned (J := DistributedFile)).
Proof.
  apply (upload_hangs_without_remotes (fun _ => None) 0 id (Balancer lbfile0 no_remote) [shard0] 32); [discriminate |].
  eapply rtc_l; [apply (spawn _ _ 31) | apply rtc_refl].
Defined.
