(* ===== verification/Transfer.v ===== *)
(** * Moving shards between the disk and the remotes (dis_upload.go,
    dis_download.go, dis_rm.go of src/fs/dis_operations)

    The world is the disk, the two JSON files, the remotes and the global
    counters of errors.  The remotes are an instance of [RemoteStore], the
    operations of rclone that the commands call.  The goroutines share the world:
    an upload, a download or a removal of a shard is a sequence of steps, each
    done under the lock or on files of its own, and a schedule says which shard
    makes the next step. *)
From stdpp Require Import base gmap strings list.
From S2P Require Import Prelude RSTypes Codec FileCodec Command Datamap LoadBalance.
Import ListNotations.
Local Open Scope go_scope.

(** ** The remotes *)

(** A file on a remote is given by the remote, the directory and the name. *)
Class RemoteStore (S : Type) : Type := {
  put : S -> string -> string -> string -> list N -> S * option goError;
  fetch : S -> string -> string -> string -> S * (list N + goError);
  find_object : S -> string -> string -> string -> bool;
  delete_object : S -> string -> string -> string -> S * option goError;
  make_dir : S -> string -> string -> S * option goError
}.

Definition remoteDirectory : string := "Distribution".

(** ** A monad of the world, the errors returned, and [os.Exit] *)

Section Transfer.
Context {F S : Type} `{Float64 F} `{MapRange} `{RemoteStore S}.

Record world : Type := World {
  w_disk : disk;
  w_datamap : datamap;
  w_balancer : balancer F;
  w_stats : StatsInfo;
  w_store : S;
  (** The flags [*dataShards] and [*parShards] *)
  w_flags : Z * Z
}.

Definition set_disk (w : world) (dk : disk) : world := World dk (w_datamap w) (w_balancer w) (w_stats w) (w_store w) (w_flags w).
Definition set_datamap (w : world) (dm : datamap) : world := World (w_disk w) dm (w_balancer w) (w_stats w) (w_store w) (w_flags w).
Definition set_balancer (w : world) (b : balancer F) : world := World (w_disk w) (w_datamap w) b (w_stats w) (w_store w) (w_flags w).
Definition set_stats_store (w : world) (s : StatsInfo) (st : S) : world := World (w_disk w) (w_datamap w) (w_balancer w) s st (w_flags w).
Definition set_flags (w : world) (fl : Z * Z) : world := World (w_disk w) (w_datamap w) (w_balancer w) (w_stats w) (w_store w) fl.

Definition M (A : Type) : Type := world -> outcome exit (world * (A + disError)).

Definition ret {A} (a : A) : M A := fun w => Ret (w, inl a).
Definition throw {A} (e : disError) : M A := fun w => Ret (w, inr e).
Definition bindM {A B} (c : M A) (k : A -> M B) : M B := fun w =>
  '(w, r) <- c w ;; match r with inl a => k a w | inr e => Ret (w, inr e) end.

(** A computation that only returns an error or a value *)
Definition lift {A} (c : world -> outcome disError A) : M A := fun w =>
  match c w with Ret a => Ret (w, inl a) | Err e => Ret (w, inr e) | Panic => Panic | Timeout => Timeout end.

(** An operation on the datamap *)
Definition on_datamap (c : datamap -> outcome disError datamap) : M unit := fun w =>
  match c (w_datamap w) with
  | Ret dm => Ret (set_datamap w dm, inl tt)
  | Err e => Ret (w, inr e)
  | Panic => Panic
  | Timeout => Timeout
  end.

Definition on_balancer {A} (c : balancer F -> outcome disError (balancer F * A)) : M A := fun w =>
  match c (w_balancer w) with
  | Ret (b, a) => Ret (set_balancer w b, inl a)
  | Err e => Ret (w, inr e)
  | Panic => Panic
  | Timeout => Timeout
  end.

Definition on_disk (c : disk -> disk) : M unit := fun w => Ret (set_disk w (c (w_disk w)), inl tt).

Definition get_world : M world := fun w => Ret (w, inl w).

(** The error is a value. *)
Definition tryM {A} (c : M A) : M (A + disError) := fun w => '(w, r) <- c w ;; Ret (w, inl r).

Local Notation "'let!' x ':=' c 'in' k" := (bindM c (fun x => k)) (at level 200, x pattern, right associativity).

(** ** Commands *)

Context (ci : ConfigInfo) (configDir : string) (hash : string -> string).

(** A command that changes the remotes: [Execute] gives an error only for
    arguments it cannot parse. *)
Definition remote_command (Retry : bool) (f : StatsInfo -> S -> outcome exit (StatsInfo * S * option goError)) : M unit :=
  fun w => '(s, st) <- RunWithSustainOS ci Retry f true (w_stats w) (w_store w) ;; Ret (set_stats_store w s st, inl tt).

(** [rclone copy file remote:directory] *)
Definition copy_up (content : list N) (remote dir file : string) (s : StatsInfo) (st : S) :
    outcome exit (StatsInfo * S * option goError) :=
  let '(st, err) := put st remote dir file content in Ret (s, st, err).

Definition remoteCallCopy (source : path) (remote dir : string) : M unit := fun w =>
  match open (w_disk w) source with
  | Some content => remote_command true (copy_up content remote dir (snd source)) w
  | None => Err (Exit 3)
  end.

(** [rclone copy remote:directory/file localDirectory]; the store and the disk
    are what the command changes.  Whether the source is a file is found out
    before the tries; a source that is none is only reported. *)
Definition copy_down (is_file : bool) (remote dir file localDir : string) (s : StatsInfo) (w : S * disk) :
    outcome exit (StatsInfo * (S * disk) * option goError) :=
  let '(st, dk) := w in
  if is_file then
    match fetch st remote dir file with
    | (st, inl c) => Ret (s, (st, put_file dk (localDir, file) c), None)
    | (st, inr e) => Ret (s, (st, dk), Some e)
    end
  else Ret (s, (st, dk), None).

Definition remoteCallCopyforDown (remote dir file localDir : string) : M unit := fun w =>
  let is_file := find_object (w_store w) remote dir file in
  '(s, (st, dk)) <- RunWithSustainOS ci true (copy_down is_file remote dir file localDir) true (w_stats w) (w_store w, w_disk w) ;;
  Ret (set_disk (set_stats_store w s st) dk, inl tt).

(** [rclone deletefile remote:directory/file] *)
Definition delete_file (remote dir file : string) (s : StatsInfo) (st : S) : outcome exit (StatsInfo * S * option goError) :=
  if find_object st remote dir file
  then let '(st, err) := delete_object st remote dir file in Ret (s, st, err)
  else Ret (s, st, None).

Definition remoteCallDeleteFile (remote dir file : string) : M unit := remote_command true (delete_file remote dir file).

Definition remoteCallMkdir (remote dir : string) : M unit :=
  remote_command true (fun s st => let '(st, err) := make_dir st remote dir in Ret (s, st, err)).

(** The goroutines end in any order; a command returns no error. *)
Fixpoint MakeDistributionDir (remotes : list Remote) : M unit :=
  match remotes with
  | [] => ret tt
  | remote :: remotes => let! _ := remoteCallMkdir (Name remote) remoteDirectory in MakeDistributionDir remotes
  end.

(** ** Upload *)

Definition updateRemoteInfo_Up (originalFileName : string) (shardInfo : DistributedFile) (throughputKbps : F) : M unit :=
  let! _ := on_datamap (fun dm =>
    UpdateDistributedFile_CheckFlagAndRemote dm originalFileName (dis_name shardInfo) true (dis_remote shardInfo)) in
  on_balancer (fun b =>
    f <- UpdateRemoteInfo (lb_file b) (dis_remote shardInfo) (fun i => UpdateThroughput i throughputKbps Upload) ;;
    Ret (Balancer f (bestRemote_save b), tt)).

(** Where the body of the loop is, for one shard *)
Inductive stage : Type :=
| Allocating
| Copying
| Recording
| Erasing
| Finished
(** [continue] without [wg.Done()] *)
| Skipped.

Record job : Type := Job { j_shard : DistributedFile; j_stage : stage }.

Section Upload.
Context (originalFileName : string) (hashedFileNameMap : string -> string) (loadBalancer : LoadBalancerType).
Context (remotes : list Remote) (about : Remote -> option Z) (order : list Remote -> list Remote).
(** The speed that is measured for a shard *)
Context (speed : string -> F).

(** The next step for a shard, with the errors it adds to [errs] *)
Definition upload_step (k : nat) (j : job) : world -> outcome exit (world * job * list disError) := fun w =>
  let shardInfo := j_shard j in
  match j_stage j with
  | Allocating =>
      '(w, r) <- on_balancer (fun b => AllocateRemote remotes about k order b loadBalancer shardInfo) w ;;
      match r with
      | inl shardInfo => Ret (w, Job shardInfo Copying, [])
      | inr e => Ret (w, Job shardInfo Skipped, [e])
      end
  | Copying =>
      let source : path := (GetShardPath configDir, hashedFileNameMap (dis_name shardInfo)) in
      match open (w_disk w) source with
      | None => Ret (w, Job shardInfo Finished, [StatFailed; StatFailed])
      | Some _ =>
          '(w, r) <- remoteCallCopy source (Name (dis_remote shardInfo)) remoteDirectory w ;;
          match r with
          | inl _ => Ret (w, Job shardInfo Recording, [])
          | inr e => Ret (w, Job shardInfo Finished, [e; e])
          end
      end
  | Recording =>
      '(w, r) <- updateRemoteInfo_Up originalFileName shardInfo (speed (dis_name shardInfo)) w ;;
      match r with
      | inl _ => Ret (w, Job shardInfo Erasing, [])
      | inr e => Ret (w, Job shardInfo Finished, [e])
      end
  | Erasing =>
      let dk := DeleteShardWithFileNames configDir (w_disk w) [hashedFileNameMap (dis_name shardInfo)] in
      Ret (set_disk w dk, Job shardInfo Finished, [])
  | Finished | Skipped => Ret (w, j, [])
  end.
End Upload.

(** ** Schedules *)

Section Schedule.
Context (job_step : nat -> job -> world -> outcome exit (world * job * list disError)).

(** [sched] names the shard that makes the next step. *)
Fixpoint run_jobs (k : nat) (sched : list nat) (w : world) (js : list job) (errs : list disError) :
    outcome exit (world * list job * list disError) :=
  match sched with
  | [] => Ret (w, js, errs)
  | i :: sched =>
      match js !! i with
      | None => run_jobs (Datatypes.S k) sched w js errs
      | Some j => '(w, j, es) <- job_step k j w ;; run_jobs (Datatypes.S k) sched w (<[i := j]> js) (errs ++ es)
      end
  end.
End Schedule.

Definition is_skipped (j : job) : bool := match j_stage j with Skipped => true | _ => false end.

(** The main goroutine never comes back when a worker has skipped [wg.Done()]
    (Workers). *)
Definition startUploadFileGoroutine_Worker (sched : list nat) (originalFileName : string) (hashedFileNameMap : string -> string)
    (distributedFileArray : list DistributedFile) (loadBalancer : LoadBalancerType)
    (remotes : list Remote) (about : Remote -> option Z) (order : list Remote -> list Remote) (speed : string -> F) : M unit :=
  fun w =>
    '(w, js, errs) <- run_jobs (upload_step originalFileName hashedFileNameMap loadBalancer remotes about order speed) 0 sched w
      (map (fun shardInfo => Job shardInfo Allocating) distributedFileArray) [] ;;
    if existsb is_skipped js then Timeout
    else match errs with
         | [] => Ret (w, inl tt)
         | _ => Ret (w, inr (Transfers errs))
         end.

(** One goroutine for every shard; after an error of the allocation it returns.
    No command calls it. *)
Definition startUploadFileGoroutine (sched : list nat) (originalFileName : string) (hashedFileNameMap : string -> string)
    (distributedFileArray : list DistributedFile) (loadBalancer : LoadBalancerType)
    (remotes : list Remote) (about : Remote -> option Z) (order : list Remote -> list Remote) (speed : string -> F) : M unit :=
  fun w =>
    '(w, _, errs) <- run_jobs (upload_step originalFileName hashedFileNameMap loadBalancer remotes about order speed) 0 sched w
      (map (fun shardInfo => Job shardInfo Allocating) distributedFileArray) [] ;;
    match errs with
    | [] => Ret (w, inl tt)
    | _ => Ret (w, inr (Transfers errs))
    end.

(** ** Download *)

Definition updateRemoteInfo_Down (originalFileName : string) (shardInfo : DistributedFile) (throughputKbps : F) : M unit :=
  let! _ := on_datamap (fun dm => UpdateDistributedFile_CheckFlag dm originalFileName (dis_name shardInfo) true) in
  on_balancer (fun b =>
    f <- UpdateRemoteInfo (lb_file b) (dis_remote shardInfo) (fun i => UpdateThroughput i throughputKbps Download) ;;
    Ret (Balancer f (bestRemote_save b), tt)).

(** [downloadFile]: the copy, then the renaming and the record *)
Definition download_step (originalFileName : string) (speed : string -> F) (k : nat) (j : job) :
    world -> outcome exit (world * job * list disError) := fun w =>
  let fileInfo := j_shard j in
  match j_stage j with
  | Copying =>
      match CalculateHash hash (dis_name fileInfo) with
      | Ret hashedFileName =>
          '(w, r) <- remoteCallCopyforDown (Name (dis_remote fileInfo)) remoteDirectory hashedFileName (GetShardDir configDir) w ;;
          match r with
          | inr e => Ret (w, Job fileInfo Finished, [e; e])
          | inl _ =>
              match open (w_disk w) (GetShardDir configDir, hashedFileName) with
              | None => Ret (w, Job fileInfo Finished, [StatFailed; StatFailed])
              | Some _ =>
                  match ConvertFileNameForDo configDir (w_disk w) hashedFileName (dis_name fileInfo) with
                  | Ret dk => Ret (set_disk w dk, Job fileInfo Recording, [])
                  | Err e => Ret (w, Job fileInfo Finished, [e])
                  | Panic => Panic
                  | Timeout => Timeout
                  end
              end
          end
      | Err e => Ret (w, Job fileInfo Finished, [e; e])
      | Panic => Panic
      | Timeout => Timeout
      end
  | Recording =>
      '(w, r) <- updateRemoteInfo_Down originalFileName fileInfo (speed (dis_name fileInfo)) w ;;
      match r with
      | inl _ => Ret (w, Job fileInfo Finished, [])
      | inr e => Ret (w, Job fileInfo Finished, [e])
      end
  | _ => Ret (w, j, [])
  end.

(** The errors are collected and dropped. *)
Definition startDownloadFileGoroutine_Worker (sched : list nat) (distributedFileInfos : list DistributedFile)
    (originalFileName : string) (speed : string -> F) : M unit := fun w =>
  '(w, _, _) <- run_jobs (download_step originalFileName speed) 0 sched w
    (map (fun fileInfo => Job fileInfo Copying) distributedFileInfos) [] ;;
  Ret (w, inl tt).

(** ** Removal *)

Definition on_remote (info : DistributedFile) : bool := negb (bool_decide (Remote_String (dis_remote info) = "|")).

(** The goroutine of a shard that is on a remote: the deletion, then the flag *)
Definition rm_step (originalFileName : string) (k : nat) (j : job) : world -> outcome exit (world * job * list disError) := fun w =>
  let info := j_shard j in
  match j_stage j with
  | Copying =>
      (* after an error the name is empty *)
      let '(hashedFileName, es) :=
        match CalculateHash hash (dis_name info) with Ret h => (h, []) | Err e => (EmptyString, [e]) | _ => (EmptyString, []) end in
      '(w, r) <- remoteCallDeleteFile (Name (dis_remote info)) remoteDirectory hashedFileName w ;;
      Ret (w, Job info Recording, es ++ match r with inl _ => [] | inr e => [e] end)
  | Recording =>
      '(w, r) <- on_datamap (fun dm => UpdateDistributedFile_CheckFlag dm originalFileName (dis_name info) true) w ;;
      Ret (w, Job info Finished, match r with inl _ => [] | inr e => [e] end)
  | _ => Ret (w, j, [])
  end.

(** A shard without a remote is only checked, by the main goroutine, which
    touches no shard of the others; an error of that is printed. *)
Fixpoint check_unplaced (originalFileName : string) (distributedFileArray : list DistributedFile) : M unit :=
  match distributedFileArray with
  | [] => ret tt
  | info :: rest =>
      if on_remote info then check_unplaced originalFileName rest
      else
        let! _ := tryM (on_datamap (fun dm => UpdateDistributedFile_CheckFlag dm originalFileName (dis_name info) true)) in
        check_unplaced originalFileName rest
  end.

(** [sched] is the order of the steps of the goroutines; the channel of errors
    has room for one error of every shard. *)
Definition startRmFileGoroutine (sched : list nat) (originalFileName : string) (distributedFileArray : list DistributedFile) :
    M unit :=
  let! _ := check_unplaced originalFileName distributedFileArray in
  fun w =>
    '(w, _, errs) <- run_jobs (rm_step originalFileName) 0 sched w
      (map (fun info => Job info Copying) (List.filter on_remote distributedFileArray)) [] ;;
    if length distributedFileArray <? length errs then Timeout
    else match errs with
         | [] => Ret (w, inl tt)
         | _ => Ret (w, inr (Transfers errs))
         end.
End Transfer.
Arguments world : clear implicits.
Arguments M : clear implicits.
