(* ===== verification/Password.v ===== *)
(** * Passwords (src/fs/dis_operations/dis_password.go)

    The password of the shards is made once and kept in a file; the password of
    the user protects the whole directory of rclone when the program is closed.
    The cipher of package filecrypt is a parameter: it writes a file with the
    extension [.fcef] next to the file it encrypts, and the file without the
    extension when it decrypts. *)
From Stdlib Require Import Ascii.
From stdpp Require Import base gmap strings list.
From S2P Require Import Prelude RSTypes Codec FileCodec Datamap.
Import ListNotations.
Local Open Scope go_scope.

(** [string(data)] and [[]byte(s)] *)
Definition string_of_bytes (l : list N) : string := String.string_of_list_ascii (map ascii_of_N l).
Definition bytes_of_string (s : string) : list N := map N_of_ascii (String.list_ascii_of_string s).

Section Password.
(** The directory of rclone's configuration *)
Context (configDir : string).

(** [randomPassword] is what [generateRandomPassword(16)] gives, or its error. *)
Definition tryGetPassword (randomPassword : option string) (dk : disk) : disk * string :=
  let filePath : path := (configDir, "password.txt") in
  match open dk filePath with
  | Some data => (dk, string_of_bytes data)
  | None =>
      match randomPassword with
      | None => (mkdir dk configDir, EmptyString)
      | Some pw => (put_file (mkdir dk configDir) filePath (bytes_of_string pw), pw)
      end
  end.

Definition GetUserPassword (dk : disk) : string :=
  match open dk (configDir, "user_password.txt") with
  | Some data => string_of_bytes data
  | None => EmptyString
  end.

Definition DoesUserPasswordExist (dk : disk) : bool :=
  existsb (fun name => match open dk (configDir, name) with Some (_ :: _) => true | _ => false end)
    ["user_password.txt"; "user_password.txt.fcef"].

Definition SaveUserPassword (newPassword : string) (dk : disk) : outcome disError disk :=
  let filePath : path := (configDir, "user_password.txt") in
  match open dk filePath with
  | Some (_ :: _) => Err PasswordExists
  | _ => Ret (put_file (mkdir dk configDir) filePath (bytes_of_string newPassword))
  end.

(** ** The whole directory *)

Context (encrypt : nat -> string -> list N -> list N) (decrypt : string -> list N -> option (list N)).
(** The files below the directory, in the order of [filepath.Walk] *)
Context (walk : disk -> list path).

Definition add_ext (p : path) : path := (fst p, snd p +:+ fileCryptExtension).

(** The name without the extension, when it has it *)
Fixpoint strip_ext (s : string) : option string :=
  if String.eqb s fileCryptExtension then Some EmptyString
  else match s with
       | EmptyString => None
       | String c s => option_map (String c) (strip_ext s)
       end.

Fixpoint contains (sub s : string) : bool :=
  String.prefix sub s || match s with EmptyString => false | String _ s => contains sub s end.

(** [app.Encrypt] on every file; the [i]-th call takes its own randomness. *)
Fixpoint encrypt_files (i : nat) (user_password : string) (l : list path) (dk : disk) : option disk :=
  match l with
  | [] => Some dk
  | p :: l =>
      match open dk p with
      | None => None
      | Some c => encrypt_files (S i) user_password l (put_file dk (add_ext p) (encrypt i user_password c))
      end
  end.

Definition remove_files (l : list path) (dk : disk) : disk := fold_left remove l dk.

(** Every file of the walk can be opened, so the [None] of a failure is not reached. *)
Definition EncryptAllFilesInPath (user_password : string) (dk : disk) : option disk :=
  let originalFiles := walk dk in
  option_map (remove_files originalFiles) (encrypt_files 0 user_password originalFiles dk).

(** The first pass: the files that were decrypted, and whether the password of
    the user is the one in the file; an error stops it. *)
Fixpoint decrypt_files (user_password : string) (l : list path) (dk : disk) (decrypted : list path) (verified : bool) :
    disk * option (list path * bool) :=
  match l with
  | [] => (dk, Some (decrypted, verified))
  | p :: l =>
      match strip_ext (snd p) with
      | None => decrypt_files user_password l dk decrypted verified
      | Some name =>
          match open dk p with
          | None => (dk, None)
          | Some c =>
              match decrypt user_password c with
              | None => (dk, None)
              | Some plain =>
                  let q : path := (fst p, name) in
                  let dk := put_file dk q plain in
                  let verified := verified ||
                    (contains "user_password" (snd p) && String.eqb user_password (GetUserPassword dk)) in
                  decrypt_files user_password l dk (decrypted ++ [q]) verified
              end
          end
      end
  end.

Definition encrypted_files (l : list path) : list path := List.filter (fun p => bool_decide (is_Some (strip_ext (snd p)))) l.

(** The disk and the error *)
Definition DecryptAllFilesInPath (user_password : string) (dk : disk) : disk * option disError :=
  let l := walk dk in
  match decrypt_files user_password l dk [] false with
  | (dk, None) => (dk, Some WrongPassword)
  | (dk, Some (_, true)) => (remove_files (encrypted_files l) dk, None)
  | (dk, Some (decryptedFiles, false)) => (remove_files decryptedFiles dk, Some WrongPassword)
  end.
End Password.
