(* ===== verification/Operations.v ===== *)
(** * The commands on distributed files (dis_upload.go, dis_download.go, dis_rm.go,
    dis_status.go of src/fs/dis_operations and src/cmd/dis_upload, dis_download,
    dis_rm, dis_ls)

    Paths are clean: no [.], no [..] and no slash at the end. *)
From Stdlib Require Import Ascii.
From stdpp Require Import base gmap strings list.
From S2P Require Import Prelude RSTypes Options Codec Stream FileCodec Command Datamap LoadBalance Transfer Password.
Import ListNotations.
Local Open Scope go_scope.

(** ** Paths *)

(** The directory and the name, cut at the last slash *)
Fixpoint last_slash (s : string) : option path :=
  match s with
  | EmptyString => None
  | String c s =>
      match last_slash s with
      | Some (d, b) => Some (String c d, b)
      | None => if Ascii.eqb c "/"%char then Some (EmptyString, s) else None
      end
  end.

Definition split_path (s : string) : path := match last_slash s with Some p => p | None => (EmptyString, s) end.

(** [filepath.Base] *)
Definition Base (s : string) : string := snd (split_path s).

Definition IsAbs (s : string) : bool := match s with String c _ => Ascii.eqb c "/"%char | EmptyString => false end.

Section Operations.
Context {F S : Type} `{Float64 F} `{MapRange} `{RemoteStore S}.
Context (cpu : machine) (stream_sched : schedule) (ci : ConfigInfo) (cwd configDir : string).
Context (sha256 : list N -> string) (hash : string -> string).
Context (encrypt : nat -> string -> list N -> list N) (decrypt : string -> list N -> option (list N)) (reuse : nat -> bool).
Context (remotes : list Remote) (about : Remote -> option Z) (order : list Remote -> list Remote).
(** The speeds that are measured, the order of the steps of the goroutines, and
    the random numbers of a run *)
Context (speed : string -> F) (sched : list nat) (randomPassword : option string) (rnd : nat).
(** The answers to the questions that are asked *)
Context (DoRemove : bool) (AskDestination : string).

Local Abbreviation M := (M F S).
Local Notation "'let!' x ':=' c 'in' k" := (bindM c (fun x => k)) (at level 200, x pattern, right associativity).

Definition getAbsolutePath (arg : string) : string := if IsAbs arg then arg else cwd +:+ "/" +:+ arg.

Definition dis_init (arg : string) : M path := fun w =>
  let absolutePath := split_path (getAbsolutePath arg) in
  match open (w_disk w) absolutePath with
  | Some _ => Ret (w, inl absolutePath)
  | None => Ret (w, inr StatFailed)
  end.

Definition tryGetPasswordM : M string := fun w =>
  let '(dk, pw) := tryGetPassword configDir randomPassword (w_disk w) in Ret (set_disk w dk, inl pw).

(** ** Removal *)

Definition Dis_rm (arg : list string) (reSignal : bool) : M unit :=
  let! originalFileName := lift (fun _ => idx arg 0) in
  let! _ := lift (fun w => GetFileInfoStruct (w_datamap w) originalFileName) in
  let! distributedFileArray :=
    (if reSignal then lift (fun w => GetUncompletedFileInfo 0 (w_datamap w) originalFileName)
     else
       let! _ := on_datamap (fun dm => UpdateFileFlag dm originalFileName "rm") in
       lift (fun w => GetDistributedFileStruct 0 (w_datamap w) originalFileName)) in
  let! _ := startRmFileGoroutine ci hash sched originalFileName distributedFileArray in
  let! _ := on_datamap (fun dm => ResetCheckFlag dm originalFileName) in
  on_datamap (fun dm => RemoveFileFromMetadata dm originalFileName).

(** ** Upload *)

(** Rename the shards to their hashes; the errors are collected. *)
Fixpoint createHashNames (distributedFileArray : list DistributedFile) : M (gmap string string * list disError) :=
  match distributedFileArray with
  | [] => ret (∅, [])
  | DFile :: rest => fun w =>
      match ConvertFileNameForUP hash configDir (w_disk w) (dis_name DFile) with
      | Ret (dk, hashedFileName) =>
          (let! (m, errs) := createHashNames rest in ret (<[dis_name DFile := hashedFileName]> m, errs)) (set_disk w dk)
      | Err e => (let! (m, errs) := createHashNames rest in ret (m, e :: errs)) w
      | Panic => Panic
      | Timeout => Timeout
      end
  end.

Definition DoEncodeM (absolutePath : path) (password : string) : M encoded := fun w =>
  '(dk, flags, e) <- DoEncode cpu stream_sched configDir sha256 encrypt (w_flags w) (w_disk w) rnd absolutePath password ;;
  Ret (set_flags (set_disk w dk) flags, inl e).

(** The distributed files, without a remote yet *)
Fixpoint distributed_infos (dis_names : list path) (checksums : list string) : outcome disError (list DistributedFile) :=
  match dis_names with
  | [] => Ret []
  | source :: dis_names =>
      match checksums with
      | [] => Panic
      | checksum :: checksums =>
          distributionFile <- GetDistributedInfo (snd source) no_remote checksum ;;
          rest <- distributed_infos dis_names checksums ;;
          Ret (distributionFile :: rest)
      end
  end.

Definition prepareUpload (absolutePath : path) : M (gmap string string * list DistributedFile) :=
  let! password := tryGetPasswordM in
  let! e := DoEncodeM absolutePath password in
  let! _ := MakeDistributionDir ci remotes in
  let! distributedFileInfos := lift (fun _ => distributed_infos (e_paths e) (e_checksums e)) in
  let! (hashNameMap, errs) := createHashNames distributedFileInfos in
  match errs with
  | [] =>
      let! _ := fun w => on_datamap (fun dm =>
        MakeDataMap sha256 (w_disk w) dm absolutePath distributedFileInfos (e_sizePerShard e) (e_padding e)
          (e_dataShards e) (e_parShards e)) w in
      ret (hashNameMap, distributedFileInfos)
  | _ => throw (Transfers errs)
  end.

(** The shards that are not checked yet, and their hashes *)
Definition unchecked_shards (ds : list DistributedFile) : list DistributedFile := List.filter (fun d => negb (dis_check d)) ds.

Definition hashed_names (ds : list DistributedFile) : gmap string string :=
  fold_left (fun m d => <[dis_name d := hash (dis_name d)]> m) ds ∅.

Definition Dis_Upload (args : list string) (reSignal : bool) (loadBalancer : LoadBalancerType) : M unit :=
  let! arg0 := lift (fun _ => idx args 0) in
  let! absolutePath := dis_init arg0 in
  let originalFileName := Base arg0 in
  let! (hashedNamesMap, distributedFileArray) :=
    (if reSignal then
       let! tempDistributedFileArray := lift (fun w => GetDistributedFileStruct 1 (w_datamap w) originalFileName) in
       let ds := unchecked_shards tempDistributedFileArray in
       ret (hashed_names ds, ds)
     else
       let! isDuplicate := lift (fun w => DoesFileStructExist (w_datamap w) originalFileName) in
       let! _ := (if isDuplicate : bool then Dis_rm args false else ret tt) in
       prepareUpload absolutePath) in
  let! _ := startUploadFileGoroutine_Worker ci configDir sched originalFileName
    (fun name => default EmptyString (hashedNamesMap !! name)) distributedFileArray loadBalancer remotes about order speed in
  let! _ := dis_init arg0 in
  on_datamap (fun dm => ResetCheckFlag dm originalFileName).

(** ** Download *)

Definition DoDecodeM (fname outfn : string) (padding : Z) (confChecksums : gmap string string)
    (downloadshard downloadparity : Z) (password : string) : M unit := fun w =>
  '(dk, err) <- DoDecode cpu stream_sched configDir sha256 decrypt reuse (w_disk w) fname outfn padding confChecksums
    downloadshard downloadparity password ;;
  Ret (set_disk w dk, match err with None => inl tt | Some e => inr (DecodeFailed e) end).

Definition Dis_Download (args : list string) (reSignal : bool) : M unit :=
  let! arg0 := lift (fun _ => idx args 0) in
  let originalFileName := Base arg0 in
  let! _ := lift (fun w => GetFileInfoStruct (w_datamap w) originalFileName) in
  let! distributedFileInfos :=
    (if reSignal then lift (fun w => GetUncompletedFileInfo 2 (w_datamap w) originalFileName)
     else
       let! _ := on_datamap (fun dm => UpdateFileFlag dm originalFileName "download") in
       lift (fun w => GetDistributedFileStruct 2 (w_datamap w) originalFileName)) in
  let! _ := startDownloadFileGoroutine_Worker ci configDir hash sched distributedFileInfos originalFileName speed in
  let! arg1 := lift (fun _ => idx args 1) in
  let absolutePath := getAbsolutePath arg1 in
  let! fileInfo := lift (fun w => GetFileInfoStruct (w_datamap w) originalFileName) in
  let checksums := fold_left (fun m d => <[dis_name d := dis_checksum d]> m) distributedFileInfos ∅ in
  let! password := tryGetPasswordM in
  let! res := tryM (DoDecodeM originalFileName absolutePath (Padding fileInfo) checksums (Shard fileInfo) (Parity fileInfo) password) in
  match res with
  | inr _ => if DoRemove then Dis_rm [originalFileName] false else ret tt
  | inl _ =>
      let! _ := on_datamap (fun dm => ResetCheckFlag dm arg0) in
      on_disk (fun dk => DeleteShardWithFileNames configDir dk (map dis_name distributedFileInfos))
  end.

(** ** Unfinished work (dis_status.go) *)

Definition DumpUploadShards (args : list string) : M unit :=
  let! name := lift (fun _ => idx args 0) in
  let! distributedFiles := lift (fun w => GetDistributedFileStruct 3 (w_datamap w) name) in
  let shardsToDump := map (fun d => hash (dis_name d)) (unchecked_shards distributedFiles) in
  on_disk (fun dk => DeleteShardWithFileNames configDir dk shardsToDump).

Definition DumpDownloadShards (args : list string) : M unit :=
  let! name := lift (fun _ => idx args 0) in
  let! distributedFiles := lift (fun w => GetDistributedFileStruct 3 (w_datamap w) name) in
  let shardsToDump := map dis_name (unchecked_shards distributedFiles) in
  on_disk (fun dk => DeleteShardWithFileNames configDir dk shardsToDump).

Definition DumpRmState (args : list string) : M unit := Dis_rm args true.

Definition DumpDownloadState (args : list string) : M unit :=
  let! _ := DumpDownloadShards args in
  let! name := lift (fun _ => idx args 0) in
  on_datamap (fun dm => ResetCheckFlag dm name).

Definition DumpUploadState (args : list string) : M unit :=
  let! _ := DumpUploadShards args in
  Dis_rm args false.

Definition checkSameCommand (action reaction : string) (args1 args2 : list string) : bool :=
  bool_decide (action = reaction) && bool_decide (args1 = args2).

(** The boolean and the error; the callers look at the error first. *)
Definition CheckState (action : string) (args : list string) (loadbalancer : LoadBalancerType) : M bool := fun w =>
  let '(flag, state, origin_name) := CheckFlagAndState 4 (w_datamap w) in
  (if negb flag then ret false
   else
     let answer := false in
     if decide (state = "upload") then
       if answer : bool then let! _ := Dis_Upload [origin_name] true loadbalancer in ret false
       else let! _ := DumpUploadState [origin_name] in ret false
     else if decide (state = "download") then
       if answer : bool then
         let redownloadArgs := [origin_name; AskDestination] in
         let! _ := Dis_Download redownloadArgs true in ret (checkSameCommand action "download" args redownloadArgs)
       else let! _ := DumpDownloadState [origin_name] in ret false
     else if decide (state = "rm") then
       let reremoveArgs := [origin_name] in
       let! _ := DumpRmState [origin_name] in ret (checkSameCommand action "remove" args reremoveArgs)
     else ret false) w.

(** ** The commands *)

(** An error made by [fmt.Errorf] *)
Definition plain_error : goError := {|
  is_DirNotFound := false; is_ObjectNotFound := false; is_MaxTransferLimitReached := false; is_MaxDurationReached := false;
  is_Usage := false; ShouldRetry := false; IsNoRetryError := false; IsNoLowLevelRetryError := false; IsFatalError := false;
  RetryAfterErrorTime := None; IsCounted := false |}.

Definition command_body (c : M unit) (s : StatsInfo) (w : world F S) : outcome exit (StatsInfo * world F S * option goError) :=
  '(w, r) <- c (set_stats_store w s (w_store w)) ;;
  Ret (w_stats w, w, match r with inl _ => None | inr _ => Some plain_error end).

Definition run_command (c : M unit) (w : world F S) : outcome exit (StatsInfo * world F S) :=
  Run ci true (command_body c) (w_stats w) w.

Definition upload_body (loadBalancer : LoadBalancerType) (args : list string) : M unit :=
  if negb (IsValid loadBalancer) then throw BadBalancer
  else
    let! _ := CheckState "upload" args loadBalancer in
    Dis_Upload args false loadBalancer.

Definition download_body (args : list string) : M unit :=
  let! sameCommand := CheckState "download" args NoBalancer in
  if sameCommand : bool then ret tt else Dis_Download args false.

Definition rm_body (args : list string) : M unit :=
  let! sameCommand := CheckState "remove" args NoBalancer in
  if sameCommand : bool then ret tt else Dis_rm args false.

Definition ls_body : M (list string) := lift (fun w => Dis_ls 5 (w_datamap w)).

Definition dis_upload (loadBalancer : LoadBalancerType) (args : list string) (w : world F S) :
    outcome exit (StatsInfo * world F S) :=
  _ <- CheckArgs 1 1 (length args) ;; run_command (upload_body loadBalancer args) w.

Definition dis_download (args : list string) (w : world F S) : outcome exit (StatsInfo * world F S) :=
  _ <- CheckArgs 2 2 (length args) ;; run_command (download_body args) w.

Definition dis_rm (args : list string) (w : world F S) : outcome exit (StatsInfo * world F S) :=
  _ <- CheckArgs 1 1 (length args) ;; run_command (rm_body args) w.
End Operations.
