(* ===== verification/TransferCorrect.v ===== *)
(** * Transfers of shards are correct in every schedule

    Remotes that do what they are asked ([GoodStore]), invariants of schedules, the
    commands and the JSON files under them, and the invariant of an upload; the shards
    that are still on their remotes arrive under their names. *)
From stdpp Require Import base gmap strings list.
From S2P Require Import Prelude RSTypes Codec FileCodec FileCodecCorrect FileTheorems Command Datamap DatamapTheorems.
From S2P Require Import LoadBalance LoadBalanceTheorems Transfer.
Import ListNotations.
Local Open Scope go_scope.

(** ** Uploads *)

(** ** Remotes that do what they are asked *)

Class GoodStore (S : Type) `{RemoteStore S} : Type := {
  object : S -> string -> string -> string -> option (list N);
  put_ok : forall st r d f c, exists st', put st r d f c = (st', None) /\
    forall r' d' f', object st' r' d' f' = if decide ((r', d', f') = (r, d, f)) then Some c else object st r' d' f';
  find_ok : forall st r d f, find_object st r d f = bool_decide (is_Some (object st r d f));
  fetch_ok : forall st r d f c, object st r d f = Some c -> exists st', fetch st r d f = (st', inl c) /\
    forall r' d' f', object st' r' d' f' = object st r' d' f';
  delete_ok : forall st r d f, is_Some (object st r d f) -> exists st', delete_object st r d f = (st', None) /\
    forall r' d' f', object st' r' d' f' = if decide ((r', d', f') = (r, d, f)) then None else object st r' d' f';
  make_dir_ok : forall st r d, exists st', make_dir st r d = (st', None) /\
    forall r' d' f', object st' r' d' f' = object st r' d' f'
}.

(** ** Schedules *)

Section Runs.
Context {F S : Type} `{Float64 F} `{MapRange} `{RemoteStore S}.
Context (job_step : nat -> job -> world F S -> outcome exit (world F S * job * list disError)).
Context (I : world F S -> list job -> Prop) (rank : job -> nat) (top : nat) (quiet : list disError -> Prop).

(** How often a shard is named *)
Definition turns (i : nat) (sched : list nat) : nat := length (List.filter (Nat.eqb i) sched).

(** A run ends the process, or the steps keep the invariant and let the shards advance. *)
Lemma run_jobs_or (ends : Prop) :
  quiet [] -> (forall e1 e2, quiet e1 -> quiet e2 -> quiet (e1 ++ e2)) ->
  (forall k i j w js, I w js -> js !! i = Some j -> ends /\ (exists x, job_step k j w = Err x) \/
    exists w' j' es, job_step k j w = Ret (w', j', es) /\ quiet es /\ I w' (<[i := j']> js) /\ Nat.min top (Datatypes.S (rank j)) <= rank j') ->
  forall sched k w js errs, I w js -> quiet errs ->
  ends /\ (exists x, run_jobs job_step k sched w js errs = Err x) \/
  exists w' js' errs', run_jobs job_step k sched w js errs = Ret (w', js', errs') /\ quiet errs' /\ I w' js' /\
    length js' = length js /\
    forall i j, js !! i = Some j -> exists j', js' !! i = Some j' /\ Nat.min top (rank j + turns i sched) <= rank j'.
Proof.
  intros Hq0 Hqa Hstep sched. induction sched as [|i sched IH]; intros k w js errs HI Hq; cbn [run_jobs].
  - right. exists w, js, errs. splits; auto. intros i j Hj. exists j. split; [auto |]. unfold turns. cbn. lia.
  - destruct (js !! i) as [j|] eqn:Ei.
    + destruct (Hstep k i j w js HI Ei) as [(Hends & x & E)|(w1 & j1 & es & E & Hes & HI1 & Hr)]; rewrite E; cbn [bind]; [left; split; eauto |].
      destruct (IH (Datatypes.S k) w1 (<[i := j1]> js) (errs ++ es) HI1) as [Hx|(w' & js' & errs' & E' & Hq' & HI' & Hl & Hr')]; [auto | left; exact Hx | right].
      exists w', js', errs'. rewrite length_insert in Hl. splits; auto. intros i' j' Hj'.
      unfold turns. cbn [List.filter]. destruct (Nat.eqb_spec i' i) as [->|Hne].
      * destruct (Hr' i j1) as (j2 & Hj2 & Hr2); [apply list_lookup_insert_eq; eauto using lookup_lt_Some |].
        exists j2. split; [auto |]. rewrite Ei in Hj'. injection Hj' as <-. unfold turns in Hr2. cbn [length]. lia.
      * apply (Hr' i' j'). now rewrite list_lookup_insert_ne.
    + destruct (IH (Datatypes.S k) w js errs HI Hq) as [Hx|(w' & js' & errs' & E' & Hq' & HI' & Hl & Hr')]; [left; exact Hx | right].
      exists w', js', errs'. splits; auto. intros i' j' Hj'.
      unfold turns. cbn [List.filter]. destruct (Nat.eqb_spec i' i) as [->|Hne]; [congruence |]. now apply Hr'.
Qed.

Lemma run_jobs_inv :
  quiet [] -> (forall e1 e2, quiet e1 -> quiet e2 -> quiet (e1 ++ e2)) ->
  (forall k i j w js, I w js -> js !! i = Some j ->
    exists w' j' es, job_step k j w = Ret (w', j', es) /\ quiet es /\ I w' (<[i := j']> js) /\ Nat.min top (Datatypes.S (rank j)) <= rank j') ->
  forall sched k w js errs, I w js -> quiet errs ->
  exists w' js' errs', run_jobs job_step k sched w js errs = Ret (w', js', errs') /\ quiet errs' /\ I w' js' /\
    length js' = length js /\
    forall i j, js !! i = Some j -> exists j', js' !! i = Some j' /\ Nat.min top (rank j + turns i sched) <= rank j'.
Proof.
  intros Hq0 Hqa Hstep sched k w js errs HI Hq. destruct (run_jobs_or False Hq0 Hqa) with (sched := sched) (k := k) (w := w) (js := js) (errs := errs) as [[[] _]|H']; auto.
Qed.
End Runs.

(** ** Commands on such remotes *)

Section Commands.
Context {F S : Type} `{Float64 F} `{MapRange} `{GoodStore S}.
Context (ci : ConfigInfo) (Hci : (1 <= Retries ci)%Z).

Lemma remote_command_ok (f : StatsInfo -> S -> outcome exit (StatsInfo * S * option goError)) (w : world F S) st' :
  clean (w_stats w) -> (forall s, f s (w_store w) = Ret (s, st', None)) ->
  remote_command ci true f w = Ret (set_stats_store w (w_stats w) st', inl tt).
Proof.
  intros Hc Hf. unfold remote_command. rewrite (run_succeeds ci f (w_store w) st') by auto. reflexivity.
Qed.

Lemma copy_up_ok (w : world F S) source c remote dir : clean (w_stats w) -> open (w_disk w) source = Some c ->
  exists st', remoteCallCopy ci source remote dir w = Ret (set_stats_store w (w_stats w) st', inl tt) /\
    forall r' d' f', object st' r' d' f' = if decide ((r', d', f') = (remote, dir, snd source)) then Some c else object (w_store w) r' d' f'.
Proof.
  intros Hc Hs. unfold remoteCallCopy. rewrite Hs. destruct (put_ok (w_store w) remote dir (snd source) c) as (st' & E & Hst).
  exists st'. split; [| exact Hst]. apply remote_command_ok; [auto |]. intros s. unfold copy_up. now rewrite E.
Qed.

Lemma copy_down_ok (w : world F S) remote dir file localDir : clean (w_stats w) ->
  exists st', remoteCallCopyforDown ci remote dir file localDir w =
      Ret (set_disk (set_stats_store w (w_stats w) st')
             match object (w_store w) remote dir file with Some c => put_file (w_disk w) (localDir, file) c | None => w_disk w end, inl tt) /\
    forall r' d' f', object st' r' d' f' = object (w_store w) r' d' f'.
Proof.
  intros Hc. unfold remoteCallCopyforDown. rewrite find_ok.
  destruct (object (w_store w) remote dir file) as [c|] eqn:Eo.
  - rewrite bool_decide_true by eauto. destruct (fetch_ok (w_store w) remote dir file c Eo) as (st' & E & Hst). exists st'. split; [| exact Hst].
    rewrite (run_succeeds ci _ (w_store w, w_disk w) (st', put_file (w_disk w) (localDir, file) c)); auto.
    intros s. unfold copy_down. now rewrite E.
  - rewrite bool_decide_false by (now intros [? ?]). exists (w_store w). split; [| auto].
    now rewrite (run_succeeds ci _ (w_store w, w_disk w) (w_store w, w_disk w)).
Qed.

Lemma delete_file_ok (w : world F S) remote dir file : clean (w_stats w) ->
  exists st', remoteCallDeleteFile ci remote dir file w = Ret (set_stats_store w (w_stats w) st', inl tt) /\
    forall r' d' f', object st' r' d' f' = if decide ((r', d', f') = (remote, dir, file)) then None else object (w_store w) r' d' f'.
Proof.
  intros Hc. unfold remoteCallDeleteFile. destruct (decide (is_Some (object (w_store w) remote dir file))) as [Hs|Hn].
  - destruct (delete_ok (w_store w) remote dir file Hs) as (st' & E & Hst). exists st'. split; [| exact Hst].
    apply remote_command_ok; [auto |]. intros s. unfold delete_file. now rewrite find_ok, bool_decide_true, E.
  - exists (w_store w). split.
    + apply remote_command_ok; [auto |]. intros s. unfold delete_file. now rewrite find_ok, bool_decide_false.
    + intros r' d' f'. case_decide as E; [| auto]. injection E as -> -> ->. destruct (object (w_store w) remote dir file); [| auto].
      destruct Hn. eauto.
Qed.
End Commands.

(** ** The two JSON files *)

Section Files.
Context {F : Type} `{GoodFloat64 F}.

Lemma finite_infos (infos : gmap string (RemoteInfo F)) :
  forallb (fun ki => finite_info (snd ki)) (map_to_list infos) = true <-> map_Forall (fun _ i => finite_info i = true) infos.
Proof.
  rewrite map_Forall_to_list, forallb_forall, Forall_forall. split; intros Hx [k i] Hin; apply list_elem_of_In in Hin || apply list_elem_of_In; now apply (Hx (k, i)).
Qed.

Lemma finite_push h (s : F) : forallb finite h = true -> finite s = true ->
  forallb finite (push_speed h s) = true /\ finite (maxSpeed (push_speed h s)) = true.
Proof.
  intros Hh Hs. assert (Hp : forallb finite (push_speed h s) = true).
  { rewrite push_speed_last. unfold last_n. apply forallb_forall. intros x Hx.
    assert (Hin : In x (h ++ [s])) by (rewrite <- (take_drop (length (h ++ [s]) - maxEntries) (h ++ [s])); apply in_or_app; now right).
    apply in_app_or in Hin as [Hin|[<-|[]]]; [| auto]. rewrite forallb_forall in Hh. now apply Hh. }
  split; [auto |]. rewrite forallb_forall in Hp. apply Hp, maxSpeed_spec.
  rewrite push_speed_last. intros E. apply (f_equal length) in E. rewrite length_last_n, length_app in E. cbn [length] in E. unfold maxEntries in E. lia.
Qed.

Lemma finite_update i (s : F) t : finite_info i = true -> finite s = true -> finite_info (UpdateThroughput i s t) = true.
Proof.
  unfold finite_info. rewrite !andb_true_iff. intros (((H1 & H2) & H3) & H4) Hs.
  destruct t; cbn [UpdateThroughput UpThroughputHistory AvgUpThroughput DownThroughputHistory AvgDownThroughput];
    [destruct (finite_push (UpThroughputHistory i) s) | destruct (finite_push (DownThroughputHistory i) s)]; auto.
Qed.

Lemma update_remote_info_ok f c r (s : F) t : lb_ready f c -> finite zero = true -> finite s = true ->
  exists f', UpdateRemoteInfo f r (fun i => UpdateThroughput i s t) = Ret f' /\ lb_ready f' c.
Proof.
  intros [(infos & Ef & Hfin) Hw] Hz Hs. unfold UpdateRemoteInfo, getLoadBalancerJsonFilePath, getLoadBalancerInfo, readJSON.
  rewrite Ef. rewrite Ef. cbn [bind getRemoteInfo RoundRobinCounter RemoteInfos]. rewrite insert_insert_eq.
  set (i := match infos !! Remote_String r with Some i => i | None => _ end). rewrite finite_infos in Hfin.
  assert (Hi : finite_info i = true).
  { unfold i. destruct (infos !! Remote_String r) as [i'|] eqn:Ei; [exact (Hfin _ _ Ei) |].
    unfold finite_info. cbn. now rewrite Hz. }
  assert (Hfin' : map_Forall (fun _ i => finite_info i = true) (<[Remote_String r := UpdateThroughput i s t]> infos))
    by (apply map_Forall_insert_2; [now apply finite_update | auto]).
  unfold writeJSON. cbn [RemoteInfos]. rewrite (proj2 (finite_infos _) Hfin'), Hw. cbn [negb].
  eexists. split; [reflexivity |]. split; [| reflexivity]. eexists. split; [reflexivity |]. now apply finite_infos.
Qed.

(** An entry of the map *)
Definition dm_has (dm : datamap) (m : fileMap) : Prop := readJsonFile dm = Ret m /\ writable dm = true.

Lemma dm_update dm m op m' : dm_has dm m -> change (fun _ => EmptyString) (Disk ∅ ∅) m op = Ret m' ->
  exists dm', run_op (fun _ => EmptyString) (Disk ∅ ∅) dm op = Ret dm' /\ dm_has dm' m'.
Proof.
  intros [Hr Hw] Hc. rewrite (run_op_change _ _ dm op m Hr), Hc. cbn [bind]. unfold writeJsonFile. rewrite Hw.
  eexists. split; [reflexivity |]. split; reflexivity.
Qed.

Lemma place_ok dm m fn f n d r : dm_has dm m -> m !! fn = Some f -> DistributedFileInfos f !! n = Some d ->
  exists dm', UpdateDistributedFile_CheckFlagAndRemote dm fn n true r = Ret dm' /\
    dm_has dm' (<[fn := set_infos (<[n := set_remote r (set_check true d)]> (DistributedFileInfos f)) f]> m).
Proof. intros Hdm Hf Hn. apply (dm_update dm m (PlaceShard fn n true r)); [auto |]. cbn. now rewrite Hf, Hn. Qed.

Lemma check_ok dm m fn f n d : dm_has dm m -> m !! fn = Some f -> DistributedFileInfos f !! n = Some d ->
  exists dm', UpdateDistributedFile_CheckFlag dm fn n true = Ret dm' /\
    dm_has dm' (<[fn := set_infos (<[n := set_check true d]> (DistributedFileInfos f)) f]> m).
Proof. intros Hdm Hf Hn. apply (dm_update dm m (CheckShard fn n true)); [auto |]. cbn. now rewrite Hf, Hn. Qed.

Lemma flag_ok dm m fn f state : dm_has dm m -> m !! fn = Some f ->
  exists dm', UpdateFileFlag dm fn state = Ret dm' /\ dm_has dm' (<[fn := set_flag true state f]> m).
Proof. intros Hdm Hf. apply (dm_update dm m (Flagged fn state)); [auto |]. cbn. now rewrite Hf. Qed.

Lemma reset_ok dm m fn f : dm_has dm m -> m !! fn = Some f ->
  exists dm', ResetCheckFlag dm fn = Ret dm' /\
    dm_has dm' (<[fn := set_infos (set_check false <$> DistributedFileInfos f) (set_flag false (State f) f)]> m).
Proof. intros Hdm Hf. apply (dm_update dm m (Reset fn)); [auto |]. cbn. now rewrite Hf. Qed.

Lemma forget_ok dm m fn : dm_has dm m -> exists dm', RemoveFileFromMetadata dm fn = Ret dm' /\ dm_has dm' (delete fn m).
Proof. intros Hdm. now apply (dm_update dm m (Forget fn)). Qed.
End Files.

(** ** Uploading the shards of a file *)

Section Upload.
Context {F S : Type} `{GoodFloat64 F} `{MapRange} `{GoodStore S}.
Context (ci : ConfigInfo) (Hci : (1 <= Retries ci)%Z) (configDir : string).
Context (remotes : list Remote) (about : Remote -> option Z) (order : list Remote -> list Remote) (Hrem : remotes <> []).
Context (speed : string -> F) (Hzero : finite zero = true) (Hspeed : forall n, finite (speed n) = true).
(** The file, the hashes of its shards, their contents, and where all starts *)
Context (fn : string) (hash : string -> string) (cont : string -> list N) (names : list string).
Context (m0 : fileMap) (f0 : FileInfo) (dk0 : disk) (st0 : S).
Context (Hnd : NoDup names) (Hhash : forall n n', n ∈ names -> n' ∈ names -> hash n = hash n' -> n = n').
Context (Hinfos : forall n, n ∈ names -> exists sum, DistributedFileInfos f0 !! n = Some (MkDistributed n no_remote sum false)).
Local Abbreviation shardDir := (GetShardDir configDir).
Local Abbreviation upload_step := (upload_step ci configDir fn hash RoundRobin remotes about order speed).

Definition rank (j : job) : nat :=
  match j_stage j with Allocating => 0 | Copying => 1 | Recording => 2 | Erasing => 3 | Finished => 4 | Skipped => 0 end.

Definition name_of (j : job) : string := dis_name (j_shard j).

(** What holds of one shard *)
Record job_ok (dk : disk) (st : S) (infos : gmap string DistributedFile) (j : job) : Prop := {
  job_stage : j_stage j <> Skipped;
  job_remote : 1 <= rank j -> dis_remote (j_shard j) ∈ remotes;
  job_local : open dk (shardDir, hash (name_of j)) = if rank j =? 4 then None else Some (cont (name_of j));
  job_stored : 2 <= rank j ->
    object st (Name (dis_remote (j_shard j))) remoteDirectory (hash (name_of j)) = Some (cont (name_of j));
  job_info : infos !! name_of j =
    if 3 <=? rank j then set_remote (dis_remote (j_shard j)) <$> (set_check true <$> DistributedFileInfos f0 !! name_of j)
    else DistributedFileInfos f0 !! name_of j
}.

(** The allocations that are left *)
Definition unallocated (js : list job) : nat := length (List.filter (fun j => rank j =? 0) js).

Record upload_inv (w : world F S) (js : list job) : Prop := {
  u_names : name_of <$> js = names;
  u_stats : clean (w_stats w);
  u_lb : exists c, lb_ready (lb_file (w_balancer w)) c /\ (0 <= c)%Z /\ (c + Z.of_nat (unallocated js) < 2 ^ 63)%Z;
  u_dm : exists infos, dm_has (w_datamap w) (<[fn := set_infos infos f0]> m0) /\
    (forall n, n ∉ names -> infos !! n = DistributedFileInfos f0 !! n) /\
    forall i j, js !! i = Some j -> job_ok (w_disk w) (w_store w) infos j;
  u_disk : forall q, (forall n, n ∈ names -> q <> (shardDir, hash n)) -> open (w_disk w) q = open dk0 q;
  u_dirs : dirs (w_disk w) = dirs dk0;
  u_store : forall r d f, (forall n, n ∈ names -> (d, f) <> (remoteDirectory, hash n)) -> object (w_store w) r d f = object st0 r d f
}.

Lemma names_lookup js i j : name_of <$> js = names -> js !! i = Some j -> names !! i = Some (name_of j).
Proof. intros E Hi. rewrite <- E, list_lookup_fmap, Hi. reflexivity. Qed.

(** Another shard has another hash. *)
Lemma other_hash js i i' j j' : name_of <$> js = names -> js !! i = Some j -> js !! i' = Some j' -> i' <> i ->
  name_of j' <> name_of j /\ hash (name_of j') <> hash (name_of j).
Proof.
  intros E Hj Hj' Hne. assert (Hn := names_lookup js i j E Hj). assert (Hn' := names_lookup js i' j' E Hj').
  assert (Hne' : name_of j' <> name_of j).
  { intros En. rewrite En in Hn'. apply Hne. eapply NoDup_lookup; eauto. }
  split; [auto |]. intros Eh. apply Hne', Hhash; eauto using list_elem_of_lookup_2.
Qed.

Lemma names_insert js i j j' : name_of <$> js = names -> js !! i = Some j -> name_of j' = name_of j ->
  name_of <$> <[i := j']> js = names.
Proof.
  intros E Hj En. rewrite list_fmap_insert, En, E. apply list_insert_id. now apply names_lookup with (js := js).
Qed.

Lemma unallocated_insert js i j j' : js !! i = Some j ->
  unallocated (<[i := j']> js) + (if rank j =? 0 then 1 else 0) = unallocated js + (if rank j' =? 0 then 1 else 0).
Proof.
  unfold unallocated. revert i; induction js as [|x js IH]; intros [|i] Hi; simplify_eq/=.
  - destruct (rank j =? 0), (rank j' =? 0); cbn; lia.
  - specialize (IH i Hi). destruct (rank x =? 0); cbn; lia.
Qed.

(** The other shards do not see the step of one of them. *)
Lemma jobs_insert dk dk' st st' infos infos' js i j j' :
  name_of <$> js = names -> js !! i = Some j ->
  (forall i j, js !! i = Some j -> job_ok dk st infos j) ->
  (forall h, h <> hash (name_of j) -> open dk' (shardDir, h) = open dk (shardDir, h)) ->
  (forall r h, h <> hash (name_of j) -> object st' r remoteDirectory h = object st r remoteDirectory h) ->
  (forall n, n <> name_of j -> infos' !! n = infos !! n) ->
  job_ok dk' st' infos' j' ->
  forall i' x, <[i := j']> js !! i' = Some x -> job_ok dk' st' infos' x.
Proof.
  intros En Hj Hall Hdk Hst Hin Hok i' x Hx. rewrite list_lookup_insert_Some in Hx. destruct Hx as [(<- & <- & _)|(Hne & Hx)]; [auto |].
  destruct (other_hash js i i' j x En Hj Hx) as [Hn Hh]; [auto |]. destruct (Hall i' x Hx).
  split; auto; [rewrite Hdk | intros Hr; rewrite Hst | rewrite Hin]; auto.
Qed.

(** One step keeps the invariant and makes the shard advance. *)
Definition advances (k i : nat) (j : job) (w : world F S) (js : list job) : Prop :=
  exists w' j' es, upload_step k j w = Ret (w', j', es) /\ es = [] /\ upload_inv w' (<[i := j']> js) /\
    Nat.min 4 (Datatypes.S (rank j)) <= rank j'.

Lemma allocating_ok k i d w js : upload_inv w js -> js !! i = Some (Job d Allocating) -> advances k i (Job d Allocating) w js.
Proof.
  intros [Hn Hs (c & Hlb & Hc & Hmax) (infos & Hdm & Hout & Hall) Hdisk Hdirs Hstore] Hj.
  destruct (Hall i _ Hj) as [_ _ Hl _ Hi]. cbn in Hl, Hi.
  assert (Hun := unallocated_insert js i _ (Job (set_remote no_remote d) Copying) Hj). cbn in Hun.
  destruct (round_robin_step remotes (lb_file (w_balancer w)) c Hlb Hc) as (f' & E & Hf'); [lia | auto |].
  set (r := nth (Z.to_nat c mod length remotes) remotes no_remote) in *.
  exists (set_balancer w (Balancer f' (bestRemote_save (w_balancer w)))), (Job (set_remote r d) Copying), [].
  split; [cbn [Transfer.upload_step j_stage j_shard]; unfold on_balancer, AllocateRemote; now rewrite E |]. split; [auto |]. split; [| cbn; lia].
  assert (Hrin : r ∈ remotes).
  { apply list_elem_of_In, nth_In, Nat.mod_upper_bound. destruct remotes; [congruence | cbn; lia]. }
  split; cbn [set_balancer w_disk w_datamap w_balancer w_stats w_store lb_file]; auto.
  - eapply names_insert; eauto.
  - exists (c + 1)%Z. splits; auto; [lia |].
    assert (Hun' := unallocated_insert js i _ (Job (set_remote r d) Copying) Hj). cbn in Hun'. lia.
  - exists infos. splits; auto. eapply jobs_insert; eauto. split; cbn; auto; first [discriminate | lia].
Qed.

Lemma copying_ok k i d w js : upload_inv w js -> js !! i = Some (Job d Copying) -> advances k i (Job d Copying) w js.
Proof.
  intros [Hn Hs (c & Hlb & Hc & Hmax) (infos & Hdm & Hout & Hall) Hdisk Hdirs Hstore] Hj.
  destruct (Hall i _ Hj) as [_ Hr Hl _ Hi]. cbn in Hr, Hl, Hi. unfold name_of in *. cbn in Hl, Hi.
  assert (Hin : dis_name d ∈ names) by (eapply list_elem_of_lookup_2, (names_lookup js i (Job d Copying)); eauto).
  assert (Hun := unallocated_insert js i _ (Job d Recording) Hj). cbn in Hun.
  destruct (copy_up_ok ci Hci w (shardDir, hash (dis_name d)) _ (Name (dis_remote d)) remoteDirectory Hs Hl) as (st' & E & Hst').
  exists (set_stats_store w (w_stats w) st'), (Job d Recording), [].
  split; [cbn [Transfer.upload_step j_stage j_shard]; unfold GetShardPath; rewrite Hl, E; reflexivity |]. split; [auto |]. split; [| cbn; lia].
  split; cbn [set_stats_store w_disk w_datamap w_balancer w_stats w_store]; auto.
  - eapply names_insert; eauto.
  - exists c. splits; auto. lia.
  - exists infos. splits; auto. eapply jobs_insert; eauto.
    + intros r h Hh. rewrite Hst', decide_False; [auto |]. intros [= _ E']. auto.
    + split; cbn; auto; try discriminate. intros _. rewrite Hst', decide_True; auto.
  - intros r d' f Hf. rewrite Hst', decide_False; [auto |]. intros [= _ -> ->]. now apply (Hf (dis_name d)).
Qed.

Lemma recording_ok k i d w js : upload_inv w js -> js !! i = Some (Job d Recording) -> advances k i (Job d Recording) w js.
Proof.
  intros [Hn Hs (c & Hlb & Hc & Hmax) (infos & Hdm & Hout & Hall) Hdisk Hdirs Hstore] Hj.
  destruct (Hall i _ Hj) as [_ Hr Hl Hst Hi]. cbn in Hr, Hl, Hst, Hi. unfold name_of in *. cbn in Hl, Hst, Hi.
  assert (Hin : dis_name d ∈ names) by (eapply list_elem_of_lookup_2, (names_lookup js i (Job d Recording)); eauto).
  assert (Hun := unallocated_insert js i _ (Job d Erasing) Hj). cbn in Hun.
  destruct (Hinfos (dis_name d) Hin) as (sum & Es).
  destruct (place_ok (w_datamap w) _ fn (set_infos infos f0) (dis_name d) (MkDistributed (dis_name d) no_remote sum false) (dis_remote d) Hdm)
    as (dm' & Edm & Hdm'); [apply lookup_insert_eq | cbn; congruence |].
  destruct (update_remote_info_ok (lb_file (w_balancer w)) c (dis_remote d) (speed (dis_name d)) Upload Hlb Hzero (Hspeed _)) as (f' & Ef & Hf').
  exists (set_balancer (set_datamap w dm') (Balancer f' (bestRemote_save (w_balancer w)))), (Job d Erasing), [].
  split; [cbn [Transfer.upload_step j_stage j_shard]; unfold updateRemoteInfo_Up, bindM, on_datamap, on_balancer; rewrite Edm; cbn [bind];
          cbn [set_datamap w_balancer]; rewrite Ef; reflexivity |].
  split; [auto |]. split; [| cbn; lia].
  split; cbn [set_balancer set_datamap w_disk w_datamap w_balancer w_stats w_store lb_file]; auto.
  - eapply names_insert; eauto.
  - exists c. splits; auto. lia.
  - eexists. split; [rewrite insert_insert_eq in Hdm'; exact Hdm' |]. cbn [DistributedFileInfos set_infos]. split.
    + intros n Hnot. rewrite lookup_insert_ne; [auto | now intros <-].
    + eapply jobs_insert; eauto; [intros n Hne; now apply lookup_insert_ne |].
      split; cbn; auto; try discriminate. unfold name_of. cbn. rewrite lookup_insert_eq, Es. reflexivity.
Qed.

Lemma erasing_ok k i d w js : upload_inv w js -> js !! i = Some (Job d Erasing) -> advances k i (Job d Erasing) w js.
Proof.
  intros [Hn Hs (c & Hlb & Hc & Hmax) (infos & Hdm & Hout & Hall) Hdisk Hdirs Hstore] Hj.
  destruct (Hall i _ Hj) as [_ Hr Hl Hst Hi]. cbn in Hr, Hl, Hst, Hi. unfold name_of in *. cbn in Hl, Hst, Hi.
  assert (Hin : dis_name d ∈ names) by (eapply list_elem_of_lookup_2, (names_lookup js i (Job d Erasing)); eauto).
  assert (Hun := unallocated_insert js i _ (Job d Finished) Hj). cbn in Hun.
  exists (set_disk w (DeleteShardWithFileNames configDir (w_disk w) [hash (dis_name d)])), (Job d Finished), [].
  split; [reflexivity |]. split; [auto |]. split; [| cbn; lia].
  split; cbn [set_disk w_disk w_datamap w_balancer w_stats w_store]; auto.
  - eapply names_insert; eauto.
  - exists c. splits; auto. lia.
  - exists infos. splits; auto. eapply jobs_insert; eauto.
    + intros h Hh. rewrite open_delete, decide_False; [auto |]. cbn. intros [_ E%list_elem_of_singleton]. now apply Hh.
    + split; cbn; auto; try discriminate. apply lookup_delete_eq.
  - intros q Hq. rewrite open_delete, decide_False; [auto |]. intros [E1 E2%list_elem_of_singleton].
    apply (Hq (dis_name d) Hin). destruct q. cbn in *. congruence.
Qed.

Lemma upload_step_ok k i j w js : upload_inv w js -> js !! i = Some j -> advances k i j w js.
Proof.
  intros Hinv Hj. destruct j as [d s]. destruct s.
  - now apply allocating_ok.
  - now apply copying_ok.
  - now apply recording_ok.
  - now apply erasing_ok.
  - exists w, (Job d Finished), []. cbn. rewrite list_insert_id by auto. auto.
  - destruct Hinv as [_ _ _ (infos & _ & _ & Hall) _ _ _]. destruct (Hall i _ Hj) as [E _ _ _ _]. now destruct E.
Qed.
(** What an upload leaves *)
Record uploaded (w : world F S) : Prop := {
  up_stats : clean (w_stats w);
  up_lb : exists c, lb_ready (lb_file (w_balancer w)) c /\ (0 <= c)%Z;
  up_dm : exists infos, dm_has (w_datamap w) (<[fn := set_infos infos f0]> m0) /\
    (forall n, n ∉ names -> infos !! n = DistributedFileInfos f0 !! n) /\
    forall n, n ∈ names -> exists r, r ∈ remotes /\
      infos !! n = set_remote r <$> (set_check true <$> DistributedFileInfos f0 !! n) /\
      object (w_store w) (Name r) remoteDirectory (hash n) = Some (cont n);
  up_local : forall n, n ∈ names -> open (w_disk w) (shardDir, hash n) = None;
  up_disk : forall q, (forall n, n ∈ names -> q <> (shardDir, hash n)) -> open (w_disk w) q = open dk0 q;
  up_dirs : dirs (w_disk w) = dirs dk0;
  up_store : forall r d f, (forall n, n ∈ names -> (d, f) <> (remoteDirectory, hash n)) -> object (w_store w) r d f = object st0 r d f
}.

Lemma upload_start ds w c : names = dis_name <$> ds -> w_disk w = dk0 -> w_store w = st0 ->
  clean (w_stats w) -> lb_ready (lb_file (w_balancer w)) c -> (0 <= c)%Z -> (c + Z.of_nat (length ds) < 2 ^ 63)%Z ->
  dm_has (w_datamap w) (<[fn := f0]> m0) ->
  (forall n, n ∈ names -> open dk0 (shardDir, hash n) = Some (cont n)) ->
  upload_inv w (map (fun d => Job d Allocating) ds).
Proof.
  intros Hn Hd Hst Hs Hlb Hc Hmax Hdm Hl. assert (Ename : name_of <$> map (fun d => Job d Allocating) ds = names).
  { rewrite Hn. change (map (fun d => Job d Allocating) ds) with ((fun d => Job d Allocating) <$> ds). now rewrite <- list_fmap_compose. }
  split; auto.
  - exists c. splits; auto. unfold unallocated.
    assert (Hle := filter_length (fun j => rank j =? 0) (map (fun d => Job d Allocating) ds)). rewrite length_map in Hle. lia.
  - exists (DistributedFileInfos f0). splits; auto; [destruct f0; exact Hdm |].
    intros i j Hj. assert (Hin : name_of j ∈ names) by (eapply list_elem_of_lookup_2, names_lookup; eauto).
    change (map (fun d => Job d Allocating) ds) with ((fun d => Job d Allocating) <$> ds) in Hj.
    apply list_lookup_fmap_Some in Hj as (d & -> & Hdj). split; cbn; auto; try discriminate; try lia. rewrite Hd. now apply Hl.
  - intros q Hq. now rewrite Hd.
  - now rewrite Hd.
  - intros r d f Hf. now rewrite Hst.
Qed.

Lemma upload_ok ds sched w c : names = dis_name <$> ds -> w_disk w = dk0 -> w_store w = st0 ->
  clean (w_stats w) -> lb_ready (lb_file (w_balancer w)) c -> (0 <= c)%Z -> (c + Z.of_nat (length ds) < 2 ^ 63)%Z ->
  dm_has (w_datamap w) (<[fn := f0]> m0) ->
  (forall n, n ∈ names -> open dk0 (shardDir, hash n) = Some (cont n)) ->
  (forall i, i < length ds -> 4 <= turns i sched) ->
  exists w', startUploadFileGoroutine_Worker ci configDir sched fn hash ds RoundRobin remotes about order speed w = Ret (w', inl tt) /\
    uploaded w'.
Proof.
  intros Hn Hd Hst Hs Hlb Hc Hmax Hdm Hl Hsched.
  assert (Hstart := upload_start ds w c Hn Hd Hst Hs Hlb Hc Hmax Hdm Hl). unfold startUploadFileGoroutine_Worker.
  destruct (run_jobs_inv upload_step upload_inv rank 4 (fun es => es = []) eq_refl ltac:(now intros ? ? -> ->) upload_step_ok sched 0 w _ [] Hstart eq_refl)
    as (w' & js' & errs & E & -> & Hinv & Hlen & Hr).
  rewrite E. cbn [bind]. rewrite length_map in Hlen.
  assert (Hfin : forall i j, js' !! i = Some j -> j_stage j = Finished).
  { intros i j Hj. assert (Hi : i < length ds) by (rewrite <- Hlen; eauto using lookup_lt_Some).
    assert (His : is_Some (map (fun d => Job d Allocating) ds !! i)) by (apply lookup_lt_is_Some_2; now rewrite length_map).
    destruct His as (j0 & Hj0). destruct (Hr i j0 Hj0) as (j' & Hj' & Hrank). assert (E' : j' = j) by congruence. subst j'.
    specialize (Hsched i Hi). assert (Hrj : 4 <= rank j) by lia. unfold rank in Hrj. destruct (j_stage j); auto; lia. }
  assert (Hex : existsb is_skipped js' = false).
  { apply not_true_iff_false. intros (j & (i & Hi)%list_elem_of_In%list_elem_of_lookup & Hsk)%existsb_exists.
    unfold is_skipped in Hsk. now rewrite (Hfin i j Hi) in Hsk. }
  rewrite Hex. exists w'. split; [auto |].
  destruct Hinv as [Ename Hs' (c' & Hlb' & Hc' & _) (infos & Hdm' & Hout & Hall) Hdisk Hdirs Hstore].
  assert (Hjob : forall n, n ∈ names -> exists j, j_stage j = Finished /\ name_of j = n /\ job_ok (w_disk w') (w_store w') infos j).
  { intros n (i & Hi)%list_elem_of_lookup. rewrite <- Ename in Hi. apply list_lookup_fmap_Some in Hi as (j & -> & Hj). exists j. splits; eauto. }
  split; auto; [eauto | |].
  - exists infos. splits; auto. intros n (j & Hf & <- & [_ Hrm _ Hso Hi])%Hjob. unfold rank in *. rewrite Hf in *.
    exists (dis_remote (j_shard j)). splits; auto.
  - intros n (j & Hf & <- & [_ _ Hlo _ _])%Hjob. unfold rank in Hlo. now rewrite Hf in Hlo.
Qed.
End Upload.

(** ** Downloads *)

Section Download.
Context {F S : Type} `{GoodFloat64 F} `{MapRange} `{GoodStore S}.
Context (ci : ConfigInfo) (Hci : (1 <= Retries ci)%Z) (configDir : string).
Context (speed : string -> F) (Hzero : finite zero = true) (Hspeed : forall n, finite (speed n) = true).
(** The file, the hashes of its shards, and where all starts *)
Context (fn : string) (hash : string -> string) (names : list string).
Context (m0 : fileMap) (f0 : FileInfo) (dk0 : disk) (st0 : S).
Context (Hnd : NoDup names) (Hhash : forall n n', n ∈ names -> n' ∈ names -> hash n = hash n' -> n = n').
Context (Hapart : forall n n', n ∈ names -> n' ∈ names -> hash n <> n').
Local Abbreviation shardDir := (GetShardDir configDir).
Local Abbreviation download_step := (download_step ci configDir hash fn speed).

(** What is left of a shard on its remote *)
Definition left_of (d : DistributedFile) : option (list N) := object st0 (Name (dis_remote d)) remoteDirectory (hash (dis_name d)).

Definition drank (j : job) : nat := match j_stage j with Copying => 0 | Recording => 1 | _ => 2 end.

Record djob_ok (dk : disk) (infos : gmap string DistributedFile) (j : job) : Prop := {
  djob_local : open dk (shardDir, name_of j) = if drank j =? 0 then None else left_of (j_shard j);
  djob_hash : open dk (shardDir, hash (name_of j)) = None;
  djob_shard : DistributedFileInfos f0 !! name_of j = Some (j_shard j);
  djob_info : exists b, infos !! name_of j = Some (set_check b (j_shard j))
}.

Record download_inv (w : world F S) (js : list job) : Prop := {
  d_names : name_of <$> js = names;
  d_stats : clean (w_stats w);
  d_lb : exists c, lb_ready (lb_file (w_balancer w)) c;
  d_dm : exists infos, dm_has (w_datamap w) (<[fn := set_infos infos f0]> m0) /\
    (forall n, n ∉ names -> infos !! n = DistributedFileInfos f0 !! n) /\
    forall i j, js !! i = Some j -> djob_ok (w_disk w) infos j;
  d_disk : forall q, (forall n, n ∈ names -> q <> (shardDir, n) /\ q <> (shardDir, hash n)) -> open (w_disk w) q = open dk0 q;
  d_dirs : dirs (w_disk w) = dirs dk0;
  d_store : forall r d f, object (w_store w) r d f = object st0 r d f
}.

Lemma djobs_insert dk dk' infos infos' js i j j' :
  name_of <$> js = names -> js !! i = Some j ->
  (forall i j, js !! i = Some j -> djob_ok dk infos j) ->
  (forall h, h <> name_of j -> h <> hash (name_of j) -> open dk' (shardDir, h) = open dk (shardDir, h)) ->
  (forall n, n <> name_of j -> infos' !! n = infos !! n) ->
  djob_ok dk' infos' j' ->
  forall i' x, <[i := j']> js !! i' = Some x -> djob_ok dk' infos' x.
Proof.
  intros En Hj Hall Hdk Hin Hok i' x Hx. rewrite list_lookup_insert_Some in Hx. destruct Hx as [(<- & <- & _)|(Hne & Hx)]; [auto |].
  assert (Hnj := list_elem_of_lookup_2 _ _ _ (names_lookup names js i j En Hj)).
  assert (Hnx := list_elem_of_lookup_2 _ _ _ (names_lookup names js i' x En Hx)).
  destruct (other_hash hash names Hnd Hhash js i i' j x En Hj Hx) as [Hn Hh]; [auto |]. destruct (Hall i' x Hx).
  assert (Ha := Hapart _ _ Hnj Hnx). assert (Ha' := Hapart _ _ Hnx Hnj).
  split; [rewrite Hdk | rewrite Hdk | | rewrite Hin]; auto.
Qed.

Definition dadvances (k i : nat) (j : job) (w : world F S) (js : list job) : Prop :=
  exists w' j' es, download_step k j w = Ret (w', j', es) /\ True /\ download_inv w' (<[i := j']> js) /\
    Nat.min 2 (Datatypes.S (drank j)) <= drank j'.

Lemma fetching_ok k i d w js : download_inv w js -> js !! i = Some (Job d Copying) -> dadvances k i (Job d Copying) w js.
Proof.
  intros [Hn Hs Hlb (infos & Hdm & Hout & Hall) Hdisk Hdirs Hstore] Hj.
  destruct (Hall i _ Hj) as [Hl Hh Hsh Hi]. unfold name_of in *. cbn in Hl, Hh, Hsh, Hi.
  assert (Hin : dis_name d ∈ names) by (eapply list_elem_of_lookup_2, (names_lookup names js i (Job d Copying)); eauto).
  assert (Hne := Hapart _ _ Hin Hin).
  destruct (copy_down_ok ci Hci w (Name (dis_remote d)) remoteDirectory (hash (dis_name d)) shardDir Hs) as (st' & E & Hst').
  rewrite Hstore in E. unfold dadvances. cbn [Transfer.download_step j_stage j_shard CalculateHash]. rewrite E. cbn [bind].
  cbn [set_disk set_stats_store w_disk w_datamap w_balancer w_stats w_store]. fold (left_of d).
  destruct (left_of d) as [c|] eqn:Ec.
  - rewrite open_put, decide_True by auto. unfold ConvertFileNameForDo, rename, GetShardPath. rewrite open_put, decide_True by auto.
    eexists _, (Job d Recording), []. split; [reflexivity |]. split; [exact I |]. split; [| cbn; lia].
    split; cbn [set_disk set_stats_store w_disk w_datamap w_balancer w_stats w_store]; auto.
    + eapply names_insert; eauto.
    + exists infos. splits; auto. eapply djobs_insert; eauto; unfold name_of; cbn [j_shard].
      * intros h Hne1 Hne2. rewrite open_put, decide_False, open_remove, decide_False, open_put, decide_False by congruence. auto.
      * split; unfold name_of; cbn [j_shard drank j_stage Nat.eqb]; auto.
        -- rewrite open_put, decide_True by auto. auto.
        -- rewrite open_put, decide_False, open_remove, decide_True by congruence. auto.
    + intros q Hq. destruct (Hq _ Hin) as [Hq1 Hq2].
      rewrite open_put, decide_False, open_remove, decide_False, open_put, decide_False by congruence. auto.
    + intros r d' f. now rewrite Hst'.
  - rewrite Hh. eexists _, (Job d Finished), [StatFailed; StatFailed]. split; [reflexivity |]. split; [exact I |]. split; [| cbn; lia].
    split; cbn [set_disk set_stats_store w_disk w_datamap w_balancer w_stats w_store]; auto.
    + eapply names_insert; eauto.
    + exists infos. splits; auto. eapply djobs_insert; eauto.
      split; unfold name_of; cbn [j_shard drank j_stage Nat.eqb]; auto. now rewrite Hl.
    + intros r d' f. now rewrite Hst'.
Qed.

Lemma drecording_ok k i d w js : download_inv w js -> js !! i = Some (Job d Recording) -> dadvances k i (Job d Recording) w js.
Proof.
  intros [Hn Hs (c & Hlb) (infos & Hdm & Hout & Hall) Hdisk Hdirs Hstore] Hj.
  destruct (Hall i _ Hj) as [Hl Hh Hsh (b & Hi)]. unfold name_of in *. cbn in Hl, Hh, Hsh, Hi.
  assert (Hin : dis_name d ∈ names) by (eapply list_elem_of_lookup_2, (names_lookup names js i (Job d Recording)); eauto).
  destruct (check_ok (w_datamap w) _ fn (set_infos infos f0) (dis_name d) (set_check b d) Hdm)
    as (dm' & Edm & Hdm'); [apply lookup_insert_eq | exact Hi |].
  destruct (update_remote_info_ok (lb_file (w_balancer w)) c (dis_remote d) (speed (dis_name d)) Download Hlb Hzero (Hspeed _)) as (f' & Ef & Hf').
  exists (set_balancer (set_datamap w dm') (Balancer f' (bestRemote_save (w_balancer w)))), (Job d Finished), [].
  split; [cbn [Transfer.download_step j_stage j_shard]; unfold updateRemoteInfo_Down, bindM, on_datamap, on_balancer; rewrite Edm; cbn [bind];
          cbn [set_datamap w_balancer]; rewrite Ef; reflexivity |].
  split; [auto |]. split; [| cbn; lia].
  split; cbn [set_balancer set_datamap w_disk w_datamap w_balancer w_stats w_store lb_file]; auto.
  - eapply names_insert; eauto.
  - eauto.
  - eexists. split; [rewrite insert_insert_eq in Hdm'; exact Hdm' |]. cbn [DistributedFileInfos set_infos]. split.
    + intros n Hnot. rewrite lookup_insert_ne; [auto | now intros <-].
    + eapply djobs_insert; eauto; [intros n Hne; now apply lookup_insert_ne |].
      split; auto. exists true. apply lookup_insert_eq.
Qed.

Lemma download_step_ok k i j w js : download_inv w js -> js !! i = Some j -> dadvances k i j w js.
Proof.
  intros Hinv Hj. destruct j as [d s].
  destruct s; try (now apply fetching_ok); try (now apply drecording_ok);
    (eexists w, _, []; split; [reflexivity |]; rewrite list_insert_id by auto; cbn; auto).
Qed.

(** What a download leaves: the shards that were on their remotes, under their names *)
Record downloaded (w : world F S) : Prop := {
  dl_stats : clean (w_stats w);
  dl_lb : exists c, lb_ready (lb_file (w_balancer w)) c;
  dl_dm : exists infos, dm_has (w_datamap w) (<[fn := set_infos infos f0]> m0) /\
    (forall n, n ∉ names -> infos !! n = DistributedFileInfos f0 !! n);
  dl_local : forall d, dis_name d ∈ names -> DistributedFileInfos f0 !! dis_name d = Some d -> open (w_disk w) (shardDir, dis_name d) = left_of d;
  dl_disk : forall q, (forall n, n ∈ names -> q <> (shardDir, n) /\ q <> (shardDir, hash n)) -> open (w_disk w) q = open dk0 q;
  dl_dirs : dirs (w_disk w) = dirs dk0
}.

Lemma download_ok ds sched w c : names = dis_name <$> ds -> w_disk w = dk0 -> w_store w = st0 ->
  clean (w_stats w) -> lb_ready (lb_file (w_balancer w)) c -> dm_has (w_datamap w) (<[fn := f0]> m0) ->
  (forall d, d ∈ ds -> DistributedFileInfos f0 !! dis_name d = Some d) ->
  (forall n, n ∈ names -> open dk0 (shardDir, n) = None /\ open dk0 (shardDir, hash n) = None) ->
  (forall i, i < length ds -> 2 <= turns i sched) ->
  exists w', startDownloadFileGoroutine_Worker ci configDir hash sched ds fn speed w = Ret (w', inl tt) /\ downloaded w'.
Proof.
  intros Hn Hd Hst Hs Hlb Hdm Hds Hl Hsched.
  assert (Ename : name_of <$> map (fun d => Job d Copying) ds = names).
  { rewrite Hn. change (map (fun d => Job d Copying) ds) with ((fun d => Job d Copying) <$> ds). now rewrite <- list_fmap_compose. }
  assert (Hstart : download_inv w (map (fun d => Job d Copying) ds)).
  { split; auto; [eauto | | intros q Hq; now rewrite Hd | now rewrite Hd | intros r d f; now rewrite Hst].
    exists (DistributedFileInfos f0). splits; auto; [destruct f0; exact Hdm |].
    intros i j Hj. assert (Hin : name_of j ∈ names) by (eapply list_elem_of_lookup_2, names_lookup; eauto).
    change (map (fun d => Job d Copying) ds) with ((fun d => Job d Copying) <$> ds) in Hj.
    apply list_lookup_fmap_Some in Hj as (d & -> & Hdj). apply list_elem_of_lookup_2 in Hdj.
    split; unfold name_of; cbn [j_shard drank j_stage Nat.eqb]; rewrite ?Hd; [now apply Hl | now apply Hl | now apply Hds |].
    exists (dis_check d). rewrite (Hds d Hdj). now destruct d. }
  unfold startDownloadFileGoroutine_Worker.
  destruct (run_jobs_inv download_step download_inv drank 2 (fun _ => True) I ltac:(auto) download_step_ok sched 0 w _ [] Hstart I)
    as (w' & js' & errs & E & _ & Hinv & Hlen & Hr).
  rewrite E. cbn [bind]. exists w'. split; [auto |]. rewrite length_map in Hlen.
  destruct Hinv as [Ename' Hs' Hlb' (infos & Hdm' & Hout & Hall) Hdisk Hdirs Hstore].
  split; auto; [eauto |]. intros d Hin Hd0.
  apply list_elem_of_lookup in Hin as (i & Hi). assert (Hi' := Hi). rewrite <- Ename' in Hi'.
  apply list_lookup_fmap_Some in Hi' as (j & Ej & Hj). assert (Hib := lookup_lt_Some _ _ _ Hj). rewrite Hlen in Hib.
  assert (His : is_Some (map (fun d => Job d Copying) ds !! i)) by (apply lookup_lt_is_Some_2; now rewrite length_map).
  destruct His as (j0 & Hj0). destruct (Hr i j0 Hj0) as (j' & Hj' & Hrank). assert (Ejj : j' = j) by congruence. subst j'.
  specialize (Hsched i Hib). assert (Hrj : 2 <= drank j) by lia. destruct (Hall i j Hj) as [Hlo _ Hsh _].
  rewrite Ej. replace (drank j =? 0) with false in Hlo by (symmetry; apply Nat.eqb_neq; lia). rewrite Hlo.
  rewrite <- Ej in Hsh. congruence.
Qed.
End Download.
