(* ===== verification/RemovalCorrect.v ===== *)
(** * Removals are correct in every schedule

    The shards that are on a remote are deleted there, and nothing else; lemmas on the
    monad of the commands, and [Dis_rm]. *)
From stdpp Require Import base gmap strings list.
From Stdlib Require Import Ascii.
From S2P Require Import Prelude RSTypes Options Codec Stream FileCodec NewEncoder StreamCorrect StreamTheorems FileCodecCorrect.
From S2P Require Import FileTheorems Command Datamap DatamapTheorems LoadBalance LoadBalanceTheorems Transfer Password.
From S2P Require Import Operations TransferCorrect.
Import ListNotations.
Local Open Scope go_scope.

(** ** The goroutines *)

Section Removal.
Context {F S : Type} `{Float64 F} `{MapRangeOk} `{GoodStore S}.
Context (ci : ConfigInfo) (Hci : (1 <= Retries ci)%Z).
Context (fn : string) (hash : string -> string).
Context (m0 : fileMap) (f0 : FileInfo) (w0 : world F S) (ps : list DistributedFile).
Local Abbreviation rm_step := (rm_step ci hash fn).

(** Where a shard is *)
Definition place (d : DistributedFile) : string * string * string := (Name (dis_remote d), remoteDirectory, hash (dis_name d)).

Definition rrank (j : job) : nat := match j_stage j with Copying => 0 | Recording => 1 | _ => 2 end.

(** The entry of the file has its shards, and the rest of the world is as it was. *)
Record rm_frame (w : world F S) : Prop := {
  rf_stats : clean (w_stats w);
  rf_dm : exists infos, dm_has (w_datamap w) (<[fn := set_infos infos f0]> m0) /\ dom infos = dom (DistributedFileInfos f0);
  rf_disk : w_disk w = w_disk w0;
  rf_balancer : w_balancer w = w_balancer w0
}.

Record rm_inv (w : world F S) (js : list job) : Prop := {
  r_frame : rm_frame w;
  r_shards : j_shard <$> js = ps;
  r_jobs : forall i j, js !! i = Some j -> is_Some (DistributedFileInfos f0 !! name_of j) /\
    (1 <= rrank j -> let '(r, d, f) := place (j_shard j) in object (w_store w) r d f = None);
  r_others : forall r d f, (forall x, x ∈ ps -> (r, d, f) <> place x) ->
    object (w_store w) r d f = object (w_store w0) r d f
}.

Lemma check_frame w d dm m : rm_frame w -> is_Some (DistributedFileInfos f0 !! dis_name d) ->
  w_datamap w = dm -> readJsonFile dm = Ret m ->
  exists w', on_datamap (fun dm => UpdateDistributedFile_CheckFlag dm fn (dis_name d) true) w = Ret (w', inl tt) /\ rm_frame w' /\
    w_store w' = w_store w.
Proof.
  intros [Hs (infos & Hdm & Hdom) Hd Hb] Hin Edm Hr.
  assert (is_Some (infos !! dis_name d)) as (x & Hx) by (apply elem_of_dom; rewrite Hdom; now apply elem_of_dom).
  destruct (check_ok (w_datamap w) _ fn (set_infos infos f0) (dis_name d) x Hdm) as (dm' & E & Hdm'); [apply lookup_insert_eq | exact Hx |].
  unfold on_datamap. rewrite E. eexists. split; [reflexivity |]. split; [| auto].
  split; cbn [set_datamap w_disk w_datamap w_balancer w_stats]; auto.
  rewrite insert_insert_eq in Hdm'. eexists. split; [exact Hdm' |]. cbn [DistributedFileInfos set_infos].
  now rewrite dom_insert_lookup_L by eauto.
Qed.

Lemma frame_read w : rm_frame w -> exists m, readJsonFile (w_datamap w) = Ret m.
Proof. intros [_ (infos & [Hr _] & _) _ _]. eauto. Qed.

Lemma rm_step_ok k i j w js : rm_inv w js -> js !! i = Some j ->
  exists w' j' es, rm_step k j w = Ret (w', j', es) /\ es = [] /\ rm_inv w' (<[i := j']> js) /\
    Nat.min 2 (Datatypes.S (rrank j)) <= rrank j'.
Proof.
  intros [Hfr Hps Hjobs Hoth] Hj. destruct j as [d s]. destruct (Hjobs i _ Hj) as [Hin Hgone].
  assert (Hplaces : forall s' i' x, <[i := Job d s']> js !! i' = Some x -> exists s0, js !! i' = Some (Job (j_shard x) s0) /\ (x = Job d s' \/ js !! i' = Some x)).
  { intros s' i' x Hx. rewrite list_lookup_insert_Some in Hx. destruct Hx as [(<- & <- & _)|(_ & Hx)]; [eauto |]. destruct x; eauto. }
  assert (Hdp : ps !! i = Some d) by (rewrite <- Hps, list_lookup_fmap, Hj; auto).
  assert (Hps' : forall s', j_shard <$> <[i := Job d s']> js = ps) by (intros s'; rewrite list_fmap_insert, Hps; now apply list_insert_id).
  assert (Hstay : 2 <= rrank (Job d s) -> rm_step k (Job d s) w = Ret (w, Job d s, []) ->
    exists w' j' es, rm_step k (Job d s) w = Ret (w', j', es) /\ es = [] /\ rm_inv w' (<[i := j']> js) /\ Nat.min 2 (Datatypes.S (rrank (Job d s))) <= rrank j').
  { intros Hr E. exists w, (Job d s), []. rewrite list_insert_id by auto. splits; auto; [split; auto | lia]. }
  destruct s; try (apply Hstay; [cbn; lia | reflexivity]).
  - destruct (delete_file_ok ci Hci w (Name (dis_remote d)) remoteDirectory (hash (dis_name d)) (rf_stats _ Hfr)) as (st' & E & Hst').
    eexists _, (Job d Recording), []. split; [cbn [Transfer.rm_step j_stage j_shard CalculateHash]; rewrite E; reflexivity |].
    split; [auto |]. split; [| cbn; lia]. split; auto.
    + destruct Hfr. split; auto.
    + intros i' x Hx. cbn [set_stats_store w_store]. destruct (Hplaces _ i' x Hx) as (s0 & Hs0 & Hx'). split; [apply (Hjobs i' _ Hs0) |].
      intros Hr. unfold place. rewrite Hst'. case_decide; [auto |]. destruct Hx' as [->|Hx']; [cbn in *; congruence |]. now apply (Hjobs i' x Hx').
    + intros r dd f Hf. cbn [set_stats_store w_store]. rewrite Hst', decide_False; [now apply Hoth |].
      apply (Hf d). eauto using list_elem_of_lookup_2.
  - destruct (frame_read w Hfr) as (m & Hm).
    destruct (check_frame w d (w_datamap w) m Hfr Hin eq_refl Hm) as (w' & E & Hfr' & Est).
    exists w', (Job d Finished), []. split; [cbn [Transfer.rm_step j_stage j_shard]; rewrite E; reflexivity |].
    split; [auto |]. split; [| cbn; lia]. split; auto.
    + intros i' x Hx. rewrite Est. destruct (Hplaces _ i' x Hx) as (s0 & Hs0 & Hx'). split; [apply (Hjobs i' _ Hs0) |].
      intros Hr. destruct Hx' as [->|Hx']; [apply Hgone; cbn; lia | now apply (Hjobs i' x Hx')].
    + intros r dd f Hf. rewrite Est. now apply Hoth.
Qed.

Lemma check_unplaced_ok ds : forall w, rm_frame w -> (forall d, d ∈ ds -> is_Some (DistributedFileInfos f0 !! dis_name d)) ->
  exists w', check_unplaced fn ds w = Ret (w', inl tt) /\ rm_frame w' /\ w_store w' = w_store w.
Proof.
  induction ds as [|d ds IH]; intros w Hfr Hin; cbn [check_unplaced]; [exists w; auto |].
  destruct (on_remote d); [apply IH; [auto | intros x Hx; apply Hin; now right] |].
  destruct (frame_read w Hfr) as (m & Hm).
  destruct (check_frame w d (w_datamap w) m Hfr (Hin d (list_elem_of_here _ _)) eq_refl Hm) as (w1 & E & Hfr1 & Est).
  unfold bindM at 1. unfold tryM. rewrite E. cbn [bind].
  destruct (IH w1 Hfr1) as (w2 & E2 & Hfr2 & Est2); [intros x Hx; apply Hin; now right |].
  exists w2. rewrite E2. splits; auto. congruence.
Qed.

End Removal.

Section Goroutines.
Context {F S : Type} `{Float64 F} `{MapRangeOk} `{GoodStore S}.
Context (ci : ConfigInfo) (Hci : (1 <= Retries ci)%Z).
Context (fn : string) (hash : string -> string).
Context (m0 : fileMap) (f0 : FileInfo) (w0 : world F S).

(** The shards that are on a remote are deleted, and nothing else. *)
Lemma rm_goroutines_ok ds sched : rm_frame fn m0 f0 w0 w0 -> (forall d, d ∈ ds -> is_Some (DistributedFileInfos f0 !! dis_name d)) ->
  (forall i, i < length ds -> 2 <= turns i sched) ->
  exists w', startRmFileGoroutine ci hash sched fn ds w0 = Ret (w', inl tt) /\ rm_frame fn m0 f0 w0 w' /\
    (forall d, d ∈ ds -> on_remote d = true -> let '(r, dir, f) := place hash d in object (w_store w') r dir f = None) /\
    (forall r dir f, (forall d, d ∈ ds -> on_remote d = true -> (r, dir, f) <> place hash d) ->
      object (w_store w') r dir f = object (w_store w0) r dir f).
Proof.
  intros Hfr Hin Hsched. unfold startRmFileGoroutine.
  destruct (check_unplaced_ok fn m0 f0 w0 ds w0 Hfr Hin) as (w1 & E1 & Hfr1 & Est1).
  unfold bindM. rewrite E1. cbn [bind]. set (ps := List.filter on_remote ds).
  assert (Hps : forall d, d ∈ ps <-> d ∈ ds /\ on_remote d = true).
  { intros d. unfold ps. rewrite !list_elem_of_In, filter_In. auto. }
  assert (Hshards : j_shard <$> map (fun d => Job d Copying) ps = ps).
  { change (map (fun d => Job d Copying) ps) with ((fun d => Job d Copying) <$> ps). rewrite <- list_fmap_compose. apply list_fmap_id. }
  assert (Hstart : rm_inv fn hash m0 f0 w0 ps w1 (map (fun d => Job d Copying) ps)).
  { split; [auto | auto | | intros r dir f _; now rewrite Est1]. intros i j Hj.
    change (map (fun d => Job d Copying) ps) with ((fun d => Job d Copying) <$> ps) in Hj.
    apply list_lookup_fmap_Some in Hj as (d & -> & Hd). split; [| cbn; lia]. apply Hin, (Hps d). eauto using list_elem_of_lookup_2. }
  destruct (run_jobs_inv (rm_step ci hash fn) (rm_inv fn hash m0 f0 w0 ps) rrank 2 (fun es => es = []) eq_refl ltac:(now intros ? ? -> ->)
    (rm_step_ok ci Hci fn hash m0 f0 w0 ps) sched 0 w1 _ [] Hstart eq_refl)
    as (w' & js' & errs & E & -> & [Hfr' Hsh' Hjobs Hoth] & Hlen & Hr).
  rewrite E. cbn [bind length]. rewrite length_map in Hlen.
  exists w'. split; [reflexivity |]. split; [auto |]. split.
  - intros d Hd Hon. assert (Hdp : d ∈ ps) by now apply Hps. apply list_elem_of_lookup in Hdp as (i & Hi).
    rewrite <- Hsh' in Hi. apply list_lookup_fmap_Some in Hi as (j & -> & Hj). apply (Hjobs i j Hj).
    assert (Hi := lookup_lt_Some _ _ _ Hj). rewrite Hlen in Hi.
    assert (Hi' : i < length ds) by (unfold ps in Hi; assert (Hle := filter_length on_remote ds); lia).
    assert (His : is_Some (map (fun d => Job d Copying) ps !! i)) by (apply lookup_lt_is_Some_2; now rewrite length_map).
    destruct His as (j0 & Hj0). destruct (Hr i j0 Hj0) as (j' & Hj' & Hrank). assert (Ejj : j' = j) by congruence. subst j'.
    specialize (Hsched i Hi'). lia.
  - intros r dir f Hf. rewrite Hoth; [auto |]. intros x Hx%Hps. now apply Hf.
Qed.
End Goroutines.

(** ** The command *)

Section Monad.
Context {F S : Type}.

Lemma bindM_ret {A B} (c : M F S A) (k : A -> M F S B) w w' a : c w = Ret (w', inl a) -> bindM c k w = k a w'.
Proof. intros E. unfold bindM. now rewrite E. Qed.

Lemma bindM_err {A B} (c : M F S A) (k : A -> M F S B) w w' e : c w = Ret (w', inr e) -> bindM c k w = Ret (w', inr e).
Proof. intros E. unfold bindM. now rewrite E. Qed.

Lemma lift_ret {A} (c : world F S -> outcome disError A) w a : c w = Ret a -> lift c w = Ret (w, inl a).
Proof. intros E. unfold lift. now rewrite E. Qed.

Lemma on_datamap_ret c (w : world F S) dm : c (w_datamap w) = Ret dm -> on_datamap c w = Ret (set_datamap w dm, inl tt).
Proof. intros E. unfold on_datamap. now rewrite E. Qed.

Lemma tryM_ret {A} (c : M F S A) w w' r : c w = Ret (w', r) -> tryM c w = Ret (w', inl r).
Proof. intros E. unfold tryM. now rewrite E. Qed.

Lemma find_file_ok dm m name f : dm_has dm m -> m !! name = Some f -> find_file dm name = Ret (m, f).
Proof. intros [Hr _] Hf. unfold find_file. rewrite Hr. cbn [bind]. now rewrite Hf. Qed.
End Monad.

Ltac run_to E := erewrite bindM_ret by (first [exact E | apply lift_ret; exact E | apply on_datamap_ret; exact E]).

Section Removal.
Context {F S : Type} `{Float64 F} `{MapRangeOk} `{GoodStore S}.
Context (ci : ConfigInfo) (Hci : (1 <= Retries ci)%Z) (hash : string -> string) (sched : list nat).

(** The shards of a file are where their entries say. *)
Definition removed (ds : list DistributedFile) (w w' : world F S) : Prop :=
  (forall d, d ∈ ds -> on_remote d = true -> let '(r, dir, f) := place hash d in object (w_store w') r dir f = None) /\
  (forall r dir f, (forall d, d ∈ ds -> on_remote d = true -> (r, dir, f) <> place hash d) ->
    object (w_store w') r dir f = object (w_store w) r dir f).

Lemma set_infos_same f : set_infos (DistributedFileInfos f) f = f.
Proof. now destruct f. Qed.

(** The deletions, the reset and the deletion of the entry *)
Lemma rm_rest_ok fn m f ds (w : world F S) : dm_has (w_datamap w) m -> m !! fn = Some f -> clean (w_stats w) ->
  (forall d, d ∈ ds -> is_Some (DistributedFileInfos f !! dis_name d)) -> (forall i, i < length ds -> 2 <= turns i sched) ->
  exists w', bindM (startRmFileGoroutine ci hash sched fn ds) (fun _ =>
      bindM (on_datamap (fun dm => ResetCheckFlag dm fn)) (fun _ => on_datamap (fun dm => RemoveFileFromMetadata dm fn))) w =
      Ret (w', inl tt) /\
    dm_has (w_datamap w') (delete fn m) /\ clean (w_stats w') /\ w_disk w' = w_disk w /\ w_balancer w' = w_balancer w /\ removed ds w w'.
Proof.
  intros Hdm Hf Hs Hin Hsched.
  assert (Hfr : rm_frame fn m f w w).
  { split; auto. exists (DistributedFileInfos f). split; [| auto]. now rewrite set_infos_same, insert_id. }
  destruct (rm_goroutines_ok ci Hci fn hash m f w ds sched Hfr Hin Hsched) as (w1 & E1 & [Hs1 (infos & Hdm1 & _) Hd1 Hb1] & Hrm).
  rewrite (bindM_ret _ _ _ _ _ E1).
  destruct (reset_ok (w_datamap w1) _ fn (set_infos infos f) Hdm1 (lookup_insert_eq _ _ _)) as (dm2 & E2 & Hdm2).
  run_to E2. destruct (forget_ok dm2 _ fn Hdm2) as (dm3 & E3 & Hdm3).
  eexists. split; [unfold on_datamap; cbn [set_datamap w_datamap]; rewrite E3; reflexivity |].
  cbn [set_datamap w_datamap w_stats w_disk w_balancer]. rewrite !delete_insert_eq in Hdm3. splits; auto.
Qed.

Lemma Dis_rm_ok fn m f (w : world F S) : dm_has (w_datamap w) m -> m !! fn = Some f -> well_typed m -> clean (w_stats w) ->
  (forall i, i < size (DistributedFileInfos f) -> 2 <= turns i sched) ->
  exists w' ds, Dis_rm ci hash sched [fn] false w = Ret (w', inl tt) /\ ds ≡ₚ map snd (map_to_list (DistributedFileInfos f)) /\
    dm_has (w_datamap w') (delete fn m) /\ clean (w_stats w') /\ w_disk w' = w_disk w /\ w_balancer w' = w_balancer w /\ removed ds w w'.
Proof.
  intros Hdm Hf Hty Hs Hsched. unfold Dis_rm.
  rewrite (bindM_ret _ _ w w fn) by reflexivity.
  assert (Ef : GetFileInfoStruct (w_datamap w) fn = Ret f) by (unfold GetFileInfoStruct; now rewrite (find_file_ok _ m _ f)).
  rewrite (bindM_ret _ _ w w f) by (now apply lift_ret).
  destruct (flag_ok (w_datamap w) m fn f "rm" Hdm Hf) as (dm1 & E1 & Hdm1).
  set (w1 := set_datamap w dm1). assert (Hf1 : (<[fn := set_flag true "rm" f]> m) !! fn = Some (set_flag true "rm" f)) by apply lookup_insert_eq.
  destruct (distributed_spec 0 dm1 _ fn _ (proj1 Hdm1) Hf1) as (ds & Eds & Hperm).
  rewrite (bindM_ret _ _ w w1 ds) by (rewrite (bindM_ret _ _ w w1 tt) by (now apply on_datamap_ret); now apply lift_ret).
  destruct (rm_rest_ok fn _ (set_flag true "rm" f) ds w1 Hdm1 Hf1 Hs) as (w' & E' & Hdm' & Hs' & Hd' & Hb' & Hrm).
  - intros d Hd. rewrite Hperm, list_elem_of_In, in_map_iff in Hd. destruct Hd as ([n x] & <- & Hin%list_elem_of_In%elem_of_map_to_list).
    cbn [snd]. destruct (Hty fn f Hf) as [_ Hn]. cbn [DistributedFileInfos set_flag] in Hin. rewrite (Hn n x Hin). eauto.
  - intros i Hi. apply Hsched. apply Permutation_length in Hperm. rewrite length_map, length_map_to_list in Hperm. cbn in Hperm. lia.
  - exists w', ds. rewrite delete_insert_eq in Hdm'. splits; auto.
Qed.
End Removal.
