(* ===== verification/RoundTrip.v ===== *)
(** * An uploaded file is downloaded again, also when shards are lost

    [Dis_Upload] of a file that is not in the map leaves [stored_file]; then
    [Dis_Download] from a world in which a file is stored and the remotes have lost some
    of its shards. *)
From Stdlib Require Import Ascii.
From stdpp Require Import base gmap strings list.
From S2P Require Import Prelude Galois RSTypes Options Codec Stream FileCodec NewEncoder StreamCorrect StreamRecover.
From S2P Require Import StreamTheorems FileCodecCorrect FileTheorems Command Datamap DatamapTheorems LoadBalance LoadBalanceTheorems.
From S2P Require Import Transfer Password Operations TransferCorrect RemovalCorrect.
Import ListNotations.
Local Open Scope go_scope.

(** ** Uploading a file: paths, the password, the names of the shards *)

(** ** Paths *)

Lemma last_slash_base s d b : last_slash s = Some (d, b) -> last_slash b = None.
Proof.
  revert d b; induction s as [|c s IH]; intros d b E; cbn in E; [discriminate |].
  destruct (last_slash s) as [[d' b']|] eqn:Es; [injection E as _ <-; now apply (IH d') |].
  destruct (Ascii.eqb c "/"%char); [injection E as _ <-; auto | discriminate].
Qed.

Lemma Base_Base s : Base (Base s) = Base s.
Proof.
  unfold Base, split_path. destruct (last_slash s) as [[d b]|] eqn:E; cbn [snd].
  - now rewrite (last_slash_base s d b E).
  - now rewrite E.
Qed.

Lemma Base_join d s : snd (split_path (d +:+ "/" +:+ s)) = Base s.
Proof.
  unfold Base, split_path. assert (H : exists d', last_slash (d +:+ "/" +:+ s) = Some (d', snd (split_path s))).
  { induction d as [|c d (d' & IH)].
    - change (EmptyString +:+ "/" +:+ s) with (String "/" s). cbn [last_slash]. unfold split_path.
      destruct (last_slash s) as [[d' b]|]; eexists; reflexivity.
    - change (String c d +:+ "/" +:+ s) with (String c (d +:+ "/" +:+ s)). cbn [last_slash]. rewrite IH. eauto. }
  destruct H as (d' & E). now rewrite E.
Qed.

Lemma Base_absolute cwd s : snd (split_path (getAbsolutePath cwd s)) = Base s.
Proof. unfold getAbsolutePath. destruct (IsAbs s); [reflexivity | apply Base_join]. Qed.

(** ** The password *)

Lemma string_bytes s : string_of_bytes (bytes_of_string s) = s.
Proof.
  unfold string_of_bytes, bytes_of_string. induction s as [|c s IH]; cbn; [auto |]. now rewrite ascii_N_embedding, IH.
Qed.

(** The password stays the same as long as its file does. *)
Lemma password_stays configDir rp dk dk1 pw : tryGetPassword configDir rp dk = (dk1, pw) -> is_Some rp ->
  (forall q, is_Some (open dk q) -> open dk1 q = open dk q) /\ dirs dk ⊆ dirs dk1 /\
  forall dk2 rp2, open dk2 (configDir, "password.txt"%string) = open dk1 (configDir, "password.txt"%string) ->
    tryGetPassword configDir rp2 dk2 = (dk2, pw).
Proof.
  unfold tryGetPassword. intros E [rpw ->]. destruct (open dk (configDir, "password.txt"%string)) as [data|] eqn:Ep; injection E as <- <-.
  - splits; auto. intros dk2 rp2 ->. now rewrite Ep.
  - split; [| split; [cbn; set_solver |]].
    + intros q [c Hq]. rewrite open_put, decide_False; [auto | intros <-; congruence].
    + intros dk2 rp2 ->. now rewrite open_put, decide_True, string_bytes.
Qed.

(** ** The hashes of the shards *)

Section Names.
Context {F S : Type} `{Float64 F} `{RemoteStore S}.
Context (configDir : string) (hash : string -> string).
Local Abbreviation shardDir := (GetShardDir configDir).

Lemma createHashNames_ok (cont : string -> list N) ds : forall w : world F S,
  NoDup (dis_name <$> ds) -> (forall n n', n ∈ dis_name <$> ds -> n' ∈ dis_name <$> ds -> hash n = hash n' -> n = n') ->
  (forall n n', n ∈ dis_name <$> ds -> n' ∈ dis_name <$> ds -> hash n <> n') ->
  (forall n, n ∈ dis_name <$> ds -> open (w_disk w) (shardDir, n) = Some (cont n)) ->
  exists w' m, createHashNames configDir hash ds w = Ret (w', inl (m, [])) /\
    (forall n, n ∈ dis_name <$> ds -> m !! n = Some (hash n)) /\
    (exists dk, w' = set_disk w dk /\ dirs dk = dirs (w_disk w)) /\
    (forall n, n ∈ dis_name <$> ds -> open (w_disk w') (shardDir, n) = None /\ open (w_disk w') (shardDir, hash n) = Some (cont n)) /\
    (forall q, (forall n, n ∈ dis_name <$> ds -> q <> (shardDir, n) /\ q <> (shardDir, hash n)) -> open (w_disk w') q = open (w_disk w) q).
Proof.
  induction ds as [|d ds IH]; intros w Hnd Hinj Hap Hc; cbn [createHashNames].
  - exists w, ∅. splits; auto; [intros n []%elem_of_nil | exists (w_disk w); destruct w; auto | intros n []%elem_of_nil].
  - rewrite fmap_cons in *. apply NoDup_cons in Hnd as [Hnot Hnd]. set (n0 := dis_name d) in *.
    assert (Hn0 : n0 ∈ n0 :: (dis_name <$> ds)) by apply list_elem_of_here.
    assert (Hin : forall n, n ∈ dis_name <$> ds -> n ∈ n0 :: (dis_name <$> ds) /\ n <> n0).
    { intros n Hn. split; [now apply list_elem_of_further | now intros ->]. }
    unfold ConvertFileNameForUP, rename, CalculateHash, GetShardPath. cbn [bind]. rewrite (Hc n0 Hn0).
    set (dk1 := put_file (remove (w_disk w) (shardDir, n0)) (shardDir, hash n0) (cont n0)).
    assert (Hdk1 : forall q, q <> (shardDir, n0) -> q <> (shardDir, hash n0) -> open dk1 q = open (w_disk w) q).
    { intros q H1 H2. unfold dk1. now rewrite open_put, decide_False, open_remove, decide_False by auto. }
    destruct (IH (set_disk w dk1)) as (w' & m & E & Hm & (dk & -> & Hdirs) & Hloc & Hoth); auto.
    + intros n n' Hn Hn'. apply Hinj; now apply Hin.
    + intros n n' Hn Hn'. apply Hap; now apply Hin.
    + intros n Hn. cbn [set_disk w_disk]. destruct (Hin n Hn) as [Hn' Hne]. rewrite Hdk1; [now apply Hc | congruence |].
      intros [= E]. now apply (Hap n0 n Hn0 Hn').
    + cbn [set_disk w_disk] in *. exists (set_disk w dk), (<[n0 := hash n0]> m). split; [| split; [| split; [| split]]].
      * rewrite (bindM_ret _ _ _ _ _ E). reflexivity.
      * intros n Hn. apply elem_of_cons in Hn as [->|Hn]; [apply lookup_insert_eq |].
        rewrite lookup_insert_ne by (intros <-; contradiction). now apply Hm.
      * exists dk. auto.
      * intros n Hn. apply elem_of_cons in Hn as [->|Hn]; [| now apply Hloc]. cbn [set_disk w_disk].
        rewrite !Hoth; [unfold dk1; rewrite !open_put, decide_False, open_remove, !decide_True; auto; intros [= E0]; now apply (Hap n0 n0 Hn0 Hn0) | |];
          intros n Hn; destruct (Hin n Hn) as [Hn' Hne]; split; intros [= E0].
        -- now apply (Hap n0 n Hn0 Hn').
        -- now apply Hne, Hinj.
        -- now apply Hne.
        -- now apply (Hap n n0 Hn' Hn0).
      * intros q Hq. cbn [set_disk w_disk]. rewrite Hoth; [apply Hdk1; apply (Hq n0 Hn0) |].
        intros n Hn. apply Hq. now apply Hin.
Qed.
End Names.

(** ** The entries of the shards *)

Lemma distributed_infos_ok (paths : list path) : forall cs, length cs = length paths -> (forall q, q ∈ paths -> snd q <> EmptyString) ->
  exists ds, distributed_infos paths cs = Ret ds /\ dis_name <$> ds = snd <$> paths /\
    forall d, d ∈ ds -> exists sum, d = MkDistributed (dis_name d) no_remote sum false.
Proof.
  induction paths as [|q paths IH]; intros [|c cs] Hl Hne; try discriminate; cbn [distributed_infos].
  - exists []. splits; auto. intros d []%elem_of_nil.
  - unfold GetDistributedInfo. rewrite decide_False by (apply Hne, list_elem_of_here). cbn [bind].
    destruct (IH cs) as (ds & -> & En & Hds); [cbn in Hl; lia | intros q' Hq'; apply Hne; now apply list_elem_of_further |].
    cbn [bind]. eexists. splits; [reflexivity | cbn; now rewrite En |].
    intros d [->|Hd]%elem_of_cons; [cbn; eauto | auto].
Qed.

Lemma dFileMap_lookup (ds : list DistributedFile) : forall m : gmap string DistributedFile, NoDup (dis_name <$> ds) ->
  let m' := fold_left (fun m d => <[dis_name d := d]> m) ds m in
  (forall d, d ∈ ds -> m' !! dis_name d = Some d) /\ (forall n, n ∉ dis_name <$> ds -> m' !! n = m !! n).
Proof.
  induction ds as [|d ds IH]; intros m Hnd; cbn [fold_left].
  - split; [intros d []%elem_of_nil | auto].
  - rewrite fmap_cons in Hnd. apply NoDup_cons in Hnd as [Hnot Hnd].
    destruct (IH (<[dis_name d := d]> m) Hnd) as [Hin Hout]. split.
    + intros x [->|Hx]%elem_of_cons; [| auto]. rewrite Hout by auto. apply lookup_insert_eq.
    + intros n Hn. rewrite fmap_cons, not_elem_of_cons in Hn. destruct Hn as [Hn1 Hn2].
      rewrite Hout by auto. apply lookup_insert_ne. congruence.
Qed.

(** ** The directories on the remotes *)

Lemma MakeDistributionDir_ok {F S : Type} `{GoodStore S} ci (remotes : list Remote) : (1 <= Retries ci)%Z -> forall w : world F S, clean (w_stats w) ->
  exists st', MakeDistributionDir ci remotes w = Ret (set_stats_store w (w_stats w) st', inl tt) /\
    forall r d f, object st' r d f = object (w_store w) r d f.
Proof.
  intros Hci. induction remotes as [|r remotes IH]; intros w Hs; cbn [MakeDistributionDir].
  - exists (w_store w). destruct w. auto.
  - destruct (make_dir_ok (w_store w) (Name r) remoteDirectory) as (st1 & E1 & H1).
    rewrite (bindM_ret _ _ w (set_stats_store w (w_stats w) st1) tt).
    + destruct (IH (set_stats_store w (w_stats w) st1) Hs) as (st2 & E2 & H2). exists st2. split; [exact E2 |].
      intros r' d' f'. now rewrite H2, <- H1.
    + apply remote_command_ok; auto. intros s. now rewrite E1.
Qed.

(** ** Names that are apart *)

Lemma configDir_apart configDir : configDir <> GetShardDir configDir.
Proof.
  intros E. apply (f_equal String.length) in E. unfold GetShardDir in E. rewrite length_append in E. cbn in E. lia.
Qed.

Lemma extension_apart base : base +:+ fileCryptExtension <> "password.txt"%string.
Proof. do 13 (destruct base as [|? base]; [discriminate |]; intros [= _ E]; revert E). Qed.

Lemma shard_name_nonempty fname i : shard_name fname i <> EmptyString.
Proof.
  intros E. apply (f_equal String.length) in E. unfold shard_name in E. rewrite !length_append in E. cbn in E. lia.
Qed.

Lemma shard_names_apart base i : shard_name (base +:+ fileCryptExtension) i <> base.
Proof.
  intros E. apply (f_equal String.length) in E. unfold shard_name, fileCryptExtension in E. rewrite !length_append in E. cbn in E. lia.
Qed.

(** The names of the shards of a file *)
Definition shard_names (base : string) (n : nat) : list string := shard_name (base +:+ fileCryptExtension) <$> seq 0 n.

Lemma elem_of_shard_names base n s : s ∈ shard_names base n <-> exists i, i < n /\ s = shard_name (base +:+ fileCryptExtension) i.
Proof.
  unfold shard_names. rewrite list_elem_of_fmap. split.
  - intros (i & -> & Hi%elem_of_seq). exists i. split; [lia | auto].
  - intros (i & Hi & ->). exists i. split; [auto | apply elem_of_seq; lia].
Qed.

Lemma shard_names_NoDup base n : NoDup (shard_names base n).
Proof. apply (NoDup_fmap_2 (shard_name (base +:+ fileCryptExtension))), NoDup_seq. Qed.

Lemma snd_shard_paths configDir base n : snd <$> shard_paths configDir (base +:+ fileCryptExtension) n = shard_names base n.
Proof.
  unfold shard_paths, shard_names. change (map ?f ?l) with (f <$> l). now rewrite <- list_fmap_compose.
Qed.

(** ** Preparing an upload *)

Section Preparing.
Context {F S : Type} `{GoodFloat64 F} `{MapRange} `{GoodStore S}.
Context (cpu : machine) (stream_sched : schedule) (ci : ConfigInfo) (configDir : string) (sha256 : list N -> string).
Context (hash : string -> string).
Context (encrypt : nat -> string -> list N -> list N) (decrypt : string -> list N -> option (list N)) (reuse : nat -> bool).
Context (remotes : list Remote) (randomPassword : option string) (rnd : nat) (base : string).
Context (Hcpu : machine_ok cpu) (Hstream : schedule_ok stream_sched) (Hci : (1 <= Retries ci)%Z).
Context (Hcipher : forall rnd pw x, bytes_ok x -> bytes_ok (encrypt rnd pw x) /\ encrypt rnd pw x <> [])
  (Hdecrypt : forall rnd pw x, decrypt pw (encrypt rnd pw x) = Some x).
Local Abbreviation shardDir := (GetShardDir configDir).
Local Abbreviation passwordFile := ((configDir, "password.txt"%string) : path).
Local Abbreviation shard := (shard_name (base +:+ fileCryptExtension)).

(** The digests of the names of the shards do not collide, and none is the name
    of a shard. *)
Record hash_apart : Prop := {
  hash_inj : forall i j, i < 256 -> j < 256 -> hash (shard i) = hash (shard j) -> i = j;
  hash_other : forall i j, i < 256 -> j < 256 -> hash (shard i) <> shard j
}.
Context (Hhash : hash_apart).

Lemma names_inj n : n <= 256 -> forall s s', s ∈ shard_names base n -> s' ∈ shard_names base n -> hash s = hash s' -> s = s'.
Proof.
  intros Hn s s' (i & Hi & ->)%elem_of_shard_names (j & Hj & ->)%elem_of_shard_names E. f_equal. apply Hhash; auto; lia.
Qed.

Lemma names_other n : n <= 256 -> forall s s', s ∈ shard_names base n -> s' ∈ shard_names base n -> hash s <> s'.
Proof.
  intros Hn s s' (i & Hi & ->)%elem_of_shard_names (j & Hj & ->)%elem_of_shard_names. apply Hhash; lia.
Qed.

(** The entry of a file of [d] and [p] shards *)
Record entry_of (y : list N) (d p l : nat) (f : FileInfo) : Prop := {
  entry_shard : Shard f = Z.of_nat d;
  entry_parity : Parity f = Z.of_nat p;
  entry_padding : Padding f = Z.of_nat (d * l - length y)
}.

(** The password stays the one of the file that holds it. *)
Definition keeps_password (dk : disk) (pw : string) : Prop :=
  forall dk2 rp2, open dk2 passwordFile = open dk passwordFile -> tryGetPassword configDir rp2 dk2 = (dk2, pw).

Record prepared (dir : string) (x : list N) (m : fileMap) (w w' : world F S) (hm : gmap string string) (ds : list DistributedFile)
    (pw : string) (d p l : nat) (all : list (list N)) (f : FileInfo) : Prop := {
  pr_encoding : encoding cpu (encrypt rnd pw x) d p l all;
  pr_names : dis_name <$> ds = shard_names base (d + p);
  pr_hashes : forall s, s ∈ shard_names base (d + p) -> hm !! s = Some (hash s);
  pr_dm : dm_has (w_datamap w') (<[base := f]> m);
  pr_entry : entry_of (encrypt rnd pw x) d p l f;
  pr_infos : forall s, s ∈ shard_names base (d + p) -> exists sum, DistributedFileInfos f !! s = Some (MkDistributed s no_remote sum false);
  pr_only : forall s, s ∉ shard_names base (d + p) -> DistributedFileInfos f !! s = None;
  pr_stats : clean (w_stats w');
  pr_balancer : w_balancer w' = w_balancer w;
  pr_local : forall i, i < d + p -> open (w_disk w') (shardDir, hash (shard i)) = Some (nth i all []) /\ open (w_disk w') (shardDir, shard i) = None;
  pr_file : open (w_disk w') (dir, base) = Some x;
  pr_password : keeps_password (w_disk w') pw
}.

Lemma prepareUpload_ok dir x m (w : world F S) : open (w_disk w) (dir, base) = Some x -> bytes_ok x -> flags_ok (w_flags w) ->
  dir <> shardDir -> base <> EmptyString -> clean (w_stats w) -> dm_has (w_datamap w) m -> is_Some randomPassword ->
  exists w' hm ds pw d p l all f,
    prepareUpload cpu stream_sched ci configDir sha256 hash encrypt remotes randomPassword rnd (dir, base) w = Ret (w', inl (hm, ds)) /\
    prepared dir x m w w' hm ds pw d p l all f.
Proof.
  intros Hx Hb Hf Hdir Hbase Hs Hdm Hrp. unfold prepareUpload, tryGetPasswordM.
  destruct (tryGetPassword configDir randomPassword (w_disk w)) as [dk1 pw] eqn:Epw.
  destruct (password_stays configDir randomPassword (w_disk w) dk1 pw Epw Hrp) as (Hold & _ & Hkeep).
  rewrite (bindM_ret _ _ w (set_disk w dk1) pw) by now rewrite Epw.
  assert (Hx1 : open dk1 (dir, base) = Some x) by (rewrite Hold; [auto | rewrite Hx; eauto]).
  destruct (DoEncode_spec cpu stream_sched configDir sha256 encrypt decrypt reuse Hcpu Hstream Hcipher Hdecrypt (w_flags w) dk1 rnd (dir, base) pw x Hx1 Hb Hf)
    as (dk2 & fl2 & d & p & l & all & E2 & _ & _ & Henc & Hst & _ & Hoth). cbn [fst snd] in *.
  destruct (encoding_all cpu Hcpu _ _ _ _ _ Henc) as [Hla _]. assert (Hn := enc_total _ _ _ _ _ _ Henc).
  set (e := Build_encoded _ _ _ _ _ _) in E2. set (w2 := set_flags (set_disk w dk2) fl2).
  rewrite (bindM_ret _ _ _ w2 e) by (unfold DoEncodeM; cbn [set_disk w_flags w_disk]; rewrite E2; reflexivity).
  destruct (MakeDistributionDir_ok ci remotes Hci w2 Hs) as (st3 & E3 & _).
  rewrite (bindM_ret _ _ _ _ _ E3). set (w3 := set_stats_store w2 (w_stats w2) st3).
  destruct (distributed_infos_ok (shard_paths configDir (base +:+ fileCryptExtension) (d + p)) (map sha256 all)) as (ds & Eds & Ends & Hds).
  { rewrite length_map, length_shard_paths. exact Hla. }
  { intros q (i & _ & ->)%list_elem_of_In%in_shard_paths. apply shard_name_nonempty. }
  rewrite snd_shard_paths in Ends.
  rewrite (bindM_ret _ _ w3 w3 ds) by (apply lift_ret; exact Eds).
  assert (Hopen : forall s, s ∈ shard_names base (d + p) -> open (w_disk w3) (shardDir, s) = Some (default [] (open dk2 (shardDir, s)))).
  { intros s (i & Hi & ->)%elem_of_shard_names. change (w_disk w3) with dk2. rewrite Hst by (rewrite length_map; lia).
    rewrite (nth_map_in _ _ []) by lia. auto. }
  destruct (createHashNames_ok configDir hash (fun s => default [] (open dk2 (shardDir, s))) ds w3)
    as (w4 & hm & E4 & Hhm & (dk4 & -> & _) & Hloc4 & Hoth4); rewrite ?Ends;
    [apply shard_names_NoDup | exact (names_inj _ Hn) | exact (names_other _ Hn) | exact Hopen |].
  rewrite (bindM_ret _ _ _ _ _ E4). rewrite Ends in *. cbn [set_disk w_disk] in Hloc4, Hoth4.
  assert (Hkeep4 : forall q, fst q <> shardDir -> snd q <> base +:+ fileCryptExtension -> open dk4 q = open dk1 q).
  { intros q Hq Hq'. rewrite Hoth4 by (intros s _; split; intros ->; now apply Hq). change (w_disk w3) with dk2.
    apply Hoth; [| intros ->; now apply Hq']. intros (i & _ & ->)%in_shard_paths. now apply Hq. }
  assert (Hx4 : open dk4 (dir, base) = Some x).
  { rewrite Hkeep4; auto. cbn. intros E. apply (f_equal String.length) in E. rewrite length_append in E. cbn in E. lia. }
  set (w4 := set_disk w3 dk4) in *.
  set (f := MkFileInfo base (Z.of_nat (length x)) (e_sizePerShard e) (e_dataShards e) (e_parShards e) true "upload" (sha256 x) (e_padding e) (dFileMap ds)).
  assert (Edm : MakeDataMap sha256 (w_disk w4) (w_datamap w4) (dir, base) ds (e_sizePerShard e) (e_padding e) (e_dataShards e) (e_parShards e) =
    Ret (Stored (JSON (<[base := f]> m)) true)).
  { unfold MakeDataMap, Datamap.calculateChecksum. change (w_disk w4) with dk4. rewrite Hx4, decide_False by congruence.
    cbn [bind]. change (w_datamap w4) with (w_datamap w). destruct Hdm as [Hr Hw]. rewrite Hr. cbn [bind]. unfold writeJsonFile. now rewrite Hw. }
  rewrite (bindM_ret _ _ w4 (set_datamap w4 (Stored (JSON (<[base := f]> m)) true)) tt) by (apply on_datamap_ret; exact Edm).
  exists (set_datamap w4 (Stored (JSON (<[base := f]> m)) true)), hm, ds, pw, d, p, l, all, f. split; [reflexivity |].
  destruct (dFileMap_lookup ds ∅) as [Hfin Hfout]; [rewrite Ends; apply shard_names_NoDup |].
  split; auto; try reflexivity; try exact Hs; try exact Hx4.
  - split; reflexivity.
  - split; reflexivity.
  - intros s Hsn. rewrite <- Ends in Hsn. apply list_elem_of_fmap in Hsn as (d0 & -> & Hd0).
    destruct (Hds d0 Hd0) as (sum & E). exists sum. rewrite <- E. now apply Hfin.
  - intros s Hsn. cbn [f DistributedFileInfos]. rewrite <- Ends in Hsn. unfold dFileMap. rewrite Hfout by auto. apply lookup_empty.
  - intros i Hi. destruct (Hloc4 (shard i)) as [L1 L2]; [apply elem_of_shard_names; eauto |]. split; [| exact L1].
    cbn [set_datamap w_disk w4 set_disk]. rewrite L2, Hst by (rewrite length_map; lia). rewrite (nth_map_in _ _ []) by lia. reflexivity.
  - intros dk' rp2 E. apply Hkeep. rewrite E. apply Hkeep4; [exact (configDir_apart configDir) |].
    intros E'. symmetry in E'. now apply extension_apart in E'.
Qed.
End Preparing.

(** ** The upload *)

Section Uploading.
Context {F S : Type} `{GoodFloat64 F} `{MapRange} `{GoodStore S}.
Context (cpu : machine) (stream_sched : schedule) (ci : ConfigInfo) (cwd configDir : string) (sha256 : list N -> string).
Context (hash : string -> string).
Context (encrypt : nat -> string -> list N -> list N) (decrypt : string -> list N -> option (list N)) (reuse : nat -> bool).
Context (remotes : list Remote) (about : Remote -> option Z) (order : list Remote -> list Remote) (speed : string -> F).
Context (sched : list nat) (randomPassword : option string) (rnd : nat) (arg : string).
Context (Hcpu : machine_ok cpu) (Hstream : schedule_ok stream_sched) (Hci : (1 <= Retries ci)%Z).
Context (Hcipher : forall rnd pw x, bytes_ok x -> bytes_ok (encrypt rnd pw x) /\ encrypt rnd pw x <> [])
  (Hdecrypt : forall rnd pw x, decrypt pw (encrypt rnd pw x) = Some x).
Context (Hrem : remotes <> []) (Hzero : finite zero = true) (Hspeed : forall n, finite (speed n) = true).
Local Abbreviation shardDir := (GetShardDir configDir).
Local Abbreviation base := (Base arg).
Local Abbreviation shard := (shard_name (base +:+ fileCryptExtension)).
Local Abbreviation absolutePath := (split_path (getAbsolutePath cwd arg)).

(** A file that is on the remotes: the entry, the shards, and nothing of it left
    in the directory of shards *)
Record stored_file (x : list N) (m : fileMap) (w : world F S) (pw : string) (d p l : nat) (all : list (list N)) (f : FileInfo) : Prop := {
  sf_encoding : encoding cpu (encrypt rnd pw x) d p l all;
  sf_dm : dm_has (w_datamap w) (<[base := f]> m);
  sf_entry : entry_of (encrypt rnd pw x) d p l f;
  sf_flag : Flag f = false;
  sf_infos : forall i, i < d + p -> exists r sum, r ∈ remotes /\
    DistributedFileInfos f !! shard i = Some (MkDistributed (shard i) r sum false) /\
    object (w_store w) (Name r) remoteDirectory (hash (shard i)) = Some (nth i all []);
  sf_only : forall s, s ∉ shard_names base (d + p) -> DistributedFileInfos f !! s = None;
  sf_stats : clean (w_stats w);
  sf_balancer : exists c, lb_ready (lb_file (w_balancer w)) c;
  sf_local : forall i, i < d + p -> open (w_disk w) (shardDir, shard i) = None /\ open (w_disk w) (shardDir, hash (shard i)) = None;
  sf_password : keeps_password configDir (w_disk w) pw
}.

Lemma dis_init_ok (w : world F S) x : open (w_disk w) absolutePath = Some x -> dis_init cwd arg w = Ret (w, inl absolutePath).
Proof. intros E. unfold dis_init. now rewrite E. Qed.

(** A file that is not in the map yet *)
Lemma Dis_Upload_ok x m (w : world F S) c : hash_apart hash base ->
  open (w_disk w) absolutePath = Some x -> bytes_ok x -> flags_ok (w_flags w) ->
  fst absolutePath <> shardDir -> base <> EmptyString -> clean (w_stats w) -> dm_has (w_datamap w) m -> m !! base = None ->
  is_Some randomPassword -> lb_ready (lb_file (w_balancer w)) c -> (0 <= c)%Z -> (c + 256 < 2 ^ 63)%Z ->
  (forall i, i < 256 -> 4 <= turns i sched) ->
  exists w' pw d p l all f,
    Dis_Upload cpu stream_sched ci cwd configDir sha256 hash encrypt remotes about order speed sched randomPassword rnd
      [arg] false RoundRobin w = Ret (w', inl tt) /\
    stored_file x m w' pw d p l all f /\ open (w_disk w') absolutePath = Some x.
Proof.
  intros Hhash Hx Hb Hf Hdir Hbase Hs Hdm Hnew Hrp Hlb Hc Hmax Hsched.
  assert (Eabs : absolutePath = (fst absolutePath, base)) by (rewrite <- (Base_absolute cwd arg); apply surjective_pairing).
  set (dir := fst absolutePath) in *. rewrite Eabs in Hx.
  unfold Dis_Upload. rewrite (bindM_ret _ _ w w arg) by reflexivity.
  rewrite (bindM_ret _ _ w w absolutePath) by (apply (dis_init_ok w x); now rewrite Eabs).
  destruct (prepareUpload_ok cpu stream_sched ci configDir sha256 hash encrypt decrypt reuse remotes randomPassword rnd base
    Hcpu Hstream Hci Hcipher Hdecrypt Hhash dir x m w Hx Hb Hf Hdir Hbase Hs Hdm Hrp) as (w1 & hm & ds & pw & d & p & l & all & f & E1 & Hp).
  assert (Edup : DoesFileStructExist (w_datamap w) base = Ret false).
  { unfold DoesFileStructExist. rewrite (proj1 Hdm). cbn [bind]. now rewrite Hnew. }
  rewrite (bindM_ret _ _ w w1 (hm, ds)).
  2:{ rewrite (bindM_ret _ _ w w false) by (now apply lift_ret). rewrite (bindM_ret _ _ w w tt) by reflexivity. now rewrite Eabs. }
  destruct Hp as [Henc Hn Hhm Hdm1 Hent Hinf Honly Hs1 Hbal Hloc Hfile Hpw]. assert (Ht := enc_total _ _ _ _ _ _ Henc).
  set (hash' := fun name => default EmptyString (hm !! name)).
  assert (Hh' : forall s, s ∈ shard_names base (d + p) -> hash' s = hash s) by (intros s Hin; unfold hash'; now rewrite Hhm).
  set (cont := fun s => default [] (open (w_disk w1) (shardDir, hash' s))).
  assert (Hin : forall i, i < d + p -> shard i ∈ shard_names base (d + p)) by (intros i Hi; apply elem_of_shard_names; eauto).
  assert (Hcont : forall i, i < d + p -> cont (shard i) = nth i all []).
  { intros i Hi. unfold cont. rewrite Hh' by auto. now rewrite (proj1 (Hloc i Hi)). }
  assert (Hlds : length ds = d + p) by (apply (f_equal length) in Hn; unfold shard_names in Hn; now rewrite !length_fmap, length_seq in Hn).
  destruct (upload_ok ci Hci configDir remotes about order Hrem speed Hzero Hspeed base hash' cont (shard_names base (d + p)) m f
    (w_disk w1) (w_store w1) (shard_names_NoDup _ _)) with (ds := ds) (sched := sched) (w := w1) (c := c)
    as (w2 & E2 & [Hs2 (c2 & Hlb2 & _) (infos & Hdm2 & Hout2 & Hin2) Hloc2 Hdisk2 _ _]); auto.
  { intros s s' H4 H5. rewrite !Hh' by auto. now apply (names_inj hash base Hhash _ Ht). }
  { now rewrite Hbal. } { lia. }
  { intros s (i & Hi & ->)%elem_of_shard_names. rewrite Hcont, Hh' by auto. apply (Hloc i Hi). }
  { intros i Hi. apply Hsched. lia. }
  rewrite (bindM_ret _ _ w1 w2 tt) by exact E2.
  assert (Hkeep : forall q, fst q <> shardDir -> open (w_disk w2) q = open (w_disk w1) q).
  { intros q Hq. apply Hdisk2. intros s _ ->. now apply Hq. }
  assert (Hx2 : open (w_disk w2) absolutePath = Some x) by (rewrite Eabs, Hkeep; auto).
  rewrite (bindM_ret _ _ w2 w2 absolutePath) by (now apply (dis_init_ok w2 x)).
  destruct (reset_ok (w_datamap w2) _ base (set_infos infos f) Hdm2) as (dm3 & E3 & Hdm3); [apply lookup_insert_eq |].
  rewrite insert_insert_eq in Hdm3. cbn [DistributedFileInfos set_infos] in Hdm3.
  eexists (set_datamap w2 dm3), pw, d, p, l, all, _. split; [apply on_datamap_ret; exact E3 |]. split; [| exact Hx2].
  split; cbn [set_datamap w_datamap w_balancer w_store w_stats w_disk]; eauto.
  - destruct Hent. now split.
  - intros i Hi. destruct (Hin2 _ (Hin i Hi)) as (r & Hr & Er & Ho). destruct (Hinf _ (Hin i Hi)) as (sum & Es).
    exists r, sum. split; [auto |]. rewrite Hcont, Hh' in Ho by auto. split; [| exact Ho].
    cbn [set_infos set_flag DistributedFileInfos]. rewrite lookup_fmap, Er, Es. reflexivity.
  - intros s Hsn. cbn [set_infos set_flag DistributedFileInfos]. now rewrite lookup_fmap, Hout2, Honly.
  - intros i Hi. rewrite <- (Hh' (shard i)) by auto. split; [| apply Hloc2; auto]. rewrite Hdisk2; [now apply Hloc |].
    intros s Hsn [= E]. rewrite Hh' in E by auto. symmetry in E. now apply (names_other hash base Hhash (d + p) Ht s (shard i)) in E; auto.
  - intros dk' rp2 E. apply Hpw. rewrite E. apply Hkeep. apply configDir_apart.
Qed.
End Uploading.

(** ** Downloading it *)

(** ** The checksums of the configuration *)

Lemma checksums_ok (ds : list DistributedFile) : forall m : gmap string string,
  let m' := fold_left (fun m d => <[dis_name d := dis_checksum d]> m) ds m in
  size m' <= length ds + size m /\ (forall s, is_Some (m' !! s) -> s ∈ dis_name <$> ds \/ is_Some (m !! s)).
Proof.
  induction ds as [|d ds IH]; intros m; cbn [fold_left]; [cbn; auto |].
  destruct (IH (<[dis_name d := dis_checksum d]> m)) as [Hs Hin]. split.
  - assert (Hle : size (<[dis_name d := dis_checksum d]> m) <= S (size m)).
    { destruct (m !! dis_name d) eqn:E; [rewrite map_size_insert_Some by eauto | rewrite map_size_insert_None by auto]; lia. }
    cbn [length]. lia.
  - intros s Hss. destruct (Hin s Hss) as [H|H]; [left; rewrite fmap_cons; now apply list_elem_of_further |].
    destruct (decide (dis_name d = s)) as [<-|Hne]; [left; rewrite fmap_cons; apply list_elem_of_here | right].
    now rewrite lookup_insert_ne in H.
Qed.

(** ** The entries of a file *)

Lemma entries_ok (infos : gmap string DistributedFile) ds base n : ds ≡ₚ map snd (map_to_list infos) ->
  (forall i, i < n -> exists r sum, infos !! shard_name (base +:+ fileCryptExtension) i =
    Some (MkDistributed (shard_name (base +:+ fileCryptExtension) i) r sum false)) ->
  (forall s, s ∉ shard_names base n -> infos !! s = None) ->
  dis_name <$> ds ≡ₚ shard_names base n /\ forall e, e ∈ ds -> infos !! dis_name e = Some e.
Proof.
  intros Hperm Hin Hout.
  assert (Hname : forall s e, infos !! s = Some e -> dis_name e = s /\ s ∈ shard_names base n).
  { intros s e E. destruct (decide (s ∈ shard_names base n)) as [Hs|Hs]; [| now rewrite Hout in E].
    split; [| auto]. apply elem_of_shard_names in Hs as (i & Hi & ->). destruct (Hin i Hi) as (r & sum & E'). rewrite E in E'.
    now injection E' as ->. }
  split.
  - assert (Ek : dis_name <$> map snd (map_to_list infos) = (map_to_list infos).*1).
    { change (map snd (map_to_list infos)) with (snd <$> map_to_list infos). rewrite <- list_fmap_compose. apply list_fmap_ext.
      intros i [k e] Hi. apply list_elem_of_lookup_2, elem_of_map_to_list in Hi. cbn. now apply Hname. }
    rewrite Hperm, Ek. apply NoDup_Permutation; [apply NoDup_fst_map_to_list | apply shard_names_NoDup |].
    intros s. rewrite list_elem_of_fmap. split.
    + intros ([k e] & -> & Hke%elem_of_map_to_list). now apply (Hname k e).
    + intros (i & Hi & ->)%elem_of_shard_names. destruct (Hin i Hi) as (r & sum & E).
      eexists (_, _). split; [| apply elem_of_map_to_list; exact E]. auto.
  - intros e He. rewrite Hperm, list_elem_of_In, in_map_iff in He. destruct He as ([k e'] & <- & Hk%list_elem_of_In%elem_of_map_to_list).
    cbn. now rewrite (proj1 (Hname k e' Hk)).
Qed.

(** ** The download *)

Section Downloading.
Context {F S : Type} `{GoodFloat64 F} `{MapRangeOk} `{GoodStore S}.
Context (cpu : machine) (stream_sched : schedule) (ci : ConfigInfo) (cwd configDir : string) (sha256 : list N -> string).
Context (hash : string -> string).
Context (encrypt : nat -> string -> list N -> list N) (decrypt : string -> list N -> option (list N)) (reuse : nat -> bool).
Context (remotes : list Remote) (speed : string -> F) (sched : list nat) (randomPassword : option string) (DoRemove : bool).
Context (rnd : nat) (arg out : string).
Context (Hcpu : machine_ok cpu) (Hstream : schedule_ok stream_sched) (Hci : (1 <= Retries ci)%Z).
Context (Hcipher : forall rnd pw x, bytes_ok x -> bytes_ok (encrypt rnd pw x) /\ encrypt rnd pw x <> [])
  (Hdecrypt : forall rnd pw x, decrypt pw (encrypt rnd pw x) = Some x).
Context (Hzero : finite zero = true) (Hspeed : forall n, finite (speed n) = true).
Local Abbreviation shardDir := (GetShardDir configDir).
Local Abbreviation base := (Base arg).
Local Abbreviation shard := (shard_name (base +:+ fileCryptExtension)).
Local Abbreviation outdir := (getAbsolutePath cwd out).

(** The remotes [st2] have of the shards of [f] those that [kept] says. *)
Definition losses (f : FileInfo) (kept : list bool) (st1 st2 : S) : Prop :=
  forall i e, i < length kept -> DistributedFileInfos f !! shard i = Some e ->
    let '(r, dir, file) := place hash e in object st2 r dir file = if nth i kept true then object st1 r dir file else None.

(** The same machine later: other contents of the remotes, and the directory of
    the output *)
Definition later (w : world F S) (st : S) : world F S :=
  set_disk (set_stats_store w (w_stats w) st) (mkdir (w_disk w) outdir).

Lemma Dis_Download_ok x m (w : world F S) pw d p l all f kept st2 :
  hash_apart hash base -> bytes_ok x ->
  stored_file cpu configDir hash encrypt remotes rnd arg x m w pw d p l all f ->
  length kept = d + p -> d <= length (List.filter id kept) -> losses f kept (w_store w) st2 ->
  (forall i, i < 256 -> 2 <= turns i sched) ->
  exists w', Dis_Download cpu stream_sched ci cwd configDir sha256 hash decrypt reuse speed sched randomPassword DoRemove
      [base; out] false (later w st2) = Ret (w', inl tt) /\
    open (w_disk w') (outdir, base) = Some x.
Proof.
  intros Hhash Hb [Henc Hdm [Hsh Hpar Hpad] _ Hinf Honly Hs (c & Hlb) Hloc Hpw] Hk Hc Hlost Hsched. assert (Ht := enc_total _ _ _ _ _ _ Henc).
  set (w0 := later w st2). unfold Dis_Download.
  rewrite (bindM_ret _ _ w0 w0 base) by reflexivity. rewrite !Base_Base.
  assert (Hf : (<[base := f]> m) !! base = Some f) by apply lookup_insert_eq.
  assert (Ef : GetFileInfoStruct (w_datamap w0) base = Ret f) by (unfold GetFileInfoStruct; change (w_datamap w0) with (w_datamap w); now rewrite (find_file_ok _ _ _ f Hdm Hf)).
  rewrite (bindM_ret _ _ w0 w0 f) by (now apply lift_ret).
  destruct (flag_ok (w_datamap w0) _ base f "download" Hdm Hf) as (dm1 & E1 & Hdm1). rewrite insert_insert_eq in Hdm1.
  set (f1 := set_flag true "download" f) in *. set (w1 := set_datamap w0 dm1).
  assert (Hf1 : (<[base := f1]> m) !! base = Some f1) by apply lookup_insert_eq.
  destruct (distributed_spec 2 dm1 _ base _ (proj1 Hdm1) Hf1) as (ds & Eds & Hperm).
  rewrite (bindM_ret _ _ w0 w1 ds) by (rewrite (bindM_ret _ _ w0 w1 tt) by (now apply on_datamap_ret); now apply lift_ret).
  destruct (entries_ok (DistributedFileInfos f) ds base (d + p) Hperm) as [Hnames Hds]; auto.
  { intros i Hi. destruct (Hinf i Hi) as (r & sum & _ & E & _). eauto. }
  assert (Hin : forall s, s ∈ dis_name <$> ds <-> s ∈ shard_names base (d + p)) by (intros s; now rewrite Hnames).
  assert (Hlds : length ds = d + p).
  { apply Permutation_length in Hnames. unfold shard_names in Hnames. now rewrite !length_fmap, length_seq in Hnames. }
  destruct (download_ok ci Hci configDir speed Hzero Hspeed base hash (dis_name <$> ds) m f1 (w_disk w1) st2) with (ds := ds) (sched := sched) (w := w1) (c := c)
    as (w2 & E2 & [Hs2 (c2 & Hlb2) (infos & Hdm2 & _) Hloc2 Hdisk2 Hdirs2]); auto.
  { rewrite Hnames. apply shard_names_NoDup. }
  { intros s s' Hs1%Hin Hs1'%Hin. now apply (names_inj hash base Hhash _ Ht). }
  { intros s s' Hs1%Hin Hs1'%Hin. now apply (names_other hash base Hhash _ Ht). }
  { intros s (i & Hi & ->)%Hin%elem_of_shard_names. exact (Hloc i Hi). }
  { intros i Hi. apply Hsched. lia. }
  rewrite (bindM_ret _ _ w1 w2 tt) by exact E2. rewrite (bindM_ret _ _ w2 w2 out) by reflexivity.
  set (f2 := set_infos infos f1) in *. assert (Hf2 : (<[base := f2]> m) !! base = Some f2) by apply lookup_insert_eq.
  rewrite (bindM_ret _ _ w2 w2 f2).
  2:{ apply lift_ret. unfold GetFileInfoStruct. now rewrite (find_file_ok _ _ _ f2 Hdm2 Hf2). }
  assert (Hpw2 : open (w_disk w2) (configDir, "password.txt"%string) = open (w_disk w) (configDir, "password.txt"%string)).
  { rewrite Hdisk2; [reflexivity |]. intros s _. split; intros [= E]; now apply (configDir_apart configDir). }
  rewrite (bindM_ret _ _ w2 w2 pw).
  2:{ unfold tryGetPasswordM. rewrite (Hpw (w_disk w2) randomPassword Hpw2). destruct w2; reflexivity. }
  destruct (checksums_ok ds ∅) as [Hsize Hkeys].
  set (conf := fold_left _ ds ∅) in *.
  assert (Hla := proj1 (encoding_all cpu Hcpu _ _ _ _ _ Henc)).
  destruct (DoDecode_spec cpu stream_sched configDir sha256 decrypt reuse Hcpu Hstream (w_disk w2) base outdir conf
    (encrypt rnd pw x) d p l all kept pw x) as (dk3 & E3 & Hx3 & _); auto.
  { rewrite Hdirs2. cbn. set_solver. }
  { intros s Hss. destruct (Hkeys s Hss) as [Hs'|[? Hs']]; [| now rewrite lookup_empty in Hs'].
    apply Hin, elem_of_shard_names in Hs' as (i & Hi & ->). exists i. split; [lia | auto]. }
  { rewrite map_size_empty in Hsize. lia. }
  { now apply (Hcipher rnd pw x). }
  { intros i Hi. unfold kept_readers in Hi. rewrite length_map2 in Hi. rewrite nth_kept by lia.
    destruct (Hinf i ltac:(lia)) as (r & sum & _ & Ei & Ho).
    assert (Hsi : shard i ∈ dis_name <$> ds) by (apply Hin, elem_of_shard_names; exists i; split; [lia | auto]).
    assert (Hlo := Hloc2 (MkDistributed (shard i) r sum false) Hsi Ei). cbn [dis_name] in Hlo. rewrite Hlo.
    assert (Hl := Hlost i _ ltac:(lia) Ei). cbn in Hl. unfold left_of. cbn. rewrite Hl. now destruct (nth i kept true). }
  rewrite (bindM_ret _ _ w2 (set_disk w2 dk3) (inl tt)).
  2:{ apply tryM_ret. unfold DoDecodeM. cbn [f2 f1 Padding Shard Parity set_infos set_flag]. rewrite Hpad, Hsh, Hpar, E3. reflexivity. }
  destruct (reset_ok (w_datamap w2) _ base f2 Hdm2 Hf2) as (dm4 & E4 & _).
  rewrite (bindM_ret _ _ (set_disk w2 dk3) (set_datamap (set_disk w2 dk3) dm4) tt) by (apply on_datamap_ret; exact E4).
  eexists. split; [reflexivity |]. cbn [set_disk set_datamap w_disk]. rewrite open_delete, decide_False; [exact Hx3 |].
  intros [_ Hb']. cbn [snd] in Hb'. apply (Hin base), elem_of_shard_names in Hb' as (i & _ & E). symmetry in E. now apply shard_names_apart in E.
Qed.
End Downloading.
