(* ===== verification/PasswordTheorems.v ===== *)
(** * The properties of the password of the user

    Locking and unlocking the directory of rclone, file by file. *)
From Stdlib Require Import Ascii.
From stdpp Require Import base gmap strings list.
From S2P Require Import Prelude RSTypes Codec FileCodec FileCodecCorrect FileTheorems Datamap Password RoundTrip.
Import ListNotations.
Local Open Scope go_scope.

(** ** The extension *)

Lemma strip_add s : strip_ext (s +:+ fileCryptExtension) = Some s.
Proof.
  induction s as [|c s IH]; [reflexivity |].
  change (String c s +:+ fileCryptExtension) with (String c (s +:+ fileCryptExtension)). cbn [strip_ext].
  destruct (String.eqb_spec (String c (s +:+ fileCryptExtension)) fileCryptExtension) as [E|_]; [| now rewrite IH].
  apply (f_equal String.length) in E. cbn [String.length] in E. rewrite length_append in E. lia.
Qed.

Lemma add_ext_inj p q : add_ext p = add_ext q -> p = q.
Proof.
  destruct p as [d n], q as [d' n']. unfold add_ext. cbn. intros [= -> E]. f_equal.
  apply (f_equal strip_ext) in E. rewrite !strip_add in E. congruence.
Qed.

Lemma strip_not_ext p q : strip_ext (snd p) = None -> p <> add_ext q.
Proof. intros Hp ->. cbn in Hp. now rewrite strip_add in Hp. Qed.

Lemma open_remove_files l : forall dk q, open (remove_files l dk) q = if decide (q ∈ l) then None else open dk q.
Proof.
  unfold remove_files. induction l as [|p l IH]; intros dk q; cbn [fold_left].
  - now rewrite decide_False by apply not_elem_of_nil.
  - rewrite IH, open_remove. destruct (decide (q ∈ l)), (decide (p = q)) as [->|Hne]; rewrite ?decide_True by set_solver; auto.
    rewrite decide_False; [auto |]. set_solver.
Qed.

(** ** The passes over the files *)

Section EncryptedFiles.
Context (encrypt : nat -> string -> list N -> list N).

Lemma encrypt_files_ok pw (l : list path) : forall i dk, (forall p, p ∈ l -> is_Some (open dk p) /\ strip_ext (snd p) = None) ->
  exists dk', encrypt_files encrypt i pw l dk = Some dk' /\
    (forall p c, p ∈ l -> open dk p = Some c -> exists j, open dk' (add_ext p) = Some (encrypt j pw c)) /\
    (forall q, (forall p, p ∈ l -> q <> add_ext p) -> open dk' q = open dk q).
Proof.
  induction l as [|p l IH]; intros i dk Hl; cbn [encrypt_files].
  - exists dk. splits; auto. intros p c []%elem_of_nil.
  - destruct (Hl p (list_elem_of_here _ _)) as [[c Hc] Hp]. rewrite Hc.
    assert (Hkeep : forall q, strip_ext (snd q) = None -> open (put_file dk (add_ext p) (encrypt i pw c)) q = open dk q).
    { intros q Hq. rewrite open_put, decide_False; [auto |]. intros E. symmetry in E. now apply strip_not_ext in E. }
    destruct (IH (S i) (put_file dk (add_ext p) (encrypt i pw c))) as (dk' & E & Hin & Hout).
    { intros q Hq. destruct (Hl q (list_elem_of_further _ _ _ Hq)) as [Hs Hq']. rewrite Hkeep; auto. }
    exists dk'. split; [exact E |]. split.
    + intros q cq Hq Hcq. destruct (decide (q ∈ l)) as [Hql|Hql]; [apply Hin; [auto |]; rewrite Hkeep; auto; now apply Hl |].
      assert (q = p) as -> by set_solver. exists i. rewrite Hout; [rewrite open_put, decide_True by auto; congruence |].
      intros p' Hp' E'%add_ext_inj. congruence.
    + intros q Hq. rewrite Hout by (intros p' Hp'; apply Hq; set_solver). rewrite open_put, decide_False; [auto |].
      intros E'. symmetry in E'. revert E'. apply Hq. set_solver.
Qed.

End EncryptedFiles.

Section DecryptedFiles.
Context (configDir : string) (decrypt : string -> list N -> option (list N)).
Local Abbreviation passwordFile := ((configDir, "user_password.txt"%string) : path).

Lemma decrypt_files_ok pw (plain : path -> list N) (ps : list path) : forall dk dec ver,
  (forall p, p ∈ ps -> strip_ext (snd p) = None /\ exists c, open dk (add_ext p) = Some c /\ decrypt pw c = Some (plain p)) ->
  exists dk1 ver1, decrypt_files configDir decrypt pw (map add_ext ps) dk dec ver = (dk1, Some (dec ++ ps, ver1)) /\
    (forall p, p ∈ ps -> open dk1 p = Some (plain p)) /\ (forall q, q ∉ ps -> open dk1 q = open dk q) /\
    (ver = true \/ (passwordFile ∈ ps /\ plain passwordFile = bytes_of_string pw) -> ver1 = true).
Proof.
  induction ps as [|p ps IH]; intros dk dec ver Hps; cbn [map decrypt_files].
  - exists dk, ver. rewrite app_nil_r. splits; auto; [intros p []%elem_of_nil | intros [Hv|[[]%elem_of_nil _]]; auto].
  - destruct (Hps p (list_elem_of_here _ _)) as [Hp (c & Hc & Hd)]. cbn [add_ext fst snd]. rewrite strip_add.
    change (fst p, snd p +:+ fileCryptExtension) with (add_ext p). rewrite Hc, Hd, <- surjective_pairing.
    set (dk0 := put_file dk p (plain p)). set (ver0 := ver || _).
    assert (Hkeep : forall q, add_ext q ∈ map add_ext ps -> open dk0 (add_ext q) = open dk (add_ext q)).
    { intros q _. unfold dk0. rewrite open_put, decide_False; [auto | now apply strip_not_ext]. }
    destruct (IH dk0 (dec ++ [p]) ver0) as (dk1 & ver1 & E & Hin & Hout & Hv).
    { intros q Hq. destruct (Hps q (list_elem_of_further _ _ _ Hq)) as [Hq' (cq & Hcq & Hdq)]. split; [auto |].
      exists cq. split; [| auto]. rewrite Hkeep; auto. now apply (list_elem_of_fmap_2 add_ext). }
    exists dk1, ver1. rewrite E, <- app_assoc. split; [reflexivity |]. split; [| split].
    + intros q Hq. destruct (decide (q ∈ ps)) as [Hqs|Hqs]; [auto |]. assert (q = p) as -> by set_solver.
      rewrite Hout by auto. unfold dk0. now rewrite open_put, decide_True.
    + intros q Hq. rewrite Hout by set_solver. unfold dk0. rewrite open_put, decide_False; [auto |]. set_solver.
    + intros Hver. apply Hv. destruct Hver as [->|[Hpf Hpl]]; [now left |].
      destruct (decide (passwordFile = p)) as [<-|Hne]; [left | right; split; [set_solver | auto]].
      unfold ver0, GetUserPassword, dk0. rewrite open_put, decide_True, Hpl, string_bytes, String.eqb_refl by auto.
      cbn [snd]. apply orb_true_r.
Qed.

End DecryptedFiles.

Lemma all_add_ext (l : list path) : (forall p, p ∈ l -> exists q, p = add_ext q) -> exists ps, l = map add_ext ps.
Proof.
  induction l as [|p l IH]; intros Hl; [exists []; auto |].
  destruct (Hl p (list_elem_of_here _ _)) as (q & ->). destruct IH as (ps & ->); [intros p Hp; apply Hl; set_solver |].
  now exists (q :: ps).
Qed.

Lemma all_encrypted (ps : list path) : encrypted_files (map add_ext ps) = map add_ext ps.
Proof.
  unfold encrypted_files. induction ps as [|p ps IH]; [auto |]. cbn [map List.filter add_ext snd]. rewrite strip_add, bool_decide_true by eauto.
  now rewrite IH.
Qed.

(** ** The whole directory *)

Section WholeDirectory.
Context (configDir : string) (encrypt : nat -> string -> list N -> list N) (decrypt : string -> list N -> option (list N)).
Context (walk : disk -> list path) (below : string -> bool).
(** The walk finds the files of the directories below the one of rclone. *)
Context (Hwalk : forall dk p, p ∈ walk dk <-> is_Some (open dk p) /\ below (fst p) = true).
Context (Hdecrypt : forall rnd pw x, decrypt pw (encrypt rnd pw x) = Some x).
Local Abbreviation passwordFile := ((configDir, "user_password.txt"%string) : path).

(** What is left of the files below the directory of [dk] that [K] keeps: their
    encrypted copies in [dk'], and nothing else there. *)
Record sealed (pw : string) (K : path -> bool) (dk dk' : disk) : Prop := {
  sealed_in : forall q c, K q = true -> below (fst q) = true -> open dk q = Some c ->
    exists j, open dk' (add_ext q) = Some (encrypt j pw c);
  sealed_only : forall p, below (fst p) = true -> is_Some (open dk' p) ->
    exists q, p = add_ext q /\ K q = true /\ is_Some (open dk q);
  sealed_out : forall p, below (fst p) = false -> open dk' p = open dk p
}.

(** No name below the directory has the extension. *)
Definition plain_names (dk : disk) : Prop :=
  forall p, is_Some (open dk p) -> below (fst p) = true -> strip_ext (snd p) = None.

Lemma lock_ok pw dk : plain_names dk ->
  exists dk', EncryptAllFilesInPath encrypt walk pw dk = Some dk' /\ sealed pw (fun _ => true) dk dk'.
Proof using Hwalk.
  intros Hplain. unfold EncryptAllFilesInPath.
  assert (Hw : forall p, p ∈ walk dk -> is_Some (open dk p) /\ strip_ext (snd p) = None) by (intros p [Hs Hb]%Hwalk; auto).
  destruct (encrypt_files_ok encrypt pw (walk dk) 0 dk Hw) as (dk1 & -> & Hin & Hout). cbn [option_map].
  eexists. split; [reflexivity |]. split.
  - intros q c _ Hb Hc. destruct (Hin q c) as (j & E); [apply Hwalk; eauto | auto |]. exists j. rewrite open_remove_files, decide_False; [auto |].
    intros [_ Hx]%Hw. cbn in Hx. now rewrite strip_add in Hx.
  - intros p Hb [c Hc]. rewrite open_remove_files in Hc. case_decide as Hp; [discriminate |].
    destruct (decide (p ∈ map add_ext (walk dk))) as [Hq|Hq].
    + apply list_elem_of_fmap in Hq as (q & -> & [Hq _]%Hwalk). eauto.
    + rewrite Hout in Hc; [destruct Hp; apply Hwalk; eauto |]. intros q Hin' ->. apply Hq. now apply (list_elem_of_fmap_2 add_ext).
  - intros p Hb. rewrite open_remove_files, decide_False; [| intros [_ Hb']%Hwalk; congruence].
    apply Hout. intros q [_ Hb']%Hwalk ->. cbn in Hb. congruence.
Qed.

(** The files of a sealed directory *)
Lemma sealed_files pw K dk dk' : sealed pw K dk dk' -> exists ps, walk dk' = map add_ext ps /\
  forall p, p ∈ ps <-> is_Some (open dk p) /\ K p = true /\ below (fst p) = true.
Proof using Hwalk.
  intros [Hin Honly _]. destruct (all_add_ext (walk dk')) as (ps & Eps).
  { intros p [Hs Hb]%Hwalk. destruct (Honly p Hb Hs) as (q & -> & _). eauto. }
  exists ps. split; [exact Eps |]. intros p. assert (Hwp := Hwalk dk' (add_ext p)). rewrite Eps in Hwp. cbn [add_ext fst] in Hwp.
  change (fst p, snd p +:+ fileCryptExtension) with (add_ext p) in Hwp. split.
  - intros Hp. destruct (proj1 Hwp) as [Hs Hb]; [now apply (list_elem_of_fmap_2 add_ext) |].
    destruct (Honly (add_ext p) Hb Hs) as (q & <-%add_ext_inj & HK & Hq). auto.
  - intros ([c Hc] & HK & Hb). destruct (Hin p c HK Hb Hc) as (j & E).
    destruct (proj1 (list_elem_of_fmap _ _ _) (proj2 Hwp (conj (mk_is_Some _ _ E) Hb))) as (q & ->%add_ext_inj & Hq). exact Hq.
Qed.

(** The kept files come back, and the others below the directory are gone. *)
Lemma unlock_ok pw K dk dk' : plain_names dk -> sealed pw K dk dk' -> K passwordFile = true -> below configDir = true ->
  open dk passwordFile = Some (bytes_of_string pw) ->
  exists dk2, DecryptAllFilesInPath configDir decrypt walk pw dk' = (dk2, None) /\
    forall q, open dk2 q = if below (fst q) && negb (K q) then None else open dk q.
Proof.
  intros Hplain Hsealed HK Hbelow Hpf. destruct (sealed_files pw K dk dk' Hsealed) as (ps & Eps & Hps). destruct Hsealed as [Hin Honly Hout].
  set (plain := fun p => default [] (open dk p)). unfold DecryptAllFilesInPath. rewrite Eps.
  destruct (decrypt_files_ok configDir decrypt pw plain ps dk' [] false) as (dk2 & ver & E & Hin2 & Hout2 & Hver).
  { intros p ([c Hc] & HKp & Hb)%Hps. split; [apply Hplain; eauto |]. destruct (Hin p c HKp Hb Hc) as (j & Ej).
    exists (encrypt j pw c). split; [exact Ej |]. unfold plain. rewrite Hc. apply Hdecrypt. }
  rewrite E, Hver by (right; split; [apply Hps; rewrite Hpf; eauto | unfold plain; now rewrite Hpf]).
  eexists. split; [reflexivity |]. intros q. rewrite all_encrypted, open_remove_files. case_decide as Hq.
  - apply list_elem_of_fmap in Hq as (p & -> & (_ & _ & Hb)%Hps). change (fst (add_ext p)) with (fst p). destruct (_ && _); [auto |].
    destruct (open dk (add_ext p)) eqn:Ed; [| auto]. assert (Hx : strip_ext (snd (add_ext p)) = None) by (apply Hplain; [eauto | exact Hb]).
    cbn in Hx. now rewrite strip_add in Hx.
  - destruct (decide (q ∈ ps)) as [Hqp|Hqp].
    + rewrite Hin2 by auto. unfold plain. apply Hps in Hqp as ([c ->] & -> & _). now rewrite andb_false_r.
    + rewrite Hout2 by auto. destruct (below (fst q)) eqn:Hb; [| now apply Hout]. cbn [andb].
      assert (En : open dk' q = None).
      { destruct (open dk' q) eqn:Eq; [| auto]. destruct Hq. rewrite <- Eps. apply Hwalk. eauto. }
      rewrite En. destruct (K q) eqn:EK; [| auto]. cbn [negb]. destruct (open dk q) eqn:Eq; [| auto]. destruct Hqp. apply Hps. eauto.
Qed.

(** A password that opens nothing *)
Lemma unlock_wrong pw other K dk dk' : sealed pw K dk dk' -> K passwordFile = true -> below configDir = true -> is_Some (open dk passwordFile) ->
  (forall rnd x, decrypt other (encrypt rnd pw x) = None) ->
  DecryptAllFilesInPath configDir decrypt walk other dk' = (dk', Some WrongPassword).
Proof using Hwalk.
  intros Hsealed HK Hbelow Hpf Hother. destruct (sealed_files pw K dk dk' Hsealed) as (ps & Eps & Hps). destruct Hsealed as [Hin _ _].
  unfold DecryptAllFilesInPath. rewrite Eps. assert (Hpw : passwordFile ∈ ps) by (apply Hps; auto).
  destruct ps as [|p ps]; [now apply elem_of_nil in Hpw |].
  cbn [map decrypt_files add_ext fst snd]. rewrite strip_add. change (fst p, snd p +:+ fileCryptExtension) with (add_ext p).
  destruct (proj1 (Hps p) (list_elem_of_here _ _)) as ([c Hc] & HKp & Hb). destruct (Hin p c HKp Hb Hc) as (j & ->). now rewrite Hother.
Qed.

(** C30: locking the directory under the password of the user leaves only
    encrypted files in it and touches nothing outside; unlocking it with the same
    password gives every file back, and unlocking it with a password that opens
    none of the files fails and changes nothing. *)
Theorem lock_unlock pw other dk : below configDir = true -> open dk passwordFile = Some (bytes_of_string pw) ->
  plain_names dk -> (forall rnd x, decrypt other (encrypt rnd pw x) = None) ->
  exists dk', EncryptAllFilesInPath encrypt walk pw dk = Some dk' /\
    (forall p, below (fst p) = true -> is_Some (open dk' p) -> is_Some (strip_ext (snd p))) /\
    (forall p, below (fst p) = false -> open dk' p = open dk p) /\
    (exists dk2, DecryptAllFilesInPath configDir decrypt walk pw dk' = (dk2, None) /\ forall q, open dk2 q = open dk q) /\
    DecryptAllFilesInPath configDir decrypt walk other dk' = (dk', Some WrongPassword).
Proof.
  intros Hbelow Hpf Hplain Hother. destruct (lock_ok pw dk Hplain) as (dk' & E & Hs). exists dk'. split; [exact E |].
  split; [| split; [apply Hs | split]].
  - intros p Hb Hp. destruct (sealed_only _ _ _ _ Hs p Hb Hp) as (q & -> & _). cbn. rewrite strip_add. eauto.
  - destruct (unlock_ok pw _ dk dk' Hplain Hs eq_refl Hbelow Hpf) as (dk2 & E2 & H2). exists dk2. split; [exact E2 |].
    intros q. now rewrite H2, andb_false_r.
  - apply (unlock_wrong pw other _ dk dk' Hs); eauto.
Qed.
End WholeDirectory.

(** ** Witnesses *)

(** A cipher that tells passwords apart by their length *)
Definition seal (rnd : nat) (pw : string) (x : list N) : list N := N.of_nat (String.length pw) :: x.
Definition unseal (pw : string) (y : list N) : option (list N) :=
  match y with k :: x => if N.eqb k (N.of_nat (String.length pw)) then Some x else None | [] => None end.

Definition in_conf (dir : string) : bool := String.prefix "/conf" dir.
Definition walk0 (dk : disk) : list path := List.filter (fun p => in_conf (fst p)) (map fst (map_to_list (files dk))).

Lemma walk0_ok dk p : p ∈ walk0 dk <-> is_Some (open dk p) /\ in_conf (fst p) = true.
Proof.
  unfold walk0. rewrite list_elem_of_In, filter_In, in_map_iff. split; intros [Hp Hb]; (split; [| exact Hb]).
  - destruct Hp as ([q c] & <- & Hq%list_elem_of_In%elem_of_map_to_list). unfold open. cbn. eauto.
  - destruct Hp as [c Hc]. exists (p, c). split; [auto |]. now apply list_elem_of_In, elem_of_map_to_list.
Qed.

Definition locked0 : disk :=
  Disk {[ ("/conf", "user_password.txt") := bytes_of_string "pw"; ("/conf", "datamap.json") := [123; 125]%N;
          ("/conf/shard", "a.fcef.0") := [1; 2]%N; ("/home", "a") := [7]%N ]} ∅.

Lemma locked0_plain p : is_Some (open locked0 p) -> in_conf (fst p) = true -> strip_ext (snd p) = None.
Proof.
  intros [c Hc] _. unfold open, locked0 in Hc. cbn [files] in Hc.
  repeat (apply lookup_insert_Some in Hc as [[<- _]|[_ Hc]]; [reflexivity |]). apply lookup_singleton_Some in Hc as [<- _]. reflexivity.
Qed.

Lemma lock_unlock_witness : exists dk',
  EncryptAllFilesInPath seal walk0 "pw" locked0 = Some dk' /\
  (forall p, in_conf (fst p) = true -> is_Some (open dk' p) -> is_Some (strip_ext (snd p))) /\
  (forall p, in_conf (fst p) = false -> open dk' p = open locked0 p) /\
  (exists dk2, DecryptAllFilesInPath "/conf" unseal walk0 "pw" dk' = (dk2, None) /\ forall q, open dk2 q = open locked0 q) /\
  DecryptAllFilesInPath "/conf" unseal walk0 "wrong" dk' = (dk', Some WrongPassword).
Proof.
  apply (lock_unlock "/conf" seal unseal walk0 in_conf walk0_ok).
  - intros rnd pw x. cbn. now rewrite N.eqb_refl.
  - reflexivity.
  - reflexivity.
  - exact locked0_plain.
  - reflexivity.
Defined.
