(* ===== verification/Session.v ===== *)
(** * The window (src/gui/main.go)

    The window asks for a new password or for the one there is, shows its main
    content, and encrypts the directory of rclone when it is closed.  The buttons
    start a command of rclone as a process; what is drawn, and the lines that a
    command prints, are left out. *)
From Stdlib Require Import Ascii.
From stdpp Require Import base gmap strings list.
From S2P Require Import Prelude RSTypes Codec FileCodec FileCodecCorrect FileTheorems Datamap Password RoundTrip PasswordTheorems.
Import ListNotations.
Local Open Scope go_scope.

(** ** The screens *)

Inductive screen : Type :=
| PasswordSetupWindow
| PasswordPromptWindow
| MainGUIContent
| Closed.

Record session : Type := Session { shown : screen; s_disk : disk }.

(** What the user does; [Work] is all that the commands and other programs do to
    the disk while the window is open. *)
Inductive event : Type :=
| SetPassword (password : string)
| Unlock (password : string)
| Work (after : disk)
| CloseWindow.

Section Window.
Context (configDir : string) (encrypt : nat -> string -> list N -> list N) (decrypt : string -> list N -> option (list N)).
Context (walk : disk -> list path).

(** [main] *)
Definition open_window (dk : disk) : session :=
  Session (if DoesUserPasswordExist configDir dk then PasswordPromptWindow else PasswordSetupWindow) dk.

(** The error of [SaveUserPassword] is not looked at. *)
Definition showPasswordSetupWindow (password : string) (dk : disk) : session :=
  if decide (password = EmptyString) then Session PasswordSetupWindow dk
  else Session MainGUIContent (match SaveUserPassword configDir password dk with Ret dk => dk | _ => dk end).

Definition showPasswordPromptWindow (password : string) (dk : disk) : session :=
  if decide (password = EmptyString) then Session PasswordPromptWindow dk
  else match DecryptAllFilesInPath configDir decrypt walk password dk with
       | (dk, Some _) => Session PasswordPromptWindow dk
       | (dk, None) => Session MainGUIContent dk
       end.

Definition encryptFilesOnExit (dk : disk) : disk :=
  let userPassword := GetUserPassword configDir dk in
  if decide (userPassword = EmptyString) then dk
  else default dk (EncryptAllFilesInPath encrypt walk userPassword dk).

(** The files of the directory of shards *)
Definition ReadDir (dk : disk) (dir : string) : list path :=
  List.filter (fun p => bool_decide (fst p = dir)) (map fst (map_to_list (files dk))).

Definition cleanShardFolderOnExit (dk : disk) : disk := remove_files (ReadDir dk (GetShardDir configDir)) dk.

(** The window that only asks for a password has no action of its own when it is
    closed. *)
Definition close_window (s : session) : session :=
  match shown s with
  | MainGUIContent => Session Closed (cleanShardFolderOnExit (encryptFilesOnExit (s_disk s)))
  | _ => Session Closed (s_disk s)
  end.

Definition handle (s : session) (e : event) : session :=
  match shown s, e with
  | Closed, _ => s
  | PasswordSetupWindow, SetPassword password => showPasswordSetupWindow password (s_disk s)
  | PasswordPromptWindow, Unlock password => showPasswordPromptWindow password (s_disk s)
  | shown, Work after => Session shown after
  | _, CloseWindow => close_window s
  | _, _ => s
  end.

Definition run_window (s : session) (l : list event) : session := fold_left handle l s.

(** ** The button that runs a command *)

(** The arguments of the process; [None] when a message is shown instead. *)
Definition startUpload (stat : string -> bool) (source loadBalancer : string) : option (list string) :=
  if decide (source = EmptyString \/ loadBalancer = EmptyString) then None
  else if stat source then Some ["dis_upload"; source; "--loadbalancer"; loadBalancer]%string else None.

Definition startDownload (target destination : string) : option (list string) :=
  if decide (target = EmptyString \/ destination = EmptyString) then None else Some ["dis_download"; target; destination]%string.

Definition handleRunButton (stat : string -> bool) (mode source loadBalancer target destination : string) : option (list string) :=
  if decide (mode = "Dis_Upload"%string) then startUpload stat source loadBalancer else startDownload target destination.

(** Are the two JSON files there, both plain or both encrypted? *)
Definition checkCoreFile (dk : disk) : bool :=
  let fileExists name := bool_decide (is_Some (open dk (configDir +:+ "/data", name))) in
  (fileExists "datamap.json" && fileExists "loadbalancer.json") || (fileExists "datamap.json.fcef" && fileExists "loadbalancer.json.fcef").
End Window.

(** ** Closing and opening again *)

Section Closing.
Context (configDir : string) (encrypt : nat -> string -> list N -> list N) (decrypt : string -> list N -> option (list N)).
Context (walk : disk -> list path) (below : string -> bool).
Context (Hwalk : forall dk p, p ∈ walk dk <-> is_Some (open dk p) /\ below (fst p) = true).
Context (Hdecrypt : forall rnd pw x, decrypt pw (encrypt rnd pw x) = Some x).
Context (Hcipher : forall rnd pw x, encrypt rnd pw x <> []).
Context (Hconfig : below configDir = true) (Hshard : below (GetShardDir configDir) = true).
Local Abbreviation shardDir := (GetShardDir configDir).
Local Abbreviation passwordFile := ((configDir, "user_password.txt"%string) : path).
Local Abbreviation run := (run_window configDir encrypt decrypt walk).
Local Abbreviation opened := (open_window configDir).

Lemma open_clean dk q : open (cleanShardFolderOnExit configDir dk) q = if decide (fst q = shardDir) then None else open dk q.
Proof.
  unfold cleanShardFolderOnExit. rewrite open_remove_files. unfold ReadDir.
  assert (Hin : q ∈ List.filter (fun p => bool_decide (fst p = shardDir)) (map fst (map_to_list (files dk))) <->
    fst q = shardDir /\ is_Some (open dk q)).
  { rewrite list_elem_of_In, filter_In, in_map_iff, bool_decide_eq_true. split.
    - intros [([p c] & <- & Hp%list_elem_of_In%elem_of_map_to_list) Hq]. split; [auto |]. unfold open. cbn. eauto.
    - intros [Hq [c Hc]]. split; [| auto]. exists (q, c). split; [auto |]. now apply list_elem_of_In, elem_of_map_to_list. }
  destruct (decide (q ∈ _)) as [Hq|Hq]; [rewrite decide_True; auto; now apply Hin |].
  case_decide as Hd; [| auto]. destruct (open dk q) eqn:E; [| auto]. destruct Hq. apply Hin. eauto.
Qed.

(** The shards are not kept. *)
Definition not_shard (p : path) : bool := bool_decide (fst p <> shardDir).

Lemma clean_sealed pw dk dk' : sealed encrypt below pw (fun _ => true) dk dk' ->
  sealed encrypt below pw not_shard dk (cleanShardFolderOnExit configDir dk').
Proof.
  intros [Hin Honly Hout]. split.
  - intros q c HK%bool_decide_eq_true Hb Hc. destruct (Hin q c eq_refl Hb Hc) as (j & E). exists j. now rewrite open_clean, decide_False.
  - intros p Hb [c Hc]. rewrite open_clean in Hc. case_decide as Hp; [discriminate |].
    destruct (Honly p Hb ltac:(eauto)) as (q & -> & _ & Hq). exists q. split; [auto |]. split; [| auto]. now apply bool_decide_eq_true.
  - intros p Hb. rewrite open_clean, decide_False; [now apply Hout |]. intros Hp. rewrite Hp in Hb. congruence.
Qed.

(** C31: a window in which a password was set, and that is closed after any work
    that leaves the password's file and no name with the extension, leaves only
    encrypted files and no shards in the directory.  The next window asks for the
    password, stays as it is for one that opens nothing, and for the right one
    gives back every file but the shards. *)
Theorem close_and_open_again pw dk0 dk : pw <> EmptyString -> DoesUserPasswordExist configDir dk0 = false ->
  open dk passwordFile = Some (bytes_of_string pw) -> plain_names below dk ->
  exists dk1, run (opened dk0) [SetPassword pw; Work dk; CloseWindow] = Session Closed dk1 /\
    (forall p, below (fst p) = true -> is_Some (open dk1 p) -> is_Some (strip_ext (snd p)) /\ fst p <> shardDir) /\
    shown (opened dk1) = PasswordPromptWindow /\
    (forall other, (forall rnd x, decrypt other (encrypt rnd pw x) = None) ->
      run (opened dk1) [Unlock other] = opened dk1) /\
    exists dk2, run (opened dk1) [Unlock pw] = Session MainGUIContent dk2 /\
      forall q, open dk2 q = if decide (fst q = shardDir) then None else open dk q.
Proof.
  intros Hne Hnew Hpf Hplain.
  destruct (lock_ok encrypt walk below Hwalk pw dk Hplain) as (dk' & Elock & Hs). apply clean_sealed in Hs.
  set (dk1 := cleanShardFolderOnExit configDir dk') in *.
  assert (HK : not_shard passwordFile = true) by (apply bool_decide_eq_true, configDir_apart).
  assert (Hprompt : opened dk1 = Session PasswordPromptWindow dk1).
  { unfold open_window. destruct (sealed_in _ _ _ _ _ _ Hs passwordFile _ HK Hconfig Hpf) as (j & Ej).
    unfold DoesUserPasswordExist. cbn [existsb]. change (configDir, "user_password.txt.fcef"%string) with (add_ext passwordFile). rewrite Ej.
    destruct (encrypt j pw (bytes_of_string pw)) eqn:Ec; [now apply Hcipher in Ec |]. cbn [orb]. now rewrite orb_true_r. }
  assert (Hgui : GetUserPassword configDir dk = pw) by (unfold GetUserPassword; now rewrite Hpf, string_bytes).
  exists dk1. split; [| split; [| split; [now rewrite Hprompt | split]]].
  - unfold run_window. cbn [fold_left]. unfold open_window. rewrite Hnew.
    unfold handle at 3. cbn [shown s_disk]. unfold showPasswordSetupWindow. rewrite decide_False by auto.
    unfold handle at 2. cbn [shown s_disk]. unfold handle. cbn [shown close_window s_disk]. unfold encryptFilesOnExit.
    rewrite Hgui, decide_False, Elock by auto. reflexivity.
  - intros p Hb [c Hc]. destruct (sealed_only _ _ _ _ _ _ Hs p Hb ltac:(eauto)) as (q & -> & HKq%bool_decide_eq_true & _).
    cbn [add_ext fst snd]. rewrite strip_add. eauto.
  - intros other Hother. rewrite Hprompt. unfold run_window. cbn [fold_left handle shown s_disk]. unfold showPasswordPromptWindow.
    case_decide; [auto |]. rewrite (unlock_wrong configDir encrypt decrypt walk below Hwalk pw other not_shard dk dk1 Hs HK Hconfig); eauto.
  - destruct (unlock_ok configDir encrypt decrypt walk below Hwalk Hdecrypt pw not_shard dk dk1 Hplain Hs HK Hconfig Hpf) as (dk2 & E2 & H2).
    exists dk2. rewrite Hprompt. unfold run_window. cbn [fold_left handle shown s_disk]. unfold showPasswordPromptWindow.
    rewrite decide_False, E2 by auto. split; [auto |]. intros q. rewrite H2. unfold not_shard.
    destruct (decide (fst q = shardDir)) as [Hq|Hq].
    + rewrite bool_decide_false by (now intros ?). now rewrite Hq, Hshard.
    + rewrite bool_decide_true by auto. now rewrite andb_false_r.
Qed.
End Closing.

(** ** Witness *)

Definition fresh0 : disk := Disk {[ ("/home", "a") := [7]%N ]} ∅.

Lemma close_and_open_again_witness : let run := run_window "/conf" seal unseal walk0 in exists dk1,
  run (open_window "/conf" fresh0) [SetPassword "pw"; Work locked0; CloseWindow] = Session Closed dk1 /\
  (forall p, in_conf (fst p) = true -> is_Some (open dk1 p) -> is_Some (strip_ext (snd p)) /\ fst p <> GetShardDir "/conf") /\
  shown (open_window "/conf" dk1) = PasswordPromptWindow /\
  (forall other, (forall rnd x, unseal other (seal rnd "pw" x) = None) -> run (open_window "/conf" dk1) [Unlock other] = open_window "/conf" dk1) /\
  exists dk2, run (open_window "/conf" dk1) [Unlock "pw"] = Session MainGUIContent dk2 /\
    forall q, open dk2 q = if decide (fst q = GetShardDir "/conf") then None else open locked0 q.
Proof.
  apply (close_and_open_again "/conf" seal unseal walk0 in_conf walk0_ok).
  - intros rnd pw x. cbn. now rewrite N.eqb_refl.
  - intros rnd pw x. discriminate.
  - reflexivity.
  - reflexivity.
  - discriminate.
  - reflexivity.
  - reflexivity.
  - exact locked0_plain.
Defined.
