(* ===== verification/Config.v ===== *)
(** * Restoring a saved configuration (src/fs/dis_config/config.go, the command
    dis_config)

    The directories are a tree: a path is the list of its names from the root, a
    file has a content and a directory has none.  Only what is not there, or of
    the wrong kind, makes an operation of package [os] fail.  [sorted] is the
    order in which [filepath.Walk] visits the names of a directory. *)
From stdpp Require Import base gmap strings list.
From S2P Require Import Prelude.
Import ListNotations.
Local Open Scope go_scope.

Abbreviation tree_path := (list string).

Inductive node : Type :=
| Dir
| File (content : list N).

Abbreviation tree := (gmap tree_path node).

Inductive configError : Type :=
| NotThere (p : tree_path)
| NotADirectory (p : tree_path)
| IsADirectory (p : tree_path)
| WrongName (p : tree_path).

(** ** Package [os] *)

(** The root is always there. *)
Definition Stat (fs : tree) (p : tree_path) : option node := match p with [] => Some Dir | _ => fs !! p end.

(** The prefixes of a path, the shortest first *)
Fixpoint prefixes (done rest : tree_path) : list tree_path :=
  match rest with [] => [done] | n :: rest => done :: prefixes (done ++ [n]) rest end.

Fixpoint make_dirs (l : list tree_path) (fs : tree) : outcome configError tree :=
  match l with
  | [] => Ret fs
  | p :: l =>
      match Stat fs p with
      | Some Dir => make_dirs l fs
      | Some (File _) => Err (NotADirectory p)
      | None => make_dirs l (<[p := Dir]> fs)
      end
  end.

Definition MkdirAll (fs : tree) (p : tree_path) : outcome configError tree := make_dirs (prefixes [] p) fs.

Definition parent (p : tree_path) : tree_path := removelast p.

(** [os.Create] and the content *)
Definition create (fs : tree) (p : tree_path) (content : list N) : outcome configError tree :=
  match Stat fs p with
  | Some Dir => Err (IsADirectory p)
  | Some (File _) => Ret (<[p := File content]> fs)
  | None =>
      match Stat fs (parent p) with
      | Some Dir => Ret (<[p := File content]> fs)
      | Some (File _) => Err (NotADirectory (parent p))
      | None => Err (NotThere (parent p))
      end
  end.

Section Config.
Context (sorted : list string -> list string).

(** The names in a directory *)
Definition child_of (p q : tree_path) : option string :=
  match last q with Some n => if decide (q = p ++ [n]) then Some n else None | None => None end.
Definition readDirNames (fs : tree) (p : tree_path) : list string :=
  sorted (omap (fun '(q, _) => child_of p q) (map_to_list fs)).

(** ** [filepath.Walk]

    The names are read before the function is called on the directory, each
    entry is looked up when its turn comes. *)
Section Walk.
Context (walkFn : tree_path -> node -> tree -> outcome configError tree).

(** The entries of a directory, one after the other *)
Fixpoint visit_names (visit : tree_path -> node -> tree -> outcome configError tree) (p : tree_path) (names : list string) (fs : tree) :
    outcome configError tree :=
  match names with
  | [] => Ret fs
  | name :: names =>
      match Stat fs (p ++ [name]) with
      | None => Err (NotThere (p ++ [name]))
      | Some info => fs <- visit (p ++ [name]) info fs ;; visit_names visit p names fs
      end
  end.

Fixpoint walk (fuel : nat) (p : tree_path) (info : node) (fs : tree) : outcome configError tree :=
  match fuel with
  | O => Timeout
  | S fuel =>
      match info with
      | File _ => walkFn p info fs
      | Dir =>
          let names := readDirNames fs p in
          fs <- walkFn p info fs ;;
          visit_names (walk fuel) p names fs
      end
  end.
End Walk.

(** ** Copies *)

(** [dst] is opened, and cut to nothing, before the first byte of [src] is read. *)
Definition copyFile (src dst : tree_path) (fs : tree) : outcome configError tree :=
  match Stat fs src with
  | None => Err (NotThere src)
  | Some _ =>
      fs <- create fs dst [] ;;
      match Stat fs src with
      | Some (File content) => Ret (<[dst := File content]> fs)
      | _ => Err (IsADirectory src)
      end
  end.

(** [filepath.Join(dst, relPath)] for a path below [src] *)
Definition moved (src dst p : tree_path) : tree_path := dst ++ drop (length src) p.

Definition copy_entry (src dst p : tree_path) (info : node) (fs : tree) : outcome configError tree :=
  match info with Dir => MkdirAll fs (moved src dst p) | File _ => copyFile p (moved src dst p) fs end.

Definition copyDir (fuel : nat) (src dst : tree_path) (fs : tree) : outcome configError tree :=
  match Stat fs src with
  | None => Err (NotThere src)
  | Some (File _) => Err (NotADirectory src)
  | Some Dir => walk (copy_entry src dst) fuel src Dir fs
  end.

(** [rclonePath] is [getRcloneDirPath()], [DoBackup] and [backupDest] are the
    answers of the user; the tree is returned with the error. *)
Definition Config_upload (fuel : nat) (rclonePath savedPath : tree_path) (DoBackup : bool) (backupDest : tree_path) (fs : tree) :
    outcome configError tree :=
  match Stat fs savedPath with
  | None => Err (NotThere savedPath)
  | Some (File _) => Err (NotADirectory savedPath)
  | Some Dir =>
      if decide (last savedPath = Some "rclone"%string) then
        fs <- (match Stat fs (rclonePath ++ ["rclone.conf"%string]) with
               | Some _ =>
                   if DoBackup then
                     match Stat fs backupDest with
                     | Some Dir => copyDir fuel rclonePath backupDest fs
                     | _ => Err (NotADirectory backupDest)
                     end
                   else Ret fs
               | None => Ret fs
               end) ;;
        copyDir fuel savedPath rclonePath fs
      else Err (WrongName savedPath)
  end.
End Config.
