(* ===== verification/ConfigTheorems.v ===== *)
(** * Restoring a saved configuration: what is copied

    The walk visits every entry below a directory once the directory above is
    there; so a copy to another directory copies all of it, and a copy of a
    directory onto itself empties its files. *)
From stdpp Require Import base gmap strings list.
From S2P Require Import Prelude Config.
Import ListNotations.
Local Open Scope go_scope.

(** ** Directories *)

Lemma snoc_app {A} (r s : list A) n : r ++ n :: s = (r ++ [n]) ++ s.
Proof. now rewrite <- app_assoc. Qed.

Lemma make_dirs_last fs p q : forall rest done, q = done ++ rest -> (forall r n s, rest = r ++ n :: s -> Stat fs (done ++ r) = Some Dir) ->
  Stat fs q = p ->
  make_dirs (prefixes done rest) fs =
    match p with Some Dir => Ret fs | Some (File _) => Err (NotADirectory q) | None => Ret (<[q := Dir]> fs) end.
Proof.
  induction rest as [|n rest IH]; intros done -> Hdirs Hp; cbn [prefixes make_dirs].
  - rewrite app_nil_r in *. rewrite Hp. now destruct p as [[]|].
  - assert (Hd := Hdirs [] n rest eq_refl). rewrite app_nil_r in Hd. rewrite Hd. rewrite (IH (done ++ [n])); [| | | exact Hp].
    + reflexivity.
    + now rewrite <- app_assoc.
    + intros r n' s ->. rewrite <- app_assoc. apply (Hdirs (n :: r) n' s). reflexivity.
Qed.

Lemma MkdirAll_last fs q : (forall r n s, q = r ++ n :: s -> Stat fs r = Some Dir) ->
  MkdirAll fs q = match Stat fs q with Some Dir => Ret fs | Some (File _) => Err (NotADirectory q) | None => Ret (<[q := Dir]> fs) end.
Proof. intros Hd. unfold MkdirAll. apply make_dirs_last; auto. Qed.

(** ** The walk *)

Definition is_dir (e : node) : bool := match e with Dir => true | File _ => false end.

Section Walk.
Context (sorted : list string -> list string) (Hsorted : forall l n, n ∈ sorted l <-> n ∈ l).
Context (walkFn : tree_path -> node -> tree -> outcome configError tree).
(** Where the walk starts, the tree then, what stays true, and where and what is
    written for every entry *)
Context (fs0 : tree) (src dst : tree_path) (I : tree -> Prop) (val : tree_path -> node).
Context (Hsrc : src <> []).
Context (Hkinds : forall fs r, I fs -> is_dir <$> fs !! (src ++ r) = is_dir <$> fs0 !! (src ++ r)).
Context (Hparents : forall r n, is_Some (fs0 !! (src ++ r ++ [n])) -> fs0 !! (src ++ r) = Some Dir).

(** The directories above are there. *)
Definition ready (fs : tree) (r : tree_path) : Prop := forall r' n s, r = r' ++ n :: s -> fs !! (dst ++ r') = Some Dir.

Context (Hval : forall r e, fs0 !! (src ++ r) = Some e -> is_dir (val r) = is_dir e).
Context (Hstep : forall r e info fs, I fs -> fs0 !! (src ++ r) = Some e -> is_dir info = is_dir e -> ready fs r ->
  exists fs', walkFn (src ++ r) info fs = Ret fs' /\ I fs' /\ fs' !! (dst ++ r) = Some (val r) /\
    forall q, q <> dst ++ r -> fs' !! q = fs !! q).

Lemma Stat_src fs r : Stat fs (src ++ r) = fs !! (src ++ r).
Proof. destruct src; [congruence | reflexivity]. Qed.

Lemma child_names fs r n : I fs -> n ∈ readDirNames sorted fs (src ++ r) <-> is_Some (fs0 !! (src ++ r ++ [n])).
Proof.
  intros HI. unfold readDirNames. rewrite Hsorted, list_elem_of_omap.
  assert (Hk : is_Some (fs0 !! (src ++ r ++ [n])) <-> is_Some (fs !! (src ++ r ++ [n]))).
  { assert (E := Hkinds fs (r ++ [n]) HI). destruct (fs !! _), (fs0 !! _); cbn in E; try discriminate; split; eauto. }
  rewrite Hk. split.
  - intros ([q e] & Hq%elem_of_map_to_list & Hc). unfold child_of in Hc. destruct (last q) as [n'|]; [| discriminate].
    case_decide as Eq; [| discriminate]. injection Hc as ->. rewrite app_assoc, <- Eq. eauto.
  - intros [e He]. exists (src ++ r ++ [n], e). split; [now apply elem_of_map_to_list |]. unfold child_of.
    rewrite app_assoc, last_snoc, decide_True; auto.
Qed.

(** The entries below [r] are written and nothing else is. *)
Definition visited (fs fs' : tree) (r : tree_path) : Prop :=
  (forall s, is_Some (fs0 !! (src ++ r ++ s)) -> fs' !! (dst ++ r ++ s) = Some (val (r ++ s))) /\
  (forall q, (forall s, is_Some (fs0 !! (src ++ r ++ s)) -> q <> dst ++ r ++ s) -> fs' !! q = fs !! q).

Lemma ancestors s : forall r n, is_Some (fs0 !! (src ++ r ++ n :: s)) -> is_Some (fs0 !! (src ++ r ++ [n])) /\ fs0 !! (src ++ r) = Some Dir.
Proof.
  induction s as [|x s IH] using rev_ind; intros r n Hs; [split; [exact Hs | now apply (Hparents r n)] |].
  apply IH. assert (E := Hparents (r ++ n :: s) x). rewrite <- app_assoc in E. cbn [app] in E. rewrite E; eauto.
Qed.

Lemma longer (r s : tree_path) n : dst ++ r <> dst ++ r ++ n :: s.
Proof. intros E. apply (f_equal length) in E. rewrite !length_app in E. cbn in E. lia. Qed.

Lemma ready_outside (fs fs' : tree) r r' n : ready fs r -> (forall q, (forall s, q <> dst ++ r ++ n :: s) -> fs' !! q = fs !! q) ->
  (exists s, r = r' ++ s) -> fs !! (dst ++ r') = Some Dir -> fs' !! (dst ++ r') = Some Dir.
Proof.
  intros _ Hout [s ->] Hd. rewrite Hout; [auto |]. intros s' E. rewrite <- app_assoc in E.
  apply (f_equal length) in E. rewrite !length_app in E. cbn in E. lia.
Qed.

Lemma visit_ok visit r : (forall n e info (fs : tree), I fs -> fs0 !! (src ++ r ++ [n]) = Some e -> is_dir info = is_dir e -> ready fs (r ++ [n]) ->
    exists fs', visit (src ++ r ++ [n]) info fs = Ret fs' /\ I fs' /\ visited fs fs' (r ++ [n])) ->
  forall names fs, I fs -> (forall n, n ∈ names -> is_Some (fs0 !! (src ++ r ++ [n]))) -> ready fs r -> fs !! (dst ++ r) = Some Dir ->
  exists fs', visit_names visit (src ++ r) names fs = Ret fs' /\ I fs' /\
    (forall n s, n ∈ names -> is_Some (fs0 !! (src ++ r ++ n :: s)) -> fs' !! (dst ++ r ++ n :: s) = Some (val (r ++ n :: s))) /\
    (forall q, (forall n s, n ∈ names -> is_Some (fs0 !! (src ++ r ++ n :: s)) -> q <> dst ++ r ++ n :: s) -> fs' !! q = fs !! q).
Proof.
  intros Hvisit names. induction names as [|n names IH]; intros fs HI Hn Hr Hd; cbn [visit_names].
  { exists fs. splits; auto. intros n s []%elem_of_nil. }
  destruct (Hn n (list_elem_of_here _ _)) as [e He].
  assert (Ek := Hkinds fs (r ++ [n]) HI). rewrite He in Ek. destruct (fs !! (src ++ r ++ [n])) as [info|] eqn:Ei; [| discriminate].
  injection Ek as Ek. rewrite <- (app_assoc src r [n]), Stat_src, Ei.
  assert (Hr' : ready fs (r ++ [n])).
  { intros r' n' s E. destruct s as [|x s _] using rev_ind.
    - apply app_inj_tail in E as [<- _]. exact Hd.
    - rewrite app_comm_cons, app_assoc in E. apply app_inj_tail in E as [E _]. now apply (Hr r' n' s). }
  destruct (Hvisit n e info fs HI He Ek Hr') as (fs1 & -> & HI1 & Hin1 & Hout1). cbn [bind].
  assert (Hout1' : forall q, (forall s, q <> dst ++ r ++ n :: s) -> fs1 !! q = fs !! q).
  { intros q Hq. apply Hout1. intros s _. rewrite <- app_assoc. apply Hq. }
  destruct (IH fs1) as (fs2 & -> & HI2 & Hin2 & Hout2); [auto | intros n' Hn'; apply Hn; set_solver | | |].
  { intros r' n' s E. apply (ready_outside fs fs1 r r' n Hr Hout1'); [eauto | now apply (Hr r' n' s)]. }
  { rewrite Hout1'; [auto | intros s; apply longer]. }
  exists fs2. splits; auto.
  - intros n' s Hn' Hs. destruct (decide (n' ∈ names)) as [Hin|Hnot]; [auto |]. assert (n' = n) as -> by set_solver.
    rewrite Hout2.
    + rewrite (snoc_app r s n) in Hs |- *. now apply Hin1.
    + intros n' s' Hin' _ E. apply app_inv_head, app_inv_head in E. congruence.
  - intros q Hq. rewrite Hout2 by (intros n' s Hn'; apply Hq; set_solver). apply Hout1. intros s Hs. rewrite <- snoc_app in Hs |- *.
    apply (Hq n s); [set_solver | exact Hs].
Qed.
Lemma walk_ok fuel : forall r e info fs, I fs -> fs0 !! (src ++ r) = Some e -> is_dir info = is_dir e -> ready fs r ->
  (forall s, is_Some (fs0 !! (src ++ r ++ s)) -> length s < fuel) ->
  exists fs', walk sorted walkFn fuel (src ++ r) info fs = Ret fs' /\ I fs' /\ visited fs fs' r.
Proof.
  induction fuel as [|fuel IH]; intros r e info fs HI He Hinfo Hready Hdepth; cbn [walk].
  { specialize (Hdepth []). rewrite app_nil_r in Hdepth. rewrite He in Hdepth. specialize (Hdepth ltac:(eauto)). lia. }
  destruct (Hstep r e info fs HI He Hinfo Hready) as (fs1 & E1 & HI1 & Hv1 & Hout1).
  destruct info.
  - assert (Hself : forall q, q <> dst ++ r -> fs1 !! q = fs !! q) by exact Hout1. rewrite E1. cbn [bind].
    destruct (visit_ok (walk sorted walkFn fuel) r) with (names := readDirNames sorted fs (src ++ r)) (fs := fs1)
      as (fs2 & -> & HI2 & Hin2 & Hout2); auto.
    + intros n e' info fs' HI' He' Hinfo' Hready'.
      apply (IH (r ++ [n]) e'); auto. intros s Hs. rewrite <- snoc_app in Hs. specialize (Hdepth (n :: s) Hs). cbn in Hdepth. lia.
    + intros n Hn. now apply (child_names fs r n HI).
    + intros r' n s E. rewrite Hself; [now apply (Hready r' n s) |]. subst r. apply longer.
    + rewrite Hv1. f_equal. specialize (Hval r e He). cbn in Hinfo. destruct (val r); [auto | cbn in *; congruence].
    + exists fs2. splits; auto. split.
      * intros [|n s] Hs; [| apply Hin2; [| exact Hs]; apply (child_names fs r n HI); now apply (ancestors s r n)].
        rewrite !app_nil_r. rewrite Hout2; [exact Hv1 |]. intros n s _ _. apply longer.
      * intros q Hq. rewrite Hout2 by (intros n s _; apply Hq). apply Hself. specialize (Hq []). rewrite !app_nil_r in Hq. apply Hq. eauto.
  - rewrite E1. exists fs1. splits; auto. split.
    + intros [|n s] Hs; [now rewrite !app_nil_r |]. apply ancestors in Hs as [_ Hd]. rewrite Hd in He. injection He as <-. discriminate.
    + intros q Hq. apply Hout1. specialize (Hq []). rewrite !app_nil_r in Hq. apply Hq. eauto.
Qed.
End Walk.

(** ** Copies of one entry *)

Lemma create_ok fs p c : (forall e, Stat fs p = Some e -> is_dir e = false) -> Stat fs (parent p) = Some Dir ->
  create fs p c = Ret (<[p := File c]> fs).
Proof.
  intros Hp Hd. unfold create. rewrite Hd. destruct (Stat fs p) as [[]|] eqn:E; [| auto | auto]. now specialize (Hp Dir eq_refl).
Qed.

Lemma parent_app (p r : tree_path) n : parent (p ++ r ++ [n]) = p ++ r.
Proof. unfold parent. rewrite app_assoc. apply removelast_last. Qed.

Section Copy.
Context (fs0 : tree) (src dst : tree_path).
Context (Hsrc : src <> []) (Hdst : dst <> []) (Hdir : fs0 !! src = Some Dir).
Context (Hparents : forall p n, p <> [] -> is_Some (fs0 !! (p ++ [n])) -> fs0 !! p = Some Dir).

(** What is at the target is of the same kind, and its ancestors are directories. *)
Record fits (fs : tree) : Prop := {
  fits_kind : forall r e e', fs0 !! (src ++ r) = Some e -> fs !! (dst ++ r) = Some e' -> is_dir e' = is_dir e;
  fits_above : forall r n s, dst = r ++ n :: s -> Stat fs r = Some Dir
}.

Lemma Stat_below fs (p r : tree_path) : p <> [] -> Stat fs (p ++ r) = fs !! (p ++ r).
Proof. now destruct p. Qed.

Lemma above_ok fs r : fits fs -> ready dst fs r -> forall r1 n s, dst ++ r = r1 ++ n :: s -> Stat fs r1 = Some Dir.
Proof.
  intros Hfit Hready r1 n s E. apply app_eq_inv in E as [(k & Ed & E)|(k & -> & E)].
  - destruct k as [|n' k]; cbn in E.
    + rewrite app_nil_r in Ed. rewrite <- Ed, <- (app_nil_r dst), Stat_below by auto. now apply (Hready [] n s).
    + injection E as <- _. now apply (fits_above fs Hfit r1 n k).
  - rewrite Stat_below by auto. now apply (Hready k n s).
Qed.

(** The steps of [copy_entry]: a directory is made, a file gets the content that
    [src] has once the target is open. *)
Lemma copy_dir_ok fs r : fits fs -> ready dst fs r -> fs0 !! (src ++ r) = Some Dir ->
  exists fs', copy_entry src dst (src ++ r) Dir fs = Ret fs' /\ fs' !! (dst ++ r) = Some Dir /\ forall q, q <> dst ++ r -> fs' !! q = fs !! q.
Proof.
  intros Hfit Hready He. cbn [copy_entry]. unfold moved. rewrite drop_app_length.
  rewrite MkdirAll_last by (apply above_ok; auto). rewrite Stat_below by auto. destruct (fs !! (dst ++ r)) as [e'|] eqn:E.
  - assert (Hk := fits_kind fs Hfit r Dir e' He E). destruct e'; [| discriminate]. exists fs. auto.
  - eexists. split; [reflexivity |]. split; [apply lookup_insert_eq |]. intros q Hq. now apply lookup_insert_ne.
Qed.

Lemma copy_file_ok fs r c c' e : fits fs -> ready dst fs r -> fs0 !! (src ++ r) = Some (File c) -> fs !! (src ++ r) = Some e ->
  <[dst ++ r := File []]> fs !! (src ++ r) = Some (File c') ->
  exists fs', copyFile (src ++ r) (moved src dst (src ++ r)) fs = Ret fs' /\ fs' !! (dst ++ r) = Some (File c') /\
    forall q, q <> dst ++ r -> fs' !! q = fs !! q.
Proof.
  intros Hfit Hready He Hs Hc. unfold copyFile, moved. rewrite drop_app_length, !Stat_below, Hs by auto.
  destruct r as [|n r _] using rev_ind; [rewrite app_nil_r in He; congruence |].
  rewrite create_ok.
  - cbn [bind]. rewrite Stat_below, Hc by auto. eexists. split; [reflexivity |]. split; [apply lookup_insert_eq |].
    intros q Hq. now rewrite !lookup_insert_ne by auto.
  - intros e' E. rewrite Stat_below in E by auto. exact (fits_kind fs Hfit _ _ _ He E).
  - rewrite parent_app, Stat_below by auto. now apply (Hready r n []).
Qed.
Lemma fits_step fs fs' r e v : fits fs -> fs0 !! (src ++ r) = Some e -> is_dir v = is_dir e ->
  fs' !! (dst ++ r) = Some v -> (forall q, q <> dst ++ r -> fs' !! q = fs !! q) -> fits fs'.
Proof.
  intros [Hk Ha] He Hv Hr Hout. split.
  - intros r' e1 e2 E1 E2. destruct (decide (r' = r)) as [->|Hne]; [congruence |].
    rewrite Hout in E2 by (intros E; now apply app_inv_head in E). now apply (Hk r' e1 e2).
  - intros r1 n s E. assert (E1 := Ha r1 n s E). destruct r1 as [|x r1]; [reflexivity |]. cbn [Stat] in *. rewrite Hout; [auto |].
    rewrite E. intros E2. apply (f_equal length) in E2. rewrite !length_app in E2. cbn in E2. lia.
Qed.

Lemma below_parents r n : is_Some (fs0 !! (src ++ r ++ [n])) -> fs0 !! (src ++ r) = Some Dir.
Proof. rewrite app_assoc. apply Hparents. now destruct src. Qed.

Context (sorted : list string -> list string) (Hsorted : forall l n, n ∈ sorted l <-> n ∈ l).
Context (fuel : nat) (Hfuel : forall r, is_Some (fs0 !! (src ++ r)) -> length r < fuel).

(** The entries below [src] are at [dst] with the values [val], nothing else has changed. *)
Definition copied (val : node -> node) (fs fs' : tree) : Prop :=
  (forall r e, fs0 !! (src ++ r) = Some e -> fs' !! (dst ++ r) = Some (val e)) /\
  (forall q, (forall r, is_Some (fs0 !! (src ++ r)) -> q <> dst ++ r) -> fs' !! q = fs !! q).

(** A walk from a tree that has the entries of [fs0] below [src] *)
Lemma copy_walk (I : tree -> Prop) (val : node -> node) fs : I fs -> (forall fs, I fs -> fits fs) ->
  (forall fs r, I fs -> is_dir <$> fs !! (src ++ r) = is_dir <$> fs0 !! (src ++ r)) -> (forall e, is_dir (val e) = is_dir e) ->
  (forall fs fs' r e, I fs -> fs0 !! (src ++ r) = Some e -> fs' !! (dst ++ r) = Some (val e) ->
    (forall q, q <> dst ++ r -> fs' !! q = fs !! q) -> I fs') ->
  (forall fs r c, I fs -> fs0 !! (src ++ r) = Some (File c) -> <[dst ++ r := File []]> fs !! (src ++ r) = Some (val (File c))) ->
  exists fs', copyDir sorted fuel src dst fs = Ret fs' /\ I fs' /\ copied val fs fs'.
Proof.
  intros HI Hfits Hkinds Hval Hstep Hfile. unfold copyDir.
  assert (Ek := Hkinds fs [] HI). rewrite app_nil_r, Hdir in Ek.
  assert (Est := Stat_below fs src [] Hsrc). rewrite app_nil_r in Est. rewrite Est.
  destruct (fs !! src) as [[]|] eqn:Es; try discriminate.
  set (val' := fun r => default Dir (val <$> fs0 !! (src ++ r))).
  destruct (walk_ok sorted Hsorted (copy_entry src dst) fs0 src dst I val' Hsrc Hkinds below_parents) with (fuel := fuel) (r := @nil string) (e := Dir) (info := Dir) (fs := fs)
    as (fs' & E & HI' & Hin & Hout); auto.
  - intros r e E. unfold val'. rewrite E. apply Hval.
  - intros r e info fs1 HI1 He Hinfo Hready. unfold val'. rewrite He. cbn [fmap option_fmap option_map default].
    assert (Hs := Hkinds fs1 r HI1). rewrite He in Hs. destruct (fs1 !! (src ++ r)) as [e1|] eqn:E1; [| discriminate].
    assert (Hstep1 : exists fs', copy_entry src dst (src ++ r) info fs1 = Ret fs' /\ fs' !! (dst ++ r) = Some (val e) /\ forall q, q <> dst ++ r -> fs' !! q = fs1 !! q).
    { destruct e as [|c]; destruct info as [|c1]; try discriminate.
      - replace (val Dir) with Dir by (specialize (Hval Dir); now destruct (val Dir)). now apply copy_dir_ok; auto.
      - assert (Hc := Hfile fs1 r c HI1 He). assert (Hv := Hval (File c)). destruct (val (File c)) as [|c'] eqn:Ev; [discriminate |].
        cbn [copy_entry]. apply (copy_file_ok fs1 r c c' e1); auto. }
    destruct Hstep1 as (fs2 & E2 & Hv & Ho). exists fs2. splits; auto. now apply (Hstep fs1 fs2 r e).
  - now rewrite app_nil_r.
  - intros r' n s E. now destruct r'.
  - exists fs'. rewrite app_nil_r in E. cbn [app] in Hin, Hout. splits; auto. split; [| exact Hout].
    intros r e He. rewrite Hin by eauto. unfold val'. now rewrite He.
Qed.
End Copy.

(** ** Copies of a directory *)

Definition tree_ok (fs : tree) : Prop := forall p n, p <> [] -> is_Some (fs !! (p ++ [n])) -> fs !! p = Some Dir.

(** Neither is below the other. *)
Definition apart (p q : tree_path) : Prop := forall r s, p ++ r <> q ++ s.

(** [fuel] is more than the depth below [p]. *)
Definition deep_enough (fuel : nat) (fs : tree) (p : tree_path) : Prop := forall r, is_Some (fs !! (p ++ r)) -> length r < fuel.

Section Copies.
Context (sorted : list string -> list string) (Hsorted : forall l n, n ∈ sorted l <-> n ∈ l).

Lemma copy_apart fs0 src dst fuel fs : src <> [] -> dst <> [] -> fs0 !! src = Some Dir -> tree_ok fs0 -> apart src dst ->
  deep_enough fuel fs0 src -> (forall r, fs !! (src ++ r) = fs0 !! (src ++ r)) -> fits fs0 src dst fs ->
  exists fs', copyDir sorted fuel src dst fs = Ret fs' /\ copied fs0 src dst id fs fs'.
Proof.
  intros Hsrc Hdst Hdir Hok Hap Hdeep Hsame Hfit.
  destruct (copy_walk fs0 src dst Hsrc Hdst Hdir Hok sorted Hsorted fuel Hdeep
    (fun fs => (forall r, fs !! (src ++ r) = fs0 !! (src ++ r)) /\ fits fs0 src dst fs) id fs) as (fs' & E & _ & Hc); eauto.
  - now intros fs1 [_ H1].
  - intros fs1 r [H1 _]. now rewrite H1.
  - intros fs1 fs2 r e [H1 H2] He Hv Ho. split; [| now apply (fits_step fs0 src dst fs1 fs2 r e e)].
    intros r'. rewrite Ho by apply Hap. apply H1.
  - intros fs1 r c [H1 _] He. rewrite lookup_insert_ne; [now rewrite H1 | apply not_eq_sym, Hap].
Qed.

(** A file that is read once it has been opened for writing is empty. *)
Definition emptied (e : node) : node := match e with Dir => Dir | File _ => File [] end.

Lemma copy_self fs p fuel : p <> [] -> fs !! p = Some Dir -> tree_ok fs -> deep_enough fuel fs p ->
  (forall r n s, p = r ++ n :: s -> Stat fs r = Some Dir) ->
  exists fs', copyDir sorted fuel p p fs = Ret fs' /\ copied fs p p emptied fs fs'.
Proof.
  intros Hp Hdir Hok Hdeep Habove.
  assert (Hfit : fits fs p p fs) by (split; [intros r e e' E E'; congruence | exact Habove]).
  assert (Hem : forall e, is_dir (emptied e) = is_dir e) by now intros [].
  destruct (copy_walk fs p p Hp Hp Hdir Hok sorted Hsorted fuel Hdeep
    (fun fs1 => (forall r, is_dir <$> fs1 !! (p ++ r) = is_dir <$> fs !! (p ++ r)) /\ fits fs p p fs1) emptied fs) as (fs' & E & _ & Hc); eauto.
  - now intros fs1 [_ H1].
  - now intros fs1 r [H1 _].
  - intros fs1 fs2 r e [H1 H2] He Hv Ho. split; [| now apply (fits_step fs p p fs1 fs2 r e (emptied e))].
    intros r'. destruct (decide (r' = r)) as [->|Hne]; [rewrite Hv, He; cbn; now rewrite Hem |].
    rewrite Ho by (intros E; now apply app_inv_head in E). apply H1.
  - intros fs1 r c _ _. apply lookup_insert_eq.
Qed.

(** C33: with a backup asked for, [dis_config] leaves in the backup all that was in
    the directory of rclone, and in that directory all that was saved, over what
    was there; the names that were not saved stay.  The three directories are
    apart, and nothing has the place of an entry of the other kind. *)
Theorem Config_upload_restores fs rclonePath savedPath backupDest fuel :
  tree_ok fs -> fs !! savedPath = Some Dir -> fs !! rclonePath = Some Dir -> fs !! backupDest = Some Dir ->
  savedPath <> [] -> rclonePath <> [] -> backupDest <> [] -> last savedPath = Some "rclone"%string ->
  is_Some (Stat fs (rclonePath ++ ["rclone.conf"%string])) ->
  apart rclonePath backupDest -> apart savedPath rclonePath -> apart savedPath backupDest ->
  fits fs rclonePath backupDest fs -> fits fs savedPath rclonePath fs ->
  deep_enough fuel fs rclonePath -> deep_enough fuel fs savedPath ->
  exists fs2, Config_upload sorted fuel rclonePath savedPath true backupDest fs = Ret fs2 /\
    (forall r e, fs !! (rclonePath ++ r) = Some e -> fs2 !! (backupDest ++ r) = Some e) /\
    (forall r e, fs !! (savedPath ++ r) = Some e -> fs2 !! (rclonePath ++ r) = Some e) /\
    (forall r, fs !! (savedPath ++ r) = None -> fs2 !! (rclonePath ++ r) = fs !! (rclonePath ++ r)).
Proof.
  intros Hok Hs Hr Hb Hs0 Hr0 Hb0 Hname [conf Hconf] Hrb Hsr Hsb Hfrb Hfsr Hdr Hds. unfold Config_upload.
  assert (Est : forall p, p <> [] -> Stat fs p = fs !! p) by now intros [].
  rewrite (Est savedPath Hs0), Hs, decide_True, Hconf, (Est backupDest Hb0), Hb by auto.
  destruct (copy_apart fs rclonePath backupDest fuel fs) as (fs1 & E1 & Hin1 & Hout1); auto. rewrite E1. cbn [bind].
  assert (Hrc : forall r, fs1 !! (rclonePath ++ r) = fs !! (rclonePath ++ r)) by (intros r; apply Hout1; intros r' _; apply Hrb).
  assert (Hsv : forall r, fs1 !! (savedPath ++ r) = fs !! (savedPath ++ r)) by (intros r; apply Hout1; intros r' _; apply Hsb).
  destruct (copy_apart fs savedPath rclonePath fuel fs1) as (fs2 & E2 & Hin2 & Hout2); auto.
  { split; [intros r e e' E E'; rewrite Hrc in E'; now apply (fits_kind fs _ _ fs Hfsr r e e') |].
    intros r n s E. assert (Ha := fits_above fs _ _ fs Hfsr r n s E). destruct r as [|x r]; [reflexivity |]. cbn [Stat] in *.
    rewrite Hout1; [exact Ha |]. intros r' _ E'. apply (Hrb [] (r' ++ n :: s)). now rewrite app_nil_r, E, E', <- app_assoc. }
  exists fs2. split; [exact E2 |]. split; [| split].
  - intros r e E. rewrite Hout2; [now apply Hin1 |]. intros r' _ E'. apply (Hrb r' r). now rewrite E'.
  - exact Hin2.
  - intros r E. rewrite Hout2; [apply Hrc |]. intros r' [e He] E'. apply app_inv_head in E' as <-. congruence.
Qed.

(** [dis_config] on the directory of rclone itself copies every file onto
    itself: it is opened for writing before it is read, so that all the files are
    empty afterwards, the configuration and the map of files among them, and no
    error is returned. *)
Theorem Config_upload_self fs p backupDest fuel :
  tree_ok fs -> fs !! p = Some Dir -> p <> [] -> last p = Some "rclone"%string -> deep_enough fuel fs p ->
  (forall r n s, p = r ++ n :: s -> Stat fs r = Some Dir) ->
  exists fs', Config_upload sorted fuel p p false backupDest fs = Ret fs' /\
    (forall r c, fs !! (p ++ r) = Some (File c) -> fs' !! (p ++ r) = Some (File [])) /\
    (forall q, (forall r, q <> p ++ r) -> fs' !! q = fs !! q).
Proof.
  intros Hok Hd Hp Hname Hdeep Habove. destruct (copy_self fs p fuel) as (fs' & E & Hin & Hout); auto.
  exists fs'. split; [| split].
  - unfold Config_upload. replace (Stat fs p) with (Some Dir) by (rewrite <- Hd; now destruct p). rewrite decide_True by auto.
    destruct (Stat fs (p ++ ["rclone.conf"%string])); exact E.
  - intros r c Hr. apply (Hin r (File c) Hr).
  - intros q Hq. apply Hout. intros r _. apply Hq.
Qed.
End Copies.

(** ** Concrete trees *)

Definition tree0 : tree := list_to_map
  [(["saved"], Dir); (["saved"; "rclone"], Dir); (["saved"; "rclone"; "rclone.conf"], File [1; 2]%N);
   (["saved"; "rclone"; "data"], Dir); (["saved"; "rclone"; "data"; "datamap.json"], File [3]%N);
   (["cfg"], Dir); (["cfg"; "rclone.conf"], File [9]%N); (["cfg"; "old"], File [8]%N); (["back"], Dir)]%string.

Definition saved0 : tree_path := ["saved"; "rclone"]%string.
Definition cfg0 : tree_path := ["cfg"]%string.
Definition back0 : tree_path := ["back"]%string.

Lemma tree0_entries q : is_Some (tree0 !! q) -> q ∈ [["saved"]; ["saved"; "rclone"]; ["saved"; "rclone"; "rclone.conf"]; ["saved"; "rclone"; "data"];
  ["saved"; "rclone"; "data"; "datamap.json"]; ["cfg"]; ["cfg"; "rclone.conf"]; ["cfg"; "old"]; ["back"]]%string.
Proof. intros [e He]. apply elem_of_list_to_map_2, (list_elem_of_fmap_2 fst) in He. exact He. Qed.

Ltac tree0_cases H := apply tree0_entries in H; repeat (apply elem_of_cons in H as [H|H]); [.. | now apply elem_of_nil in H].

Lemma tree0_ok : tree_ok tree0.
Proof.
  intros p n Hp H. tree0_cases H; apply (f_equal (@removelast _)) in H; rewrite removelast_last in H; subst p; first [now destruct Hp | reflexivity].
Qed.

Lemma tree0_deep p : p ∈ [saved0; cfg0] -> deep_enough 3 tree0 p.
Proof.
  intros Hp r H. repeat (apply elem_of_cons in Hp as [->|Hp]); [| | now apply elem_of_nil in Hp]; cbn [app saved0 cfg0] in H;
    tree0_cases H; try discriminate; injection H as ->; cbn; lia.
Qed.

Lemma tree0_fits src dst : (src, dst) ∈ [(cfg0, back0); (saved0, cfg0)] -> fits tree0 src dst tree0.
Proof.
  intros Hp. split.
  - intros r e e' E E'. assert (H : is_Some (tree0 !! (src ++ r))) by eauto. revert E E'.
    repeat (apply elem_of_cons in Hp as [[= -> ->]|Hp]); [| | now apply elem_of_nil in Hp]; cbn [app saved0 cfg0 back0] in H |- *;
      tree0_cases H; try discriminate; injection H as ->; vm_compute; intros; now simplify_eq.
  - intros r n s E. destruct r as [|x r]; [reflexivity |]. exfalso.
    repeat (apply elem_of_cons in Hp as [[= -> ->]|Hp]); [| | now apply elem_of_nil in Hp]; now destruct r.
Qed.

Lemma Config_upload_restores_witness : exists fs2, Config_upload id 3 cfg0 saved0 true back0 tree0 = Ret fs2 /\
  fs2 !! (back0 ++ ["rclone.conf"%string]) = Some (File [9]%N) /\ fs2 !! (cfg0 ++ ["rclone.conf"%string]) = Some (File [1; 2]%N) /\
  fs2 !! (cfg0 ++ ["old"%string]) = Some (File [8]%N).
Proof.
  assert (Hap : forall x y (p q r s : tree_path), x <> y -> (x :: p) ++ r <> (y :: q) ++ s) by (intros x y p q r s Hne [=]; congruence).
  destruct (Config_upload_restores id (fun l n => iff_refl _) tree0 cfg0 saved0 back0 3 tree0_ok eq_refl eq_refl eq_refl)
    as (fs2 & E & Hb & Hs & Ho); [discriminate | discriminate | discriminate | reflexivity | now eexists | | | | | | | |].
  1-3: intros r s; now apply Hap.
  1-2: apply tree0_fits; set_solver.
  1-2: apply tree0_deep; set_solver.
  exists fs2. split; [exact E |]. split; [now apply Hb |]. split; [now apply Hs |]. now rewrite Ho.
Defined.

Lemma Config_upload_self_witness : exists fs', Config_upload id 3 saved0 saved0 false back0 tree0 = Ret fs' /\
  fs' !! (saved0 ++ ["rclone.conf"%string]) = Some (File []).
Proof.
  destruct (Config_upload_self id (fun l n => iff_refl _) tree0 saved0 back0 3 tree0_ok eq_refl)
    as (fs' & E & Hf & _); [discriminate | reflexivity | | |].
  - apply tree0_deep. set_solver.
  - intros [|x [|y [|z r]]] n s E; [reflexivity | now injection E as <- _ | discriminate | discriminate].
  - exists fs'. split; [exact E |]. now apply (Hf ["rclone.conf"%string] [1; 2]%N).
Defined.
