(* ===== verification/OperationsTheorems.v ===== *)
(** * The properties of the commands on distributed files

    Upload and download, removal, recovery, and copies that fail; the witnesses use
    remotes that are a map and remotes that refuse one shard. *)
From Stdlib Require Import Ascii.
From stdpp Require Import base gmap strings list.
From S2P Require Import Prelude RSTypes Galois Options Codec NewEncoder CodecTheorems Stream StreamCorrect StreamTheorems.
From S2P Require Import FileCodec FileCodecCorrect FileTheorems Command Datamap DatamapTheorems LoadBalance LoadBalanceTheorems.
From S2P Require Import Transfer TransferCorrect RemovalCorrect Password Operations RoundTrip.
Import ListNotations.
Local Open Scope go_scope.

(** ** Upload and download *)

Section RoundTrip.
Context {F S : Type} `{GoodFloat64 F} `{MapRangeOk} `{GoodStore S}.
Context (cpu : machine) (stream_sched : schedule) (ci : ConfigInfo) (cwd configDir : string) (sha256 : list N -> string).
Context (hash : string -> string).
Context (encrypt : nat -> string -> list N -> list N) (decrypt : string -> list N -> option (list N)) (reuse : nat -> bool).
Context (remotes : list Remote) (about : Remote -> option Z) (order : list Remote -> list Remote).
(** The speeds, the schedules and the random password of the two commands *)
Context (speed speed' : string -> F) (sched sched' : list nat) (randomPassword randomPassword' : option string) (rnd : nat).
Context (Hcpu : machine_ok cpu) (Hstream : schedule_ok stream_sched) (Hci : (1 <= Retries ci)%Z).
Context (Hcipher : forall rnd pw x, bytes_ok x -> bytes_ok (encrypt rnd pw x) /\ encrypt rnd pw x <> [])
  (Hdecrypt : forall rnd pw x, decrypt pw (encrypt rnd pw x) = Some x).
Context (Hrem : remotes <> []) (Hzero : finite zero = true) (Hspeed : forall n, finite (speed n) = true)
  (Hspeed' : forall n, finite (speed' n) = true).
Context (Hsched : forall i, i < 256 -> 4 <= turns i sched) (Hsched' : forall i, i < 256 -> 2 <= turns i sched').

(** C1: a file that [dis_upload] puts on the remotes is given back by
    [dis_download], byte for byte, in every schedule of the goroutines, although
    the remotes lose any parity-many of its shards in between.  Where a shard is
    lost is read off the entry that the upload left in the map. *)
Theorem upload_download (arg out : string) x m (w : world F S) c :
  let absolutePath := split_path (getAbsolutePath cwd arg) in
  hash_apart hash (Base arg) -> open (w_disk w) absolutePath = Some x -> bytes_ok x -> flags_ok (w_flags w) ->
  fst absolutePath <> GetShardDir configDir -> Base arg <> EmptyString -> clean (w_stats w) ->
  dm_has (w_datamap w) m -> m !! Base arg = None -> is_Some randomPassword ->
  lb_ready (lb_file (w_balancer w)) c -> (0 <= c)%Z -> (c + 256 < 2 ^ 63)%Z ->
  exists w1 f,
    Dis_Upload cpu stream_sched ci cwd configDir sha256 hash encrypt remotes about order speed sched randomPassword rnd
      [arg] false RoundRobin w = Ret (w1, inl tt) /\
    dm_has (w_datamap w1) (<[Base arg := f]> m) /\ Flag f = false /\
    forall kept st2, Z.of_nat (length kept) = (Shard f + Parity f)%Z -> (Shard f <= Z.of_nat (length (List.filter id kept)))%Z ->
      losses hash arg f kept (w_store w1) st2 ->
      exists w2,
        Dis_Download cpu stream_sched ci cwd configDir sha256 hash decrypt reuse speed' sched' randomPassword' false
          [Base arg; out] false (later cwd out w1 st2) = Ret (w2, inl tt) /\
        open (w_disk w2) (getAbsolutePath cwd out, Base arg) = Some x.
Proof.
  intros absolutePath Hhash Hx Hb Hf Hdir Hbase Hs Hdm Hnew Hrp Hlb Hc Hmax.
  destruct (Dis_Upload_ok cpu stream_sched ci cwd configDir sha256 hash encrypt decrypt reuse remotes about order speed sched randomPassword rnd arg
    Hcpu Hstream Hci Hcipher Hdecrypt Hrem Hzero Hspeed x m w c) as (w1 & pw & d & p & l & all & f & E & Hst & _); auto.
  exists w1, f. split; [exact E |]. assert (Hent := sf_entry _ _ _ _ _ _ _ _ _ _ _ _ _ _ _ _ Hst). destruct Hent as [Hsh Hpar _].
  rewrite Hsh, Hpar. split; [apply Hst |]. split; [apply Hst |]. intros kept st2 Hk Hn Hlost.
  apply (Dis_Download_ok cpu stream_sched ci cwd configDir sha256 hash encrypt decrypt reuse remotes speed' sched' randomPassword' false rnd arg out
    Hcpu Hstream Hci Hcipher Hdecrypt Hzero Hspeed' x m w1 pw d p l all f kept st2); auto; lia.
Qed.
End RoundTrip.

(** ** Removal *)

Section Removal.
Context {F S : Type} `{Float64 F} `{MapRangeOk} `{GoodStore S}.
Context (ci : ConfigInfo) (Hci : (1 <= Retries ci)%Z) (hash : string -> string) (sched : list nat).

(** Of the remotes, [w'] has lost the shards that the entry [f] places, and
    nothing else. *)
Definition erased (f : FileInfo) (w w' : world F S) : Prop :=
  (forall n d, DistributedFileInfos f !! n = Some d -> on_remote d = true ->
    let '(r, dir, file) := place hash d in object (w_store w') r dir file = None) /\
  (forall r dir file, (forall n d, DistributedFileInfos f !! n = Some d -> on_remote d = true -> (r, dir, file) <> place hash d) ->
    object (w_store w') r dir file = object (w_store w) r dir file).

Lemma removed_erased f ds (w w' : world F S) : ds ≡ₚ map snd (map_to_list (DistributedFileInfos f)) -> removed hash ds w w' -> erased f w w'.
Proof.
  intros Hperm [Hgone Hkept].
  assert (Hin : forall d, d ∈ ds <-> exists n, DistributedFileInfos f !! n = Some d).
  { intros d. rewrite Hperm, list_elem_of_In, in_map_iff. split.
    - intros ([n d'] & <- & Hd%list_elem_of_In%elem_of_map_to_list). eauto.
    - intros (n & Hd). exists (n, d). split; [auto |]. now apply list_elem_of_In, elem_of_map_to_list. }
  split.
  - intros n d Hd. apply Hgone, Hin. eauto.
  - intros r dir file Ha. apply Hkept. intros d (n & Hd)%Hin. eauto.
Qed.

Lemma Dis_rm_erases fn m f (w : world F S) : dm_has (w_datamap w) m -> m !! fn = Some f -> well_typed m -> clean (w_stats w) ->
  (forall i, i < size (DistributedFileInfos f) -> 2 <= turns i sched) ->
  exists w', Dis_rm ci hash sched [fn] false w = Ret (w', inl tt) /\ dm_has (w_datamap w') (delete fn m) /\ clean (w_stats w') /\
    w_disk w' = w_disk w /\ w_balancer w' = w_balancer w /\ erased f w w'.
Proof.
  intros Hdm Hf Hty Hs Hsched. destruct (Dis_rm_ok ci Hci hash sched fn m f w Hdm Hf Hty Hs Hsched) as (w' & ds & E & Hperm & A1 & A2 & A3 & A4 & Hr).
  exists w'. splits; auto. now apply (removed_erased f ds).
Qed.

(** C4: [dis_rm] deletes every shard of the file that is on a remote and nothing
    else there, whatever the order of its goroutines, then the entry of the file;
    the disk is not touched. *)
Theorem rm_erases fn m f (w : world F S) : dm_has (w_datamap w) m -> m !! fn = Some f -> well_typed m -> clean (w_stats w) ->
  (forall i, i < size (DistributedFileInfos f) -> 2 <= turns i sched) ->
  exists w', Dis_rm ci hash sched [fn] false w = Ret (w', inl tt) /\ dm_has (w_datamap w') (delete fn m) /\
    w_disk w' = w_disk w /\ erased f w w'.
Proof.
  intros Hdm Hf Hty Hs Hsched. destruct (Dis_rm_erases fn m f w Hdm Hf Hty Hs Hsched) as (w' & E & A1 & _ & A3 & _ & A5). eauto.
Qed.

(** A file whose name is in the map already cannot be uploaded by a path:
    the removal of the old one is asked for under the path and not the name, and
    the upload fails with nothing changed. *)
Theorem upload_again_by_path cpu stream_sched cwd configDir sha256 encrypt remotes about order speed randomPassword rnd arg m f x
    loadBalancer (w : world F S) :
  open (w_disk w) (split_path (getAbsolutePath cwd arg)) = Some x -> dm_has (w_datamap w) m ->
  m !! Base arg = Some f -> m !! arg = None ->
  Dis_Upload cpu stream_sched ci cwd configDir sha256 hash encrypt remotes about order speed sched randomPassword rnd
    [arg] false loadBalancer w = Ret (w, inr (Datamap.NotFound arg)).
Proof.
  intros Hx [Hr _] Hf Hn. unfold Dis_Upload. rewrite (bindM_ret _ _ w w arg) by reflexivity.
  rewrite (bindM_ret _ _ w w (split_path (getAbsolutePath cwd arg))) by (unfold dis_init; now rewrite Hx).
  apply bindM_err. rewrite (bindM_ret _ _ w w true).
  2:{ apply lift_ret. unfold DoesFileStructExist. rewrite Hr. cbn [bind]. rewrite Hf. reflexivity. }
  apply bindM_err. unfold Dis_rm. rewrite (bindM_ret _ _ w w arg) by reflexivity. apply bindM_err.
  unfold lift, GetFileInfoStruct, find_file. rewrite Hr. cbn [bind]. now rewrite Hn.
Qed.
End Removal.

(** ** Recovery *)

Section Recovery.
Context {F S : Type} `{Float64 F} `{MapRangeOk} `{GoodStore S}.
Context (cpu : machine) (stream_sched : schedule) (ci : ConfigInfo) (cwd configDir : string) (sha256 : list N -> string).
Context (hash : string -> string).
Context (encrypt : nat -> string -> list N -> list N) (decrypt : string -> list N -> option (list N)) (reuse : nat -> bool).
Context (remotes : list Remote) (about : Remote -> option Z) (order : list Remote -> list Remote) (speed : string -> F).
Context (sched : list nat) (randomPassword : option string) (rnd : nat) (DoRemove : bool) (AskDestination : string).
Context (Hci : (1 <= Retries ci)%Z).
Local Abbreviation CheckState := (CheckState cpu stream_sched ci cwd configDir sha256 hash encrypt decrypt reuse remotes about order
  speed sched randomPassword rnd DoRemove AskDestination).

(** Only [fn] is in the middle of an operation. *)
Record interrupted (fn : string) (f : FileInfo) (m : fileMap) (w : world F S) : Prop := {
  in_dm : dm_has (w_datamap w) m;
  in_entry : m !! fn = Some f;
  in_typed : well_typed m;
  in_flag : Flag f = true;
  in_only : forall n f', m !! n = Some f' -> Flag f' = true -> n = fn;
  in_stats : clean (w_stats w);
  in_sched : forall i, i < size (DistributedFileInfos f) -> 2 <= turns i sched
}.

Lemma interrupted_found_ok fn f m w k : interrupted fn f m w -> CheckFlagAndState k (w_datamap w) = (true, State f, fn).
Proof.
  intros [[Hr _] Hf Hty Hfl Honly _ _]. assert (Hc := check_flag_spec k (w_datamap w) m Hr Hty).
  destruct (CheckFlagAndState k (w_datamap w)) as [[[] st] n].
  - destruct Hc as (f' & Hn & Hfl' & <-). assert (n = fn) as -> by eauto. congruence.
  - rewrite (Hc fn f Hf) in Hfl. discriminate.
Qed.

Lemma flags_delete fn f m w : interrupted fn f m w -> forall n f', delete fn m !! n = Some f' -> Flag f' = false.
Proof.
  intros Hin n f' [Hne Hn]%lookup_delete_Some. destruct (Flag f') eqn:E; [| auto]. destruct Hne. symmetry. exact (in_only _ _ _ _ Hin n f' Hn E).
Qed.

(** The shards of the file that are checked neither *)
Lemma DumpUploadShards_ok fn f m (w : world F S) : dm_has (w_datamap w) m -> m !! fn = Some f -> well_typed m ->
  exists names, DumpUploadShards configDir hash [fn] w = Ret (set_disk w (DeleteShardWithFileNames configDir (w_disk w) names), inl tt) /\
    forall s, s ∈ names <-> exists n d, DistributedFileInfos f !! n = Some d /\ dis_check d = false /\ s = hash n.
Proof.
  intros Hdm Hf Hty. unfold DumpUploadShards. rewrite (bindM_ret _ _ w w fn) by reflexivity.
  destruct (distributed_spec 3 (w_datamap w) m fn f (proj1 Hdm) Hf) as (ds & E & Hperm).
  rewrite (bindM_ret _ _ w w ds) by (now apply lift_ret).
  exists (map (fun d => hash (dis_name d)) (unchecked_shards ds)). split; [reflexivity |]. intros s.
  destruct (Hty fn f Hf) as [_ Hn]. unfold unchecked_shards. rewrite list_elem_of_In, in_map_iff. split.
  - intros (d & <- & [Hd%list_elem_of_In Hc]%filter_In). rewrite Hperm, list_elem_of_In, in_map_iff in Hd.
    destruct Hd as ([n d'] & <- & Hd%list_elem_of_In%elem_of_map_to_list). cbn [snd] in *. exists n, d'.
    rewrite (Hn n d' Hd). apply negb_true_iff in Hc. auto.
  - intros (n & d & Hd & Hc & ->). exists d. rewrite (Hn n d Hd). split; [auto |]. apply filter_In. rewrite Hc. split; [| auto].
    apply list_elem_of_In. rewrite Hperm, list_elem_of_In, in_map_iff. exists (n, d). split; [auto |].
    now apply list_elem_of_In, elem_of_map_to_list.
Qed.

Lemma uncompleted_ok k (w : world F S) m fn f : dm_has (w_datamap w) m -> m !! fn = Some f -> well_typed m ->
  exists ds, GetUncompletedFileInfo k (w_datamap w) fn = Ret ds /\ length ds <= size (DistributedFileInfos f) /\
    forall d, d ∈ ds -> is_Some (DistributedFileInfos f !! dis_name d).
Proof.
  intros Hdm Hf Hty. unfold GetUncompletedFileInfo. rewrite (find_file_ok _ _ _ f Hdm Hf). cbn [bind].
  eexists. split; [reflexivity |]. split.
  - etransitivity; [apply List.filter_length_le |]. rewrite length_map.
    rewrite (Permutation_length (map_range_perm _ k (DistributedFileInfos f))). now rewrite length_map_to_list.
  - intros d [Hd _]%list_elem_of_In%filter_In. apply in_map_iff in Hd as ([n d'] & <- & Hd%in_range).
    destruct (Hty fn f Hf) as [_ Hn]. cbn [snd]. rewrite (Hn n d' Hd). eauto.
Qed.

Lemma Dis_rm_again_ok fn m f (w : world F S) : dm_has (w_datamap w) m -> m !! fn = Some f -> well_typed m -> clean (w_stats w) ->
  (forall i, i < size (DistributedFileInfos f) -> 2 <= turns i sched) ->
  exists w', Dis_rm ci hash sched [fn] true w = Ret (w', inl tt) /\ dm_has (w_datamap w') (delete fn m).
Proof.
  intros Hdm Hf Hty Hs Hsched. unfold Dis_rm. rewrite (bindM_ret _ _ w w fn) by reflexivity.
  rewrite (bindM_ret _ _ w w f).
  2:{ apply lift_ret. unfold GetFileInfoStruct. now rewrite (find_file_ok _ _ _ f Hdm Hf). }
  destruct (uncompleted_ok 0 w m fn f Hdm Hf Hty) as (ds & E & Hl & Hds).
  rewrite (bindM_ret _ _ w w ds) by (now apply lift_ret).
  destruct (rm_rest_ok ci Hci hash sched fn m f ds w Hdm Hf Hs Hds) as (w' & E' & Hdm' & _); [intros i Hi; apply Hsched; lia |].
  eauto.
Qed.


(** C28: an upload that was interrupted is undone by the next command: the shards
    that the map places are deleted from the remotes, those that are not checked
    from the directory of shards, and the entry goes.  Everything else stays on
    the remotes: also a shard that was copied there and not recorded yet. *)
Theorem interrupted_upload_undone fn f m action args loadBalancer (w : world F S) :
  interrupted fn f m w -> State f = "upload"%string ->
  exists w', CheckState action args loadBalancer w = Ret (w', inl false) /\ dm_has (w_datamap w') (delete fn m) /\ erased hash f w w' /\
    (forall n d, DistributedFileInfos f !! n = Some d -> dis_check d = false -> open (w_disk w') (GetShardDir configDir, hash n) = None) /\
    (forall n f', delete fn m !! n = Some f' -> Flag f' = false).
Proof.
  intros Hin Hst. unfold CheckState. rewrite (interrupted_found_ok fn f m w 4 Hin), Hst. cbn [negb]. rewrite decide_True by auto.
  destruct Hin as [Hdm Hf Hty Hfl Honly Hs Hsched] eqn:E0.
  destruct (DumpUploadShards_ok fn f m w Hdm Hf Hty) as (names & E & Hnames).
  set (w1 := set_disk w (DeleteShardWithFileNames configDir (w_disk w) names)) in *.
  destruct (Dis_rm_erases ci Hci hash sched fn m f w1 Hdm Hf Hty Hs Hsched) as (w2 & E2 & Hdm2 & _ & Hd2 & _ & Her).
  exists w2. rewrite (bindM_ret _ _ w w2 tt) by (unfold DumpUploadState; now rewrite (bindM_ret _ _ w w1 tt)).
  splits; auto; [| exact (flags_delete fn f m w Hin)].
  intros n d Hd Hc. rewrite Hd2. cbn [w1 set_disk w_disk]. rewrite open_delete, decide_True; [auto |]. split; [auto |].
  apply Hnames. eauto.
Qed.
(** The map after the recovery *)
Definition settled (fn : string) (f : FileInfo) (m : fileMap) : fileMap :=
  if decide (State f = "download"%string) then <[fn := set_infos (set_check false <$> DistributedFileInfos f) (set_flag false (State f) f)]> m
  else delete fn m.

Lemma settled_flags fn f m (w : world F S) : interrupted fn f m w -> forall n f', settled fn f m !! n = Some f' -> Flag f' = false.
Proof.
  intros Hin n f'. unfold settled. case_decide; [| exact (flags_delete fn f m w Hin n f')].
  rewrite lookup_insert_Some. intros [[<- <-]|[Hne Hn]]; [reflexivity |].
  apply (flags_delete fn f m w Hin n f'). now rewrite lookup_delete_ne.
Qed.

Lemma settled_typed fn f m (w : world F S) : interrupted fn f m w -> well_typed (settled fn f m).
Proof.
  intros [_ Hf Hty _ _ _ _]. unfold settled. case_decide; [| now apply map_Forall_delete].
  apply map_Forall_insert_2; [| exact Hty]. destruct (Hty fn f Hf) as [Hn Hd]. split; [exact Hn |].
  intros n d. cbn [set_infos DistributedFileInfos]. rewrite lookup_fmap, fmap_Some. intros (d' & Hd' & ->). now apply (Hd n d').
Qed.

(** C5: whatever operation was interrupted, one call of [CheckState] settles it,
    and the next call finds nothing to do. *)
Theorem recovery_settles fn f m action args loadBalancer (w : world F S) :
  interrupted fn f m w -> State f ∈ ["upload"; "download"; "rm"]%string ->
  exists w' b, CheckState action args loadBalancer w = Ret (w', inl b) /\ dm_has (w_datamap w') (settled fn f m) /\
    (forall n f', settled fn f m !! n = Some f' -> Flag f' = false) /\
    forall action' args' loadBalancer', CheckState action' args' loadBalancer' w' = Ret (w', inl false).
Proof.
  intros Hin Hst. assert (Hquiet := settled_flags fn f m w Hin). assert (Hty' := settled_typed fn f m w Hin).
  assert (Hrun : exists w' b, CheckState action args loadBalancer w = Ret (w', inl b) /\ dm_has (w_datamap w') (settled fn f m)).
  { unfold CheckState. rewrite (interrupted_found_ok fn f m w 4 Hin). cbn [negb]. unfold settled.
    destruct Hin as [Hdm Hf Hty Hfl Honly Hs Hsched].
    rewrite !elem_of_cons in Hst. destruct Hst as [Hst|[Hst|[Hst|[]%elem_of_nil]]]; rewrite Hst; repeat (case_decide; try done).
    - destruct (DumpUploadShards_ok fn f m w Hdm Hf Hty) as (names & E & _).
      set (w1 := set_disk w (DeleteShardWithFileNames configDir (w_disk w) names)) in *.
      destruct (Dis_rm_erases ci Hci hash sched fn m f w1 Hdm Hf Hty Hs Hsched) as (w2 & E2 & Hdm2 & _).
      exists w2, false. rewrite (bindM_ret _ _ w w2 tt) by (unfold DumpUploadState; now rewrite (bindM_ret _ _ w w1 tt)). auto.
    - destruct (distributed_spec 3 (w_datamap w) m fn f (proj1 Hdm) Hf) as (ds & E & _).
      destruct (reset_ok (w_datamap w) m fn f Hdm Hf) as (dm2 & E2 & Hdm2). rewrite Hst in Hdm2.
      set (w1 := set_disk w (DeleteShardWithFileNames configDir (w_disk w) (map dis_name (unchecked_shards ds)))).
      assert (E1 : DumpDownloadShards configDir [fn] w = Ret (w1, inl tt)).
      { unfold DumpDownloadShards. rewrite (bindM_ret _ _ w w fn) by reflexivity. now rewrite (bindM_ret _ _ w w ds) by (now apply lift_ret). }
      exists (set_datamap w1 dm2), false. split; [| exact Hdm2].
      rewrite (bindM_ret _ _ w (set_datamap w1 dm2) tt); [reflexivity |]. unfold DumpDownloadState.
      rewrite (bindM_ret _ _ w w1 tt) by exact E1. rewrite (bindM_ret _ _ w1 w1 fn) by reflexivity. now apply on_datamap_ret.
    - destruct (Dis_rm_again_ok fn m f w Hdm Hf Hty Hs Hsched) as (w2 & E2 & Hdm2).
      eexists w2, _. rewrite (bindM_ret _ _ w w2 tt) by exact E2. split; [reflexivity | exact Hdm2]. }
  destruct Hrun as (w' & b & E & Hdm). exists w', b. splits; auto. intros action' args' lb'. unfold CheckState.
  assert (Hc := check_flag_spec 4 (w_datamap w') _ (proj1 Hdm) Hty').
  destruct (CheckFlagAndState 4 (w_datamap w')) as [[[] st] n]; [| reflexivity].
  destruct Hc as (f' & Hn & Hfl & _). now rewrite (Hquiet n f' Hn) in Hfl.
Qed.
End Recovery.

(** ** Copies that fail *)

Section FailedCopies.
Context {F S : Type} `{GoodFloat64 F} `{MapRange} `{RemoteStore S}.
Context (ci : ConfigInfo) (configDir : string) (about : Remote -> option Z) (order : list Remote -> list Remote).
Context (speed : string -> F) (Hzero : finite zero = true) (Hspeed : forall n, finite (speed n) = true).
Context (remotes : list Remote) (Hrem : remotes <> []).
(** The file, the hashes of its shards, their contents, and where all starts *)
Context (fn : string) (hash : string -> string) (cont : string -> list N) (names : list string).
Context (m0 : fileMap) (f0 : FileInfo).
Context (Hnd : NoDup names) (Hhash : forall n n', n ∈ names -> n' ∈ names -> hash n = hash n' -> n = n').
Context (Hinfos : forall n, n ∈ names -> exists sum, DistributedFileInfos f0 !! n = Some (MkDistributed n no_remote sum false)).

(** The error with which every copy of a shard fails, and then no remote has more or
    less of it; the copies of a shard without such an error may do anything to it. *)
Context (fate : string -> option goError).

Definition copy_fails : Prop := forall n r st, n ∈ names -> r ∈ remotes ->
  let '(st', err) := put st (Name r) remoteDirectory (hash n) (cont n) in
  (forall r' d' f', f' <> hash n \/ fate n <> None -> find_object st' r' d' f' = find_object st r' d' f') /\ (forall e, fate n = Some e -> err = Some e).
Definition mild_copies : Prop := forall n r st, n ∈ names -> r ∈ remotes -> mild (snd (put st (Name r) remoteDirectory (hash n) (cont n))).

Context (Hput : copy_fails) (Hci : (1 <= Retries ci)%Z).
Local Abbreviation shardDir := (GetShardDir configDir).
Local Abbreviation upload_step := (upload_step ci configDir fn hash RoundRobin remotes about order speed).

(** A shard whose copies end the process *)
Definition deadly (n : string) : Prop := exists e x, fate n = Some e /\ ends_with e x.

Section Steps.
(** The process may end, or no copy has an error that ends it. *)
Context (st0 : S) (ends : Prop) (Hmild : ends \/ mild_copies).

Record sent (dk : disk) (infos : gmap string DistributedFile) (j : job) : Prop := {
  sent_stage : j_stage j <> Skipped;
  sent_remote : 1 <= rank j -> dis_remote (j_shard j) ∈ remotes;
  sent_local : open dk (shardDir, hash (name_of j)) = if rank j =? 4 then None else Some (cont (name_of j));
  sent_info : infos !! name_of j =
    if 3 <=? rank j then set_remote (dis_remote (j_shard j)) <$> (set_check true <$> DistributedFileInfos f0 !! name_of j)
    else DistributedFileInfos f0 !! name_of j;
  sent_deadly : deadly (name_of j) -> rank j <= 1
}.

Record sending (w : world F S) (js : list job) : Prop := {
  s_names : name_of <$> js = names;
  s_stats : ends \/ calm (w_stats w);
  s_lb : exists c, lb_ready (lb_file (w_balancer w)) c /\ (0 <= c)%Z /\ (c + Z.of_nat (unallocated js) < 2 ^ 63)%Z;
  s_dm : exists infos, dm_has (w_datamap w) (<[fn := set_infos infos f0]> m0) /\ forall i j, js !! i = Some j -> sent (w_disk w) infos j;
  s_store : forall n r d, n ∈ names -> fate n <> None -> find_object (w_store w) r d (hash n) = find_object st0 r d (hash n)
}.

(** The other shards do not see the step of one of them. *)
Lemma sent_insert dk dk' infos infos' js i j j' :
  name_of <$> js = names -> js !! i = Some j -> (forall i j, js !! i = Some j -> sent dk infos j) ->
  (forall h, h <> hash (name_of j) -> open dk' (shardDir, h) = open dk (shardDir, h)) ->
  (forall n, n <> name_of j -> infos' !! n = infos !! n) -> sent dk' infos' j' ->
  forall i' x, <[i := j']> js !! i' = Some x -> sent dk' infos' x.
Proof.
  intros En Hj Hall Hdk Hin Hok i' x Hx. rewrite list_lookup_insert_Some in Hx. destruct Hx as [(<- & <- & _)|(Hne & Hx)]; [auto |].
  destruct (other_hash hash names Hnd Hhash js i i' j x En Hj Hx) as [Hn Hh]; [auto |]. destruct (Hall i' x Hx). split; auto; [rewrite Hdk | rewrite Hin]; auto.
Qed.

Definition sends (k i : nat) (j : job) (w : world F S) (js : list job) : Prop :=
  ends /\ (exists x, upload_step k j w = Err x) \/
  exists w' j' es, upload_step k j w = Ret (w', j', es) /\ es = [] /\ sending w' (<[i := j']> js) /\ Nat.min 4 (Datatypes.S (rank j)) <= rank j'.

Lemma sends_allocating k i d w js : sending w js -> js !! i = Some (Job d Allocating) -> sends k i (Job d Allocating) w js.
Proof.
  intros [Hn Hs (c & Hlb & Hc & Hmax) (infos & Hdm & Hall) Hstore] Hj. destruct (Hall i _ Hj) as [_ _ Hl Hi _]. cbn in Hl, Hi.
  assert (Hun := unallocated_insert remotes Hrem js i _ (Job (set_remote no_remote d) Copying) Hj). cbn in Hun.
  destruct (round_robin_step remotes (lb_file (w_balancer w)) c Hlb Hc) as (f' & E & Hf'); [lia | auto |].
  set (r := nth (Z.to_nat c mod length remotes) remotes no_remote) in *. right.
  exists (set_balancer w (Balancer f' (bestRemote_save (w_balancer w)))), (Job (set_remote r d) Copying), [].
  split; [cbn [Transfer.upload_step j_stage j_shard]; unfold on_balancer, AllocateRemote; now rewrite E |]. split; [auto |]. split; [| cbn; lia].
  assert (Hrin : r ∈ remotes) by (apply list_elem_of_In, nth_In, Nat.mod_upper_bound; destruct remotes; [congruence | cbn; lia]).
  split; cbn [set_balancer w_disk w_datamap w_balancer w_stats w_store lb_file]; auto.
  - eapply names_insert; eauto.
  - exists (c + 1)%Z. splits; auto; [lia |]. assert (Hun' := unallocated_insert remotes Hrem js i _ (Job (set_remote r d) Copying) Hj). cbn in Hun'. lia.
  - exists infos. splits; auto. eapply sent_insert; eauto. split; cbn; auto; first [discriminate | lia].
Qed.

(** What a copy leaves of the other files, and of a shard whose copies fail *)
Definition same_objects (n : string) (st st' : S) : Prop := forall r d f, f <> hash n \/ fate n <> None -> find_object st' r d f = find_object st r d f.

Lemma copy_command (w : world F S) n r : n ∈ names -> r ∈ remotes -> ends \/ calm (w_stats w) ->
  let command := remote_command ci true (copy_up (cont n) (Name r) remoteDirectory (hash n)) w in
  ends /\ (exists x, command = Err x) \/
  ~ deadly n /\ exists s' st', command = Ret (set_stats_store w s' st', inl tt) /\ same_objects n (w_store w) st' /\ (ends \/ calm s').
Proof.
  intros Hn Hr Hs command. set (f := copy_up (cont n) (Name r) remoteDirectory (hash n)).
  set (Q := fun err => exists st, err = snd (put st (Name r) remoteDirectory (hash n) (cont n))).
  assert (Hf : forall s st, same_objects n (w_store w) st -> exists st' err, f s st = Ret (s, st', err) /\ same_objects n (w_store w) st' /\ Q err).
  { intros s st Hst. unfold f, copy_up. assert (Hp := Hput n r st Hn Hr). destruct (put st _ _ _ _) as [st' err] eqn:Ep. exists st', err. split; [reflexivity |]. split.
    - intros r' d' f' Hf'. rewrite (proj1 Hp) by exact Hf'. now apply Hst.
    - exists st. now rewrite Ep. }
  assert (Hstart : same_objects n (w_store w) (w_store w)) by now intros r' d' f' _.
  assert (Hany : ends -> ends /\ (exists x, command = Err x) \/
    ~ deadly n /\ exists s' st', command = Ret (set_stats_store w s' st', inl tt) /\ same_objects n (w_store w) st' /\ (ends \/ calm s')).
  { intros He. unfold command, remote_command. fold f. destruct (run_any ci true f _ Q Hf (w_stats w) (w_store w) Hstart) as [(x & ->)|(s' & st' & E & Hst')]; [left; cbn; eauto |].
    right. rewrite E. split; [| cbn; eauto 6]. intros (e & x & Ee & Hx). rewrite (run_ends ci true f e x) in E; [discriminate | | exact Hx | exact Hci].
    intros s st. unfold f, copy_up. assert (Hp := Hput n r st Hn Hr). destruct (put st _ _ _ _) as [st1 err]. exists st1. now rewrite (proj2 Hp e Ee). }
  destruct Hmild as [He|Hm]; [auto |]. destruct Hs as [He|Hs]; [auto |]. right. split.
  - intros (e & x & Ee & Hx). assert (Hp := Hput n r (w_store w) Hn Hr). assert (Hu := Hm n r (w_store w) Hn Hr). destruct (put _ _ _ _ _) as [st1 err]. cbn [snd] in Hu.
    rewrite (proj2 Hp e Ee) in Hu. assert (E := Hx ci (w_stats w) true). now rewrite resolve_uncategorized in E.
  - destruct (run_mild ci true f _ Q Hf (w_stats w) (w_store w)) as (s' & st' & E & Hst' & Hs'); auto; [intros err (st & ->); now apply Hm |].
    exists s', st'. unfold command, remote_command. fold f. rewrite E. auto.
Qed.

Lemma sends_copying k i d w js : sending w js -> js !! i = Some (Job d Copying) -> sends k i (Job d Copying) w js.
Proof.
  intros [Hn Hs (c & Hlb & Hc & Hmax) (infos & Hdm & Hall) Hstore] Hj. destruct (Hall i _ Hj) as [_ Hr Hl Hi _]. cbn in Hr, Hl, Hi. unfold name_of in *. cbn in Hl, Hi.
  assert (Hin : dis_name d ∈ names) by (eapply list_elem_of_lookup_2, (names_lookup names js i (Job d Copying)); eauto).
  assert (Hun := unallocated_insert remotes Hrem js i _ (Job d Recording) Hj). cbn in Hun. unfold sends. cbn [Transfer.upload_step j_stage j_shard]. unfold GetShardPath, remoteCallCopy. rewrite Hl. cbn [snd].
  destruct (copy_command w (dis_name d) (dis_remote d) Hin ltac:(auto) Hs) as [(He & x & ->)|(Hnd' & s' & st' & -> & Hst' & Hs')]; [left; cbn; eauto | right]. cbn [bind].
  exists (set_stats_store w s' st'), (Job d Recording), []. split; [reflexivity |]. split; [auto |]. split; [| cbn; lia].
  split; cbn [set_stats_store w_disk w_datamap w_balancer w_stats w_store]; auto.
  - eapply names_insert; eauto.
  - exists c. splits; auto. lia.
  - exists infos. splits; auto. eapply sent_insert; eauto. split; cbn; auto; try discriminate. unfold name_of. cbn. now intros K.
  - intros n r d' Hnn Hf. rewrite Hst'; [auto |]. destruct (decide (n = dis_name d)) as [->|Hne]; [now right | left]. intros E. apply Hne. now apply Hhash.
Qed.

Lemma sends_recording k i d w js : sending w js -> js !! i = Some (Job d Recording) -> sends k i (Job d Recording) w js.
Proof.
  intros [Hn Hs (c & Hlb & Hc & Hmax) (infos & Hdm & Hall) Hstore] Hj. destruct (Hall i _ Hj) as [_ Hr Hl Hi Hdead]. cbn in Hr, Hl, Hi, Hdead. unfold name_of in *. cbn in Hl, Hi, Hdead.
  assert (Hin : dis_name d ∈ names) by (eapply list_elem_of_lookup_2, (names_lookup names js i (Job d Recording)); eauto).
  assert (Hun := unallocated_insert remotes Hrem js i _ (Job d Erasing) Hj). cbn in Hun. destruct (Hinfos (dis_name d) Hin) as (sum & Es).
  destruct (place_ok (w_datamap w) _ fn (set_infos infos f0) (dis_name d) (MkDistributed (dis_name d) no_remote sum false) (dis_remote d) Hdm)
    as (dm' & Edm & Hdm'); [apply lookup_insert_eq | cbn; congruence |].
  destruct (update_remote_info_ok (lb_file (w_balancer w)) c (dis_remote d) (speed (dis_name d)) Upload Hlb Hzero (Hspeed _)) as (f' & Ef & Hf'). right.
  exists (set_balancer (set_datamap w dm') (Balancer f' (bestRemote_save (w_balancer w)))), (Job d Erasing), [].
  split; [cbn [Transfer.upload_step j_stage j_shard]; unfold updateRemoteInfo_Up, bindM, on_datamap, on_balancer; rewrite Edm; cbn [bind];
          cbn [set_datamap w_balancer]; rewrite Ef; reflexivity |].
  split; [auto |]. split; [| cbn; lia]. split; cbn [set_balancer set_datamap w_disk w_datamap w_balancer w_stats w_store lb_file]; auto.
  - eapply names_insert; eauto.
  - exists c. splits; auto. lia.
  - eexists. split; [rewrite insert_insert_eq in Hdm'; exact Hdm' |]. cbn [DistributedFileInfos set_infos].
    eapply sent_insert; eauto; [intros n Hne; now apply lookup_insert_ne |]. split; unfold name_of; cbn; auto; try discriminate.
    + rewrite lookup_insert_eq, Es. reflexivity.
    + intros K. apply Hdead in K. lia.
Qed.

Lemma sends_erasing k i d w js : sending w js -> js !! i = Some (Job d Erasing) -> sends k i (Job d Erasing) w js.
Proof.
  intros [Hn Hs (c & Hlb & Hc & Hmax) (infos & Hdm & Hall) Hstore] Hj. destruct (Hall i _ Hj) as [_ Hr Hl Hi Hdead]. cbn in Hr, Hl, Hi, Hdead. unfold name_of in *. cbn in Hl, Hi, Hdead.
  assert (Hin : dis_name d ∈ names) by (eapply list_elem_of_lookup_2, (names_lookup names js i (Job d Erasing)); eauto).
  assert (Hun := unallocated_insert remotes Hrem js i _ (Job d Finished) Hj). cbn in Hun. right.
  exists (set_disk w (DeleteShardWithFileNames configDir (w_disk w) [hash (dis_name d)])), (Job d Finished), [].
  split; [reflexivity |]. split; [auto |]. split; [| cbn; lia]. split; cbn [set_disk w_disk w_datamap w_balancer w_stats w_store]; auto.
  - eapply names_insert; eauto.
  - exists c. splits; auto. lia.
  - exists infos. splits; auto. eapply sent_insert; eauto.
    + intros h Hh. rewrite open_delete, decide_False; [auto |]. cbn. intros [_ E%list_elem_of_singleton]. now apply Hh.
    + split; unfold name_of; cbn; auto; try discriminate; [apply lookup_delete_eq |]. intros K. apply Hdead in K. lia.
Qed.

Lemma sends_step k i j w js : sending w js -> js !! i = Some j -> sends k i j w js.
Proof.
  intros Hinv Hj. destruct j as [d s]. destruct s; [now apply sends_allocating | now apply sends_copying | now apply sends_recording | now apply sends_erasing | |].
  - right. exists w, (Job d Finished), []. cbn. rewrite list_insert_id by auto. auto.
  - destruct Hinv as [_ _ _ (infos & _ & Hall) _]. destruct (Hall i _ Hj) as [E _ _ _ _]. now destruct E.
Qed.

Lemma sends_run ds sched w c : names = dis_name <$> ds -> w_store w = st0 -> ends \/ calm (w_stats w) ->
  lb_ready (lb_file (w_balancer w)) c -> (0 <= c)%Z -> (c + Z.of_nat (length ds) < 2 ^ 63)%Z ->
  dm_has (w_datamap w) (<[fn := f0]> m0) -> (forall n, n ∈ names -> open (w_disk w) (shardDir, hash n) = Some (cont n)) ->
  let js := map (fun d => Job d Allocating) ds in
  ends /\ (exists x, run_jobs upload_step 0 sched w js [] = Err x) \/
  exists w' js', run_jobs upload_step 0 sched w js [] = Ret (w', js', []) /\ sending w' js' /\ existsb is_skipped js' = false /\
    forall i j, js' !! i = Some j -> Nat.min 4 (turns i sched) <= rank j.
Proof.
  intros Hn Hst Hs Hlb Hc Hmax Hdm Hl js. assert (Ejs : js = (fun d => Job d Allocating) <$> ds) by reflexivity.
  assert (Ename : name_of <$> js = names) by (rewrite Hn, Ejs, <- list_fmap_compose; reflexivity).
  assert (Hstart : sending w js).
  { split; auto.
    - exists c. splits; auto. assert (Hle := List.filter_length_le (fun j => rank j =? 0) js). unfold unallocated. unfold js in Hle at 2. rewrite length_map in Hle. lia.
    - exists (DistributedFileInfos f0). splits; auto; [destruct f0; exact Hdm |]. intros i j Hj. assert (Hin : name_of j ∈ names) by (eapply list_elem_of_lookup_2, names_lookup; eauto).
      rewrite Ejs in Hj. apply list_lookup_fmap_Some in Hj as (d & -> & Hdj). split; cbn; auto; try discriminate; lia.
    - intros n r d _ _. now rewrite Hst. }
  destruct (run_jobs_or upload_step sending rank 4 (fun es => es = []) ends eq_refl ltac:(now intros ? ? -> ->) sends_step sched 0 w js [] Hstart eq_refl)
    as [Hx|(w' & js' & errs & E & -> & Hinv & Hlen & Hr)]; [left; exact Hx | right]. exists w', js'. splits; auto.
  - apply not_true_iff_false. intros (j & (i & Hi)%list_elem_of_In%list_elem_of_lookup & Hsk)%existsb_exists. destruct Hinv as [_ _ _ (infos & _ & Hall) _].
    destruct (Hall i j Hi) as [Hns _ _ _ _]. unfold is_skipped in Hsk. now destruct (j_stage j).
  - intros i j Hj. assert (His : is_Some (js !! i)) by (apply lookup_lt_is_Some_2; rewrite <- Hlen; eauto using lookup_lt_Some). destruct His as (j0 & Hj0).
    destruct (Hr i j0 Hj0) as (j' & Hj' & Hrank). assert (j' = j) as -> by congruence. lia.
Qed.

Lemma sending_job w js infos n : sending w js -> (forall i j, js !! i = Some j -> sent (w_disk w) infos j) -> n ∈ names ->
  exists i j, names !! i = Some n /\ js !! i = Some j /\ name_of j = n /\ sent (w_disk w) infos j.
Proof.
  intros Hinv Hall (i & Hi)%list_elem_of_lookup. exists i. assert (Hi' := Hi). rewrite <- (s_names _ _ Hinv) in Hi'. apply list_lookup_fmap_Some in Hi' as (j & -> & Hj). exists j. splits; eauto.
Qed.
End Steps.

(** C29: when no copy fails with an error that has an exit status of its own, then in
    every schedule of the workers an upload, by round robin, of any shards to any remotes
    returns no error, records every shard as stored on one of the remotes and deletes
    its local file: also the shards whose copies fail at every try, of which the remotes
    have nothing that they did not have before. *)
Theorem failed_copy_recorded ds sched (w : world F S) c : mild_copies -> names = dis_name <$> ds -> calm (w_stats w) ->
  lb_ready (lb_file (w_balancer w)) c -> (0 <= c)%Z -> (c + Z.of_nat (length ds) < 2 ^ 63)%Z ->
  dm_has (w_datamap w) (<[fn := f0]> m0) -> (forall n, n ∈ names -> open (w_disk w) (shardDir, hash n) = Some (cont n)) ->
  (forall i, i < length ds -> 4 <= turns i sched) ->
  exists w' infos, startUploadFileGoroutine_Worker ci configDir sched fn hash ds RoundRobin remotes about order speed w = Ret (w', inl tt) /\
    dm_has (w_datamap w') (<[fn := set_infos infos f0]> m0) /\
    forall n, n ∈ names ->
      (exists r, r ∈ remotes /\ infos !! n = set_remote r <$> (set_check true <$> DistributedFileInfos f0 !! n)) /\
      open (w_disk w') (shardDir, hash n) = None /\
      (fate n <> None -> forall r d, find_object (w_store w') r d (hash n) = find_object (w_store w) r d (hash n)).
Proof.
  intros Hm Hn Hs Hlb Hc Hmax Hdm Hl Hsched.
  destruct (sends_run (w_store w) False (or_intror Hm) ds sched w c Hn eq_refl (or_intror Hs) Hlb Hc Hmax Hdm Hl) as [[[] _]|(w' & js' & E & Hinv & Hsk & Hr)].
  assert (Hinv' := Hinv). destruct Hinv as [Ename _ _ (infos & Hdm' & Hall) Hstore]. exists w', infos. split; [unfold startUploadFileGoroutine_Worker; rewrite E; cbn [bind]; now rewrite Hsk |].
  split; [exact Hdm' |]. intros n Hin. destruct (sending_job _ _ w' js' infos n Hinv' Hall Hin) as (i & j & Hi & Hj & <- & [_ Hrem' Hlo Hi' _]).
  assert (Hlt : i < length ds) by (rewrite <- (length_fmap dis_name ds), <- Hn; eauto using lookup_lt_Some). specialize (Hsched i Hlt). specialize (Hr i j Hj).
  assert (Hrank : rank j = 4) by (unfold rank in *; destruct (j_stage j); lia). rewrite Hrank in *. cbn in Hlo, Hi'. split; [exists (dis_remote (j_shard j)); split; [apply Hrem'; lia | exact Hi'] |].
  split; [exact Hlo |]. intros Hf r d. now apply Hstore.
Qed.

(** C34: a shard whose copies fail at every try with an error that has an exit status
    ends the process once its worker copies it, in every schedule; until then, or if
    another copy does not end the process first, the shard is not recorded, its local file
    is there and the remotes have nothing more of it. *)
Theorem failed_copy_ends n0 i0 ds sched (w : world F S) c : names !! i0 = Some n0 -> deadly n0 -> names = dis_name <$> ds ->
  lb_ready (lb_file (w_balancer w)) c -> (0 <= c)%Z -> (c + Z.of_nat (length ds) < 2 ^ 63)%Z ->
  dm_has (w_datamap w) (<[fn := f0]> m0) -> (forall n, n ∈ names -> open (w_disk w) (shardDir, hash n) = Some (cont n)) ->
  let upload := startUploadFileGoroutine_Worker ci configDir sched fn hash ds RoundRobin remotes about order speed w in
  (exists x, upload = Err x) \/
  turns i0 sched < 2 /\ exists w' infos, upload = Ret (w', inl tt) /\ dm_has (w_datamap w') (<[fn := set_infos infos f0]> m0) /\
    infos !! n0 = DistributedFileInfos f0 !! n0 /\ open (w_disk w') (shardDir, hash n0) = Some (cont n0) /\
    forall r d, find_object (w_store w') r d (hash n0) = find_object (w_store w) r d (hash n0).
Proof.
  intros Hi0 Hd Hn Hlb Hc Hmax Hdm Hl upload. assert (Hin : n0 ∈ names) by (now apply list_elem_of_lookup_2 in Hi0). unfold upload, startUploadFileGoroutine_Worker.
  destruct (sends_run (w_store w) True (or_introl I) ds sched w c Hn eq_refl (or_introl I) Hlb Hc Hmax Hdm Hl) as [(_ & x & ->)|(w' & js' & E & Hinv & Hsk & Hr)]; [left; cbn; eauto | right].
  assert (Hinv' := Hinv). destruct Hinv as [Ename _ _ (infos & Hdm' & Hall) Hstore]. rewrite E. cbn [bind]. rewrite Hsk.
  destruct (sending_job _ _ w' js' infos n0 Hinv' Hall Hin) as (i & j & Hi & Hj & En & [_ _ Hlo Hi' Hdead]). assert (i = i0) as -> by (eapply NoDup_lookup; eauto).
  rewrite En in *. assert (Hrank := Hdead Hd). specialize (Hr i0 j Hj). split; [lia |]. exists w', infos. split; [reflexivity |]. split; [exact Hdm' |].
  rewrite (proj2 (Nat.eqb_neq _ _)) in Hlo by lia. rewrite (proj2 (Nat.leb_gt _ _)) in Hi' by lia. split; [exact Hi' |]. split; [exact Hlo |].
  intros r d. apply Hstore; auto. destruct Hd as (e & x & -> & _). discriminate.
Qed.
End FailedCopies.

(** ** Witnesses *)

(** Remotes that hold what was put there *)
Definition shelf : Type := gmap (string * string * string) (list N).

#[export] Instance shelf_store : RemoteStore shelf := {|
  put := fun st r d f c => (<[(r, d, f) := c]> st, None);
  fetch := fun st r d f => (st, match st !! (r, d, f) with Some c => inl c | None => inr denied end);
  find_object := fun st r d f => bool_decide (is_Some (st !! (r, d, f)));
  delete_object := fun st r d f => (delete (r, d, f) st, None);
  make_dir := fun st r d => (st, None)
|}.

#[export] Instance shelf_good : GoodStore shelf.
Proof.
  refine {| object := fun st r d f => st !! (r, d, f) |}; cbn.
  - intros st r d f c. eexists. split; [reflexivity |]. intros r' d' f'.
    case_decide as E; [rewrite E; apply lookup_insert_eq | apply lookup_insert_ne; congruence].
  - auto.
  - intros st r d f c E. rewrite E. eauto.
  - intros st r d f _. eexists. split; [reflexivity |]. intros r' d' f'.
    case_decide as E; [rewrite E; apply lookup_delete_eq | apply lookup_delete_ne; congruence].
  - eauto.
Defined.

(** Every shard makes [k] steps, one after the other. *)
Definition rounds (n k : nat) : list nat := concat (repeat (seq 0 n) k).

Lemma turns_app i s1 s2 : turns i (s1 ++ s2) = turns i s1 + turns i s2.
Proof. unfold turns. now rewrite List.filter_app, length_app. Qed.

Lemma turns_seq n : forall a i, a <= i -> i < a + n -> 1 <= turns i (seq a n).
Proof.
  induction n as [|n IH]; intros a i Ha Hi; [lia |]. unfold turns. cbn [seq List.filter].
  destruct (Nat.eqb_spec i a); [cbn; lia | apply IH; lia].
Qed.

Lemma turns_rounds n k i : i < n -> k <= turns i (rounds n k).
Proof.
  intros Hi. unfold rounds. induction k as [|k IH]; cbn [repeat concat]; [lia |].
  rewrite turns_app. assert (Ht := turns_seq n 0 i ltac:(lia) ltac:(lia)). lia.
Qed.

Definition hash0 (s : string) : string := "h" +:+ s.
Definition world0 : world Z shelf :=
  World (Disk {[ ("/home", "a") := [1; 2; 3; 4; 5]%N ]} ∅) (Stored (JSON ∅) true) (Balancer lbfile0 no_remote) stats0 ∅ (170, 85)%Z.

Lemma hash0_apart : hash_apart hash0 "a".
Proof.
  split.
  - intros i j _ _ E. unfold hash0 in E. apply (inj (String.append "h")) in E. now apply (inj (shard_name _)) in E.
  - intros i j _ _. discriminate.
Qed.

Lemma cipher0 rnd pw x : bytes_ok x -> bytes_ok (encrypt0 rnd pw x) /\ encrypt0 rnd pw x <> [].
Proof. intros Hx. split; [constructor; [reflexivity | exact Hx] | discriminate]. Qed.

Definition upload0 (sched : list nat) (args : list string) : M Z shelf unit :=
  Dis_Upload cpu0 sched0 ci0 "/home" "/conf" sha0 hash0 encrypt0 remotes0 free0 id (fun _ => 3%Z) sched (Some "secret"%string) 7
    args false RoundRobin.

Lemma upload_download_witness : exists w1 f,
  upload0 (rounds 256 4) ["a"%string] world0 = Ret (w1, inl tt) /\ dm_has (w_datamap w1) (<["a"%string := f]> ∅) /\ Flag f = false /\
  forall kept st2, Z.of_nat (length kept) = (Shard f + Parity f)%Z -> (Shard f <= Z.of_nat (length (List.filter id kept)))%Z ->
    losses hash0 "a" f kept (w_store w1) st2 ->
    exists w2,
      Dis_Download cpu0 sched0 ci0 "/home" "/conf" sha0 hash0 decrypt0 reuse0 (fun _ => 4%Z) (rounds 256 2) None false
        ["a"%string; "out"%string] false (later "/home" "out" w1 st2) = Ret (w2, inl tt) /\
      open (w_disk w2) ("/home/out", "a"%string) = Some [1; 2; 3; 4; 5]%N.
Proof.
  apply (upload_download cpu0 sched0 ci0 "/home" "/conf" sha0 hash0 encrypt0 decrypt0 reuse0 remotes0 free0 id (fun _ => 3%Z) (fun _ => 4%Z)
    (rounds 256 4) (rounds 256 2) (Some "secret"%string) None 7 cpu0_ok sched0_ok) with (c := 7%Z);
    try solve [auto | lia | discriminate | reflexivity | exact cipher0 | exact hash0_apart | exact lbfile0_ready | eexists; reflexivity
      | intros i Hi; now apply turns_rounds | repeat constructor | cbn; lia | split; [reflexivity | cbn; lia]].
Defined.

(** A removal that was interrupted: one shard on a remote, the other on none *)
Definition map1 (state : string) : fileMap := {[ "a" := set_flag true state file0 ]}.
Definition world1 (state : string) : world Z shelf :=
  World (Disk {[ ("/home", "a") := [1; 2; 3; 4; 5]%N ]} ∅) (Stored (JSON (map1 state)) true)
    (Balancer lbfile0 no_remote) stats0 {[ ("drive", remoteDirectory, "ha.fcef.0") := [7]%N; ("ftp", remoteDirectory, "ha.fcef.1") := [8]%N ]} (5, 3)%Z.

Lemma world1_typed state : well_typed (map1 state).
Proof. apply map_Forall_singleton. exact (proj1 (map_Forall_singleton _ _ _) map0_typed). Qed.

Lemma turns1 state i : i < size (DistributedFileInfos (set_flag true state file0)) -> 2 <= turns i (rounds 2 2).
Proof. intros Hi. apply turns_rounds. exact Hi. Qed.

Lemma interrupted1 state : interrupted (rounds 2 2) "a" (set_flag true state file0) (map1 state) (world1 state).
Proof.
  split; try reflexivity; [split; reflexivity | apply world1_typed | | repeat split | exact (turns1 state)].
  intros n f' Hn _. unfold map1 in Hn. apply lookup_singleton_Some in Hn as [<- _]. reflexivity.
Qed.

Lemma rm_erases_witness : exists w',
  Dis_rm ci0 hash0 (rounds 2 2) ["a"%string] false (world1 "upload") = Ret (w', inl tt) /\
  dm_has (w_datamap w') (delete "a"%string (map1 "upload")) /\ w_disk w' = w_disk (world1 "upload") /\
  erased hash0 (set_flag true "upload" file0) (world1 "upload") w'.
Proof.
  apply (rm_erases ci0 ltac:(cbn; lia) hash0 (rounds 2 2));
    [split; reflexivity | reflexivity | apply world1_typed | repeat split | exact (turns1 "upload")].
Defined.

Lemma upload_again_by_path_witness :
  upload0 (rounds 2 2) ["/home/a"%string] (world1 "rm") = Ret (world1 "rm", inr (Datamap.NotFound "/home/a")).
Proof.
  apply (upload_again_by_path ci0 hash0 (rounds 2 2)) with (m := map1 "rm")
    (f := set_flag true "rm" file0) (x := [1; 2; 3; 4; 5]%N); (reflexivity || (split; reflexivity)).
Defined.

Definition check0 (action : string) (args : list string) (loadBalancer : LoadBalancerType) : M Z shelf bool :=
  CheckState cpu0 sched0 ci0 "/home" "/conf" sha0 hash0 encrypt0 decrypt0 reuse0 remotes0 free0 id (fun _ => 3%Z) (rounds 2 2)
    None 7 false "out" action args loadBalancer.

(** The shard that was copied and not recorded is still on its remote. *)
Lemma interrupted_upload_undone_witness : let f := set_flag true "upload" file0 in exists w',
  check0 "download" ["b"; "out"]%string NoBalancer (world1 "upload") = Ret (w', inl false) /\
  dm_has (w_datamap w') (delete "a"%string (map1 "upload")) /\ erased hash0 f (world1 "upload") w' /\
  (forall n d, DistributedFileInfos f !! n = Some d -> dis_check d = false -> open (w_disk w') (GetShardDir "/conf", hash0 n) = None) /\
  (forall n f', delete "a"%string (map1 "upload") !! n = Some f' -> Flag f' = false).
Proof.
  apply (interrupted_upload_undone cpu0 sched0 ci0 "/home" "/conf" sha0 hash0 encrypt0 decrypt0 reuse0 remotes0 free0 id (fun _ => 3%Z)
    (rounds 2 2) None 7 false "out" ltac:(cbn; lia)); [exact (interrupted1 "upload") | reflexivity].
Defined.

Lemma recovery_settles_witness : let f := set_flag true "download" file0 in exists w' b,
  check0 "upload" ["c"]%string RoundRobin (world1 "download") = Ret (w', inl b) /\
  dm_has (w_datamap w') (settled "a" f (map1 "download")) /\
  (forall n f', settled "a" f (map1 "download") !! n = Some f' -> Flag f' = false) /\
  forall action' args' loadBalancer', check0 action' args' loadBalancer' w' = Ret (w', inl false).
Proof.
  apply (recovery_settles cpu0 sched0 ci0 "/home" "/conf" sha0 hash0 encrypt0 decrypt0 reuse0 remotes0 free0 id (fun _ => 3%Z)
    (rounds 2 2) None 7 false "out" ltac:(cbn; lia)); [exact (interrupted1 "download") | set_solver].
Defined.

(** Remotes that answer [e] to every copy of one shard *)
Inductive picky (e : goError) : Type := Picky (held : shelf).
Arguments Picky {e} held.
Definition held {e} (st : picky e) : shelf := let 'Picky h := st in h.

#[export] Instance picky_store (e : goError) : RemoteStore (picky e) := {|
  put := fun st r d f c => if String.eqb f "ha.fcef.1" then (st, Some e) else (Picky (<[(r, d, f) := c]> (held st)), None);
  fetch := fun st r d f => (st, match held st !! (r, d, f) with Some c => inl c | None => inr denied end);
  find_object := fun st r d f => bool_decide (is_Some (held st !! (r, d, f)));
  delete_object := fun st r d f => (Picky (delete (r, d, f) (held st)), None);
  make_dir := fun st r d => (st, None)
|}.

Definition names2 : list string := ["a.fcef.0"; "a.fcef.1"]%string.
Definition shards2 : list DistributedFile := [MkDistributed "a.fcef.0" no_remote "c0" false; MkDistributed "a.fcef.1" no_remote "c1" false].
Definition file2 : FileInfo := MkFileInfo "a" 5 3 1 1 true "upload" "c" 1 (list_to_map (zip names2 shards2)).
Definition cont2 (n : string) : list N := if String.eqb n "a.fcef.1" then [1; 2]%N else [3]%N.
Definition fate2 (e : goError) (n : string) : option goError := if String.eqb n "a.fcef.1" then Some e else None.
Definition world2 (e : goError) : world Z (picky e) :=
  World (Disk {[ ("/conf/shard", "ha.fcef.0") := [3]%N; ("/conf/shard", "ha.fcef.1") := [1; 2]%N ]} ∅) (Stored (JSON {[ "a" := file2 ]}) true)
    (Balancer lbfile0 no_remote) stats0 (Picky ∅) (5, 3)%Z.
Definition send2 (e : goError) : outcome exit (world Z (picky e) * (unit + disError)) :=
  startUploadFileGoroutine_Worker ci0 "/conf" (rounds 2 4) "a" hash0 shards2 RoundRobin remotes0 free0 id (fun _ => 3%Z) (world2 e).

Lemma names2_apart n n' : n ∈ names2 -> n' ∈ names2 -> hash0 n = hash0 n' -> n = n'.
Proof. intros _ _ E. now apply (inj (String.append "h")) in E. Qed.

Lemma names2_cases n (P : string -> Prop) : n ∈ names2 -> P "a.fcef.0"%string -> P "a.fcef.1"%string -> P n.
Proof. unfold names2. intros Hn H0 H1. repeat (apply elem_of_cons in Hn as [->|Hn]; [assumption |]). now apply not_elem_of_nil in Hn. Qed.

Lemma infos2 n : n ∈ names2 -> exists sum, DistributedFileInfos file2 !! n = Some (MkDistributed n no_remote sum false).
Proof. intros Hn. apply (names2_cases n (fun n => exists sum, DistributedFileInfos file2 !! n = Some (MkDistributed n no_remote sum false)) Hn); eexists; reflexivity. Qed.

Lemma copies2 e : @copy_fails (picky e) _ remotes0 hash0 cont2 names2 (fate2 e).
Proof.
  intros n r st Hn _. apply (names2_cases n (fun n => let '(st', err) := put st (Name r) remoteDirectory (hash0 n) (cont2 n) in
    (forall r' d' f', f' <> hash0 n \/ fate2 e n <> None -> find_object st' r' d' f' = find_object st r' d' f') /\ (forall e', fate2 e n = Some e' -> err = Some e')) Hn);
    (split; [intros r' d' f' Hf' | auto]); [| reflexivity].
  assert (E : <[(Name r, remoteDirectory, hash0 "a.fcef.0") := [3]%N]> (held st) !! (r', d', f') = held st !! (r', d', f')).
  { apply lookup_insert_ne. intros [= _ _ <-]. now destruct Hf' as [K|K]; apply K. }
  exact (f_equal (fun o => bool_decide (is_Some o)) E).
Qed.

Lemma failed_copy_recorded_witness : exists w' infos, send2 denied = Ret (w', inl tt) /\
  dm_has (w_datamap w') (<["a"%string := set_infos infos file2]> ∅) /\
  forall n, n ∈ names2 ->
    (exists r, r ∈ remotes0 /\ infos !! n = set_remote r <$> (set_check true <$> DistributedFileInfos file2 !! n)) /\
    open (w_disk w') (GetShardDir "/conf", hash0 n) = None /\
    (fate2 denied n <> None -> forall r d, find_object (w_store w') r d (hash0 n) = find_object (w_store (world2 denied)) r d (hash0 n)).
Proof.
  apply (failed_copy_recorded ci0 "/conf" free0 id (fun _ => 3%Z)) with (cont := cont2) (c := 7%Z);
    try solve [reflexivity | discriminate | exact names2_apart | exact infos2 | apply copies2 | exact lbfile0_ready | cbn; lia | now intros n | now split
      | intros i Hi; now apply turns_rounds].
  - apply (bool_decide_unpack _). reflexivity.
  - intros n r st Hn _. apply (names2_cases n (fun n => mild (snd (put st (Name r) remoteDirectory (hash0 n) (cont2 n)))) Hn); reflexivity || exact I.
  - intros n Hn. apply (names2_cases n (fun n => open _ (_, hash0 n) = Some (cont2 n)) Hn); reflexivity.
Defined.

(** An error that rclone calls fatal *)
Definition fatal : goError := {|
  is_DirNotFound := false; is_ObjectNotFound := false; is_MaxTransferLimitReached := false; is_MaxDurationReached := false;
  is_Usage := false; ShouldRetry := false; IsNoRetryError := false; IsNoLowLevelRetryError := false; IsFatalError := true;
  RetryAfterErrorTime := None; IsCounted := false |}.

Lemma failed_copy_ends_witness : (exists x, send2 fatal = Err x) \/
  turns 1 (rounds 2 4) < 2 /\ exists w' infos, send2 fatal = Ret (w', inl tt) /\ dm_has (w_datamap w') (<["a"%string := set_infos infos file2]> ∅) /\
    infos !! "a.fcef.1"%string = DistributedFileInfos file2 !! "a.fcef.1"%string /\
    open (w_disk w') (GetShardDir "/conf", hash0 "a.fcef.1") = Some (cont2 "a.fcef.1") /\
    forall r d, find_object (w_store w') r d (hash0 "a.fcef.1") = find_object (w_store (world2 fatal)) r d (hash0 "a.fcef.1").
Proof.
  apply (failed_copy_ends ci0 "/conf" free0 id (fun _ => 3%Z)) with (names := names2) (fate := fate2 fatal) (c := 7%Z);
    try solve [reflexivity | discriminate | exact names2_apart | exact infos2 | apply copies2 | exact lbfile0_ready | cbn; lia | now intros n | now split].
  - apply (bool_decide_unpack _). reflexivity.
  - exists fatal, (Exit 7). split; [reflexivity |]. now intros ci s sustain.
  - intros n Hn. apply (names2_cases n (fun n => open _ (_, hash0 n) = Some (cont2 n)) Hn); reflexivity.
Defined.

(** The run of the second witness ends the process with the status of a fatal error. *)
Example failed_copy_ends_run : send2 fatal = Err (Exit 7).
Proof. vm_compute. reflexivity. Qed.
