(* ===== verification/Ranges.v ===== *)
(** * Sets of byte ranges (src/lib/ranges/ranges.go)

    [Ranges] records which bytes of an object are there; the cache of the virtual
    file system keeps one for every file.  A range is a position and a size, both
    [int64]; the slice of ranges is a list. *)
From Stdlib Require Import List Arith ZArith Lia Bool.
From S2P Require Import Prelude.
Import ListNotations.
Local Open Scope Z_scope.

Record Range : Type := Rg { Pos : Z; Size : Z }.

Definition End_ (r : Range) : Z := wrap64 (Pos r + Size r).

Definition IsEmpty (r : Range) : bool := Size r <=? 0.

Definition Clip (r : Range) (offset : Z) : Range :=
  if End_ r <=? offset then r
  else
    let size := wrap64 (Size r - wrap64 (End_ r - offset)) in
    if size <? 0 then Rg 0 0 else Rg (Pos r) size.

(** The zero value is returned when nothing is assigned. *)
Definition Range_Intersection (r b : Range) : Range :=
  if ((Pos b <=? Pos r) && (Pos r <? End_ b)) || ((Pos r <=? Pos b) && (Pos b <? End_ r)) then
    let pos := Z.max (Pos r) (Pos b) in
    Rg pos (wrap64 (Z.min (End_ r) (End_ b) - pos))
  else Rg 0 0.

(** ** Insertion *)

(** [merge(new, dst)] gives the new [dst], or nothing where it returns false. *)
Definition merge (new dst : Range) : option Range :=
  if End_ new <? Pos dst then None
  else if End_ new >? End_ dst then Some (Rg (Pos new) (Size new))
  else Some (Rg (Pos new) (wrap64 (Size dst + wrap64 (Pos dst - Pos new)))).

(** The loop [for j = i; j < len(ranges)-1; j++] of [coalesce] with [n] rounds left;
    it returns the slice and [endChop]. *)
Fixpoint coalesce_loop (n j : nat) (ranges : list Range) (endChop : nat) : outcome Empty_set (list Range * nat) :=
  match n with
  | O => Ret (ranges, endChop)
  | S n =>
      a <- idx ranges j ;;
      b <- idx ranges (S j) ;;
      match merge a b with
      | Some d => ranges <- upd ranges (S j) d ;; coalesce_loop n (S j) ranges (S j)
      | None => Ret (ranges, endChop)
      end
  end.

Definition coalesce (ranges : list Range) (i : nat) : outcome Empty_set (list Range) :=
  '(ranges, startChop) <-
    (if (0 <? i)%nat then
       a <- idx ranges (i - 1) ;;
       b <- idx ranges i ;;
       match merge a b with
       | Some d => ranges <- upd ranges i d ;; Ret (ranges, i - 1)%nat
       | None => Ret (ranges, i)
       end
     else Ret (ranges, i)) ;;
  '(ranges, endChop) <- coalesce_loop (length ranges - 1 - i) i ranges i ;;
  Ret (if (startChop <? endChop)%nat then firstn startChop ranges ++ skipn endChop ranges else ranges).

(** [sort.Search(j - i, ...)] between [i] and [j]: halving *)
Fixpoint sort_Search (fuel i j : nat) (f : nat -> outcome Empty_set bool) : outcome Empty_set nat :=
  match fuel with
  | O => Timeout
  | S fuel =>
      if (i <? j)%nat then
        let h := ((i + j) / 2)%nat in
        b <- f h ;;
        if b : bool then sort_Search fuel i h f else sort_Search fuel (S h) j f
      else Ret i
  end.

Definition search (rs : list Range) (r : Range) : outcome Empty_set nat :=
  sort_Search (S (length rs)) 0 (length rs) (fun i => x <- idx rs i ;; Ret (Pos r <=? Pos x)).

Definition Insert (rs : list Range) (r : Range) : outcome Empty_set (list Range) :=
  if IsEmpty r then Ret rs
  else if (length rs =? 0)%nat then Ret (rs ++ [r])
  else
    i <- search rs r ;;
    merged <- (if (i =? length rs)%nat then Ret None else x <- idx rs i ;; Ret (merge r x)) ;;
    rs <- (match merged with
           | Some d => upd rs i d
           | None => Ret (firstn i rs ++ r :: skipn i rs)
           end) ;;
    coalesce rs i.

(** ** Questions *)

(** The end of [Find], where no range before [r] meets it: [i] is what [search] gave. *)
Definition Find_from (rs : list Range) (i : nat) (r : Range) : outcome Empty_set (Range * Range * bool) :=
  if (length rs <=? i)%nat then Ret (r, Rg 0 0, false)
  else
    found <- idx rs i ;;
    let intersection := Range_Intersection found r in
    if IsEmpty intersection then Ret (r, Rg 0 0, false)
    else if Pos r <? Pos intersection then
      let curr := Rg (Pos r) (wrap64 (Pos intersection - Pos r)) in
      Ret (curr, Rg (End_ curr) (wrap64 (Size r - Size curr)), false)
    else Ret (intersection, Rg (End_ intersection) (wrap64 (Size r - Size intersection)), true).

Definition Find (rs : list Range) (r : Range) : outcome Empty_set (Range * Range * bool) :=
  if IsEmpty r then Ret (r, Rg 0 0, false)
  else
    i <- search rs r ;;
    if (0 <? i)%nat then
      prev <- idx rs (i - 1) ;;
      let intersection := Range_Intersection prev r in
      if negb (IsEmpty intersection) then
        Ret (intersection, Rg (End_ intersection) (wrap64 (Size r - Size intersection)), true)
      else Find_from rs i r
    else Find_from rs i r.

(** Every call of [Find] ends at a border of a range or at the end of [r]. *)
Definition rounds (rs : list Range) : nat := 2 * length rs + 3.

Fixpoint FindAll_loop (fuel : nat) (rs : list Range) (r : Range) (frs : list (Range * bool)) :
    outcome Empty_set (list (Range * bool)) :=
  match fuel with
  | O => Timeout
  | S fuel =>
      if negb (IsEmpty r) then
        '(curr, r, present) <- Find rs r ;;
        FindAll_loop fuel rs r (frs ++ [(curr, present)])
      else Ret frs
  end.

Definition FindAll (rs : list Range) (r : Range) := FindAll_loop (rounds rs) rs r [].

Definition Present (rs : list Range) (r : Range) : outcome Empty_set bool :=
  if IsEmpty r then Ret true
  else
    '(_, next, present) <- Find rs r ;;
    if negb present then Ret false else Ret (IsEmpty next).

Fixpoint Intersection_loop (fuel : nat) (rs : list Range) (r : Range) (newRs : list Range) : outcome Empty_set (list Range) :=
  match fuel with
  | O => Timeout
  | S fuel =>
      if negb (IsEmpty r) then
        '(curr, r, found) <- Find rs r ;;
        newRs <- (if found : bool then Insert newRs curr else Ret newRs) ;;
        Intersection_loop fuel rs r newRs
      else Ret newRs
  end.

Definition Intersection (rs : list Range) (r : Range) : outcome Empty_set (list Range) :=
  if (length rs =? 0)%nat then Ret rs else Intersection_loop (rounds rs) rs r [].

Definition Range_eqb (a b : Range) : bool := (Pos a =? Pos b) && (Size a =? Size b).

(** Of two slices of one length both or neither are without ranges. *)
Definition Equal (rs bs : list Range) : bool :=
  (length rs =? length bs)%nat && forallb (fun '(a, b) => Range_eqb a b) (combine rs bs).

Definition Ranges_Size (rs : list Range) : Z := fold_left (fun size r => wrap64 (size + Size r)) rs 0.

Definition FindMissing (rs : list Range) (r : Range) : outcome Empty_set Range :=
  if IsEmpty r then Ret r
  else
    '(curr, _, present) <- Find rs r ;;
    if negb present then Ret r
    else Ret (Rg (End_ curr) (wrap64 (Size r - wrap64 (End_ curr - Pos r)))).

Example insert_three : (rs <- Insert [] (Rg 10 5) ;; rs <- Insert rs (Rg 20 5) ;; Insert rs (Rg 14 7)) = Ret [Rg 10 15].
Proof. vm_compute. reflexivity. Qed.
Example find_all : FindAll [Rg 10 5; Rg 20 5] (Rg 5 17) = Ret [(Rg 5 5, false); (Rg 10 5, true); (Rg 15 5, false); (Rg 20 2, true)].
Proof. vm_compute. reflexivity. Qed.
