(* ===== verification/RangesTheorems.v ===== *)
(** * The properties of the sets of byte ranges

    A slice of ranges that is [wf] is sorted with a gap before every range; it is the
    only such slice for the bytes it [covers], and every operation is the operation on
    sets of bytes. *)
From Stdlib Require Import List Arith ZArith Lia Bool FinFun.
From S2P Require Import Prelude Ranges.
Import ListNotations.
Local Open Scope Z_scope.

(** ** The set of bytes of a slice of ranges *)

Definition within (x : Z) (r : Range) : Prop := Pos r <= x < Pos r + Size r.
Definition covers (rs : list Range) (x : Z) : Prop := Exists (within x) rs.

(** Offsets of a file are not negative, and the end of a range is an [int64]. *)
Definition bounded (r : Range) : Prop := 0 <= Pos r /\ Pos r + Size r < 2 ^ 63.

Fixpoint sorted_from (lo : Z) (rs : list Range) : Prop :=
  match rs with
  | [] => True
  | r :: rs => lo <= Pos r /\ 0 < Size r /\ Pos r + Size r < 2 ^ 63 /\ sorted_from (Pos r + Size r + 1) rs
  end.

Definition wf (rs : list Range) : Prop := sorted_from 0 rs.

Lemma covers_nil x : covers [] x <-> False.
Proof. apply Exists_nil. Qed.

Lemma covers_cons r rs x : covers (r :: rs) x <-> within x r \/ covers rs x.
Proof. apply Exists_cons. Qed.

Lemma covers_app l t x : covers (l ++ t) x <-> covers l x \/ covers t x.
Proof. apply Exists_app. Qed.

#[local] Hint Rewrite covers_nil covers_cons covers_app : covers.

Lemma sorted_weaken lo lo' rs : lo' <= lo -> sorted_from lo rs -> sorted_from lo' rs.
Proof. intros H. destruct rs; cbn; [auto |]. intuition lia. Qed.

(** All of a sorted slice is after its bound, and all is bounded. *)
Lemma sorted_after lo rs x : sorted_from lo rs -> covers rs x -> lo <= x.
Proof.
  revert lo; induction rs as [|r rs IH]; intros lo; autorewrite with covers; [tauto |].
  intros (H1 & H2 & H3 & H4) [Hx|Hx]; unfold within in *; [lia |]. specialize (IH _ H4 Hx). lia.
Qed.

(** Where the next range may begin *)
Fixpoint bound_after (lo : Z) (rs : list Range) : Z :=
  match rs with [] => lo | r :: rs => bound_after (Pos r + Size r + 1) rs end.

Lemma sorted_app lo l t : sorted_from lo (l ++ t) <-> sorted_from lo l /\ sorted_from (bound_after lo l) t.
Proof. revert lo; induction l as [|r l IH]; intros lo; cbn; [tauto |]. rewrite IH. tauto. Qed.

Lemma bound_after_app lo l r : bound_after lo (l ++ [r]) = Pos r + Size r + 1.
Proof. revert lo; induction l; intros lo; cbn; auto. Qed.

Lemma bound_after_le lo rs : sorted_from lo rs -> lo <= bound_after lo rs.
Proof. revert lo; induction rs as [|r rs IH]; intros lo; cbn; [lia |]. intros (? & ? & _ & H). specialize (IH _ H). lia. Qed.

Lemma covers_before lo rs x : sorted_from lo rs -> covers rs x -> x < bound_after lo rs - 1.
Proof.
  revert lo; induction rs as [|r rs IH]; intros lo; autorewrite with covers; [tauto |].
  cbn. intros (? & ? & _ & H) [Hx|Hx]; [| eauto]. unfold within in Hx. apply bound_after_le in H. lia.
Qed.

Lemma End_eq r : bounded r -> 0 <= Size r -> End_ r = Pos r + Size r.
Proof. intros [] ?. apply wrap64_small. lia. Qed.

(** A slice is determined by its bytes. *)
Lemma sorted_unique : forall rs bs lo, sorted_from lo rs -> sorted_from lo bs -> (forall x, covers rs x <-> covers bs x) -> rs = bs.
Proof.
  assert (Hfirst : forall lo r rs, sorted_from lo (r :: rs) -> covers (r :: rs) (Pos r)).
  { intros lo r rs (? & ? & _). apply covers_cons. left. unfold within. lia. }
  assert (Hmin : forall lo r rs x, sorted_from lo (r :: rs) -> covers (r :: rs) x -> Pos r <= x).
  { intros lo r rs x (? & ? & _ & H4) [Hx|Hx]%covers_cons; [apply Hx |]. apply (sorted_after _ _ _ H4) in Hx. lia. }
  assert (Hgap : forall lo r rs, sorted_from lo (r :: rs) -> ~ covers (r :: rs) (Pos r + Size r)).
  { intros lo r rs (? & ? & _ & H4) [Hx|Hx]%covers_cons; [unfold within in Hx; lia |]. apply (sorted_after _ _ _ H4) in Hx. lia. }
  assert (Hend : forall lo r rs b bs, sorted_from lo (r :: rs) -> sorted_from lo (b :: bs) -> (forall x, covers (r :: rs) x <-> covers (b :: bs) x) ->
    Pos r = Pos b -> ~ Pos r + Size r < Pos b + Size b).
  { intros lo r rs b bs Hr Hb H HP Hlt. apply (Hgap _ _ _ Hr), H, covers_cons. left. cbn in Hr. unfold within. lia. }
  induction rs as [|r rs IH]; intros [|b bs] lo Hr Hb H; auto.
  - exfalso. apply (proj1 (covers_nil (Pos b))), H, (Hfirst _ _ _ Hb).
  - exfalso. apply (proj1 (covers_nil (Pos r))), H, (Hfirst _ _ _ Hr).
  - assert (HP : Pos r = Pos b).
    { assert (Pos r <= Pos b) by (eapply Hmin; eauto; apply H; eauto). assert (Pos b <= Pos r) by (eapply Hmin; eauto; apply H; eauto). lia. }
    assert (HS : Size r = Size b).
    { assert (H1 := Hend _ _ _ _ _ Hr Hb H HP). assert (H2 := Hend _ _ _ _ _ Hb Hr (fun x => iff_sym (H x)) (eq_sym HP)). lia. }
    assert (Erb : r = b) by (destruct r, b; cbn in *; congruence). subst b. f_equal.
    cbn in Hr, Hb. apply (IH bs (Pos r + Size r + 1)); try tauto. intros x. specialize (H x). autorewrite with covers in H.
    split; intros Hx; [assert (Hs : covers bs x \/ within x r) by tauto | assert (Hs : covers rs x \/ within x r) by tauto]; destruct Hs as [|Hs]; auto; unfold within in Hs.
    + apply (sorted_after (Pos r + Size r + 1)) in Hx; [lia | tauto].
    + apply (sorted_after (Pos r + Size r + 1)) in Hx; [lia | tauto].
Qed.

(** ** Insertion *)

Lemma merge_spec a b : bounded a -> bounded b -> 0 < Size a -> 0 < Size b -> Pos a <= Pos b ->
  match merge a b with
  | Some d => d = Rg (Pos a) (Z.max (Pos a + Size a) (Pos b + Size b) - Pos a) /\ Pos b <= Pos a + Size a
  | None => Pos a + Size a < Pos b
  end.
Proof.
  intros Ha Hb HSa HSb HP. unfold merge. rewrite !End_eq by (auto; lia). destruct Ha, Hb.
  destruct (Z.ltb_spec (Pos a + Size a) (Pos b)); [auto |].
  destruct (Z.gtb_spec (Pos a + Size a) (Pos b + Size b)); (split; [| lia]); f_equal; [lia |].
  rewrite (wrap64_small (n := Pos b - Pos a)) by lia. rewrite wrap64_small; lia.
Qed.

(** [d] and the ranges after it that it meets become one. *)
Fixpoint absorb (d : Range) (t : list Range) : list Range :=
  match t with
  | [] => [d]
  | e :: t' => match merge d e with Some d' => absorb d' t' | None => d :: e :: t' end
  end.

Lemma absorb_spec t : forall d, bounded d -> 0 < Size d -> sorted_from (Pos d) t ->
  sorted_from (Pos d) (absorb d t) /\ forall x, covers (absorb d t) x <-> within x d \/ covers t x.
Proof.
  induction t as [|e t IH]; intros d Hd HS Ht; cbn [absorb].
  - split; [cbn; destruct Hd; auto with zarith |]. intros x. now autorewrite with covers.
  - cbn in Ht. destruct Ht as (H1 & H2 & H3 & H4).
    assert (He : bounded e) by (destruct Hd; split; lia).
    assert (Hm := merge_spec d e Hd He HS H2 H1). destruct (merge d e) as [d'|].
    + destruct Hm as [-> Hm]. destruct (IH (Rg (Pos d) (Z.max (Pos d + Size d) (Pos e + Size e) - Pos d))) as [I1 I2]; cbn [Pos Size].
      { destruct Hd, He. split; cbn; lia. }
      { lia. }
      { apply (sorted_weaken (Pos e + Size e + 1)); [lia | auto]. }
      split; [exact I1 |]. intros x. rewrite I2. autorewrite with covers. unfold within; cbn. intuition lia.
    + split; [| intros x; now autorewrite with covers]. cbn. destruct Hd, He. splits; auto; lia.
Qed.

Lemma coalesce_loop_spec t : forall l d, exists m,
  coalesce_loop (length t) (length l) (l ++ d :: t) (length l) = Ret (m ++ absorb d t, length m) /\
  (length l <= length m)%nat /\ firstn (length l) m = l.
Proof.
  induction t as [|e t IH]; intros l d; cbn [coalesce_loop length absorb].
  - exists l. splits; auto. apply firstn_all.
  - rewrite (idx_nth d) by (rewrite length_app; cbn; lia). rewrite app_nth2, Nat.sub_diag by lia. cbn [nth bind].
    rewrite (idx_nth d) by (rewrite length_app; cbn; lia). rewrite app_nth2 by lia. replace (S (length l) - length l)%nat with 1%nat by lia. cbn [nth bind].
    destruct (merge d e) as [d'|]; [| exists l; splits; auto; apply firstn_all].
    rewrite upd_ret by (rewrite length_app; cbn; lia). cbn [bind].
    assert (E : set_nth (l ++ d :: e :: t) (S (length l)) d' = (l ++ [d]) ++ d' :: t).
    { rewrite <- app_assoc. clear IH. cbn [app]. induction l as [|x l IH]; cbn; [auto |]. now rewrite <- IH. }
    rewrite E. destruct (IH (l ++ [d]) d') as (m & Hm & Hl & Hf). rewrite length_app, Nat.add_comm in Hm, Hl, Hf. cbn [length Nat.add] in *.
    exists m. splits; [auto | lia |]. assert (Hf2 := f_equal (firstn (length l)) Hf). rewrite firstn_firstn, firstn_app, firstn_all, Nat.sub_diag, app_nil_r in Hf2.
    now replace (Nat.min (length l) (S (length l))) with (length l) in Hf2 by lia.
Qed.

(** What [coalesce] makes of the slice, where the range before may meet [d] too *)
Definition joined (l : list Range) (d : Range) (t : list Range) : list Range :=
  match rev l with
  | [] => absorb d t
  | p :: l0 => match merge p d with Some d' => rev l0 ++ absorb d' t | None => l ++ absorb d t end
  end.

(** The end of [coalesce], with [chopped] ranges of [l] left *)
Lemma chop l d t chopped : (chopped <= length l)%nat ->
  ('(ranges, endChop) <- coalesce_loop (length (l ++ d :: t) - 1 - length l) (length l) (l ++ d :: t) (length l) ;;
   Ret (if (chopped <? endChop)%nat then firstn chopped ranges ++ skipn endChop ranges else ranges)) = Ret (firstn chopped l ++ absorb d t).
Proof.
  intros Hc. rewrite length_app. cbn [length]. replace (length l + S (length t) - 1 - length l)%nat with (length t) by lia.
  destruct (coalesce_loop_spec t l d) as (m & -> & Hlm & Hf). cbn [bind]. rewrite firstn_app, skipn_app, skipn_all, Nat.sub_diag. cbn [app skipn].
  assert (Ef : firstn chopped m = firstn chopped l) by (rewrite <- Hf, firstn_firstn; f_equal; lia).
  replace (chopped - length m)%nat with 0%nat by lia. cbn [firstn]. rewrite app_nil_r, Ef.
  destruct (Nat.ltb_spec chopped (length m)); [auto |]. rewrite <- Ef, firstn_all2 by lia. auto.
Qed.

Lemma coalesce_spec l d t : coalesce (l ++ d :: t) (length l) = Ret (joined l d t).
Proof.
  unfold coalesce, joined. destruct (rev l) as [|p l0] eqn:El.
  - assert (l = []) as -> by (rewrite <- (rev_involutive l), El; auto). cbn [Nat.ltb Nat.leb bind length].
    exact (chop [] d t 0 (le_n 0)).
  - assert (Elp : l = rev l0 ++ [p]) by (rewrite <- (rev_involutive l), El; auto). set (k := rev l0) in *. clearbody k. clear El.
    assert (HL : length l = S (length k)) by (rewrite Elp, length_app; cbn; lia).
    replace (0 <? length l)%nat with true by (rewrite HL; reflexivity). replace (length l - 1)%nat with (length k) by lia.
    rewrite (idx_nth d) by (rewrite length_app; lia). rewrite app_nth1 by lia. rewrite Elp at 1. rewrite app_nth2, Nat.sub_diag by lia. cbn [nth bind].
    rewrite (idx_nth d) by (rewrite length_app; cbn; lia). rewrite app_nth2, Nat.sub_diag by lia. cbn [nth bind].
    destruct (merge p d) as [d'|].
    + rewrite upd_ret by (rewrite length_app; cbn; lia). cbn [bind].
      assert (E : set_nth (l ++ d :: t) (length l) d' = l ++ d' :: t) by (clear; induction l as [|x l IH]; cbn; [auto | now rewrite <- IH]).
      rewrite E, chop by lia. rewrite Elp, firstn_app, firstn_all, Nat.sub_diag, app_nil_r. reflexivity.
    + cbn [bind]. rewrite chop, firstn_all by lia. reflexivity.
Qed.

Lemma joined_spec lo l d t : bounded d -> 0 < Size d -> sorted_from lo l -> 0 <= lo <= Pos d -> (forall e, In e l -> Pos e <= Pos d) -> sorted_from (Pos d) t ->
  sorted_from lo (joined l d t) /\ forall x, covers (joined l d t) x <-> covers l x \/ within x d \/ covers t x.
Proof.
  intros Hd HS Hl Hlo Hle Ht. unfold joined. destruct (rev l) as [|p k] eqn:El.
  - assert (l = []) as -> by (rewrite <- (rev_involutive l), El; auto). destruct (absorb_spec t d Hd HS Ht) as [I1 I2].
    split; [now apply (sorted_weaken (Pos d)) |]. intros x. rewrite I2. autorewrite with covers. tauto.
  - assert (Elp : l = rev k ++ [p]) by (rewrite <- (rev_involutive l), El; auto). set (l0 := rev k) in *. clearbody l0. clear El k.
    assert (Hpd : Pos p <= Pos d) by (apply Hle; rewrite Elp; apply in_app_iff; right; now left).
    assert (Hl2 := Hl). rewrite Elp in Hl. apply sorted_app in Hl as [H1 (H2 & H3 & H4 & _)]. assert (Hb := bound_after_le _ _ H1).
    assert (Hp : bounded p) by (split; lia). assert (Hm := merge_spec p d Hp Hd H3 HS Hpd). destruct (merge p d) as [d'|].
    + destruct Hm as [-> Hm]. destruct (absorb_spec t (Rg (Pos p) (Z.max (Pos p + Size p) (Pos d + Size d) - Pos p))) as [I1 I2]; cbn [Pos Size] in *.
      { destruct Hp, Hd. split; cbn; lia. }
      { lia. }
      { apply (sorted_weaken (Pos d)); [lia | auto]. }
      split; [apply sorted_app; split; [auto | now apply (sorted_weaken (Pos p))] |]. intros x. rewrite Elp, !covers_app, I2. autorewrite with covers. unfold within; cbn. intuition lia.
    + destruct (absorb_spec t d Hd HS Ht) as [I1 I2]. split; [| intros x; now rewrite covers_app, I2].
      apply sorted_app. split; [auto |]. rewrite Elp, bound_after_app. apply (sorted_weaken (Pos d)); [lia | auto].
Qed.

(** ** Search *)

(** A binary search finds the first index from [k] on, where the test is true. *)
Lemma sort_Search_spec k f : forall fuel i j, (i <= k <= j)%nat -> (j - i < fuel)%nat ->
  (forall h, (i <= h < j)%nat -> f h = Ret (k <=? h)%nat) -> sort_Search fuel i j f = Ret k.
Proof.
  induction fuel as [|fuel IH]; intros i j Hk Hf Hh; [lia |]. cbn [sort_Search]. destruct (Nat.ltb_spec i j); [| f_equal; lia].
  assert (Hm : (i <= (i + j) / 2 < j)%nat) by (split; [apply Nat.div_le_lower_bound | apply Nat.div_lt_upper_bound]; lia).
  set (m := ((i + j) / 2)%nat) in *. rewrite Hh by auto. cbn [bind]. destruct (Nat.leb_spec k m); apply IH; try lia; intros h Hi; apply Hh; lia.
Qed.

Lemma split_at p lo rs : sorted_from lo rs -> exists l t, rs = l ++ t /\ (forall e, In e l -> Pos e < p) /\ (forall e, In e t -> p <= Pos e).
Proof.
  revert lo; induction rs as [|r rs IH]; intros lo Hrs.
  - exists [], []. cbn. intuition.
  - destruct (Z.ltb_spec (Pos r) p).
    + destruct Hrs as (_ & _ & _ & Hrs). destruct (IH _ Hrs) as (l & t & -> & Hl & Ht). exists (r :: l), t. cbn. splits; auto. intros e [<-|He]; auto.
    + exists [], (r :: rs). cbn [app In]. splits; auto; [tauto |]. cbn in Hrs. destruct Hrs as (_ & HS & _ & Hrs). intros e [<-|He]; [lia |].
      assert (Pos r + Size r + 1 <= Pos e); [| lia]. clear - Hrs He. revert He Hrs. generalize (Pos r + Size r + 1). induction rs as [|b rs IH]; cbn; [tauto |].
      intros z [->|He] (? & ? & ? & H); [lia |]. specialize (IH _ He H). lia.
Qed.

Lemma search_spec lo rs r : sorted_from lo rs -> exists l t, rs = l ++ t /\ search rs r = Ret (length l) /\
  (forall e, In e l -> Pos e < Pos r) /\ (forall e, In e t -> Pos r <= Pos e).
Proof.
  intros Hrs. destruct (split_at (Pos r) lo rs Hrs) as (l & t & -> & Hl & Ht). exists l, t. splits; auto.
  apply sort_Search_spec; [rewrite length_app; lia | lia |]. intros h Hh. rewrite (idx_nth r) by lia. cbn [bind]. f_equal.
  destruct (Nat.leb_spec (length l) h).
  - rewrite app_nth2 by lia. apply Z.leb_le, Ht, nth_In. rewrite length_app in Hh. lia.
  - rewrite app_nth1 by lia. apply Z.leb_gt, Hl, nth_In. lia.
Qed.

Lemma Insert_spec rs r : wf rs -> bounded r ->
  exists rs', Insert rs r = Ret rs' /\ wf rs' /\ forall x, covers rs' x <-> covers rs x \/ within x r.
Proof.
  intros Hrs Hr. unfold Insert, IsEmpty. destruct (Z.leb_spec (Size r) 0) as [HS|HS].
  { exists rs. splits; auto. intros x. unfold within. intuition lia. }
  destruct (Nat.eqb_spec (length rs) 0) as [E|_].
  { destruct rs; [| discriminate]. exists [r]. splits; [auto | unfold wf; cbn; destruct Hr; auto with zarith |]. intros x. autorewrite with covers. tauto. }
  destruct (search_spec 0 rs r Hrs) as (l & t & -> & -> & Hl & Ht). cbn [bind]. apply sorted_app in Hrs as [Hsl Hst].
  assert (Hle : forall e, In e l -> Pos e <= Pos r) by (intros e He; specialize (Hl e He); lia). assert (H0 : 0 <= 0 <= Pos r) by (destruct Hr; lia).
  rewrite length_app. destruct t as [|e t].
  - rewrite Nat.add_0_r, Nat.eqb_refl. cbn [bind]. rewrite app_nil_r, firstn_all, skipn_all, coalesce_spec.
    destruct (joined_spec 0 l r [] Hr HS Hsl H0 Hle I) as [J1 J2]. exists (joined l r []). splits; auto. intros x. rewrite J2. autorewrite with covers. tauto.
  - cbn [length]. replace (length l =? length l + S (length t))%nat with false by (symmetry; apply Nat.eqb_neq; lia).
    rewrite (idx_nth r) by (rewrite length_app; cbn; lia). rewrite app_nth2, Nat.sub_diag by lia. cbn [nth bind].
    assert (HPe : Pos r <= Pos e) by (apply Ht; now left). cbn in Hst. destruct Hst as (S1 & S2 & S3 & S4).
    assert (He : bounded e) by (destruct Hr; split; lia). assert (Hm := merge_spec r e Hr He HS S2 HPe). destruct (merge r e) as [d|].
    + rewrite upd_ret by (rewrite length_app; cbn; lia). cbn [bind]. destruct Hm as [-> Hm]. set (d := Rg _ _).
      assert (E : set_nth (l ++ e :: t) (length l) d = l ++ d :: t) by (clear; induction l as [|x l IH]; cbn; [auto | now rewrite <- IH]).
      rewrite E, coalesce_spec. destruct (joined_spec 0 l d t) as [J1 J2]; auto; subst d; cbn [Pos Size]; try lia.
      { destruct Hr, He. split; cbn; lia. }
      { apply (sorted_weaken (Pos e + Size e + 1)); [lia | auto]. }
      eexists. splits; [reflexivity | auto |]. intros x. rewrite J2. autorewrite with covers. unfold within; cbn. intuition lia.
    + cbn [bind]. rewrite firstn_app, skipn_app, firstn_all, skipn_all, Nat.sub_diag. cbn [firstn skipn app]. rewrite app_nil_r, coalesce_spec.
      destruct (joined_spec 0 l r (e :: t)) as [J1 J2]; auto; [cbn; auto with zarith |].
      eexists. splits; [reflexivity | auto |]. intros x. rewrite J2. autorewrite with covers. tauto.
Qed.

(** ** Questions *)

Lemma Range_Intersection_spec a b : bounded a -> bounded b -> 0 < Size a -> 0 < Size b ->
  (IsEmpty (Range_Intersection a b) = true /\ (Pos a + Size a <= Pos b \/ Pos b + Size b <= Pos a)) \/
  (Range_Intersection a b = Rg (Z.max (Pos a) (Pos b)) (Z.min (Pos a + Size a) (Pos b + Size b) - Z.max (Pos a) (Pos b)) /\
   Z.max (Pos a) (Pos b) < Z.min (Pos a + Size a) (Pos b + Size b)).
Proof.
  intros Ha Hb HSa HSb. unfold Range_Intersection. rewrite !End_eq by (auto; lia). destruct Ha, Hb.
  destruct (Z.leb_spec (Pos b) (Pos a)), (Z.ltb_spec (Pos a) (Pos b + Size b)), (Z.leb_spec (Pos a) (Pos b)), (Z.ltb_spec (Pos b) (Pos a + Size a)); cbn [andb orb];
    first [left; split; [reflexivity | lia] | right; split; [f_equal; rewrite wrap64_small; lia | lia]].
Qed.

(** [Find] takes off the front of [r] the longest part that is present or absent as a
    whole. *)
Definition front (rs : list Range) (r curr next : Range) (present : bool) : Prop :=
  Pos curr = Pos r /\ 0 < Size curr <= Size r /\ (forall x, within x curr -> covers rs x <-> present = true) /\
  (Size curr < Size r -> (covers rs (Pos r + Size curr) <-> present = false) /\ next = Rg (Pos r + Size curr) (Size r - Size curr)) /\
  (Size curr = Size r -> Size next = 0).

Lemma Find_from_spec l t r : sorted_from 0 t -> (forall e, In e t -> Pos r <= Pos e) -> (forall x, Pos r <= x -> ~ covers l x) -> bounded r -> 0 < Size r ->
  exists curr next present, Find_from (l ++ t) (length l) r = Ret (curr, next, present) /\ front (l ++ t) r curr next present.
Proof.
  intros Ht Hle Hl Hr HS. unfold Find_from. rewrite length_app. destruct t as [|e t].
  - rewrite Nat.add_0_r, Nat.leb_refl. exists r, (Rg 0 0), false. split; [reflexivity |]. split; [reflexivity |]. splits; cbn; try lia.
    rewrite app_nil_r. intros x [Hx _]. specialize (Hl x Hx). intuition discriminate.
  - cbn [length]. replace (length l + S (length t) <=? length l)%nat with false by (symmetry; apply Nat.leb_gt; lia).
    rewrite (idx_nth r) by (rewrite length_app; cbn; lia). rewrite app_nth2, Nat.sub_diag by lia. cbn [nth bind].
    cbn in Ht. destruct Ht as (S1 & S2 & S3 & S4). assert (HPe : Pos r <= Pos e) by (apply Hle; now left).
    assert (He : bounded e) by (split; lia).
    assert (Hcov : forall x, Pos r <= x -> covers (l ++ e :: t) x <-> within x e \/ covers t x).
    { intros x Hx. autorewrite with covers. specialize (Hl x Hx). tauto. }
    assert (Hafter : forall x, x <= Pos e + Size e -> ~ covers t x) by (intros x Hx Hc; apply (sorted_after _ _ _ S4) in Hc; lia).
    destruct (Range_Intersection_spec e r He Hr S2 HS) as [[-> Hm]|[-> Hm]].
    + exists r, (Rg 0 0), false. split; [reflexivity |]. split; [reflexivity |]. splits; cbn; try lia. intros x Hx. unfold within in Hx.
      rewrite Hcov by lia. assert (Ha := Hafter x ltac:(lia)). unfold within. intuition (try lia; try discriminate).
    + unfold IsEmpty. cbn [Size Pos]. rewrite Z.max_l in * by lia. destruct (Z.leb_spec (Z.min (Pos e + Size e) (Pos r + Size r) - Pos e) 0); [lia |].
      destruct Hr. destruct (Z.ltb_spec (Pos r) (Pos e)).
      * rewrite (wrap64_small (n := Pos e - Pos r)) by lia. rewrite End_eq by (cbn; try split; cbn; lia). cbn [Pos Size].
        rewrite wrap64_small by lia. eexists _, _, false. split; [reflexivity |]. split; [reflexivity |]. cbn [Pos Size]. splits; try lia.
        -- intros x Hx. unfold within in Hx. cbn in Hx. rewrite Hcov by lia. assert (Ha := Hafter x ltac:(lia)). unfold within. intuition (try lia; try discriminate).
        -- intros _. split; [| f_equal; lia]. rewrite Hcov by lia. unfold within. intuition lia.
      * assert (E : Pos e = Pos r) by lia. rewrite End_eq by (cbn; try split; cbn; lia). cbn [Pos Size]. rewrite wrap64_small by lia.
        eexists _, _, true. split; [reflexivity |]. split; [cbn; lia |]. cbn [Pos Size]. splits; try lia.
        -- intros x Hx. unfold within in Hx. cbn in Hx. rewrite Hcov by lia. unfold within. intuition lia.
        -- intros Hlt. split; [| f_equal; lia]. rewrite Hcov by lia. assert (Ha := Hafter (Pos r + (Z.min (Pos e + Size e) (Pos r + Size r) - Pos e)) ltac:(lia)). unfold within. intuition (try lia; try discriminate).
Qed.

Lemma Find_spec rs r : wf rs -> bounded r -> 0 < Size r -> exists curr next present, Find rs r = Ret (curr, next, present) /\ front rs r curr next present.
Proof.
  intros Hrs Hr HS. unfold Find, IsEmpty at 1. destruct (Z.leb_spec (Size r) 0); [lia |].
  destruct (search_spec 0 rs r Hrs) as (l & t & -> & -> & Hl & Ht). cbn [bind]. apply sorted_app in Hrs as [Hsl Hst].
  assert (Hst0 : sorted_from 0 t) by (apply (sorted_weaken (bound_after 0 l)); [now apply bound_after_le | auto]).
  destruct l as [|p l _] using rev_ind.
  - apply (Find_from_spec [] t r); auto. intros x _. autorewrite with covers. tauto.
  - rewrite length_app, Nat.add_comm. cbn [length Nat.add Nat.ltb Nat.leb Nat.sub]. rewrite Nat.sub_0_r, <- app_assoc. cbn [app].
    rewrite (idx_nth r) by (rewrite length_app; cbn; lia). rewrite app_nth2, Nat.sub_diag by lia. cbn [nth bind].
    assert (Hpr : Pos p < Pos r) by (apply Hl, in_app_iff; right; now left). rewrite bound_after_app in Hst.
    assert (Hsl2 := Hsl). apply sorted_app in Hsl as [H1 (H2 & H3 & H4 & _)]. assert (Hb := bound_after_le _ _ H1). assert (Hp : bounded p) by (split; lia).
    assert (Hlast : forall x, Pos r <= x -> covers (l ++ [p]) x -> within x p).
    { intros x Hx Hc. autorewrite with covers in Hc. destruct Hc as [Hc|[Hc|[]]]; auto. apply (covers_before _ _ _ H1) in Hc. lia. }
    destruct (Range_Intersection_spec p r Hp Hr H3 HS) as [[-> Hm]|[-> Hm]]; cbn [negb].
    + replace (l ++ p :: t) with ((l ++ [p]) ++ t) by (now rewrite <- app_assoc). replace (S (length l)) with (length (l ++ [p])) by (rewrite length_app; cbn; lia).
      apply Find_from_spec; auto. intros x Hx Hc. apply Hlast in Hc; auto. unfold within in Hc. lia.
    + unfold IsEmpty. cbn [Size Pos]. rewrite Z.max_r in * by lia. destruct (Z.leb_spec (Z.min (Pos p + Size p) (Pos r + Size r) - Pos r) 0); [lia |]. cbn [negb].
      destruct Hr, Hp. rewrite End_eq by (cbn; try split; cbn; lia). cbn [Pos Size]. rewrite wrap64_small by lia.
      eexists _, _, true. split; [reflexivity |]. split; [reflexivity |]. cbn [Pos Size]. splits; try lia.
      * intros x Hx. unfold within in Hx. cbn in Hx. autorewrite with covers. unfold within. intuition lia.
      * intros Hlt. split; [| f_equal; lia]. replace (l ++ p :: t) with ((l ++ [p]) ++ t) by (now rewrite <- app_assoc). rewrite covers_app.
        split; [| discriminate]. intros [Hc|Hc]; exfalso.
        -- apply Hlast in Hc; [| lia]. unfold within in Hc. lia.
        -- apply (sorted_after _ _ _ Hst) in Hc. lia.
Qed.

(** *** The number of calls of [Find] *)

Definition coversb (rs : list Range) (x : Z) : bool := existsb (fun e => (Pos e <=? x) && (x <? Pos e + Size e)) rs.

Lemma coversb_iff rs x : coversb rs x = true <-> covers rs x.
Proof.
  unfold coversb, covers. rewrite existsb_exists, Exists_exists.
  split; intros (e & He & Hx); exists e; (split; [auto |]); unfold within in *; [apply andb_true_iff in Hx; lia | apply andb_true_iff; lia].
Qed.

(** The ranges that end after [p] *)
Definition left_of (rs : list Range) (p : Z) : nat := length (filter (fun e => p <? Pos e + Size e) rs).

Lemma left_of_mono rs p q : p <= q -> (left_of rs q <= left_of rs p)%nat.
Proof.
  intros H. unfold left_of. induction rs as [|r rs IH]; cbn; [auto |].
  destruct (Z.ltb_spec q (Pos r + Size r)), (Z.ltb_spec p (Pos r + Size r)); cbn; lia.
Qed.

Lemma left_of_lt rs p q e : p <= q -> In e rs -> p < Pos e + Size e <= q -> (left_of rs q < left_of rs p)%nat.
Proof.
  intros H He Hp. induction rs as [|r rs IH]; [destruct He |]. assert (Hm := left_of_mono rs p q H). unfold left_of in *. cbn. destruct He as [->|He].
  - destruct (Z.ltb_spec q (Pos e + Size e)), (Z.ltb_spec p (Pos e + Size e)); cbn; lia.
  - specialize (IH He). destruct (Z.ltb_spec q (Pos r + Size r)), (Z.ltb_spec p (Pos r + Size r)); cbn; lia.
Qed.

Definition calls (rs : list Range) (r : Range) : nat := 2 * left_of rs (Pos r) + (if coversb rs (Pos r) then 1 else 2).

Lemma front_calls rs r curr next present : front rs r curr next present -> Size curr < Size r -> (calls rs next < calls rs r)%nat.
Proof.
  intros (HP & HS & Hc & Hn & _) Hlt. destruct (Hn Hlt) as [Hcn ->]. unfold calls. cbn [Pos].
  assert (Hr : coversb rs (Pos r) = present).
  { apply eq_true_iff_eq. rewrite coversb_iff. apply Hc. unfold within. lia. }
  assert (Hm := left_of_mono rs (Pos r) (Pos r + Size curr) ltac:(lia)). rewrite Hr. destruct present.
  - destruct (coversb rs (Pos r + Size curr)) eqn:E; [apply coversb_iff, Hcn in E; discriminate |].
    apply coversb_iff, Exists_exists in Hr as (e & He & Hw). unfold within in Hw.
    assert (left_of rs (Pos r + Size curr) < left_of rs (Pos r))%nat; [| lia].
    apply (left_of_lt rs _ _ e); auto; [lia |]. split; [lia |].
    destruct (Z.leb_spec (Pos e + Size e) (Pos r + Size curr)); [auto |].
    assert (Hc2 : coversb rs (Pos r + Size curr) = true) by (apply coversb_iff, Exists_exists; exists e; unfold within; split; [auto | lia]). congruence.
  - rewrite (proj2 (coversb_iff rs (Pos r + Size curr))) by (apply Hcn; auto). lia.
Qed.

Lemma calls_rounds rs r : (calls rs r < rounds rs)%nat.
Proof. unfold calls, rounds, left_of. assert (H := filter_length_le (fun e => Pos r <? Pos e + Size e) rs). destruct (coversb rs (Pos r)); lia. Qed.

(** The loop of [FindAll] and of [Intersection]: what it does for every part it finds *)
Lemma Find_loop {St} (loop : nat -> Range -> St -> outcome Empty_set St) (body : Range -> bool -> St -> outcome Empty_set St)
    (I : Z -> St -> Prop) rs : wf rs ->
  (forall fuel r st, loop (S fuel) r st =
     if negb (IsEmpty r) then '(curr, r, present) <- Find rs r ;; st <- body curr present st ;; loop fuel r st else Ret st) ->
  forall hi, (forall curr present st, bounded curr -> 0 < Size curr -> Pos curr + Size curr <= hi -> (forall x, within x curr -> covers rs x <-> present = true) ->
    (Pos curr + Size curr < hi -> covers rs (Pos curr + Size curr) <-> present = false) ->
    I (Pos curr) st -> exists st', body curr present st = Ret st' /\ I (Pos curr + Size curr) st') ->
  forall fuel r st, bounded r -> 0 < Size r -> Pos r + Size r = hi -> (calls rs r < fuel)%nat -> I (Pos r) st -> exists st', loop fuel r st = Ret st' /\ I hi st'.
Proof.
  intros Hrs Hloop hi Hbody. induction fuel as [|fuel IH]; intros r st Hr HS Hhi Hf HI; [lia |]. rewrite Hloop.
  unfold IsEmpty. destruct (Z.leb_spec (Size r) 0); [lia |]. cbn [negb].
  destruct (Find_spec rs r Hrs Hr HS) as (curr & next & present & -> & HF). assert (Hcalls := front_calls _ _ _ _ _ HF). cbn [bind].
  destruct HF as (HP & HSc & Hc & Hn & He). rewrite <- HP in HI. destruct Hr.
  destruct (Hbody curr present st) as (st' & -> & HI'); auto; try lia.
  { split; lia. }
  { intros Hlt. destruct Hn as [Hn _]; [lia |]. now rewrite HP. }
  cbn [bind]. destruct (Z.ltb_spec (Size curr) (Size r)) as [Hlt|].
  - destruct (Hn Hlt) as [_ ->]. rewrite HP in HI'. apply IH; cbn [Pos Size]; auto; [split; cbn; lia | lia | lia |]. specialize (Hcalls Hlt). lia.
  - assert (E : Size curr = Size r) by lia. destruct fuel as [|fuel]; [unfold calls in Hf; destruct (coversb rs (Pos r)); lia |].
    rewrite Hloop. unfold IsEmpty. rewrite (He E). cbn [Z.leb Z.compare negb]. exists st'. split; [auto |]. now replace hi with (Pos curr + Size curr) by lia.
Qed.

(** ** Properties *)

(** The ranges inserted one after another *)
Definition Inserts (added : list Range) : outcome Empty_set (list Range) := fold_left (fun c r => rs <- c ;; Insert rs r) added (Ret []).

Lemma Inserts_spec added : Forall bounded added -> exists rs, Inserts added = Ret rs /\ wf rs /\ forall x, covers rs x <-> covers added x.
Proof.
  intros H. unfold Inserts. cut (exists rs, fold_left (fun c r => rs <- c ;; Insert rs r) added (Ret []) = Ret rs /\ wf rs /\ forall x, covers rs x <-> covers [] x \/ covers added x).
  { intros (rs & E & Hw & Hc). exists rs. splits; auto. intros x. rewrite Hc. autorewrite with covers. tauto. }
  assert (H0 : wf []) by exact I. revert H0. generalize (@nil Range). induction H as [|r added Hr _ IH]; intros rs Hrs; cbn [fold_left].
  - exists rs. splits; auto. intros x. autorewrite with covers. tauto.
  - destruct (Insert_spec rs r Hrs Hr) as (rs1 & E & Hw & Hc). cbn [bind]. rewrite E. destruct (IH rs1 Hw) as (rs2 & -> & Hw2 & Hc2).
    exists rs2. splits; auto. intros x. rewrite Hc2, Hc. autorewrite with covers. tauto.
Qed.

Lemma Equal_iff rs bs : Equal rs bs = true <-> rs = bs.
Proof.
  unfold Equal. revert bs; induction rs as [|r rs IH]; intros [|b bs]; cbn; try (split; discriminate); [tauto |].
  specialize (IH bs). destruct r as [p1 s1], b as [p2 s2]. unfold Range_eqb. cbn [Pos Size].
  destruct (Z.eqb_spec p1 p2), (Z.eqb_spec s1 s2); cbn [andb]; rewrite ?andb_false_r; try (split; [discriminate | intros [=]; congruence]).
  rewrite IH. subst. split; [now intros -> | intros [=]; auto].
Qed.

(** C23: ranges inserted in any order give one slice, which is sorted with gaps and
    depends only on the set of bytes; [Equal] compares the sets. *)
Theorem Insert_set added : Forall bounded added -> exists rs, Inserts added = Ret rs /\ wf rs /\ (forall x, covers rs x <-> covers added x) /\
  forall added' rs', Forall bounded added' -> Inserts added' = Ret rs' -> (Equal rs rs' = true <-> forall x, covers added x <-> covers added' x).
Proof.
  intros H. destruct (Inserts_spec added H) as (rs & E & Hw & Hc). exists rs. splits; auto.
  intros added' rs' H' E'. destruct (Inserts_spec added' H') as (rs2 & E2 & Hw2 & Hc2). rewrite E' in E2. injection E2 as <-. rewrite Equal_iff.
  split; [intros -> x; now rewrite <- Hc, Hc2 |]. intros Hx. apply (sorted_unique rs rs' 0); auto. intros x. now rewrite Hc, Hc2.
Qed.

Definition added0 : list Range := [Rg 10 5; Rg 30 2; Rg 20 5; Rg 14 7; Rg 40 0].

Lemma added0_ok : Forall bounded added0.
Proof. repeat constructor; cbn; lia. Qed.

Lemma Insert_set_witness : exists rs, Inserts added0 = Ret rs /\ wf rs /\ (forall x, covers rs x <-> covers added0 x) /\
  forall added' rs', Forall bounded added' -> Inserts added' = Ret rs' -> (Equal rs rs' = true <-> forall x, covers added0 x <-> covers added' x).
Proof. apply (Insert_set added0), added0_ok. Defined.

(** The parts of the bytes from [lo] to [hi]: each is present or absent as a whole and
    cannot be longer. *)
Fixpoint runs (rs : list Range) (lo hi : Z) (frs : list (Range * bool)) : Prop :=
  match frs with
  | [] => lo = hi
  | (curr, present) :: frs =>
      Pos curr = lo /\ 0 < Size curr /\ (forall x, within x curr -> covers rs x <-> present = true) /\
      (Pos curr + Size curr < hi -> covers rs (Pos curr + Size curr) <-> present = false) /\ runs rs (Pos curr + Size curr) hi frs
  end.

(** The same for the parts found so far, up to [p] *)
Fixpoint runs_to (rs : list Range) (lo p hi : Z) (frs : list (Range * bool)) : Prop :=
  match frs with
  | [] => lo = p
  | (curr, present) :: frs =>
      Pos curr = lo /\ 0 < Size curr /\ (forall x, within x curr -> covers rs x <-> present = true) /\
      (Pos curr + Size curr < hi -> covers rs (Pos curr + Size curr) <-> present = false) /\ runs_to rs (Pos curr + Size curr) p hi frs
  end.

Lemma runs_to_snoc rs lo p hi frs curr present : runs_to rs lo p hi frs -> Pos curr = p -> 0 < Size curr -> (forall x, within x curr -> covers rs x <-> present = true) ->
  (Pos curr + Size curr < hi -> covers rs (Pos curr + Size curr) <-> present = false) -> runs_to rs lo (Pos curr + Size curr) hi (frs ++ [(curr, present)]).
Proof.
  intros Hr HP HS Hc Hn. revert lo Hr; induction frs as [|[c b] frs IH]; intros lo; cbn; [intros ->; splits; auto |].
  intros (H1 & H2 & H3 & H4 & H5). splits; auto.
Qed.

Lemma runs_to_end rs lo hi frs : runs_to rs lo hi hi frs -> runs rs lo hi frs.
Proof. revert lo; induction frs as [|[c b] frs IH]; intros lo; cbn; [auto |]. intros (H1 & H2 & H3 & H4 & H5). splits; auto. Qed.

(** [FindAll] ends and cuts the range into its longest parts that are present or
    absent as a whole. *)
Theorem FindAll_runs rs r : wf rs -> bounded r -> 0 < Size r -> exists frs, FindAll rs r = Ret frs /\ runs rs (Pos r) (Pos r + Size r) frs.
Proof.
  intros Hrs Hr HS. unfold FindAll.
  destruct (Find_loop (fun fuel => FindAll_loop fuel rs) (fun curr present frs => Ret (frs ++ [(curr, present)])) (fun p frs => runs_to rs (Pos r) p (Pos r + Size r) frs) rs Hrs)
    with (hi := Pos r + Size r) (fuel := rounds rs) (r := r) (st := @nil (Range * bool)) as (frs & E & Hf); auto.
  - intros curr present st Hb Hs Hle Hc Hn Hst. eexists. split; [reflexivity |]. now apply runs_to_snoc with (p := Pos curr).
  - apply calls_rounds.
  - reflexivity.
  - exists frs. split; [exact E |]. now apply runs_to_end.
Qed.

Lemma FindAll_runs_witness : exists frs, FindAll [Rg 10 5; Rg 20 5] (Rg 5 17) = Ret frs /\ runs [Rg 10 5; Rg 20 5] 5 22 frs.
Proof. apply (FindAll_runs [Rg 10 5; Rg 20 5] (Rg 5 17)); [unfold wf; cbn; lia | split; cbn; lia | reflexivity]. Defined.

(** [Intersection] is the intersection of the sets of bytes: a range that lies
    only partly in [r] is cut, not left out. *)
Theorem Intersection_set rs r : wf rs -> bounded r -> exists rs', Intersection rs r = Ret rs' /\ wf rs' /\ forall x, covers rs' x <-> covers rs x /\ within x r.
Proof.
  intros Hrs Hr. unfold Intersection. destruct (Nat.eqb_spec (length rs) 0) as [E|_].
  { destruct rs; [| discriminate]. exists []. splits; auto. intros x. autorewrite with covers. tauto. }
  destruct (Z.ltb_spec 0 (Size r)) as [HS|HS].
  - destruct (Find_loop (fun fuel => Intersection_loop fuel rs) (fun curr (found : bool) newRs => if found then Insert newRs curr else Ret newRs)
        (fun p newRs => Pos r <= p /\ wf newRs /\ forall x, covers newRs x <-> covers rs x /\ Pos r <= x < p) rs Hrs)
      with (hi := Pos r + Size r) (fuel := rounds rs) (r := r) (st := @nil Range) as (rs' & E & _ & Hw & Hc); auto.
    + intros curr present st Hb Hs Hle Hc Hn (Hp & Hw & Hst). destruct present.
      * destruct (Insert_spec st curr Hw Hb) as (st' & -> & Hw' & Hc'). exists st'. splits; auto; [lia |].
        intros x. rewrite Hc', Hst. specialize (Hc x). unfold within in *. destruct (Z.ltb_spec x (Pos curr)); [intuition lia |].
        destruct (Z.ltb_spec x (Pos curr + Size curr)); [| intuition lia]. rewrite Hc by auto. intuition lia.
      * exists st. splits; auto; [lia |]. intros x. rewrite Hst. specialize (Hc x). unfold within in *. destruct (Z.ltb_spec x (Pos curr)); [intuition lia |].
        destruct (Z.ltb_spec x (Pos curr + Size curr)); [| intuition lia]. rewrite Hc by auto. intuition (try lia; try discriminate).
    + apply calls_rounds.
    + splits; [lia | exact I |]. intros x. autorewrite with covers. lia.
    + exists rs'. splits; [exact E | auto |]. exact Hc.
  - exists []. unfold rounds. rewrite Nat.add_comm. cbn [Intersection_loop Nat.add]. unfold IsEmpty. destruct (Z.leb_spec (Size r) 0); [cbn [negb] | lia].
    splits; auto; [exact I |]. intros x. autorewrite with covers. unfold within. lia.
Qed.

Lemma Intersection_set_witness : exists rs', Intersection [Rg 10 5; Rg 20 5] (Rg 12 9) = Ret rs' /\ wf rs' /\
  forall x, covers rs' x <-> covers [Rg 10 5; Rg 20 5] x /\ within x (Rg 12 9).
Proof. apply (Intersection_set [Rg 10 5; Rg 20 5] (Rg 12 9)); [unfold wf; cbn; lia | split; cbn; lia]. Defined.

(** [FindMissing] gives the rest of the range from its first byte that is not
    there, which is empty when [Present] holds; with no byte there it is all of the
    range. *)
Theorem FindMissing_rest rs r : wf rs -> bounded r -> 0 < Size r -> exists m, FindMissing rs r = Ret m /\
  Pos r <= Pos m /\ Pos m + Size m = Pos r + Size r /\ (forall x, Pos r <= x < Pos m -> covers rs x) /\ (0 < Size m -> ~ covers rs (Pos m)) /\
  Present rs r = Ret (IsEmpty m).
Proof.
  intros Hrs Hr HS. unfold FindMissing, Present. assert (Hne : IsEmpty r = false) by (apply Z.leb_gt; auto). rewrite !Hne.
  destruct (Find_spec rs r Hrs Hr HS) as (curr & next & present & -> & HP & HSc & Hc & Hn & He). cbn [bind]. destruct Hr. destruct present; cbn [negb].
  - rewrite End_eq by (try split; lia). rewrite (wrap64_small (n := Pos curr + Size curr - Pos r)), wrap64_small by lia. eexists. split; [reflexivity |]. cbn [Pos Size].
    splits; try lia.
    + intros x Hx. apply Hc; [unfold within; lia | auto].
    + intros Hlt. destruct Hn as [Hn _]; [lia |]. rewrite HP, Hn. discriminate.
    + f_equal. unfold IsEmpty. cbn [Size]. destruct (Z.ltb_spec (Size curr) (Size r)) as [Hlt|].
      * destruct (Hn Hlt) as [_ ->]. cbn [Size]. f_equal. lia.
      * rewrite He by lia. symmetry. apply Z.leb_le. lia.
  - exists r. splits; auto; try lia; [| now rewrite Hne]. intros _ Hx. apply Hc in Hx; [discriminate | unfold within; lia].
Qed.

Lemma FindMissing_rest_witness : exists m, FindMissing [Rg 10 5; Rg 20 5] (Rg 12 9) = Ret m /\
  12 <= Pos m /\ Pos m + Size m = 21 /\ (forall x, 12 <= x < Pos m -> covers [Rg 10 5; Rg 20 5] x) /\ (0 < Size m -> ~ covers [Rg 10 5; Rg 20 5] (Pos m)) /\
  Present [Rg 10 5; Rg 20 5] (Rg 12 9) = Ret (IsEmpty m).
Proof. apply (FindMissing_rest [Rg 10 5; Rg 20 5] (Rg 12 9)); [unfold wf; cbn; lia | split; cbn; lia | reflexivity]. Defined.

(** *** The number of bytes *)

Definition bytes_in (r : Range) : list Z := map (fun k => Pos r + Z.of_nat k) (seq 0 (Z.to_nat (Size r))).
Definition all_bytes (rs : list Range) : list Z := flat_map bytes_in rs.

Lemma in_all_bytes rs x : In x (all_bytes rs) <-> covers rs x.
Proof.
  unfold all_bytes, covers. rewrite in_flat_map, Exists_exists. split; intros (r & Hr & Hx); exists r; (split; [auto |]); unfold bytes_in, within in *.
  - apply in_map_iff in Hx as (k & <- & Hk%in_seq). lia.
  - apply in_map_iff. exists (Z.to_nat (x - Pos r)). rewrite in_seq. lia.
Qed.

(** [Size] is the number of bytes, without an overflow. *)
Lemma Size_count rs : wf rs -> NoDup (all_bytes rs) /\ Ranges_Size rs = Z.of_nat (length (all_bytes rs)).
Proof.
  intros Hrs. unfold wf in Hrs. split.
  - revert Hrs. generalize 0. induction rs as [|r rs IH]; intros lo; cbn [all_bytes flat_map]; [constructor |]. intros (H1 & H2 & H3 & H4).
    apply NoDup_app; [apply Injective_map_NoDup; [intros a b; lia | apply seq_NoDup] | eapply IH; eauto |].
    intros x Hx Hx2. apply in_all_bytes, (sorted_after _ _ _ H4) in Hx2. unfold bytes_in in Hx. apply in_map_iff in Hx as (k & <- & Hk%in_seq). lia.
  - unfold Ranges_Size. cut (forall acc lo, 0 <= acc <= lo -> sorted_from lo rs -> fold_left (fun size r => wrap64 (size + Size r)) rs acc = acc + Z.of_nat (length (all_bytes rs))).
    { intros H. now rewrite (H 0 0). }
    clear Hrs. induction rs as [|r rs IH]; intros acc lo Hacc; cbn [fold_left all_bytes flat_map]; [intros _; cbn; lia |]. intros (H1 & H2 & H3 & H4).
    rewrite wrap64_small by lia. rewrite (IH _ (Pos r + Size r + 1)) by (auto; lia). rewrite length_app. unfold bytes_in at 1. rewrite length_map, length_seq. unfold all_bytes. lia.
Qed.

(** [Clip] keeps the bytes before [offset]. *)
Lemma Clip_spec r offset : bounded r -> 0 <= Size r -> 0 <= offset -> forall x, within x (Clip r offset) <-> within x r /\ x < offset.
Proof.
  intros Hr HS Ho x. unfold Clip. rewrite End_eq by auto. destruct Hr. destruct (Z.leb_spec (Pos r + Size r) offset); [unfold within; lia |].
  rewrite (wrap64_small (n := Pos r + Size r - offset)), wrap64_small by lia. destruct (Z.ltb_spec (Size r - (Pos r + Size r - offset)) 0); unfold within; cbn; lia.
Qed.
