(* ===== verification/Crypt.v ===== *)
(** * The cipher of the crypt backend: data (src/backend/crypt/cipher.go)

    A file is encrypted as a header with a random nonce and blocks of 64 kB, each
    sealed with the nonce plus the number of the block.  [encrypter] and [decrypter]
    work on the fly over any reader; a decrypter seeks by opening the file again at
    the start of a block.  The buffers of a handle are the bytes that were written to
    them: what the pool left behind these is never read.  The box that seals
    (golang.org/x/crypto/nacl/secretbox) is a parameter. *)
From Stdlib Require Import List Arith NArith ZArith Lia Bool.
From S2P Require Import Prelude.
Import ListNotations.
Local Open Scope Z_scope.

(** ** Errors *)

(** The errors of the package, [io.EOF], and other errors [errOther] of what it calls *)
Inductive cryptError : Type :=
| EOF
| ErrorBadDecryptUTF8 | ErrorBadDecryptControlChar
| ErrorNotAMultipleOfBlocksize | ErrorTooShortAfterDecode | ErrorTooLongAfterDecode
| ErrorEncryptedFileTooShort | ErrorEncryptedFileBadHeader | ErrorEncryptedBadMagic | ErrorEncryptedBadBlock
| ErrorBadBase32Encoding | ErrorFileClosed | ErrorNotAnEncryptedFile | ErrorBadSeek
| ErrorPaddingNotFound | ErrorPaddingNotAMultiple | ErrorPaddingTooLong | ErrorPaddingTooShort | ErrorPaddingNotAllTheSame
| errNotSeekable | errSeekStart | errReopen (e : cryptError) | errShortNonce (e : option cryptError)
| CorruptInputError (n : nat)
| errOther (n : nat).

Definition is_EOF (e : cryptError) : bool := match e with EOF => true | _ => false end.

(** [err != nil && err != io.EOF] *)
Definition pending (err : option cryptError) : option cryptError :=
  match err with Some e => if is_EOF e then None else Some e | None => None end.

(** ** Readers *)

(** [Read(p)] with [len(p) = n]: the new state, the bytes stored in [p] and an error *)
Class Source (R : Type) : Type := read_from : R -> nat -> outcome Empty_set (R * list N * option cryptError).

(** [Close], and [RangeSeek(offset, io.SeekStart, limit)] for the handles that have it *)
Class Handle (R : Type) `{Source R} : Type := {
  close : R -> option cryptError;
  range_seek : option (R -> Z -> Z -> outcome Empty_set (R * option cryptError))
}.

(** [readers.ReadFill] (lib/readers/readfill.go) with [acc] read so far; a reader that
    gives neither bytes nor an error can keep it for ever. *)
Fixpoint ReadFill_loop {R} `{Source R} (fuel : nat) (r : R) (acc : list N) (n : nat) :
    outcome Empty_set (R * list N * option cryptError) :=
  match fuel with
  | O => Timeout
  | S fuel =>
      if (length acc <? n)%nat then
        '(r, p, err) <- read_from r (n - length acc) ;;
        match err with
        | None => ReadFill_loop fuel r (acc ++ p) n
        | Some e => Ret (r, acc ++ p, Some e)
        end
      else Ret (r, acc, None)
  end.

Definition ReadFill {R} `{Source R} (r : R) (n : nat) := ReadFill_loop (S n) r [] n.

(** ** Constants *)

Definition fileMagic : list N := [82; 67; 76; 79; 78; 69; 0; 0]%N.
Definition fileMagicSize : nat := 8.
Definition fileNonceSize : nat := 24.
Definition fileHeaderSize : nat := fileMagicSize + fileNonceSize.
Definition blockHeaderSize : nat := 16.
Definition blockDataSize : nat := 64 * 1024.
Definition blockSize : nat := blockHeaderSize + blockDataSize.

(** ** The box and the keys *)

(** [secretbox.Seal] and [secretbox.Open] of a message, with a nonce and a key *)
Class Secretbox : Type := {
  Seal : list N -> list N -> list N -> list N;
  Open : list N -> list N -> list N -> option (list N)
}.

(** The 24 bytes of a nonce, the lowest first *)
Definition nonce : Type := list N.

Fixpoint carry_from (n : nonce) : nonce :=
  match n with
  | [] => []
  | digit :: n =>
      let newDigit := ((digit + 1) mod 256)%N in
      newDigit :: (if (digit <=? newDigit)%N then n else carry_from n)
  end.

Definition carry (n : nonce) (i : nat) : nonce := firstn i n ++ carry_from (skipn i n).

Definition increment (n : nonce) : nonce := carry n 0.

(** [add(x)] of a [uint64]: the eight low bytes with a carry of 16 bits *)
Definition add_step (i : nat) (st : nonce * N * N) : outcome Empty_set (nonce * N * N) :=
  let '(n, x, c) := st in
  digit <- idx n i ;;
  let xDigit := (x mod 256)%N in
  let c := ((c + (digit + xDigit)) mod 2 ^ 16)%N in
  n <- upd n i (c mod 256)%N ;;
  Ret (n, N.shiftr x 8, N.shiftr c 8).

Definition add (n : nonce) (x : N) : outcome Empty_set nonce :=
  '(n, _, c) <- for_loop 0 8 add_step (n, x, 0%N) ;;
  Ret (if negb (c =? 0)%N then carry n 8 else n).

(** [fromReader] *)
Definition nonce_fromReader {R} `{Source R} (r : R) : outcome Empty_set (R * (nonce + cryptError)) :=
  '(r, n, err) <- ReadFill r fileNonceSize ;;
  Ret (r, if (length n =? fileNonceSize)%nat then inl n else inr (errShortNonce err)).

(** [buf\[i:j\]] of the bytes in a buffer *)
Definition slice (buf : list N) (i j : Z) : outcome Empty_set (list N) :=
  if (i <? 0) || (j <? i) || (Z.of_nat (length buf) <? j) then Panic
  else Ret (firstn (Z.to_nat (j - i)) (skipn (Z.to_nat i) buf)).

Section Data.
Context `{Secretbox}.

(** ** Encryption *)

Section Encrypter.
Context {R : Type} `{Source R}.

Record encrypter : Type := {
  e_in : R; e_key : list N; e_nonce : nonce;
  e_buf : list N; e_bufIndex : Z; e_bufSize : Z; e_err : option cryptError
}.

(** A new encrypter with its nonce: the header is in the buffer. *)
Definition encrypter_with (key : list N) (inn : R) (n : nonce) : encrypter :=
  {| e_in := inn; e_key := key; e_nonce := n; e_buf := fileMagic ++ n;
     e_bufIndex := 0; e_bufSize := Z.of_nat fileHeaderSize; e_err := None |}.

(** The nonce is given, or read from [cryptoRand]. *)
Definition newEncrypter {Rand} `{Source Rand} (key : list N) (cryptoRand : Rand) (inn : R) (n : option nonce) :
    outcome Empty_set (Rand * (encrypter + cryptError)) :=
  match n with
  | Some n => Ret (cryptoRand, inl (encrypter_with key inn n))
  | None =>
      '(cryptoRand, read) <- nonce_fromReader cryptoRand ;;
      Ret (cryptoRand, match read with inl n => inl (encrypter_with key inn n) | inr e => inr e end)
  end.

Definition e_finish (fh : encrypter) (err : option cryptError) : encrypter * list N * option cryptError :=
  match e_err fh with
  | Some e => (fh, [], Some e)
  | None => ({| e_in := e_in fh; e_key := e_key fh; e_nonce := e_nonce fh; e_buf := []; e_bufIndex := e_bufIndex fh;
                e_bufSize := e_bufSize fh; e_err := err |}, [], err)
  end.

(** The copy at the end of [Read] *)
Definition e_copy (fh : encrypter) (len_p : nat) : outcome Empty_set (encrypter * list N * option cryptError) :=
  src <- slice (e_buf fh) (e_bufIndex fh) (e_bufSize fh) ;;
  let p := firstn len_p src in
  Ret ({| e_in := e_in fh; e_key := e_key fh; e_nonce := e_nonce fh; e_buf := e_buf fh;
          e_bufIndex := e_bufIndex fh + Z.of_nat (length p); e_bufSize := e_bufSize fh; e_err := e_err fh |}, p, None).

Definition e_Read (fh : encrypter) (len_p : nat) : outcome Empty_set (encrypter * list N * option cryptError) :=
  match e_err fh with
  | Some e => Ret (fh, [], Some e)
  | None =>
      if e_bufIndex fh >=? e_bufSize fh then
        '(r, readBuf, err) <- ReadFill (e_in fh) blockDataSize ;;
        let n := length readBuf in
        if (n =? 0)%nat then
          Ret (e_finish {| e_in := r; e_key := e_key fh; e_nonce := e_nonce fh; e_buf := e_buf fh; e_bufIndex := e_bufIndex fh;
                           e_bufSize := e_bufSize fh; e_err := e_err fh |} err)
        else
          e_copy {| e_in := r; e_key := e_key fh; e_nonce := increment (e_nonce fh); e_buf := Seal readBuf (e_nonce fh) (e_key fh);
                    e_bufIndex := 0; e_bufSize := Z.of_nat (blockHeaderSize + n); e_err := None |} len_p
      else e_copy fh len_p
  end.

#[global] Instance encrypter_source : Source encrypter := e_Read.
End Encrypter.

(** ** Decryption *)

(** Where a range of the decrypted file is in the encrypted file: the offset, the
    number of bytes to read (-1 for all), the bytes to discard of the first block and
    the number of that block *)
Definition calculateUnderlying (offset limit : Z) : Z * Z * Z * Z :=
  let blockDataSize := Z.of_nat blockDataSize in
  let blockHeaderSize := Z.of_nat blockHeaderSize in
  let blocks := Z.quot offset blockDataSize in
  let discard := Z.rem offset blockDataSize in
  let underlyingOffset := wrap64 (Z.of_nat fileHeaderSize + wrap64 (blocks * (blockHeaderSize + blockDataSize))) in
  let underlyingLimit :=
    if limit >=? 0 then
      let bytesToRead := wrap64 (limit - (blockDataSize - discard)) in
      let blocksToRead :=
        if bytesToRead >? 0 then
          let extraBlocksToRead := Z.quot bytesToRead blockDataSize in
          let endBytes := Z.rem bytesToRead blockDataSize in
          1 + (if negb (endBytes =? 0) then extraBlocksToRead + 1 else extraBlocksToRead)
        else 1 in
      wrap64 (blocksToRead * (blockHeaderSize + blockDataSize))
    else -1 in
  (underlyingOffset, underlyingLimit, discard, blocks).

Section Decrypter.
Context {R : Type} `{Handle R}.

(** [rc] is [None] after a failed reopening; [d_open] is [None] for a handle of
    [newDecrypter]. *)
Record decrypter : Type := {
  d_rc : option R; d_nonce : nonce; d_initialNonce : nonce; d_key : list N; d_passBadBlocks : bool;
  d_buf : list N; d_bufIndex : Z; d_bufSize : Z; d_err : option cryptError; d_limit : Z;
  d_open : option (Z -> Z -> R + cryptError)
}.

Definition set_rc (rc : option R) (fh : decrypter) : decrypter :=
  {| d_rc := rc; d_nonce := d_nonce fh; d_initialNonce := d_initialNonce fh; d_key := d_key fh; d_passBadBlocks := d_passBadBlocks fh;
     d_buf := d_buf fh; d_bufIndex := d_bufIndex fh; d_bufSize := d_bufSize fh; d_err := d_err fh; d_limit := d_limit fh; d_open := d_open fh |}.
Definition set_nonce (n : nonce) (fh : decrypter) : decrypter :=
  {| d_rc := d_rc fh; d_nonce := n; d_initialNonce := d_initialNonce fh; d_key := d_key fh; d_passBadBlocks := d_passBadBlocks fh;
     d_buf := d_buf fh; d_bufIndex := d_bufIndex fh; d_bufSize := d_bufSize fh; d_err := d_err fh; d_limit := d_limit fh; d_open := d_open fh |}.
Definition set_buf (buf : list N) (i n : Z) (fh : decrypter) : decrypter :=
  {| d_rc := d_rc fh; d_nonce := d_nonce fh; d_initialNonce := d_initialNonce fh; d_key := d_key fh; d_passBadBlocks := d_passBadBlocks fh;
     d_buf := buf; d_bufIndex := i; d_bufSize := n; d_err := d_err fh; d_limit := d_limit fh; d_open := d_open fh |}.
Definition set_err (err : option cryptError) (fh : decrypter) : decrypter :=
  {| d_rc := d_rc fh; d_nonce := d_nonce fh; d_initialNonce := d_initialNonce fh; d_key := d_key fh; d_passBadBlocks := d_passBadBlocks fh;
     d_buf := d_buf fh; d_bufIndex := d_bufIndex fh; d_bufSize := d_bufSize fh; d_err := err; d_limit := d_limit fh; d_open := d_open fh |}.
Definition set_limit (limit : Z) (fh : decrypter) : decrypter :=
  {| d_rc := d_rc fh; d_nonce := d_nonce fh; d_initialNonce := d_initialNonce fh; d_key := d_key fh; d_passBadBlocks := d_passBadBlocks fh;
     d_buf := d_buf fh; d_bufIndex := d_bufIndex fh; d_bufSize := d_bufSize fh; d_err := d_err fh; d_limit := limit; d_open := d_open fh |}.
Definition set_open (open : option (Z -> Z -> R + cryptError)) (fh : decrypter) : decrypter :=
  {| d_rc := d_rc fh; d_nonce := d_nonce fh; d_initialNonce := d_initialNonce fh; d_key := d_key fh; d_passBadBlocks := d_passBadBlocks fh;
     d_buf := d_buf fh; d_bufIndex := d_bufIndex fh; d_bufSize := d_bufSize fh; d_err := d_err fh; d_limit := d_limit fh; d_open := open |}.

(** [finish]: the error that stays *)
Definition finish (fh : decrypter) (err : cryptError) : decrypter * cryptError :=
  match d_err fh with
  | Some e => (fh, e)
  | None => (set_err (Some err) (set_buf [] (d_bufIndex fh) (d_bufSize fh) fh), err)
  end.

Definition unFinish (fh : decrypter) : decrypter := set_err None (set_buf [] 0 0 fh).

Definition Close (fh : decrypter) : decrypter * option cryptError :=
  match d_err fh with
  | Some ErrorFileClosed => (fh, Some ErrorFileClosed)
  | _ =>
      let fh := match d_err fh with None => fst (finish fh EOF) | Some _ => fh end in
      let fh := set_err (Some ErrorFileClosed) fh in
      (fh, match d_rc fh with None => None | Some rc => close rc end)
  end.

Definition newDecrypter (key : list N) (passBadBlocks : bool) (rc : R) : outcome Empty_set (decrypter + cryptError) :=
  '(rc, readBuf, err) <- ReadFill rc fileHeaderSize ;;
  if (length readBuf <? fileHeaderSize)%nat && match err with Some e => is_EOF e | None => false end then Ret (inr ErrorEncryptedFileTooShort)
  else
    match pending err with
    | Some e => Ret (inr e)
    | None =>
        if list_eq_dec N.eq_dec (firstn fileMagicSize readBuf) fileMagic then
          let n := skipn fileMagicSize readBuf in
          if negb (length n =? fileNonceSize)%nat then Panic
          else
            Ret (inl {| d_rc := Some rc; d_nonce := n; d_initialNonce := n; d_key := key; d_passBadBlocks := passBadBlocks;
                        d_buf := []; d_bufIndex := 0; d_bufSize := 0; d_err := None; d_limit := -1; d_open := None |})
        else Ret (inr ErrorEncryptedBadMagic)
    end.

(** The next block; the error is returned without [finish]. *)
Definition fillBuffer (fh : decrypter) : outcome Empty_set (decrypter * option cryptError) :=
  match d_rc fh with
  | None => Panic
  | Some rc =>
      '(rc, readBuf, err) <- ReadFill rc blockSize ;;
      let fh := set_rc (Some rc) fh in
      let n := length readBuf in
      if (n =? 0)%nat then Ret (fh, err)
      else if (n <=? blockHeaderSize)%nat then
        Ret (fh, Some (match pending err with Some e => e | None => ErrorEncryptedFileBadHeader end))
      else
        let filled := fun buf => Ret (set_nonce (increment (d_nonce fh)) (set_buf buf 0 (Z.of_nat (n - blockHeaderSize)) fh), None) in
        match Open readBuf (d_nonce fh) (d_key fh) with
        | Some m => filled m
        | None =>
            match pending err with
            | Some e => Ret (fh, Some e)
            | None => if negb (d_passBadBlocks fh) then Ret (fh, Some ErrorEncryptedBadBlock) else filled (repeat 0%N n)
            end
        end
  end.

(** The copy at the end of [Read] *)
Definition d_copy (fh : decrypter) (len_p : nat) : outcome Empty_set (decrypter * list N * option cryptError) :=
  let toCopy := d_bufSize fh - d_bufIndex fh in
  let toCopy := if (d_limit fh >=? 0) && (d_limit fh <? toCopy) then d_limit fh else toCopy in
  src <- slice (d_buf fh) (d_bufIndex fh) (d_bufIndex fh + toCopy) ;;
  let p := firstn len_p src in
  let fh := set_buf (d_buf fh) (d_bufIndex fh + Z.of_nat (length p)) (d_bufSize fh) fh in
  if d_limit fh >=? 0 then
    let fh := set_limit (d_limit fh - Z.of_nat (length p)) fh in
    if d_limit fh =? 0 then let '(fh, e) := finish fh EOF in Ret (fh, p, Some e)
    else Ret (fh, p, None)
  else Ret (fh, p, None).

Definition d_Read (fh : decrypter) (len_p : nat) : outcome Empty_set (decrypter * list N * option cryptError) :=
  match d_err fh with
  | Some e => Ret (fh, [], Some e)
  | None =>
      if d_bufIndex fh >=? d_bufSize fh then
        '(fh, err) <- fillBuffer fh ;;
        match err with
        | Some e => let '(fh, e) := finish fh e in Ret (fh, [], Some e)
        | None => d_copy fh len_p
        end
      else d_copy fh len_p
  end.

#[global] Instance decrypter_source : Source decrypter := d_Read.

(** The end of [RangeSeek], with the underlying file in place *)
Definition seek_to (fh : decrypter) (offset limit discard : Z) : outcome Empty_set (decrypter * Z * option cryptError) :=
  let failed fh e := let '(fh, e) := finish fh e in Ret (fh, 0, Some e) in
  '(fh, err) <- fillBuffer fh ;;
  match err with
  | Some e => failed fh e
  | None =>
      if discard >? d_bufSize fh then failed fh ErrorBadSeek
      else Ret (set_limit limit (set_buf (d_buf fh) discard (d_bufSize fh) fh), offset, None)
  end.

(** The body of [RangeSeek] for a handle without an error: the nonce of the block and
    the underlying file at its offset, by [RangeSeek] or by closing and reopening *)
Definition seek_underlying (fh : decrypter) (open : Z -> Z -> R + cryptError) (offset limit : Z) :
    outcome Empty_set (decrypter * Z * option cryptError) :=
  let failed fh e := let '(fh, e) := finish fh e in Ret (fh, 0, Some e) in
  let '(underlyingOffset, underlyingLimit, discard, blocks) := calculateUnderlying offset limit in
  n <- add (d_initialNonce fh) (Z.to_N (blocks mod 2 ^ 64)) ;;
  let fh := set_nonce n fh in
  match range_seek, d_rc fh with
  | Some do_RangeSeek, Some rc =>
      '(rc, err) <- do_RangeSeek rc underlyingOffset underlyingLimit ;;
      let fh := set_rc (Some rc) fh in
      match err with
      | Some e => failed fh e
      | None => seek_to fh offset limit discard
      end
  | _, _ =>
      if match d_rc fh with None => true | Some _ => false end then Panic
      else
        match open underlyingOffset underlyingLimit with
        | inr e => failed (set_rc None fh) (errReopen e)
        | inl rc => seek_to (set_rc (Some rc) fh) offset limit discard
        end
  end.

(** [RangeSeek(offset, whence, limit)]; [start] says that [whence] is [io.SeekStart]. *)
Definition RangeSeek (fh : decrypter) (offset : Z) (start : bool) (limit : Z) : outcome Empty_set (decrypter * Z * option cryptError) :=
  let failed fh e := let '(fh, e) := finish fh e in Ret (fh, 0, Some e) in
  match d_open fh with
  | None => failed fh errNotSeekable
  | Some open =>
      if negb start then failed fh errSeekStart
      else
        match d_err fh with
        | Some e => if is_EOF e then seek_underlying (unFinish fh) open offset limit else Ret (fh, 0, Some e)
        | None => seek_underlying fh open offset limit
        end
  end.

(** [Seek] *)
Definition Seek (fh : decrypter) (offset : Z) (start : bool) := RangeSeek fh offset start (-1).

Definition newDecrypterSeek (key : list N) (passBadBlocks : bool) (open : Z -> Z -> R + cryptError) (offset limit : Z) :
    outcome Empty_set (decrypter + cryptError) :=
  let '(doRangeSeek, setLimit, opened) :=
    if (offset =? 0) && (limit <? 0) then (false, false, open 0 (-1))
    else if offset =? 0 then
      let '(_, underlyingLimit, _, _) := calculateUnderlying offset limit in
      (false, true, open 0 (wrap64 (Z.of_nat fileHeaderSize + underlyingLimit)))
    else (true, false, open 0 (Z.of_nat fileHeaderSize)) in
  match opened with
  | inr e => Ret (inr e)
  | inl rc =>
      made <- newDecrypter key passBadBlocks rc ;;
      match made with
      | inr e => Ret (inr e)
      | inl fh =>
          let fh := set_open (Some open) fh in
          '(fh, err) <- (if doRangeSeek : bool then '(fh, _, err) <- RangeSeek fh offset true limit ;; Ret (fh, err)
                         else Ret (fh, None)) ;;
          match err with
          | Some e => Ret (inr e)
          | None => Ret (inl (if setLimit : bool then set_limit limit fh else fh))
          end
      end
  end.
End Decrypter.
End Data.
Arguments encrypter R : clear implicits.
Arguments decrypter R : clear implicits.

(** ** Sizes *)

Definition EncryptedSize (size : Z) : Z :=
  let blockDataSize := Z.of_nat blockDataSize in
  let blockHeaderSize := Z.of_nat blockHeaderSize in
  let blocks := Z.quot size blockDataSize in
  let residue := Z.rem size blockDataSize in
  let encryptedSize := wrap64 (Z.of_nat fileHeaderSize + wrap64 (blocks * (blockHeaderSize + blockDataSize))) in
  if negb (residue =? 0) then wrap64 (encryptedSize + (blockHeaderSize + residue)) else encryptedSize.

Definition DecryptedSize (size : Z) : outcome cryptError Z :=
  let size := wrap64 (size - Z.of_nat fileHeaderSize) in
  if size <? 0 then Err ErrorEncryptedFileTooShort
  else
    let blocks := Z.quot size (Z.of_nat blockSize) in
    let residue := Z.rem size (Z.of_nat blockSize) in
    let decryptedSize := blocks * Z.of_nat blockDataSize in
    if negb (residue =? 0) then
      let residue := residue - Z.of_nat blockHeaderSize in
      if residue <=? 0 then Err ErrorEncryptedFileBadHeader else Ret (decryptedSize + residue)
    else Ret (decryptedSize + residue).
