(* ===== verification/CryptStream.v ===== *)
(** * Encryption and decryption on the fly

    The nonces are numbers modulo 2^192: [increment] adds 1 and [add] a [uint64], with
    all carries, and the nonce that a seek computes for a block is the one that the block
    was encrypted with.  [holds r l e]: the reader [r] gives the bytes [l], in parts of
    any size, and then the error [e].  An encrypter over such a reader is such a reader,
    of the encrypted bytes; a decrypter is one of the decrypted bytes, up to the first
    block that is cut off or not authentic. *)
From Stdlib Require Import List Arith NArith ZArith Lia Bool.
From S2P Require Import Prelude Crypt.
Import ListNotations.
Local Open Scope N_scope.

(** ** Nonces *)

Definition is_bytes (l : list N) : Prop := Forall (fun b => b < 256) l.

(** The number with these digits in base 256, the lowest first *)
Fixpoint val (l : list N) : N := match l with [] => 0 | d :: l => d + 256 * val l end.

Definition pow256 (k : nat) : N := 256 ^ N.of_nat k.

Lemma pow256_S k : pow256 (S k) = 256 * pow256 k.
Proof. unfold pow256. rewrite Nat2N.inj_succ. apply N.pow_succ_r'. Qed.

Lemma pow256_pos k : 0 < pow256 k.
Proof. unfold pow256. assert (256 ^ N.of_nat k <> 0); [| lia]. apply N.pow_nonzero. lia. Qed.

Lemma pow256_add a b : pow256 (a + b) = pow256 a * pow256 b.
Proof. unfold pow256. now rewrite Nat2N.inj_add, N.pow_add_r. Qed.

Lemma val_app a b : val (a ++ b) = val a + pow256 (length a) * val b.
Proof. induction a as [|d a IH]; cbn [app val length]; [change (pow256 0) with 1; lia |]. rewrite IH, pow256_S. lia. Qed.

Lemma val_lt l : is_bytes l -> val l < pow256 (length l).
Proof. induction 1 as [|d l Hd _ IH]; cbn [val length]; [reflexivity |]. rewrite pow256_S. lia. Qed.

Lemma val_inj : forall a b, is_bytes a -> is_bytes b -> length a = length b -> val a = val b -> a = b.
Proof.
  induction a as [|d a IH]; intros [|e b] Ha Hb Hl H; cbn in Hl; try discriminate; [auto |].
  inversion Ha; inversion Hb; subst. cbn [val] in H. assert (d = e /\ val a = val b) as [-> E] by lia. f_equal. apply IH; auto.
Qed.

Lemma firstn_bytes k l : is_bytes l -> is_bytes (firstn k l).
Proof. intros H. rewrite <- (firstn_skipn k l) in H. now apply Forall_app in H. Qed.

Lemma skipn_bytes k l : is_bytes l -> is_bytes (skipn k l).
Proof. intros H. rewrite <- (firstn_skipn k l) in H. now apply Forall_app in H. Qed.

(** ** Carries *)

Lemma carry_from_spec l : is_bytes l -> is_bytes (carry_from l) /\ length (carry_from l) = length l /\ val (carry_from l) = (val l + 1) mod pow256 (length l).
Proof.
  induction 1 as [|d l Hd Hl (I1 & I2 & I3)]; [repeat constructor |]. cbn [carry_from length val]. assert (Hp := pow256_pos (length l)). assert (Hv := val_lt l Hl).
  rewrite pow256_S. destruct (N.eq_dec d 255) as [->|Hne].
  - change ((255 + 1) mod 256) with 0. cbn [N.leb N.compare]. splits; [constructor; [lia | auto] | cbn; auto |].
    cbn [val]. rewrite I3. replace (255 + 256 * val l + 1) with (256 * (val l + 1)) by lia. rewrite N.Div0.mul_mod_distr_l. lia.
  - rewrite N.mod_small by lia. rewrite (proj2 (N.leb_le d (d + 1))) by lia. splits; [constructor; [lia | auto] | auto |].
    cbn [val]. rewrite N.mod_small; lia.
Qed.

Lemma carry_spec k l : is_bytes l -> (k <= length l)%nat ->
  is_bytes (carry l k) /\ length (carry l k) = length l /\ val (carry l k) = (val l + pow256 k) mod pow256 (length l).
Proof.
  intros Hl Hk. unfold carry. destruct (carry_from_spec (skipn k l) (skipn_bytes k l Hl)) as (I1 & I2 & I3).
  assert (Hf : length (firstn k l) = k) by (apply firstn_length_le; auto). splits.
  - apply Forall_app. split; [now apply firstn_bytes | auto].
  - rewrite length_app, Hf, I2, length_skipn. lia.
  - rewrite <- (firstn_skipn k l) at 3. rewrite !val_app, Hf, I3, length_skipn.
    assert (E : pow256 (length l) = pow256 k * pow256 (length l - k)) by (rewrite <- pow256_add; f_equal; lia).
    assert (H1 := val_lt _ (firstn_bytes k l Hl)). rewrite Hf in H1. assert (Hp := pow256_pos (length l - k)). assert (Hk0 := pow256_pos k). rewrite E.
    set (q := pow256 (length l - k)) in *. set (a := pow256 k) in *. set (v := val (skipn k l)). set (u := val (firstn k l)) in *.
    replace (u + a * v + a) with (u + a * (v + 1)) by lia. rewrite N.Div0.mod_mul_r. f_equal.
    + rewrite N.mul_comm, N.Div0.mod_add. symmetry. now apply N.mod_small.
    + f_equal. rewrite N.mul_comm, N.div_add by lia. rewrite N.div_small by auto. f_equal.
Qed.

Definition is_nonce (n : nonce) : Prop := is_bytes n /\ length n = fileNonceSize.

Lemma nonce_eq a b : is_nonce a -> is_nonce b -> val a = val b -> a = b.
Proof. intros [Ha1 Ha2] [Hb1 Hb2] Hv. apply val_inj; auto. congruence. Qed.

Lemma increment_spec n : is_nonce n -> is_nonce (increment n) /\ val (increment n) = (val n + 1) mod pow256 24.
Proof.
  intros [Hb Hl]. unfold increment. destruct (carry_spec 0 n Hb ltac:(lia)) as (I1 & I2 & I3). rewrite Hl in *. split; [split; auto | exact I3].
Qed.

(** ** [add] *)

Lemma add_step_spec n x i st : (i < 8)%nat -> is_nonce n -> x < 2 ^ 64 ->
  (let '(n', x', c) := st in is_nonce n' /\ x' = x / pow256 i /\ c <= 1 /\ skipn i n' = skipn i n /\
     val (firstn i n') + pow256 i * c = val (firstn i n) + x mod pow256 i) ->
  oc_spec (add_step i st) (fun '(n', x', c) => is_nonce n' /\ x' = x / pow256 (S i) /\ c <= 1 /\ skipn (S i) n' = skipn (S i) n /\
     val (firstn (S i) n') + pow256 (S i) * c = val (firstn (S i) n) + x mod pow256 (S i)) (fun _ => False).
Proof.
  intros Hi [Hb Hl] Hx. destruct st as [[n' x'] c]. intros ([Hb' Hl'] & -> & Hc & Hs & Hv). unfold add_step, fileNonceSize in *.
  assert (Hd : nth i n' 0 = nth i n 0).
  { assert (H := f_equal (fun l => nth 0 l 0) Hs). cbn in H. now rewrite !nth_skipn_add, Nat.add_0_r in H. }
  rewrite (idx_nth 0) by lia. cbn [bind]. rewrite Hd. set (d := nth i n 0) in *. set (y := (x / pow256 i) mod 256).
  assert (Hdb : d < 256) by (apply (proj1 (Forall_forall _ n) Hb), nth_In; lia). assert (Hyb : y < 256) by (apply N.mod_lt; lia).
  rewrite (N.mod_small (c + (d + y))) by (change (2 ^ 16) with 65536; lia). rewrite upd_ret by lia. cbn [bind oc_spec].
  set (s := c + (d + y)). rewrite !N.shiftr_div_pow2. change (2 ^ 8) with 256.
  assert (Es : s = 256 * (s / 256) + s mod 256) by (apply N.div_mod; lia). assert (Hsm : s mod 256 < 256) by (apply N.mod_lt; lia).
  assert (Hq : s / 256 <= 1) by (apply N.lt_succ_r, N.Div0.div_lt_upper_bound; subst s; lia).
  assert (E1 : firstn (S i) (set_nth n' i (s mod 256)) = firstn i n' ++ [s mod 256]).
  { rewrite (firstn_S_nth 0) by (rewrite length_set_nth; lia). rewrite nth_set_nth_eq by lia. f_equal.
    apply (list_ext 0); rewrite !length_firstn, length_set_nth; [auto |]. intros j Hj. rewrite !nth_firstn_in by lia. apply nth_set_nth_ne. lia. }
  splits; [split | | | |].
  - apply Forall_forall. intros z Hz. apply (In_nth _ _ 0) in Hz as (j & Hj & <-). rewrite length_set_nth in Hj. rewrite nth_set_nth.
    destruct ((j =? i)%nat && (i <? length n')%nat); [auto |]. apply (proj1 (Forall_forall _ n') Hb'), nth_In. auto.
  - now rewrite length_set_nth.
  - rewrite N.Div0.div_div. f_equal. rewrite pow256_S. lia.
  - exact Hq.
  - apply (list_ext 0); rewrite !length_skipn, length_set_nth; [lia |]. intros j Hj. rewrite !nth_skipn_add, nth_set_nth_ne by lia.
    assert (H := f_equal (fun l => nth (S j) l 0) Hs). cbn beta in H. rewrite !nth_skipn_add in H. now replace (S i + j)%nat with (i + S j)%nat by lia.
  - rewrite E1, (firstn_S_nth 0) by lia. rewrite !val_app, !firstn_length_le by lia. cbn [val]. fold d.
    assert (Ex : x mod pow256 (S i) = x mod pow256 i + pow256 i * y).
    { rewrite pow256_S, (N.mul_comm 256). apply N.Div0.mod_mul_r. }
    rewrite Ex, pow256_S. replace (val (firstn i n) + pow256 i * (d + 256 * 0) + (x mod pow256 i + pow256 i * y))
      with (val (firstn i n) + x mod pow256 i + pow256 i * (d + y)) by lia.
    rewrite <- Hv. unfold s in *. nia.
Qed.

Lemma add_spec n x : is_nonce n -> x < 2 ^ 64 -> exists n', add n x = Ret n' /\ is_nonce n' /\ val n' = (val n + x) mod pow256 24.
Proof.
  intros Hn Hx. unfold add.
  assert (H : oc_spec (for_loop 0 8 add_step (n, x, 0)) (fun st => let '(n', x', c) := st in is_nonce n' /\ x' = x / pow256 8 /\ c <= 1 /\ skipn 8 n' = skipn 8 n /\
     val (firstn 8 n') + pow256 8 * c = val (firstn 8 n) + x mod pow256 8) (fun _ => False)).
  { apply (for_loop_rule (fun i st => let '(n', x', c) := st in is_nonce n' /\ x' = x / pow256 i /\ c <= 1 /\ skipn i n' = skipn i n /\
      val (firstn i n') + pow256 i * c = val (firstn i n) + x mod pow256 i)); [lia | |].
    - splits; auto; [unfold pow256; cbn; now rewrite N.div_1_r | lia |]. unfold pow256. cbn. now rewrite N.mod_1_r.
    - intros i st Hi HI. apply (add_step_spec n x i st); auto; lia. }
  apply oc_ret in H as ([[n' x'] c] & -> & Hn' & _ & Hc & Hs & Hv). cbn [bind]. destruct Hn as [Hb Hl], Hn' as [Hb' Hl']. unfold fileNonceSize in *.
  change (pow256 8) with (2 ^ 64) in *. rewrite (N.mod_small x) in Hv by auto.
  assert (E : val n' + 2 ^ 64 * c = val n + x).
  { rewrite <- (firstn_skipn 8 n'), <- (firstn_skipn 8 n), !val_app, Hs, !firstn_length_le by lia. lia. }
  assert (Hlt := val_lt n' Hb'). rewrite Hl' in Hlt. destruct (N.eqb_spec c 0) as [->|Hc0]; cbn [negb].
  - exists n'. splits; [auto | split; auto |]. rewrite <- E, N.mul_0_r, N.add_0_r. symmetry. now apply N.mod_small.
  - assert (c = 1) as -> by lia. destruct (carry_spec 8 n' Hb' ltac:(lia)) as (I1 & I2 & I3). exists (carry n' 8). rewrite Hl' in *.
    splits; [auto | split; auto |]. rewrite I3, <- E. reflexivity.
Qed.

(** The nonce of the block with a number *)
Fixpoint nonce_at (n : nonce) (k : nat) : nonce := match k with O => n | S k => nonce_at (increment n) k end.

Lemma nonce_at_spec k : forall n, is_nonce n -> is_nonce (nonce_at n k) /\ val (nonce_at n k) = (val n + N.of_nat k) mod pow256 24.
Proof.
  induction k as [|k IH]; intros n Hn; cbn [nonce_at].
  - split; [auto |]. destruct Hn as [Hb Hl]. rewrite N.add_0_r. symmetry. apply N.mod_small. change 24%nat with fileNonceSize. rewrite <- Hl. now apply val_lt.
  - destruct (increment_spec n Hn) as [I1 I2]. destruct (IH _ I1) as [J1 J2]. split; [auto |]. rewrite J2, I2, N.Div0.add_mod_idemp_l. f_equal. lia.
Qed.

(** A seek to a block computes the nonce that the increments come to. *)
Lemma add_nonce_at n k : is_nonce n -> N.of_nat k < 2 ^ 64 -> add n (N.of_nat k) = Ret (nonce_at n k).
Proof.
  intros Hn Hk. destruct (add_spec n (N.of_nat k) Hn Hk) as (n' & -> & H1 & H2). destruct (nonce_at_spec k n Hn) as [J1 J2].
  f_equal. apply nonce_eq; auto. congruence.
Qed.

(** ** Streams *)

Local Close Scope N_scope.
(** ** Laws *)

Class GoodSource (R : Type) `{Source R} : Type := {
  holds : R -> list N -> cryptError -> Prop;
  (** With or after the last bytes the error comes; it comes again when the reader is
      read again. *)
  holds_read : forall r l e n, holds r l e -> 0 < n -> exists r' k err,
    read_from r n = Ret (r', firstn k l, err) /\ k <= n /\ holds r' (skipn k l) e /\
    ((err = None /\ 0 < k <= length l) \/ (err = Some e /\ k = length l))
}.

(** What is used of the box: it can be opened with the nonce and the key it was sealed
    with, and it is longer than the message by its header. *)
Class GoodSecretbox `{Secretbox} : Prop := {
  Seal_length : forall m n k, length (Seal m n k) = blockHeaderSize + length m;
  Open_Seal : forall m n k, Open (Seal m n k) n k = Some m;
  Open_length : forall b n k m, Open b n k = Some m -> length b = blockHeaderSize + length m
}.

Lemma blockDataSize_pos : 0 < blockDataSize.
Proof. unfold blockDataSize. lia. Qed.

Lemma blockDataSize_Z : Z.of_nat blockDataSize = 65536%Z.
Proof. reflexivity. Qed.

Lemma blockSize_eq : blockSize = blockHeaderSize + blockDataSize.
Proof. reflexivity. Qed.

#[global] Opaque blockDataSize blockSize.
#[local] Hint Resolve blockDataSize_pos : core.

(** ** Filling a buffer *)

Section Fill.
Context {R : Type} `{GoodSource R}.

Lemma ReadFill_loop_spec n : forall fuel (r : R) l e acc, holds r l e -> length acc <= n -> n - length acc < fuel -> exists r' err,
  ReadFill_loop fuel r acc n = Ret (r', acc ++ firstn (n - length acc) l, err) /\ holds r' (skipn (n - length acc) l) e /\
  ((err = None /\ n - length acc <= length l) \/ (err = Some e /\ length l <= n - length acc)).
Proof.
  induction fuel as [|fuel IH]; intros r l e acc Hr Ha Hf; [lia |]. cbn [ReadFill_loop]. destruct (Nat.ltb_spec (length acc) n).
  - set (m := n - length acc) in *. destruct (holds_read r l e m Hr) as (r1 & k & err & -> & Hk & Hr1 & He); [lia |]. cbn [bind].
    destruct He as [[-> He]|[-> He]].
    + assert (Hl : length (firstn k l) = k) by (rewrite length_firstn; lia).
      destruct (IH r1 (skipn k l) e (acc ++ firstn k l) Hr1) as (r2 & err & -> & Hr2 & He2); [rewrite length_app; lia | rewrite length_app; lia |].
      assert (En : n - length (acc ++ firstn k l) = m - k) by (rewrite length_app; lia). rewrite En in *. rewrite length_skipn in He2.
      exists r2, err. rewrite <- app_assoc. splits; [| | destruct He2 as [[-> ?]|[-> ?]]; [left | right]; split; auto; lia].
      * do 4 f_equal. rewrite <- firstn_add. f_equal. lia.
      * rewrite skipn_skipn in Hr2. now replace (m - k + k) with m in Hr2 by lia.
    + exists r1, (Some e). rewrite (firstn_all2 (n := k)), (firstn_all2 (n := m)) by lia. splits; auto; [| right; split; auto; lia].
      now rewrite !skipn_all2 in * by lia.
  - exists r, None. replace (n - length acc) with 0 by lia. cbn [firstn skipn]. rewrite app_nil_r. splits; auto. left. split; auto; lia.
Qed.

(** The buffer is filled, or all is read and the error has come. *)
Lemma ReadFill_spec (r : R) l e n : holds r l e -> exists r' err, ReadFill r n = Ret (r', firstn n l, err) /\ holds r' (skipn n l) e /\
  ((err = None /\ n <= length l) \/ (err = Some e /\ length l <= n)).
Proof.
  intros Hr. destruct (ReadFill_loop_spec n (S n) r l e [] Hr) as (r' & err & E & Hr' & He); cbn [length]; try lia.
  cbn [length app] in *. rewrite Nat.sub_0_r in *. exists r', err. auto.
Qed.
End Fill.

(** A file in memory, read in parts of at most [S m_step] bytes and ending with [m_err] *)
Record memory : Type := Mem { m_step : nat; m_bytes : list N; m_err : cryptError }.

#[export] Instance memory_source : Source memory := fun r n =>
  let k := Nat.min n (S (m_step r)) in
  Ret (Mem (m_step r) (skipn k (m_bytes r)) (m_err r), firstn k (m_bytes r), if length (m_bytes r) =? 0 then Some (m_err r) else None).

#[export] Instance memory_good : GoodSource memory.
Proof.
  exists (fun r l e => m_bytes r = l /\ m_err r = e). intros [s l0 e0] l e n [El Ee] Hn. cbn [m_bytes m_err] in *. subst l0 e0. unfold read_from, memory_source. cbn [m_bytes m_err m_step].
  set (k := Nat.min n (S s)). destruct (Nat.eqb_spec (length l) 0) as [E|E].
  - destruct l; [| discriminate]. exists (Mem s [] e), 0, (Some e). rewrite firstn_nil, skipn_nil. cbn. splits; auto. lia.
  - exists (Mem s (skipn k l) e), (Nat.min k (length l)), None. splits; [| unfold k; lia | | reflexivity | left; split; auto; unfold k; lia].
    + do 3 f_equal. destruct (Nat.le_ge_cases k (length l)); [now rewrite Nat.min_l by auto | rewrite Nat.min_r, !firstn_all2 by lia; auto].
    + cbn. destruct (Nat.le_ge_cases k (length l)); [now rewrite Nat.min_l by auto | rewrite Nat.min_r, !skipn_all2 by lia; auto].
Defined.

Section Stream.
Context `{GoodSecretbox}.
Context (key : list N).

(** ** The encrypted bytes *)

Fixpoint seal_blocks (fuel : nat) (n : nonce) (l : list N) : list N :=
  match fuel, l with
  | S fuel, _ :: _ => Seal (firstn blockDataSize l) n key ++ seal_blocks fuel (increment n) (skipn blockDataSize l)
  | _, _ => []
  end.

Definition sealed (n : nonce) (l : list N) : list N := seal_blocks (length l) n l.

(** The whole encrypted file *)
Definition encrypted (n : nonce) (data : list N) : list N := fileMagic ++ n ++ sealed n data.

Lemma seal_blocks_fuel : forall f1 f2 n l, length l <= f1 -> length l <= f2 -> seal_blocks f1 n l = seal_blocks f2 n l.
Proof.
  induction f1 as [|f1 IH]; intros f2 n l H1 H2; [destruct l; [destruct f2; reflexivity | cbn in H1; lia] |].
  destruct f2 as [|f2]; [destruct l; [reflexivity | cbn in H2; lia] |]. cbn [seal_blocks]. destruct l as [|x l]; [auto |].
  f_equal. assert (Hp := blockDataSize_pos). cbn [length] in *. apply IH; rewrite length_skipn; cbn [length]; lia.
Qed.

Lemma sealed_nil n : sealed n [] = [].
Proof. reflexivity. Qed.

Lemma sealed_cons n l : l <> [] -> sealed n l = Seal (firstn blockDataSize l) n key ++ sealed (increment n) (skipn blockDataSize l).
Proof.
  intros Hl. unfold sealed. destruct l as [|x l]; [congruence |]. cbn [length seal_blocks]. f_equal.
  assert (Hp := blockDataSize_pos). apply seal_blocks_fuel; rewrite length_skipn; cbn [length]; lia.
Qed.

(** ** The encrypter *)

Section Encrypter.
Context {R : Type} `{GoodSource R}.

Local Open Scope Z_scope.

(** The bytes an encrypter has still to give, and its error after them *)
Definition e_holds (fh : encrypter R) (c : list N) (e : cryptError) : Prop :=
  e_key fh = key /\
  ((e_err fh = None /\ 0 <= e_bufIndex fh <= e_bufSize fh /\ e_bufSize fh = Z.of_nat (length (e_buf fh)) /\
    exists l, holds (e_in fh) l e /\ c = skipn (Z.to_nat (e_bufIndex fh)) (e_buf fh) ++ sealed (e_nonce fh) l) \/
   (e_err fh = Some e /\ c = [])).

Lemma slice_ret buf i j : 0 <= i <= j -> j <= Z.of_nat (length buf) -> slice buf i j = Ret (firstn (Z.to_nat (j - i)) (skipn (Z.to_nat i) buf)).
Proof. intros Hi Hj. unfold slice. destruct (Z.ltb_spec i 0), (Z.ltb_spec j i), (Z.ltb_spec (Z.of_nat (length buf)) j); try lia. reflexivity. Qed.

Lemma e_copy_spec (fh : encrypter R) len_p l e : (0 < len_p)%nat -> e_key fh = key -> e_err fh = None -> 0 <= e_bufIndex fh < e_bufSize fh ->
  e_bufSize fh = Z.of_nat (length (e_buf fh)) -> holds (e_in fh) l e -> let c := skipn (Z.to_nat (e_bufIndex fh)) (e_buf fh) ++ sealed (e_nonce fh) l in
  exists fh' k, e_copy fh len_p = Ret (fh', firstn k c, None) /\ (k <= len_p)%nat /\ e_holds fh' (skipn k c) e /\ (0 < k <= length c)%nat.
Proof.
  intros Hp Hkey Herr Hi Hs Hl c. unfold e_copy. rewrite slice_ret by lia. cbn [bind]. set (b := skipn (Z.to_nat (e_bufIndex fh)) (e_buf fh)) in *.
  assert (Hb : length b = Z.to_nat (e_bufSize fh - e_bufIndex fh)) by (unfold b; rewrite length_skipn; lia).
  rewrite (firstn_all2 (n := Z.to_nat _)) by lia. set (k := Nat.min len_p (length b)). assert (Hk : (0 < k <= length b)%nat) by (unfold k; lia).
  assert (Ef : firstn len_p b = firstn k c).
  { unfold c. rewrite firstn_app. replace (k - length b)%nat with 0%nat by lia. rewrite firstn_O, app_nil_r. unfold k.
    destruct (Nat.le_ge_cases len_p (length b)); [now rewrite Nat.min_l by auto | rewrite Nat.min_r, !firstn_all2 by lia; auto]. }
  rewrite Ef. assert (Hlk : length (firstn k c) = k) by (rewrite length_firstn; unfold c; rewrite length_app; lia). rewrite Hlk.
  eexists _, k. split; [reflexivity |]. splits; [unfold k; lia | | lia | unfold c; rewrite length_app; lia]. split; [exact Hkey |]. left. cbn [e_err e_bufIndex e_bufSize e_buf e_in e_nonce].
  splits; auto; try lia. exists l. split; [auto |]. unfold c. rewrite skipn_app. replace (k - length b)%nat with 0%nat by lia. cbn [skipn]. f_equal.
  unfold b. rewrite skipn_skipn. f_equal. lia.
Qed.

(** Every reading of an encrypter gives the next encrypted bytes. *)
Lemma e_Read_spec (fh : encrypter R) c e n : e_holds fh c e -> (0 < n)%nat -> exists fh' k err,
  e_Read fh n = Ret (fh', firstn k c, err) /\ (k <= n)%nat /\ e_holds fh' (skipn k c) e /\
  ((err = None /\ (0 < k <= length c)%nat) \/ (err = Some e /\ k = length c)).
Proof.
  intros [Hkey [(Herr & Hi & Hs & l & Hl & ->)|[Herr ->]]] Hn; unfold e_Read; rewrite Herr.
  - destruct (Z.geb_spec (e_bufIndex fh) (e_bufSize fh)) as [Hge|Hlt].
    + destruct (ReadFill_spec (e_in fh) l e blockDataSize Hl) as (r' & err & -> & Hr' & He). cbn [bind].
      rewrite (skipn_all2 (n := Z.to_nat (e_bufIndex fh))) by lia. cbn [app].
      destruct (Nat.eqb_spec (length (firstn blockDataSize l)) 0) as [E0|E0].
      * assert (l = []) as -> by (destruct l; [auto |]; rewrite length_firstn in E0; cbn [length] in E0; assert (Hp := blockDataSize_pos); lia).
        assert (Hp := blockDataSize_pos). destruct He as [[_ He]|[-> _]]; [cbn in He; lia |]. unfold e_finish. cbn [e_err].
        eexists _, 0%nat, (Some e). split; [reflexivity |]. splits; auto; [lia | split; [exact Hkey | right; auto]].
      * assert (Hl0 : l <> []) by (intros ->; rewrite firstn_nil in E0; now cbn in E0). rewrite (sealed_cons _ _ Hl0).
        assert (Hlen := Seal_length (firstn blockDataSize l) (e_nonce fh) (e_key fh)). set (b := Seal _ _ _) in *.
        match goal with |- context [e_copy ?f n] => set (f1 := f) end.
        destruct (e_copy_spec f1 n (skipn blockDataSize l) e Hn) as (fh' & k & -> & Hk & Hh & Hk2); unfold f1; cbn [e_key e_err e_bufIndex e_bufSize e_buf e_in]; auto; try lia.
        subst f1 b. cbn [skipn Z.to_nat e_nonce e_buf e_bufIndex] in *. rewrite Hkey in *. eexists _, k, None. split; [reflexivity |]. splits; auto.
    + destruct (e_copy_spec fh n l e Hn Hkey Herr ltac:(lia) Hs Hl) as (fh' & k & -> & Hk & Hh & Hk2). eexists _, k, None. split; [reflexivity |]. splits; auto.
  - exists fh, 0%nat, (Some e). splits; auto; [lia |]. split; auto.
Qed.

(** An encrypter is a reader as good as the one it encrypts. *)
#[export] Instance encrypter_good : GoodSource (encrypter R) := { holds := e_holds; holds_read := e_Read_spec }.

Lemma encrypter_with_holds (r : R) l e n : length n = fileNonceSize -> holds r l e -> holds (encrypter_with key r n) (encrypted n l) e.
Proof.
  intros Hn Hr. split; [reflexivity |]. left. cbn [encrypter_with e_err e_bufIndex e_bufSize e_buf e_in e_nonce]. splits; auto; try lia.
  - rewrite length_app, Hn. reflexivity.
  - exists l. split; [auto |]. cbn [Z.to_nat skipn]. unfold encrypted. now rewrite app_assoc.
Qed.
End Encrypter.

(** ** The decrypted bytes *)

(** What is decrypted of the blocks [b], and the error if not all of them are; [pass]
    says that a block that is not authentic is replaced by zeros. *)
Definition open_block (pass : bool) (n : nonce) (blk : list N) : option (list N) :=
  match Open blk n key with
  | Some m => Some m
  | None => if pass then Some (repeat 0%N (length blk - blockHeaderSize)) else None
  end.

Fixpoint open_blocks (fuel : nat) (pass : bool) (n : nonce) (b : list N) : list N * option cryptError :=
  match fuel, b with
  | S fuel, _ :: _ =>
      let blk := firstn blockSize b in
      if length blk <=? blockHeaderSize then ([], Some ErrorEncryptedFileBadHeader)
      else
        match open_block pass n blk with
        | Some m => let '(p, s) := open_blocks fuel pass (increment n) (skipn blockSize b) in (m ++ p, s)
        | None => ([], Some ErrorEncryptedBadBlock)
        end
  | _, _ => ([], None)
  end.

Definition opened (pass : bool) (n : nonce) (b : list N) : list N * option cryptError := open_blocks (length b) pass n b.

(** All blocks are authentic. *)
Definition authentic (n : nonce) (b : list N) : Prop := snd (opened false n b) = None.

Lemma blockSize_pos : blockHeaderSize < blockSize.
Proof. rewrite blockSize_eq. assert (Hp := blockDataSize_pos). lia. Qed.

Lemma open_blocks_fuel pass : forall f1 f2 n b, length b <= f1 -> length b <= f2 -> open_blocks f1 pass n b = open_blocks f2 pass n b.
Proof.
  induction f1 as [|f1 IH]; intros f2 n b H1 H2; [destruct b; [destruct f2; reflexivity | cbn in H1; lia] |].
  destruct f2 as [|f2]; [destruct b; [reflexivity | cbn in H2; lia] |]. cbn [open_blocks]. destruct b as [|x b]; [auto |].
  assert (Hp := blockSize_pos). rewrite (IH f2); [auto | |]; rewrite length_skipn; cbn [length] in *; lia.
Qed.

Lemma opened_cons pass n b : b <> [] -> opened pass n b =
  let blk := firstn blockSize b in
  if length blk <=? blockHeaderSize then ([], Some ErrorEncryptedFileBadHeader)
  else
    match open_block pass n blk with
    | Some m => (m ++ fst (opened pass (increment n) (skipn blockSize b)), snd (opened pass (increment n) (skipn blockSize b)))
    | None => ([], Some ErrorEncryptedBadBlock)
    end.
Proof.
  intros Hb. unfold opened. destruct b as [|x b]; [congruence |]. assert (Hp := blockSize_pos). cbn [open_blocks length].
  rewrite (open_blocks_fuel pass (length b) (length (skipn blockSize (x :: b)))); try (rewrite length_skipn; cbn [length]; lia).
  destruct (_ <=? _); [auto |]. destruct (open_block pass n _); [| auto]. now destruct (open_blocks _ _ _ _).
Qed.

Lemma open_block_length pass n blk m : blockHeaderSize < length blk -> open_block pass n blk = Some m -> length m = length blk - blockHeaderSize.
Proof.
  intros Hl. unfold open_block. destruct (Open blk n key) as [m'|] eqn:E.
  - intros [=->]. apply Open_length in E. lia.
  - destruct pass; [| discriminate]. intros [=<-]. apply repeat_length.
Qed.

(** What was sealed is decrypted. *)
Lemma opened_sealed pass : forall l n, opened pass n (sealed n l) = (l, None).
Proof.
  apply (blocks_ind blockDataSize (fun l => forall n, opened pass n (sealed n l) = (l, None))); [apply blockDataSize_pos | reflexivity |].
  intros l Hl IH n. rewrite (sealed_cons n l Hl). set (m := firstn blockDataSize l). assert (Hs := Seal_length m n key).
  assert (Hm : 0 < length m) by (unfold m; destruct l; [congruence |]; rewrite length_firstn; assert (Hp := blockDataSize_pos); cbn; lia).
  assert (Hn0 : Seal m n key ++ sealed (increment n) (skipn blockDataSize l) <> []) by (destruct (Seal m n key); [cbn in Hs; lia | discriminate]).
  rewrite (opened_cons pass n _ Hn0).
  assert (Hcut : firstn blockSize (Seal m n key ++ sealed (increment n) (skipn blockDataSize l)) = Seal m n key /\
                 skipn blockSize (Seal m n key ++ sealed (increment n) (skipn blockDataSize l)) = sealed (increment n) (skipn blockDataSize l)).
  { destruct (Nat.le_ge_cases blockDataSize (length l)).
    - assert (length m = blockDataSize) by (unfold m; now apply firstn_length_le).
      assert (E : blockSize = length (Seal m n key)) by (rewrite blockSize_eq; lia). rewrite E, firstn_app, skipn_app, firstn_all, skipn_all, Nat.sub_diag, app_nil_r. auto.
    - rewrite (skipn_all2 (n := blockDataSize)) by lia. rewrite sealed_nil, app_nil_r. assert (length (Seal m n key) <= blockSize) by (rewrite blockSize_eq; unfold m in *; rewrite length_firstn in *; lia).
      rewrite firstn_all2, skipn_all2 by lia. auto. }
  destruct Hcut as [-> ->]. cbn zeta. replace (length (Seal m n key) <=? blockHeaderSize) with false by (symmetry; apply Nat.leb_gt; lia).
  unfold open_block. rewrite Open_Seal, IH. cbn [fst snd]. unfold m. now rewrite firstn_skipn.
Qed.

Lemma authentic_pass pass : forall b n, authentic n b -> opened pass n b = opened false n b.
Proof.
  apply (blocks_ind blockSize (fun b => forall n, authentic n b -> opened pass n b = opened false n b)); [assert (Hp := blockSize_pos); lia | reflexivity |].
  intros b Hb IH n. unfold authentic. rewrite (opened_cons false), (opened_cons pass) by auto. cbn zeta. destruct (_ <=? _); [discriminate |].
  unfold open_block. destruct (Open _ n key); [| discriminate]. cbn [snd]. intros Ha. now rewrite (IH _ Ha).
Qed.

(** ** The decrypter *)

Section Decrypter.
Context {R : Type} `{GoodSource R} `{!Handle R}.
Context (pass : bool).

Local Open Scope Z_scope.

(** A reader that ends with an error other than [EOF] is read as long as all is authentic. *)
Definition readable (n : nonce) (b : list N) (e : cryptError) : Prop := e = EOF \/ authentic n b.

Definition end_error (s : option cryptError) (e : cryptError) : cryptError := match s with Some x => x | None => e end.

Lemma fillBuffer_spec (fh : decrypter R) rc b e : d_key fh = key -> d_passBadBlocks fh = pass -> d_rc fh = Some rc -> holds rc b e -> readable (d_nonce fh) b e ->
  exists rc', (fillBuffer fh = Ret (set_rc (Some rc') fh, Some (end_error (snd (opened pass (d_nonce fh) b)) e)) /\ fst (opened pass (d_nonce fh) b) = []) \/
  exists buf m b', fillBuffer fh = Ret (set_nonce (increment (d_nonce fh)) (set_buf buf 0 (Z.of_nat (length m)) (set_rc (Some rc') fh)), None) /\
    (0 < length m <= length buf)%nat /\ firstn (length m) buf = m /\ holds rc' b' e /\ readable (increment (d_nonce fh)) b' e /\
    opened pass (d_nonce fh) b = (m ++ fst (opened pass (increment (d_nonce fh)) b'), snd (opened pass (increment (d_nonce fh)) b')) /\
    b' = skipn blockSize b /\ open_block pass (d_nonce fh) (firstn blockSize b) = Some m.
Proof.
  intros Hkey Hpass Hrc Hb Hread. unfold fillBuffer. rewrite Hrc. destruct (ReadFill_spec rc b e blockSize Hb) as (rc' & err & -> & Hrc' & He). cbn [bind].
  exists rc'. assert (Hp := blockSize_pos). destruct (Nat.eqb_spec (length (firstn blockSize b)) 0) as [E0|E0].
  { assert (b = []) as -> by (destruct b; [auto |]; rewrite length_firstn in E0; cbn [length] in E0; lia). left.
    destruct He as [[_ He]|[-> _]]; [cbn in He; lia |]. split; reflexivity. }
  assert (Hb0 : b <> []) by (intros ->; rewrite firstn_nil in E0; now cbn in E0). rewrite (opened_cons pass _ b Hb0). cbn zeta.
  unfold readable, authentic in Hread. rewrite (opened_cons false _ b Hb0) in Hread. cbn zeta in Hread. set (blk := firstn blockSize b) in *.
  assert (Hpend : e = EOF -> pending err = None) by (intros ->; destruct He as [[-> _]|[-> _]]; reflexivity).
  destruct (Nat.leb_spec (length blk) blockHeaderSize) as [Hs|Hs].
  { left. destruct Hread as [->|Hread]; [| discriminate]. rewrite Hpend by auto. split; reflexivity. }
  cbn [d_nonce d_key d_passBadBlocks set_rc]. rewrite Hkey, Hpass.
  assert (Hfill : forall m, open_block pass (d_nonce fh) blk = Some m -> length m = (length blk - blockHeaderSize)%nat) by (intros m; now apply open_block_length).
  unfold open_block in *. destruct (Open blk (d_nonce fh) key) as [m|] eqn:Em.
  - right. assert (Hm := Hfill m eq_refl). exists m, m, (skipn blockSize b). rewrite <- Hm. splits; auto; try lia. apply firstn_all.
  - destruct Hread as [->|Hread]; [| discriminate]. rewrite Hpend by auto. destruct pass eqn:Ep; cbn [negb].
    + right. exists (repeat 0%N (length blk)), (repeat 0%N (length blk - blockHeaderSize)), (skipn blockSize b). rewrite !repeat_length.
      splits; auto; try lia; [apply firstn_repeat_le; lia | left; auto].
    + left. split; reflexivity.
Qed.

(** The bytes in the buffer *)
Definition in_buf (fh : decrypter R) : list N := firstn (Z.to_nat (d_bufSize fh - d_bufIndex fh)) (skipn (Z.to_nat (d_bufIndex fh)) (d_buf fh)).

(** What [full] and its error become with a limit *)
Definition limited (limit : Z) (full c : list N) (e1 e' : cryptError) : Prop :=
  (limit < 0 /\ c = full /\ e' = e1) \/
  (0 <= limit /\ c = firstn (Z.to_nat limit) full /\ e' = if limit <=? Z.of_nat (length full) then EOF else e1).

(** The bytes a decrypter has still to give, and its error after them; a limit of 0 is
    noticed only after the next block has been read. *)
Definition d_holds (fh : decrypter R) (c : list N) (e' : cryptError) : Prop :=
  d_key fh = key /\ d_passBadBlocks fh = pass /\
  ((d_err fh = None /\ 0 <= d_bufIndex fh <= d_bufSize fh /\ d_bufSize fh <= Z.of_nat (length (d_buf fh)) /\
    exists rc b e, d_rc fh = Some rc /\ holds rc b e /\ readable (d_nonce fh) b e /\
      (d_limit fh <> 0 \/ d_bufIndex fh < d_bufSize fh \/ (e = EOF /\ authentic (d_nonce fh) b)) /\
      limited (d_limit fh) (in_buf fh ++ fst (opened pass (d_nonce fh) b)) c (end_error (snd (opened pass (d_nonce fh) b)) e) e') \/
   (d_err fh = Some e' /\ c = [])).

Lemma d_copy_spec (fh : decrypter R) len_p c e' rc b e : (0 < len_p)%nat -> d_key fh = key -> d_passBadBlocks fh = pass -> d_err fh = None ->
  0 <= d_bufIndex fh < d_bufSize fh -> d_bufSize fh <= Z.of_nat (length (d_buf fh)) -> d_rc fh = Some rc -> holds rc b e -> readable (d_nonce fh) b e ->
  limited (d_limit fh) (in_buf fh ++ fst (opened pass (d_nonce fh) b)) c (end_error (snd (opened pass (d_nonce fh) b)) e) e' ->
  exists fh' k err, d_copy fh len_p = Ret (fh', firstn k c, err) /\ (k <= len_p)%nat /\ d_holds fh' (skipn k c) e' /\
    ((err = None /\ (0 < k <= length c)%nat) \/ (err = Some e' /\ k = length c)).
Proof.
  intros Hp Hkey Hpass Herr Hi Hs Hrc Hb Hread Hlim. unfold d_copy.
  set (ib := in_buf fh) in *. set (a := d_bufSize fh - d_bufIndex fh) in *.
  assert (Hib : length ib = Z.to_nat a) by (unfold ib, in_buf; fold a; rewrite length_firstn, length_skipn; lia).
  set (toCopy := if _ && _ then _ else _). set (full := ib ++ _) in *.
  assert (Hto : 0 <= toCopy <= a /\ (d_limit fh < 0 -> toCopy = a) /\ (0 <= d_limit fh -> toCopy = Z.min a (d_limit fh))).
  { unfold toCopy. destruct (Z.geb_spec (d_limit fh) 0), (Z.ltb_spec (d_limit fh) a); cbn [andb]; lia. }
  clearbody toCopy. rewrite slice_ret by lia. cbn [bind]. replace (d_bufIndex fh + toCopy - d_bufIndex fh) with toCopy by lia.
  set (k := Nat.min len_p (Z.to_nat toCopy)). assert (Hfull : (Z.to_nat a <= length full)%nat) by (unfold full; rewrite length_app; lia).
  assert (Efull : firstn (Z.to_nat toCopy) (skipn (Z.to_nat (d_bufIndex fh)) (d_buf fh)) = firstn (Z.to_nat toCopy) full).
  { unfold full. rewrite firstn_app. replace (Z.to_nat toCopy - length ib)%nat with 0%nat by lia. rewrite firstn_O, app_nil_r.
    unfold ib, in_buf. fold a. rewrite firstn_firstn. f_equal. lia. }
  rewrite Efull, firstn_firstn. fold k. assert (Hlk : length (firstn k full) = k) by (rewrite length_firstn; lia). rewrite Hlk.
  assert (Hc : firstn k c = firstn k full).
  { destruct Hlim as [(_ & -> & _)|(Hl & -> & _)]; [auto |]. rewrite firstn_firstn. f_equal. lia. }
  assert (Hin : in_buf (set_buf (d_buf fh) (d_bufIndex fh + Z.of_nat k) (d_bufSize fh) fh) = skipn k ib).
  { unfold ib, in_buf. cbn [set_buf d_buf d_bufIndex d_bufSize]. rewrite skipn_firstn_comm, skipn_skipn. f_equal; [lia | f_equal; lia]. }
  assert (Hskip : skipn k full = skipn k ib ++ fst (opened pass (d_nonce fh) b)).
  { unfold full. rewrite skipn_app. replace (k - length ib)%nat with 0%nat by lia. reflexivity. }
  destruct Hlim as [(Hl & -> & ->)|(Hl & Ec & Ee)]; cbn [set_buf d_limit].
  - destruct (Z.geb_spec (d_limit fh) 0); [lia |]. eexists _, k, None. split; [reflexivity |]. splits; [lia | | left; split; [auto | lia]].
    split; [exact Hkey |]. split; [exact Hpass |]. left. cbn [set_buf d_err d_bufIndex d_bufSize d_buf d_rc d_nonce d_limit]. splits; auto; try lia.
    exists rc, b, e. splits; auto; [left; lia |]. left. rewrite Hin, Hskip. auto.
  - destruct (Z.geb_spec (d_limit fh) 0); [| lia]. cbn [set_limit d_limit].
    destruct (Z.eqb_spec (d_limit fh - Z.of_nat k) 0) as [E|E].
    + assert (Hck : length c = k) by (rewrite Ec, length_firstn; lia). unfold finish. cbn [set_limit set_buf d_err]. rewrite Herr, <- Hc.
      eexists _, k, (Some EOF). split; [reflexivity |]. splits; [lia | | right].
      * split; [exact Hkey |]. split; [exact Hpass |]. right. cbn [set_err d_err]. rewrite skipn_all2 by lia. split; [| auto].
        rewrite Ee. destruct (Z.leb_spec (d_limit fh) (Z.of_nat (length full))); [auto | lia].
      * split; [| auto]. rewrite Ee. destruct (Z.leb_spec (d_limit fh) (Z.of_nat (length full))); [auto | lia].
    + rewrite <- Hc. eexists _, k, None. split; [reflexivity |]. splits; [lia | | left; split; [auto |]; rewrite Ec, length_firstn; lia].
      split; [exact Hkey |]. split; [exact Hpass |]. left. cbn [set_limit set_buf d_err d_bufIndex d_bufSize d_buf d_rc d_nonce d_limit]. splits; auto; try lia.
      exists rc, b, e. splits; auto. right. change (in_buf _) with (in_buf (set_buf (d_buf fh) (d_bufIndex fh + Z.of_nat k) (d_bufSize fh) fh)).
      rewrite Hin, <- Hskip, length_skipn, Ec, skipn_firstn_comm. splits; [lia | f_equal; lia |].
      rewrite Ee. destruct (Z.leb_spec (d_limit fh) (Z.of_nat (length full))), (Z.leb_spec (d_limit fh - Z.of_nat k) (Z.of_nat (length full - k))); auto; lia.
Qed.

(** Every reading of a decrypter gives the next decrypted bytes. *)
Lemma d_Read_spec (fh : decrypter R) c e' n : d_holds fh c e' -> (0 < n)%nat -> exists fh' k err,
  d_Read fh n = Ret (fh', firstn k c, err) /\ (k <= n)%nat /\ d_holds fh' (skipn k c) e' /\
  ((err = None /\ (0 < k <= length c)%nat) \/ (err = Some e' /\ k = length c)).
Proof.
  intros (Hkey & Hpass & [(Herr & Hi & Hs & rc & b & e & Hrc & Hb & Hread & Hl0 & Hlim)|[Herr ->]]) Hn; unfold d_Read; rewrite Herr.
  2: { exists fh, 0%nat, (Some e'). splits; auto; [lia |]. split; auto. }
  destruct (Z.geb_spec (d_bufIndex fh) (d_bufSize fh)) as [Hge|Hlt]; [| apply (d_copy_spec fh n c e' rc b e); auto; lia].
  assert (Hin : in_buf fh = []) by (unfold in_buf; replace (Z.to_nat _) with 0%nat by lia; reflexivity). rewrite Hin in Hlim. cbn [app] in Hlim.
  destruct (fillBuffer_spec fh rc b e Hkey Hpass Hrc Hb Hread) as (rc' & [[-> Ho]|(buf & m & b' & -> & Hm & Hbuf & Hb' & Hread' & Ho & _)]); cbn [bind].
  - rewrite Ho in Hlim. unfold finish. cbn [set_rc d_err]. rewrite Herr. set (x := end_error _ e) in *.
    assert (Ec : c = [] /\ e' = x).
    { destruct Hlim as [(_ & -> & ->)|(Hl & -> & ->)]; [auto |]. rewrite firstn_nil. split; [auto |]. cbn [length].
      destruct (Z.leb_spec (d_limit fh) (Z.of_nat 0)); [| auto]. destruct Hl0 as [Hl0|[Hl0|[-> Ha]]]; try lia.
      unfold x. rewrite (authentic_pass pass _ _ Ha). unfold authentic in Ha. now rewrite Ha. }
    destruct Ec as [-> ->]. eexists _, 0%nat, (Some x). split; [reflexivity |]. splits; auto; [lia |]. split; [exact Hkey |]. split; [exact Hpass |]. right. auto.
  - rewrite Ho in Hlim. cbn [fst snd] in Hlim. match goal with |- context [d_copy ?f n] => set (f1 := f) end.
    apply (d_copy_spec f1 n c e' rc' b' e); auto; subst f1; cbn [set_nonce set_buf set_rc d_bufIndex d_bufSize d_buf d_limit d_nonce]; try lia.
    assert (Hin' : in_buf (set_nonce (increment (d_nonce fh)) (set_buf buf 0 (Z.of_nat (length m)) (set_rc (Some rc') fh))) = m).
    { unfold in_buf. cbn [set_nonce set_buf d_bufIndex d_bufSize d_buf]. rewrite Z.sub_0_r, Nat2Z.id. exact Hbuf. }
    now rewrite Hin'.
Qed.

(** A decrypter is a good reader. *)
#[export] Instance decrypter_good : GoodSource (decrypter R) := { holds := d_holds; holds_read := d_Read_spec }.

(** A new decrypter gives what is decrypted of the blocks after the header. *)
Lemma newDecrypter_holds (rc : R) n b e : length n = fileNonceSize -> holds rc (fileMagic ++ n ++ b) e -> (e = EOF \/ (b <> [] /\ authentic n b)) ->
  exists fh, newDecrypter key pass rc = Ret (inl fh) /\ holds fh (fst (opened pass n b)) (end_error (snd (opened pass n b)) e) /\
    d_initialNonce fh = n /\ d_open fh = None /\ d_err fh = None /\ d_nonce fh = n /\ d_key fh = key /\ d_passBadBlocks fh = pass /\ d_bufIndex fh = 0 /\ d_bufSize fh = 0 /\
    exists rc', d_rc fh = Some rc' /\ holds rc' b e.
Proof.
  intros Hn Hrc Hread. unfold newDecrypter. destruct (ReadFill_spec rc _ e fileHeaderSize Hrc) as (rc' & err & -> & Hrc' & He). cbn [bind].
  assert (Hh : length (fileMagic ++ n) = fileHeaderSize) by (rewrite length_app, Hn; reflexivity).
  rewrite app_assoc in *. rewrite firstn_app, skipn_app, Hh, Nat.sub_diag in *. cbn [firstn skipn] in *. rewrite app_nil_r in *.
  rewrite (firstn_all2 (n := fileHeaderSize)), (skipn_all2 (n := fileHeaderSize)) in * by lia. cbn [app] in *. rewrite Hh, Nat.ltb_irrefl. cbn [andb].
  assert (Hpend : pending err = None).
  { destruct He as [[-> _]|[-> He]]; [reflexivity |]. destruct Hread as [->|[Hb _]]; [reflexivity |]. rewrite length_app, Hh in He. destruct b; [congruence | cbn [length] in He; lia]. }
  rewrite Hpend. rewrite (firstn_app fileMagicSize), skipn_app. change (length fileMagic) with fileMagicSize. rewrite Nat.sub_diag. cbn [firstn skipn]. rewrite app_nil_r.
  change (firstn fileMagicSize fileMagic) with fileMagic. change (skipn fileMagicSize fileMagic) with (@nil N). cbn [app].
  destruct (list_eq_dec N.eq_dec fileMagic fileMagic); [| congruence]. cbn zeta. rewrite skipn_nil, app_nil_r, Hn, Nat.eqb_refl. cbn [negb].
  eexists. split; [reflexivity |]. splits; try reflexivity; [| exists rc'; auto]. split; [reflexivity |]. split; [reflexivity |]. left.
  cbn [d_err d_bufIndex d_bufSize d_buf d_rc d_nonce d_limit]. splits; auto; try reflexivity.
  exists rc', b, e. splits; auto; [unfold readable; tauto | left; lia |]. left. splits; auto. lia.
Qed.
End Decrypter.
End Stream.
