(* ===== verification/CryptSeek.v ===== *)
(** * Seeking in an encrypted file

    A handle on an object gives any range of it, by opening it there or by a seek of
    its own.  A decrypter over such handles gives any range of the decrypted file, in
    any order of reads and seeks. *)
From Stdlib Require Import List Arith NArith ZArith Lia Bool.
From S2P Require Import Prelude Crypt CryptStream.
Import ListNotations.

(** The bytes from [offset] on, at most [limit] of them unless it is negative *)
Definition cut (offset limit : Z) (obj : list N) : list N :=
  let l := skipn (Z.to_nat offset) obj in
  if (limit <? 0)%Z then l else firstn (Z.to_nat limit) l.

(** What a remote promises of the handles on its objects *)
Class GoodHandle (R : Type) `{GoodSource R} `{!Handle R} : Type := {
  on : R -> list N -> Prop;
  on_read : forall r obj n r' p err, on r obj -> read_from r n = Ret (r', p, err) -> on r' obj;
  on_seek : forall f r obj offset limit, range_seek = Some f -> on r obj -> (0 <= offset)%Z ->
    exists r', f r offset limit = Ret (r', None) /\ on r' obj /\ holds r' (cut offset limit obj) EOF
}.

Definition opens {R} `{GoodHandle R} (open : Z -> Z -> R + cryptError) (obj : list N) : Prop :=
  forall offset limit, (0 <= offset)%Z -> exists r, open offset limit = inl r /\ on r obj /\ holds r (cut offset limit obj) EOF.

Section Seek.
Context `{GoodSecretbox}.
Context (key : list N).

(** ** Whole blocks *)

Lemma sealed_short n l : l <> [] -> length l <= blockDataSize -> sealed key n l = Seal l n key.
Proof. intros Hl Hle. rewrite sealed_cons, firstn_all2, skipn_all2, sealed_nil, app_nil_r by auto. reflexivity. Qed.

Lemma sealed_long n l : blockDataSize <= length l -> l <> [] -> length (Seal (firstn blockDataSize l) n key) = blockSize.
Proof. intros Hl _. rewrite Seal_length, firstn_length_le, blockSize_eq by auto. reflexivity. Qed.

Lemma sealed_skip q : forall n l, skipn (q * blockSize) (sealed key n l) = sealed key (nonce_at n q) (skipn (q * blockDataSize) l).
Proof.
  induction q as [|q IH]; intros n l; [reflexivity |]. cbn [Nat.mul nonce_at]. destruct (list_eq_dec N.eq_dec l []) as [->|Hl]; [now rewrite sealed_nil, !skipn_nil |].
  destruct (Nat.le_ge_cases blockDataSize (length l)) as [Hle|Hle].
  - rewrite (sealed_cons key n l Hl), skipn_app. assert (E := sealed_long n l Hle Hl). rewrite skipn_all2 by lia. cbn [app].
    rewrite E. replace (blockSize + q * blockSize - blockSize) with (q * blockSize) by lia. rewrite IH, skipn_skipn. do 2 f_equal. lia.
  - assert (E := Seal_length l n key). assert (Eb := blockSize_eq). rewrite sealed_short by auto. rewrite !skipn_all2; [now rewrite sealed_nil | lia..].
Qed.

Lemma sealed_firstn q : forall n l, firstn (q * blockSize) (sealed key n l) = sealed key n (firstn (q * blockDataSize) l).
Proof.
  induction q as [|q IH]; intros n l; [reflexivity |]. cbn [Nat.mul]. destruct (list_eq_dec N.eq_dec l []) as [->|Hl]; [now rewrite firstn_nil, sealed_nil |].
  assert (Hp := blockDataSize_pos). destruct (Nat.le_ge_cases blockDataSize (length l)) as [Hle|Hle].
  - assert (Hf : firstn (blockDataSize + q * blockDataSize) l <> []) by (destruct l; [congruence |]; destruct (blockDataSize + q * blockDataSize) eqn:E0; [lia | discriminate]).
    rewrite (sealed_cons key n l Hl), (sealed_cons key n _ Hf), firstn_app. assert (E := sealed_long n l Hle Hl). rewrite firstn_all2 by lia.
    rewrite E. replace (blockSize + q * blockSize - blockSize) with (q * blockSize) by lia. rewrite IH, firstn_firstn, Nat.min_l, skipn_firstn_comm by lia.
    do 3 f_equal. lia.
  - assert (E := Seal_length l n key). assert (Eb := blockSize_eq). rewrite sealed_short by auto. rewrite !firstn_all2, sealed_short by (auto; lia). reflexivity.
Qed.

Lemma sealed_authentic n l : authentic key n (sealed key n l).
Proof. unfold authentic. now rewrite opened_sealed. Qed.

Lemma encrypted_header n data : length n = fileNonceSize -> firstn fileHeaderSize (encrypted key n data) = fileMagic ++ n /\ skipn fileHeaderSize (encrypted key n data) = sealed key n data.
Proof.
  intros Hn. assert (Hh : length (fileMagic ++ n) = fileHeaderSize) by (rewrite length_app, Hn; reflexivity). unfold encrypted. rewrite app_assoc.
  rewrite firstn_app, skipn_app, firstn_all2, skipn_all2, Hh, Nat.sub_diag, app_nil_r by lia. auto.
Qed.

Local Open Scope Z_scope.

(** ** Where a range is *)

Lemma calculateUnderlying_spec offset limit : 0 <= offset < 2 ^ 62 -> limit < 2 ^ 62 -> exists q k : nat, exists d,
  calculateUnderlying offset limit =
    (Z.of_nat (fileHeaderSize + q * blockSize), if limit <? 0 then -1 else Z.of_nat (k * blockSize), d, Z.of_nat q) /\
  offset = Z.of_nat (q * blockDataSize) + d /\ 0 <= d < Z.of_nat blockDataSize /\ (0 < k)%nat /\ (0 <= limit -> d + limit <= Z.of_nat (k * blockDataSize)) /\
  Z.of_nat (k * blockSize) < 2 ^ 63 - 32.
Proof.
  intros Ho Hl. unfold calculateUnderlying. cbn zeta. assert (Hp : 0 < Z.of_nat blockDataSize) by (rewrite blockDataSize_Z; lia).
  rewrite Z.quot_div_nonneg, Z.rem_mod_nonneg by lia. assert (Hd := Z.mod_pos_bound offset _ Hp). assert (Hq := Z.div_mod offset _ (Z.neq_sym _ _ (Z.lt_neq _ _ Hp))).
  set (q := offset / Z.of_nat blockDataSize) in *. set (d := offset mod Z.of_nat blockDataSize) in *.
  assert (Hq0 : 0 <= q <= 2 ^ 46) by (rewrite blockDataSize_Z in *; lia).
  assert (Ebs : Z.of_nat blockSize = 65552) by (rewrite blockSize_eq, Nat2Z.inj_add, blockDataSize_Z; reflexivity).
  assert (E1 : Z.of_nat blockHeaderSize + Z.of_nat blockDataSize = 65552) by (rewrite blockDataSize_Z; reflexivity). rewrite E1.
  assert (E2 : Z.of_nat fileHeaderSize = 32) by reflexivity. rewrite E2. rewrite (wrap64_small (n := q * 65552)), (wrap64_small (n := 32 + q * 65552)) by lia.
  assert (Euo : 32 + q * 65552 = Z.of_nat (fileHeaderSize + Z.to_nat q * blockSize)) by (rewrite Nat2Z.inj_add, Nat2Z.inj_mul, Ebs, E2, Z2Nat.id; lia). rewrite Euo.
  assert (Eo : offset = Z.of_nat (Z.to_nat q * blockDataSize) + d) by (rewrite Nat2Z.inj_mul, Z2Nat.id; lia).
  rewrite blockDataSize_Z in *. destruct (Z.geb_spec limit 0) as [Hge|Hlt].
  - replace (limit <? 0) with false by (symmetry; apply Z.ltb_ge; lia). rewrite (wrap64_small (n := limit - (65536 - d))) by lia. set (btr := limit - (65536 - d)).
    set (blocksToRead := if btr >? 0 then _ else 1).
    assert (Hb : 1 <= blocksToRead <= 2 ^ 46 + 1 /\ d + limit <= blocksToRead * 65536).
    { unfold blocksToRead. destruct (Z.gtb_spec btr 0); [| unfold btr in *; lia]. rewrite Z.quot_div_nonneg, Z.rem_mod_nonneg by lia.
      assert (Hdm := Z.div_mod btr 65536 ltac:(lia)). assert (Hm := Z.mod_pos_bound btr 65536 ltac:(lia)).
      destruct (Z.eqb_spec (btr mod 65536) 0); cbn [negb]; unfold btr in *; lia. }
    clearbody blocksToRead. rewrite wrap64_small by lia. exists (Z.to_nat q), (Z.to_nat blocksToRead), d.
    rewrite !Nat2Z.inj_mul, Ebs, blockDataSize_Z, !Z2Nat.id in * by lia. splits; auto; lia.
  - replace (limit <? 0) with true by (symmetry; apply Z.ltb_lt; lia). exists (Z.to_nat q), 1%nat, d. rewrite !Z2Nat.id by lia. splits; auto; lia.
Qed.

(** ** The decrypter on an object *)

Section On.
Context {R : Type} `{GoodHandle R}.
Context (pass : bool) (n0 : nonce) (data : list N).

Definition decrypts (fh : decrypter R) : Prop :=
  d_key fh = key /\ d_passBadBlocks fh = pass /\ d_initialNonce fh = n0 /\
  (exists open, d_open fh = Some open /\ opens open (encrypted key n0 data)) /\
  exists rc, d_rc fh = Some rc /\ on rc (encrypted key n0 data).

Lemma ReadFill_on (r : R) obj n r' p err : on r obj -> ReadFill r n = Ret (r', p, err) -> on r' obj.
Proof.
  unfold ReadFill. generalize (@nil N). generalize (S n). intros fuel. revert r. induction fuel as [|fuel IH]; intros r acc Hr E; cbn [ReadFill_loop] in E; [discriminate |].
  destruct (length acc <? n)%nat; [| injection E as <- _ _; auto]. destruct (read_from r (n - length acc)) as [[[r1 p1] err1]| | |] eqn:Er; try discriminate.
  cbn [bind] in E. assert (K1 := on_read _ _ _ _ _ _ Hr Er). destruct err1; [injection E as <- _ _; auto | eauto].
Qed.

Lemma fillBuffer_on fh fh' err : decrypts fh -> fillBuffer fh = Ret (fh', err) -> decrypts fh'.
Proof.
  intros (K1 & K2 & K3 & K4 & rc & K5 & K6) E. unfold fillBuffer in E. rewrite K5 in E. destruct (ReadFill rc blockSize) as [[[rc' p] e]| | |] eqn:Er; try discriminate.
  cbn [bind] in E. assert (K7 := ReadFill_on _ _ _ _ _ _ K6 Er). repeat match type of E with context [match ?c with _ => _ end] => destruct c end; try discriminate;
    injection E as <- _; (split; [auto |]; split; [auto |]; split; [auto |]; split; [auto |]; exists rc'; auto).
Qed.

Lemma d_Read_on fh n fh' p err : decrypts fh -> d_Read fh n = Ret (fh', p, err) -> decrypts fh'.
Proof.
  assert (Hcopy : forall f, decrypts f -> d_copy f n = Ret (fh', p, err) -> decrypts fh').
  { intros f Hf E. unfold d_copy in E. destruct (slice _ _ _) as [src| | |]; try discriminate. cbn [bind] in E. cbn zeta in E. cbn [set_limit set_buf d_limit] in E.
    destruct (d_limit f >=? 0); [| injection E as <- _ _; exact Hf]. destruct (_ =? 0); [| injection E as <- _ _; exact Hf].
    unfold finish in E. cbn [set_limit set_buf d_err] in E. destruct (d_err f); injection E as <- _ _; exact Hf. }
  intros Hf E. unfold d_Read in E. destruct (d_err fh); [injection E as <- _ _; auto |]. destruct (d_bufIndex fh >=? d_bufSize fh); [| eauto].
  destruct (fillBuffer fh) as [[f1 e1]| | |] eqn:Ef; try discriminate. cbn [bind] in E. assert (K1 := fillBuffer_on _ _ _ Hf Ef).
  destruct e1; [| eauto]. unfold finish in E. destruct (d_err f1); injection E as <- _ _; exact K1.
Qed.

(** With the underlying file at the block of [offset] the decrypter comes to the range. *)
Lemma seek_to_spec (fh : decrypter R) rc q (k : nat) d offset limit : d_key fh = key -> d_passBadBlocks fh = pass -> d_err fh = None -> d_rc fh = Some rc -> on rc (encrypted key n0 data) ->
  d_initialNonce fh = n0 -> (exists open, d_open fh = Some open /\ opens open (encrypted key n0 data)) ->
  d_nonce fh = nonce_at n0 q -> holds rc (sealed key (nonce_at n0 q) ((if limit <? 0 then fun l => l else firstn (k * blockDataSize)) (skipn (q * blockDataSize) data))) EOF ->
  offset = Z.of_nat (q * blockDataSize) + d -> 0 <= d < Z.of_nat blockDataSize -> (0 < k)%nat -> (0 <= limit -> d + limit <= Z.of_nat (k * blockDataSize)) ->
  offset < Z.of_nat (length data) ->
  exists fh', seek_to fh offset limit d = Ret (fh', offset, None) /\ decrypts fh' /\ holds (GoodSource := decrypter_good key pass) fh' (cut offset limit data) EOF.
Proof.
  intros Hkey Hpass Herr Hrc Hon Hin Hopen Hn Hb Eo Hd Hk Hl Hlen. unfold seek_to. set (l := (if limit <? 0 then _ else _) _) in Hb.
  assert (Hread : readable key (d_nonce fh) (sealed key (nonce_at n0 q) l) EOF) by (left; auto).
  assert (Hd0 : decrypts fh) by (split; [auto |]; split; [auto |]; split; [auto |]; split; [auto | exists rc; auto]).
  assert (Hlq : Z.of_nat (length (skipn (q * blockDataSize) data)) = Z.of_nat (length data) - Z.of_nat (q * blockDataSize)) by (rewrite length_skipn; lia).
  assert (Hll : d < Z.of_nat (length l)).
  { unfold l. destruct (limit <? 0); [lia |]. rewrite length_firstn. assert (blockDataSize <= k * blockDataSize)%nat by nia. lia. }
  assert (Hl0 : l <> []) by (intros E; rewrite E in Hll; cbn in Hll; lia).
  destruct (fillBuffer_spec key pass fh rc _ EOF Hkey Hpass Hrc Hb Hread) as (rc' & [[_ Ho]|(buf & m & b' & E & Hm & Hbuf & Hb' & Hread' & Ho & Eb' & Hob)]).
  { rewrite Hn, opened_sealed in Ho. now cbn in Ho. }
  assert (Hfo := fillBuffer_on _ _ _ Hd0 E). rewrite E. cbn [bind]. clear E. cbn [set_nonce set_buf set_rc d_bufSize d_buf].
  assert (Em : m = firstn blockDataSize l).
  { assert (E1 := sealed_firstn 1 (nonce_at n0 q) l). rewrite !Nat.mul_1_l in E1. rewrite Hn, E1 in Hob. 
    assert (Hf0 : firstn blockDataSize l <> []) by (assert (Hp := blockDataSize_pos); destruct l; [congruence |]; destruct blockDataSize; [lia | discriminate]).
    rewrite sealed_short in Hob by (auto; rewrite length_firstn; lia). unfold open_block in Hob. rewrite Open_Seal in Hob. congruence. }
  assert (Hdm : d <= Z.of_nat (length m)) by (rewrite Em, length_firstn; lia). destruct (Z.gtb_spec d (Z.of_nat (length m))); [lia |].
  eexists. split; [reflexivity |]. split; [exact Hfo |]. split; [exact Hkey |]. split; [exact Hpass |]. left.
  cbn [set_limit set_buf set_nonce set_rc d_err d_bufIndex d_bufSize d_buf d_rc d_nonce d_limit]. splits; auto; try lia.
  exists rc', b', EOF. splits; auto; [| ].
  { right. left. rewrite Em, length_firstn. lia. }
  assert (Eall : m ++ fst (opened key pass (increment (d_nonce fh)) b') = l /\ snd (opened key pass (increment (d_nonce fh)) b') = None).
  { rewrite Hn, opened_sealed in Ho. injection Ho as E1 E2. split; [symmetry |]; rewrite Hn; auto. }
  destruct Eall as [Eall ->]. cbn [end_error].
  assert (Efull : in_buf (set_limit limit (set_buf buf d (Z.of_nat (length m)) (set_nonce (increment (d_nonce fh)) (set_buf buf 0 (Z.of_nat (length m)) (set_rc (Some rc') fh))))) ++
    fst (opened key pass (increment (d_nonce fh)) b') = skipn (Z.to_nat d) l).
  { unfold in_buf. cbn [set_limit set_buf d_bufIndex d_bufSize d_buf]. rewrite <- Eall, skipn_app. replace (Z.to_nat d - length m)%nat with 0%nat by lia. cbn [skipn]. f_equal.
    rewrite <- Hbuf at 2. rewrite skipn_firstn_comm. f_equal. lia. }
  rewrite Efull. unfold limited, cut. assert (Eoff : Z.to_nat offset = (Z.to_nat d + q * blockDataSize)%nat) by lia. rewrite Eoff.
  unfold l. destruct (Z.ltb_spec limit 0).
  - left. splits; auto. rewrite skipn_skipn. reflexivity.
  - right. splits; auto; [| destruct (_ <=? _); auto]. rewrite skipn_firstn_comm, skipn_skipn, firstn_firstn. f_equal. lia.
Qed.

(** The nonce of the file *)
Context (Hn0 : is_nonce n0).

(** The bytes of the underlying file that a seek opens are whole blocks. *)
Lemma cut_blocks q k limit : cut (Z.of_nat (fileHeaderSize + q * blockSize)) (if limit <? 0 then -1 else Z.of_nat (k * blockSize)) (encrypted key n0 data) =
  sealed key (nonce_at n0 q) ((if limit <? 0 then fun l => l else firstn (k * blockDataSize)) (skipn (q * blockDataSize) data)).
Proof.
  unfold cut. rewrite Nat2Z.id, Nat.add_comm, <- skipn_skipn, (proj2 (encrypted_header n0 data (proj2 Hn0))), sealed_skip.
  destruct (Z.ltb_spec limit 0); [reflexivity |]. destruct (Z.ltb_spec (Z.of_nat (k * blockSize)) 0); [lia |]. now rewrite Nat2Z.id, sealed_firstn.
Qed.

Lemma seek_underlying_spec (fh : decrypter R) open offset limit : decrypts fh -> d_err fh = None -> d_open fh = Some open -> 0 <= offset < Z.of_nat (length data) ->
  offset < 2 ^ 62 -> limit < 2 ^ 62 ->
  exists fh', seek_underlying fh open offset limit = Ret (fh', offset, None) /\ decrypts fh' /\ holds (GoodSource := decrypter_good key pass) fh' (cut offset limit data) EOF.
Proof.
  intros (Hkey & Hpass & Hin & (open' & Ho' & Hop) & rc & Hrc & Hon) Herr Hopen Ho H62 Hl62. rewrite Hopen in Ho'. injection Ho' as <-. unfold seek_underlying.
  destruct (calculateUnderlying_spec offset limit) as (q & k & d & -> & Eo & Hd & Hk & Hlim); [lia | lia |].
  assert (Hq64 : Z.of_nat q < 2 ^ 62) by (assert (Z.of_nat q <= Z.of_nat (q * blockDataSize)) by (assert (Hp := blockDataSize_pos); nia); lia).
  rewrite Z.mod_small by lia. rewrite Hin. rewrite <- nat_N_Z, N2Z.id, add_nonce_at by (auto; lia). cbn [bind].
  assert (Hoff : 0 <= Z.of_nat (fileHeaderSize + q * blockSize)) by lia. assert (Ecut := cut_blocks q k limit).
  cbn [set_nonce d_rc]. rewrite Hrc. destruct range_seek as [f|] eqn:Ef.
  - destruct (on_seek f rc _ (Z.of_nat (fileHeaderSize + q * blockSize)) (if limit <? 0 then -1 else Z.of_nat (k * blockSize)) Ef Hon Hoff) as (rc' & -> & Hon' & Hrd).
    cbn [bind]. rewrite Ecut in Hrd. apply (seek_to_spec _ rc' q k); auto; try lia. exists open. auto.
  - destruct (Hop (Z.of_nat (fileHeaderSize + q * blockSize)) (if limit <? 0 then -1 else Z.of_nat (k * blockSize)) Hoff) as (rc' & -> & Hon' & Hrd).
    rewrite Ecut in Hrd. apply (seek_to_spec _ rc' q k); auto; try lia. exists open. auto.
Qed.

(** A seek inside the file, from any state in which the decrypter can be *)
Lemma RangeSeek_spec (fh : decrypter R) c offset limit : decrypts fh -> holds (GoodSource := decrypter_good key pass) fh c EOF ->
  0 <= offset < Z.of_nat (length data) -> offset < 2 ^ 62 -> limit < 2 ^ 62 ->
  exists fh', RangeSeek fh offset true limit = Ret (fh', offset, None) /\ decrypts fh' /\ holds (GoodSource := decrypter_good key pass) fh' (cut offset limit data) EOF.
Proof.
  intros Hd (_ & _ & He) Ho H62 Hl62. unfold RangeSeek. assert (Hd2 := Hd). destruct Hd2 as (_ & _ & _ & (open & Hopen & _) & _). rewrite Hopen. cbn [negb].
  destruct He as [(Herr & _)|[Herr _]]; rewrite Herr; [now apply seek_underlying_spec |]. cbn [is_EOF].
  apply seek_underlying_spec; auto.
Qed.

Lemma set_limit_same (fh : decrypter R) : set_limit (d_limit fh) fh = fh.
Proof. now destruct fh. Qed.

(** [newDecrypter] on a handle that has the header and some blocks of the file *)
Lemma newDecrypter_on open rc l : opens open (encrypted key n0 data) -> on rc (encrypted key n0 data) -> holds rc (fileMagic ++ n0 ++ sealed key n0 l) EOF -> exists fh,
  newDecrypter key pass rc = Ret (inl fh) /\ decrypts (set_open (Some open) fh) /\ holds (GoodSource := decrypter_good key pass) (set_open (Some open) fh) l EOF /\
  forall limit, 0 <= limit -> holds (GoodSource := decrypter_good key pass) (set_limit limit (set_open (Some open) fh)) (firstn (Z.to_nat limit) l) EOF.
Proof.
  intros Hop Hon Hrd. destruct (newDecrypter_holds key pass rc n0 _ EOF (proj2 Hn0) Hrd (or_introl eq_refl)) as (fh & E & _ & F1 & F2 & F3 & F4 & F5 & F6 & F7 & F8 & rc' & F9 & F10).
  assert (Hon' : on rc' (encrypted key n0 data) /\ d_limit fh = -1).
  { unfold newDecrypter in E. destruct (ReadFill rc fileHeaderSize) as [[[r1 p1] e1]| | |] eqn:Er; try discriminate. cbn [bind] in E.
    assert (K := ReadFill_on _ _ _ _ _ _ Hon Er). destruct (_ && _); [discriminate |]. destruct (pending e1); [discriminate |].
    destruct (list_eq_dec _ _ _); [| discriminate]. destruct (negb _); [discriminate |]. injection E as <-. cbn in F9. split; [congruence | reflexivity]. }
  destruct Hon' as [Hon' El].
  assert (Hh : forall lim, holds (GoodSource := decrypter_good key pass) (set_limit lim (set_open (Some open) fh)) (if lim <? 0 then l else firstn (Z.to_nat lim) l) EOF).
  { intros lim. split; [exact F5 |]. split; [exact F6 |]. left.
    cbn [set_limit set_open d_err d_bufIndex d_bufSize d_buf d_rc d_nonce d_limit]. rewrite F4, F7, F8. splits; auto; try lia.
    exists rc', (sealed key n0 l), EOF. splits; auto; [left; auto | right; right; split; [auto | apply sealed_authentic] |].
    assert (Eb : in_buf (set_limit lim (set_open (Some open) fh)) = []) by (unfold in_buf; cbn [set_limit set_open d_bufSize d_bufIndex]; rewrite F7, F8; reflexivity).
    rewrite Eb, opened_sealed. cbn [app fst snd end_error]. unfold limited. destruct (Z.ltb_spec lim 0); [left | right]; splits; auto. destruct (_ <=? _); auto. }
  exists fh. split; [exact E |]. split; [| split].
  - split; [auto |]. split; [auto |]. split; [auto |]. split; [exists open; auto | exists rc'; auto].
  - specialize (Hh (-1)). cbn [Z.ltb Z.compare] in Hh. rewrite <- El in Hh. exact (eq_rect _ (fun f => holds f l EOF) Hh _ (set_limit_same (set_open (Some open) fh))).
  - intros lim Hl. specialize (Hh lim). destruct (Z.ltb_spec lim 0); [lia | exact Hh].
Qed.

(** [newDecrypterSeek] comes to the range: from the start of any file, or from a byte in it. *)
Lemma newDecrypterSeek_spec open offset limit : opens open (encrypted key n0 data) -> (offset = 0 \/ 0 < offset < Z.of_nat (length data)) -> offset < 2 ^ 62 -> limit < 2 ^ 62 ->
  exists fh, newDecrypterSeek key pass open offset limit = Ret (inl fh) /\ decrypts fh /\ holds (GoodSource := decrypter_good key pass) fh (cut offset limit data) EOF.
Proof.
  intros Hop Ho H62 Hl62. unfold newDecrypterSeek.
  assert (Henc : forall m : nat, firstn (fileHeaderSize + m) (encrypted key n0 data) = fileMagic ++ n0 ++ firstn m (sealed key n0 data)).
  { intros m. rewrite firstn_add. destruct (encrypted_header n0 data (proj2 Hn0)) as [-> ->]. now rewrite <- app_assoc. }
  destruct (Z.eqb_spec offset 0) as [->|Hne]; [destruct (Z.ltb_spec limit 0) as [Hl|Hl] |]; cbn [andb].
  - destruct (Hop 0 (-1)) as (rc & -> & Hon & Hrd); [lia |]. destruct (newDecrypter_on open rc data Hop Hon Hrd) as (fh & -> & Hd & Hh & _). cbn [bind].
    eexists. split; [reflexivity |]. split; [exact Hd |]. unfold cut. replace (limit <? 0) with true by (symmetry; apply Z.ltb_lt; lia). exact Hh.
  - destruct (calculateUnderlying_spec 0 limit) as (q & k & d & -> & Eo & Hd & Hk & Hlim & Hsz); [lia | lia |]. replace (limit <? 0) with false by (symmetry; apply Z.ltb_ge; lia).
    specialize (Hlim Hl). assert (Eh : Z.of_nat fileHeaderSize = 32) by reflexivity. rewrite Eh, wrap64_small by lia. destruct (Hop 0 (32 + Z.of_nat (k * blockSize))) as (rc & -> & Hon & Hrd); [lia |].
    unfold cut in Hrd. destruct (Z.ltb_spec (32 + Z.of_nat (k * blockSize)) 0); [lia |]. replace (Z.to_nat (32 + Z.of_nat (k * blockSize))) with (fileHeaderSize + k * blockSize)%nat in Hrd by lia.
    cbn [Z.to_nat skipn] in Hrd. rewrite Henc, sealed_firstn in Hrd.
    destruct (newDecrypter_on open rc _ Hop Hon Hrd) as (fh & -> & Hd' & _ & Hh). cbn [bind]. eexists. split; [reflexivity |]. split; [exact Hd' |].
    specialize (Hh limit Hl). rewrite firstn_firstn, Nat.min_l in Hh by lia. unfold cut. destruct (Z.ltb_spec limit 0); [lia | exact Hh].
  - destruct (Hop 0 (Z.of_nat fileHeaderSize)) as (rc & -> & Hon & Hrd); [lia |]. unfold cut in Hrd. cbn [Z.to_nat skipn] in Hrd.
    destruct (Z.ltb_spec (Z.of_nat fileHeaderSize) 0); [lia |]. rewrite Nat2Z.id in Hrd. assert (Hrd0 := Henc 0%nat). rewrite Nat.add_0_r in Hrd0. rewrite Hrd0 in Hrd.
    destruct (newDecrypter_on open rc [] Hop Hon Hrd) as (fh & -> & Hd & Hh & _). cbn [bind].
    destruct (RangeSeek_spec (set_open (Some open) fh) [] offset limit Hd Hh) as (fh' & -> & Hd' & Hh'); [lia | lia | lia |]. cbn [bind]. exists fh'. auto.
Qed.
End On.
End Seek.
