(* ===== verification/CryptTheorems.v ===== *)
(** * The properties of the crypt backend's streams *)
From Stdlib Require Import List Arith NArith ZArith Lia Bool.
From S2P Require Import Prelude Crypt CryptStream CryptSeek.
Import ListNotations.

(** ** Encrypting and decrypting on the fly *)

(** An encrypter can be read and closed, not sought in. *)
#[export] Instance encrypter_handle {R} `{Secretbox} `{Source R} : Handle (encrypter R) := {| close := fun _ => None; range_seek := None |}.

(** A sequence of calls of [Read]: the bytes and the error of each *)
Fixpoint reads {R} `{Source R} (r : R) (ns : list nat) : outcome Empty_set (R * list (list N * option cryptError)) :=
  match ns with
  | [] => Ret (r, [])
  | n :: ns => '(r, p, err) <- read_from r n ;; '(r, outs) <- reads r ns ;; Ret (r, (p, err) :: outs)
  end.

(** What reads of a stream [l] that ends with [e] may return: at least a byte, up to
    [n], or with or after the last bytes the error; [rest] is what is left after them. *)
Inductive stream_reads (e : cryptError) (rest : list N) : list N -> list nat -> list (list N * option cryptError) -> Prop :=
| reads_done : stream_reads e rest rest [] []
| reads_next l n k err ns outs : k <= n -> (err = None /\ 0 < k <= length l) \/ (err = Some e /\ k = length l) ->
    stream_reads e rest (skipn k l) ns outs -> stream_reads e rest l (n :: ns) ((firstn k l, err) :: outs).

(** A reader that gives [l] and then [e]: any sequence of reads gives the next bytes of
    [l] each time, and from there [ReadFill] fills any buffer with what is left. *)
Definition streams {R} `{Source R} (r : R) (l : list N) (e : cryptError) : Prop :=
  forall ns, Forall (lt 0) ns -> exists r' outs rest, reads r ns = Ret (r', outs) /\ stream_reads e rest l ns outs /\ concat (map fst outs) ++ rest = l /\
    forall len, exists r'' err, ReadFill r' len = Ret (r'', firstn len rest, err) /\ (length rest < len -> err = Some e).

Lemma holds_streams {R} `{GoodSource R} (r : R) l e : holds r l e -> streams r l e.
Proof.
  intros Hr ns Hns. revert r l Hr. induction Hns as [|n ns Hn _ IH]; intros r l Hr.
  - exists r, [], l. split; [reflexivity |]. split; [constructor |]. split; [reflexivity |]. intros len. destruct (ReadFill_spec r l e len Hr) as (r' & err & E & _ & Herr).
    exists r', err. split; [exact E |]. intros Hlt. destruct Herr as [[_ Herr]|[Herr _]]; [lia | exact Herr].
  - destruct (holds_read r l e n Hr Hn) as (r1 & k & err & E & Hk & Hr1 & Herr). destruct (IH r1 (skipn k l) Hr1) as (r' & outs & rest & E' & Hs & Hc & Hfill).
    exists r', ((firstn k l, err) :: outs), rest. cbn [reads]. rewrite E. cbn [bind]. rewrite E'. split; [reflexivity |]. split; [now constructor |]. split; [| exact Hfill].
    cbn [map fst concat]. now rewrite <- app_assoc, Hc, firstn_skipn.
Qed.

(** C13: an encrypter with a nonce from [cryptoRand] is a stream of the encrypted file,
    and a decrypter over it is a stream of the data that ends with the error the data
    ended with: every sequence of reads of any sizes gives the next bytes each time,
    none lost or repeated, and what is left is there for the reads that follow. *)
Theorem Crypt_round_trip `{GoodSecretbox} {R Rand} `{GoodSource R} `{GoodSource Rand} key pass (r : R) (cryptoRand : Rand) data e n random er :
  length n = fileNonceSize -> holds cryptoRand (n ++ random) er -> holds r data e -> e = EOF \/ data <> [] ->
  exists cryptoRand' w, newEncrypter key cryptoRand r None = Ret (cryptoRand', inl w) /\ streams w (encrypted key n data) e /\
  exists fh, newDecrypter key pass w = Ret (inl fh) /\ streams fh data e.
Proof.
  intros Hn Hrand Hr He. set (Henc := encrypter_good (R := R) key). assert (Hh := encrypter_with_holds key r data e n Hn Hr).
  destruct (ReadFill_spec cryptoRand (n ++ random) er fileNonceSize Hrand) as (rand' & err & Erand & _). rewrite firstn_app, Hn, Nat.sub_diag, app_nil_r, firstn_all2 in Erand by lia.
  exists rand', (encrypter_with key r n). unfold newEncrypter, nonce_fromReader. rewrite Erand. cbn [bind]. rewrite Hn, Nat.eqb_refl.
  split; [reflexivity |]. split; [exact (holds_streams (encrypter_with key r n) _ _ Hh) |].
  destruct (newDecrypter_holds key pass (encrypter_with key r n) n (sealed key n data) e Hn) as (fh & E & Hd & _).
  - exact Hh.
  - destruct He as [He|He]; [left; auto | right]. split; [| apply sealed_authentic]. rewrite sealed_cons by auto. intros E. assert (K := f_equal (@length N) E).
    rewrite length_app, Seal_length in K. discriminate K.
  - exists fh. split; [exact E |]. rewrite opened_sealed in Hd. cbn [fst snd end_error] in Hd. exact (holds_streams (H0 := decrypter_good key pass) fh _ _ Hd).
Qed.

(** A box that only puts the nonce before the message *)
#[local] Instance box0 : Secretbox := {|
  Seal := fun m n k => firstn 16 (n ++ repeat 0%N 16) ++ m;
  Open := fun b n k => if list_eq_dec N.eq_dec (firstn 16 b) (firstn 16 (n ++ repeat 0%N 16)) then if 16 <=? length b then Some (skipn 16 b) else None else None
|}.

Lemma tag0_length n : length (firstn 16 (n ++ repeat 0%N 16)) = 16.
Proof. rewrite firstn_length_le; [auto |]. rewrite length_app, repeat_length. lia. Qed.

#[local] Instance box0_good : GoodSecretbox.
Proof.
  split.
  - intros m n k. cbn [Seal box0]. rewrite length_app, tag0_length. reflexivity.
  - intros m n k. cbn [Seal Open box0]. assert (E := tag0_length n). set (t := firstn 16 (n ++ repeat 0%N 16)) in *. clearbody t.
    rewrite firstn_app, skipn_app, firstn_all2, skipn_all2, E, Nat.sub_diag, app_nil_r by lia. destruct (list_eq_dec N.eq_dec t t); [| congruence].
    rewrite (proj2 (Nat.leb_le 16 _)) by (rewrite length_app; lia). reflexivity.
  - intros b n k m. cbn [Open box0]. destruct (list_eq_dec _ _ _); [| discriminate]. destruct (Nat.leb_spec 16 (length b)); [| discriminate].
    intros E. assert (Em : m = skipn 16 b) by congruence. rewrite Em, length_skipn. unfold blockHeaderSize. lia.
Qed.

Definition nonce0 : nonce := map N.of_nat (seq 1 24).

Lemma nonce0_ok : is_nonce nonce0.
Proof. split; [repeat constructor | reflexivity]. Qed.

Definition rand0 : memory := Mem 4 (nonce0 ++ [1; 2]%N) EOF.
Definition data0 : list N := [7; 8; 9]%N.

Lemma Crypt_round_trip_witness : exists cryptoRand' w, newEncrypter [] rand0 (Mem 2 data0 EOF) None = Ret (cryptoRand', inl w) /\
  streams w (encrypted [] nonce0 data0) EOF /\ exists fh, newDecrypter [] false w = Ret (inl fh) /\ streams fh data0 EOF.
Proof.
  apply (Crypt_round_trip [] false (Mem 2 data0 EOF) rand0 data0 EOF nonce0 [1; 2]%N EOF); [reflexivity | split; reflexivity | split; reflexivity | left; reflexivity].
Defined.

(** ** Reads and seeks *)

Inductive file_op : Type := ReadOp (n : nat) | SeekOp (offset limit : Z).

(** What the calls return: the bytes and the error *)
Fixpoint run {R} `{Secretbox} `{Handle R} (fh : decrypter R) (ops : list file_op) : outcome Empty_set (list (list N * option cryptError)) :=
  match ops with
  | [] => Ret []
  | ReadOp n :: ops => '(fh, p, err) <- d_Read fh n ;; outs <- run fh ops ;; Ret ((p, err) :: outs)
  | SeekOp offset limit :: ops => '(fh, _, err) <- RangeSeek fh offset true limit ;; outs <- run fh ops ;; Ret (([], err) :: outs)
  end.

(** The same on the decrypted file: [c] is what is left of the range. *)
Inductive file_runs (data : list N) : list N -> list file_op -> list (list N * option cryptError) -> Prop :=
| runs_done c : file_runs data c [] []
| runs_read c n k err ops outs : k <= n -> (err = None /\ 0 < k <= length c) \/ (err = Some EOF /\ k = length c) ->
    file_runs data (skipn k c) ops outs -> file_runs data c (ReadOp n :: ops) ((firstn k c, err) :: outs)
| runs_seek c offset limit ops outs : file_runs data (cut offset limit data) ops outs -> file_runs data c (SeekOp offset limit :: ops) (([], None) :: outs).

(** Reads of at least a byte and seeks to a byte of the file *)
Definition good_op (data : list N) (op : file_op) : Prop :=
  match op with
  | ReadOp n => 0 < n
  | SeekOp offset limit => (0 <= offset < Z.of_nat (length data))%Z /\ (offset < 2 ^ 62)%Z /\ (limit < 2 ^ 62)%Z
  end.

(** C14: a decrypter opened at a range of an encrypted file behaves as that range of
    the decrypted file, in any sequence of reads and seeks. *)
Theorem Crypt_seek_refines `{GoodSecretbox} {R} `{GoodHandle R} key pass n data open offset limit ops : is_nonce n -> opens open (encrypted key n data) ->
  (offset = 0 \/ 0 < offset < Z.of_nat (length data))%Z -> (offset < 2 ^ 62)%Z -> (limit < 2 ^ 62)%Z -> Forall (good_op data) ops ->
  exists fh outs, newDecrypterSeek key pass open offset limit = Ret (inl fh) /\ run fh ops = Ret outs /\ file_runs data (cut offset limit data) ops outs.
Proof.
  intros Hn Hop Ho H62 Hl62 Hops. destruct (newDecrypterSeek_spec key pass n data Hn open offset limit Hop Ho H62 Hl62) as (fh & E & Hd & Hh).
  exists fh. cut (exists outs, run fh ops = Ret outs /\ file_runs data (cut offset limit data) ops outs); [intros (outs & K); exists outs; split; [exact E | exact K] |].
  clear E. revert fh Hd Hh. generalize (cut offset limit data). induction Hops as [|op ops Hok _ IH]; intros c fh Hd Hh; cbn [run].
  - exists []. split; [auto | constructor].
  - destruct op as [m|off lim].
    + destruct (d_Read_spec key pass fh c EOF m Hh Hok) as (fh' & k & err & E & Hk & Hh' & Herr). rewrite E. cbn [bind].
      destruct (IH (skipn k c) fh') as (outs & -> & Hruns); [exact (d_Read_on key pass n data fh m fh' _ _ Hd E) | exact Hh' |].
      cbn [bind]. eexists. split; [reflexivity |]. now constructor.
    + destruct Hok as (Hoff & Hoff2 & Hlim). destruct (RangeSeek_spec key pass n data Hn fh c off lim Hd Hh Hoff Hoff2 Hlim) as (fh' & -> & Hd' & Hh'). cbn [bind].
      destruct (IH (cut off lim data) fh' Hd' Hh') as (outs & -> & Hruns). cbn [bind]. eexists. split; [reflexivity |]. now constructor.
Qed.

(** A handle on an object in memory, which has to be opened again for a seek *)
Record mem_handle : Type := MemHandle { mh_obj : list N; mh_reader : memory }.

#[local] Instance mem_handle_source : Source mem_handle := fun h n => '(r, p, err) <- read_from (mh_reader h) n ;; Ret (MemHandle (mh_obj h) r, p, err).
#[local] Instance mem_handle_handle : Handle mem_handle := {| close := fun _ => None; range_seek := None |}.
#[local] Instance mem_handle_good : GoodSource mem_handle.
Proof.
  exists (fun h l e => holds (mh_reader h) l e). intros h l e n Hh Hn. unfold read_from, mem_handle_source.
  destruct (holds_read (mh_reader h) l e n Hh Hn) as (r' & k & err & -> & K). cbn [bind]. eexists _, k, err. split; [reflexivity |]. exact K.
Defined.

#[local] Instance mem_handle_on : GoodHandle mem_handle.
Proof.
  exists (fun h obj => mh_obj h = obj).
  - intros h obj n r' p err Hh E. unfold read_from, mem_handle_source in E. destruct (memory_source (mh_reader h) n) as [[[r1 p1] e1]| | |] eqn:Er; unfold read_from in E; rewrite Er in E; try discriminate.
    cbn [bind] in E. injection E as <- _ _. exact Hh.
  - intros f r obj offset limit E. discriminate E.
Defined.

Definition mem_open (step : nat) (obj : list N) (offset limit : Z) : mem_handle + cryptError := inl (MemHandle obj (Mem step (cut offset limit obj) EOF)).

Lemma mem_opens step obj : opens (mem_open step obj) obj.
Proof. intros offset limit _. eexists. split; [reflexivity |]. split; [reflexivity |]. split; reflexivity. Qed.

Definition ops0 : list file_op := [ReadOp 1; SeekOp 1 2; ReadOp 5; ReadOp 5; SeekOp 0 (-1); ReadOp 2].

Lemma Crypt_seek_refines_witness : exists fh outs, newDecrypterSeek [] false (mem_open 9 (encrypted [] nonce0 [7; 8; 9; 10]%N)) 2 1 = Ret (inl fh) /\
  run fh ops0 = Ret outs /\ file_runs [7; 8; 9; 10]%N (cut 2 1 [7; 8; 9; 10]%N) ops0 outs.
Proof.
  apply (Crypt_seek_refines [] false nonce0 [7; 8; 9; 10]%N (mem_open 9 (encrypted [] nonce0 [7; 8; 9; 10]%N)) 2 1 ops0);
    [apply nonce0_ok | apply mem_opens | right; cbn; lia | lia | lia | repeat constructor; cbn; lia].
Defined.

(** ** Damaged files *)

Section Damaged.
Context `{GoodSecretbox}.
Context (key : list N) (pass : bool).

(** Whole blocks before [b] *)
Lemma opened_after j : forall n l b, length l = j * blockDataSize ->
  opened key pass n (sealed key n l ++ b) = (l ++ fst (opened key pass (nonce_at n j) b), snd (opened key pass (nonce_at n j) b)).
Proof.
  assert (Hp := blockDataSize_pos). assert (Hs := blockSize_eq). induction j as [|j IH]; intros n l b Hl.
  - destruct l; [| discriminate]. rewrite sealed_nil. cbn [app nonce_at]. now destruct (opened _ _ _ _).
  - assert (Hl0 : l <> []) by (intros ->; cbn in Hl; lia). rewrite (sealed_cons key n l Hl0), <- app_assoc.
    assert (Hm : length (firstn blockDataSize l) = blockDataSize) by (apply firstn_length_le; lia). assert (HS := Seal_length (firstn blockDataSize l) n key).
    set (blk := Seal _ _ _) in *. assert (Hb0 : blk ++ sealed key (increment n) (skipn blockDataSize l) ++ b <> []) by (destruct blk; [cbn in HS; unfold blockHeaderSize in HS; lia | discriminate]).
    rewrite (opened_cons key pass n _ Hb0). cbn zeta. rewrite firstn_app, skipn_app, (firstn_all2 blk), (skipn_all2 blk) by lia. replace (blockSize - length blk) with 0 by lia. cbn [firstn skipn app]. rewrite app_nil_r.
    replace (length blk <=? blockHeaderSize) with false by (symmetry; apply Nat.leb_gt; lia). unfold open_block, blk. rewrite Open_Seal. cbn [nonce_at].
    rewrite IH by (rewrite length_skipn; lia). cbn [fst snd]. now rewrite app_assoc, firstn_skipn.
Qed.

(** One more block [blk], which is not authentic, and others after it *)
Lemma opened_bad j n l blk b : length l = j * blockDataSize -> blockHeaderSize < length blk -> length blk = blockSize \/ (length blk <= blockSize /\ b = []) -> Open blk (nonce_at n j) key = None ->
  opened key pass n (sealed key n l ++ blk ++ b) =
  if pass then (l ++ repeat 0%N (length blk - blockHeaderSize) ++ fst (opened key pass (nonce_at n (S j)) b), snd (opened key pass (nonce_at n (S j)) b))
  else (l, Some ErrorEncryptedBadBlock).
Proof.
  intros Hl Hlen Hb Hbad. rewrite (opened_after j) by auto. assert (Hb0 : blk ++ b <> []) by (destruct blk; [cbn in Hlen; lia | discriminate]).
  rewrite (opened_cons key pass _ _ Hb0). cbn zeta.
  assert (Hcut : firstn blockSize (blk ++ b) = blk /\ skipn blockSize (blk ++ b) = b).
  { destruct Hb as [Hb|[Hb ->]]; [rewrite <- Hb, firstn_app, skipn_app, firstn_all, skipn_all, Nat.sub_diag, app_nil_r; auto |].
    rewrite app_nil_r, firstn_all2, skipn_all2 by lia. auto. }
  destruct Hcut as [-> ->]. replace (length blk <=? blockHeaderSize) with false by (symmetry; apply Nat.leb_gt; lia).
  unfold open_block. rewrite Hbad. replace (increment (nonce_at n j)) with (nonce_at n (S j)) by (clear; revert n; induction j as [|j IH]; intros n; cbn; [auto | apply IH]).
  destruct pass; cbn [fst snd]; [auto | now rewrite app_nil_r].
Qed.
End Damaged.

(** The encrypted file with the block number [j] replaced *)
Definition with_block `{Secretbox} (key : list N) (n : nonce) (data : list N) (j : nat) (blk : list N) : list N :=
  fileMagic ++ n ++ firstn (j * blockSize) (sealed key n data) ++ blk ++ skipn (S j * blockSize) (sealed key n data).

(** C36: if a block is replaced by bytes that the box does not open, the bytes of the
    blocks before it are given and then an error; with [passBadBlocks] zeros take its
    place and the rest of the file is given. *)
Theorem Crypt_bad_block `{GoodSecretbox} {R} `{GoodSource R} key pass (rc : R) n data j blk : length n = fileNonceSize -> j * blockDataSize < length data ->
  length blk = blockHeaderSize + Nat.min blockDataSize (length data - j * blockDataSize) -> Open blk (nonce_at n j) key = None ->
  holds rc (with_block key n data j blk) EOF ->
  exists fh, newDecrypter key pass rc = Ret (inl fh) /\
    if pass then
      holds (GoodSource := decrypter_good key pass) fh
        (firstn (j * blockDataSize) data ++ repeat 0%N (Nat.min blockDataSize (length data - j * blockDataSize)) ++ skipn (S j * blockDataSize) data) EOF
    else holds (GoodSource := decrypter_good key pass) fh (firstn (j * blockDataSize) data) ErrorEncryptedBadBlock.
Proof.
  intros Hn Hj Hlen Hbad Hrc. unfold with_block in Hrc. destruct (newDecrypter_holds key pass rc n _ EOF Hn Hrc (or_introl eq_refl)) as (fh & E & Hh & _). exists fh. split; [exact E |].
  assert (Hp := blockDataSize_pos). assert (Hs := blockSize_eq). rewrite sealed_firstn, sealed_skip in Hh.
  assert (Hlj : length (firstn (j * blockDataSize) data) = j * blockDataSize) by (apply firstn_length_le; lia).
  rewrite (opened_bad key pass j) in Hh; auto; [| lia |].
  - rewrite opened_sealed in Hh. cbn [fst snd] in Hh. replace (length blk - blockHeaderSize) with (Nat.min blockDataSize (length data - j * blockDataSize)) in Hh by lia.
    destruct pass; cbn [fst snd end_error] in Hh; auto.
  - destruct (Nat.le_ge_cases blockDataSize (length data - j * blockDataSize)); [left; lia | right]. split; [lia |]. rewrite skipn_all2 by lia. apply sealed_nil.
Qed.

Lemma Crypt_bad_block_witness : exists fh, newDecrypter [] false (Mem 2 (with_block [] nonce0 data0 0 (repeat 0%N 19)) EOF) = Ret (inl fh) /\
  holds (GoodSource := decrypter_good (R := memory) [] false) fh (firstn (0 * blockDataSize) data0) ErrorEncryptedBadBlock.
Proof.
  assert (Hp := blockDataSize_pos). apply (Crypt_bad_block [] false (Mem 2 (with_block [] nonce0 data0 0 (repeat 0%N 19)) EOF) nonce0 data0 0 (repeat 0%N 19));
    [reflexivity | cbn; lia | | reflexivity | split; reflexivity].
  rewrite repeat_length, Nat.min_r; [reflexivity |]. cbn [data0 length Nat.mul Nat.sub]. assert (K := blockDataSize_Z). lia.
Defined.

(** A file that is cut off at the end of a block is decrypted without an error,
    to the data before the cut; a cut in the 16 bytes before a block's data is noticed. *)
Theorem Crypt_truncated `{GoodSecretbox} {R} `{GoodSource R} key pass (rc : R) n data j cut_off : length n = fileNonceSize -> cut_off <= blockHeaderSize ->
  j * blockSize + cut_off <= length (sealed key n data) -> holds rc (firstn (fileHeaderSize + j * blockSize + cut_off) (encrypted key n data)) EOF ->
  exists fh, newDecrypter key pass rc = Ret (inl fh) /\
    holds (GoodSource := decrypter_good key pass) fh (firstn (j * blockDataSize) data) (if cut_off =? 0 then EOF else ErrorEncryptedFileBadHeader).
Proof.
  intros Hn Hc Hlen Hrc. assert (Hp := blockDataSize_pos). assert (Hs := blockSize_eq). destruct (encrypted_header key n data Hn) as [Eh Es].
  rewrite <- Nat.add_assoc, firstn_add, Eh, Es, firstn_add, sealed_firstn, sealed_skip, <- app_assoc in Hrc.
  destruct (newDecrypter_holds key pass rc n _ EOF Hn Hrc (or_introl eq_refl)) as (fh & E & Hh & _). exists fh. split; [exact E |]. clear E Hrc.
  set (t := firstn cut_off (sealed key (nonce_at n j) (skipn (j * blockDataSize) data))) in *.
  assert (Ht : length t = cut_off).
  { unfold t. rewrite <- sealed_skip, length_firstn, length_skipn. lia. }
  destruct (Nat.eqb_spec cut_off 0) as [->|Hne].
  - destruct t; [| discriminate]. rewrite app_nil_r, opened_sealed in Hh. exact Hh.
  - assert (Hlj : length (firstn (j * blockDataSize) data) = j * blockDataSize).
    { apply firstn_length_le. destruct (Nat.le_gt_cases (j * blockDataSize) (length data)) as [|Hgt]; [auto |]. exfalso.
      unfold t in Ht. rewrite (skipn_all2 (n := j * blockDataSize)), sealed_nil, firstn_nil in Ht by lia. cbn in Ht. lia. }
    rewrite (opened_after key pass j) in Hh by auto. rewrite opened_cons in Hh by (destruct t; [cbn in Ht; lia | discriminate]). cbn zeta in Hh.
    rewrite (firstn_all2 (n := blockSize)) in Hh by lia. replace (length t <=? blockHeaderSize) with true in Hh by (symmetry; apply Nat.leb_le; lia).
    cbn [fst snd end_error] in Hh. now rewrite app_nil_r in Hh.
Qed.

Lemma Crypt_truncated_witness : exists fh, newDecrypter [] false (Mem 2 (firstn (fileHeaderSize + 0 * blockSize + 5) (encrypted [] nonce0 data0)) EOF) = Ret (inl fh) /\
  holds (GoodSource := decrypter_good (R := memory) [] false) fh (firstn (0 * blockDataSize) data0) (if 5 =? 0 then EOF else ErrorEncryptedFileBadHeader).
Proof.
  apply (Crypt_truncated [] false (Mem 2 (firstn (fileHeaderSize + 0 * blockSize + 5) (encrypted [] nonce0 data0)) EOF) nonce0 data0 0 5);
    [reflexivity | unfold blockHeaderSize; lia | | split; reflexivity].
  assert (K : length data0 <= blockDataSize) by (assert (K := blockDataSize_Z); cbn [data0 length]; lia).
  assert (Ht : data0 <> []) by discriminate. rewrite (sealed_short [] nonce0 _ Ht K), Seal_length. unfold blockHeaderSize. cbn [data0 length Nat.mul]. lia.
Defined.

(** ** Sizes *)

Local Open Scope Z_scope.

Lemma sealed_length `{GoodSecretbox} key l : forall n, Z.of_nat (length (sealed key n l)) =
  Z.of_nat (length l) / 65536 * 65552 + (if Z.of_nat (length l) mod 65536 =? 0 then 0 else 16 + Z.of_nat (length l) mod 65536).
Proof.
  assert (Hp := blockDataSize_pos). assert (HB := blockDataSize_Z).
  apply (blocks_ind blockDataSize (fun l => forall n, Z.of_nat (length (sealed key n l)) = Z.of_nat (length l) / 65536 * 65552 +
    (if Z.of_nat (length l) mod 65536 =? 0 then 0 else 16 + Z.of_nat (length l) mod 65536))); [auto | reflexivity |].
  intros m Hm IH n. rewrite (sealed_cons key n m Hm), length_app, Nat2Z.inj_add, IH, Seal_length. set (L := length m) in *.
  assert (HL : (0 < L)%nat) by (unfold L; destruct m; [congruence | cbn; lia]). rewrite length_firstn, length_skipn. fold L. unfold blockHeaderSize.
  destruct (Nat.le_ge_cases blockDataSize L).
  - rewrite Nat.min_l by auto. replace (Z.of_nat (L - blockDataSize)) with (Z.of_nat L + (-1) * 65536) by lia.
    rewrite Z.div_add, Z.mod_add by lia. destruct (_ =? 0); lia.
  - rewrite Nat.min_r by auto. replace (L - blockDataSize)%nat with 0%nat by lia. change (Z.of_nat 0 / 65536 * 65552 + (if Z.of_nat 0 mod 65536 =? 0 then 0 else 16 + Z.of_nat 0 mod 65536)) with 0.
    assert (Hdm := Z.div_mod (Z.of_nat L) 65536 ltac:(lia)). assert (Hm' := Z.mod_pos_bound (Z.of_nat L) 65536 ltac:(lia)).
    destruct (Z.eqb_spec (Z.of_nat L mod 65536) 0); lia.
Qed.

Lemma EncryptedSize_eq size : 0 <= size < 2 ^ 62 -> EncryptedSize size = 32 + size / 65536 * 65552 + (if size mod 65536 =? 0 then 0 else 16 + size mod 65536).
Proof.
  intros Hs. unfold EncryptedSize. cbn zeta. rewrite blockDataSize_Z, Z.quot_div_nonneg, Z.rem_mod_nonneg by lia.
  change (Z.of_nat fileHeaderSize) with 32. change (Z.of_nat blockHeaderSize) with 16. change (16 + 65536) with 65552.
  assert (Hdm := Z.div_mod size 65536 ltac:(lia)). assert (Hm := Z.mod_pos_bound size 65536 ltac:(lia)).
  rewrite (wrap64_small (n := size / 65536 * 65552)), (wrap64_small (n := 32 + size / 65536 * 65552)) by lia.
  destruct (Z.eqb_spec (size mod 65536) 0); cbn [negb]; [lia |]. rewrite wrap64_small; lia.
Qed.

Lemma DecryptedSize_eq size : 0 <= size < 2 ^ 63 -> DecryptedSize size =
  if size <? 32 then Err ErrorEncryptedFileTooShort
  else if (size - 32) mod 65552 =? 0 then Ret ((size - 32) / 65552 * 65536)
  else if (size - 32) mod 65552 <=? 16 then Err ErrorEncryptedFileBadHeader
  else Ret ((size - 32) / 65552 * 65536 + ((size - 32) mod 65552 - 16)).
Proof.
  intros Hs. unfold DecryptedSize. change (Z.of_nat fileHeaderSize) with 32. rewrite wrap64_small by lia.
  assert (Ebs : Z.of_nat blockSize = 65552) by (rewrite blockSize_eq, Nat2Z.inj_add, blockDataSize_Z; reflexivity). rewrite Ebs, blockDataSize_Z. change (Z.of_nat blockHeaderSize) with 16.
  destruct (Z.ltb_spec (size - 32) 0), (Z.ltb_spec size 32); try lia; [auto |]. rewrite Z.quot_div_nonneg, Z.rem_mod_nonneg by lia.
  destruct (Z.eqb_spec ((size - 32) mod 65552) 0) as [E|E]; cbn [negb]; [rewrite E; f_equal; lia |].
  destruct (Z.leb_spec ((size - 32) mod 65552 - 16) 0), (Z.leb_spec ((size - 32) mod 65552) 16); auto; lia.
Qed.

(** C37: [EncryptedSize] is the size of the encrypted file, [DecryptedSize] gives the
    size of the data back, and it fails for every size no encrypted file has. *)
Theorem Crypt_sizes `{GoodSecretbox} key n data size : length n = fileNonceSize -> Z.of_nat (length data) < 2 ^ 62 -> 0 <= size < 2 ^ 62 ->
  EncryptedSize (Z.of_nat (length data)) = Z.of_nat (length (encrypted key n data)) /\
  DecryptedSize (Z.of_nat (length (encrypted key n data))) = Ret (Z.of_nat (length data)) /\
  forall d, DecryptedSize size = Ret d <-> 0 <= d < 2 ^ 62 /\ size = EncryptedSize d.
Proof.
  intros Hn Hd Hs. assert (E : EncryptedSize (Z.of_nat (length data)) = Z.of_nat (length (encrypted key n data))).
  { rewrite EncryptedSize_eq by lia. unfold encrypted. rewrite !length_app, !Nat2Z.inj_add, Hn, sealed_length. change (Z.of_nat (length fileMagic)) with 8. change (Z.of_nat fileNonceSize) with 24. lia. }
  assert (Hdec : forall d, 0 <= d < 2 ^ 62 -> DecryptedSize (EncryptedSize d) = Ret d).
  { intros d Hd'. rewrite EncryptedSize_eq by auto. assert (Hm := Z.mod_pos_bound d 65536 ltac:(lia)). assert (Hdm := Z.div_mod d 65536 ltac:(lia)).
    rewrite DecryptedSize_eq by (destruct (_ =? 0); lia). destruct (Z.eqb_spec (d mod 65536) 0) as [E0|E0].
    - destruct (Z.ltb_spec (32 + d / 65536 * 65552 + 0) 32); [lia |]. replace (32 + d / 65536 * 65552 + 0 - 32) with (d / 65536 * 65552) by lia.
      rewrite Z.mod_mul, Z.div_mul by lia. cbn [Z.eqb]. f_equal. lia.
    - destruct (Z.ltb_spec (32 + d / 65536 * 65552 + (16 + d mod 65536)) 32); [lia |].
      replace (32 + d / 65536 * 65552 + (16 + d mod 65536) - 32) with ((16 + d mod 65536) + d / 65536 * 65552) by lia.
      rewrite Z.mod_add, Z.div_add, Z.mod_small, Z.div_small by lia.
      destruct (Z.eqb_spec (16 + d mod 65536) 0); [lia |]. destruct (Z.leb_spec (16 + d mod 65536) 16); [lia |]. f_equal. lia. }
  splits; [exact E | rewrite <- E; apply Hdec; lia |]. intros d. split; [| intros [Hd' ->]; auto].
  rewrite DecryptedSize_eq by lia. destruct (Z.ltb_spec size 32); [discriminate |].
  assert (Hm := Z.mod_pos_bound (size - 32) 65552 ltac:(lia)). assert (Hdm := Z.div_mod (size - 32) 65552 ltac:(lia)). set (q := (size - 32) / 65552) in *. set (r := (size - 32) mod 65552) in *.
  destruct (Z.eqb_spec r 0) as [E0|E0]; [| destruct (Z.leb_spec r 16); [discriminate |]]; intros K; injection K as <-; (split; [lia |]); rewrite EncryptedSize_eq by lia.
  - rewrite Z.div_mul, Z.mod_mul by lia. cbn [Z.eqb]. lia.
  - replace (q * 65536 + (r - 16)) with ((r - 16) + q * 65536) by lia. rewrite Z.div_add, Z.mod_add, Z.div_small, Z.mod_small by lia. destruct (Z.eqb_spec (r - 16) 0); lia.
Qed.

Lemma Crypt_sizes_witness : EncryptedSize 3 = Z.of_nat (length (encrypted [] nonce0 data0)) /\
  DecryptedSize (Z.of_nat (length (encrypted [] nonce0 data0))) = Ret 3 /\ forall d, DecryptedSize 40 = Ret d <-> 0 <= d < 2 ^ 62 /\ 40 = EncryptedSize d.
Proof. apply (Crypt_sizes [] nonce0 data0 40); [reflexivity | cbn; lia | lia]. Defined.

(** A file of 1 MiB; the documentation says 1049120. *)
Example EncryptedSize_MiB : EncryptedSize 1048576 = 1048864.
Proof. rewrite EncryptedSize_eq by lia. reflexivity. Qed.

(** ** Before the start *)

(** A seek to [- d] with the underlying file at the first block *)
Lemma seek_to_negative `{GoodSecretbox} {R} `{GoodHandle R} key pass n data (fh : decrypter R) rc offset len : data <> [] -> offset < 0 ->
  d_key fh = key -> d_passBadBlocks fh = pass -> d_err fh = None -> d_rc fh = Some rc -> d_nonce fh = n -> holds rc (sealed key n data) EOF ->
  exists fh', seek_to fh offset (-1) offset = Ret (fh', offset, None) /\ d_Read fh' len = Panic.
Proof.
  intros Hdata Ho Hkey Hpass Herr Hrc Hn Hb. unfold seek_to.
  destruct (fillBuffer_spec key pass fh rc _ EOF Hkey Hpass Hrc Hb (or_introl eq_refl)) as (rc' & [[_ K]|(buf & m & b' & -> & Hm & _)]).
  { rewrite Hn, opened_sealed in K. cbn in K. congruence. }
  cbn [bind set_nonce set_buf set_rc d_bufSize]. destruct (Z.gtb_spec offset (Z.of_nat (length m))); [lia |]. eexists. split; [reflexivity |].
  unfold d_Read. cbn [set_limit set_buf set_nonce set_rc d_err d_bufIndex d_bufSize]. rewrite Herr. destruct (Z.geb_spec offset (Z.of_nat (length m))); [lia |].
  unfold d_copy. cbn [set_limit set_buf set_nonce set_rc d_bufIndex d_bufSize d_limit d_buf]. unfold slice. destruct (Z.ltb_spec offset 0); [reflexivity | lia].
Qed.

(** A seek to less than a block before the start of the file succeeds and the next
    read panics. *)
Theorem Crypt_negative_seek `{GoodSecretbox} {R} `{GoodHandle R} key pass n data open offset len : is_nonce n -> opens open (encrypted key n data) -> data <> [] ->
  - 65536 < offset < 0 ->
  exists fh fh', newDecrypterSeek key pass open 0 (-1) = Ret (inl fh) /\ RangeSeek fh offset true (-1) = Ret (fh', offset, None) /\ d_Read fh' len = Panic.
Proof.
  intros Hn Hop Hdata Ho. destruct (newDecrypterSeek_spec key pass n data Hn open 0 (-1) Hop (or_introl eq_refl)) as (fh & E & Hd & _ & _ & Hh); [lia | lia |].
  exists fh. destruct Hd as (Hkey & Hpass & Hin & (open' & Hopen & Hop') & rc & Hrc & Hon).
  assert (Ecu : calculateUnderlying offset (-1) = (32, -1, offset, 0)).
  { unfold calculateUnderlying. rewrite blockDataSize_Z. assert (E1 : Z.quot offset 65536 = 0) by (apply Z.quot_small_iff; lia). assert (E2 : Z.rem offset 65536 = offset) by (apply Z.rem_small_iff; lia).
    rewrite E1, E2. reflexivity. }
  assert (Hcut : cut 32 (-1) (encrypted key n data) = sealed key n data) by (apply (encrypted_header key n data (proj2 Hn))).
  assert (Hseek : forall f : decrypter R, d_key f = key -> d_passBadBlocks f = pass -> d_err f = None -> d_rc f = Some rc -> d_initialNonce f = n ->
    exists fh', seek_underlying f open' offset (-1) = Ret (fh', offset, None) /\ d_Read fh' len = Panic).
  { intros f F1 F2 F3 F4 F5. unfold seek_underlying. rewrite Ecu. change (Z.to_N (0 mod 2 ^ 64)) with (N.of_nat 0). rewrite F5, add_nonce_at by (auto; lia). cbn [bind nonce_at set_nonce d_rc]. rewrite F4.
    destruct range_seek as [g|] eqn:Eg.
    - destruct (on_seek g rc _ 32 (-1) Eg Hon ltac:(lia)) as (rc' & -> & _ & Hrd). cbn [bind]. rewrite Hcut in Hrd. now apply (seek_to_negative key pass n data _ rc').
    - destruct (Hop' 32 (-1) ltac:(lia)) as (rc' & -> & _ & Hrd). rewrite Hcut in Hrd. now apply (seek_to_negative key pass n data _ rc'). }
  unfold RangeSeek. rewrite Hopen. cbn [negb]. destruct Hh as [(Herr & _)|[Herr _]]; rewrite Herr; cbn [is_EOF].
  - destruct (Hseek fh) as (fh' & K1 & K2); auto. exists fh'. auto.
  - destruct (Hseek (unFinish fh)) as (fh' & K1 & K2); auto. exists fh'. auto.
Qed.

Lemma Crypt_negative_seek_witness : exists fh fh', newDecrypterSeek [] false (mem_open 9 (encrypted [] nonce0 data0)) 0 (-1) = Ret (inl fh) /\
  RangeSeek fh (-2) true (-1) = Ret (fh', -2, None) /\ d_Read fh' 1 = Panic.
Proof. apply (Crypt_negative_seek [] false nonce0 data0 (mem_open 9 (encrypted [] nonce0 data0)) (-2) 1); [apply nonce0_ok | apply mem_opens | discriminate | lia]. Defined.
