(* ===== verification/GoStrings.v ===== *)
(** * Strings as bytes: what the names of the crypt backend use of Go

    A Go string is a list of bytes.  Here are the functions of packages strings,
    strconv, path and unicode/utf8 that src/backend/crypt/cipher.go and
    src/lib/version/version.go call, with their laws.  The tables of package unicode,
    which [ToUpper] and [ToLower] use outside of ASCII, are a parameter. *)
From Stdlib Require Import String Ascii.
From Stdlib Require Import List Arith NArith ZArith Lia Bool.
From S2P Require Import Prelude.
Import ListNotations.
Local Open Scope N_scope.
Local Open Scope list_scope.

(** The bytes of a literal *)
Definition bytes_of (s : string) : list N := map N_of_ascii (list_ascii_of_string s).
Arguments bytes_of s%_string.

Definition is_byte (c : N) : Prop := c < 256.

Definition eqb_bytes (a b : list N) : bool := if list_eq_dec N.eq_dec a b then true else false.

Lemma eqb_bytes_spec a b : reflect (a = b) (eqb_bytes a b).
Proof. unfold eqb_bytes. destruct (list_eq_dec _ _ _); now constructor. Qed.

(** ** Package strings *)

(** [strings.Index(s, c)] for a string of one byte *)
Fixpoint Index (c : N) (s : list N) : option nat :=
  match s with
  | [] => None
  | x :: s => if x =? c then Some O else option_map S (Index c s)
  end.

(** [strings.Split(s, c)] *)
Fixpoint Split (c : N) (s : list N) : list (list N) :=
  match s with
  | [] => [[]]
  | x :: s =>
      if x =? c then [] :: Split c s
      else match Split c s with f :: fs => (x :: f) :: fs | [] => [[x]] end
  end.

(** [strings.Join(l, c)] *)
Fixpoint Join (c : N) (l : list (list N)) : list N :=
  match l with
  | [] => []
  | [s] => s
  | s :: l => s ++ c :: Join c l
  end.

Definition HasPrefix (s p : list N) : bool := eqb_bytes (firstn (length p) s) p.
Definition HasSuffix (s p : list N) : bool := (length p <=? length s)%nat && eqb_bytes (skipn (length s - length p) s) p.

Fixpoint TrimLeft (c : N) (s : list N) : list N :=
  match s with
  | [] => []
  | x :: t => if x =? c then TrimLeft c t else s
  end.

(** [strings.TrimRight(s, c)] *)
Definition TrimRight (c : N) (s : list N) : list N := rev (TrimLeft c (rev s)).

(** [strings.ReplaceAll(s, c, d)] of a byte by a byte *)
Definition ReplaceAll (c d : N) (s : list N) : list N := map (fun x => if x =? c then d else x) s.

(** What [strings.ToUpper] and [strings.ToLower] do with strings that are not ASCII, and
    the classes of letters and numbers (\p{L} and \p{N}) beyond ASCII *)
Class Unicode : Type := {
  upper_unicode : list N -> list N;
  lower_unicode : list N -> list N;
  letter_or_number : Z -> bool
}.

Definition isASCII (s : list N) : bool := forallb (fun c => c <? 128) s.
Definition upper_byte (c : N) : N := if (97 <=? c) && (c <=? 122) then c - 32 else c.
Definition lower_byte (c : N) : N := if (65 <=? c) && (c <=? 90) then c + 32 else c.
Definition ToUpper `{Unicode} (s : list N) : list N := if isASCII s then map upper_byte s else upper_unicode s.
Definition ToLower `{Unicode} (s : list N) : list N := if isASCII s then map lower_byte s else lower_unicode s.

(** ** Decimal numbers (package strconv) *)

Definition isDigit (c : N) : bool := (48 <=? c) && (c <=? 57).

(** The value of [digits], after [acc] *)
Definition number (acc : N) (digits : list N) : N := fold_left (fun a c => 10 * a + (c - 48)) digits acc.

Fixpoint itoa_loop (fuel : nat) (n : N) (acc : list N) : list N :=
  match fuel with
  | O => acc
  | S fuel => if n <? 10 then (48 + n) :: acc else itoa_loop fuel (n / 10) ((48 + n mod 10) :: acc)
  end.

(** [strconv.Itoa] of an [int]; it has 20 digits at most. *)
Definition Itoa (n : Z) : list N :=
  if (n <? 0)%Z then 45 :: itoa_loop 20 (Z.abs_N n) [] else itoa_loop 20 (Z.to_N n) [].

(** [strconv.Atoi]: a sign, and digits of a number that fits in an [int] *)
Definition Atoi (s : list N) : option Z :=
  let '(neg, digits) := match s with
                        | c :: t => if c =? 45 then (true, t) else if c =? 43 then (false, t) else (false, s)
                        | [] => (false, s)
                        end in
  if (0 <? length digits)%nat && forallb isDigit digits then
    let n := Z.of_N (number 0 digits) in
    let n := if neg then (- n)%Z else n in
    if ((- 2 ^ 63 <=? n) && (n <? 2 ^ 63))%Z then Some n else None
  else None.

(** ** Package path *)

(** [path.Ext]: from the last dot after the last slash *)
Fixpoint ext_rev (acc s : list N) : list N :=
  match s with
  | [] => []
  | c :: s => if c =? 47 then [] else if c =? 46 then c :: acc else ext_rev (c :: acc) s
  end.

Definition Ext (path : list N) : list N := ext_rev [] (rev path).

(** ** Package unicode/utf8: a rune is a [Z] *)

Definition RuneError : Z := 65533.

Definition ValidRune (r : Z) : bool := ((0 <=? r) && (r <? 55296) || (57343 <? r) && (r <=? 1114111))%Z.

Definition between (lo hi c : N) : bool := (lo <=? c) && (c <=? hi).

(** [utf8.DecodeRune]: the first rune and its width *)
Definition DecodeRune (s : list N) : Z * nat :=
  let bad := (RuneError, 1%nat) in
  match s with
  | [] => (RuneError, 0%nat)
  | b0 :: s =>
      if b0 <? 128 then (Z.of_N b0, 1%nat)
      else if between 194 223 b0 then
        match s with
        | b1 :: _ => if between 128 191 b1 then (Z.of_N ((b0 - 192) * 64 + (b1 - 128)), 2%nat) else bad
        | _ => bad
        end
      else if between 224 239 b0 then
        match s with
        | b1 :: b2 :: _ =>
            if between (if b0 =? 224 then 160 else 128) (if b0 =? 237 then 159 else 191) b1 && between 128 191 b2
            then (Z.of_N ((b0 - 224) * 4096 + (b1 - 128) * 64 + (b2 - 128)), 3%nat) else bad
        | _ => bad
        end
      else if between 240 244 b0 then
        match s with
        | b1 :: b2 :: b3 :: _ =>
            if between (if b0 =? 240 then 144 else 128) (if b0 =? 244 then 143 else 191) b1 && between 128 191 b2 && between 128 191 b3
            then (Z.of_N ((b0 - 240) * 262144 + (b1 - 128) * 4096 + (b2 - 128) * 64 + (b3 - 128)), 4%nat) else bad
        | _ => bad
        end
      else bad
  end.

(** [utf8.AppendRune]: a rune that is not valid is replaced. *)
Definition AppendRune (s : list N) (r : Z) : list N :=
  let r := Z.to_N (if ValidRune r then r else RuneError) in
  s ++ if r <? 128 then [r]
       else if r <? 2048 then [192 + r / 64; 128 + r mod 64]
       else if r <? 65536 then [224 + r / 4096; 128 + r / 64 mod 64; 128 + r mod 64]
       else [240 + r / 262144; 128 + r / 4096 mod 64; 128 + r / 64 mod 64; 128 + r mod 64].

(** [for _, r := range s]: the runes of a string *)
Fixpoint runes_loop (fuel : nat) (s : list N) : list Z :=
  match fuel, s with
  | S fuel, _ :: _ => let '(r, w) := DecodeRune s in r :: runes_loop fuel (skipn w s)
  | _, _ => []
  end.

Definition runes (s : list N) : list Z := runes_loop (length s) s.

(** [utf8.ValidString] *)
Fixpoint valid_loop (fuel : nat) (s : list N) : bool :=
  match fuel, s with
  | S fuel, _ :: _ => let '(r, w) := DecodeRune s in negb ((r =? RuneError)%Z && (w =? 1)%nat) && valid_loop fuel (skipn w s)
  | _, _ => true
  end.

Definition ValidString (s : list N) : bool := valid_loop (length s) s.

(** ** Laws of package strings *)

Lemma eqb_bytes_refl a : eqb_bytes a a = true.
Proof. now destruct (eqb_bytes_spec a a). Qed.

Lemma Split_not_nil c s : Split c s <> [].
Proof. destruct s as [|x s]; cbn; [easy |]. destruct (x =? c); [easy |]. now destruct (Split c s). Qed.

Lemma Join_of_Split c s : Join c (Split c s) = s.
Proof.
  induction s as [|x s IH]; [easy |]. cbn [Split]. destruct (N.eqb_spec x c) as [->|Hx]; assert (Hn := Split_not_nil c s);
    destruct (Split c s) as [|f fs]; try easy; cbn [Join] in *; [now rewrite IH |]. destruct fs; cbn in *; congruence.
Qed.

Lemma Split_parts c s f : In f (Split c s) -> ~ In c f.
Proof.
  revert f; induction s as [|x s IH]; cbn [Split]; intros f Hf.
  - destruct Hf as [<-|[]]. easy.
  - destruct (N.eqb_spec x c) as [->|Hx]; [destruct Hf as [<-|Hf]; [easy | auto] |]. destruct (Split c s) as [|g gs].
    + destruct Hf as [<-|[]]. intros [K|[]]. congruence.
    + destruct Hf as [<-|Hf]; [| apply IH; now right]. intros [K|K]; [congruence |]. exact (IH g (or_introl eq_refl) K).
Qed.

Lemma Split_one c s : ~ In c s -> Split c s = [s].
Proof.
  induction s as [|x s IH]; intros H; [easy |]. cbn [Split]. destruct (N.eqb_spec x c) as [->|Hx]; [exfalso; apply H; now left |].
  rewrite IH; [easy |]. intros K. apply H. now right.
Qed.

Lemma Split_app c s t : ~ In c s -> Split c (s ++ c :: t) = s :: Split c t.
Proof.
  induction s as [|x s IH]; intros H; cbn [app Split]; [now rewrite N.eqb_refl |].
  destruct (N.eqb_spec x c) as [->|Hx]; [exfalso; apply H; now left |]. rewrite IH; [easy |]. intros K. apply H. now right.
Qed.

Lemma Split_Join c l : l <> [] -> (forall f, In f l -> ~ In c f) -> Split c (Join c l) = l.
Proof.
  induction l as [|s l IH]; intros Hl H; [easy |]. destruct l as [|s' l].
  - apply Split_one, H. now left.
  - change (Join c (s :: s' :: l)) with (s ++ c :: Join c (s' :: l)). rewrite Split_app by (apply H; now left). f_equal.
    apply IH; [easy |]. intros f Hf. apply H. now right.
Qed.

Lemma Index_first c s t : ~ In c s -> Index c (s ++ c :: t) = Some (length s).
Proof.
  induction s as [|x s IH]; intros H; cbn [app Index length]; [now rewrite N.eqb_refl |].
  destruct (N.eqb_spec x c) as [->|Hx]; [exfalso; apply H; now left |]. rewrite IH; [easy |]. intros K. apply H. now right.
Qed.

Lemma HasSuffix_app s p : HasSuffix (s ++ p) p = true.
Proof.
  unfold HasSuffix. rewrite length_app, (proj2 (Nat.leb_le _ _)) by lia. replace (length s + length p - length p)%nat with (length s) by lia.
  rewrite skipn_app, skipn_all, Nat.sub_diag. apply eqb_bytes_refl.
Qed.

Lemma TrimLeft_repeat c n s : TrimLeft c (repeat c n ++ s) = TrimLeft c s.
Proof. induction n as [|n IH]; cbn; [easy |]. now rewrite N.eqb_refl. Qed.

Lemma TrimRight_pad c n s : ~ In c s -> TrimRight c (s ++ repeat c n) = s.
Proof.
  intros H. unfold TrimRight. rewrite rev_app_distr, rev_repeat, TrimLeft_repeat.
  assert (Hr : ~ In c (rev s)) by now rewrite <- in_rev. rewrite <- (rev_involutive s) at 2. f_equal.
  destruct (rev s) as [|x t]; [easy |]. cbn. destruct (N.eqb_spec x c) as [->|]; [| easy]. exfalso. apply Hr. now left.
Qed.

Lemma ReplaceAll_app c d s t : ReplaceAll c d (s ++ t) = ReplaceAll c d s ++ ReplaceAll c d t.
Proof. apply map_app. Qed.

Lemma ReplaceAll_id c d s : ~ In c s -> ReplaceAll c d s = s.
Proof.
  intros H. unfold ReplaceAll. rewrite <- map_id. apply map_ext_in. intros x Hx. destruct (N.eqb_spec x c) as [->|]; easy.
Qed.

(** ** Laws of path.Ext *)

(** No dot and no slash *)
Definition undotted (s : list N) : Prop := ~ In 46 s /\ ~ In 47 s.

Lemma undotted_app s t : undotted (s ++ t) <-> undotted s /\ undotted t.
Proof. unfold undotted. rewrite !in_app_iff. tauto. Qed.

Lemma undotted_cons c s : undotted (c :: s) <-> c <> 46 /\ c <> 47 /\ undotted s.
Proof. unfold undotted. cbn [In]. split; [intuition congruence | intuition]. Qed.

Lemma ext_rev_skip s : forall acc t, undotted s -> ext_rev acc (rev s ++ t) = ext_rev (s ++ acc) t.
Proof.
  induction s as [|c s IH]; intros acc t Hs; [easy |]. apply undotted_cons in Hs as (H1 & H2 & Hs). cbn [rev].
  rewrite <- app_assoc, IH by auto. cbn [app ext_rev]. destruct (N.eqb_spec c 47), (N.eqb_spec c 46); easy.
Qed.

Lemma Ext_dot s e : undotted e -> Ext (s ++ 46 :: e) = 46 :: e.
Proof. intros He. unfold Ext. rewrite rev_app_distr. cbn [rev]. rewrite <- app_assoc, ext_rev_skip by auto. cbn. now rewrite app_nil_r. Qed.

Lemma Ext_slash s e : undotted e -> Ext (s ++ 47 :: e) = [].
Proof. intros He. unfold Ext. rewrite rev_app_distr. cbn [rev]. now rewrite <- app_assoc, ext_rev_skip by auto. Qed.

Lemma Ext_undotted e : undotted e -> Ext e = [].
Proof. intros He. unfold Ext. rewrite <- (app_nil_r (rev e)), ext_rev_skip by auto. easy. Qed.

(** A path ends after its last dot, after its last slash, or has neither. *)
Lemma undotted_end s : undotted s \/ exists t c e, s = t ++ c :: e /\ undotted e /\ (c = 46 \/ c = 47).
Proof.
  induction s as [|x s IH]; [left; easy |]. destruct IH as [Hs|(t & c & e & -> & He & Hc)]; [| right; now exists (x :: t), c, e].
  destruct (N.eq_dec x 46) as [->|H1]; [right; exists [], 46, s; auto |]. destruct (N.eq_dec x 47) as [->|H2]; [right; exists [], 47, s; auto |].
  left. rewrite undotted_cons. auto.
Qed.

Lemma Ext_cases s : (exists t e, s = t ++ 46 :: e /\ undotted e /\ Ext s = 46 :: e) \/
  (Ext s = [] /\ forall u, undotted u -> Ext (s ++ u) = []).
Proof.
  destruct (undotted_end s) as [Hs|(t & c & e & -> & He & [->| ->])].
  - right. split; [now apply Ext_undotted |]. intros u Hu. apply Ext_undotted, undotted_app. auto.
  - left. exists t, e. rewrite Ext_dot by auto. auto.
  - right. split; [now apply Ext_slash |]. intros u Hu. rewrite <- app_assoc. apply Ext_slash. rewrite undotted_app. auto.
Qed.

(** ** Laws of numbers *)

Lemma itoa_loop_spec fuel : forall n acc, n < 10 ^ N.of_nat (S fuel) -> exists ds, itoa_loop (S fuel) n acc = ds ++ acc /\
  (forall a, number a ds = a * 10 ^ N.of_nat (length ds) + n) /\ forallb isDigit ds = true /\ ds <> [].
Proof.
  assert (Hd : forall k, k < 10 -> isDigit (48 + k) = true) by (intros k Hk; unfold isDigit; apply andb_true_iff; split; apply N.leb_le; lia).
  induction fuel as [|fuel IH]; intros n acc Hn; cbn [itoa_loop]; destruct (N.ltb_spec n 10) as [Hlt|Hge].
  1,3: exists [48 + n]; cbn [app number fold_left forallb length]; rewrite Hd by auto; splits; try easy; intros a; change (10 ^ N.of_nat 1) with 10; lia.
  - change (10 ^ N.of_nat 1) with 10 in Hn. lia.
  - replace (N.of_nat (S (S fuel))) with (N.succ (N.of_nat (S fuel))) in Hn by lia. rewrite N.pow_succ_r' in Hn.
    assert (Hm := N.mod_lt n 10 ltac:(lia)). assert (Hdm := N.div_mod n 10 ltac:(lia)).
    destruct (IH (n / 10) ((48 + n mod 10) :: acc)) as (ds & E & Hv & Hds & Hne); [apply N.Div0.div_lt_upper_bound; lia |].
    exists (ds ++ [48 + n mod 10]). cbn [itoa_loop] in E. rewrite E, <- app_assoc. splits; [easy | | | now destruct ds].
    + intros a. unfold number in *. rewrite fold_left_app, Hv, length_app. cbn [fold_left length].
      replace (N.of_nat (length ds + 1)) with (N.succ (N.of_nat (length ds))) by lia. rewrite N.pow_succ_r', N.mul_assoc, (N.mul_comm a 10), <- N.mul_assoc. generalize (a * 10 ^ N.of_nat (length ds)). intros x. clear - Hdm. set (q := n / 10) in *. set (m := n mod 10) in *. clearbody q m. lia.
    + rewrite forallb_app, Hds. cbn [forallb]. now rewrite Hd.
Qed.

Lemma Atoi_digits ds n : ds <> [] -> forallb isDigit ds = true -> number 0 ds = n -> n < 2 ^ 63 -> Atoi ds = Some (Z.of_N n).
Proof.
  intros Hne Hd Hn Hlt. unfold Atoi. destruct ds as [|c ds]; [easy |].
  assert (Hc : 48 <= c) by (cbn in Hd; unfold isDigit in Hd; apply andb_true_iff in Hd as [Hd _]; apply andb_true_iff in Hd as [Hd _]; now apply N.leb_le).
  destruct (N.eqb_spec c 45); [lia |]. destruct (N.eqb_spec c 43); [lia |]. rewrite Hd, Hn. cbn [length Nat.ltb Nat.leb andb].
  destruct (Z.leb_spec (- 2 ^ 63) (Z.of_N n)), (Z.ltb_spec (Z.of_N n) (2 ^ 63)); easy || lia.
Qed.

Lemma Itoa_spec n : (0 <= n < 2 ^ 63)%Z -> Atoi (Itoa n) = Some n /\ forallb isDigit (Itoa n) = true.
Proof.
  intros Hn. unfold Itoa. destruct (Z.ltb_spec n 0); [lia |].
  destruct (itoa_loop_spec 19 (Z.to_N n) []) as (ds & -> & Hv & Hd & Hne); [change (N.of_nat 20) with 20; lia |].
  rewrite app_nil_r. split; [| exact Hd]. replace (Some n) with (Some (Z.of_N (Z.to_N n))) by (f_equal; lia).
  apply Atoi_digits; [exact Hne | exact Hd | rewrite Hv; lia | lia].
Qed.

Lemma digits_not c ds : forallb isDigit ds = true -> isDigit c = false -> ~ In c ds.
Proof. intros Hd Hc Hin. rewrite forallb_forall in Hd. specialize (Hd c Hin). congruence. Qed.

(** ** Laws of runes *)

Lemma ValidRune_iff r : ValidRune r = true <-> (0 <= r < 55296 \/ 57343 < r <= 1114111)%Z.
Proof. unfold ValidRune. rewrite orb_true_iff, !andb_true_iff, !Z.leb_le, !Z.ltb_lt. tauto. Qed.

Lemma between_true lo hi c : lo <= c <= hi -> between lo hi c = true.
Proof. intros H. unfold between. apply andb_true_iff. split; apply N.leb_le; lia. Qed.

Lemma between_false lo hi c : c < lo \/ hi < c -> between lo hi c = false.
Proof. intros H. unfold between. apply andb_false_iff. destruct H; [left | right]; apply N.leb_gt; lia. Qed.

Lemma between_spec lo hi c : between lo hi c = true <-> lo <= c <= hi.
Proof. unfold between. rewrite andb_true_iff, !N.leb_le. tauto. Qed.

(** The bytes of a valid rune *)
Definition EncodeRune (r : Z) : list N := AppendRune [] r.

Lemma AppendRune_app s r : AppendRune s r = s ++ EncodeRune r.
Proof. reflexivity. Qed.

Lemma DecodeRune_Encode r t : ValidRune r = true -> DecodeRune (EncodeRune r ++ t) = (r, length (EncodeRune r)).
Proof.
  intros Hr. unfold EncodeRune, AppendRune. rewrite Hr. apply ValidRune_iff in Hr. assert (Er : Z.of_N (Z.to_N r) = r) by lia. set (n := Z.to_N r) in *.
  assert (Hn : n < 55296 \/ 57343 < n <= 1114111) by lia. rewrite <- Er. clearbody n. clear r Er Hr. cbn [app].
  assert (D1 := N.div_mod n 64 ltac:(lia)). assert (D2 := N.div_mod (n / 64) 64 ltac:(lia)). assert (D3 := N.div_mod (n / 4096) 64 ltac:(lia)).
  assert (E2 : n / 4096 = n / 64 / 64) by (rewrite N.Div0.div_div; easy). assert (E3 : n / 262144 = n / 4096 / 64) by (rewrite N.Div0.div_div; easy).
  assert (M1 := N.mod_lt n 64 ltac:(lia)). assert (M2 := N.mod_lt (n / 64) 64 ltac:(lia)). assert (M3 := N.mod_lt (n / 4096) 64 ltac:(lia)).
  rewrite <- E2 in D2. rewrite <- E3 in D3. set (a := n / 64) in *. set (b := n / 4096) in *. set (c := n / 262144) in *.
  set (x := n mod 64) in *. set (y := a mod 64) in *. set (z := b mod 64) in *. clearbody a b c x y z. clear E2 E3.
  destruct (N.ltb_spec n 128); [cbn [app DecodeRune]; destruct (N.ltb_spec n 128); [easy | lia] |].
  destruct (N.ltb_spec n 2048); [| destruct (N.ltb_spec n 65536)]; cbn [app DecodeRune length].
  - destruct (N.ltb_spec (192 + a) 128); [lia |]. rewrite !between_true by lia. repeat f_equal. lia.
  - destruct (N.ltb_spec (224 + b) 128); [lia |]. rewrite (between_false 194 223), (between_true 224 239), (between_true 128 191) by lia.
    rewrite between_true; [cbn [andb]; repeat f_equal; lia |]. destruct (N.eqb_spec (224 + b) 224), (N.eqb_spec (224 + b) 237); lia.
  - destruct (N.ltb_spec (240 + c) 128); [lia |]. rewrite (between_false 194 223), (between_false 224 239), (between_true 240 244), !(between_true 128 191) by lia.
    rewrite between_true; [cbn [andb]; repeat f_equal; lia |]. destruct (N.eqb_spec (240 + c) 240), (N.eqb_spec (240 + c) 244); lia.
Qed.

Lemma DecodeRune_width s : s <> [] -> (1 <= snd (DecodeRune s))%nat.
Proof.
  destruct s as [|b0 s]; [easy |]. intros _. cbn [DecodeRune].
  repeat match goal with |- context [if ?c then _ else _] => destruct c | |- context [match ?l with [] => _ | _ => _ end] => destruct l end; cbn; lia.
Qed.

(** Linear arithmetic with quotients by constants *)
Ltac divlia := zify; Z.to_euclidean_division_equations; lia.

(** What is decoded without an error is the encoding of a valid rune. *)
Lemma Encode_DecodeRune s r w : s <> [] -> DecodeRune s = (r, w) -> (r, w) <> (RuneError, 1%nat) ->
  ValidRune r = true /\ s = EncodeRune r ++ skipn w s.
Proof.
  intros Hs E Hok.
  assert (Hval : forall n, n < 55296 \/ 57343 < n <= 1114111 -> ValidRune (Z.of_N n) = true) by (intros n Hn; apply ValidRune_iff; lia).
  assert (Henc : forall n, n < 55296 \/ 57343 < n <= 1114111 -> EncodeRune (Z.of_N n) = (if n <? 128 then [n]
       else if n <? 2048 then [192 + n / 64; 128 + n mod 64] else if n <? 65536 then [224 + n / 4096; 128 + n / 64 mod 64; 128 + n mod 64]
       else [240 + n / 262144; 128 + n / 4096 mod 64; 128 + n / 64 mod 64; 128 + n mod 64])).
  { intros n Hn. unfold EncodeRune, AppendRune. now rewrite (Hval n Hn), N2Z.id. }
  destruct s as [|b0 s]; [easy |]. cbn [DecodeRune] in E. destruct (N.ltb_spec b0 128).
  { injection E as <- <-. rewrite Hval, Henc by lia. destruct (N.ltb_spec b0 128); [easy | lia]. }
  destruct (between 194 223 b0) eqn:B0; [apply between_spec in B0 | destruct (between 224 239 b0) eqn:B1; [apply between_spec in B1; clear B0 | destruct (between 240 244 b0) eqn:B2; [apply between_spec in B2; clear B0 B1 | congruence]]].
  - destruct s as [|b1 s]; [congruence |]. destruct (between 128 191 b1) eqn:C1; [apply between_spec in C1 | congruence]. injection E as <- <-.
    set (n := (b0 - 192) * 64 + (b1 - 128)). rewrite Hval, Henc by (unfold n; lia). split; [easy |]. destruct (N.ltb_spec n 128), (N.ltb_spec n 2048); try (unfold n in *; lia).
    cbn [app skipn]. repeat f_equal; subst n; divlia.
  - destruct s as [|b1 [|b2 s]]; try congruence. destruct (between _ _ b1) eqn:C1; [apply between_spec in C1 | cbn [andb] in E; congruence].
    destruct (between 128 191 b2) eqn:C2; [apply between_spec in C2 | cbn [andb] in E; congruence]. injection E as <- <-. set (n := (b0 - 224) * 4096 + (b1 - 128) * 64 + (b2 - 128)).
    assert (Hn : 2048 <= n < 55296 \/ 57343 < n < 65536) by (unfold n; destruct (N.eqb_spec b0 224), (N.eqb_spec b0 237); lia).
    rewrite Hval, Henc by lia. split; [easy |]. assert (Hb1 : 128 <= b1 <= 191) by (destruct (b0 =? 224), (b0 =? 237); lia). clear C1.
    destruct (N.ltb_spec n 128), (N.ltb_spec n 2048), (N.ltb_spec n 65536); try lia. cbn [app skipn]. repeat f_equal; subst n; divlia.
  - destruct s as [|b1 [|b2 [|b3 s]]]; try congruence. destruct (between _ _ b1) eqn:C1; [apply between_spec in C1 | cbn [andb] in E; congruence].
    destruct (between 128 191 b2) eqn:C2; [apply between_spec in C2 | cbn [andb] in E; congruence]. destruct (between 128 191 b3) eqn:C3; [apply between_spec in C3 | cbn [andb] in E; congruence].
    injection E as <- <-. set (n := (b0 - 240) * 262144 + (b1 - 128) * 4096 + (b2 - 128) * 64 + (b3 - 128)).
    assert (Hn : 65536 <= n <= 1114111) by (unfold n; destruct (N.eqb_spec b0 240), (N.eqb_spec b0 244); lia).
    rewrite Hval, Henc by lia. split; [easy |]. assert (Hb1 : 128 <= b1 <= 191) by (destruct (b0 =? 240), (b0 =? 244); lia). clear C1.
    destruct (N.ltb_spec n 128), (N.ltb_spec n 2048), (N.ltb_spec n 65536); try lia. cbn [app skipn]. repeat f_equal; subst n; divlia.
Qed.

Lemma runes_loop_fuel f1 : forall f2 s, (length s <= f1)%nat -> (length s <= f2)%nat -> runes_loop f1 s = runes_loop f2 s.
Proof.
  induction f1 as [|f1 IH]; intros f2 s H1 H2; [destruct s; [now destruct f2 | cbn in H1; lia] |].
  destruct s as [|c s]; [now destruct f2 |]. destruct f2 as [|f2]; [cbn in H2; lia |]. cbn [runes_loop].
  assert (Hw := DecodeRune_width (c :: s) ltac:(easy)). destruct (DecodeRune (c :: s)) as [r w]. cbn [snd] in Hw. f_equal.
  assert (Hl := length_skipn w (c :: s)). cbn [length] in *. apply IH; lia.
Qed.

Lemma EncodeRune_length r : (0 < length (EncodeRune r))%nat.
Proof. unfold EncodeRune, AppendRune. cbn [app]. destruct (_ <? 128); [cbn; lia |]. destruct (_ <? 2048); [cbn; lia |]. destruct (_ <? 65536); cbn; lia. Qed.

Lemma runes_Encode r t : ValidRune r = true -> runes (EncodeRune r ++ t) = r :: runes t.
Proof.
  intros Hr. assert (HD := DecodeRune_Encode r t Hr). assert (Hl := EncodeRune_length r). unfold runes.
  rewrite (runes_loop_fuel (length (EncodeRune r ++ t)) (S (length (EncodeRune r ++ t)))) by lia. cbn [runes_loop].
  destruct (EncodeRune r ++ t) eqn:E; [destruct (EncodeRune r); [cbn in Hl; lia | discriminate] |]. rewrite HD, <- E. f_equal.
  rewrite skipn_app, skipn_all, Nat.sub_diag. apply runes_loop_fuel; rewrite ?length_app; cbn; lia.
Qed.

(** Writing runes and ranging over them *)
Lemma runes_concat l : Forall (fun r => ValidRune r = true) l -> runes (concat (map EncodeRune l)) = l.
Proof. induction 1 as [|r l Hr _ IH]; cbn [map concat]; [easy |]. rewrite runes_Encode by auto. now f_equal. Qed.

Lemma ValidString_runes s : ValidString s = true -> Forall (fun r => ValidRune r = true) (runes s) /\ concat (map EncodeRune (runes s)) = s.
Proof.
  unfold ValidString, runes. generalize (Nat.le_refl (length s)). generalize (length s) at 2 3 4 5 as f. intros f. revert s.
  induction f as [|f IH]; intros s Hl Hv; [destruct s; [now split | cbn in Hl; lia] |]. destruct s as [|c s]; [now split |].
  cbn [valid_loop runes_loop] in *. assert (Hw := DecodeRune_width (c :: s) ltac:(easy)). destruct (DecodeRune (c :: s)) as [r w] eqn:E. cbn [snd] in Hw.
  apply andb_true_iff in Hv as [Hne Hv]. destruct (Encode_DecodeRune (c :: s) r w) as [Hr Hs]; [easy | exact E | intros K; injection K as -> ->; now cbn in Hne |].
  destruct (IH (skipn w (c :: s))) as [IH1 IH2]; [rewrite length_skipn; cbn [length] in *; lia | exact Hv |].
  split; [now constructor |]. cbn [map concat]. now rewrite IH2.
Qed.

(** A byte below 128 is in a text only as a rune. *)
Lemma EncodeRune_ascii r b : ValidRune r = true -> (b < 128) -> In b (EncodeRune r) <-> r = Z.of_N b.
Proof.
  intros Hr Hb. unfold EncodeRune, AppendRune. rewrite Hr. apply ValidRune_iff in Hr. cbn [app]. set (n := Z.to_N r). assert (Hn : r = Z.of_N n) by lia. rewrite Hn.
  clearbody n. destruct (N.ltb_spec n 128); [cbn [In]; lia |].
  assert (Hge : forall k x l, (128 <= k) -> In b ((k + x) :: l) <-> In b l) by (intros k x l Hk; cbn [In]; split; [intros [E|K]; [lia | exact K] | now right]).
  destruct (n <? 2048); [| destruct (n <? 65536)]; rewrite !Hge by easy; cbn [In]; lia.
Qed.

Lemma runes_ascii rs b : Forall (fun r => ValidRune r = true) rs -> (b < 128) -> In b (concat (map EncodeRune rs)) <-> In (Z.of_N b) rs.
Proof.
  intros H Hb. induction H as [|r rs Hr _ IH]; [easy |]. cbn [map concat]. rewrite in_app_iff, IH, EncodeRune_ascii by auto. easy.
Qed.

(** ** Pieces: the runes of a string with their bytes

    A string that is ranged over falls into pieces, runes with their bytes and bytes that
    belong to no rune; [DecodeLastRune] finds the last piece.  UTF-8 synchronises itself:
    what follows a byte matters for its piece only as far as it is continuation bytes, so
    that strings can be cut where a piece starts. *)

Definition is_cont (c : N) : bool := between 128 191 c.

(** How far back the last rune may start: [k] bytes from the end *)
Fixpoint last_start (fuel : nat) (s : list N) (k : nat) : nat :=
  match fuel with
  | O => k
  | S fuel => if (k <=? length s)%nat && is_cont (nth (length s - k) s 0) then last_start fuel s (S k) else k
  end.

(** [utf8.DecodeLastRune]: the last rune and its width *)
Definition DecodeLastRune (s : list N) : Z * nat :=
  match s with
  | [] => (RuneError, 0%nat)
  | _ =>
      let c := last s 0 in
      if c <? 128 then (Z.of_N c, 1%nat)
      else
        let k := Nat.min (last_start 3 s 2) (length s) in
        let '(r, size) := DecodeRune (skipn (length s - k) s) in
        if (size =? k)%nat then (r, size) else (RuneError, 1%nat)
  end.

(** The pieces of a text *)
Fixpoint rune_parts (fuel : nat) (s : list N) : list (Z * list N) :=
  match fuel, s with
  | S fuel, _ :: _ => let '(r, w) := DecodeRune s in (r, firstn w s) :: rune_parts fuel (skipn w s)
  | _, _ => []
  end.

Definition pieces (s : list N) : list (Z * list N) := rune_parts (length s) s.

(** [unicode.IsSpace] *)
Definition IsSpace (r : Z) : bool :=
  ((9 <=? r) && (r <=? 13) || (r =? 32) || (r =? 133) || (r =? 160) || (r =? 5760) || (8192 <=? r) && (r <=? 8202) ||
   (r =? 8232) || (r =? 8233) || (r =? 8239) || (r =? 8287) || (r =? 12288))%Z.

(** [strings.TrimSpace] *)
Fixpoint trim_start (fuel : nat) (s : list N) : list N :=
  match fuel, s with
  | S fuel, _ :: _ => let '(r, w) := DecodeRune s in if IsSpace r then trim_start fuel (skipn w s) else s
  | _, _ => s
  end.

Fixpoint trim_end (fuel : nat) (s : list N) : list N :=
  match fuel, s with
  | S fuel, _ :: _ => let '(r, w) := DecodeLastRune s in if IsSpace r then trim_end fuel (firstn (length s - w) s) else s
  | _, _ => s
  end.

Definition TrimSpace (s : list N) : list N := let s := trim_start (length s) s in trim_end (length s) s.

(** [strconv.ParseUint(s, 0, 64)]: the base is in the prefix of the number, and there may
    be underscores between its digits.  [None] stands for an error. *)
Definition lower (c : N) : N := N.lor c 32.

Definition digit_value (c : N) : option N :=
  if between 48 57 c then Some (c - 48) else if between 97 122 (lower c) then Some (lower c - 87) else None.

Fixpoint parse_digits (base n : N) (underscores : bool) (s : list N) : option (N * bool) :=
  match s with
  | [] => Some (n, underscores)
  | c :: s =>
      if c =? 95 then parse_digits base n true s
      else
        match digit_value c with
        | None => None
        | Some d => if base <=? d then None else let n := n * base + d in if 2 ^ 64 <=? n then None else parse_digits base n underscores s
        end
  end.

(** What was seen last: [None] at the start, a digit, an underscore or something else *)
Fixpoint underscore_loop (hex : bool) (saw : N) (s : list N) : bool :=
  match s with
  | [] => negb (saw =? 95)
  | c :: s =>
      if between 48 57 c || hex && between 97 102 (lower c) then underscore_loop hex 48 s
      else if c =? 95 then if saw =? 48 then underscore_loop hex 95 s else false
      else if saw =? 95 then false else underscore_loop hex 33 s
  end.

Definition underscoreOK (s : list N) : bool :=
  let s := match s with c :: t => if (c =? 45) || (c =? 43) then t else s | [] => s end in
  match s with
  | 48 :: x :: t =>
      if (lower x =? 98) || (lower x =? 111) || (lower x =? 120) then underscore_loop (lower x =? 120) 48 t else underscore_loop false 94 s
  | _ => underscore_loop false 94 s
  end.

Definition ParseUint0 (s : list N) : option N :=
  let parse base t :=
    match parse_digits base 0 false t with
    | Some (n, underscores) => if underscores && negb (underscoreOK s) then None else Some n
    | None => None
    end in
  match s with
  | [] => None
  | 48 :: t =>
      match t with
      | x :: ((_ :: _) as u) =>
          if lower x =? 98 then parse 2 u else if lower x =? 111 then parse 8 u else if lower x =? 120 then parse 16 u else parse 8 t
      | _ => parse 8 t
      end
  | _ => parse 10 s
  end.

(** ** Continuation bytes *)

Fixpoint cont (s : list N) : list N :=
  match s with
  | b :: t => if is_cont b then b :: cont t else []
  | [] => []
  end.

Lemma between_cont lo hi c : 128 <= lo -> hi <= 191 -> is_cont c = false -> between lo hi c = false.
Proof. unfold is_cont. intros Hlo Hhi Hc. destruct (between lo hi c) eqn:E; [| easy]. apply between_spec in E. rewrite between_true in Hc by lia. discriminate. Qed.

(** Only the continuation bytes after a byte matter for its piece. *)
Lemma DecodeRune_cont x s : DecodeRune (x :: s) = DecodeRune (x :: cont s).
Proof.
  assert (H1 : forall c, is_cont c = false -> between (if x =? 224 then 160 else 128) (if x =? 237 then 159 else 191) c = false).
  { intros c. apply between_cont; [destruct (x =? 224) | destruct (x =? 237)]; lia. }
  assert (H2 : forall c, is_cont c = false -> between (if x =? 240 then 144 else 128) (if x =? 244 then 143 else 191) c = false).
  { intros c. apply between_cont; [destruct (x =? 240) | destruct (x =? 244)]; lia. }
  assert (H3 : forall c, is_cont c = false -> between 128 191 c = false) by (intros c; apply between_cont; lia).
  cbn [DecodeRune]. destruct (x <? 128); [reflexivity |].
  destruct s as [|b1 s]; [reflexivity |]. cbn [cont]. destruct (is_cont b1) eqn:E1; [| now rewrite H1, H2, H3 by auto; destruct s as [|? [|? ?]]].
  destruct s as [|b2 s]; [reflexivity |]. cbn [cont]. destruct (is_cont b2) eqn:E2; [| now rewrite !(H3 b2), !andb_false_r by auto; destruct s].
  destruct s as [|b3 s]; [reflexivity |]. cbn [cont]. destruct (is_cont b3) eqn:E3; [reflexivity |]. now rewrite !(H3 b3), !andb_false_r.
Qed.

(** The encoding of a rune: one byte below 128, or a first byte and up to three
    continuation bytes *)
Lemma EncodeRune_shape r : exists b t, EncodeRune r = b :: t /\ is_cont b = false /\ Forall (fun c => is_cont c = true) t /\ (length t <= 3)%nat /\ (t = [] <-> b < 128).
Proof.
  unfold EncodeRune, AppendRune. set (n := Z.to_N (if ValidRune r then r else RuneError)).
  assert (Hn : n <= 1114111) by (unfold n; destruct (ValidRune r) eqn:E; [apply ValidRune_iff in E; clear n; lia | easy]). clearbody n.
  assert (Hm : forall a, is_cont (128 + a mod 64) = true) by (intros a; apply between_true; assert (K := N.mod_lt a 64 ltac:(lia)); generalize dependent (a mod 64); intros m K; lia).
  assert (Hb : forall a, 192 <= a -> is_cont a = false) by (intros a Ha; apply between_false; lia).
  cbn [app]. destruct (N.ltb_spec n 128); [| destruct (N.ltb_spec n 2048); [| destruct (N.ltb_spec n 65536)]]; eexists _, _; (split; [reflexivity |]); splits; auto; try (cbn; lia).
  - apply between_false. lia.
  - easy.
  - apply Hb, N.le_add_r.
  - split; [easy | divlia].
  - apply Hb. divlia.
  - split; [easy | divlia].
  - apply Hb. divlia.
  - split; [easy | divlia].
Qed.

(** A text that starts a piece: it is empty or its first byte is none that continues a
    rune *)
Definition starts (s : list N) : Prop := cont s = [].

Lemma starts_Encode r t : starts (EncodeRune r ++ t).
Proof. destruct (EncodeRune_shape r) as (b & l & -> & Hb & _). unfold starts. cbn. now rewrite Hb. Qed.

Lemma starts_ascii c t : c < 128 -> starts (c :: t).
Proof. intros Hc. unfold starts. cbn. unfold is_cont. rewrite between_false by lia. reflexivity. Qed.

Lemma cont_app a t : starts t -> cont (a ++ t) = cont a.
Proof. intros Ht. induction a as [|b a IH]; [exact Ht |]. cbn. destruct (is_cont b); [now rewrite IH | reflexivity]. Qed.

Lemma DecodeRune_app a t : a <> [] -> starts t -> DecodeRune (a ++ t) = DecodeRune a.
Proof. intros Ha Ht. destruct a as [|x a]; [easy |]. cbn [app]. rewrite DecodeRune_cont, cont_app by auto. symmetry. apply DecodeRune_cont. Qed.

(** ** Pieces *)

Lemma rune_parts_fuel f1 : forall f2 s, (length s <= f1)%nat -> (length s <= f2)%nat -> rune_parts f1 s = rune_parts f2 s.
Proof.
  induction f1 as [|f1 IH]; intros f2 s H1 H2; [destruct s; [now destruct f2 | cbn in H1; lia] |].
  destruct s as [|c s]; [now destruct f2 |]. destruct f2 as [|f2]; [cbn in H2; lia |]. cbn [rune_parts].
  assert (Hw := DecodeRune_width (c :: s) ltac:(easy)). destruct (DecodeRune (c :: s)) as [r w]. cbn [snd] in Hw. f_equal.
  assert (Hl := length_skipn w (c :: s)). cbn [length] in *. apply IH; lia.
Qed.

Lemma pieces_step s : s <> [] -> pieces s = let '(r, w) := DecodeRune s in (r, firstn w s) :: pieces (skipn w s).
Proof.
  intros Hs. unfold pieces at 1. destruct s as [|c s]; [easy |]. cbn [length rune_parts]. assert (Hw := DecodeRune_width (c :: s) Hs).
  destruct (DecodeRune (c :: s)) as [r w]. cbn [snd] in Hw. f_equal. assert (Hl := length_skipn w (c :: s)). cbn [length] in *. apply rune_parts_fuel; lia.
Qed.

Lemma pieces_Encode r t : ValidRune r = true -> pieces (EncodeRune r ++ t) = (r, EncodeRune r) :: pieces t.
Proof.
  intros Hr. assert (Hl := EncodeRune_length r). rewrite pieces_step by (destruct (EncodeRune r); [cbn in Hl; lia | easy]).
  rewrite DecodeRune_Encode by auto. now rewrite firstn_app, firstn_all, Nat.sub_diag, app_nil_r, skipn_app, skipn_all, Nat.sub_diag.
Qed.

(** Cutting a text where a piece starts *)
Lemma DecodeRune_le s : (snd (DecodeRune s) <= length s)%nat.
Proof.
  destruct s as [|x s]; [cbn; lia |]. destruct (DecodeRune (x :: s)) as [r w] eqn:E. destruct (Nat.eq_dec w 1) as [->|Hw]; [cbn; lia |].
  destruct (Encode_DecodeRune (x :: s) r w) as [Hr Hs]; [easy | exact E | congruence |]. assert (HD := DecodeRune_Encode r (skipn w (x :: s)) Hr). rewrite <- Hs, E in HD. injection HD as ->.
  rewrite Hs, length_app. cbn [snd]. lia.
Qed.

Lemma pieces_app a t : starts t -> pieces (a ++ t) = pieces a ++ pieces t.
Proof.
  intros Ht. remember (length a) as n eqn:Hn. revert a Hn. induction n as [n IH] using lt_wf_ind. intros a ->. destruct a as [|x a]; [reflexivity |].
  rewrite (pieces_step (x :: a)), (pieces_step ((x :: a) ++ t)), DecodeRune_app by easy. assert (Hw := DecodeRune_width (x :: a) ltac:(easy)). assert (Hl := DecodeRune_le (x :: a)).
  destruct (DecodeRune (x :: a)) as [r w]. cbn [snd] in *. rewrite firstn_app, skipn_app. replace (w - length (x :: a))%nat with O by lia. cbn [firstn skipn]. rewrite app_nil_r. cbn [app]. f_equal.
  change (skipn 0 t) with t. eapply IH; [| reflexivity]. rewrite length_skipn. cbn [length] in *. lia.
Qed.

(** Lists of pieces: runes, and bytes that start no rune before what follows *)
Inductive wf_pieces : list (Z * list N) -> Prop :=
| wf_nil : wf_pieces []
| wf_rune r l : ValidRune r = true -> wf_pieces l -> wf_pieces ((r, EncodeRune r) :: l)
| wf_bad x l : 128 <= x -> DecodeRune (x :: concat (map snd l)) = (RuneError, 1%nat) -> wf_pieces l -> wf_pieces ((RuneError, [x]) :: l).

Lemma pieces_wf s : wf_pieces (pieces s) /\ concat (map snd (pieces s)) = s.
Proof.
  remember (length s) as n eqn:Hn. revert s Hn. induction n as [n IH] using lt_wf_ind. intros s ->. destruct s as [|x s]; [split; [constructor | reflexivity] |].
  rewrite pieces_step by easy. assert (Hw := DecodeRune_width (x :: s) ltac:(easy)). destruct (DecodeRune (x :: s)) as [r w] eqn:E. cbn [snd] in Hw.
  destruct (IH (length (skipn w (x :: s)))) with (s := skipn w (x :: s)) as [IH1 IH2]; [rewrite length_skipn; cbn [length] in *; lia | reflexivity |].
  cbn [map concat snd]. rewrite IH2. split; [| apply firstn_skipn].
  assert (Hcase : (r, w) = (RuneError, 1%nat) \/ (r, w) <> (RuneError, 1%nat)) by (destruct (Z.eq_dec r RuneError) as [->|], (Nat.eq_dec w 1) as [->|]; auto; right; congruence).
  destruct Hcase as [Hbad|Hok].
  - injection Hbad as -> ->. cbn [firstn skipn] in *. change (skipn 0 s) with s in *. constructor; [| now rewrite IH2 | exact IH1]. cbn [DecodeRune] in E. destruct (N.ltb_spec x 128); [| lia]. injection E as E. unfold RuneError in E. lia.
  - destruct (Encode_DecodeRune (x :: s) r w) as [Hr Hs]; [easy | exact E | exact Hok |]. assert (HD := DecodeRune_Encode r (skipn w (x :: s)) Hr). rewrite <- Hs, E in HD. injection HD as ->.
    rewrite Hs at 1. rewrite firstn_app, firstn_all, Nat.sub_diag, app_nil_r. now constructor.
Qed.

Lemma wf_pieces_eq l : wf_pieces l -> pieces (concat (map snd l)) = l.
Proof.
  induction 1 as [|r l Hr _ IH|x l Hx HD _ IH]; cbn [map concat snd]; [reflexivity | now rewrite pieces_Encode, IH |].
  cbn [app]. rewrite pieces_step, HD by easy. cbn [firstn skipn]. change (skipn 0 ?l) with l. now rewrite IH.
Qed.

Lemma wf_pieces_cases l r b : wf_pieces l -> In (r, b) l -> ValidRune r = true /\ b = EncodeRune r \/ r = RuneError /\ exists x, b = [x] /\ 128 <= x.
Proof. induction 1 as [|r' l Hr _ IH|x l Hx HD _ IH]; intros Hin; [easy | |]; destruct Hin as [E|Hin]; auto; injection E as <- <-; [now left | right; eauto]. Qed.

(** ** Changing pieces *)

Lemma cont_flat_map (f : Z * list N -> list (Z * list N)) l : wf_pieces l ->
  (forall r, ValidRune r = true -> In (r, EncodeRune r) l -> f (r, EncodeRune r) <> [] /\ Forall (fun p => ValidRune (fst p) = true /\ snd p = EncodeRune (fst p)) (f (r, EncodeRune r))) ->
  (forall x, In (RuneError, [x]) l -> 128 <= x -> f (RuneError, [x]) = [(RuneError, [x])]) ->
  cont (concat (map snd (flat_map f l))) = cont (concat (map snd l)) /\ wf_pieces (flat_map f l).
Proof.
  intros Hwf. induction Hwf as [|r l Hr Hwf IH|x l Hx HD Hwf IH]; intros Hgood Hbad; [split; [reflexivity | constructor] | |]; (destruct IH as [IH1 IH2]; [intros; apply Hgood; [auto | now right] | intros; apply Hbad; [now right | auto] |]); cbn [flat_map map concat snd].
  - destruct (Hgood r Hr ltac:(now left)) as [Hne Hall]. rewrite (starts_Encode r). destruct (f (r, EncodeRune r)) as [|[r' b'] l']; [easy |]. apply Forall_cons_iff in Hall as [[Hv Hb] Hall]. cbn [fst snd] in *. subst b'.
    cbn [app map concat snd]. split; [apply starts_Encode |]. constructor; [auto |]. clear - Hall IH2. induction Hall as [|[r b] l' [Hv Hb] _ IH]; [exact IH2 |]. cbn [fst snd] in *. subst b. now constructor.
  - rewrite (Hbad x) by (auto; now left). cbn [app map concat snd cont]. rewrite IH1. split; [reflexivity |]. constructor; auto. rewrite DecodeRune_cont, IH1, <- DecodeRune_cont. exact HD.
Qed.

(** ** The last rune *)

Lemma last_app_cons (a : list N) b t d : last (a ++ b :: t) d = last (b :: t) d.
Proof. induction a as [|x a IH]; [reflexivity |]. cbn [app]. rewrite <- IH. destruct a; reflexivity. Qed.

Lemma DecodeLastRune_Encode a r : ValidRune r = true -> DecodeLastRune (a ++ EncodeRune r) = (r, length (EncodeRune r)).
Proof.
  intros Hr. assert (HD := DecodeRune_Encode r [] Hr). rewrite app_nil_r in HD. destruct (EncodeRune_shape r) as (b & t & E & Hb & Ht & Hl & Hb128). rewrite E in *.
  assert (Hnth : forall k, (k <= S (length t))%nat -> nth (length (a ++ b :: t) - k) (a ++ b :: t) 0 = nth (S (length t) - k) (b :: t) 0).
  { intros k Hk. rewrite length_app. cbn [length]. rewrite app_nth2 by lia. f_equal. lia. }
  assert (Hsk : skipn (length (a ++ b :: t) - S (length t)) (a ++ b :: t) = b :: t).
  { rewrite length_app. cbn [length]. replace (length a + S (length t) - S (length t))%nat with (length a) by lia. now rewrite skipn_app, skipn_all, Nat.sub_diag. }
  assert (Hlen : length (a ++ b :: t) = (length a + S (length t))%nat) by (rewrite length_app; reflexivity).
  unfold DecodeLastRune. destruct (a ++ b :: t) as [|y l] eqn:Eq; [destruct a; discriminate |]. rewrite <- Eq in *. clear y l Eq. rewrite last_app_cons.
  destruct t as [|c1 t].
  - cbn [last]. apply proj1 in Hb128. specialize (Hb128 eq_refl). destruct (N.ltb_spec b 128); [| lia]. cbn [DecodeRune] in HD. destruct (N.ltb_spec b 128); [congruence | lia].
  - assert (Hlast : last (b :: c1 :: t) 0 <? 128 = false).
    { assert (Hin : In (last (b :: c1 :: t) 0) (c1 :: t)) by (change (last (b :: c1 :: t) 0) with (last (c1 :: t) 0); destruct (exists_last (l := c1 :: t)) as (u & z & ->); [easy |]; rewrite last_last; apply in_or_app; right; now left).
      rewrite Forall_forall in Ht. specialize (Ht _ Hin). apply between_spec in Ht. apply N.ltb_ge. lia. }
    rewrite Hlast. assert (Hk : Nat.min (last_start 3 (a ++ b :: c1 :: t) 2) (length (a ++ b :: c1 :: t)) = S (length (c1 :: t))).
    { assert (Hle : forall k, (k <= S (length (c1 :: t)))%nat -> (k <=? length (a ++ b :: c1 :: t))%nat = true) by (intros k Hk; apply Nat.leb_le; rewrite Hlen; lia).
      rewrite Hlen. cbn [last_start]. destruct t as [|c2 [|c3 [|c4 t]]]; cbn [length] in *; try lia;
        repeat first [rewrite Hle by lia | rewrite Hnth by lia | rewrite Hb]; cbn [length Nat.sub nth andb]; rewrite ?Hb; cbn [andb];
        repeat match goal with H : Forall _ (_ :: _) |- _ => apply Forall_cons_iff in H as [? ?] end;
        repeat match goal with H : is_cont ?c = true |- context [is_cont ?c] => rewrite H end; cbn [andb]; repeat first [rewrite Hle by lia | rewrite Hnth by lia | rewrite Hb]; cbn [length Nat.sub nth andb]; rewrite ?Hb; cbn [andb];
        repeat match goal with H : is_cont ?c = true |- context [is_cont ?c] => rewrite H end; cbn [andb]; repeat first [rewrite Hle by lia | rewrite Hnth by lia | rewrite Hb]; cbn [length Nat.sub nth andb]; rewrite ?Hb; cbn [andb]; lia. }
    rewrite Hk, Hsk, HD. cbn [length]. rewrite Nat.eqb_refl. reflexivity.
Qed.

Lemma last_start_ge f s : forall k, (k <= last_start f s k)%nat.
Proof. induction f as [|f IH]; intros k; cbn [last_start]; [lia |]. destruct (_ && _); [| lia]. specialize (IH (S k)). lia. Qed.

Lemma DecodeLastRune_cases s r w : s <> [] -> DecodeLastRune s = (r, w) -> (r, w) = (RuneError, 1%nat) \/ ValidRune r = true /\ w = length (EncodeRune r) /\ exists a, s = a ++ EncodeRune r.
Proof.
  intros Hs. destruct (exists_last (l := s) Hs) as (u & z & Es). unfold DecodeLastRune. destruct s as [|y l] eqn:Eq; [easy |]. rewrite <- Eq in *. clear y l Eq. rewrite Es, last_last.
  destruct (N.ltb_spec z 128) as [Hz|Hz].
  - intros E. injection E as <- <-. right. assert (Hv : ValidRune (Z.of_N z) = true) by (apply ValidRune_iff; lia).
    assert (Ee : EncodeRune (Z.of_N z) = [z]) by (unfold EncodeRune, AppendRune; rewrite Hv, N2Z.id; cbn [app]; destruct (N.ltb_spec z 128); [reflexivity | lia]). rewrite Ee. splits; eauto.
  - rewrite <- Es. set (k := Nat.min _ _). assert (Hk : (k <= length s)%nat) by (unfold k; lia). destruct (DecodeRune (skipn (length s - k) s)) as [r' size] eqn:E.
    destruct (Nat.eqb_spec size k) as [->|Hsz]; intros Heq; injection Heq as <- <-; [| now left].
    assert (Hne : skipn (length s - k) s <> []).
    { intros K. apply (f_equal (@length _)) in K. rewrite length_skipn in K. assert (Hge := last_start_ge 3 s 2). destruct s; [easy |]. unfold k in K. cbn [length] in K. lia. }
    assert (Hcase : (r', k) = (RuneError, 1%nat) \/ (r', k) <> (RuneError, 1%nat)) by (destruct (Z.eq_dec r' RuneError) as [->|], (Nat.eq_dec k 1) as [->|]; auto; right; congruence).
    destruct Hcase as [Hb|Hok]; [now left | right]. destruct (Encode_DecodeRune _ _ _ Hne E Hok) as [Hr Hsk]. split; [exact Hr |].
    rewrite skipn_skipn in Hsk. replace (k + (length s - k))%nat with (length s) in Hsk by lia. rewrite skipn_all, app_nil_r in Hsk.
    split; [apply (f_equal (@length _)) in Hsk; rewrite length_skipn in Hsk; lia |]. exists (firstn (length s - k) s). rewrite <- Hsk. symmetry. apply firstn_skipn.
Qed.

(** A byte that belongs to no rune, at the end *)
Lemma DecodeLastRune_bad l x : wf_pieces (l ++ [(RuneError, [x])]) -> 128 <= x -> DecodeLastRune (concat (map snd (l ++ [(RuneError, [x])]))) = (RuneError, 1%nat).
Proof.
  intros Hwf Hx. assert (HP := wf_pieces_eq _ Hwf). set (s := concat _) in *. assert (Hs : s <> []) by (intros K; rewrite K in HP; now destruct l).
  destruct (DecodeLastRune s) as [r w] eqn:E. destruct (DecodeLastRune_cases s r w Hs E) as [K|(Hr & Hw & a & Ea)]; [exact K | exfalso].
  rewrite Ea, <- (app_nil_r (EncodeRune r)), pieces_app, pieces_Encode in HP by (auto; apply starts_Encode). change (pieces []) with (@nil (Z * list N)) in HP.
  apply app_inj_tail in HP as [_ HP]. injection HP as -> HP. destruct (EncodeRune_shape RuneError) as (b & t & Eb & _ & _ & _ & Hb). rewrite Eb in HP. injection HP as -> ->. assert (x < 128) by now apply Hb. lia.
Qed.
