(* ===== verification/NameEncoding.v ===== *)
(** * Encodings of encrypted names (src/backend/crypt/cipher.go)

    An encrypted name is bytes, which [fileNameEncoding] writes with characters that
    every remote allows: base32 in small letters without padding, base64 with the
    alphabet of URLs, or base32768 (a package the code calls: any implementation of
    the class).  base32 and base64 are packages of Go's library, modelled here with
    the offsets of their errors: the digits of groups of 5 or 3 bytes. *)
From Stdlib Require Import String.
From Stdlib Require Import List Arith NArith ZArith Lia Bool.
From S2P Require Import Prelude Crypt GoStrings.
Import ListNotations.
Local Open Scope N_scope.

(** ** Groups of digits *)

(** The number with the digits [l], the highest first *)
Definition number_of (B : N) (l : list N) : N := fold_left (fun a d => a * B + d) l 0.

Fixpoint digits_of (B : N) (n : nat) (v : N) : list N :=
  match n with
  | O => []
  | S n => digits_of B n (v / B) ++ [v mod B]
  end.

Section Groups.
(** [nb] bytes make [nd] digits of [w] bits. *)
Context (nb nd w : nat).

Definition pad (n : nat) (l : list N) : list N := l ++ repeat 0 (n - length l).

(** The digits that hold the bits of [chunk], at most [nb] bytes *)
Definition group_digits (chunk : list N) : list N :=
  firstn ((8 * length chunk + (w - 1)) / w) (digits_of (2 ^ N.of_nat w) nd (number_of 256 (pad nb chunk))).

(** The whole bytes in at most [nd] digits *)
Definition group_bytes (digits : list N) : list N :=
  firstn (length digits * w / 8) (digits_of 256 nb (number_of (2 ^ N.of_nat w) (pad nd digits))).

Fixpoint encode_groups (fuel : nat) (f : list N -> list N) (s : list N) : list N :=
  match fuel, s with
  | S fuel, _ :: _ => f (group_digits (firstn nb s)) ++ encode_groups fuel f (skipn nb s)
  | _, _ => []
  end.
End Groups.

(** The value of a character in an alphabet *)
Fixpoint value_of (alphabet : list N) (c : N) : option N :=
  match alphabet with
  | [] => None
  | a :: alphabet => if a =? c then Some 0 else option_map N.succ (value_of alphabet c)
  end.

Definition char_of (alphabet : list N) (d : N) : N := nth (N.to_nat d) alphabet 0.

Definition is_newline (c : N) : bool := (c =? 10) || (c =? 13).

(** ** Package base32: [HexEncoding] *)
Module Base32.
Definition alphabet : list N := Eval vm_compute in bytes_of "0123456789ABCDEFGHIJKLMNOPQRSTUV".
Definition padChar : N := 61.

(** [EncodeToString]: a group has 8 characters. *)
Definition EncodeToString (src : list N) : list N :=
  encode_groups 5 8 5 (length src) (fun ds => map (char_of alphabet) ds ++ repeat padChar (8 - length ds)) src.

(** A character among the [n] first of [src] that is not padding *)
Fixpoint not_padding (n k : nat) (src : list N) : option nat :=
  match n, src with
  | S n, c :: src => if c =? padChar then not_padding n (S k) src else Some k
  | _, _ => None
  end.

(** One group of [decode]: its digits, what is left and whether the end was found;
    [olen] is the length of the whole text. *)
Fixpoint decode_group (olen : nat) (src dbuf : list N) : (list N * list N * bool) + cryptError :=
  let j := length dbuf in
  if (j =? 8)%nat then inl (dbuf, src, false)
  else match src with
       | [] => inr (CorruptInputError (olen - j))
       | c :: src =>
           if (c =? padChar) && (2 <=? j)%nat && (length src <? 8)%nat then
             if (length src + j <? 7)%nat then inr (CorruptInputError olen)
             else match not_padding (7 - j) 0 src with
                  | Some k => inr (CorruptInputError (olen - length src + k - 1))
                  | None =>
                      if (j =? 3)%nat || (j =? 6)%nat then inr (CorruptInputError (olen - length src - 1))
                      else inl (dbuf, src, true)
                  end
           else match value_of alphabet c with
                | None => inr (CorruptInputError (olen - length src - 1))
                | Some d => decode_group olen src (dbuf ++ [d])
                end
       end.

(** Every group takes a character at least. *)
Fixpoint decode (fuel olen : nat) (src : list N) : list N + cryptError :=
  match fuel, src with
  | S fuel, _ :: _ =>
      match decode_group olen src [] with
      | inr e => inr e
      | inl (ds, rest, last) =>
          if last then inl (group_bytes 5 8 5 ds)
          else match decode fuel olen rest with
               | inl l => inl (group_bytes 5 8 5 ds ++ l)
               | inr e => inr e
               end
      end
  | _, _ => inl []
  end.

(** [DecodeString], which leaves line breaks out *)
Definition DecodeString (s : list N) : list N + cryptError :=
  let s := filter (fun c => negb (is_newline c)) s in
  decode (length s) (length s) s.
End Base32.

(** ** Package base64: [RawURLEncoding] *)
Module Base64.
Definition alphabet : list N := Eval vm_compute in bytes_of "ABCDEFGHIJKLMNOPQRSTUVWXYZabcdefghijklmnopqrstuvwxyz0123456789-_".

Definition EncodeToString (src : list N) : list N := encode_groups 3 4 6 (length src) (map (char_of alphabet)) src.

(** [decodeQuantum] at the offset [si]: the digits and what is left *)
Fixpoint decode_group (si : nat) (src dbuf : list N) : (nat * list N * list N) + cryptError :=
  let j := length dbuf in
  if (j =? 4)%nat then inl (si, src, dbuf)
  else match src with
       | [] => if (j =? 1)%nat then inr (CorruptInputError (si - j)) else inl (si, [], dbuf)
       | c :: src =>
           match value_of alphabet c with
           | Some d => decode_group (S si) src (dbuf ++ [d])
           | None => if is_newline c then decode_group (S si) src dbuf else inr (CorruptInputError si)
           end
       end.

Fixpoint decode (fuel si : nat) (src : list N) : list N + cryptError :=
  match fuel, src with
  | S fuel, _ :: _ =>
      match decode_group si src [] with
      | inr e => inr e
      | inl (si, rest, ds) =>
          match decode fuel si rest with
          | inl l => inl (group_bytes 3 4 6 ds ++ l)
          | inr e => inr e
          end
      end
  | _, _ => inl []
  end.

Definition DecodeString (s : list N) : list N + cryptError := decode (length s) 0 s.
End Base64.

(** ** The interface *)

Class fileNameEncoding : Type := { EncodeToString : list N -> list N; DecodeString : list N -> list N + cryptError }.

(** What the names rely on: no encoded name has a slash in it or is empty. *)
Class GoodEncoding `{fileNameEncoding} : Prop := {
  Decode_Encode : forall s, Forall is_byte s -> DecodeString (EncodeToString s) = inl s;
  Encode_slash : forall s, Forall is_byte s -> ~ In 47 (EncodeToString s);
  Encode_empty : forall s, Forall is_byte s -> s <> [] -> EncodeToString s <> []
}.

Module caseInsensitiveBase32Encoding.
Section Upper.
Context `{Unicode}.

Definition EncodeToString (src : list N) : list N := ToLower (TrimRight 61 (Base32.EncodeToString src)).

(** The padding that was left out is put back. *)
Definition DecodeString (s : list N) : list N + cryptError :=
  if HasSuffix s [61] then inr ErrorBadBase32Encoding
  else
    let roundUpToMultipleOf8 := N.ldiff (N.of_nat (length s) + 7) 7 in
    let equals := roundUpToMultipleOf8 - N.of_nat (length s) in
    Base32.DecodeString (ToUpper s ++ repeat 61 (N.to_nat equals)).
End Upper.
End caseInsensitiveBase32Encoding.

Definition base32_encoding `{Unicode} : fileNameEncoding := {|
  EncodeToString := caseInsensitiveBase32Encoding.EncodeToString;
  DecodeString := caseInsensitiveBase32Encoding.DecodeString
|}.

Definition base64_encoding : fileNameEncoding := {| EncodeToString := Base64.EncodeToString; DecodeString := Base64.DecodeString |}.

(** [NewNameEncoding]; base32768 is given. *)
Definition NewNameEncoding `{Unicode} (base32768 : fileNameEncoding) (s : list N) : fileNameEncoding + cryptError :=
  let s := ToLower s in
  if eqb_bytes s (bytes_of "base32") then inl base32_encoding
  else if eqb_bytes s (bytes_of "base64") then inl base64_encoding
  else if eqb_bytes s (bytes_of "base32768") then inl base32768
  else inr (errOther 0).
