(* ===== verification/Version.v ===== *)
(** * Versions in file names (src/lib/version/version.go)

    An old version of a file is named with the time it was made, as in
    "file-v2001-02-03-040506-123.txt".  [Time] is a time in UTC with milliseconds, of
    a year of four digits: what [time.Parse] gives for [versionFormat] and [Format]
    writes.  These two functions are modelled for this one layout; the [Match] of the
    regular expression, for this one expression. *)
From Stdlib Require Import String.
From Stdlib Require Import List Arith NArith ZArith Lia Bool.
From S2P Require Import Prelude GoStrings.
Import ListNotations.
Local Open Scope N_scope.

(** ** Times *)

Record Time : Type := mkTime { year : N; month : N; day : N; hour : N; minute : N; second : N; milli : N }.

Definition isLeap (y : N) : bool := (y mod 4 =? 0) && (negb (y mod 100 =? 0) || (y mod 400 =? 0)).

Definition daysIn (m y : N) : N :=
  if m =? 2 then if isLeap y then 29 else 28
  else if (m =? 4) || (m =? 6) || (m =? 9) || (m =? 11) then 30 else 31.

Definition digit (n : N) : N := 48 + n mod 10.
Definition digits2 (n : N) : list N := [digit (n / 10); digit n].
Definition digits3 (n : N) : list N := [digit (n / 100); digit (n / 10); digit n].
Definition digits4 (n : N) : list N := [digit (n / 1000); digit (n / 100); digit (n / 10); digit n].

Definition versionFormat : list N := Eval vm_compute in bytes_of "-v2006-01-02-150405.000".

(** [t.Format(versionFormat)] *)
Definition Format (t : Time) : list N :=
  [45; 118] ++ digits4 (year t) ++ [45] ++ digits2 (month t) ++ [45] ++ digits2 (day t) ++ [45] ++
  digits2 (hour t) ++ digits2 (minute t) ++ digits2 (second t) ++ [46] ++ digits3 (milli t).

Definition num (s : list N) : N := number 0 s.

(** [getnum(value, fixed)]: a number of two digits, or of one if it is not [fixed] *)
Definition getnum (fixed : bool) (s : list N) : option (N * list N) :=
  match s with
  | a :: s1 =>
      if isDigit a then
        match s1 with
        | b :: s2 => if isDigit b then Some (num [a; b], s2) else if fixed then None else Some (num [a], s1)
        | [] => if fixed then None else Some (num [a], s1)
        end
      else None
  | [] => None
  end.

Definition skip_char (c : N) (s : list N) : option (list N) :=
  match s with
  | x :: s => if x =? c then Some s else None
  | [] => None
  end.

Definition in_range (lo hi n : N) : option unit := if (lo <=? n) && (n <=? hi) then Some tt else None.

(** The year: four digits, of which the first is looked at before [atoi] *)
Definition getyear (s : list N) : option (N * list N) :=
  match s with
  | a :: b :: c :: d :: s => if isDigit a && isDigit b && isDigit c && isDigit d then Some (num [a; b; c; d], s) else None
  | _ => None
  end.

(** The three digits after the dot; [atoi] takes a sign, and a number below 0 is out
    of range. *)
Definition getmilli (s : list N) : option (N * list N) :=
  match s with
  | a :: b :: c :: s =>
      if isDigit a && isDigit b && isDigit c then Some (num [a; b; c], s)
      else if ((a =? 43) || (a =? 45)) && isDigit b && isDigit c then
        if (a =? 45) && (0 <? num [b; c]) then None else Some (num [b; c], s)
      else None
  | _ => None
  end.

Definition obind {A B} (o : option A) (k : A -> option B) : option B := match o with Some a => k a | None => None end.
Notation "x <-? c ; k" := (obind c (fun x => k)) (at level 60, c at next level, right associativity).
Notation "' p <-? c ; k" := (obind c (fun x => let p := x in k)) (at level 60, p pattern, c at next level, right associativity).

(** [time.Parse(versionFormat, s)] *)
Definition Parse (s : list N) : option Time :=
  s <-? skip_char 45 s ; s <-? skip_char 118 s ;
  '(y, s) <-? getyear s ; s <-? skip_char 45 s ;
  '(mo, s) <-? getnum true s ; _ <-? in_range 1 12 mo ; s <-? skip_char 45 s ;
  '(d, s) <-? getnum true s ; s <-? skip_char 45 s ;
  '(h, s) <-? getnum false s ; _ <-? in_range 0 23 h ;
  '(mi, s) <-? getnum true s ; _ <-? in_range 0 59 mi ;
  '(sec, s) <-? getnum true s ; _ <-? in_range 0 59 sec ;
  s <-? skip_char 46 s ; '(ms, s) <-? getmilli s ;
  match s with
  | [] => _ <-? in_range 1 (daysIn mo y) d ; Some (mkTime y mo d h mi sec ms)
  | _ => None
  end.

(** ** The package *)

(** The expression -v\d{4}-\d{2}-\d{2}-\d{6}-\d{3}, a test for every character *)
Definition versionRegexp : list (N -> bool) :=
  [N.eqb 45; N.eqb 118] ++ repeat isDigit 4 ++ [N.eqb 45] ++ repeat isDigit 2 ++ [N.eqb 45] ++ repeat isDigit 2 ++
  [N.eqb 45] ++ repeat isDigit 6 ++ [N.eqb 45] ++ repeat isDigit 3.

Fixpoint match_at (re : list (N -> bool)) (s : list N) : bool :=
  match re, s with
  | [], _ => true
  | p :: re, c :: s => p c && match_at re s
  | _, [] => false
  end.

Fixpoint MatchString (re : list (N -> bool)) (s : list N) : bool :=
  match_at re s || match s with [] => false | _ :: s => MatchString re s end.

Definition Match (fileName : list N) : bool := MatchString versionRegexp fileName.

(** [splitExt] *)
Definition splitExt (fileName : list N) : list N * list N :=
  let ext := Ext fileName in
  let base := firstn (length fileName - length ext) fileName in
  match ext, base with
  | _ :: _, [] => (ext, base)
  | _, _ => (base, ext)
  end.

(** [Add] *)
Definition Add (fileName : list N) (t : Time) : list N :=
  let '(base, ext) := splitExt fileName in
  let s := Format t in
  let s := ReplaceAll 46 45 s in
  base ++ s ++ ext.

(** [Remove]: the time is [None] for [time.Time{}]. *)
Definition Remove (fileName : list N) : option Time * list N :=
  let '(base, ext) := splitExt fileName in
  if (length base <? length versionFormat)%nat then (None, fileName)
  else
    let versionStart := (length base - length versionFormat)%nat in
    if negb (nth (length base - 4) base 0 =? 45) then (None, fileName)
    else
      let base := firstn (length base - 4) base ++ [46] ++ skipn (length base - 3) base in
      match Parse (skipn versionStart base) with
      | None => (None, fileName)
      | Some newT => (Some newT, firstn versionStart base ++ ext)
      end.

Example add1 : Add (bytes_of "file.txt") (mkTime 2001 2 3 4 5 6 123) = bytes_of "file-v2001-02-03-040506-123.txt". Proof. reflexivity. Qed.
Example remove1 : Remove (bytes_of "file-v2001-02-03-040506-123.txt") = (Some (mkTime 2001 2 3 4 5 6 123), bytes_of "file.txt"). Proof. reflexivity. Qed.
Example remove2 : Remove (bytes_of "file-v2001-02-29-040506-123.txt") = (None, bytes_of "file-v2001-02-29-040506-123.txt"). Proof. reflexivity. Qed.
Example match1 : Match (bytes_of "file-v2001-02-29-040506-123.txt") = true. Proof. reflexivity. Qed.
Example remove3 : Remove (bytes_of "-v2001-02-28-040506-123.txt") = (Some (mkTime 2001 2 28 4 5 6 123), bytes_of ".txt"). Proof. reflexivity. Qed.

(** ** Laws *)

Definition valid_time (t : Time) : Prop :=
  year t < 10000 /\ 1 <= month t <= 12 /\ 1 <= day t <= daysIn (month t) (year t) /\
  hour t < 24 /\ minute t < 60 /\ second t < 60 /\ milli t < 1000.

Lemma daysIn_bound m y : 28 <= daysIn m y <= 31.
Proof. unfold daysIn. destruct (m =? 2); [destruct (isLeap y); lia |]. destruct (_ || _); lia. Qed.

Lemma isDigit_iff c : isDigit c = true <-> 48 <= c <= 57.
Proof. unfold isDigit. rewrite andb_true_iff, !N.leb_le. tauto. Qed.

Lemma isDigit_digit n : isDigit (digit n) = true.
Proof. unfold digit. assert (H := N.mod_lt n 10 ltac:(lia)). apply isDigit_iff. revert H. generalize (n mod 10). lia. Qed.

(** One digit more *)
Lemma num_digit l n : num l = n / 10 -> num (l ++ [digit n]) = n.
Proof.
  intros H. unfold num, number in *. rewrite fold_left_app, H. cbn [fold_left]. unfold digit. assert (Hdm := N.div_mod n 10 ltac:(lia)).
  revert Hdm. generalize (n mod 10) (n / 10). lia.
Qed.

Lemma num_digit1 n : n < 10 -> num [digit n] = n.
Proof. intros H. apply (num_digit []). now rewrite N.div_small. Qed.

Lemma num_digits2 n : n < 100 -> num [digit (n / 10); digit n] = n.
Proof. intros H. apply (num_digit [_]), num_digit1, N.Div0.div_lt_upper_bound. lia. Qed.

Lemma num_digits3 n : n < 1000 -> num [digit (n / 100); digit (n / 10); digit n] = n.
Proof. intros H. apply (num_digit [_; _]). change 100 with (10 * 10). rewrite <- N.Div0.div_div. apply num_digits2, N.Div0.div_lt_upper_bound. lia. Qed.

Lemma num_digits4 n : n < 10000 -> num [digit (n / 1000); digit (n / 100); digit (n / 10); digit n] = n.
Proof.
  intros H. apply (num_digit [_; _; _]). assert (K : num [digit (n / 10 / 100); digit (n / 10 / 10); digit (n / 10)] = n / 10) by (apply num_digits3, N.Div0.div_lt_upper_bound; lia).
  rewrite !N.Div0.div_div in K. exact K.
Qed.

Lemma in_range_true lo hi n : lo <= n <= hi -> in_range lo hi n = Some tt.
Proof. intros H. unfold in_range. replace ((lo <=? n) && (n <=? hi)) with true; [easy |]. symmetry. apply andb_true_iff. rewrite !N.leb_le. lia. Qed.

Lemma in_range_inv lo hi n u : in_range lo hi n = Some u -> lo <= n <= hi.
Proof. unfold in_range. destruct (_ && _) eqn:E; [| discriminate]. apply andb_true_iff in E. rewrite !N.leb_le in E. lia. Qed.

Lemma getnum_digits2 b n s : n < 100 -> getnum b (digits2 n ++ s) = Some (n, s).
Proof. intros H. cbn [digits2 app getnum]. rewrite !isDigit_digit. now rewrite num_digits2. Qed.

Lemma getyear_digits4 n s : n < 10000 -> getyear (digits4 n ++ s) = Some (n, s).
Proof. intros H. cbn [digits4 app getyear]. rewrite !isDigit_digit. cbn [andb]. now rewrite num_digits4. Qed.

Lemma getmilli_digits3 n : n < 1000 -> getmilli (digits3 n) = Some (n, []).
Proof. intros H. cbn [digits3 getmilli]. rewrite !isDigit_digit. cbn [andb]. now rewrite num_digits3. Qed.

(** A time that was written is parsed. *)
Lemma Parse_Format t : valid_time t -> Parse (Format t) = Some t.
Proof.
  intros (Hy & Hmo & Hd & Hh & Hmi & Hs & Hms). assert (Hb := daysIn_bound (month t) (year t)). unfold Parse, Format. cbn [app skip_char N.eqb Pos.eqb obind].
  rewrite getyear_digits4 by auto. cbn [app skip_char N.eqb Pos.eqb obind]. rewrite getnum_digits2 by lia. cbn [obind]. rewrite (in_range_true 1 12) by auto.
  cbn [app skip_char N.eqb Pos.eqb obind]. rewrite getnum_digits2 by lia. cbn [app skip_char N.eqb Pos.eqb obind]. rewrite getnum_digits2 by lia. cbn [obind].
  rewrite (in_range_true 0 23) by lia. cbn [obind]. rewrite getnum_digits2 by lia. cbn [obind]. rewrite (in_range_true 0 59) by lia. cbn [obind].
  rewrite getnum_digits2 by lia. cbn [obind]. rewrite (in_range_true 0 59) by lia. cbn [app skip_char N.eqb Pos.eqb obind]. rewrite getmilli_digits3 by auto. cbn [obind].
  rewrite in_range_true by lia. now destruct t.
Qed.

Lemma obind_inv {A B} (o : option A) (k : A -> option B) b : obind o k = Some b -> exists a, o = Some a /\ k a = Some b.
Proof. destruct o; [eauto | discriminate]. Qed.

Lemma num_bound l : forallb isDigit l = true -> num l < 10 ^ N.of_nat (length l).
Proof.
  unfold num, number. induction l as [|c l IH] using rev_ind; [easy |]. rewrite forallb_app, fold_left_app, length_app. cbn [fold_left length forallb]. intros [Hl Hc]%andb_true_iff.
  rewrite andb_true_r in Hc. apply isDigit_iff in Hc. specialize (IH Hl). rewrite Nat.add_1_r, Nat2N.inj_succ, N.pow_succ_r'. lia.
Qed.

Lemma getyear_inv s y r : getyear s = Some (y, r) -> y < 10000.
Proof.
  destruct s as [|a [|b [|c [|d s]]]]; try discriminate. cbn [getyear]. destruct (_ && _) eqn:E; [| discriminate]. intros K. injection K as <- <-.
  apply (num_bound [a; b; c; d]). cbn [forallb]. rewrite !andb_true_iff in *. tauto.
Qed.

Lemma getmilli_inv s m r : getmilli s = Some (m, r) -> m < 1000.
Proof.
  destruct s as [|a [|b [|c s]]]; try discriminate. cbn [getmilli]. destruct (isDigit a && isDigit b && isDigit c) eqn:E.
  - intros K. injection K as <- <-. apply (num_bound [a; b; c]). cbn [forallb]. rewrite !andb_true_iff in *. tauto.
  - clear E. destruct (_ && isDigit b && isDigit c) eqn:E2; [| discriminate]. destruct (_ && (0 <? _)); [discriminate |]. intros K. injection K as <- <-.
    assert (Hn := num_bound [b; c]). cbn [forallb length] in Hn. change (10 ^ N.of_nat 2) with 100 in Hn. rewrite !andb_true_iff in *. assert (num [b; c] < 100) by (apply Hn; tauto). lia.
Qed.

(** What is parsed is a time. *)
Lemma Parse_valid s t : Parse s = Some t -> valid_time t.
Proof.
  unfold Parse. intros E. repeat match type of E with
    | obind ?o _ = Some _ => let a := fresh "a" in let Ha := fresh "Ha" in apply obind_inv in E as (a & Ha & E); try destruct a as [? ?]
    end.
  match type of E with match ?l with [] => _ | _ => _ end = _ => destruct l; [| discriminate] end. apply obind_inv in E as (u & Hd & E). injection E as <-.
  repeat match goal with H : in_range _ _ _ = Some _ |- _ => apply in_range_inv in H | H : getyear _ = Some _ |- _ => apply getyear_inv in H | H : getmilli _ = Some _ |- _ => apply getmilli_inv in H end.
  unfold valid_time. cbn [year month day hour minute second milli]. lia.
Qed.

Lemma splitExt_insert f u : undotted u -> let '(b, e) := splitExt f in f = b ++ e /\ splitExt (b ++ u ++ e) = (b ++ u, e).
Proof.
  intros Hu. unfold splitExt at 1. destruct (Ext_cases f) as [(b & e & -> & He & ->)|[E HE]].
  - rewrite length_app, Nat.add_sub, firstn_app, firstn_all, Nat.sub_diag, app_nil_r. destruct b as [|c b].
    + split; [now rewrite app_nil_r |]. rewrite app_nil_r. assert (Heu : undotted (e ++ u)) by now apply undotted_app.
      unfold splitExt. cbn [app]. assert (EE := Ext_dot [] (e ++ u) Heu). cbn [app] in EE. rewrite EE. now rewrite Nat.sub_diag.
    + split; [easy |]. rewrite app_assoc. set (bu := (c :: b) ++ u). assert (Hbu : bu <> []) by easy. unfold splitExt. rewrite Ext_dot, length_app, Nat.add_sub, firstn_app, firstn_all, Nat.sub_diag, app_nil_r by auto. now destruct bu.
  - rewrite E. cbn [length]. rewrite Nat.sub_0_r, firstn_all. split; [now rewrite app_nil_r |]. rewrite app_nil_r. unfold splitExt. rewrite HE by auto.
    cbn [length]. now rewrite Nat.sub_0_r, firstn_all.
Qed.

(** The text that [Add] puts into a name *)
Definition version_text (t : Time) : list N := ReplaceAll 46 45 (Format t).

Lemma digit_not n c : c < 48 -> digit n <> c.
Proof. intros H. unfold digit. generalize (n mod 10). lia. Qed.

Lemma ReplaceAll_digit n : (if digit n =? 46 then 45 else digit n) = digit n.
Proof. destruct (N.eqb_spec (digit n) 46) as [E|]; [| easy]. now apply digit_not in E. Qed.

Lemma version_text_eq t : exists v, length v = 19%nat /\ Format t = v ++ [46] ++ digits3 (milli t) /\ version_text t = v ++ [45] ++ digits3 (milli t) /\ undotted (version_text t) /\
  forall s, match_at versionRegexp (version_text t ++ s) = true.
Proof.
  exists ([45; 118] ++ digits4 (year t) ++ [45] ++ digits2 (month t) ++ [45] ++ digits2 (day t) ++ [45] ++ digits2 (hour t) ++ digits2 (minute t) ++ digits2 (second t)).
  assert (E : version_text t = ([45; 118] ++ digits4 (year t) ++ [45] ++ digits2 (month t) ++ [45] ++ digits2 (day t) ++ [45] ++ digits2 (hour t) ++ digits2 (minute t) ++ digits2 (second t)) ++ [45] ++ digits3 (milli t)).
  { unfold version_text, Format, digits4, digits3, digits2. cbn [app ReplaceAll map]. now rewrite !ReplaceAll_digit. }
  splits; [easy | now rewrite <- !app_assoc | exact E | |].
  - rewrite E. unfold digits4, digits3, digits2. cbn [app]. split; intros K; cbn [In] in K; repeat match goal with K : _ \/ _ |- _ => destruct K as [K|K] end; try discriminate; try (now apply digit_not in K); easy.
  - intros s. rewrite E. unfold digits4, digits3, digits2, versionRegexp. cbn [app repeat match_at]. rewrite !isDigit_digit. reflexivity.
Qed.

Lemma version_text_length t : length (version_text t) = 23%nat.
Proof. destruct (version_text_eq t) as (v & Hv & _ & -> & _). rewrite !length_app, Hv. reflexivity. Qed.

Lemma MatchString_app re a s : match_at re s = true -> MatchString re (a ++ s) = true.
Proof.
  intros H. induction a as [|c a IH]; cbn [app]; [destruct s; cbn [MatchString]; now rewrite H |]. cbn [MatchString]. rewrite IH. apply orb_true_r.
Qed.

Lemma Match_version b t e : Match (b ++ version_text t ++ e) = true.
Proof. destruct (version_text_eq t) as (v & _ & _ & _ & _ & Hm). apply MatchString_app, Hm. Qed.

Lemma Remove_version b t e : valid_time t -> splitExt (b ++ version_text t ++ e) = (b ++ version_text t, e) -> Remove (b ++ version_text t ++ e) = (Some t, b ++ e).
Proof.
  intros Ht Es. destruct (version_text_eq t) as (v & Hv & Ef & Ev & _). assert (Hl := version_text_length t).
  unfold Remove. rewrite Es. change (length versionFormat) with 23%nat. rewrite length_app, Hl. destruct (Nat.ltb_spec (length b + 23) 23); [lia |].
  replace (length b + 23 - 23)%nat with (length b) by lia.
  assert (Hn : nth (length b + 23 - 4) (b ++ version_text t) 0 = 45).
  { rewrite app_nth2, Ev by lia. replace (length b + 23 - 4 - length b)%nat with (length v) by lia. now rewrite app_nth2, Nat.sub_diag by lia. }
  rewrite Hn. cbn [negb N.eqb Pos.eqb].
  assert (E1 : firstn (length b + 23 - 4) (b ++ version_text t) = b ++ v).
  { rewrite firstn_app, firstn_all2 by lia. f_equal. replace (length b + 23 - 4 - length b)%nat with (length v) by lia. rewrite Ev, firstn_app, firstn_all, Nat.sub_diag. apply app_nil_r. }
  assert (E2 : skipn (length b + 23 - 3) (b ++ version_text t) = digits3 (milli t)).
  { rewrite skipn_app, skipn_all2 by lia. replace (length b + 23 - 3 - length b)%nat with (length v + 1)%nat by lia. rewrite Ev, skipn_app, (skipn_all2 (n := length v + 1)) by lia.
    now replace (length v + 1 - length v)%nat with 1%nat by lia. }
  assert (Ebase : (b ++ v) ++ [46] ++ digits3 (milli t) = b ++ Format t) by now rewrite Ef, <- app_assoc.
  rewrite E1, E2, Ebase, skipn_app, skipn_all, Nat.sub_diag, firstn_app, firstn_all, Nat.sub_diag. cbn [skipn firstn app]. rewrite Parse_Format by auto. now rewrite app_nil_r.
Qed.

(** A version that was added to any name is found, and removed again. *)
Lemma Remove_of_Add f t : valid_time t -> Match (Add f t) = true /\ Remove (Add f t) = (Some t, f).
Proof.
  intros Ht. destruct (version_text_eq t) as (v & _ & _ & _ & Hu & _). unfold Add. assert (Hs := splitExt_insert f _ Hu).
  destruct (splitExt f) as [b e]. fold (version_text t). destruct Hs as [-> Es]. split; [apply Match_version | now apply Remove_version].
Qed.

Lemma Add_length f t : length (Add f t) = (length f + 23)%nat.
Proof.
  destruct (version_text_eq t) as (v & _ & _ & _ & Hu & _). assert (Hs := splitExt_insert f _ Hu). unfold Add. destruct (splitExt f) as [b e]. destruct Hs as [-> _].
  fold (version_text t). rewrite !length_app, version_text_length. lia.
Qed.

Lemma Remove_valid f t s : Remove f = (Some t, s) -> valid_time t.
Proof.
  unfold Remove. destruct (splitExt f) as [b e]. destruct (_ <? _)%nat; [discriminate |]. destruct (negb _); [discriminate |].
  destruct (Parse _) eqn:E; [| discriminate]. intros K. injection K as <- _. now apply Parse_valid in E.
Qed.

Lemma Remove_none f s : Remove f = (None, s) -> s = f.
Proof.
  unfold Remove. destruct (splitExt f) as [b e]. destruct (_ <? _)%nat; [congruence |]. destruct (negb _); [congruence |].
  destruct (Parse _); congruence.
Qed.
