(* ===== verification/CryptNames.v ===== *)
(** * The names of the crypt backend (src/backend/crypt/cipher.go, pkcs7/pkcs7.go)

    A path is encrypted segment by segment: a segment is padded, encrypted with EME
    and written with a [fileNameEncoding], or its characters are rotated.  The
    version of a file stays readable at the end of the name.  The key derivation
    (golang.org/x/crypto/scrypt), the block cipher (crypto/aes) and the mode of
    encryption (github.com/rfjakob/eme) are parameters. *)
From Stdlib Require Import String.
From Stdlib Require Import List Arith NArith ZArith Lia Bool.
From S2P Require Import Prelude Crypt GoStrings NameEncoding Version.
Import ListNotations.
Local Open Scope Z_scope.

(** ** Package pkcs7 *)

(** [Pad(n, buf)] *)
Definition Pad (n : nat) (buf : list N) : outcome cryptError (list N) :=
  if (n <=? 1)%nat || (256 <=? n)%nat then Panic
  else
    let padding := (n - length buf mod n)%nat in
    let buf := buf ++ repeat (N.of_nat padding) padding in
    if negb (length buf mod n =? 0)%nat then Panic else Ret buf.

(** [Unpad(n, buf)] *)
Definition Unpad (n : nat) (buf : list N) : outcome cryptError (list N) :=
  if (n <=? 1)%nat || (256 <=? n)%nat then Panic
  else if (length buf =? 0)%nat then Err ErrorPaddingNotFound
  else if negb (length buf mod n =? 0)%nat then Err ErrorPaddingNotAMultiple
  else
    let padding := N.to_nat (nth (length buf - 1) buf 0%N) in
    if (n <? padding)%nat then Err ErrorPaddingTooLong
    else if (padding =? 0)%nat then Err ErrorPaddingTooShort
    else if forallb (fun i => (nth (length buf - 1 - i) buf 0 =? N.of_nat padding)%N) (seq 0 padding)
    then Ret (firstn (length buf - padding) buf)
    else Err ErrorPaddingNotAllTheSame.

(** ** The cipher *)

Inductive direction : Type := DirectionEncrypt | DirectionDecrypt.

Class NameCrypto : Type := {
  block : Type;
  scrypt_Key : list N -> list N -> nat -> list N + cryptError;
  NewCipher : list N -> block + cryptError;
  Transform : block -> list N -> list N -> direction -> outcome cryptError (list N)
}.

Inductive NameEncryptionMode : Type := NameEncryptionOff | NameEncryptionStandard | NameEncryptionObfuscated.

(** [NewNameEncryptionMode] and [String] *)
Definition NewNameEncryptionMode `{Unicode} (s : list N) : NameEncryptionMode + cryptError :=
  let s := ToLower s in
  if eqb_bytes s (bytes_of "off") then inl NameEncryptionOff
  else if eqb_bytes s (bytes_of "standard") then inl NameEncryptionStandard
  else if eqb_bytes s (bytes_of "obfuscate") then inl NameEncryptionObfuscated
  else inr (errOther 1).

Definition mode_String (mode : NameEncryptionMode) : list N :=
  match mode with
  | NameEncryptionOff => bytes_of "off"
  | NameEncryptionStandard => bytes_of "standard"
  | NameEncryptionObfuscated => bytes_of "obfuscate"
  end.

Definition nameCipherBlockSize : nat := 16.
Definition obfuscQuoteRune : Z := 33.
Definition defaultSalt : list N := [168; 13; 244; 58; 143; 189; 3; 8; 167; 202; 184; 62; 88; 31; 134; 177]%N.

Section Cipher.
Context `{NameCrypto}.

(** The cipher without its pool of buffers and its source of random bytes, which
    Crypt has; [c_block] is [None] for [nil]. *)
Record Cipher : Type := {
  c_dataKey : list N; c_nameKey : list N; c_nameTweak : list N; c_block : option block;
  c_mode : NameEncryptionMode; c_fileNameEnc : fileNameEncoding; c_dirNameEncrypt : bool;
  c_passBadBlocks : bool; c_encryptedSuffix : list N
}.

(** [copy(dst, src)] *)
Definition copy_bytes (dst src : list N) : list N := firstn (length dst) src ++ skipn (length src) dst.

Definition slice_from (l : list N) (i : nat) : outcome cryptError (list N) := if (i <=? length l)%nat then Ret (skipn i l) else Panic.

(** [Key]: the keys from the password, all zero for an empty one *)
Definition Key (c : Cipher) (password salt : list N) : outcome cryptError (Cipher * option cryptError) :=
  let keySize := (length (c_dataKey c) + length (c_nameKey c) + length (c_nameTweak c))%nat in
  let saltBytes := match salt with [] => defaultSalt | _ => salt end in
  match (match password with [] => inl (repeat 0%N keySize) | _ => scrypt_Key password saltBytes keySize end) with
  | inr err => Ret (c, Some err)
  | inl key =>
      k2 <- slice_from key (length (c_dataKey c)) ;;
      k3 <- slice_from key (length (c_dataKey c) + length (c_nameKey c)) ;;
      let nameKey := copy_bytes (c_nameKey c) k2 in
      let '(b, err) := match NewCipher nameKey with inl b => (Some b, None) | inr err => (None, Some err) end in
      Ret ({| c_dataKey := copy_bytes (c_dataKey c) key; c_nameKey := nameKey; c_nameTweak := copy_bytes (c_nameTweak c) k3; c_block := b;
              c_mode := c_mode c; c_fileNameEnc := c_fileNameEnc c; c_dirNameEncrypt := c_dirNameEncrypt c;
              c_passBadBlocks := c_passBadBlocks c; c_encryptedSuffix := c_encryptedSuffix c |}, err)
  end.

(** [newCipher] *)
Definition newCipher (mode : NameEncryptionMode) (password salt : list N) (dirNameEncrypt : bool) (enc : fileNameEncoding) :
    outcome cryptError Cipher :=
  '(c, err) <- Key {| c_dataKey := repeat 0%N 32; c_nameKey := repeat 0%N 32; c_nameTweak := repeat 0%N nameCipherBlockSize; c_block := None;
                      c_mode := mode; c_fileNameEnc := enc; c_dirNameEncrypt := dirNameEncrypt;
                      c_passBadBlocks := false; c_encryptedSuffix := bytes_of ".bin" |} password salt ;;
  match err with Some e => Err e | None => Ret c end.

Definition set_encryptedSuffix (c : Cipher) (suffix : list N) : Cipher :=
  {| c_dataKey := c_dataKey c; c_nameKey := c_nameKey c; c_nameTweak := c_nameTweak c; c_block := c_block c; c_mode := c_mode c;
     c_fileNameEnc := c_fileNameEnc c; c_dirNameEncrypt := c_dirNameEncrypt c; c_passBadBlocks := c_passBadBlocks c; c_encryptedSuffix := suffix |}.

(** [setEncryptedSuffix]; no other letters fold to those of "none". *)
Definition setEncryptedSuffix (c : Cipher) (suffix : list N) : Cipher :=
  if eqb_bytes (map lower_byte suffix) (bytes_of "none") then set_encryptedSuffix c []
  else set_encryptedSuffix c (if HasPrefix suffix [46%N] then suffix else 46%N :: suffix).

(** [setPassBadBlocks] *)
Definition setPassBadBlocks (c : Cipher) (b : bool) : Cipher :=
  {| c_dataKey := c_dataKey c; c_nameKey := c_nameKey c; c_nameTweak := c_nameTweak c; c_block := c_block c; c_mode := c_mode c;
     c_fileNameEnc := c_fileNameEnc c; c_dirNameEncrypt := c_dirNameEncrypt c; c_passBadBlocks := b; c_encryptedSuffix := c_encryptedSuffix c |}.

(** ** Segments *)

(** [eme.Transform(c.block, c.nameTweak\[:\], data, dir)] *)
Definition transform (c : Cipher) (data : list N) (dir : direction) : outcome cryptError (list N) :=
  match c_block c with Some b => Transform b (c_nameTweak c) data dir | None => Panic end.

Definition encryptSegment (c : Cipher) (plaintext : list N) : outcome cryptError (list N) :=
  if eqb_bytes plaintext [] then Ret []
  else
    paddedPlaintext <- Pad nameCipherBlockSize plaintext ;;
    ciphertext <- transform c paddedPlaintext DirectionEncrypt ;;
    Ret (EncodeToString (fileNameEncoding := c_fileNameEnc c) ciphertext).

Definition decryptSegment (c : Cipher) (ciphertext : list N) : outcome cryptError (list N) :=
  if eqb_bytes ciphertext [] then Ret []
  else
    match DecodeString (fileNameEncoding := c_fileNameEnc c) ciphertext with
    | inr err => Err err
    | inl rawCiphertext =>
        if negb (length rawCiphertext mod nameCipherBlockSize =? 0)%nat then Err ErrorNotAMultipleOfBlocksize
        else if (length rawCiphertext =? 0)%nat then Err ErrorTooShortAfterDecode
        else if 2048 <? Z.of_nat (length rawCiphertext) then Err ErrorTooLongAfterDecode
        else
          paddedPlaintext <- transform c rawCiphertext DirectionDecrypt ;;
          Unpad nameCipherBlockSize paddedPlaintext
    end.

(** The sum of the key and [dir], an [int] *)
Definition add_nameKey (c : Cipher) (dir : Z) : Z := fold_left (fun d k => wrap64 (d + Z.of_N k)) (c_nameKey c) dir.

Definition is_letter (r : Z) : bool := (65 <=? r) && (r <=? 90) || (97 <=? r) && (r <=? 122).

(** The runes that [obfuscateSegment] writes for a rune *)
Definition obfuscateRune (dir r : Z) : list Z :=
  if r =? obfuscQuoteRune then [obfuscQuoteRune; obfuscQuoteRune]
  else if (48 <=? r) && (r <=? 57) then
    let thisdir := Z.rem dir 9 + 1 in
    [48 + Z.rem (r - 48 + thisdir) 10]
  else if is_letter r then
    let thisdir := Z.rem dir 25 + 1 in
    let pos := r - 65 in
    let pos := if 26 <=? pos then pos - 6 else pos in
    let pos := Z.rem (pos + thisdir) 52 in
    let pos := if 26 <=? pos then pos + 6 else pos in
    [65 + pos]
  else if (160 <=? r) && (r <=? 255) then
    let thisdir := Z.rem dir 95 + 1 in
    [160 + Z.rem (r - 160 + thisdir) 96]
  else if 256 <=? r then
    let thisdir := Z.rem dir 127 + 1 in
    let base := r - Z.rem r 256 in
    let newRune := base + Z.rem (r - base + thisdir) 256 in
    if ValidRune newRune then [newRune] else [obfuscQuoteRune; r]
  else [r].

Definition obfuscateSegment (c : Cipher) (plaintext : list N) : list N :=
  if eqb_bytes plaintext [] then []
  else if negb (ValidString plaintext) then [33; 46]%N ++ plaintext
  else
    let dir := fold_left (fun d r => wrap64 (d + r)) (runes plaintext) 0 in
    let dir := Z.rem dir 256 in
    let result := Itoa dir ++ [46%N] in
    let dir := add_nameKey c dir in
    fold_left AppendRune (flat_map (obfuscateRune dir) (runes plaintext)) result.

(** The rune that [deobfuscateSegment] writes for a rune that is not quoted *)
Definition deobfuscateRune (dir r : Z) : Z :=
  if (48 <=? r) && (r <=? 57) then
    let thisdir := Z.rem dir 9 + 1 in
    let newRune := 48 + r - 48 - thisdir in
    if newRune <? 48 then newRune + 10 else newRune
  else if is_letter r then
    let thisdir := Z.rem dir 25 + 1 in
    let pos := r - 65 in
    let pos := if 26 <=? pos then pos - 6 else pos in
    let pos := pos - thisdir in
    let pos := if pos <? 0 then pos + 52 else pos in
    let pos := if 26 <=? pos then pos + 6 else pos in
    65 + pos
  else if (160 <=? r) && (r <=? 255) then
    let thisdir := Z.rem dir 95 + 1 in
    let newRune := 160 + r - 160 - thisdir in
    if newRune <? 160 then newRune + 96 else newRune
  else if 256 <=? r then
    let thisdir := Z.rem dir 127 + 1 in
    let base := r - Z.rem r 256 in
    let newRune := base + (r - base - thisdir) in
    if newRune <? base then newRune + 256 else newRune
  else r.

(** The loop over the runes, with [inQuote] and the result *)
Fixpoint deobfuscate_loop (dir : Z) (inQuote : bool) (rs : list Z) (result : list N) : list N :=
  match rs with
  | [] => result
  | r :: rs =>
      if inQuote then deobfuscate_loop dir false rs (AppendRune result r)
      else if r =? obfuscQuoteRune then deobfuscate_loop dir true rs result
      else deobfuscate_loop dir false rs (AppendRune result (deobfuscateRune dir r))
  end.

Definition deobfuscateSegment (c : Cipher) (ciphertext : list N) : outcome cryptError (list N) :=
  if eqb_bytes ciphertext [] then Ret []
  else
    match Index 46 ciphertext with
    | None => Err ErrorNotAnEncryptedFile
    | Some pos =>
        let num := firstn pos ciphertext in
        if eqb_bytes num [33%N] then Ret (skipn (S pos) ciphertext)
        else
          match Atoi num with
          | None => Err ErrorNotAnEncryptedFile
          | Some dir =>
              let dir := add_nameKey c dir in
              Ret (deobfuscate_loop dir false (runes (skipn (S pos) ciphertext)) [])
          end
    end.

(** ** Paths *)

(** The version of the last segment, if it has one, and the name without it *)
Definition strip_version (segment : list N) : option Time * list N :=
  if Match segment then
    let '(t, s) := Remove segment in
    if eqb_bytes s segment then (None, segment) else (t, s)
  else (None, segment).

Definition add_version (t : option Time) (segment : list N) : list N :=
  match t with Some t => Add segment t | None => segment end.

(** The body of the loops of [encryptFileName] and [decryptFileName] with the
    function [f] for a segment *)
Definition convert_segment (c : Cipher) (f : list N -> outcome cryptError (list N)) (last : bool) (segment : list N) :
    outcome cryptError (list N) :=
  if negb (c_dirNameEncrypt c) && negb last then Ret segment
  else
    let '(t, segment) := if last then strip_version segment else (None, segment) in
    segment <- f segment ;;
    Ret (add_version t segment).

Fixpoint convert_segments (c : Cipher) (f : list N -> outcome cryptError (list N)) (segments : list (list N)) :
    outcome cryptError (list (list N)) :=
  match segments with
  | [] => Ret []
  | s :: rest =>
      s <- convert_segment c f (match rest with [] => true | _ => false end) s ;;
      rest <- convert_segments c f rest ;;
      Ret (s :: rest)
  end.

Definition encrypt_one (c : Cipher) (segment : list N) : outcome cryptError (list N) :=
  match c_mode c with NameEncryptionStandard => encryptSegment c segment | _ => Ret (obfuscateSegment c segment) end.

Definition decrypt_one (c : Cipher) (segment : list N) : outcome cryptError (list N) :=
  match c_mode c with NameEncryptionStandard => decryptSegment c segment | _ => deobfuscateSegment c segment end.

Definition encryptFileName (c : Cipher) (inn : list N) : outcome cryptError (list N) :=
  segments <- convert_segments c (encrypt_one c) (Split 47 inn) ;;
  Ret (Join 47 segments).

Definition decryptFileName (c : Cipher) (inn : list N) : outcome cryptError (list N) :=
  segments <- convert_segments c (decrypt_one c) (Split 47 inn) ;;
  Ret (Join 47 segments).

Definition is_off (mode : NameEncryptionMode) : bool := match mode with NameEncryptionOff => true | _ => false end.

Definition EncryptFileName (c : Cipher) (inn : list N) : outcome cryptError (list N) :=
  if is_off (c_mode c) then Ret (inn ++ c_encryptedSuffix c) else encryptFileName c inn.

Definition EncryptDirName (c : Cipher) (inn : list N) : outcome cryptError (list N) :=
  if is_off (c_mode c) || negb (c_dirNameEncrypt c) then Ret inn else encryptFileName c inn.

Definition DecryptFileName (c : Cipher) (inn : list N) : outcome cryptError (list N) :=
  if is_off (c_mode c) then
    let remainingLength := Z.of_nat (length inn) - Z.of_nat (length (c_encryptedSuffix c)) in
    if (remainingLength =? 0) || negb (HasSuffix inn (c_encryptedSuffix c)) then Err ErrorNotAnEncryptedFile
    else
      let decrypted := firstn (Z.to_nat remainingLength) inn in
      if Match decrypted then
        let '(_, unversioned) := Remove decrypted in
        if eqb_bytes unversioned [] then Err ErrorNotAnEncryptedFile else Ret decrypted
      else Ret decrypted
  else decryptFileName c inn.

Definition DecryptDirName (c : Cipher) (inn : list N) : outcome cryptError (list N) :=
  if is_off (c_mode c) || negb (c_dirNameEncrypt c) then Ret inn else decryptFileName c inn.
End Cipher.
