(* ===== verification/CryptSegments.v ===== *)
(** * Segments of names: encodings, padding, encryption and rotation are undone *)
From Stdlib Require Import String.
From Stdlib Require Import List Arith NArith ZArith Lia Bool.
From S2P Require Import Prelude Crypt GoStrings NameEncoding Version CryptNames.
Import ListNotations.
Local Open Scope N_scope.

(** ** Encodings *)

(** ** Digits *)

Lemma number_of_app B l1 l2 : number_of B (l1 ++ l2) = number_of B l1 * B ^ N.of_nat (length l2) + number_of B l2.
Proof.
  unfold number_of. rewrite fold_left_app. generalize (fold_left (fun a d => a * B + d) l1 0). induction l2 as [|d l2 IH]; intros a; cbn [fold_left length].
  - change (B ^ N.of_nat 0) with 1. lia.
  - rewrite IH, (IH (0 * B + d)), Nat2N.inj_succ, N.pow_succ_r'. generalize (B ^ N.of_nat (length l2)). intros x. lia.
Qed.

Lemma number_of_snoc B l d : number_of B (l ++ [d]) = number_of B l * B + d.
Proof. rewrite number_of_app. change (number_of B [d]) with (0 * B + d). cbn [length]. change (N.of_nat 1) with 1. rewrite N.pow_1_r. lia. Qed.

Lemma number_of_zeros B n : number_of B (repeat 0 n) = 0.
Proof. induction n as [|n IH]; [easy |]. cbn [repeat]. rewrite repeat_cons, number_of_snoc, IH. lia. Qed.

Lemma digits_of_length B n v : length (digits_of B n v) = n.
Proof. revert v; induction n as [|n IH]; intros v; cbn; [easy |]. rewrite length_app, IH. cbn. lia. Qed.

Lemma number_of_lt B l : 0 < B -> Forall (fun d => d < B) l -> number_of B l < B ^ N.of_nat (length l).
Proof.
  intros HB. induction l as [|d l IH] using rev_ind; intros H; [easy |]. apply Forall_app in H as [H1 H2]. apply Forall_cons_iff in H2 as [Hd _].
  rewrite number_of_snoc, length_app. cbn [length]. rewrite Nat.add_1_r, Nat2N.inj_succ, N.pow_succ_r'. specialize (IH H1). nia.
Qed.

Lemma digits_number B l : 0 < B -> Forall (fun d => d < B) l -> digits_of B (length l) (number_of B l) = l.
Proof.
  intros HB. induction l as [|d l IH] using rev_ind; intros H; [easy |]. apply Forall_app in H as [H1 H2]. apply Forall_cons_iff in H2 as [Hd _].
  rewrite length_app, Nat.add_1_r. cbn [digits_of]. rewrite number_of_snoc, N.div_add_l, (N.div_small d B), N.add_0_r, IH by (auto; lia).
  now rewrite N.add_comm, N.Div0.mod_add, N.mod_small.
Qed.

Lemma number_digits B n : forall v, 0 < B -> v < B ^ N.of_nat n -> number_of B (digits_of B n v) = v.
Proof.
  induction n as [|n IH]; intros v HB Hv; [change (B ^ N.of_nat 0) with 1 in Hv; cbn; lia |].
  cbn [digits_of]. rewrite Nat2N.inj_succ, N.pow_succ_r' in Hv. rewrite number_of_snoc, IH by (auto; apply N.Div0.div_lt_upper_bound; lia).
  assert (Hdm := N.div_mod v B ltac:(lia)). lia.
Qed.

Lemma digits_of_bound B n : forall v, 0 < B -> Forall (fun d => d < B) (digits_of B n v).
Proof.
  induction n as [|n IH]; intros v HB; cbn [digits_of]; [constructor |]. apply Forall_app. split; [now apply IH |]. repeat constructor. now apply N.mod_lt, N.neq_0_lt_0.
Qed.

Lemma firstn_digits B n : forall m v, (m <= n)%nat -> firstn m (digits_of B n v) = digits_of B m (v / B ^ N.of_nat (n - m)).
Proof.
  induction n as [|n IH]; intros m v Hm.
  - replace m with O by lia. easy.
  - destruct (Nat.eq_dec m (S n)) as [->|Hne].
    + rewrite firstn_all2 by (rewrite digits_of_length; lia). rewrite Nat.sub_diag. change (B ^ N.of_nat 0) with 1. now rewrite N.div_1_r.
    + cbn [digits_of]. rewrite firstn_app, digits_of_length. replace (m - n)%nat with O by lia. rewrite firstn_O, app_nil_r, IH by lia.
      replace (S n - m)%nat with (S (n - m)) by lia. now rewrite Nat2N.inj_succ, N.pow_succ_r', N.Div0.div_div.
Qed.

(** ** Groups *)

Section GroupLaws.
Context (nb nd w : nat).
Hypothesis w_pos : (0 < w <= 8)%nat.
Hypothesis same_bits : (8 * nb = w * nd)%nat.

Lemma pow_bits a b : (2 ^ N.of_nat a) ^ N.of_nat b = 2 ^ N.of_nat (a * b).
Proof. now rewrite Nat2N.inj_mul, N.pow_mul_r. Qed.

(** The digits that [k] bytes need *)
Lemma digits_needed k : (k <= nb)%nat -> let m := ((8 * k + (w - 1)) / w)%nat in (m <= nd /\ 8 * k <= m * w < 8 * k + w)%nat.
Proof.
  intros Hk m. assert (Hdm := Nat.div_mod_eq (8 * k + (w - 1)) w). assert (Hm := Nat.mod_upper_bound (8 * k + (w - 1)) w ltac:(lia)). fold m in Hdm.
  assert (H : (8 * k <= m * w < 8 * k + w)%nat) by nia. split; [| exact H]. nia.
Qed.

Lemma group_digits_length chunk : (length chunk <= nb)%nat -> length (group_digits nb nd w chunk) = ((8 * length chunk + (w - 1)) / w)%nat.
Proof. intros Hk. unfold group_digits. rewrite firstn_length_le; [easy |]. rewrite digits_of_length. now apply digits_needed. Qed.

Lemma group_digits_bound chunk : Forall (fun d => d < 2 ^ N.of_nat w) (group_digits nb nd w chunk).
Proof.
  unfold group_digits. set (ds := digits_of _ _ _). set (m := (_ / w)%nat). assert (H : Forall (fun d => d < 2 ^ N.of_nat w) ds) by (apply digits_of_bound, N.neq_0_lt_0, N.pow_nonzero; easy).
  rewrite <- (firstn_skipn m ds) in H. now apply Forall_app in H as [H _].
Qed.

(** The digits of some bytes give the bytes back. *)
Lemma group_round_trip chunk : (length chunk <= nb)%nat -> Forall is_byte chunk -> group_bytes nb nd w (group_digits nb nd w chunk) = chunk.
Proof.
  intros Hk Hb. set (B := 2 ^ N.of_nat w). set (m := ((8 * length chunk + (w - 1)) / w)%nat). destruct (digits_needed (length chunk) Hk) as [Hm Hbits]. fold m in Hm, Hbits.
  assert (Hpad : Forall is_byte (pad nb chunk)) by (apply Forall_app; split; [auto | apply Forall_forall; intros x Hx; apply repeat_spec in Hx as ->; easy]).
  assert (Hpl : length (pad nb chunk) = nb) by (unfold pad; rewrite length_app, repeat_length; lia).
  set (v := number_of 256 (pad nb chunk)). assert (Hv : v < B ^ N.of_nat nd).
  { unfold B. rewrite pow_bits, <- same_bits, <- (pow_bits 8 nb). change (2 ^ N.of_nat 8) with 256. unfold v. rewrite <- Hpl at 2. now apply number_of_lt. }
  assert (Ev : v = number_of 256 chunk * 256 ^ N.of_nat (nb - length chunk)).
  { unfold v, pad. rewrite number_of_app, number_of_zeros, repeat_length. lia. }
  assert (Edig : group_digits nb nd w chunk = digits_of B m (v / B ^ N.of_nat (nd - m))) by (unfold group_digits; fold B m v; apply firstn_digits; lia).
  assert (Hback : number_of B (pad nd (group_digits nb nd w chunk)) = v).
  { unfold pad. rewrite number_of_app, number_of_zeros, repeat_length, Edig, digits_of_length. assert (HB : B ^ N.of_nat (nd - m) <> 0) by (apply N.pow_nonzero; unfold B; apply N.pow_nonzero; easy).
    rewrite number_digits.
    - assert (Hex : v mod B ^ N.of_nat (nd - m) = 0).
      { rewrite Ev. unfold B. change 256 with (2 ^ N.of_nat 8). rewrite !pow_bits. replace (8 * (nb - length chunk))%nat with (w * (nd - m) + (8 * (nb - length chunk) - w * (nd - m)))%nat by nia.
        rewrite Nat2N.inj_add, N.pow_add_r, (N.mul_comm (2 ^ N.of_nat (w * (nd - m)))), N.mul_assoc. apply N.Div0.mod_mul. }
      assert (Hdm := N.div_mod v _ HB). lia.
    - unfold B. apply N.neq_0_lt_0, N.pow_nonzero. easy.
    - apply N.Div0.div_lt_upper_bound. rewrite <- N.pow_add_r, <- Nat2N.inj_add. now replace (nd - m + m)%nat with nd by lia. }
  unfold group_bytes. fold B. rewrite Hback, group_digits_length by auto. fold m.
  replace (m * w / 8)%nat with (length chunk) by (apply (Nat.div_unique _ 8 _ (m * w - 8 * length chunk)); lia).
  rewrite <- Hpl at 1. unfold v. rewrite digits_number by easy. unfold pad. now rewrite firstn_app, firstn_all, Nat.sub_diag, app_nil_r.
Qed.
End GroupLaws.

Lemma encode_groups_fuel nb nd w f f1 : forall f2 s, (length s <= f1)%nat -> (length s <= f2)%nat -> (0 < nb)%nat -> encode_groups nb nd w f1 f s = encode_groups nb nd w f2 f s.
Proof.
  induction f1 as [|f1 IH]; intros f2 s H1 H2 Hnb; [destruct s; [now destruct f2 | cbn in H1; lia] |].
  destruct s as [|c s]; [now destruct f2 |]. destruct f2 as [|f2]; [cbn in H2; lia |]. cbn [encode_groups]. f_equal.
  assert (Hl := length_skipn nb (c :: s)). cbn [length] in *. apply IH; lia.
Qed.

(** A group and the rest *)
Lemma encode_groups_step nb nd w f s : (0 < nb)%nat -> s <> [] ->
  encode_groups nb nd w (length s) f s = f (group_digits nb nd w (firstn nb s)) ++ encode_groups nb nd w (length (skipn nb s)) f (skipn nb s).
Proof.
  intros Hnb Hs. destruct s as [|c s]; [easy |]. cbn [length encode_groups]. f_equal.
  apply encode_groups_fuel; auto. rewrite length_skipn. cbn [length]. lia.
Qed.

(** ** Alphabets *)

(** A property of the digits below [n], by trying them *)
Lemma digits_below (P : N -> bool) n : forallb P (map N.of_nat (seq 0 n)) = true -> forall d, d < N.of_nat n -> P d = true.
Proof.
  intros H d Hd. rewrite forallb_forall in H. apply H. replace d with (N.of_nat (N.to_nat d)) by lia. apply in_map, in_seq. lia.
Qed.

(** A digit or a letter from a to v *)
Definition plain_char (c : N) : bool := between 48 57 c || between 97 118 c.

Lemma base32_char d : d < 32 -> let c := char_of Base32.alphabet d in
  value_of Base32.alphabet c = Some d /\ upper_byte (lower_byte c) = c /\ c < 128 /\ plain_char (lower_byte c) = true /\ c <> 61 /\ is_newline c = false.
Proof.
  intros Hd c.
  assert (H := digits_below (fun d => let c := char_of Base32.alphabet d in match value_of Base32.alphabet c with Some v => v =? d | None => false end &&
    ((upper_byte (lower_byte c) =? c) && (c <? 128) && plain_char (lower_byte c) && negb (c =? 61) && negb (is_newline c))) 32 ltac:(vm_compute; reflexivity) d Hd).
  cbv beta zeta in H. fold c in H. rewrite !andb_true_iff in H. destruct H as (Hv & ((((H1 & H2) & H3) & H4) & H5)).
  destruct (value_of _ c) as [v|]; [| discriminate]. apply N.eqb_eq in Hv as ->. apply N.eqb_eq in H1. apply N.ltb_lt in H2. apply negb_true_iff, N.eqb_neq in H4. now apply negb_true_iff in H5.
Qed.

Lemma base64_char d : d < 64 -> let c := char_of Base64.alphabet d in value_of Base64.alphabet c = Some d /\ c <> 47.
Proof.
  intros Hd c.
  assert (H := digits_below (fun d => let c := char_of Base64.alphabet d in match value_of Base64.alphabet c with Some v => v =? d | None => false end && negb (c =? 47))
    64 ltac:(vm_compute; reflexivity) d Hd).
  cbv beta zeta in H. fold c in H. rewrite !andb_true_iff in H. destruct H as (Hv & H).
  destruct (value_of _ c) as [v|]; [| discriminate]. apply N.eqb_eq in Hv as ->. now apply negb_true_iff, N.eqb_neq in H.
Qed.

(** ** base32 *)

Lemma decode_group_digits olen rest ds : forall acc, Forall (fun d => d < 32) ds -> (length acc + length ds <= 8)%nat ->
  Base32.decode_group olen (map (char_of Base32.alphabet) ds ++ rest) acc = Base32.decode_group olen rest (acc ++ ds).
Proof.
  induction ds as [|d ds IH]; intros acc Hds Hl; [now rewrite app_nil_r |]. apply Forall_cons_iff in Hds as [Hd Hds]. destruct (base32_char d Hd) as (Hv & _ & _ & _ & Hc & _).
  cbn [length] in Hl. cbn [map app Base32.decode_group]. destruct (Nat.eqb_spec (length acc) 8); [lia |]. destruct (N.eqb_spec (char_of Base32.alphabet d) Base32.padChar); [easy |].
  cbn [andb]. rewrite Hv, IH; [now rewrite <- app_assoc | auto | rewrite length_app; cbn; lia].
Qed.

Lemma decode_group_full olen rest ds : Forall (fun d => d < 32) ds -> length ds = 8%nat ->
  Base32.decode_group olen (map (char_of Base32.alphabet) ds ++ rest) [] = inl (ds, rest, false).
Proof. intros Hds Hl. rewrite decode_group_digits by (auto; cbn; lia). cbn [app]. destruct rest; cbn [Base32.decode_group]; now rewrite Hl. Qed.

Lemma decode_group_padded olen ds : Forall (fun d => d < 32) ds -> In (length ds) [2; 4; 5; 7]%nat ->
  Base32.decode_group olen (map (char_of Base32.alphabet) ds ++ repeat Base32.padChar (8 - length ds)) [] = inl (ds, repeat Base32.padChar (7 - length ds), true).
Proof.
  intros Hds Hl. rewrite decode_group_digits by (auto; cbn in *; lia). cbn [app]. cbn [In] in Hl.
  destruct Hl as [Hl|[Hl|[Hl|[Hl|[]]]]]; rewrite <- Hl; cbn [Nat.sub repeat Base32.decode_group]; rewrite <- Hl; reflexivity.
Qed.

Lemma base32_group_size k : (0 < k)%nat -> (k < 5)%nat -> In ((8 * k + (5 - 1)) / 5)%nat [2; 4; 5; 7]%nat.
Proof. intros H1 H2. assert (Hk : k = 1%nat \/ k = 2%nat \/ k = 3%nat \/ k = 4%nat) by lia. destruct Hk as [->|[->|[->| ->]]]; cbn; tauto. Qed.

(** The digits of an encoded text, and how much padding follows them *)
Lemma base32_shape s : exists ds p, Base32.EncodeToString s = map (char_of Base32.alphabet) ds ++ repeat 61 p /\
  Forall (fun d => d < 32) ds /\ (p < 8)%nat /\ (exists q, length ds + p = 8 * q)%nat /\ (s <> [] -> ds <> []).
Proof.
  revert s. apply (blocks_ind 5 (fun s => exists ds p, Base32.EncodeToString s = map (char_of Base32.alphabet) ds ++ repeat 61 p /\
    Forall (fun d => d < 32) ds /\ (p < 8)%nat /\ (exists q, length ds + p = 8 * q)%nat /\ (s <> [] -> ds <> []))); [lia | |].
  - exists [], O. splits; [reflexivity | constructor | lia | exists O; reflexivity | easy].
  - intros s Hs (ds & p & E & Hds & Hp & (q & Hq) & _). unfold Base32.EncodeToString in *. rewrite encode_groups_step by (auto; lia).
    assert (Hk : (length (firstn 5 s) <= 5)%nat) by (rewrite length_firstn; lia). assert (Hgl := group_digits_length 5 8 5 ltac:(lia) eq_refl (firstn 5 s) Hk).
    assert (Hgb := group_digits_bound 5 8 5 ltac:(lia) (firstn 5 s)). change (2 ^ N.of_nat 5) with 32 in Hgb. set (g := group_digits 5 8 5 (firstn 5 s)) in *.
    assert (Hk0 : (0 < length (firstn 5 s))%nat) by (destruct s; [easy | cbn; lia]). destruct (Nat.le_gt_cases 5 (length s)) as [Hge|Hlt].
    + assert (H8 : length g = 8%nat) by (rewrite Hgl, firstn_length_le by lia; reflexivity). exists (g ++ ds), p. rewrite H8, E, map_app. cbn [Nat.sub repeat]. rewrite app_nil_r, <- app_assoc.
      splits; auto; [apply Forall_app; auto | exists (S q); rewrite length_app; lia | destruct g; easy].
    + rewrite (skipn_all2 (n := 5)) by lia. cbn [length encode_groups]. rewrite app_nil_r. rewrite firstn_all2 in Hgl, Hk0 by lia.
      assert (Hm : (0 < length g < 8)%nat) by (assert (K := base32_group_size _ Hk0 Hlt); rewrite <- Hgl in K; cbn [In] in K; lia).
      exists g, (8 - length g)%nat. splits; auto; [lia | exists 1%nat; lia | intros _ ->; cbn in Hm; lia].
Qed.

Lemma base32_decode s : Forall is_byte s -> forall fuel olen, (length (Base32.EncodeToString s) <= fuel)%nat -> Base32.decode fuel olen (Base32.EncodeToString s) = inl s.
Proof.
  revert s. apply (blocks_ind 5 (fun s => Forall is_byte s -> forall fuel olen, (length (Base32.EncodeToString s) <= fuel)%nat -> Base32.decode fuel olen (Base32.EncodeToString s) = inl s)); [lia | now destruct fuel |].
  intros s Hs IH Hb fuel olen Hf. assert (Hb2 := Hb). rewrite <- (firstn_skipn 5 s) in Hb2. apply Forall_app in Hb2 as [Hb1 Hb2]. specialize (IH Hb2). unfold Base32.EncodeToString in *.
  rewrite encode_groups_step in * by (auto; lia).
  assert (Hk : (length (firstn 5 s) <= 5)%nat) by (rewrite length_firstn; lia). assert (Hgl := group_digits_length 5 8 5 ltac:(lia) eq_refl (firstn 5 s) Hk).
  assert (Hgb := group_digits_bound 5 8 5 ltac:(lia) (firstn 5 s)). change (2 ^ N.of_nat 5) with 32 in Hgb. assert (Hrt := group_round_trip 5 8 5 ltac:(lia) eq_refl (firstn 5 s) Hk Hb1). set (g := group_digits 5 8 5 (firstn 5 s)) in *.
  assert (Hnil : forall t, g <> [] -> map (char_of Base32.alphabet) g ++ t <> []) by (intros t Hg K; apply app_eq_nil in K as [K _]; now destruct g).
  assert (Hdec : forall fuel t, g <> [] -> Base32.decode (S fuel) olen (map (char_of Base32.alphabet) g ++ t) = match Base32.decode_group olen (map (char_of Base32.alphabet) g ++ t) [] with
    | inr e => inr e | inl (ds, rest, last) => if last then inl (group_bytes 5 8 5 ds) else match Base32.decode fuel olen rest with inl l => inl (group_bytes 5 8 5 ds ++ l) | inr e => inr e end end).
  { intros fu t Hg. assert (Hne := Hnil t Hg). cbn [Base32.decode]. now destruct (map (char_of Base32.alphabet) g ++ t). }
  destruct (Nat.le_gt_cases 5 (length s)) as [Hge|Hlt].
  - assert (H8 : length g = 8%nat) by (rewrite Hgl, firstn_length_le by lia; reflexivity). rewrite H8 in *. cbn [Nat.sub repeat] in *. rewrite app_nil_r in *.
    rewrite length_app, length_map, H8 in Hf. destruct fuel as [|fuel]; [lia |]. rewrite Hdec, decode_group_full by (auto; intros ->; easy). cbn iota beta.
    rewrite IH, Hrt by lia. now rewrite firstn_skipn.
  - rewrite (skipn_all2 (n := 5)) in * by lia. cbn [length encode_groups] in *. rewrite app_nil_r in *. rewrite firstn_all2 in Hgl, Hrt by lia.
    assert (Hk0 : (0 < length s)%nat) by (destruct s; [easy | cbn; lia]). assert (Hm : In (length g) [2; 4; 5; 7]%nat) by (rewrite Hgl; now apply base32_group_size).
    assert (Hg : g <> []) by (intros ->; cbn in Hm; lia). destruct fuel as [|fuel]; [destruct g; [easy | cbn in Hf; lia] |].
    rewrite Hdec, decode_group_padded by auto. cbn iota beta. now rewrite Hrt.
Qed.

Lemma isASCII_map (f : N -> N) l : (forall d, In d l -> f d < 128) -> isASCII (map f l) = true.
Proof. intros H. unfold isASCII. apply forallb_forall. intros c Hc. apply in_map_iff in Hc as (d & <- & Hd). apply N.ltb_lt. auto. Qed.

(** The text of [caseInsensitiveBase32Encoding]: small characters without padding *)
Lemma base32_text `{Unicode} s : exists ds p, caseInsensitiveBase32Encoding.EncodeToString s = map (fun d => lower_byte (char_of Base32.alphabet d)) ds /\
  Base32.EncodeToString s = map (char_of Base32.alphabet) ds ++ repeat 61 p /\
  Forall (fun d => d < 32) ds /\ (p < 8)%nat /\ (exists q, length ds + p = 8 * q)%nat /\ (s <> [] -> ds <> []).
Proof.
  destruct (base32_shape s) as (ds & p & E & Hds & Hrest). exists ds, p. split; [| auto]. unfold caseInsensitiveBase32Encoding.EncodeToString. rewrite Forall_forall in Hds.
  rewrite E, TrimRight_pad; [| rewrite in_map_iff; intros (d & Hd & Hin); now apply (base32_char d (Hds d Hin))].
  unfold ToLower. rewrite isASCII_map, map_map; [easy |]. intros d Hd. now apply base32_char, Hds.
Qed.

Lemma plain_char_bound c : plain_char c = true -> 48 <= c <= 118.
Proof. unfold plain_char. rewrite orb_true_iff, !between_spec. lia. Qed.

(** Its characters are digits and letters from a to v. *)
Lemma base32_plain `{Unicode} s : forallb plain_char (caseInsensitiveBase32Encoding.EncodeToString s) = true.
Proof.
  destruct (base32_text s) as (ds & p & -> & _ & Hds & _). rewrite Forall_forall in Hds. apply forallb_forall. intros c Hc.
  apply in_map_iff in Hc as (d & <- & Hd). now apply base32_char, Hds.
Qed.

#[export] Instance base32_good `{Unicode} : GoodEncoding (H := base32_encoding).
Proof.
  split; intros s Hb; destruct (base32_text s) as (ds & p & E & E32 & Hds & Hp & (q & Hq) & Hne); rewrite Forall_forall in Hds; cbn [EncodeToString DecodeString base32_encoding].
  - rewrite E. unfold caseInsensitiveBase32Encoding.DecodeString. set (low := map _ ds).
    assert (Hsuf : HasSuffix low [61] = false).
    { unfold HasSuffix. destruct (_ <=? _)%nat; [| easy]. destruct (eqb_bytes_spec (skipn (length low - length [61]) low) [61]) as [K|]; [| easy]. exfalso.
      assert (Hin : In 61 low) by (rewrite <- (firstn_skipn (length low - length [61]) low), K; apply in_or_app; right; now left).
      apply in_map_iff in Hin as (d & Hd & Hin). destruct (base32_char d (Hds d Hin)) as (_ & _ & _ & Hpl & _). rewrite Hd in Hpl. discriminate. }
    rewrite Hsuf. assert (Heq : N.to_nat (N.ldiff (N.of_nat (length low) + 7) 7 - N.of_nat (length low)) = p).
    { unfold low. rewrite length_map. change 7 with (N.ones 3) at 2. rewrite N.ldiff_ones_r, N.shiftr_div_pow2, N.shiftl_mul_pow2. change (2 ^ 3) with 8. divlia. }
    rewrite Heq.
    assert (Hup : ToUpper low = map (char_of Base32.alphabet) ds).
    { unfold ToUpper, low. rewrite isASCII_map, map_map; [apply map_ext_in; intros d Hd; now apply base32_char, Hds |].
      intros d Hd. destruct (base32_char d (Hds d Hd)) as (_ & _ & _ & Hpl & _). apply plain_char_bound in Hpl. lia. }
    rewrite Hup, <- E32. unfold Base32.DecodeString. rewrite forallb_filter_id; [now apply base32_decode |].
    rewrite E32, forallb_app. apply andb_true_iff. split; apply forallb_forall; intros c Hc.
    + apply in_map_iff in Hc as (d & <- & Hd). apply negb_true_iff. now apply base32_char, Hds.
    + now apply repeat_spec in Hc as ->.
  - rewrite E. intros Hin. apply in_map_iff in Hin as (d & Hd & Hin). destruct (base32_char d (Hds d Hin)) as (_ & _ & _ & Hpl & _). rewrite Hd in Hpl. discriminate.
  - intros Hs. rewrite E. specialize (Hne Hs). now destruct ds.
Qed.

(** ** base64 *)

Lemma decode64_digits rest ds : forall si acc, Forall (fun d => d < 64) ds -> (length acc + length ds <= 4)%nat ->
  Base64.decode_group si (map (char_of Base64.alphabet) ds ++ rest) acc = Base64.decode_group (si + length ds) rest (acc ++ ds).
Proof.
  induction ds as [|d ds IH]; intros si acc Hds Hl; [rewrite app_nil_r; cbn [map app length]; now rewrite Nat.add_0_r |].
  apply Forall_cons_iff in Hds as [Hd Hds]. destruct (base64_char d Hd) as [Hv _].
  cbn [length] in *. cbn [map app Base64.decode_group]. destruct (Nat.eqb_spec (length acc) 4); [lia |]. rewrite Hv, IH by (auto; rewrite length_app; cbn; lia).
  rewrite <- app_assoc. cbn [app]. now rewrite Nat.add_succ_r.
Qed.

Lemma base64_group_size k : (0 < k)%nat -> (k < 3)%nat -> In ((8 * k + (6 - 1)) / 6)%nat [2; 3]%nat.
Proof. intros H1 H2. assert (Hk : k = 1%nat \/ k = 2%nat) by lia. destruct Hk as [->| ->]; cbn; tauto. Qed.

Lemma base64_decode s : Forall is_byte s -> forall fuel si, (length (Base64.EncodeToString s) <= fuel)%nat -> Base64.decode fuel si (Base64.EncodeToString s) = inl s.
Proof.
  revert s. apply (blocks_ind 3 (fun s => Forall is_byte s -> forall fuel si, (length (Base64.EncodeToString s) <= fuel)%nat -> Base64.decode fuel si (Base64.EncodeToString s) = inl s)); [lia | now destruct fuel |].
  intros s Hs IH Hb fuel si Hf. assert (Hb2 := Hb). rewrite <- (firstn_skipn 3 s) in Hb2. apply Forall_app in Hb2 as [Hb1 Hb2]. specialize (IH Hb2). unfold Base64.EncodeToString in *.
  rewrite encode_groups_step in * by (auto; lia).
  assert (Hk : (length (firstn 3 s) <= 3)%nat) by (rewrite length_firstn; lia). assert (Hgl := group_digits_length 3 4 6 ltac:(lia) eq_refl (firstn 3 s) Hk).
  assert (Hgb := group_digits_bound 3 4 6 ltac:(lia) (firstn 3 s)). change (2 ^ N.of_nat 6) with 64 in Hgb. assert (Hrt := group_round_trip 3 4 6 ltac:(lia) eq_refl (firstn 3 s) Hk Hb1). set (g := group_digits 3 4 6 (firstn 3 s)) in *.
  assert (Hdec : forall fuel t, g <> [] -> Base64.decode (S fuel) si (map (char_of Base64.alphabet) g ++ t) = match Base64.decode_group si (map (char_of Base64.alphabet) g ++ t) [] with
    | inr e => inr e | inl (si, rest, ds) => match Base64.decode fuel si rest with inl l => inl (group_bytes 3 4 6 ds ++ l) | inr e => inr e end end).
  { intros fu t Hg. cbn [Base64.decode]. destruct g as [|d g']; [easy |]. reflexivity. }
  assert (Hk0 : (0 < length s)%nat) by (destruct s; [easy | cbn; lia]). destruct (Nat.le_gt_cases 3 (length s)) as [Hge|Hlt].
  - assert (H4 : length g = 4%nat) by (rewrite Hgl, firstn_length_le by lia; reflexivity). rewrite length_app, length_map, H4 in Hf. destruct fuel as [|fuel]; [lia |].
    rewrite Hdec by (intros ->; easy). rewrite decode64_digits by (auto; cbn [length]; lia). cbn [app]. set (rest := encode_groups _ _ _ _ _ _) in *.
    assert (Hgr : Base64.decode_group (si + length g) rest g = inl ((si + length g)%nat, rest, g)) by (destruct rest; cbn [Base64.decode_group]; now rewrite H4).
    rewrite Hgr, IH, Hrt by lia. now rewrite firstn_skipn.
  - rewrite (skipn_all2 (n := 3)) in * by lia. cbn [length encode_groups] in *. rewrite app_nil_r in *. rewrite firstn_all2 in Hgl, Hrt by lia.
    assert (Hm := base64_group_size _ Hk0 Hlt). rewrite <- Hgl in Hm. cbn [In] in Hm.
    destruct fuel as [|fuel]; [rewrite length_map in Hf; lia |]. rewrite <- (app_nil_r (map _ g)), Hdec by (intros ->; cbn in Hm; lia).
    rewrite decode64_digits by (auto; cbn [length]; lia). cbn [app Base64.decode_group]. destruct (Nat.eqb_spec (length g) 4); [lia |]. destruct (Nat.eqb_spec (length g) 1); [lia |].
    rewrite Hrt. destruct fuel; cbn [Base64.decode]; now rewrite app_nil_r.
Qed.

(** Every character is one of the alphabet. *)
Lemma base64_chars s c : In c (Base64.EncodeToString s) -> c <> 47.
Proof.
  revert s. apply (blocks_ind 3 (fun s => In c (Base64.EncodeToString s) -> c <> 47)); [lia | easy |].
  intros s Hs IH. unfold Base64.EncodeToString in *. rewrite encode_groups_step by (auto; lia). intros [Hc|Hc]%in_app_or; [| auto].
  apply in_map_iff in Hc as (d & <- & Hd). assert (Hgb := group_digits_bound 3 4 6 ltac:(lia) (firstn 3 s)). rewrite Forall_forall in Hgb. now apply base64_char, Hgb.
Qed.

#[export] Instance base64_good : GoodEncoding (H := base64_encoding).
Proof.
  split; intros s Hb; cbn [EncodeToString DecodeString base64_encoding].
  - now apply base64_decode.
  - intros K. now apply base64_chars in K.
  - intros Hs E. assert (K := base64_decode s Hb O O). rewrite E in K. injection (K (Nat.le_0_l _)) as <-. easy.
Qed.

(** ** Segments *)

Local Open Scope Z_scope.

(** ** Padding *)

Lemma Pad_spec n buf : (1 < n < 256)%nat -> exists p, Pad n buf = Ret p /\ (length p mod n = 0)%nat /\ (length buf < length p <= length buf + n)%nat /\
  (Forall is_byte buf -> Forall is_byte p) /\ Unpad n p = Ret buf.
Proof.
  intros Hn. set (k := (n - length buf mod n)%nat). assert (Hm := Nat.mod_upper_bound (length buf) n ltac:(lia)). assert (Hk : (0 < k <= n)%nat) by lia.
  assert (Hmod : ((length buf + k) mod n = 0)%nat).
  { assert (Hdm := Nat.div_mod_eq (length buf) n). replace (length buf + k)%nat with ((S (length buf / n)) * n)%nat by (unfold k; nia). apply Nat.Div0.mod_mul. }
  exists (buf ++ repeat (N.of_nat k) k). unfold Pad. fold k. rewrite length_app, repeat_length, Hmod. destruct (Nat.leb_spec n 1), (Nat.leb_spec 256 n); try lia. cbn [orb negb Nat.eqb].
  splits; [easy | easy | lia | lia | | ].
  - intros Hb. apply Forall_app. split; [auto |]. apply Forall_forall. intros x Hx. apply repeat_spec in Hx as ->. unfold is_byte. lia.
  - unfold Unpad. rewrite length_app, repeat_length, Hmod. destruct (Nat.leb_spec n 1), (Nat.leb_spec 256 n); try lia. cbn [orb negb Nat.eqb].
    destruct (Nat.eqb_spec (length buf + k) 0); [lia |].
    assert (Hnth : forall i, (i < k)%nat -> nth (length buf + k - 1 - i) (buf ++ repeat (N.of_nat k) k) 0%N = N.of_nat k) by (intros i Hi; rewrite app_nth2 by lia; apply nth_repeat_in; lia).
    assert (Hn0 := Hnth 0%nat ltac:(lia)). rewrite Nat.sub_0_r in Hn0. rewrite Hn0, Nat2N.id. destruct (Nat.ltb_spec n k); [lia |]. destruct (Nat.eqb_spec k 0); [lia |].
    replace (forallb _ _) with true; [f_equal; replace (length buf + k - k)%nat with (length buf) by lia; now rewrite firstn_app, firstn_all, Nat.sub_diag, app_nil_r |].
    symmetry. apply forallb_forall. intros i Hi%in_seq. rewrite Hnth by lia. apply N.eqb_refl.
Qed.

(** ** Encrypted segments *)

(** The mode of encryption keeps the length and is undone, on 1 to 128 blocks; scrypt
    gives the number of bytes that it is asked for, and 32 bytes are a key of AES. *)
Class GoodNameCrypto `{NameCrypto} : Prop := {
  Transform_undone : forall b tweak l, (length l mod nameCipherBlockSize = 0)%nat -> 0 < Z.of_nat (length l) <= 2048 -> Forall is_byte l ->
    exists e, Transform b tweak l DirectionEncrypt = Ret e /\ length e = length l /\ Forall is_byte e /\ Transform b tweak e DirectionDecrypt = Ret l;
  scrypt_length : forall password salt n, exists key, scrypt_Key password salt n = inl key /\ length key = n /\ Forall is_byte key;
  NewCipher_key : forall key, length key = 32%nat -> exists b, NewCipher key = inl b
}.

Section Standard.
Context `{GoodNameCrypto}.
Context (c : Cipher).
Context (has_block : c_block c <> None) (good : GoodEncoding (H := c_fileNameEnc c)).

Lemma encryptSegment_spec s : Forall is_byte s -> Z.of_nat (length s) <= 2047 -> exists e, encryptSegment c s = Ret e /\ decryptSegment c e = Ret s /\ ~ In 47%N e /\ (e = [] <-> s = []) /\
  exists l, (e = EncodeToString (fileNameEncoding := c_fileNameEnc c) l) \/ e = [].
Proof.
  intros Hb Hl. unfold encryptSegment. destruct (eqb_bytes_spec s []) as [->|Hs].
  - exists []. splits; try easy. exists []. auto.
  - destruct (Pad_spec nameCipherBlockSize s ltac:(cbv; lia)) as (p & -> & Hm & Hlen & Hpb & Hun). cbn [bind]. specialize (Hpb Hb). unfold transform.
    assert (Hp : 0 < Z.of_nat (length p) <= 2048).
    { unfold nameCipherBlockSize in *. assert (Hdm := Nat.div_mod_eq (length p) 16). lia. }
    destruct (c_block c) as [b|] eqn:Eb; [| easy]. destruct (Transform_undone b (c_nameTweak c) p Hm Hp Hpb) as (e & Et & Hel & Heb & Ed). rewrite Et. cbn [bind].
    assert (He : e <> []) by (intros ->; cbn in Hel; lia). assert (Hne := Encode_empty (GoodEncoding := good) e Heb He).
    eexists. splits; [reflexivity | | exact (Encode_slash (GoodEncoding := good) e Heb) | split; [easy | congruence] | exists e; now left].
    unfold decryptSegment. destruct (eqb_bytes_spec (EncodeToString (fileNameEncoding := c_fileNameEnc c) e) []); [easy |]. rewrite (Decode_Encode (GoodEncoding := good) e Heb). rewrite Hel, Hm. cbn [Nat.eqb negb].
    destruct (Nat.eqb_spec (length p) 0); [lia |]. destruct (Z.ltb_spec 2048 (Z.of_nat (length p))); [lia |]. unfold transform. rewrite Eb, Ed. exact Hun.
Qed.
End Standard.

(** ** Rotated runes *)

Lemma obfuscateRune_spec dir r : 0 <= dir -> ValidRune r = true ->
  obfuscateRune dir r = [obfuscQuoteRune; r] \/
  exists x, obfuscateRune dir r = [x] /\ x <> obfuscQuoteRune /\ ValidRune x = true /\ deobfuscateRune dir x = r /\ (x = 47 -> r = 47).
Proof.
  intros Hdir Hr. apply ValidRune_iff in Hr. unfold obfuscateRune, obfuscQuoteRune. destruct (Z.eqb_spec r 33) as [->|Hq]; [now left |]. right.
  assert (Hrem : forall m, 0 < m -> 0 <= Z.rem dir m < m) by (intros m Hm; now apply Z.rem_bound_pos).
  destruct ((48 <=? r) && (r <=? 57)) eqn:Ed; [| destruct (is_letter r) eqn:El; [| destruct ((160 <=? r) && (r <=? 255)) eqn:E1; [| destruct (Z.leb_spec 256 r) as [E2|E2]]]].
  - apply andb_true_iff in Ed. rewrite !Z.leb_le in Ed. specialize (Hrem 9 ltac:(lia)). set (t := Z.rem dir 9 + 1). set (x := 48 + Z.rem (r - 48 + t) 10).
    assert (Hx : 48 <= x <= 57 /\ (x = r + t \/ x = r + t - 10)) by (unfold x, t in *; Z.to_euclidean_division_equations; lia). exists x.
    splits; [easy | lia | apply ValidRune_iff; lia | | lia]. unfold deobfuscateRune. replace ((48 <=? x) && (x <=? 57)) with true by (symmetry; apply andb_true_iff; rewrite !Z.leb_le; lia).
    fold t. destruct (Z.ltb_spec (48 + x - 48 - t) 48); lia.
  - unfold is_letter in El. rewrite orb_true_iff, !andb_true_iff, !Z.leb_le in El. specialize (Hrem 25 ltac:(lia)). set (t := Z.rem dir 25 + 1).
    set (p := if 26 <=? r - 65 then r - 65 - 6 else r - 65). assert (Hp : 0 <= p < 52) by (unfold p; destruct (Z.leb_spec 26 (r - 65)); lia).
    set (q := Z.rem (p + t) 52). assert (Hq' : 0 <= q < 52 /\ (q = p + t \/ q = p + t - 52)) by (unfold q, t in *; Z.to_euclidean_division_equations; lia).
    exists (65 + (if 26 <=? q then q + 6 else q)). set (x := 65 + _). assert (Hx : (q < 26 /\ x = 65 + q) \/ (26 <= q /\ x = 71 + q)) by (unfold x; destruct (Z.leb_spec 26 q); lia).
    splits; [easy | lia | apply ValidRune_iff; lia | | lia]. unfold deobfuscateRune. replace ((48 <=? x) && (x <=? 57)) with false by (symmetry; apply andb_false_iff; rewrite !Z.leb_gt; lia).
    replace (is_letter x) with true by (symmetry; unfold is_letter; rewrite orb_true_iff, !andb_true_iff, !Z.leb_le; lia). fold t.
    assert (Hpos : (if 26 <=? x - 65 then x - 65 - 6 else x - 65) = q) by (destruct (Z.leb_spec 26 (x - 65)); lia). rewrite Hpos.
    assert (Hpt : (if q - t <? 0 then q - t + 52 else q - t) = p) by (unfold t in *; destruct (Z.ltb_spec (q - (Z.rem dir 25 + 1)) 0); lia). rewrite Hpt.
    unfold p. destruct (Z.leb_spec 26 (r - 65)); [destruct (Z.leb_spec 26 (r - 65 - 6)); lia | destruct (Z.leb_spec 26 (r - 65)); lia].
  - apply andb_true_iff in E1. rewrite !Z.leb_le in E1. specialize (Hrem 95 ltac:(lia)). set (t := Z.rem dir 95 + 1). set (x := 160 + Z.rem (r - 160 + t) 96).
    assert (Hx : 160 <= x <= 255 /\ (x = r + t \/ x = r + t - 96)) by (unfold x, t in *; Z.to_euclidean_division_equations; lia). exists x.
    splits; [easy | lia | apply ValidRune_iff; lia | | lia]. unfold deobfuscateRune. replace ((48 <=? x) && (x <=? 57)) with false by (symmetry; apply andb_false_iff; rewrite !Z.leb_gt; lia).
    replace (is_letter x) with false by (symmetry; unfold is_letter; rewrite orb_false_iff, !andb_false_iff, !Z.leb_gt; lia).
    replace ((160 <=? x) && (x <=? 255)) with true by (symmetry; apply andb_true_iff; rewrite !Z.leb_le; lia). fold t. destruct (Z.ltb_spec (160 + x - 160 - t) 160); lia.
  - specialize (Hrem 127 ltac:(lia)). set (t := Z.rem dir 127 + 1). set (base := r - Z.rem r 256). set (x := base + Z.rem (r - base + t) 256).
    assert (Hbase : exists q, base = 256 * q /\ 1 <= q /\ base <= r < base + 256) by (exists (Z.quot r 256); unfold base; Z.to_euclidean_division_equations; lia).
    destruct Hbase as (q & Hb & Hq1 & Hbr). assert (Hx : base <= x < base + 256 /\ (x = r + t \/ x = r + t - 256)) by (unfold x, t in *; clearbody base; Z.to_euclidean_division_equations; lia).
    assert (Hval : ValidRune x = true) by (apply ValidRune_iff; lia). rewrite Hval. exists x. splits; [easy | lia | easy | | lia].
    unfold deobfuscateRune. replace ((48 <=? x) && (x <=? 57)) with false by (symmetry; apply andb_false_iff; rewrite !Z.leb_gt; lia).
    replace (is_letter x) with false by (symmetry; unfold is_letter; rewrite orb_false_iff, !andb_false_iff, !Z.leb_gt; lia).
    replace ((160 <=? x) && (x <=? 255)) with false by (symmetry; apply andb_false_iff; rewrite !Z.leb_gt; lia). destruct (Z.leb_spec 256 x); [| lia]. fold t.
    assert (Hbx : x - Z.rem x 256 = base) by (clearbody x base; Z.to_euclidean_division_equations; lia). rewrite Hbx. unfold t in *. destruct (Z.ltb_spec (base + (x - base - (Z.rem dir 127 + 1))) base); lia.
  - exists r. assert (Hs : deobfuscateRune dir r = r) by (unfold deobfuscateRune; rewrite Ed, El, E1; destruct (Z.leb_spec 256 r); [lia | easy]).
    splits; [easy | easy | now apply ValidRune_iff | exact Hs | easy].
Qed.

Lemma fold_AppendRune rs : forall s, fold_left AppendRune rs s = s ++ concat (map EncodeRune rs).
Proof.
  induction rs as [|r rs IH]; intros s; cbn [fold_left map concat]; [now rewrite app_nil_r |]. now rewrite IH, AppendRune_app, <- app_assoc.
Qed.

(** The loop of [deobfuscateSegment] undoes that of [obfuscateSegment]. *)
Lemma deobfuscate_loop_spec dir rs : 0 <= dir -> Forall (fun r => ValidRune r = true) rs -> forall s,
  deobfuscate_loop dir false (flat_map (obfuscateRune dir) rs) s = fold_left AppendRune rs s.
Proof.
  intros Hdir. induction 1 as [|r rs Hr _ IH]; intros s; [easy |]. cbn [flat_map fold_left].
  destruct (obfuscateRune_spec dir r Hdir Hr) as [->|(x & -> & Hx & _ & E & _)]; cbn [app deobfuscate_loop].
  - rewrite Z.eqb_refl. apply IH.
  - destruct (Z.eqb_spec x obfuscQuoteRune); [easy |]. now rewrite E, IH.
Qed.

Lemma obfuscated_valid dir rs : 0 <= dir -> Forall (fun r => ValidRune r = true) rs -> Forall (fun r => ValidRune r = true) (flat_map (obfuscateRune dir) rs).
Proof.
  intros Hdir. induction 1 as [|r rs Hr _ IH]; [constructor |]. cbn [flat_map]. apply Forall_app. split; [| exact IH].
  destruct (obfuscateRune_spec dir r Hdir Hr) as [->|(x & -> & _ & Hx & _)]; repeat constructor; auto.
Qed.

(** ** Rotated segments *)

Lemma add_wraps l : forall d m, 0 <= d -> Forall (fun x => 0 <= x <= m) l -> d + m * Z.of_nat (length l) < 2 ^ 63 ->
  0 <= fold_left (fun d x => wrap64 (d + x)) l d <= d + m * Z.of_nat (length l).
Proof.
  induction l as [|x l IH]; intros d m Hd Hl Hm; cbn [fold_left length]; [lia |]. apply Forall_cons_iff in Hl as [Hx Hl]. cbn [length] in Hm.
  rewrite wrap64_small by nia. specialize (IH (d + x) m ltac:(lia) Hl ltac:(nia)). nia.
Qed.

Lemma runes_length s : (length (runes s) <= length s)%nat.
Proof.
  unfold runes. generalize (length s) as f. intros f. revert s. induction f as [|f IH]; intros s; [easy |]. destruct s as [|a s]; [cbn; lia |].
  cbn [runes_loop]. destruct (DecodeRune (a :: s)) as [r w]. cbn [length]. specialize (IH (skipn w (a :: s))). lia.
Qed.

Section Obfuscated.
Context `{NameCrypto}.
Context (c : Cipher) (key_bytes : Forall is_byte (c_nameKey c)) (key_length : length (c_nameKey c) = 32%nat).

Lemma add_nameKey_pos d : 0 <= d < 256 -> 0 <= add_nameKey c d.
Proof.
  intros Hd. unfold add_nameKey. assert (E : forall l d, fold_left (fun d k => wrap64 (d + Z.of_N k)) l d = fold_left (fun d x => wrap64 (d + x)) (map Z.of_N l) d).
  { induction l as [|x l IH]; intros a; cbn; auto. }
  rewrite E. apply (add_wraps _ d 255); [lia | | rewrite length_map, key_length; lia].
  apply Forall_forall. intros x Hx. apply in_map_iff in Hx as (k & <- & Hk). rewrite Forall_forall in key_bytes. specialize (key_bytes k Hk). unfold is_byte in key_bytes. lia.
Qed.

Lemma obfuscateSegment_spec s : Forall is_byte s -> Z.of_nat (length s) <= 2 ^ 40 ->
  deobfuscateSegment c (obfuscateSegment c s) = Ret s /\ (~ In 47%N s -> ~ In 47%N (obfuscateSegment c s)) /\ (obfuscateSegment c s = [] <-> s = []).
Proof.
  intros Hb Hl. unfold obfuscateSegment. destruct (eqb_bytes_spec s []) as [->|Hs]; [easy |].
  destruct (ValidString s) eqn:Hv; cbn [negb].
  - destruct (ValidString_runes s Hv) as [Hval Hcat]. set (sum := fold_left _ (runes s) 0).
    assert (Hsum : 0 <= sum).
    { unfold sum. apply (add_wraps _ 0 1114111); [lia | | assert (K := runes_length s); lia].
      eapply Forall_impl; [| exact Hval]. intros r Hr. apply ValidRune_iff in Hr. lia. }
    assert (Hdir : 0 <= Z.rem sum 256 < 256) by now apply Z.rem_bound_pos. destruct (Itoa_spec (Z.rem sum 256) ltac:(lia)) as [Hat Hds]. set (num := Itoa (Z.rem sum 256)) in *.
    assert (Hpos := add_nameKey_pos _ Hdir). set (dir := add_nameKey c (Z.rem sum 256)) in *. rewrite fold_AppendRune. set (rs := flat_map (obfuscateRune dir) (runes s)).
    assert (Hrs := obfuscated_valid dir _ Hpos Hval). fold rs in Hrs. rewrite <- app_assoc. cbn [app]. splits.
    + unfold deobfuscateSegment. destruct (eqb_bytes_spec (num ++ 46%N :: concat (map EncodeRune rs)) []) as [E|_]; [now destruct num |].
      rewrite Index_first by now apply (digits_not _ _ Hds). rewrite firstn_app, firstn_all, Nat.sub_diag. cbn [firstn]. rewrite app_nil_r.
      destruct (eqb_bytes_spec num [33%N]) as [E|_]; [rewrite E in Hds; discriminate |]. rewrite Hat. fold dir.
      change (S (length num)) with (1 + length num)%nat. rewrite <- (skipn_skipn 1 (length num)), skipn_app, skipn_all, Nat.sub_diag. cbn [skipn app].
      rewrite runes_concat by auto. unfold rs. rewrite deobfuscate_loop_spec, fold_AppendRune by auto. now rewrite Hcat.
    + intros Hs47 [Hin|[Hin|Hin]]%in_app_or; [now apply (digits_not 47 _ Hds) | easy |]. apply (runes_ascii _ _ Hrs) in Hin; [| easy].
      apply Hs47. rewrite <- Hcat. apply (runes_ascii _ _ Hval); [easy |]. unfold rs in Hin. apply in_flat_map in Hin as (r & Hr & Hin). change (Z.of_N 47) with 47 in *.
      assert (Hrv : ValidRune r = true) by (rewrite Forall_forall in Hval; auto).
      destruct (obfuscateRune_spec dir r Hpos Hrv) as [K|(x & K & _ & _ & _ & H47)]; rewrite K in Hin; cbn [In] in Hin.
      * destruct Hin as [Hin|[<-|[]]]; [easy | exact Hr].
      * destruct Hin as [Hin|[]]. now rewrite (H47 Hin) in Hr.
    + split; [| easy]. now destruct num.
  - cbn [app]. splits; [reflexivity | | now split]. intros H47 [K|[K|K]]; easy.
Qed.
End Obfuscated.

(** ** New ciphers *)

(** What the names need of a cipher *)
Record good_cipher `{NameCrypto} (c : Cipher) : Prop := {
  good_block : c_block c <> None;
  good_key_bytes : Forall is_byte (c_nameKey c);
  good_key_length : length (c_nameKey c) = 32%nat;
  good_encoding : GoodEncoding (H := c_fileNameEnc c)
}.

Lemma newCipher_good `{GoodNameCrypto} mode password salt dirs enc : GoodEncoding (H := enc) -> exists c, newCipher mode password salt dirs enc = Ret c /\
  good_cipher c /\ c_mode c = mode /\ c_dirNameEncrypt c = dirs /\ c_fileNameEnc c = enc.
Proof.
  intros Hg. unfold newCipher, Key. cbn [c_dataKey c_nameKey c_nameTweak]. rewrite !repeat_length. change (32 + 32 + nameCipherBlockSize)%nat with 80%nat. change (32 + 32)%nat with 64%nat.
  assert (Hkey : exists key, (match password with [] => inl (repeat 0%N 80) | _ => scrypt_Key password (match salt with [] => defaultSalt | _ => salt end) 80 end) = inl key /\ length key = 80%nat /\ Forall is_byte key).
  { destruct password; [| apply scrypt_length]. exists (repeat 0%N 80). splits; [easy | easy |]. apply Forall_forall. intros x Hx. now apply repeat_spec in Hx as ->. }
  destruct Hkey as (key & -> & Hl & Hb). unfold slice_from. rewrite Hl. cbn [Nat.leb bind].
  set (nameKey := copy_bytes (repeat 0%N 32) (skipn 32 key)).
  assert (Hnk : length nameKey = 32%nat /\ Forall is_byte nameKey).
  { assert (E : nameKey = firstn 32 (skipn 32 key)) by (unfold nameKey, copy_bytes; rewrite repeat_length, length_skipn, Hl, (skipn_all2 (n := 80 - 32)) by (rewrite repeat_length; lia); apply app_nil_r).
    rewrite E, length_firstn, length_skipn, Hl. split; [easy |]. rewrite <- (firstn_skipn 32 key) in Hb. apply Forall_app in Hb as [_ Hb]. rewrite <- (firstn_skipn 32 (skipn 32 key)) in Hb. now apply Forall_app in Hb as [Hb _]. }
  destruct (NewCipher_key nameKey (proj1 Hnk)) as (b & ->). eexists. split; [reflexivity |]. splits; try reflexivity.
  split; cbn; [easy | apply Hnk | apply Hnk | exact Hg].
Qed.

Lemma setEncryptedSuffix_same `{NameCrypto} c suffix : let c' := setEncryptedSuffix c suffix in
  c_block c' = c_block c /\ c_nameKey c' = c_nameKey c /\ c_fileNameEnc c' = c_fileNameEnc c /\ c_mode c' = c_mode c /\ c_dirNameEncrypt c' = c_dirNameEncrypt c.
Proof. unfold setEncryptedSuffix. destruct (eqb_bytes _ _); easy. Qed.

Lemma setEncryptedSuffix_good `{NameCrypto} c suffix : good_cipher c -> good_cipher (setEncryptedSuffix c suffix).
Proof. intros [H1 H2 H3 H4]. destruct (setEncryptedSuffix_same c suffix) as (E1 & E2 & E3 & _). split; rewrite ?E1, ?E2, ?E3; auto. Qed.
