(* ===== verification/CryptNamesTheorems.v ===== *)
(** * The properties of the crypt backend's names *)
From Stdlib Require Import String.
From Stdlib Require Import List Arith NArith ZArith Lia Bool.
From S2P Require Import Prelude Crypt GoStrings NameEncoding CryptSegments Version CryptNames.
Import ListNotations.
Local Open Scope Z_scope.

(** ** Paths in general *)

Lemma strip_version_cases s : strip_version s = (None, s) \/ exists t s', strip_version s = (Some t, s') /\ Remove s = (Some t, s') /\ valid_time t.
Proof.
  unfold strip_version. destruct (Match s); [| now left]. destruct (Remove s) as [t s'] eqn:E. destruct (eqb_bytes_spec s' s) as [->|Hs]; [now left |].
  right. destruct t as [t|]; [| now apply Remove_none in E]. exists t, s'. splits; auto. now apply Remove_valid in E.
Qed.

Lemma strip_version_snd s t : strip_version s = (None, t) -> t = s.
Proof. intros E. destruct (strip_version_cases s) as [K|(t' & s' & K & _)]; congruence. Qed.

Lemma strip_version_Add t e : valid_time t -> strip_version (Add e t) = (Some t, e).
Proof.
  intros Ht. destruct (Remove_of_Add e t Ht) as [Hm Hr]. unfold strip_version. rewrite Hm, Hr. destruct (eqb_bytes_spec e (Add e t)) as [E|]; [| easy].
  assert (K := Add_length e t). rewrite <- E in K. lia.
Qed.

Lemma Add_slash e t : ~ In 47%N e -> ~ In 47%N (Add e t).
Proof.
  intros He. destruct (version_text_eq t) as (v & _ & _ & _ & Hu & _). assert (Hs := splitExt_insert e _ Hu). unfold Add. destruct (splitExt e) as [a b]. destruct Hs as [-> _].
  fold (version_text t). rewrite !in_app_iff in *. destruct Hu as [_ Hu]. tauto.
Qed.

Section Paths.
Context `{NameCrypto}.
Context (c : Cipher) (enc dec : list N -> outcome cryptError (list N)).

(** What a function for segments has to keep of the version of [s] *)
Definition version_kept (s : list N) : Prop :=
  let '(t, s') := strip_version s in
  match t with Some t => Add s' t = s | None => forall e, enc s = Ret e -> fst (strip_version e) = None end.

(** A segment is encrypted, has no slash then, and is decrypted. *)
Definition undone (s : list N) : Prop := exists e, enc s = Ret e /\ dec e = Ret s /\ ~ In 47%N e.

Lemma convert_segment_undone last s : ~ In 47%N s -> (c_dirNameEncrypt c || last = true -> undone (if last then snd (strip_version s) else s)) -> (last = true -> version_kept s) ->
  exists e, convert_segment c enc last s = Ret e /\ convert_segment c dec last e = Ret s /\ ~ In 47%N e.
Proof.
  intros Hs Hu Hv. unfold convert_segment. destruct (negb (c_dirNameEncrypt c) && negb last) eqn:Eskip; [now exists s |].
  rewrite <- negb_orb in Eskip. apply negb_false_iff in Eskip. destruct (Hu Eskip) as (e & He & Hd & He47). clear Hu. destruct last.
  - specialize (Hv eq_refl). unfold version_kept in Hv. destruct (strip_version_cases s) as [E|(t & s' & E & Er & Ht)]; rewrite E in *; cbn [snd] in *.
    + rewrite He. cbn [bind add_version]. exists e. splits; auto. specialize (Hv e He). destruct (strip_version e) as [t e'] eqn:Ee. cbn [fst] in Hv. subst t. apply strip_version_snd in Ee as ->. now rewrite Hd.
    + rewrite He. cbn [bind add_version]. exists (Add e t). splits; [easy | | now apply Add_slash]. rewrite strip_version_Add by auto. rewrite Hd. cbn [bind add_version]. now rewrite Hv.
  - rewrite He. cbn [bind add_version]. exists e. rewrite Hd. auto.
Qed.

(** The segments of a path, of which the last may have a version *)
Fixpoint segments_undone (l : list (list N)) : Prop :=
  match l with
  | [] => True
  | [s] => undone (snd (strip_version s)) /\ version_kept s
  | s :: l => (c_dirNameEncrypt c = true -> undone s) /\ segments_undone l
  end.

Lemma convert_segments_undone l : (forall s, In s l -> ~ In 47%N s) -> segments_undone l ->
  exists es, convert_segments c enc l = Ret es /\ convert_segments c dec es = Ret l /\ (forall e, In e es -> ~ In 47%N e) /\ length es = length l.
Proof.
  induction l as [|s l IH]; intros Hl Hu; [now exists [] |]. destruct l as [|s2 l].
  - cbn [segments_undone] in Hu. destruct (convert_segment_undone true s) as (e & He & Hd & He47); [apply Hl; now left | now intros _ | now intros _ |].
    exists [e]. cbn [convert_segments bind]. rewrite He. cbn [bind convert_segments]. rewrite Hd. cbn [bind]. splits; auto. intros x [<-|[]]. exact He47.
  - destruct Hu as [Hu1 Hu2]. destruct (convert_segment_undone false s) as (e & He & Hd & He47); [apply Hl; now left | rewrite orb_false_r; exact Hu1 | easy |].
    destruct IH as (es & Hes & Hds & Hes47 & Hlen); [intros x Hx; apply Hl; now right | exact Hu2 |]. destruct es as [|e2 es]; [easy |].
    exists (e :: e2 :: es). change (convert_segments c enc (s :: s2 :: l)) with (s' <- convert_segment c enc false s ;; rest <- convert_segments c enc (s2 :: l) ;; Ret (s' :: rest)).
    change (convert_segments c dec (e :: e2 :: es)) with (s' <- convert_segment c dec false e ;; rest <- convert_segments c dec (e2 :: es) ;; Ret (s' :: rest)).
    rewrite He, Hd. cbn [bind]. rewrite Hes, Hds. cbn [bind]. splits; auto; [intros x [<-|Hx]; auto | cbn [length] in *; lia].
Qed.

Lemma path_undone path : segments_undone (Split 47 path) ->
  exists es, convert_segments c enc (Split 47 path) = Ret es /\ convert_segments c dec (Split 47 (Join 47 es)) = Ret (Split 47 path).
Proof.
  intros Hu. destruct (convert_segments_undone (Split 47 path)) as (es & He & Hd & H47 & Hlen); [apply Split_parts | exact Hu |].
  exists es. split; [exact He |]. rewrite Split_Join; auto. intros ->. now destruct (Split 47 path) eqn:E; [apply Split_not_nil in E |].
Qed.
End Paths.

Lemma Remove_sub f t s : Remove f = (t, s) -> (length s <= length f)%nat /\ incl s f.
Proof.
  unfold Remove. assert (Hs := splitExt_insert f [] ltac:(easy)). destruct (splitExt f) as [b e]. destruct Hs as [Ef _].
  assert (Hsame : forall t', (t', f) = (t, s) -> (length s <= length f)%nat /\ incl s f) by (intros t' K; injection K as _ <-; split; [lia | apply incl_refl]).
  destruct (Nat.ltb_spec (length b) (length versionFormat)); [apply Hsame |]. destruct (negb _); [apply Hsame |]. destruct (Parse _); [| apply Hsame].
  intros K. injection K as _ <-. change (length versionFormat) with 23%nat in *. set (n := (length b - 23)%nat). assert (Hn : (n + 23 = length b)%nat) by (unfold n; lia). clearbody n.
  rewrite firstn_app, firstn_firstn, length_firstn, Nat.min_l by lia. replace (n - Nat.min (length b - 4) (length b))%nat with 0%nat by lia. cbn [firstn]. rewrite app_nil_r, Ef, !length_app, length_firstn.
  split; [lia |]. apply incl_app; [| apply incl_appr, incl_refl]. apply incl_appl. rewrite <- (firstn_skipn n b) at 2. apply incl_appl, incl_refl.
Qed.

Lemma strip_version_sub s : (length (snd (strip_version s)) <= length s)%nat /\ incl (snd (strip_version s)) s.
Proof.
  destruct (strip_version_cases s) as [->|(t & s' & -> & Hr & _)]; [split; [easy | apply incl_refl] |]. exact (Remove_sub _ _ _ Hr).
Qed.

(** ** Names *)

Section Names.
Context `{GoodNameCrypto}.

(** The names that are given back *)
Definition name_ok (c : Cipher) (path : list N) : Prop :=
  match c_mode c with
  | NameEncryptionOff => path <> [] /\ (Match path = true -> snd (Remove path) <> [])
  | mode => (forall s, In s (Split 47 path) -> Z.of_nat (length s) <= match mode with NameEncryptionStandard => 2047 | _ => 2 ^ 40 end) /\
      version_kept (encrypt_one c) (last (Split 47 path) [])
  end.

Lemma Split_bytes path s : Forall is_byte path -> In s (Split 47 path) -> Forall is_byte s.
Proof.
  intros Hb Hs. rewrite Forall_forall in *. intros x Hx. apply Hb. clear Hb. revert s Hs Hx. induction path as [|a path IH]; intros s Hs Hx; cbn [Split] in Hs.
  - destruct Hs as [<-|[]]. easy.
  - destruct (N.eqb_spec a 47); [destruct Hs as [<-|Hs]; [easy |]; right; exact (IH s Hs Hx) |]. destruct (Split 47 path) as [|f fs].
    + destruct Hs as [<-|[]]. destruct Hx as [<-|[]]. now left.
    + destruct Hs as [<-|Hs]; [| right; apply (IH s); [now right | auto]]. destruct Hx as [<-|Hx]; [now left |]. right. apply (IH f); [now left | auto].
Qed.

Lemma one_undone c s : good_cipher c -> Forall is_byte s -> ~ In 47%N s -> c_mode c <> NameEncryptionOff ->
  Z.of_nat (length s) <= match c_mode c with NameEncryptionStandard => 2047 | _ => 2 ^ 40 end -> undone (encrypt_one c) (decrypt_one c) s.
Proof.
  intros [G1 G2 G3 G4] Hb H47 Hm Hl. unfold undone, encrypt_one, decrypt_one. destruct (c_mode c); [easy | |].
  - destruct (encryptSegment_spec c G1 G4 s Hb Hl) as (e & He & Hd & He47 & _). now exists e.
  - destruct (obfuscateSegment_spec c G2 G3 s Hb Hl) as (Hd & He47 & _). exists (obfuscateSegment c s). auto.
Qed.

Lemma names_undone c path : good_cipher c -> Forall is_byte path -> c_mode c <> NameEncryptionOff -> name_ok c path ->
  exists e, encryptFileName c path = Ret e /\ decryptFileName c e = Ret path.
Proof.
  intros Hc Hb Hm Hok. assert (Hok' : (forall s, In s (Split 47 path) -> Z.of_nat (length s) <= match c_mode c with NameEncryptionStandard => 2047 | _ => 2 ^ 40 end) /\
      version_kept (encrypt_one c) (last (Split 47 path) [])) by (unfold name_ok in Hok; destruct (c_mode c); easy). clear Hok. destruct Hok' as [Hlen Hv].
  destruct (path_undone c (encrypt_one c) (decrypt_one c) path) as (es & He & Hd).
  - assert (Hparts := Split_parts 47 path). assert (Hbytes := fun s => Split_bytes path s Hb). revert Hlen Hv Hparts Hbytes. generalize (Split 47 path). intros l Hlen Hv Hparts Hbytes.
    induction l as [|s l IH]; [easy |]. destruct l as [|s2 l].
    + split; [| exact Hv]. destruct (strip_version_sub s) as [Hl Hin]. specialize (Hlen s (or_introl eq_refl)). specialize (Hparts s (or_introl eq_refl)). specialize (Hbytes s (or_introl eq_refl)).
      apply one_undone; auto; [| destruct (c_mode c); lia]. rewrite Forall_forall in *. auto.
    + split; [intros _; apply one_undone; auto; [apply Hbytes | apply Hparts | apply Hlen]; now left |]. apply IH; auto; intros s' Hs'; [apply Hlen | apply Hparts | apply Hbytes]; now right.
  - unfold encryptFileName, decryptFileName. rewrite He. cbn [bind]. eexists. split; [reflexivity |]. rewrite Hd. cbn [bind]. now rewrite Join_of_Split.
Qed.
End Names.

(** C15: with any password, encoding and mode, the name of a file is encrypted and
    decrypted to itself, and so is that of a directory, if the segments are not too
    long for the cipher and the version of the file can be put back. *)
Theorem Names_round_trip `{GoodNameCrypto} mode password salt dirs enc suffix path : GoodEncoding (H := enc) -> Forall is_byte path ->
  exists c, newCipher mode password salt dirs enc = Ret c /\ let c := setEncryptedSuffix c suffix in
  name_ok c path ->
  (exists e, EncryptFileName c path = Ret e /\ DecryptFileName c e = Ret path) /\
  (exists d, EncryptDirName c path = Ret d /\ DecryptDirName c d = Ret path).
Proof.
  intros Hg Hb. destruct (newCipher_good mode password salt dirs enc Hg) as (c & E & Hc & Em & Ed & _). exists c. split; [exact E |]. cbv zeta.
  apply (setEncryptedSuffix_good c suffix) in Hc. set (c' := setEncryptedSuffix c suffix) in *. intros Hok. clearbody c'. clear E c Em Ed. rename c' into c.
  assert (Hn := names_undone c path Hc Hb). unfold EncryptFileName, DecryptFileName, EncryptDirName, DecryptDirName. destruct (is_off (c_mode c)) eqn:Eoff.
  - assert (Em : c_mode c = NameEncryptionOff) by now destruct (c_mode c). unfold name_ok in Hok. rewrite Em in Hok. destruct Hok as [Hne Hv]. cbn [orb]. split; [| now exists path].
    eexists. split; [reflexivity |]. rewrite HasSuffix_app, length_app. replace (_ - _) with (Z.of_nat (length path)) by lia.
    destruct (Z.eqb_spec (Z.of_nat (length path)) 0); [now destruct path |]. cbn [orb negb]. rewrite Nat2Z.id, firstn_app, firstn_all, Nat.sub_diag. cbn [firstn]. rewrite app_nil_r.
    destruct (Match path); [| easy]. specialize (Hv eq_refl). destruct (Remove path) as [t u]. cbn [snd] in Hv. now destruct (eqb_bytes_spec u []).
  - destruct Hn as (e & He & Hd); [intros K; now rewrite K in Eoff | exact Hok |]. split; [now exists e |]. cbn [orb]. destruct (negb _); [now exists path | now exists e].
Qed.

(** ** base32 *)

Lemma match_at_first re s : match_at versionRegexp (re :: s) = true -> re = 45%N.
Proof. cbn [versionRegexp app match_at]. rewrite andb_true_iff. intros [K _]. apply N.eqb_eq in K. auto. Qed.

Lemma Match_dash s : Match s = true -> In 45%N s.
Proof.
  unfold Match. induction s as [|c s IH]; [discriminate |]. change (MatchString versionRegexp (c :: s)) with (match_at versionRegexp (c :: s) || MatchString versionRegexp s).
  intros [K|K]%orb_true_iff; [left; now apply match_at_first in K | right; auto].
Qed.

(** An encrypted name in base32 has no version of its own. *)
Lemma version_kept_base32 `{GoodNameCrypto} `{Unicode} c s : c_mode c = NameEncryptionStandard -> c_fileNameEnc c = base32_encoding ->
  (forall t s', strip_version s = (Some t, s') -> Add s' t = s) -> version_kept (encrypt_one c) s.
Proof.
  intros Em Ee Hadd. unfold version_kept. destruct (strip_version s) as [[t|] s'] eqn:E; [now apply Hadd |]. intros e. unfold encrypt_one, encryptSegment. rewrite Em, Ee.
  assert (Hplain : forall x, forallb plain_char x = true -> fst (strip_version x) = None).
  { intros x Hx. unfold strip_version. destruct (Match x) eqn:Hm; [| easy]. apply Match_dash in Hm. rewrite forallb_forall in Hx. discriminate (Hx _ Hm). }
  destruct (eqb_bytes _ _); [intros K; injection K as <-; reflexivity |]. destruct (Pad _ _) as [p| | |]; try discriminate. cbn [bind]. destruct (transform _ _ _) as [x| | |]; try discriminate.
  cbn [bind]. intros K. injection K as <-. apply Hplain, base32_plain.
Qed.

(** With the standard mode and base32, every name whose version can be put back
    is given back. *)
Theorem Names_base32 `{GoodNameCrypto} `{Unicode} password salt dirs path : Forall is_byte path -> (forall s, In s (Split 47 path) -> Z.of_nat (length s) <= 2047) ->
  (forall t s, strip_version (last (Split 47 path) []) = (Some t, s) -> Add s t = last (Split 47 path) []) ->
  exists c e, newCipher NameEncryptionStandard password salt dirs base32_encoding = Ret c /\ EncryptFileName c path = Ret e /\ DecryptFileName c e = Ret path.
Proof.
  intros Hb Hl Hv. destruct (newCipher_good NameEncryptionStandard password salt dirs base32_encoding base32_good) as (c & E & Hc & Em & _ & Ee).
  destruct (names_undone c path Hc Hb) as (e & He & Hd); [congruence | unfold name_ok; rewrite Em; split; [exact Hl | now apply version_kept_base32] |].
  exists c, e. unfold EncryptFileName, DecryptFileName. rewrite Em. auto.
Qed.

(** ** Versions that are not put back *)

Lemma Add_dotted t e : undotted e -> Add (46%N :: e) t = 46%N :: e ++ version_text t.
Proof.
  intros He. unfold Add, splitExt. assert (E := Ext_dot [] e He). cbn [app] in E. rewrite E, Nat.sub_diag. cbn [firstn]. fold (version_text t). now rewrite app_nil_r.
Qed.

(** A name that starts with the version, before its extension, is decrypted to a
    name with the version after the extension. *)
Theorem version_before_extension `{GoodNameCrypto} c t e : good_cipher c -> c_mode c <> NameEncryptionOff -> valid_time t -> undotted e -> Forall is_byte e -> Z.of_nat (length e) <= 2000 ->
  exists x, EncryptFileName c (version_text t ++ 46%N :: e) = Ret x /\ DecryptFileName c x = Ret (46%N :: e ++ version_text t) /\ version_text t ++ 46%N :: e <> 46%N :: e ++ version_text t.
Proof.
  intros Hc Hm Ht He Hb Hl. destruct (version_text_eq t) as (v & Hv & _ & Ev & Hu & _). set (path := version_text t ++ 46%N :: e).
  assert (Hp47 : ~ In 47%N path) by (unfold path; rewrite in_app_iff; destruct Hu, He; intros [K|[K|K]]; easy).
  assert (Hs : splitExt path = (version_text t, 46%N :: e)).
  { unfold splitExt, path. rewrite Ext_dot by auto. rewrite length_app, Nat.add_sub, firstn_app, firstn_all, Nat.sub_diag, app_nil_r. rewrite Ev. now destruct v. }
  assert (Hstrip : strip_version path = (Some t, 46%N :: e)).
  { assert (Hmt := Match_version [] t (46%N :: e)). cbn [app] in Hmt. fold path in Hmt. unfold strip_version. rewrite Hmt. assert (Hr := Remove_version [] t (46%N :: e) Ht Hs). cbn [app] in Hr. fold path in Hr. rewrite Hr.
    destruct (eqb_bytes_spec (46%N :: e) path) as [K|]; [| easy]. apply (f_equal (@length N)) in K. unfold path in K. rewrite length_app, version_text_length in K. lia. }
  destruct (one_undone c (46%N :: e) Hc) as (x & Hx & Hd & Hx47); auto; [now constructor | intros [K|K]; [easy | now apply He] | cbn [length]; destruct (c_mode c); lia |].
  exists (Add x t). assert (Eoff : is_off (c_mode c) = false) by now destruct (c_mode c).
  unfold EncryptFileName, DecryptFileName, encryptFileName, decryptFileName. rewrite Eoff, (Split_one _ _ Hp47), (Split_one 47%N (Add x t)) by (apply Add_slash; exact Hx47).
  cbn [convert_segments]. unfold convert_segment. rewrite !andb_false_r, Hstrip, strip_version_Add, Hx, Hd by auto. cbn [bind add_version Join]. rewrite Add_dotted by auto.
  splits; [easy | easy |]. intros K. apply (f_equal (hd 0%N)) in K. discriminate K.
Qed.

(** ** Examples of ciphers *)

(** A mode of encryption that turns the bytes around *)
#[local] Instance crypto0 : NameCrypto := {|
  block := list N; scrypt_Key := fun _ _ n => inl (repeat 0%N n);
  NewCipher := fun key => if (length key =? 32)%nat then inl key else inr (errOther 2);
  Transform := fun _ _ l _ => Ret (rev l)
|}.

#[local] Instance crypto0_good : GoodNameCrypto.
Proof.
  split.
  - intros b tweak l _ _ Hb. exists (rev l). splits; [easy | apply length_rev | now apply Forall_rev | cbn; now rewrite rev_involutive].
  - intros password salt n. exists (repeat 0%N n). splits; [easy | apply repeat_length |]. apply Forall_forall. intros x Hx. now apply repeat_spec in Hx as ->.
  - intros key Hk. exists key. cbn. now rewrite Hk.
Qed.

#[local] Instance unicode0 : Unicode := {| upper_unicode := fun s => s; lower_unicode := fun s => s; letter_or_number := fun _ => false |}.

Definition path0 : list N := Eval vm_compute in bytes_of "dir/file-v2001-02-03-040506-123.txt".

Lemma path0_bytes : Forall is_byte path0.
Proof. repeat constructor. Qed.

Definition cipher0 (mode : NameEncryptionMode) (enc : fileNameEncoding) : Cipher :=
  {| c_dataKey := repeat 0%N 32; c_nameKey := repeat 0%N 32; c_nameTweak := repeat 0%N 16; c_block := Some (repeat 0%N 32 : block); c_mode := mode;
     c_fileNameEnc := enc; c_dirNameEncrypt := true; c_passBadBlocks := false; c_encryptedSuffix := bytes_of ".bin" |}.

Lemma cipher0_new mode enc : newCipher mode [] [] true enc = Ret (cipher0 mode enc).
Proof. reflexivity. Qed.

Lemma cipher0_good mode enc : GoodEncoding (H := enc) -> good_cipher (cipher0 mode enc).
Proof. intros Hg. split; [easy | repeat constructor | reflexivity | exact Hg]. Qed.

Lemma Names_round_trip_witness : exists c, newCipher NameEncryptionObfuscated [] [] true base64_encoding = Ret c /\
  let c := setEncryptedSuffix c (bytes_of "none") in
  (exists e, EncryptFileName c path0 = Ret e /\ DecryptFileName c e = Ret path0) /\ (exists d, EncryptDirName c path0 = Ret d /\ DecryptDirName c d = Ret path0).
Proof.
  destruct (Names_round_trip NameEncryptionObfuscated [] [] true base64_encoding (bytes_of "none") path0 base64_good path0_bytes) as (c & E & K).
  exists c. split; [exact E |]. rewrite cipher0_new in E. injection E as <-. apply K. split; [| vm_compute; reflexivity].
  intros s [<-|[<-|[]]]; vm_compute; discriminate.
Defined.

Lemma Names_base32_witness : exists c e, newCipher NameEncryptionStandard [] [] true base32_encoding = Ret c /\ EncryptFileName c path0 = Ret e /\ DecryptFileName c e = Ret path0.
Proof.
  apply (Names_base32 [] [] true path0 path0_bytes); [intros s [<-|[<-|[]]]; vm_compute; discriminate |].
  intros t s E. assert (Es : strip_version (last (Split 47 path0) []) = (Some (mkTime 2001 2 3 4 5 6 123), bytes_of "file.txt")) by reflexivity. rewrite Es in E. injection E as <- <-. reflexivity.
Defined.

Lemma version_before_extension_witness : exists x, EncryptFileName (cipher0 NameEncryptionStandard base32_encoding) (bytes_of "-v2001-02-03-040506-123.txt") = Ret x /\
  DecryptFileName (cipher0 NameEncryptionStandard base32_encoding) x = Ret (bytes_of ".txt-v2001-02-03-040506-123") /\ bytes_of "-v2001-02-03-040506-123.txt" <> bytes_of ".txt-v2001-02-03-040506-123".
Proof.
  apply (version_before_extension (cipher0 NameEncryptionStandard base32_encoding) (mkTime 2001 2 3 4 5 6 123) (bytes_of "txt"));
    [apply cipher0_good, base32_good | discriminate | vm_compute; repeat split; discriminate | split; vm_compute; intuition discriminate | repeat constructor | vm_compute; discriminate].
Defined.

(** A name without a version that is rotated to one with a version is not given
    back. *)
Theorem rotated_to_version : exists e, EncryptFileName (cipher0 NameEncryptionObfuscated base32_encoding) (bytes_of "G-b7556-57-58-595051-678.ZdZ") = Ret e /\
  e = bytes_of "94.a-v2001-02-03-040506-123.txt" /\
  DecryptFileName (cipher0 NameEncryptionObfuscated base32_encoding) e = Ret (bytes_of "G-v2001-02-03-040506-123.ZdZ").
Proof. eexists. splits; [reflexivity | reflexivity | reflexivity]. Qed.
