(* ===== verification/GoPath.v ===== *)
(** * Slash-separated paths and regular expressions (packages path and regexp)

    [matches] runs an expression on the runes of a text, from its start to its end, by
    derivatives; [in_regexp] is the language of an expression.  [Clean], [path_Join] and
    [path_Split] are functions of package path; [Clean] keeps a stack of the parts of the
    path, the last on top.  src/fs/fspath/path.go calls them. *)
From Stdlib Require Import List Arith ZArith Lia Bool.
From Stdlib Require Import String.
From Stdlib Require Import List Arith NArith ZArith Lia Bool.
From S2P Require Import Prelude GoStrings.
Import ListNotations.
Local Open Scope Z_scope.

(** ** Regular expressions *)

Inductive regexp : Type :=
| NoMatch
| Epsilon
| Class (p : Z -> bool)
| Cat (a b : regexp)
| Alt (a b : regexp)
| Star (a : regexp).

Definition Plus (a : regexp) : regexp := Cat a (Star a).
Definition Opt (a : regexp) : regexp := Alt a Epsilon.
Definition Char (c : Z) : regexp := Class (Z.eqb c).

Fixpoint nullable (a : regexp) : bool :=
  match a with
  | NoMatch | Class _ => false
  | Epsilon | Star _ => true
  | Cat a b => nullable a && nullable b
  | Alt a b => nullable a || nullable b
  end.

(** What is left of an expression after the rune [c] *)
Fixpoint derive (c : Z) (a : regexp) : regexp :=
  match a with
  | NoMatch | Epsilon => NoMatch
  | Class p => if p c then Epsilon else NoMatch
  | Cat a b => if nullable a then Alt (Cat (derive c a) b) (derive c b) else Cat (derive c a) b
  | Alt a b => Alt (derive c a) (derive c b)
  | Star a => Cat (derive c a) (Star a)
  end.

Fixpoint matches (a : regexp) (s : list Z) : bool :=
  match s with
  | [] => nullable a
  | c :: s => matches (derive c a) s
  end.

(** ** The language of an expression *)

Inductive in_regexp : regexp -> list Z -> Prop :=
| in_epsilon : in_regexp Epsilon []
| in_class p c : p c = true -> in_regexp (Class p) [c]
| in_cat a b s t : in_regexp a s -> in_regexp b t -> in_regexp (Cat a b) (s ++ t)
| in_alt_l a b s : in_regexp a s -> in_regexp (Alt a b) s
| in_alt_r a b s : in_regexp b s -> in_regexp (Alt a b) s
| in_star_nil a : in_regexp (Star a) []
| in_star_app a s t : in_regexp a s -> in_regexp (Star a) t -> in_regexp (Star a) (s ++ t).

#[export] Hint Constructors in_regexp : regexp.

Lemma in_cat_iff a b s : in_regexp (Cat a b) s <-> exists s1 s2, s = s1 ++ s2 /\ in_regexp a s1 /\ in_regexp b s2.
Proof. split; [intros H; inversion H; subst; eauto | intros (s1 & s2 & -> & H1 & H2); now constructor]. Qed.

Lemma in_alt_iff a b s : in_regexp (Alt a b) s <-> in_regexp a s \/ in_regexp b s.
Proof. split; [intros H; inversion H; subst; auto | intros [H|H]; auto with regexp]. Qed.

Lemma in_class_iff p s : in_regexp (Class p) s <-> exists c, s = [c] /\ p c = true.
Proof. split; [intros H; inversion H; subst; eauto | intros (c & -> & H); now constructor]. Qed.

Lemma in_epsilon_iff s : in_regexp Epsilon s <-> s = [].
Proof. split; [intros H; now inversion H | intros ->; constructor]. Qed.

Lemma in_nomatch s : ~ in_regexp NoMatch s.
Proof. intros H. inversion H. Qed.

(** The first part of a repetition that is not empty *)
Lemma in_star_cons a c s : in_regexp (Star a) (c :: s) -> exists s1 s2, s = s1 ++ s2 /\ in_regexp a (c :: s1) /\ in_regexp (Star a) s2.
Proof.
  intros H. remember (Star a) as r eqn:Er. remember (c :: s) as l eqn:El. revert s El. induction H as [| | | | | |a' u t Hu _ Ht IH]; intros s' El; try discriminate.
  injection Er as ->. destruct u as [|d u]; [now apply IH |]. injection El as -> <-. now exists u, t.
Qed.

Lemma nullable_spec a : nullable a = true <-> in_regexp a [].
Proof.
  induction a as [| |p|a IHa b IHb|a IHa b IHb|a IHa]; cbn [nullable].
  - split; [easy | intros H; inversion H].
  - now rewrite in_epsilon_iff.
  - split; [easy | intros H; inversion H].
  - rewrite andb_true_iff, IHa, IHb, in_cat_iff. split; [intros [H1 H2]; now exists [], [] |]. intros (s1 & s2 & E & H1 & H2). symmetry in E. apply app_eq_nil in E as [-> ->]. auto.
  - now rewrite orb_true_iff, IHa, IHb, in_alt_iff.
  - split; auto with regexp.
Qed.

Lemma derive_spec c a : forall s, in_regexp (derive c a) s <-> in_regexp a (c :: s).
Proof.
  induction a as [| |p|a IHa b IHb|a IHa b IHb|a IHa]; intros s; cbn [derive].
  - split; intros H; inversion H.
  - split; intros H; inversion H.
  - rewrite in_class_iff. destruct (p c) eqn:E.
    + rewrite in_epsilon_iff. split; [intros ->; now exists c | intros (d & Ed & _); now injection Ed].
    + split; [intros H; inversion H | intros (d & Ed & Hd); injection Ed as <- ->; congruence].
  - assert (Hleft : in_regexp (Cat (derive c a) b) s <-> exists s1 s2, s = s1 ++ s2 /\ in_regexp a (c :: s1) /\ in_regexp b s2).
    { rewrite in_cat_iff. split; intros (s1 & s2 & -> & H1 & H2); exists s1, s2; (split; [easy |]); split; auto; now apply IHa. }
    assert (Hcat : in_regexp (Cat a b) (c :: s) <-> (exists s1 s2, s = s1 ++ s2 /\ in_regexp a (c :: s1) /\ in_regexp b s2) \/ (in_regexp a [] /\ in_regexp b (c :: s))).
    { rewrite in_cat_iff. split.
      - intros ([|d s1] & s2 & E & H1 & H2); [cbn in E; subst s2; now right |]. injection E as <- ->. left. now exists s1, s2.
      - intros [(s1 & s2 & -> & H1 & H2)|[H1 H2]]; [now exists (c :: s1), s2 | now exists [], (c :: s)]. }
    rewrite Hcat. destruct (nullable a) eqn:En.
    + rewrite in_alt_iff, Hleft, IHb. apply nullable_spec in En. tauto.
    + rewrite Hleft. assert (Hn : ~ in_regexp a []) by (rewrite <- nullable_spec; congruence). tauto.
  - now rewrite !in_alt_iff, IHa, IHb.
  - rewrite in_cat_iff. split.
    + intros (s1 & s2 & -> & H1 & H2). apply IHa in H1. now apply (in_star_app a (c :: s1) s2).
    + intros H. apply in_star_cons in H as (s1 & s2 & -> & H1 & H2). exists s1, s2. rewrite IHa. auto.
Qed.

(** [matches] decides the language. *)
Lemma matches_spec a s : matches a s = true <-> in_regexp a s.
Proof. revert a; induction s as [|c s IH]; intros a; cbn [matches]; [apply nullable_spec | now rewrite IH, derive_spec]. Qed.

Lemma matches_iff a b s : (in_regexp a s <-> b = true) -> matches a s = b.
Proof. intros H. apply Bool.eq_iff_eq_true. now rewrite matches_spec. Qed.

(** Some runes of a class *)
Lemma in_star_class p s : in_regexp (Star (Class p)) s <-> forallb p s = true.
Proof.
  split.
  - induction s as [|c s IH]; intros H; [easy |]. apply in_star_cons in H as (s1 & s2 & -> & H1 & H2). apply in_class_iff in H1 as (d & E & Hd). injection E as -> ->.
    cbn [forallb]. rewrite Hd. now apply IH.
  - induction s as [|c s IH]; [constructor |]. cbn [forallb]. intros [Hc Hs]%andb_true_iff. apply (in_star_app _ [c]); [now constructor | auto].
Qed.

Lemma in_plus_class p s : in_regexp (Plus (Class p)) s <-> s <> [] /\ forallb p s = true.
Proof.
  unfold Plus. rewrite in_cat_iff. split.
  - intros (s1 & s2 & -> & H1 & H2). apply in_class_iff in H1 as (c & -> & Hc). apply in_star_class in H2. cbn. now rewrite Hc, H2.
  - intros [Hs H]. destruct s as [|c s]; [easy |]. cbn in H. apply andb_true_iff in H as [Hc H]. exists [c], s. split; [easy |]. split; [now constructor | now apply in_star_class].
Qed.

(** ** Paths *)

Local Close Scope Z_scope.
Local Open Scope N_scope.

Definition dot : list N := [46].
Definition dotdot : list N := [46; 46].

Definition is_rooted (p : list N) : bool := match p with c :: _ => c =? 47 | [] => false end.

(** A part of a path on the stack of those before it *)
Definition clean_step (rooted : bool) (stack : list (list N)) (part : list N) : list (list N) :=
  if eqb_bytes part [] || eqb_bytes part dot then stack
  else if eqb_bytes part dotdot then
    match stack with
    | [] => if rooted then [] else [dotdot]
    | top :: rest => if eqb_bytes top dotdot then dotdot :: stack else rest
    end
  else part :: stack.

Definition clean_stack (rooted : bool) (p : list N) : list (list N) := fold_left (clean_step rooted) (Split 47 p) [].

Definition render (rooted : bool) (stack : list (list N)) : list N :=
  let body := Join 47 (rev stack) in
  if rooted then 47 :: body else if eqb_bytes body [] then dot else body.

(** [path.Clean] *)
Definition Clean (p : list N) : list N := render (is_rooted p) (clean_stack (is_rooted p) p).

(** [path.Join] of two elements *)
Definition path_Join (a b : list N) : list N :=
  match a, b with
  | [], [] => []
  | [], _ => Clean b
  | _, _ => Clean (a ++ 47 :: b)
  end.

(** The part after the last slash, and what is before it with the slash *)
Fixpoint split_rev (acc s : list N) : list N * list N :=
  match s with
  | [] => ([], acc)
  | c :: t => if c =? 47 then (rev s, acc) else split_rev (c :: acc) t
  end.

(** [path.Split] *)
Definition path_Split (p : list N) : list N * list N := split_rev [] (rev p).

Example clean1 : Clean (bytes_of "a//b/./../c") = bytes_of "a/c". Proof. reflexivity. Qed.
Example clean2 : Clean (bytes_of "../../a/..") = bytes_of "../..". Proof. reflexivity. Qed.
Example clean3 : Clean (bytes_of "/../a/") = bytes_of "/a". Proof. reflexivity. Qed.
Example clean4 : Clean [] = dot. Proof. reflexivity. Qed.

(** ** Laws *)

Lemma split_rev_spec s : forall acc, let '(a, b) := split_rev acc s in rev s ++ acc = a ++ b /\ (~ In 47 acc -> ~ In 47 b) /\ (a = [] \/ exists t, a = t ++ [47]).
Proof.
  induction s as [|c s IH]; intros acc; cbn [split_rev]; [splits; auto |]. destruct (N.eqb_spec c 47) as [->|Hc].
  - splits; auto. right. now exists (rev s).
  - specialize (IH (c :: acc)). destruct (split_rev (c :: acc) s) as [a b]. destruct IH as (E & Hb & Ha). cbn [rev]. rewrite <- app_assoc. splits; auto.
    intros Hacc. apply Hb. intros [K|K]; congruence || auto.
Qed.

(** A path is its directory and its last part, which has no slash. *)
Lemma path_Split_spec p : let '(parent, leaf) := path_Split p in p = parent ++ leaf /\ ~ In 47 leaf /\ (parent = [] \/ exists t, parent = t ++ [47]).
Proof.
  unfold path_Split. assert (H := split_rev_spec (rev p) []). destruct (split_rev [] (rev p)) as [a b]. rewrite rev_involutive, app_nil_r in H.
  destruct H as (E & Hb & Ha). splits; auto.
Qed.

(** A part that a cleaned path has: not empty, not a dot, no slash *)
Definition clean_part (part : list N) : Prop := part <> [] /\ part <> dot /\ ~ In 47 part.

Lemma clean_step_parts rooted stack part : ~ In 47 part -> Forall clean_part stack -> Forall clean_part (clean_step rooted stack part).
Proof.
  intros Hp Hs. unfold clean_step. destruct (eqb_bytes_spec part []), (eqb_bytes_spec part dot); cbn [orb]; auto.
  assert (Hd : clean_part dotdot) by (repeat split; try easy; intros [K|[K|[]]]; easy).
  destruct (eqb_bytes_spec part dotdot) as [->|].
  - destruct stack as [|top rest]; [destruct rooted; auto |]. destruct (eqb_bytes_spec top dotdot); [now constructor |]. now inversion Hs.
  - constructor; [now repeat split | auto].
Qed.

Lemma clean_stack_parts rooted p : Forall clean_part (clean_stack rooted p).
Proof.
  unfold clean_stack. assert (Hp := Split_parts 47 p). revert Hp. generalize (Split 47 p). intros l Hl.
  assert (H : forall st, Forall clean_part st -> Forall clean_part (fold_left (clean_step rooted) l st)); [| now apply H].
  induction l as [|x l IH]; intros st Hst; [auto |]. cbn [fold_left]. apply IH; [intros f Hf; apply Hl; now right |]. apply clean_step_parts; [apply Hl; now left | auto].
Qed.

(** Under the root no part goes up. *)
Lemma rooted_no_dotdot p : ~ In dotdot (clean_stack true p).
Proof.
  unfold clean_stack. generalize (Split 47 p). intros l. assert (H : forall st, ~ In dotdot st -> ~ In dotdot (fold_left (clean_step true) l st)); [| apply H; easy].
  induction l as [|x l IH]; intros st Hst; [auto |]. cbn [fold_left]. apply IH. unfold clean_step.
  destruct (eqb_bytes_spec x []), (eqb_bytes_spec x dot); cbn [orb]; auto. destruct (eqb_bytes_spec x dotdot) as [->|Hx].
  - destruct st as [|top rest]; [easy |]. destruct (eqb_bytes_spec top dotdot) as [->|]; [exfalso; apply Hst; now left |]. intros K. apply Hst. now right.
  - intros [K|K]; [congruence | auto].
Qed.

(** Parts that do not go up are put on any stack. *)
Lemma clean_parts_app rooted parts : Forall clean_part parts -> ~ In dotdot parts -> forall st, fold_left (clean_step rooted) parts st = rev parts ++ st.
Proof.
  induction 1 as [|x l (Hx1 & Hx2 & _) _ IH]; intros Hd st; [easy |]. cbn [fold_left rev]. rewrite IH by (intros K; apply Hd; now right). rewrite <- app_assoc. f_equal.
  unfold clean_step. destruct (eqb_bytes_spec x []), (eqb_bytes_spec x dot), (eqb_bytes_spec x dotdot) as [->|]; try easy. exfalso. apply Hd. now left.
Qed.

Lemma Join_rooted parts : Forall clean_part parts -> parts <> [] -> is_rooted (Join 47 parts) = false.
Proof.
  intros H Hn. destruct H as [|x l (Hx & _ & Hx47) _]; [easy |]. destruct x as [|c x]; [easy |]. assert (E : exists t, Join 47 ((c :: x) :: l) = c :: t) by (destruct l; cbn; eauto).
  destruct E as (t & ->). cbn. destruct (N.eqb_spec c 47) as [->|]; [| easy]. exfalso. apply Hx47. now left.
Qed.

Lemma clean_stack_Join rooted parts : Forall clean_part parts -> ~ In dotdot parts -> clean_stack rooted (Join 47 parts) = rev parts.
Proof.
  intros H Hd. unfold clean_stack. destruct parts as [|x l]; [reflexivity |]. rewrite Split_Join; [rewrite clean_parts_app by auto; apply app_nil_r | easy |].
  intros f Hf. rewrite Forall_forall in H. apply (H f Hf).
Qed.

(** The parts of two paths joined *)
Lemma Split_cat a b : Split 47 (a ++ 47 :: b) = Split 47 a ++ Split 47 b.
Proof.
  induction a as [|c a IH]; cbn [app Split]; [reflexivity |]. destruct (c =? 47); [now rewrite IH |]. rewrite IH.
  assert (Hn := Split_not_nil 47 a). now destruct (Split 47 a).
Qed.

Lemma clean_stack_cat rooted a parts : Forall clean_part parts -> ~ In dotdot parts -> clean_stack rooted (a ++ 47 :: Join 47 parts) = rev parts ++ clean_stack rooted a.
Proof.
  intros H Hd. unfold clean_stack. rewrite Split_cat, fold_left_app. destruct parts as [|x l]; [reflexivity |].
  rewrite Split_Join; [now apply clean_parts_app | easy |]. intros f Hf. rewrite Forall_forall in H. apply (H f Hf).
Qed.

(** [path.Base] *)
Definition path_Base (p : list N) : list N :=
  if eqb_bytes p [] then dot
  else let p := last (Split 47 (TrimRight 47 p)) [] in if eqb_bytes p [] then [47] else p.

Example Base1 : path_Base (bytes_of "a/b//") = bytes_of "b". Proof. reflexivity. Qed.
