(* ===== verification/FsPath.v ===== *)
(** * Remote paths (src/fs/fspath/path.go)

    "remote,param=value,param2='quoted':path" names a remote, its parameters and a
    path on it; a text without such a start is a path on the local disk.  [Parse] is a
    machine that reads the runes of the text.  This is the build for systems other
    than Windows, where [filepath.ToSlash] changes nothing and no name is a drive
    letter.  [Simple_String] (src/fs/config/configmap/configmap.go) writes the
    parameters. *)
From stdpp Require Import base gmap list sorting.
From Stdlib Require Import String.
From Stdlib Require Import List Arith NArith ZArith Lia Bool.
From S2P Require Import Prelude GoStrings GoPath.
Import ListNotations.
Local Open Scope Z_scope.
Local Open Scope go_scope.

(** ** Names *)

Inductive fsError : Type :=
| errInvalidCharacters | errCantBeEmpty | errBadConfigParam | errEmptyConfigParam | errConfigNameEmpty | errConfigName
| errParam | errValue | errQuotedValue | errAfterQuote | errSyntax.

Section Names.
Context `{Unicode}.

Definition between_z (lo hi c : Z) : bool := (lo <=? c) && (c <=? hi).

(** [\w\p{L}\p{N}.+@]: an ASCII word character, a letter or a number, and ".+@" *)
Definition name_char (c : Z) : bool :=
  (between_z 48 57 c || between_z 65 90 c || between_z 97 122 c || (c =? 95) || ((128 <=? c) && letter_or_number c)) ||
  ((c =? 46) || (c =? 43) || (c =? 64)).

Definition sep_char (c : Z) : bool := (c =? 32) || (c =? 45).
Definition name_char_dash (c : Z) : bool := name_char c || (c =? 45).

Definition configNameRe : regexp :=
  Cat (Plus (Class name_char)) (Star (Cat (Plus (Class sep_char)) (Plus (Class name_char_dash)))).

Definition configNameMatcher (s : list N) : bool := matches configNameRe (runes s).

(** [^:?name(?::$|,)]: after a comma anything may follow *)
Definition remoteNameMatcher (s : list N) : bool :=
  matches (Cat (Opt (Char 58)) (Cat configNameRe (Alt (Char 58) (Cat (Char 44) (Star (Class (fun _ => true))))))) (runes s).

Definition CheckConfigName (configName : list N) : option fsError :=
  if negb (configNameMatcher configName) then Some errInvalidCharacters else None.

(** *** [MakeConfigName] *)

(** How many runes at the start are in a class *)
Fixpoint span (p : Z -> bool) (l : list (Z * list N)) : nat :=
  match l with
  | (r, _) :: l => if p r then S (span p l) else O
  | [] => O
  end.

(** The length of the match of [illegalPartOfConfigNameRe] here: separators at the
    start of the text, or characters that are not allowed, or spaces at the end *)
Definition illegal_match (first : bool) (l : list (Z * list N)) : nat :=
  let n1 := if first then span sep_char l else O in
  if (0 <? n1)%nat then n1
  else
    let n2 := span (fun r => negb (name_char r || sep_char r)) l in
    if (0 <? n2)%nat then n2
    else
      let n3 := span (Z.eqb 32) l in
      if (n3 =? length l)%nat then n3 else O.

(** [ReplaceAllString(name, "_")] *)
Fixpoint replace_illegal (fuel : nat) (first : bool) (l : list (Z * list N)) : list N :=
  match fuel, l with
  | S fuel, (_, b) :: t =>
      match illegal_match first l with
      | O => b ++ replace_illegal fuel false t
      | n => 95%N :: replace_illegal fuel false (skipn n l)
      end
  | _, _ => []
  end.

Definition MakeConfigName (name : list N) : list N :=
  if eqb_bytes name [] then [95%N]
  else if configNameMatcher name then name
  else let l := rune_parts (length name) name in replace_illegal (length l) true l.

Definition checkRemoteName (remoteName : list N) : option fsError :=
  if eqb_bytes remoteName [58%N] || eqb_bytes remoteName [58; 58]%N then Some errConfigNameEmpty
  else if negb (remoteNameMatcher remoteName) then Some errInvalidCharacters
  else None.

Definition isConfigParam (c : Z) : bool := between_z 97 122 c || between_z 65 90 c || between_z 48 57 c || (c =? 95).

(** ** Parsing *)

(** [configmap.Simple]; [None] for a map that was not made *)
Definition Simple : Type := gmap (list N) (list N).

Record Parsed : Type := { Name : list N; ConfigString : list N; Path : list N; Config : option Simple }.

Inductive parse_state : Type := stateConfigName | stateParam | stateValue | stateQuotedValue | stateAfterQuote | stateDone.

Record parser : Type := {
  state : parse_state; prev : nat; quote : Z; param : list N; doubled : bool; parsed : Parsed
}.

Definition set_state (st : parse_state) (s : parser) : parser :=
  {| state := st; prev := prev s; quote := quote s; param := param s; doubled := doubled s; parsed := parsed s |}.
Definition set_prev (n : nat) (s : parser) : parser :=
  {| state := state s; prev := n; quote := quote s; param := param s; doubled := doubled s; parsed := parsed s |}.
Definition set_quote (q : Z) (s : parser) : parser :=
  {| state := state s; prev := prev s; quote := q; param := param s; doubled := doubled s; parsed := parsed s |}.
Definition set_param (p : list N) (s : parser) : parser :=
  {| state := state s; prev := prev s; quote := quote s; param := p; doubled := doubled s; parsed := parsed s |}.
Definition set_doubled (b : bool) (s : parser) : parser :=
  {| state := state s; prev := prev s; quote := quote s; param := param s; doubled := b; parsed := parsed s |}.
Definition set_parsed (p : Parsed) (s : parser) : parser :=
  {| state := state s; prev := prev s; quote := quote s; param := param s; doubled := doubled s; parsed := p |}.
Definition set_Name (n : list N) (p : Parsed) : Parsed := {| Name := n; ConfigString := ConfigString p; Path := Path p; Config := Config p |}.
Definition set_Config (c : option Simple) (p : Parsed) : Parsed := {| Name := Name p; ConfigString := ConfigString p; Path := Path p; Config := c |}.

(** [path\[a:b\]] *)
Definition sub {E} (path : list N) (a b : nat) : outcome E (list N) :=
  if (a <=? b)%nat && (b <=? length path)%nat then Ret (firstn (b - a) (skipn a path)) else Panic.

(** [parsed.Config\[param\] = value]; a map that was not made panics. *)
Definition set_param_value {E} (value : list N) (s : parser) : outcome E parser :=
  match Config (parsed s) with
  | Some c => Ret (set_parsed (set_Config (Some (<[param s := value]> c)) (parsed s)) s)
  | None => Panic
  end.

(** What a turn of the loop does: go on, return, or leave the loop at this place *)
Inductive turn : Type := Next (s : parser) | Return (p : Parsed) (err : option fsError) | Break (s : parser) (i : nat).

(** After a parameter: the path starts, or the next parameter *)
Definition after_param (c : Z) (i : nat) (s : parser) : turn :=
  if c =? 58 then Break (set_state stateDone s) i else Next (set_state stateParam s).

(** [strings.ReplaceAll(value, quote+quote, quote)] for a quote of one byte *)
Fixpoint halve_quotes (q : N) (s : list N) : list N :=
  match s with
  | [] => []
  | [x] => [x]
  | x :: (y :: t) as u => if (x =? q)%N && (y =? q)%N then q :: halve_quotes q t else x :: halve_quotes q u
  end.

(** The loop for the rune [c] at the byte [i] *)
Definition parse_turn (path : list N) (i : nat) (c : Z) (s : parser) : outcome Empty_set turn :=
  match state s with
  | stateConfigName =>
      if (i =? 0)%nat && (c =? 58) then Ret (Next s)
      else if (c =? 47) || (c =? 92) then
        b <- idx path 0 ;;
        if (b =? 58)%N then Ret (Return (parsed s) (Some errInvalidCharacters)) else Ret (Return (parsed s) None)
      else if (c =? 58) || (c =? 44) then
        name <- sub path 0 i ;;
        let s := set_parsed (set_Name name (parsed s)) s in
        match checkRemoteName (name ++ [58%N]) with
        | Some err => Ret (Return (parsed s) (Some err))
        | None =>
            let s := set_prev (S i) s in
            if c =? 58 then Ret (Break (set_state stateDone s) i)
            else Ret (Next (set_parsed (set_Config (Some ∅) (parsed s)) (set_state stateParam s)))
        end
      else Ret (Next s)
  | stateParam =>
      if (c =? 58) || (c =? 44) || (c =? 61) then
        p <- sub path (prev s) i ;;
        let s := set_param p s in
        if (length p =? 0)%nat then Ret (Return (parsed s) (Some errEmptyConfigParam))
        else
          let s := set_prev (S i) s in
          if c =? 61 then Ret (Next (set_state stateValue s))
          else s <- set_param_value (bytes_of "true") s ;; Ret (after_param c i s)
      else if negb (isConfigParam c) then Ret (Return (parsed s) (Some errBadConfigParam))
      else Ret (Next s)
  | stateValue =>
      if (c =? 39) || (c =? 34) then
        if (i =? prev s)%nat then Ret (Next (set_doubled false (set_prev (S i) (set_state stateQuotedValue (set_quote c s)))))
        else Ret (Next s)
      else if (c =? 58) || (c =? 44) then
        value <- sub path (prev s) i ;;
        s <- set_param_value value (set_prev (S i) s) ;;
        Ret (after_param c i s)
      else Ret (Next s)
  | stateQuotedValue => if c =? quote s then Ret (Next (set_state stateAfterQuote s)) else Ret (Next s)
  | stateAfterQuote =>
      if (c =? 58) || (c =? 44) then
        value <- (if (i =? 0)%nat then Panic else sub path (prev s) (i - 1)) ;;
        let value := if doubled s then halve_quotes (Z.to_N (quote s)) value else value in
        s <- set_param_value value (set_prev (S i) s) ;;
        Ret (after_param c i s)
      else if c =? quote s then Ret (Next (set_doubled true (set_state stateQuotedValue s)))
      else Ret (Return (parsed s) (Some errAfterQuote))
  | stateDone => Ret (Next s)
  end.

(** [for i, c = range path] from a byte [off] *)
Fixpoint parse_loop (fuel : nat) (path : list N) (off : nat) (rest : list N) (s : parser) : outcome Empty_set turn :=
  match fuel, rest with
  | S fuel, _ :: _ =>
      let '(c, w) := DecodeRune rest in
      t <- parse_turn path off c s ;;
      match t with
      | Next s => parse_loop fuel path (off + w) (skipn w rest) s
      | _ => Ret t
      end
  | _, _ => Ret (Next s)
  end.

(** The error for the state at the end of the text *)
Definition end_of_text (st : parse_state) : option fsError :=
  match st with
  | stateConfigName => Some errConfigName
  | stateParam => Some errParam
  | stateValue => Some errValue
  | stateQuotedValue => Some errQuotedValue
  | stateAfterQuote => Some errAfterQuote
  | stateDone => None
  end.

Definition Parse (path : list N) : outcome Empty_set (Parsed * option fsError) :=
  let p := {| Name := []; ConfigString := []; Path := path; Config := None |} in
  if eqb_bytes path [] then Ret (p, Some errCantBeEmpty)
  else
    match Index 58 path with
    | None => Ret (p, None)
    | Some _ =>
        t <- parse_loop (length path) path 0 path {| state := stateConfigName; prev := 0; quote := 0; param := []; doubled := false; parsed := p |} ;;
        match t with
        | Return p err => Ret (p, err)
        | Next s => Ret (parsed s, end_of_text (state s))
        | Break s i =>
            config <- sub path 0 i ;;
            rest <- sub path (S i) (length path) ;;
            Ret ({| Name := Name (parsed s); ConfigString := config; Path := rest; Config := Config (parsed s) |}, None)
        end
    end.

(** ** Splitting and joining *)

Definition SplitFs (remote : list N) : outcome Empty_set ((list N * list N) * option fsError) :=
  '(p, err) <- Parse remote ;;
  match err with
  | Some e => Ret (([], []), Some e)
  | None =>
      let remoteName := ConfigString p in
      let remoteName := if negb (eqb_bytes remoteName []) then remoteName ++ [58%N] else remoteName in
      Ret ((remoteName, Path p), None)
  end.

(** [Split] *)
Definition Split_remote (remote : list N) : outcome Empty_set ((list N * list N) * option fsError) :=
  '(r, err) <- SplitFs remote ;;
  match err with
  | Some e => Ret (([], []), Some e)
  | None => let '(parent, leaf) := path_Split (snd r) in Ret ((fst r ++ parent, leaf), None)
  end.

Definition makeAbsolute (filePath : list N) : list N :=
  let leadingSlash := HasPrefix filePath [47%N] in
  let filePath := path_Join [47%N] filePath in
  if negb leadingSlash && HasPrefix filePath [47%N] then skipn 1 filePath else filePath.

Definition JoinRootPath (remote filePath : list N) : outcome Empty_set (list N) :=
  if eqb_bytes filePath [] then Ret remote
  else
    let filePath := makeAbsolute filePath in
    if HasPrefix remote [47; 47]%N then Ret (47%N :: path_Join remote filePath)
    else
      '(p, err) <- Parse remote ;;
      let '(remoteName, remotePath) := match err with Some _ => ([], remote) | None => (ConfigString p, Path p) end in
      let remotePath := path_Join remotePath filePath in
      if negb (eqb_bytes remoteName []) then
        let remoteName := remoteName ++ [58%N] in
        let remotePath := if eqb_bytes remotePath dot then [] else remotePath in
        Ret (remoteName ++ remotePath)
      else Ret (remoteName ++ remotePath).
End Names.

(** ** Writing parameters (configmap.go) *)

(** [sort.Strings] orders by bytes. *)
Fixpoint bytes_le (a b : list N) : bool :=
  match a, b with
  | [], _ => true
  | _ :: _, [] => false
  | x :: a, y :: b => if (x =? y)%N then bytes_le a b else (x <? y)%N
  end.

Definition bytes_order (a b : list N) : Prop := bytes_le a b = true.

#[export] Instance bytes_order_dec : RelDecision bytes_order.
Proof. intros a b. unfold bytes_order. destruct (bytes_le a b); [now left | now right]. Defined.

(** The runes of a value, quotes doubled *)
Definition escape (v : list N) : list N :=
  fold_left (fun out ch => let out := AppendRune out ch in if ch =? 39 then AppendRune out ch else out) (runes v) [].

(** The parameters for the keys [ks] *)
Definition write_params (c : Simple) (ks : list (list N)) : list N :=
  fold_left (fun out k =>
    (if (0 <? length out)%nat then out ++ [44%N] else out) ++ k ++ [61; 39]%N ++ escape (default [] (c !! k)) ++ [39%N]) ks [].

(** [Simple.String] *)
Definition Simple_String (c : Simple) : list N :=
  write_params c (merge_sort bytes_order (map fst (map_to_list c))).

Section Tests.
#[local] Instance ascii0 : Unicode := {| upper_unicode := fun s => s; lower_unicode := fun s => s; letter_or_number := fun _ => false |}.
Definition cfg1 : Simple := <[bytes_of "param2" := bytes_of "it's"]> (<[bytes_of "param1" := bytes_of "value1"]> ∅).

Example parse1 : Parse (bytes_of ":backend,param1=value1,param2='it''s':/path/to/file") =
  Ret ({| Name := bytes_of ":backend"; ConfigString := bytes_of ":backend,param1=value1,param2='it''s'"; Path := bytes_of "/path/to/file"; Config := Some cfg1 |}, None).
Proof. vm_compute. reflexivity. Qed.
Example parse2 : (fst <$> match Parse (bytes_of "rem#ote:/path") with Ret (p, e) => Some (e, 0) | _ => None end) = Some (Some errInvalidCharacters). Proof. vm_compute. reflexivity. Qed.
Example string1 : Simple_String cfg1 = bytes_of "param1='value1',param2='it''s'". Proof. vm_compute. reflexivity. Qed.
Example name1 : CheckConfigName (bytes_of "r-emote-") = None. Proof. vm_compute. reflexivity. Qed.
Example name2 : CheckConfigName (bytes_of "remote-") = Some errInvalidCharacters. Proof. vm_compute. reflexivity. Qed.
Example name3 : MakeConfigName (bytes_of "---rem:::ote???") = bytes_of "_rem_ote_". Proof. vm_compute. reflexivity. Qed.
Example name4 : MakeConfigName (bytes_of "remote-") = bytes_of "remote-". Proof. vm_compute. reflexivity. Qed.
Example name5 : MakeConfigName (bytes_of " remote ") = bytes_of "_remote_". Proof. vm_compute. reflexivity. Qed.
Example join1 : JoinRootPath (bytes_of "remote:a/b") (bytes_of "../../c") = Ret (bytes_of "remote:a/b/c"). Proof. vm_compute. reflexivity. Qed.
End Tests.
