(* ===== verification/FsPathParse.v ===== *)
(** * The parser of remote paths

    It takes its text apart, and parameters that are written are parsed again. *)
From stdpp Require Import base gmap list sorting.
From Stdlib Require Import String.
From Stdlib Require Import List Arith NArith ZArith Lia Bool.
From S2P Require Import Prelude GoStrings GoPath FsPath.
Import ListNotations.
Local Open Scope Z_scope.
Local Open Scope go_scope.

(** ** Taking a text apart *)

(** ** Runes at a byte *)

(** A rune below 128 is one byte. *)
Lemma DecodeRune_ascii rest c w : rest <> [] -> DecodeRune rest = (c, w) -> c < 128 -> w = 1%nat /\ rest = Z.to_N c :: skipn 1 rest.
Proof.
  intros Hr E Hc. destruct (Z.eq_dec c RuneError) as [->|Hne]; [unfold RuneError in Hc; lia |].
  destruct (Encode_DecodeRune rest c w Hr E) as [Hv Es]; [congruence |]. assert (Hv' := Hv). apply ValidRune_iff in Hv'.
  assert (Ee : EncodeRune c = [Z.to_N c]).
  { unfold EncodeRune, AppendRune. rewrite Hv. cbn [app]. destruct (N.ltb_spec (Z.to_N c) 128); [easy | lia]. }
  rewrite Ee in Es. cbn [app] in Es. destruct rest as [|b rest]; [easy |]. injection Es as -> Es. cbn [skipn]. split; [| easy].
  destruct w as [|[|w]]; [| easy |].
  - assert (K := DecodeRune_width (Z.to_N c :: rest) Hr). rewrite E in K. cbn in K. lia.
  - cbn [DecodeRune] in E. destruct (N.ltb_spec (Z.to_N c) 128); [congruence | lia].
Qed.

Lemma sub_ret {E} (path : list N) a b : (a <= b <= length path)%nat -> sub (E := E) path a b = Ret (firstn (b - a) (skipn a path)).
Proof. intros H. unfold sub. rewrite (proj2 (Nat.leb_le _ _)), (proj2 (Nat.leb_le _ _)) by lia. reflexivity. Qed.

Section Parse.
Context `{Unicode}.
Context (path : list N).

(** ** What the machine keeps *)

(** The name was checked and is the start of the text. *)
Definition named (p : Parsed) : Prop := checkRemoteName (Name p ++ [58%N]) = None /\ exists t, path = Name p ++ t.

Definition untouched (p : Parsed) : Prop := ConfigString p = [] /\ Path p = path.

Definition parser_ok (off : nat) (s : parser) : Prop :=
  untouched (parsed s) /\
  match state s with
  | stateConfigName => Name (parsed s) = [] /\ Config (parsed s) = None
  | stateDone => False
  | st => named (parsed s) /\ Config (parsed s) <> None /\ (1 <= prev s)%nat /\ (prev s + match st with stateAfterQuote => 1 | _ => 0 end <= off)%nat
  end.

Definition turn_ok (off : nat) (t : turn) : Prop :=
  match t with
  | Next s => parser_ok off s
  | Return p err => untouched p /\ (err = None -> Name p = [] /\ Config p = None)
  | Break s i => (1 <= i)%nat /\ (exists rest, skipn i path = 58%N :: rest) /\ named (parsed s)
  end.

Lemma set_param_value_ok v s : Config (parsed s) <> None -> exists c, set_param_value (E := Empty_set) v s = Ret (set_parsed (set_Config (Some c) (parsed s)) s).
Proof. intros Hc. unfold set_param_value. destruct (Config (parsed s)) as [c|]; [eauto | easy]. Qed.

Lemma after_param_ok c i s w : c < 128 -> (1 <= i)%nat -> skipn i path = Z.to_N c :: skipn 1 (skipn i path) -> untouched (parsed s) -> named (parsed s) -> Config (parsed s) <> None -> (1 <= prev s <= i + w)%nat ->
  turn_ok (i + w) (after_param c i s).
Proof.
  intros Hc Hi Hsk Hu Hn Hcfg Hp. unfold after_param. destruct (Z.eqb_spec c 58) as [->|_]; cbn [turn_ok].
  - splits; [easy | eauto | exact Hn].
  - split; [exact Hu |]. cbn [state set_state]. splits; [exact Hn | exact Hcfg | cbn [prev set_state]; lia | cbn [prev set_state]; lia].
Qed.

Lemma parse_turn_ok i c w s : let rest := skipn i path in rest <> [] -> DecodeRune rest = (c, w) -> parser_ok i s -> exists t, parse_turn path i c s = Ret t /\ turn_ok (i + w) t.
Proof.
  intros rest Hr E [Hu Hs]. assert (Hi : (i < length path)%nat) by (destruct (Nat.le_gt_cases (length path) i); [| auto]; unfold rest in Hr; rewrite skipn_all2 in Hr by lia; easy).
  assert (Hw := DecodeRune_width rest Hr). rewrite E in Hw. cbn [snd] in Hw.
  assert (Hsep : c < 128 -> w = 1%nat /\ rest = Z.to_N c :: skipn 1 rest) by (intros Hc; now apply (DecodeRune_ascii rest c w)).
  unfold parse_turn. destruct (state s) eqn:Est.
  - destruct Hs as [Hname Hcfg]. destruct (Nat.eqb_spec i 0) as [->|Hi0]; cbn [andb].
    + destruct (Z.eqb_spec c 58) as [->|Hc]; [eexists; split; [reflexivity |]; split; [exact Hu |]; rewrite Est; auto |].
      destruct (Z.eqb_spec c 47) as [Hc47|Hc47]; [| destruct (Z.eqb_spec c 92) as [Hc92|Hc92]]; cbn [orb].
      1,2: rewrite (idx_nth 0%N) by lia; cbn [bind]; destruct (_ =? 58)%N; eexists; (split; [reflexivity |]); (split; [exact Hu | easy]).
      destruct (Z.eqb_spec c 44) as [->|Hc44]; cbn [orb]; [| eexists; split; [reflexivity |]; split; [exact Hu |]; rewrite Est; auto].
      rewrite sub_ret by lia. cbn [bind Nat.sub firstn app]. eexists. split; [reflexivity |]. split; [exact Hu | discriminate].
    + destruct (Z.eqb_spec c 47) as [Hc47|Hc47]; [| destruct (Z.eqb_spec c 92) as [Hc92|Hc92]]; cbn [orb].
      1,2: rewrite (idx_nth 0%N) by lia; cbn [bind]; destruct (_ =? 58)%N; eexists; (split; [reflexivity |]); (split; [exact Hu | easy]).
      destruct ((c =? 58) || (c =? 44)) eqn:Ec; [| eexists; split; [reflexivity |]; split; [exact Hu |]; rewrite Est; auto].
      rewrite orb_true_iff, !Z.eqb_eq in Ec. destruct Hsep as [-> Erest]; [lia |]. rewrite sub_ret by lia. cbn [bind]. rewrite Nat.sub_0_r, skipn_O. cbn [set_parsed parsed set_Name Name].
      destruct (checkRemoteName _) eqn:Echk; [eexists; split; [reflexivity |]; split; [exact Hu | discriminate] |].
      assert (Hnm : exists t, path = firstn i path ++ t) by (exists (skipn i path); now rewrite firstn_skipn).
      destruct (Z.eqb_spec c 58) as [->|Hc58]; (eexists; split; [reflexivity |]).
      * cbn [turn_ok]. splits; [lia | exists (skipn 1 rest); exact Erest | split; [exact Echk | exact Hnm]].
      * split; [exact Hu |]. cbn [state set_parsed set_state parsed set_Config Config prev set_prev]. splits; [split; [exact Echk | exact Hnm] | discriminate | lia | lia].
  - destruct Hs as (Hn & Hcfg & Hp1 & Hp). destruct ((c =? 58) || (c =? 44) || (c =? 61)) eqn:Ec.
    + rewrite !orb_true_iff, !Z.eqb_eq in Ec. destruct Hsep as [-> Erest]; [lia |]. rewrite sub_ret by lia. cbn [bind]. set (v := firstn _ _).
      destruct (length v =? 0)%nat; [eexists; split; [reflexivity |]; split; [exact Hu | discriminate] |].
      destruct (Z.eqb_spec c 61); [eexists; split; [reflexivity |]; split; [exact Hu |]; cbn; splits; [exact Hn | exact Hcfg | lia | lia] |].
      destruct (set_param_value_ok (bytes_of "true") (set_prev (S i) (set_param v s)) Hcfg) as (cf & ->). cbn [bind].
      eexists. split; [reflexivity |]. apply after_param_ok; [lia | lia | exact Erest | exact Hu | exact Hn | discriminate | cbn; lia].
    + destruct (negb (isConfigParam c)); [eexists; split; [reflexivity |]; split; [exact Hu | discriminate] | (eexists; split; [reflexivity |]; split; [exact Hu |]; rewrite Est; splits; [exact Hn | exact Hcfg | lia | lia])].
  - destruct Hs as (Hn & Hcfg & Hp1 & Hp). destruct ((c =? 39) || (c =? 34)) eqn:Eq.
    + rewrite !orb_true_iff, !Z.eqb_eq in Eq. destruct Hsep as [-> Erest]; [lia |]. destruct (i =? prev s)%nat; [| (eexists; split; [reflexivity |]; split; [exact Hu |]; rewrite Est; splits; [exact Hn | exact Hcfg | lia | lia])].
      eexists. split; [reflexivity |]. split; [exact Hu |]. cbn. splits; [exact Hn | exact Hcfg | lia | lia].
    + destruct ((c =? 58) || (c =? 44)) eqn:Ec; [| (eexists; split; [reflexivity |]; split; [exact Hu |]; rewrite Est; splits; [exact Hn | exact Hcfg | lia | lia])].
      rewrite orb_true_iff, !Z.eqb_eq in Ec. destruct Hsep as [-> Erest]; [lia |]. rewrite sub_ret by lia. cbn [bind]. set (v := firstn _ _).
      destruct (set_param_value_ok v (set_prev (S i) s) Hcfg) as (cf & ->). cbn [bind]. eexists. split; [reflexivity |]. apply after_param_ok; [lia | lia | exact Erest | exact Hu | exact Hn | discriminate | cbn; lia].
  - destruct Hs as (Hn & Hcfg & Hp1 & Hp). destruct (c =? quote s); [| (eexists; split; [reflexivity |]; split; [exact Hu |]; rewrite Est; splits; [exact Hn | exact Hcfg | lia | lia])].
    eexists. split; [reflexivity |]. split; [exact Hu |]. cbn. splits; [exact Hn | exact Hcfg | lia | lia].
  - destruct Hs as (Hn & Hcfg & Hp1 & Hp). destruct ((c =? 58) || (c =? 44)) eqn:Ec.
    + rewrite orb_true_iff, !Z.eqb_eq in Ec. destruct Hsep as [-> Erest]; [lia |]. destruct (Nat.eqb_spec i 0); [lia |]. rewrite sub_ret by lia. cbn [bind]. set (v := firstn _ _). set (u := if doubled s then _ else _).
      destruct (set_param_value_ok u (set_prev (S i) s) Hcfg) as (cf & ->). cbn [bind]. eexists. split; [reflexivity |]. apply after_param_ok; [lia | lia | exact Erest | exact Hu | exact Hn | discriminate | cbn; lia].
    + destruct (c =? quote s); (eexists; split; [reflexivity |]; split; [exact Hu |]); [| discriminate]. cbn. splits; [exact Hn | exact Hcfg | lia | lia].
  - contradiction.
Qed.

Lemma parse_loop_ok fuel : forall off s, parser_ok off s -> (length path - off <= fuel)%nat ->
  exists t, parse_loop fuel path off (skipn off path) s = Ret t /\ match t with Next s => exists off, parser_ok off s | _ => turn_ok off t end.
Proof.
  induction fuel as [|fuel IH]; intros off s Hs Hf.
  - exists (Next s). split; [now destruct (skipn off path) | eauto].
  - cbn [parse_loop]. destruct (skipn off path) as [|b rest] eqn:E; [exists (Next s); eauto |]. rewrite <- E. destruct (DecodeRune (skipn off path)) as [c w] eqn:Ed.
    destruct (parse_turn_ok off c w s) as (t & Et & Ht); [now rewrite E | exact Ed | exact Hs |]. rewrite Et. cbn [bind].
    assert (Hw := DecodeRune_width (skipn off path) ltac:(now rewrite E)). rewrite Ed in Hw. cbn [snd] in Hw.
    destruct t as [s'|p err|s' i]; [| now eexists | now eexists]. replace (skipn w (skipn off path)) with (skipn (off + w) path) by (rewrite skipn_skipn; f_equal; lia). destruct (IH (off + w)%nat s' Ht ltac:(lia)) as (t & Et' & Ht'). exists t. split; [exact Et' |]. now destruct t.
Qed.

(** What [Parse] returns: never a panic *)
Lemma Parse_cases : exists p err, Parse path = Ret (p, err) /\ (err = None ->
  (Name p = [] /\ ConfigString p = [] /\ Path p = path /\ Config p = None) \/
  (checkRemoteName (Name p ++ [58%N]) = None /\ ConfigString p <> [] /\ path = ConfigString p ++ 58%N :: Path p /\ exists t, path = Name p ++ t)).
Proof.
  unfold Parse. destruct (eqb_bytes_spec path []) as [->|Hne]; [eexists _, _; split; [reflexivity | discriminate] |].
  destruct (Index 58 path); [| eexists _, _; split; [reflexivity | left; auto]].
  destruct (parse_loop_ok (length path) 0 {| state := stateConfigName; prev := 0; quote := 0; param := []; doubled := false; parsed := {| Name := []; ConfigString := []; Path := path; Config := None |} |}) as (t & Et & Ht);
    [repeat split | lia |]. rewrite skipn_O in Et. rewrite Et. cbn [bind]. destruct t as [s|p err|s i].
  - destruct Ht as (off & _ & Hst). eexists _, _. split; [reflexivity |]. destruct (state s); [discriminate .. | contradiction].
  - destruct Ht as [[Hc Hp] He]. exists p, err. split; [reflexivity |]. intros E. destruct (He E). left. auto.
  - destruct Ht as (Hi & (rest & Hsk) & Hchk & Hn). assert (Hl : (i < length path)%nat) by (destruct (Nat.le_gt_cases (length path) i); [rewrite skipn_all2 in Hsk by lia; discriminate | auto]).
    rewrite sub_ret by lia. cbn [bind]. rewrite sub_ret by lia. cbn [bind]. eexists _, _. split; [reflexivity |]. intros _. right. cbn [Name ConfigString Path].
    rewrite Nat.sub_0_r, skipn_O, (firstn_all2 (skipn (S i) path)) by (rewrite length_skipn; lia). splits; [exact Hchk | | | exact Hn].
    + destruct path; [easy |]. destruct i; [lia | discriminate].
    + rewrite <- (firstn_skipn i path) at 1. f_equal. rewrite Hsk. f_equal. change (S i) with (1 + i)%nat. now rewrite <- skipn_skipn, Hsk.
Qed.
End Parse.

(** ** Parsing what was written *)

(** ** Doubled quotes *)

Definition double_quote (b : N) : list N := if (b =? 39)%N then [39; 39]%N else [b].

Lemma halve_double v : halve_quotes 39 (flat_map double_quote v) = v.
Proof.
  induction v as [|b v IH]; [easy |]. cbn [flat_map]. unfold double_quote at 1. destruct (N.eqb_spec b 39) as [->|Hb]; cbn [app].
  - cbn [halve_quotes]. change (39 =? 39)%N with true. cbn [andb]. now rewrite IH.
  - destruct (flat_map double_quote v) as [|y t] eqn:E; [destruct v as [|a v]; [easy |]; cbn in E; unfold double_quote in E; now destruct (a =? 39)%N |].
    cbn [halve_quotes]. destruct (N.eqb_spec b 39); [easy |]. cbn [andb]. f_equal. exact IH.
Qed.

Lemma double_none v : ~ In 39%N v -> flat_map double_quote v = v.
Proof.
  induction v as [|b v IH]; intros Hv; [easy |]. cbn [flat_map]. unfold double_quote at 1. destruct (N.eqb_spec b 39) as [->|]; [exfalso; apply Hv; now left |].
  cbn [app]. f_equal. apply IH. intros K. apply Hv. now right.
Qed.

Lemma double_EncodeRune r : ValidRune r = true -> flat_map double_quote (EncodeRune r) = if r =? 39 then EncodeRune r ++ EncodeRune r else EncodeRune r.
Proof.
  intros Hr. destruct (Z.eqb_spec r 39) as [->|Hne]; [reflexivity |]. apply double_none. rewrite (EncodeRune_ascii r 39 Hr) by easy. exact Hne.
Qed.

(** Runes with their quotes doubled *)
Definition double_runes (rs : list Z) : list Z := flat_map (fun r => if r =? 39 then [r; r] else [r]) rs.

Lemma escape_runes v : escape v = concat (map EncodeRune (double_runes (runes v))).
Proof.
  unfold escape. assert (H : forall rs out, fold_left (fun out ch => let out := AppendRune out ch in if ch =? 39 then AppendRune out ch else out) rs out = out ++ concat (map EncodeRune (double_runes rs))).
  { induction rs as [|r rs IH]; intros out; cbn [fold_left double_runes flat_map]; [now rewrite app_nil_r |]. rewrite IH. cbv zeta. rewrite !AppendRune_app.
    destruct (r =? 39); cbn [app map concat]; now rewrite <- !app_assoc. }
  now rewrite H.
Qed.

Lemma escape_spec v : ValidString v = true -> escape v = flat_map double_quote v.
Proof.
  intros Hv. destruct (ValidString_runes v Hv) as [Hval Hcat]. rewrite escape_runes. rewrite <- Hcat at 2. clear Hcat Hv. induction Hval as [|r rs Hr _ IH]; [easy |].
  cbn [double_runes flat_map map concat]. rewrite flat_map_app, (double_EncodeRune r Hr). rewrite map_app, concat_app. f_equal; [| exact IH].
  destruct (r =? 39); cbn [map concat]; now rewrite ?app_nil_r.
Qed.

(** ** Runs of the machine *)

Section Runs.
Context `{Unicode}.
Context (path : list N).

Lemma parse_loop_fuel f1 : forall f2 off rest s, (length rest <= f1)%nat -> (length rest <= f2)%nat -> parse_loop f1 path off rest s = parse_loop f2 path off rest s.
Proof.
  induction f1 as [|f1 IH]; intros f2 off rest s H1 H2; [destruct rest; [now destruct f2 | cbn in H1; lia] |].
  destruct rest as [|b rest]; [now destruct f2 |]. destruct f2 as [|f2]; [cbn in H2; lia |]. cbn [parse_loop].
  assert (Hw := DecodeRune_width (b :: rest) ltac:(easy)). destruct (DecodeRune (b :: rest)) as [c w]. cbn [snd] in Hw.
  destruct (parse_turn path off c s) as [t| | |]; [| easy ..]. cbn [bind]. destruct t; auto. assert (Hl := length_skipn w (b :: rest)). cbn [length] in *. apply IH; lia.
Qed.

Definition run (off : nat) (rest : list N) (s : parser) : outcome Empty_set turn := parse_loop (length rest) path off rest s.

Lemma run_rune off r t s : ValidRune r = true ->
  run off (EncodeRune r ++ t) s = (tn <- parse_turn path off r s ;; match tn with Next s' => run (off + length (EncodeRune r)) t s' | _ => Ret tn end).
Proof.
  intros Hr. assert (HD := DecodeRune_Encode r t Hr). assert (Hl := EncodeRune_length r). unfold run.
  rewrite (parse_loop_fuel _ (S (length (EncodeRune r ++ t)))) by lia. cbn [parse_loop]. destruct (EncodeRune r ++ t) as [|b l] eqn:E; [destruct (EncodeRune r); [cbn in Hl; lia | discriminate] |].
  rewrite HD. destruct (parse_turn path off r s) as [tn| | |]; [| easy ..]. cbn [bind]. destruct tn; auto. rewrite <- E, skipn_app, skipn_all, Nat.sub_diag. cbn [skipn app].
  apply parse_loop_fuel; rewrite ?length_app; lia.
Qed.

Lemma run_byte off (b : N) t s : (b < 128)%N ->
  run off (b :: t) s = (tn <- parse_turn path off (Z.of_N b) s ;; match tn with Next s' => run (S off) t s' | _ => Ret tn end).
Proof.
  intros Hb. assert (Hv : ValidRune (Z.of_N b) = true) by (apply ValidRune_iff; lia).
  assert (E : EncodeRune (Z.of_N b) = [b]) by (unfold EncodeRune, AppendRune; rewrite Hv, N2Z.id; destruct (N.ltb_spec b 128); [easy | lia]).
  assert (K := run_rune off (Z.of_N b) t s Hv). rewrite E in K. cbn [app length] in K. now rewrite Nat.add_1_r in K.
Qed.

(** Runes that leave the machine as it is *)
Lemma run_stay rs : forall off t s, Forall (fun r => ValidRune r = true) rs -> (forall o r, In r rs -> parse_turn path o r s = Ret (Next s)) ->
  run off (concat (map EncodeRune rs) ++ t) s = run (off + length (concat (map EncodeRune rs))) t s.
Proof.
  induction rs as [|r rs IH]; intros off t s Hv Hs; cbn [map concat]; [now rewrite Nat.add_0_r |].
  apply Forall_cons_1 in Hv as [Hr Hv]. rewrite <- app_assoc, run_rune, Hs by (auto; now left). cbn [bind]. rewrite IH by (auto; intros o x Hx; apply Hs; now right).
  rewrite length_app. f_equal. lia.
Qed.

(** A quoted value: the machine is at its end, and knows whether a quote was doubled. *)
Lemma run_quoted rs : forall off t s, Forall (fun r => ValidRune r = true) rs -> state s = stateQuotedValue -> quote s = 39 ->
  run off (concat (map EncodeRune (double_runes rs)) ++ t) s =
  run (off + length (concat (map EncodeRune (double_runes rs)))) t (set_doubled (doubled s || existsb (Z.eqb 39) rs) s).
Proof.
  induction rs as [|r rs IH]; intros off t s Hv Hs Hq; cbn [double_runes flat_map existsb].
  - cbn [map concat app length]. rewrite Nat.add_0_r, orb_false_r. now destruct s.
  - apply Forall_cons_1 in Hv as [Hr Hv]. rewrite map_app, concat_app, <- app_assoc. fold (double_runes rs). rewrite (Z.eqb_sym 39 r). destruct (Z.eqb_spec r 39) as [->|Hne].
    + cbn [map concat app]. rewrite app_nil_r. change (EncodeRune 39) with [39%N]. cbn [app]. rewrite run_byte by easy. unfold parse_turn at 1. rewrite Hs. change (Z.of_N 39) with 39. rewrite Hq, Z.eqb_refl. cbn [bind].
      rewrite run_byte by easy. unfold parse_turn at 1. cbn [state set_state quote]. change (Z.of_N 39) with 39. rewrite Hq. cbn [Z.eqb Pos.eqb orb bind]. rewrite IH by auto. cbn [doubled set_doubled set_state orb]. rewrite orb_true_r.
      f_equal; [| now destruct s; cbn in *; subst]. cbn [app length]. lia.
    + cbn [map concat orb]. rewrite app_nil_r, run_rune by auto. unfold parse_turn at 1. rewrite Hs, Hq. destruct (Z.eqb_spec r 39); [easy |]. cbn [bind]. rewrite IH by auto. f_equal. rewrite length_app. lia.
Qed.

Lemma run_bytes_stay l : forall off t s, Forall (fun b => (b < 128)%N) l -> (forall o b, In b l -> parse_turn path o (Z.of_N b) s = Ret (Next s)) ->
  run off (l ++ t) s = run (off + length l) t s.
Proof.
  induction l as [|b l IH]; intros off t s Hl Hs; cbn [app length]; [now rewrite Nat.add_0_r |]. apply Forall_cons_1 in Hl as [Hb Hl].
  rewrite run_byte, Hs by (auto; now left). cbn [bind]. rewrite IH by (auto; intros o x Hx; apply Hs; now right). f_equal. lia.
Qed.

(** ** One parameter *)

(** A parameter's name: letters, digits and underscores *)
Definition key_ok (k : list N) : Prop := k <> [] /\ forall b, In b k -> (b < 128)%N /\ isConfigParam (Z.of_N b) = true.

Definition item (k v : list N) : list N := k ++ [61; 39]%N ++ escape v ++ [39]%N.

Lemma isConfigParam_not c : isConfigParam c = true -> c <> 58 /\ c <> 44 /\ c <> 61.
Proof. unfold isConfigParam, between_z. rewrite !orb_true_iff, !andb_true_iff, !Z.leb_le, Z.eqb_eq. lia. Qed.

Lemma parse_turn_key o b s : state s = stateParam -> isConfigParam (Z.of_N b) = true -> parse_turn path o (Z.of_N b) s = Ret (Next s).
Proof.
  intros Hs Hb. destruct (isConfigParam_not _ Hb) as (H1 & H2 & H3). unfold parse_turn. rewrite Hs, Hb.
  destruct (Z.eqb_spec (Z.of_N b) 58), (Z.eqb_spec (Z.of_N b) 44), (Z.eqb_spec (Z.of_N b) 61); easy.
Qed.

Lemma sub_middle {E} (a b t : list N) : sub (E := E) (a ++ b ++ t) (length a) (length a + length b) = Ret b.
Proof.
  rewrite sub_ret by (rewrite !length_app; lia). f_equal. rewrite skipn_app, skipn_all, Nat.sub_diag. rewrite skipn_O. cbn [app].
  replace (length a + length b - length a)%nat with (length b) by lia. now rewrite firstn_app, firstn_all, Nat.sub_diag, firstn_O, app_nil_r.
Qed.

Lemma existsb_quote v : ValidString v = true -> existsb (Z.eqb 39) (runes v) = false -> ~ In 39%N v.
Proof.
  intros Hv He Hin. destruct (ValidString_runes v Hv) as [Hval Hcat]. rewrite <- Hcat in Hin. apply (runes_ascii _ 39 Hval) in Hin; [| easy].
  assert (K : existsb (Z.eqb 39) (runes v) = true) by (apply existsb_exists; exists 39; split; [exact Hin | easy]). congruence.
Qed.

(** The parameter's value is put into the map, and the next parameter or the path follows. *)
Lemma run_item pre k v (c : N) t s m : path = pre ++ item k v ++ c :: t -> key_ok k -> ValidString v = true -> (c = 58 \/ c = 44)%N ->
  state s = stateParam -> prev s = length pre -> Config (parsed s) = Some m ->
  let i := (length pre + length (item k v))%nat in
  exists s', Name (parsed s') = Name (parsed s) /\ Config (parsed s') = Some (<[k := v]> m) /\ prev s' = S i /\
    run (length pre) (item k v ++ c :: t) s = if (c =? 58)%N then Ret (Break (set_state stateDone s') i) else run (S i) t (set_state stateParam s').
Proof.
  intros Hpath [Hk0 Hk] Hv Hc Hst Hprev Hcfg i. unfold item. rewrite <- !app_assoc.
  rewrite run_bytes_stay; [| apply List.Forall_forall; intros b Hb; now apply Hk | intros o b Hb; apply parse_turn_key; [exact Hst | now apply Hk]].
  cbn [app]. rewrite run_byte by easy. unfold parse_turn at 1. rewrite Hst, Hprev. change (Z.of_N 61) with 61. cbn [Z.eqb Pos.eqb orb].
  assert (Hsub : sub (E := Empty_set) path (length pre) (length pre + length k) = Ret k) by (rewrite Hpath; unfold item; rewrite <- !app_assoc; apply sub_middle).
  rewrite Hsub. cbn [bind set_param parsed]. destruct (Nat.eqb_spec (length k) 0); [destruct k; easy |]. cbn [bind].
  rewrite run_byte by easy. unfold parse_turn at 1. cbn [state set_state set_prev set_param prev]. change (Z.of_N 39) with 39. cbn [Z.eqb Pos.eqb orb]. rewrite Nat.eqb_refl. cbn [bind].
  set (s1 := set_doubled false _). destruct (ValidString_runes v Hv) as [Hval Hcat]. rewrite escape_runes. rewrite run_quoted by (auto; reflexivity). rewrite <- escape_runes.
  set (E := escape v). set (d := existsb (Z.eqb 39) (runes v)).
  cbn [app]. rewrite run_byte by easy. unfold parse_turn at 1. cbn [state set_doubled s1 set_prev set_state set_quote quote]. change (Z.of_N 39) with 39. cbn [Z.eqb Pos.eqb bind].
  set (s2 := set_state stateAfterQuote _).
  assert (Hi : i = S (S (S (length pre + length k)) + length E)) by (unfold i, item; rewrite !length_app; cbn [length]; fold E; lia).
  assert (Hval2 : (if doubled s2 then halve_quotes (Z.to_N (quote s2)) E else E) = v).
  { cbn [doubled s2 set_state set_doubled s1 quote set_prev set_quote orb]. change (Z.to_N 39) with 39%N. unfold E. rewrite (escape_spec v Hv). destruct d eqn:Ed; [apply halve_double |].
    now apply double_none, existsb_quote. }
  assert (Hsub2 : sub (E := Empty_set) path (prev s2) (i - 1) = Ret E).
  { change (prev s2) with (S (S (length pre + length k))). rewrite Hi. replace (S (S (S (length pre + length k)) + length E) - 1)%nat with (S (S (length pre + length k)) + length E)%nat by lia.
    assert (Ep : path = (pre ++ k ++ [61; 39]%N) ++ E ++ 39%N :: c :: t) by (rewrite Hpath; unfold item; rewrite <- !app_assoc; reflexivity).
    replace (S (S (length pre + length k))) with (length (pre ++ k ++ [61; 39]%N)) by (rewrite !length_app; cbn; lia). rewrite Ep. apply sub_middle. }
  assert (Hcfg2 : Config (parsed (set_prev (S i) s2)) = Some m) by exact Hcfg.
  exists (set_parsed (set_Config (Some (<[k := v]> m)) (parsed s)) (set_prev (S i) s2)). splits; [reflexivity | reflexivity | reflexivity |].
  rewrite <- Hi. rewrite run_byte by (destruct Hc as [->| ->]; easy). unfold parse_turn at 1. change (state s2) with stateAfterQuote. cbn iota.
  destruct (Nat.eqb_spec i 0); [lia |]. rewrite Hsub2. cbn [bind]. rewrite Hval2. unfold set_param_value. rewrite Hcfg2. cbn [bind].
  destruct Hc as [->| ->]; reflexivity.
Qed.
End Runs.

(** ** All parameters *)

Section Params.
Context `{Unicode}.
Context (cfg : Simple).

Definition value (k : list N) : list N := default [] (cfg !! k).

(** The text of the parameters [k :: ks] *)
Fixpoint more_params (ks : list (list N)) : list N :=
  match ks with
  | [] => []
  | k :: ks => 44%N :: item k (value k) ++ more_params ks
  end.

Definition params_text (k : list N) (ks : list (list N)) : list N := item k (value k) ++ more_params ks.

Lemma item_not_nil k v : item k v <> [].
Proof. unfold item. now destruct k. Qed.

Definition write_param (out k : list N) : list N :=
  (if (0 <? length out)%nat then out ++ [44%N] else out) ++ k ++ [61; 39]%N ++ escape (default [] (cfg !! k)) ++ [39%N].

Lemma write_more ks : forall out, out <> [] -> fold_left write_param ks out = out ++ more_params ks.
Proof.
  induction ks as [|k ks IH]; intros out Hne; cbn [fold_left more_params]; [now rewrite app_nil_r |].
  assert (E : write_param out k = out ++ 44%N :: item k (value k)).
  { unfold write_param. destruct (Nat.ltb_spec 0 (length out)); [| destruct out; [easy | cbn in *; lia]]. rewrite <- app_assoc. reflexivity. }
  rewrite E, IH by (intros K; destruct out; discriminate). now rewrite <- app_assoc.
Qed.

Lemma write_params_text k ks : write_params cfg (k :: ks) = params_text k ks.
Proof. change (write_params cfg (k :: ks)) with (fold_left write_param ks (item k (value k))). apply write_more, item_not_nil. Qed.

(** The map after the parameters [ks] *)
Definition with_params (m : Simple) (ks : list (list N)) : Simple := fold_left (fun m k => <[k := value k]> m) ks m.

Lemma run_params ks : forall path pre k t s m, path = pre ++ params_text k ks ++ 58%N :: t -> (forall x, In x (k :: ks) -> key_ok x /\ ValidString (value x) = true) ->
  state s = stateParam -> prev s = length pre -> Config (parsed s) = Some m ->
  exists s', Name (parsed s') = Name (parsed s) /\ Config (parsed s') = Some (with_params m (k :: ks)) /\
    run path (length pre) (params_text k ks ++ 58%N :: t) s = Ret (Break s' (length pre + length (params_text k ks))).
Proof.
  induction ks as [|k2 ks IH]; intros path pre k t s m Hp Hks Hst Hprev Hcfg; destruct (Hks k ltac:(now left)) as [Hk Hv].
  - unfold params_text in *. cbn [more_params] in *. rewrite app_nil_r in *.
    destruct (run_item path pre k (value k) 58 t s m Hp Hk Hv ltac:(now left) Hst Hprev Hcfg) as (s' & Hn & Hc & _ & Hrun). exists (set_state stateDone s'). rewrite Hrun. splits; auto.
  - unfold params_text in *. cbn [more_params] in *. rewrite <- app_assoc in *. cbn [app] in *.
    destruct (run_item path pre k (value k) 44 _ s m Hp Hk Hv ltac:(now right) Hst Hprev Hcfg) as (s1 & Hn1 & Hc1 & Hp1 & Hrun1). rewrite Hrun1. change (44 =? 58)%N with false. cbn iota.
    assert (Hpath : path = (pre ++ item k (value k) ++ [44%N]) ++ params_text k2 ks ++ 58%N :: t) by (rewrite Hp; unfold params_text; rewrite <- !app_assoc; reflexivity).
    assert (Hlen : length (pre ++ item k (value k) ++ [44%N]) = S (length pre + length (item k (value k)))) by (rewrite !length_app; cbn; lia).
    destruct (IH path _ k2 t (set_state stateParam s1) (<[k := value k]> m) Hpath) as (s2 & Hn2 & Hc2 & Hrun2); [intros x Hx; apply Hks; now right | reflexivity | now rewrite Hlen | exact Hc1 |].
    rewrite Hlen in Hrun2. unfold params_text in Hrun2. exists s2. rewrite Hn2. splits; [exact Hn1 | exact Hc2 |]. rewrite Hrun2. do 2 f_equal. rewrite !length_app. cbn [length]. rewrite length_app. lia.
Qed.

#[local] Instance In_decision (j : list N) ks : Decision (In j ks) := in_dec (list_eq_dec N.eq_dec) j ks.

Lemma with_params_lookup ks : forall m j, (forall k, In k ks -> is_Some (cfg !! k)) -> with_params m ks !! j = if decide (In j ks) then cfg !! j else m !! j.
Proof.
  induction ks as [|k ks IH]; intros m j Hks; [reflexivity |]. unfold with_params. cbn [fold_left]. fold (with_params (<[k := value k]> m) ks). rewrite IH by (intros x Hx; apply Hks; now right).
  destruct (decide (In j ks)) as [Hj|Hj], (decide (In j (k :: ks))) as [Hj'|Hj']; [easy | exfalso; apply Hj'; now right | |].
  - destruct Hj' as [->|Hj']; [| easy]. transitivity (Some (value j)); [apply (lookup_insert_eq (M := gmap (list N))) |]. unfold value. destruct (Hks j ltac:(now left)) as (v & ->). reflexivity.
  - apply (lookup_insert_ne (M := gmap (list N))). intros ->. apply Hj'. now left.
Qed.

(** The keys in order *)
Definition sorted_keys : list (list N) := merge_sort bytes_order (map fst (map_to_list cfg)).

Lemma in_sorted_keys k : In k sorted_keys <-> is_Some (cfg !! k).
Proof.
  unfold sorted_keys. rewrite <- list_elem_of_In, (merge_sort_Permutation bytes_order), list_elem_of_In, in_map_iff. split.
  - intros ([k' v] & <- & Hin). apply list_elem_of_In, elem_of_map_to_list in Hin. eauto.
  - intros (v & Hv). exists (k, v). split; [easy |]. now apply list_elem_of_In, elem_of_map_to_list.
Qed.

Lemma with_sorted_keys : with_params ∅ sorted_keys = cfg.
Proof.
  apply map_eq. intros j. rewrite with_params_lookup by (intros k; apply in_sorted_keys). destruct (decide _) as [Hj|Hj]; [easy |]. transitivity (None (A := list N)); [apply (lookup_empty (M := gmap (list N))) |].
  destruct (cfg !! j) eqn:E; [| easy]. exfalso. apply Hj, in_sorted_keys. eauto.
Qed.
End Params.
