(* ===== verification/FsPathTheorems.v ===== *)
(** * The properties of remote paths

    Names of remotes: the language of the expression, and what MakeConfigName makes; then
    the properties of paths and connection strings. *)
From stdpp Require Import base gmap list sorting.
From Stdlib Require Import String.
From Stdlib Require Import List Arith NArith ZArith Lia Bool.
From S2P Require Import Prelude GoStrings GoPath FsPath FsPathParse.
Import ListNotations.
Local Open Scope Z_scope.

(** ** Names of remotes *)

(** The replacement character is neither a letter nor a number. *)
Class GoodUnicode `{Unicode} : Prop := RuneError_no_letter : letter_or_number RuneError = false.

Section Names.
Context `{Unicode}.

Definition allowed (c : Z) : bool := name_char c || sep_char c.

(** ** The language *)

(** What the expression says: allowed characters, of which the first is not a
    separator and the last not a space, except a single dash after a word *)
Definition name_rule (s : list Z) : Prop :=
  forallb allowed s = true /\ (exists c t, s = c :: t /\ name_char c = true) /\ last s 0 <> 32 /\
  ~ exists a, s = a ++ [45] /\ forallb name_char a = true.

Lemma name_char_sep c : name_char c = true -> sep_char c = false.
Proof.
  unfold name_char, sep_char, between_z. rewrite !orb_true_iff, !andb_true_iff, !Z.leb_le, !Z.eqb_eq, orb_false_iff, !Z.eqb_neq. lia.
Qed.

Lemma allowed_cases c : allowed c = true -> name_char c = true \/ c = 32 \/ c = 45.
Proof. unfold allowed, sep_char. rewrite !orb_true_iff, !Z.eqb_eq. tauto. Qed.

Lemma sep_char_cases c : sep_char c = true <-> c = 32 \/ c = 45.
Proof. unfold sep_char. now rewrite orb_true_iff, !Z.eqb_eq. Qed.

Lemma name_char_dash_allowed c : name_char_dash c = true -> allowed c = true.
Proof. unfold name_char_dash, allowed, sep_char. rewrite !orb_true_iff. tauto. Qed.

Let group : regexp := Cat (Plus (Class sep_char)) (Plus (Class name_char_dash)).

(** The repetition: nothing, or a separator, anything, and a character that is not a
    space *)
Lemma star_group_inv n : forall r, (length r <= n)%nat -> in_regexp (Star group) r ->
  r = [] \/ exists c m d, r = c :: m ++ [d] /\ sep_char c = true /\ forallb allowed r = true /\ name_char_dash d = true.
Proof.
  induction n as [|n IH]; intros r Hn Hr; [destruct r; [now left | cbn in Hn; lia] |]. destruct r as [|c r]; [now left |]. right.
  apply in_star_cons in Hr as (g & r2 & -> & Hg & Hr2). apply in_cat_iff in Hg as (x & y & Exy & [Hx0 Hx]%in_plus_class & [Hy0 Hy]%in_plus_class).
  destruct x as [|c' x]; [easy |]. injection Exy as <- ->. cbn [forallb] in Hx. apply andb_true_iff in Hx as [Hc Hx].
  destruct (exists_last Hy0) as (y' & d & ->). rewrite forallb_app in Hy. cbn [forallb] in Hy. rewrite andb_true_r in Hy. apply andb_true_iff in Hy as [Hy Hd].
  assert (Hall : forallb allowed (c :: x ++ y' ++ [d]) = true).
  { cbn [forallb]. rewrite !forallb_app. cbn [forallb]. rewrite andb_true_r, (name_char_dash_allowed _ Hd). unfold allowed at 1. rewrite Hc, orb_true_r. cbn [andb]. rewrite andb_true_r.
    apply andb_true_iff. split; apply forallb_forall; intros z Hz; [unfold allowed; rewrite forallb_forall in Hx; rewrite (Hx z Hz); apply orb_true_r | rewrite forallb_forall in Hy; apply name_char_dash_allowed; auto]. }
  destruct (IH r2) as [->|(c2 & m2 & d2 & -> & Hc2 & Hall2 & Hd2)]; [cbn [length] in Hn; rewrite !length_app in Hn; cbn in Hn; lia | exact Hr2 | |].
  - exists c, (x ++ y'), d. rewrite app_nil_r. rewrite <- app_assoc. splits; auto.
  - exists c, ((x ++ y' ++ [d]) ++ c2 :: m2), d2. splits; auto; [now rewrite <- !app_assoc |].
    change (c :: (x ++ y' ++ [d]) ++ c2 :: m2 ++ [d2]) with ((c :: x ++ y' ++ [d]) ++ (c2 :: m2 ++ [d2])). rewrite forallb_app, Hall. exact Hall2.
Qed.

(** A separator before some characters and repetitions *)
Lemma star_group_prepend c y z : sep_char c = true -> forallb name_char_dash y = true -> in_regexp (Star group) z -> y ++ z <> [] -> in_regexp (Star group) (c :: y ++ z).
Proof.
  intros Hc Hy Hz Hne. destruct y as [|y0 y].
  - cbn [app] in *. destruct z as [|z0 z]; [easy |]. apply in_star_cons in Hz as (g & z2 & -> & Hg & Hz2).
    apply (in_star_app group (c :: z0 :: g)); [| exact Hz2]. apply in_cat_iff in Hg as (x & w & Exw & [Hx0 Hx]%in_plus_class & Hw).
    change (c :: z0 :: g) with ([c] ++ (z0 :: g)). rewrite Exw, app_assoc. constructor; [| exact Hw]. apply in_plus_class. split; [easy |]. cbn. now rewrite Hc, Hx.
  - apply (in_star_app group (c :: y0 :: y)); [| exact Hz]. change (c :: y0 :: y) with ([c] ++ (y0 :: y)). constructor; apply in_plus_class; (split; [easy |]); [cbn; now rewrite Hc | exact Hy].
Qed.

Lemma app_last_not_nil {A} (t : list A) d : t ++ [d] <> [].
Proof. now destruct t. Qed.

(** Some allowed characters, the last not a space, are a word and repetitions. *)
Lemma star_group_split t d : forallb allowed t = true -> name_char_dash d = true -> exists y z, t ++ [d] = y ++ z /\ forallb name_char_dash y = true /\ in_regexp (Star group) z.
Proof.
  intros Ht Hd. induction t as [|e t IH].
  - exists [d], []. cbn. rewrite Hd. splits; auto. constructor.
  - cbn [forallb] in Ht. apply andb_true_iff in Ht as [He Ht]. destruct (IH Ht) as (y & z & E & Hy & Hz). destruct (name_char_dash e) eqn:Ee.
    + exists (e :: y), z. cbn [app forallb]. rewrite E, Ee. splits; auto.
    + exists [], (e :: t ++ [d]). splits; auto. assert (Hs : sep_char e = true).
      { unfold name_char_dash in Ee. apply orb_false_iff in Ee as [Ee1 Ee2]. unfold allowed in He. now rewrite Ee1 in He. }
      assert (Hne := app_last_not_nil t d). rewrite E in *. now apply star_group_prepend.
Qed.

(** A maximal word at the start *)
Lemma split_word s : exists a r, s = a ++ r /\ forallb name_char a = true /\ (r = [] \/ exists c t, r = c :: t /\ name_char c = false).
Proof.
  induction s as [|c s IH]; [exists [], []; auto |]. destruct (name_char c) eqn:Ec.
  - destruct IH as (a & r & -> & Ha & Hr). exists (c :: a), r. cbn. rewrite Ec. auto.
  - exists [], (c :: s). splits; auto. right. now exists c, s.
Qed.

Lemma configNameRe_spec s : in_regexp configNameRe s <-> name_rule s.
Proof.
  unfold configNameRe. fold group. rewrite in_cat_iff. split.
  - intros (a & r & -> & [Ha0 Ha]%in_plus_class & Hr). destruct a as [|a0 a]; [easy |]. assert (Ha1 := Ha). cbn [forallb] in Ha1. apply andb_true_iff in Ha1 as [Hc0 _].
    assert (Hal : forallb allowed (a0 :: a) = true) by (apply forallb_forall; intros z Hz; rewrite forallb_forall in Ha; unfold allowed; now rewrite (Ha z Hz)).
    destruct (star_group_inv (length r) r (le_n _) Hr) as [->|(c & m & d & -> & Hc & Hall & Hd)]; unfold name_rule.
    + rewrite app_nil_r. splits; [exact Hal | now exists a0, a | |].
      * assert (Hin : In (last (a0 :: a) 0) (a0 :: a)) by (destruct (exists_last (l := a0 :: a)) as (x & y & E); [easy |]; rewrite E, last_last; apply in_or_app; right; now left).
        rewrite forallb_forall in Ha. intros K. specialize (Ha _ Hin). rewrite K in Ha. discriminate.
      * intros (x & E & _). rewrite E, forallb_app in Ha. now rewrite andb_false_r in Ha.
    + splits; [now rewrite forallb_app, Hal, Hall | now exists a0, (a ++ c :: m ++ [d]) | |].
      * rewrite app_comm_cons, app_assoc, last_last. intros ->. discriminate.
      * intros (x & E & Hx). rewrite app_comm_cons, app_assoc in E. apply app_inj_tail in E as [<- _]. rewrite forallb_app in Hx. cbn [forallb] in Hx. apply andb_true_iff in Hx as [_ Hx].
        apply andb_true_iff in Hx as [Hx _]. apply name_char_sep in Hx. congruence.
  - intros (Hall & (c & t & Ec & Hc) & Hlast & Hno). destruct (split_word s) as (a & r & E & Ha & Hr). exists a, r. split; [exact E |].
    assert (Ha0 : a <> []) by (intros ->; cbn in E; destruct Hr as [->|(c' & t' & -> & Hc')]; congruence). split; [now apply in_plus_class |].
    destruct Hr as [->|(c' & r' & -> & Hc')]; [constructor |]. rewrite E, forallb_app in Hall. cbn [forallb] in Hall. apply andb_true_iff in Hall as [_ Hall]. apply andb_true_iff in Hall as [Hc1 Hall].
    assert (Hs : sep_char c' = true) by (unfold allowed in Hc1; now rewrite Hc' in Hc1). destruct (exists_last (l := c' :: r')) as (r1 & d & Ed); [easy |].
    assert (Hd32 : d <> 32) by (rewrite E, Ed, app_assoc, last_last in Hlast; exact Hlast). destruct r1 as [|x r1]; injection Ed as -> Er.
    + exfalso. apply sep_char_cases in Hs as [Hs|Hs]; [easy |]. apply Hno. exists a. subst. auto.
    + subst r'. rewrite forallb_app in Hall. cbn [forallb] in Hall. rewrite andb_true_r in Hall. apply andb_true_iff in Hall as [Hr1 Hd].
      assert (Hdd : name_char_dash d = true) by (unfold name_char_dash; apply allowed_cases in Hd as [->|[->| ->]]; [reflexivity | easy | now rewrite orb_true_r]).
      destruct (star_group_split r1 d Hr1 Hdd) as (y & z & Eyz & Hy & Hz). assert (Hne := app_last_not_nil r1 d). rewrite Eyz in *. now apply star_group_prepend.
Qed.

Lemma configNameMatcher_spec name : configNameMatcher name = true <-> name_rule (runes name).
Proof. unfold configNameMatcher. now rewrite matches_spec, configNameRe_spec. Qed.

Lemma CheckConfigName_iff name : CheckConfigName name = None <-> name_rule (runes name).
Proof. rewrite <- configNameMatcher_spec. unfold CheckConfigName. destruct (configNameMatcher name); cbn; intuition discriminate. Qed.

(** ** MakeConfigName *)

Context {GU : GoodUnicode}.

Lemma allowed_no_error c : allowed c = true -> c <> RuneError.
Proof.
  intros Hc ->. unfold allowed, name_char in Hc. rewrite RuneError_no_letter in Hc. discriminate.
Qed.

(** A rune that is not an error comes with its bytes. *)
Definition parts_ok (l : list (Z * list N)) : Prop := Forall (fun '(r, b) => r <> RuneError -> ValidRune r = true /\ b = EncodeRune r) l.

Lemma rune_parts_ok fuel : forall s, parts_ok (rune_parts fuel s).
Proof.
  induction fuel as [|fuel IH]; intros s; [constructor |]. cbn [rune_parts]. destruct s as [|c s]; [constructor |]. destruct (DecodeRune (c :: s)) as [r w] eqn:E. constructor; [| apply IH].
  intros Hr. destruct (Encode_DecodeRune (c :: s) r w) as [Hv Es]; [easy | exact E | congruence |]. split; [exact Hv |]. rewrite Es at 1.
  assert (HD := DecodeRune_Encode r (skipn w (c :: s)) Hv). rewrite <- Es, E in HD. injection HD as ->. now rewrite firstn_app, firstn_all, Nat.sub_diag, app_nil_r.
Qed.

Lemma rune_parts_nil s : s <> [] -> rune_parts (length s) s <> [].
Proof. destruct s as [|c s]; [easy |]. intros _. cbn [length rune_parts]. now destruct (DecodeRune (c :: s)). Qed.

Lemma span_le p l : (span p l <= length l)%nat.
Proof. induction l as [|[r b] l IH]; cbn [span length]; [lia |]. destruct (p r); lia. Qed.

Lemma illegal_match_le first l : (illegal_match first l <= length l)%nat.
Proof.
  unfold illegal_match. assert (H1 := span_le sep_char l). assert (H2 := span_le (fun r => negb (name_char r || sep_char r)) l). assert (H3 := span_le (Z.eqb 32) l). destruct first.
  all: repeat match goal with |- context [if ?b then _ else _] => destruct b end; lia.
Qed.

(** Where nothing is replaced there is an allowed character, which is no separator at
    the start and no space at the end. *)
Lemma illegal_match_none first r b t : illegal_match first ((r, b) :: t) = O -> allowed r = true /\ (first = true -> name_char r = true) /\ (t = [] -> r <> 32).
Proof.
  unfold illegal_match. set (n1 := if first then span sep_char _ else O). destruct (Nat.ltb_spec 0 n1) as [|H1]; [lia |].
  set (n2 := span _ _). destruct (Nat.ltb_spec 0 n2) as [|H2]; [lia |]. intros H3.
  assert (Hal : allowed r = true).
  { unfold n2 in H2. cbn [span] in H2. fold (allowed r) in H2. destruct (allowed r); [easy |]. cbn in H2. lia. }
  splits; [exact Hal | |].
  - intros ->. unfold n1 in H1. cbn [span] in H1. destruct (allowed_cases r Hal) as [|Hs]; [easy |]. apply sep_char_cases in Hs. rewrite Hs in H1. lia.
  - intros -> ->. cbn in H3. discriminate.
Qed.

Lemma replace_illegal_spec fuel : forall first l, parts_ok l -> (length l <= fuel)%nat -> exists rs, replace_illegal fuel first l = concat (map EncodeRune rs) /\
  forallb allowed rs = true /\ Forall (fun r => ValidRune r = true) rs /\ (l <> [] -> rs <> []) /\ last rs 0 <> 32 /\ (first = true -> rs <> [] -> exists c t, rs = c :: t /\ name_char c = true).
Proof.
  assert (H95 : name_char 95 = true) by reflexivity.
  assert (Hnil : exists rs : list Z, [] = concat (map EncodeRune rs) /\ forallb allowed rs = true /\ Forall (fun r => ValidRune r = true) rs /\ rs = [] /\ last rs 0 <> 32) by (exists []; splits; auto; discriminate).
  induction fuel as [|fuel IH]; intros first l Hok Hl.
  - destruct l; [| cbn in Hl; lia]. exists []. splits; auto; easy.
  - destruct l as [|[r b] t]; [exists []; splits; auto; easy |]. cbn [replace_illegal]. destruct (illegal_match first ((r, b) :: t)) as [|m] eqn:Em.
    + destruct (illegal_match_none first r b t Em) as (Hal & Hf & H32). apply Forall_inv in Hok as Hr. apply Forall_inv_tail in Hok. destruct (Hr (allowed_no_error r Hal)) as [Hv ->].
      destruct (IH false t Hok) as (rs & -> & H1 & H2 & H3 & H4 & _); [cbn in Hl; lia |]. exists (r :: rs). cbn [map concat forallb]. rewrite Hal. splits; auto.
      * destruct rs as [|r2 rs]; [| exact H4]. cbn. apply H32. destruct t; [easy |]. exfalso. now apply H3.
      * intros Hfirst _. exists r, rs. auto.
    + assert (Hle := illegal_match_le first ((r, b) :: t)). rewrite Em in Hle. assert (Hok' : parts_ok (skipn (S m) ((r, b) :: t))).
      { unfold parts_ok in *. rewrite <- (firstn_skipn (S m) ((r, b) :: t)) in Hok. now apply Forall_app in Hok as [_ Hok]. }
      destruct (IH false _ Hok') as (rs & -> & H1 & H2 & H3 & H4 & _); [rewrite length_skipn; cbn [length] in *; lia |]. exists (95 :: rs). cbn [map concat forallb]. splits; auto.
      * destruct rs as [|r2 rs]; [easy | exact H4].
      * intros _ _. now exists 95, rs.
Qed.
End Names.

(** ** The properties *)

Local Open Scope go_scope.

(** Letters beyond ASCII, for the examples: those of Latin-1 *)
#[local] Instance latin : Unicode := {| upper_unicode := fun s => s; lower_unicode := fun s => s; letter_or_number := fun c => (192 <=? c) && (c <=? 255) |}.

#[local] Instance latin_good : GoodUnicode.
Proof. reflexivity. Qed.

(** ** Names *)

(** A name is accepted if it has only the characters allowed, starts with none of
    the separators and does not end with a space, except a word and a single dash. *)
Theorem CheckConfigName_rule `{Unicode} name : CheckConfigName name = None <-> name_rule (runes name).
Proof. apply CheckConfigName_iff. Qed.

Lemma word_dash_dec `{Unicode} rs : (exists a, rs = a ++ [45] /\ forallb name_char a = true) \/ ~ (exists a, rs = a ++ [45] /\ forallb name_char a = true).
Proof.
  destruct rs as [|r rs]; [right; intros (a & E & _); now destruct a |]. destruct (exists_last (l := r :: rs)) as (a & d & E); [easy |].
  destruct (Z.eq_dec d 45) as [->|Hd]; [| right; intros (b & Eb & _); rewrite E in Eb; apply app_inj_tail in Eb as [_ Eb]; easy].
  destruct (forallb name_char a) eqn:Ea; [left; eauto | right]. intros (b & Eb & Hb). rewrite E in Eb. apply app_inj_tail in Eb as [-> _]. congruence.
Qed.

(** A legal name is kept, and what is made of another is legal, unless it is a word
    and a single dash. *)
Theorem MakeConfigName_legal `{GoodUnicode} name : (CheckConfigName name = None -> MakeConfigName name = name) /\
  (CheckConfigName (MakeConfigName name) <> None <-> exists a, runes (MakeConfigName name) = a ++ [45] /\ forallb name_char a = true).
Proof.
  assert (Hmatch : CheckConfigName name = None <-> configNameMatcher name = true) by (unfold CheckConfigName; destruct (configNameMatcher name); cbn; intuition discriminate).
  assert (Hrs : exists rs, runes (MakeConfigName name) = rs /\ (CheckConfigName (MakeConfigName name) = None \/ forallb allowed rs = true /\ (exists c t, rs = c :: t /\ name_char c = true) /\ last rs 0 <> 32)).
  { eexists. split; [reflexivity |]. unfold MakeConfigName. destruct (eqb_bytes_spec name []) as [_|Hne]; [left; reflexivity |]. destruct (configNameMatcher name) eqn:Em; [left; now apply Hmatch |]. right. cbv zeta.
    destruct (replace_illegal_spec (length (rune_parts (length name) name)) true (rune_parts (length name) name)) as (rs & -> & H1 & H2 & H3 & H4 & H5); [apply rune_parts_ok | lia |].
    rewrite runes_concat by auto. specialize (H3 (rune_parts_nil name Hne)). auto. }
  split; [intros Hc; unfold MakeConfigName; destruct (eqb_bytes_spec name []) as [->|]; [discriminate | now rewrite (proj1 Hmatch Hc)] |].
  destruct Hrs as (rs & Ers & Hrs). rewrite CheckConfigName_iff, Ers in *. destruct Hrs as [Hrule|(H1 & H2 & H3)].
  - split; [easy | intros Ha]. destruct Hrule as (_ & _ & _ & Hno). easy.
  - destruct (word_dash_dec rs) as [Ha|Ha]; split; auto; [intros _ (_ & _ & _ & Hno); easy |]. intros Hn. exfalso. apply Hn. unfold name_rule. splits; auto.
Qed.

(** What is made of " my--remote?-" is a word with a dash in it. *)
Lemma MakeConfigName_legal_witness : latin_good = latin_good /\ CheckConfigName (H := latin) (MakeConfigName (H := latin) (bytes_of " my--remote?")) = None.
Proof.
  split; [reflexivity |]. destruct (MakeConfigName_legal (H := latin) (bytes_of " my--remote?")) as [_ Hlegal].
  destruct (CheckConfigName _) eqn:Ec; [exfalso | reflexivity]. assert (Hd := proj1 Hlegal ltac:(congruence)). destruct Hd as (a & Ha & _).
  assert (Hlast : last (runes (MakeConfigName (H := latin) (bytes_of " my--remote?"))) 0 = 45) by (rewrite Ha; apply last_last). vm_compute in Hlast. discriminate.
Defined.

(** ** Taking a path apart *)

(** C39: [Split] never panics, and puts every byte of a path into the parent or the leaf,
    which has no slash. *)
Theorem Split_remote_joins `{Unicode} remote : exists parent leaf err, Split_remote remote = Ret ((parent, leaf), err) /\
  (err = None -> parent ++ leaf = remote /\ ~ In 47%N leaf).
Proof.
  unfold Split_remote, SplitFs. destruct (Parse_cases remote) as (p & err & -> & Hp). cbn [bind]. destruct err as [e|]; [exists [], [], (Some e); split; [reflexivity | discriminate] |].
  specialize (Hp eq_refl). cbn [bind snd fst]. assert (Hs := path_Split_spec (Path p)). destruct (path_Split (Path p)) as [parent leaf]. destruct Hs as (E & Hleaf & _).
  eexists _, _, None. split; [reflexivity |]. intros _. split; [| exact Hleaf]. rewrite <- app_assoc, <- E. destruct Hp as [(_ & -> & -> & _)|(_ & Hne & -> & _)]; [reflexivity |].
  destruct (eqb_bytes_spec (ConfigString p) []) as [|_]; [easy |]. cbn [negb]. now rewrite <- app_assoc.
Qed.

(** ** Joining *)















(** ** Connection strings *)

Lemma no_error_valid f : forall s, (forall r, In r (runes_loop f s) -> r <> RuneError) -> valid_loop f s = true.
Proof.
  induction f as [|f IH]; intros s Hs; [reflexivity |]. destruct s as [|b s]; [reflexivity |]. cbn [runes_loop valid_loop] in *. destruct (DecodeRune (b :: s)) as [r w].
  apply andb_true_iff. split; [| apply IH; intros x Hx; apply Hs; now right]. assert (Hr : r <> RuneError) by (apply Hs; now left). destruct (Z.eqb_spec r RuneError); easy.
Qed.

Lemma runes_app rs t : Forall (fun r => ValidRune r = true) rs -> runes (concat (map EncodeRune rs) ++ t) = rs ++ runes t.
Proof. induction 1 as [|r rs Hr _ IH]; [reflexivity |]. cbn [map concat app]. now rewrite <- app_assoc, runes_Encode, IH. Qed.

Lemma Index_in c s : In c s -> Index c s <> None.
Proof.
  induction s as [|x s IH]; [easy |]. cbn [Index]. destruct (N.eqb_spec x c) as [->|Hx]; [easy |]. intros [K|K]; [easy |]. specialize (IH K). now destruct (Index c s).
Qed.

Lemma Plus_Cat_remote `{Unicode} rs : in_regexp configNameRe rs -> forall colon, colon = [] \/ colon = [58] ->
  in_regexp (Cat (Opt (Char 58)) (Cat configNameRe (Alt (Char 58) (Cat (Char 44) (Star (Class (fun _ => true))))))) (colon ++ rs ++ [58]).
Proof.
  intros Hrs colon Hc. constructor; [destruct Hc as [->| ->]; [apply in_alt_r; constructor | apply in_alt_l; now constructor] |]. constructor; [exact Hrs |]. apply in_alt_l. now constructor.
Qed.

(** The name of a remote, or of a backend with a colon before it *)
Definition remote_name (backend : bool) (name : list N) : list N := (if backend then [58%N] else []) ++ name.

Section Written.
Context `{GoodUnicode}.
Context (backend : bool) (name : list N) (legal : CheckConfigName name = None).

Lemma legal_runes : Forall (fun r => ValidRune r = true) (runes name) /\ concat (map EncodeRune (runes name)) = name /\ (forall r, In r (runes name) -> allowed r = true) /\ name <> [].
Proof.
  assert (Hr := legal). apply CheckConfigName_iff in Hr. destruct Hr as (Hall & (c & t & Ec & _) & _). rewrite forallb_forall in Hall.
  assert (Hv : ValidString name = true) by (apply no_error_valid; intros r Hr; apply allowed_no_error, Hall, Hr). destruct (ValidString_runes name Hv) as [H1 H2].
  splits; auto. intros ->. discriminate.
Qed.

Lemma remote_name_checked : checkRemoteName (remote_name backend name ++ [58%N]) = None.
Proof.
  destruct legal_runes as (Hv & Hcat & Hall & Hne). unfold checkRemoteName. assert (Hl : (0 < length name)%nat) by (destruct name; [easy | cbn; lia]).
  assert (Hm : remoteNameMatcher (remote_name backend name ++ [58%N]) = true).
  { unfold remoteNameMatcher. apply matches_spec.
    assert (E : runes (remote_name backend name ++ [58%N]) = (if backend then [58] else []) ++ runes name ++ [58]).
    { rewrite <- Hcat at 1. unfold remote_name. rewrite <- app_assoc. destruct backend; [change ([58%N] ++ concat (map EncodeRune (runes name)) ++ [58%N]) with (concat (map EncodeRune (58 :: runes name)) ++ [58%N]) | cbn [app]];
        (rewrite runes_app by (auto; now constructor)); reflexivity. }
    rewrite E. apply Plus_Cat_remote; [| destruct backend; auto]. apply matches_spec. assert (K := legal). unfold CheckConfigName, configNameMatcher in K. now destruct (matches _ _). }
  rewrite Hm. cbn [negb]. assert (Hneq : forall l : list N, (length l < 2 + (if backend then 1 else 0))%nat -> remote_name backend name ++ [58%N] <> l).
  { intros l Hlt <-. unfold remote_name in Hlt. rewrite !length_app in Hlt. destruct backend; cbn in Hlt; lia. }
  destruct (eqb_bytes_spec (remote_name backend name ++ [58%N]) [58%N]) as [E|_]; [exfalso; revert E; apply Hneq; destruct backend; cbn; lia |].
  destruct (eqb_bytes_spec (remote_name backend name ++ [58%N]) [58; 58]%N) as [E|_]; [exfalso | reflexivity]. destruct backend; [revert E; apply Hneq; cbn; lia |].
  cbn [remote_name app] in E. change [58; 58]%N with ([58%N] ++ [58%N]) in E. apply app_inj_tail in E as [E _]. rewrite E in Hall. specialize (Hall 58 ltac:(now left)). now apply allowed_cases in Hall as [K|[K|K]].
Qed.

(** The machine reads the name. *)
Lemma run_name path t s : path = remote_name backend name ++ 44%N :: t -> state s = stateConfigName ->
  run path 0 path s = run path (S (length (remote_name backend name))) t
    (set_parsed (set_Config (Some ∅) (set_Name (remote_name backend name) (parsed s)))
      (set_state stateParam (set_prev (S (length (remote_name backend name))) (set_parsed (set_Name (remote_name backend name) (parsed s)) s)))).
Proof.
  intros Hp Hs. destruct legal_runes as (Hv & Hcat & Hall & Hne). set (n := remote_name backend name) in *.
  assert (Hstay : forall o r, In r (runes name) -> parse_turn path o r s = Ret (Next s)).
  { intros o r Hr. specialize (Hall r Hr). assert (Hr2 : r <> 58 /\ r <> 44 /\ r <> 47 /\ r <> 92).
    { destruct (allowed_cases r Hall) as [K|K]; [| lia]. unfold name_char, between_z in K. rewrite !orb_true_iff, !andb_true_iff, !Z.leb_le, !Z.eqb_eq in K. lia. }
    destruct Hr2 as (H1 & H2 & H3 & H4). unfold parse_turn. rewrite Hs. destruct (Z.eqb_spec r 58), (Z.eqb_spec r 44), (Z.eqb_spec r 47), (Z.eqb_spec r 92); try easy. rewrite andb_false_r. reflexivity. }
  assert (Hrun : run path 0 path s = run path (length n) (44%N :: t) s).
  { rewrite Hp at 2. unfold n, remote_name. rewrite <- app_assoc. destruct backend; cbn [app].
    - rewrite run_byte by easy. unfold parse_turn at 1. rewrite Hs. change (Z.of_N 58) with 58. cbn [Nat.eqb Z.eqb Pos.eqb andb bind]. rewrite <- Hcat at 1. rewrite run_stay by auto. rewrite Hcat. reflexivity.
    - rewrite <- Hcat at 1. rewrite run_stay by auto. rewrite Hcat. reflexivity. }
  rewrite Hrun, run_byte by easy. unfold parse_turn at 1. rewrite Hs. change (Z.of_N 44) with 44. rewrite andb_false_r. cbn [Z.eqb Pos.eqb orb].
  assert (Hsub : sub (E := Empty_set) path 0 (length n) = Ret n) by (rewrite Hp; apply (sub_middle [] n)). rewrite Hsub. cbn [bind set_parsed parsed set_Name Name].
  assert (Hchk : checkRemoteName (n ++ [58%N]) = None) by apply remote_name_checked. rewrite Hchk. reflexivity.
Qed.
End Written.

(** C19: the parameters of a remote that are written after its name are parsed again:
    name, parameters and path come back. *)
Theorem Parse_of_String `{GoodUnicode} backend name (cfg : Simple) path : CheckConfigName name = None -> cfg <> ∅ ->
  map_Forall (fun k v => key_ok k /\ ValidString v = true) cfg ->
  let config := remote_name backend name ++ 44%N :: Simple_String cfg in
  Parse (config ++ 58%N :: path) = Ret ({| Name := remote_name backend name; ConfigString := config; Path := path; Config := Some cfg |}, None).
Proof.
  intros Hname Hne Hcfg config. set (n := remote_name backend name) in *. set (text := config ++ 58%N :: path).
  assert (Hkeys : forall k, In k (sorted_keys cfg) -> key_ok k /\ ValidString (value cfg k) = true).
  { intros k Hk. apply in_sorted_keys in Hk as (v & Hv). unfold value. rewrite Hv. exact (Hcfg k v Hv). }
  destruct (sorted_keys cfg) as [|k ks] eqn:Ek; [exfalso; apply Hne; rewrite <- (with_sorted_keys cfg), Ek; reflexivity |].
  assert (Estr : Simple_String cfg = params_text cfg k ks) by (unfold Simple_String; fold (sorted_keys cfg); rewrite Ek; apply write_params_text).
  assert (Etext : text = n ++ 44%N :: (params_text cfg k ks ++ 58%N :: path)) by (unfold text, config; rewrite Estr, <- app_assoc; reflexivity).
  assert (Hpath : text = (n ++ [44%N]) ++ params_text cfg k ks ++ 58%N :: path) by (rewrite Etext, <- app_assoc; reflexivity).
  set (p0 := {| Name := []; ConfigString := []; Path := text; Config := None |}). set (s0 := {| state := stateConfigName; prev := 0; quote := 0; param := []; doubled := false; parsed := p0 |}).
  assert (Hrun := run_name backend name Hname text _ s0 Etext eq_refl). fold n in Hrun.
  destruct (run_params cfg ks text (n ++ [44%N]) k path
    (set_parsed (set_Config (Some ∅) (set_Name n (parsed s0))) (set_state stateParam (set_prev (S (length n)) (set_parsed (set_Name n (parsed s0)) s0)))) ∅ Hpath Hkeys eq_refl) as (s' & Hn' & Hc' & Hrun');
    [rewrite length_app; cbn; lia | reflexivity |].
  rewrite length_app in Hrun'. cbn [length] in Hrun'. rewrite Nat.add_1_r in Hrun'. rewrite Hrun' in Hrun. clear Hrun'. set (i := (S (length n) + length (params_text cfg k ks))%nat) in *.
  assert (Hconfig : text = config ++ [58%N] ++ path) by reflexivity. assert (Hi : i = length config) by (unfold config; rewrite Estr, length_app; cbn [length]; unfold i; lia).
  unfold Parse. destruct (eqb_bytes_spec text []) as [E|_]; [unfold text in E; destruct config; discriminate |].
  destruct (Index 58 text) eqn:Eidx; [| exfalso; revert Eidx; apply Index_in; rewrite Hconfig; apply in_or_app; right; now left].
  fold p0 s0. unfold run in Hrun. rewrite Hrun. cbn [bind].
  assert (Hsub1 : sub (E := Empty_set) text 0 i = Ret config) by (rewrite Hi, Hconfig; apply (sub_middle [] config)). rewrite Hsub1. cbn [bind].
  assert (Hsub2 : sub (E := Empty_set) text (S i) (length text) = Ret path).
  { replace text with ((config ++ [58%N]) ++ path ++ []) at 1 by (rewrite app_nil_r, <- app_assoc; reflexivity).
    replace (S i) with (length (config ++ [58%N])) by (rewrite length_app; cbn; lia). replace (length text) with (length (config ++ [58%N]) + length path)%nat by (unfold text; rewrite !length_app; cbn; lia). apply sub_middle. }
  rewrite Hsub2. cbn [bind]. rewrite Hn', Hc'. cbn [Name]. do 3 f_equal. rewrite <- Ek, with_sorted_keys. reflexivity.
Qed.

Lemma Parse_of_String_witness : exists config, Parse (H := latin) (config ++ bytes_of ":/a") =
  Ret ({| Name := bytes_of ":backend"; ConfigString := config; Path := bytes_of "/a"; Config := Some cfg1 |}, None).
Proof.
  exists (remote_name true (bytes_of "backend") ++ 44%N :: Simple_String cfg1).
  apply (Parse_of_String (H := latin) true (bytes_of "backend") cfg1 (bytes_of "/a")).
  - reflexivity.
  - apply insert_non_empty.
  - assert (Hkey : forall k, negb (eqb_bytes k []) && forallb (fun b => (b <? 128)%N && isConfigParam (Z.of_N b)) k = true -> key_ok k).
    { intros k Hk. rewrite andb_true_iff, forallb_forall in Hk. destruct Hk as [Hk Hb]. split; [now destruct k |]. intros b Hin. specialize (Hb b Hin). now rewrite andb_true_iff, N.ltb_lt in Hb. }
    unfold cfg1. repeat (apply map_Forall_insert_2; [split; [apply Hkey; reflexivity | reflexivity] |]). apply map_Forall_empty.
Defined.
