(* ===== verification/Encoder.v ===== *)
(** * Encodings of file names (src/lib/encoder/encoder.go, standard.go)

    A remote may refuse some characters in names.  [Encode] replaces those that the
    mask of the remote names, most by their full-width forms, and puts a quote before
    a character that looks like a replacement; [Decode] undoes that.  Names inside
    rclone are in the encoding [Standard].  The chains of tests in the code, one for
    each bit of the mask, are the tables [blocks], [lefts] and [rights] here, in the
    order of the code. *)
From Stdlib Require Import String.
From Stdlib Require Import List Arith NArith ZArith Lia Bool.
From S2P Require Import Prelude GoStrings.
Import ListNotations.
Local Open Scope Z_scope.
Local Open Scope list_scope.
Local Open Scope go_scope.

Definition fullOffset : Z := 65248.
Definition symbolOffset : Z := 9216.
Definition QuoteRune : Z := 8219.

(** The symbol for a space, and the full-width full stop and tilde *)
Definition symbolSpace : Z := 9248.
Definition fullStop : Z := 65294.
Definition fullTilde : Z := 65374.

(** ** Masks *)

Definition MultiEncoder : Type := N.

Definition EncodeZero : MultiEncoder := 0%N.
Definition bit (n : N) : MultiEncoder := N.shiftl 1 n.
Definition EncodeRaw := bit 0.
Definition EncodeSlash := bit 1.
Definition EncodeLtGt := bit 2.
Definition EncodeDoubleQuote := bit 3.
Definition EncodeSingleQuote := bit 4.
Definition EncodeBackQuote := bit 5.
Definition EncodeDollar := bit 6.
Definition EncodeColon := bit 7.
Definition EncodeQuestion := bit 8.
Definition EncodeAsterisk := bit 9.
Definition EncodePipe := bit 10.
Definition EncodeHash := bit 11.
Definition EncodePercent := bit 12.
Definition EncodeBackSlash := bit 13.
Definition EncodeCrLf := bit 14.
Definition EncodeDel := bit 15.
Definition EncodeCtl := bit 16.
Definition EncodeLeftSpace := bit 17.
Definition EncodeLeftPeriod := bit 18.
Definition EncodeLeftTilde := bit 19.
Definition EncodeLeftCrLfHtVt := bit 20.
Definition EncodeRightSpace := bit 21.
Definition EncodeRightPeriod := bit 22.
Definition EncodeRightCrLfHtVt := bit 23.
Definition EncodeInvalidUtf8 := bit 24.
Definition EncodeDot := bit 25.
Definition EncodeSquareBracket := bit 26.
Definition EncodeSemicolon := bit 27.
Definition EncodeExclamation := bit 28.

Definition Has (mask flag : MultiEncoder) : bool := negb (N.land mask flag =? 0)%N.

(** *** Masks as text *)

(** The calls of [alias] in [init], in their order *)
Definition aliases : list (list N * MultiEncoder) := [
  (bytes_of "Raw", EncodeRaw); (bytes_of "None", EncodeZero); (bytes_of "Slash", EncodeSlash); (bytes_of "LtGt", EncodeLtGt);
  (bytes_of "SquareBracket", EncodeSquareBracket); (bytes_of "Semicolon", EncodeSemicolon); (bytes_of "Exclamation", EncodeExclamation);
  (bytes_of "DoubleQuote", EncodeDoubleQuote); (bytes_of "SingleQuote", EncodeSingleQuote); (bytes_of "BackQuote", EncodeBackQuote);
  (bytes_of "Dollar", EncodeDollar); (bytes_of "Colon", EncodeColon); (bytes_of "Question", EncodeQuestion); (bytes_of "Asterisk", EncodeAsterisk);
  (bytes_of "Pipe", EncodePipe); (bytes_of "Hash", EncodeHash); (bytes_of "Percent", EncodePercent); (bytes_of "BackSlash", EncodeBackSlash);
  (bytes_of "CrLf", EncodeCrLf); (bytes_of "Del", EncodeDel); (bytes_of "Ctl", EncodeCtl); (bytes_of "LeftSpace", EncodeLeftSpace);
  (bytes_of "LeftPeriod", EncodeLeftPeriod); (bytes_of "LeftTilde", EncodeLeftTilde); (bytes_of "LeftCrLfHtVt", EncodeLeftCrLfHtVt);
  (bytes_of "RightSpace", EncodeRightSpace); (bytes_of "RightPeriod", EncodeRightPeriod); (bytes_of "RightCrLfHtVt", EncodeRightCrLfHtVt);
  (bytes_of "InvalidUtf8", EncodeInvalidUtf8); (bytes_of "Dot", EncodeDot)].

(** The maps that [alias] fills: no name is used twice, and the first name of a mask
    stays. *)
Definition nameToEncoding (name : list N) : option MultiEncoder := option_map snd (find (fun a => eqb_bytes (fst a) name) aliases).
Definition encodingToName (mask : MultiEncoder) : option (list N) := option_map fst (find (fun a => snd a =? mask)%N aliases).

Definition hex_digit (n : N) : N := if (n <? 10)%N then (48 + n)%N else (55 + n)%N.

(** [fmt.Sprintf("%X", n)] *)
Fixpoint hex_loop (fuel : nat) (n : N) (acc : list N) : list N :=
  match fuel with
  | O => acc
  | S fuel => if (n <? 16)%N then hex_digit n :: acc else hex_loop fuel (n / 16)%N (hex_digit (n mod 16) :: acc)
  end.

(** The name of a bit *)
Definition bit_name (b : MultiEncoder) : list N :=
  match encodingToName b with Some name => name | None => bytes_of "0x" ++ hex_loop 16 b [] end.

(** [String]; a [uint] has 64 bits. *)
Definition MultiEncoder_String (mask : MultiEncoder) : list N :=
  match encodingToName mask with
  | Some name => name
  | None => Join 44 (map bit_name (filter (fun b => Has mask b) (map (fun i => bit (N.of_nat i)) (seq 0 64))))
  end.

(** [Set]; [None] for its error *)
Fixpoint set_parts (out : MultiEncoder) (parts : list (list N)) : option MultiEncoder :=
  match parts with
  | [] => Some out
  | part :: parts =>
      let part := TrimSpace part in
      match nameToEncoding part with
      | Some bits => set_parts (N.lor out bits) parts
      | None => match ParseUint0 part with Some i => set_parts (N.lor out i) parts | None => None end
      end
  end.

Definition Set_mask (text : list N) : option MultiEncoder := set_parts 0%N (Split 44 text).

(** ** The tables *)

(** A bit of the mask, and the characters it replaces with what replaces them *)
Record block : Type := { b_flag : MultiEncoder; b_pairs : list (Z * Z) }.

Definition full (cs : list Z) : list (Z * Z) := map (fun c => (c, c + fullOffset)) cs.
Definition symbols (cs : list Z) : list (Z * Z) := map (fun c => (c, symbolOffset + c)) cs.

(** The tests on a rune inside of a name *)
Definition blocks : list block := [
  {| b_flag := EncodeAsterisk; b_pairs := full [42] |};
  {| b_flag := EncodeLtGt; b_pairs := full [60; 62] |};
  {| b_flag := EncodeSquareBracket; b_pairs := full [91; 93] |};
  {| b_flag := EncodeSemicolon; b_pairs := full [59] |};
  {| b_flag := EncodeExclamation; b_pairs := full [33] |};
  {| b_flag := EncodeQuestion; b_pairs := full [63] |};
  {| b_flag := EncodeColon; b_pairs := full [58] |};
  {| b_flag := EncodePipe; b_pairs := full [124] |};
  {| b_flag := EncodeDoubleQuote; b_pairs := full [34] |};
  {| b_flag := EncodeSingleQuote; b_pairs := full [39] |};
  {| b_flag := EncodeBackQuote; b_pairs := full [96] |};
  {| b_flag := EncodeDollar; b_pairs := full [36] |};
  {| b_flag := EncodeSlash; b_pairs := full [47] |};
  {| b_flag := EncodeBackSlash; b_pairs := full [92] |};
  {| b_flag := EncodeCrLf; b_pairs := symbols [13; 10] |};
  {| b_flag := EncodeHash; b_pairs := full [35] |};
  {| b_flag := EncodePercent; b_pairs := full [37] |};
  {| b_flag := EncodeDel; b_pairs := [(127, 9249)] |};
  {| b_flag := EncodeCtl; b_pairs := symbols (map Z.of_nat (seq 1 31)) |}].

(** The tests at the start of a name, and at its end *)
Definition lefts : list block := [
  {| b_flag := EncodeLeftSpace; b_pairs := [(32, symbolSpace)] |};
  {| b_flag := EncodeLeftPeriod; b_pairs := [(46, fullStop)] |};
  {| b_flag := EncodeLeftTilde; b_pairs := [(126, fullTilde)] |};
  {| b_flag := EncodeLeftCrLfHtVt; b_pairs := symbols [9; 10; 11; 13] |}].

Definition rights : list block := [
  {| b_flag := EncodeRightSpace; b_pairs := [(32, symbolSpace)] |};
  {| b_flag := EncodeRightPeriod; b_pairs := [(46, fullStop)] |};
  {| b_flag := EncodeRightCrLfHtVt; b_pairs := symbols [9; 10; 11; 13] |}].

(** What replaces [r], and what [r] replaces *)
Definition replacement (pairs : list (Z * Z)) (r : Z) : option Z := option_map snd (find (fun p => fst p =? r) pairs).
Definition replaced (pairs : list (Z * Z)) (r : Z) : option Z := option_map fst (find (fun p => snd p =? r) pairs).

(** [string(QuoteRune) + string(r)] *)
Definition quoted (r : Z) : list N := EncodeRune QuoteRune ++ EncodeRune r.

(** ** [Encode] *)

Section Masked.
Variable mask : MultiEncoder.

(** The names ".", "..", and their full-width forms *)
Definition encode_dot (s : list N) : option (list N) :=
  let stop := EncodeRune fullStop in
  if eqb_bytes s [46%N] then Some stop
  else if eqb_bytes s [46; 46]%N then Some (stop ++ stop)
  else if eqb_bytes s stop then Some (quoted fullStop)
  else if eqb_bytes s (stop ++ stop) then Some (quoted fullStop ++ quoted fullStop)
  else None.

(** One of the tests at the start; [st] is the prefix and the rest of the name. *)
Definition encode_left (b : block) (st : list N * list N) : outcome Empty_set (list N * list N) :=
  let '(prefix, s) := st in
  if Has mask (b_flag b) && eqb_bytes prefix [] then
    c <- idx s 0 ;;
    match replacement (b_pairs b) (Z.of_N c) with
    | Some e => Ret (EncodeRune e, skipn 1 s)
    | None =>
        let '(r, l) := DecodeRune s in
        match replaced (b_pairs b) r with
        | Some _ => Ret (quoted r, skipn l s)
        | None => Ret (prefix, s)
        end
    end
  else Ret (prefix, s).

(** One of the tests at the end *)
Definition encode_right (b : block) (st : list N * list N) : outcome Empty_set (list N * list N) :=
  let '(suffix, s) := st in
  if Has mask (b_flag b) && eqb_bytes suffix [] then
    c <- (if (length s =? 0)%nat then Panic else idx s (length s - 1)) ;;
    match replacement (b_pairs b) (Z.of_N c) with
    | Some e => Ret (EncodeRune e, firstn (length s - 1) s)
    | None =>
        let '(r, l) := DecodeLastRune s in
        match replaced (b_pairs b) r with
        | Some _ => Ret (quoted r, firstn (length s - l) s)
        | None => Ret (suffix, s)
        end
    end
  else Ret (suffix, s).

Fixpoint tests (test : block -> list N * list N -> outcome Empty_set (list N * list N)) (bs : list block) (st : list N * list N) : outcome Empty_set (list N * list N) :=
  match bs with
  | [] => Ret st
  | b :: bs => st <- test b st ;; tests test bs st
  end.

(** Does a rune need to be looked at? *)
Definition encode_needs (r : Z) : bool :=
  (r =? 0) || (r =? symbolOffset) || (r =? QuoteRune) || (r =? RuneError) ||
  existsb (fun b => Has mask (b_flag b) && existsb (fun p => (fst p =? r) || (snd p =? r)) (b_pairs b)) blocks.

(** [strings.IndexFunc] *)
Fixpoint index_loop (fuel : nat) (p : Z -> bool) (off : nat) (s : list N) : option nat :=
  match fuel, s with
  | S fuel, _ :: _ => let '(r, w) := DecodeRune s in if p r then Some off else index_loop fuel p (off + w) (skipn w s)
  | _, _ => None
  end.

Definition IndexFunc (p : Z -> bool) (s : list N) : option nat := index_loop (length s) p 0 s.

Definition appendQuotedBytes (s : list N) : list N :=
  flat_map (fun b => EncodeRune QuoteRune ++ [hex_digit (b / 16); hex_digit (b mod 16)])%N s.

(** The chain of tests on a rune *)
Fixpoint substitute (bs : list block) (r : Z) : list N :=
  match bs with
  | [] => EncodeRune r
  | b :: bs =>
      if Has mask (b_flag b) then
        match replacement (b_pairs b) r with
        | Some e => EncodeRune e
        | None => match replaced (b_pairs b) r with Some _ => quoted r | None => substitute bs r end
        end
      else substitute bs r
  end.

(** The loop's turn at [s]: what is written for its first rune [r] of [w] bytes *)
Definition encode_turn (r : Z) (w : nat) (s : list N) : list N :=
  if r =? 0 then EncodeRune symbolOffset
  else if (r =? symbolOffset) || (r =? QuoteRune) then quoted r
  else if r =? RuneError then
    if Has mask EncodeInvalidUtf8 then
      if (length s <? 3)%nat || negb (eqb_bytes (firstn 3 s) (EncodeRune RuneError)) then appendQuotedBytes (firstn w s)
      else substitute blocks r
    else firstn w s
  else substitute blocks r.

Fixpoint encode_loop (fuel : nat) (s : list N) : list N :=
  match fuel, s with
  | S fuel, _ :: _ => let '(r, w) := DecodeRune s in encode_turn r w s ++ encode_loop fuel (skipn w s)
  | _, _ => []
  end.

Definition Encode (s : list N) : outcome Empty_set (list N) :=
  if (mask =? EncodeRaw)%N then Ret s
  else if eqb_bytes s [] then Ret []
  else
    match (if Has mask EncodeDot then encode_dot s else None) with
    | Some e => Ret e
    | None =>
        '(prefix, s) <- tests encode_left lefts ([], s) ;;
        '(suffix, s) <- (if eqb_bytes s [] then Ret ([], s) else tests encode_right rights ([], s)) ;;
        match (if eqb_bytes prefix [] && eqb_bytes suffix [] then IndexFunc encode_needs s else Some O) with
        | None => Ret s
        | Some index => Ret (prefix ++ firstn index s ++ encode_loop (length s) (skipn index s) ++ suffix)
        end
    end.

(** ** [Decode] *)

Definition decode_dot (s : list N) : option (list N) :=
  let stop := EncodeRune fullStop in
  if eqb_bytes s stop then Some [46%N]
  else if eqb_bytes s (stop ++ stop) then Some [46; 46]%N
  else if eqb_bytes s (quoted fullStop) then Some stop
  else if eqb_bytes s (quoted fullStop ++ quoted fullStop) then Some (stop ++ stop)
  else None.

(** What a rune replaces by the tests [bs] that the mask has *)
Fixpoint undo (bs : list block) (r : Z) : option Z :=
  match bs with
  | [] => None
  | b :: bs => if Has mask (b_flag b) then match replaced (b_pairs b) r with Some c => Some c | None => undo bs r end else undo bs r
  end.

Definition decode_prefix (s : list N) : list N * list N :=
  let '(r, l1) := DecodeRune s in
  match undo lefts r with
  | Some c => (EncodeRune c, skipn l1 s)
  | None =>
      if r =? QuoteRune then
        let '(r, l2) := DecodeRune (skipn l1 s) in
        match undo lefts r with Some _ => (EncodeRune r, skipn (l1 + l2) s) | None => ([], s) end
      else ([], s)
  end.

Definition decode_suffix (s : list N) : list N * list N :=
  let '(r, l) := DecodeLastRune s in
  match undo rights r with
  | Some c =>
      let s := firstn (length s - l) s in
      let '(q, l2) := DecodeLastRune s in
      if q =? QuoteRune then (EncodeRune r, firstn (length s - l2) s) else (EncodeRune c, s)
  | None => ([], s)
  end.

Definition decode_needs (r : Z) : bool :=
  (r =? symbolOffset) || (r =? QuoteRune) ||
  existsb (fun b => Has mask (b_flag b) && existsb (fun p => snd p =? r) (b_pairs b)) blocks.

(** [strconv.ParseUint(s, 16, 8)] of two bytes *)
Definition hex_value (c : N) : option N :=
  if between 48 57 c then Some (c - 48)%N
  else if between 65 70 c then Some (c - 55)%N
  else if between 97 102 c then Some (c - 87)%N
  else None.

Definition appendUnquotedByte (s : list N) : option N :=
  match s with
  | a :: b :: _ => match hex_value a, hex_value b with Some x, Some y => Some (16 * x + y)%N | _, _ => None end
  | _ => None
  end.

(** The loop over the runes; [skipNext] and [unquoteNext] are its variables. *)
Fixpoint decode_loop (fuel : nat) (skipNext unquoteNext : bool) (s : list N) : list N :=
  match fuel, s with
  | S fuel, _ :: _ =>
      let '(r, w) := DecodeRune s in
      let rest := skipn w s in
      if skipNext then decode_loop fuel false unquoteNext rest
      else
        let unquote := unquoteNext in
        if r =? symbolOffset then (if unquote then EncodeRune r else EncodeRune 0) ++ decode_loop fuel false false rest
        else if r =? QuoteRune then
          if unquote then EncodeRune r ++ decode_loop fuel false false rest else decode_loop fuel false true rest
        else
          match undo blocks r with
          | Some c => (if unquote then EncodeRune r else EncodeRune c) ++ decode_loop fuel false false rest
          | None =>
              let write := if r =? RuneError then firstn w s else EncodeRune r in
              if unquote then
                match (if Has mask EncodeInvalidUtf8 then appendUnquotedByte s else None) with
                | Some b => b :: decode_loop fuel true false rest
                | None => EncodeRune QuoteRune ++ write ++ decode_loop fuel false false rest
                end
              else write ++ decode_loop fuel false false rest
          end
  | _, _ => if unquoteNext then EncodeRune QuoteRune else []
  end.

Definition Decode (s : list N) : list N :=
  if (mask =? EncodeRaw)%N then s
  else
    match (if Has mask EncodeDot then decode_dot s else None) with
    | Some d => d
    | None =>
        let '(prefix, s) := decode_prefix s in
        let '(suffix, s) := decode_suffix s in
        match (if eqb_bytes prefix [] && eqb_bytes suffix [] then IndexFunc decode_needs s else Some O) with
        | None => s
        | Some index => prefix ++ firstn index s ++ decode_loop (length s) false false (skipn index s) ++ suffix
        end
    end.
End Masked.

(** ** Encodings of paths (standard.go) *)

Definition Standard : MultiEncoder := fold_left N.lor [EncodeSlash; EncodeCtl; EncodeDel; EncodeDot] EncodeZero.
Definition Base : MultiEncoder := fold_left N.lor [EncodeSlash; EncodeDot] EncodeZero.

(** The interface [Encoder] with its two types *)
Inductive Encoder : Type := Multi (mask : MultiEncoder) | identity.

Definition encoder_Encode (e : Encoder) (s : list N) : outcome Empty_set (list N) :=
  match e with Multi mask => Encode mask s | identity => Ret s end.
Definition encoder_Decode (e : Encoder) (s : list N) : list N :=
  match e with Multi mask => Decode mask s | identity => s end.

Definition is_Standard (e : Encoder) : bool := match e with Multi mask => (mask =? Standard)%N | identity => false end.

Definition FromStandardName (e : Encoder) (s : list N) : outcome Empty_set (list N) :=
  if is_Standard e then Ret s else encoder_Encode e (Decode Standard s).

Definition ToStandardName (e : Encoder) (s : list N) : outcome Empty_set (list N) :=
  if is_Standard e then Ret s else Encode Standard (encoder_Decode e s).

(** The loop over the parts of a path, the same in both directions *)
Definition convert_path (name : list N -> outcome Empty_set (list N)) (s : list N) : outcome Empty_set (list N) :=
  let parts := Split 47 s in
  encoded <- mapM name parts ;;
  let changed := existsb (fun '(enc, p) => negb (eqb_bytes enc p)) (combine encoded parts) in
  if negb changed then Ret s else Ret (Join 47 encoded).

Definition FromStandardPath (e : Encoder) (s : list N) : outcome Empty_set (list N) :=
  if is_Standard e then Ret s else convert_path (FromStandardName e) s.

Definition ToStandardPath (e : Encoder) (s : list N) : outcome Empty_set (list N) :=
  if is_Standard e then Ret s else convert_path (ToStandardName e) s.

(** ** Tests *)

(** A literal with the runes beyond ASCII as numbers *)
Definition text (rs : list Z) : list N := concat (map EncodeRune rs).

Definition Windows : MultiEncoder := fold_left N.lor
  [EncodeColon; EncodeQuestion; EncodeDoubleQuote; EncodeAsterisk; EncodeLtGt; EncodePipe; EncodeBackSlash; EncodeCtl; EncodeRightSpace; EncodeRightPeriod; EncodeInvalidUtf8] Base.

Example encode1 : Encode Windows (bytes_of "a:b. ") = Ret (text [97; 65306; 98; 46; symbolSpace]). Proof. vm_compute. reflexivity. Qed.
Example decode1 : Decode Windows (text [97; 65306; 98; 46; symbolSpace]) = bytes_of "a:b. ". Proof. vm_compute. reflexivity. Qed.
Example encode2 : Encode Windows [97; 255; 226; 128]%N = Ret (text [97; QuoteRune; 70; 70; QuoteRune; 69; 50; QuoteRune; 56; 48]). Proof. vm_compute. reflexivity. Qed.
Example decode2 : Decode Windows (text [97; QuoteRune; 70; 70; QuoteRune; 69; 50; QuoteRune; 56; 48]) = [97; 255; 226; 128]%N. Proof. vm_compute. reflexivity. Qed.
Example encode3 : Encode Windows (text [QuoteRune; 32]) = Ret (text [QuoteRune; QuoteRune; symbolSpace]). Proof. vm_compute. reflexivity. Qed.
Example decode3 : Decode Windows (text [QuoteRune; QuoteRune; symbolSpace]) = text [QuoteRune; symbolSpace]. Proof. vm_compute. reflexivity. Qed.
Example encode4 : Encode Windows (text [fullStop; 46]) = Ret (text [fullStop; fullStop]). Proof. vm_compute. reflexivity. Qed.
Example decode4 : Decode Windows (text [fullStop; fullStop]) = bytes_of "..". Proof. vm_compute. reflexivity. Qed.
Example encode5 : Encode (Windows + EncodeLeftPeriod)%N (text [fullStop; 46]) = Ret (text [QuoteRune; fullStop; fullStop]). Proof. vm_compute. reflexivity. Qed.
Example path1 : FromStandardPath (Multi Windows) (bytes_of "a/b./.") = Ret (bytes_of "a/b" ++ EncodeRune fullStop ++ bytes_of "/" ++ EncodeRune fullStop). Proof. vm_compute. reflexivity. Qed.
Example mask_string1 : MultiEncoder_String (N.lor Base (bit 40)) = bytes_of "Slash,Dot,0x10000000000". Proof. vm_compute. reflexivity. Qed.
Example set1 : Set_mask (bytes_of " Slash, 0x1_0 ,017,Dot") = Some (N.lor Base (16 + 15))%N. Proof. vm_compute. reflexivity. Qed.
Example set2 : Set_mask (bytes_of "Slash,0x1__0") = None. Proof. vm_compute. reflexivity. Qed.
