(* ===== verification/EncoderCorrect.v ===== *)
(** * Encoding and decoding of names, piece by piece

    The tables are consistent, a name that is encoded in the middle is decoded in the
    middle, and the clean start that the code copies changes nothing; then the prefix and
    the suffix that [Encode] takes off, and how [Decode] finds them. *)
From Stdlib Require Import List Arith NArith ZArith Lia Bool.
From S2P Require Import Prelude GoStrings Encoder.
Import ListNotations.
Local Open Scope Z_scope.
Local Open Scope list_scope.

(** ** The middle of a name *)

(** ** The tables *)

(** All pairs of a character and what replaces it *)
Definition all_pairs : list (Z * Z) := flat_map b_pairs (blocks ++ lefts ++ rights).

(** A replacement is a valid rune beyond ASCII that stands for one character only, and
    no rune with a meaning of its own. *)
Definition pair_ok (p : Z * Z) : bool :=
  let '(c, e) := p in
  (0 <? c) && (c <? 128) && (128 <=? e) && ValidRune e && negb (e =? symbolOffset) && negb (e =? QuoteRune) && negb (e =? RuneError) &&
  forallb (fun '(c', e') => eqb (c =? c') (e =? e')) all_pairs.

Lemma all_pairs_ok : forallb pair_ok all_pairs = true.
Proof. vm_compute. reflexivity. Qed.

Lemma pair_facts c e : In (c, e) all_pairs ->
  0 < c < 128 /\ 128 <= e /\ ValidRune e = true /\ e <> symbolOffset /\ e <> QuoteRune /\ e <> RuneError /\ forall c' e', In (c', e') all_pairs -> c = c' <-> e = e'.
Proof.
  intros Hin. assert (H := all_pairs_ok). rewrite forallb_forall in H. specialize (H _ Hin). cbn [pair_ok] in H.
  rewrite !andb_true_iff, !negb_true_iff, forallb_forall, !Z.ltb_lt, Z.leb_le, !Z.eqb_neq in H. destruct H as (((((((H1 & H2) & H3) & H4) & H5) & H6) & H7) & H8). splits; auto.
  intros c' e' Hin'. specialize (H8 _ Hin'). cbn in H8. apply eqb_prop in H8. rewrite <- !Z.eqb_eq, H8. easy.
Qed.

Lemma replacement_in pairs r e : replacement pairs r = Some e -> In (r, e) pairs.
Proof. unfold replacement. destruct (find _ _) as [[c x]|] eqn:E; [| easy]. intros K. injection K as <-. apply find_some in E as [E Er]. cbn in Er. apply Z.eqb_eq in Er as ->. exact E. Qed.

Lemma replaced_in pairs r c : replaced pairs r = Some c -> In (c, r) pairs.
Proof. unfold replaced. destruct (find _ _) as [[x e]|] eqn:E; [| easy]. intros K. injection K as <-. apply find_some in E as [E Er]. cbn in Er. apply Z.eqb_eq in Er as ->. exact E. Qed.

Lemma replacement_none pairs r e : replacement pairs r = None -> ~ In (r, e) pairs.
Proof. unfold replacement. destruct (find _ _) eqn:E; [easy |]. intros _ Hin. apply (find_none _ _ E) in Hin. cbn in Hin. now rewrite Z.eqb_refl in Hin. Qed.

Lemma replaced_none pairs r c : replaced pairs r = None -> ~ In (c, r) pairs.
Proof. unfold replaced. destruct (find _ _) eqn:E; [easy |]. intros _ Hin. apply (find_none _ _ E) in Hin. cbn in Hin. now rewrite Z.eqb_refl in Hin. Qed.

Section Masked.
Variable mask : MultiEncoder.

(** The pairs of the tests [bs] that the mask has *)
Definition active (bs : list block) : list (Z * Z) := flat_map (fun b => if Has mask (b_flag b) then b_pairs b else []) bs.

Lemma active_all bs p : incl bs (blocks ++ lefts ++ rights) -> In p (active bs) -> In p all_pairs.
Proof.
  intros Hbs Hp. apply in_flat_map in Hp as (b & Hb & Hp). apply in_flat_map. exists b. split; [auto |]. now destruct (Has mask (b_flag b)).
Qed.

Lemma blocks_incl : incl blocks (blocks ++ lefts ++ rights).
Proof. intros b Hb. apply in_or_app. auto. Qed.
Lemma lefts_incl : incl lefts (blocks ++ lefts ++ rights).
Proof. intros b Hb. apply in_or_app. right. apply in_or_app. auto. Qed.
Lemma rights_incl : incl rights (blocks ++ lefts ++ rights).
Proof. intros b Hb. apply in_or_app. right. apply in_or_app. auto. Qed.
Hint Resolve blocks_incl lefts_incl rights_incl : core.

Lemma undo_in bs r c : undo mask bs r = Some c -> In (c, r) (active bs).
Proof.
  induction bs as [|b bs IH]; cbn [undo active flat_map]; [easy |]. intros H. apply in_or_app. destruct (Has mask (b_flag b)); [| now right; apply IH].
  destruct (replaced (b_pairs b) r) eqn:E; [injection H as <-; left; now apply replaced_in | right; now apply IH].
Qed.

Lemma undo_none bs r : undo mask bs r = None -> forall c, ~ In (c, r) (active bs).
Proof.
  induction bs as [|b bs IH]; cbn [undo active flat_map]; [easy |]. intros H c Hin. apply in_app_or in Hin. destruct (Has mask (b_flag b)); [| now destruct Hin; [| apply (IH H c)]].
  destruct (replaced (b_pairs b) r) eqn:E; [easy |]. destruct Hin as [Hin|Hin]; [now apply (replaced_none _ _ c E) | now apply (IH H c)].
Qed.

Lemma undo_some bs r c : incl bs (blocks ++ lefts ++ rights) -> In (c, r) (active bs) -> undo mask bs r = Some c.
Proof.
  intros Hbs Hin. destruct (undo mask bs r) as [c'|] eqn:E; [| now apply undo_none with (c := c) in E]. f_equal. apply undo_in in E.
  apply (active_all bs) in Hin, E; auto. destruct (pair_facts c r Hin) as (_ & _ & _ & _ & _ & _ & K). symmetry. now apply (K c' r E).
Qed.

(** What is known of the runes that the tests [bs] know *)
Lemma undo_plain bs r : incl bs (blocks ++ lefts ++ rights) -> r < 128 -> undo mask bs r = None.
Proof.
  intros Hbs Hr. destruct (undo mask bs r) as [c|] eqn:E; [| easy]. apply undo_in, active_all in E; [| auto]. apply pair_facts in E as (_ & E & _). lia.
Qed.

Lemma undo_special bs r : incl bs (blocks ++ lefts ++ rights) -> r = symbolOffset \/ r = QuoteRune \/ r = RuneError -> undo mask bs r = None.
Proof.
  intros Hbs Hr. destruct (undo mask bs r) as [c|] eqn:E; [| easy]. apply undo_in, active_all in E; [| auto]. apply pair_facts in E as (_ & _ & _ & E1 & E2 & E3 & _). intuition.
Qed.

(** The chain of tests *)
Lemma substitute_cases bs r : incl bs blocks ->
  (exists e, In (r, e) (active bs) /\ substitute mask bs r = EncodeRune e) \/
  (exists c, In (c, r) (active bs) /\ substitute mask bs r = quoted r) \/
  (forall e, ~ In (r, e) (active bs)) /\ (forall c, ~ In (c, r) (active bs)) /\ substitute mask bs r = EncodeRune r.
Proof.
  induction bs as [|b bs IH]; intros Hbs; [right; right; cbn; auto |]. cbn [substitute active flat_map].
  assert (IH' := IH (fun x Hx => Hbs x (or_intror Hx))). destruct (Has mask (b_flag b)); [| exact IH'].
  destruct (replacement (b_pairs b) r) as [e|] eqn:E1.
  - left. exists e. split; [apply in_or_app; left; now apply replacement_in | easy].
  - destruct (replaced (b_pairs b) r) as [c|] eqn:E2.
    + right; left. exists c. split; [apply in_or_app; left; now apply replaced_in | easy].
    + destruct IH' as [(e & He & ->)|[(c & Hc & ->)|(Hn1 & Hn2 & ->)]].
      * left. exists e. split; [apply in_or_app; now right | easy].
      * right; left. exists c. split; [apply in_or_app; now right | easy].
      * right; right. splits; auto; intros x Hx; apply in_app_or in Hx as [Hx|Hx]; [now apply (replacement_none _ _ x E1) | now apply (Hn1 x) | now apply (replaced_none _ _ x E2) | now apply (Hn2 x)].
Qed.

(** The same by look-ups in one table *)
Definition sub_runes (r : Z) : list Z :=
  match replacement (active blocks) r with
  | Some e => [e]
  | None => match replaced (active blocks) r with Some _ => [QuoteRune; r] | None => [r] end
  end.

Definition bytes_of_runes (rs : list Z) : list N := concat (map EncodeRune rs).

Lemma bytes_of_runes_one r : bytes_of_runes [r] = EncodeRune r.
Proof. apply app_nil_r. Qed.

Lemma bytes_of_runes_two r r' : bytes_of_runes [r; r'] = EncodeRune r ++ EncodeRune r'.
Proof. unfold bytes_of_runes. cbn [map concat]. now rewrite app_nil_r. Qed.

Lemma sub_runes_spec r :
  (exists e, In (r, e) (active blocks) /\ sub_runes r = [e]) \/
  (exists c, In (c, r) (active blocks) /\ sub_runes r = [QuoteRune; r]) \/
  (forall e, ~ In (r, e) (active blocks)) /\ (forall c, ~ In (c, r) (active blocks)) /\ sub_runes r = [r].
Proof.
  unfold sub_runes. destruct (replacement (active blocks) r) as [e|] eqn:E1; [left; exists e; split; [now apply replacement_in | easy] |].
  destruct (replaced (active blocks) r) as [c|] eqn:E2; [right; left; exists c; split; [now apply replaced_in | easy] |]. right; right.
  splits; auto; intros x; [now apply replacement_none | now apply replaced_none].
Qed.

Lemma substitute_runes r : substitute mask blocks r = bytes_of_runes (sub_runes r).
Proof.
  assert (Hact : forall p, In p (active blocks) -> In p all_pairs) by (intros p; apply active_all; auto).
  destruct (substitute_cases blocks r (incl_refl _)) as [(e & He & ->)|[(c & Hc & ->)|(Hn1 & Hn2 & ->)]]; destruct (sub_runes_spec r) as [(e' & He' & ->)|[(c' & Hc' & ->)|(Hn1' & Hn2' & ->)]];
    rewrite ?bytes_of_runes_one, ?bytes_of_runes_two; try reflexivity.
  - f_equal. destruct (pair_facts r e (Hact _ He)) as (_ & _ & _ & _ & _ & _ & K). now apply (K r e' (Hact _ He')).
  - exfalso. apply Hact, pair_facts in He, Hc'. lia.
  - now apply Hn1' in He.
  - exfalso. apply Hact, pair_facts in Hc, He'. lia.
  - now apply Hn2' in Hc.
  - now apply Hn1 in He'.
  - now apply Hn2 in Hc'.
Qed.

(** The runes that are written for a rune *)
Definition encode_runes (r : Z) : list Z :=
  if r =? 0 then [symbolOffset]
  else if (r =? symbolOffset) || (r =? QuoteRune) then [QuoteRune; r]
  else sub_runes r.

Lemma encode_runes_valid r : ValidRune r = true -> encode_runes r <> [] /\ Forall (fun r => ValidRune r = true) (encode_runes r).
Proof.
  intros Hr. unfold encode_runes. destruct (r =? 0); [split; [easy | repeat constructor] |]. destruct (_ || _); [split; [easy | repeat constructor; auto] |].
  destruct (sub_runes_spec r) as [(e & He & ->)|[(c & Hc & ->)|(_ & _ & ->)]]; (split; [easy |]); repeat constructor; auto.
  apply active_all, pair_facts in He; auto. tauto.
Qed.

(** ** Pieces *)

(** A piece that is encoded: the runes for a rune, and the two digits of a byte that
    belongs to no rune, or the byte *)
Definition rune_piece (r : Z) : Z * list N := (r, EncodeRune r).

Definition encode_piece (p : Z * list N) : list (Z * list N) :=
  let '(r, b) := p in
  match b with
  | [x] => if (x <? 128)%N then map rune_piece (encode_runes r)
           else if Has mask EncodeInvalidUtf8 then map rune_piece [QuoteRune; Z.of_N (hex_digit (x / 16)); Z.of_N (hex_digit (x mod 16))] else [p]
  | _ => map rune_piece (encode_runes r)
  end.

Lemma encode_piece_rune r : encode_piece (rune_piece r) = map rune_piece (encode_runes r).
Proof.
  unfold encode_piece, rune_piece at 1. destruct (EncodeRune_shape r) as (x & t & -> & _ & _ & _ & Ht). destruct t; [| reflexivity].
  destruct (N.ltb_spec x 128) as [_|K]; [reflexivity |]. assert (x < 128)%N by now apply Ht. lia.
Qed.

Lemma concat_rune_pieces rs : concat (map snd (map rune_piece rs)) = bytes_of_runes rs.
Proof. unfold bytes_of_runes. now rewrite map_map. Qed.

Lemma hex_digit_facts n : (n < 16)%N -> (hex_digit n < 128)%N /\ hex_value (hex_digit n) = Some n.
Proof.
  intros Hn. unfold hex_digit, hex_value. destruct (N.ltb_spec n 10).
  - rewrite between_true by lia. split; [lia | f_equal; lia].
  - rewrite between_false, between_true by lia. split; [lia | f_equal; lia].
Qed.

Lemma EncodeRune_byte c : (c < 128)%N -> EncodeRune (Z.of_N c) = [c] /\ ValidRune (Z.of_N c) = true.
Proof.
  intros Hc. assert (Hv : ValidRune (Z.of_N c) = true) by (apply ValidRune_iff; lia). split; [| exact Hv].
  unfold EncodeRune, AppendRune. rewrite Hv, N2Z.id. cbn [app]. destruct (N.ltb_spec c 128); [easy | lia].
Qed.

Lemma bad_first x t : (128 <= x)%N -> DecodeRune (x :: t) = (RuneError, 1%nat) -> (length (x :: t) <? 3)%nat || negb (eqb_bytes (firstn 3 (x :: t)) (EncodeRune RuneError)) = true.
Proof.
  intros Hx HD. destruct (Nat.ltb_spec (length (x :: t)) 3) as [|Hl]; [reflexivity |]. cbn [orb]. apply negb_true_iff. destruct (eqb_bytes_spec (firstn 3 (x :: t)) (EncodeRune RuneError)) as [E|]; [| reflexivity].
  exfalso. rewrite <- (firstn_skipn 3 (x :: t)), E, DecodeRune_Encode in HD by reflexivity. discriminate.
Qed.

(** What a turn of the loop writes *)
Lemma encode_turn_rune r t : ValidRune r = true -> encode_turn mask r (length (EncodeRune r)) (EncodeRune r ++ t) = bytes_of_runes (encode_runes r).
Proof.
  intros Hr. unfold encode_turn, encode_runes. destruct (r =? 0); [now rewrite bytes_of_runes_one |]. destruct (_ || _) eqn:Es; [now rewrite bytes_of_runes_two |].
  destruct (Z.eqb_spec r RuneError) as [->|Hne]; [| apply substitute_runes].
  assert (Hsub : bytes_of_runes (sub_runes RuneError) = EncodeRune RuneError).
  { destruct (sub_runes_spec RuneError) as [(e & He & _)|[(c & Hc & _)|(_ & _ & ->)]]; [| | apply bytes_of_runes_one].
    - apply active_all, pair_facts in He; auto. unfold RuneError in He. lia.
    - apply active_all, pair_facts in Hc; auto. tauto. }
  destruct (Has mask EncodeInvalidUtf8); [| now rewrite firstn_app, firstn_all, Nat.sub_diag, app_nil_r].
  rewrite substitute_runes. destruct ((length _ <? 3)%nat || _) eqn:Eb; [exfalso | reflexivity]. assert (E3 : firstn 3 (EncodeRune RuneError ++ t) = EncodeRune RuneError) by reflexivity. rewrite E3, eqb_bytes_refl, orb_false_r in Eb. discriminate.
Qed.

Lemma hex_pair x : is_byte x -> (x / 16 < 16)%N /\ (x mod 16 < 16)%N /\ x = (16 * (x / 16) + x mod 16)%N.
Proof. unfold is_byte. intros Hx. splits; divlia. Qed.

Lemma encode_turn_bad x t : is_byte x -> (128 <= x)%N -> DecodeRune (x :: t) = (RuneError, 1%nat) -> encode_turn mask RuneError 1 (x :: t) = concat (map snd (encode_piece (RuneError, [x]))).
Proof.
  intros Hb Hx HD. unfold encode_turn. rewrite bad_first by auto. change (RuneError =? 0) with false. change ((RuneError =? symbolOffset) || (RuneError =? QuoteRune)) with false. change (RuneError =? RuneError) with true. cbn [firstn encode_piece].
  destruct (N.ltb_spec x 128); [lia |]. destruct (Has mask EncodeInvalidUtf8); [| reflexivity]. rewrite concat_rune_pieces. unfold appendQuotedBytes, bytes_of_runes.
  cbn [flat_map map concat]. rewrite !app_nil_r. destruct (hex_pair x Hb) as (H1 & H2 & _).
  now rewrite (proj1 (EncodeRune_byte _ (proj1 (hex_digit_facts _ H1)))), (proj1 (EncodeRune_byte _ (proj1 (hex_digit_facts _ H2)))).
Qed.

Definition encode_pieces (l : list (Z * list N)) : list N := concat (map snd (flat_map encode_piece l)).

Lemma encode_pieces_cons p l : encode_pieces (p :: l) = concat (map snd (encode_piece p)) ++ encode_pieces l.
Proof. unfold encode_pieces. cbn [flat_map]. now rewrite map_app, concat_app. Qed.

Lemma encode_pieces_app l l' : encode_pieces (l ++ l') = encode_pieces l ++ encode_pieces l'.
Proof. unfold encode_pieces. now rewrite flat_map_app, map_app, concat_app. Qed.

Lemma encode_pieces_rune r l : encode_pieces (rune_piece r :: l) = bytes_of_runes (encode_runes r) ++ encode_pieces l.
Proof. now rewrite encode_pieces_cons, encode_piece_rune, concat_rune_pieces. Qed.

Lemma encode_loop_pieces l : forall f, wf_pieces l -> Forall is_byte (concat (map snd l)) -> (length (concat (map snd l)) <= f)%nat -> encode_loop mask f (concat (map snd l)) = encode_pieces l.
Proof.
  intros f Hwf. revert f. induction Hwf as [|r l Hr Hwf IH|x l Hx HD Hwf IH]; intros f Hb Hf; [now destruct f | |]; cbn [map concat snd] in *.
  - assert (Hl := EncodeRune_length r). rewrite length_app in Hf. apply Forall_app in Hb as [_ Hb]. rewrite (encode_pieces_rune r). destruct f as [|f]; [lia |]. cbn [encode_loop].
    destruct (EncodeRune r ++ concat (map snd l)) eqn:E; [destruct (EncodeRune r); [cbn in Hl; lia | discriminate] |]. rewrite <- E, DecodeRune_Encode, encode_turn_rune by auto. f_equal.
    rewrite skipn_app, skipn_all, Nat.sub_diag. apply IH; [auto | lia].
  - cbn [app length] in *. destruct f as [|f]; [lia |]. apply Forall_cons_iff in Hb as [Hbx Hb]. cbn [encode_loop]. rewrite HD, encode_turn_bad, encode_pieces_cons by auto. f_equal. apply IH; [auto | lia].
Qed.

Lemma encode_turns_spec s f : Forall is_byte s -> (length s <= f)%nat -> encode_loop mask f s = encode_pieces (pieces s).
Proof. intros Hb Hf. destruct (pieces_wf s) as [Hwf E]. rewrite <- E at 1. apply encode_loop_pieces; rewrite ?E; auto. Qed.

(** The pieces of an encoded text *)
Lemma encode_pieces_wf l : wf_pieces l -> Forall is_byte (concat (map snd l)) -> wf_pieces (flat_map encode_piece l) /\
  (Has mask EncodeInvalidUtf8 = false -> cont (encode_pieces l) = cont (concat (map snd l))).
Proof.
  intros Hwf Hb. destruct (Has mask EncodeInvalidUtf8) eqn:Hi.
  - split; [| easy]. clear - Hwf Hb Hi. assert (Hrunes : forall rs l, Forall (fun r => ValidRune r = true) rs -> wf_pieces l -> wf_pieces (map rune_piece rs ++ l)) by (induction 1; cbn; [easy | constructor; auto]).
    induction Hwf as [|r l Hr Hwf IH|x l Hx HD Hwf IH]; cbn [flat_map map concat snd] in *; [constructor | |]; apply Forall_app in Hb as [Hb1 Hb2].
    + change (r, EncodeRune r) with (rune_piece r); rewrite (encode_piece_rune r). apply Hrunes; [now apply encode_runes_valid | auto].
    + cbn [encode_piece]. destruct (N.ltb_spec x 128); [lia |]. rewrite Hi. apply Forall_cons_iff in Hb1 as [Hb1 _]. destruct (hex_pair x Hb1) as (H1 & H2 & _). apply Hrunes; [| auto].
      repeat constructor; (apply EncodeRune_byte; now apply hex_digit_facts) || reflexivity.
  - destruct (cont_flat_map encode_piece l Hwf) as [H1 H2].
    + intros r Hr _. change (r, EncodeRune r) with (rune_piece r). rewrite encode_piece_rune. destruct (encode_runes_valid r Hr) as [Hne Hall]. split; [now destruct (encode_runes r) |].
      apply Forall_map. cbn. clear - Hall. induction Hall; constructor; auto.
    + intros x _ Hx. cbn [encode_piece]. destruct (N.ltb_spec x 128); [lia |]. now rewrite Hi.
    + auto.
Qed.

(** ** Decoding what was encoded *)

Definition decode_run (skip unquote : bool) (s : list N) : list N := decode_loop mask (length s) skip unquote s.

Lemma decode_loop_fuel f1 : forall f2 k u s, (length s <= f1)%nat -> (length s <= f2)%nat -> decode_loop mask f1 k u s = decode_loop mask f2 k u s.
Proof.
  induction f1 as [|f1 IH]; intros f2 k u s H1 H2; [destruct s; [now destruct f2 | cbn in H1; lia] |]. destruct s as [|c s]; [now destruct f2 |]. destruct f2 as [|f2]; [cbn in H2; lia |].
  cbn [decode_loop]. assert (Hw := DecodeRune_width (c :: s) ltac:(easy)). destruct (DecodeRune (c :: s)) as [r w]. cbn [snd] in Hw. assert (Hl := length_skipn w (c :: s)).
  cbn [length] in *. assert (IH' : forall k u, decode_loop mask f1 k u (skipn w (c :: s)) = decode_loop mask f2 k u (skipn w (c :: s))) by (intros; apply IH; lia).
  rewrite !IH'. reflexivity.
Qed.

Lemma decode_run_rune k u r t : ValidRune r = true -> decode_run k u (EncodeRune r ++ t) =
  if k then decode_run false u t
  else if r =? symbolOffset then (if u then EncodeRune r else EncodeRune 0) ++ decode_run false false t
  else if r =? QuoteRune then if u then EncodeRune r ++ decode_run false false t else decode_run false true t
  else match undo mask blocks r with
       | Some c => (if u then EncodeRune r else EncodeRune c) ++ decode_run false false t
       | None =>
           if u then match (if Has mask EncodeInvalidUtf8 then appendUnquotedByte (EncodeRune r ++ t) else None) with
                     | Some b => b :: decode_run true false t
                     | None => EncodeRune QuoteRune ++ EncodeRune r ++ decode_run false false t
                     end
           else EncodeRune r ++ decode_run false false t
       end.
Proof.
  intros Hr. assert (Hl := EncodeRune_length r). unfold decode_run at 1. rewrite (decode_loop_fuel _ (S (length t + length (EncodeRune r)))) by (rewrite length_app; lia). cbn [decode_loop].
  destruct (EncodeRune r ++ t) eqn:E; [destruct (EncodeRune r); [cbn in Hl; lia | discriminate] |]. rewrite <- E, DecodeRune_Encode by auto.
  rewrite skipn_app, skipn_all, firstn_app, firstn_all, Nat.sub_diag, app_nil_r. cbn [app]. change (skipn 0 t) with t.
  assert (Hf : forall k u, decode_loop mask (length t + length (EncodeRune r)) k u t = decode_run k u t) by (intros; apply decode_loop_fuel; lia). rewrite !Hf.
  destruct (Z.eqb_spec r RuneError) as [->|]; reflexivity.
Qed.

Lemma decode_run_bad x t : DecodeRune (x :: t) = (RuneError, 1%nat) -> decode_run false false (x :: t) = x :: decode_run false false t.
Proof.
  intros HD. unfold decode_run at 1. cbn [length decode_loop]. rewrite HD. change (RuneError =? symbolOffset) with false. change (RuneError =? QuoteRune) with false. change (RuneError =? RuneError) with true.
  rewrite undo_special by auto. reflexivity.
Qed.

Lemma decode_encode_runes r t : ValidRune r = true -> decode_run false false (bytes_of_runes (encode_runes r) ++ t) = EncodeRune r ++ decode_run false false t.
Proof.
  intros Hr. assert (HQ : forall r' t, ValidRune r' = true -> r' = symbolOffset \/ r' = QuoteRune \/ (exists c, In (c, r') (active blocks)) -> decode_run false false (bytes_of_runes [QuoteRune; r'] ++ t) = EncodeRune r' ++ decode_run false false t).
  { intros r' t' Hr' Hcase. rewrite bytes_of_runes_two, <- app_assoc, decode_run_rune by reflexivity. change (QuoteRune =? symbolOffset) with false. change (QuoteRune =? QuoteRune) with true. cbv iota.
    rewrite decode_run_rune by auto. destruct (Z.eqb_spec r' symbolOffset); [reflexivity |]. destruct (Z.eqb_spec r' QuoteRune); [reflexivity |].
    destruct Hcase as [|[|(c & Hc)]]; try easy. apply undo_some in Hc; auto. now rewrite Hc. }
  unfold encode_runes. destruct (Z.eqb_spec r 0) as [->|H0]; [rewrite bytes_of_runes_one, decode_run_rune by reflexivity; reflexivity |].
  destruct (Z.eqb_spec r symbolOffset); [apply HQ; auto |]. destruct (Z.eqb_spec r QuoteRune); [apply HQ; auto |]. cbn [orb].
  destruct (sub_runes_spec r) as [(e & He & ->)|[(c & Hc & ->)|(_ & Hn & ->)]]; [| apply HQ; eauto |]; rewrite bytes_of_runes_one.
  - assert (Hp := He). apply active_all, pair_facts in Hp as (_ & _ & Hv & N1 & N2 & _); auto. rewrite decode_run_rune by auto.
    destruct (Z.eqb_spec e symbolOffset); [easy |]. destruct (Z.eqb_spec e QuoteRune); [easy |]. apply undo_some in He; auto. now rewrite He.
  - rewrite decode_run_rune by auto. destruct (Z.eqb_spec r symbolOffset); [easy |]. destruct (Z.eqb_spec r QuoteRune); [easy |].
    destruct (undo mask blocks r) as [c|] eqn:E; [apply undo_in in E; now apply Hn in E | reflexivity].
Qed.

Lemma decode_encode_hex x t : is_byte x -> Has mask EncodeInvalidUtf8 = true ->
  decode_run false false (bytes_of_runes [QuoteRune; Z.of_N (hex_digit (x / 16)); Z.of_N (hex_digit (x mod 16))] ++ t) = x :: decode_run false false t.
Proof.
  intros Hx Hi. destruct (hex_pair x Hx) as (H1 & H2 & Ex). destruct (hex_digit_facts _ H1) as [D1 V1]. destruct (hex_digit_facts _ H2) as [D2 V2].
  set (a := hex_digit (x / 16)) in *. set (b := hex_digit (x mod 16)) in *. destruct (EncodeRune_byte a D1) as [Ea Va]. destruct (EncodeRune_byte b D2) as [Eb Vb].
  unfold bytes_of_runes. cbn [map concat]. rewrite app_nil_r, <- !app_assoc, decode_run_rune by reflexivity. change (QuoteRune =? symbolOffset) with false. change (QuoteRune =? QuoteRune) with true. cbv iota.
  rewrite decode_run_rune by auto. destruct (Z.eqb_spec (Z.of_N a) symbolOffset) as [K|_]; [unfold symbolOffset in K; lia |]. destruct (Z.eqb_spec (Z.of_N a) QuoteRune) as [K|_]; [unfold QuoteRune in K; lia |].
  rewrite undo_plain by (auto; lia). rewrite Hi, Ea, Eb. cbn [app appendUnquotedByte]. rewrite V1, V2, <- Ex. f_equal.
  change (b :: t) with ([b] ++ t). rewrite <- Eb, decode_run_rune by auto. reflexivity.
Qed.

Lemma decode_encode_pieces l : wf_pieces l -> Forall is_byte (concat (map snd l)) -> decode_run false false (encode_pieces l) = concat (map snd l).
Proof.
  induction 1 as [|r l Hr Hwf IH|x l Hx HD Hwf IH]; intros Hb; [reflexivity | |]; cbn [map concat snd] in *; apply Forall_app in Hb as [Hb1 Hb2].
  - change (r, EncodeRune r) with (rune_piece r). now rewrite encode_pieces_rune, decode_encode_runes, IH.
  - apply Forall_cons_iff in Hb1 as [Hb1 _]. rewrite encode_pieces_cons. cbn [encode_piece]. destruct (N.ltb_spec x 128); [lia |]. destruct (Has mask EncodeInvalidUtf8) eqn:Hi.
    + rewrite concat_rune_pieces, decode_encode_hex, IH by auto. reflexivity.
    + cbn [map concat snd app]. rewrite decode_run_bad, IH; auto. destruct (encode_pieces_wf l Hwf Hb2) as [_ Hc]. rewrite DecodeRune_cont, (Hc Hi), <- DecodeRune_cont. exact HD.
Qed.
End Masked.

(** ** The ends of a name *)

Section Masked.
Variable mask : MultiEncoder.

Hint Resolve blocks_incl lefts_incl rights_incl : core.

Notation encode_pieces := (encode_pieces mask).
Notation decode_run := (decode_run mask).
Notation active := (active mask).

(** ** The clean start of a name *)

Lemma index_loop_spec p l : forall f off, wf_pieces l -> (length (concat (map snd l)) <= f)%nat ->
  index_loop f p off (concat (map snd l)) = None /\ Forall (fun q => p (fst q) = false) l \/
  exists a b, l = a ++ b /\ Forall (fun q => p (fst q) = false) a /\ index_loop f p off (concat (map snd l)) = Some (off + length (concat (map snd a)))%nat.
Proof.
  intros f off Hwf. revert f off. assert (Hstep : forall r b l f off, DecodeRune (b ++ concat (map snd l)) = (r, length b) -> (0 < length b)%nat -> (length (b ++ concat (map snd l)) <= S f)%nat ->
    (forall f off, (length (concat (map snd l)) <= f)%nat -> index_loop f p off (concat (map snd l)) = None /\ Forall (fun q => p (fst q) = false) l \/
      exists a b, l = a ++ b /\ Forall (fun q => p (fst q) = false) a /\ index_loop f p off (concat (map snd l)) = Some (off + length (concat (map snd a)))%nat) ->
    index_loop (S f) p off (b ++ concat (map snd l)) = None /\ Forall (fun q => p (fst q) = false) ((r, b) :: l) \/
      exists a b', (r, b) :: l = a ++ b' /\ Forall (fun q => p (fst q) = false) a /\ index_loop (S f) p off (b ++ concat (map snd l)) = Some (off + length (concat (map snd a)))%nat).
  { intros r b t f off HD Hb Hf IH. cbn [index_loop]. destruct (b ++ concat (map snd t)) eqn:E; [destruct b; [cbn in Hb; lia | discriminate] |]. rewrite <- E in *. rewrite HD.
    destruct (p r) eqn:Hp; [right; exists [], ((r, b) :: t); splits; auto; f_equal; cbn; lia |].
    rewrite skipn_app, skipn_all, Nat.sub_diag. cbn [app]. change (skipn 0 ?x) with x. rewrite length_app in Hf.
    destruct (IH f (off + length b)%nat) as [[-> Hall]|(x & y & -> & Hall & ->)]; [lia | left; auto |].
    right. exists ((r, b) :: x), y. splits; auto. f_equal. cbn [map concat snd]. rewrite length_app. lia. }
  induction Hwf as [|r l Hr Hwf IH|x l Hx HD Hwf IH]; intros f off Hf; [left; split; [now destruct f | constructor] | |]; cbn [map concat snd] in *.
  - assert (Hl := EncodeRune_length r). destruct f as [|f]; [rewrite length_app in Hf; lia |]. apply Hstep; auto. now apply DecodeRune_Encode.
  - destruct f as [|f]; [cbn in Hf; lia |]. apply (Hstep RuneError [x]); auto.
Qed.

Lemma wf_app_inv a b : wf_pieces (a ++ b) -> wf_pieces b.
Proof. induction a as [|p a IH]; cbn; [easy |]. intros H. inversion H; auto. Qed.

Lemma encode_needs_spec r : encode_needs mask r = false -> encode_runes mask r = [r] /\ r <> RuneError.
Proof.
  unfold encode_needs, encode_runes. rewrite !orb_false_iff. intros ((((-> & ->) & ->) & Hr) & Hex). cbn [orb]. split; [| now apply Z.eqb_neq].
  assert (Hno : forall c e, In (c, e) (active blocks) -> c <> r /\ e <> r).
  { intros c e Hin. apply in_flat_map in Hin as (b & Hb & Hin). destruct (Has mask (b_flag b)) eqn:Hh; [| easy].
    split; intros <-; (rewrite <- not_true_iff_false in Hex; apply Hex, existsb_exists; exists b; split; [exact Hb |]; rewrite Hh; apply existsb_exists; eexists; split; [exact Hin |]; cbn; rewrite Z.eqb_refl; auto using orb_true_r). }
  destruct (sub_runes_spec mask r) as [(e & He & _)|[(c & Hc & _)|(_ & _ & ->)]]; [now apply Hno in He | now apply Hno in Hc | reflexivity].
Qed.

(** Copying the clean start changes nothing. *)
Lemma encode_index s : Forall is_byte s ->
  match IndexFunc (encode_needs mask) s with
  | None => s
  | Some i => firstn i s ++ encode_loop mask (length s) (skipn i s)
  end = encode_pieces (pieces s).
Proof.
  intros Hb. destruct (pieces_wf s) as [Hwf Es].
  assert (Hclean : forall a b, pieces s = a ++ b -> Forall (fun q => encode_needs mask (fst q) = false) a -> encode_pieces a = concat (map snd a)).
  { intros a b E Ha. assert (Hin : forall q, In q a -> In q (pieces s)) by (intros q Hq; rewrite E; apply in_or_app; auto). clear E.
    induction a as [|[r x] a IH]; [reflexivity |]. apply Forall_cons_iff in Ha as [Hr Ha]. cbn [fst] in Hr. apply encode_needs_spec in Hr as [Hr Hne].
    destruct (wf_pieces_cases _ r x Hwf) as [[Hv ->]|[K _]]; [apply Hin; now left | | easy]. change (r, EncodeRune r) with (rune_piece r). rewrite encode_pieces_rune, Hr, bytes_of_runes_one. cbn. f_equal.
    apply IH; [auto |]. intros q Hq. apply Hin. now right. }
  unfold IndexFunc. rewrite <- Es at 2. destruct (index_loop_spec (encode_needs mask) (pieces s) (length s) 0 Hwf) as [[-> Ha]|(a & b & E & Ha & ->)]; [now rewrite Es | |].
  - rewrite (Hclean (pieces s) []), Es by (auto; now rewrite app_nil_r). reflexivity.
  - cbn [plus]. assert (Es' : s = concat (map snd a) ++ concat (map snd b)) by (rewrite <- concat_app, <- map_app, <- E; auto). rewrite E, encode_pieces_app, (Hclean a b E Ha), Es' at 1.
    rewrite firstn_app, firstn_all, Nat.sub_diag, app_nil_r. f_equal. rewrite Es' at 2. rewrite skipn_app, skipn_all, Nat.sub_diag. cbn [app]. change (skipn 0 ?x) with x.
    apply encode_loop_pieces; [rewrite E in Hwf; now apply wf_app_inv in Hwf | rewrite Es' in Hb; now apply Forall_app in Hb | rewrite Es', length_app; lia].
Qed.

Lemma decode_needs_spec r : decode_needs mask r = false -> r <> symbolOffset /\ r <> QuoteRune /\ undo mask blocks r = None.
Proof.
  unfold decode_needs. rewrite !orb_false_iff, !Z.eqb_neq. intros ((H1 & H2) & Hex). splits; auto. destruct (undo mask blocks r) as [c|] eqn:E; [exfalso | easy].
  apply undo_in, in_flat_map in E as (b & Hb & Hin). destruct (Has mask (b_flag b)) eqn:Hh; [| easy].
  rewrite <- not_true_iff_false in Hex. apply Hex, existsb_exists. exists b. split; [exact Hb |]. rewrite Hh. apply existsb_exists. eexists. split; [exact Hin |]. cbn. now rewrite Z.eqb_refl.
Qed.

Lemma decode_clean a b : wf_pieces (a ++ b) -> Forall (fun q => decode_needs mask (fst q) = false) a ->
  decode_run false false (concat (map snd (a ++ b))) = concat (map snd a) ++ decode_run false false (concat (map snd b)).
Proof.
  induction a as [|[r x] a IH]; intros Hwf Ha; [reflexivity |]. apply Forall_cons_iff in Ha as [Hr Ha]. cbn [fst app map concat snd] in *. apply decode_needs_spec in Hr as (H1 & H2 & H3).
  inversion Hwf as [|r' l Hv Hwf' [E1 E2]|x' l Hx HD Hwf' [E1 E2]]; subst.
  - rewrite decode_run_rune by auto. destruct (Z.eqb_spec r symbolOffset); [easy |]. destruct (Z.eqb_spec r QuoteRune); [easy |]. now rewrite H3, IH, app_assoc.
  - cbn [app]. rewrite decode_run_bad by auto. now rewrite IH.
Qed.

Lemma decode_index s :
  match IndexFunc (decode_needs mask) s with
  | None => s
  | Some i => firstn i s ++ decode_loop mask (length s) false false (skipn i s)
  end = decode_run false false s.
Proof.
  destruct (pieces_wf s) as [Hwf Es]. unfold IndexFunc. rewrite <- Es at 2.
  destruct (index_loop_spec (decode_needs mask) (pieces s) (length s) 0 Hwf) as [[-> Ha]|(a & b & E & Ha & ->)]; [now rewrite Es | |].
  - assert (K := decode_clean (pieces s) []). rewrite !app_nil_r, Es in K. now rewrite K.
  - cbn [plus]. assert (Es' : s = concat (map snd a) ++ concat (map snd b)) by (rewrite <- concat_app, <- map_app, <- E; auto).
    rewrite <- Es at 4. rewrite E, decode_clean by (auto; now rewrite <- E). rewrite Es' at 1. rewrite firstn_app, firstn_all, Nat.sub_diag, app_nil_r. f_equal. rewrite Es' at 2. rewrite skipn_app, skipn_all, Nat.sub_diag.
    cbn [app]. change (skipn 0 ?x) with x. apply decode_loop_fuel; rewrite ?Es', ?length_app; lia.
Qed.

(** ** What is taken off *)

(** The first or last rune [r] is none that the tests [bs] know. *)
Definition unknown (bs : list block) (r : Z) : Prop := forall c e, In (c, e) (active bs) -> r <> c /\ r <> e.

(** [x] has been taken off and [y] is written for it. *)
Inductive ended (bs : list block) : list N -> list N -> Prop :=
| ended_plain c e : In (c, e) (active bs) -> ended bs (EncodeRune c) (EncodeRune e)
| ended_quoted c e : In (c, e) (active bs) -> ended bs (EncodeRune e) (quoted e).

Lemma tests_done test bs st : (forall b, test b st = Ret st) -> tests test bs st = Ret st.
Proof. intros H. induction bs as [|b bs IH]; [reflexivity |]. cbn [tests]. now rewrite H. Qed.

Lemma quoted_not_nil r : quoted r <> [].
Proof. unfold quoted. discriminate. Qed.

Lemma EncodeRune_not_nil r : EncodeRune r <> [].
Proof. destruct (EncodeRune_shape r) as (b & t & -> & _). easy. Qed.

Lemma ended_not_nil bs x y : ended bs x y -> x <> [] /\ y <> [].
Proof. intros []; split; auto using EncodeRune_not_nil, quoted_not_nil. Qed.

Lemma ended_more b bs x y : ended bs x y -> ended (b :: bs) x y.
Proof. intros []; econstructor; cbn [active flat_map]; apply in_or_app; right; eassumption. Qed.

Lemma eqb_bytes_false a b : a <> b -> eqb_bytes a b = false.
Proof. intros H. now destruct (eqb_bytes_spec a b). Qed.

Lemma EncodeRune_pair bs c e : incl bs (blocks ++ lefts ++ rights) -> In (c, e) (active bs) -> EncodeRune c = [Z.to_N c] /\ ValidRune c = true /\ ValidRune e = true.
Proof.
  intros Hbs Hin. apply (active_all mask bs) in Hin; auto. apply pair_facts in Hin as (Hc & _ & Hv & _). destruct (EncodeRune_byte (Z.to_N c)) as [E V]; [lia |]. rewrite Z2N.id in * by lia. auto.
Qed.

(** A rune below 128 is its byte. *)
Lemma first_rune x t : let r := fst (DecodeRune (x :: t)) in (x < 128)%N /\ r = Z.of_N x \/ (128 <= x)%N /\ 128 <= r.
Proof.
  cbn zeta. destruct (N.ltb_spec x 128) as [H|H]; [left | right].
  - cbn [DecodeRune]. destruct (N.ltb_spec x 128); [easy | lia].
  - split; [exact H |]. destruct (DecodeRune (x :: t)) as [r w] eqn:E. cbn [fst]. destruct (Z.lt_ge_cases r 128) as [Hr|Hr]; [exfalso | exact Hr].
    destruct (Encode_DecodeRune (x :: t) r w) as [Hv Es]; [easy | exact E | unfold RuneError; intros K; injection K as K _; lia |]. apply ValidRune_iff in Hv. destruct (EncodeRune_byte (Z.to_N r)) as [Ee _]; [lia |]. rewrite Z2N.id in Ee by lia. rewrite Ee in Es. injection Es as Es _. lia.
Qed.

Lemma last_rune a x : let r := fst (DecodeLastRune (a ++ [x])) in (x < 128)%N /\ r = Z.of_N x \/ (128 <= x)%N /\ 128 <= r.
Proof.
  cbn zeta. destruct (N.ltb_spec x 128) as [H|H]; [left | right]; (split; [exact H |]).
  - destruct (EncodeRune_byte x H) as [E V]. rewrite <- E, DecodeLastRune_Encode by auto. reflexivity.
  - destruct (DecodeLastRune (a ++ [x])) as [r w] eqn:E. cbn [fst]. destruct (DecodeLastRune_cases (a ++ [x]) r w) as [K|(Hv & _ & b & Eb)]; [now destruct a | exact E | injection K as -> _; easy |].
    destruct (Z.lt_ge_cases r 128) as [Hr|Hr]; [exfalso | exact Hr]. apply ValidRune_iff in Hv. destruct (EncodeRune_byte (Z.to_N r)) as [Ee _]; [lia |]. rewrite Z2N.id in Ee by lia. rewrite Ee in Eb. apply app_inj_tail in Eb as [_ Eb]. lia.
Qed.

Lemma tests_left bs s : incl bs (blocks ++ lefts ++ rights) -> s <> [] -> exists prefix s1, tests (encode_left mask) bs ([], s) = Ret (prefix, s1) /\
  (prefix = [] /\ s1 = s /\ unknown bs (fst (DecodeRune s)) \/ exists x, s = x ++ s1 /\ ended bs x prefix).
Proof.
  intros Hbs Hs. induction bs as [|b bs IH]; [exists [], s; split; [reflexivity | left; splits; auto; now intros c e] |].
  specialize (IH (fun y Hy => Hbs y (or_intror Hy))). cbn [tests encode_left]. rewrite eqb_bytes_refl, andb_true_r.
  assert (Hdone : forall p t, p <> [] -> tests (encode_left mask) bs (p, t) = Ret (p, t)) by (intros p t Hp; apply tests_done; intros b'; cbn [encode_left]; now rewrite eqb_bytes_false, andb_false_r).
  assert (Hmore : Has mask (b_flag b) = true -> forall p, In p (b_pairs b) -> In p (active (b :: bs))) by (intros Hh p Hp; cbn [active flat_map]; rewrite Hh; apply in_or_app; auto).
  destruct (Has mask (b_flag b)) eqn:Hh; cbn [bind].
  - specialize (Hmore eq_refl). destruct s as [|c s]; [easy |]. cbn [idx nth_error bind skipn]. destruct (replacement (b_pairs b) (Z.of_N c)) as [e|] eqn:E1; cbn [bind].
    + rewrite Hdone by apply EncodeRune_not_nil. eexists _, _. split; [reflexivity |]. right. exists (EncodeRune (Z.of_N c)). apply replacement_in, Hmore in E1.
      destruct (EncodeRune_pair _ _ _ Hbs E1) as [Ec _]. rewrite Ec, N2Z.id. split; [reflexivity |]. rewrite <- (N2Z.id c), <- Ec. now constructor.
    + destruct (DecodeRune (c :: s)) as [r l] eqn:ED. destruct (replaced (b_pairs b) r) as [c'|] eqn:E2; cbn [bind].
      * rewrite Hdone by apply quoted_not_nil. eexists _, _. split; [reflexivity |]. right. exists (EncodeRune r). apply replaced_in, Hmore in E2. destruct (EncodeRune_pair _ _ _ Hbs E2) as (_ & _ & Hv).
        assert (Hp := active_all mask _ _ Hbs E2). apply pair_facts in Hp as (_ & _ & _ & _ & _ & Hne & _).
        destruct (Encode_DecodeRune (c :: s) r l) as [_ Es]; [easy | exact ED | congruence |]. split; [exact Es | eapply ended_quoted; exact E2].
      * destruct IH as (p & s1 & -> & [(-> & -> & Hu)|(x & Ex & He)]); eexists _, _; (split; [reflexivity |]); [left | right; exists x; split; [auto | apply ended_more; auto]].
        splits; auto. cbn [fst] in *. intros c' e Hin. cbn [active flat_map] in Hin. rewrite Hh in Hin. apply in_app_or in Hin as [Hin|Hin]; [| now apply Hu].
        assert (Hfr := first_rune c s). rewrite ED in Hfr. cbn [fst] in Hfr. assert (Hp := active_all mask _ _ Hbs (Hmore _ Hin)). apply pair_facts in Hp as (Hc' & _).
        split; intros ->; [| now apply replaced_none with (c := c') in E2]. destruct Hfr as [[_ Hfr]|[_ Hfr]]; [| lia]. rewrite Hfr in Hin. now apply replacement_none with (e := e) in E1.
  - destruct IH as (p & s1 & -> & [(-> & -> & Hu)|(x & Ex & He)]); eexists _, _; (split; [reflexivity |]); [left | right; exists x; split; [auto | apply ended_more; auto]].
    splits; auto. intros c' e Hin. cbn [active flat_map] in Hin. rewrite Hh in Hin. now apply Hu.
Qed.

Lemma idx_last (a : list N) x : (if (length (a ++ [x]) =? 0)%nat then Panic else idx (E := Empty_set) (a ++ [x]) (length (a ++ [x]) - 1)) = Ret x.
Proof.
  rewrite length_app. cbn [length]. rewrite Nat.add_comm. cbn [Nat.add Nat.eqb Nat.sub]. rewrite Nat.sub_0_r. unfold idx. now rewrite nth_error_app2, Nat.sub_diag by lia.
Qed.

Lemma firstn_cut (a b : list N) n : n = length b -> firstn (length (a ++ b) - n) (a ++ b) = a.
Proof. intros ->. rewrite length_app. replace (length a + length b - length b)%nat with (length a) by lia. now rewrite firstn_app, firstn_all, Nat.sub_diag, app_nil_r. Qed.

Lemma tests_right bs s : incl bs (blocks ++ lefts ++ rights) -> s <> [] -> exists suffix s1, tests (encode_right mask) bs ([], s) = Ret (suffix, s1) /\
  (suffix = [] /\ s1 = s /\ unknown bs (fst (DecodeLastRune s)) \/ exists x, s = s1 ++ x /\ ended bs x suffix).
Proof.
  intros Hbs Hs. induction bs as [|b bs IH]; [exists [], s; split; [reflexivity | left; splits; auto; now intros c e] |].
  specialize (IH (fun y Hy => Hbs y (or_intror Hy))). cbn [tests encode_right]. rewrite eqb_bytes_refl, andb_true_r.
  assert (Hdone : forall p t, p <> [] -> tests (encode_right mask) bs (p, t) = Ret (p, t)) by (intros p t Hp; apply tests_done; intros b'; cbn [encode_right]; now rewrite eqb_bytes_false, andb_false_r).
  assert (Hmore : Has mask (b_flag b) = true -> forall p, In p (b_pairs b) -> In p (active (b :: bs))) by (intros Hh p Hp; cbn [active flat_map]; rewrite Hh; apply in_or_app; auto).
  destruct (Has mask (b_flag b)) eqn:Hh; cbn [bind].
  - specialize (Hmore eq_refl). destruct (exists_last Hs) as (a & c & ->). rewrite idx_last. cbn [bind]. destruct (replacement (b_pairs b) (Z.of_N c)) as [e|] eqn:E1; cbn [bind].
    + rewrite Hdone by apply EncodeRune_not_nil. eexists _, _. split; [reflexivity |]. right. exists (EncodeRune (Z.of_N c)). apply replacement_in, Hmore in E1.
      destruct (EncodeRune_pair _ _ _ Hbs E1) as [Ec _]. rewrite Ec, N2Z.id. split; [now rewrite firstn_cut |]. rewrite <- (N2Z.id c), <- Ec. now constructor.
    + destruct (DecodeLastRune (a ++ [c])) as [r l] eqn:ED. destruct (replaced (b_pairs b) r) as [c'|] eqn:E2; cbn [bind].
      * rewrite Hdone by apply quoted_not_nil. eexists _, _. split; [reflexivity |]. right. exists (EncodeRune r). apply replaced_in, Hmore in E2.
        assert (Hp := active_all mask _ _ Hbs E2). apply pair_facts in Hp as (_ & _ & _ & _ & _ & Hne & _).
        destruct (DecodeLastRune_cases (a ++ [c]) r l) as [K|(_ & Hl & a' & Ea)]; [now destruct a | exact ED | congruence |]. split; [| eapply ended_quoted; exact E2]. rewrite Ea, firstn_cut by auto. reflexivity.
      * destruct IH as (p & s1 & -> & [(-> & -> & Hu)|(x & Ex & He)]); eexists _, _; (split; [reflexivity |]); [left | right; exists x; split; [auto | apply ended_more; auto]].
        splits; auto. cbn [fst] in *. intros c' e Hin. cbn [active flat_map] in Hin. rewrite Hh in Hin. apply in_app_or in Hin as [Hin|Hin]; [| now apply Hu].
        assert (Hfr := last_rune a c). rewrite ED in Hfr. cbn [fst] in Hfr. assert (Hp := active_all mask _ _ Hbs (Hmore _ Hin)). apply pair_facts in Hp as (Hc' & _).
        split; intros ->; [| now apply replaced_none with (c := c') in E2]. destruct Hfr as [[_ Hfr]|[_ Hfr]]; [| lia]. rewrite Hfr in Hin. now apply replacement_none with (e := e) in E1.
  - destruct IH as (p & s1 & -> & [(-> & -> & Hu)|(x & Ex & He)]); eexists _, _; (split; [reflexivity |]); [left | right; exists x; split; [auto | apply ended_more; auto]].
    splits; auto. intros c' e Hin. cbn [active flat_map] in Hin. rewrite Hh in Hin. now apply Hu.
Qed.

(** ** What is found again *)

Lemma unknown_undo bs r : unknown bs r -> undo mask bs r = None.
Proof. intros Hu. destruct (undo mask bs r) as [c|] eqn:E; [| easy]. apply undo_in in E. now apply Hu in E. Qed.

Lemma unknown_replaced bs bs' r e : incl bs (blocks ++ lefts ++ rights) -> incl bs' (blocks ++ lefts ++ rights) -> In (r, e) (active bs') -> unknown bs r -> undo mask bs e = None.
Proof.
  intros Hbs Hbs' Hin Hu. destruct (undo mask bs e) as [c|] eqn:E; [exfalso | easy]. apply undo_in in E. assert (H1 := active_all mask _ _ Hbs E). assert (H2 := active_all mask _ _ Hbs' Hin).
  destruct (pair_facts _ _ H1) as (_ & _ & _ & _ & _ & _ & K). apply Hu in E as [E _]. apply E. symmetry. now apply (K r e H2).
Qed.

Lemma ended_starts bs x y t : ended bs x y -> starts (x ++ t) /\ starts (y ++ t).
Proof. intros [c e _|c e _]; split; unfold quoted; rewrite <- ?app_assoc; apply starts_Encode. Qed.

Lemma decode_prefix_rune r t : ValidRune r = true -> r <> QuoteRune -> undo mask lefts r = None -> decode_prefix mask (EncodeRune r ++ t) = ([], EncodeRune r ++ t).
Proof. intros Hr Hq Hu. unfold decode_prefix. rewrite DecodeRune_Encode, Hu by auto. destruct (Z.eqb_spec r QuoteRune); easy. Qed.

Lemma skipn_quoted r t : skipn (length (EncodeRune QuoteRune)) (quoted r ++ t) = EncodeRune r ++ t /\
  skipn (length (EncodeRune QuoteRune) + length (EncodeRune r)) (quoted r ++ t) = t.
Proof.
  unfold quoted. split; rewrite <- app_assoc; [now rewrite skipn_app, skipn_all, Nat.sub_diag |]. rewrite app_assoc, <- length_app, skipn_app, skipn_all, Nat.sub_diag. reflexivity.
Qed.

Lemma DecodeRune_quoted r t : DecodeRune (quoted r ++ t) = (QuoteRune, length (EncodeRune QuoteRune)).
Proof. unfold quoted. rewrite <- app_assoc. now apply DecodeRune_Encode. Qed.

Lemma undo_quote bs : incl bs (blocks ++ lefts ++ rights) -> undo mask bs QuoteRune = None.
Proof. intros Hbs. apply undo_special; auto. Qed.

Lemma decode_prefix_quoted r t : ValidRune r = true -> undo mask lefts r = None -> decode_prefix mask (quoted r ++ t) = ([], quoted r ++ t).
Proof.
  intros Hr Hu. unfold decode_prefix. rewrite DecodeRune_quoted, undo_quote, Z.eqb_refl, (proj1 (skipn_quoted r t)), DecodeRune_Encode, Hu by auto. reflexivity.
Qed.

Lemma decode_prefix_ended x y t : ended lefts x y -> decode_prefix mask (y ++ t) = (x, t).
Proof.
  intros [c e Hin|c e Hin]; destruct (EncodeRune_pair lefts c e lefts_incl Hin) as (_ & _ & Hv); unfold decode_prefix.
  - rewrite DecodeRune_Encode by auto. rewrite (undo_some mask lefts e c) by auto. now rewrite skipn_app, skipn_all, Nat.sub_diag.
  - rewrite DecodeRune_quoted, undo_quote, Z.eqb_refl, (proj1 (skipn_quoted e t)), DecodeRune_Encode, (undo_some mask lefts e c), (proj2 (skipn_quoted e t)) by auto. reflexivity.
Qed.

Lemma unknown_special bs r : incl bs (blocks ++ lefts ++ rights) -> r = symbolOffset \/ r = QuoteRune \/ r = RuneError -> unknown bs r.
Proof.
  intros Hbs Hr c e Hin. assert (Hp := active_all mask _ _ Hbs Hin). apply pair_facts in Hp as (Hc & _ & _ & N1 & N2 & N3 & _). split; [| intuition congruence].
  destruct Hr as [->|[->| ->]]; unfold symbolOffset, QuoteRune, RuneError; lia.
Qed.

Lemma no_hex_pairs : forallb (fun '(c, _) => match hex_value (Z.to_N c) with Some _ => false | None => true end) all_pairs = true.
Proof. vm_compute. reflexivity. Qed.

Lemma unknown_hex bs n : incl bs (blocks ++ lefts ++ rights) -> (n < 16)%N -> unknown bs (Z.of_N (hex_digit n)).
Proof.
  intros Hbs Hn c e Hin. destruct (hex_digit_facts n Hn) as [H1 H2]. assert (Hp := active_all mask _ _ Hbs Hin). assert (K := no_hex_pairs). rewrite forallb_forall in K. specialize (K _ Hp). cbn in K.
  apply pair_facts in Hp as (Hc & He & _). split; [intros <-; now rewrite N2Z.id, H2 in K | lia].
Qed.

(** The runes that are written for a rune that no test at this end knows *)
Lemma encode_runes_end bs r : incl bs (blocks ++ lefts ++ rights) -> ValidRune r = true -> unknown bs r ->
  exists z, unknown bs z /\ ValidRune z = true /\ (z = QuoteRune -> r = QuoteRune) /\ (encode_runes mask r = [z] /\ z <> QuoteRune \/ encode_runes mask r = [QuoteRune; z]).
Proof.
  intros Hbs Hr Hu. unfold encode_runes. destruct (Z.eqb_spec r 0) as [->|_]; [exists symbolOffset; splits; auto; [apply unknown_special; auto | discriminate | left; split; [easy | discriminate]] |].
  destruct (Z.eqb_spec r symbolOffset) as [->|_]; [exists symbolOffset; splits; auto; apply unknown_special; auto |].
  destruct (Z.eqb_spec r QuoteRune) as [->|Hq]; [exists QuoteRune; splits; auto; apply unknown_special; auto |]. cbn [orb].
  destruct (sub_runes_spec mask r) as [(e & He & ->)|[(c & Hc & ->)|(_ & _ & ->)]].
  - exists e. assert (Hp := active_all mask _ _ blocks_incl He). apply pair_facts in Hp as (_ & _ & Hv & _ & Hne & _). splits; auto; [| easy]. assert (Hp := active_all mask _ _ blocks_incl He). destruct (pair_facts _ _ Hp) as (_ & He' & _ & _ & _ & _ & K).
    intros c e' Hin. assert (Hp' := active_all mask _ _ Hbs Hin). assert (Hc := pair_facts _ _ Hp'). split; [lia |]. intros <-. apply Hu in Hin as [Hin _]. apply Hin. now apply (K c e Hp').
  - exists r. splits; auto.
  - exists r. splits; auto.
Qed.

(** The encoding of a name whose first rune no test knows *)
Lemma first_encoded p l t : wf_pieces (p :: l) -> Forall is_byte (concat (map snd (p :: l))) -> starts t -> unknown lefts (fst p) ->
  exists z u, unknown lefts z /\ (encode_pieces (p :: l) ++ t = quoted z ++ u /\ ValidRune z = true \/ fst (DecodeRune (encode_pieces (p :: l) ++ t)) = z /\ z <> QuoteRune).
Proof.
  intros Hwf Hb Ht Hu. inversion Hwf as [|r l' Hr Hwf' [E1 E2]|x l' Hx HD Hwf' [E1 E2]]; subst; cbn [fst] in Hu.
  - change (r, EncodeRune r) with (rune_piece r). rewrite encode_pieces_rune. destruct (encode_runes_end lefts r lefts_incl Hr Hu) as (z & Hz & Hv & _ & [[-> Hq]| ->]); exists z.
    + exists []. split; [exact Hz |]. right. rewrite bytes_of_runes_one, <- app_assoc, DecodeRune_Encode by auto. auto.
    + exists (encode_pieces l ++ t). split; [exact Hz |]. left. rewrite bytes_of_runes_two, <- app_assoc. auto.
  - cbn [map concat snd app] in Hb. apply Forall_cons_iff in Hb as [Hbx Hb]. destruct (encode_pieces_wf mask l Hwf' Hb) as [_ Hc]. rewrite encode_pieces_cons. cbn [encode_piece].
    destruct (N.ltb_spec x 128); [lia |]. destruct (Has mask EncodeInvalidUtf8).
    + rewrite concat_rune_pieces. destruct (hex_pair x Hbx) as (H1 & H2 & _). destruct (hex_digit_facts _ H1) as [D1 _]. destruct (EncodeRune_byte _ D1) as [_ V1].
      exists (Z.of_N (hex_digit (x / 16))). unfold bytes_of_runes. cbn [map concat]. rewrite (app_assoc (EncodeRune QuoteRune)). fold (quoted (Z.of_N (hex_digit (x / 16)))). rewrite <- !app_assoc.
      eexists. split; [now apply unknown_hex | left; split; [reflexivity | exact V1]].
    + exists RuneError, []. split; [apply unknown_special; auto | right]. cbn [map concat snd app]. split; [| discriminate].
      assert (HD' : DecodeRune (x :: encode_pieces l ++ t) = (RuneError, 1%nat)) by (rewrite DecodeRune_cont, cont_app, Hc, <- DecodeRune_cont by auto; exact HD). now rewrite HD'.
Qed.

Lemma decode_prefix_none s : undo mask lefts (fst (DecodeRune s)) = None -> fst (DecodeRune s) <> QuoteRune -> decode_prefix mask s = ([], s).
Proof. intros Hu Hq. unfold decode_prefix. destruct (DecodeRune s) as [r w]. cbn [fst] in *. rewrite Hu. destruct (Z.eqb_spec r QuoteRune); easy. Qed.

Lemma decode_prefix_pieces p l t : wf_pieces (p :: l) -> Forall is_byte (concat (map snd (p :: l))) -> starts t -> unknown lefts (fst p) ->
  decode_prefix mask (encode_pieces (p :: l) ++ t) = ([], encode_pieces (p :: l) ++ t).
Proof.
  intros Hwf Hb Ht Hu. destruct (first_encoded p l t Hwf Hb Ht Hu) as (z & u & Hz & [[-> Hv]|[E Hq]]); [apply decode_prefix_quoted; auto; now apply unknown_undo |].
  apply decode_prefix_none; rewrite E; [now apply unknown_undo | exact Hq].
Qed.

(** *** At the end *)

Lemma DecodeLastRune_quoted a r : ValidRune r = true -> DecodeLastRune (a ++ quoted r) = (r, length (EncodeRune r)).
Proof. intros Hr. unfold quoted. rewrite app_assoc. now apply DecodeLastRune_Encode. Qed.

Lemma decode_suffix_plain c e a : In (c, e) (active rights) -> fst (DecodeLastRune a) <> QuoteRune -> decode_suffix mask (a ++ EncodeRune e) = (EncodeRune c, a).
Proof.
  intros Hin Hq. destruct (EncodeRune_pair rights c e rights_incl Hin) as (_ & _ & Hv). unfold decode_suffix. rewrite DecodeLastRune_Encode, (undo_some mask rights e c), firstn_cut by auto.
  destruct (DecodeLastRune a) as [q l2]. cbn [fst] in Hq. destruct (Z.eqb_spec q QuoteRune); easy.
Qed.

(** After a quote the replacement stands for itself. *)
Lemma decode_suffix_after_quote c e a : In (c, e) (active rights) -> decode_suffix mask ((a ++ EncodeRune QuoteRune) ++ EncodeRune e) = (EncodeRune e, a).
Proof.
  intros Hin. destruct (EncodeRune_pair rights c e rights_incl Hin) as (_ & _ & Hv). unfold decode_suffix. rewrite DecodeLastRune_Encode, (undo_some mask rights e c), firstn_cut by auto.
  rewrite DecodeLastRune_Encode by easy. rewrite Z.eqb_refl, firstn_cut by easy. reflexivity.
Qed.

Lemma decode_suffix_none s : undo mask rights (fst (DecodeLastRune s)) = None -> decode_suffix mask s = ([], s).
Proof. intros Hu. unfold decode_suffix. destruct (DecodeLastRune s) as [r l]. cbn [fst] in Hu. now rewrite Hu. Qed.

(** The last rune of a text whose pieces are known, and of its encoding *)
Lemma last_piece s r b : forall l, pieces s = l ++ [(r, b)] -> DecodeLastRune s = (r, length b).
Proof.
  intros l E. destruct (pieces_wf s) as [Hwf Es]. rewrite E in *. destruct (wf_pieces_cases _ r b Hwf) as [[Hr ->]|(-> & x & -> & Hx)]; [apply in_or_app; right; now left | |].
  - rewrite <- Es, map_app, concat_app. cbn [map concat snd]. rewrite app_nil_r. now apply DecodeLastRune_Encode.
  - rewrite <- Es. now apply DecodeLastRune_bad.
Qed.

Lemma last_encoded s bs : incl bs (blocks ++ lefts ++ rights) -> Forall is_byte s -> s <> [] -> unknown bs (fst (DecodeLastRune s)) ->
  let z := fst (DecodeLastRune (encode_pieces (pieces s))) in unknown bs z /\ (z = QuoteRune -> fst (DecodeLastRune s) = QuoteRune).
Proof.
  intros Hbs Hb Hs Hu. destruct (pieces_wf s) as [Hwf Es]. destruct (pieces s) as [|p l] eqn:Ep; [now subst s |]. rewrite <- Ep in *. destruct (exists_last (l := pieces s)) as (a & (r & b) & E); [now rewrite Ep |].
  assert (Hl := last_piece s r b a E). rewrite Hl in *. cbn [fst] in *. rewrite E in *. rewrite encode_pieces_app. cbn zeta.
  destruct (wf_pieces_cases _ r b Hwf) as [[Hr ->]|(-> & x & -> & Hx)]; [apply in_or_app; right; now left | |].
  - change (r, EncodeRune r) with (rune_piece r). rewrite encode_pieces_rune. change (encode_pieces []) with (@nil N). rewrite app_nil_r.
    destruct (encode_runes_end bs r Hbs Hr Hu) as (z & Hz & Hv & Hzq & [[-> _]| ->]); [rewrite bytes_of_runes_one, DecodeLastRune_Encode by auto | rewrite bytes_of_runes_two; change (EncodeRune QuoteRune ++ EncodeRune z) with (quoted z); rewrite DecodeLastRune_quoted by auto]; auto.
  - assert (Hb' := Hb). rewrite <- Es in Hb'. destruct (encode_pieces_wf mask _ Hwf Hb') as [Hwf' _]. rewrite map_app, concat_app in Hb'. apply Forall_app in Hb' as [_ Hbx]. apply Forall_cons_iff in Hbx as [Hbx _].
    rewrite encode_pieces_cons. change (encode_pieces []) with (@nil N). rewrite app_nil_r. cbn [encode_piece]. rewrite flat_map_app in Hwf'. cbn [flat_map encode_piece] in Hwf'. rewrite app_nil_r in Hwf'.
    destruct (N.ltb_spec x 128); [lia |]. destruct (Has mask EncodeInvalidUtf8).
    + rewrite concat_rune_pieces. destruct (hex_pair x Hbx) as (H1 & H2 & _). destruct (hex_digit_facts _ H2) as [D2 _]. destruct (EncodeRune_byte _ D2) as [_ V2].
      unfold bytes_of_runes. cbn [map concat]. rewrite app_nil_r, !app_assoc, DecodeLastRune_Encode by auto. cbn [fst]. split; [now apply unknown_hex | unfold QuoteRune; lia].
    + cbn [map concat snd]. rewrite app_nil_r. apply DecodeLastRune_bad in Hwf'; [| auto]. rewrite map_app, concat_app in Hwf'. cbn [map concat snd] in Hwf'. rewrite app_nil_r in Hwf'.
      unfold EncoderCorrect.encode_pieces. rewrite Hwf'. split; [apply unknown_special; auto | discriminate].
Qed.

(** ** The whole of a name *)

(** Its ends, what is written for them, and its middle *)
Record parted (s pre prefix mid suf suffix : list N) : Prop := {
  p_parts : s = pre ++ mid ++ suf;
  p_prefix : prefix = [] /\ pre = [] /\ unknown lefts (fst (DecodeRune s)) \/ ended lefts pre prefix;
  p_suffix : suffix = [] /\ suf = [] /\ (mid = [] \/ unknown rights (fst (DecodeLastRune mid))) \/ ended rights suf suffix
}.

Definition decode_core (s : list N) : list N :=
  let '(prefix, s) := decode_prefix mask s in
  let '(suffix, s) := decode_suffix mask s in
  prefix ++ decode_run false false s ++ suffix.

Lemma Decode_core s : mask <> EncodeRaw -> (Has mask EncodeDot = true -> decode_dot s = None) -> Decode mask s = decode_core s.
Proof.
  intros Hraw Hdot. unfold Decode, decode_core. destruct (N.eqb_spec mask EncodeRaw) as [|_]; [easy |]. assert (Hd : (if Has mask EncodeDot then decode_dot s else None) = None) by (destruct (Has mask EncodeDot); auto). rewrite Hd.
  destruct (decode_prefix mask s) as [p s1]. destruct (decode_suffix mask s1) as [f s2]. destruct (eqb_bytes_spec p []) as [->|_]; [destruct (eqb_bytes_spec f []) as [->|_] |]; cbn [andb app firstn skipn]; try reflexivity.
  rewrite <- decode_index. destruct (IndexFunc (decode_needs mask) s2); rewrite ?app_nil_r; reflexivity.
Qed.

Lemma Encode_core s : mask <> EncodeRaw -> s <> [] -> (Has mask EncodeDot = true -> encode_dot s = None) -> Forall is_byte s ->
  exists pre prefix mid suf suffix, parted s pre prefix mid suf suffix /\ Encode mask s = Ret (prefix ++ encode_pieces (pieces mid) ++ suffix).
Proof.
  intros Hraw Hs Hdot Hb. unfold Encode. destruct (N.eqb_spec mask EncodeRaw) as [|_]; [easy |]. rewrite eqb_bytes_false by auto.
  assert (Hd : (if Has mask EncodeDot then encode_dot s else None) = None) by (destruct (Has mask EncodeDot); auto). rewrite Hd.
  destruct (tests_left lefts s lefts_incl Hs) as (prefix & s1 & -> & Hpre). cbn [bind].
  assert (Hpre' : exists pre, s = pre ++ s1 /\ (prefix = [] /\ pre = [] /\ unknown lefts (fst (DecodeRune s)) \/ ended lefts pre prefix)) by (destruct Hpre as [(-> & -> & Hu)|(x & Ex & He)]; [exists []; auto | exists x; auto]).
  destruct Hpre' as (pre & Es & Hp). clear Hpre.
  assert (Hsuf : exists suffix mid suf, (if eqb_bytes s1 [] then Ret ([], s1) else tests (encode_right mask) rights ([], s1)) = Ret (suffix, mid) /\ s1 = mid ++ suf /\
    (suffix = [] /\ suf = [] /\ (mid = [] \/ unknown rights (fst (DecodeLastRune mid))) \/ ended rights suf suffix)).
  { destruct (eqb_bytes_spec s1 []) as [->|Hs1]; [exists [], [], []; splits; auto; left; auto |]. destruct (tests_right rights s1 rights_incl Hs1) as (suffix & mid & -> & [(-> & -> & Hu)|(x & Ex & He)]);
      [exists [], s1, []; splits; [reflexivity | now rewrite app_nil_r | left; auto] | exists suffix, mid, x; splits; auto]. }
  destruct Hsuf as (suffix & mid & suf & -> & Es1 & Hsf). cbn [bind]. exists pre, prefix, mid, suf, suffix. split; [constructor; auto; now rewrite <- Es1 |].
  assert (Hbm : Forall is_byte mid) by (rewrite Es, Es1 in Hb; apply Forall_app in Hb as [_ Hb]; now apply Forall_app in Hb).
  rewrite <- (encode_index mid Hbm). destruct (eqb_bytes_spec prefix []) as [->|_]; [destruct (eqb_bytes_spec suffix []) as [->|_] |]; cbn [andb app].
  - destruct (IndexFunc (encode_needs mask) mid); rewrite ?app_nil_r; reflexivity.
  - cbn [firstn skipn app]. rewrite encode_index, <- (encode_turns_spec mask mid (length mid)) by auto. reflexivity.
  - cbn [firstn skipn app]. rewrite encode_index, <- (encode_turns_spec mask mid (length mid)) by auto. reflexivity.
Qed.

Lemma parted_starts s pre prefix mid suf suffix : parted s pre prefix mid suf suffix -> starts suf /\ starts suffix.
Proof. intros [_ _ [(-> & -> & _)|He]]; [easy |]. destruct (ended_starts _ _ _ [] He) as [H1 H2]. now rewrite !app_nil_r in *. Qed.

(** The prefix is found again. *)
Lemma decode_prefix_parted s pre prefix mid suf suffix : s <> [] -> Forall is_byte s -> parted s pre prefix mid suf suffix ->
  decode_prefix mask (prefix ++ encode_pieces (pieces mid) ++ suffix) = (pre, encode_pieces (pieces mid) ++ suffix).
Proof.
  intros Hs Hb Hp. destruct (parted_starts _ _ _ _ _ _ Hp) as [H1 H2]. destruct Hp as [Es Hpre Hsuf]. destruct Hpre as [(-> & -> & Hu)|He]; [| now apply decode_prefix_ended]. cbn [app] in *.
  destruct (pieces_wf mid) as [Hwf Em]. destruct mid as [|m mid].
  - change (encode_pieces (pieces [])) with (@nil N). cbn [app] in *. subst s. destruct Hsuf as [(-> & -> & _)|He]; [easy |]. inversion He as [c e Hin E1 E2|c e Hin E1 E2]; subst suf suffix; clear He; destruct (EncodeRune_pair rights c e rights_incl Hin) as (_ & Hc & Hv);
      assert (Hq := active_all mask _ _ rights_incl Hin); apply pair_facts in Hq as (_ & _ & _ & _ & Hq & _).
    + rewrite <- (app_nil_r (EncodeRune c)), DecodeRune_Encode in Hu by auto. cbn [fst] in Hu. rewrite <- (app_nil_r (EncodeRune e)). apply decode_prefix_rune; auto. now apply (unknown_replaced lefts rights c).
    + rewrite <- (app_nil_r (EncodeRune e)), DecodeRune_Encode in Hu by auto. cbn [fst] in Hu. rewrite <- (app_nil_r (quoted e)). apply decode_prefix_quoted; auto. now apply unknown_undo.
  - rewrite Es in Hu. rewrite DecodeRune_app in Hu by easy. rewrite (pieces_step (m :: mid)) in * by easy. destruct (DecodeRune (m :: mid)) as [r w]. cbn [fst] in Hu.
    apply decode_prefix_pieces; auto. rewrite Em. rewrite Es in Hb. now apply Forall_app in Hb.
Qed.

(** A replaced character at the end, after a quote *)
Definition quote_before_end (s : list N) : Prop := exists a c e, In (c, e) (active rights) /\ s = a ++ EncodeRune QuoteRune ++ EncodeRune c.

(** The suffix is found again, except after a quote. *)
Lemma decode_suffix_parted s pre prefix mid suf suffix : Forall is_byte s -> parted s pre prefix mid suf suffix -> ~ quote_before_end s ->
  decode_suffix mask (encode_pieces (pieces mid) ++ suffix) = (suf, encode_pieces (pieces mid)).
Proof.
  intros Hb [Es Hpre Hsuf] Hq. assert (Hbm : Forall is_byte mid) by (rewrite Es in Hb; apply Forall_app in Hb as [_ Hb]; now apply Forall_app in Hb).
  assert (Hnil : mid = [] -> encode_pieces (pieces mid) = []) by now intros ->.
  destruct Hsuf as [(-> & -> & Hmid)|He]; [| inversion He as [c e Hin E1 E2|c e Hin E1 E2]; subst suf suffix; clear He].
  - rewrite app_nil_r. apply decode_suffix_none. destruct mid as [|m mid']; [rewrite Hnil by auto; apply undo_special; auto |]. destruct Hmid as [|Hu]; [easy |]. now apply unknown_undo, last_encoded.
  - apply decode_suffix_plain; [exact Hin |]. destruct mid as [|m mid']; [rewrite Hnil by auto; discriminate |]. set (mid := m :: mid') in *.
    destruct (last_encoded mid [] ltac:(easy) Hbm ltac:(easy) ltac:(now intros ? ?)) as [_ Hz]. intros K. apply Hz in K.
    destruct (DecodeLastRune mid) as [q l] eqn:El. cbn [fst] in K. subst q. destruct (DecodeLastRune_cases mid QuoteRune l ltac:(easy) El) as [K|(_ & _ & a & Ea)]; [discriminate |].
    apply Hq. exists (pre ++ a), c, e. split; [exact Hin |]. rewrite Es, Ea, <- !app_assoc. reflexivity.
  - unfold quoted. rewrite app_assoc. now apply decode_suffix_after_quote with (c := c).
Qed.

Lemma decode_core_parted s pre prefix mid suf suffix : s <> [] -> Forall is_byte s -> parted s pre prefix mid suf suffix -> ~ quote_before_end s ->
  decode_core (prefix ++ encode_pieces (pieces mid) ++ suffix) = s.
Proof.
  intros Hs Hb Hp Hq. unfold decode_core. rewrite (decode_prefix_parted s pre prefix mid suf suffix), (decode_suffix_parted s pre prefix mid suf suffix) by auto.
  destruct Hp as [Es _ _]. destruct (pieces_wf mid) as [Hwf Em]. rewrite decode_encode_pieces; [now rewrite Em | exact Hwf |]. rewrite Em. rewrite Es in Hb. apply Forall_app in Hb as [_ Hb]. now apply Forall_app in Hb.
Qed.
End Masked.
