(* ===== verification/EncoderTheorems.v ===== *)
(** * The encodings of names are undone, and what they keep out of names *)
From Stdlib Require Import String.
From Stdlib Require Import List Arith NArith ZArith Lia Bool.
From S2P Require Import Prelude GoStrings Encoder EncoderCorrect.
Import ListNotations.
Local Open Scope Z_scope.
Local Open Scope list_scope.

Section Masked.
Variable mask : MultiEncoder.

Hint Resolve blocks_incl lefts_incl rights_incl : core.

Notation encode_pieces := (encode_pieces mask).
Notation active := (active mask).

(** ** Full stops *)

Definition stop : list N := EncodeRune fullStop.

Lemma undo_left_stop : undo mask lefts fullStop = if Has mask EncodeLeftPeriod then Some 46 else None.
Proof. unfold lefts. cbn [undo b_flag b_pairs]. destruct (Has mask EncodeLeftSpace), (Has mask EncodeLeftPeriod), (Has mask EncodeLeftTilde), (Has mask EncodeLeftCrLfHtVt); reflexivity. Qed.

Lemma undo_right_stop : undo mask rights fullStop = if Has mask EncodeRightPeriod then Some 46 else None.
Proof. unfold rights. cbn [undo b_flag b_pairs]. destruct (Has mask EncodeRightSpace), (Has mask EncodeRightPeriod), (Has mask EncodeRightCrLfHtVt); reflexivity. Qed.

Lemma active_block (P : Z * Z -> bool) bs : forallb P (flat_map b_pairs bs) = true -> forall p, In p (active bs) -> P p = true.
Proof.
  intros H p Hp. rewrite forallb_forall in H. apply H. apply in_flat_map in Hp as (b & Hb & Hp). apply in_flat_map. exists b. split; [auto |]. now destruct (Has mask (b_flag b)).
Qed.

Lemma no_stop_block c e : In (c, e) (active blocks) -> c <> fullStop /\ e <> fullStop.
Proof.
  intros Hin. assert (H := active_block (fun '(c, e) => negb (c =? fullStop) && negb (e =? fullStop)) blocks eq_refl (c, e) Hin). cbn in H.
  now rewrite andb_true_iff, !negb_true_iff, !Z.eqb_neq in H.
Qed.

Lemma encode_runes_stop : encode_runes mask fullStop = [fullStop].
Proof.
  unfold encode_runes. cbn [Z.eqb fullStop symbolOffset QuoteRune Pos.eqb orb]. destruct (sub_runes_spec mask 65294) as [(e & He & _)|[(c & Hc & _)|(_ & _ & E)]]; [| | exact E].
  - now apply no_stop_block in He.
  - now apply no_stop_block in Hc.
Qed.

Lemma undo_block_stop : undo mask blocks fullStop = None.
Proof. destruct (undo mask blocks fullStop) as [c|] eqn:E; [| easy]. apply undo_in in E. now apply no_stop_block in E. Qed.

Lemma run_stops n : forall t, decode_run mask false false (concat (repeat stop n) ++ t) = concat (repeat stop n) ++ decode_run mask false false t.
Proof.
  induction n as [|n IH]; intros t; [reflexivity |]. cbn [repeat concat]. rewrite <- !app_assoc. unfold stop at 1. rewrite decode_run_rune by reflexivity.
  change (fullStop =? symbolOffset) with false. change (fullStop =? QuoteRune) with false. rewrite undo_block_stop, IH. reflexivity.
Qed.

Lemma run_quoted_stop t : decode_run mask false false (quoted fullStop ++ t) = match (if Has mask EncodeInvalidUtf8 then appendUnquotedByte (stop ++ t) else None) with
  | Some b => b :: decode_run mask true false t | None => quoted fullStop ++ decode_run mask false false t end.
Proof.
  unfold quoted. rewrite <- !app_assoc, decode_run_rune by reflexivity. change (QuoteRune =? symbolOffset) with false. change (QuoteRune =? QuoteRune) with true. cbv iota.
  rewrite decode_run_rune by reflexivity. change (fullStop =? symbolOffset) with false. change (fullStop =? QuoteRune) with false. rewrite undo_block_stop. reflexivity.
Qed.

Lemma run_quoted_stop' t : decode_run mask false false (quoted fullStop ++ t) = quoted fullStop ++ decode_run mask false false t.
Proof. rewrite run_quoted_stop. destruct (Has mask EncodeInvalidUtf8); reflexivity. Qed.

(** ** Quotes are doubled *)

Lemma ended_pieces bs x y : incl bs (blocks ++ lefts ++ rights) -> ended mask bs x y -> exists r, x = EncodeRune r /\ ValidRune r = true /\ r <> QuoteRune.
Proof.
  intros Hbs [c e Hin|c e Hin]; destruct (EncodeRune_pair mask bs c e Hbs Hin) as (_ & Hc & He); assert (Hp := active_all mask _ _ Hbs Hin); apply pair_facts in Hp as (Hr & _ & _ & _ & Hq & _).
  - exists c. splits; auto. unfold QuoteRune. lia.
  - exists e. auto.
Qed.

(** The pieces of a name with its ends *)
Lemma parted_pieces s pre prefix mid suf suffix : parted mask s pre prefix mid suf suffix -> exists a b, pieces s = a ++ pieces mid ++ b /\
  (pre = [] /\ a = [] \/ exists r, a = [rune_piece r] /\ pre = EncodeRune r /\ r <> QuoteRune) /\
  (suf = [] /\ b = [] \/ exists r, b = [rune_piece r] /\ suf = EncodeRune r /\ ValidRune r = true /\ r <> QuoteRune).
Proof.
  intros Hp. destruct (parted_starts _ _ _ _ _ _ _ Hp) as [Hs _]. destruct Hp as [Es Hpre Hsuf].
  assert (Hmid : exists b, pieces (mid ++ suf) = pieces mid ++ b /\ (suf = [] /\ b = [] \/ exists r, b = [rune_piece r] /\ suf = EncodeRune r /\ ValidRune r = true /\ r <> QuoteRune)).
  { rewrite pieces_app by auto. exists (pieces suf). split; [reflexivity |]. destruct Hsuf as [(_ & -> & _)|He]; [left; auto | right].
    destruct (ended_pieces _ _ _ rights_incl He) as (r & -> & Hv & Hq). exists r. splits; auto. rewrite <- (app_nil_r (EncodeRune r)), pieces_Encode by auto. reflexivity. }
  destruct Hmid as (b & Em & Hb). destruct Hpre as [(_ & -> & _)|He].
  - exists [], b. splits; auto. now rewrite Es.
  - destruct (ended_pieces _ _ _ lefts_incl He) as (r & -> & Hv & Hq). exists [rune_piece r], b. splits; eauto. now rewrite Es, pieces_Encode, Em.
Qed.

Lemma doubled s pre prefix mid suf suffix : parted mask s pre prefix mid suf suffix -> In (rune_piece QuoteRune) (pieces s) ->
  exists a b, prefix ++ encode_pieces (pieces mid) ++ suffix = a ++ (EncodeRune QuoteRune ++ EncodeRune QuoteRune) ++ b.
Proof.
  intros Hp Hin. destruct (parted_pieces _ _ _ _ _ _ Hp) as (a & b & E & Ha & Hb). rewrite E in Hin. apply in_app_or in Hin as [Hin|Hin].
  { destruct Ha as [[_ ->]|(r & -> & _ & Hq)]; [easy |]. destruct Hin as [Hin|[]]. now injection Hin as ->. }
  apply in_app_or in Hin as [Hin|Hin]; [| destruct Hb as [[_ ->]|(r & -> & _ & _ & Hq)]; [easy |]; destruct Hin as [Hin|[]]; now injection Hin as ->].
  apply in_split in Hin as (l1 & l2 & ->). rewrite encode_pieces_app, encode_pieces_rune. unfold encode_runes. cbn [Z.eqb Pos.eqb QuoteRune symbolOffset orb]. rewrite bytes_of_runes_two.
  exists (prefix ++ encode_pieces l1), (encode_pieces l2 ++ suffix). now rewrite <- !app_assoc.
Qed.

Lemma not_doubled (s : list N) : forallb (fun i => negb (eqb_bytes (firstn 6 (skipn i s)) (EncodeRune QuoteRune ++ EncodeRune QuoteRune))) (seq 0 (S (length s))) = true ->
  forall a b, s <> a ++ (EncodeRune QuoteRune ++ EncodeRune QuoteRune) ++ b.
Proof.
  intros H a b E. rewrite forallb_forall in H. specialize (H (length a)). rewrite E, skipn_app, skipn_all, Nat.sub_diag in H. cbn [app] in H. change (skipn 0 ?x) with x in H.
  assert (K : firstn 6 ((EncodeRune QuoteRune ++ EncodeRune QuoteRune) ++ b) = EncodeRune QuoteRune ++ EncodeRune QuoteRune) by reflexivity. rewrite K, eqb_bytes_refl in H.
  cbn in H. assert (Hin : In (length a) (seq 0 (S (length (a ++ (EncodeRune QuoteRune ++ EncodeRune QuoteRune) ++ b))))) by (apply in_seq; rewrite length_app; lia). now specialize (H Hin).
Qed.

(** ** When the result looks like a dot *)

Definition dot_ambiguous (s : list N) : Prop := Has mask EncodeDot = true /\
  (s = [46%N] ++ stop /\ Has mask EncodeLeftPeriod = true /\ Has mask EncodeRightPeriod = false \/
   s = stop ++ [46%N] /\ Has mask EncodeLeftPeriod = false /\ Has mask EncodeRightPeriod = true).

Definition ambiguous (s : list N) : Prop := mask <> EncodeRaw /\ (quote_before_end mask s \/ dot_ambiguous s).

Lemma decode_dot_cases s d : decode_dot s = Some d -> s = stop \/ s = stop ++ stop \/ s = quoted fullStop \/ s = quoted fullStop ++ quoted fullStop.
Proof.
  unfold decode_dot. fold stop. destruct (eqb_bytes_spec s stop); [auto |]. destruct (eqb_bytes_spec s (stop ++ stop)); [auto |]. destruct (eqb_bytes_spec s (quoted fullStop)); [auto |].
  destruct (eqb_bytes_spec s (quoted fullStop ++ quoted fullStop)); [auto | easy].
Qed.

Lemma suffix_nil : decode_suffix mask [] = ([], []).
Proof. apply decode_suffix_none. apply undo_special; auto. Qed.

Lemma prefix_stop t : decode_prefix mask (stop ++ t) = if Has mask EncodeLeftPeriod then ([46%N], t) else ([], stop ++ t).
Proof. unfold decode_prefix, stop. rewrite DecodeRune_Encode, undo_left_stop by reflexivity. destruct (Has mask EncodeLeftPeriod); reflexivity. Qed.

Lemma prefix_quoted t : decode_prefix mask (quoted fullStop ++ t) = if Has mask EncodeLeftPeriod then (stop, t) else ([], quoted fullStop ++ t).
Proof.
  unfold decode_prefix. rewrite DecodeRune_quoted, undo_quote, Z.eqb_refl, (proj1 (skipn_quoted fullStop t)), DecodeRune_Encode, undo_left_stop by auto.
  destruct (Has mask EncodeLeftPeriod); [now rewrite (proj2 (skipn_quoted fullStop t)) | reflexivity].
Qed.

Lemma suffix_stop a : fst (DecodeLastRune a) <> QuoteRune -> decode_suffix mask (a ++ stop) = if Has mask EncodeRightPeriod then ([46%N], a) else ([], a ++ stop).
Proof.
  intros Hq. assert (HR := undo_right_stop). destruct (Has mask EncodeRightPeriod).
  - apply (decode_suffix_plain mask 46); [now apply undo_in | exact Hq].
  - apply decode_suffix_none. unfold stop. now rewrite DecodeLastRune_Encode.
Qed.

Lemma suffix_quoted a : decode_suffix mask (a ++ quoted fullStop) = if Has mask EncodeRightPeriod then (stop, a) else ([], a ++ quoted fullStop).
Proof.
  assert (HR := undo_right_stop). destruct (Has mask EncodeRightPeriod).
  - unfold quoted. rewrite app_assoc. apply (decode_suffix_after_quote mask 46). now apply undo_in.
  - apply decode_suffix_none. now rewrite DecodeLastRune_quoted.
Qed.

(** What is decoded from the four texts without the test for dots *)
Lemma core_stops :
  (decode_core mask stop = [46%N] \/ decode_core mask stop = stop) /\
  (decode_core mask (stop ++ stop) = [46; 46]%N \/ decode_core mask (stop ++ stop) = stop ++ stop \/
    decode_core mask (stop ++ stop) = [46%N] ++ stop /\ Has mask EncodeLeftPeriod = true /\ Has mask EncodeRightPeriod = false \/
    decode_core mask (stop ++ stop) = stop ++ [46%N] /\ Has mask EncodeLeftPeriod = false /\ Has mask EncodeRightPeriod = true) /\
  (decode_core mask (quoted fullStop) = stop \/ decode_core mask (quoted fullStop) = quoted fullStop) /\
  (decode_core mask (quoted fullStop ++ quoted fullStop) = stop ++ stop \/ decode_core mask (quoted fullStop ++ quoted fullStop) = stop ++ quoted fullStop \/
    decode_core mask (quoted fullStop ++ quoted fullStop) = quoted fullStop ++ stop \/ decode_core mask (quoted fullStop ++ quoted fullStop) = quoted fullStop ++ quoted fullStop).
Proof.
  assert (R1 : decode_run mask false false stop = stop) by exact (run_stops 1 []). assert (R2 : decode_run mask false false (stop ++ stop) = stop ++ stop) by exact (run_stops 2 []).
  assert (R3 : decode_run mask false false (quoted fullStop) = quoted fullStop) by exact (run_quoted_stop' []).
  assert (R4 : decode_run mask false false (quoted fullStop ++ quoted fullStop) = quoted fullStop ++ quoted fullStop) by (rewrite run_quoted_stop', R3; reflexivity).
  assert (P1 := prefix_stop []). assert (P2 := prefix_quoted []). assert (S1 := suffix_stop [] ltac:(discriminate)). assert (S2 := suffix_stop stop ltac:(discriminate)). assert (S3 := suffix_quoted []). assert (S4 := suffix_quoted (quoted fullStop)).
  rewrite app_nil_r in P1, P2. cbn [app] in S1, S3. unfold decode_core. rewrite P1, P2, prefix_stop, prefix_quoted.
  destruct (Has mask EncodeLeftPeriod), (Has mask EncodeRightPeriod); rewrite ?suffix_nil, ?S1, ?S2, ?S3, ?S4, ?R1, ?R2, ?R3, ?R4; cbn [app]; rewrite ?app_nil_r; splits; auto 8.
Qed.

Lemma Decode_dots s e : encode_dot s = Some e -> Has mask EncodeDot = true -> mask <> EncodeRaw -> Decode mask e = s.
Proof.
  unfold encode_dot. intros E Hd Hraw. unfold Decode. destruct (N.eqb_spec mask EncodeRaw) as [|_]; [easy |]. rewrite Hd.
  destruct (eqb_bytes_spec s [46%N]) as [->|_]; [injection E as <-; reflexivity |]. destruct (eqb_bytes_spec s [46%N; 46%N]) as [->|_]; [injection E as <-; reflexivity |].
  destruct (eqb_bytes_spec s (EncodeRune fullStop)) as [->|_]; [injection E as <-; reflexivity |]. destruct (eqb_bytes_spec s (EncodeRune fullStop ++ EncodeRune fullStop)) as [->|_]; [injection E as <-; reflexivity | easy].
Qed.

Lemma Has_Dot_not_Raw : Has mask EncodeDot = true -> mask <> EncodeRaw.
Proof. intros H ->. discriminate. Qed.

(** Texts with a quote, for which [encode_dot] does nothing *)
Lemma quoted_not_dot s : In (rune_piece QuoteRune) (pieces s) -> encode_dot s = None.
Proof.
  intros Hin. unfold encode_dot. assert (H : forall t, s = t -> forallb (fun p => negb (fst p =? QuoteRune)) (pieces t) = true -> False).
  { intros t <- Hall. rewrite forallb_forall in Hall. now specialize (Hall _ Hin). }
  repeat match goal with |- context [eqb_bytes_spec] => fail | |- context [eqb_bytes s ?t] => destruct (eqb_bytes_spec s t) as [K|_]; [exfalso; exact (H _ K eq_refl) |] end. reflexivity.
Qed.

(** The text that is written looks like a dot only in the two cases above. *)
Lemma decode_dot_none s pre prefix mid suf suffix : s <> [] -> Forall is_byte s -> Has mask EncodeDot = true -> encode_dot s = None -> parted mask s pre prefix mid suf suffix ->
  ~ quote_before_end mask s -> ~ dot_ambiguous s -> decode_dot (prefix ++ encode_pieces (pieces mid) ++ suffix) = None.
Proof.
  intros Hs Hb Hd Hdot Hp Hq Ha. assert (Hcore := decode_core_parted mask s pre prefix mid suf suffix Hs Hb Hp Hq). set (E := prefix ++ _) in *.
  destruct (decode_dot E) as [d|] eqn:Ed; [exfalso | reflexivity]. destruct core_stops as (C1 & C2 & C3 & C4).
  assert (Hno : forall t, s = t -> encode_dot t = None) by now intros t <-.
  assert (Hdbl : forall t, s = t -> In (rune_piece QuoteRune) (pieces t) -> forallb (fun i => negb (eqb_bytes (firstn 6 (skipn i E)) (EncodeRune QuoteRune ++ EncodeRune QuoteRune))) (seq 0 (S (length E))) = true -> False).
  { intros t <- Hin Hc. destruct (doubled s pre prefix mid suf suffix Hp Hin) as (a & b & K). exact (not_doubled E Hc a b K). }
  assert (Hfind : forall t, existsb (fun p => (fst p =? QuoteRune) && eqb_bytes (snd p) (EncodeRune QuoteRune)) (pieces t) = true -> In (rune_piece QuoteRune) (pieces t)).
  { intros t Ht. apply existsb_exists in Ht as ((r & b) & Hin & K). cbn [fst snd] in K. apply andb_true_iff in K as [K1 K2]. apply Z.eqb_eq in K1 as ->. destruct (eqb_bytes_spec b (EncodeRune QuoteRune)); [now subst b | easy]. }
  apply decode_dot_cases in Ed as [Ed|[Ed|[Ed|Ed]]]; rewrite Ed in *; clearbody E; subst E.
  - destruct C1 as [C|C]; rewrite Hcore in C; now apply Hno in C.
  - destruct C2 as [C|[C|[[C K]|[C K]]]]; rewrite Hcore in C; [now apply Hno in C | now apply Hno in C | apply Ha; split; auto | apply Ha; split; auto].
  - destruct C3 as [C|C]; rewrite Hcore in C; [now apply Hno in C | apply (Hdbl _ C); [now apply Hfind | reflexivity]].
  - destruct C4 as [C|[C|[C|C]]]; rewrite Hcore in C; [now apply Hno in C | | |]; (apply (Hdbl _ C); [now apply Hfind | reflexivity]).
Qed.

(** ** What is not found again *)

Lemma last_of_pieces (l : list (Z * list N)) a p q : l ++ [p] = a ++ [q] -> l = a /\ p = q.
Proof. apply app_inj_tail. Qed.

(** A replaced character after a quote: the replacement is taken for a quoted one. *)
Lemma decode_core_after_quote s pre prefix mid suf suffix : Forall is_byte s -> parted mask s pre prefix mid suf suffix -> quote_before_end mask s ->
  exists c e t, In (c, e) (active rights) /\ (exists a, s = a ++ EncodeRune c) /\ decode_core mask (prefix ++ encode_pieces (pieces mid) ++ suffix) = t ++ EncodeRune e.
Proof.
  intros Hb Hp (a & c & e & Hin & Es). destruct (EncodeRune_pair mask rights c e rights_incl Hin) as (_ & Hvc & Hve). assert (Hpf := active_all mask _ _ rights_incl Hin).
  apply pair_facts in Hpf as (Hc & He & _). assert (Hps : pieces s = (pieces a ++ [rune_piece QuoteRune]) ++ [rune_piece c]).
  { rewrite Es, pieces_app, <- (app_nil_r (EncodeRune c)), !pieces_Encode by (auto using starts_Encode). now rewrite <- app_assoc. }
  exists c, e. assert (Hs : s <> []) by (intros K; rewrite K in Hps; change (pieces []) with (@nil (Z * list N)) in Hps; symmetry in Hps; now apply app_eq_nil in Hps as [_ Hps]).
  destruct (parted_pieces _ _ _ _ _ _ Hp) as (x & y & E & Hx & Hy). rewrite Hps in E.
  assert (Hlast : forall l r b, pieces mid = l ++ [(r, b)] -> fst (DecodeLastRune mid) = r) by (intros l r b El; now rewrite (last_piece mid r b l El)).
  assert (Hsplit : pieces mid = [] \/ exists l r b, pieces mid = l ++ [(r, b)]) by (destruct (pieces mid) as [|p l]; [auto | right; destruct (exists_last (l := p :: l)) as (l' & (r & b) & ->); [easy | eauto]]).
  assert (Hmn : pieces mid = [] -> mid = []) by (intros K; destruct (pieces_wf mid) as [_ Em]; now rewrite <- Em, K).
  assert (Hrp : forall r r', rune_piece r = rune_piece r' -> r = r') by (intros r r' K; now injection K).
  destruct Hy as [[Hsf ->]|(r & -> & Hsf & Hr & Hrq)].
  - exfalso. rewrite app_nil_r in E. destruct Hp as [_ _ [(_ & _ & Hmid)|Hend]]; [| subst suf; apply ended_not_nil in Hend; easy].
    destruct Hsplit as [Hnil|(l & r & b & El)].
    + rewrite Hnil, app_nil_r in E. destruct Hx as [[_ ->]|(r & -> & _)]; [destruct (pieces a); discriminate |]. apply (f_equal (@length _)) in E. rewrite !length_app in E. cbn in E. lia.
    + rewrite El, app_assoc in E. apply app_inj_tail in E as [_ E]. injection E as -> _. destruct Hmid as [->|Hu]; [now destruct l |]. rewrite (Hlast _ _ _ El) in Hu. now apply Hu in Hin.
  - rewrite app_assoc in E. apply app_inj_tail in E as [E Er]. apply Hrp in Er as <-. destruct Hsplit as [Hnil|(l & r & b & El)].
    { exfalso. rewrite Hnil, app_nil_r in E. destruct Hx as [[_ ->]|(q & -> & _ & Hq)]; [destruct (pieces a); discriminate |]. destruct (pieces a) as [|p l]; [injection E as E; congruence |]. destruct l; discriminate. }
    rewrite El, app_assoc in E. apply app_inj_tail in E as [_ E]. injection E as <- <-. change (QuoteRune, EncodeRune QuoteRune) with (rune_piece QuoteRune) in El.
    assert (Hdec := decode_prefix_parted mask s pre prefix mid suf suffix Hs Hb Hp). destruct Hp as [_ _ [(-> & -> & _)|Hend]]; [symmetry in Hsf; now apply EncodeRune_not_nil in Hsf |].
    assert (Hsuffix : suffix = EncodeRune e).
    { inversion Hend as [c' e' Hin' E1 E2|c' e' Hin' E1 E2]; subst suf suffix; assert (Hp' := active_all mask _ _ rights_incl Hin'); destruct (pair_facts _ _ Hp') as (Hc' & He' & Hv' & _ & _ & _ & K).
      - assert (Ec : c' = c) by (apply (f_equal (fun u => fst (DecodeLastRune ([] ++ u)))) in E1; rewrite !DecodeLastRune_Encode in E1 by (auto; apply ValidRune_iff; lia); exact E1). f_equal. now apply (K c e (active_all mask _ _ rights_incl Hin)).
      - exfalso. apply (f_equal (fun u => fst (DecodeLastRune ([] ++ u)))) in E1. rewrite !DecodeLastRune_Encode in E1 by auto. cbn [fst] in E1. lia. }
    exists (pre ++ decode_run mask false false (encode_pieces l ++ EncodeRune QuoteRune)). splits; auto; [exists (a ++ EncodeRune QuoteRune); now rewrite <- app_assoc |].
    unfold decode_core. rewrite Hdec, Hsuffix, El, encode_pieces_app, encode_pieces_rune. unfold encode_runes. cbn [Z.eqb Pos.eqb QuoteRune symbolOffset orb]. rewrite bytes_of_runes_two.
    change (encode_pieces []) with (@nil N). rewrite app_nil_r, (app_assoc (encode_pieces l)).
    rewrite (decode_suffix_after_quote mask c e (encode_pieces l ++ EncodeRune QuoteRune)) by auto. now rewrite app_assoc.
Qed.

(** What is taken off where a rune is known *)
Lemma ended_first bs x y t r t' : incl bs (blocks ++ lefts ++ rights) -> ended mask bs x y -> ValidRune r = true -> x ++ t = EncodeRune r ++ t' ->
  x = EncodeRune r /\ t = t' /\ ((exists e, In (r, e) (active bs) /\ y = EncodeRune e) \/ exists c, In (c, r) (active bs) /\ y = quoted r).
Proof.
  intros Hbs He Hr E. inversion He as [c e Hin E1 E2|c e Hin E1 E2]; subst x y; destruct (EncodeRune_pair mask bs c e Hbs Hin) as (_ & Hc & Hv);
    assert (K := f_equal (fun u => fst (DecodeRune u)) E); cbn beta in K; rewrite !DecodeRune_Encode in K by auto; cbn [fst] in K; subst r; apply app_inv_head in E; eauto 6.
Qed.

Lemma ended_last bs x y t r t' : incl bs (blocks ++ lefts ++ rights) -> ended mask bs x y -> ValidRune r = true -> t ++ x = t' ++ EncodeRune r ->
  x = EncodeRune r /\ t = t' /\ ((exists e, In (r, e) (active bs) /\ y = EncodeRune e) \/ exists c, In (c, r) (active bs) /\ y = quoted r).
Proof.
  intros Hbs He Hr E. inversion He as [c e Hin E1 E2|c e Hin E1 E2]; subst x y; destruct (EncodeRune_pair mask bs c e Hbs Hin) as (_ & Hc & Hv);
    assert (K := f_equal (fun u => fst (DecodeLastRune u)) E); cbn beta in K; rewrite !DecodeLastRune_Encode in K by auto; cbn [fst] in K; subst r; apply app_inv_tail in E; eauto 6.
Qed.

Lemma stop_pair bs e : incl bs (blocks ++ lefts ++ rights) -> In (46, e) (active bs) -> e = fullStop.
Proof.
  intros Hbs Hin. assert (Hp := active_all mask _ _ Hbs Hin). destruct (pair_facts _ _ Hp) as (_ & _ & _ & _ & _ & _ & K). apply (K 46); [| reflexivity].
  apply in_flat_map. eexists. split; [apply in_or_app; right; apply in_or_app; left; right; left; reflexivity | now left].
Qed.

Lemma pair_sides bs c e : incl bs (blocks ++ lefts ++ rights) -> In (c, e) (active bs) -> c < 128 <= e.
Proof. intros Hbs Hin. assert (Hp := active_all mask _ _ Hbs Hin). apply pair_facts in Hp. lia. Qed.

(** Names of a full stop and a dot: they look like two dots. *)
Lemma encode_dot_ambiguous s pre prefix mid suf suffix : parted mask s pre prefix mid suf suffix -> dot_ambiguous s ->
  prefix ++ encode_pieces (pieces mid) ++ suffix = stop ++ stop.
Proof.
  intros [Es Hpre Hsuf] (_ & Hcase). assert (HL := undo_left_stop). assert (HR := undo_right_stop).
  assert (Hone : encode_pieces (pieces stop) = stop) by (change (pieces stop) with [rune_piece fullStop]; rewrite encode_pieces_rune, encode_runes_stop, bytes_of_runes_one; apply app_nil_r).
  destruct Hcase as [(-> & H1 & H2)|(-> & H1 & H2)]; rewrite H1 in HL; rewrite H2 in HR.
  - destruct Hpre as [(_ & _ & Hu)|Hpre]; [apply undo_in in HL; now apply Hu in HL |].
    destruct (ended_first lefts pre prefix (mid ++ suf) 46 stop) as (-> & Em & Hy); auto. destruct Hy as [(e & Hin & ->)|(c & Hin & _)]; [| apply pair_sides in Hin; auto; lia]. apply stop_pair in Hin as ->; auto.
    destruct Hsuf as [(-> & -> & _)|Hsuf]; [rewrite !app_nil_r in *; now rewrite Em, Hone |]. exfalso.
    destruct (ended_last rights suf suffix mid fullStop []) as (_ & _ & [(e & Hin & _)|(c & Hin & _)]); auto; [apply pair_sides in Hin; auto; unfold fullStop in Hin; lia | apply undo_some in Hin; auto; congruence].
  - destruct Hpre as [(-> & -> & _)|Hpre].
    + cbn [app] in Es. destruct Hsuf as [(_ & -> & Hmid)|Hsuf].
      * exfalso. rewrite app_nil_r in Es. subst mid. destruct Hmid as [K|Hu]; [discriminate |]. apply undo_in in HR. now apply Hu in HR.
      * destruct (ended_last rights suf suffix mid 46 stop) as (_ & -> & [(e & Hin & ->)|(c & Hin & _)]); auto; [| apply pair_sides in Hin; auto; lia]. apply stop_pair in Hin as ->; auto. cbn [app]. now rewrite Hone.
    + exfalso. destruct (ended_first lefts pre prefix (mid ++ suf) fullStop [46%N]) as (_ & _ & [(e & Hin & _)|(c & Hin & _)]); auto; [apply pair_sides in Hin; auto; unfold fullStop in Hin; lia | apply undo_some in Hin; auto; congruence].
Qed.

Lemma Has_Raw : mask = EncodeRaw -> Has mask EncodeDot = false.
Proof. now intros ->. Qed.
End Masked.

(** C16: [Decode] undoes [Encode], for every mask and every name, but for two kinds of
    names: those that end in a quote and a character that is replaced at the end only,
    and with [EncodeDot] and one of the bits for full stops at the ends the names of a
    dot and a full-width full stop. *)
Theorem Decode_Encode mask s : Forall is_byte s -> exists e, Encode mask s = Ret e /\ (Decode mask e = s <-> ~ ambiguous mask s).
Proof.
  intros Hb. destruct (N.eq_dec mask EncodeRaw) as [->|Hraw]; [exists s; split; [reflexivity |]; split; [intros _ [K _]; now apply K | reflexivity] |].
  destruct (eqb_bytes_spec s []) as [->|Hs].
  { exists []. split; [unfold Encode; destruct (mask =? EncodeRaw)%N; reflexivity |].
    assert (E : Decode mask [] = []) by (unfold Decode; destruct (mask =? EncodeRaw)%N; [reflexivity |]; destruct (Has mask EncodeDot); unfold decode_prefix; cbn [DecodeRune]; rewrite undo_special by (auto using lefts_incl); cbn [Z.eqb RuneError QuoteRune Pos.eqb]; rewrite suffix_nil; reflexivity).
    split; [| auto]. intros _ [_ [(a & c & e & _ & K)|(_ & [(K & _)|(K & _)])]]; [destruct a; discriminate | discriminate | discriminate]. }
  destruct (if Has mask EncodeDot then encode_dot s else None) as [e|] eqn:Edot.
  { assert (Hd : Has mask EncodeDot = true /\ encode_dot s = Some e) by (destruct (Has mask EncodeDot); [auto | easy]). destruct Hd as [Hd Es]. exists e.
    split; [unfold Encode; destruct (N.eqb_spec mask EncodeRaw); [easy |]; rewrite eqb_bytes_false, Edot by auto; reflexivity |]. rewrite (Decode_dots mask s e) by auto. split; [| reflexivity].
    intros _ [_ [(a & c & x & Hin & K)|(_ & [(-> & _)|(-> & _)])]]; [| discriminate Es | discriminate Es]. rewrite quoted_not_dot in Es; [discriminate |].
    destruct (EncodeRune_pair mask rights c x rights_incl Hin) as (_ & Hc & _). rewrite K, pieces_app, <- (app_nil_r (EncodeRune c)), !pieces_Encode by (auto using starts_Encode). apply in_or_app. right. now left. }
  assert (Hdot : Has mask EncodeDot = true -> encode_dot s = None) by (intros Hd; now rewrite Hd in Edot).
  destruct (Encode_core mask s Hraw Hs Hdot Hb) as (pre & prefix & mid & suf & suffix & Hp & ->). eexists. split; [reflexivity |]. split.
  - intros Hdec [_ [Hq|Ha]].
    + destruct (decode_core_after_quote mask s pre prefix mid suf suffix Hb Hp Hq) as (c & e & t & Hin & (a & Es) & Ecore). set (E := prefix ++ _) in *.
      assert (Hdd : Has mask EncodeDot = true -> decode_dot E = None).
      { intros Hd. destruct (decode_dot E) as [d|] eqn:Ed; [exfalso | reflexivity]. assert (K : Decode mask E = d) by (unfold Decode; destruct (N.eqb_spec mask EncodeRaw); [easy |]; now rewrite Hd, Ed).
        assert (Hds : encode_dot d <> None) by (unfold decode_dot in Ed; repeat match type of Ed with (if ?b then _ else _) = _ => destruct b; [injection Ed as <-; discriminate |] end; discriminate).
        apply Hds. rewrite <- K, Hdec. auto. }
      rewrite Decode_core, Ecore in Hdec by auto. destruct (EncodeRune_pair mask rights c e rights_incl Hin) as (_ & Hc & He). rewrite Es in Hdec.
      apply (f_equal (fun u => fst (DecodeLastRune u))) in Hdec. rewrite !DecodeLastRune_Encode in Hdec by auto. cbn [fst] in Hdec. apply pair_sides in Hin; auto using rights_incl. lia.
    + rewrite (encode_dot_ambiguous mask s pre prefix mid suf suffix Hp Ha) in Hdec. destruct Ha as (Hd & Ha). unfold Decode in Hdec. destruct (N.eqb_spec mask EncodeRaw); [easy |]. rewrite Hd in Hdec.
      change (decode_dot (stop ++ stop)) with (Some [46; 46]%N) in Hdec. destruct Ha as [(-> & _)|(-> & _)]; discriminate.
  - intros Ha. assert (Hq : ~ quote_before_end mask s) by (intros K; apply Ha; split; auto). assert (Hd : ~ dot_ambiguous mask s) by (intros K; apply Ha; split; auto).
    rewrite Decode_core; [now apply (decode_core_parted mask s pre prefix mid suf suffix) | exact Hraw |]. intros Hdot'. apply (decode_dot_none mask s pre prefix mid suf suffix); auto.
Qed.

(** ** What encoded names do not contain *)

Section Safe.
Variable mask : MultiEncoder.

Hint Resolve blocks_incl lefts_incl rights_incl : core.

Notation encode_pieces := (encode_pieces mask).
Notation active := (active mask).

Lemma in_bytes_of_runes rs b : Forall (fun r => ValidRune r = true) rs -> (b < 128)%N -> In b (bytes_of_runes rs) <-> In (Z.of_N b) rs.
Proof. apply runes_ascii. Qed.

(** The bytes below 128 of a name that is encoded *)
Lemma encode_pieces_in l b : wf_pieces l -> Forall is_byte (concat (map snd l)) -> (b < 128)%N -> In b (encode_pieces l) ->
  (exists r, In (Z.of_N b) (encode_runes mask r)) \/ hex_value b <> None.
Proof.
  intros Hwf Hb Hlt. induction Hwf as [|r l Hr Hwf IH|x l Hx HD Hwf IH]; intros Hin; [easy | |]; cbn [map concat snd] in Hb; apply Forall_app in Hb as [Hb1 Hb2].
  - change (r, EncodeRune r) with (rune_piece r) in Hin. rewrite encode_pieces_rune in Hin. apply in_app_or in Hin as [Hin|Hin]; [| auto]. left. exists r. apply in_bytes_of_runes; auto. now apply encode_runes_valid.
  - rewrite encode_pieces_cons in Hin. apply in_app_or in Hin as [Hin|Hin]; [| auto]. apply Forall_cons_iff in Hb1 as [Hb1 _]. cbn [encode_piece] in Hin. destruct (N.ltb_spec x 128); [lia |].
    destruct (Has mask EncodeInvalidUtf8).
    + rewrite concat_rune_pieces in Hin. destruct (hex_pair x Hb1) as (H1 & H2 & _). destruct (hex_digit_facts _ H1) as [D1 V1]. destruct (hex_digit_facts _ H2) as [D2 V2].
      apply in_bytes_of_runes in Hin; [| repeat constructor; (apply EncodeRune_byte; assumption) || reflexivity | exact Hlt].
      destruct Hin as [K|[K|[K|[]]]]; [unfold QuoteRune in K; lia | |]; right; [replace b with (hex_digit (x / 16)) by lia; now rewrite V1 | replace b with (hex_digit (x mod 16)) by lia; now rewrite V2].
    + cbn [map concat snd app] in Hin. destruct Hin as [<-|[]]. lia.
Qed.

(** A character that the mask replaces is not written. *)
Lemma encode_runes_not r c : c = 0 \/ (exists e, In (c, e) (active blocks)) -> ~ In c (encode_runes mask r).
Proof.
  intros Hc. assert (Hlt : c < 128) by (destruct Hc as [->|(e & He)]; [lia | apply pair_sides in He; auto; lia]). unfold encode_runes.
  destruct (Z.eqb_spec r 0) as [->|H0]; [intros [K|[]]; unfold symbolOffset in K; lia |].
  destruct (Z.eqb_spec r symbolOffset) as [->|_]; [intros [K|[K|[]]]; unfold symbolOffset, QuoteRune in *; lia |]. destruct (Z.eqb_spec r QuoteRune) as [->|_]; [intros [K|[K|[]]]; unfold QuoteRune in *; lia |]. cbn [orb].
  destruct (sub_runes_spec mask r) as [(e & He & ->)|[(x & Hx & ->)|(Hn & _ & ->)]].
  - intros [K|[]]. apply pair_sides in He; auto. lia.
  - intros [K|[K|[]]]; [unfold QuoteRune in K; lia |]. apply pair_sides in Hx; auto. lia.
  - intros [->|[]]. destruct Hc as [->|(e & He)]; [easy | now apply Hn in He].
Qed.

Lemma ended_high bs x y b : incl bs (blocks ++ lefts ++ rights) -> ended mask bs x y -> In b y -> (128 <= b)%N.
Proof.
  intros Hbs He Hin. destruct (N.lt_ge_cases b 128) as [Hb|Hb]; [exfalso | exact Hb]. revert Hin.
  destruct He as [c e Hp|c e Hp]; destruct (EncodeRune_pair mask bs c e Hbs Hp) as (_ & _ & Hv); apply pair_sides in Hp; auto; unfold quoted; rewrite ?in_app_iff, !EncodeRune_ascii by auto; unfold QuoteRune; lia.
Qed.

Lemma encode_pieces_not_nil s : Forall is_byte s -> s <> [] -> encode_pieces (pieces s) <> [].
Proof.
  intros Hb Hs K. destruct (pieces_wf s) as [Hwf Es]. assert (D := decode_encode_pieces mask _ Hwf). rewrite K, Es in D. apply Hs. symmetry. now apply D.
Qed.

(** The first rune and the last byte that are written *)
Lemma parted_first s pre prefix mid suf suffix c e t : s <> [] -> Forall is_byte s -> parted mask s pre prefix mid suf suffix -> In (c, e) (active lefts) ->
  prefix ++ encode_pieces (pieces mid) ++ suffix <> Z.to_N c :: t.
Proof.
  intros Hs Hb Hp Hin E. assert (Hc := pair_sides mask _ _ _ lefts_incl Hin). assert (Hpf := active_all mask _ _ lefts_incl Hin). apply pair_facts in Hpf as (Hpos & _).
  destruct (parted_starts _ _ _ _ _ _ _ Hp) as [Hst1 Hst2]. destruct Hp as [Es Hpre Hsuf].
  assert (Hhigh : forall bs x y, incl bs (blocks ++ lefts ++ rights) -> ended mask bs x y -> forall u, y ++ u = Z.to_N c :: t -> False).
  { intros bs x y Hbs He u K. assert (Hy := ended_not_nil _ _ _ _ He). destruct y as [|b y]; [easy |]. injection K as -> _. assert (128 <= Z.to_N c)%N by (apply (ended_high bs x (Z.to_N c :: y)); auto; now left). lia. }
  destruct Hpre as [(-> & -> & Hu)|He]; [| now apply (Hhigh lefts pre prefix lefts_incl He _ E)]. cbn [app] in *. destruct mid as [|m mid'].
  - cbn [app] in *. destruct Hsuf as [(_ & -> & _)|He]; [easy |]. apply (Hhigh rights suf suffix rights_incl He []). now rewrite app_nil_r.
  - set (mid := m :: mid') in *. destruct (pieces_wf mid) as [Hwf Em]. rewrite Es, DecodeRune_app in Hu by easy. assert (Hbm : Forall is_byte mid) by (rewrite Es in Hb; now apply Forall_app in Hb).
    rewrite (pieces_step mid) in * by easy. destruct (DecodeRune mid) as [r w]. cbn [fst] in Hu. destruct (first_encoded mask (r, firstn w mid) (pieces (skipn w mid)) suffix Hwf ltac:(now rewrite Em) Hst2 Hu) as (z & u & Hz & [[K _]|[K _]]); rewrite E in K.
    + unfold quoted in K. rewrite <- app_assoc in K. assert (F := first_rune (Z.to_N c) t). rewrite K in F. rewrite DecodeRune_Encode in F by reflexivity. cbn [fst] in F. unfold QuoteRune in F. lia.
    + assert (F := first_rune (Z.to_N c) t). rewrite K in F. destruct F as [[_ F]|[F _]]; [| lia]. apply Hz in Hin. lia.
Qed.

Lemma parted_last s pre prefix mid suf suffix c e t : s <> [] -> Forall is_byte s -> parted mask s pre prefix mid suf suffix -> In (c, e) (active rights) ->
  prefix ++ encode_pieces (pieces mid) ++ suffix <> t ++ [Z.to_N c].
Proof.
  intros Hs Hb Hp Hin E. assert (Hc := pair_sides mask _ _ _ rights_incl Hin). assert (Hpf := active_all mask _ _ rights_incl Hin). apply pair_facts in Hpf as (Hpos & _). destruct Hp as [Es Hpre Hsuf].
  assert (Hhigh : forall bs x y, incl bs (blocks ++ lefts ++ rights) -> ended mask bs x y -> forall u, u ++ y = t ++ [Z.to_N c] -> False).
  { intros bs x y Hbs He u K. assert (Hy := ended_not_nil _ _ _ _ He). destruct (exists_last (l := y)) as (y' & b & ->); [easy |]. rewrite app_assoc in K. apply app_inj_tail in K as [_ ->].
    assert (128 <= Z.to_N c)%N by (apply (ended_high bs x (y' ++ [Z.to_N c])); auto; apply in_or_app; right; now left). lia. }
  destruct Hsuf as [(-> & -> & Hmid)|He]; [| rewrite app_assoc in E; now apply (Hhigh rights suf suffix rights_incl He _ E)]. rewrite !app_nil_r in *. destruct mid as [|m mid'].
  - change (encode_pieces (pieces [])) with (@nil N) in E. rewrite !app_nil_r in *. destruct Hpre as [(_ & -> & _)|He]; [easy |]. now apply (Hhigh lefts pre prefix lefts_incl He []).
  - set (mid := m :: mid') in *. destruct Hmid as [|Hu]; [easy |]. assert (Hbm : Forall is_byte mid) by (rewrite Es in Hb; now apply Forall_app in Hb).
    destruct (last_encoded mask mid rights rights_incl Hbm ltac:(easy) Hu) as [Hz _]. destruct (exists_last (encode_pieces_not_nil mid Hbm ltac:(easy))) as (M & b & EM). rewrite EM in *. rewrite app_assoc in E. apply app_inj_tail in E as [_ ->].
    assert (F := last_rune M (Z.to_N c)). destruct F as [[_ F]|[F _]]; [| lia]. apply Hz in Hin. lia.
Qed.

(** *** UTF-8 *)

Lemma ValidString_rune r t : ValidRune r = true -> ValidString t = true -> ValidString (EncodeRune r ++ t) = true.
Proof.
  assert (Hfuel : forall f1 f2 s, (length s <= f1)%nat -> (length s <= f2)%nat -> valid_loop f1 s = valid_loop f2 s).
  { induction f1 as [|f1 IH]; intros f2 s H1 H2; [destruct s; [now destruct f2 | cbn in H1; lia] |]. destruct s as [|c s]; [now destruct f2 |]. destruct f2 as [|f2]; [cbn in H2; lia |].
    cbn [valid_loop]. assert (Hw := DecodeRune_width (c :: s) ltac:(easy)). destruct (DecodeRune (c :: s)) as [x w]. cbn [snd] in Hw. f_equal. assert (Hl := length_skipn w (c :: s)). cbn [length] in *. apply IH; lia. }
  intros Hr Ht. assert (Hl := EncodeRune_length r). unfold ValidString in *. rewrite (Hfuel _ (S (length (EncodeRune r ++ t)))) by lia. cbn [valid_loop].
  destruct (EncodeRune r ++ t) eqn:E; [reflexivity |]. rewrite <- E, DecodeRune_Encode by auto. apply andb_true_iff. split.
  - apply negb_true_iff, andb_false_iff. destruct (Z.eqb_spec r RuneError) as [->|]; [right; reflexivity | now left].
  - rewrite skipn_app, skipn_all, Nat.sub_diag. cbn [app]. change (skipn 0 t) with t. rewrite <- Ht. apply Hfuel; rewrite ?length_app; lia.
Qed.

Lemma ValidString_runes_app rs t : Forall (fun r => ValidRune r = true) rs -> ValidString t = true -> ValidString (bytes_of_runes rs ++ t) = true.
Proof. induction 1 as [|r rs Hr _ IH]; intros Ht; [exact Ht |]. unfold bytes_of_runes in *. cbn [map concat]. rewrite <- app_assoc. apply ValidString_rune; auto. Qed.

Lemma encode_pieces_valid l t : Has mask EncodeInvalidUtf8 = true -> wf_pieces l -> Forall is_byte (concat (map snd l)) -> ValidString t = true -> ValidString (encode_pieces l ++ t) = true.
Proof.
  intros Hi Hwf. induction Hwf as [|r l Hr Hwf IH|x l Hx HD Hwf IH]; intros Hb Ht; [exact Ht | |]; cbn [map concat snd] in Hb; apply Forall_app in Hb as [Hb1 Hb2].
  - change (r, EncodeRune r) with (rune_piece r). rewrite encode_pieces_rune, <- app_assoc. apply ValidString_runes_app; [now apply encode_runes_valid | auto].
  - rewrite encode_pieces_cons, <- app_assoc. apply Forall_cons_iff in Hb1 as [Hb1 _]. cbn [encode_piece]. destruct (N.ltb_spec x 128); [lia |]. rewrite Hi, concat_rune_pieces.
    destruct (hex_pair x Hb1) as (H1 & H2 & _). apply ValidString_runes_app; [| auto]. repeat constructor; (apply EncodeRune_byte; now apply hex_digit_facts) || reflexivity.
Qed.

Lemma ended_valid bs x y t : incl bs (blocks ++ lefts ++ rights) -> ended mask bs x y -> ValidString t = true -> ValidString (y ++ t) = true.
Proof.
  intros Hbs He Ht. destruct He as [c e Hp|c e Hp]; destruct (EncodeRune_pair mask bs c e Hbs Hp) as (_ & _ & Hv); unfold quoted; rewrite <- ?app_assoc; repeat apply ValidString_rune; auto.
Qed.

(** A text that has only dots is written for itself. *)
Lemma parted_dots n s pre prefix mid suf suffix : Forall is_byte s -> parted mask s pre prefix mid suf suffix -> prefix ++ encode_pieces (pieces mid) ++ suffix = repeat 46%N n -> s = repeat 46%N n.
Proof.
  intros Hb [Es Hpre Hsuf] E. assert (Hlow : forall b, In b (prefix ++ encode_pieces (pieces mid) ++ suffix) -> b = 46%N) by (intros b; rewrite E; apply repeat_spec).
  assert (Hno : forall bs x y, incl bs (blocks ++ lefts ++ rights) -> ended mask bs x y -> (forall b, In b y -> b = 46%N) -> False).
  { intros bs x y Hbs He Hy. assert (Hn := ended_not_nil _ _ _ _ He). destruct y as [|b y]; [easy |]. assert (128 <= b)%N by (apply (ended_high bs x (b :: y)); auto; now left). rewrite (Hy b) in * by now left. lia. }
  destruct Hpre as [(-> & -> & _)|He]; [| exfalso; apply (Hno _ _ _ lefts_incl He); intros b Hin; apply Hlow, in_or_app; auto].
  destruct Hsuf as [(-> & -> & _)|He]; [| exfalso; apply (Hno _ _ _ rights_incl He); intros b Hin; apply Hlow, in_or_app; right; apply in_or_app; auto].
  cbn [app] in *. rewrite app_nil_r in *. subst s. destruct (pieces_wf mid) as [Hwf Em]. assert (D := decode_encode_pieces mask _ Hwf). rewrite E, Em in D. rewrite <- D by auto. clear.
  induction n as [|n IH]; [reflexivity |]. cbn [repeat]. change (46%N :: repeat 46%N n) with (EncodeRune 46 ++ repeat 46%N n) at 1. rewrite decode_run_rune by reflexivity.
  change (46 =? symbolOffset) with false. change (46 =? QuoteRune) with false. rewrite undo_plain by (auto; lia). cbv iota. now rewrite IH.
Qed.
End Safe.

(** C17: what [Encode] writes is a name for the remote: it has no zero byte, none of the
    characters that the mask replaces anywhere, at the start or at the end, is not "."
    or ".." and is UTF-8 if the mask says so; and only the empty name is empty. *)
Theorem Encode_safe mask s : mask <> EncodeRaw -> Forall is_byte s -> exists e, Encode mask s = Ret e /\ ~ In 0%N e /\
  (forall c x, In (c, x) (active mask blocks) -> ~ In (Z.to_N c) e) /\
  (forall c x t, In (c, x) (active mask lefts) -> e <> Z.to_N c :: t) /\
  (forall c x t, In (c, x) (active mask rights) -> e <> t ++ [Z.to_N c]) /\
  (Has mask EncodeDot = true -> e <> [46%N] /\ e <> [46; 46]%N) /\
  (Has mask EncodeInvalidUtf8 = true -> ValidString e = true) /\ (e = [] <-> s = []).
Proof.
  intros Hraw Hb. destruct (eqb_bytes_spec s []) as [->|Hs].
  { exists []. splits; try easy; [unfold Encode; destruct (mask =? EncodeRaw)%N; reflexivity | intros c x t _ K; now destruct t]. }
  destruct (if Has mask EncodeDot then encode_dot s else None) as [e|] eqn:Edot.
  { assert (Hd : Has mask EncodeDot = true /\ encode_dot s = Some e) by (destruct (Has mask EncodeDot); [auto | easy]). destruct Hd as [Hd Es]. exists e.
    split; [unfold Encode; destruct (N.eqb_spec mask EncodeRaw); [easy |]; rewrite eqb_bytes_false, Edot by auto; reflexivity |].
    assert (He : e <> [] /\ Forall (fun b => 128 <= b)%N e /\ ValidString e = true).
    { unfold encode_dot in Es. repeat match type of Es with (if ?b then _ else _) = _ => destruct b; [injection Es as <-; split; [discriminate |]; split; [repeat constructor; discriminate | reflexivity] |] end. discriminate. }
    destruct He as (Hne & Hall & Hv). rewrite Forall_forall in Hall. assert (Hlow : forall b, (b < 128)%N -> ~ In b e) by (intros b Hb128 Hin; apply Hall in Hin; lia).
    assert (Hpair : forall bs c x, incl bs (blocks ++ lefts ++ rights) -> In (c, x) (active mask bs) -> (Z.to_N c < 128)%N) by (intros bs c x Hbs Hin; apply (active_all mask bs), pair_facts in Hin as (Hc & _); auto; lia).
    splits; auto; try easy.
    - apply Hlow. lia.
    - intros c x Hin. apply Hlow, (Hpair blocks c x); auto using blocks_incl.
    - intros c x t Hin ->. apply (Hlow (Z.to_N c)); [apply (Hpair lefts c x); auto using lefts_incl | now left].
    - intros c x t Hin ->. apply (Hlow (Z.to_N c)); [apply (Hpair rights c x); auto using rights_incl | apply in_or_app; right; now left].
    - intros _. split; intros ->; apply (Hlow 46%N); try lia; now left. }
  assert (Hdot : Has mask EncodeDot = true -> encode_dot s = None) by (intros Hd; now rewrite Hd in Edot).
  destruct (Encode_core mask s Hraw Hs Hdot Hb) as (pre & prefix & mid & suf & suffix & Hp & ->). eexists. split; [reflexivity |]. assert (Es := p_parts _ _ _ _ _ _ _ Hp).
  assert (Hbm : Forall is_byte mid) by (rewrite Es in Hb; apply Forall_app in Hb as [_ Hb]; now apply Forall_app in Hb). destruct (pieces_wf mid) as [Hwf Em]. assert (Hbm' := Hbm). rewrite <- Em in Hbm'.
  assert (Hin : forall b, (b < 128)%N -> In b (prefix ++ encode_pieces mask (pieces mid) ++ suffix) -> In b (encode_pieces mask (pieces mid))).
  { intros b Hlt Hin. destruct Hp as [_ Hpre Hsuf]. apply in_app_or in Hin as [Hin|Hin]; [| apply in_app_or in Hin as [Hin|Hin]; [exact Hin |]].
    - destruct Hpre as [(-> & _)|He]; [easy |]. apply (ended_high mask lefts pre prefix b lefts_incl He) in Hin. lia.
    - destruct Hsuf as [(-> & _)|He]; [easy |]. apply (ended_high mask rights suf suffix b rights_incl He) in Hin. lia. }
  splits.
  - intros K. apply Hin, encode_pieces_in in K; auto; [| lia | lia]. destruct K as [(r & K)|K]; [| now apply K]. apply encode_runes_not in K; auto.
  - intros c x Hcx K. assert (Hpf := active_all mask _ _ blocks_incl Hcx). assert (Hc := pair_facts _ _ Hpf). assert (Hh := no_hex_pairs). rewrite forallb_forall in Hh. specialize (Hh _ Hpf). cbn in Hh.
    apply Hin, encode_pieces_in in K; auto; [| lia | lia]. rewrite Z2N.id in K by lia. destruct K as [(r & K)|K]; [apply encode_runes_not in K; eauto | now destruct (hex_value (Z.to_N c))].
  - intros c x t Hcx. now apply (parted_first mask s pre prefix mid suf suffix c x t).
  - intros c x t Hcx. now apply (parted_last mask s pre prefix mid suf suffix c x t).
  - intros Hd. specialize (Hdot Hd). split; intros K; [apply (parted_dots mask 1 s) in Hp | apply (parted_dots mask 2 s) in Hp]; auto; subst s; discriminate.
  - intros Hi. destruct Hp as [_ Hpre Hsuf]. assert (Hv : ValidString suffix = true) by (destruct Hsuf as [(-> & _)|He]; [reflexivity | rewrite <- (app_nil_r suffix); now apply (ended_valid mask rights suf suffix [] rights_incl He)]).
    destruct Hpre as [(-> & _)|He]; [| apply (ended_valid mask lefts pre prefix _ lefts_incl He)]; apply encode_pieces_valid; auto.
  - split; [| easy]. intros K. apply app_eq_nil in K as [-> K]. apply app_eq_nil in K as [K ->]. destruct Hp as [_ Hpre Hsuf].
    destruct Hpre as [(_ & -> & _)|He]; [| apply ended_not_nil in He; easy]. destruct Hsuf as [(_ & -> & _)|He]; [| apply ended_not_nil in He; easy].
    cbn [app] in Es. rewrite app_nil_r in Es. destruct mid as [|m mid']; [easy |]. exfalso. apply (encode_pieces_not_nil mask (m :: mid')) in K; easy.
Qed.

(** ** Paths *)

(** The encoding of rclone replaces nothing at the ends only. *)
Lemma Standard_never_ambiguous s : ~ ambiguous Standard s.
Proof. intros [_ [(a & c & e & Hin & _)|(_ & [(_ & K & _)|(_ & _ & K)])]]; [destruct Hin | discriminate K | discriminate K]. Qed.

Lemma slash_free mask s e : Has mask EncodeSlash = true -> Forall is_byte s -> Encode mask s = Ret e -> ~ In 47%N e.
Proof.
  intros Hm Hb E. assert (Hraw : mask <> EncodeRaw) by (intros ->; discriminate). destruct (Encode_safe mask s Hraw Hb) as (e' & E' & _ & Hno & _). rewrite E in E'. injection E' as <-.
  apply (Hno 47 (47 + fullOffset)). apply in_flat_map. exists {| b_flag := EncodeSlash; b_pairs := full [47] |}. split; [do 12 right; left; reflexivity |]. cbn [b_flag b_pairs]. rewrite Hm. now left.
Qed.

Lemma Encode_returns mask s : Forall is_byte s -> exists e, Encode mask s = Ret e /\ (~ ambiguous mask s -> Decode mask e = s).
Proof. intros Hb. destruct (Decode_Encode mask s Hb) as (e & E & Hiff). exists e. split; [exact E | apply Hiff]. Qed.

(** The loop over the parts of a path *)
Lemma convert_path_parts name ps es : ps <> [] -> (forall p, In p ps -> ~ In 47%N p) -> mapM name ps = Ret es -> convert_path name (Join 47 ps) = Ret (Join 47 es).
Proof.
  intros Hne Hps E. unfold convert_path. rewrite Split_Join, E by auto. cbn [bind]. destruct (existsb _ _) eqn:Ex; [reflexivity |]. cbn [negb]. do 2 f_equal.
  assert (Hl : length ps = length es) by (clear - E; revert es E; induction ps as [|p ps IH]; cbn [mapM]; intros es E; [injection E as <-; reflexivity |]; destruct (name p); cbn [bind] in E; try discriminate; destruct (mapM name ps); cbn [bind] in E; try discriminate; injection E as <-; cbn; f_equal; now apply IH).
  clear - Ex Hl. revert es Ex Hl. induction ps as [|p ps IH]; intros [|e es] Ex Hl; try discriminate; [reflexivity |]. cbn [combine existsb] in Ex. apply orb_false_iff in Ex as [E1 E2].
  destruct (eqb_bytes_spec e p) as [->|]; [| discriminate]. f_equal. apply IH; [exact E2 | now injection Hl].
Qed.

Lemma mapM_all {A B} (f : A -> outcome Empty_set B) (P : A -> B -> Prop) l : (forall x, In x l -> exists y, f x = Ret y /\ P x y) -> exists ys, mapM f l = Ret ys /\ Forall2 P l ys.
Proof.
  induction l as [|x l IH]; intros H; [exists []; split; [reflexivity | constructor] |]. destruct (H x) as (y & Ey & Hy); [now left |]. destruct IH as (ys & Eys & Hys); [intros z Hz; apply H; now right |].
  exists (y :: ys). cbn [mapM]. rewrite Ey. cbn [bind]. rewrite Eys. cbn [bind]. split; [reflexivity | now constructor].
Qed.

Lemma Forall2_right {A B} (P : A -> B -> Prop) (Q : B -> Prop) l ys : (forall x y, P x y -> Q y) -> Forall2 P l ys -> forall y, In y ys -> Q y.
Proof. intros HPQ. induction 1 as [|x y l ys Hxy _ IH]; intros z Hz; [easy |]. destruct Hz as [<-|Hz]; eauto. Qed.

Lemma mapM_Forall2 {A B} (f : A -> outcome Empty_set B) l ys : Forall2 (fun x y => f x = Ret y) l ys -> mapM f l = Ret ys.
Proof. induction 1 as [|x y l ys E _ IH]; [reflexivity |]. cbn [mapM]. rewrite E. cbn [bind]. now rewrite IH. Qed.

(** C18: a path inside rclone is converted to the encoding of a remote and back: the
    names of a path that are not ambiguous there come back. *)
Theorem Standard_path_round_trip mask names : Has mask EncodeSlash = true -> names <> [] -> Forall (Forall is_byte) names -> Forall (fun n => ~ ambiguous mask n) names ->
  exists ps q, mapM (Encode Standard) names = Ret ps /\ FromStandardPath (Multi mask) (Join 47 ps) = Ret q /\ ToStandardPath (Multi mask) q = Ret (Join 47 ps) /\ Split 47 (Join 47 ps) = ps.
Proof.
  intros Hm Hne Hb Hamb. rewrite Forall_forall in Hb, Hamb.
  destruct (mapM_all (Encode Standard) (fun n p => Encode Standard n = Ret p /\ Decode Standard p = n /\ ~ In 47%N p) names) as (ps & Eps & Hps).
  { intros n Hn. destruct (Encode_returns Standard n (Hb n Hn)) as (p & Ep & Hd). exists p. splits; auto; [apply Hd, Standard_never_ambiguous | exact (slash_free Standard n p eq_refl (Hb n Hn) Ep)]. }
  destruct (mapM_all (Encode mask) (fun n e => Encode mask n = Ret e /\ Decode mask e = n /\ ~ In 47%N e) names) as (es & Ees & Hes).
  { intros n Hn. destruct (Encode_returns mask n (Hb n Hn)) as (e & Ee & Hd). exists e. splits; auto. exact (slash_free mask n e Hm (Hb n Hn) Ee). }
  assert (Hfrom : Forall2 (fun p e => FromStandardName (Multi mask) p = Ret e) ps es /\ Forall2 (fun e p => ToStandardName (Multi mask) e = Ret p) es ps).
  { unfold FromStandardName, ToStandardName. cbn [is_Standard encoder_Encode encoder_Decode]. clear - Hps Hes. revert es Hes. induction Hps as [|n p names ps (E1 & E2 & _) _ IH]; intros es Hes; inversion Hes as [|n' e names' es' (E3 & E4 & _) Hes' E5 E6]; subst; [split; constructor |].
    destruct (IH es' Hes') as [IH1 IH2]. destruct (N.eqb_spec mask Standard) as [->|_]; (split; constructor; auto); congruence. }
  destruct Hfrom as [Hfrom Hto]. assert (Hpn : forall p, In p ps -> ~ In 47%N p) by (apply (Forall2_right _ _ _ _ (fun x y H => proj2 (proj2 H)) Hps)).
  assert (Hen : forall e, In e es -> ~ In 47%N e) by (apply (Forall2_right _ _ _ _ (fun x y H => proj2 (proj2 H)) Hes)).
  assert (Hpne : ps <> []) by (intros ->; inversion Hps; subst; easy). assert (Hene : es <> []) by (intros ->; inversion Hes; subst; easy).
  exists ps. assert (Hstd : is_Standard (Multi mask) = true -> exists q, Ret (E := Empty_set) (Join 47 ps) = Ret q /\ Ret (E := Empty_set) q = Ret (Join 47 ps)) by eauto.
  unfold FromStandardPath, ToStandardPath. destruct (is_Standard (Multi mask)).
  - exists (Join 47 ps). splits; auto. now apply Split_Join.
  - exists (Join 47 es). splits; auto; [apply convert_path_parts; auto; now apply mapM_Forall2 | apply convert_path_parts; auto; now apply mapM_Forall2 | now apply Split_Join].
Qed.

(** ** Masks as text *)

Lemma aliases_parse : forallb (fun '(name, m) => match Set_mask name with Some m' => (m' =? m)%N | None => false end) aliases = true.
Proof. vm_compute. reflexivity. Qed.

(** The names of the bits are read back, and have no comma. *)
Definition bit_ok (b : MultiEncoder) : bool :=
  negb (existsb (N.eqb 44) (bit_name b)) && match set_parts 0%N [bit_name b] with Some m => (m =? b)%N | None => false end.

Lemma bits_parse : forallb bit_ok (map (fun i => bit (N.of_nat i)) (seq 0 64)) = true.
Proof. vm_compute. reflexivity. Qed.

Lemma set_parts_bits bs : forall out, Forall (fun b => bit_ok b = true) bs -> set_parts out (map bit_name bs) = Some (fold_left N.lor bs out).
Proof.
  induction bs as [|b bs IH]; intros out H; [reflexivity |]. apply Forall_cons_iff in H as [Hb H]. unfold bit_ok in Hb. apply andb_true_iff in Hb as [_ Hb]. cbn [map set_parts fold_left] in *.
  destruct (nameToEncoding (TrimSpace (bit_name b))) as [m|]; [| destruct (ParseUint0 (TrimSpace (bit_name b))) as [m|]; [| discriminate]]; apply N.eqb_eq in Hb; rewrite N.lor_0_l in Hb; subst m; now apply IH.
Qed.

Lemma fold_lor_testbit bs : forall out i, N.testbit (fold_left N.lor bs out) i = N.testbit out i || existsb (fun b => N.testbit b i) bs.
Proof. induction bs as [|b bs IH]; intros out i; cbn [fold_left existsb]; [now rewrite orb_false_r |]. now rewrite IH, N.lor_spec, orb_assoc. Qed.

Lemma bit_testbit n i : N.testbit (bit n) i = (n =? i)%N.
Proof. unfold bit. rewrite N.shiftl_1_l. apply N.pow2_bits_eqb. Qed.

Lemma Has_bit mask n : Has mask (bit n) = N.testbit mask n.
Proof.
  unfold Has. destruct (N.testbit mask n) eqn:E; [apply negb_true_iff, N.eqb_neq | apply negb_false_iff, N.eqb_eq].
  - intros K. assert (T := f_equal (fun x => N.testbit x n) K). cbn beta in T. now rewrite N.land_spec, E, bit_testbit, N.eqb_refl, N.bits_0 in T.
  - apply N.bits_inj. intros i. rewrite N.land_spec, bit_testbit, N.bits_0. destruct (N.eqb_spec n i) as [<-|]; [now rewrite E | apply andb_false_r].
Qed.

(** [Set] reads what [String] writes, for every mask of 64 bits. *)
Theorem Set_String mask : (mask < 2 ^ 64)%N -> Set_mask (MultiEncoder_String mask) = Some mask.
Proof.
  intros Hm. unfold MultiEncoder_String. destruct (encodingToName mask) as [name|] eqn:En.
  - unfold encodingToName in En. match type of En with context [find ?f aliases] => destruct (find f aliases) as [[n m]|] eqn:Ef; [| discriminate] end. injection En as ->. apply find_some in Ef as [Hin Em]. cbn [snd] in Em. apply N.eqb_eq in Em as ->.
    assert (H := aliases_parse). rewrite forallb_forall in H. specialize (H _ Hin). cbn in H. destruct (Set_mask name) as [m'|]; [apply N.eqb_eq in H as ->; reflexivity | discriminate].
  - set (all := map (fun i => bit (N.of_nat i)) (seq 0 64)). set (bs := filter (fun b => Has mask b) all).
    assert (Hok : Forall (fun b => bit_ok b = true) bs) by (apply Forall_forall; intros b Hb; apply filter_In in Hb as [Hb _]; assert (H := bits_parse); rewrite forallb_forall in H; now apply H).
    assert (Hall : forall i, (i < 64)%N -> In (bit i) all) by (intros i Hi; apply in_map_iff; exists (N.to_nat i); split; [now rewrite N2Nat.id | apply in_seq; lia]).
    assert (Hfold : fold_left N.lor bs 0%N = mask).
    { apply N.bits_inj. intros i. rewrite fold_lor_testbit, N.bits_0. cbn [orb]. destruct (N.testbit mask i) eqn:Ei.
      - apply existsb_exists. exists (bit i). rewrite bit_testbit, N.eqb_refl. split; [| reflexivity]. apply filter_In. rewrite Has_bit. split; [apply Hall | exact Ei].
        destruct (N.lt_ge_cases i 64) as [|Hge]; [assumption | exfalso]. rewrite N.bits_above_log2 in Ei; [discriminate |]. destruct (N.eq_dec mask 0) as [->|Hz]; [discriminate |]. apply N.log2_lt_pow2 in Hm; lia.
      - apply not_true_iff_false. intros K. apply existsb_exists in K as (b & Hb & Hbi). apply filter_In in Hb as [Hb Hh]. apply in_map_iff in Hb as (j & <- & _). rewrite Has_bit in Hh. rewrite bit_testbit in Hbi. apply N.eqb_eq in Hbi. congruence. }
    unfold Set_mask. rewrite Split_Join.
    + rewrite set_parts_bits by auto. now rewrite Hfold.
    + intros K. apply map_eq_nil in K. rewrite K in Hfold. cbn in Hfold. subst mask. discriminate En.
    + intros f Hf. apply in_map_iff in Hf as (b & <- & Hb). rewrite Forall_forall in Hok. specialize (Hok b Hb). unfold bit_ok in Hok. apply andb_true_iff in Hok as [Hok _]. apply negb_true_iff in Hok.
      intros K. apply not_true_iff_false in Hok. apply Hok, existsb_exists. exists 44%N. auto.
Qed.

(** ** Witnesses *)

Lemma Set_String_witness : Set_mask (MultiEncoder_String Windows) = Some Windows.
Proof. apply (Set_String Windows). vm_compute. reflexivity. Defined.

(** A name without a quote in it is not ambiguous, if it is none of two names. *)
Lemma unquoted_not_ambiguous mask s : ~ In 226%N s -> s <> [46%N] ++ stop -> s <> stop ++ [46%N] -> ~ ambiguous mask s.
Proof.
  intros Hq H1 H2 [_ [(a & c & e & _ & K)|(_ & [(K & _)|(K & _)])]]; [| easy | easy]. apply Hq. rewrite K. apply in_or_app. right. left. reflexivity.
Qed.

Ltac plain_name := apply unquoted_not_ambiguous; [vm_compute; intuition discriminate | discriminate | discriminate].

Lemma Decode_Encode_witness : exists e, Encode Windows (bytes_of "a:b. ") = Ret e /\ Decode Windows e = bytes_of "a:b. ".
Proof.
  destruct (Decode_Encode Windows (bytes_of "a:b. ")) as (e & E & Hd); [repeat constructor |]. exists e. split; [exact E |]. apply Hd. plain_name.
Defined.

Lemma Encode_safe_witness : exists e, Encode Windows (bytes_of "a:b. ") = Ret e /\ ~ In 58%N e.
Proof.
  destruct (Encode_safe Windows (bytes_of "a:b. ")) as (e & E & _ & Hno & _); [discriminate | repeat constructor |]. exists e. split; [exact E |].
  apply (Hno 58 (58 + fullOffset)). vm_compute. tauto.
Defined.

Lemma Standard_path_round_trip_witness : exists ps q, mapM (Encode Standard) [bytes_of "a:b"; bytes_of "c."] = Ret ps /\ FromStandardPath (Multi Windows) (Join 47 ps) = Ret q /\
  ToStandardPath (Multi Windows) q = Ret (Join 47 ps).
Proof.
  destruct (Standard_path_round_trip Windows [bytes_of "a:b"; bytes_of "c."]) as (ps & q & H1 & H2 & H3 & _); [reflexivity | discriminate | repeat constructor | repeat (constructor; [plain_name |]); constructor | eauto].
Defined.
