(* ===== verification/March.v ===== *)
(** * Marching through two directories (src/fs/march/march.go)

    [matchListings] sorts two listings by the names that [transforms] makes and merges
    them: entries on one side only, and pairs.  [processJob] lists a directory on both
    sides, calls back for every entry and says which directories are next; the
    goroutines of [Run] process jobs in any order.  The entries and their order are as
    in src/fs/direntries.go. *)
From Stdlib Require Import String.
From Stdlib Require Import List Arith NArith ZArith Lia Bool Permutation.
From S2P Require Import Prelude GoStrings GoPath.
Import ListNotations.
Local Open Scope list_scope.
Local Open Scope go_scope.

(** ** Strings in the order of their bytes *)

Fixpoint compare_bytes (a b : list N) : comparison :=
  match a, b with
  | [], [] => Eq
  | [], _ :: _ => Lt
  | _ :: _, [] => Gt
  | x :: a, y :: b => match (x ?= y)%N with Eq => compare_bytes a b | c => c end
  end.

Definition less_bytes (a b : list N) : bool := match compare_bytes a b with Lt => true | _ => false end.

(** ** Entries of directories *)

Class DirEntry (E : Type) : Type := { Remote : E -> list N; is_directory : E -> bool }.

Section March.
Context {E : Type} `{DirEntry E}.

Definition DirEntryType (d : E) : list N := if is_directory d then bytes_of "directory" else bytes_of "object".

Definition CompareDirEntries (a b : E) : Z :=
  let aName := Remote a in
  let bName := Remote b in
  if less_bytes bName aName then 1
  else if less_bytes aName bName then -1
  else
    let typeA := DirEntryType a in
    let typeB := DirEntryType b in
    if less_bytes typeB typeA then 1 else if less_bytes typeA typeB then -1 else 0.

(** ** Matching two listings *)

Record matchEntry : Type := { entry : E; leaf : list N; name : list N }.

Definition Less (ei ej : matchEntry) : bool :=
  if eqb_bytes (name ei) (name ej) then
    if eqb_bytes (leaf ei) (leaf ej) then (CompareDirEntries (entry ei) (entry ej) <? 0)%Z else less_bytes (leaf ei) (leaf ej)
  else less_bytes (name ei) (name ej).

(** [sort.Stable]: an entry goes before those that are not less. *)
Fixpoint insert_entry (e : matchEntry) (l : list matchEntry) : list matchEntry :=
  match l with
  | [] => [e]
  | x :: t => if Less x e then x :: insert_entry e t else e :: l
  end.

Definition sort_entries (es : list matchEntry) : list matchEntry := fold_right insert_entry [] es.

Definition newMatchEntry (transforms : list (list N -> list N)) (e : E) : matchEntry :=
  let leaf := path_Base (Remote e) in
  {| entry := e; leaf := leaf; name := fold_left (fun name transform => transform name) transforms leaf |}.

Definition newMatchEntries (entries : list E) (transforms : list (list N -> list N)) : list matchEntry :=
  sort_entries (map (newMatchEntry transforms) entries).

(** The results of [matchListings] *)
Record listings : Type := { srcOnly : list E; dstOnly : list E; matches : list (E * E) }.

Definition no_listings : listings := {| srcOnly := []; dstOnly := []; matches := [] |}.

Definition add_src (s : E) (r : listings) : listings := {| srcOnly := srcOnly r ++ [s]; dstOnly := dstOnly r; matches := matches r |}.
Definition add_dst (d : E) (r : listings) : listings := {| srcOnly := srcOnly r; dstOnly := dstOnly r ++ [d]; matches := matches r |}.
Definition add_match (s d : E) (r : listings) : listings := {| srcOnly := srcOnly r; dstOnly := dstOnly r; matches := matches r ++ [(s, d)] |}.

(** An entry and the one before it in its list *)
Inductive check : Type := Duplicate | OutOfOrder | Fine.

Definition check_prev (es : list matchEntry) (i : nat) (e : matchEntry) : outcome Empty_set check :=
  if (0 <? i)%nat then
    prev <- idx es (i - 1) ;;
    if eqb_bytes (name e) (name prev) && eqb_bytes (DirEntryType (entry prev)) (DirEntryType (entry e)) then Ret Duplicate
    else if less_bytes (name e) (name prev) then Ret OutOfOrder
    else Ret Fine
  else Ret Fine.

Definition check_entry (es : list matchEntry) (i : nat) (e : option matchEntry) : outcome Empty_set check :=
  match e with Some e => check_prev es i e | None => Ret Fine end.

(** The loop at the indices [iSrc] and [iDst]; an index that is lowered in the turn is
    kept for the next one. *)
Fixpoint match_loop (fuel : nat) (srcList dstList : list matchEntry) (iSrc iDst : nat) (r : listings) : outcome Empty_set listings :=
  match fuel with
  | O => Timeout
  | S fuel =>
      let src := nth_error srcList iSrc in
      let dst := nth_error dstList iDst in
      match src, dst with
      | None, None => Ret r
      | _, _ =>
          c <- check_entry srcList iSrc src ;;
          match c with
          | Duplicate => match_loop fuel srcList dstList (S iSrc) iDst r
          | OutOfOrder => Panic
          | Fine =>
              c <- check_entry dstList iDst dst ;;
              match c with
              | Duplicate => match_loop fuel srcList dstList iSrc (S iDst) r
              | OutOfOrder => Panic
              | Fine =>
                  match src, dst with
                  | Some s, Some d =>
                      let srcType := DirEntryType (entry s) in
                      let dstType := DirEntryType (entry d) in
                      if less_bytes (name d) (name s) || eqb_bytes (name s) (name d) && less_bytes dstType srcType then
                        match_loop fuel srcList dstList iSrc (S iDst) (add_dst (entry d) r)
                      else if less_bytes (name s) (name d) || eqb_bytes (name s) (name d) && less_bytes srcType dstType then
                        match_loop fuel srcList dstList (S iSrc) iDst (add_src (entry s) r)
                      else match_loop fuel srcList dstList (S iSrc) (S iDst) (add_match (entry s) (entry d) r)
                  | None, Some d => match_loop fuel srcList dstList (S iSrc) (S iDst) (add_dst (entry d) r)
                  | Some s, None => match_loop fuel srcList dstList (S iSrc) (S iDst) (add_src (entry s) r)
                  | None, None => Ret r
                  end
              end
          end
      end
  end.

(** Every turn takes an entry from one of the lists. *)
Definition matchListings (srcListEntries dstListEntries : list E) (transforms : list (list N -> list N)) : outcome Empty_set listings :=
  let srcList := newMatchEntries srcListEntries transforms in
  let dstList := newMatchEntries dstListEntries transforms in
  match_loop (S (length srcList + length dstList)) srcList dstList 0 0 no_listings.

(** ** One directory *)

Inductive listError : Type := ErrorDirNotFound | OtherError (code : nat).

(** The parameters of a march, and how the two sides and the callbacks answer, which is
    the same each time they are asked; [arrival] is the order in which the goroutines
    that look for objects are done. *)
Record March : Type := {
  NoTraverse : bool;
  NoCheckDest : bool;
  srcListDir : list N -> list E * option listError;
  dstListDir : list N -> list E * option listError;
  NewObject : list N -> option E;
  arrival : list E -> list E;
  m_transforms : list (list N -> list N);
  SrcOnly : E -> bool;
  DstOnly : E -> bool;
  Match : E -> E -> bool
}.

Record listDirJob : Type := { srcRemote : list N; dstRemote : list N; srcDepth : Z; dstDepth : Z; noSrc : bool; noDst : bool }.

(** The calls of the callbacks *)
Inductive event : Type := SrcOnlyCall (src : E) | DstOnlyCall (dst : E) | MatchCall (dst src : E).

Definition src_jobs (m : March) (job : listDirJob) (src : E) : list listDirJob :=
  if SrcOnly m src && (0 <? srcDepth job)%Z then
    [{| srcRemote := Remote src; dstRemote := Remote src; srcDepth := srcDepth job - 1; dstDepth := 0; noSrc := false; noDst := true |}]
  else [].

Definition dst_jobs (m : March) (job : listDirJob) (dst : E) : list listDirJob :=
  if DstOnly m dst && (0 <? dstDepth job)%Z then
    [{| srcRemote := Remote dst; dstRemote := Remote dst; srcDepth := 0; dstDepth := dstDepth job - 1; noSrc := true; noDst := false |}]
  else [].

Definition match_jobs (m : March) (job : listDirJob) (pair : E * E) : list listDirJob :=
  let '(src, dst) := pair in
  if Match m dst src && (0 <? srcDepth job)%Z && (0 <? dstDepth job)%Z then
    [{| srcRemote := Remote src; dstRemote := Remote dst; srcDepth := srcDepth job - 1; dstDepth := dstDepth job - 1; noSrc := false; noDst := false |}]
  else [].

(** The objects of the destination that are looked for one by one *)
Definition find_objects (m : March) (job : listDirJob) (srcList : list E) : list E :=
  arrival m (flat_map (fun src =>
    if is_directory src then []
    else match NewObject m (path_Join (dstRemote job) (path_Base (Remote src))) with Some o => [o] | None => [] end) srcList).

(** The calls that are made and the jobs that come next, or the error *)
Definition processJob (m : March) (job : listDirJob) : outcome Empty_set (list event * (list listDirJob + listError)) :=
  let '(srcList, srcListErr) := if noSrc job then ([], None) else srcListDir m (srcRemote job) in
  let '(dstList, dstListErr) := if negb (NoTraverse m) && negb (noDst job) then dstListDir m (dstRemote job) else ([], None) in
  match srcListErr with
  | Some err => Ret ([], inr err)
  | None =>
      match dstListErr with
      | Some (OtherError code) => Ret ([], inr (OtherError code))
      | _ =>
          let dstList := if NoTraverse m && negb (NoCheckDest m) then dstList ++ find_objects m job srcList else dstList in
          r <- matchListings srcList dstList (m_transforms m) ;;
          Ret (map SrcOnlyCall (srcOnly r) ++ map DstOnlyCall (dstOnly r) ++ map (fun '(src, dst) => MatchCall dst src) (matches r),
               inl (flat_map (src_jobs m job) (srcOnly r) ++ flat_map (dst_jobs m job) (dstOnly r) ++ flat_map (match_jobs m job) (matches r)))
      end
  end.

(** ** The whole march *)

(** The jobs that wait, the calls that were made and the errors *)
Record progress : Type := { p_jobs : list listDirJob; p_events : list event; p_errors : list listError }.

(** A goroutine takes a job out of those that wait, whichever, and processes it. *)
Inductive step (m : March) : progress -> progress -> Prop :=
| step_jobs a job b events errors evs new : processJob m job = Ret (evs, inl new) ->
    step m {| p_jobs := a ++ job :: b; p_events := events; p_errors := errors |}
           {| p_jobs := a ++ b ++ new; p_events := events ++ evs; p_errors := errors |}
| step_error a job b events errors evs err : processJob m job = Ret (evs, inr err) ->
    step m {| p_jobs := a ++ job :: b; p_events := events; p_errors := errors |}
           {| p_jobs := a ++ b; p_events := events ++ evs; p_errors := errors ++ [err] |}.

(** [n] steps *)
Inductive steps (m : March) : nat -> progress -> progress -> Prop :=
| steps_none p : steps m 0 p p
| steps_more n p q r : step m p q -> steps m n q r -> steps m (S n) p r.

(** The job that [Run] starts with, of the options [MaxDepth] and [DeleteExcluded] *)
Definition MaxLevel : Z := 2 ^ 31 - 1.

Definition first_job (m : March) (dir : list N) (MaxDepth : Z) (DeleteExcluded : bool) : listDirJob :=
  let srcMax := if (MaxDepth <? 0)%Z then MaxLevel else MaxDepth in
  let dstMax := if DeleteExcluded then MaxLevel else srcMax in
  {| srcRemote := dir; dstRemote := dir; srcDepth := srcMax - 1; dstDepth := dstMax - 1; noSrc := false; noDst := NoCheckDest m |}.

(** What [Run] returns: with more errors than one, their count and the first. *)
Inductive runError : Type := JobError (err : listError) | MarchFailed (errCount : nat) (jobError : listError).

Definition Run_error (errors : list listError) : option runError :=
  match errors with
  | [] => None
  | [err] => Some (JobError err)
  | err :: _ => Some (MarchFailed (length errors) err)
  end.

Definition start (job : listDirJob) : progress := {| p_jobs := [job]; p_events := []; p_errors := [] |}.
End March.

Arguments matchEntry E : clear implicits.
Arguments listings E : clear implicits.
Arguments March E : clear implicits.
Arguments event E : clear implicits.
Arguments progress E : clear implicits.

(** ** Tests *)

Section Tests.
#[local] Instance named_entry : DirEntry (list N * bool) := { Remote := fst; is_directory := snd }.
Let obj (s : string) : list N * bool := (bytes_of s, false).
Let dir (s : string) : list N * bool := (bytes_of s, true).

Example march1 : matchListings [obj "d/one"; dir "d/two"; obj "d/one"] [dir "d/two"; obj "d/three"; obj "d/two"] [] =
  Ret {| srcOnly := [obj "d/one"]; dstOnly := [obj "d/three"; obj "d/two"]; matches := [(dir "d/two", dir "d/two")] |}.
Proof. vm_compute. reflexivity. Qed.

(** With names made equal the types need not be sorted: "a" is not matched. *)
Let lowercase (s : list N) : list N := map lower_byte s.
Example march2 : matchListings [dir "A"; obj "a"] [obj "A"; dir "a"] [lowercase] =
  Ret {| srcOnly := [dir "A"]; dstOnly := [dir "a"]; matches := [(obj "a", obj "A")] |}.
Proof. vm_compute. reflexivity. Qed.
End Tests.
