(* ===== verification/MarchTheorems.v ===== *)
(** * What a march through two directories finds, in every order of its goroutines *)
From Stdlib Require Import String.
From Stdlib Require Import List Arith NArith ZArith Lia Bool Permutation Sorted Setoid Morphisms.
From S2P Require Import Prelude GoStrings GoPath March.
Import ListNotations.
Local Open Scope list_scope.
Local Open Scope go_scope.

(** ** Orders as comparisons *)

Record ordered {A} (c : A -> A -> comparison) : Prop := {
  c_opp : forall x y, c y x = CompOpp (c x y);
  c_trans : forall x y z, c x y = Lt -> c y z = Lt -> c x z = Lt;
  c_eq : forall x y z, c x y = Eq -> c x z = c y z
}.

Definition lex {A} (c1 c2 : A -> A -> comparison) (x y : A) : comparison := match c1 x y with Eq => c2 x y | r => r end.

Lemma on_ordered {A B} (f : A -> B) c : ordered c -> ordered (fun x y => c (f x) (f y)).
Proof. intros [H1 H2 H3]. split; intros; [apply H1 | eapply H2; eauto | now apply H3]. Qed.

Lemma lex_ordered {A} (c1 c2 : A -> A -> comparison) : ordered c1 -> ordered c2 -> ordered (lex c1 c2).
Proof.
  intros H1 H2. assert (Hr : forall x y z, c1 x y = Eq -> c1 z x = c1 z y) by (intros x y z E; rewrite (c_opp c1 H1 x z), (c_opp c1 H1 y z); f_equal; now apply (c_eq c1 H1)). split; unfold lex.
  - intros x y. rewrite (c_opp c1 H1 x y). destruct (c1 x y); [apply (c_opp c2 H2) | reflexivity | reflexivity].
  - intros x y z Hxy Hyz. destruct (c1 x y) eqn:E1; [| | discriminate].
    + rewrite (c_eq c1 H1 x y z E1). destruct (c1 y z); [now apply (c_trans c2 H2 x y z) | reflexivity | discriminate].
    + destruct (c1 y z) eqn:E2; [| | discriminate]; [now rewrite <- (Hr y z x E2), E1 | now rewrite (c_trans c1 H1 x y z E1 E2)].
  - intros x y z Hxy. destruct (c1 x y) eqn:E1; [| discriminate | discriminate]. rewrite (c_eq c1 H1 x y z E1). destruct (c1 y z); try reflexivity. now apply (c_eq c2 H2).
Qed.

Lemma c_refl {A} (c : A -> A -> comparison) x : ordered c -> c x x = Eq.
Proof. intros Hc. assert (H := c_opp c Hc x x). now destruct (c x x). Qed.

Lemma compare_bytes_eq a b : compare_bytes a b = Eq <-> a = b.
Proof.
  revert b; induction a as [|x a IH]; intros [|y b]; cbn; try easy. destruct (N.compare_spec x y) as [->|Hlt|Hgt]; [rewrite IH; split; [intros ->; reflexivity | now intros [= ->]] | split; [easy | intros [= -> _]; lia] | split; [easy | intros [= -> _]; lia]].
Qed.

Lemma compare_bytes_ordered : ordered compare_bytes.
Proof.
  split.
  - intros x; induction x as [|a x IH]; intros [|b y]; cbn; try reflexivity. rewrite (N.compare_antisym a b). destruct (a ?= b)%N; cbn; auto.
  - intros x; induction x as [|a x IH]; intros [|b y] [|d z]; cbn; try easy. destruct (N.compare_spec a b) as [->|H1|H1], (N.compare_spec b d) as [->|H2|H2]; try easy; destruct (N.compare_spec a d) as [|H3|H3] || destruct (N.compare_spec d d) as [|H3|H3] || destruct (N.compare_spec b d) as [|H3|H3]; try easy; try lia.
    all: try (destruct (N.compare_spec b d); easy || lia). all: eauto.
  - intros x y z E. apply compare_bytes_eq in E as ->. reflexivity.
Qed.

Lemma less_bytes_lt a b : less_bytes a b = true <-> compare_bytes a b = Lt.
Proof. unfold less_bytes. now destruct (compare_bytes a b). Qed.

Lemma eqb_bytes_compare a b : eqb_bytes a b = match compare_bytes a b with Eq => true | _ => false end.
Proof. destruct (eqb_bytes_spec a b) as [->|Hne]; [now rewrite (proj2 (compare_bytes_eq b b)) |]. destruct (compare_bytes a b) eqn:E; try reflexivity. now apply compare_bytes_eq in E. Qed.

Section March.
Context {E : Type} `{DirEntry E}.

Notation matchEntry := (matchEntry E).

(** The order of the lists, and the order by name and type *)
Definition by_name (x y : matchEntry) : comparison := compare_bytes (name x) (name y).
Definition by_leaf (x y : matchEntry) : comparison := compare_bytes (leaf x) (leaf y).
Definition by_remote (x y : matchEntry) : comparison := compare_bytes (Remote (entry x)) (Remote (entry y)).
Definition by_type (x y : matchEntry) : comparison := compare_bytes (DirEntryType (entry x)) (DirEntryType (entry y)).

Definition full_order : matchEntry -> matchEntry -> comparison := lex by_name (lex by_leaf (lex by_remote by_type)).
Definition key_order : matchEntry -> matchEntry -> comparison := lex by_name by_type.

Lemma by_ordered : ordered by_name /\ ordered by_leaf /\ ordered by_remote /\ ordered by_type.
Proof.
  splits; [apply (on_ordered (@name E)) | apply (on_ordered (@leaf E)) | apply (on_ordered (fun x : matchEntry => Remote (entry x))) | apply (on_ordered (fun x : matchEntry => DirEntryType (entry x)))]; apply compare_bytes_ordered.
Qed.

Lemma full_ordered : ordered full_order.
Proof. destruct by_ordered as (H1 & H2 & H3 & H4). repeat apply lex_ordered; auto. Qed.

Lemma key_ordered : ordered key_order.
Proof. destruct by_ordered as (H1 & H2 & H3 & H4). repeat apply lex_ordered; auto. Qed.

Lemma Less_full x y : Less x y = match full_order x y with Lt => true | _ => false end.
Proof.
  unfold Less, full_order, lex, CompareDirEntries. rewrite !eqb_bytes_compare. unfold by_name, by_leaf, by_remote, by_type, less_bytes.
  destruct (compare_bytes (name x) (name y)); try reflexivity. destruct (compare_bytes (leaf x) (leaf y)); try reflexivity.
  rewrite (c_opp _ compare_bytes_ordered (Remote (entry x)) (Remote (entry y))). destruct (compare_bytes (Remote (entry x)) (Remote (entry y))); try reflexivity. cbn [CompOpp].
  rewrite (c_opp _ compare_bytes_ordered (DirEntryType (entry x)) (DirEntryType (entry y))). now destruct (compare_bytes (DirEntryType (entry x)) (DirEntryType (entry y))).
Qed.

Definition before (x y : matchEntry) : bool := match key_order x y with Lt => true | _ => false end.
Definition same_key (x y : matchEntry) : bool := match key_order x y with Eq => true | _ => false end.

Lemma before_code x y : (less_bytes (name x) (name y) || eqb_bytes (name x) (name y) && less_bytes (DirEntryType (entry x)) (DirEntryType (entry y)))%bool = before x y.
Proof. unfold before, key_order, lex, by_name, by_type, less_bytes. rewrite eqb_bytes_compare. now destruct (compare_bytes (name x) (name y)). Qed.

Lemma same_key_code x y : (eqb_bytes (name x) (name y) && eqb_bytes (DirEntryType (entry y)) (DirEntryType (entry x)))%bool = same_key x y.
Proof.
  unfold same_key, key_order, lex, by_name, by_type. rewrite !eqb_bytes_compare, (c_opp _ compare_bytes_ordered (DirEntryType (entry x)) (DirEntryType (entry y))).
  destruct (compare_bytes (name x) (name y)); try reflexivity. now destruct (compare_bytes (DirEntryType (entry x)) (DirEntryType (entry y))).
Qed.

(** ** Sorting *)

(** [y] may come after [x]. *)
Definition le_order (c : matchEntry -> matchEntry -> comparison) (x y : matchEntry) : Prop := c x y <> Gt.

Lemma le_trans c x y z : ordered c -> le_order c x y -> le_order c y z -> le_order c x z.
Proof.
  unfold le_order. intros Hc Hxy Hyz. destruct (c x y) eqn:E1; [| | easy]; [now rewrite (c_eq c Hc x y z E1) |]. destruct (c y z) eqn:E2; [| | easy].
  - rewrite (c_opp c Hc z x). rewrite <- (c_eq c Hc y z x E2), <- (c_opp c Hc y x), E1. easy.
  - now rewrite (c_trans c Hc x y z E1 E2).
Qed.

Lemma insert_entry_perm e l : Permutation (insert_entry e l) (e :: l).
Proof. induction l as [|x l IH]; cbn; [reflexivity |]. destruct (Less x e); [| reflexivity]. rewrite IH. apply perm_swap. Qed.

Lemma insert_entry_sorted e l : StronglySorted (le_order full_order) l -> StronglySorted (le_order full_order) (insert_entry e l).
Proof.
  assert (Hf := full_ordered). induction 1 as [|x t Ht IH Hx]; cbn [insert_entry]; [repeat constructor |]. rewrite Less_full. destruct (full_order x e) eqn:Exe.
  - constructor; [now constructor |]. assert (Hex : le_order full_order e x) by (unfold le_order; rewrite (c_opp _ Hf x e), Exe; easy).
    constructor; [exact Hex |]. eapply Forall_impl; [| exact Hx]. intros y Hy. now apply (le_trans _ e x y Hf).
  - constructor; [exact IH |]. apply Forall_forall. intros y Hy. apply (Permutation_in _ (insert_entry_perm e t)) in Hy as [<-|Hy]; [unfold le_order; now rewrite Exe |].
    rewrite Forall_forall in Hx. auto.
  - constructor; [now constructor |]. assert (Hex : le_order full_order e x) by (unfold le_order; rewrite (c_opp _ Hf x e), Exe; easy).
    constructor; [exact Hex |]. eapply Forall_impl; [| exact Hx]. intros y Hy. now apply (le_trans _ e x y Hf).
Qed.

Lemma sort_entries_sorted l : StronglySorted (le_order full_order) (sort_entries l).
Proof. induction l as [|e l IH]; cbn; [constructor | now apply insert_entry_sorted]. Qed.

Lemma sort_entries_perm l : Permutation (sort_entries l) l.
Proof. induction l as [|e l IH]; cbn; [reflexivity |]. rewrite insert_entry_perm. now constructor. Qed.

Lemma le_full_name x y : le_order full_order x y -> le_order by_name x y.
Proof. unfold le_order, full_order, lex. now destruct (by_name x y). Qed.

(** ** The merge *)

(** The entries that are no duplicate of the one before *)
Fixpoint dedup (prev : option matchEntry) (l : list matchEntry) : list matchEntry :=
  match l with
  | [] => []
  | e :: t => if match prev with Some p => same_key e p | None => false end then dedup (Some e) t else e :: dedup (Some e) t
  end.

Definition join_listings (a b : listings E) : listings E :=
  {| srcOnly := srcOnly a ++ srcOnly b; dstOnly := dstOnly a ++ dstOnly b; matches := matches a ++ matches b |}.

(** Merging two lists without duplicates *)
Fixpoint merge (ss : list matchEntry) : list matchEntry -> listings E :=
  fix inner (ds : list matchEntry) : listings E :=
    match ss, ds with
    | [], [] => no_listings
    | [], d :: ds' => join_listings (add_dst (entry d) no_listings) (inner ds')
    | s :: ss', [] => join_listings (add_src (entry s) no_listings) (merge ss' [])
    | s :: ss', d :: ds' =>
        if before d s then join_listings (add_dst (entry d) no_listings) (inner ds')
        else if before s d then join_listings (add_src (entry s) no_listings) (merge ss' ds)
        else join_listings (add_match (entry s) (entry d) no_listings) (merge ss' ds')
    end.

Lemma join_assoc a b c : join_listings (join_listings a b) c = join_listings a (join_listings b c).
Proof. unfold join_listings. cbn. now rewrite !app_assoc. Qed.

Lemma join_none a : join_listings a no_listings = a.
Proof. destruct a. unfold join_listings. cbn. now rewrite !app_nil_r. Qed.

Lemma add_src_join e r : add_src e r = join_listings r (add_src e no_listings).
Proof. unfold join_listings, add_src. cbn. now rewrite !app_nil_r. Qed.
Lemma add_dst_join e r : add_dst e r = join_listings r (add_dst e no_listings).
Proof. unfold join_listings, add_dst. cbn. now rewrite !app_nil_r. Qed.
Lemma add_match_join e d r : add_match e d r = join_listings r (add_match e d no_listings).
Proof. unfold join_listings, add_match. cbn. now rewrite !app_nil_r. Qed.

(** The index [i] is at the rest of a list, after [prev]. *)
Definition last_of (a : list matchEntry) : option matchEntry := match rev a with [] => None | x :: _ => Some x end.

Definition at_rest (es : list matchEntry) (i : nat) (prev : option matchEntry) (rest : list matchEntry) : Prop :=
  rest = [] /\ length es <= i \/ rest <> [] /\ exists a, es = a ++ rest /\ i = length a /\ prev = last_of a.

Lemma at_start es : at_rest es 0 None es.
Proof. destruct es; [left; auto | right; split; [easy | exists []; auto]]. Qed.

Lemma at_nth es i prev rest : at_rest es i prev rest -> nth_error es i = match rest with [] => None | e :: _ => Some e end.
Proof.
  intros [(-> & Hi)|(Hr & a & -> & -> & _)]; [now apply nth_error_None |]. rewrite nth_error_app2, Nat.sub_diag by lia. now destruct rest.
Qed.

Lemma at_next es i prev e t : at_rest es i prev (e :: t) -> at_rest es (S i) (Some e) t.
Proof.
  intros [[Hr _]|(_ & a & -> & -> & _)]; [easy |]. destruct t as [|x t]; [left; split; [reflexivity |]; rewrite length_app; cbn; lia |].
  right. split; [easy |]. exists (a ++ [e]). rewrite <- app_assoc, length_app. cbn. splits; [reflexivity | lia |]. unfold last_of. now rewrite rev_app_distr.
Qed.

Lemma at_end es i prev p : at_rest es i prev [] -> at_rest es (S i) p [].
Proof. intros [(_ & Hi)|[Hr _]]; [left; split; [reflexivity | lia] | easy]. Qed.

Lemma sorted_app_le (R : matchEntry -> matchEntry -> Prop) a b : StronglySorted R (a ++ b) -> forall x y, In x a -> In y b -> R x y.
Proof.
  induction a as [|z a IH]; cbn; [easy |]. intros Hs x y Hx Hy. apply StronglySorted_inv in Hs as [Hs Hz]. destruct Hx as [->|Hx]; [| eauto].
  rewrite Forall_forall in Hz. apply Hz, in_or_app. auto.
Qed.

(** A list that is sorted by name is never out of order. *)
Lemma check_prev_spec es i prev e t : StronglySorted (le_order by_name) es -> at_rest es i prev (e :: t) ->
  check_prev es i e = Ret (if match prev with Some p => same_key e p | None => false end then Duplicate else Fine).
Proof.
  intros Hs [[Hr _]|(_ & a & -> & -> & ->)]; [easy |]. unfold check_prev, last_of. destruct (rev a) as [|p u] eqn:Er.
  - assert (Ea : a = []) by (rewrite <- (rev_involutive a), Er; reflexivity). clear Er. subst a. reflexivity.
  - assert (Ea : a = rev u ++ [p]) by (rewrite <- (rev_involutive a), Er; reflexivity). clear Er. subst a. rewrite length_app. cbn [length]. rewrite Nat.add_1_r. cbn [Nat.ltb Nat.leb Nat.sub].
    rewrite Nat.sub_0_r. unfold idx. rewrite <- (app_assoc (rev u)), nth_error_app2, Nat.sub_diag by lia. cbn [app nth_error bind]. rewrite same_key_code. destruct (same_key e p); [reflexivity |].
    assert (Hle : le_order by_name p e) by (apply (sorted_app_le _ _ (e :: t) Hs); [apply in_or_app; right | ]; now left).
    unfold le_order, by_name in Hle. unfold less_bytes. rewrite (c_opp _ compare_bytes_ordered (name p) (name e)). destruct (compare_bytes (name p) (name e)); try reflexivity. easy.
Qed.

Lemma eqb_bytes_sym a b : eqb_bytes a b = eqb_bytes b a.
Proof. destruct (eqb_bytes_spec a b) as [Heq|Hne], (eqb_bytes_spec b a) as [Heq2|Hne2]; congruence. Qed.

Ltac join_up := first [rewrite add_src_join, join_assoc; reflexivity | rewrite add_dst_join, join_assoc; reflexivity | rewrite add_match_join, join_assoc; reflexivity].

(** The loop merges the lists without their duplicates. *)
Lemma match_loop_merge srcs dsts : StronglySorted (le_order by_name) srcs -> StronglySorted (le_order by_name) dsts ->
  forall fuel i j ps pd ss ds r, at_rest srcs i ps ss -> at_rest dsts j pd ds -> length ss + length ds < fuel ->
  match_loop fuel srcs dsts i j r = Ret (join_listings r (merge (dedup ps ss) (dedup pd ds))).
Proof.
  intros Hss Hsd. induction fuel as [|fuel IH]; intros i j ps pd ss ds r Hi Hj Hf; [lia |]. cbn [match_loop]. rewrite (at_nth _ _ _ _ Hi), (at_nth _ _ _ _ Hj).
  destruct ss as [|s ss], ds as [|d ds]; cbn [length] in Hf; cbn [check_entry].
  - cbn. now rewrite join_none.
  - cbn [bind]. rewrite (check_prev_spec dsts j pd d ds) by auto. cbn [bind dedup]. destruct (match pd with Some p => same_key d p | None => false end).
    + rewrite (IH i (S j) ps (Some d) [] ds); [reflexivity | auto | now apply (at_next _ _ pd) | cbn; lia].
    + rewrite (IH (S i) (S j) ps (Some d) [] ds); [| now apply (at_end _ _ ps) | now apply (at_next _ _ pd) | cbn; lia]. cbn [dedup merge]. destruct (dedup (Some d) ds); join_up.
  - rewrite (check_prev_spec srcs i ps s ss) by auto. cbn [bind dedup]. destruct (match ps with Some p => same_key s p | None => false end); cbn [bind].
    + rewrite (IH (S i) j (Some s) pd ss []); [reflexivity | now apply (at_next _ _ ps) | auto | cbn; lia].
    + rewrite (IH (S i) (S j) (Some s) pd ss []); [| now apply (at_next _ _ ps) | now apply (at_end _ _ pd) | cbn; lia]. cbn [dedup merge]. join_up.
  - rewrite (check_prev_spec srcs i ps s ss) by auto. cbn [bind]. destruct (match ps with Some p => same_key s p | None => false end) eqn:Es; cbn [bind].
    + rewrite (IH (S i) j (Some s) pd ss (d :: ds)); [| now apply (at_next _ _ ps) | auto | cbn; lia]. cbn [dedup]. now rewrite Es.
    + rewrite (check_prev_spec dsts j pd d ds) by auto. cbn [bind]. destruct (match pd with Some p => same_key d p | None => false end) eqn:Ed; cbn [bind].
      * rewrite (IH i (S j) ps (Some d) (s :: ss) ds); [| auto | now apply (at_next _ _ pd) | cbn; lia]. cbn [dedup]. now rewrite Ed.
      * rewrite (eqb_bytes_sym (name s) (name d)), before_code, (eqb_bytes_sym (name d) (name s)), before_code. cbn [dedup]. rewrite Es, Ed. cbn [merge]. destruct (before d s); [| destruct (before s d)].
        -- rewrite (IH i (S j) ps (Some d) (s :: ss) ds); [| auto | now apply (at_next _ _ pd) | cbn; lia]. cbn [dedup]. rewrite Es. rewrite add_dst_join, join_assoc. destruct (dedup (Some d) ds); reflexivity.
        -- rewrite (IH (S i) j (Some s) pd ss (d :: ds)); [| now apply (at_next _ _ ps) | auto | cbn; lia]. cbn [dedup]. rewrite Ed. join_up.
        -- rewrite (IH (S i) (S j) (Some s) (Some d) ss ds); [| now apply (at_next _ _ ps) | now apply (at_next _ _ pd) | cbn; lia]. join_up.
Qed.

Lemma sorted_names l : StronglySorted (le_order full_order) l -> StronglySorted (le_order by_name) l.
Proof. induction 1 as [|x l Hl IH Hx]; constructor; auto. eapply Forall_impl; [| exact Hx]. intros y. apply le_full_name. Qed.

(** The listings without duplicates, in order *)
Definition distinct (entries : list E) (transforms : list (list N -> list N)) : list matchEntry := dedup None (newMatchEntries entries transforms).

Lemma matchListings_merge srcs dsts transforms : matchListings srcs dsts transforms = Ret (merge (distinct srcs transforms) (distinct dsts transforms)).
Proof.
  unfold matchListings. rewrite (match_loop_merge (newMatchEntries srcs transforms) (newMatchEntries dsts transforms)) with (ps := None) (pd := None) (ss := newMatchEntries srcs transforms) (ds := newMatchEntries dsts transforms);
    [destruct (merge _ _); reflexivity | apply sorted_names, sort_entries_sorted | apply sorted_names, sort_entries_sorted | apply at_start | apply at_start | lia].
Qed.
(** ** What the merge makes *)

Lemma merge_ind (P : list matchEntry -> list matchEntry -> listings E -> Prop) :
  P [] [] no_listings ->
  (forall d ds r, P [] ds r -> P [] (d :: ds) (join_listings (add_dst (entry d) no_listings) r)) ->
  (forall s ss r, P ss [] r -> P (s :: ss) [] (join_listings (add_src (entry s) no_listings) r)) ->
  (forall s ss d ds r, before d s = true -> P (s :: ss) ds r -> P (s :: ss) (d :: ds) (join_listings (add_dst (entry d) no_listings) r)) ->
  (forall s ss d ds r, before s d = true -> P ss (d :: ds) r -> P (s :: ss) (d :: ds) (join_listings (add_src (entry s) no_listings) r)) ->
  (forall s ss d ds r, same_key s d = true -> P ss ds r -> P (s :: ss) (d :: ds) (join_listings (add_match (entry s) (entry d) no_listings) r)) ->
  forall ss ds, P ss ds (merge ss ds).
Proof.
  intros H0 Hd Hs Hsd Hss Hm. induction ss as [|s ss IHs]; intros ds.
  - induction ds as [|d ds IH]; cbn; auto.
  - induction ds as [|d ds IH]; [apply Hs, IHs |]. cbn [merge]. destruct (before d s) eqn:E1; [now apply Hsd |]. destruct (before s d) eqn:E2; [now apply Hss |].
    apply Hm; [| auto]. unfold before in E1, E2. unfold same_key. rewrite (c_opp _ key_ordered s d) in E1. now destruct (key_order s d).
Qed.

Definition partitions (ss ds : list matchEntry) (r : listings E) : Prop :=
  Permutation (srcOnly r ++ map fst (matches r)) (map entry ss) /\
  Permutation (dstOnly r ++ map snd (matches r)) (map entry ds) /\
  Forall (fun '(s, d) => exists x y, In x ss /\ In y ds /\ entry x = s /\ entry y = d /\ same_key x y = true) (matches r).

Lemma partitions_weaken ss ds ss' ds' (l : list (E * E)) : incl ss ss' -> incl ds ds' ->
  Forall (fun '(s, d) => exists x y, In x ss /\ In y ds /\ entry x = s /\ entry y = d /\ same_key x y = true) l ->
  Forall (fun '(s, d) => exists x y, In x ss' /\ In y ds' /\ entry x = s /\ entry y = d /\ same_key x y = true) l.
Proof. intros Hs Hd. apply Forall_impl. intros [s d] (x & y & Hx & Hy & H3). exists x, y. auto. Qed.

Lemma merge_partitions ss ds : partitions ss ds (merge ss ds).
Proof.
  apply merge_ind; clear ss ds; unfold partitions; cbn [srcOnly dstOnly matches join_listings no_listings add_src add_dst add_match app map fst snd].
  - repeat split; constructor.
  - intros d ds r (H1 & H2 & H3). splits; [exact H1 | now constructor | now apply (partitions_weaken [] ds); auto with datatypes].
  - intros s ss r (H1 & H2 & H3). splits; [now constructor | exact H2 | now apply (partitions_weaken ss []); auto with datatypes].
  - intros s ss d ds r _ (H1 & H2 & H3). splits; [exact H1 | now constructor | now apply (partitions_weaken (s :: ss) ds); auto with datatypes].
  - intros s ss d ds r _ (H1 & H2 & H3). splits; [now constructor | exact H2 | now apply (partitions_weaken ss (d :: ds)); auto with datatypes].
  - intros s ss d ds r Hk (H1 & H2 & H3). splits; [now apply Permutation_sym, Permutation_cons_app, Permutation_sym | now apply Permutation_sym, Permutation_cons_app, Permutation_sym |].
    constructor; [exists s, d; cbn; auto 6 | apply (partitions_weaken ss ds); auto with datatypes].
Qed.

(** ** The reference *)

Lemma same_key_refl x : same_key x x = true.
Proof. unfold same_key. now rewrite (c_refl _ x key_ordered). Qed.

Lemma same_key_sym x y : same_key x y = same_key y x.
Proof. unfold same_key. rewrite (c_opp _ key_ordered y x). now destruct (key_order y x). Qed.

Lemma same_key_cong x y z : same_key x y = true -> same_key x z = same_key y z.
Proof. unfold same_key. intros Hxy. destruct (key_order x y) eqn:Ek; try discriminate. now rewrite (c_eq _ key_ordered x y z Ek). Qed.

(** The first entry of each key *)
Fixpoint nub (l : list matchEntry) : list matchEntry :=
  match l with
  | [] => []
  | e :: t => e :: filter (fun x => negb (same_key e x)) (nub t)
  end.

Definition matching (ds : list matchEntry) (s : matchEntry) : list (E * E) := match find (same_key s) ds with Some d => [(entry s, entry d)] | None => [] end.
Definition unmatched (ds : list matchEntry) (s : matchEntry) : bool := match find (same_key s) ds with Some _ => false | None => true end.

Definition reference (ss ds : list matchEntry) : listings E :=
  {| srcOnly := map entry (filter (unmatched ds) ss); dstOnly := map entry (filter (unmatched ss) ds); matches := flat_map (matching ds) ss |}.

(** Lists without duplicates, in order *)
Definition strictly : list matchEntry -> Prop := StronglySorted (fun x y => before x y = true).

Lemma before_trans x y z : before x y = true -> before y z = true -> before x z = true.
Proof.
  unfold before. destruct (key_order x y) eqn:E1; try discriminate. destruct (key_order y z) eqn:E2; try discriminate. now rewrite (c_trans _ key_ordered x y z E1 E2).
Qed.

Lemma before_same x y z : before x y = true -> same_key y z = true -> before x z = true.
Proof.
  unfold before, same_key. rewrite (c_opp _ key_ordered y x), (c_opp _ key_ordered z x). destruct (key_order y z) eqn:E1; try discriminate.
  now rewrite (c_eq _ key_ordered y z x E1).
Qed.

Lemma before_not_same x y : before x y = true -> same_key y x = false.
Proof. unfold before, same_key. rewrite (c_opp _ key_ordered x y). now destruct (key_order x y). Qed.

Lemma strictly_head x l : strictly (x :: l) -> strictly l /\ forall y, In y l -> before x y = true.
Proof. intros H1. apply StronglySorted_inv in H1 as [H1 H2]. split; [exact H1 | now apply Forall_forall]. Qed.

(** An entry before all of a list has no entry of its key there. *)
Lemma find_after x l : (forall y, In y l -> before x y = true) -> find (same_key x) l = None.
Proof.
  intros Hb. destruct (find (same_key x) l) as [y|] eqn:Ef; [| reflexivity]. apply find_some in Ef as [Hy Hk].
  rewrite same_key_sym, (before_not_same x y) in Hk by auto. discriminate.
Qed.

Lemma find_skip x d ds : before d x = true -> find (same_key x) (d :: ds) = find (same_key x) ds.
Proof. intros Hb. cbn. now rewrite (before_not_same d x Hb). Qed.

Lemma flat_map_ext_in {A B} (f g : A -> list B) l : (forall x, In x l -> f x = g x) -> flat_map f l = flat_map g l.
Proof. induction l as [|x l IH]; cbn; intros Hfg; [reflexivity |]. rewrite Hfg, IH; auto. Qed.

(** Entries before all of the other list may be left out of the search. *)
Lemma skip_first d ds ss : (forall x, In x ss -> before d x = true) ->
  filter (unmatched (d :: ds)) ss = filter (unmatched ds) ss /\ flat_map (matching (d :: ds)) ss = flat_map (matching ds) ss.
Proof.
  intros Hb. split; [apply filter_ext_in | apply flat_map_ext_in]; intros x Hx; unfold unmatched, matching; now rewrite find_skip by auto.
Qed.

Lemma after_none x l : (forall y, In y l -> before x y = true) -> unmatched l x = true /\ matching l x = [].
Proof. intros Hb. unfold unmatched, matching. now rewrite find_after. Qed.

Lemma head_same x y l : same_key x y = true -> unmatched (y :: l) x = false /\ matching (y :: l) x = [(entry x, entry y)].
Proof. intros Hk. unfold unmatched, matching. cbn [find]. now rewrite Hk. Qed.

Lemma merge_reference ss ds : strictly ss -> strictly ds -> merge ss ds = reference ss ds.
Proof.
  apply (merge_ind (fun ss ds r => strictly ss -> strictly ds -> r = reference ss ds)); clear ss ds; unfold reference.
  - reflexivity.
  - intros d ds r IH _ Hd. apply strictly_head in Hd as [Hd _]. now rewrite IH by (auto; constructor).
  - intros s ss r IH Hs _. apply strictly_head in Hs as [Hs _]. now rewrite IH by (auto; constructor).
  - intros s ss d ds r Hb IH Hs Hd. apply strictly_head in Hd as [Hd _]. rewrite (IH Hs Hd).
    assert (Hall : forall x, In x (s :: ss) -> before d x = true) by (apply strictly_head in Hs as [_ Hs]; intros x [<-|Hx]; eauto using before_trans).
    destruct (skip_first d ds (s :: ss) Hall) as [-> ->]. cbn [filter]. now rewrite (proj1 (after_none d (s :: ss) Hall)).
  - intros s ss d ds r Hb IH Hs Hd. destruct (strictly_head _ _ Hs) as [Hs' _]. rewrite (IH Hs' Hd).
    assert (Hall : forall x, In x (d :: ds) -> before s x = true) by (apply strictly_head in Hd as [_ Hd]; intros x [<-|Hx]; eauto using before_trans).
    destruct (skip_first s ss (d :: ds) Hall) as [-> _]. cbn [filter flat_map]. destruct (after_none s (d :: ds) Hall) as [-> ->]. reflexivity.
  - intros s ss d ds r Hk IH Hs Hd. destruct (strictly_head _ _ Hs) as [Hs' Hsb]. destruct (strictly_head _ _ Hd) as [Hd' Hdb]. rewrite (IH Hs' Hd').
    assert (Hk' : same_key d s = true) by now rewrite same_key_sym.
    assert (H1 : forall x, In x ss -> before d x = true).
    { intros x Hx. unfold before. unfold same_key in Hk'. destruct (key_order d s) eqn:Ek; try discriminate. rewrite (c_eq _ key_ordered d s x Ek). now apply Hsb. }
    assert (H2 : forall x, In x ds -> before s x = true).
    { intros x Hx. unfold before. unfold same_key in Hk. destruct (key_order s d) eqn:Ek; try discriminate. rewrite (c_eq _ key_ordered s d x Ek). now apply Hdb. }
    cbn [filter flat_map]. destruct (skip_first d ds ss H1) as [-> ->], (skip_first s ss ds H2) as [-> _].
    destruct (head_same s d ds Hk) as [-> ->], (head_same d s ss Hk') as [-> _]. reflexivity.
Qed.

(** ** Duplicates *)

Lemma find_filter_other {A} (p q : A -> bool) l : (forall x, q x = false -> p x = false) -> find p (filter q l) = find p l.
Proof. intros Hq. induction l as [|x l IH]; cbn; [reflexivity |]. destruct (q x) eqn:Eq; cbn; [now rewrite IH | now rewrite (Hq x Eq)]. Qed.

Lemma find_nub z l : find (same_key z) (nub l) = find (same_key z) l.
Proof.
  induction l as [|e t IH]; cbn; [reflexivity |]. destruct (same_key z e) eqn:Ez; [reflexivity |]. rewrite find_filter_other; [exact IH |].
  intros x Hx. apply negb_false_iff in Hx. now rewrite same_key_sym, <- (same_key_cong e x z Hx), same_key_sym.
Qed.

Lemma nub_incl l : incl (nub l) l.
Proof. induction l as [|e t IH]; cbn; [easy |]. intros x [<-|Hx]; [now left |]. apply filter_In in Hx as [Hx _]. right. auto. Qed.

(** The entries of [nub] are those that are the first of their key. *)
Lemma nub_first l e : In e (nub l) <-> find (same_key e) l = Some e.
Proof.
  split; [| intros Hf; rewrite <- find_nub in Hf; now apply find_some in Hf].
  induction l as [|x t IH]; cbn; [easy |]. intros [->|He]; [now rewrite same_key_refl |]. apply filter_In in He as [He Hx]. apply negb_true_iff in Hx.
  rewrite same_key_sym, Hx. auto.
Qed.

Lemma nub_nodup l : NoDup (nub l).
Proof.
  induction l as [|e t IH]; cbn; constructor; [| now apply NoDup_filter]. intros He. apply filter_In in He as [_ He]. now rewrite same_key_refl in He.
Qed.

Lemma filter_all {A} (p : A -> bool) l : (forall x, In x l -> p x = true) -> filter p l = l.
Proof. induction l as [|x l IH]; cbn; intros Hp; [reflexivity |]. rewrite Hp, IH; auto. Qed.

Lemma filter_twice {A} (p q : A -> bool) l : (forall x, q x = true -> p x = true) -> filter p (filter q l) = filter q l.
Proof. intros Hq. apply filter_all. intros x Hx. apply filter_In in Hx as [_ Hx]. auto. Qed.

Lemma before_le x y z : before x y = true -> le_order key_order y z -> before x z = true.
Proof.
  intros Hb Hle. unfold le_order in Hle. destruct (key_order y z) eqn:E1; [| | easy].
  - apply (before_same x y z Hb). unfold same_key. now rewrite E1.
  - apply (before_trans x y z Hb). unfold before. now rewrite E1.
Qed.

Lemma le_cases x y : le_order key_order x y -> same_key x y = false -> before x y = true.
Proof. unfold le_order, same_key, before. now destruct (key_order x y). Qed.

Lemma dedup_after p l : StronglySorted (le_order key_order) (p :: l) -> dedup (Some p) l = filter (fun x => negb (same_key p x)) (nub l).
Proof.
  revert p. induction l as [|e t IH]; intros p Hs; [reflexivity |]. apply StronglySorted_inv in Hs as [Hs Hp]. cbn [dedup nub filter]. rewrite (IH e Hs), (same_key_sym e p).
  apply Forall_inv in Hp. destruct (same_key p e) eqn:Ep; cbn [negb].
  - symmetry. apply filter_twice. intros x Hx. now rewrite (same_key_cong p e x Ep).
  - f_equal. symmetry. apply filter_all. intros x Hx. apply filter_In in Hx as [Hx _]. apply nub_incl in Hx. apply StronglySorted_inv in Hs as [_ Hs]. rewrite Forall_forall in Hs.
    rewrite same_key_sym, (before_not_same p x); [reflexivity |]. apply (before_le p e x); [now apply le_cases | auto].
Qed.

Lemma dedup_nub l : StronglySorted (le_order key_order) l -> dedup None l = nub l.
Proof. destruct l as [|e t]; [reflexivity |]. intros Hs. cbn [dedup nub]. now rewrite dedup_after. Qed.

Lemma nub_strictly l : StronglySorted (le_order key_order) l -> strictly (nub l).
Proof.
  induction 1 as [|e t Ht IH He]; cbn [nub]; constructor.
  - clear He. induction IH as [|x u Hu IHu Hx]; cbn; [constructor |]. destruct (negb (same_key e x)); [| exact IHu]. constructor; [exact IHu |]. apply Forall_forall. intros y Hy. apply filter_In in Hy as [Hy _].
    rewrite Forall_forall in Hx. auto.
  - apply Forall_forall. intros x Hx. apply filter_In in Hx as [Hx Hk]. apply negb_true_iff in Hk. apply nub_incl in Hx. rewrite Forall_forall in He. apply le_cases; auto.
Qed.

(** ** Listings in which the name says which entry it is *)

Definition uniform (l : list matchEntry) : Prop :=
  forall x y, In x l -> In y l -> name x = name y -> leaf x = leaf y /\ Remote (entry x) = Remote (entry y).

Lemma uniform_full l x y : uniform l -> In x l -> In y l -> name x = name y -> full_order x y = by_type x y.
Proof.
  intros Hu Hx Hy En. destruct (Hu x y Hx Hy En) as [El Er]. unfold full_order, lex, by_name, by_leaf, by_remote. rewrite En, El, Er. now rewrite !(proj2 (compare_bytes_eq _ _)) by reflexivity.
Qed.

Lemma uniform_le l x y : uniform l -> In x l -> In y l -> le_order full_order x y -> le_order key_order x y.
Proof.
  intros Hu Hx Hy Hle. unfold le_order in *. unfold key_order, lex. destruct (by_name x y) eqn:En; [| easy |].
  - apply compare_bytes_eq in En. now rewrite <- (uniform_full l x y).
  - unfold full_order, lex in Hle. now rewrite En in Hle.
Qed.

Lemma uniform_same l x y : uniform l -> In x l -> In y l -> same_key x y = true -> full_order x y = Eq.
Proof.
  intros Hu Hx Hy Hk. unfold same_key, key_order, lex in Hk. destruct (by_name x y) eqn:En; try discriminate. apply compare_bytes_eq in En. rewrite (uniform_full l) by auto.
  now destruct (by_type x y).
Qed.

Lemma uniform_sorted l : uniform l -> StronglySorted (le_order full_order) l -> StronglySorted (le_order key_order) l.
Proof.
  intros Hu. assert (Hi : incl l l) by (intros x; auto). revert Hi. generalize l at 1 3 4 as k. induction k as [|x k IH]; intros Hi Hs; [constructor |].
  apply StronglySorted_inv in Hs as [Hs Hx]. constructor; [apply IH; [intros y Hy; apply Hi; now right | exact Hs] |]. rewrite Forall_forall in Hx |- *.
  intros y Hy. apply (uniform_le l); auto using in_eq, in_cons. 
Qed.

Lemma find_insert z e l : (forall x, In x l -> same_key x e = true -> full_order x e = Eq) ->
  find (same_key z) (insert_entry e l) = if same_key z e then Some e else find (same_key z) l.
Proof.
  induction l as [|x l IH]; cbn; intros Hl; [now destruct (same_key z e) |]. rewrite Less_full. destruct (full_order x e) eqn:Ex; [reflexivity | | reflexivity]. cbn.
  rewrite IH by auto. destruct (same_key z e) eqn:Eze; [| reflexivity]. destruct (same_key z x) eqn:Ezx; [| reflexivity].
  assert (Hxe : same_key x e = true) by now rewrite <- (same_key_cong z x e Ezx). rewrite (Hl x) in Ex by auto. discriminate.
Qed.

(** The sort is stable: the first entry of a key stays the first. *)
Lemma find_sort z l : uniform l -> find (same_key z) (sort_entries l) = find (same_key z) l.
Proof.
  induction l as [|e l IH]; cbn [sort_entries fold_right find]; intros Hu; [reflexivity |]. fold (sort_entries l). rewrite find_insert.
  - rewrite IH; [reflexivity |]. intros x y Hx Hy. apply Hu; now right.
  - intros x Hx Hk. apply (Permutation_in _ (sort_entries_perm l)) in Hx. apply (uniform_same (e :: l)); auto using in_eq, in_cons.
Qed.

Lemma uniform_perm l k : Permutation l k -> uniform l -> uniform k.
Proof. intros Hp Hu x y Hx Hy. apply Permutation_sym in Hp. apply Hu; now apply (Permutation_in _ Hp). Qed.

Lemma nub_sort l : uniform l -> Permutation (nub (sort_entries l)) (nub l).
Proof. intros Hu. apply NoDup_Permutation; try apply nub_nodup. intros x. rewrite !nub_first. now rewrite find_sort. Qed.

Lemma distinct_uniform l transforms : uniform (map (newMatchEntry transforms) l) ->
  let d := distinct l transforms in strictly d /\ Permutation d (nub (map (newMatchEntry transforms) l)) /\ forall z, find (same_key z) d = find (same_key z) (map (newMatchEntry transforms) l).
Proof.
  intros Hu. unfold distinct, newMatchEntries. set (k := map _ _) in *. assert (Hs : StronglySorted (le_order key_order) (sort_entries k)) by (apply uniform_sorted; [| apply sort_entries_sorted]; apply (uniform_perm k); [apply Permutation_sym, sort_entries_perm | exact Hu]).
  rewrite dedup_nub by exact Hs. splits; [now apply nub_strictly | now apply nub_sort |]. intros z. now rewrite find_nub, find_sort.
Qed.

Lemma perm_filter {A} (p : A -> bool) l k : Permutation l k -> Permutation (filter p l) (filter p k).
Proof. induction 1; cbn; [constructor | destruct (p x); auto | destruct (p x), (p y); auto using perm_swap | etransitivity; eauto]. Qed.

(** C40: for all listings and name transformations [matchListings] returns (it neither
    panics nor loops): the entries reported as source only and as matched are, as a
    multiset, the sorted listing of the source less its adjacent duplicates, and the
    same holds on the destination's side; the two entries of a match have equal
    transformed names and equal types. *)
Theorem matchListings_partitions srcs dsts transforms : exists r, matchListings srcs dsts transforms = Ret r /\
  partitions (distinct srcs transforms) (distinct dsts transforms) r.
Proof. eexists. split; [apply matchListings_merge | apply merge_partitions]. Qed.

(** C21: when in each listing entries of equal transformed names have the same path (as in
    one directory of a case sensitive remote), [matchListings] finds what the naive
    search finds: of the entries that are the first of their name and type in the
    order of the listing, those without an entry of that name and type on the other
    side, and each other one with the first such entry there. *)
Theorem matchListings_reference srcs dsts transforms :
  let ss := map (newMatchEntry transforms) srcs in
  let ds := map (newMatchEntry transforms) dsts in
  uniform ss -> uniform ds ->
  exists r, matchListings srcs dsts transforms = Ret r /\
    Permutation (srcOnly r) (map entry (filter (unmatched ds) (nub ss))) /\
    Permutation (dstOnly r) (map entry (filter (unmatched ss) (nub ds))) /\
    Permutation (matches r) (flat_map (matching ds) (nub ss)).
Proof.
  intros ss ds Hs Hd. eexists. split; [apply matchListings_merge |].
  destruct (distinct_uniform srcs transforms Hs) as (Hs1 & Hs2 & Hs3), (distinct_uniform dsts transforms Hd) as (Hd1 & Hd2 & Hd3). fold ss in Hs2, Hs3. fold ds in Hd2, Hd3.
  rewrite (merge_reference _ _ Hs1 Hd1). cbn [reference srcOnly dstOnly matches]. splits.
  - apply Permutation_map. rewrite (filter_ext _ (unmatched ds)); [now apply perm_filter | intros x; unfold unmatched; now rewrite Hd3].
  - apply Permutation_map. rewrite (filter_ext _ (unmatched ss)); [now apply perm_filter | intros x; unfold unmatched; now rewrite Hs3].
  - rewrite (flat_map_ext _ (matching ds)); [now apply Permutation_flat_map | intros x; unfold matching; now rewrite Hd3].
Qed.

(** ** All orders of the goroutines *)

Lemma processJob_cases m job : (exists err, processJob m job = Ret ([], inr err)) \/
  exists srcs dsts, let r := merge (distinct srcs (m_transforms m)) (distinct dsts (m_transforms m)) in
    processJob m job = Ret (map SrcOnlyCall (srcOnly r) ++ map DstOnlyCall (dstOnly r) ++ map (fun '(src, dst) => MatchCall dst src) (matches r),
                            inl (flat_map (src_jobs m job) (srcOnly r) ++ flat_map (dst_jobs m job) (dstOnly r) ++ flat_map (match_jobs m job) (matches r))).
Proof.
  unfold processJob. destruct (if noSrc job then _ else _) as [srcList [err|]]; [left; eexists; now destruct (if negb _ && _ then _ else _) |].
  destruct (if negb (NoTraverse m) && negb (noDst job) then _ else _) as [dstList [[|code]|]]; [right | left; now eexists | right].
  all: cbv zeta; rewrite matchListings_merge; cbn [bind]; now eexists _, _.
Qed.

Lemma processJob_returns m job : exists evs new, processJob m job = Ret (evs, new).
Proof. destruct (processJob_cases m job) as [(err & ->)|(srcs & dsts & ->)]; eauto. Qed.

Definition depth (job : listDirJob) : nat := Z.to_nat (srcDepth job) + Z.to_nat (dstDepth job).

(** A job leads to jobs of less depth only. *)
Lemma processJob_depth m job evs new : processJob m job = Ret (evs, inl new) -> forall j, In j new -> depth j < depth job.
Proof.
  destruct (processJob_cases m job) as [(err & ->)|(srcs & dsts & ->)]; [discriminate |]. intros [= _ <-] j Hj. unfold depth. rewrite !in_app_iff, !in_flat_map in Hj. destruct Hj as [(x & _ & Hx)|[(x & _ & Hx)|([x y] & _ & Hx)]].
  all: unfold src_jobs, dst_jobs, match_jobs in Hx; match type of Hx with In _ (if ?b then _ else _) => destruct b eqn:Eb; [| easy] end; destruct Hx as [<-|[]].
  all: cbn [srcDepth dstDepth]; rewrite ?andb_true_iff, ?Z.ltb_lt in Eb; lia.
Qed.

(** The calls, errors and number of jobs when directories are visited one after the other *)
Record total : Type := { t_events : list (event E); t_errors : list listError; t_jobs : nat }.

Definition no_total : total := {| t_events := []; t_errors := []; t_jobs := 0 |}.
Definition add_total (a b : total) : total := {| t_events := t_events a ++ t_events b; t_errors := t_errors a ++ t_errors b; t_jobs := t_jobs a + t_jobs b |}.
Definition sum_total (l : list total) : total := fold_right add_total no_total l.

Fixpoint walk_fuel (fuel : nat) (m : March E) (job : listDirJob) : total :=
  match fuel with
  | O => no_total
  | S fuel =>
      match processJob m job with
      | Ret (evs, inr err) => {| t_events := evs; t_errors := [err]; t_jobs := 1 |}
      | Ret (evs, inl new) => add_total {| t_events := evs; t_errors := []; t_jobs := 1 |} (sum_total (map (walk_fuel fuel m) new))
      | _ => no_total
      end
  end.

Definition walk (m : March E) (job : listDirJob) : total := walk_fuel (S (depth job)) m job.

Lemma walk_more m job : forall fuel, depth job < fuel -> walk_fuel fuel m job = walk m job.
Proof.
  unfold walk. assert (Hw : forall n job fuel fuel', depth job < n -> depth job < fuel -> depth job < fuel' -> walk_fuel fuel m job = walk_fuel fuel' m job); [| intros fuel Hf; apply (Hw (S (depth job))); lia].
  clear job. induction n as [|n IH]; intros job [|fuel] [|fuel'] Hn Hf Hf'; try lia. cbn [walk_fuel]. destruct (processJob m job) as [[evs [new|err]]| | |] eqn:Ep; try reflexivity.
  do 2 f_equal. apply map_ext_in. intros j Hj. apply (processJob_depth _ _ _ _ Ep) in Hj. apply IH; lia.
Qed.

Lemma walk_new m job evs new : processJob m job = Ret (evs, inl new) ->
  walk m job = add_total {| t_events := evs; t_errors := []; t_jobs := 1 |} (sum_total (map (walk m) new)).
Proof.
  intros Ep. unfold walk at 1. cbn [walk_fuel]. rewrite Ep. do 2 f_equal. apply map_ext_in. intros j Hj. apply (processJob_depth _ _ _ _ Ep) in Hj. now apply walk_more.
Qed.

Lemma walk_error m job evs err : processJob m job = Ret (evs, inr err) -> walk m job = {| t_events := evs; t_errors := [err]; t_jobs := 1 |}.
Proof. intros Ep. unfold walk. cbn [walk_fuel]. now rewrite Ep. Qed.

(** Totals up to the order of the calls and of the errors *)
Definition total_eq (a b : total) : Prop :=
  Permutation (t_events a) (t_events b) /\ Permutation (t_errors a) (t_errors b) /\ t_jobs a = t_jobs b.

#[local] Instance total_equiv : Equivalence total_eq.
Proof.
  split.
  - intros a. repeat split; reflexivity.
  - intros a b (H1 & H2 & H3). repeat split; now symmetry.
  - intros a b c (H1 & H2 & H3) (H4 & H5 & H6). repeat split; etransitivity; eauto.
Qed.

#[local] Instance add_total_proper : Proper (total_eq ==> total_eq ==> total_eq) add_total.
Proof. intros a b (H1 & H2 & H3) c d (H4 & H5 & H6). repeat split; cbn; [now apply Permutation_app | now apply Permutation_app | lia]. Qed.

Lemma add_total_comm a b : total_eq (add_total a b) (add_total b a).
Proof. repeat split; cbn; [apply Permutation_app_comm | apply Permutation_app_comm | lia]. Qed.

Lemma add_total_assoc a b c : add_total a (add_total b c) = add_total (add_total a b) c.
Proof. unfold add_total. cbn. now rewrite !app_assoc, Nat.add_assoc. Qed.

Lemma sum_total_app a b : sum_total (a ++ b) = add_total (sum_total a) (sum_total b).
Proof. induction a as [|x a IH]; cbn [app]; [unfold add_total; cbn; now destruct (sum_total b) |].
  unfold sum_total in *. cbn [fold_right]. rewrite IH. apply add_total_assoc.
Qed.

(** What was done and what the jobs that wait will do *)
Definition whole (m : March E) (k : nat) (p : progress E) : total :=
  add_total {| t_events := p_events p; t_errors := p_errors p; t_jobs := k |} (sum_total (map (walk m) (p_jobs p))).

Lemma swap_middle a j b : total_eq (add_total a (add_total j b)) (add_total j (add_total a b)).
Proof. rewrite !add_total_assoc. now rewrite (add_total_comm a j). Qed.

Lemma step_whole m k p q : step m p q -> total_eq (whole m (S k) q) (whole m k p).
Proof.
  intros [a job b events errors evs new Ep|a job b events errors evs err Ep]; unfold whole; cbn [p_events p_errors p_jobs]; rewrite !map_app, !sum_total_app; cbn [map sum_total fold_right]; fold (sum_total (map (walk m) b)); rewrite (swap_middle _ (walk m job)).
  - rewrite (walk_new m job evs new Ep), (add_total_comm (sum_total (map (walk m) b))), (swap_middle _ (sum_total (map (walk m) new))), !add_total_assoc.
    repeat split; cbn; rewrite ?app_nil_r; try reflexivity. lia.
  - rewrite (walk_error m job evs err Ep), !add_total_assoc. repeat split; cbn; try reflexivity. lia.
Qed.

Lemma steps_whole m k n p q : steps m n p q -> total_eq (whole m (n + k) q) (whole m k p).
Proof.
  intros Hs. revert k. induction Hs as [p|n p q r Hpq Hqr IH]; intros k; [reflexivity |]. rewrite <- (step_whole m k p q Hpq), <- (IH (S k)). now rewrite Nat.add_succ_r.
Qed.

Lemma walk_one m job : 1 <= t_jobs (walk m job).
Proof.
  destruct (processJob_returns m job) as (evs & [new|err] & Ep); [rewrite (walk_new m job evs new Ep) | rewrite (walk_error m job evs err Ep)]; cbn; lia.
Qed.

Lemma can_step m p : p_jobs p <> [] -> exists q, step m p q.
Proof.
  destruct p as [[|job jobs] events errors]; [easy | intros _]. destruct (processJob_returns m job) as (evs & [new|err] & Ep); eexists.
  - exact (step_jobs m [] job jobs events errors evs new Ep).
  - exact (step_error m [] job jobs events errors evs err Ep).
Qed.

Lemma whole_start m job : whole m 0 (start job) = walk m job.
Proof. unfold whole, start, sum_total. cbn [p_events p_errors p_jobs map fold_right]. destruct (walk m job). unfold add_total. cbn. now rewrite !app_nil_r, Nat.add_0_r. Qed.

(** C22: a march ends, whatever order the goroutines take the jobs in: from the job that
    it starts with, no run has more steps than there are directories to visit, a step
    is possible as long as jobs wait, and when none waits the calls that were made and
    the errors that were met are those of the visit of one directory after the
    other, in some order; so [Run] fails in one order exactly when it does in all, with
    the same number of errors. *)
Theorem march_all_orders m job k q : steps m k (start job) q ->
  k <= t_jobs (walk m job) /\
  (p_jobs q <> [] -> exists q', step m q q') /\
  (p_jobs q = [] -> k = t_jobs (walk m job) /\ Permutation (p_events q) (t_events (walk m job)) /\ Permutation (p_errors q) (t_errors (walk m job)) /\
    (Run_error (p_errors q) = None <-> t_errors (walk m job) = []) /\ length (p_errors q) = length (t_errors (walk m job))).
Proof.
  intros Hs. apply (steps_whole m 0) in Hs. rewrite Nat.add_0_r, whole_start in Hs. destruct Hs as (H1 & H2 & H3). unfold whole in H1, H2, H3. cbn [add_total t_events t_errors t_jobs] in H1, H2, H3.
  generalize dependent (walk m job). intros w H1 H2 H3. split; [lia |]. split; [apply can_step |]. intros Hq. rewrite Hq in H1, H2, H3. cbn in H1, H2, H3. rewrite ?app_nil_r, ?Nat.add_0_r in *. splits; auto; [| now apply Permutation_length].
  destruct (p_errors q) as [|e [|e' l]]; [apply Permutation_nil in H2; rewrite H2 | |]; cbn; split; try easy; intros He; rewrite He in H2; now apply Permutation_sym, Permutation_nil in H2.
Qed.
End March.

(** ** Witnesses *)

#[local] Existing Instance named_entry.

Definition file_at (s : string) : list N * bool := (bytes_of s, false).
Definition dir_at (s : string) : list N * bool := (bytes_of s, true).

Definition srcs_example : list (list N * bool) := [file_at "d/one"; dir_at "d/two"; file_at "d/one"; file_at "d/two"].
Definition dsts_example : list (list N * bool) := [dir_at "d/two"; file_at "d/three"].

Lemma srcs_uniform : uniform (map (newMatchEntry []) srcs_example).
Proof. intros x y Hx Hy. cbn in Hx, Hy. repeat destruct Hx as [<-|Hx]; try easy; repeat destruct Hy as [<-|Hy]; easy. Qed.

Lemma dsts_uniform : uniform (map (newMatchEntry []) dsts_example).
Proof. intros x y Hx Hy. cbn in Hx, Hy. repeat destruct Hx as [<-|Hx]; try easy; repeat destruct Hy as [<-|Hy]; easy. Qed.

Lemma matchListings_reference_witness :
  (exists r, matchListings srcs_example dsts_example [] = Ret r /\ matches r = [(dir_at "d/two", dir_at "d/two")]) /\
  uniform (map (newMatchEntry []) srcs_example) /\ uniform (map (newMatchEntry []) dsts_example) /\
  exists r, matchListings srcs_example dsts_example [] = Ret r /\
    Permutation (srcOnly r) (map entry (filter (unmatched (map (newMatchEntry []) dsts_example)) (nub (map (newMatchEntry []) srcs_example)))) /\
    Permutation (dstOnly r) (map entry (filter (unmatched (map (newMatchEntry []) srcs_example)) (nub (map (newMatchEntry []) dsts_example)))) /\
    Permutation (matches r) (flat_map (matching (map (newMatchEntry []) dsts_example)) (nub (map (newMatchEntry []) srcs_example))).
Proof.
  split; [eexists; split; vm_compute; reflexivity |]. split; [exact srcs_uniform |]. split; [exact dsts_uniform |].
  exact (matchListings_reference srcs_example dsts_example [] srcs_uniform dsts_uniform).
Defined.

(** The source has a file and a directory with a file, the destination only the file. *)
Definition march_example : March (list N * bool) := {|
  NoTraverse := false; NoCheckDest := false;
  srcListDir := fun d => if eqb_bytes d [] then ([file_at "f"; dir_at "d"], None) else if eqb_bytes d (bytes_of "d") then ([file_at "d/g"], None) else ([], Some ErrorDirNotFound);
  dstListDir := fun d => if eqb_bytes d [] then ([file_at "f"], None) else ([], Some ErrorDirNotFound);
  NewObject := fun _ => None; arrival := fun l => l; m_transforms := [];
  SrcOnly := snd; DstOnly := snd; Match := fun _ src => snd src |}.

Definition job_example : listDirJob := first_job march_example [] 10 false.

Definition end_example : progress (list N * bool) :=
  {| p_jobs := []; p_events := [SrcOnlyCall (dir_at "d"); MatchCall (file_at "f") (file_at "f"); SrcOnlyCall (file_at "d/g")]; p_errors := [] |}.

Lemma march_all_orders_witness : steps march_example 2 (start job_example) end_example /\
  2 <= t_jobs (walk march_example job_example) /\
  (p_jobs end_example <> [] -> exists q', step march_example end_example q') /\
  (p_jobs end_example = [] -> 2 = t_jobs (walk march_example job_example) /\ Permutation (p_events end_example) (t_events (walk march_example job_example)) /\
    Permutation (p_errors end_example) (t_errors (walk march_example job_example)) /\
    (Run_error (p_errors end_example) = None <-> t_errors (walk march_example job_example) = []) /\ length (p_errors end_example) = length (t_errors (walk march_example job_example))).
Proof.
  assert (Hs : steps march_example 2 (start job_example) end_example).
  { eapply steps_more; [apply (step_jobs march_example [] job_example []); vm_compute; reflexivity |].
    eapply steps_more; [eapply (step_jobs march_example [] _ []); vm_compute; reflexivity |]. cbn. exact (steps_none march_example end_example). }
  split; [exact Hs |]. exact (march_all_orders march_example job_example 2 end_example Hs).
Defined.
